(* ===== verification/_CoqProject ===== *)
-Q . S2P
Prelude.v
Crc.v
Partitions.v
Addr.v
Frames.v
Paging.v
PagingMap.v
Buddy.v
FrameAlloc.v
Sched.v
Irq.v
Ext4.v
Extents.v
AllocHeader.v
RbTree.v
RbRemove.v
KHeap.v
KHeapSafe.v
Vob.v
Bitmap.v
Inodes.v
Dirs.v
Ports.v
Time.v
PciClass.v
Pci.v
PciSpec.v
PciEnum.v
Bitfield.v
Gdt.v
Ata.v
AtaSpec.v
Ide.v
Fis.v
AhciRegs.v
Ahci.v
AhciSpec.v
Cpu.v
MpTable.v
Apic.v
IoApic.v
IoApicSpec.v
LocalApic.v
LocalApicSpec.v
Acpi.v
Clocks.v
Video.v
Multiboot.v
Smbios.v
Vfs.v
Ext4Types.v
KernelSec.v
BootServices.v
VobOps.v
Panic.v
