(* ===== verification/Prelude.v ===== *)
(** * FrozenBoot: a verification of its core

    The repository (src/) is a 64-bit x86 kernel and its 32-bit bootloader in
    Rust.  This library models the parts that carry its own logic and proves
    what makes them correct; where the code does something else than it means to,
    the theorem says what it does.

    ** The program and its models

    - Prelude.v (this file): outcomes of partial code, machine words, packed
      little-endian structures, and the tactics and hints of the library.
    - Crc.v: the table-driven CRC-32 of src/fs/partitions/gpt.rs and CRC-32C of
      src/fs/ext4/mod.rs, with their tables.
    - Partitions.v: src/fs/partitions/{mbr,gpt,mod}.rs.  On-disk MBR and GPT
      structures, their accessors, the loaders [load_drive_mbr] and
      [load_drive_gpt], the choice of a filesystem by [load_fs].  Disks are the
      class [DiskDevice] (src/drivers/generics/dev_disk.rs), filesystems the class
      [Fs] (src/fs/mod.rs).
    - Addr.v: src/mem/{mod,utils}.rs.  Virtual and physical addresses, their
      arithmetic, masking conversions and bit slices.
    - Frames.v: the trait [FrameAllocator] of
      src/x86/paging/page_alloc/frame_alloc.rs as a class, and the contract
      [FreshFrames] that the paging code relies on: a frame that is handed out is
      aligned and was not handed out before.
    - Paging.v, PagingMap.v: src/x86/paging/page_table/{mod,translate,mapper}.rs.
      Page-table entries, address translation, the three [map_*_page], the mapping
      and unmapping of ranges, over tables kept in physical memory; the processor's
      walk is [walk].  PagingMap.v proves the mapper against [FreshFrames].
    - Buddy.v: src/mem/bmalloc/heap.rs, the buddy allocator of the bootloader, over
      a memory that holds the links of its free lists.
    - FrameAlloc.v: src/x86/paging/page_alloc/frame_alloc.rs and
      src/mem/e820.rs, the frame allocator of the kernel, which shares the buddy
      code of Buddy.v, and its pool; it discharges [FreshFrames].
    - Sched.v: src/fzboot/scheduler, src/fzboot/process, src/mem/stack.rs.  Tasks,
      threads, processes, kernel stacks, the round-robin queue, the timer
      interrupt and the task switch, on one record [ks] for the kernel's globals.
    - Irq.v: src/x86/descriptors/idt.rs and src/fzboot/irq/{handlers,manager}.rs.
      Gates, the descriptor table in memory, handler registration and dispatch.
    - Ext4.v: src/fs/ext4/{sb,mod}.rs.  The superblock, mounting, block reads; the
      instance [Ext4_Fs] of [Fs].
    - Extents.v: src/fs/ext4/{extent,file}.rs and the inode structure of inode.rs.
      Extent blocks, the traversal of extent trees, block mapping, file reads.
    - AllocHeader.v, RbTree.v, RbRemove.v: src/mem/vmalloc/{kheap,rbtree}.rs.
      The packed headers of heap blocks and the red-black tree of free blocks, with
      its nodes in memory and linked by addresses; insertion, removal, best fit.
    - KHeap.v, KHeapSafe.v: src/mem/vmalloc/{mod,kheap}.rs, the kernel heap:
      allocation with splitting, freeing with merging, over the tree and a source of
      pages (class [PageSource]); KHeapSafe.v proves it.
    - Vob.v, VobOps.v: src/deps/vob/src/lib.rs, the bit vector, its iterators and operators.
    - Bitmap.v, Inodes.v, Dirs.v: src/fs/ext4/{bitmap,block_grp,inode,dir,mod}.rs.
      Block and inode bitmaps, group descriptors and their caches, the inode cache,
      directories and the conversion of their entries.
    - Ports.v: src/io/mod.rs, src/io/{pic,ps2}/mod.rs.  Port input and output over a
      bus (class [PortBus]), the interrupt controllers, the PS/2 waits.
    - Time.v: src/fzboot/time/{mod,rtc}.rs.  Dates, timestamps, the real-time clock.
    - PciClass.v, Pci.v, PciSpec.v, PciEnum.v: src/drivers/pci/{mod,device}.rs.  Device
      classes, configuration space, headers, base address registers, enumeration, and
      the command and status registers, over a model of configuration space.
    - Bitfield.v, Gdt.v: src/x86/descriptors/gdt.rs.  Segment descriptors, selectors,
      and the descriptor table in memory, over packed structures (class
      [ModularBitfield]).
    - Ata.v, AtaSpec.v, Ide.v: src/drivers/ide/{ata_pio,ata_command,mod}.rs.  The ATA
      driver in PIO mode with its interrupt handler, over [PortBus] and the interrupt
      line of the drive ([IntLine]); AtaSpec.v has a drive and proves the driver on
      it; the IDE controllers.
    - Fis.v, AhciRegs.v, Ahci.v, AhciSpec.v: src/drivers/ahci.  The frames exchanged
      with a drive, the registers and command structures of a controller (class
      [HbaBus]), commands, interrupts and drives; AhciSpec.v has a controller with a
      drive and proves the driver on it.
    - Cpu.v, KernelSec.v: src/x86/{mod,cpuid,msr,flags}.rs, src/x86/registers/control.rs
      and src/mem/kernel_sec.rs.  Identification, model-specific and control registers,
      the interrupt flag (class [Cpu]); the protections NX, SMAP and SMEP.
    - MpTable.v, Apic.v, IoApic.v, IoApicSpec.v, LocalApic.v, LocalApicSpec.v:
      src/x86/apic.  The multiprocessor tables, the redirection tables of the I/O APICs
      and the local APIC with its timer and interprocessor interrupts, over registers in
      memory (class [MmioBus]); the Spec files have devices and prove the set-up on them.
    - Acpi.v, Clocks.v: src/io/acpi, src/x86/tsc.rs.  The root pointer, the lookup and the
      checksum of tables, the HPET ([Mmio64]), the time-stamp counter ([Tsc]) and its
      calibration, in double-precision floating point.
    - Video.v: src/video/vesa.  The text framebuffer, over a font ([Font]), and the choice
      of a video mode ([VideoBios]).
    - Panic.v: src/fzboot/exceptions/panic.rs.  The panic screens with their stack trace, on
      the framebuffer behind its lock.
    - Multiboot.v, Smbios.v: src/boot/multiboot/mb_information.rs, src/bios/smbios.rs.  What
      the loader hands over to the kernel; the structures and strings of the firmware.
    - BootServices.v: src/io/disk/bios.rs and the collection of the memory map of
      src/mem/e820.rs, over the calls of the BIOS.
    - Vfs.v: the interface [FsFile] of src/fs/mod.rs with its provided methods, and the
      files of ext4 as one of its implementations.
    - Ext4Types.v: the feature sets, flags, ranges and numbers in halves of
      src/fs/ext4/{sb,inode,block_grp}.rs.

    Components meet at the interfaces of the source: Partitions calls a filesystem
    through [Fs], which Ext4 implements; PagingMap calls a frame allocator through
    [FrameAllocator] and [FreshFrames], which FrameAlloc implements; Sched maps
    its stacks with Paging; KHeap gets its pages through [PageSource], whose instance is the
    mapper over the frame allocator; the drivers reach their devices through [PortBus],
    [HbaBus] and [MmioBus]; what reads a whole file does so through [FsFile], which the files
    of ext4 implement.

    ** What is proved

    - Storage: the checksums equal their bitwise definitions and detect any error
      in one byte; a GPT header with a corrupted byte among those that are checked is
      rejected; a table that is returned is
      the one on disk, and a well-formed disk gives one; structures round-trip
      through their bytes; a mounted ext4 filesystem has the superblock of its partition,
      whose CRC-32C, if it has one, is right;
      extent trees on disk are loaded completely and blocks are mapped by them.
    - Memory: after a page that lies under no large page is mapped, the processor's walk
      reaches the frame, and every other translation is kept; the frame allocator, on a
      pool aligned on its size, hands out fresh aligned frames (the pool that follows the
      kernel image is not aligned, and its first allocation frees the image); over any run of the bootloader heap the blocks in use are disjoint
      and inside the heap, and every call returns.
    - Kernel heap: insertion and removal keep a red-black tree of exactly the right
      blocks; over any run of allocations and frees, and any memory manager, the heap is
      tiled by its blocks and those in use are disjoint; an allocation takes the smallest free
      mapped block that is large enough, else asks for pages for the unmapped one, and
      returns when the memory manager does.
    - ext4 metadata: the bit vector refines a list of bits, one case of its growth apart; the
      caches of group
      descriptors, bitmaps and inodes are transparent; what a directory iterator
      returns.
    - Devices: dates equal the proleptic calendar up to 2099, firsts of months and times
      before 1970 apart; what the clock shows is what is read; waits are bounded; the interrupt
      controllers are set up as asked; the PCI enumeration ends and finds every
      function once, and loading a device finds and restores its registers; the
      descriptor table of the kernel is the intended one; the ATA driver on a PIO
      drive is a disk: any sequence of reads and writes returns what an array of
      blocks would, errors included, if the drive is ready for the data of a write as soon
      as it has the command, and a write never returns if it is not; the AHCI driver returns the data of the drive up
      to 16 sectors, and what it returns beyond; the registers of a frame are
      independent.
    - Scheduling: a preempted task resumes with the registers it had, whatever steps the
      kernel makes in between; the states reached from boot are safe; timer interrupts serve
      the queue in turn and rotate it; what spawning a thread or a process changes.
    - Interrupts: dynamic handlers run by priority; what registration does to the
      table in memory, the registry and the interrupt flag, on every branch.
    - Interrupt controllers: the tables of a firmware image are loaded as they are, and
      their search ends; every line of an I/O APIC but the first gets the entry the tables ask for; the
      local APIC is set up, and an interprocessor interrupt is sent once, with the fields
      given, to the destination given; what is left off without tables.
    - Platform: the searches of firmware structures end at the first match; calibration
      ends at the first reading of the reference clock that is a millisecond ahead, with the
      frequency of the counters; a printed character shows its raster in its cell and nothing
      else changes, and no text leaves the screen, if the buffer reaches to the last pixel
      (with padded lines the one the constructors make does not, and printing panics); the
      panic screens are shown, for messages in ASCII and frames that can be read, whatever the
      lock and the cursor were; the framebuffer the kernel gets is the one the loader
      has; the protections the processor has are on and no other bit changes; sector
      addresses are converted by the inverse of their numbering.
    - Files: a file of ext4 in one extent is appended to a buffer wherever the cursor was,
      whole if it is shorter than a block and only with its last block otherwise, or an error
      is returned and nothing changes; feature sets are sets of bits.
    - The rest states exactly the behaviours that differ from what the code
      means: lost bits, blocks that are never read, a list walk that does not end.

    ** Conventions and bounds

    An integer of [w] bits is a [Z] in [0, 2^w) and wraps, since the images are
    release builds; shift amounts are masked.  A function that can panic or
    dereference a bad pointer returns an [outcome].  [NoFuel] is the outcome of a
    loop that does not end, or of a lock that is never released: a loop with a
    static bound is a structural recursion on that bound, and has no fuel.  Fuel is
    left in these places: [log2] (one more than the width, which the model itself
    provides), the loop over the memory map (more than its number of entries), the
    list walk of the buddy allocators (more than [2 ^ (N - 1)], the number of
    blocks a list can have, by [heap_blocks_disjoint]; [Frame_remove_blk_cases]
    shows when no fuel is enough), the traversal of extent trees (the height of the
    tree, at most 5 in ext4, plus one), the binary search (the length of the list)
    and the once-handlers of an interrupt (their number plus one), the last two
    provided by the model; the walks of the free tree ([TREE_FUEL], 256, more than
    twice the logarithm of any number of nodes that memory can hold); the scans of a
    bit vector (its number of words plus one); a directory search (its number of
    entries plus one); the loops that read the clock (the number of readings, since
    the clock alone decides when they end); the nesting of PCI buses (256, the
    number of buses, since secondary buses have greater numbers), the entries of a
    descriptor table that is read back (their number) and the waits for an
    interrupt of a drive (the number of sectors); the searches of the multiprocessor
    pointer (8192 steps), of the ACPI root pointer (0x4000) and of the SMBIOS entry (0x1000),
    which are the numbers of aligned addresses in the areas; the choice of an I/O APIC
    identifier ([IOAPIC_FUEL], 256, the number of identifiers); the name of the loader, the
    walk over SMBIOS structures and the list of video modes (more than their lengths); the
    replacement character of a font (1 step); the wait of the calibration (the number
    of readings until a millisecond has passed); the calls for the memory map (its number of
    entries).  A wait with a timeout is a loop of
    [polls] turns and needs no fuel: it gives up after the last.

    Code outside src/ is a parameter: the bit layout of the page flags (a
    [bitfield] crate), the alignment test of [bytemuck] ([Bytemuck]), the generated interrupt
    entry points, the fields of packed structures
    ([ModularBitfield]), the glyphs of
    the fonts ([Font]), the instructions of the processor ([Cpu], [AccessControl], [Tsc]) and
    the calls of the BIOS ([VideoBios], [BiosDisk]).  So is what the language does not fix, the layout of the
    structures without [repr(C)] ([SbLayout]) and the bytes of a block that is split
    off, and the hardware behind the ports ([PortBus]) and behind the memory of a
    controller ([HbaBus]).

    ** What is not modelled

    Assembly entry code and the order in which the entry points call the initialisers; the
    switch to user mode; logging and the formatting of values for display; the interpreter
    behind the [acpi] crate; the directory trait of the virtual filesystem; the vendored
    crates other than the bit vector, procedural macros and the build tool. *)

From stdpp Require Export base numbers list gmap.
From Stdlib Require Export ZArith Lia Bool Btauto.

#[global] Open Scope Z_scope.

Declare Scope fz_scope.
Delimit Scope fz_scope with fz.
#[global] Open Scope fz_scope.

Create HintDb fz discriminated.
Create Rewrite HintDb fz_word.

(** * Outcomes

    Rust code of the repository ends in one of four ways: it returns, it
    panics ([panic!], a failed [assert!], [unwrap] of [None], an index out of
    range), it dereferences a pointer that designates no object of the model
    ([Faulted]), or the model's loop runs out of the steps it was given. *)
Inductive outcome (A : Type) : Type :=
  | Done (a : A)
  | Panicked
  | Faulted
  | NoFuel.
Arguments Done {A} _.
Arguments Panicked {A}.
Arguments Faulted {A}.
Arguments NoFuel {A}.

#[global] Instance outcome_ret : MRet outcome := @Done.
#[global] Instance outcome_bind : MBind outcome := λ A B f m,
  match m with
  | Done a => f a
  | Panicked => Panicked
  | Faulted => Faulted
  | NoFuel => NoFuel
  end.
#[global] Instance outcome_fmap : FMap outcome := λ A B f m,
  match m with
  | Done a => Done (f a)
  | Panicked => Panicked
  | Faulted => Faulted
  | NoFuel => NoFuel
  end.

(** [assert!(b)] and [expect]/[unwrap] on an option. *)
Definition rust_assert (b : bool) : outcome unit := if b then Done () else Panicked.
Definition unwrap {A} (o : option A) : outcome A :=
  match o with Some a => Done a | None => Panicked end.
(** Reading through a raw pointer. *)
Definition deref {A} (o : option A) : outcome A :=
  match o with Some a => Done a | None => Faulted end.

Lemma outcome_bind_Done {A B} (m : outcome A) (f : A → outcome B) b :
  m ≫= f = Done b ↔ ∃ a, m = Done a ∧ f a = Done b.
Proof. destruct m; simpl; naive_solver. Qed.

Lemma rust_assert_Done b u : rust_assert b = Done u ↔ b = true.
Proof. destruct b, u; simpl; naive_solver. Qed.

Lemma unwrap_Done {A} (o : option A) a : unwrap o = Done a ↔ o = Some a.
Proof. destruct o; simpl; naive_solver. Qed.

Lemma deref_Done {A} (o : option A) a : deref o = Done a ↔ o = Some a.
Proof. destruct o; simpl; naive_solver. Qed.

(** Inverts every bind of a successful run in the context. *)
Ltac inv_done :=
  repeat match goal with
  | H : Done _ = Done _ |- _ => injection H as H
  | H : _ ≫= _ = Done _ |- _ =>
      apply outcome_bind_Done in H; destruct H as (? & ? & H)
  | H : rust_assert _ = Done _ |- _ => apply rust_assert_Done in H
  | H : unwrap _ = Done _ |- _ => apply unwrap_Done in H
  | H : deref _ = Done _ |- _ => apply deref_Done in H
  | H : Panicked = Done _ |- _ => discriminate H
  | H : Faulted = Done _ |- _ => discriminate H
  | H : NoFuel = Done _ |- _ => discriminate H
  end; simplify_eq/=.

(** * Loops *)

(** [for x in a..b]. *)
Definition range (a b : Z) : list Z := seqZ a (b - a).
Fixpoint for_each {S : Type} (l : list Z) (body : Z → S → outcome S) (s : S) : outcome S :=
  match l with
  | [] => Done s
  | x :: l => s ← body x s; for_each l body s
  end.

Lemma for_each_ind {S : Type} (P : list Z → S → Prop) l body s : P [] s →
  (∀ l1 x l2 s, l = l1 ++ x :: l2 → P l1 s → ∃ s', body x s = Done s' ∧ P (l1 ++ [x]) s') →
  ∃ s', for_each l body s = Done s' ∧ P l s'.
Proof.
  intros H0 Hstep. cut (∀ l1 l2 s, l = l1 ++ l2 → P l1 s → ∃ s', for_each l2 body s = Done s' ∧ P l s').
  { intros Hc. by apply (Hc [] l). }
  intros l1 l2. revert l1. induction l2 as [|x l2 IH]; intros l1 s1 E Hs.
  - exists s1. by rewrite E, app_nil_r.
  - destruct (Hstep _ _ _ _ E Hs) as (s2 & Hb & Hs2). simpl. rewrite Hb. simpl.
    apply (IH (l1 ++ [x])); [by rewrite <- app_assoc|done].
Qed.
Lemma elem_of_range a b x : x ∈ range a b ↔ a ≤ x < b.
Proof. unfold range. rewrite elem_of_seqZ. lia. Qed.
Lemma NoDup_range a b : NoDup (range a b).
Proof. apply NoDup_seqZ. Qed.

(** [Result<A, E>]. *)
Inductive result (A E : Type) : Type :=
  | Ok (a : A)
  | Err (e : E).
Arguments Ok {A E} _.
Arguments Err {A E} _.

(** * Machine words

    A [w]-bit unsigned integer is a [Z] in [0, 2^w).  The images are built with
    [--release], so that [+], [-] and [*] wrap around. *)
Definition wrap (w z : Z) : Z := z mod 2 ^ w.
Definition u8 (z : Z) : Z := wrap 8 z.
Definition u16 (z : Z) : Z := wrap 16 z.
Definition u32 (z : Z) : Z := wrap 32 z.
Definition u64 (z : Z) : Z := wrap 64 z.
Definition u64_max : Z := 2 ^ 64 - 1.

Definition in_width (w z : Z) : Prop := 0 ≤ z < 2 ^ w.
#[global] Instance in_width_dec w z : Decision (in_width w z).
Proof. unfold in_width. apply _. Defined.

(** Bitwise complement at width [w]. *)
Definition not_w (w z : Z) : Z := 2 ^ w - 1 - z.

Lemma pow2_pos w : 0 ≤ w → 0 < 2 ^ w.
Proof. intros. apply Z.pow_pos_nonneg; lia. Qed.

Lemma wrap_range w z : 0 ≤ w → in_width w (wrap w z).
Proof. intros. apply Z.mod_pos_bound, pow2_pos; lia. Qed.

Lemma wrap_id w z : in_width w z → wrap w z = z.
Proof. apply Z.mod_small. Qed.

Lemma wrap_wrap w z : 0 ≤ w → wrap w (wrap w z) = wrap w z.
Proof. intros. by apply wrap_id, wrap_range. Qed.

Lemma u8_range z : 0 ≤ u8 z < 256.
Proof. by apply (wrap_range 8). Qed.
Lemma u16_range z : 0 ≤ u16 z < 65536.
Proof. by apply (wrap_range 16). Qed.
Lemma u32_range z : 0 ≤ u32 z < 2 ^ 32.
Proof. by apply (wrap_range 32). Qed.
Lemma u64_range z : 0 ≤ u64 z < 2 ^ 64.
Proof. by apply (wrap_range 64). Qed.

Lemma u64_id z : 0 ≤ z < 2 ^ 64 → u64 z = z.
Proof. apply wrap_id. Qed.

Lemma testbit_wrap w z i : 0 ≤ w →
  Z.testbit (wrap w z) i = Z.testbit z i && bool_decide (i < w).
Proof.
  intros. unfold wrap. case_bool_decide.
  - destruct (decide (0 ≤ i)); [|by rewrite !Z.testbit_neg_r by lia].
    by rewrite Z.mod_pow2_bits_low, andb_true_r by lia.
  - by rewrite Z.mod_pow2_bits_high, andb_false_r by lia.
Qed.

Lemma testbit_above w z i : in_width w z → 0 ≤ w ≤ i → Z.testbit z i = false.
Proof.
  intros Hz Hi. rewrite <- (wrap_id w z Hz), testbit_wrap by lia.
  case_bool_decide; [lia|]. by rewrite andb_false_r.
Qed.

(** A word is determined by its bits below its width. *)
Lemma word_eq w a b : 0 ≤ w → in_width w a → in_width w b →
  (∀ i, 0 ≤ i < w → Z.testbit a i = Z.testbit b i) → a = b.
Proof.
  intros Hw Ha Hb E. apply Z.bits_inj'. intros i Hi.
  destruct (decide (i < w)); [apply E; lia|].
  by rewrite !(testbit_above w) by (done || lia).
Qed.

Lemma in_width_testbit w z : 0 ≤ w →
  (∀ i, w ≤ i → Z.testbit z i = false) → in_width w z.
Proof.
  intros Hw E. assert (wrap w z = z) as <-; [|by apply wrap_range].
  apply Z.bits_inj'. intros i Hi. rewrite testbit_wrap by done.
  case_bool_decide; [by rewrite andb_true_r|].
  by rewrite andb_false_r, E by lia.
Qed.

Lemma in_width_lor w a b : 0 ≤ w → in_width w a → in_width w b → in_width w (Z.lor a b).
Proof.
  intros Hw Ha Hb. apply in_width_testbit; [done|]. intros i Hi.
  by rewrite Z.lor_spec, (testbit_above w a), (testbit_above w b) by (done || lia).
Qed.

Lemma in_width_land_l w a b : 0 ≤ w → in_width w a → in_width w (Z.land a b).
Proof.
  intros Hw Ha. apply in_width_testbit; [done|]. intros i Hi.
  by rewrite Z.land_spec, (testbit_above w a) by (done || lia).
Qed.

Lemma in_width_land_r w a b : 0 ≤ w → in_width w b → in_width w (Z.land a b).
Proof. intros. rewrite Z.land_comm. by apply in_width_land_l. Qed.

Lemma in_width_ldiff w a b : 0 ≤ w → in_width w a → in_width w (Z.ldiff a b).
Proof.
  intros Hw Ha. apply in_width_testbit; [done|]. intros i Hi. by rewrite Z.ldiff_spec, (testbit_above w a) by (done || lia).
Qed.

Lemma in_width_lxor w a b : 0 ≤ w → in_width w a → in_width w b → in_width w (Z.lxor a b).
Proof.
  intros Hw Ha Hb. apply in_width_testbit; [done|]. intros i Hi.
  by rewrite Z.lxor_spec, (testbit_above w a), (testbit_above w b) by (done || lia).
Qed.

(** A number is its low and its high bits. *)
Lemma split_halves w n v : 0 ≤ n → 0 ≤ w → in_width (n + w) v →
  Z.lor (Z.land v (Z.ones n)) (Z.shiftl (Z.land (Z.shiftr v n) (Z.ones w)) n) = v.
Proof.
  intros Hn Hw Hv. apply Z.bits_inj'. intros i Hi. rewrite Z.lor_spec, Z.land_spec, Z.testbit_ones_nonneg by lia.
  destruct (decide (i < n)).
  - rewrite Z.shiftl_spec_low, (proj2 (Z.ltb_lt _ _)) by lia. by rewrite andb_true_r, orb_false_r.
  - rewrite Z.shiftl_spec, Z.land_spec, Z.shiftr_spec, Z.testbit_ones_nonneg by lia.
    rewrite (proj2 (Z.ltb_ge i n)), andb_false_r, orb_false_l, Z.sub_add by lia.
    destruct (decide (i - n < w)); [by rewrite (proj2 (Z.ltb_lt _ _)), andb_true_r by lia|].
    rewrite (testbit_above (n + w) v i Hv) by lia. done.
Qed.

Lemma testbit_not_w w z i : 0 ≤ i < w →
  Z.testbit (not_w w z) i = negb (Z.testbit z i).
Proof.
  intros Hi. unfold not_w. replace (2 ^ w - 1 - z) with (Z.lnot z + 1 * 2 ^ w)
    by (unfold Z.lnot; lia).
  rewrite <- (Z.mod_pow2_bits_low _ w) by lia.
  rewrite Z_mod_plus_full, Z.mod_pow2_bits_low by lia. by rewrite Z.lnot_spec by lia.
Qed.

Lemma in_width_not_w w z : in_width w z → in_width w (not_w w z).
Proof. unfold in_width, not_w. lia. Qed.

Lemma in_width_mono w w' z : 0 ≤ w ≤ w' → in_width w z → in_width w' z.
Proof.
  unfold in_width. intros. assert (2 ^ w ≤ 2 ^ w') by (apply Z.pow_le_mono_r; lia). lia.
Qed.

(** A word put above the bits of another one. *)
Lemma lor_shiftl_add n a b : 0 ≤ n → 0 ≤ b < 2 ^ n → Z.lor (Z.shiftl a n) b = a * 2 ^ n + b.
Proof.
  intros Hn Hb. rewrite <- (Z.mod_small b (2 ^ n)) at 1 by done. rewrite Z.lor_comm, <- Z.shiftl_mul_pow2 by done.
  rewrite Z.add_nocarry_lxor, <- Z.lxor_lor.
  - rewrite Z.lxor_comm. f_equal. by rewrite Z.mod_small.
  - apply Z.bits_inj'. intros i Hi. rewrite Z.land_spec, Z.bits_0. destruct (decide (i < n)).
    + by rewrite Z.shiftl_spec_low, andb_false_r by lia.
    + by rewrite Z.mod_pow2_bits_high by lia.
  - apply Z.bits_inj'. intros i Hi. rewrite Z.land_spec, Z.bits_0. destruct (decide (i < n)).
    + by rewrite Z.shiftl_spec_low by lia.
    + by rewrite (testbit_above n b), andb_false_r by (done || lia).
Qed.

#[export] Hint Resolve wrap_range in_width_lor in_width_land_l in_width_lxor
  in_width_not_w : fz.

(** Bit-by-bit computation of a term made of constants and bit operations. *)
#[export] Hint Rewrite Z.lor_spec Z.land_spec Z.lxor_spec Z.ldiff_spec Z.bits_0 : fz_word.
#[export] Hint Rewrite Z.shiftl_spec Z.shiftr_spec Z.lnot_spec using lia : fz_word.

(** * Little-endian byte strings and packed structures *)

Definition byte (b : Z) : Prop := in_width 8 b.
#[global] Instance byte_dec b : Decision (byte b) := in_width_dec 8 b.

Fixpoint le_bytes (n : nat) (z : Z) : list Z :=
  match n with
  | O => []
  | S n => z mod 256 :: le_bytes n (z / 256)
  end.
Fixpoint of_le (l : list Z) : Z :=
  match l with
  | [] => 0
  | b :: l => b + 256 * of_le l
  end.

Lemma length_le_bytes n z : length (le_bytes n z) = n.
Proof. revert z. induction n; intros; simpl; auto. Qed.

Lemma pow256_succ n : 2 ^ (8 * Z.of_nat (S n)) = 256 * 2 ^ (8 * Z.of_nat n).
Proof.
  replace (8 * Z.of_nat (S n)) with (8 + 8 * Z.of_nat n) by lia.
  by rewrite Z.pow_add_r by lia.
Qed.

Lemma le_bytes_byte n z : Forall byte (le_bytes n z).
Proof.
  revert z. induction n; intros; simpl; constructor; [|done].
  by apply (Z.mod_pos_bound z 256).
Qed.

Lemma of_le_le_bytes n z : in_width (8 * Z.of_nat n) z → of_le (le_bytes n z) = z.
Proof.
  unfold in_width. revert z. induction n as [|n IH]; intros z Hz; simpl.
  - simpl in Hz. change (2 ^ 0) with 1 in Hz. lia.
  - rewrite pow256_succ in Hz. rewrite IH.
    + pose proof (Z.div_mod z 256). lia.
    + split; [apply Z.div_pos; lia|]. apply Z.div_lt_upper_bound; lia.
Qed.

Lemma of_le_range l : Forall byte l → in_width (8 * Z.of_nat (length l)) (of_le l).
Proof.
  unfold in_width. induction 1 as [|b l Hb _ IH]; [done|].
  simpl length. rewrite pow256_succ. unfold byte, in_width in Hb.
  change (2 ^ 8) with 256 in Hb. simpl. lia.
Qed.

Lemma le_bytes_of_le l : Forall byte l → le_bytes (length l) (of_le l) = l.
Proof.
  induction 1 as [|b l Hb _ IH]; simpl; [done|].
  unfold byte, in_width in Hb. change (2 ^ 8) with 256 in Hb.
  replace (b + 256 * of_le l) with (b + of_le l * 256) by lia.
  rewrite Z_mod_plus_full, Z.mod_small, Z.div_add, Z.div_small by lia.
  by rewrite Z.add_0_l, IH.
Qed.

(** The fields of a packed structure, given the byte width of each. *)
Fixpoint decode_fields (ws : list nat) (bs : list Z) : list Z :=
  match ws with
  | [] => []
  | w :: ws => of_le (take w bs) :: decode_fields ws (drop w bs)
  end.
Fixpoint encode_fields (ws : list nat) (vs : list Z) : list Z :=
  match ws, vs with
  | w :: ws, v :: vs => le_bytes w v ++ encode_fields ws vs
  | _, _ => []
  end.

Definition fields_fit (ws : list nat) (vs : list Z) : Prop :=
  Forall2 (λ w v, in_width (8 * Z.of_nat w) v) ws vs.
#[global] Instance fields_fit_dec ws vs : Decision (fields_fit ws vs).
Proof. unfold fields_fit. apply _. Defined.

Lemma decode_encode_fields ws vs rest : fields_fit ws vs →
  decode_fields ws (encode_fields ws vs ++ rest) = vs.
Proof.
  intros H. revert rest. induction H as [|w v ws vs Hwv _ IH]; intros rest; simpl; [done|].
  rewrite <- app_assoc, take_app_le, take_ge by (rewrite length_le_bytes; lia).
  rewrite of_le_le_bytes by done. f_equal.
  rewrite drop_app_le, drop_ge by (rewrite length_le_bytes; lia). apply IH.
Qed.

Lemma length_encode_fields ws vs : length vs = length ws →
  length (encode_fields ws vs) = sum_list ws.
Proof.
  revert vs. induction ws as [|w ws IH]; intros [|v vs] H; simpl in *; try done.
  rewrite length_app, length_le_bytes, IH; lia.
Qed.

Lemma length_decode_fields ws bs : length (decode_fields ws bs) = length ws.
Proof. revert bs. induction ws; intros; simpl; auto. Qed.

Lemma encode_decode_fields ws bs : length bs = sum_list ws → Forall byte bs →
  encode_fields ws (decode_fields ws bs) = bs.
Proof.
  revert bs. induction ws as [|w ws IH]; intros bs Hl Hb; simpl in *.
  - by apply nil_length_inv in Hl as ->.
  - assert (Hw : length (take w bs) = w) by (rewrite length_take; lia).
    rewrite <- Hw at 1. rewrite le_bytes_of_le by (by apply Forall_take).
    rewrite IH, take_drop; [done| |by apply Forall_drop].
    rewrite length_drop. lia.
Qed.

Lemma decode_fields_fit ws bs : length bs = sum_list ws → Forall byte bs →
  fields_fit ws (decode_fields ws bs).
Proof.
  unfold fields_fit. revert bs.
  induction ws as [|w ws IH]; intros bs Hl Hb; simpl in *; constructor.
  - replace w with (length (take w bs)) at 1 by (rewrite length_take; lia).
    by apply of_le_range, Forall_take.
  - apply IH; [rewrite length_drop; lia|by apply Forall_drop].
Qed.

(** [core::ptr::read] of [n] bytes at offset [off] of a buffer. *)
Definition read_at (buf : list Z) (off n : nat) : outcome (list Z) :=
  if bool_decide (off + n ≤ length buf)%nat then Done (take n (drop off buf)) else Faulted.

Lemma read_at_length buf off n bs : read_at buf off n = Done bs → length bs = n.
Proof.
  unfold read_at. case_bool_decide; [|done]. intros [= <-].
  rewrite length_take, length_drop. lia.
Qed.

Lemma read_at_byte buf off n bs : Forall byte buf → read_at buf off n = Done bs → Forall byte bs.
Proof.
  unfold read_at. case_bool_decide; [|done]. intros ? [= <-].
  by apply Forall_take, Forall_drop.
Qed.

Lemma encode_fields_app ws1 ws2 vs1 vs2 : length vs1 = length ws1 →
  encode_fields (ws1 ++ ws2) (vs1 ++ vs2) = encode_fields ws1 vs1 ++ encode_fields ws2 vs2.
Proof.
  revert vs1. induction ws1 as [|w ws1 IH]; intros [|v vs1] H; simpl in *; try done.
  by rewrite IH, app_assoc by lia.
Qed.

Lemma decode_fields_app ws1 ws2 bs :
  decode_fields (ws1 ++ ws2) bs
  = decode_fields ws1 bs ++ decode_fields ws2 (drop (sum_list ws1) bs).
Proof.
  revert bs. induction ws1 as [|w ws1 IH]; intros bs; simpl; [by rewrite drop_0|].
  by rewrite IH, drop_drop.
Qed.

Lemma decode_fields_take ws n bs : (sum_list ws ≤ n)%nat →
  decode_fields ws (take n bs) = decode_fields ws bs.
Proof.
  revert n bs. induction ws as [|w ws IH]; intros n bs Hn; simpl in *; [done|].
  rewrite take_take, Nat.min_l by lia. f_equal.
  by rewrite skipn_firstn_comm, IH by lia.
Qed.

(** Lists of a known length, one element at a time. *)
Lemma length_S_inv {A} (l : list A) n : length l = S n → ∃ x l', l = x :: l' ∧ length l' = n.
Proof. destruct l; simpl; naive_solver. Qed.

(** Concatenations. *)
Lemma elem_of_concat_map {A B} (g : A → list B) xs y : y ∈ concat (map g xs) ↔ ∃ x, x ∈ xs ∧ y ∈ g x.
Proof. induction xs as [|x xs IH]; simpl; [set_solver|]. rewrite elem_of_app, IH. set_solver. Qed.
Lemma NoDup_concat_map {A B} (g : A → list B) xs : NoDup xs → (∀ x, x ∈ xs → NoDup (g x)) →
  (∀ x y z, x ∈ xs → y ∈ xs → z ∈ g x → z ∈ g y → x = y) → NoDup (concat (map g xs)).
Proof.
  induction 1 as [|x xs Hx Hxs IH]; intros Hg Hd; simpl; [constructor|]. apply NoDup_app. split_and!.
  - apply Hg. set_solver.
  - intros z Hz (y & Hy & Hzy)%elem_of_concat_map. apply Hx. by rewrite (Hd x y z) by set_solver.
  - apply IH; set_solver.
Qed.

(** Concatenations of lists of the same length. *)
Lemma length_concat_same {A} (n : nat) (ls : list (list A)) : Forall (λ l, length l = n) ls →
  length (concat ls) = (length ls * n)%nat.
Proof. induction 1 as [|l ls Hl _ IH]; simpl; [done|]. rewrite length_app, IH. lia. Qed.
Lemma lookup_concat_same {A} (n : nat) (ls : list (list A)) i : (0 < n)%nat → Forall (λ l, length l = n) ls →
  concat ls !! i = ls !! (i / n)%nat ≫= (.!! (i mod n)%nat).
Proof.
  intros Hn Hls. revert i. induction Hls as [|l ls Hl _ IH]; intros i; [done|]. cbn [concat].
  destruct (decide (i < n)%nat) as [Hi|Hi].
  - rewrite lookup_app_l by lia. by rewrite Nat.div_small, Nat.mod_small by done.
  - rewrite lookup_app_r by lia. rewrite IH, Hl.
    replace i with ((i - n) + 1 * n)%nat at 3 4 by lia. rewrite Nat.div_add, Nat.Div0.mod_add by lia.
    by rewrite Nat.add_1_r.
Qed.

Ltac explode_list l :=
  repeat match goal with
  | H : length l = S _ |- _ =>
      let x := fresh "x" in let l' := fresh "l" in let E := fresh "E" in
      destruct (length_S_inv l _ H) as (x & l' & -> & E); clear H; explode_list l'
  | H : length l = O |- _ => apply nil_length_inv in H; subst l
  end.
