(* ===== verification/Crc.v ===== *)
(** Table-driven CRC-32 of the GUID partition table (src/fs/partitions/gpt.rs)
    and CRC-32C of ext4 (src/fs/ext4/mod.rs): the two routines, the bitwise
    definition of a reflected CRC they implement, and what a checksum detects. *)

From S2P Require Import Prelude.

(** [CRC_32_ANSI_TAB] of gpt.rs. *)
Definition CRC_32_ANSI_TAB : list Z := [
  0x00000000; 0x77073096; 0xee0e612c; 0x990951ba; 0x076dc419; 0x706af48f; 0xe963a535; 0x9e6495a3;
  0x0edb8832; 0x79dcb8a4; 0xe0d5e91e; 0x97d2d988; 0x09b64c2b; 0x7eb17cbd; 0xe7b82d07; 0x90bf1d91;
  0x1db71064; 0x6ab020f2; 0xf3b97148; 0x84be41de; 0x1adad47d; 0x6ddde4eb; 0xf4d4b551; 0x83d385c7;
  0x136c9856; 0x646ba8c0; 0xfd62f97a; 0x8a65c9ec; 0x14015c4f; 0x63066cd9; 0xfa0f3d63; 0x8d080df5;
  0x3b6e20c8; 0x4c69105e; 0xd56041e4; 0xa2677172; 0x3c03e4d1; 0x4b04d447; 0xd20d85fd; 0xa50ab56b;
  0x35b5a8fa; 0x42b2986c; 0xdbbbc9d6; 0xacbcf940; 0x32d86ce3; 0x45df5c75; 0xdcd60dcf; 0xabd13d59;
  0x26d930ac; 0x51de003a; 0xc8d75180; 0xbfd06116; 0x21b4f4b5; 0x56b3c423; 0xcfba9599; 0xb8bda50f;
  0x2802b89e; 0x5f058808; 0xc60cd9b2; 0xb10be924; 0x2f6f7c87; 0x58684c11; 0xc1611dab; 0xb6662d3d;
  0x76dc4190; 0x01db7106; 0x98d220bc; 0xefd5102a; 0x71b18589; 0x06b6b51f; 0x9fbfe4a5; 0xe8b8d433;
  0x7807c9a2; 0x0f00f934; 0x9609a88e; 0xe10e9818; 0x7f6a0dbb; 0x086d3d2d; 0x91646c97; 0xe6635c01;
  0x6b6b51f4; 0x1c6c6162; 0x856530d8; 0xf262004e; 0x6c0695ed; 0x1b01a57b; 0x8208f4c1; 0xf50fc457;
  0x65b0d9c6; 0x12b7e950; 0x8bbeb8ea; 0xfcb9887c; 0x62dd1ddf; 0x15da2d49; 0x8cd37cf3; 0xfbd44c65;
  0x4db26158; 0x3ab551ce; 0xa3bc0074; 0xd4bb30e2; 0x4adfa541; 0x3dd895d7; 0xa4d1c46d; 0xd3d6f4fb;
  0x4369e96a; 0x346ed9fc; 0xad678846; 0xda60b8d0; 0x44042d73; 0x33031de5; 0xaa0a4c5f; 0xdd0d7cc9;
  0x5005713c; 0x270241aa; 0xbe0b1010; 0xc90c2086; 0x5768b525; 0x206f85b3; 0xb966d409; 0xce61e49f;
  0x5edef90e; 0x29d9c998; 0xb0d09822; 0xc7d7a8b4; 0x59b33d17; 0x2eb40d81; 0xb7bd5c3b; 0xc0ba6cad;
  0xedb88320; 0x9abfb3b6; 0x03b6e20c; 0x74b1d29a; 0xead54739; 0x9dd277af; 0x04db2615; 0x73dc1683;
  0xe3630b12; 0x94643b84; 0x0d6d6a3e; 0x7a6a5aa8; 0xe40ecf0b; 0x9309ff9d; 0x0a00ae27; 0x7d079eb1;
  0xf00f9344; 0x8708a3d2; 0x1e01f268; 0x6906c2fe; 0xf762575d; 0x806567cb; 0x196c3671; 0x6e6b06e7;
  0xfed41b76; 0x89d32be0; 0x10da7a5a; 0x67dd4acc; 0xf9b9df6f; 0x8ebeeff9; 0x17b7be43; 0x60b08ed5;
  0xd6d6a3e8; 0xa1d1937e; 0x38d8c2c4; 0x4fdff252; 0xd1bb67f1; 0xa6bc5767; 0x3fb506dd; 0x48b2364b;
  0xd80d2bda; 0xaf0a1b4c; 0x36034af6; 0x41047a60; 0xdf60efc3; 0xa867df55; 0x316e8eef; 0x4669be79;
  0xcb61b38c; 0xbc66831a; 0x256fd2a0; 0x5268e236; 0xcc0c7795; 0xbb0b4703; 0x220216b9; 0x5505262f;
  0xc5ba3bbe; 0xb2bd0b28; 0x2bb45a92; 0x5cb36a04; 0xc2d7ffa7; 0xb5d0cf31; 0x2cd99e8b; 0x5bdeae1d;
  0x9b64c2b0; 0xec63f226; 0x756aa39c; 0x026d930a; 0x9c0906a9; 0xeb0e363f; 0x72076785; 0x05005713;
  0x95bf4a82; 0xe2b87a14; 0x7bb12bae; 0x0cb61b38; 0x92d28e9b; 0xe5d5be0d; 0x7cdcefb7; 0x0bdbdf21;
  0x86d3d2d4; 0xf1d4e242; 0x68ddb3f8; 0x1fda836e; 0x81be16cd; 0xf6b9265b; 0x6fb077e1; 0x18b74777;
  0x88085ae6; 0xff0f6a70; 0x66063bca; 0x11010b5c; 0x8f659eff; 0xf862ae69; 0x616bffd3; 0x166ccf45;
  0xa00ae278; 0xd70dd2ee; 0x4e048354; 0x3903b3c2; 0xa7672661; 0xd06016f7; 0x4969474d; 0x3e6e77db;
  0xaed16a4a; 0xd9d65adc; 0x40df0b66; 0x37d83bf0; 0xa9bcae53; 0xdebb9ec5; 0x47b2cf7f; 0x30b5ffe9;
  0xbdbdf21c; 0xcabac28a; 0x53b39330; 0x24b4a3a6; 0xbad03605; 0xcdd70693; 0x54de5729; 0x23d967bf;
  0xb3667a2e; 0xc4614ab8; 0x5d681b02; 0x2a6f2b94; 0xb40bbe37; 0xc30c8ea1; 0x5a05df1b; 0x2d02ef8d
].

(** [CRC32C_LO_TABLE] of ext4/mod.rs. *)
Definition CRC32C_LO_TABLE : list Z := [
  0x00000000; 0xf26b8303; 0xe13b70f7; 0x1350f3f4; 0xc79a971f; 0x35f1141c; 0x26a1e7e8; 0xd4ca64eb;
  0x8ad958cf; 0x78b2dbcc; 0x6be22838; 0x9989ab3b; 0x4d43cfd0; 0xbf284cd3; 0xac78bf27; 0x5e133c24;
  0x105ec76f; 0xe235446c; 0xf165b798; 0x030e349b; 0xd7c45070; 0x25afd373; 0x36ff2087; 0xc494a384;
  0x9a879fa0; 0x68ec1ca3; 0x7bbcef57; 0x89d76c54; 0x5d1d08bf; 0xaf768bbc; 0xbc267848; 0x4e4dfb4b;
  0x20bd8ede; 0xd2d60ddd; 0xc186fe29; 0x33ed7d2a; 0xe72719c1; 0x154c9ac2; 0x061c6936; 0xf477ea35;
  0xaa64d611; 0x580f5512; 0x4b5fa6e6; 0xb93425e5; 0x6dfe410e; 0x9f95c20d; 0x8cc531f9; 0x7eaeb2fa;
  0x30e349b1; 0xc288cab2; 0xd1d83946; 0x23b3ba45; 0xf779deae; 0x05125dad; 0x1642ae59; 0xe4292d5a;
  0xba3a117e; 0x4851927d; 0x5b016189; 0xa96ae28a; 0x7da08661; 0x8fcb0562; 0x9c9bf696; 0x6ef07595;
  0x417b1dbc; 0xb3109ebf; 0xa0406d4b; 0x522bee48; 0x86e18aa3; 0x748a09a0; 0x67dafa54; 0x95b17957;
  0xcba24573; 0x39c9c670; 0x2a993584; 0xd8f2b687; 0x0c38d26c; 0xfe53516f; 0xed03a29b; 0x1f682198;
  0x5125dad3; 0xa34e59d0; 0xb01eaa24; 0x42752927; 0x96bf4dcc; 0x64d4cecf; 0x77843d3b; 0x85efbe38;
  0xdbfc821c; 0x2997011f; 0x3ac7f2eb; 0xc8ac71e8; 0x1c661503; 0xee0d9600; 0xfd5d65f4; 0x0f36e6f7;
  0x61c69362; 0x93ad1061; 0x80fde395; 0x72966096; 0xa65c047d; 0x5437877e; 0x4767748a; 0xb50cf789;
  0xeb1fcbad; 0x197448ae; 0x0a24bb5a; 0xf84f3859; 0x2c855cb2; 0xdeeedfb1; 0xcdbe2c45; 0x3fd5af46;
  0x7198540d; 0x83f3d70e; 0x90a324fa; 0x62c8a7f9; 0xb602c312; 0x44694011; 0x5739b3e5; 0xa55230e6;
  0xfb410cc2; 0x092a8fc1; 0x1a7a7c35; 0xe811ff36; 0x3cdb9bdd; 0xceb018de; 0xdde0eb2a; 0x2f8b6829;
  0x82f63b78; 0x709db87b; 0x63cd4b8f; 0x91a6c88c; 0x456cac67; 0xb7072f64; 0xa457dc90; 0x563c5f93;
  0x082f63b7; 0xfa44e0b4; 0xe9141340; 0x1b7f9043; 0xcfb5f4a8; 0x3dde77ab; 0x2e8e845f; 0xdce5075c;
  0x92a8fc17; 0x60c37f14; 0x73938ce0; 0x81f80fe3; 0x55326b08; 0xa759e80b; 0xb4091bff; 0x466298fc;
  0x1871a4d8; 0xea1a27db; 0xf94ad42f; 0x0b21572c; 0xdfeb33c7; 0x2d80b0c4; 0x3ed04330; 0xccbbc033;
  0xa24bb5a6; 0x502036a5; 0x4370c551; 0xb11b4652; 0x65d122b9; 0x97baa1ba; 0x84ea524e; 0x7681d14d;
  0x2892ed69; 0xdaf96e6a; 0xc9a99d9e; 0x3bc21e9d; 0xef087a76; 0x1d63f975; 0x0e330a81; 0xfc588982;
  0xb21572c9; 0x407ef1ca; 0x532e023e; 0xa145813d; 0x758fe5d6; 0x87e466d5; 0x94b49521; 0x66df1622;
  0x38cc2a06; 0xcaa7a905; 0xd9f75af1; 0x2b9cd9f2; 0xff56bd19; 0x0d3d3e1a; 0x1e6dcdee; 0xec064eed;
  0xc38d26c4; 0x31e6a5c7; 0x22b65633; 0xd0ddd530; 0x0417b1db; 0xf67c32d8; 0xe52cc12c; 0x1747422f;
  0x49547e0b; 0xbb3ffd08; 0xa86f0efc; 0x5a048dff; 0x8ecee914; 0x7ca56a17; 0x6ff599e3; 0x9d9e1ae0;
  0xd3d3e1ab; 0x21b862a8; 0x32e8915c; 0xc083125f; 0x144976b4; 0xe622f5b7; 0xf5720643; 0x07198540;
  0x590ab964; 0xab613a67; 0xb831c993; 0x4a5a4a90; 0x9e902e7b; 0x6cfbad78; 0x7fab5e8c; 0x8dc0dd8f;
  0xe330a81a; 0x115b2b19; 0x020bd8ed; 0xf0605bee; 0x24aa3f05; 0xd6c1bc06; 0xc5914ff2; 0x37faccf1;
  0x69e9f0d5; 0x9b8273d6; 0x88d28022; 0x7ab90321; 0xae7367ca; 0x5c18e4c9; 0x4f48173d; 0xbd23943e;
  0xf36e6f75; 0x0105ec76; 0x12551f82; 0xe03e9c81; 0x34f4f86a; 0xc69f7b69; 0xd5cf889d; 0x27a40b9e;
  0x79b737ba; 0x8bdcb4b9; 0x988c474d; 0x6ae7c44e; 0xbe2da0a5; 0x4c4623a6; 0x5f16d052; 0xad7d5351
].

(** One round of either routine: [TAB[((crc ^ b) & 0xff)] ^ (crc >> 8)].  The
    index is below 256, so the array access is in range. *)
Definition crc_round (tab : list Z) (crc b : Z) : Z :=
  Z.lxor (nth (Z.to_nat (Z.land (Z.lxor crc b) 0xff)) tab 0) (Z.shiftr crc 8).

(** [crc32_calc] of gpt.rs. *)
Definition crc32_calc (buf : list Z) : Z :=
  not_w 32 (fold_left (crc_round CRC_32_ANSI_TAB) buf 0xFFFFFFFF).

(** [crc32c_calc] of ext4/mod.rs: no final complement. *)
Definition crc32c_calc (buf : list Z) : Z :=
  fold_left (crc_round CRC32C_LO_TABLE) buf 0xFFFFFFFF.

(** * The bitwise reference

    A reflected CRC shifts the register right once per bit and adds the
    polynomial when the bit shifted out is set. *)
Definition crc_shift (poly c : Z) : Z :=
  if Z.testbit c 0 then Z.lxor (Z.shiftr c 1) poly else Z.shiftr c 1.
Definition crc_shift8 (poly c : Z) : Z :=
  Nat.iter 8 (crc_shift poly) c.
Definition crc_byte (poly crc b : Z) : Z := crc_shift8 poly (Z.lxor crc b).
Definition crc_ref (poly : Z) (buf : list Z) : Z :=
  fold_left (crc_byte poly) buf 0xFFFFFFFF.

Definition poly_ansi : Z := 0xEDB88320.
Definition poly_castagnoli : Z := 0x82F63B78.

Section table.
Context (poly : Z) (tab : list Z).
Context (poly_top : Z.testbit poly 31 = true).
Context (poly_width : in_width 32 poly).
Context (tab_ok : ∀ i, 0 ≤ i < 256 → nth (Z.to_nat i) tab 0 = crc_shift8 poly i).

Lemma crc_shift_lxor a b :
  crc_shift poly (Z.lxor a b) = Z.lxor (crc_shift poly a) (crc_shift poly b).
Proof using Type.
  unfold crc_shift. rewrite Z.lxor_spec, Z.shiftr_lxor.
  destruct (Z.testbit a 0), (Z.testbit b 0); simpl; apply Z.bits_inj'; intros i Hi;
    autorewrite with fz_word; repeat case_match; btauto.
Qed.

Lemma crc_shift8_lxor a b :
  crc_shift8 poly (Z.lxor a b) = Z.lxor (crc_shift8 poly a) (crc_shift8 poly b).
Proof using Type.
  unfold crc_shift8. generalize 8%nat. intros n.
  induction n as [|n IH]; simpl; [done|]. by rewrite IH, crc_shift_lxor.
Qed.

Lemma crc_shift_even x n : 0 < n →
  crc_shift poly (Z.shiftl x n) = Z.shiftl x (n - 1).
Proof using Type.
  intros. unfold crc_shift. rewrite Z.shiftl_spec_low by lia.
  by rewrite Z.shiftr_shiftl_l by lia.
Qed.

Lemma crc_shift8_high x : crc_shift8 poly (Z.shiftl x 8) = x.
Proof using Type.
  unfold crc_shift8. simpl. rewrite !crc_shift_even by lia. apply Z.shiftl_0_r.
Qed.

(** A round of the table-driven loop is eight shifts of the reference. *)
Lemma crc_round_byte crc b : byte b → crc_round tab crc b = crc_byte poly crc b.
Proof using tab_ok.
  intros Hb. unfold crc_round, crc_byte.
  set (x := Z.lxor crc b).
  assert (Hx : x = Z.lxor (Z.land x 0xff) (Z.shiftl (Z.shiftr x 8) 8)).
  { apply Z.bits_inj'. intros i Hi. change 0xff with (Z.ones 8).
    rewrite Z.lxor_spec, Z.land_spec.
    destruct (decide (i < 8)).
    - rewrite Z.ones_spec_low, Z.shiftl_spec_low by lia. btauto.
    - rewrite Z.ones_spec_high, Z.shiftl_spec, Z.shiftr_spec by lia.
      replace (i - 8 + 8) with i by lia. btauto. }
  rewrite tab_ok.
  - rewrite Hx at 2. rewrite crc_shift8_lxor, crc_shift8_high. f_equal.
    subst x. rewrite Z.shiftr_lxor. rewrite (Z.shiftr_div_pow2 b) by lia.
    rewrite (Z.div_small b) by apply Hb. by rewrite Z.lxor_0_r.
  - change 0xff with (Z.ones 8). rewrite Z.land_ones by lia.
    apply Z.mod_pos_bound. lia.
Qed.

Lemma crc_rounds_bytes buf c : Forall byte buf →
  fold_left (crc_round tab) buf c = fold_left (crc_byte poly) buf c.
Proof using tab_ok.
  intros H. revert c. induction H as [|b buf Hb _ IH]; intros c; simpl; [done|].
  by rewrite crc_round_byte, IH.
Qed.

(** A shift loses nothing: the polynomial marks the bit that was shifted out
    at the top of the register, which is free. *)
Lemma crc_shift_inj a b : in_width 32 a → in_width 32 b →
  crc_shift poly a = crc_shift poly b → a = b.
Proof using poly_top.
  intros Ha Hb E.
  assert (Hbit : ∀ i, 0 ≤ i → Z.testbit (crc_shift poly a) i = Z.testbit (crc_shift poly b) i)
    by (intros; by rewrite E).
  assert (Hs : ∀ x i, 0 ≤ i → Z.testbit (crc_shift poly x) i
    = xorb (Z.testbit x (i + 1)) (Z.testbit x 0 && Z.testbit poly i)).
  { intros x i Hi. unfold crc_shift. destruct (Z.testbit x 0);
      autorewrite with fz_word; btauto. }
  assert (H0 : Z.testbit a 0 = Z.testbit b 0).
  { specialize (Hbit 31 ltac:(lia)). rewrite !Hs in Hbit by lia.
    rewrite (testbit_above 32 a), (testbit_above 32 b), poly_top in Hbit by (done || lia).
    by rewrite !andb_true_r in Hbit. }
  apply Z.bits_inj'. intros i Hi. destruct (decide (i = 0)) as [->|]; [done|].
  specialize (Hbit (i - 1) ltac:(lia)). rewrite !Hs, H0 in Hbit by lia.
  replace (i - 1 + 1) with i in Hbit by lia.
  by destruct (Z.testbit a i), (Z.testbit b i), (Z.testbit b 0), (Z.testbit poly (i - 1)).
Qed.

Lemma crc_shift_width c : in_width 32 c → in_width 32 (crc_shift poly c).
Proof using poly_width.
  intros Hc. assert (in_width 32 (Z.shiftr c 1)).
  { apply in_width_testbit; [done|]. intros i Hi. rewrite Z.shiftr_spec by lia.
    apply (testbit_above 32); [done|lia]. }
  unfold crc_shift. case_match; [|done]. by apply in_width_lxor.
Qed.

Lemma crc_shift8_width c : in_width 32 c → in_width 32 (crc_shift8 poly c).
Proof using poly_width.
  intros Hc. unfold crc_shift8. simpl. by repeat apply crc_shift_width.
Qed.

Lemma crc_shift8_inj a b : in_width 32 a → in_width 32 b →
  crc_shift8 poly a = crc_shift8 poly b → a = b.
Proof using poly_top poly_width.
  intros Ha Hb. unfold crc_shift8. generalize 8%nat. intros n.
  assert (Hw : ∀ m c, in_width 32 c → in_width 32 (Nat.iter m (crc_shift poly) c)).
  { intros m c Hc. induction m; simpl; [done|]. by apply crc_shift_width. }
  induction n as [|n IH]; simpl; [done|].
  intros E%crc_shift_inj; [by apply IH|by apply Hw..].
Qed.

Lemma byte_width32 b : byte b → in_width 32 b.
Proof using Type. apply in_width_mono. lia. Qed.

Lemma crc_byte_width crc b : in_width 32 crc → byte b → in_width 32 (crc_byte poly crc b).
Proof using poly_width.
  intros. apply crc_shift8_width, in_width_lxor; [done|done|by apply byte_width32].
Qed.

Lemma crc_bytes_width buf c : Forall byte buf → in_width 32 c →
  in_width 32 (fold_left (crc_byte poly) buf c).
Proof using poly_width.
  intros H. revert c. induction H; intros c Hc; simpl; [done|].
  by apply IHForall, crc_byte_width.
Qed.

(** The register after a suffix determines the register before it. *)
Lemma crc_bytes_inj buf c c' : Forall byte buf → in_width 32 c → in_width 32 c' →
  fold_left (crc_byte poly) buf c = fold_left (crc_byte poly) buf c' → c = c'.
Proof using poly_top poly_width.
  intros H. revert c c'. induction H as [|b buf Hb _ IH]; intros c c' Hc Hc' E; [done|].
  apply byte_width32 in Hb as Hb'. simpl in E.
  apply IH, crc_shift8_inj in E; try by (apply in_width_lxor || apply crc_byte_width).
  apply (f_equal (λ x, Z.lxor x b)) in E.
  by rewrite !Z.lxor_assoc, !Z.lxor_nilpotent, !Z.lxor_0_r in E.
Qed.

(** Replacing one byte of a message changes the register. *)
Lemma crc_bytes_single pre b b' post c :
  Forall byte pre → Forall byte post → byte b → byte b' → in_width 32 c → b ≠ b' →
  fold_left (crc_byte poly) (pre ++ b :: post) c
    ≠ fold_left (crc_byte poly) (pre ++ b' :: post) c.
Proof using poly_top poly_width.
  intros Hpre Hpost Hb Hb' Hc Hne E. rewrite !fold_left_app in E. simpl in E.
  pose proof (crc_bytes_width pre c Hpre Hc) as Hw.
  apply crc_bytes_inj, crc_shift8_inj in E;
    try by (apply in_width_lxor || apply crc_byte_width || done); try by apply byte_width32.
  apply Hne. apply (f_equal (Z.lxor (fold_left (crc_byte poly) pre c))) in E.
  by rewrite <- !Z.lxor_assoc, !Z.lxor_nilpotent, !Z.lxor_0_l in E.
Qed.
End table.

Definition table_correct (poly : Z) (tab : list Z) : bool :=
  forallb (λ n, Z.eqb (nth n tab 0) (crc_shift8 poly (Z.of_nat n))) (seq 0 256).

Lemma table_correct_spec poly tab : table_correct poly tab = true →
  ∀ i, 0 ≤ i < 256 → nth (Z.to_nat i) tab 0 = crc_shift8 poly i.
Proof.
  unfold table_correct. rewrite forallb_forall. intros H i Hi.
  specialize (H (Z.to_nat i)). rewrite Z.eqb_eq, Z2Nat.id in H by lia.
  apply H, in_seq. lia.
Qed.

Lemma ansi_table : ∀ i, 0 ≤ i < 256 →
  nth (Z.to_nat i) CRC_32_ANSI_TAB 0 = crc_shift8 poly_ansi i.
Proof. apply table_correct_spec. by vm_compute. Qed.

Lemma castagnoli_table : ∀ i, 0 ≤ i < 256 →
  nth (Z.to_nat i) CRC32C_LO_TABLE 0 = crc_shift8 poly_castagnoli i.
Proof. apply table_correct_spec. by vm_compute. Qed.

(** A checksum has 32 bits. *)
Lemma crc32c_range buf : in_width 32 (crc32c_calc buf).
Proof.
  assert (Ht : Forall (in_width 32) CRC32C_LO_TABLE).
  { apply (bool_decide_eq_true_1 (Forall _ _)). by vm_compute. }
  unfold crc32c_calc. generalize 4294967295 (eq_refl : bool_decide (in_width 32 4294967295) = true).
  induction buf as [|b buf IH]; intros c Hc; apply bool_decide_eq_true in Hc; simpl; [done|].
  apply IH, bool_decide_eq_true. unfold crc_round. apply in_width_lxor; [done|..].
  - destruct (nth_in_or_default (Z.to_nat (Z.land (Z.lxor c b) 255)) CRC32C_LO_TABLE 0) as [Hin| ->]; [|done].
    rewrite Forall_forall in Ht. by apply Ht, list_elem_of_In.
  - apply in_width_testbit; [done|]. intros i Hi. rewrite Z.shiftr_spec by lia. apply (testbit_above 32); [done|lia].
Qed.

Lemma not_w_inj w a b : not_w w a = not_w w b → a = b.
Proof. unfold not_w. lia. Qed.

(** C36: the table-driven [crc32_calc] of the GPT code computes the bitwise
    reflected CRC-32 with polynomial 0xEDB88320, initial value and final
    complement 0xFFFFFFFF, on every byte string. *)
Theorem crc32_calc_is_crc32 buf : Forall byte buf →
  crc32_calc buf = not_w 32 (crc_ref poly_ansi buf).
Proof.
  intros H. unfold crc32_calc, crc_ref.
  by rewrite (crc_rounds_bytes poly_ansi _ ansi_table _ _ H).
Qed.

Lemma crc32_calc_is_crc32_witness :
  Forall byte [0x31; 0x32; 0x33] ∧ crc32_calc [0x31; 0x32; 0x33] = not_w 32 (crc_ref poly_ansi [0x31; 0x32; 0x33]).
Proof.
  assert (H : Forall byte [0x31; 0x32; 0x33]) by (repeat constructor; by vm_compute).
  split; [exact H|]. exact (crc32_calc_is_crc32 _ H).
Defined.

(** The table-driven [crc32c_calc] of the ext4 code computes the bitwise
    reflected CRC-32C (Castagnoli, 0x82F63B78) without a final complement, on
    every byte string. *)
Theorem crc32c_calc_is_crc32c buf : Forall byte buf →
  crc32c_calc buf = crc_ref poly_castagnoli buf.
Proof.
  intros H. unfold crc32c_calc, crc_ref.
  by rewrite (crc_rounds_bytes poly_castagnoli _ castagnoli_table _ _ H).
Qed.

Lemma crc32c_calc_is_crc32c_witness :
  Forall byte [0x31; 0x32] ∧ crc32c_calc [0x31; 0x32] = crc_ref poly_castagnoli [0x31; 0x32].
Proof.
  assert (H : Forall byte [0x31; 0x32]) by (repeat constructor; by vm_compute).
  split; [exact H|]. exact (crc32c_calc_is_crc32c _ H).
Defined.

(** The check value of CRC-32, the checksum of the digits "123456789". *)
Example crc32_check_value :
  crc32_calc [0x31; 0x32; 0x33; 0x34; 0x35; 0x36; 0x37; 0x38; 0x39] = 0xCBF43926.
Proof. by vm_compute. Qed.

Lemma crc32_byte_error pre b b' post :
  Forall byte pre → Forall byte post → byte b → byte b' → b ≠ b' →
  crc32_calc (pre ++ b :: post) ≠ crc32_calc (pre ++ b' :: post).
Proof.
  intros Hpre Hpost Hb Hb' Hne E%not_w_inj.
  rewrite !(crc_rounds_bytes poly_ansi _ ansi_table) in E by (apply Forall_app; auto).
  revert E. by apply crc_bytes_single.
Qed.

Lemma crc32c_byte_error pre b b' post :
  Forall byte pre → Forall byte post → byte b → byte b' → b ≠ b' →
  crc32c_calc (pre ++ b :: post) ≠ crc32c_calc (pre ++ b' :: post).
Proof.
  intros Hpre Hpost Hb Hb' Hne. unfold crc32c_calc.
  rewrite !(crc_rounds_bytes poly_castagnoli _ castagnoli_table) by (apply Forall_app; auto).
  by apply crc_bytes_single.
Qed.

(** C37: both checksums detect every corruption confined to one byte: two
    messages that differ in exactly one byte have different checksums. *)
Theorem crc_detects_byte_error pre b b' post :
  Forall byte pre → Forall byte post → byte b → byte b' → b ≠ b' →
  crc32_calc (pre ++ b :: post) ≠ crc32_calc (pre ++ b' :: post)
  ∧ crc32c_calc (pre ++ b :: post) ≠ crc32c_calc (pre ++ b' :: post).
Proof. split; [by apply crc32_byte_error|by apply crc32c_byte_error]. Qed.

Lemma crc_detects_byte_error_witness :
  crc32_calc [1; 2; 3] ≠ crc32_calc [1; 7; 3] ∧ crc32c_calc [1; 2; 3] ≠ crc32c_calc [1; 7; 3].
Proof.
  apply (crc_detects_byte_error [1] 2 7 [3]);
    [repeat constructor; by vm_compute|repeat constructor; by vm_compute|by vm_compute|by vm_compute|lia].
Defined.
