(* ===== verification/Partitions.v ===== *)
(** Partition tables (src/fs/partitions): the MBR and GPT on-disk structures,
    their accessors, the loaders that read them from a disk device, and the
    choice of a filesystem for a partition.

    A disk device and a filesystem are traits of the source; here they are the
    type classes [DiskDevice] and [Fs], so that the loaders are proved for any
    device and any filesystem. *)

From S2P Require Import Prelude Crc.

(** [SataDeviceType] and [AtaDeviceIdentifier] (src/drivers). *)
Inductive SataDeviceType := IDE | AHCI.
Record AtaDeviceIdentifier := {
  disk_type : SataDeviceType;
  ide_controller : Z;
  device_id : Z
}.

(** The part of the [DiskDevice] trait the partition code uses.  [read] is
    [drive.read(start_lba, sectors_count).complete().data]. *)
Class DiskDevice (D : Type) := {
  dev_read : D → Z → Z → option (list Z);
  dev_identifier : D → AtaDeviceIdentifier;
  dev_max_sector : D → Z
}.

(** * MBR structures *)

(** The sixteen bytes of a packed [MBRPartitionEntry]. *)
Record MBRPartitionEntry := {
  attributes : Z;
  chs_start : Z * Z * Z;
  part_type : Z;
  chs_last : Z * Z * Z;
  lba_start : Z;
  sectors_count : Z
}.

Definition MBR_PART_OFFSET : nat := 0x1BE.

Definition mbr_layout : list nat := [1; 1; 1; 1; 1; 1; 1; 1; 4; 4]%nat.
Definition mbr_fields (e : MBRPartitionEntry) : list Z :=
  let '(a, b, c) := chs_start e in
  let '(d, f, g) := chs_last e in
  [attributes e; a; b; c; part_type e; d; f; g; lba_start e; sectors_count e].
Definition mbr_of_fields (vs : list Z) : MBRPartitionEntry := {|
  attributes := vs !!! 0%nat;
  chs_start := (vs !!! 1%nat, vs !!! 2%nat, vs !!! 3%nat);
  part_type := vs !!! 4%nat;
  chs_last := (vs !!! 5%nat, vs !!! 6%nat, vs !!! 7%nat);
  lba_start := vs !!! 8%nat;
  sectors_count := vs !!! 9%nat |}.
Definition mbr_decode (bs : list Z) : MBRPartitionEntry :=
  mbr_of_fields (decode_fields mbr_layout bs).
Definition mbr_encode (e : MBRPartitionEntry) : list Z :=
  encode_fields mbr_layout (mbr_fields e).
Definition mbr_wf (e : MBRPartitionEntry) : Prop := fields_fit mbr_layout (mbr_fields e).

Record MBRPartitionTable := {
  mbr_drive_id : AtaDeviceIdentifier;
  mbr_partitions : list MBRPartitionEntry
}.

(** * Partition types *)

Inductive PartitionType :=
  | Empty | DOSFat12 | XenixRoot | XenixUsr | DOS3Fat16 | Extended | DOS331Fat16
  | OS2IFS | NTFS | Fat32 | Fat32LBA | EXFAT | DOSFat16LBA | ExtendedLBA | LinuxSwap
  | LinuxNative | LinuxExtended | LinuxLVM | BSDI | OpenBSD | MacOSX | MacOSXBoot
  | MacOSXHFS | LUKS | GPT_TYPE | Unknown.
#[global] Instance PartitionType_eq_dec : EqDecision PartitionType.
Proof. solve_decision. Defined.

(** [From<PartitionType> for u8]. *)
Definition u8_from_PartitionType (value : PartitionType) : Z :=
  match value with
  | Empty => 0 | DOSFat12 => 1 | XenixRoot => 2 | XenixUsr => 3 | DOS3Fat16 => 4
  | Extended => 5 | DOS331Fat16 => 6 | OS2IFS => 7 | NTFS => 7 | EXFAT => 7
  | Fat32 => 0xB | Fat32LBA => 0xC | DOSFat16LBA => 0xE | ExtendedLBA => 0xF
  | LinuxSwap => 0x82 | LinuxNative => 0x83 | LinuxExtended => 0x85 | LinuxLVM => 0x8E
  | BSDI => 0x9F | OpenBSD => 0xA6 | MacOSX => 0xA8 | MacOSXBoot => 0xAB
  | MacOSXHFS => 0xAF | LUKS => 0xE8 | GPT_TYPE => 0xEE | Unknown => 0xEA
  end.

(** [From<u8> for PartitionType]. *)
Definition PartitionType_from_u8 (value : Z) : PartitionType :=
  match value with
  | 0 => Empty | 1 => DOSFat12 | 2 => XenixRoot | 3 => XenixUsr | 4 => DOS3Fat16
  | 5 => Extended | 6 => DOS331Fat16 | 7 => NTFS | 0xB => Fat32 | 0xC => Fat32LBA
  | 0xE => DOSFat16LBA | 0xF => ExtendedLBA | 0x82 => LinuxSwap | 0x83 => LinuxNative
  | 0x85 => LinuxExtended | 0x8E => LinuxLVM | 0x9F => BSDI | 0xA6 => OpenBSD
  | 0xA8 => MacOSX | 0xAB => MacOSXBoot | 0xAF => MacOSXHFS | 0xE8 => LUKS
  | 0xEE => GPT_TYPE | _ => Unknown
  end.

(** * MBR entry accessors *)

Definition set_attributes (e : MBRPartitionEntry) v := {| attributes := v;
  chs_start := chs_start e; part_type := part_type e; chs_last := chs_last e;
  lba_start := lba_start e; sectors_count := sectors_count e |}.
Definition set_chs_start (e : MBRPartitionEntry) v := {| attributes := attributes e;
  chs_start := v; part_type := part_type e; chs_last := chs_last e;
  lba_start := lba_start e; sectors_count := sectors_count e |}.

(** [(0x80..0x8F).contains(&self.attributes)]: the upper bound is excluded. *)
Definition is_active (e : MBRPartitionEntry) : bool :=
  bool_decide (0x80 ≤ attributes e ∧ attributes e < 0x8F).
Definition set_active (e : MBRPartitionEntry) (active : bool) : MBRPartitionEntry :=
  set_attributes e (if active then 0x80 else 0).
Definition mbr_is_used (e : MBRPartitionEntry) : bool := bool_decide (part_type e ≠ 0).

Definition starting_head (e : MBRPartitionEntry) : Z :=
  let '(h, _, _) := chs_start e in h.
Definition set_starting_head (e : MBRPartitionEntry) (head : Z) : MBRPartitionEntry :=
  let '(_, s, c) := chs_start e in set_chs_start e (head, s, c).
Definition starting_sector (e : MBRPartitionEntry) : Z :=
  let '(_, s, _) := chs_start e in Z.land s 0x3f.
Definition set_starting_sector (e : MBRPartitionEntry) (sector : Z) : MBRPartitionEntry :=
  let '(h, s, c) := chs_start e in
  set_chs_start e (h, Z.lor (Z.land s (not_w 8 0x3f)) sector, c).
(** [(((chs[1] as u16) & !0b111111) << 2) | chs[2] as u16]. *)
Definition starting_cylinder (e : MBRPartitionEntry) : Z :=
  let '(_, s, c) := chs_start e in
  Z.lor (u16 (Z.shiftl (Z.land s (not_w 16 0x3f)) 2)) c.
(** [chs[1] = (chs[1] & 0b111111) | ((cylinder >> 2) & !0xff) as u8;
     chs[2] = (cylinder & 0xff) as u8]. *)
Definition set_starting_cylinder (e : MBRPartitionEntry) (cylinder : Z) : MBRPartitionEntry :=
  let '(h, s, c) := chs_start e in
  set_chs_start e
    (h, Z.lor (Z.land s 0x3f) (u8 (Z.land (Z.shiftr cylinder 2) (not_w 16 0xff))),
     u8 (Z.land cylinder 0xff)).

Definition mbr_start_lba (e : MBRPartitionEntry) : Z := lba_start e.
Definition set_start_lba (e : MBRPartitionEntry) (lba : Z) := {| attributes := attributes e;
  chs_start := chs_start e; part_type := part_type e; chs_last := chs_last e;
  lba_start := lba; sectors_count := sectors_count e |}.
Definition mbr_sectors_count (e : MBRPartitionEntry) : Z := sectors_count e.
Definition set_sectors_count (e : MBRPartitionEntry) (count : Z) := {| attributes := attributes e;
  chs_start := chs_start e; part_type := part_type e; chs_last := chs_last e;
  lba_start := lba_start e; sectors_count := count |}.
Definition partition_type (e : MBRPartitionEntry) : PartitionType :=
  PartitionType_from_u8 (part_type e).
Definition set_partition_type (e : MBRPartitionEntry) (t : PartitionType) := {|
  attributes := attributes e; chs_start := chs_start e;
  part_type := u8_from_PartitionType t; chs_last := chs_last e;
  lba_start := lba_start e; sectors_count := sectors_count e |}.

(** * GPT structures *)

Record GPTHeader := {
  sig : Z; revision : Z; size : Z; checksum : Z; reserved : Z; my_lba : Z;
  alternate_lba : Z; first_usable_lba : Z; last_usable_lba : Z; disk_guid : Z;
  part_entry_lba : Z; partitions_count : Z; part_entry_size : Z;
  part_entry_array_crc32 : Z
}.

Definition gpt_header_layout : list nat := [8; 4; 4; 4; 4; 8; 8; 8; 8; 16; 8; 4; 4; 4]%nat.
(** [core::mem::size_of::<GPTHeader>()]. *)
Definition gpt_header_size : nat := 92.
Definition gpt_header_fields (h : GPTHeader) : list Z :=
  [sig h; revision h; size h; checksum h; reserved h; my_lba h; alternate_lba h;
   first_usable_lba h; last_usable_lba h; disk_guid h; part_entry_lba h;
   partitions_count h; part_entry_size h; part_entry_array_crc32 h].
Definition gpt_header_of_fields (vs : list Z) : GPTHeader := {|
  sig := vs !!! 0%nat; revision := vs !!! 1%nat; size := vs !!! 2%nat;
  checksum := vs !!! 3%nat; reserved := vs !!! 4%nat; my_lba := vs !!! 5%nat;
  alternate_lba := vs !!! 6%nat; first_usable_lba := vs !!! 7%nat;
  last_usable_lba := vs !!! 8%nat; disk_guid := vs !!! 9%nat;
  part_entry_lba := vs !!! 10%nat; partitions_count := vs !!! 11%nat;
  part_entry_size := vs !!! 12%nat; part_entry_array_crc32 := vs !!! 13%nat |}.
Definition gpt_header_decode (bs : list Z) : GPTHeader :=
  gpt_header_of_fields (decode_fields gpt_header_layout bs).
Definition gpt_header_encode (h : GPTHeader) : list Z :=
  encode_fields gpt_header_layout (gpt_header_fields h).

Definition gpt_header_new_empty : GPTHeader := gpt_header_of_fields (replicate 14 0).

Definition with_checksum (h : GPTHeader) (c : Z) : GPTHeader := {|
  sig := sig h; revision := revision h; size := size h; checksum := c;
  reserved := reserved h; my_lba := my_lba h; alternate_lba := alternate_lba h;
  first_usable_lba := first_usable_lba h; last_usable_lba := last_usable_lba h;
  disk_guid := disk_guid h; part_entry_lba := part_entry_lba h;
  partitions_count := partitions_count h; part_entry_size := part_entry_size h;
  part_entry_array_crc32 := part_entry_array_crc32 h |}.

Definition GPT_SIGNATURE : Z := 0x5452415020494645.

(** [GPTHeader::is_valid(&mut self)]: the answer and the header it leaves
    behind.  The checksum covers the first [size] bytes of the structure in
    memory; a larger [size] reads past it. *)
Definition is_valid (h : GPTHeader) : outcome (bool * GPTHeader) :=
  if bool_decide (sig h ≠ GPT_SIGNATURE) then Done (false, h)
  else
    let crc_32 := checksum h in
    let h := with_checksum h 0 in
    bytes ← read_at (gpt_header_encode h) 0 (Z.to_nat (size h));
    let new_crc32 := crc32_calc bytes in
    if bool_decide (crc_32 ≠ new_crc32) then Done (false, h)
    else Done (true, with_checksum h crc_32).

Record GPTPartitionEntry := {
  type_guid : Z;
  partition_guid : Z;
  starting_lba : Z;
  last_lba : Z;
  gpt_attributes : Z;
  partition_name : list Z
}.

Definition gpt_entry_layout : list nat := ([16; 16; 8; 8; 8] ++ replicate 36 2)%nat.
(** [core::mem::size_of::<GPTPartitionEntry>()]. *)
Definition gpt_entry_size : nat := 128.
Definition gpt_entry_fields (e : GPTPartitionEntry) : list Z :=
  [type_guid e; partition_guid e; starting_lba e; last_lba e; gpt_attributes e] ++ partition_name e.
Definition gpt_entry_of_fields (vs : list Z) : GPTPartitionEntry := {|
  type_guid := vs !!! 0%nat; partition_guid := vs !!! 1%nat; starting_lba := vs !!! 2%nat;
  last_lba := vs !!! 3%nat; gpt_attributes := vs !!! 4%nat; partition_name := drop 5 vs |}.
Definition gpt_entry_decode (bs : list Z) : GPTPartitionEntry :=
  gpt_entry_of_fields (decode_fields gpt_entry_layout bs).
Definition gpt_entry_encode (e : GPTPartitionEntry) : list Z :=
  encode_fields gpt_entry_layout (gpt_entry_fields e).

Definition gpt_entry_new_empty : GPTPartitionEntry := {|
  type_guid := 0; partition_guid := 0; starting_lba := 0; last_lba := 0;
  gpt_attributes := 0; partition_name := replicate 36 0 |}.

Definition gpt_start_lba (e : GPTPartitionEntry) : Z := starting_lba e.
Definition guid (e : GPTPartitionEntry) : Z := partition_guid e.
Definition size_in_sectors (e : GPTPartitionEntry) : Z := u64 (last_lba e - starting_lba e).
Definition gpt_is_used (e : GPTPartitionEntry) : bool := bool_decide (type_guid e ≠ 0).
Definition is_required (e : GPTPartitionEntry) : bool :=
  bool_decide (Z.land (gpt_attributes e) 0x1 ≠ 0).
Definition no_blockio_prot (e : GPTPartitionEntry) : bool :=
  bool_decide (Z.land (gpt_attributes e) 0x2 ≠ 0).
Definition legacy_bootable (e : GPTPartitionEntry) : bool :=
  bool_decide (Z.land (gpt_attributes e) 0x8 ≠ 0).

(** [String::from_utf16], as a list of code points: [None] on an unpaired
    surrogate. *)
Fixpoint from_utf16 (l : list Z) : option (list Z) :=
  match l with
  | [] => Some []
  | c :: l' =>
      if bool_decide (0xD800 ≤ c < 0xDC00) then
        match l' with
        | d :: l'' =>
            if bool_decide (0xDC00 ≤ d < 0xE000)
            then cons (0x10000 + (c - 0xD800) * 0x400 + (d - 0xDC00)) <$> from_utf16 l''
            else None
        | [] => None
        end
      else if bool_decide (0xDC00 ≤ c < 0xE000) then None
      else cons c <$> from_utf16 l'
  end.

(** [name]: the non-zero code units, decoded; panics on malformed UTF-16. *)
Definition name (e : GPTPartitionEntry) : outcome (list Z) :=
  unwrap (from_utf16 (filter (λ c, c ≠ 0) (partition_name e))).

Record GPT := {
  gpt_drive_id : AtaDeviceIdentifier;
  gpt_header : GPTHeader;
  gpt_partitions : list GPTPartitionEntry
}.

(** * Partitions of either format *)

Inductive PartitionMetadata :=
  | MetaMBR (e : MBRPartitionEntry)
  | MetaGPT (e : GPTPartitionEntry).

Inductive MountError := MountUnknown | InvalidChecksum | BadSuperblock | MountIOError.
Inductive IOError := IOTimeout | InvalidCommand | InvalidDevice | IOException | IOUnknown.

(** The [Fs] trait: [mount(drive_id, partition_id, partition_data)] and
    [identify(drive_id, partition_data)]. *)
Class Fs (F : Type) := {
  fs_mount : AtaDeviceIdentifier → Z → Z → outcome (result F MountError);
  fs_identify : AtaDeviceIdentifier → Z → outcome (result bool IOError)
}.

Inductive PartFS (F : Type) :=
  | Ext4 (fs : F)
  | FsUnknown.
Arguments Ext4 {F} _.
Arguments FsUnknown {F}.

Record Partition (F : Type) := {
  id : Z;
  drive_id : AtaDeviceIdentifier;
  metadata : PartitionMetadata;
  fs : PartFS F
}.
Arguments id {F} _.
Arguments drive_id {F} _.
Arguments metadata {F} _.
Arguments fs {F} _.

Definition with_fs {F} (p : Partition F) (f : PartFS F) : Partition F := {|
  id := id p; drive_id := drive_id p; metadata := metadata p; fs := f |}.

Section partitions.
Context {F : Type} `{Fs F}.

Definition from_metadata (part_id : Z) (d : AtaDeviceIdentifier) (m : PartitionMetadata)
    : option (Partition F) :=
  Some {| id := part_id; drive_id := d; metadata := m; fs := FsUnknown |}.

(** [Partition::start_lba]. *)
Definition start_lba (p : Partition F) : Z :=
  match metadata p with
  | MetaMBR e => mbr_start_lba e
  | MetaGPT e => gpt_start_lba e
  end.

(** The two arms of [load_fs] that reach the filesystem: [identify] then
    [mount] at the partition's first sector. *)
Definition try_ext4 (p : Partition F) (lba : Z) : outcome (result (PartFS F) MountError) :=
  r ← fs_identify (drive_id p) lba;
  match r with
  | Err _ => Done (Err MountIOError)
  | Ok true =>
      r ← fs_mount (drive_id p) (id p) lba;
      match r with
      | Ok f => Done (Ok (Ext4 f))
      | Err e => Done (Err e)
      end
  | Ok false => Done (Ok FsUnknown)
  end.

(** [Partition::load_fs]: the partition it leaves and its result.  The [todo!]
    arms panic; on an error [self.fs] keeps its value. *)
Definition load_fs (p : Partition F) : outcome (Partition F * result unit MountError) :=
  let finish (r : result (PartFS F) MountError) :=
    match r with
    | Ok f => Done (with_fs p f, Ok ())
    | Err e => Done (p, Err e)
    end in
  match metadata p with
  | MetaMBR meta =>
      match partition_type meta with
      | Empty => finish (Ok FsUnknown)
      | LinuxNative => try_ext4 p (mbr_start_lba meta) ≫= finish
      | GPT_TYPE => finish (Ok FsUnknown)
      | Unknown => finish (Ok FsUnknown)
      | _ => Panicked
      end
  | MetaGPT meta => try_ext4 p (gpt_start_lba meta) ≫= finish
  end.

(** [MBRPartitionTable::get_partitions]: the used entries with their index;
    [from_metadata] never fails. *)
Fixpoint used_entries (i : Z) (l : list MBRPartitionEntry) : list (Z * MBRPartitionEntry) :=
  match l with
  | [] => []
  | e :: l => if mbr_is_used e then (i, e) :: used_entries (i + 1) l else used_entries (i + 1) l
  end.
Definition mbr_get_partitions (t : MBRPartitionTable) : outcome (list (Partition F)) :=
  unwrap (mapM (λ '(i, e), from_metadata i (mbr_drive_id t) (MetaMBR e))
            (used_entries 0 (mbr_partitions t))).

(** [MBRPartitionTable::is_pmbr]: exactly one used partition, of type GPT. *)
Definition is_pmbr (t : MBRPartitionTable) : outcome bool :=
  partitions ← mbr_get_partitions t;
  match partitions with
  | [p] =>
      match metadata p with
      | MetaMBR meta => Done (bool_decide (partition_type meta = GPT_TYPE))
      | MetaGPT _ => Done false
      end
  | _ => Done false
  end.

(** [GPT::get_partitions]. *)
Fixpoint enumerate {A} (i : Z) (l : list A) : list (Z * A) :=
  match l with
  | [] => []
  | x :: l => (i, x) :: enumerate (i + 1) l
  end.
Definition gpt_get_partitions (t : GPT) : outcome (list (Partition F)) :=
  unwrap (mapM (λ '(i, e), from_metadata i (gpt_drive_id t) (MetaGPT e))
            (enumerate 0 (gpt_partitions t))).

(** * Loaders *)

Context {D : Type} `{DiskDevice D}.

(** [load_drive_mbr]: the four entries at offset 0x1BE of the sector. *)
Definition load_drive_mbr (drive : D) (sectors_offset : Z) : outcome MBRPartitionTable :=
  first_sector ← unwrap (dev_read drive sectors_offset 1);
  bs ← read_at first_sector MBR_PART_OFFSET 64;
  Done {| mbr_drive_id := dev_identifier drive;
          mbr_partitions :=
            [mbr_decode (take 16 bs); mbr_decode (take 16 (drop 16 bs));
             mbr_decode (take 16 (drop 32 bs)); mbr_decode (take 16 (drop 48 bs))] |}.

(** The entry loop of [load_drive_gpt]: [n] entries from index [i].  Indices
    are [u32] products widened to [usize]; the slice is bounds-checked, the
    entry is then read through its pointer. *)
Fixpoint gpt_entries (buf : list Z) (esize : Z) (i : Z) (n : nat) : outcome (list GPTPartitionEntry) :=
  match n with
  | O => Done []
  | S n =>
      let lo := u32 (i * esize) in
      let hi := u32 ((i + 1) * esize) in
      rust_assert (bool_decide (lo ≤ hi ∧ hi ≤ Z.of_nat (length buf)));;
      bs ← read_at buf (Z.to_nat lo) gpt_entry_size;
      let partition := gpt_entry_decode bs in
      rest ← gpt_entries buf esize (i + 1) n;
      Done (if gpt_is_used partition then partition :: rest else rest)
  end.

(** The primary header, or the backup one when it is not valid; [None] when a
    read fails or both are corrupted. *)
Definition gpt_pick_header (drive : D) : outcome (option GPTHeader) :=
  match dev_read drive 1 1 with
  | None => Done None
  | Some raw =>
      bs ← read_at raw 0 gpt_header_size;
      '(ok, h) ← is_valid (gpt_header_decode bs);
      if (ok : bool) then Done (Some h)
      else
        match dev_read drive (u64 (dev_max_sector drive - 1)) 1 with
        | None => Done None
        | Some raw =>
            bs ← read_at raw 0 gpt_header_size;
            '(ok, h) ← is_valid (gpt_header_decode bs);
            Done (if (ok : bool) then Some h else None)
        end
  end.

(** [((partitions_count * part_entry_size) / 0x200) + 1], then [as u16]. *)
Definition gpt_entries_sectors (h : GPTHeader) : Z :=
  u16 (u32 (u32 (partitions_count h * part_entry_size h) / 0x200 + 1)).

(** [load_drive_gpt].  A mismatch of the entry array checksum is logged and
    changes nothing. *)
Definition load_drive_gpt (drive : D) : outcome (option GPT) :=
  pmbr ← load_drive_mbr drive 0;
  ok ← is_pmbr pmbr;
  if negb ok then Done None
  else
    header ← gpt_pick_header drive;
    match header with
    | None => Done None
    | Some h =>
        match dev_read drive (part_entry_lba h) (gpt_entries_sectors h) with
        | None => Done None
        | Some buf =>
            partitions ← gpt_entries buf (part_entry_size h) 0 (Z.to_nat (partitions_count h));
            Done (Some {| gpt_drive_id := dev_identifier drive; gpt_header := h;
                          gpt_partitions := partitions |})
        end
    end.
End partitions.

(** * Byte-level round trips *)

Lemma mbr_of_fields_fields e : mbr_of_fields (mbr_fields e) = e.
Proof. destruct e as [? [[? ?] ?] ? [[? ?] ?] ? ?]. done. Qed.

Lemma mbr_fields_of_fields vs : length vs = 10%nat → mbr_fields (mbr_of_fields vs) = vs.
Proof. intros H. explode_list vs. done. Qed.

Lemma gpt_header_of_fields_fields h : gpt_header_of_fields (gpt_header_fields h) = h.
Proof. by destruct h. Qed.

Lemma gpt_header_fields_of_fields vs : length vs = 14%nat →
  gpt_header_fields (gpt_header_of_fields vs) = vs.
Proof. intros H. explode_list vs. done. Qed.

Lemma gpt_entry_of_fields_fields e : gpt_entry_of_fields (gpt_entry_fields e) = e.
Proof. by destruct e. Qed.

Lemma gpt_entry_fields_of_fields vs : (5 ≤ length vs)%nat →
  gpt_entry_fields (gpt_entry_of_fields vs) = vs.
Proof. intros H. do 5 (destruct vs; [simpl in H; lia|]). done. Qed.

(** Decoding what was encoded, and encoding what was decoded, for the three
    structures. *)
Lemma mbr_decode_encode e rest : mbr_wf e → mbr_decode (mbr_encode e ++ rest) = e.
Proof.
  intros. unfold mbr_decode, mbr_encode. rewrite decode_encode_fields by done.
  apply mbr_of_fields_fields.
Qed.

Lemma mbr_encode_decode bs : length bs = 16%nat → Forall byte bs →
  mbr_encode (mbr_decode bs) = bs ∧ mbr_wf (mbr_decode bs).
Proof.
  intros Hl Hb. unfold mbr_encode, mbr_decode, mbr_wf.
  rewrite mbr_fields_of_fields by apply length_decode_fields.
  split; [by apply encode_decode_fields|by apply decode_fields_fit].
Qed.

Lemma gpt_header_encode_decode bs : length bs = gpt_header_size → Forall byte bs →
  gpt_header_encode (gpt_header_decode bs) = bs.
Proof.
  intros Hl Hb. unfold gpt_header_encode, gpt_header_decode.
  rewrite gpt_header_fields_of_fields by apply length_decode_fields.
  by apply encode_decode_fields.
Qed.

Lemma gpt_entry_encode_decode bs : length bs = gpt_entry_size → Forall byte bs →
  gpt_entry_encode (gpt_entry_decode bs) = bs.
Proof.
  intros Hl Hb. unfold gpt_entry_encode, gpt_entry_decode.
  rewrite gpt_entry_fields_of_fields by (rewrite length_decode_fields; simpl; lia).
  by apply encode_decode_fields.
Qed.

(** An MBR entry is exactly its sixteen bytes: decoding the encoding of a
    well-formed entry gives it back, and every sixteen bytes of a sector decode
    to a well-formed entry whose encoding is those bytes; the same holds for
    the 92-byte GPT header and the 128-byte GPT entry. *)
Theorem partition_structs_roundtrip :
  (∀ e rest, mbr_wf e → mbr_decode (mbr_encode e ++ rest) = e)
  ∧ (∀ bs, length bs = 16%nat → Forall byte bs →
       mbr_encode (mbr_decode bs) = bs ∧ mbr_wf (mbr_decode bs))
  ∧ (∀ bs, length bs = gpt_header_size → Forall byte bs →
       gpt_header_encode (gpt_header_decode bs) = bs)
  ∧ (∀ bs, length bs = gpt_entry_size → Forall byte bs →
       gpt_entry_encode (gpt_entry_decode bs) = bs).
Proof.
  split_and!; [apply mbr_decode_encode|apply mbr_encode_decode
    |apply gpt_header_encode_decode|apply gpt_entry_encode_decode].
Qed.

(** The partition type codes round-trip: every type the table knows is
    read back from its code, except OS/2 IFS and exFAT which share code 7 with
    NTFS; and a byte is written back unchanged exactly when it is not one of the
    bytes read as [Unknown] (those are written back as 0xEA). *)
Theorem partition_type_roundtrip :
  (∀ t, PartitionType_from_u8 (u8_from_PartitionType t)
        = match t with OS2IFS | EXFAT => NTFS | _ => t end)
  ∧ (∀ b, u8_from_PartitionType (PartitionType_from_u8 b)
        = if bool_decide (PartitionType_from_u8 b = Unknown) then 0xEA else b).
Proof.
  split; [by intros []|]. intros b.
  destruct (decide (PartitionType_from_u8 b = Unknown)) as [E|E].
  - by rewrite bool_decide_true, E.
  - rewrite bool_decide_false by done. revert E. unfold PartitionType_from_u8.
    destruct b as [|p|p]; [done| |done].
    repeat (destruct p as [p|p|]; try done).
Qed.

(** * CHS accessors *)

(** Storing a cylinder and reading it back gives its low byte only: the two
    high bits of the ten-bit cylinder are lost by [set_starting_cylinder], while
    the head and the sector are preserved. *)
Theorem set_starting_cylinder_low_byte e c :
  mbr_wf e →
  starting_cylinder (set_starting_cylinder e c) = c mod 256
  ∧ starting_head (set_starting_cylinder e c) = starting_head e
  ∧ starting_sector (set_starting_cylinder e c) = starting_sector e.
Proof.
  destruct e as [at' [[h s] y] pt cl ls sc]. intros _.
  unfold starting_cylinder, set_starting_cylinder, starting_head, starting_sector. simpl.
  assert (Hz : u8 (Z.land (Z.shiftr c 2) (not_w 16 0xff)) = 0).
  { apply Z.bits_inj'. intros i Hi. unfold u8. rewrite testbit_wrap, Z.land_spec, Z.bits_0 by lia.
    case_bool_decide; [|btauto]. rewrite testbit_not_w by lia. change 0xff with (Z.ones 8).
    rewrite Z.ones_spec_low by lia. btauto. }
  rewrite Hz, Z.lor_0_r.
  assert (Hs : Z.land (Z.land s 0x3f) (not_w 16 0x3f) = 0).
  { apply Z.bits_inj'. intros i Hi. rewrite !Z.land_spec, Z.bits_0. change 0x3f with (Z.ones 6).
    destruct (decide (i < 6)).
    - rewrite testbit_not_w, Z.ones_spec_low by lia. btauto.
    - rewrite Z.ones_spec_high by lia. btauto. }
  rewrite Hs. split_and!; [|done|].
  - change (u16 (Z.shiftl 0 2)) with 0. rewrite Z.lor_0_l. change 0xff with (Z.ones 8).
    rewrite Z.land_ones by lia. apply (wrap_wrap 8 c). lia.
  - by rewrite <- Z.land_assoc.
Qed.

Definition example_entry : MBRPartitionEntry := {|
  attributes := 0x80; chs_start := (1, 2, 3); part_type := 0x83; chs_last := (4, 5, 6);
  lba_start := 2048; sectors_count := 4096 |}.

Lemma set_starting_cylinder_low_byte_witness :
  mbr_wf example_entry ∧ starting_cylinder (set_starting_cylinder example_entry 0x3ff) = 0xff.
Proof.
  assert (H : mbr_wf example_entry) by (by apply (bool_decide_unpack _)).
  split; [exact H|]. exact (proj1 (set_starting_cylinder_low_byte example_entry 0x3ff H)).
Defined.

(** * Validation of a GPT header *)

(** The bytes a checksum of a decoded header covers: those read from the disk
    with the checksum field cleared. *)
Lemma with_checksum_fields h c :
  gpt_header_fields (with_checksum h c)
  = take 3 (gpt_header_fields h) ++ c :: drop 4 (gpt_header_fields h).
Proof. by destruct h. Qed.

Lemma with_checksum_id h : with_checksum h (checksum h) = h.
Proof. by destruct h. Qed.

Lemma gpt_header_encode_split vs : length vs = 14%nat →
  encode_fields gpt_header_layout vs
  = encode_fields [8; 4; 4]%nat (take 3 vs) ++ le_bytes 4 (vs !!! 3%nat)
    ++ encode_fields [4; 8; 8; 8; 8; 16; 8; 4; 4; 4]%nat (drop 4 vs).
Proof. intros H. explode_list vs. simpl. by rewrite ?app_nil_r, <- ?app_assoc. Qed.

Lemma gpt_header_zeroed_bytes bs : length bs = gpt_header_size → Forall byte bs →
  gpt_header_encode (with_checksum (gpt_header_decode bs) 0)
  = take 16 bs ++ [0; 0; 0; 0] ++ drop 20 bs.
Proof.
  intros Hl Hb.
  pose proof (gpt_header_encode_decode bs Hl Hb) as E.
  unfold gpt_header_encode, gpt_header_decode in *.
  set (vs := decode_fields gpt_header_layout bs) in *.
  assert (Hvs : length vs = 14%nat) by (apply length_decode_fields).
  rewrite with_checksum_fields. rewrite gpt_header_fields_of_fields in * by done.
  rewrite gpt_header_encode_split in E |- * by
    (rewrite ?length_app, ?length_take, ?length_cons, ?length_drop; lia).
  rewrite <- E at 1 2. clear E. clearbody vs. clear Hl Hb.
  explode_list vs. done.
Qed.

Lemma length_gpt_header_encode h : length (gpt_header_encode h) = gpt_header_size.
Proof. unfold gpt_header_encode. by rewrite length_encode_fields. Qed.

Lemma is_valid_true h h' : is_valid h = Done (true, h') ↔
  h' = h ∧ sig h = GPT_SIGNATURE ∧ (Z.to_nat (size h) ≤ gpt_header_size)%nat ∧
  checksum h = crc32_calc (take (Z.to_nat (size h)) (gpt_header_encode (with_checksum h 0))).
Proof.
  unfold is_valid, read_at. rewrite length_gpt_header_encode. simpl (0 + _)%nat.
  change (size (with_checksum h 0)) with (size h). rewrite drop_0.
  assert (with_checksum (with_checksum h 0) (checksum h) = h) as E by by destruct h.
  rewrite E. repeat (case_bool_decide; simpl); naive_solver.
Qed.

Lemma is_valid_false_checksum h :
  (Z.to_nat (size h) ≤ gpt_header_size)%nat →
  (sig h = GPT_SIGNATURE →
   checksum h ≠ crc32_calc (take (Z.to_nat (size h)) (gpt_header_encode (with_checksum h 0)))) →
  ∃ h', is_valid h = Done (false, h').
Proof.
  intros Hs Hc. unfold is_valid, read_at. rewrite length_gpt_header_encode. simpl (0 + _)%nat.
  change (size (with_checksum h 0)) with (size h). rewrite drop_0.
  case_bool_decide; [by eexists|]. rewrite bool_decide_true by done. simpl.
  rewrite bool_decide_true by naive_solver. by eexists.
Qed.

Lemma gpt_sig_decode bs : sig (gpt_header_decode bs) = of_le (take 8 bs).
Proof. done. Qed.
Lemma gpt_size_decode bs : size (gpt_header_decode bs) = of_le (take 4 (drop 12 bs)).
Proof. unfold gpt_header_decode. simpl. by rewrite drop_drop. Qed.
Lemma gpt_checksum_decode bs : checksum (gpt_header_decode bs) = of_le (take 4 (drop 16 bs)).
Proof. unfold gpt_header_decode. simpl. by rewrite !drop_drop. Qed.

Lemma of_le_inj l l' : length l = length l' → Forall byte l → Forall byte l' →
  of_le l = of_le l' → l = l'.
Proof.
  intros Hl H H' E. rewrite <- (le_bytes_of_le l), <- (le_bytes_of_le l') by done. congruence.
Qed.

(** A field that contains the changed byte changes its value. *)
Lemma field_changed pre b b' post off n : b ≠ b' →
  Forall byte (pre ++ b :: post) → byte b' →
  (off ≤ length pre < off + n)%nat →
  of_le (take n (drop off (pre ++ b :: post))) ≠ of_le (take n (drop off (pre ++ b' :: post))).
Proof.
  intros Hne Hb Hb' Hr E. apply of_le_inj in E.
  - apply Hne. apply (f_equal (lookup (length pre - off)%nat)) in E.
    rewrite !lookup_take, !decide_True, !lookup_drop in E by lia.
    replace (off + (length pre - off))%nat with (length pre) in E by lia.
    rewrite !list_lookup_middle in E by done. by injection E.
  - by rewrite !length_take, !length_drop, !length_app.
  - by apply Forall_take, Forall_drop.
  - apply Forall_take, Forall_drop. apply Forall_app in Hb as [? [? ?]%Forall_cons].
    apply Forall_app. auto.
Qed.

(** A field away from the changed byte keeps its value. *)
Lemma field_unchanged pre (b b' : Z) post off n :
  ¬ (off ≤ length pre < off + n)%nat →
  take n (drop off (pre ++ b :: post)) = take n (drop off (pre ++ b' :: post)).
Proof.
  intros Hr. destruct (decide (off ≤ length pre)%nat).
  - rewrite !drop_app_le, !take_app_le by (rewrite ?length_drop; lia). done.
  - rewrite !drop_app_ge by lia.
    replace (off - length pre)%nat with (S (off - length pre - 1)) by lia. done.
Qed.

(** Zeroing the checksum of a message with one changed byte outside of it. *)
Lemma zeroed_one_byte pre (b b' : Z) post :
  (length pre + S (length post) = gpt_header_size)%nat → ¬ (16 ≤ length pre < 20)%nat →
  ∃ pre' post', ∀ x, x = b ∨ x = b' →
    take 16 (pre ++ x :: post) ++ [0; 0; 0; 0] ++ drop 20 (pre ++ x :: post)
    = pre' ++ x :: post' ∧ length pre' = length pre
    ∧ (Forall byte (pre ++ post) → Forall byte (pre' ++ post')).
Proof.
  unfold gpt_header_size. intros Hl Hr. destruct (decide (length pre < 16)%nat).
  - exists pre, (take (15 - length pre) post ++ [0; 0; 0; 0] ++ drop (19 - length pre) post).
    intros x _. rewrite take_app_ge, drop_app_ge by lia.
    replace (16 - length pre)%nat with (S (15 - length pre)) by lia.
    replace (20 - length pre)%nat with (S (19 - length pre)) by lia.
    split_and!; [by rewrite <- app_assoc|done|].
    rewrite !Forall_app. intros [? ?].
    split_and!; auto using Forall_take, Forall_drop. repeat constructor; by vm_compute.
  - exists (take 16 pre ++ [0; 0; 0; 0] ++ drop 20 pre), post. intros x _.
    rewrite take_app_le, drop_app_le by lia.
    split_and!; [by rewrite <- !app_assoc|rewrite !length_app, length_take, length_drop; cbn [length]; lia|].
    rewrite !Forall_app. intros [? ?].
    split_and!; auto using Forall_take, Forall_drop. repeat constructor; by vm_compute.
Qed.

(** The first [n] bytes of it see the change exactly when it is among them. *)
Lemma zeroed_prefix_crc pre b b' post n : Forall byte (pre ++ b :: post) → byte b' → b ≠ b' →
  length (pre ++ b :: post) = gpt_header_size → ¬ (16 ≤ length pre < 20)%nat →
  let crc x := crc32_calc (take n (take 16 (pre ++ x :: post) ++ [0; 0; 0; 0] ++ drop 20 (pre ++ x :: post))) in
  crc b = crc b' ↔ (n ≤ length pre)%nat.
Proof.
  intros Hb Hb' Hne Hl Hc. cbv zeta. rewrite length_app in Hl. simpl in Hl.
  destruct (zeroed_one_byte pre b b' post Hl Hc) as (pre' & post' & Hz).
  destruct (Hz b) as (-> & Hlen & HF); [auto|]. destruct (Hz b') as (-> & _ & _); [auto|].
  apply Forall_app in Hb as [? [? ?]%Forall_cons].
  apply Forall_app in HF as [? ?]; [|apply Forall_app; auto].
  destruct (decide (n ≤ length pre)%nat) as [Hn|Hn].
  - by rewrite !take_app_le by lia.
  - split; [|done]. intros E. exfalso. revert E.
    rewrite !take_app_ge by lia. replace (n - length pre')%nat with (S (n - length pre' - 1)) by lia.
    simpl. apply crc32_byte_error; auto using Forall_take.
Qed.

(** Whether a byte of a header is checked: it belongs to the signature, to the
    checksum or to the part that the [size] field says the checksum covers. *)
Definition checked_byte (sz : Z) (k : nat) : Prop :=
  (k < 8)%nat ∨ (16 ≤ k < 20)%nat ∨ (k < Z.to_nat sz)%nat.

(** C5: the header check of the GPT loader and the corruption of a single byte of
    a valid header outside its [size] field.  When the byte is part of the
    signature, of the checksum or of the first [size] bytes, the corrupted header
    is rejected, without reading out of bounds; for a header with the 92 bytes of
    the format that is every byte.  The [size] of a valid header may be smaller;
    then any other byte past the checksummed part can be corrupted and the header
    is still accepted. *)
Theorem gpt_header_corruption_detected pre b b' post h :
  Forall byte (pre ++ b :: post) → byte b' → b ≠ b' →
  length (pre ++ b :: post) = gpt_header_size →
  is_valid (gpt_header_decode (pre ++ b :: post)) = Done (true, h) →
  ¬ (12 ≤ length pre < 16)%nat →
  (checked_byte (size h) (length pre) →
     ∃ h', is_valid (gpt_header_decode (pre ++ b' :: post)) = Done (false, h'))
  ∧ (¬ checked_byte (size h) (length pre) →
     ∃ h', is_valid (gpt_header_decode (pre ++ b' :: post)) = Done (true, h'))
  ∧ (size h = 92 → checked_byte (size h) (length pre)).
Proof.
  intros Hb Hb' Hne Hl (-> & Hsig & Hsz & Hck)%is_valid_true Hr.
  assert (Hb2 : Forall byte (pre ++ b' :: post)).
  { apply Forall_app in Hb as [? [? ?]%Forall_cons]. apply Forall_app. auto. }
  assert (Hl2 : length (pre ++ b' :: post) = gpt_header_size) by (by rewrite length_app in *).
  assert (Hsz2 : size (gpt_header_decode (pre ++ b' :: post)) = size (gpt_header_decode (pre ++ b :: post))).
  { rewrite !gpt_size_decode. by rewrite <- (field_unchanged pre b) by lia. }
  rewrite gpt_header_zeroed_bytes in Hck by done. rewrite gpt_sig_decode in Hsig. rewrite gpt_checksum_decode in Hck.
  split_and!.
  - intros Hk. apply is_valid_false_checksum; [by rewrite Hsz2|].
    rewrite Hsz2, gpt_header_zeroed_bytes, gpt_sig_decode, gpt_checksum_decode by done. intros Hsig2.
    assert (Hk8 : (8 ≤ length pre)%nat).
    { destruct (decide (length pre < 8)%nat); [|lia].
      apply (field_changed pre b b' post 0 8) in Hb; rewrite ?drop_0 in *; try done; [|lia]. congruence. }
    destruct (decide (16 ≤ length pre < 20)%nat) as [Hc|Hc].
    + assert (E : ∀ x y, take 16 (pre ++ x :: post) ++ [0; 0; 0; 0] ++ drop 20 (pre ++ x :: post)
        = take 16 (pre ++ y :: post) ++ [0; 0; 0; 0] ++ drop 20 (pre ++ y :: post)).
      { intros x y. rewrite !take_app_le, !drop_app_ge by lia.
        replace (20 - length pre)%nat with (S (19 - length pre)) by lia. done. }
      rewrite (E b' b). pose proof (field_changed pre b b' post 16 4 Hne Hb Hb' ltac:(lia)). congruence.
    + rewrite <- (field_unchanged pre b) by lia. rewrite Hck.
      intros E%(zeroed_prefix_crc pre b b' post); [|done..]. unfold checked_byte in Hk. lia.
  - intros Hk. unfold checked_byte in Hk. eexists. apply is_valid_true. split; [done|].
    rewrite Hsz2, gpt_header_zeroed_bytes, gpt_sig_decode, gpt_checksum_decode by done. split_and!; [|done|].
    + rewrite <- Hsig. pose proof (field_unchanged pre b b' post 0 8) as E. rewrite !drop_0 in E. rewrite E by lia. done.
    + rewrite <- (field_unchanged pre b) by lia. rewrite Hck.
      apply (zeroed_prefix_crc pre b b' post); [done..|lia|lia].
  - intros E. rewrite E. right. right. rewrite length_app in Hl. unfold gpt_header_size in Hl. simpl in Hl. lia.
Qed.

Definition example_header : GPTHeader :=
  let h := gpt_header_of_fields [GPT_SIGNATURE; 0x10000; 92; 0; 0; 1; 100; 34; 90; 7; 2; 4; 128; 0] in
  with_checksum h (crc32_calc (gpt_header_encode h)).
Definition example_header_bytes : list Z := Eval vm_compute in gpt_header_encode example_header.

Lemma gpt_header_corruption_detected_witness :
  ∃ h', is_valid (gpt_header_decode (<[24%nat := 9]> example_header_bytes)) = Done (false, h').
Proof.
  apply (gpt_header_corruption_detected (take 24 example_header_bytes) 1 9
           (drop 25 example_header_bytes) example_header).
  - by apply (bool_decide_unpack _).
  - by vm_compute.
  - lia.
  - by vm_compute.
  - by vm_compute.
  - simpl. lia.
  - right. right. vm_compute. lia.
Defined.

(** * The GPT loader *)

(** Entry [k] of the entry array. *)
Definition gpt_entry_at (buf : list Z) (esize k : Z) : GPTPartitionEntry :=
  gpt_entry_decode (take gpt_entry_size (drop (Z.to_nat (u32 (k * esize))) buf)).
Definition gpt_used_entries (buf : list Z) (esize i : Z) (n : nat) : list GPTPartitionEntry :=
  filter (λ e, gpt_is_used e = true) (gpt_entry_at buf esize <$> seqZ i (Z.of_nat n)).

Lemma gpt_used_entries_S buf esize i n :
  gpt_used_entries buf esize i (S n)
  = if gpt_is_used (gpt_entry_at buf esize i)
    then gpt_entry_at buf esize i :: gpt_used_entries buf esize (i + 1) n
    else gpt_used_entries buf esize (i + 1) n.
Proof.
  unfold gpt_used_entries. rewrite seqZ_cons by lia.
  replace (Z.succ i) with (i + 1) by lia. replace (Z.pred (Z.of_nat (S n))) with (Z.of_nat n) by lia.
  cbn [fmap list_fmap]. rewrite filter_cons. by case_decide; destruct (gpt_is_used _).
Qed.

Lemma gpt_entries_Done buf esize i n l :
  gpt_entries buf esize i n = Done l → l = gpt_used_entries buf esize i n.
Proof.
  revert i l. induction n as [|n IH]; intros i l E; simpl in E; inv_done; [done|].
  rewrite gpt_used_entries_S. unfold gpt_entry_at at 1 2.
  match goal with Hr : read_at _ _ _ = Done _ |- _ =>
    unfold read_at in Hr; case_bool_decide; [|done]; injection Hr as <- end.
  match goal with Hr : gpt_entries _ _ _ _ = Done _ |- _ => apply IH in Hr as -> end.
  done.
Qed.

Lemma gpt_entries_total buf esize i n :
  0 ≤ i → 128 ≤ esize → (i + Z.of_nat n) * esize ≤ Z.of_nat (length buf) →
  Z.of_nat (length buf) < 2 ^ 32 →
  gpt_entries buf esize i n = Done (gpt_used_entries buf esize i n).
Proof.
  revert i. induction n as [|n IH]; intros i Hi He Hl Hb; [done|].
  assert (Hlo : u32 (i * esize) = i * esize) by (apply Z.mod_small; nia).
  assert (Hhi : u32 ((i + 1) * esize) = (i + 1) * esize) by (apply Z.mod_small; nia).
  rewrite gpt_used_entries_S. unfold gpt_entry_at at 1 2. simpl.
  rewrite Hlo, Hhi, bool_decide_true by nia. simpl.
  unfold read_at. rewrite bool_decide_true by (unfold gpt_entry_size; nia). simpl.
  rewrite IH by nia. done.
Qed.

Section loader.
Context {F : Type} `{Fs F} {D : Type} `{DiskDevice D}.

Lemma gpt_pick_header_Some (drive : D) h :
  gpt_pick_header drive = Done (Some h) →
  ∃ sec, (dev_read drive 1 1 = Some sec ∨ dev_read drive (u64 (dev_max_sector drive - 1)) 1 = Some sec)
    ∧ (gpt_header_size ≤ length sec)%nat
    ∧ h = gpt_header_decode (take gpt_header_size sec)
    ∧ is_valid h = Done (true, h).
Proof.
  unfold gpt_pick_header.
  destruct (dev_read drive 1 1) as [raw|] eqn:Er; [|by intros [=]].
  intros E. inv_done.
  match goal with Hr : read_at raw _ _ = Done _ |- _ =>
    unfold read_at in Hr; case_bool_decide as Hle; [|done]; injection Hr as <- end.
  destruct x0 as [[] h0]; inv_done.
  { exists raw. rewrite drop_0 in *.
    match goal with Hv : is_valid _ = Done (true, _) |- _ => apply is_valid_true in Hv as Hv'; destruct Hv' as (-> & ?) end.
    split_and!; auto. }
  destruct (dev_read drive (u64 (dev_max_sector drive - 1)) 1) as [raw'|] eqn:Er'; [|done].
  inv_done.
  match goal with Hr : read_at raw' _ _ = Done _ |- _ =>
    unfold read_at in Hr; case_bool_decide as Hle'; [|done]; injection Hr as <- end.
  destruct x0 as [[] h1]; inv_done. simplify_eq.
  exists raw'. rewrite drop_0 in *.
  match goal with Hv : is_valid _ = Done (true, _) |- _ => apply is_valid_true in Hv as Hv'; destruct Hv' as (-> & ?) end.
  split_and!; auto.
Qed.

(** C16: when the GPT loader returns a table, the disk carried a protective MBR,
    the header was read from sector 1 or from the backup sector, has the EFI
    signature, a size within the structure and a matching CRC-32, and the
    partitions are exactly the used entries of the array it designates, in order. *)
Theorem load_drive_gpt_sound (drive : D) g :
  load_drive_gpt (F := F) drive = Done (Some g) →
  ∃ mbr sec buf, load_drive_mbr drive 0 = Done mbr ∧ is_pmbr (F := F) mbr = Done true
    ∧ (dev_read drive 1 1 = Some sec ∨ dev_read drive (u64 (dev_max_sector drive - 1)) 1 = Some sec)
    ∧ gpt_header g = gpt_header_decode (take gpt_header_size sec)
    ∧ sig (gpt_header g) = GPT_SIGNATURE
    ∧ (Z.to_nat (size (gpt_header g)) ≤ gpt_header_size)%nat
    ∧ checksum (gpt_header g)
      = crc32_calc (take (Z.to_nat (size (gpt_header g)))
                      (gpt_header_encode (with_checksum (gpt_header g) 0)))
    ∧ dev_read drive (part_entry_lba (gpt_header g)) (gpt_entries_sectors (gpt_header g)) = Some buf
    ∧ gpt_partitions g = gpt_used_entries buf (part_entry_size (gpt_header g)) 0
                           (Z.to_nat (partitions_count (gpt_header g)))
    ∧ gpt_drive_id g = dev_identifier drive.
Proof.
  unfold load_drive_gpt. intros E. inv_done. destruct x0; simpl in *; [|done]. inv_done.
  destruct x0 as [h|]; [|done].
  destruct (dev_read drive (part_entry_lba h) (gpt_entries_sectors h)) as [buf|] eqn:Eb; [|done].
  inv_done.
  match goal with Hg : gpt_entries _ _ _ _ = Done _ |- _ => apply gpt_entries_Done in Hg as -> end.
  match goal with Hp : gpt_pick_header _ = Done _ |- _ =>
    apply gpt_pick_header_Some in Hp as (sec & ? & ? & Eh & (_ & ? & ? & ?)%is_valid_true) end.
  exists x, sec, buf. split_and!; done.
Qed.

(** On a disk with a protective MBR, a valid primary header and an entry
    array of at least 128 bytes per entry that was read in full, the GPT loader
    neither panics nor reads out of bounds: it returns the table. *)
Theorem load_drive_gpt_total (drive : D) mbr sec h buf :
  load_drive_mbr drive 0 = Done mbr → is_pmbr (F := F) mbr = Done true →
  dev_read drive 1 1 = Some sec → (gpt_header_size ≤ length sec)%nat →
  h = gpt_header_decode (take gpt_header_size sec) → is_valid h = Done (true, h) →
  dev_read drive (part_entry_lba h) (gpt_entries_sectors h) = Some buf →
  128 ≤ part_entry_size h → 0 ≤ partitions_count h →
  partitions_count h * part_entry_size h ≤ Z.of_nat (length buf) < 2 ^ 32 →
  load_drive_gpt (F := F) drive = Done (Some {|
    gpt_drive_id := dev_identifier drive; gpt_header := h;
    gpt_partitions := gpt_used_entries buf (part_entry_size h) 0 (Z.to_nat (partitions_count h)) |}).
Proof.
  intros Hm Hp Hs Hsl -> Hv Hb He Hc Hl.
  assert (Hh : gpt_pick_header drive = Done (Some (gpt_header_decode (take gpt_header_size sec)))).
  { unfold gpt_pick_header. rewrite Hs. unfold read_at.
    rewrite bool_decide_true by done. cbn [mbind outcome_bind]. by rewrite drop_0, Hv. }
  unfold load_drive_gpt. rewrite Hm. cbn [mbind outcome_bind]. rewrite Hp.
  cbn [mbind outcome_bind negb]. rewrite Hh. cbn [mbind outcome_bind]. rewrite Hb.
  rewrite gpt_entries_total; [done|lia..|nia|lia].
Qed.

(** Filesystem detection: [load_fs] panics on the MBR types it has no code
    for (the [todo!] arms) and otherwise only when the filesystem does; it
    changes nothing but the filesystem, an error leaves the partition as it was,
    and on success the partition holds an ext4 filesystem exactly when its
    metadata allow one and [identify] recognises it at the first sector, and
    then it is the one [mount] returned for that sector. *)
Theorem load_fs_spec (p : Partition F) :
  let may_be_ext4 := match metadata p with
                     | MetaMBR e => partition_type e = LinuxNative
                     | MetaGPT _ => True
                     end in
  let todo := ∃ e, metadata p = MetaMBR e
     ∧ partition_type e ∉ [Empty; LinuxNative; GPT_TYPE; Unknown] in
  let found := fs_identify (drive_id p) (start_lba p) in
  let mounted := fs_mount (drive_id p) (id p) (start_lba p) in
  (load_fs p = Panicked ↔ todo
     ∨ may_be_ext4 ∧ (found = Panicked ∨ found = Done (Ok true) ∧ mounted = Panicked))
  ∧ (∀ p' r, load_fs p = Done (p', r) →
       p' = with_fs p (fs p')
       ∧ (∀ err, r = Err err → p' = p)
       ∧ (r = Ok () → ∀ f, fs p' = Ext4 f ↔
            may_be_ext4 ∧ found = Done (Ok true) ∧ mounted = Done (Ok f))).
Proof.
  unfold load_fs, start_lba, try_ext4. destruct p as [pid d m f0]; simpl.
  destruct m as [e|e]; simpl.
  - assert (Hn : ∀ t, partition_type e = t → (t ∈ [Empty; LinuxNative; GPT_TYPE; Unknown] →
      ¬ ∃ e', MetaMBR e = MetaMBR e' ∧ partition_type e' ∉ [Empty; LinuxNative; GPT_TYPE; Unknown])).
    { intros t <- Ht (e' & [= <-] & Hn). done. }
    destruct (decide (partition_type e ∈ [Empty; LinuxNative; GPT_TYPE; Unknown])) as [Hi|Hi].
    + specialize (Hn _ eq_refl Hi). rewrite !elem_of_cons, elem_of_nil in Hi.
      destruct Hi as [E|[E|[E|[E|[]]]]]; rewrite E in *; simpl;
        [split; [naive_solver|intros p' r [= <- <-]; simpl; naive_solver]
        | |split; [naive_solver|intros p' r [= <- <-]; simpl; naive_solver]..].
      destruct (fs_identify d (mbr_start_lba e)) as [[[]|]| | |] eqn:?; simpl;
        destruct (fs_mount d pid (mbr_start_lba e)) as [[]| | |] eqn:?; simpl;
        (split; [naive_solver|try intros p' r [= <- <-]; simpl; naive_solver]).
    + assert (Hp : match partition_type e with
                   | Empty | LinuxNative | GPT_TYPE | Unknown => False | _ => True end).
      { destruct (partition_type e); set_solver. }
      split; [split; [intros _; left; by exists e|intros _; by destruct (partition_type e)]|].
      intros p' r Hd. by destruct (partition_type e).
  - destruct (fs_identify d (gpt_start_lba e)) as [[[]|]| | |] eqn:?; simpl;
      destruct (fs_mount d pid (gpt_start_lba e)) as [[]| | |] eqn:?; simpl;
      (split; [naive_solver|try intros p' r [= <- <-]; simpl; naive_solver]).
Qed.
End loader.

(** * A concrete disk

    A device that is the list of its bytes, with 512-byte sectors: a protective
    MBR, a primary GPT header and an array of four entries of which two are
    used. *)
Definition list_disk : DiskDevice (list Z) := {|
  dev_read d lba n :=
    let bs := take (Z.to_nat (512 * n)) (drop (Z.to_nat (512 * lba)) d) in
    if bool_decide (length bs = Z.to_nat (512 * n)) then Some bs else None;
  dev_identifier _ := {| disk_type := AHCI; ide_controller := 0; device_id := 0 |};
  dev_max_sector d := Z.of_nat (length d) / 512
|}.
Definition unit_fs : Fs () := {|
  fs_mount _ _ _ := Done (Ok ());
  fs_identify _ _ := Done (Ok true)
|}.

Definition pmbr_entry : MBRPartitionEntry := {|
  attributes := 0; chs_start := (0, 2, 0); part_type := 0xEE; chs_last := (0xff, 0xff, 0xff);
  lba_start := 1; sectors_count := 100 |}.
Definition example_gpt_entry (g : Z) : GPTPartitionEntry := {|
  type_guid := g; partition_guid := g + 1; starting_lba := 34 + g; last_lba := 60 + g;
  gpt_attributes := 0; partition_name := replicate 36 0x41 |}.
Definition example_disk : list Z :=
  Eval vm_compute in
    replicate 0x1BE 0 ++ mbr_encode pmbr_entry ++ replicate 48 0 ++ [0x55; 0xAA]
    ++ example_header_bytes ++ replicate 420 0
    ++ gpt_entry_encode (example_gpt_entry 5) ++ gpt_entry_encode gpt_entry_new_empty
    ++ gpt_entry_encode (example_gpt_entry 9) ++ gpt_entry_encode gpt_entry_new_empty
    ++ replicate 512 0.
Definition example_gpt : GPT := {|
  gpt_drive_id := {| disk_type := AHCI; ide_controller := 0; device_id := 0 |};
  gpt_header := example_header;
  gpt_partitions := [example_gpt_entry 5; example_gpt_entry 9] |}.

Lemma load_drive_gpt_sound_witness :
  sig (gpt_header example_gpt) = GPT_SIGNATURE.
Proof.
  assert (E : @load_drive_gpt () (list Z) list_disk example_disk = Done (Some example_gpt))
    by (by vm_compute).
  destruct (@load_drive_gpt_sound () (list Z) list_disk example_disk example_gpt E)
    as (mbr & sec & buf & _ & _ & _ & _ & Hsig & _). exact Hsig.
Defined.

Lemma load_drive_gpt_total_witness :
  ∃ g, @load_drive_gpt () (list Z) list_disk example_disk = Done (Some g).
Proof.
  pose (mbr := {| mbr_drive_id := {| disk_type := AHCI; ide_controller := 0; device_id := 0 |};
                  mbr_partitions := [pmbr_entry; mbr_of_fields (replicate 10 0);
                    mbr_of_fields (replicate 10 0); mbr_of_fields (replicate 10 0)] |}).
  pose (sec := take 512 (drop 512 example_disk)).
  pose (buf := take 1024 (drop 1024 example_disk)).
  pose (h := gpt_header_decode (take gpt_header_size sec)).
  eexists. apply (@load_drive_gpt_total () (list Z) list_disk example_disk mbr sec h buf).
  all: first [ by vm_compute | by (split; vm_compute) | apply Nat.leb_le; by vm_compute ].
Defined.
