(* ===== verification/Addr.v ===== *)
(** Memory addresses (src/mem/mod.rs) and integer bit utilities
    (src/mem/utils.rs): virtual and physical addresses, their arithmetic and
    alignment tests, the integer conversions by masking and the bit slices. *)

From S2P Require Import Prelude.

(** * Alignment and the address types

    [VirtAddr], [PhyAddr] wrap a [u64], [PhyAddr32] a [u32]; [usize] is 64 bits
    wide in the kernel image. *)

Definition ALIGN_4KB : Z := Z.shiftl 1 12.

(** [TryFrom<Alignment> for u32]. *)
Inductive MemoryError := InvalidAlignment | NullPointer.
Definition u32_try_from_alignment (align : Z) : result Z MemoryError :=
  if bool_decide (align < 2 ^ 32) then Ok align else Err InvalidAlignment.

(** ** Virtual addresses *)

(** [VirtAddr::new]: bit 47 is copied to bits 48 to 63 when it is set. *)
Definition VirtAddr_new (addr : Z) : Z :=
  let sg_extd := Z.shiftr (Z.land addr (Z.shiftl 1 47)) 47 in
  Z.lor addr (u64 (sg_extd * Z.shiftl 0xFFFF 48)).
(** [From<VirtAddr> for u64]: the extension is applied again. *)
Definition u64_from_VirtAddr (v : Z) : Z :=
  let sg_extd := Z.shiftr (Z.land v (Z.shiftl 1 47)) 47 in
  Z.lor v (u64 (sg_extd * Z.shiftl 0xFFFF 48)).
Definition VirtAddr_from_u64 (value : Z) : Z := VirtAddr_new value.
Definition VirtAddr_NULL_PTR : Z := 0.

Definition VirtAddr_add_usize (v rhs : Z) : Z := VirtAddr_new (u64 (v + rhs)).
Definition VirtAddr_add_u64 (v rhs : Z) : Z := VirtAddr_new (u64 (v + rhs)).
Definition VirtAddr_sub_usize (v rhs : Z) : Z := VirtAddr_new (u64 (v - rhs)).
Definition VirtAddr_sub_u64 (v rhs : Z) : Z := VirtAddr_new (u64 (v - rhs)).
Definition VirtAddr_add (v rhs : Z) : Z := VirtAddr_new (u64 (v + rhs)).

(** The inherent [VirtAddr::is_aligned_with]: a remainder by zero panics. *)
Definition VirtAddr_is_aligned_with (v align : Z) : outcome bool :=
  if bool_decide (align = 0) then Panicked else Done (bool_decide (v mod align = 0)).

(** [as_mut_ptr] of the [MemoryAddress] implementation. *)
Definition VirtAddr_as_mut_ptr (v : Z) : Z := u64_from_VirtAddr v.

(** ** Physical addresses *)

Definition PhyAddr_new (addr : Z) : Z := addr mod Z.shiftl 1 52.
Definition PhyAddr_MAX_32 : Z := 0xFFFF_FFFF.
Definition PhyAddr_NULL_PTR : Z := 0.
Definition PhyAddr_is_null (p : Z) : bool := bool_decide (p = 0).
(** The additions do not reduce their result to 52 bits. *)
Definition PhyAddr_add_usize (p rhs : Z) : Z := u64 (p + rhs).
Definition PhyAddr_add_u64 (p rhs : Z) : Z := u64 (p + rhs).
Definition PhyAddr_add (p rhs : Z) : Z := u64 (p + rhs).

(** [MemoryAddress::is_aligned_with] for [PhyAddr] ([AsPrimitive = u64]). *)
Definition PhyAddr_is_aligned_with (p align : Z) : outcome (result bool MemoryError) :=
  if bool_decide (align = 0) then Panicked
  else Done (Ok (PhyAddr_is_null (PhyAddr_new (p mod align)))).

(** ** 32-bit physical addresses *)

Definition PhyAddr32_is_null (p : Z) : bool := bool_decide (p = 0).
(** [saturating_add]. *)
Definition PhyAddr32_add_u32 (p rhs : Z) : Z := Z.min (p + rhs) (2 ^ 32 - 1).
Definition PhyAddr32_add_assign (p rhs : Z) : Z := u32 (p + rhs).
Definition PhyAddr32_bitand (p rhs : Z) : Z := Z.land p rhs.
(** Shifting by 32 or more masks the amount. *)
Definition PhyAddr32_shr (p rhs : Z) : Z := Z.shiftr p (rhs mod 32).
Definition PhyAddr32_add_usize (p rhs : Z) : outcome Z :=
  if bool_decide (rhs < 2 ^ 32) then Done (Z.min (p + rhs) (2 ^ 32 - 1)) else Panicked.
Definition PhyAddr_from_PhyAddr32 (p : Z) : Z := PhyAddr_new p.
(** [MemoryAddress::is_aligned_with] for [PhyAddr32] ([AsPrimitive = u32]). *)
Definition PhyAddr32_is_aligned_with (p align : Z) : outcome (result bool MemoryError) :=
  match u32_try_from_alignment align with
  | Err e => Done (Err e)
  | Ok a => if bool_decide (a = 0) then Panicked
            else Done (Ok (PhyAddr32_is_null (p mod a)))
  end.

(** * Integer utilities (src/mem/utils.rs) *)

(** An implementation of the trait [Convertible<T> for S]: [src_bits] and
    [dst_bits] are the widths of [S] and [T]. *)
Record Convertible := {
  src_bits : Z; dst_bits : Z;
  SIZE_DIFF : Z; LOW_BITS_MASK : Z; HIGH_BITS_MASK : Z
}.

Definition convert_with_mask (c : Convertible) (self mask : Z) : outcome Z :=
  let r := Z.land self mask in
  if bool_decide (r < 2 ^ dst_bits c) then Done r else Panicked.
Definition high_bits (c : Convertible) (self : Z) : outcome Z :=
  convert_with_mask c (Z.shiftr self (SIZE_DIFF c)) (LOW_BITS_MASK c).
Definition low_bits (c : Convertible) (self : Z) : outcome Z :=
  convert_with_mask c self (LOW_BITS_MASK c).

Definition u128_u64 := {| src_bits := 128; dst_bits := 64; SIZE_DIFF := 64;
  LOW_BITS_MASK := 0xFFFF_FFFF_FFFF_FFFF; HIGH_BITS_MASK := Z.shiftl 0xFFFF_FFFF_FFFF_FFFF 64 |}.
Definition u128_u16 := {| src_bits := 128; dst_bits := 16; SIZE_DIFF := 112;
  LOW_BITS_MASK := 0xFFFF; HIGH_BITS_MASK := Z.shiftl 0xFFFF 112 |}.
Definition u64_u32 := {| src_bits := 64; dst_bits := 32; SIZE_DIFF := 32;
  LOW_BITS_MASK := 0xFFFF_FFFF; HIGH_BITS_MASK := 0xFFFF_FFFF_0000_0000 |}.
Definition u64_u16 := {| src_bits := 64; dst_bits := 16; SIZE_DIFF := 48;
  LOW_BITS_MASK := 0xFFFF; HIGH_BITS_MASK := 0xFFFF_0000_0000_0000 |}.
Definition u64_u8 := {| src_bits := 64; dst_bits := 8; SIZE_DIFF := 56;
  LOW_BITS_MASK := 0xFF; HIGH_BITS_MASK := 0xFF00_0000_0000_0000 |}.
Definition u32_u16 := {| src_bits := 32; dst_bits := 16; SIZE_DIFF := 16;
  LOW_BITS_MASK := 0xFFFF; HIGH_BITS_MASK := 0xFFFF_0000 |}.
Definition u32_u8 := {| src_bits := 32; dst_bits := 8; SIZE_DIFF := 24;
  LOW_BITS_MASK := 0xFF; HIGH_BITS_MASK := 0xFF00_0000 |}.
Definition u16_u8 := {| src_bits := 16; dst_bits := 8; SIZE_DIFF := 8;
  LOW_BITS_MASK := 0xFF; HIGH_BITS_MASK := 0xFF00 |}.
Definition convertible_impls : list Convertible :=
  [u128_u64; u128_u16; u64_u32; u64_u16; u64_u8; u32_u16; u32_u8; u16_u8].

(** [BitIndex] on a [w]-bit word: shift amounts are masked to the width and
    arithmetic wraps, as in a release build. *)
Definition shl_w (w x n : Z) : Z := wrap w (Z.shiftl x (n mod w)).
Definition shr_w (w x n : Z) : Z := Z.shiftr x (n mod w).
Definition get_bit (w self index : Z) : Z :=
  shr_w w (Z.land self (shl_w w 1 index)) index.
Definition get_bit_slice (w self first_bit last_bit : Z) : Z :=
  Z.land (shr_w w self first_bit)
    (wrap w (shl_w w 1 (wrap w (1 + last_bit - first_bit)) - 1)).

(** * Properties *)

Lemma land_shiftl1 x n : 0 ≤ n → Z.land x (Z.shiftl 1 n) = Z.b2z (Z.testbit x n) * 2 ^ n.
Proof.
  intros Hn. rewrite Z.shiftl_1_l. apply Z.bits_inj'. intros i Hi.
  rewrite Z.land_spec, Z.pow2_bits_eqb by lia.
  destruct (Z.testbit x n) eqn:E; simpl.
  - rewrite Z.mul_1_l, Z.pow2_bits_eqb by lia.
    destruct (Z.eqb_spec n i) as [->|]; [by rewrite E|btauto].
  - rewrite Z.mul_0_l, Z.bits_0. destruct (Z.eqb_spec n i) as [->|]; [by rewrite E|btauto].
Qed.

Lemma sign_mask a :
  u64 (Z.shiftr (Z.land a (Z.shiftl 1 47)) 47 * Z.shiftl 0xFFFF 48)
  = if Z.testbit a 47 then 2 ^ 64 - 2 ^ 48 else 0.
Proof.
  rewrite land_shiftl1 by lia.
  rewrite Z.shiftr_div_pow2, Z.div_mul by lia. by destruct (Z.testbit a 47).
Qed.

Lemma VirtAddr_new_spec a :
  VirtAddr_new a = if Z.testbit a 47 then Z.lor a (2 ^ 64 - 2 ^ 48) else a.
Proof. unfold VirtAddr_new. rewrite sign_mask. destruct (Z.testbit a 47); [done|apply Z.lor_0_r]. Qed.

Lemma testbit_sign_mask i : 0 ≤ i → Z.testbit (2 ^ 64 - 2 ^ 48) i = bool_decide (48 ≤ i < 64).
Proof.
  intros Hi. replace (2 ^ 64 - 2 ^ 48) with (Z.shiftl (Z.ones 16) 48) by done.
  destruct (decide (i < 48)).
  - rewrite Z.shiftl_spec_low by lia. by rewrite bool_decide_false by lia.
  - rewrite Z.shiftl_spec by lia. destruct (decide (i < 64)).
    + rewrite Z.ones_spec_low by lia. by rewrite bool_decide_true by lia.
    + rewrite Z.ones_spec_high by lia. by rewrite bool_decide_false by lia.
Qed.

Lemma VirtAddr_new_testbit a i : 0 ≤ i →
  Z.testbit (VirtAddr_new a) i
  = Z.testbit a i || (Z.testbit a 47 && bool_decide (48 ≤ i < 64)).
Proof.
  intros Hi. rewrite VirtAddr_new_spec. destruct (Z.testbit a 47); [|by rewrite orb_false_r].
  by rewrite Z.lor_spec, testbit_sign_mask.
Qed.

Lemma VirtAddr_new_width a : in_width 64 a → in_width 64 (VirtAddr_new a).
Proof.
  intros. rewrite VirtAddr_new_spec. destruct (Z.testbit a 47); [|done].
  apply in_width_lor; [done|done|by vm_compute].
Qed.

Lemma VirtAddr_new_idem a : VirtAddr_new (VirtAddr_new a) = VirtAddr_new a.
Proof.
  apply Z.bits_inj'. intros i Hi. rewrite !VirtAddr_new_testbit by lia.
  rewrite (bool_decide_false (48 ≤ 47 < 64)) by lia. btauto.
Qed.

(** A canonical address of the 4-level paging mode. *)
Definition canonical (a : Z) : Prop := 0 ≤ a < 2 ^ 47 ∨ 2 ^ 64 - 2 ^ 47 ≤ a < 2 ^ 64.

Lemma canonical_testbit a : in_width 64 a →
  canonical a ↔ ∀ i, 48 ≤ i < 64 → Z.testbit a i = Z.testbit a 47.
Proof.
  intros Ha. split.
  - intros [H|H] i Hi.
    + by rewrite !(testbit_above 47) by (done || lia).
    + assert (Hn : ∀ j, 47 ≤ j < 64 → Z.testbit a j = true); [|by rewrite !Hn by lia].
      intros j Hj. assert (in_width 47 (not_w 64 a)) as Hw by (unfold in_width, not_w; lia).
      apply negb_false_iff. rewrite <- (testbit_not_w 64) by lia. apply (testbit_above 47); [done|lia].
  - intros E. unfold canonical. destruct (Z.testbit a 47) eqn:E47.
    + right. split; [|apply Ha]. assert (in_width 47 (not_w 64 a)) as Hw; [|unfold in_width, not_w in Hw; lia].
      apply in_width_testbit; [lia|]. intros i Hi. destruct (decide (i < 64)).
      * rewrite testbit_not_w by lia. destruct (decide (i = 47)) as [->|]; [by rewrite E47|by rewrite E by lia].
      * apply (testbit_above 64); [by apply in_width_not_w|lia].
    + left. apply (in_width_testbit 47); [lia|]. intros i Hi. destruct (decide (i < 64)).
      * destruct (decide (i = 47)) as [->|]; [done|by apply E; lia].
      * by apply (testbit_above 64); [|lia].
Qed.

Lemma VirtAddr_new_id a : in_width 64 a → canonical a → VirtAddr_new a = a.
Proof.
  intros Ha Hc. rewrite canonical_testbit in Hc by done. apply Z.bits_inj'. intros i Hi.
  rewrite VirtAddr_new_testbit by lia. case_bool_decide; [|btauto].
  rewrite (Hc i) by lia. btauto.
Qed.

(** [VirtAddr::new] sign-extends bit 47: the result is a canonical address
    whenever bit 47 is set or the argument is below 2^47, it keeps the low 48
    bits, is idempotent, and fixes every canonical address; an argument with bit
    47 clear and a bit above it set is kept, non-canonical. *)
Theorem VirtAddr_new_canonical a : in_width 64 a →
  VirtAddr_new (VirtAddr_new a) = VirtAddr_new a
  ∧ VirtAddr_new a mod 2 ^ 48 = a mod 2 ^ 48
  ∧ (canonical a → VirtAddr_new a = a)
  ∧ (canonical (VirtAddr_new a) ↔ Z.testbit a 47 = true ∨ a < 2 ^ 47).
Proof.
  intros Ha. split_and!.
  - apply VirtAddr_new_idem.
  - apply Z.bits_inj'. intros i Hi. destruct (decide (i < 48)).
    + rewrite !Z.mod_pow2_bits_low, VirtAddr_new_testbit by lia.
      rewrite bool_decide_false by lia. btauto.
    + by rewrite !Z.mod_pow2_bits_high by lia.
  - intros Hc. by apply VirtAddr_new_id.
  - rewrite VirtAddr_new_spec. destruct (Z.testbit a 47) eqn:E.
    + split; [by left|]. intros _. apply canonical_testbit.
      { apply in_width_lor; [done|done|by vm_compute]. }
      intros i Hi. rewrite !Z.lor_spec, !testbit_sign_mask, E by lia.
      rewrite bool_decide_true by lia. btauto.
    + split; [|intros [?|?]; [done|left; split; [apply Ha|done]]].
      intros [?|Hc]; [right; lia|]. left. rewrite <- E. symmetry.
      assert (canonical a) as Hc' by (by right).
      rewrite canonical_testbit in Hc' by done. rewrite <- (Hc' 63) by lia.
      destruct (Z.testbit a 63) eqn:E63; [done|]. exfalso.
      assert (in_width 63 a) as Hw; [|unfold in_width in Hw; lia].
      apply in_width_testbit; [lia|]. intros i Hi. destruct (decide (i = 63)) as [->|]; [done|].
      by apply (testbit_above 64); [|lia].
Qed.

Lemma VirtAddr_new_canonical_witness :
  in_width 64 0x8000_0000_0000 ∧ VirtAddr_new 0x8000_0000_0000 = 0xFFFF_8000_0000_0000
  ∧ canonical (VirtAddr_new 0x8000_0000_0000).
Proof.
  assert (H : in_width 64 0x8000_0000_0000) by (by vm_compute).
  split_and!; [exact H|by vm_compute|].
  apply (VirtAddr_new_canonical 0x8000_0000_0000 H). left. by vm_compute.
Defined.

(** * Masking conversions and bit slices *)

Definition convertible_ok (c : Convertible) : Prop :=
  0 ≤ dst_bits c ≤ src_bits c ∧ SIZE_DIFF c = src_bits c - dst_bits c
  ∧ LOW_BITS_MASK c = Z.ones (dst_bits c)
  ∧ HIGH_BITS_MASK c = Z.shiftl (LOW_BITS_MASK c) (SIZE_DIFF c).

Lemma convertible_impls_ok : Forall convertible_ok convertible_impls.
Proof. repeat constructor; by vm_compute. Qed.

Lemma convert_with_low_mask c x : convertible_ok c →
  convert_with_mask c x (LOW_BITS_MASK c) = Done (x mod 2 ^ dst_bits c).
Proof.
  intros (Hd & _ & Hl & _). unfold convert_with_mask. rewrite Hl, Z.land_ones by lia.
  rewrite bool_decide_true; [done|]. apply (wrap_range (dst_bits c)). lia.
Qed.

(** For each of the eight conversions of utils.rs, [high_bits] and
    [low_bits] return the top and the bottom bits of the word, and never panic;
    when the target is half as wide, the two halves recompose the word. *)
Theorem convertible_halves c x : c ∈ convertible_impls → in_width (src_bits c) x →
  high_bits c x = Done (x / 2 ^ SIZE_DIFF c)
  ∧ low_bits c x = Done (x mod 2 ^ dst_bits c)
  ∧ (src_bits c = 2 * dst_bits c →
     x = (x / 2 ^ SIZE_DIFF c) * 2 ^ dst_bits c + x mod 2 ^ dst_bits c).
Proof.
  intros Hc Hx. pose proof convertible_impls_ok as Ok. rewrite Forall_forall in Ok.
  specialize (Ok c Hc). destruct Ok as (Hd & Hs & Hl & Hh) eqn:Hok. clear Hok.
  unfold high_bits, low_bits. rewrite !convert_with_low_mask by done.
  rewrite Z.shiftr_div_pow2 by lia. split_and!; [|done|].
  - f_equal. apply Z.mod_small. unfold in_width in Hx. split.
    + apply Z.div_pos; [lia|]. apply pow2_pos. lia.
    + apply Z.div_lt_upper_bound; [apply pow2_pos; lia|].
      rewrite <- Z.pow_add_r by lia. replace (SIZE_DIFF c + dst_bits c) with (src_bits c) by lia. apply Hx.
  - intros H2. replace (SIZE_DIFF c) with (dst_bits c) by lia.
    rewrite Z.mul_comm. apply Z.div_mod. pose proof (pow2_pos (dst_bits c)). lia.
Qed.

Lemma convertible_halves_witness : high_bits u64_u16 0x1234_5678_9ABC_DEF0 = Done 0x1234.
Proof.
  destruct (convertible_halves u64_u16 0x1234_5678_9ABC_DEF0) as (H & _).
  - unfold convertible_impls. set_solver.
  - by vm_compute.
  - exact H.
Defined.

(** [get_bit_slice] returns the bits [first..=last] of the word as a number
    whenever the slice is not the whole word; the slice of all the bits of a
    word is 0, since the shift by the width is masked to a shift by 0. *)
Theorem get_bit_slice_spec w x first last : w ∈ [8; 32; 64; 128] → in_width w x →
  0 ≤ first ≤ last → last < w →
  get_bit_slice w x first last
  = if bool_decide (first = 0 ∧ last = w - 1) then 0
    else (x / 2 ^ first) mod 2 ^ (1 + last - first).
Proof.
  intros Hw Hx Hf Hl. assert (0 < w) by set_solver. unfold get_bit_slice, shl_w, shr_w.
  rewrite (Z.mod_small first) by lia.
  assert (Hpw : w < 2 ^ w) by (apply Z.pow_gt_lin_r; lia).
  rewrite (wrap_id w (1 + last - first)) by (unfold in_width; lia).
  case_bool_decide as Hfull.
  - destruct Hfull as [-> ->]. replace ((1 + (w - 1) - 0) mod w) with 0.
    + change (Z.shiftl 1 0) with 1. rewrite (wrap_id w 1) by (unfold in_width; lia).
      change (1 - 1) with 0. rewrite (wrap_id w 0) by (unfold in_width; lia). apply Z.land_0_r.
    + replace (1 + (w - 1) - 0) with w by lia. by rewrite Z.mod_same by lia.
  - rewrite (Z.mod_small (1 + last - first)) by lia. set (n := 1 + last - first).
    assert (2 ^ n < 2 ^ w) by (apply Z.pow_lt_mono_r; lia).
    assert (0 < 2 ^ n) by (apply pow2_pos; lia).
    rewrite Z.shiftl_1_l, (wrap_id w (2 ^ n)) by (unfold in_width; lia).
    rewrite wrap_id by (unfold in_width; lia).
    replace (2 ^ n - 1) with (Z.ones n) by (rewrite Z.ones_equiv; lia).
    by rewrite Z.land_ones, Z.shiftr_div_pow2 by lia.
Qed.

Lemma get_bit_slice_spec_witness :
  get_bit_slice 64 0xABCD 4 11 = 0xBC ∧ get_bit_slice 64 0xABCD 0 63 = 0.
Proof.
  split; [refine (eq_trans (get_bit_slice_spec 64 0xABCD 4 11 _ _ _ _) _)
         |refine (eq_trans (get_bit_slice_spec 64 0xABCD 0 63 _ _ _ _) _)];
  first [set_solver | by vm_compute | lia].
Defined.
