(* ===== verification/Frames.v ===== *)
(** The frame allocator interface (trait [FrameAllocator] of
    src/x86/paging/page_alloc/frame_alloc.rs) and what its clients rely on. *)

From S2P Require Import Prelude.

(** [PAGE_SIZE] (src/lib.rs). *)
Definition PAGE_SIZE : Z := 0x1000.

Record FrameAllocation := { start : Z; length_ : Z }.

Inductive FrameAllocationError := NoAvailableFrame.

(** The trait, on an allocator state [A]: both methods take [&mut self]. *)
Class FrameAllocator (A : Type) := {
  allocate : Z → A → outcome (result FrameAllocation FrameAllocationError * A);
  deallocate : FrameAllocation → A → outcome A
}.

(** A frame: page-aligned, not the null page, within the part of the physical
    space that the kernel's mapping of physical memory covers
    ([PhysicalMemoryMapping::DEFAULT_MAX_SIZE]). *)
Definition frame_ok (f : Z) : Prop := f mod PAGE_SIZE = 0 ∧ 0 < f < 0x0100_0000_0000.
#[global] Instance frame_ok_dec f : Decision (frame_ok f).
Proof. unfold frame_ok. apply _. Defined.

(** What the paging code needs of an allocator whose states satisfy [inv] and in
    which [taken f a] says that the frame at [f] is in use: an allocation
    returns, and when it succeeds, with a frame that was not in use. *)
Class FreshFrames (A : Type) `{FrameAllocator A}
    (inv : A → Prop) (taken : Z → A → Prop) := {
  allocate_spec a : inv a → ∃ r a', allocate PAGE_SIZE a = Done (r, a') ∧ inv a'
    ∧ (∀ p, taken p a → taken p a')
    ∧ match r with
      | Ok f => frame_ok (start f) ∧ ¬ taken (start f) a ∧ taken (start f) a'
      | Err _ => True
      end
}.

(** A first allocator with this interface: it hands out the frames below its
    mark, downwards. *)
Definition Bump_allocate (_ next : Z) : outcome (result FrameAllocation FrameAllocationError * Z) :=
  Done (if bool_decide (PAGE_SIZE < next)
        then (Ok {| start := next - PAGE_SIZE; length_ := PAGE_SIZE |}, next - PAGE_SIZE)
        else (Err NoAvailableFrame, next)).
Definition Bump_Allocator : FrameAllocator Z :=
  {| allocate := Bump_allocate; deallocate _ a := Done a |}.
Definition Bump_inv (next : Z) : Prop := next mod PAGE_SIZE = 0 ∧ 0 < next < 0x0100_0000_0000.
Definition Bump_taken (f next : Z) : Prop := next ≤ f.

Lemma Bump_fresh : @FreshFrames Z Bump_Allocator Bump_inv Bump_taken.
Proof.
  constructor. intros a (Ha & Hr). simpl. unfold Bump_allocate.
  assert (Hm : (a - PAGE_SIZE) mod PAGE_SIZE = 0).
  { rewrite <- (Z_mod_plus_full _ 1), <- Ha. f_equal. lia. }
  case_bool_decide as Hlt; unfold PAGE_SIZE in *; eexists _, _; (split; [done|]);
    unfold Bump_inv, Bump_taken, frame_ok, PAGE_SIZE; simpl; split_and!; try done; try lia;
    intros; lia.
Qed.
