(* ===== verification/Paging.v ===== *)
(** Four-level page tables (src/x86/paging): page table entries and flags
    (page_table/mod.rs), address translation helpers (page_table/translate.rs)
    and the mapper that edits the tables in physical memory
    (page_table/mapper.rs). *)

From S2P Require Import Prelude Addr Frames.

(** * Page table flags

    [PageTableFlags] is declared with the [modular_bitfield] crate: a [u64]
    whose fields are laid out from the least significant bit in declaration
    order.  The generated accessors the mapper uses are the operations of this
    class, and [FlagBitsOk] is what the crate documents of them. *)
Class FlagBits := {
  flags_new : Z;
  with_present : Z → bool → Z;
  with_write : Z → bool → Z;
  with_huge_page : Z → bool → Z;
  huge_page : Z → bool;
  with_nxe : Z → bool → Z
}.

Class FlagBitsOk `{FlagBits} := {
  flags_new_0 : flags_new = 0;
  testbit_with_present f b i : 0 ≤ i →
    Z.testbit (with_present f b) i = if bool_decide (i = 0) then b else Z.testbit f i;
  testbit_with_write f b i : 0 ≤ i →
    Z.testbit (with_write f b) i = if bool_decide (i = 1) then b else Z.testbit f i;
  testbit_with_huge_page f b i : 0 ≤ i →
    Z.testbit (with_huge_page f b) i = if bool_decide (i = 7) then b else Z.testbit f i;
  huge_page_testbit f : huge_page f = Z.testbit f 7;
  testbit_with_nxe f b i : 0 ≤ i →
    Z.testbit (with_nxe f b) i = if bool_decide (i = 63) then b else Z.testbit f i
}.

(** A concrete layout with these properties. *)
Definition put_bit (n f : Z) (b : bool) : Z := if b then Z.setbit f n else Z.clearbit f n.
Definition flag_bits_lsb : FlagBits := {|
  flags_new := 0;
  with_present := put_bit 0;
  with_write := put_bit 1;
  with_huge_page := put_bit 7;
  huge_page f := Z.testbit f 7;
  with_nxe := put_bit 63
|}.

Lemma testbit_put_bit n f b i : 0 ≤ n → 0 ≤ i →
  Z.testbit (put_bit n f b) i = if bool_decide (i = n) then b else Z.testbit f i.
Proof.
  intros Hn Hi. unfold put_bit. case_bool_decide as E; destruct b; subst.
  - by rewrite Z.setbit_eq.
  - by rewrite Z.clearbit_eq.
  - by rewrite Z.setbit_neq by lia.
  - by rewrite Z.clearbit_neq by lia.
Qed.

Lemma flag_bits_lsb_ok : @FlagBitsOk flag_bits_lsb.
Proof. constructor; intros; simpl; [done|by apply testbit_put_bit..|done|by apply testbit_put_bit]. Qed.

(** * Entries *)

Definition ADDR_BITS : Z := 0x000f_ffff_ffff_f000.
Definition EMPTY_ENTRY : Z := 0.

Inductive PageMappingError := BadAlignment.
Inductive PageTableCreationError := AllocationError | HugePage.
Inductive PageTableMappingError := AlreadyMapped | TableCreationError.

Definition used (entry : Z) : bool := bool_decide (entry ≠ 0).
Definition frame (entry : Z) : Z := PhyAddr_new (Z.land entry ADDR_BITS).
(** [map_to_addr]: the new entry and the result. *)
Definition map_to_addr (entry addr flags : Z) : outcome (Z * result unit PageMappingError) :=
  r ← PhyAddr_is_aligned_with addr ALIGN_4KB;
  match r with
  | Err _ => Panicked
  | Ok aligned =>
      if negb aligned then Done (entry, Err BadAlignment)
      else Done (Z.lor addr flags, Ok ())
  end.
Definition map_to_frame (entry fr flags : Z) := map_to_addr entry fr flags.
Definition set_flags (entry flags : Z) : Z := Z.lor (Z.land entry ADDR_BITS) flags.
Definition flags (entry : Z) : Z := Z.land entry (not_w 64 ADDR_BITS).

(** [PageTable::default()]: 512 empty entries. *)
Definition PageTable_default : list Z := replicate 512 EMPTY_ENTRY.

(** * Address translation (page_table/translate.rs) *)

Record PageTableAddress := {
  pml4_offset : Z; pdpte_offset : Z; pde_offset : Z; pte_offset : Z
}.
Definition translate_address (virt_addr : Z) : PageTableAddress :=
  let a := u64_from_VirtAddr virt_addr in {|
  pml4_offset := Z.land (Z.shiftr a 39) 0x1FF;
  pdpte_offset := Z.land (Z.shiftr a 30) 0x1FF;
  pde_offset := Z.land (Z.shiftr a 21) 0x1FF;
  pte_offset := Z.land (Z.shiftr a 12) 0x1FF |}.

(** * The physical memory mapping *)

(** [PhysicalMemoryMapping { offset }] and its [convert], up to the pointer
    [as_mut_ptr] makes of the result. *)
Definition DEFAULT_OFFSET : Z := VirtAddr_new 0xFFFF_CF80_0000_0000.
Definition convert (offset phys : Z) : Z := VirtAddr_add offset (VirtAddr_new phys).
Definition table_ptr (offset phys : Z) : Z := VirtAddr_as_mut_ptr (convert offset phys).

(** * The mapper *)

(** The page tables in memory, by the pointer through which they are accessed,
    the state of the frame allocator, and the addresses passed to [invlpg], the
    latest first. *)
Record pg (A : Type) := {
  tables : gmap Z (list Z);
  falloc : A;
  invlpg : list Z
}.
Arguments tables {A} _.
Arguments falloc {A} _.
Arguments invlpg {A} _.

Definition with_tables {A} (s : pg A) (t : gmap Z (list Z)) := {| tables := t; falloc := falloc s; invlpg := invlpg s |}.
Definition with_falloc {A} (s : pg A) (a : A) := {| tables := tables s; falloc := a; invlpg := invlpg s |}.

(** [table.get_mut(id)]: the entry is in a 512-entry array, an index out of
    range panics. *)
Definition rd_entry {A} (s : pg A) (p id : Z) : outcome Z :=
  t ← deref (tables s !! p); unwrap (t !! Z.to_nat id).
Definition wr_entry {A} (s : pg A) (p id v : Z) : outcome (pg A) :=
  t ← deref (tables s !! p);
  rust_assert (bool_decide (Z.to_nat id < length t)%nat);;
  Done (with_tables s (<[p := <[Z.to_nat id := v]> t]> (tables s))).
(** [*ptr = PageTable::default()]. *)
Definition wr_default {A} (s : pg A) (p : Z) : pg A :=
  with_tables s (<[p := PageTable_default]> (tables s)).
Definition invalidate_tlb_entry {A} (s : pg A) (mem : Z) : pg A :=
  {| tables := tables s; falloc := falloc s; invlpg := VirtAddr_as_mut_ptr mem :: invlpg s |}.

Section mapper.
Context {FB : FlagBits} {A : Type} `{FrameAllocator A}.
(** [self.phys_mapping] and the pointer of [self.pml4]. *)
Context (mapping pml4 : Z).

Definition get_next_table (entry : Z) : Z := table_ptr mapping (frame entry).

(** [entry.map_to_addr(addr, flags)] on the entry [id] of table [p]; the
    callers drop the result. *)
Definition map_entry (s : pg A) (p id addr fl : Z) : outcome (pg A) :=
  e ← rd_entry s p id;
  '(e', _) ← map_to_addr e addr fl;
  wr_entry s p id e'.

(** [get_or_create_entry] on the entry [id] of table [p]. *)
Definition get_or_create_entry (s : pg A) (p id fl : Z)
    : outcome (result Z PageTableCreationError * pg A) :=
  e ← rd_entry s p id;
  r ← (if negb (used e) then
         '(r, a) ← allocate PAGE_SIZE (falloc s);
         match r with
         | Err _ => Done (Err AllocationError, with_falloc s a)
         | Ok table_addr =>
             let s := wr_default (with_falloc s a) (table_ptr mapping (start table_addr)) in
             s ← map_entry s p id (start table_addr) fl;
             Done (Ok (), s)
         end
       else
         s ← wr_entry s p id (set_flags e fl);
         Done (Ok (), s));
  match r with
  | (Err err, s) => Done (Err err, s)
  | (Ok _, s) =>
      e ← rd_entry s p id;
      if huge_page (flags e) then Done (Err HugePage, s)
      else Done (Ok (get_next_table e), s)
  end.

(** The last step of the three [map_*_page]: fail when the entry is used. *)
Definition map_leaf (s : pg A) (p id fr fl : Z) : outcome (result unit PageTableMappingError * pg A) :=
  e ← rd_entry s p id;
  if used e then Done (Err AlreadyMapped, s)
  else s ← map_entry s p id fr fl; Done (Ok (), s).

(** [get_or_create_entry(..).map_err(|_| TableCreationError)?] followed by the
    rest of the function. *)
Definition descend (s : pg A) (p id fl : Z)
    (k : pg A → Z → outcome (result unit PageTableMappingError * pg A))
    : outcome (result unit PageTableMappingError * pg A) :=
  '(r, s) ← get_or_create_entry s p id fl;
  match r with
  | Err _ => Done (Err TableCreationError, s)
  | Ok next => k s next
  end.

Definition map_1gb_page (s : pg A) (page fr fl parent_fl : Z) :=
  let ta := translate_address page in
  descend s pml4 (pml4_offset ta) parent_fl (λ s pdpte,
  map_leaf s pdpte (pdpte_offset ta) fr (Z.lor fl (with_huge_page flags_new true))).

Definition map_2mb_page (s : pg A) (page fr fl parent_fl : Z) :=
  let ta := translate_address page in
  descend s pml4 (pml4_offset ta) parent_fl (λ s pdpte,
  descend s pdpte (pdpte_offset ta) parent_fl (λ s pde,
  map_leaf s pde (pde_offset ta) fr (Z.lor fl (with_huge_page flags_new true)))).

Definition map_4kb_page (s : pg A) (page fr fl parent_fl : Z) :=
  let ta := translate_address page in
  descend s pml4 (pml4_offset ta) parent_fl (λ s pdpte,
  descend s pdpte (pdpte_offset ta) parent_fl (λ s pde,
  descend s pde (pde_offset ta) parent_fl (λ s pte,
  map_leaf s pte (pte_offset ta) fr fl))).

(** ** Mapping a range *)

(** [alloc_page(PAGE_SIZE).unwrap()]. *)
Definition alloc_page_unwrap (s : pg A) : outcome (Z * pg A) :=
  '(r, a) ← allocate PAGE_SIZE (falloc s);
  match r with
  | Ok f => Done (start f, with_falloc s a)
  | Err _ => Panicked
  end.

(** The table an entry of a page directory pointer table or of a page directory
    refers to, created when the entry is unused. *)
Definition next_or_new (s : pg A) (p id parent_fl : Z) : outcome (Z * pg A) :=
  e ← rd_entry s p id;
  if used e then Done (get_next_table e, s)
  else
    '(addr, s) ← alloc_page_unwrap s;
    s ← map_entry s p id addr (with_present parent_fl true);
    Done (table_ptr mapping addr, wr_default s (table_ptr mapping addr)).

(** The innermost loop: the entries of one page table. *)
Definition map_table_entries (phys_base off fl : Z) (table : Z) (r_start r_end : Z) (s : pg A)
    : outcome (pg A) :=
  for_each (range r_start r_end) (λ l s,
    map_entry s table l
      (PhyAddr_add phys_base (PhyAddr_new (u64 (off + u64 (l - r_start) * 0x1000))))
      (with_present fl true)) s.

(** [map_physical_memory]: the four nested loops, from the outermost. *)
Definition map_physical_memory (s : pg A) (phys_base virt_base fl parent_fl len : Z)
    : outcome (pg A) :=
  let bt := translate_address virt_base in
  let lt := translate_address (VirtAddr_add_usize virt_base len) in
  for_each (range (pml4_offset bt) (pml4_offset lt + 1)) (λ i s,
    let off_map := (i - pml4_offset bt) * 0x1000 * 0x200 * 0x200 * 0x200 in
    let i_start := if bool_decide (i = pml4_offset bt) then pdpte_offset bt else 0 in
    let i_end := if bool_decide (i = pml4_offset lt) then pdpte_offset lt + 1 else 0x200 in
    e ← rd_entry s pml4 i;
    '(page_table_dir, s) ← (
      if used e then Done (get_next_table e, s)
      else
        '(addr, s) ← alloc_page_unwrap s;
        let s := wr_default s (table_ptr mapping addr) in
        s ← map_entry s pml4 (pml4_offset bt) addr (with_present parent_fl true);
        Done (table_ptr mapping addr, s));
    for_each (range i_start i_end) (λ j s,
      let off_dir_ptr := (j - i_start) * 0x1000 * 0x200 * 0x200 in
      '(directory_ptr_table, s) ← next_or_new s page_table_dir j parent_fl;
      let first_ij := bool_decide (i = pml4_offset bt) && bool_decide (j = pdpte_offset bt) in
      let last_ij := bool_decide (i = pml4_offset lt) && bool_decide (j = pdpte_offset lt) in
      let j_start := if first_ij then pde_offset bt else 0 in
      let j_end := if last_ij then pde_offset lt + 1 else 0x200 in
      for_each (range j_start j_end) (λ k s,
        let off_dir := (k - j_start) * 0x1000 * 0x200 in
        let k_start := if first_ij && bool_decide (k = pde_offset bt) then pte_offset bt else 0 in
        let k_end := if last_ij && bool_decide (k = pde_offset lt) then pte_offset lt + 1 else 0x200 in
        let off := off_map + off_dir_ptr + off_dir in
        if bool_decide (k_start = 0) && bool_decide (k_end = 0x200) then
          map_entry s directory_ptr_table k
            (PhyAddr_add phys_base (PhyAddr_new off))
            (with_huge_page (with_present fl true) true)
        else
          '(directory, s) ← next_or_new s directory_ptr_table k parent_fl;
          map_table_entries phys_base off fl directory k_start k_end s) s) s) s.

(** ** Unmapping a range *)

(** A loop whose body may [return] from the function ([inr]). *)
Fixpoint for_each_ret {S : Type} (l : list Z) (body : Z → S → outcome (S + S)) (s : S) : outcome S :=
  match l with
  | [] => Done s
  | x :: l =>
      r ← body x s;
      match r with
      | inl s => for_each_ret l body s
      | inr s => Done s
      end
  end.

Definition unmap_table_entries (virt_base off : Z) (table : Z) (r_start r_end : Z) (s : pg A)
    : outcome (pg A) :=
  for_each (range r_start r_end) (λ l s,
    s ← wr_entry s table l EMPTY_ENTRY;
    Done (invalidate_tlb_entry s
            (VirtAddr_add virt_base (VirtAddr_new (u64 (off + u64 (l - r_start) * 0x1000)))))) s.

(** [unmap_physical_memory]: an unused top-level entry ends the function, an
    unused entry of a lower level is skipped. *)
Definition unmap_physical_memory (s : pg A) (virt_base len : Z) : outcome (pg A) :=
  let bt := translate_address virt_base in
  let lt := translate_address (VirtAddr_add_usize virt_base len) in
  for_each_ret (range (pml4_offset bt) (pml4_offset lt + 1)) (λ i s,
    let off_map := (i - pml4_offset bt) * 0x1000 * 0x200 * 0x200 * 0x200 in
    let i_start := if bool_decide (i = pml4_offset bt) then pdpte_offset bt else 0 in
    let i_end := if bool_decide (i = pml4_offset lt) then pdpte_offset lt + 1 else 0x200 in
    e ← rd_entry s pml4 i;
    if negb (used e) then Done (inr s)
    else
      s ← for_each (range i_start i_end) (λ j s,
        let off_dir_ptr := (j - i_start) * 0x1000 * 0x200 * 0x200 in
        e ← rd_entry s (get_next_table e) j;
        if negb (used e) then Done s
        else
          let directory_ptr_table := get_next_table e in
          let first_ij := bool_decide (i = pml4_offset bt) && bool_decide (j = pdpte_offset bt) in
          let last_ij := bool_decide (i = pml4_offset lt) && bool_decide (j = pdpte_offset lt) in
          let j_start := if first_ij then pde_offset bt else 0 in
          let j_end := if last_ij then pde_offset lt + 1 else 0x200 in
          for_each (range j_start j_end) (λ k s,
            let off_dir := (k - j_start) * 0x1000 * 0x200 in
            let k_start := if first_ij && bool_decide (k = pde_offset bt) then pte_offset bt else 0 in
            let k_end := if last_ij && bool_decide (k = pde_offset lt) then pte_offset lt + 1 else 0x200 in
            let off := off_map + off_dir_ptr + off_dir in
            e ← rd_entry s directory_ptr_table k;
            if used e && huge_page (flags e) then
              s ← wr_entry s directory_ptr_table k EMPTY_ENTRY;
              Done (invalidate_tlb_entry s (VirtAddr_add virt_base (VirtAddr_new off)))
            else if negb (used e) then Done s
            else unmap_table_entries virt_base off (get_next_table e) k_start k_end s) s) s;
      Done (inl s)) s.

(** ** What the processor makes of the tables

    The entry a table holds at an index, and the index a virtual address has at
    each level: level 0 is the page table, level 3 the PML4. *)
Definition entry_at (s : pg A) (p id : Z) : option Z :=
  t ← tables s !! p; t !! Z.to_nat id.
Definition level_shift (k : nat) : Z := 12 + 9 * Z.of_nat k.
Definition index (k : nat) (v : Z) : Z := (v / 2 ^ level_shift k) mod 512.

(** The walk from the table [p] of level [k]: an entry is followed when its
    present bit is set; bit 7 of an entry of level 1 or 2 ends the walk with a
    large page, whose frame has to be aligned on the size of the page (the bits
    below are reserved).  The result is the physical address of the byte. *)
Definition is_leaf (k : nat) (e : Z) : bool :=
  bool_decide (k = 0%nat) || (bool_decide (k ≤ 2)%nat && Z.testbit e 7).
Fixpoint walk_from (k : nat) (s : pg A) (p v : Z) : option Z :=
  e ← entry_at s p (index k v);
  if negb (Z.testbit e 0) then None
  else if is_leaf k e then
    if bool_decide (frame e mod 2 ^ level_shift k = 0)
    then Some (frame e + v mod 2 ^ level_shift k) else None
  else match k with
       | O => None
       | S k' => walk_from k' s (get_next_table e) v
       end.
Definition walk (s : pg A) (v : Z) : option Z := walk_from 3 s pml4 v.
End mapper.

(** * Properties of the entries *)

Lemma testbit_ADDR_BITS i : 0 ≤ i → Z.testbit ADDR_BITS i = bool_decide (12 ≤ i < 52).
Proof.
  intros Hi. replace ADDR_BITS with (Z.shiftl (Z.ones 40) 12) by done.
  destruct (decide (i < 12)).
  - rewrite Z.shiftl_spec_low by lia. by rewrite bool_decide_false by lia.
  - rewrite Z.shiftl_spec by lia. destruct (decide (i < 52)).
    + rewrite Z.ones_spec_low by lia. by rewrite bool_decide_true by lia.
    + rewrite Z.ones_spec_high by lia. by rewrite bool_decide_false by lia.
Qed.

Lemma PhyAddr_new_mod a : PhyAddr_new a = wrap 52 a.
Proof. done. Qed.

Lemma testbit_frame e i : 0 ≤ i → Z.testbit (frame e) i = Z.testbit e i && bool_decide (12 ≤ i < 52).
Proof.
  intros Hi. unfold frame. rewrite PhyAddr_new_mod. rewrite (testbit_wrap 52) by done.
  rewrite Z.land_spec, testbit_ADDR_BITS by done.
  repeat case_bool_decide; (lia || btauto).
Qed.

Lemma testbit_flags e i : in_width 64 e → 0 ≤ i →
  Z.testbit (flags e) i = Z.testbit e i && negb (bool_decide (12 ≤ i < 52)).
Proof.
  intros He Hi. unfold flags. rewrite Z.land_spec. destruct (decide (i < 64)).
  - by rewrite testbit_not_w, testbit_ADDR_BITS by lia.
  - by rewrite (testbit_above 64 e) by (done || lia).
Qed.

Lemma testbit_set_flags e fl i : 0 ≤ i →
  Z.testbit (set_flags e fl) i = (Z.testbit e i && bool_decide (12 ≤ i < 52)) || Z.testbit fl i.
Proof. intros. unfold set_flags. by rewrite Z.lor_spec, Z.land_spec, testbit_ADDR_BITS. Qed.

(** A flags value has no bit of the address field. *)
Definition flags_ok (fl : Z) : Prop := in_width 64 fl ∧ Z.land fl ADDR_BITS = 0.
#[global] Instance flags_ok_dec fl : Decision (flags_ok fl).
Proof. unfold flags_ok. apply _. Defined.

Lemma flags_ok_testbit fl i : flags_ok fl → 12 ≤ i < 52 → Z.testbit fl i = false.
Proof.
  intros [_ H] Hi. apply (f_equal (λ z, Z.testbit z i)) in H.
  rewrite Z.land_spec, testbit_ADDR_BITS, Z.bits_0, bool_decide_true, andb_true_r in H by lia. done.
Qed.

(** An address that an entry can hold. *)
Definition addr_ok (a : Z) : Prop := a mod 4096 = 0 ∧ 0 ≤ a < 2 ^ 52.
#[global] Instance addr_ok_dec a : Decision (addr_ok a).
Proof. unfold addr_ok. apply _. Defined.

Lemma addr_ok_testbit a i : addr_ok a → 0 ≤ i → ¬ (12 ≤ i < 52) → Z.testbit a i = false.
Proof.
  intros [Hm Hr] Hi Hn. destruct (decide (i < 12)); [|apply (testbit_above 52); [done|lia]].
  change 4096 with (2 ^ 12) in Hm. rewrite <- (Z.mod_pow2_bits_low a 12), Hm by lia. apply Z.bits_0.
Qed.

Lemma frame_lor a fl : addr_ok a → flags_ok fl → frame (Z.lor a fl) = a.
Proof.
  intros Ha Hf. apply Z.bits_inj'. intros i Hi. rewrite testbit_frame, Z.lor_spec by done.
  case_bool_decide as Hb; [rewrite (flags_ok_testbit fl) by done; btauto|].
  rewrite (addr_ok_testbit a) by done. btauto.
Qed.

Lemma flags_lor a fl : addr_ok a → flags_ok fl → flags (Z.lor a fl) = fl.
Proof.
  intros Ha Hf. assert (in_width 64 (Z.lor a fl)).
  { apply in_width_lor; [done| |apply Hf]. apply (in_width_mono 52); [lia|apply Ha]. }
  apply Z.bits_inj'. intros i Hi. rewrite testbit_flags, Z.lor_spec by done.
  case_bool_decide as Hb; [rewrite (flags_ok_testbit fl) by done; btauto|].
  rewrite (addr_ok_testbit a) by done. btauto.
Qed.

Lemma frame_set_flags e fl : flags_ok fl → frame (set_flags e fl) = frame e.
Proof.
  intros Hf. apply Z.bits_inj'. intros i Hi. rewrite !testbit_frame, testbit_set_flags by done.
  case_bool_decide as Hb; [rewrite (flags_ok_testbit fl) by done|]; btauto.
Qed.

Lemma flags_set_flags e fl : in_width 64 e → flags_ok fl → flags (set_flags e fl) = fl.
Proof.
  intros He Hf. assert (in_width 64 (set_flags e fl)).
  { apply in_width_lor; [done|by apply in_width_land_l|apply Hf]. }
  apply Z.bits_inj'. intros i Hi. rewrite testbit_flags, testbit_set_flags by done.
  case_bool_decide as Hb; [rewrite (flags_ok_testbit fl) by done|]; btauto.
Qed.

Lemma frame_flags_split e : in_width 64 e → e = Z.lor (frame e) (flags e).
Proof.
  intros He. apply Z.bits_inj'. intros i Hi.
  rewrite Z.lor_spec, testbit_frame, testbit_flags by done. btauto.
Qed.

Lemma frame_addr_ok e : addr_ok (frame e).
Proof.
  split; [|by apply (Z.mod_pos_bound _ (2 ^ 52))].
  change 4096 with (2 ^ 12). apply Z.bits_inj'. intros i Hi. rewrite Z.bits_0.
  destruct (decide (i < 12)); [|apply Z.mod_pow2_bits_high; lia].
  rewrite Z.mod_pow2_bits_low, testbit_frame by lia. rewrite bool_decide_false by lia. btauto.
Qed.

Lemma map_to_addr_aligned e a fl : addr_ok a → map_to_addr e a fl = Done (Z.lor a fl, Ok ()).
Proof.
  intros [Ha Hr]. unfold map_to_addr, PhyAddr_is_aligned_with, ALIGN_4KB.
  rewrite bool_decide_false by done. simpl. change (Z.shiftl 1 12) with 4096. by rewrite Ha.
Qed.

(** An entry mapped to a page-aligned address with given flags holds exactly
    that frame and those flags, [set_flags] replaces the flags and keeps the
    frame, an entry is determined by its frame and flags, and an unaligned
    address is refused without changing the entry. *)
Theorem entry_roundtrip e a fl fl' : in_width 64 e → in_width 52 a → flags_ok fl → flags_ok fl' →
  map_to_addr e a fl
  = Done (if bool_decide (a mod 4096 = 0) then (Z.lor a fl, Ok ()) else (e, Err BadAlignment))
  ∧ (a mod 4096 = 0 →
     frame (Z.lor a fl) = a ∧ flags (Z.lor a fl) = fl
     ∧ set_flags (Z.lor a fl) fl' = Z.lor a fl')
  ∧ frame (set_flags e fl) = frame e ∧ flags (set_flags e fl) = fl
  ∧ e = Z.lor (frame e) (flags e).
Proof.
  intros He Ha Hf Hf'. split_and!.
  - case_bool_decide as Hm; [apply map_to_addr_aligned; by split|].
    unfold map_to_addr, PhyAddr_is_aligned_with, ALIGN_4KB.
    rewrite bool_decide_false by done. simpl. change (Z.shiftl 1 12) with 4096.
    unfold PhyAddr_is_null. rewrite bool_decide_false; [done|].
    rewrite PhyAddr_new_mod, wrap_id; [done|]. unfold in_width.
    pose proof (Z.mod_pos_bound a 4096). lia.
  - intros Hm. assert (Hk : addr_ok a) by (by split). split_and!; [by apply frame_lor|by apply flags_lor|].
    assert (Hw : in_width 64 (Z.lor a fl)).
    { apply in_width_lor; [done| |apply Hf]. by apply (in_width_mono 52). }
    assert (Hw' : in_width 64 (set_flags (Z.lor a fl) fl')).
    { apply in_width_lor; [done|by apply in_width_land_l|apply Hf']. }
    rewrite (frame_flags_split (set_flags (Z.lor a fl) fl')) by done.
    by rewrite frame_set_flags, flags_set_flags, frame_lor.
  - by apply frame_set_flags.
  - by apply flags_set_flags.
  - by apply frame_flags_split.
Qed.

Lemma entry_roundtrip_witness :
  map_to_addr 0 0x20_3000 3 = Done (0x20_3003, Ok ()) ∧ frame 0x20_3003 = 0x20_3000.
Proof.
  destruct (entry_roundtrip 0 0x20_3000 3 1) as (H1 & H2 & _); [by vm_compute..|].
  split; [exact H1|]. apply H2. reflexivity.
Defined.

(** * Properties of the translation *)

Lemma shiftr_index k v : Z.land (Z.shiftr v (level_shift k)) 0x1FF = index k v.
Proof.
  change 0x1FF with (Z.ones 9). rewrite Z.land_ones, Z.shiftr_div_pow2; [done| |done].
  unfold level_shift. lia.
Qed.

Lemma index_range k v : 0 ≤ index k v < 512.
Proof. by apply Z.mod_pos_bound. Qed.

Lemma index_VirtAddr_new k v : (k ≤ 3)%nat → index k (VirtAddr_new v) = index k v.
Proof.
  intros Hk. unfold index. change 512 with (2 ^ 9). apply Z.bits_inj'. intros i Hi.
  assert (0 ≤ level_shift k ≤ 39) by (unfold level_shift; lia).
  rewrite <- !Z.shiftr_div_pow2 by lia. destruct (decide (i < 9)).
  - rewrite !Z.mod_pow2_bits_low, !Z.shiftr_spec, VirtAddr_new_testbit by lia.
    rewrite bool_decide_false by lia. btauto.
  - by rewrite !Z.mod_pow2_bits_high by lia.
Qed.

Lemma translate_index v : translate_address v =
  {| pml4_offset := index 3 v; pdpte_offset := index 2 v; pde_offset := index 1 v; pte_offset := index 0 v |}.
Proof.
  rewrite <- (index_VirtAddr_new 0), <- (index_VirtAddr_new 1),
    <- (index_VirtAddr_new 2), <- (index_VirtAddr_new 3) by lia.
  by rewrite <- !shiftr_index.
Qed.

(** The four table indices of a virtual address are below 512, and with the
    page offset they recompose its low 48 bits, hence all of a canonical
    address: two canonical addresses with the same indices are in the same
    page. *)
Theorem translate_address_recompose v : in_width 64 v →
  let t := translate_address v in
  (0 ≤ pml4_offset t < 512 ∧ 0 ≤ pdpte_offset t < 512
   ∧ 0 ≤ pde_offset t < 512 ∧ 0 ≤ pte_offset t < 512)
  ∧ v mod 2 ^ 48 = pml4_offset t * 2 ^ 39 + pdpte_offset t * 2 ^ 30
                   + pde_offset t * 2 ^ 21 + pte_offset t * 2 ^ 12 + v mod 2 ^ 12
  ∧ (canonical v → VirtAddr_new (v mod 2 ^ 48) = v).
Proof.
  intros Hv. rewrite translate_index. simpl. pose proof (index_range 0 v).
  pose proof (index_range 1 v). pose proof (index_range 2 v). pose proof (index_range 3 v).
  split_and!; try lia.
  - unfold index, level_shift. simpl Z.of_nat.
    change (12 + 9 * 3) with 39. change (12 + 9 * 2) with 30. change (12 + 9 * 1) with 21.
    change (12 + 9 * 0) with 12. change (2 ^ 48) with 281474976710656.
    change (2 ^ 39) with 549755813888. change (2 ^ 30) with 1073741824.
    change (2 ^ 21) with 2097152. change (2 ^ 12) with 4096. clear. Z.to_euclidean_division_equations. lia.
  - intros Hc. rewrite canonical_testbit in Hc by done. apply Z.bits_inj'. intros i Hi.
    fold (wrap 48 v). rewrite VirtAddr_new_testbit, !testbit_wrap by lia.
    rewrite (bool_decide_true (47 < 48)) by lia. destruct (decide (i < 48)).
    + rewrite bool_decide_true, bool_decide_false by lia. btauto.
    + rewrite bool_decide_false by lia. destruct (decide (i < 64)).
      * rewrite bool_decide_true, (Hc i) by lia. btauto.
      * rewrite bool_decide_false, (testbit_above 64 v) by (done || lia). btauto.
Qed.

Lemma translate_address_recompose_witness :
  pml4_offset (translate_address 0xFFFF_CF80_0000_0000) < 512
  ∧ VirtAddr_new (0xFFFF_CF80_0000_0000 mod 2 ^ 48) = 0xFFFF_CF80_0000_0000.
Proof.
  destruct (translate_address_recompose 0xFFFF_CF80_0000_0000) as ((H & _) & _ & Hc); [by vm_compute|].
  split; [apply H|]. apply Hc. right. by vm_compute.
Defined.
