(* ===== verification/PagingMap.v ===== *)
(** Correctness of the page mapping operations of
    src/x86/paging/page_table/mapper.rs against the processor's table walk: the
    invariant of a tree of page tables, and the effect of the [map_*_page]
    functions on every translation. *)

From S2P Require Import Prelude Addr Frames Paging.

#[local] Arguments Z.testbit : simpl never.
#[local] Arguments is_leaf : simpl never.

Section map.
Context {FB : FlagBits} {FBok : FlagBitsOk}.
Context {A : Type} `{HF : FreshFrames A inv taken}.
Context (mapping pml4 : Z) (Hmapping : mapping ∈ [0; DEFAULT_OFFSET]).
Implicit Types (s : pg A) (L : gmap Z nat).

#[local] Abbreviation next := (get_next_table mapping).

Lemma table_ptr_frame f : frame_ok f → table_ptr mapping f = mapping + f.
Proof.
  intros [_ Hf]. unfold table_ptr, VirtAddr_as_mut_ptr, convert, VirtAddr_add.
  change (u64_from_VirtAddr ?x) with (VirtAddr_new x). rewrite VirtAddr_new_idem.
  rewrite (VirtAddr_new_id f) by (unfold in_width, canonical; lia).
  assert (Hc : in_width 64 (mapping + f) ∧ canonical (mapping + f)).
  { apply elem_of_cons in Hmapping as [->|Hm]; [split; unfold in_width, canonical; lia|].
    apply list_elem_of_singleton in Hm as ->. change DEFAULT_OFFSET with 0xFFFF_CF80_0000_0000.
    split; unfold in_width, canonical; lia. }
  destruct Hc. rewrite u64_id by done. by apply VirtAddr_new_id.
Qed.

Lemma frame_ok_addr f : frame_ok f → addr_ok f.
Proof. intros [Hm Hr]. split; [exact Hm|lia]. Qed.

(** ** The table tree

    [L] gives the level of each table: 3 for the PML4, 0 for a page table.  Each
    table has 512 entries; a used entry of level [k] maps a page or refers to a
    table of level [k - 1]; the tables are in frames that the allocator does not
    hand out. *)
Definition entry_inv L (k : nat) (e : Z) : Prop :=
  e = 0 ∨ in_width 64 e ∧ (is_leaf k e = true ∨ ∃ k', k = S k' ∧ L !! next e = Some k').
Record tree_inv L s : Prop := {
  tree_table p k : L !! p = Some k →
    ∃ t, tables s !! p = Some t ∧ length t = 512%nat ∧ Forall (entry_inv L k) t;
  tree_frame p k : L !! p = Some k → ∃ f, p = mapping + f ∧ frame_ok f ∧ taken f (falloc s);
  tree_level p k : L !! p = Some k → (k ≤ 3)%nat;
  tree_alloc : inv (falloc s)
}.

Lemma entry_inv_mono L L' k e : L ⊆ L' → entry_inv L k e → entry_inv L' k e.
Proof.
  intros HL [->|[Hw [?|(k' & -> & Hk)]]]; [by left|right; auto..].
  split; [done|]. right. exists k'. split; [done|]. by eapply lookup_weaken.
Qed.

Lemma tree_entry L s p k id : tree_inv L s → L !! p = Some k → 0 ≤ id < 512 →
  ∃ t e, tables s !! p = Some t ∧ length t = 512%nat ∧ t !! Z.to_nat id = Some e
    ∧ entry_inv L k e ∧ entry_at s p id = Some e ∧ rd_entry s p id = Done e.
Proof.
  intros HI Hp Hid. destruct (tree_table _ _ HI _ _ Hp) as (t & Ht & Hl & Hall).
  destruct (lookup_lt_is_Some_2 t (Z.to_nat id)) as [e He]; [lia|].
  exists t, e. split_and!; try done.
  - by eapply Forall_lookup_1.
  - unfold entry_at. by rewrite Ht.
  - unfold rd_entry. rewrite Ht. simpl. by rewrite He.
Qed.

(** [grows s s']: the tables of [s'] translate everything those of [s] do: a
    used entry keeps its frame, its kind, and its presence. *)
Definition entry_le (e e' : Z) : Prop :=
  e ≠ 0 → e' ≠ 0 ∧ frame e' = frame e ∧ Z.testbit e' 7 = Z.testbit e 7
    ∧ (Z.testbit e 0 = true → Z.testbit e' 0 = true).
Definition grows L s s' : Prop := ∀ p id e, is_Some (L !! p) → entry_at s p id = Some e →
  ∃ e', entry_at s' p id = Some e' ∧ entry_le e e'.

Lemma grows_refl L s : grows L s s.
Proof. intros p id e _ He. exists e. split; [done|]. by intros ?. Qed.

Lemma grows_trans L L' s1 s2 s3 : L ⊆ L' → grows L s1 s2 → grows L' s2 s3 → grows L s1 s3.
Proof.
  intros HL H1 H2 p id e HLp He. destruct (H1 _ _ _ HLp He) as (e' & He' & Hle).
  destruct (H2 p id e') as (e'' & He'' & Hle'); [|done|].
  { destruct HLp. eexists. by eapply lookup_weaken. }
  exists e''. split; [done|].
  intros Hn. destruct (Hle Hn) as (Hn' & Hf & Hh & Hp). destruct (Hle' Hn') as (? & Hf' & Hh' & Hp').
  split_and!; [done|congruence|congruence|auto].
Qed.

Lemma grows_walk L k s s' p v pa : tree_inv L s → L !! p = Some k → grows L s s' →
  walk_from mapping k s p v = Some pa → walk_from mapping k s' p v = Some pa.
Proof.
  intros HI HL Hg. revert p HL. induction k as [|k IH]; intros p HL; simpl;
    (match type of HL with _ = Some ?k =>
       destruct (tree_entry L s p k (index k v) HI HL (index_range k v)) as (_ & e & _ & _ & _ & Hinv & He & _)
     end);
    rewrite He; simpl;
    destruct (Hg _ _ _ (mk_is_Some _ _ HL) He) as (e' & -> & Hle); simpl;
    destruct (Z.testbit e 0) eqn:E0; simpl; try done;
    (assert (Hn : e ≠ 0) by (intros Hz; rewrite Hz in E0; discriminate E0));
    destruct (Hle Hn) as (_ & Hf & Hh & Hp);
    rewrite (Hp E0); simpl; unfold is_leaf, get_next_table; rewrite ?Hf, ?Hh; [done|].
  case_match eqn:Hlf; [done|]. apply IH. destruct Hinv as [->|(_ & [Hl|(k' & ? & ?)])]; [done| |].
  - unfold is_leaf in Hl. congruence.
  - by simplify_eq.
Qed.

(** ** Writing an entry, making a table *)

Lemma entry_at_insert s p id e' t p2 id2 : tables s !! p = Some t → (Z.to_nat id < length t)%nat →
  entry_at (with_tables s (<[p := <[Z.to_nat id := e']> t]> (tables s))) p2 id2
  = if bool_decide (p2 = p ∧ Z.to_nat id2 = Z.to_nat id) then Some e' else entry_at s p2 id2.
Proof.
  intros Ht Hl. unfold entry_at. simpl. destruct (decide (p2 = p)) as [->|Hp].
  - rewrite lookup_insert_eq, Ht. simpl. case_bool_decide as Hid.
    + destruct Hid as [_ ->]. by rewrite list_lookup_insert_eq.
    + rewrite list_lookup_insert_ne; [done|]. intros Heq. by apply Hid.
  - rewrite lookup_insert_ne by done. by rewrite bool_decide_false by naive_solver.
Qed.

Lemma wr_entry_spec L s p k id e e' : tree_inv L s → L !! p = Some k → 0 ≤ id < 512 →
  entry_at s p id = Some e → entry_inv L k e' → entry_le e e' →
  ∃ s', wr_entry s p id e' = Done s' ∧ tree_inv L s' ∧ grows L s s'
    ∧ entry_at s' p id = Some e' ∧ falloc s' = falloc s.
Proof.
  intros HI Hp Hid He He' Hle.
  destruct (tree_entry L s p k id HI Hp Hid) as (t & e0 & Ht & Hl & Hlk & _ & He0 & _).
  assert (e0 = e) as -> by congruence. clear He0.
  assert (Hlt : (Z.to_nat id < length t)%nat) by lia.
  eexists. split_and!.
  - unfold wr_entry. rewrite Ht. simpl. by rewrite bool_decide_true.
  - destruct HI as [Htab Hfr Hlv Hal]. split; simpl; [|done..]. intros p2 k2 Hp2.
    destruct (Htab _ _ Hp2) as (t2 & Ht2 & Hl2 & Hall). destruct (decide (p2 = p)) as [->|Hne].
    + rewrite lookup_insert_eq. eexists. split; [done|]. rewrite length_insert. simplify_eq.
      split; [done|]. by apply Forall_insert.
    + rewrite lookup_insert_ne by done. by exists t2.
  - intros p2 id2 e2 _ He2. rewrite entry_at_insert by done. case_bool_decide as Hb.
    + destruct Hb as [-> Hb]. exists e'. split; [done|].
      assert (e2 = e) as ->; [|done]. unfold entry_at in He, He2. rewrite Hb in He2. congruence.
    + exists e2. split; [done|]. by intros ?.
  - rewrite entry_at_insert by done. by rewrite bool_decide_true.
  - done.
Qed.

Lemma default_entries L k : Forall (entry_inv L k) PageTable_default.
Proof. apply Forall_replicate. by left. Qed.

Lemma new_table_spec L s f k a : tree_inv L s → frame_ok f → ¬ taken f (falloc s) → taken f a →
  (∀ q, taken q (falloc s) → taken q a) → inv a → (k ≤ 3)%nat →
  let p := table_ptr mapping f in
  L ⊆ <[p := k]> L ∧ tree_inv (<[p := k]> L) (wr_default (with_falloc s a) p)
  ∧ grows L s (wr_default (with_falloc s a) p)
  ∧ (∀ q id, is_Some (L !! q) → entry_at (wr_default (with_falloc s a) p) q id = entry_at s q id).
Proof.
  intros HI Hf Hnt Ht Hmono Ha Hk p.
  assert (Hp : L !! p = None).
  { destruct (L !! p) as [k'|] eqn:HL; [|done]. destruct (tree_frame _ _ HI _ _ HL) as (f' & Hf' & Hok & Htk).
    subst p. rewrite table_ptr_frame in Hf' by done. by assert (f = f') as -> by lia. }
  assert (HL : L ⊆ <[p := k]> L) by (by apply insert_subseteq).
  assert (Hsame : ∀ q id, is_Some (L !! q) →
    entry_at (wr_default (with_falloc s a) p) q id = entry_at s q id).
  { intros q id [k' Hq]. unfold entry_at, wr_default. simpl. rewrite lookup_insert_ne; [done|congruence]. }
  split_and!; [done| | |done].
  - destruct HI as [Htab Hfr Hlv Hal]. split; simpl; [| | |done].
    + intros q k'. destruct (decide (q = p)) as [->|Hne].
      * rewrite !lookup_insert_eq. intros [= <-]. eexists. split_and!; [done|done|apply default_entries].
      * rewrite !lookup_insert_ne by done. intros Hq. destruct (Htab _ _ Hq) as (t & Ht' & Hlen & Hall).
        exists t. split_and!; [done|done|]. eapply Forall_impl; [done|]. intros. by eapply entry_inv_mono.
    + intros q k'. destruct (decide (q = p)) as [->|Hne].
      * intros _. exists f. split_and!; [by apply table_ptr_frame|done|done].
      * rewrite lookup_insert_ne by done. intros Hq. destruct (Hfr _ _ Hq) as (f' & ? & ? & ?).
        exists f'. auto.
    + intros q k'. destruct (decide (q = p)) as [->|Hne];
        [rewrite lookup_insert_eq; by intros [= <-]|rewrite lookup_insert_ne by done; apply Hlv].
  - intros q id e Hq He. exists e. rewrite Hsame by done. split; [done|]. by intros ?.
Qed.
(** ** Going down one level *)

(** The flags of the entries that refer to tables: present, not a large page. *)
Definition parent_ok (fl : Z) : Prop :=
  flags_ok fl ∧ Z.testbit fl 0 = true ∧ Z.testbit fl 7 = false.

Lemma testbit_nz e i : Z.testbit e i = true → e ≠ 0.
Proof. intros H1 ->. by rewrite Z.bits_0 in H1. Qed.

Lemma in_width_entry a fl : addr_ok a → flags_ok fl → in_width 64 (Z.lor a fl).
Proof.
  intros Ha Hf. apply in_width_lor; [done| |apply Hf]. apply (in_width_mono 52); [lia|apply Ha].
Qed.

Lemma testbit_lor_flag a fl i : addr_ok a → 0 ≤ i < 12 → Z.testbit (Z.lor a fl) i = Z.testbit fl i.
Proof. intros Ha Hi. rewrite Z.lor_spec, (addr_ok_testbit a) by (done || lia). done. Qed.

(** An entry of [p] set to a page-aligned address. *)
Lemma map_entry_spec L s p k id e a fl : tree_inv L s → L !! p = Some k → 0 ≤ id < 512 →
  entry_at s p id = Some e → addr_ok a → entry_inv L k (Z.lor a fl) → entry_le e (Z.lor a fl) →
  ∃ s', map_entry s p id a fl = Done s' ∧ tree_inv L s' ∧ grows L s s'
    ∧ entry_at s' p id = Some (Z.lor a fl) ∧ falloc s' = falloc s
    ∧ wr_entry s p id (Z.lor a fl) = Done s'.
Proof.
  intros HI Hp Hid He Ha Hinv Hle.
  destruct (tree_entry L s p k id HI Hp Hid) as (t & e0 & Ht & Hl & Hlk & _ & He0 & Hrd).
  destruct (wr_entry_spec L s p k id e _ HI Hp Hid He Hinv Hle) as (s' & Hw & ? & ? & ? & ?).
  exists s'. split_and!; try done. unfold map_entry. rewrite Hrd. simpl.
  rewrite map_to_addr_aligned by done. by simpl.
Qed.

Lemma wr_entry_other s s' p id e q id' : wr_entry s p id e = Done s' → q ≠ p →
  entry_at s' q id' = entry_at s q id'.
Proof.
  unfold wr_entry, entry_at. intros Hw Hq. inv_done. by rewrite lookup_insert_ne by done.
Qed.

Lemma entry_le_0 e' : entry_le 0 e'.
Proof. by intros ?. Qed.

Lemma next_lor f fl : frame_ok f → flags_ok fl → next (Z.lor f fl) = table_ptr mapping f.
Proof. intros Hf Hl. unfold get_next_table. rewrite frame_lor; [done|by apply frame_ok_addr|done]. Qed.

Lemma create_entry_spec L s p k id pfl : tree_inv L s → L !! p = Some (S k) → 0 ≤ id < 512 →
  entry_at s p id = Some 0 → parent_ok pfl →
  ∃ r s' L', get_or_create_entry mapping s p id pfl = Done (r, s')
    ∧ L ⊆ L' ∧ tree_inv L' s' ∧ grows L s s'
    ∧ match r with
      | Err err => err = AllocationError
      | Ok q => L' !! q = Some k
          ∧ (∃ e', entry_at s' p id = Some e' ∧ Z.testbit e' 0 = true ∧ Z.testbit e' 7 = false ∧ next e' = q)
          ∧ (∀ id', 0 ≤ id' < 512 → entry_at s' q id' = Some 0)
      end.
Proof.
  intros HI Hp Hid He (Hfl & Hp0 & Hp7).
  destruct (tree_entry L s p _ id HI Hp Hid) as (t & e0 & Ht & Hl & Hlk & _ & He0 & Hrd).
  assert (e0 = 0) as -> by congruence.
  unfold get_or_create_entry. rewrite Hrd. simpl.
  destruct (allocate_spec (falloc s) (tree_alloc _ _ HI)) as (r & a & -> & Hinv & Hmono & Hr). simpl.
  destruct r as [[f len]|err]; simpl in *.
  - destruct Hr as (Hf & Hnt & Htk).
    pose proof (tree_level _ _ HI _ _ Hp) as Hk.
    destruct (new_table_spec L s f k a HI Hf Hnt Htk Hmono Hinv ltac:(lia)) as (HL & HI' & Hg & Hsame).
    set (q := table_ptr mapping f) in *. set (s1 := wr_default (with_falloc s a) q) in *.
    assert (Hp' : <[q:=k]> L !! p = Some (S k)) by (by eapply lookup_weaken).
    assert (Hfa : addr_ok f) by (by apply frame_ok_addr).
    assert (Hnext : next (Z.lor f pfl) = q) by (by apply next_lor).
    assert (He1 : entry_at s1 p id = Some 0) by (rewrite Hsame; [done|by eexists]).
    assert (Hei : entry_inv (<[q:=k]> L) (S k) (Z.lor f pfl)).
    { right. split; [by apply in_width_entry|]. right. exists k. split; [done|].
      rewrite Hnext. apply lookup_insert_eq. }
    destruct (map_entry_spec _ s1 p (S k) id 0 f pfl HI' Hp' Hid He1 Hfa Hei (entry_le_0 _))
      as (s2 & -> & HI2 & Hg2 & He2 & _ & Hw). simpl.
    destruct (tree_entry _ s2 p _ id HI2 Hp' Hid) as (? & e2 & _ & _ & _ & _ & He2' & ->). simpl.
    assert (e2 = Z.lor f pfl) as -> by congruence.
    rewrite huge_page_testbit, flags_lor, Hp7 by done. rewrite Hnext.
    eexists _, _, _. split; [done|]. split_and!; [done|done|by eapply grows_trans|apply lookup_insert_eq| |].
    + exists (Z.lor f pfl). rewrite !testbit_lor_flag by (done || lia). done.
    + intros id' Hid'. rewrite (wr_entry_other _ _ _ _ _ _ _ Hw).
      * unfold entry_at, s1, wr_default. simpl. rewrite lookup_insert_eq. simpl.
        unfold PageTable_default. apply lookup_replicate_2. lia.
      * intros ->. rewrite lookup_insert_eq in Hp'. simplify_eq. lia.
  - exists (Err AllocationError), (with_falloc s a), L. split_and!; [done|done| | |done].
    + destruct HI as [Htab Hfr Hlv Hal]. split; [done| |done|done].
      intros q k' Hq. destruct (Hfr _ _ Hq) as (f & ? & ? & ?). exists f. auto.
    + intros q id' e Hq Heq. exists e. split; [done|]. by intros ?.
Qed.
Lemma existing_entry_spec L s p k id e pfl : tree_inv L s → L !! p = Some (S k) → 0 ≤ id < 512 →
  entry_at s p id = Some e → e ≠ 0 → Z.testbit e 7 = false → parent_ok pfl →
  ∃ s', get_or_create_entry mapping s p id pfl = Done (Ok (next e), s')
    ∧ tree_inv L s' ∧ grows L s s' ∧ L !! next e = Some k
    ∧ (∃ e', entry_at s' p id = Some e' ∧ Z.testbit e' 0 = true ∧ Z.testbit e' 7 = false ∧ next e' = next e)
    ∧ (∀ q id', q ≠ p → entry_at s' q id' = entry_at s q id').
Proof.
  intros HI Hp Hid He Hn H7 (Hfl & Hp0 & Hp7).
  destruct (tree_entry L s p _ id HI Hp Hid) as (t & e0 & Ht & Hl & Hlk & Hinv & He0 & Hrd).
  assert (e0 = e) as -> by congruence. clear He0.
  destruct Hinv as [->|(Hw & Hkind)]; [done|].
  destruct Hkind as [Hleaf|(k' & [= <-] & Hnk)].
  { unfold is_leaf in Hleaf. rewrite H7, andb_false_r in Hleaf.
    rewrite bool_decide_false in Hleaf by lia. done. }
  assert (Hfr : frame (set_flags e pfl) = frame e) by (by apply frame_set_flags).
  assert (Hb : ∀ i, 0 ≤ i < 12 → Z.testbit (set_flags e pfl) i = Z.testbit pfl i).
  { intros i Hi. rewrite testbit_set_flags by lia. rewrite bool_decide_false by lia. btauto. }
  assert (Hei : entry_inv L (S k) (set_flags e pfl)).
  { right. split; [apply in_width_lor; [done|by apply in_width_land_l|apply Hfl]|].
    right. exists k. split; [done|]. unfold get_next_table. by rewrite Hfr. }
  assert (Hle : entry_le e (set_flags e pfl)).
  { intros _. rewrite !Hb, Hfr, H7, Hp7 by lia. split_and!; [|done..].
    apply (testbit_nz _ 0). by rewrite Hb by lia. }
  destruct (wr_entry_spec L s p _ id e _ HI Hp Hid He Hei Hle) as (s' & Hwr & HI' & Hg & He' & _).
  exists s'. unfold get_or_create_entry. rewrite Hrd. simpl.
  unfold used. rewrite bool_decide_true by done. simpl. rewrite Hwr. simpl.
  destruct (tree_entry L s' p _ id HI' Hp Hid) as (? & e2 & _ & _ & _ & _ & He2' & ->). simpl.
  assert (e2 = set_flags e pfl) as -> by congruence.
  rewrite huge_page_testbit, flags_set_flags, Hp7 by done.
  unfold get_next_table. rewrite Hfr. split_and!; try done.
  - exists (set_flags e pfl). rewrite !Hb, Hfr by lia. done.
  - intros. by eapply wr_entry_other.
Qed.

(** ** The path of an address

    Whether a large page lies on the path of [v] in the [n] levels from table
    [p] of level [k], and whether the page of level [k - n] is mapped. *)
Fixpoint large_on_path (n k : nat) s (p v : Z) : bool :=
  match n, k, entry_at s p (index k v) with
  | S n, S k', Some e => used e && (Z.testbit e 7 || large_on_path n k' s (next e) v)
  | _, _, _ => false
  end.
Fixpoint page_used (n k : nat) s (p v : Z) : bool :=
  match n, k, entry_at s p (index k v) with
  | O, _, Some e => used e
  | S n, S k', Some e => used e && page_used n k' s (next e) v
  | _, _, _ => false
  end.

Lemma path_same L s s' n k p v : tree_inv L s → L !! p = Some k →
  (∀ q j id, L !! q = Some j → (j ≤ k)%nat → entry_at s' q id = entry_at s q id) →
  large_on_path n k s p v = false →
  large_on_path n k s' p v = false ∧ page_used n k s' p v = page_used n k s p v.
Proof.
  intros HI. revert k p. induction n as [|n IH]; intros [|k] p Hp Hsame Hlp; simpl in *;
    try (rewrite (Hsame p _ _ Hp) by lia; done); [done|].
  rewrite (Hsame p _ _ Hp) by lia.
  destruct (tree_entry L s p _ (index (S k) v) HI Hp (index_range _ _))
    as (_ & e & _ & _ & _ & Hinv & He & _).
  rewrite He in *. destruct (used e) eqn:Hu; simpl in *; [|done].
  apply orb_false_iff in Hlp as [H7 Hlp]. rewrite H7. simpl.
  apply IH; [|intros; apply (Hsame _ j); [done|lia]|done].
  unfold used in Hu. rewrite bool_decide_eq_true in Hu.
  destruct Hinv as [?|(_ & [Hl|(k' & ? & ?)])]; [done| |by simplify_eq].
  unfold is_leaf in Hl. rewrite H7, andb_false_r in Hl. rewrite bool_decide_false in Hl by lia. done.
Qed.

Lemma path_empty s n k p v : (∀ id, 0 ≤ id < 512 → entry_at s p id = Some 0) →
  large_on_path n k s p v = false ∧ page_used n k s p v = false.
Proof. intros He. destruct n, k; simpl; by rewrite ?He by apply index_range. Qed.

(** ** Mapping a page *)

(** The outcome of mapping the page of [v] at level [j] to [fr], from the table
    [p] of level [j + n]. *)
Definition map_post (n j : nat) L s (p v fr : Z) (o : outcome (result unit PageTableMappingError * pg A)) : Prop :=
  ∃ r s' L', o = Done (r, s') ∧ L ⊆ L' ∧ tree_inv L' s' ∧ grows L s s'
  ∧ match r with
    | Ok _ => page_used n (n + j) s p v = false
        ∧ ∀ w, w / 2 ^ level_shift j = v / 2 ^ level_shift j →
            walk_from mapping (n + j) s' p w = Some (fr + w mod 2 ^ level_shift j)
    | Err AlreadyMapped => page_used n (n + j) s p v = true
    | Err TableCreationError => page_used n (n + j) s p v = false
    end.

Lemma index_same j k v w : (j ≤ k)%nat → w / 2 ^ level_shift j = v / 2 ^ level_shift j →
  index k w = index k v.
Proof.
  intros Hjk E. unfold index.
  assert (Hs : level_shift k = level_shift j + (level_shift k - level_shift j)) by lia.
  assert (0 ≤ level_shift j ∧ level_shift j ≤ level_shift k) by (unfold level_shift; lia).
  rewrite Hs, Z.pow_add_r, <- !Z.div_div, E; [done|..];
    try (apply Z.pow_nonzero; lia); try (apply Z.pow_pos_nonneg; lia); lia.
Qed.

(** Flags and frame of a page of level [j]. *)
Definition page_ok (j : nat) (fr fl : Z) : Prop :=
  in_width 52 fr ∧ fr mod 2 ^ level_shift j = 0 ∧ flags_ok fl ∧ Z.testbit fl 0 = true
  ∧ (j = 0%nat ∨ (j ≤ 2)%nat ∧ Z.testbit fl 7 = true).

Lemma page_ok_addr j fr fl : page_ok j fr fl → addr_ok fr.
Proof.
  intros (Hw & Hm & _). split; [|exact Hw].
  apply Z.mod_divide in Hm; [|apply Z.pow_nonzero; unfold level_shift; lia].
  apply Z.mod_divide; [lia|]. eapply Z.divide_trans; [|exact Hm].
  exists (2 ^ (9 * Z.of_nat j)). change 4096 with (2 ^ 12). rewrite <- Z.pow_add_r by lia.
  f_equal. unfold level_shift. lia.
Qed.

Lemma map_leaf_spec L s p j v fr fl : tree_inv L s → L !! p = Some j → page_ok j fr fl →
  map_post 0 j L s p v fr (map_leaf s p (index j v) fr fl).
Proof.
  intros HI Hp Hok. pose proof (page_ok_addr _ _ _ Hok) as Ha.
  destruct Hok as (_ & Hm & Hfl & H0 & Hj).
  destruct (tree_entry L s p _ (index j v) HI Hp (index_range _ _))
    as (_ & e & _ & _ & _ & Hinv & He & Hrd).
  unfold map_leaf, map_post. rewrite Hrd. simpl. destruct (used e) eqn:Hu.
  - eexists _, s, L. split_and!; [done|done|done|apply grows_refl|].
    destruct j; simpl; by rewrite He.
  - unfold used in Hu. rewrite bool_decide_eq_false in Hu. apply dec_stable in Hu as ->.
    assert (Hlf : is_leaf j (Z.lor fr fl) = true).
    { unfold is_leaf. destruct Hj as [->|[Hj H7]]; [done|].
      rewrite testbit_lor_flag, H7, (bool_decide_true (j ≤ 2)%nat) by (done || lia). btauto. }
    assert (Hei : entry_inv L j (Z.lor fr fl)) by (right; split; [by apply in_width_entry|by left]).
    destruct (map_entry_spec L s p j _ 0 fr fl HI Hp (index_range j v) He Ha Hei (entry_le_0 _))
      as (s' & -> & HI' & Hg & He' & _). simpl.
    eexists _, s', L. split_and!; [done..|]. split; [destruct j; simpl; by rewrite He|].
    intros w Hw. assert (Hi : index j w = index j v) by (by apply (index_same j)).
    destruct j; simpl; rewrite Hi, He'; simpl;
      rewrite testbit_lor_flag, H0, ?Hlf, ?frame_lor by (done || lia); simpl;
      by rewrite bool_decide_true.
Qed.

Lemma descend_spec L s p n j v pfl fr K : tree_inv L s → L !! p = Some (S n + j)%nat →
  large_on_path (S n) (S n + j) s p v = false → parent_ok pfl →
  (∀ L' s1 q, L ⊆ L' → tree_inv L' s1 → L' !! q = Some (n + j)%nat →
     large_on_path n (n + j) s1 q v = false → map_post n j L' s1 q v fr (K s1 q)) →
  map_post (S n) j L s p v fr (descend mapping s p (index (S n + j) v) pfl K).
Proof.
  intros HI Hp Hlp Hpfl HK.
  destruct (tree_entry L s p _ (index (S n + j) v) HI Hp (index_range _ _))
    as (_ & e & _ & _ & _ & Hinv & He & _).
  simpl in Hlp, He. rewrite He in Hlp. unfold descend, map_post. simpl Nat.add.
  destruct (decide (e = 0)) as [->|Hn].
  - destruct (create_entry_spec L s p _ _ pfl HI Hp (index_range _ _) He Hpfl)
      as (r & s1 & L1 & Hgc & HL & HI1 & Hg & Hr).
    simpl in Hgc. rewrite Hgc. simpl. destruct r as [q|err].
    + destruct Hr as (Hq & (e' & He' & H0 & H7 & Hnx) & Hemp).
      destruct (path_empty s1 n (n + j) q v Hemp) as [Hlq Hpu].
      destruct (HK L1 s1 q HL HI1 Hq Hlq) as (r & s2 & L2 & -> & HL2 & HI2 & Hg2 & Hpost).
      eexists r, s2, L2. split_and!; [done|by etrans|done|by eapply grows_trans|].
      simpl. rewrite He. destruct r as [u|[]]; simpl; [|congruence|done].
      split; [done|]. destruct Hpost as [_ Hwalk]. intros w Hw.
      assert (Hi : index (S n + j) w = index (S n + j) v) by (apply (index_same j); [lia|done]).
      simpl in Hi, He'. rewrite Hi.
      destruct (Hg2 p _ e' ltac:(eexists; eapply lookup_weaken; done) He') as (e2 & -> & Hle). simpl.
      destruct (Hle (testbit_nz _ _ H0)) as (_ & Hf2 & H72 & Hp2). rewrite (Hp2 H0). simpl.
      unfold is_leaf. rewrite H72, H7, andb_false_r, bool_decide_false by lia. simpl.
      unfold get_next_table in *. rewrite Hf2, Hnx. by apply Hwalk.
    + exists (Err TableCreationError), s1, L1. split_and!; try done. simpl. by rewrite He.
  - assert (Hu : used e = true) by (by apply bool_decide_true).
    rewrite Hu in Hlp. apply orb_false_iff in Hlp as [H7 Hlq].
    destruct (existing_entry_spec L s p _ _ e pfl HI Hp (index_range _ _) He Hn H7 Hpfl)
      as (s1 & Hgc & HI1 & Hg & Hq & (e' & He' & H0' & H7' & Hnx) & Hoth).
    simpl in Hgc. rewrite Hgc. simpl.
    destruct (path_same L s s1 n (n + j) (next e) v HI Hq) as [Hlq1 Hpu]; [|done|].
    { intros q k id HLq Hk. apply Hoth. intros ->. rewrite Hp in HLq. simplify_eq. lia. }
    destruct (HK L s1 (next e) ltac:(done) HI1 Hq Hlq1) as (r & s2 & L2 & -> & HL2 & HI2 & Hg2 & Hpost).
    eexists r, s2, L2. split_and!; [done|done|done|by apply (grows_trans L L s s1 s2)|].
    rewrite He, Hu. simpl. destruct r as [u|[]]; simpl; [|congruence..].
    destruct Hpost as [Hpo Hwalk]. split; [congruence|]. intros w Hw.
    assert (Hi : index (S n + j) w = index (S n + j) v) by (apply (index_same j); [lia|done]).
    simpl in Hi, He'. rewrite Hi.
    destruct (Hg2 p _ e' ltac:(by eexists) He') as (e2 & -> & Hle). simpl.
    destruct (Hle (testbit_nz _ _ H0')) as (_ & Hf2 & H72 & Hp2). rewrite (Hp2 H0'). simpl.
    unfold is_leaf. rewrite H72, H7', andb_false_r, bool_decide_false by lia. simpl.
    unfold get_next_table in *. rewrite Hf2, Hnx. by apply Hwalk.
Qed.
(** ** The three operations *)

Definition tables_ok s : Prop := ∃ L, tree_inv L s ∧ L !! pml4 = Some 3%nat.

(** What mapping the page of [page] at level [j] does. *)
Definition map_result (j : nat) s (page fr : Z) (o : outcome (result unit PageTableMappingError * pg A)) : Prop :=
  ∃ r s', o = Done (r, s') ∧ tables_ok s'
  ∧ (∀ w pa, walk mapping pml4 s w = Some pa → walk mapping pml4 s' w = Some pa)
  ∧ (r = Err AlreadyMapped ↔ page_used (3 - j) 3 s pml4 page = true)
  ∧ (r = Ok () → ∀ w, w / 2 ^ level_shift j = page / 2 ^ level_shift j →
       walk mapping pml4 s' w = Some (fr + w mod 2 ^ level_shift j)).

Lemma map_post_result L s j page fr o : (j ≤ 2)%nat → tree_inv L s → L !! pml4 = Some 3%nat →
  map_post (3 - j) j L s pml4 page fr o → map_result j s page fr o.
Proof.
  intros Hj HI Hp (r & s' & L' & -> & HL & HI' & Hg & Hr).
  replace (3 - j + j)%nat with 3%nat in Hr by lia.
  exists r, s'. split_and!; [done|by exists L'; eauto using lookup_weaken| | |].
  - intros w pa. by apply (grows_walk L).
  - destruct r as [u|[]]; [destruct Hr as [Hr _]|..]; rewrite Hr; naive_solver.
  - intros ->. apply Hr.
Qed.

Lemma huge_flags_ok fl : flags_ok fl → Z.testbit fl 0 = true →
  flags_ok (Z.lor fl (with_huge_page flags_new true))
  ∧ Z.testbit (Z.lor fl (with_huge_page flags_new true)) 0 = true
  ∧ Z.testbit (Z.lor fl (with_huge_page flags_new true)) 7 = true.
Proof.
  intros Hf H0.
  assert (Hb : ∀ i, 0 ≤ i → Z.testbit (with_huge_page flags_new true) i = bool_decide (i = 7)).
  { intros i Hi. rewrite testbit_with_huge_page, flags_new_0, Z.bits_0 by done. by case_bool_decide. }
  split_and!.
  - split.
    + apply in_width_testbit; [done|]. intros i Hi. rewrite Z.lor_spec, Hb by lia.
      rewrite (testbit_above 64 fl), bool_decide_false by (apply Hf || lia). done.
    + apply Z.bits_inj'. intros i Hi. rewrite Z.land_spec, Z.lor_spec, testbit_ADDR_BITS, Hb, Z.bits_0 by done.
      destruct (decide (12 ≤ i < 52)); [|rewrite (bool_decide_false (12 ≤ i < 52)) by done; btauto].
      rewrite (flags_ok_testbit fl), (bool_decide_false (i = 7)) by (done || lia). done.
  - by rewrite Z.lor_spec, H0.
  - rewrite Z.lor_spec, (Hb 7) by lia. apply orb_true_r.
Qed.

(** C1: [map_4kb_page] on a well-formed table tree, for a page that lies under no
    large page, a page-aligned frame and flags that mark the page and its tables as present,
    returns; it keeps the tree well formed and keeps every existing
    translation; it fails with [AlreadyMapped] exactly when the page has an
    entry; and when it succeeds, the processor translates each byte of the page
    to the byte of the frame.  (A page under a large page is left out:
    [get_or_create_entry_clobbers_large_page] says what happens to it.) *)
Theorem map_4kb_page_correct s page fr fl pfl : tables_ok s →
  page_ok 0 fr fl → parent_ok pfl → large_on_path 3 3 s pml4 page = false →
  map_result 0 s page fr (map_4kb_page mapping pml4 s page fr fl pfl).
Proof.
  intros (L & HI & Hp) Hok Hpfl Hlp. apply (map_post_result L); [lia|done..|].
  unfold map_4kb_page. rewrite translate_index.
  cbn [pml4_offset pdpte_offset pde_offset pte_offset].
  apply (descend_spec _ _ _ 2 0 page); [done..|]. intros.
  apply (descend_spec _ _ _ 1 0 page); [done..|]. intros.
  apply (descend_spec _ _ _ 0 0 page); [done..|]. intros.
  by apply map_leaf_spec.
Qed.

(** C17: [map_2mb_page] and [map_1gb_page] do the same for a page of 2 MB or of 1 GB that lies
    under no larger page, and a frame aligned on its size: they return, keep the tables well
    formed and every existing translation, fail with [AlreadyMapped] exactly when the page
    has an entry, and when they succeed the processor translates each byte of the page to the
    byte of the frame, the large-page flag being added to the requested flags. *)
Theorem map_large_page_correct s page fr fl pfl : tables_ok s →
  in_width 52 fr → flags_ok fl → Z.testbit fl 0 = true → parent_ok pfl →
  (fr mod 2 ^ 21 = 0 → large_on_path 2 3 s pml4 page = false →
     map_result 1 s page fr (map_2mb_page mapping pml4 s page fr fl pfl))
  ∧ (fr mod 2 ^ 30 = 0 → large_on_path 1 3 s pml4 page = false →
     map_result 2 s page fr (map_1gb_page mapping pml4 s page fr fl pfl)).
Proof.
  intros (L & HI & Hp) Hw Hfl H0 Hpfl.
  destruct (huge_flags_ok fl Hfl H0) as (Hf' & H0' & H7').
  split; intros Hm Hlp; (apply (map_post_result L); [lia|done..|]).
  - unfold map_2mb_page. rewrite translate_index.
    cbn [pml4_offset pdpte_offset pde_offset pte_offset].
    apply (descend_spec _ _ _ 1 1 page); [done..|]. intros.
    apply (descend_spec _ _ _ 0 1 page); [done..|]. intros.
    apply map_leaf_spec; [done..|]. split_and!; [done..|]. right. split; [lia|done].
  - unfold map_1gb_page. rewrite translate_index.
    cbn [pml4_offset pdpte_offset pde_offset pte_offset].
    apply (descend_spec _ _ _ 0 2 page); [done..|]. intros.
    apply map_leaf_spec; [done..|]. split_and!; [done..|]. right. split; [lia|done].
Qed.

(** With parent flags that are not those of a large page,
    [get_or_create_entry] never reports [HugePage]: the flags of a used entry are
    overwritten before they are tested, so that an entry which maps a large page
    loses its large-page bit and the page it mapped is used as a page table. *)
Theorem get_or_create_entry_clobbers_large_page s p id pfl e : parent_ok pfl →
  rd_entry s p id = Done e → used e = true → in_width 64 e → 0 ≤ id →
  ∃ s', get_or_create_entry mapping s p id pfl = Done (Ok (next e), s')
    ∧ rd_entry s' p id = Done (set_flags e pfl)
    ∧ Z.testbit (set_flags e pfl) 7 = false.
Proof.
  intros (Hfl & _ & H7) Hrd Hu Hw Hid. unfold get_or_create_entry. rewrite Hrd. simpl. rewrite Hu. simpl.
  unfold rd_entry in Hrd. inv_done. rename x into t. unfold wr_entry. rewrite H0. simpl.
  rewrite bool_decide_true by (by eapply lookup_lt_Some). simpl.
  assert (Hl : (Z.to_nat id < length t)%nat) by (by eapply lookup_lt_Some).
  unfold rd_entry. simpl. rewrite lookup_insert_eq. simpl. rewrite list_lookup_insert_eq by done. simpl.
  rewrite huge_page_testbit, flags_set_flags, H7 by done.
  unfold get_next_table. rewrite frame_set_flags by done.
  eexists. split_and!; [done| |].
  - simpl. rewrite lookup_insert_eq. simpl. by rewrite list_lookup_insert_eq.
  - rewrite testbit_set_flags, H7 by lia. rewrite bool_decide_false by lia. btauto.
Qed.
End map.

(** ** A concrete tree: one empty PML4 *)

Definition boot_state : pg Z :=
  {| tables := {[ 0x9000 := PageTable_default ]}; falloc := 0x9000; invlpg := [] |}.

Lemma boot_state_ok : tables_ok (inv := Bump_inv) (taken := Bump_taken) 0 0x9000 boot_state.
Proof.
  exists {[ 0x9000 := 3%nat ]}. split; [|by apply lookup_singleton_eq]. split.
  - intros p k [<- <-]%lookup_singleton_Some. eexists. split; [by apply lookup_singleton_eq|].
    split; [done|apply default_entries].
  - intros p k [<- <-]%lookup_singleton_Some. exists 0x9000. by vm_compute.
  - intros p k [<- <-]%lookup_singleton_Some. lia.
  - by vm_compute.
Qed.

Lemma parent_ok_3 : parent_ok 3.
Proof. by vm_compute. Qed.

Lemma map_4kb_page_correct_witness :
  ∃ s', map_4kb_page (FB := flag_bits_lsb) (H := Bump_Allocator) 0 0x9000 boot_state 0xFFFF_CF80_0000_5000 0x7000 3 3 = Done (Ok (), s')
    ∧ walk 0 0x9000 s' 0xFFFF_CF80_0000_5123 = Some 0x7123.
Proof.
  destruct (map_4kb_page_correct (FB := flag_bits_lsb) (FBok := flag_bits_lsb_ok) (HF := Bump_fresh)
    0 0x9000 ltac:(apply list_elem_of_here) boot_state 0xFFFF_CF80_0000_5000 0x7000 3 3
    boot_state_ok ltac:(split_and!; [by vm_compute..|by left]) parent_ok_3 ltac:(by vm_compute))
    as (r & s' & Heq & _ & _ & _ & Hok).
  assert (r = Ok ()) as ->.
  { assert (Hv : fst <$> map_4kb_page (FB := flag_bits_lsb) (H := Bump_Allocator) 0 0x9000 boot_state
      0xFFFF_CF80_0000_5000 0x7000 3 3 = Done (Ok ())) by (by vm_compute).
    rewrite Heq in Hv. by injection Hv. }
  exists s'. split; [done|]. by apply (Hok eq_refl 0xFFFF_CF80_0000_5123).
Defined.

Lemma map_large_page_correct_witness :
  map_result (inv := Bump_inv) (taken := Bump_taken) 0 0x9000 1 boot_state 0x4000_0000 0x20_0000
    (map_2mb_page (FB := flag_bits_lsb) (H := Bump_Allocator) 0 0x9000 boot_state 0x4000_0000 0x20_0000 3 3).
Proof.
  apply (map_large_page_correct (FB := flag_bits_lsb) (FBok := flag_bits_lsb_ok) (HF := Bump_fresh)
    0 0x9000 ltac:(apply list_elem_of_here) boot_state 0x4000_0000 0x20_0000 3 3
    boot_state_ok); first [exact parent_ok_3 | by vm_compute].
Defined.

(** A PML4 whose first entry has the large-page bit. *)
Definition large_state : pg Z :=
  {| tables := {[ 0x9000 := 0x20_0083 :: replicate 511 0 ]}; falloc := 0x9000; invlpg := [] |}.

Lemma get_or_create_entry_clobbers_large_page_witness :
  ∃ s', get_or_create_entry (FB := flag_bits_lsb) (H := Bump_Allocator) 0 large_state 0x9000 0 3
    = Done (Ok 0x20_0000, s').
Proof.
  destruct (get_or_create_entry_clobbers_large_page (FB := flag_bits_lsb) (FBok := flag_bits_lsb_ok)
    (H := Bump_Allocator) 0 large_state 0x9000 0 3 0x20_0083 parent_ok_3)
    as (s' & Hs & _); [reflexivity|reflexivity|by vm_compute|lia|].
  exists s'. exact Hs.
Defined.
