(* ===== verification/Buddy.v ===== *)
(** The buddy allocators: the bootloader heap (src/mem/bmalloc/heap.rs), and the
    code it shares with the physical frame allocator
    (src/x86/paging/page_alloc/frame_alloc.rs, whose differences are in
    FrameAlloc.v). *)

From S2P Require Import Prelude.

(** * The allocator

    The block headers ([FreeBlock { next_blk }]) are stored in the first bytes of
    the free blocks: [mem] is that memory, from the address of a block to the
    pointer stored in it, 0 being the null pointer. *)
Record BuddyAllocator := {
  base_addr : Z;
  max_blk_size : Z;
  min_blk_size : Z;
  log2_min_blk_size : Z;
  free_lists : list Z
}.
Record bst := { ba : BuddyAllocator; mem : gmap Z Z }.

Definition set_head (s : bst) (level : nat) (p : Z) : bst :=
  {| ba := {| base_addr := base_addr (ba s); max_blk_size := max_blk_size (ba s);
              min_blk_size := min_blk_size (ba s); log2_min_blk_size := log2_min_blk_size (ba s);
              free_lists := <[level := p]> (free_lists (ba s)) |};
     mem := mem s |}.
Definition set_mem (s : bst) (a v : Z) : bst := {| ba := ba s; mem := <[a := v]> (mem s) |}.

Section buddy.
(** The width of [usize], the number of levels, and the memory cell a block's
    pointer gives access to: the pointer itself in the bootloader. *)
Context (w : Z) (N : nat) (acc : Z → outcome Z).

(** [log2]: the number of bits of [a]. *)
Fixpoint log2_loop (fuel : nat) (a power : Z) : outcome Z :=
  match fuel with
  | O => NoFuel
  | S fuel => if bool_decide (a = 0) then Done power else log2_loop fuel (Z.shiftr a 1) (power + 1)
  end.
Definition log2 (a : Z) : outcome Z := log2_loop (S (Z.to_nat w)) a 0.

(** [usize::next_power_of_two], 0 when it does not fit. *)
Definition next_power_of_two (n : Z) : Z :=
  if bool_decide (n ≤ 1) then 1 else wrap w (2 ^ Z.log2_up n).
Definition is_power_of_two (n : Z) : bool := bool_decide (0 < n ∧ n = 2 ^ Z.log2 n).
Definition shl (x n : Z) : Z := wrap w (Z.shiftl x (n mod w)).

Definition from_base_unchecked (base max_blk : Z) : outcome BuddyAllocator :=
  let min_blk := Z.shiftr max_blk (Z.of_nat (N - 1)) in
  l ← log2 min_blk;
  Done {| base_addr := base; max_blk_size := max_blk; min_blk_size := min_blk;
          log2_min_blk_size := l;
          free_lists := <[(N - 1)%nat := base]> (replicate N 0) |}.

(** [self.free_lists[level]]. *)
Definition head (s : bst) (level : Z) : outcome Z := unwrap (free_lists (ba s) !! Z.to_nat level).

Definition level_size (s : bst) (level : Z) : Z := shl (min_blk_size (ba s)) level.

(** [buddy]: flips the bit of the block's size in its address; the level is a
    [u8], on which the arithmetic wraps. *)
Definition buddy (s : bst) (block level : Z) : outcome (option Z) :=
  rust_assert (bool_decide (base_addr (ba s) ≤ block));;
  rust_assert (bool_decide (block ≤ wrap w (base_addr (ba s) + max_blk_size (ba s))));;
  if bool_decide (level_size s level = max_blk_size (ba s)) then Done None
  else Done (Some (Z.lxor block (shl 1 (u8 (u8 (level - 1) + u8 (log2_min_blk_size (ba s))))))).

Definition free_blk (s : bst) (block level : Z) : outcome bst :=
  h ← head s level;
  a ← acc block;
  Done (set_head (set_mem s a h) (Z.to_nat level) block).

Definition pop_blk_with_level (s : bst) (level : Z) : outcome (option Z * bst) :=
  h ← head s level;
  if bool_decide (h ≠ 0) then
    if bool_decide (Z.to_nat level = (N - 1)%nat) then
      Done (Some h, set_head s (Z.to_nat level) 0)
    else
      a ← acc h;
      n ← deref (mem s !! a);
      Done (Some h, set_head s (Z.to_nat level) n)
  else Done (None, s).

(** The loop of [split_blk]: [n] is [level - new_level]. *)
Fixpoint split_loop (n : nat) (s : bst) (block level : Z) : outcome bst :=
  match n with
  | O => Done s
  | S n =>
      b ← buddy s block (level - 1);
      b ← unwrap b;
      s ← free_blk s b (level - 1);
      split_loop n s block (level - 1)
  end.
Definition split_blk (s : bst) (block level new_level : Z) : outcome bst :=
  rust_assert (bool_decide (new_level ≤ level));;
  split_loop (Z.to_nat (level - new_level)) s block level.

(** The loop of [allocate], over the levels [level..N]. *)
Fixpoint alloc_loop (n : nat) (s : bst) (level level_req : Z) : outcome (Z * bst) :=
  match n with
  | O => Done (0, s)
  | S n =>
      '(r, s) ← pop_blk_with_level s level;
      match r with
      | Some blk =>
          s ← (if bool_decide (level_req < level) then split_blk s blk level level_req else Done s);
          Done (blk, s)
      | None => alloc_loop n s (level + 1) level_req
      end
  end.
Definition alloc_from (s : bst) (level_req : Z) : outcome (Z * bst) :=
  alloc_loop (length (free_lists (ba s)) - Z.to_nat level_req) s level_req level_req.

(** The loop of [deallocate], given the [remove_blk] of the allocator. *)
Fixpoint dealloc_loop (remove : bst → Z → Z → outcome (bool * bst))
    (n : nat) (s : bst) (full_block level : Z) : outcome bst :=
  match n with
  | O => Done s
  | S n =>
      b ← buddy s full_block level;
      '(merged, s) ← (match b with
                      | Some b =>
                          '(found, s) ← remove s b level;
                          Done (if (found : bool) then Some (Z.min b full_block) else None, s)
                      | None => Done (None, s)
                      end);
      match merged with
      | Some b => dealloc_loop remove n s b (level + 1)
      | None => free_blk s full_block level
      end
  end.

(** ** The bootloader heap *)

Definition MIN_HEAP_ALIGN : Z := 8192.
Definition size_of_FreeBlock : Z := w / 8.

Definition new (base max_blk : Z) : outcome BuddyAllocator :=
  rust_assert (bool_decide (size_of_FreeBlock ≤ Z.shiftr max_blk (Z.of_nat (N - 1))));;
  rust_assert (bool_decide (Z.land max_blk (MIN_HEAP_ALIGN - 1) = 0));;
  from_base_unchecked base max_blk.

(** [resize]: the minimum block size is computed before the heap size is rounded
    down. *)
Definition resize (s : bst) (base max_blk : Z) : outcome bst :=
  let min_blk := Z.shiftr max_blk (Z.of_nat (N - 1)) in
  rust_assert (bool_decide (size_of_FreeBlock ≤ min_blk));;
  let max_blk := Z.land max_blk (not_w w (MIN_HEAP_ALIGN - 1)) in
  rust_assert (bool_decide (Z.land max_blk (MIN_HEAP_ALIGN - 1) = 0));;
  l ← log2 min_blk;
  Done {| ba := {| base_addr := base; max_blk_size := max_blk; min_blk_size := min_blk;
                   log2_min_blk_size := l;
                   free_lists := <[(N - 1)%nat := base]> (replicate N 0) |};
          mem := mem s |}.

Definition allocation_level (s : bst) (size align : Z) : outcome Z :=
  rust_assert (bool_decide (size < max_blk_size (ba s)));;
  rust_assert (is_power_of_two align);;
  rust_assert (bool_decide (align < MIN_HEAP_ALIGN));;
  let size := Z.max (Z.max size align) (min_blk_size (ba s)) in
  l ← log2 (next_power_of_two size);
  Done (u8 (wrap w (l - log2_min_blk_size (ba s)))).

Definition allocate (s : bst) (size align : Z) : outcome (Z * bst) :=
  level_req ← allocation_level s size align;
  alloc_from s level_req.

(** The links of a free list: its head, or the [next_blk] of a block. *)
Inductive link := Head (level : Z) | Next (block : Z).
Definition rd_link (s : bst) (l : link) : outcome Z :=
  match l with
  | Head level => head s level
  | Next b => a ← acc b; deref (mem s !! a)
  end.
Definition wr_link (s : bst) (l : link) (v : Z) : outcome bst :=
  match l with
  | Head level => Done (set_head s (Z.to_nat level) v)
  | Next b => a ← acc b; Done (set_mem s a v)
  end.

(** [remove_blk]: follows the links of the list until one holds the block. *)
Fixpoint remove_loop (fuel : nat) (s : bst) (blk_header : Z) (curr_blk : link) : outcome (bool * bst) :=
  match fuel with
  | O => NoFuel
  | S fuel =>
      p ← rd_link s curr_blk;
      if bool_decide (p = 0) then Done (false, s)
      else if bool_decide (p = blk_header) then
        n ← rd_link s (Next blk_header);
        s ← wr_link s curr_blk n;
        Done (true, s)
      else remove_loop fuel s blk_header (Next p)
  end.
Definition remove_blk (fuel : nat) (s : bst) (block level : Z) : outcome (bool * bst) :=
  remove_loop fuel s block (Head level).

Definition deallocate (fuel : nat) (s : bst) (block size align : Z) : outcome bst :=
  alloc_level ← allocation_level s size align;
  dealloc_loop (remove_blk fuel) (length (free_lists (ba s)) - Z.to_nat alloc_level) s block alloc_level.
End buddy.

(** * The pool

    A pool of [2^(m + N - 1)] bytes at [base], aligned on its size.  A block of
    level [l] has [2^(m + l)] bytes. *)

Section pool.
Context (w : Z) (N : nat) (acc : Z → outcome Z) (base m : Z).

Definition sz (l : nat) : Z := 2 ^ (m + Z.of_nat l).
Definition pool_size : Z := sz (N - 1).

Record pool_ok : Prop := {
  pool_levels : (1 ≤ N)%nat;
  pool_width : m + Z.of_nat N ≤ w;
  pool_w : 0 < w ≤ 64;
  pool_min : 3 ≤ m;
  pool_aligned : base mod pool_size = 0;
  pool_nonnull : 0 < base;
  pool_fits : base + pool_size < 2 ^ w;
  pool_acc b : base ≤ b < base + pool_size → acc b = Done b
}.

Definition blk_ok (l : nat) (b : Z) : Prop :=
  base ≤ b ∧ b + sz l ≤ base + pool_size ∧ b mod sz l = 0.
Definition in_blk (l : nat) (b x : Z) : Prop := b ≤ x < b + sz l.
#[global] Instance in_blk_dec l b x : Decision (in_blk l b x).
Proof. unfold in_blk. apply _. Defined.

(** The free blocks of each level, and the number of them that contain an
    address. *)
Definition cover_list (l : nat) (bs : list Z) (x : Z) : nat :=
  length (filter (λ b, in_blk l b x) bs).
Fixpoint cover_from (l : nat) (bl : list (list Z)) (x : Z) : nat :=
  match bl with
  | [] => 0%nat
  | bs :: bl => (cover_list l bs x + cover_from (S l) bl x)%nat
  end.
Definition cover (bl : list (list Z)) (x : Z) : nat := cover_from 0 bl x.
Definition ind (P : Prop) `{Decision P} : nat := if bool_decide P then 1%nat else 0%nat.

(** The blocks of a free list in memory. *)
Fixpoint lseg (mem : gmap Z Z) (p : Z) (bs : list Z) : Prop :=
  match bs with
  | [] => p = 0
  | b :: bs => p = b ∧ b ≠ 0 ∧ ∃ n, mem !! b = Some n ∧ lseg mem n bs
  end.

Record binv (s : bst) (bl : list (list Z)) : Prop := {
  binv_base : base_addr (ba s) = base;
  binv_max : max_blk_size (ba s) = pool_size;
  binv_min : min_blk_size (ba s) = 2 ^ m;
  binv_log : log2_min_blk_size (ba s) = m + 1;
  binv_levels : length bl = N;
  binv_heads : length (free_lists (ba s)) = N;
  binv_list l bs h : bl !! l = Some bs → free_lists (ba s) !! l = Some h →
    if bool_decide (l = (N - 1)%nat)
    then (h = 0 ∧ bs = []) ∨ (h = base ∧ bs = [base])
    else lseg (mem s) h bs;
  binv_blk l bs b : bl !! l = Some bs → b ∈ bs → blk_ok l b;
  binv_cover x : (cover bl x ≤ 1)%nat
}.

Lemma cover_from_insert l k bl bs bs' x : bl !! k = Some bs →
  (cover_from l (<[k := bs']> bl) x + cover_list (l + k) bs x
   = cover_from l bl x + cover_list (l + k) bs' x)%nat.
Proof.
  revert l k. induction bl as [|c bl IH]; intros l [|k] Hk; simpl in *; try done.
  - injection Hk as ->. rewrite Nat.add_0_r. lia.
  - specialize (IH (S l) k Hk). replace (l + S k)%nat with (S l + k)%nat by lia. lia.
Qed.

Lemma cover_insert k bl bs bs' x : bl !! k = Some bs →
  (cover (<[k := bs']> bl) x + cover_list k bs x = cover bl x + cover_list k bs' x)%nat.
Proof. apply (cover_from_insert 0). Qed.

Lemma cover_list_cons l b bs x : cover_list l (b :: bs) x = (ind (in_blk l b x) + cover_list l bs x)%nat.
Proof. unfold cover_list, ind. rewrite filter_cons. case_bool_decide; by case_decide. Qed.

Lemma cover_push k bl bs b x : bl !! k = Some bs →
  cover (<[k := b :: bs]> bl) x = (cover bl x + ind (in_blk k b x))%nat.
Proof. intros Hk. pose proof (cover_insert k bl bs (b :: bs) x Hk). rewrite cover_list_cons in *. lia. Qed.

Lemma cover_from_ge l k bl bs b x : bl !! k = Some bs → b ∈ bs → in_blk (l + k) b x →
  (1 ≤ cover_from l bl x)%nat.
Proof.
  revert l k. induction bl as [|c bl IH]; intros l [|k] Hk Hb Hx; simpl in *; try done.
  - injection Hk as ->. rewrite Nat.add_0_r in Hx. unfold cover_list.
    assert (b ∈ filter (λ b, in_blk l b x) bs) as Hf by (by apply list_elem_of_filter).
    destruct (filter _ bs); [by apply elem_of_nil in Hf|]. simpl. lia.
  - specialize (IH (S l) k Hk Hb). replace (l + S k)%nat with (S l + k)%nat in Hx by lia.
    specialize (IH Hx). lia.
Qed.

Lemma sz_pos l : 0 ≤ m → 0 < sz l.
Proof. intros. apply pow2_pos. lia. Qed.

Lemma sz_S l : 0 ≤ m → sz (S l) = 2 * sz l.
Proof.
  intros. unfold sz. replace (m + Z.of_nat (S l)) with (Z.succ (m + Z.of_nat l)) by lia.
  apply Z.pow_succ_r. lia.
Qed.

Lemma sz_le l l' : 0 ≤ m → (l ≤ l')%nat → sz l ≤ sz l'.
Proof. intros. apply Z.pow_le_mono_r; lia. Qed.

Lemma sz_divide l l' : 0 ≤ m → (l ≤ l')%nat → (sz l | sz l').
Proof.
  intros Hm Hl. exists (2 ^ Z.of_nat (l' - l)). unfold sz. rewrite <- Z.pow_add_r by lia. f_equal. lia.
Qed.

Lemma mod_sz_le l l' b : 0 ≤ m → (l ≤ l')%nat → b mod sz l' = 0 → b mod sz l = 0.
Proof.
  intros Hm Hl Hb. pose proof (sz_pos l Hm). pose proof (sz_pos l' Hm).
  apply Z.mod_divide; [lia|]. apply Z.mod_divide in Hb; [|lia].
  eapply Z.divide_trans; [by apply sz_divide|done].
Qed.

(** ** List segments *)

Lemma lseg_insert mem p bs a v : lseg mem p bs → a ∉ bs → lseg (<[a := v]> mem) p bs.
Proof.
  revert p. induction bs as [|b bs IH]; intros p; simpl; [done|].
  intros (-> & Hn & n & Hm & Hs) Ha. split_and!; [done|done|]. exists n.
  rewrite lookup_insert_ne by (intros ->; set_solver). split; [done|]. apply IH; set_solver.
Qed.

(** ** Buddies *)

Lemma lxor_1 q : Z.lxor q 1 = if Z.even q then q + 1 else q - 1.
Proof.
  destruct (Z.even q) eqn:E.
  - apply Z.even_spec in E as [k ->]. rewrite Z.add_nocarry_lxor; [done|].
    change 1 with (Z.ones 1). rewrite Z.land_ones by lia. change (2 ^ 1) with 2.
    rewrite Z.mul_comm. apply Z.mod_mul. lia.
  - assert (Ho : Z.odd q = true) by (by rewrite <- Z.negb_even, E).
    apply Z.odd_spec in Ho as [k ->]. replace (2 * k + 1 - 1) with (2 * k) by lia.
    assert (H1 : 2 * k + 1 = Z.lxor (2 * k) 1).
    { apply Z.add_nocarry_lxor. change 1 with (Z.ones 1). rewrite Z.land_ones by lia.
      change (2 ^ 1) with 2. rewrite Z.mul_comm. apply Z.mod_mul. lia. }
    rewrite H1, Z.lxor_assoc, Z.lxor_nilpotent. apply Z.lxor_0_r.
Qed.

Lemma lxor_pow2 b k : 0 ≤ k → b mod 2 ^ k = 0 →
  Z.lxor b (2 ^ k) = if bool_decide (b mod 2 ^ (k + 1) = 0) then b + 2 ^ k else b - 2 ^ k.
Proof.
  intros Hk Hb. pose proof (pow2_pos k Hk). apply Z.mod_divide in Hb as [q ->]; [|lia].
  replace (2 ^ k) with (Z.shiftl 1 k) at 2 by (by rewrite Z.shiftl_1_l).
  rewrite <- (Z.shiftl_mul_pow2 q k), <- Z.shiftl_lxor, lxor_1 by done.
  rewrite !Z.shiftl_mul_pow2 by done. rewrite Z.pow_add_r by lia. change (2 ^ 1) with 2.
  rewrite (Z.mul_comm (2 ^ k) 2), Z.mul_mod_distr_r by lia.
  destruct (Z.even q) eqn:E.
  - apply Z.even_spec in E as [j ->]. rewrite bool_decide_true; [lia|].
    rewrite (Z.mul_comm 2 j), Z.mod_mul by lia. lia.
  - assert (Ho : Z.odd q = true) by (by rewrite <- Z.negb_even, E).
    apply Z.odd_spec in Ho as [j ->]. rewrite bool_decide_false; [lia|].
    replace ((2 * j + 1) mod 2) with 1; [lia|].
    rewrite Z.add_comm, Z.mul_comm, Z_mod_plus_full. done.
Qed.

Definition buddy_of (l : nat) (b : Z) : Z :=
  if bool_decide (b mod sz (S l) = 0) then b + sz l else b - sz l.

Context (Hpool : pool_ok).

Lemma pool_m : 0 ≤ m.
Proof. pose proof (pool_min Hpool). lia. Qed.

Lemma level_size_spec s bl l : binv s bl → (l < N)%nat → level_size w s (Z.of_nat l) = sz l.
Proof.
  intros HI Hl. pose proof (pool_width Hpool). pose proof (pool_w Hpool). pose proof (pool_min Hpool).
  unfold level_size, shl. rewrite (binv_min _ _ HI), (Z.mod_small (Z.of_nat l)) by lia.
  rewrite Z.shiftl_mul_pow2, <- Z.pow_add_r by lia. apply wrap_id. unfold in_width.
  split; [apply Z.pow_nonneg; lia|]. apply Z.pow_lt_mono_r; lia.
Qed.

Lemma sz_inj l l' : sz l = sz l' → l = l'.
Proof. intros E. pose proof pool_m. apply Z.pow_inj_r in E; lia. Qed.

Lemma buddy_spec s bl l b : binv s bl → (l < N)%nat → blk_ok l b →
  buddy w s b (Z.of_nat l)
  = Done (if bool_decide (l = (N - 1)%nat) then None else Some (buddy_of l b)).
Proof.
  intros HI Hl (Hb1 & Hb2 & Hb3). pose proof (pool_width Hpool). pose proof (pool_w Hpool).
  pose proof (pool_min Hpool). pose proof (pool_fits Hpool). pose proof (pool_nonnull Hpool).
  pose proof pool_m. pose proof (sz_pos l ltac:(lia)). pose proof (sz_pos (N - 1) ltac:(lia)).
  unfold buddy. rewrite (binv_base _ _ HI), (binv_max _ _ HI).
  assert (0 < pool_size) by (by unfold pool_size).
  rewrite (wrap_id w (base + pool_size)) by (unfold in_width; lia).
  rewrite (bool_decide_true (base ≤ b)), (bool_decide_true (b ≤ _)) by lia. simpl. rewrite (level_size_spec s bl) by done.
  destruct (decide (l = (N - 1)%nat)) as [->|Hne].
  { by rewrite !bool_decide_true. }
  rewrite (bool_decide_false (sz l = pool_size)) by (intros ?%sz_inj; done).
  rewrite (bool_decide_false (l = _)) by done. do 2 f_equal.
  rewrite (binv_log _ _ HI). unfold buddy_of.
  assert (Hu : u8 (u8 (Z.of_nat l - 1) + u8 (m + 1)) = m + Z.of_nat l).
  { unfold u8, wrap. rewrite <- Zplus_mod. replace (Z.of_nat l - 1 + (m + 1)) with (m + Z.of_nat l) by lia. apply Z.mod_small. change (2 ^ 8) with 256. lia. }
  unfold shl. rewrite Hu, Z.mod_small, Z.shiftl_1_l by lia.
  rewrite wrap_id by (unfold in_width; split; [apply Z.pow_nonneg; lia|apply Z.pow_lt_mono_r; lia]).
  fold (sz l). unfold sz at 1. rewrite lxor_pow2 by (done || lia). unfold sz.
  by replace (m + Z.of_nat l + 1) with (m + Z.of_nat (S l)) by lia.
Qed.

Lemma pool_mod l : (l < N)%nat → base mod sz l = 0.
Proof. intros. apply (mod_sz_le _ (N - 1)); [apply pool_m|lia|apply Hpool]. Qed.

Lemma ind_in_blk l b x : ind (in_blk l b x) = if decide (b ≤ x < b + sz l) then 1%nat else 0%nat.
Proof. unfold ind. case_bool_decide; case_decide; unfold in_blk in *; lia. Qed.

(** A block and its buddy are the two halves of a block of the next level. *)
Lemma buddy_merge l b : (S l < N)%nat → blk_ok l b →
  blk_ok l (buddy_of l b) ∧ blk_ok (S l) (Z.min (buddy_of l b) b)
  ∧ (∀ x, ind (in_blk (S l) (Z.min (buddy_of l b) b) x)
          = (ind (in_blk l b x) + ind (in_blk l (buddy_of l b) x))%nat).
Proof.
  intros Hl (H1 & H2 & H3). pose proof pool_m as Hm. pose proof (sz_pos l Hm) as Hp.
  pose proof (sz_S l Hm) as HS. pose proof (pool_mod (S l) Hl) as HbS.
  assert (Hmax : pool_size mod sz (S l) = 0).
  { apply Z.mod_divide; [lia|]. apply sz_divide; lia. }
  apply Z.mod_divide in H3 as [q ->]; [|lia]. apply Z.mod_divide in HbS as [p Hbase]; [|lia].
  apply Z.mod_divide in Hmax as [r Hr]; [|lia]. rewrite HS in Hbase, Hr.
  rewrite Hr in H2. rewrite Hbase in H1, H2. assert (Hsz : sz l ≠ 0) by lia.
  assert (Hc : (∃ t, q = 2 * t ∧ buddy_of l (q * sz l) = q * sz l + sz l)
             ∨ (∃ t, q = 2 * t + 1 ∧ buddy_of l (q * sz l) = q * sz l - sz l)).
  { unfold buddy_of. rewrite HS. pose proof (Z.div_mod q 2 ltac:(lia)) as Hdm.
    rewrite Z.mul_mod_distr_r by lia. pose proof (Z.mod_pos_bound q 2 ltac:(lia)).
    case_bool_decide as Hb; [left|right]; exists (q / 2); (split; [nia|done]). }
  assert (Hmod : ∀ k, (k * sz l) mod sz l = 0) by (intros; by apply Z.mod_mul).
  assert (HmodS : ∀ k, (2 * k * sz l) mod sz (S l) = 0).
  { intros k. rewrite HS. replace (2 * k * sz l) with (k * (2 * sz l)) by lia. apply Z.mod_mul. lia. }
  assert (Ht : ∀ t, 2 * t ≤ q ≤ 2 * t + 1 →
    p * (2 * sz l) ≤ t * (2 * sz l) ∧ (t + 1) * (2 * sz l) ≤ (p + r) * (2 * sz l)).
  { intros t Ht. assert (p ≤ t ∧ t + 1 ≤ p + r) by nia.
    split; apply Z.mul_le_mono_nonneg_r; lia. }
  unfold blk_ok. destruct Hc as [(t & -> & ->)|(t & -> & ->)];
    (destruct (Ht t ltac:(lia)) as [Ht1 Ht2]); clear Ht.
  - replace (2 * t * sz l + sz l) with ((2 * t + 1) * sz l) by lia.
    rewrite Z.min_r by lia. rewrite Hbase, Hr. split_and!; try lia; auto.
    intros x. rewrite !ind_in_blk. repeat case_decide; lia.
  - replace ((2 * t + 1) * sz l - sz l) with (2 * t * sz l) by lia.
    rewrite Z.min_l by lia. rewrite Hbase, Hr. split_and!; try lia; auto.
    intros x. rewrite !ind_in_blk. repeat case_decide; lia.
Qed.

(** ** Pushing and popping a block *)

Lemma binv_level s bl l : binv s bl → (l < N)%nat →
  ∃ bs h, bl !! l = Some bs ∧ free_lists (ba s) !! l = Some h ∧ head s (Z.of_nat l) = Done h.
Proof.
  intros HI Hl. destruct (lookup_lt_is_Some_2 bl l) as [bs Hbs]; [rewrite (binv_levels _ _ HI); lia|].
  destruct (lookup_lt_is_Some_2 (free_lists (ba s)) l) as [h Hh]; [rewrite (binv_heads _ _ HI); lia|].
  exists bs, h. split_and!; [done|done|]. unfold head. by rewrite Nat2Z.id, Hh.
Qed.

Lemma blk_start l b : (0 ≤ m) → in_blk l b b.
Proof. intros Hm. pose proof (sz_pos l Hm). unfold in_blk. lia. Qed.

(** A block of a free list covers its own address. *)
Lemma binv_covered s bl l bs b : binv s bl → bl !! l = Some bs → b ∈ bs → cover bl b ≠ 0%nat.
Proof.
  intros HI Hl Hb. pose proof (cover_from_ge 0 l bl bs b b Hl Hb (blk_start l b pool_m)).
  unfold cover. lia.
Qed.

Lemma blk_top b : blk_ok (N - 1) b → b = base.
Proof. unfold blk_ok, pool_size. intros (? & ? & _). lia. Qed.

Lemma blk_acc l b : blk_ok l b → acc b = Done b.
Proof.
  intros (? & ? & _). apply (pool_acc Hpool). pose proof (sz_pos l pool_m). lia.
Qed.

Lemma free_blk_spec s bl l bs b : binv s bl → bl !! l = Some bs → blk_ok l b →
  (∀ x, in_blk l b x → cover bl x = 0%nat) →
  ∃ s', free_blk acc s b (Z.of_nat l) = Done s' ∧ binv s' (<[l := b :: bs]> bl).
Proof.
  intros HI Hbs Hb Hfree. assert (Hl : (l < N)%nat).
  { rewrite <- (binv_levels _ _ HI). by eapply lookup_lt_Some. }
  destruct (binv_level s bl l HI Hl) as (bs' & h & Hbs' & Hh & Hhead). simplify_eq.
  assert (Hb0 : b ≠ 0) by (destruct Hb; pose proof (pool_nonnull Hpool); lia).
  assert (Hnb : ∀ l' bs', bl !! l' = Some bs' → b ∉ bs').
  { intros l' bs' Hl' Hin. by apply (binv_covered s bl l' bs' b HI Hl' Hin), Hfree, blk_start, pool_m. }
  eexists. unfold free_blk. rewrite Hhead. simpl. rewrite (blk_acc l) by done. simpl.
  rewrite Nat2Z.id. split; [done|]. split; simpl; try apply HI.
  - rewrite length_insert. apply HI.
  - rewrite length_insert. apply HI.
  - intros l' bs' h' Hbs' Hh'. destruct (decide (l' = l)) as [->|Hne].
    + rewrite list_lookup_insert_eq in Hbs' by (rewrite (binv_levels _ _ HI); lia).
      rewrite list_lookup_insert_eq in Hh' by (rewrite (binv_heads _ _ HI); lia). simplify_eq.
      pose proof (binv_list _ _ HI _ _ _ Hbs Hh) as Hlist. case_bool_decide as Htop.
      * subst l. pose proof (blk_top _ Hb) as ->. destruct Hlist as [[_ ->]|[_ ->]]; [by right|].
        exfalso. by apply (Hnb _ _ Hbs), list_elem_of_singleton.
      * simpl. split_and!; [done|done|]. exists h. rewrite lookup_insert_eq. split; [done|].
        apply lseg_insert; [done|by eapply Hnb].
    + rewrite list_lookup_insert_ne in Hbs' by done. rewrite list_lookup_insert_ne in Hh' by done.
      pose proof (binv_list _ _ HI _ _ _ Hbs' Hh') as Hlist. case_bool_decide; [done|].
      apply lseg_insert; [done|by eapply Hnb].
  - intros l' bs' b' Hbs' Hb'. destruct (decide (l' = l)) as [->|Hne].
    + rewrite list_lookup_insert_eq in Hbs' by (rewrite (binv_levels _ _ HI); lia). simplify_eq.
      apply elem_of_cons in Hb' as [->|Hb']; [done|by apply (binv_blk _ _ HI _ _ _ Hbs)].
    + rewrite list_lookup_insert_ne in Hbs' by done. by apply (binv_blk _ _ HI _ _ _ Hbs').
  - intros x. rewrite (cover_push _ _ _ _ _ Hbs). pose proof (binv_cover _ _ HI x). unfold ind.
    case_bool_decide as Hx; [rewrite (Hfree x Hx)|]; lia.
Qed.

(** Replacing the list of a level by a sublist, in memory and in its head. *)
Lemma binv_shrink s bl l bs bs' h' : binv s bl → bl !! l = Some bs →
  (if bool_decide (l = (N - 1)%nat)
   then (h' = 0 ∧ bs' = []) ∨ (h' = base ∧ bs' = [base]) else lseg (mem s) h' bs') →
  (∀ b, b ∈ bs' → b ∈ bs) → (∀ x, (cover_list l bs' x ≤ cover_list l bs x)%nat) →
  binv (set_head s l h') (<[l := bs']> bl).
Proof.
  intros HI Hbs Hlist Hsub Hcov. assert (Hl : (l < N)%nat).
  { rewrite <- (binv_levels _ _ HI). by eapply lookup_lt_Some. }
  split; simpl; try apply HI.
  - rewrite length_insert. apply HI.
  - rewrite length_insert. apply HI.
  - intros l' bs1 h1 Hbs1 Hh1. destruct (decide (l' = l)) as [->|Hne].
    + rewrite list_lookup_insert_eq in Hbs1 by (rewrite (binv_levels _ _ HI); lia).
      rewrite list_lookup_insert_eq in Hh1 by (rewrite (binv_heads _ _ HI); lia). by simplify_eq.
    + rewrite list_lookup_insert_ne in Hbs1 by done. rewrite list_lookup_insert_ne in Hh1 by done. by apply (binv_list _ _ HI).
  - intros l' bs1 b' Hbs1 Hb'. destruct (decide (l' = l)) as [->|Hne].
    + rewrite list_lookup_insert_eq in Hbs1 by (rewrite (binv_levels _ _ HI); lia). simplify_eq.
      apply (binv_blk _ _ HI _ _ _ Hbs). by apply Hsub.
    + rewrite list_lookup_insert_ne in Hbs1 by done. by apply (binv_blk _ _ HI _ _ _ Hbs1).
  - intros x. pose proof (binv_cover _ _ HI x). pose proof (cover_insert l bl bs bs' x Hbs).
    specialize (Hcov x). lia.
Qed.

Lemma pop_spec s bl l bs : binv s bl → bl !! l = Some bs →
  match bs with
  | [] => pop_blk_with_level N acc s (Z.of_nat l) = Done (None, s)
  | b :: bs' => ∃ s', pop_blk_with_level N acc s (Z.of_nat l) = Done (Some b, s')
      ∧ binv s' (<[l := bs']> bl)
  end.
Proof.
  intros HI Hbs. assert (Hl : (l < N)%nat).
  { rewrite <- (binv_levels _ _ HI). by eapply lookup_lt_Some. }
  destruct (binv_level s bl l HI Hl) as (bs1 & h & Hbs1 & Hh & Hhead). simplify_eq.
  pose proof (binv_list _ _ HI _ _ _ Hbs Hh) as Hlist. pose proof (pool_nonnull Hpool) as Hbase.
  unfold pop_blk_with_level. rewrite Hhead. simpl. rewrite Nat2Z.id.
  destruct bs as [|b bs'].
  { assert (h = 0) as -> by (case_bool_decide; naive_solver). done. }
  assert (Hcl : ∀ x, (cover_list l bs' x ≤ cover_list l (b :: bs') x)%nat)
    by (intros; rewrite cover_list_cons; lia).
  destruct (decide (l = (N - 1)%nat)) as [->|Hne].
  - rewrite bool_decide_true in Hlist by done. destruct Hlist as [[_ ?]|[-> [= -> ->]]]; [done|].
    rewrite (bool_decide_true (base ≠ 0)), bool_decide_true by lia. eexists. split; [done|].
    apply (binv_shrink s bl _ [base]); [done|done| |set_solver|done].
    rewrite bool_decide_true by done. by left.
  - rewrite bool_decide_false in Hlist by done. destruct Hlist as (-> & Hb0 & n & Hn & Hseg).
    rewrite (bool_decide_true (b ≠ 0)), (bool_decide_false (l = _)) by done.
    rewrite (blk_acc l) by (apply (binv_blk _ _ HI _ _ _ Hbs); set_solver). simpl. rewrite Hn. simpl.
    eexists. split; [done|]. apply (binv_shrink s bl _ (b :: bs')); [done|done| |set_solver|done].
    by rewrite bool_decide_false.
Qed.

(** ** Splitting, allocating *)

Lemma blk_ok_down l l' b : (l' ≤ l)%nat → blk_ok l b → blk_ok l' b.
Proof.
  intros Hl (H1 & H2 & H3). pose proof (sz_le l' l pool_m Hl). split_and!; [done|lia|].
  by apply (mod_sz_le _ l); [apply pool_m| |].
Qed.

Lemma split_loop_spec n s bl l b : binv s bl → (n ≤ l < N)%nat → blk_ok l b →
  (∀ x, in_blk l b x → cover bl x = 0%nat) →
  ∃ s' bl', split_loop w acc n s b (Z.of_nat l) = Done s' ∧ binv s' bl'
    ∧ ∀ x, (cover bl' x + ind (in_blk (l - n) b x) = cover bl x + ind (in_blk l b x))%nat.
Proof.
  revert s bl l. induction n as [|n IH]; intros s bl l HI Hn Hb Hfree.
  { exists s, bl. split_and!; [done|done|]. intros x. by rewrite Nat.sub_0_r. }
  destruct l as [|l]; [lia|]. simpl split_loop.
  replace (Z.of_nat (S l) - 1) with (Z.of_nat l) by lia.
  pose proof (blk_ok_down (S l) l b ltac:(lia) Hb) as Hb'.
  rewrite (buddy_spec s bl) by (done || lia). rewrite bool_decide_false by lia. simpl.
  destruct (buddy_merge l b ltac:(lia) Hb') as (Hbb & _ & Hind).
  assert (Hbo : buddy_of l b = b + sz l) by (unfold buddy_of; by rewrite bool_decide_true by apply Hb).
  assert (Hmin : Z.min (buddy_of l b) b = b) by (pose proof (sz_pos l pool_m); lia).
  rewrite Hmin in Hind.
  destruct (binv_level s bl l HI ltac:(lia)) as (bs & h & Hbs & _ & _).
  assert (Hdis : ∀ x, in_blk l b x → ¬ in_blk l (buddy_of l b) x) by (unfold in_blk; rewrite Hbo; lia).
  destruct (free_blk_spec s bl l bs (buddy_of l b) HI Hbs Hbb) as (s1 & -> & HI1).
  { intros x Hx. apply Hfree. specialize (Hind x). unfold ind in Hind.
    rewrite (bool_decide_true (in_blk l (buddy_of l b) x)) in Hind by done.
    case_bool_decide; [done|lia]. }
  simpl. destruct (IH s1 (<[l := buddy_of l b :: bs]> bl) l HI1 ltac:(lia) Hb') as (s2 & bl2 & -> & HI2 & Hcov).
  { intros x Hx. rewrite (cover_push _ _ _ _ _ Hbs). unfold ind. rewrite bool_decide_false by auto.
    rewrite Hfree; [done|]. specialize (Hind x). unfold ind in Hind.
    rewrite (bool_decide_true (in_blk l b x)) in Hind by done. case_bool_decide; [done|lia]. }
  exists s2, bl2. split_and!; [done|done|]. intros x. specialize (Hcov x). specialize (Hind x).
  rewrite (cover_push _ _ _ _ _ Hbs) in Hcov. simpl Nat.sub. lia.
Qed.

(** What allocating a block of level [req] gives: a block that was free, the
    free blocks being otherwise the same; or nothing, when no block of the level
    or above is free. *)
Definition alloc_post (s : bst) (bl : list (list Z)) (req : nat) (r : Z) (s' : bst) : Prop :=
  if bool_decide (r = 0)
  then s' = s ∧ ∀ l, (req ≤ l < N)%nat → bl !! l = Some []
  else blk_ok req r ∧ ∃ bl', binv s' bl'
       ∧ ∀ x, (cover bl' x + ind (in_blk req r x) = cover bl x)%nat.

Lemma alloc_loop_spec n s bl l req : binv s bl → (req ≤ l)%nat → n = (N - l)%nat →
  (∀ k, (req ≤ k < l)%nat → bl !! k = Some []) →
  ∃ r s', alloc_loop w N acc n s (Z.of_nat l) (Z.of_nat req) = Done (r, s') ∧ alloc_post s bl req r s'.
Proof.
  revert l. induction n as [|n IH]; intros l HI Hl Hn Hempty.
  { exists 0, s. split; [done|]. unfold alloc_post. rewrite bool_decide_true by done.
    split; [done|]. intros k Hk. apply Hempty. lia. }
  simpl alloc_loop. destruct (binv_level s bl l HI ltac:(lia)) as (bs & h & Hbs & _ & _).
  pose proof (pop_spec s bl l bs HI Hbs) as Hpop. destruct bs as [|b bs].
  - rewrite Hpop. simpl. replace (Z.of_nat l + 1) with (Z.of_nat (S l)) by lia.
    apply IH; [done|lia|lia|]. intros k Hk. destruct (decide (k = l)) as [->|]; [done|]. apply Hempty. lia.
  - destruct Hpop as (s1 & -> & HI1). simpl.
    assert (Hb : blk_ok l b) by (apply (binv_blk _ _ HI _ _ _ Hbs); set_solver).
    assert (Hb0 : b ≠ 0) by (pose proof (pool_nonnull Hpool); destruct Hb; lia).
    assert (Hcov : ∀ x, (cover (<[l:=bs]> bl) x + ind (in_blk l b x) = cover bl x)%nat).
    { intros x. pose proof (cover_insert l bl _ bs x Hbs). rewrite cover_list_cons in *. lia. }
    assert (Hs : ∃ s2 bl2, (if bool_decide (Z.of_nat req < Z.of_nat l)
        then split_blk w acc s1 b (Z.of_nat l) (Z.of_nat req) else Done s1) = Done s2
        ∧ binv s2 bl2 ∧ ∀ x, (cover bl2 x + ind (in_blk req b x) = cover bl x)%nat).
    { case_bool_decide as Hlt.
      - destruct (split_loop_spec (l - req) s1 (<[l:=bs]> bl) l b HI1 ltac:(lia) Hb) as (s2 & bl2 & Hsp & HI2 & Hc2).
        { intros x Hx. specialize (Hcov x). pose proof (binv_cover _ _ HI x). unfold ind in Hcov.
          rewrite bool_decide_true in Hcov by done. lia. }
        exists s2, bl2. split_and!; [|done|].
        + unfold split_blk. rewrite bool_decide_true by lia. simpl.
          by replace (Z.to_nat (Z.of_nat l - Z.of_nat req)) with (l - req)%nat by lia.
        + intros x. specialize (Hc2 x). specialize (Hcov x).
          replace (l - (l - req))%nat with req in Hc2 by lia. lia.
      - assert (l = req) as -> by lia. by exists s1, (<[req:=bs]> bl). }
    destruct Hs as (s2 & bl2 & -> & HI2 & Hc). simpl. exists b, s2. split; [done|].
    unfold alloc_post. rewrite bool_decide_false by done.
    split; [by apply (blk_ok_down l)|]. by exists bl2.
Qed.

Lemma alloc_from_spec s bl req : binv s bl → (req < N)%nat →
  ∃ r s', alloc_from w N acc s (Z.of_nat req) = Done (r, s') ∧ alloc_post s bl req r s'.
Proof.
  intros HI Hreq. unfold alloc_from. rewrite (binv_heads _ _ HI), Nat2Z.id.
  apply (alloc_loop_spec _ s bl req); [done|lia|done|]. intros; lia.
Qed.

(** ** Removing a block from its list *)

Lemma cover_list_split l bs1 bs2 b x :
  cover_list l (bs1 ++ b :: bs2) x = (ind (in_blk l b x) + cover_list l (bs1 ++ bs2) x)%nat.
Proof.
  unfold cover_list. rewrite !filter_app, !length_app, filter_cons. unfold ind.
  case_bool_decide; case_decide; simpl; (done || lia).
Qed.

Lemma binv_NoDup s bl l bs : binv s bl → bl !! l = Some bs → NoDup bs.
Proof.
  intros HI Hbs. assert (H : ∀ b bs1 bs2, bs = bs1 ++ b :: bs2 → b ∉ bs1 ++ bs2).
  { intros b bs1 bs2 -> Hin. pose proof (cover_insert l bl _ [] b Hbs) as Hc.
    pose proof (binv_cover _ _ HI b). rewrite cover_list_split in Hc.
    apply list_elem_of_split in Hin as (c1 & c2 & E). rewrite E, cover_list_split in Hc.
    unfold ind in Hc. rewrite bool_decide_true in Hc by apply blk_start, pool_m.
    change (cover_list l [] b) with 0%nat in Hc. lia. }
  clear Hbs. revert H. induction bs as [|b bs IH]; intros H; constructor.
  - by apply (H b [] bs).
  - apply IH. intros b' bs1 bs2 ->. specialize (H b' (b :: bs1) bs2 eq_refl). set_solver.
Qed.

Lemma binv_one_list s bl l l' bs bs' b : binv s bl → bl !! l = Some bs → bl !! l' = Some bs' →
  b ∈ bs → b ∈ bs' → l = l'.
Proof.
  intros HI Hbs Hbs' Hb Hb'. destruct (decide (l = l')) as [|Hne]; [done|]. exfalso.
  pose proof (cover_insert l bl _ [] b Hbs) as Hc. pose proof (binv_cover _ _ HI b).
  apply list_elem_of_split in Hb as (c1 & c2 & ->). rewrite cover_list_split in Hc.
  unfold ind in Hc. rewrite bool_decide_true in Hc by apply blk_start, pool_m.
  change (cover_list l [] b) with 0%nat in Hc.
  assert (1 ≤ cover (<[l := []]> bl) b)%nat; [|lia].
  apply (cover_from_ge 0 l' _ bs' b); [by rewrite list_lookup_insert_ne|done|apply blk_start, pool_m].
Qed.

Lemma lseg_remove mem p bs1 a b bs2 n : lseg mem p (bs1 ++ a :: b :: bs2) → NoDup (bs1 ++ a :: b :: bs2) →
  mem !! b = Some n → lseg (<[a := n]> mem) p (bs1 ++ a :: bs2).
Proof.
  revert p. induction bs1 as [|c bs1 IH]; intros p; simpl.
  - intros (-> & Ha0 & n1 & Hn1 & -> & Hb0 & n2 & Hn2 & Hseg) Hnd Hn. assert (n2 = n) as -> by congruence.
    split_and!; [done|done|]. exists n. rewrite lookup_insert_eq. split; [done|].
    apply lseg_insert; [done|]. apply NoDup_cons in Hnd as [Hnd _]. set_solver.
  - intros (-> & Hc0 & n1 & Hn1 & Hseg) [Hc Hnd]%NoDup_cons Hn. split_and!; [done|done|].
    exists n1. rewrite lookup_insert_ne by (intros ->; set_solver). split; [done|]. by apply IH.
Qed.

Definition last_link (lk : link) (bs : list Z) : link :=
  match last bs with Some a => Next a | None => lk end.

Lemma remove_loop_spec rest fuel s lk p b : rd_link acc s lk = Done p → lseg (mem s) p rest →
  Forall (λ b, acc b = Done b) rest → (length rest < fuel)%nat →
  (b ∉ rest ∧ remove_loop acc fuel s b lk = Done (false, s))
  ∨ ∃ r1 r2 n, rest = r1 ++ b :: r2 ∧ mem s !! b = Some n ∧ lseg (mem s) n r2
      ∧ remove_loop acc fuel s b lk = (s' ← wr_link acc s (last_link lk r1) n; Done (true, s')).
Proof.
  revert fuel lk p. induction rest as [|c rest IH]; intros [|fuel] lk p Hrd Hseg Hacc Hfuel;
    simpl in Hfuel; try lia; simpl; rewrite Hrd; simpl.
  - simpl in Hseg. subst p. left. split; [set_solver|done].
  - destruct Hseg as (-> & Hc0 & n & Hn & Hseg). apply Forall_cons in Hacc as [Hc Hacc].
    rewrite (bool_decide_false (c = 0)) by done. destruct (decide (c = b)) as [->|Hne].
    + right. exists [], rest, n. rewrite bool_decide_true by done. rewrite Hc. simpl. by rewrite Hn.
    + rewrite bool_decide_false by done.
      destruct (IH fuel (Next c) n) as [[Hnin Heq]|(r1 & r2 & n' & -> & Hn' & Hseg' & Heq)];
        [simpl; rewrite Hc; simpl; by rewrite Hn|done|done|lia|left|right].
      * split; [set_solver|done].
      * exists (c :: r1), r2, n'. split_and!; [done|done|done|]. rewrite Heq. f_equal.
        unfold last_link. rewrite last_cons. by destruct (last r1).
Qed.

Lemma remove_blk_spec fuel s bl l bs b : binv s bl → bl !! l = Some bs → l ≠ (N - 1)%nat →
  (length bs < fuel)%nat →
  (b ∉ bs ∧ remove_blk acc fuel s b (Z.of_nat l) = Done (false, s))
  ∨ ∃ bs1 bs2 s', bs = bs1 ++ b :: bs2 ∧ remove_blk acc fuel s b (Z.of_nat l) = Done (true, s')
      ∧ binv s' (<[l := bs1 ++ bs2]> bl).
Proof.
  intros HI Hbs Hne Hfuel. assert (Hl : (l < N)%nat).
  { rewrite <- (binv_levels _ _ HI). by eapply lookup_lt_Some. }
  destruct (binv_level s bl l HI Hl) as (bs1 & h & Hbs1 & Hh & Hhead). simplify_eq.
  pose proof (binv_list _ _ HI _ _ _ Hbs Hh) as Hseg. rewrite bool_decide_false in Hseg by done.
  pose proof (binv_NoDup s bl l bs HI Hbs) as Hnd.
  assert (Hblk : ∀ b, b ∈ bs → acc b = Done b) by (intros; by eapply blk_acc, binv_blk).
  destruct (remove_loop_spec bs fuel s (Head (Z.of_nat l)) h b Hhead Hseg) as
    [?|(r1 & r2 & n & -> & Hn & Hseg2 & Heq)]; [by apply Forall_forall|done|by left|right].
  exists r1, r2. unfold remove_blk. rewrite Heq.
  assert (Hcl : ∀ x, (cover_list l (r1 ++ r2) x ≤ cover_list l (r1 ++ b :: r2) x)%nat)
    by (intros; rewrite cover_list_split; lia).
  destruct r1 as [|a r1 _] using rev_ind; unfold last_link.
  - simpl. rewrite Nat2Z.id. eexists. split_and!; [done|done|].
    apply (binv_shrink s bl l (b :: r2)); [done|done| |set_solver|done]. by rewrite bool_decide_false.
  - rewrite last_snoc. simpl. rewrite Hblk by set_solver. simpl. eexists. split_and!; [done|done|].
    rewrite <- app_assoc in *. simpl in *.
    split; simpl; try apply HI.
    + rewrite length_insert. apply HI.
    + intros l' bs' h' Hbs' Hh'. destruct (decide (l' = l)) as [->|Hnl].
      * rewrite list_lookup_insert_eq in Hbs' by (rewrite (binv_levels _ _ HI); lia). simplify_eq.
        rewrite bool_decide_false by done. by apply (lseg_remove _ _ _ _ b).
      * rewrite list_lookup_insert_ne in Hbs' by done.
        pose proof (binv_list _ _ HI _ _ _ Hbs' Hh') as Hlist. case_bool_decide; [done|].
        apply lseg_insert; [done|]. intros Ha. apply Hnl.
        apply (binv_one_list s bl l' l bs' _ a HI Hbs' Hbs Ha). set_solver.
    + intros l' bs' b' Hbs' Hb'. destruct (decide (l' = l)) as [->|Hnl].
      * rewrite list_lookup_insert_eq in Hbs' by (rewrite (binv_levels _ _ HI); lia). simplify_eq.
        apply (binv_blk _ _ HI _ _ _ Hbs). set_solver.
      * rewrite list_lookup_insert_ne in Hbs' by done. by apply (binv_blk _ _ HI _ _ _ Hbs').
    + intros x. pose proof (binv_cover _ _ HI x).
      pose proof (cover_insert l bl _ (r1 ++ a :: r2) x Hbs). specialize (Hcl x).
      rewrite <- !app_assoc in Hcl. simpl in Hcl. lia.
Qed.

(** ** Freeing a block *)

(** What [remove_blk] has to do for [deallocate] to be correct: find the block in
    the list of its level and take it out. *)
Definition remove_ok (remove : bst → Z → Z → outcome (bool * bst)) : Prop :=
  ∀ s bl l bs b, binv s bl → bl !! l = Some bs → l ≠ (N - 1)%nat →
  (b ∉ bs ∧ remove s b (Z.of_nat l) = Done (false, s))
  ∨ ∃ bs1 bs2 s', bs = bs1 ++ b :: bs2 ∧ remove s b (Z.of_nat l) = Done (true, s')
      ∧ binv s' (<[l := bs1 ++ bs2]> bl).

Lemma ind_1 P `{Decision P} : P → ind P = 1%nat.
Proof. intros. unfold ind. by rewrite bool_decide_true. Qed.
Lemma ind_0 P `{Decision P} : ¬ P → ind P = 0%nat.
Proof. intros. unfold ind. by rewrite bool_decide_false. Qed.

Lemma dealloc_loop_spec remove n s bl l b : remove_ok remove → binv s bl →
  (l < N)%nat → n = (N - l)%nat → blk_ok l b → (∀ x, in_blk l b x → cover bl x = 0%nat) →
  ∃ s' bl', dealloc_loop w acc remove n s b (Z.of_nat l) = Done s' ∧ binv s' bl'
    ∧ ∀ x, cover bl' x = (cover bl x + ind (in_blk l b x))%nat.
Proof.
  intros Hrem. revert s bl l b. induction n as [|n IH]; intros s bl l b HI Hl Hn Hb Hfree; [lia|].
  simpl. rewrite (buddy_spec s bl) by done. simpl.
  destruct (binv_level s bl l HI Hl) as (bs & h & Hbs & _ & _).
  assert (Hpush : ∃ s' bl', free_blk acc s b (Z.of_nat l) = Done s' ∧ binv s' bl'
    ∧ ∀ x, cover bl' x = (cover bl x + ind (in_blk l b x))%nat).
  { destruct (free_blk_spec s bl l bs b HI Hbs Hb Hfree) as (s' & ? & ?).
    exists s', (<[l := b :: bs]> bl). split_and!; [done|done|]. intros x. by apply cover_push. }
  destruct (decide (l = (N - 1)%nat)) as [Htop|Hne].
  { rewrite bool_decide_true by done. by simpl. }
  rewrite bool_decide_false by done.
  destruct (Hrem s bl l bs (buddy_of l b) HI Hbs Hne) as
    [[_ ->]|(bs1 & bs2 & s1 & -> & -> & HI1)]; simpl; [done|].
  destruct (buddy_merge l b ltac:(lia) Hb) as (_ & Hmb & Hind).
  assert (Hcov : ∀ x, (cover (<[l:=bs1 ++ bs2]> bl) x + ind (in_blk l (buddy_of l b) x) = cover bl x)%nat).
  { intros x. pose proof (cover_insert l bl _ (bs1 ++ bs2) x Hbs). rewrite cover_list_split in *. lia. }
  replace (Z.of_nat l + 1) with (Z.of_nat (S l)) by lia.
  destruct (IH s1 _ (S l) _ HI1 ltac:(lia) ltac:(lia) Hmb) as (s2 & bl2 & -> & HI2 & Hc2).
  - intros x Hx. specialize (Hcov x). specialize (Hind x). rewrite (ind_1 _ Hx) in Hind.
    pose proof (binv_cover _ _ HI x). destruct (decide (in_blk l b x)) as [Hxb|Hxb].
    + rewrite (Hfree x Hxb) in Hcov. lia.
    + rewrite (ind_0 _ Hxb) in Hind. lia.
  - exists s2, bl2. split_and!; [done|done|]. intros x. rewrite Hc2.
    specialize (Hcov x). specialize (Hind x). lia.
Qed.

(** The free list of a level is no longer than the pool has smallest blocks. *)
Lemma free_list_length s bl l bs : binv s bl → bl !! l = Some bs → (length bs ≤ 2 ^ (N - 1))%nat.
Proof.
  intros HI Hbs. pose proof (binv_NoDup s bl l bs HI Hbs) as Hnd.
  assert (Hl : (l < N)%nat) by (rewrite <- (binv_levels _ _ HI); by eapply lookup_lt_Some).
  pose proof pool_m as Hm. pose proof (pow2_pos m Hm) as Hp.
  assert (Hsz : pool_size = 2 ^ m * 2 ^ Z.of_nat (N - 1)).
  { unfold pool_size, sz. apply Z.pow_add_r; lia. }
  set (f := λ b : Z, (b - base) / 2 ^ m).
  assert (Hmul : ∀ b, b ∈ bs → b = base + f b * 2 ^ m).
  { intros b Hb. destruct (binv_blk _ _ HI _ _ _ Hbs Hb) as (_ & _ & Hb0).
    apply (mod_sz_le 0) in Hb0; [|done|lia]. pose proof (pool_mod 0 ltac:(pose proof (pool_levels Hpool); lia)) as HB.
    unfold sz in Hb0, HB. rewrite Z.add_0_r in Hb0, HB. unfold f.
    assert ((b - base) mod 2 ^ m = 0) by (rewrite Zminus_mod, Hb0, HB; apply Z.mod_0_l; lia).
    pose proof (Z.div_mod (b - base) (2 ^ m) ltac:(lia)). lia. }
  assert (Hinc : f <$> bs ⊆ seqZ 0 (2 ^ Z.of_nat (N - 1))).
  { intros y Hy. apply list_elem_of_fmap in Hy as (b & -> & Hb). apply elem_of_seqZ.
    pose proof (Hmul b Hb). destruct (binv_blk _ _ HI _ _ _ Hbs Hb) as (? & ? & _).
    pose proof (sz_pos l Hm). split; nia. }
  assert (Hndf : NoDup (f <$> bs)).
  { apply NoDup_fmap_2_strong; [|done]. intros x y Hx Hy E. rewrite (Hmul x Hx), (Hmul y Hy), E. done. }
  pose proof (submseteq_length _ _ (NoDup_submseteq _ _ Hndf Hinc)) as Hlen.
  rewrite length_fmap, length_seqZ in Hlen.
  assert (Z.to_nat (2 ^ Z.of_nat (N - 1)) = (2 ^ (N - 1))%nat) as <-; [|done].
  rewrite <- (Nat2Z.id (2 ^ (N - 1))). f_equal. by rewrite Nat2Z.inj_pow.
Qed.

Lemma remove_blk_ok fuel : (2 ^ (N - 1) < fuel)%nat → remove_ok (remove_blk acc fuel).
Proof.
  intros Hf s bl l bs b HI Hbs Hne. apply remove_blk_spec; [done..|].
  pose proof (free_list_length s bl l bs HI Hbs). lia.
Qed.

(** ** Levels *)

Lemma log2_loop_spec fuel a power : 0 ≤ a < 2 ^ Z.of_nat fuel →
  log2_loop (S fuel) a power = Done (power + if bool_decide (a = 0) then 0 else Z.log2 a + 1).
Proof.
  revert a power. induction fuel as [|fuel IH]; intros a power Ha.
  - simpl in Ha. change (2 ^ 0) with 1 in Ha. assert (a = 0) as -> by lia. simpl. f_equal. lia.
  - change (log2_loop (S (S fuel)) a power) with
      (if bool_decide (a = 0) then Done power else log2_loop (S fuel) (Z.shiftr a 1) (power + 1)).
    case_bool_decide as H0; [f_equal; lia|]. rewrite Nat2Z.inj_succ, Z.pow_succ_r in Ha by lia.
    rewrite Z.shiftr_div_pow2 by lia. change (2 ^ 1) with 2.
    rewrite IH by (split; [apply Z.div_pos; lia|apply Z.div_lt_upper_bound; lia]). f_equal.
    case_bool_decide as Hd.
    + assert (a = 1) as ->; [|simpl; lia]. pose proof (Z.div_mod a 2 ltac:(lia)). pose proof (Z.mod_pos_bound a 2 ltac:(lia)). lia.
    + rewrite <- Z.div2_div in *.
      assert (Z.log2 a = Z.succ (Z.log2 (Z.div2 a))); [|lia].
      assert (0 < Z.div2 a) by (pose proof (proj2 (Z.div2_nonneg a)); lia). rewrite (Z.div2_odd a) at 1. destruct (Z.odd a); simpl Z.b2z.
      * by apply Z.log2_succ_double.
      * rewrite Z.add_0_r. by apply Z.log2_double.
Qed.

Lemma log2_spec a : 0 < a < 2 ^ w → log2 w a = Done (Z.log2 a + 1).
Proof.
  intros Ha. pose proof (pool_w Hpool). unfold log2. rewrite log2_loop_spec by (rewrite Z2Nat.id; lia).
  rewrite bool_decide_false by lia. done.
Qed.

(** The level of a request: the smallest whose blocks hold [n] bytes. *)
Definition level_of (n : Z) : nat := Z.to_nat (Z.log2_up (Z.max n (2 ^ m)) - m).

Lemma level_of_spec n : n ≤ pool_size →
  (level_of n < N)%nat ∧ n ≤ sz (level_of n) ∧ (∀ l, n ≤ sz l → (level_of n ≤ l)%nat)
  ∧ (l ← log2 w (next_power_of_two w (Z.max n (2 ^ m))); Done (u8 (wrap w (l - (m + 1))))) = Done (Z.of_nat (level_of n)).
Proof.
  intros Hn. pose proof (pool_min Hpool). pose proof (pool_width Hpool). pose proof (pool_w Hpool).
  pose proof (pool_levels Hpool). pose proof (pow2_pos m pool_m) as Hp.
  assert (Hmx : Z.max n (2 ^ m) ≤ pool_size).
  { unfold pool_size, sz in *. assert (2 ^ m ≤ 2 ^ (m + Z.of_nat (N - 1))) by (apply Z.pow_le_mono_r; lia). lia. }
  assert (H2m : 2 ^ m ≤ Z.max n (2 ^ m)) by lia. unfold level_of. set (k := Z.max n (2 ^ m)) in *.
  assert (Hlm : m ≤ Z.log2_up k).
  { rewrite <- (Z.log2_up_pow2 m) by lia. by apply Z.log2_up_le_mono. }
  assert (Hlu : Z.log2_up k ≤ m + Z.of_nat (N - 1)).
  { rewrite <- (Z.log2_up_pow2 (m + Z.of_nat (N - 1))) by lia. by apply Z.log2_up_le_mono. }
  assert (1 < k). { assert (2 ^ 3 ≤ 2 ^ m) by (apply Z.pow_le_mono_r; lia). lia. }
  split_and!.
  - lia.
  - unfold sz. rewrite Z2Nat.id by lia. replace (m + (Z.log2_up k - m)) with (Z.log2_up k) by lia.
    pose proof (Z.log2_up_spec k ltac:(lia)). lia.
  - intros l Hl. assert (k ≤ sz l).
    { apply Z.max_lub; [done|]. unfold sz. apply Z.pow_le_mono_r; lia. }
    assert (Z.log2_up k ≤ m + Z.of_nat l); [|lia].
    rewrite <- (Z.log2_up_pow2 (m + Z.of_nat l)) by lia. by apply Z.log2_up_le_mono.
  - unfold next_power_of_two. rewrite bool_decide_false by lia.
    assert (Hpw : 0 < 2 ^ Z.log2_up k < 2 ^ w) by (split; [apply pow2_pos; lia|apply Z.pow_lt_mono_r; lia]).
    rewrite wrap_id by (unfold in_width; lia). rewrite log2_spec by done. simpl.
    rewrite Z.log2_pow2, Z2Nat.id by lia.
    replace (Z.log2_up k + 1 - (m + 1)) with (Z.log2_up k - m) by lia. f_equal.
    assert (64 < 2 ^ 8) by done. assert (Z.log2_up k - m < 2 ^ w).
    { assert (w < 2 ^ w) by (apply Z.pow_gt_lin_r; lia). lia. }
    unfold u8. rewrite (wrap_id w) by (unfold in_width; lia). apply wrap_id. unfold in_width. lia.
Qed.

(** ** The bootloader heap *)

Context (Hheap : MIN_HEAP_ALIGN ≤ pool_size).

Definition layout_ok (size align : Z) : Prop :=
  0 ≤ size < pool_size ∧ is_power_of_two align = true ∧ align < MIN_HEAP_ALIGN.
Definition layout_level (size align : Z) : nat := level_of (Z.max size align).

Lemma allocation_level_spec s bl size align : binv s bl → layout_ok size align →
  allocation_level w s size align = Done (Z.of_nat (layout_level size align)).
Proof.
  intros HI (Hs & Ha & Hal). unfold allocation_level.
  rewrite (binv_max _ _ HI), (binv_min _ _ HI), (binv_log _ _ HI), Ha.
  rewrite !bool_decide_true by lia. simpl. unfold layout_level.
  by apply level_of_spec; lia.
Qed.

Lemma layout_level_spec size align : layout_ok size align →
  (layout_level size align < N)%nat ∧ Z.max size align ≤ sz (layout_level size align).
Proof. intros (Hs & Ha & Hal). by destruct (level_of_spec (Z.max size align)) as (? & ? & _); [lia|]. Qed.

Lemma pow2_divide a b : 0 ≤ a ≤ b → (2 ^ a | 2 ^ b).
Proof. intros. exists (2 ^ (b - a)). rewrite <- Z.pow_add_r by lia. f_equal. lia. Qed.

Lemma blk_aligned size align b : layout_ok size align → blk_ok (layout_level size align) b → b mod align = 0.
Proof.
  intros Hl (_ & _ & Hb). destruct (layout_level_spec size align Hl) as [_ Hsz].
  destruct Hl as (_ & Hp & _). unfold is_power_of_two in Hp. apply bool_decide_eq_true in Hp as [Hpos Hp].
  set (l := layout_level size align) in *. pose proof (sz_pos l pool_m) as Hsp.
  apply Z.mod_divide; [lia|]. apply Z.mod_divide in Hb; [|lia]. eapply Z.divide_trans; [|done].
  pose proof (Z.log2_nonneg align) as Hn. unfold sz in *. rewrite Hp. apply pow2_divide. split; [done|].
  apply (Z.pow_le_mono_r_iff 2); [lia|pose proof pool_m; lia|]. rewrite <- Hp. lia.
Qed.

(** The allocations a client holds, as (address, size, alignment), and how many
    of them contain an address. *)
Definition live_cover (live : list (Z * Z * Z)) (x : Z) : nat :=
  length (filter (λ a : Z * Z * Z, in_blk (layout_level a.1.2 a.2) a.1.1 x) live).
Definition in_pool (x : Z) : Prop := base ≤ x < base + pool_size.
#[global] Instance in_pool_dec x : Decision (in_pool x).
Proof. unfold in_pool. apply _. Defined.

Record hinv (s : bst) (live : list (Z * Z * Z)) : Prop := {
  hinv_free : ∃ bl, binv s bl
    ∧ ∀ x, (cover bl x + live_cover live x = ind (in_pool x))%nat;
  hinv_live b size align : (b, size, align) ∈ live →
    layout_ok size align ∧ blk_ok (layout_level size align) b
}.

(** The calls a client makes: allocations, and deallocations of what it holds. *)
Inductive hstep (fuel : nat) : bst * list (Z * Z * Z) → bst * list (Z * Z * Z) → Prop :=
  | hstep_alloc s live size align r s' :
      layout_ok size align → allocate w N acc s size align = Done (r, s') → r ≠ 0 →
      hstep fuel (s, live) (s', (r, size, align) :: live)
  | hstep_full s live size align s' :
      layout_ok size align → allocate w N acc s size align = Done (0, s') →
      hstep fuel (s, live) (s', live)
  | hstep_free s live1 live2 b size align s' :
      deallocate w acc fuel s b size align = Done s' →
      hstep fuel (s, live1 ++ (b, size, align) :: live2) (s', live1 ++ live2).

Lemma live_cover_cons a live x :
  live_cover (a :: live) x = (ind (in_blk (layout_level a.1.2 a.2) a.1.1 x) + live_cover live x)%nat.
Proof. unfold live_cover, ind. rewrite filter_cons. case_bool_decide; by case_decide. Qed.

Lemma live_cover_split live1 a live2 x :
  live_cover (live1 ++ a :: live2) x
  = (ind (in_blk (layout_level a.1.2 a.2) a.1.1 x) + live_cover (live1 ++ live2) x)%nat.
Proof.
  unfold live_cover, ind. rewrite !filter_app, !length_app, filter_cons.
  case_bool_decide; case_decide; simpl; (done || lia).
Qed.

Lemma ind_0_or_1 P `{Decision P} : ind P = 0%nat ∨ ind P = 1%nat.
Proof. unfold ind. case_bool_decide; auto. Qed.

Lemma hinv_allocate s live size align : hinv s live → layout_ok size align →
  ∃ r s', allocate w N acc s size align = Done (r, s')
    ∧ (r = 0 → s' = s) ∧ (r ≠ 0 → hinv s' ((r, size, align) :: live)).
Proof.
  intros [(bl & HI & Hcov) Hlive] Hlay. destruct (layout_level_spec _ _ Hlay) as [Hl Hsz].
  unfold allocate. rewrite (allocation_level_spec s bl) by done. simpl.
  destruct (alloc_from_spec s bl _ HI Hl) as (r & s' & -> & Hpost). exists r, s'.
  unfold alloc_post in Hpost. split; [done|]. case_bool_decide as Hr.
  { by destruct Hpost as [-> _]. }
  split; [done|]. intros _. destruct Hpost as (Hb & bl' & HI' & Hc). split.
  - exists bl'. split; [done|]. intros x. specialize (Hcov x). specialize (Hc x).
    rewrite live_cover_cons. simpl. unfold layout_level in *. lia.
  - intros b sz' al [?|?]%elem_of_cons; [by simplify_eq|by apply Hlive].
Qed.

Lemma hinv_deallocate fuel s live1 live2 b size align : (2 ^ (N - 1) < fuel)%nat →
  hinv s (live1 ++ (b, size, align) :: live2) →
  ∃ s', deallocate w acc fuel s b size align = Done s' ∧ hinv s' (live1 ++ live2).
Proof.
  intros Hf [(bl & HI & Hcov) Hlive].
  destruct (Hlive b size align ltac:(set_solver)) as [Hlay Hb].
  destruct (layout_level_spec _ _ Hlay) as [Hl Hsz].
  unfold deallocate. rewrite (allocation_level_spec s bl) by done. simpl.
  rewrite (binv_heads _ _ HI), Nat2Z.id.
  destruct (dealloc_loop_spec (remove_blk acc fuel) _ s bl _ b (remove_blk_ok fuel Hf) HI Hl eq_refl Hb)
    as (s' & bl' & -> & HI' & Hc).
  { intros x Hx. specialize (Hcov x). rewrite live_cover_split in Hcov. simpl in Hcov.
    rewrite (ind_1 _ Hx) in Hcov. destruct (ind_0_or_1 (in_pool x)); lia. }
  exists s'. split; [done|]. split.
  - exists bl'. split; [done|]. intros x. specialize (Hcov x). specialize (Hc x).
    rewrite live_cover_split in Hcov. simpl in Hcov. lia.
  - intros b' s1 a1 Hin. apply Hlive. set_solver.
Qed.

Lemma hstep_hinv fuel c c' : (2 ^ (N - 1) < fuel)%nat →
  hstep fuel c c' → hinv c.1 c.2 → hinv c'.1 c'.2.
Proof.
  intros Hf Hstep. destruct Hstep; simpl; intros HI.
  - destruct (hinv_allocate _ _ size align HI ltac:(done)) as (r1 & s1 & Heq & _ & Hok).
    assert (r1 = r ∧ s1 = s') as [-> ->] by (split; congruence). by apply Hok.
  - destruct (hinv_allocate _ _ size align HI ltac:(done)) as (r1 & s1 & Heq & Hok & _).
    assert (r1 = 0 ∧ s1 = s') as [-> ->] by (split; congruence). by rewrite Hok.
  - destruct (hinv_deallocate fuel _ _ _ _ _ _ Hf HI) as (s1 & Heq & Hok).
    by assert (s1 = s') as -> by congruence.
Qed.

(** The heap of a pool, everything free. *)
Lemma cover_init x : cover (replicate (N - 1) [] ++ [[base]]) x = ind (in_pool x).
Proof.
  unfold cover. assert (Hc : ∀ n l, cover_from l (replicate n [] ++ [[base]]) x = cover_list (l + n) [base] x).
  { induction n as [|n IH]; intros l; simpl; [by rewrite !Nat.add_0_r|].
        replace (l + S n)%nat with (S l + n)%nat by lia. apply (IH (S l)). }
  rewrite Hc, cover_list_cons. rewrite Nat.add_0_l. change (cover_list (N - 1) [] x) with 0%nat.
  rewrite Nat.add_0_r. unfold ind. repeat case_bool_decide; unfold in_blk, in_pool, pool_size in *; lia.
Qed.

Lemma insert_last_replicate {A} n (a b : A) : (1 ≤ n)%nat →
  <[(n - 1)%nat := b]> (replicate n a) = replicate (n - 1) a ++ [b].
Proof.
  intros Hn. destruct n as [|n]; [lia|]. simpl Nat.sub. rewrite Nat.sub_0_r. clear Hn.
  induction n as [|n IH]; simpl in *; [done|]. by rewrite <- IH.
Qed.

Lemma lookup_replicate_snoc {A} n (a b : A) l x : (replicate n a ++ [b]) !! l = Some x →
  (l = n ∧ x = b) ∨ ((l < n)%nat ∧ x = a).
Proof.
  intros [Hl|[Hl Hx]]%lookup_app_Some.
  - right. by apply lookup_replicate in Hl as [-> ?].
  - left. rewrite length_replicate in *. destruct (l - n)%nat eqn:E; simpl in Hx; [|done].
    split; [lia|congruence].
Qed.

Lemma from_base_ok : ∃ a, from_base_unchecked w N base pool_size = Done a
  ∧ ∀ mem, binv {| ba := a; mem := mem |} (replicate (N - 1) [] ++ [[base]]).
Proof.
  pose proof (pool_levels Hpool) as HN. pose proof (pool_width Hpool). pose proof (pool_min Hpool).
  assert (Hmin : Z.shiftr pool_size (Z.of_nat (N - 1)) = 2 ^ m).
  { unfold pool_size, sz. rewrite Z.shiftr_div_pow2, Z.pow_add_r, Z.div_mul by (try apply Z.pow_nonzero; lia). done. }
  unfold from_base_unchecked. rewrite Hmin, insert_last_replicate by done. rewrite log2_spec.
  2:{ split; [apply pow2_pos; lia|apply Z.pow_lt_mono_r; lia]. }
  rewrite Z.log2_pow2 by lia. simpl. eexists. split; [done|]. intros mem.
  split; simpl; try done.
  - rewrite length_app, length_replicate. simpl. lia.
  - rewrite length_app, length_replicate. simpl. lia.
  - intros l bs h Hbs Hh. apply lookup_replicate_snoc in Hbs, Hh.
    case_bool_decide as Hl; [|destruct Hbs as [[? _]|[_ ->]], Hh as [[? _]|[_ ->]]; try lia; done].
    right. destruct Hbs as [[_ ->]|[? _]]; [|lia]. destruct Hh as [[_ ->]|[? _]]; [done|lia].
  - intros l bs b Hbs Hb. apply lookup_replicate_snoc in Hbs as [[-> ->]|[_ ->]].
    + apply list_elem_of_singleton in Hb as ->. split_and!; [done|done|apply Hpool].
    + by apply elem_of_nil in Hb.
  - intros x. rewrite cover_init. destruct (ind_0_or_1 (in_pool x)); lia.
Qed.

(** C3: after any sequence of allocations and deallocations of a bootloader heap
    that starts with its whole pool free, the blocks the client holds lie in the
    pool, hold the requested size at the requested alignment, and do not
    overlap one another; and every further call returns: an allocation gives a
    null pointer or a block, a deallocation of a held block succeeds. *)
Theorem heap_blocks_disjoint fuel a mem s live : (2 ^ (N - 1) < fuel)%nat →
  new w N base pool_size = Done a →
  rtc (hstep fuel) ({| ba := a; mem := mem |}, []) (s, live) →
  (∀ b size align, (b, size, align) ∈ live → base ≤ b ∧ b + size ≤ base + pool_size ∧ b mod align = 0)
  ∧ (∀ i j b size align b' size' align', i ≠ j →
       live !! i = Some (b, size, align) → live !! j = Some (b', size', align') →
       b + size ≤ b' ∨ b' + size' ≤ b ∨ size = 0 ∨ size' = 0)
  ∧ (∀ size align, layout_ok size align → ∃ r s', allocate w N acc s size align = Done (r, s'))
  ∧ (∀ b size align, (b, size, align) ∈ live → ∃ s', deallocate w acc fuel s b size align = Done s').
Proof.
  intros Hf Hnew Hsteps.
  assert (HI : hinv s live).
  { destruct from_base_ok as (a' & Ha' & HI).
    assert (Hfb : from_base_unchecked w N base pool_size = Done a) by (unfold new in Hnew; inv_done; done).
    assert (a' = a) as -> by congruence.
    assert (Hstart : hinv {| ba := a; mem := mem |} []).
    { split; [|by intros ??? ?%elem_of_nil]. eexists. split; [apply HI|]. intros x.
      rewrite cover_init. change (live_cover [] x) with 0%nat. lia. }
    revert Hstart. clear Ha' HI. remember ({| ba := a; mem := mem |}, [] : list (Z * Z * Z)) as c0.
    remember (s, live) as c1.
    assert (Hgen : ∀ c c', rtc (hstep fuel) c c' → hinv c.1 c.2 → hinv c'.1 c'.2).
    { induction 1 as [|c c' c'' Hstep _ IH]; [done|]. intros Hc. apply IH. by eapply hstep_hinv. }
    specialize (Hgen c0 c1 Hsteps). by subst. }
  split_and!.
  - intros b size align Hin. destruct (hinv_live _ _ HI _ _ _ Hin) as [Hlay Hb].
    destruct (layout_level_spec _ _ Hlay) as [_ Hsz]. pose proof (blk_aligned _ _ _ Hlay Hb).
    destruct Hb as (? & ? & _). lia.
  - intros i j b size align b' size' align' Hij Hi Hj.
    destruct (hinv_live _ _ HI b size align) as [Hlay Hb]; [by eapply list_elem_of_lookup_2|].
    destruct (hinv_live _ _ HI b' size' align') as [Hlay' Hb']; [by eapply list_elem_of_lookup_2|].
    destruct (layout_level_spec _ _ Hlay) as [_ Hsz]. destruct (layout_level_spec _ _ Hlay') as [_ Hsz'].
    destruct (decide (b + size ≤ b')) as [|H1]; [by left|]. destruct (decide (b' + size' ≤ b)) as [|H2]; [by right; left|].
    destruct (decide (size = 0)) as [|H3]; [by auto|]. destruct (decide (size' = 0)) as [|H4]; [by auto|].
    exfalso. destruct (hinv_free _ _ HI) as (bl & _ & Hcov). specialize (Hcov (Z.max b b')).
    assert (0 ≤ size ∧ 0 ≤ size') by (split; [apply Hlay|apply Hlay']).
    assert (2 ≤ live_cover live (Z.max b b'))%nat; [|destruct (ind_0_or_1 (in_pool (Z.max b b'))); lia].
    apply take_drop_middle in Hi as Hsp. rewrite <- Hsp, live_cover_split. simpl.
    rewrite ind_1 by (unfold in_blk; lia).
    assert (Hj' : (b', size', align') ∈ take i live ++ drop (S i) live).
    { destruct (decide (j < i)%nat).
      - apply elem_of_app. left. apply (list_elem_of_lookup_2 _ j). by rewrite lookup_take_lt.
      - apply elem_of_app. right. apply (list_elem_of_lookup_2 _ (j - S i)). rewrite lookup_drop.
        by replace (S i + (j - S i))%nat with j by lia. }
    apply list_elem_of_split in Hj' as (l1 & l2 & ->). rewrite live_cover_split. simpl.
    rewrite ind_1 by (unfold in_blk; lia). lia.
  - intros size align Hlay. destruct (hinv_allocate s live size align HI Hlay) as (r & s' & ? & _). eauto.
  - intros b size align Hin. apply list_elem_of_split in Hin as (l1 & l2 & ->).
    destruct (hinv_deallocate fuel s l1 l2 b size align Hf HI) as (s' & ? & _). eauto.
Qed.
End pool.

(** ** A concrete heap: 14 levels of blocks from 128 bytes to 1 MB *)

Lemma pool_ok_example : pool_ok 32 14 Done 0x10_0000 7.
Proof. split; [lia|lia|lia|lia|reflexivity|lia|by vm_compute|done]. Qed.

Definition heap_example : BuddyAllocator :=
  {| base_addr := 0x10_0000; max_blk_size := 0x10_0000; min_blk_size := 128; log2_min_blk_size := 8;
     free_lists := replicate 13 0 ++ [0x10_0000] |}.

Lemma heap_example_steps :
  ∃ s, rtc (hstep 32 14 Done 7 (S (2 ^ 13)))
    ({| ba := heap_example; mem := ∅ |}, []) (s, [(0x10_0080, 8, 4); (0x10_0000, 100, 8)]).
Proof.
  eexists. eapply rtc_l; [|eapply rtc_once].
  - apply (hstep_alloc _ _ _ _ _ _ _ 100 8 0x10_0000); by vm_compute.
  - apply (hstep_alloc _ _ _ _ _ _ _ 8 4 0x10_0080); by vm_compute.
Qed.

Lemma heap_blocks_disjoint_witness :
  new 32 14 0x10_0000 0x10_0000 = Done heap_example
  ∧ ∃ s r s', allocate 32 14 Done s 64 16 = Done (r, s').
Proof.
  split; [by vm_compute|]. destruct heap_example_steps as [s Hs].
  destruct (heap_blocks_disjoint 32 14 Done 0x10_0000 7 pool_ok_example ltac:(by vm_compute)
    (S (2 ^ 13)) heap_example ∅ s _ ltac:(apply Nat.lt_succ_diag_r) ltac:(by vm_compute) Hs) as (_ & _ & Ha & _).
  exists s. apply Ha. by vm_compute.
Defined.
