(* ===== verification/FrameAlloc.v ===== *)
(** The physical frame allocator
    (src/x86/paging/page_alloc/frame_alloc.rs) and the memory map it is
    initialised from (src/mem/e820.rs).  It is the buddy allocator of Buddy.v over
    64-bit pointers, with 18 levels of blocks from 4 KB to 512 MB, whose block
    headers are written through the kernel's mapping of physical memory. *)

From S2P Require Import Prelude Addr Frames Paging Buddy.

(** * The memory map *)

Inductive E820MemType := RAM | RESERVED | ACPI | NVS | UNUSABLE | DISABLED | PERSISTENT | OEM.
#[global] Instance E820MemType_eq_dec : EqDecision E820MemType.
Proof. solve_decision. Defined.

Record AddressRangeDescriptor := {
  base_addr_low : Z; base_addr_high : Z; length_low : Z; length_high : Z;
  addr_type : E820MemType; extended_attributes : Z
}.
Definition ard_default : AddressRangeDescriptor :=
  {| base_addr_low := 0; base_addr_high := 0; length_low := 0; length_high := 0;
     addr_type := RAM; extended_attributes := 0 |}.
Definition ard_length (d : AddressRangeDescriptor) : Z :=
  Z.lor (Z.shiftl (length_high d) 32) (length_low d).
Definition ard_base_addr (d : AddressRangeDescriptor) : Z :=
  Z.lor (Z.shiftl (base_addr_high d) 32) (base_addr_low d).

(** The iterator: [map_len] is the number of entries stored before the map,
    [rd] the descriptor read at an index of it. *)
Definition E820_next (map_len : Z) (rd : Z → option AddressRangeDescriptor) (cursor : Z)
    : outcome (option AddressRangeDescriptor * Z) :=
  rust_assert (bool_decide (map_len ≠ 0));;
  if bool_decide (map_len ≤ cursor) then Done (None, 0)
  else ard ← deref (rd cursor); Done (Some ard, u32 (cursor + 1)).

(** [for entry in memory_map { .. }] of [init_phys_memory_pool]. *)
Fixpoint largest_loop (fuel : nat) (map_len : Z) (rd : Z → option AddressRangeDescriptor)
    (cursor : Z) (largest : AddressRangeDescriptor) : outcome AddressRangeDescriptor :=
  match fuel with
  | O => NoFuel
  | S fuel =>
      '(e, cursor) ← E820_next map_len rd cursor;
      match e with
      | None => Done largest
      | Some entry =>
          largest_loop fuel map_len rd cursor
            (if bool_decide (addr_type entry = RAM) && bool_decide (ard_length largest < ard_length entry)
             then entry else largest)
      end
  end.

Definition KERNEL_LOAD_ADDR : Z := PhyAddr_new 0x800_000.
Definition KERNEL_SECTOR_SZ : Z := 0x20 * 0x100.
Definition MAX_PHYSICAL_MEM_BLK_SIZE : Z := 0x20000000.

(** The address [init_phys_memory_pool] gives to the allocator. *)
Definition segment_base (largest : AddressRangeDescriptor) : Z :=
  let base := ard_base_addr largest in
  if bool_decide (base < KERNEL_LOAD_ADDR)
     && bool_decide (KERNEL_LOAD_ADDR < PhyAddr_add_u64 base (ard_length largest))
  then PhyAddr_add_usize KERNEL_LOAD_ADDR (KERNEL_SECTOR_SZ * 0x200)
  else base.

(** * The allocator *)

Section frame_alloc.
(** The processor's translation of the pointers the allocator uses, and
    [self.mapping]. *)
Context (mmu : Z → option Z) (mapping : Z) (N : nat).

(** [self.mapping.convert(PhyAddr::from(block)).as_mut_ptr()]. *)
Definition frame_acc (block : Z) : outcome Z := deref (mmu (table_ptr mapping block)).

Definition Frame_from_base_unchecked (base max_blk : Z) : outcome BuddyAllocator :=
  from_base_unchecked 64 N base max_blk.
Definition Frame_new (base max_blk : Z) : outcome BuddyAllocator :=
  rust_assert (bool_decide (Z.shiftr max_blk (Z.of_nat (N - 1)) = 4096));;
  Frame_from_base_unchecked base max_blk.

Definition Frame_allocation_level (s : bst) (size : Z) : outcome Z :=
  rust_assert (bool_decide (size < max_blk_size (ba s)));;
  let size := Z.max size (min_blk_size (ba s)) in
  l ← log2 64 (next_power_of_two 64 size);
  Done (u8 (wrap 64 (l - log2_min_blk_size (ba s)))).

Definition Frame_level_size (s : bst) (level : Z) : Z := level_size 64 s level.
Definition Frame_buddy (s : bst) (block level : Z) : outcome (option Z) := buddy 64 s block level.
Definition Frame_pop_blk_with_level (s : bst) (level : Z) : outcome (option Z * bst) :=
  pop_blk_with_level N frame_acc s level.
Definition Frame_free_blk (s : bst) (block level : Z) : outcome bst := free_blk frame_acc s block level.
Definition Frame_split_blk (s : bst) (block level new_level : Z) : outcome bst :=
  split_blk 64 frame_acc s block level new_level.

Definition Frame_alloc (s : bst) (size : Z) : outcome (Z * bst) :=
  level_req ← Frame_allocation_level s size;
  alloc_from 64 N frame_acc s level_req.

(** [remove_blk]: [curr_blk] follows the links, but the pointer the loop tests is
    read once, before it; the header of the block is read through the block's
    physical address. *)
Fixpoint Frame_remove_loop (fuel : nat) (s : bst) (blk_header : Z) (curr_blk : link) (curr_blk_ptr : Z)
    : outcome (bool * bst) :=
  match fuel with
  | O => NoFuel
  | S fuel =>
      if bool_decide (curr_blk_ptr = 0) then Done (false, s)
      else if bool_decide (curr_blk_ptr = blk_header) then
        a ← deref (mmu blk_header);
        n ← deref (mem s !! a);
        s ← wr_link frame_acc s curr_blk n;
        Done (true, s)
      else Frame_remove_loop fuel s blk_header (Next curr_blk_ptr) curr_blk_ptr
  end.
Definition Frame_remove_blk (fuel : nat) (s : bst) (block level : Z) : outcome (bool * bst) :=
  p ← head s level;
  Frame_remove_loop fuel s block (Head level) p.

Definition Frame_dealloc (fuel : nat) (s : bst) (block size : Z) : outcome bst :=
  alloc_level ← Frame_allocation_level s size;
  dealloc_loop 64 frame_acc (Frame_remove_blk fuel)
    (length (free_lists (ba s)) - Z.to_nat alloc_level) s block alloc_level.

(** The [FrameAllocator] implementation. *)
Definition Frame_allocate (size : Z) (s : bst) : outcome (result FrameAllocation FrameAllocationError * bst) :=
  '(alloc_ptr, s) ← Frame_alloc s size;
  Done (if bool_decide (alloc_ptr = 0) then Err NoAvailableFrame
        else Ok {| start := alloc_ptr; length_ := size |}, s).
Definition Frame_deallocate (fuel : nat) (alloc : FrameAllocation) (s : bst) : outcome bst :=
  Frame_dealloc fuel s (start alloc) (length_ alloc).

(** [PHYSICAL_MEMORY_POOL] and the functions over it. *)
Definition alloc_page (alloc_size : Z) (pool : option bst)
    : outcome (result FrameAllocation FrameAllocationError * option bst) :=
  match pool with
  | Some s => '(r, s) ← Frame_allocate alloc_size s; Done (r, Some s)
  | None => Done (Err NoAvailableFrame, None)
  end.
Definition free_page (fuel : nat) (alloc : FrameAllocation) (pool : option bst) : outcome (option bst) :=
  match pool with
  | Some s => s ← Frame_deallocate fuel alloc s; Done (Some s)
  | None => Done None
  end.
(** [pm_alloc] and [pm_free], the C interface: null on failure. *)
Definition pm_alloc (alloc_size : Z) (pool : option bst) : outcome (Z * option bst) :=
  '(r, pool) ← alloc_page alloc_size pool;
  Done (match r with Ok a => start a | Err _ => 0 end, pool).
Definition pm_free (fuel : nat) (alloc_base alloc_size : Z) (pool : option bst) : outcome (option bst) :=
  free_page fuel {| start := alloc_base; length_ := alloc_size |} pool.

Definition PoolAllocator (fuel : nat) : FrameAllocator (option bst) :=
  {| Frames.allocate := alloc_page; Frames.deallocate := free_page fuel |}.

(** [init_phys_memory_pool]; [mem] is the memory at boot. *)
Definition init_phys_memory_pool (fuel : nat) (map_len : Z) (rd : Z → option AddressRangeDescriptor)
    (mem : gmap Z Z) (pool : option bst) : outcome (option bst) :=
  largest ← largest_loop fuel map_len rd 0 ard_default;
  rust_assert (bool_decide (¬ is_Some pool));;
  a ← Frame_from_base_unchecked (segment_base largest) MAX_PHYSICAL_MEM_BLK_SIZE;
  Done (Some {| ba := a; mem := mem |}).
End frame_alloc.

(** * Allocation *)

Section pool.
Context (mmu : Z → option Z) (mapping : Z) (N : nat) (base : Z).
#[local] Abbreviation facc := (frame_acc mmu mapping).
Context (Hpool : pool_ok 64 N facc base 12) (Hphys : base + pool_size N 12 ≤ 0x0100_0000_0000) (HN : (2 ≤ N)%nat).

Lemma lseg_unique mem p bs bs' : lseg mem p bs → lseg mem p bs' → bs = bs'.
Proof.
  revert p bs'. induction bs as [|b bs IH]; intros p [|b' bs']; simpl; [done|naive_solver|naive_solver|].
  intros (-> & _ & n & Hn & Hs) (-> & _ & n' & Hn' & Hs'). f_equal.
  assert (n' = n) as -> by congruence. by eapply IH.
Qed.

(** The free blocks are determined by the state. *)
Lemma binv_unique s bl bl' : binv N base 12 s bl → binv N base 12 s bl' → bl = bl'.
Proof.
  intros HI HI'. apply list_eq. intros l.
  destruct (decide (l < N)%nat) as [Hl|Hl].
  - destruct (lookup_lt_is_Some_2 bl l) as [bs Hbs]; [rewrite (binv_levels _ _ _ _ _ HI); lia|].
    destruct (lookup_lt_is_Some_2 bl' l) as [bs' Hbs']; [rewrite (binv_levels _ _ _ _ _ HI'); lia|].
    destruct (lookup_lt_is_Some_2 (free_lists (ba s)) l) as [h Hh]; [rewrite (binv_heads _ _ _ _ _ HI); lia|].
    rewrite Hbs, Hbs'. f_equal. pose proof (binv_list _ _ _ _ _ HI _ _ _ Hbs Hh) as H1.
    pose proof (binv_list _ _ _ _ _ HI' _ _ _ Hbs' Hh) as H2. pose proof (pool_nonnull _ _ _ _ _ Hpool).
    case_bool_decide; [|by eapply lseg_unique].
    destruct H1 as [[? ->]|[? ->]], H2 as [[? ->]|[? ->]]; (done || lia).
  - rewrite !lookup_ge_None_2; [done|rewrite (binv_levels _ _ _ _ _ HI'); lia|rewrite (binv_levels _ _ _ _ _ HI); lia].
Qed.

Definition pool_inv (pool : option bst) : Prop :=
  match pool with Some s => ∃ bl, binv N base 12 s bl | None => True end.
(** A frame is taken when no free block contains its address. *)
Definition frame_taken (f : Z) (pool : option bst) : Prop :=
  match pool with
  | Some s => ∀ bl, binv N base 12 s bl → cover 12 bl f = 0%nat
  | None => True
  end.

Lemma Frame_allocation_level_spec s bl size : binv N base 12 s bl → size < pool_size N 12 →
  Frame_allocation_level s size = Done (Z.of_nat (level_of 12 size)).
Proof.
  clear Hphys HN. intros HI Hs. unfold Frame_allocation_level.
  rewrite (binv_max _ _ _ _ _ HI), (binv_min _ _ _ _ _ HI), (binv_log _ _ _ _ _ HI).
  rewrite bool_decide_true by done. simpl.
  by apply (level_of_spec 64 N facc base 12 Hpool size); lia.
Qed.

(** What an allocation of [size] bytes does. *)
Lemma Frame_allocate_spec s bl size : binv N base 12 s bl → size < pool_size N 12 →
  ∃ r s', Frame_allocate mmu mapping N size s = Done (r, s')
  ∧ match r with
    | Err _ => s' = s ∧ ∀ l, (level_of 12 size ≤ l < N)%nat → bl !! l = Some []
    | Ok f => length_ f = size ∧ size ≤ sz 12 (level_of 12 size)
        ∧ blk_ok N base 12 (level_of 12 size) (start f)
        ∧ ∃ bl', binv N base 12 s' bl'
          ∧ ∀ x, (cover 12 bl' x + ind (in_blk 12 (level_of 12 size) (start f) x) = cover 12 bl x)%nat
    end.
Proof.
  clear Hphys HN. intros HI Hs. destruct (level_of_spec 64 N facc base 12 Hpool size ltac:(lia)) as (Hl & Hle & _).
  unfold Frame_allocate, Frame_alloc. rewrite (Frame_allocation_level_spec s bl) by done. simpl.
  destruct (alloc_from_spec 64 N facc base 12 Hpool s bl _ HI Hl) as (r & s' & -> & Hpost). simpl.
  unfold alloc_post in Hpost. eexists _, _. split; [done|]. case_bool_decide; [done|].
  destruct Hpost as (Hb & bl' & HI' & Hc). split_and!; [done|done|done|]. by exists bl'.
Qed.

Lemma blk_frame_ok l b : (l < N)%nat → blk_ok N base 12 l b → frame_ok b.
Proof.
  intros Hl (H1 & H2 & H3). pose proof (pool_nonnull _ _ _ _ _ Hpool).
  pose proof (sz_pos 12 l ltac:(lia)). split; [|lia].
  apply (mod_sz_le 12 0) in H3; [|lia|lia]. exact H3.
Qed.

(** C2: the frame allocator, over a pool of memory aligned on its own size and
    reachable through the kernel's mapping, is the fresh-frame allocator the
    paging code relies on: an allocation always returns, with a page-aligned
    frame that no free block nor any earlier allocation contains, or with
    [NoAvailableFrame]; before the pool is initialised it is always the latter.
    (A pool that is not aligned on its size is left out, as the one that starts right after
    the kernel image: [first_allocation_frees_kernel_image] says what happens to it.) *)
Theorem pool_allocator_fresh fuel :
  @FreshFrames (option bst) (PoolAllocator mmu mapping N fuel) pool_inv frame_taken.
Proof.
  constructor. intros [s|] Hinv; simpl; [|by exists (Err NoAvailableFrame), None].
  destruct Hinv as [bl HI].
  assert (Hsz : PAGE_SIZE < pool_size N 12) by (change PAGE_SIZE with (2 ^ 12); apply Z.pow_lt_mono_r; lia).
  destruct (level_of_spec 64 N facc base 12 Hpool PAGE_SIZE ltac:(lia)) as (Hl & _).
  destruct (Frame_allocate_spec s bl PAGE_SIZE HI Hsz) as (r & s' & -> & Hr). simpl.
  eexists _, _. split; [done|]. destruct r as [f|e].
  - destruct Hr as (_ & _ & Hb & bl' & HI' & Hc).
    assert (Hself : in_blk 12 (level_of 12 PAGE_SIZE) (start f) (start f)) by (apply blk_start; lia).
    pose proof (Hc (start f)) as Hcs. rewrite (ind_1 _ Hself) in Hcs. pose proof (binv_cover _ _ _ _ _ HI (start f)).
    split_and!.
    + by exists bl'.
    + intros p Hp bl2 HI2. rewrite (binv_unique s' bl2 bl' HI2 HI'). specialize (Hc p).
      rewrite (Hp bl HI) in Hc. lia.
    + by apply (blk_frame_ok (level_of 12 PAGE_SIZE)).
    + intros Ht. rewrite (Ht bl HI) in Hcs. lia.
    + intros bl2 HI2. rewrite (binv_unique s' bl2 bl' HI2 HI'). lia.
  - destruct Hr as [-> _]. split_and!; [by exists bl|done|done].
Qed.

(** ** Freeing *)

(** What the allocator's [remove_blk] does: on an empty list it finds
    nothing; a block at the head of its list is removed, provided its physical
    address can itself be dereferenced; and when the head of a non-empty list is
    another block, the loop never ends, whether the block is in the list or not. *)
Theorem Frame_remove_blk_cases s bl l bs b : binv N base 12 s bl → bl !! l = Some bs →
  l ≠ (N - 1)%nat →
  match bs with
  | [] => ∀ fuel, Frame_remove_blk mmu mapping (S fuel) s b (Z.of_nat l) = Done (false, s)
  | c :: bs' =>
      if bool_decide (c = b) then
        mmu b = Some b →
        ∃ s', (∀ fuel, Frame_remove_blk mmu mapping (S fuel) s b (Z.of_nat l) = Done (true, s'))
          ∧ binv N base 12 s' (<[l := bs']> bl)
      else ∀ fuel, Frame_remove_blk mmu mapping fuel s b (Z.of_nat l) = NoFuel
  end.
Proof.
  clear Hpool Hphys HN. intros HI Hbs Hne. assert (Hl : (l < N)%nat).
  { rewrite <- (binv_levels _ _ _ _ _ HI). by eapply lookup_lt_Some. }
  destruct (binv_level _ _ _ s bl l HI Hl) as (bs1 & h & Hbs1 & Hh & Hhead). simplify_eq.
  pose proof (binv_list _ _ _ _ _ HI _ _ _ Hbs Hh) as Hseg. rewrite bool_decide_false in Hseg by done.
  unfold Frame_remove_blk. rewrite Hhead. simpl. destruct bs as [|c bs'].
  - simpl in Hseg. by subst h.
  - destruct Hseg as (-> & Hc0 & n & Hn & Hseg). case_bool_decide as Hcb.
    + subst c. intros Hmmu. eexists. split.
      * intros fuel. simpl. rewrite (bool_decide_false (b = 0)) by done. rewrite Hmmu. simpl.
        rewrite Hn. simpl. by rewrite Nat2Z.id.
      * apply (binv_shrink _ _ _ s bl l (b :: bs')); [done|done| |set_solver|].
        -- by rewrite bool_decide_false.
        -- intros x. rewrite cover_list_cons. lia.
    + intros fuel. generalize (Head (Z.of_nat l)) as lk. induction fuel as [|fuel IH]; intros lk; [done|].
      simpl. rewrite (bool_decide_false (c = 0)), (bool_decide_false (c = b)) by done. apply IH.
Qed.
End pool.

(** * The pool of the kernel *)

(** The entries of the map, from index [cursor]. *)
Definition readable (n : Z) (rd : Z → option AddressRangeDescriptor) : Prop :=
  ∀ i, 0 ≤ i < n → is_Some (rd i).

(** [d] is what the loop keeps among the entries from [c] on, starting from [d0]. *)
Definition is_largest (rd : Z → option AddressRangeDescriptor) (c n : Z)
    (d0 d : AddressRangeDescriptor) : Prop :=
  (d = d0 ∨ ∃ i, c ≤ i < n ∧ rd i = Some d ∧ addr_type d = RAM)
  ∧ ard_length d0 ≤ ard_length d
  ∧ ∀ i e, c ≤ i < n → rd i = Some e → addr_type e = RAM → ard_length e ≤ ard_length d.

Lemma largest_loop_spec fuel n rd c d0 : 0 < n < 2 ^ 32 → readable n rd → 0 ≤ c ≤ n →
  n - c < Z.of_nat fuel →
  ∃ d, largest_loop fuel n rd c d0 = Done d ∧ is_largest rd c n d0 d.
Proof.
  intros Hn Hrd. revert c d0. induction fuel as [|fuel IH]; intros c d0 Hc Hf; [lia|].
  simpl. unfold E820_next. rewrite (bool_decide_true (n ≠ 0)) by lia. simpl.
  case_bool_decide as Hend; simpl.
  - exists d0. split; [done|]. split_and!; [by left|lia|]. intros; lia.
  - destruct (Hrd c ltac:(lia)) as [e He]. rewrite He. simpl.
    unfold u32. rewrite (wrap_id 32 (c + 1)) by (unfold in_width; lia).
    match goal with |- context [largest_loop fuel n rd (c + 1) ?x] => set (d1 := x) end.
    destruct (IH (c + 1) d1 ltac:(lia) ltac:(lia)) as (d & Hd & (Hin & Hge & Hmax)). exists d. split; [done|].
    assert (Hd1 : (d1 = d0 ∨ d1 = e ∧ addr_type e = RAM) ∧ ard_length d0 ≤ ard_length d1
      ∧ (addr_type e = RAM → ard_length e ≤ ard_length d1)).
    { unfold d1. case_bool_decide; simpl; [case_bool_decide|]; split_and!; auto; intros; (done || lia). }
    destruct Hd1 as (Hd1 & Hd1g & Hd1e). split_and!.
    + destruct Hin as [->|(i & Hi & Hrdi & Ht)]; [|right; exists i; split_and!; (done || lia)].
      destruct Hd1 as [->|[-> Ht]]; [by left|right]. exists c. split_and!; (done || lia).
    + lia.
    + intros i e' Hi He' Ht. destruct (decide (i = c)) as [->|]; [|apply (Hmax i); (done || lia)].
      assert (e' = e) as -> by congruence. specialize (Hd1e Ht). lia.
Qed.

(** [init_phys_memory_pool] reads every entry of a non-empty memory map and
    makes a pool of 512 MB, all free, at the start of a RAM segment at least as
    long as any other, or right after the kernel image when the image is in that
    segment; a map without RAM gives a pool at address 0, and a second
    initialisation panics. *)
Theorem init_phys_memory_pool_spec fuel n rd mem pool : 0 < n < 2 ^ 32 → readable n rd →
  n < Z.of_nat fuel →
  ∃ d, is_largest rd 0 n ard_default d
  ∧ init_phys_memory_pool 18 fuel n rd mem pool
    = match pool with
      | Some _ => Panicked
      | None => Done (Some {| ba := {|
          base_addr := if bool_decide (ard_base_addr d < KERNEL_LOAD_ADDR)
                          && bool_decide (KERNEL_LOAD_ADDR < u64 (ard_base_addr d + ard_length d))
                       then 0xC0_0000 else ard_base_addr d;
          max_blk_size := 0x2000_0000; min_blk_size := 4096; log2_min_blk_size := 13;
          free_lists := replicate 17 0 ++ [segment_base d] |}; mem := mem |})
      end.
Proof.
  intros Hn Hrd Hf. destruct (largest_loop_spec fuel n rd 0 ard_default Hn Hrd ltac:(lia) ltac:(lia))
    as (d & Hd & Hlarge). exists d. split; [done|]. unfold init_phys_memory_pool. rewrite Hd. simpl.
  destruct pool as [s|].
  - rewrite bool_decide_false; [done|]. intros Hn'. by apply Hn'.
  - rewrite bool_decide_true by (by intros []). reflexivity.
Qed.

(** A memory map with 1 MB to 128 MB usable. *)
Definition map_example (i : Z) : option AddressRangeDescriptor :=
  if bool_decide (i = 0)
  then Some {| base_addr_low := 0x10_0000; base_addr_high := 0; length_low := 0x7F0_0000;
               length_high := 0; addr_type := RAM; extended_attributes := 0 |}
  else None.

Lemma init_phys_memory_pool_spec_witness :
  ∃ pool, init_phys_memory_pool 18 2 1 map_example ∅ None = Done (Some pool)
    ∧ base_addr (ba pool) = 0xC0_0000.
Proof.
  assert (Hr : readable 1 map_example) by (intros i Hi; assert (i = 0) as -> by lia; by eexists).
  destruct (init_phys_memory_pool_spec 2 1 map_example ∅ None ltac:(lia) Hr ltac:(lia)) as (d & (Hd & Hge & Hmax) & Heq).
  destruct (Hr 0 ltac:(lia)) as [e He].
  assert (d = e) as ->.
  { destruct Hd as [->|(i & Hi & Hrd & _)]; [|assert (i = 0) as -> by lia; congruence].
    injection He as <-. by specialize (Hmax 0 _ ltac:(lia) eq_refl eq_refl). }
  injection He as <-. eexists. split; [exact Heq|]. by vm_compute.
Defined.

(** The kernel's mapping of physical memory, as the processor translates it. *)
Definition kernel_mmu (v : Z) : option Z :=
  if bool_decide (DEFAULT_OFFSET ≤ v < DEFAULT_OFFSET + 0x0100_0000_0000)
  then Some (v - DEFAULT_OFFSET) else None.

(** When the kernel image is in the largest RAM segment, the pool starts right
    after it, at 0xC0_0000, which is not a multiple of the block sizes above
    4 MB; flipping an address bit then leads below the pool, so that the first
    page allocated puts the image's load address at the head of the free list of
    the 4 MB blocks, and writes a header into the image. *)
Theorem first_allocation_frees_kernel_image d :
  ard_base_addr d < KERNEL_LOAD_ADDR → KERNEL_LOAD_ADDR < u64 (ard_base_addr d + ard_length d) →
  (a ← Frame_from_base_unchecked 18 (segment_base d) MAX_PHYSICAL_MEM_BLK_SIZE;
   '(r, s') ← Frame_allocate kernel_mmu DEFAULT_OFFSET 18 PAGE_SIZE {| ba := a; mem := ∅ |};
   Done (r, free_lists (ba s') !! 10%nat, mem s' !! KERNEL_LOAD_ADDR))
  = Done (Ok {| start := 0xC0_0000; length_ := PAGE_SIZE |}, Some KERNEL_LOAD_ADDR, Some 0).
Proof.
  intros H1 H2. unfold segment_base. change (PhyAddr_add_u64 ?a ?b) with (u64 (a + b)).
  rewrite !bool_decide_true by done. by vm_compute.
Qed.

Lemma first_allocation_frees_kernel_image_witness :
  ∃ d, map_example 0 = Some d ∧
  (a ← Frame_from_base_unchecked 18 (segment_base d) MAX_PHYSICAL_MEM_BLK_SIZE;
   '(r, s') ← Frame_allocate kernel_mmu DEFAULT_OFFSET 18 PAGE_SIZE {| ba := a; mem := ∅ |};
   Done (r, free_lists (ba s') !! 10%nat, mem s' !! KERNEL_LOAD_ADDR))
  = Done (Ok {| start := 0xC0_0000; length_ := PAGE_SIZE |}, Some KERNEL_LOAD_ADDR, Some 0).
Proof.
  eexists. split; [reflexivity|].
  apply (first_allocation_frees_kernel_image
    {| base_addr_low := 0x10_0000; base_addr_high := 0; length_low := 0x7F0_0000;
       length_high := 0; addr_type := RAM; extended_attributes := 0 |}); by vm_compute.
Defined.

(** * A pool that satisfies the hypotheses: 512 MB at 0x2000_0000 *)

Lemma table_ptr_default b : 0 ≤ b < 0x0100_0000_0000 → table_ptr DEFAULT_OFFSET b = DEFAULT_OFFSET + b.
Proof.
  intros Hb. unfold table_ptr, VirtAddr_as_mut_ptr, convert, VirtAddr_add.
  change (u64_from_VirtAddr ?x) with (VirtAddr_new x). rewrite VirtAddr_new_idem.
  rewrite (VirtAddr_new_id b) by (unfold in_width, canonical; lia).
  change DEFAULT_OFFSET with 0xFFFF_CF80_0000_0000.
  rewrite u64_id by lia. apply VirtAddr_new_id; unfold in_width, canonical; lia.
Qed.

Lemma aligned_pool_ok base : 0 < base → base mod 0x2000_0000 = 0 → base + 0x2000_0000 ≤ 0x0100_0000_0000 →
  pool_ok 64 18 (frame_acc kernel_mmu DEFAULT_OFFSET) base 12.
Proof.
  intros H0 Ha Hl. assert (Hsz : pool_size 18 12 = 0x2000_0000) by reflexivity.
  split; [lia|lia|lia|lia|by rewrite Hsz|lia|rewrite Hsz; change (2 ^ 64) with 0x1_0000_0000_0000_0000; lia|].
  intros b Hb. unfold frame_acc, kernel_mmu. rewrite Hsz in Hb.
  rewrite table_ptr_default by lia. rewrite bool_decide_true by lia. simpl. f_equal. lia.
Qed.
Lemma kernel_pool_ok : pool_ok 64 18 (frame_acc kernel_mmu DEFAULT_OFFSET) 0x2000_0000 12.
Proof. by apply aligned_pool_ok. Qed.

(** A machine with 16 GB of memory: its largest segment starts at 4 GB, and so does the pool. *)
Definition large_map (i : Z) : option AddressRangeDescriptor :=
  if bool_decide (i = 0)
  then Some {| base_addr_low := 0x10_0000; base_addr_high := 0; length_low := 0xBFF0_0000;
               length_high := 0; addr_type := RAM; extended_attributes := 0 |}
  else if bool_decide (i = 1)
  then Some {| base_addr_low := 0; base_addr_high := 1; length_low := 0x4000_0000;
               length_high := 3; addr_type := RAM; extended_attributes := 0 |}
  else None.
Lemma large_pool_ok : pool_ok 64 18 (frame_acc kernel_mmu DEFAULT_OFFSET) 0x1_0000_0000 12.
Proof. by apply aligned_pool_ok. Qed.

(** The pool that the kernel makes on this machine allocates its first page. *)
Lemma pool_allocator_fresh_witness :
  ∃ pool f pool', init_phys_memory_pool 18 3 2 large_map ∅ None = Done pool
    ∧ alloc_page kernel_mmu DEFAULT_OFFSET 18 PAGE_SIZE pool = Done (Ok f, pool') ∧ frame_ok (start f)
    ∧ pool_inv 18 0x1_0000_0000 pool'.
Proof.
  destruct (from_base_ok 64 18 _ 0x1_0000_0000 12 large_pool_ok) as (a & Ha & HI).
  change (pool_size 18 12) with 0x2000_0000 in Ha.
  assert (Hlim : 0x1_0000_0000 + pool_size 18 12 ≤ 0x0100_0000_0000)
    by (change (pool_size 18 12) with 0x2000_0000; lia).
  destruct (pool_allocator_fresh kernel_mmu DEFAULT_OFFSET 18 0x1_0000_0000 large_pool_ok Hlim
    ltac:(lia) 0) as [Hspec].
  destruct (Hspec (Some {| ba := a; mem := ∅ |})) as (r & p & Heq & Hinv & _ & Hr).
  { by exists (replicate 17 [] ++ [[0x1_0000_0000]]). }
  destruct r as [f|e]; [|vm_compute in Ha; injection Ha as <-; by vm_compute in Heq].
  exists (Some {| ba := a; mem := ∅ |}), f, p. split; [|split; [exact Heq|split; [apply Hr|exact Hinv]]].
  vm_compute in Ha. injection Ha as <-. by vm_compute.
Defined.

(** The state after a first page was taken: one free block at each level but the
    largest. *)
Definition pool_after : option bst :=
  match (a ← Frame_from_base_unchecked 18 0x2000_0000 0x2000_0000;
         Frame_allocate kernel_mmu DEFAULT_OFFSET 18 PAGE_SIZE {| ba := a; mem := ∅ |}) with
  | Done (_, s) => Some s | _ => None end.

Lemma pool_after_ok : ∃ s bl bs, pool_after = Some s ∧ binv 18 0x2000_0000 12 s bl
  ∧ bl !! 0%nat = Some (0x2000_1000 :: bs).
Proof.
  destruct (from_base_ok 64 18 _ 0x2000_0000 12 kernel_pool_ok) as (a & Ha & HI).
  change (pool_size 18 12) with 0x2000_0000 in Ha. specialize (HI ∅).
  destruct (Frame_allocate_spec kernel_mmu DEFAULT_OFFSET 18 0x2000_0000 kernel_pool_ok _ _ PAGE_SIZE HI ltac:(by vm_compute))
    as (r & s' & Hal & Hr).
  assert (Hpa : pool_after = Some s').
  { unfold pool_after, Frame_from_base_unchecked. rewrite Ha. simpl. by rewrite Hal. }
  assert (Hh : (λ s, free_lists (ba s) !! 0%nat) <$> pool_after = Some (Some 0x2000_1000)) by (by vm_compute).
  rewrite Hpa in Hh. simpl in Hh. injection Hh as Hh.
  destruct r as [f|e].
  2:{ clear HI Hpa Hh. vm_compute in Ha. injection Ha as <-. vm_compute in Hal. discriminate Hal. }
  destruct Hr as (_ & _ & _ & bl' & HI' & _). exists s', bl'.
  destruct (lookup_lt_is_Some_2 bl' 0) as [bs Hbs]; [rewrite (binv_levels _ _ _ _ _ HI'); lia|].
  pose proof (binv_list _ _ _ _ _ HI' _ _ _ Hbs Hh) as Hl. rewrite bool_decide_false in Hl by lia.
  destruct bs as [|c bs]; [done|]. destruct Hl as (<- & _). exists bs.
  split; [exact Hpa|]. split; [exact HI'|exact Hbs].
Qed.

Lemma Frame_remove_blk_cases_witness :
  ∃ s, pool_after = Some s
    ∧ ∀ fuel, Frame_remove_blk kernel_mmu DEFAULT_OFFSET fuel s 0x2000_5000 (Z.of_nat 0) = NoFuel.
Proof.
  destruct pool_after_ok as (s & bl & bs & Hs & HI & Hbl). exists s. split; [exact Hs|].
  apply (Frame_remove_blk_cases kernel_mmu DEFAULT_OFFSET 18 0x2000_0000 s bl 0 _ 0x2000_5000 HI Hbl).
  lia.
Defined.
