(* ===== verification/Sched.v ===== *)
(** Tasks, threads, processes and the scheduler (src/fzboot/scheduler,
    src/fzboot/process) with the kernel stack allocator (src/mem/stack.rs).

    The registries are maps keyed by identifier; a [Thread] holds a reference to
    its task ([Arc<Mutex<Task>>]), which is the key of that task in the task
    directory, so that both see the same task.  The locks that the interrupted
    code holds when the timer fires are an argument of the handler: [try_lock] on
    a held lock fails, a blocking [lock] never returns ([NoFuel]). *)

From S2P Require Import Prelude Addr Frames Paging.

(** * Data *)

Record GeneralPurposeRegisters := {
  rax : Z; rbx : Z; rcx : Z; rdx : Z; rsi : Z; rdi : Z; rbp : Z;
  r8 : Z; r9 : Z; r10 : Z; r11 : Z; r12 : Z; r13 : Z; r14 : Z; r15 : Z
}.
Definition gpr_default : GeneralPurposeRegisters :=
  {| rax := 0; rbx := 0; rcx := 0; rdx := 0; rsi := 0; rdi := 0; rbp := 0;
     r8 := 0; r9 := 0; r10 := 0; r11 := 0; r12 := 0; r13 := 0; r14 := 0; r15 := 0 |}.

Record InterruptStackFrame := {
  fr_rip : Z; cs : Z; rflags : Z; stack_ptr : Z; stack_segment : Z;
  registers : GeneralPurposeRegisters
}.

Inductive TaskState := Running | Waiting | Uninitialized (entry : Z).
Record Task := {
  id : Z; pid : Z; tid : Z; state : TaskState; kernel_stack : Z; stack : Z; rip : Z;
  gpr : GeneralPurposeRegisters
}.
Definition Task_default : Task :=
  {| id := 0; pid := 0; tid := 0; state := Uninitialized 0; kernel_stack := 0; stack := 0;
     rip := 0; gpr := gpr_default |}.

(** [thr_task] is the key of the task in the directory. *)
Record Thread := { thr_id : Z; thr_task : Z; thr_flags : Z }.
Record ThreadGroup := { tg_id : Z; tg_threads : gset Z }.
Record Process := {
  prc_id : Z; prc_name : list Z; prc_threads : ThreadGroup; parent : option Z;
  page_table : Z; prc_flags : Z
}.
Inductive ProcessCreationError := MemoryAllocationError.

Definition INIT_TASK : Z := 0.
Definition KERNEL_INIT_PID : Z := 0.
Definition KERNEL_INIT_TID : Z := 0.
Definition KERNEL_INIT_TGID : Z := 0.
Definition KERNEL_PAGE_TABLE : Z := PhyAddr_new 0x200_000.
Definition KERNEL_STACK_SIZE : Z := 0x800_000.
Definition KERNEL_STACK_MAPPING_BASE : Z := VirtAddr_new 0xFFFF_9000_0000_0000.

Definition NO_PREEMPT : Z := Z.shiftl 1 32.
(** [ProcessFlags::contains] and [ThreadFlags::contains]. *)
Definition contains (self mode : Z) : bool := bool_decide (Z.land self mode ≠ 0).

Definition insert_thread (g : ThreadGroup) (t : Z) : ThreadGroup :=
  {| tg_id := tg_id g; tg_threads := {[ t ]} ∪ tg_threads g |}.
Definition remove_thread (g : ThreadGroup) (t : Z) : ThreadGroup :=
  {| tg_id := tg_id g; tg_threads := tg_threads g ∖ {[ t ]} |}.

(** * Round-robin queue *)

(** The strategy on its [VecDeque], front first. *)
Definition insert_task (q : list Z) (task_id : Z) : list Z := q ++ [task_id].
Definition next_task (q : list Z) : option Z * list Z :=
  match q with
  | [] => (None, [])
  | t :: q => (Some t, insert_task q t)
  end.
(** [binary_search] is the standard library's on a [VecDeque]. *)
Definition remove_task (binary_search : list Z → Z → result nat nat) (q : list Z) (task_id : Z) : list Z :=
  match binary_search q task_id with
  | Ok idx => delete idx q
  | Err _ => q
  end.

(** * Kernel stacks (src/mem/stack.rs) *)

Record VirtualKernelStackAllocator := { running_ptr : Z; free_stacks : list Z }.
Definition stack_allocator_new (base : Z) := {| running_ptr := base; free_stacks := [] |}.

(** [free_stack]: the vector grows at its end. *)
Definition free_stack (a : VirtualKernelStackAllocator) (stack : Z) : outcome VirtualKernelStackAllocator :=
  al ← VirtAddr_is_aligned_with stack ALIGN_4KB;
  if negb al then Panicked
  else Done {| running_ptr := running_ptr a; free_stacks := free_stacks a ++ [stack] |}.

Section kernel.
Context {FB : FlagBits} {A : Type} `{FrameAllocator A}.
(** [get_memory_mapper()] and [nx_prot_enabled()]. *)
Context (mapping pml4 : Z) (nx : bool).

(** [alloc_stack]: a recycled stack is given by its upper bound, a new one by its
    last byte. *)
Definition alloc_stack (a : VirtualKernelStackAllocator) (vm : pg A)
    : outcome (Z * VirtualKernelStackAllocator * pg A) :=
  match last (free_stacks a) with
  | Some st =>
      Done (VirtAddr_add_usize st KERNEL_STACK_SIZE,
            {| running_ptr := running_ptr a; free_stacks := removelast (free_stacks a) |}, vm)
  | None =>
      let st := running_ptr a in
      '(r, al) ← allocate KERNEL_STACK_SIZE (falloc vm);
      match r with
      | Err _ => Panicked
      | Ok stack_page =>
          let flags := with_write flags_new true in
          let flags := if nx then with_nxe flags true else flags in
          vm ← map_physical_memory mapping pml4 (with_falloc vm al) (start stack_page) st flags
                 (with_write flags_new true) KERNEL_STACK_SIZE;
          Done (VirtAddr_sub_usize (VirtAddr_add_usize st KERNEL_STACK_SIZE) 1,
                {| running_ptr := VirtAddr_add_usize st KERNEL_STACK_SIZE; free_stacks := free_stacks a |}, vm)
      end
  end.

(** * The kernel state *)

Record ks := {
  tasks : gmap Z Task; threads : gmap Z Thread; processes : gmap Z Process;
  kernel_queue : list Z;
  current_task : Z; current_process : Z; current_thread : Z;
  failed_scheduling : Z;
  last_task_id : Z; first_available_tid : Z; first_available_pid : Z; first_available_tgid : Z;
  stacks : VirtualKernelStackAllocator; vm : pg A
}.

Definition set_tasks (s : ks) (t : gmap Z Task) : ks :=
  {| tasks := t; threads := threads s; processes := processes s; kernel_queue := kernel_queue s;
     current_task := current_task s; current_process := current_process s;
     current_thread := current_thread s; failed_scheduling := failed_scheduling s;
     last_task_id := last_task_id s; first_available_tid := first_available_tid s;
     first_available_pid := first_available_pid s; first_available_tgid := first_available_tgid s;
     stacks := stacks s; vm := vm s |}.
Definition set_queue (s : ks) (q : list Z) : ks :=
  {| tasks := tasks s; threads := threads s; processes := processes s; kernel_queue := q;
     current_task := current_task s; current_process := current_process s;
     current_thread := current_thread s; failed_scheduling := failed_scheduling s;
     last_task_id := last_task_id s; first_available_tid := first_available_tid s;
     first_available_pid := first_available_pid s; first_available_tgid := first_available_tgid s;
     stacks := stacks s; vm := vm s |}.
Definition set_failed (s : ks) (n : Z) : ks :=
  {| tasks := tasks s; threads := threads s; processes := processes s; kernel_queue := kernel_queue s;
     current_task := current_task s; current_process := current_process s;
     current_thread := current_thread s; failed_scheduling := n;
     last_task_id := last_task_id s; first_available_tid := first_available_tid s;
     first_available_pid := first_available_pid s; first_available_tgid := first_available_tgid s;
     stacks := stacks s; vm := vm s |}.
Definition set_current (s : ks) (t p th : Z) : ks :=
  {| tasks := tasks s; threads := threads s; processes := processes s; kernel_queue := kernel_queue s;
     current_task := t; current_process := p; current_thread := th;
     failed_scheduling := failed_scheduling s;
     last_task_id := last_task_id s; first_available_tid := first_available_tid s;
     first_available_pid := first_available_pid s; first_available_tgid := first_available_tgid s;
     stacks := stacks s; vm := vm s |}.

(** The locks the interrupted code holds. *)
Record locks := {
  lk_scheduler : bool;
  lk_tasks_write : bool; lk_threads_write : bool; lk_processes_write : bool;
  lk_task : gset Z; lk_thread : gset Z; lk_process : gset Z
}.
Definition no_locks : locks :=
  {| lk_scheduler := false; lk_tasks_write := false; lk_threads_write := false;
     lk_processes_write := false; lk_task := ∅; lk_thread := ∅; lk_process := ∅ |}.
(** A blocking acquisition. *)
Definition lock (held : bool) : outcome unit := if held then NoFuel else Done ().

(** ** Scheduling *)

Definition schedule_sys_task (s : ks) (task_id : Z) : ks :=
  set_queue s (insert_task (kernel_queue s) task_id).

(** The context that [irq_schedule_next_task] saves into a task. *)
Definition save_context (t : Task) (frame : InterruptStackFrame) : Task :=
  {| id := id t; pid := pid t; tid := tid t; state := Waiting; kernel_stack := kernel_stack t;
     stack := stack_ptr frame; rip := fr_rip frame; gpr := registers frame |}.
Definition set_state (t : Task) (st : TaskState) : Task :=
  {| id := id t; pid := pid t; tid := tid t; state := st; kernel_stack := kernel_stack t;
     stack := stack t; rip := rip t; gpr := gpr t |}.

(** [irq_schedule_next_task]: the frame of the [iret], or [None] when the handler
    returns to the interrupted task. *)
Definition irq_schedule_next_task (held : locks) (s : ks) (frame : InterruptStackFrame)
    : outcome (option InterruptStackFrame * ks) :=
  let '(next_task_id, q) := next_task (kernel_queue s) in
  let s := set_queue s q in
  match next_task_id with
  | None => Done (None, s)
  | Some next_task_id =>
      if bool_decide (current_task s = next_task_id) then Done (None, s)
      else
        lock (lk_tasks_write held);;
        s ← (match tasks s !! current_task s with
             | Some t =>
                 lock (bool_decide (current_task s ∈ lk_task held));;
                 Done (set_tasks s (<[current_task s := save_context t frame]> (tasks s)))
             | None => Done s
             end);
        t ← unwrap (tasks s !! next_task_id);
        lock (bool_decide (next_task_id ∈ lk_task held));;
        let t := match state t with Uninitialized _ => t | _ => set_state t Running end in
        let s := set_tasks s (<[next_task_id := t]> (tasks s)) in
        let new_task_frame :=
          {| fr_rip := rip t; cs := cs frame; rflags := rflags frame;
             stack_segment := stack_segment frame; stack_ptr := stack t; registers := gpr t |} in
        Done (Some new_task_frame, set_current s next_task_id (pid t) (tid t))
  end.

(** [timer_irq_entry]. *)
Definition timer_irq_entry (held : locks) (s : ks) (frame : InterruptStackFrame)
    : outcome (option InterruptStackFrame * ks) :=
  if lk_scheduler held then Done (None, s)
  else
    lock (lk_processes_write held);;
    match processes s !! current_process s with
    | None => Done (None, set_failed s (u64 (failed_scheduling s + 1)))
    | Some process =>
        let skip := Done (None, set_failed s (u64 (failed_scheduling s + 1))) in
        if bool_decide (current_process s ∈ lk_process held) then skip
        else if contains (prc_flags process) NO_PREEMPT then Done (None, s)
        else
          lock (lk_threads_write held);;
          match threads s !! current_thread s with
          | None => skip
          | Some thread =>
              if bool_decide (current_thread s ∈ lk_thread held) then skip
              else if contains (thr_flags thread) NO_PREEMPT then skip
              else irq_schedule_next_task held (set_failed s 0) frame
          end
    end.

(** [perform_task_switch], with the registers pushed by the assembly stub. *)
Record TaskStateSnapshot := {
  sn_gpr : GeneralPurposeRegisters; sn_rsp : Z; sn_rip : Z; sn_task_id : Z
}.
Definition perform_task_switch (s : ks) (st : TaskStateSnapshot) : outcome (TaskStateSnapshot * ks) :=
  let next := sn_task_id st in
  let cur := current_task s in
  _ ← unwrap (tasks s !! next);
  c ← unwrap (tasks s !! cur);
  (* both tasks are locked: the same task twice never returns *)
  lock (bool_decide (next = cur));;
  let c := {| id := id c; pid := pid c; tid := tid c; state := Waiting; kernel_stack := kernel_stack c;
              stack := VirtAddr_from_u64 (sn_rsp st); rip := VirtAddr_from_u64 (sn_rip st);
              gpr := sn_gpr st |} in
  let s := set_tasks s (<[cur := c]> (tasks s)) in
  n ← unwrap (tasks s !! next);
  let n := set_state n Running in
  let s := set_tasks s (<[next := n]> (tasks s)) in
  Done ({| sn_gpr := gpr n; sn_rsp := u64_from_VirtAddr (stack n); sn_rip := u64_from_VirtAddr (rip n);
           sn_task_id := id n |},
        set_current s next (current_process s) (current_thread s)).

(** ** Creating tasks, threads and processes *)

(** [Task::init_kernel_task]: allocates an identifier and a stack. *)
Definition init_kernel_task (s : ks) (init_fn entry_fn thread_id : Z) : outcome (Z * ks) :=
  let task_id := last_task_id s in
  '(st, sa, v) ← alloc_stack (stacks s) (vm s);
  let task := {| id := task_id; pid := KERNEL_INIT_PID; tid := thread_id;
                 state := Uninitialized (VirtAddr_new entry_fn); kernel_stack := 0; stack := st;
                 rip := VirtAddr_new init_fn; gpr := gpr_default |} in
  Done (task_id,
        {| tasks := <[task_id := task]> (tasks s); threads := threads s; processes := processes s;
           kernel_queue := kernel_queue s; current_task := current_task s;
           current_process := current_process s; current_thread := current_thread s;
           failed_scheduling := failed_scheduling s;
           last_task_id := u64 (last_task_id s + 1); first_available_tid := first_available_tid s;
           first_available_pid := first_available_pid s; first_available_tgid := first_available_tgid s;
           stacks := sa; vm := v |}).

Definition set_next_tid (s : ks) (n : Z) : ks :=
  {| tasks := tasks s; threads := threads s; processes := processes s; kernel_queue := kernel_queue s;
     current_task := current_task s; current_process := current_process s;
     current_thread := current_thread s; failed_scheduling := failed_scheduling s;
     last_task_id := last_task_id s; first_available_tid := n;
     first_available_pid := first_available_pid s; first_available_tgid := first_available_tgid s;
     stacks := stacks s; vm := vm s |}.
Definition set_registries (s : ks) (th : gmap Z Thread) (pr : gmap Z Process) : ks :=
  {| tasks := tasks s; threads := th; processes := pr; kernel_queue := kernel_queue s;
     current_task := current_task s; current_process := current_process s;
     current_thread := current_thread s; failed_scheduling := failed_scheduling s;
     last_task_id := last_task_id s; first_available_tid := first_available_tid s;
     first_available_pid := first_available_pid s; first_available_tgid := first_available_tgid s;
     stacks := stacks s; vm := vm s |}.

Definition with_thread_group (p : Process) (g : ThreadGroup) : Process :=
  {| prc_id := prc_id p; prc_name := prc_name p; prc_threads := g; parent := parent p;
     page_table := page_table p; prc_flags := prc_flags p |}.

(** [Thread::spawn_thread], whose task constructor is always [init_kernel_task]. *)
Definition spawn_thread (s : ks) (pid_ thread_entry thread_flags init_fn : Z) : outcome (Z * ks) :=
  let tid_ := first_available_tid s in
  let s := set_next_tid s (u64 (tid_ + 1)) in
  '(task_id, s) ← init_kernel_task s init_fn thread_entry tid_;
  _ ← unwrap (tasks s !! task_id);
  p ← unwrap (processes s !! pid_);
  let thread := {| thr_id := tid_; thr_task := task_id; thr_flags := thread_flags |} in
  Done (tid_, set_registries s (<[tid_ := thread]> (threads s))
                (<[pid_ := with_thread_group p (insert_thread (prc_threads p) tid_)]> (processes s))).

(** The addresses of [__process_init] and [__thread_init] are parameters. *)
Definition spawn_process_main_thread (process_init : Z) (s : ks) (pid_ thread_entry thread_flags : Z) :=
  spawn_thread s pid_ thread_entry thread_flags process_init.
Definition spawn_kernel_thread (thread_init : Z) (s : ks) (thread_entry : Z) :=
  spawn_thread s KERNEL_INIT_PID thread_entry 0 thread_init.

(** [Thread::schedule]. *)
Definition thread_schedule (s : ks) (th : Thread) : outcome ks :=
  t ← unwrap (tasks s !! thr_task th);
  Done (schedule_sys_task s (id t)).

(** [__thread_init], run by a thread when it is first scheduled: the entry point
    it jumps to. *)
Definition thread_init_entry (s : ks) : outcome Z :=
  th ← unwrap (threads s !! current_thread s);
  t ← unwrap (tasks s !! thr_task th);
  match state t with
  | Uninitialized entry => Done entry
  | _ => Panicked
  end.

(** ** Boot *)

(** The state before [init_global_scheduler]: one task, in the state of its
    default value. *)
Definition boot (v : pg A) : ks :=
  {| tasks := {[ INIT_TASK := Task_default ]}; threads := ∅; processes := ∅; kernel_queue := [];
     current_task := 0; current_process := 0; current_thread := 0; failed_scheduling := 0;
     last_task_id := 1; first_available_tid := 1; first_available_pid := 1; first_available_tgid := 1;
     stacks := stack_allocator_new KERNEL_STACK_MAPPING_BASE; vm := v |}.
Definition init_global_scheduler (s : ks) : ks := schedule_sys_task s INIT_TASK.

(** [ThreadGroup::new_empty]. *)
Definition new_empty (s : ks) : ThreadGroup * ks :=
  ({| tg_id := first_available_tgid s; tg_threads := ∅ |},
   {| tasks := tasks s; threads := threads s; processes := processes s; kernel_queue := kernel_queue s;
      current_task := current_task s; current_process := current_process s;
      current_thread := current_thread s; failed_scheduling := failed_scheduling s;
      last_task_id := last_task_id s; first_available_tid := first_available_tid s;
      first_available_pid := first_available_pid s;
      first_available_tgid := u64 (first_available_tgid s + 1);
      stacks := stacks s; vm := vm s |}).

Definition set_pid (t : Task) (p : Z) : Task :=
  {| id := id t; pid := p; tid := tid t; state := state t; kernel_stack := kernel_stack t;
     stack := stack t; rip := rip t; gpr := gpr t |}.

Definition init_kernel_process (s : ks) : outcome ks :=
  let '(g, s) := new_empty s in
  let g := insert_thread g KERNEL_INIT_TID in
  let kernel_process := {| prc_id := KERNEL_INIT_PID; prc_name := [115; 121; 115; 116; 101; 109];
    prc_threads := g; parent := None; page_table := KERNEL_PAGE_TABLE; prc_flags := 0 |} in
  t ← unwrap (tasks s !! INIT_TASK);
  let s := set_tasks s (<[INIT_TASK := set_pid t KERNEL_INIT_PID]> (tasks s)) in
  let kernel_thread := {| thr_id := KERNEL_INIT_TID; thr_task := INIT_TASK; thr_flags := 0 |} in
  Done (set_registries s (<[KERNEL_INIT_TID := kernel_thread]> (threads s))
          (<[KERNEL_INIT_PID := kernel_process]> (processes s))).

(** [PageTable::create_process_table]: the upper half of the kernel's table. *)
Definition create_process_table (v : pg A) : outcome (list Z) :=
  t ← deref (Paging.tables v !! pml4);
  Done (take 0x100 PageTable_default ++ take 0x100 (drop 0x100 t)).

(** [Process::spawn_process]: the new table is written through the physical
    address of its frame. *)
Definition spawn_process (s : ks) (process_entry flags : Z) : outcome (result Z ProcessCreationError * ks) :=
  let pid_ := first_available_pid s in
  '(r, al) ← allocate PAGE_SIZE (falloc (vm s));
  let bump (v : pg A) :=
    {| tasks := tasks s; threads := threads s; processes := processes s; kernel_queue := kernel_queue s;
       current_task := current_task s; current_process := current_process s;
       current_thread := current_thread s; failed_scheduling := failed_scheduling s;
       last_task_id := last_task_id s; first_available_tid := first_available_tid s;
       first_available_pid := u64 (pid_ + 1); first_available_tgid := first_available_tgid s;
       stacks := stacks s; vm := v |} in
  match r with
  | Err _ => Done (Err MemoryAllocationError, bump (with_falloc (vm s) al))
  | Ok page =>
      let v := with_falloc (vm s) al in
      table ← create_process_table v;
      let '(g, s) := new_empty (bump (with_tables v (<[start page := table]> (Paging.tables v)))) in
      let process := {| prc_id := pid_; prc_name := []; prc_threads := g; parent := None;
                        page_table := start page; prc_flags := flags |} in
      Done (Ok pid_, set_registries s (threads s) (<[pid_ := process]> (processes s)))
  end.

(** * Round robin *)

(** Consecutive timer interrupts, taken while no lock is held: the current task
    after each. *)
Fixpoint runs (frames : list InterruptStackFrame) (s : ks) : outcome (list Z * ks) :=
  match frames with
  | [] => Done ([], s)
  | f :: frames =>
      '(_, s) ← timer_irq_entry no_locks s f;
      let t := current_task s in
      '(ts, s) ← runs frames s;
      Done (t :: ts, s)
  end.

(** What one run of the scheduler does. *)
Lemma irq_schedule_spec held s frame r s' :
  irq_schedule_next_task held s frame = Done (r, s') →
  threads s' = threads s ∧ processes s' = processes s ∧ last_task_id s' = last_task_id s
  ∧ first_available_tid s' = first_available_tid s ∧ first_available_pid s' = first_available_pid s
  ∧ kernel_queue s' = snd (next_task (kernel_queue s))
  ∧ match fst (next_task (kernel_queue s)) with
    | None => r = None ∧ tasks s' = tasks s ∧ current_task s' = current_task s
    | Some n =>
        current_task s' = n
        ∧ if bool_decide (current_task s = n) then r = None ∧ tasks s' = tasks s
            ∧ current_process s' = current_process s ∧ current_thread s' = current_thread s
          else ∃ k, tasks s !! n = Some k
            ∧ let t := match state k with Uninitialized _ => k | _ => set_state k Running end in
              let saved := alter (λ c, save_context c frame) (current_task s) (tasks s) in
              tasks s' = <[n := t]> saved
              ∧ r = Some {| fr_rip := rip k; cs := cs frame; rflags := rflags frame;
                            stack_segment := stack_segment frame; stack_ptr := stack k; registers := gpr k |}
              ∧ current_process s' = pid k ∧ current_thread s' = tid k
    end.
Proof.
  unfold irq_schedule_next_task. destruct (next_task (kernel_queue s)) as [[n|] q]; simpl.
  2:{ by intros [= <- <-]. }
  case_bool_decide as Hcn; [by intros [= <- <-]|].
  intros Hr. apply outcome_bind_Done in Hr as (? & _ & Hr).
  apply outcome_bind_Done in Hr as (s1 & Hs1 & Hr).
  apply outcome_bind_Done in Hr as (t & Ht & Hr). apply unwrap_Done in Ht.
  apply outcome_bind_Done in Hr as (? & _ & Hr).
  assert (Hsv : s1 = set_tasks (set_queue s q) (alter (λ c, save_context c frame) (current_task s) (tasks s))).
  { destruct (tasks s !! current_task s) as [c|] eqn:Hc.
    - apply outcome_bind_Done in Hs1 as (? & _ & Hs1). injection Hs1 as <-. f_equal.
      apply map_eq. intros i. destruct (decide (i = current_task s)) as [->|Hi].
      + by rewrite lookup_insert_eq, lookup_alter_eq, Hc.
      + by rewrite lookup_insert_ne, lookup_alter_ne by done.
    - injection Hs1 as <-. unfold set_queue, set_tasks. simpl. f_equal.
      apply map_eq. intros i. destruct (decide (i = current_task s)) as [->|Hi].
      + by rewrite lookup_alter_eq, Hc.
      + by rewrite lookup_alter_ne by done. }
  subst s1. simpl in Ht. rewrite lookup_alter_ne in Ht by done.
  injection Hr as <- <-. split_and!; try done. exists t. split; [done|]. simpl.
  by destruct (state t).
Qed.

(** ** Contexts *)

Definition context (s : ks) (t : Z) : option (Z * Z * GeneralPurposeRegisters) :=
  (λ k, (rip k, stack k, gpr k)) <$> tasks s !! t.

(** A timer interrupt that does not switch leaves the directory alone. *)
Lemma timer_cases held s frame r s' : timer_irq_entry held s frame = Done (r, s') →
  (r = None ∧ tasks s' = tasks s ∧ current_task s' = current_task s
   ∧ kernel_queue s' = kernel_queue s ∧ threads s' = threads s ∧ processes s' = processes s
   ∧ last_task_id s' = last_task_id s ∧ first_available_tid s' = first_available_tid s
   ∧ first_available_pid s' = first_available_pid s)
  ∨ irq_schedule_next_task held (set_failed s 0) frame = Done (r, s').
Proof.
  unfold timer_irq_entry. destruct (lk_scheduler held); [intros [= <- <-]; by left|]. intros Ht.
  apply outcome_bind_Done in Ht as (? & _ & Ht).
  destruct (processes s !! _) as [p|]; [|injection Ht as <- <-; by left].
  case_bool_decide; [injection Ht as <- <-; by left|].
  destruct (contains _ _); [injection Ht as <- <-; by left|].
  apply outcome_bind_Done in Ht as (? & _ & Ht).
  destruct (threads s !! _) as [th|]; [|injection Ht as <- <-; by left].
  case_bool_decide; [injection Ht as <- <-; by left|].
  destruct (contains _ _); [injection Ht as <- <-; by left|by right].
Qed.

Lemma timer_context held s frame r s' t : timer_irq_entry held s frame = Done (r, s') →
  t ≠ current_task s → context s' t = context s t.
Proof.
  intros Ht Hne. apply timer_cases in Ht as [(_ & Ht & _)|Ht]; [by unfold context; rewrite Ht|].
  apply irq_schedule_spec in Ht as (_ & _ & _ & _ & _ & _ & Ht). simpl in Ht.
  destruct (fst (next_task _)) as [n|]; [|destruct Ht as (_ & Ht & _); by unfold context; rewrite Ht].
  destruct Ht as [_ Ht]. case_bool_decide; [destruct Ht as (_ & Ht & _); by unfold context; rewrite Ht|].
  destruct Ht as (k & Hk & Ht & _). unfold context. rewrite Ht.
  destruct (decide (t = n)) as [->|Hn].
  - rewrite lookup_insert_eq, Hk. simpl. by destruct (state k).
  - by rewrite lookup_insert_ne, lookup_alter_ne by done.
Qed.

Lemma timer_switch held s frame g s' : timer_irq_entry held s frame = Done (Some g, s') →
  current_task s' ≠ current_task s ∧ ∃ k, tasks s !! current_task s' = Some k
  ∧ g = {| fr_rip := rip k; cs := cs frame; rflags := rflags frame;
           stack_segment := stack_segment frame; stack_ptr := stack k; registers := gpr k |}
  ∧ (∀ c, tasks s !! current_task s = Some c →
      tasks s' !! current_task s = Some (save_context c frame))
  ∧ current_process s' = pid k ∧ current_thread s' = tid k.
Proof.
  intros Ht. apply timer_cases in Ht as [(? & _)|Ht]; [done|].
  apply irq_schedule_spec in Ht as (_ & _ & _ & _ & _ & _ & Ht). simpl in Ht.
  destruct (fst (next_task _)) as [n|]; [|by destruct Ht]. destruct Ht as [-> Ht].
  case_bool_decide as Hn; [by destruct Ht|]. destruct Ht as (k & Hk & Ht & [= ->] & Hp & Hth).
  split; [done|]. exists k. split_and!; [done|done| |done|done].
  intros c Hc. rewrite Ht, lookup_insert_ne, lookup_alter_eq, Hc by done. done.
Qed.

(** ** Fairness *)

Lemma rotate_insert_task t q n : rotate n (insert_task q t) = rotate (S n) (t :: q).
Proof.
  unfold rotate, insert_task. rewrite length_app, Nat.add_comm. cbn [length Nat.add].
  set (m := S (length q)). set (r := (n mod m)%nat).
  assert (Hr : (r < m)%nat) by (by apply Nat.mod_upper_bound).
  assert (HS : (S n mod m)%nat = if decide (r = length q) then 0%nat else S r).
  { change (S n) with (1 + n)%nat. rewrite <- Nat.Div0.add_mod_idemp_r. fold r.
    destruct (decide _) as [->|Hne]; [apply Nat.Div0.mod_same|apply Nat.mod_small; lia]. }
  rewrite HS. destruct (decide _) as [->|Hne]; simpl.
  - by rewrite drop_app_length, take_app_length, app_nil_r.
  - rewrite drop_app_le, take_app_le by lia. by rewrite <- app_assoc.
Qed.

Lemma rotate_nth (t : Z) q n : head (rotate n (t :: q)) = (t :: q) !! (n mod length (t :: q))%nat.
Proof.
  unfold rotate. set (r := (n mod _)%nat).
  assert (Hr : (r < length (t :: q))%nat) by (by apply Nat.mod_upper_bound).
  destruct (drop r (t :: q)) as [|x l] eqn:Hd.
  { apply (f_equal length) in Hd. rewrite length_drop in Hd. simpl in *. lia. }
  simpl. by rewrite <- (Nat.add_0_r r), <- lookup_drop, Hd.
Qed.

Definition queue_ok (s : ks) : Prop := ∀ t, t ∈ kernel_queue s → is_Some (tasks s !! t).

Lemma irq_schedule_runs s frame t q : kernel_queue s = t :: q → queue_ok s →
  ∃ r s', irq_schedule_next_task no_locks s frame = Done (r, s') ∧ current_task s' = t
    ∧ kernel_queue s' = insert_task q t ∧ queue_ok s'.
Proof.
  intros Hq Hok. assert (Hr : ∃ r s', irq_schedule_next_task no_locks s frame = Done (r, s')).
  { unfold irq_schedule_next_task. rewrite Hq. simpl. case_bool_decide as Hcn; [eauto|].
    destruct (Hok t ltac:(rewrite Hq; set_solver)) as [k Hk].
    destruct (tasks s !! current_task s) as [c|] eqn:Hc; simpl.
    - rewrite (bool_decide_false (current_task s ∈ _)) by set_solver. simpl.
      rewrite lookup_insert_ne, Hk by done. simpl.
      rewrite (bool_decide_false (t ∈ _)) by set_solver. simpl. eauto.
    - rewrite Hk. simpl. rewrite (bool_decide_false (t ∈ _)) by set_solver. simpl. eauto. }
  destruct Hr as (r & s' & Hr). exists r, s'. split; [done|].
  apply irq_schedule_spec in Hr as (_ & _ & _ & _ & _ & Hq' & Hr). rewrite Hq in Hq', Hr. simpl in *.
  destruct Hr as [Hcur Hr]. split_and!; [done|done|].
  intros x Hx. rewrite Hq' in Hx. unfold insert_task in Hx.
  assert (Hxs : is_Some (tasks s !! x)) by (apply Hok; rewrite Hq; set_solver).
  case_bool_decide; [destruct Hr as (_ & -> & _); done|]. destruct Hr as (k & _ & -> & _).
  destruct (decide (x = t)) as [->|]; [by rewrite lookup_insert_eq|].
  rewrite lookup_insert_ne by done. destruct Hxs as [k' Hk'].
  destruct (decide (x = current_task s)) as [->|]; [rewrite lookup_alter_eq|rewrite lookup_alter_ne by done];
    rewrite Hk'; by eexists.
Qed.

(** A process and a thread that the timer may preempt. *)
Definition may_preempt (s : ks) (p h : Z) : Prop :=
  (∃ prc, processes s !! p = Some prc ∧ contains (prc_flags prc) NO_PREEMPT = false)
  ∧ (∃ th, threads s !! h = Some th ∧ contains (thr_flags th) NO_PREEMPT = false).

(** The running task and all the queued ones may be preempted. *)
Definition all_preemptible (s : ks) : Prop :=
  may_preempt s (current_process s) (current_thread s)
  ∧ ∀ t, t ∈ kernel_queue s → ∃ k, tasks s !! t = Some k ∧ may_preempt s (pid k) (tid k).

Lemma timer_preempts s frame : may_preempt s (current_process s) (current_thread s) →
  timer_irq_entry no_locks s frame = irq_schedule_next_task no_locks (set_failed s 0) frame.
Proof.
  intros [(prc & Hp & Hpf) (th & Hth & Htf)]. unfold timer_irq_entry. simpl.
  rewrite Hp, bool_decide_false, Hpf by set_solver. simpl.
  by rewrite Hth, bool_decide_false, Htf by set_solver.
Qed.

Lemma timer_turn s frame t q : kernel_queue s = t :: q → all_preemptible s →
  ∃ r s', timer_irq_entry no_locks s frame = Done (r, s') ∧ current_task s' = t
    ∧ kernel_queue s' = insert_task q t ∧ all_preemptible s'.
Proof.
  intros Hq [Hcur Hall]. rewrite timer_preempts by done.
  assert (Hok : queue_ok (set_failed s 0)) by (intros x Hx; destruct (Hall x Hx) as (k & ? & _); by exists k).
  destruct (irq_schedule_runs (set_failed s 0) frame t q Hq Hok) as (r & s' & Hr & Hc & Hq' & _).
  exists r, s'. split_and!; [done..|].
  apply irq_schedule_spec in Hr as (Hth & Hpr & _ & _ & _ & _ & Hr). simpl in Hth, Hpr, Hr.
  assert (Hmay : ∀ p h, may_preempt s p h → may_preempt s' p h)
    by (intros p h; unfold may_preempt; by rewrite Hth, Hpr).
  assert (Hqs : ∀ x, x ∈ kernel_queue s' → x ∈ kernel_queue s)
    by (intros x; rewrite Hq', Hq; unfold insert_task; set_solver).
  rewrite Hq in Hr. simpl in Hr. destruct Hr as [_ Hr]. case_bool_decide as Hct.
  - destruct Hr as (_ & Ht & Hcp & Hch). split.
    + rewrite Hcp, Hch. by apply Hmay.
    + intros x Hx%Hqs. destruct (Hall x Hx) as (k & Hk & Hm). exists k. rewrite Ht. eauto.
  - destruct Hr as (k & Hk & Ht & _ & Hcp & Hch). split.
    + rewrite Hcp, Hch. apply Hmay. destruct (Hall t ltac:(rewrite Hq; set_solver)) as (k' & Hk' & Hm).
      by simplify_eq.
    + intros x Hx%Hqs. destruct (Hall x Hx) as (kx & Hkx & Hm%Hmay). rewrite Ht.
      destruct (decide (x = t)) as [->|Hxt].
      * rewrite Hk in Hkx. injection Hkx as <-. rewrite lookup_insert_eq. eexists. split; [done|]. by destruct (state k).
      * rewrite lookup_insert_ne by done. destruct (decide (x = current_task s)) as [->|Hxc].
        -- rewrite lookup_alter_eq, Hkx. simpl. by eexists.
        -- rewrite lookup_alter_ne by done. by exists kx.
Qed.

(** C19: the timer is a round robin: when no lock is held and neither the running
    nor a queued task belongs to a process or thread that refuses preemption,
    consecutive timer interrupts from a queue of [n] tasks all return; the current
    task after interrupt [i], counted from 0, is the one at position [i mod n] of
    the queue, so that every queued task runs once in every [n] interrupts; and
    the queue they leave is the initial one rotated by their number. *)
Theorem round_robin frames s : kernel_queue s ≠ [] → all_preemptible s →
  ∃ ts s', runs frames s = Done (ts, s') ∧ length ts = length frames
  ∧ (∀ i, (i < length frames)%nat →
      ts !! i = kernel_queue s !! (i mod length (kernel_queue s))%nat)
  ∧ kernel_queue s' = rotate (length frames) (kernel_queue s) ∧ all_preemptible s'.
Proof.
  revert s. induction frames as [|f frames IH]; intros s Hne Hok.
  { exists [], s. split_and!; [done|done| | |done].
    - intros i Hi. simpl in Hi. lia.
    - unfold rotate. rewrite Nat.Div0.mod_0_l, drop_0. simpl. by rewrite app_nil_r. }
  destruct (kernel_queue s) as [|t q] eqn:Hq; [done|].
  destruct (timer_turn s f t q Hq Hok) as (r & s1 & Hr & Hcur & Hq1 & Hok1).
  destruct (IH s1) as (ts & s2 & Hruns & Hlen & Hts & Hq2 & Hok2); [rewrite Hq1; by destruct q|done|].
  exists (t :: ts), s2. split; [simpl; rewrite Hr; simpl; rewrite Hruns; simpl; by rewrite Hcur|].
  split_and!; [simpl; lia| |by rewrite Hq2, Hq1, rotate_insert_task|done].
  intros [|i] Hi; [by rewrite Nat.Div0.mod_0_l|].
  change ((t :: ts) !! S i) with (ts !! i). rewrite Hts by (simpl in Hi; lia).
  rewrite <- rotate_nth, <- rotate_insert_task, Hq1.
  destruct (insert_task q t) as [|x l] eqn:Hx; [by destruct q|]. by rewrite rotate_nth.
Qed.

(** ** The scheduler invariant

    Tasks, threads and processes are registered under their own identifier, which
    is below the counter the next one is taken from; the queue and the threads
    refer to existing tasks, and no task but the current one is marked running. *)
Record sinv (s : ks) : Prop := {
  sinv_id t k : tasks s !! t = Some k → id k = t ∧ 0 ≤ t < last_task_id s;
  sinv_running t k : tasks s !! t = Some k → state k = Running → t = current_task s;
  sinv_current : is_Some (tasks s !! current_task s);
  sinv_queue : queue_ok s;
  sinv_threads h th : threads s !! h = Some th → thr_id th = h ∧ is_Some (tasks s !! thr_task th);
  sinv_tid h th : threads s !! h = Some th → 0 ≤ h < first_available_tid s;
  sinv_pid p prc : processes s !! p = Some prc → 0 ≤ p < first_available_pid s;
  sinv_counters : 0 < last_task_id s ∧ 0 < first_available_tid s ∧ 0 < first_available_pid s
}.

(** The operations on the kernel state: timer interrupts, voluntary switches,
    thread and process creation, scheduling a thread.  Creation is followed while
    its 64-bit counters do not wrap. *)
Inductive kstep : ks → ks → Prop :=
  | kstep_timer held s frame r s' : timer_irq_entry held s frame = Done (r, s') → kstep s s'
  | kstep_switch s st r s' : perform_task_switch s st = Done (r, s') → kstep s s'
  | kstep_spawn s p e fl i h s' : last_task_id s + 1 < 2 ^ 64 → first_available_tid s + 1 < 2 ^ 64 →
      spawn_thread s p e fl i = Done (h, s') → kstep s s'
  | kstep_schedule s th s' : (∃ h, threads s !! h = Some th) →
      thread_schedule s th = Done s' → kstep s s'
  | kstep_process s e fl r s' : first_available_pid s + 1 < 2 ^ 64 →
      spawn_process s e fl = Done (r, s') → kstep s s'.

Lemma alter_is_Some {B} (f : B → B) i j (m : gmap Z B) : is_Some (alter f i m !! j) ↔ is_Some (m !! j).
Proof.
  destruct (decide (j = i)) as [->|]; [rewrite lookup_alter_eq; apply fmap_is_Some|].
  by rewrite lookup_alter_ne.
Qed.

Lemma sinv_same_tasks s s' : sinv s → tasks s' = tasks s → current_task s' = current_task s →
  last_task_id s' = last_task_id s → threads s' = threads s → processes s' = processes s →
  first_available_tid s' = first_available_tid s → first_available_pid s' = first_available_pid s →
  queue_ok s' → sinv s'.
Proof.
  intros [H1 H2 H3 H4 H5 H6 H7 H8] Ht Hc Hl Hth Hp Hft Hfp Hq.
  split; rewrite ?Ht, ?Hc, ?Hl, ?Hth, ?Hp, ?Hft, ?Hfp; done.
Qed.

Lemma irq_schedule_sinv held s frame r s' : sinv s →
  irq_schedule_next_task held s frame = Done (r, s') → sinv s'.
Proof.
  intros HI Hr. apply irq_schedule_spec in Hr as (Hth & Hpr & Hl & Hft & Hfp & Hq & Hr).
  assert (Hqs : ∀ t, t ∈ kernel_queue s' → is_Some (tasks s !! t)).
  { intros t Ht. apply (sinv_queue s HI). rewrite Hq in Ht. destruct (kernel_queue s) as [|x q]; [done|].
    simpl in Ht. unfold insert_task in Ht. set_solver. }
  destruct (fst (next_task (kernel_queue s))) as [n|] eqn:Hn.
  2:{ destruct Hr as (_ & Ht & Hc). apply (sinv_same_tasks s); try done. intros t. rewrite Ht. apply Hqs. }
  destruct Hr as [Hc Hr]. case_bool_decide as Hcn.
  { destruct Hr as (_ & Ht & _). apply (sinv_same_tasks s); try done; [congruence|]. intros t. rewrite Ht. apply Hqs. }
  destruct Hr as (k & Hk & Ht & _). set (k' := match state k with Uninitialized _ => k | _ => set_state k Running end) in *.
  assert (Hk' : id k' = id k) by (unfold k'; by destruct (state k)).
  assert (Hsome : ∀ x, is_Some (tasks s !! x) → is_Some (tasks s' !! x)).
  { intros x Hx. rewrite Ht. destruct (decide (x = n)) as [->|]; [rewrite lookup_insert_eq; by eexists|].
    rewrite lookup_insert_ne by done. by apply alter_is_Some. }
  assert (Hinv : ∀ x j, tasks s' !! x = Some j →
    ∃ j0, tasks s !! x = Some j0 ∧ id j = id j0 ∧ (state j = Running → x = n)).
  { intros x j Hj. rewrite Ht in Hj. destruct (decide (x = n)) as [->|Hxn].
    { rewrite lookup_insert_eq in Hj. simplify_eq. by exists k. }
    rewrite lookup_insert_ne in Hj by done. destruct (decide (x = current_task s)) as [->|Hxc].
    - rewrite lookup_alter_eq in Hj. apply fmap_Some in Hj as (j0 & Hj0 & ->). by exists j0.
    - rewrite lookup_alter_ne in Hj by done. exists j. split_and!; [done|done|].
      intros Hrun. by pose proof (sinv_running s HI _ _ Hj Hrun). }
  split.
  - intros x j Hj. destruct (Hinv x j Hj) as (j0 & Hj0 & -> & _). rewrite Hl. by apply (sinv_id s HI).
  - intros x j Hj Hrun. destruct (Hinv x j Hj) as (j0 & Hj0 & _ & Hx). rewrite Hc. auto.
  - rewrite Hc. apply Hsome. by eexists.
  - intros x Hx. apply Hsome. by apply Hqs.
  - intros h th Hh. rewrite Hth in Hh. destruct (sinv_threads s HI _ _ Hh) as [? ?]. auto.
  - intros h th. rewrite Hth, Hft. apply (sinv_tid s HI).
  - intros p prc. rewrite Hpr, Hfp. apply (sinv_pid s HI).
  - rewrite Hl, Hft, Hfp. apply (sinv_counters s HI).
Qed.

(** What a voluntary switch does. *)
Lemma perform_task_switch_inv s st r s' : perform_task_switch s st = Done (r, s') →
  ∃ c n, tasks s !! current_task s = Some c ∧ tasks s !! sn_task_id st = Some n
  ∧ sn_task_id st ≠ current_task s ∧ current_task s' = sn_task_id st
  ∧ r = {| sn_gpr := gpr n; sn_rsp := u64_from_VirtAddr (stack n); sn_rip := u64_from_VirtAddr (rip n);
           sn_task_id := id n |}
  ∧ tasks s' = <[sn_task_id st := set_state n Running]>
      (<[current_task s := {| id := id c; pid := pid c; tid := tid c; state := Waiting;
           kernel_stack := kernel_stack c; stack := VirtAddr_from_u64 (sn_rsp st);
           rip := VirtAddr_from_u64 (sn_rip st); gpr := sn_gpr st |}]> (tasks s))
  ∧ threads s' = threads s ∧ processes s' = processes s ∧ kernel_queue s' = kernel_queue s
  ∧ last_task_id s' = last_task_id s ∧ first_available_tid s' = first_available_tid s
  ∧ first_available_pid s' = first_available_pid s.
Proof.
  unfold perform_task_switch. intros Hs. apply outcome_bind_Done in Hs as (n & Hn & Hs).
  apply unwrap_Done in Hn. apply outcome_bind_Done in Hs as (c & Hc & Hs). apply unwrap_Done in Hc.
  apply outcome_bind_Done in Hs as (? & Hl & Hs).
  assert (Hne : sn_task_id st ≠ current_task s) by (intros E; rewrite bool_decide_true in Hl by done; done).
  simpl in Hs. rewrite lookup_insert_ne, Hn in Hs by done. simpl in Hs. injection Hs as <- <-.
  exists c, n. by split_and!.
Qed.

Lemma perform_task_switch_sinv s st r s' : sinv s → perform_task_switch s st = Done (r, s') → sinv s'.
Proof.
  intros HI Hs. apply perform_task_switch_inv in Hs
    as (c & n & Hc & Hn & Hne & Hcur & _ & Ht & Hth & Hpr & Hq & Hl & Hft & Hfp).
  assert (Hsome : ∀ x, is_Some (tasks s !! x) → is_Some (tasks s' !! x)).
  { intros x Hx. rewrite Ht, !lookup_insert_is_Some'. auto. }
  split; rewrite ?Hth, ?Hpr, ?Hl, ?Hft, ?Hfp, ?Hcur.
  - intros x k. rewrite Ht. intros [[<- <-]|[_ [[<- <-]|[_ Hk]]%lookup_insert_Some]]%lookup_insert_Some; simpl;
      by eapply (sinv_id s HI).
  - intros x k. rewrite Ht. intros [[<- <-]|[Hx [[<- <-]|[Hxc Hk]]%lookup_insert_Some]]%lookup_insert_Some; [done..|].
    intros Hrun. by destruct Hxc; rewrite (sinv_running s HI _ _ Hk Hrun).
  - by apply Hsome.
  - intros x. rewrite Hq. intros Hx. by apply Hsome, (sinv_queue s HI).
  - intros h th Hh. destruct (sinv_threads s HI _ _ Hh) as [? ?]. auto.
  - apply (sinv_tid s HI).
  - apply (sinv_pid s HI).
  - apply (sinv_counters s HI).
Qed.

Lemma spawn_thread_inv s p e fl i h s' : spawn_thread s p e fl i = Done (h, s') →
  ∃ st prc, h = first_available_tid s ∧ processes s !! p = Some prc
  ∧ tasks s' = <[last_task_id s := {| id := last_task_id s; pid := KERNEL_INIT_PID; tid := h;
        state := Uninitialized (VirtAddr_new e); kernel_stack := 0; stack := st;
        rip := VirtAddr_new i; gpr := gpr_default |}]> (tasks s)
  ∧ threads s' = <[h := {| thr_id := h; thr_task := last_task_id s; thr_flags := fl |}]> (threads s)
  ∧ processes s' = <[p := with_thread_group prc (insert_thread (prc_threads prc) h)]> (processes s)
  ∧ kernel_queue s' = kernel_queue s ∧ current_task s' = current_task s
  ∧ last_task_id s' = u64 (last_task_id s + 1)
  ∧ first_available_tid s' = u64 (first_available_tid s + 1)
  ∧ first_available_pid s' = first_available_pid s.
Proof.
  unfold spawn_thread, init_kernel_task. intros Hs.
  apply outcome_bind_Done in Hs as ([task_id s1] & Hs1 & Hs).
  apply outcome_bind_Done in Hs1 as ([[st sa] v] & Hst & Hs1). injection Hs1 as <- <-. simpl in Hs.
  apply outcome_bind_Done in Hs as (k & Hk & Hs). apply outcome_bind_Done in Hs as (prc & Hp & Hs).
  apply unwrap_Done in Hp. simpl in Hp. injection Hs as <- <-. exists st, prc. by split_and!.
Qed.

Lemma spawn_thread_sinv s p e fl i h s' : sinv s →
  last_task_id s + 1 < 2 ^ 64 → first_available_tid s + 1 < 2 ^ 64 →
  spawn_thread s p e fl i = Done (h, s') → sinv s'.
Proof.
  intros HI Hb1 Hb2 Hs.
  apply spawn_thread_inv in Hs as (st & prc & -> & Hp & Ht & Hth & Hpr & Hq & Hc & Hl & Hft & Hfp).
  destruct (sinv_counters s HI) as (Hc1 & Hc2 & Hc3). rewrite u64_id in Hl, Hft by lia.
  assert (Hfresh : tasks s !! last_task_id s = None).
  { destruct (tasks s !! last_task_id s) eqn:E; [|done]. apply (sinv_id s HI) in E. lia. }
  assert (Hsome : ∀ x, is_Some (tasks s !! x) → is_Some (tasks s' !! x)).
  { intros x [k Hk]. rewrite Ht, lookup_insert_ne by congruence. by eexists. }
  split.
  - intros x k. rewrite Ht, Hl. intros [[<- <-]|[_ Hk]]%lookup_insert_Some; [simpl; lia|].
    apply (sinv_id s HI) in Hk. lia.
  - intros x k. rewrite Ht, Hc. intros [[<- <-]|[_ Hk]]%lookup_insert_Some; [done|]. by apply (sinv_running s HI).
  - rewrite Hc. apply Hsome, (sinv_current s HI).
  - intros x. rewrite Hq. intros Hx. by apply Hsome, (sinv_queue s HI).
  - intros h th. rewrite Hth. intros [[<- <-]|[_ Hk]]%lookup_insert_Some; simpl.
    + split; [done|]. rewrite Ht, lookup_insert_eq. by eexists.
    + apply (sinv_threads s HI) in Hk as [? ?]. auto.
  - intros h th. rewrite Hth, Hft. intros [[<- <-]|[_ Hk]]%lookup_insert_Some; [lia|].
    apply (sinv_tid s HI) in Hk. lia.
  - intros q prc'. rewrite Hpr, Hfp. intros [[<- <-]|[_ Hk]]%lookup_insert_Some; by eapply (sinv_pid s HI).
  - rewrite Hl, Hft, Hfp. lia.
Qed.

(** What a process creation changes. *)
Lemma spawn_process_inv s e fl r s' : spawn_process s e fl = Done (r, s') →
  tasks s' = tasks s ∧ threads s' = threads s ∧ kernel_queue s' = kernel_queue s
  ∧ current_task s' = current_task s ∧ last_task_id s' = last_task_id s
  ∧ first_available_tid s' = first_available_tid s
  ∧ first_available_pid s' = u64 (first_available_pid s + 1)
  ∧ (processes s' = processes s ∨ ∃ prc, processes s' = <[first_available_pid s := prc]> (processes s)).
Proof.
  unfold spawn_process. intros Hs. apply outcome_bind_Done in Hs as ([r1 al] & _ & Hs).
  destruct r1 as [page|err].
  - apply outcome_bind_Done in Hs as (table & _ & Hs). injection Hs as <- <-.
    split_and!; [done..|]. right. by eexists.
  - injection Hs as <- <-. split_and!; [done..|]. by left.
Qed.

Lemma spawn_process_sinv s e fl r s' : sinv s → first_available_pid s + 1 < 2 ^ 64 →
  spawn_process s e fl = Done (r, s') → sinv s'.
Proof.
  intros HI Hb Hs. apply spawn_process_inv in Hs as (Ht & Hth & Hq & Hc & Hl & Hft & Hfp & Hpr).
  destruct (sinv_counters s HI) as (Hc1 & Hc2 & Hc3). rewrite u64_id in Hfp by lia.
  split; rewrite ?Ht, ?Hth, ?Hc, ?Hl, ?Hft; try apply HI.
  - intros x. rewrite Ht, Hq. apply (sinv_queue s HI).
  - intros p prc. rewrite Hfp. destruct Hpr as [->|[prc' ->]].
    + intros Hk%(sinv_pid s HI). lia.
    + intros [[<- _]|[_ Hk%(sinv_pid s HI)]]%lookup_insert_Some; lia.
  - lia.
Qed.

Lemma kstep_sinv s s' : sinv s → kstep s s' → sinv s'.
Proof.
  intros HI Hstep.
  destruct Hstep as [held s frame r s' Ht|s st r s' Hs|s p e fl i h s' Hb1 Hb2 Hs|s th s' Hth Hs|s e fl r s' Hb Hs].
  - apply timer_cases in Ht as [(_ & Ht & Hc & Hq & Hth & Hpr & Hl & Hft & Hfp)|Ht].
    + apply (sinv_same_tasks s); try done. intros t. rewrite Hq, Ht. apply (sinv_queue s HI).
    + eapply irq_schedule_sinv; [|done]. by apply (sinv_same_tasks s); [..|apply (sinv_queue s HI)].
  - by eapply perform_task_switch_sinv.
  - by eapply spawn_thread_sinv.
  - unfold thread_schedule in Hs. apply outcome_bind_Done in Hs as (k & Hk & Hs). apply unwrap_Done in Hk.
    injection Hs as <-. apply (sinv_same_tasks s); try done.
    intros x. simpl. unfold insert_task. intros [Hx|Hx]%elem_of_app; [by apply (sinv_queue s HI)|].
    apply list_elem_of_singleton in Hx as ->. destruct (sinv_id s HI _ _ Hk) as [-> _]. by eexists.
  - by eapply spawn_process_sinv.
Qed.

Lemma timer_returns s frame : sinv s → ∃ r s', timer_irq_entry no_locks s frame = Done (r, s').
Proof.
  intros HI. unfold timer_irq_entry. simpl. destruct (processes s !! _) as [p|]; [|eauto].
  rewrite bool_decide_false by set_solver. destruct (contains (prc_flags p) _); [eauto|]. simpl.
  destruct (threads s !! _) as [th|]; [|eauto].
  rewrite bool_decide_false by set_solver. destruct (contains (thr_flags th) _); [eauto|].
  destruct (kernel_queue s) as [|t q] eqn:Hq.
  - unfold irq_schedule_next_task. simpl. rewrite Hq. simpl. eauto.
  - destruct (irq_schedule_runs (set_failed s 0) frame t q Hq) as (r & s' & -> & _); [apply (sinv_queue s HI)|eauto].
Qed.

Definition booted (v : pg A) (s : ks) : Prop :=
  init_kernel_process (init_global_scheduler (boot v)) = Done s.

Lemma booted_sinv v s : booted v s → sinv s.
Proof.
  unfold booted, init_kernel_process. simpl. rewrite lookup_singleton_eq. simpl. intros [= <-].
  split; simpl.
  - intros t k [[<- <-]|[Hne [? _]%lookup_singleton_Some]]%lookup_insert_Some; [split; [done|unfold INIT_TASK; lia]|done].
  - intros t k [[<- <-]|[Hne [? _]%lookup_singleton_Some]]%lookup_insert_Some; [done|done].
  - rewrite lookup_insert_eq. by eexists.
  - intros t. simpl. intros ->%list_elem_of_singleton. rewrite lookup_insert_eq. by eexists.
  - intros h th [<- <-]%lookup_singleton_Some. simpl. split; [done|]. rewrite lookup_insert_eq. by eexists.
  - intros h th [<- _]%lookup_singleton_Some. unfold KERNEL_INIT_TID. lia.
  - intros p prc [<- _]%lookup_singleton_Some. unfold KERNEL_INIT_PID. lia.
  - lia.
Qed.

(** The states that the kernel reaches from boot. *)
Definition reachable (s : ks) : Prop := ∃ v s0, booted v s0 ∧ rtc kstep s0 s.

Lemma rtc_kstep_sinv s s' : rtc kstep s s' → sinv s → sinv s'.
Proof. induction 1; eauto using kstep_sinv. Qed.

Lemma reachable_sinv s : reachable s → sinv s.
Proof. intros (v & s0 & Hb%booted_sinv & Hr). by eapply rtc_kstep_sinv. Qed.

(** C7: from the state the kernel boots in, whatever threads and processes are
    created and scheduled, whatever voluntary switches are made and whatever timer
    interrupts are taken (as long as the 64-bit counters do not wrap), every
    queued task exists, every task is registered under its own identifier, the
    counters are ahead of every identifier of a task, thread or process, no task
    but the current one is marked as running, and the timer interrupt, taken
    while no lock is held, always returns: it never panics on a non-existent
    task. *)
Theorem scheduler_safe s : reachable s →
  (∀ t, t ∈ kernel_queue s → is_Some (tasks s !! t))
  ∧ (∀ t k, tasks s !! t = Some k → id k = t ∧ t < last_task_id s)
  ∧ (∀ h th, threads s !! h = Some th →
       thr_id th = h ∧ h < first_available_tid s ∧ is_Some (tasks s !! thr_task th))
  ∧ (∀ p prc, processes s !! p = Some prc → p < first_available_pid s)
  ∧ (∀ t k, tasks s !! t = Some k → state k = Running → t = current_task s)
  ∧ (∀ frame, ∃ r s', timer_irq_entry no_locks s frame = Done (r, s')).
Proof.
  intros HI%reachable_sinv. split_and!.
  - apply (sinv_queue s HI).
  - intros t k Hk%(sinv_id s HI). lia.
  - intros h th Hh. destruct (sinv_threads s HI _ _ Hh), (sinv_tid s HI _ _ Hh). done.
  - intros p prc Hp%(sinv_pid s HI). lia.
  - apply (sinv_running s HI).
  - intros. by apply timer_returns.
Qed.

(** ** A task that is switched out *)

(** Any operation of the kernel while [t] is not the running task. *)
Definition away (t : Z) (s s' : ks) : Prop := current_task s ≠ t ∧ kstep s s'.

Lemma kstep_context s s' t : sinv s → kstep s s' → current_task s ≠ t →
  is_Some (context s t) → context s' t = context s t.
Proof.
  intros HI Hstep Hne Hsome. unfold context in *.
  destruct Hstep as [held s frame r s' Ht|s st r s' Hs|s p e fl i h s' Hb1 Hb2 Hs|s th s' Hth Hs|s e fl r s' Hb Hs].
  - by apply (timer_context held s frame r).
  - apply perform_task_switch_inv in Hs as (c & n & _ & Hn & _ & _ & _ & -> & _).
    destruct (decide (t = sn_task_id st)) as [->|]; [by rewrite lookup_insert_eq, Hn|].
    by rewrite !lookup_insert_ne by congruence.
  - apply spawn_thread_inv in Hs as (st & prc & _ & _ & -> & _).
    rewrite lookup_insert_ne; [done|]. intros <-. apply fmap_is_Some in Hsome as [k Hk].
    apply (sinv_id s HI) in Hk. lia.
  - unfold thread_schedule in Hs. apply outcome_bind_Done in Hs as (k & _ & Hs). by injection Hs as <-.
  - by apply spawn_process_inv in Hs as (-> & _).
Qed.

Lemma away_context t s s' : rtc (away t) s s' → sinv s → is_Some (context s t) →
  context s' t = context s t ∧ sinv s'.
Proof.
  induction 1 as [|s1 s2 s3 [Hne Hs] _ IH]; [done|]. intros HI Hsome.
  pose proof (kstep_context _ _ _ HI Hs Hne Hsome) as Hc.
  rewrite <- Hc. apply IH; [by eapply kstep_sinv|by rewrite Hc].
Qed.

(** C4: in a reachable state, a task that the timer interrupt switches out comes
    back where it was, whatever the kernel does meanwhile while other tasks run:
    timer interrupts, voluntary switches, creation of threads and processes and
    scheduling of threads.  The frame that a timer interrupt resumes it with has
    the instruction pointer, the stack pointer and the general registers it was
    interrupted with; the code and stack segments and the processor flags are
    those of the task it replaces.  A voluntary switch to it gives its stub the
    same registers, its addresses converted to integers. *)
Theorem preempted_task_resumes held s f g s1 s2 : reachable s →
  timer_irq_entry held s f = Done (Some g, s1) →
  rtc (away (current_task s)) s1 s2 →
  (∀ held2 f2 g2 s3, timer_irq_entry held2 s2 f2 = Done (Some g2, s3) → current_task s3 = current_task s →
     fr_rip g2 = fr_rip f ∧ stack_ptr g2 = stack_ptr f ∧ registers g2 = registers f
     ∧ cs g2 = cs f2 ∧ rflags g2 = rflags f2 ∧ stack_segment g2 = stack_segment f2)
  ∧ (∀ st st' s3, perform_task_switch s2 st = Done (st', s3) → sn_task_id st = current_task s →
     sn_rip st' = u64_from_VirtAddr (fr_rip f) ∧ sn_rsp st' = u64_from_VirtAddr (stack_ptr f)
     ∧ sn_gpr st' = registers f ∧ sn_task_id st' = current_task s).
Proof.
  intros HI%reachable_sinv H1 Haway. destruct (sinv_current s HI) as [c Hc].
  assert (HI1 : sinv s1) by (apply (kstep_sinv s); [done|by eapply kstep_timer]).
  apply timer_switch in H1 as (_ & _ & _ & _ & Hsave & _). specialize (Hsave c Hc).
  assert (Hs1 : context s1 (current_task s) = Some (fr_rip f, stack_ptr f, registers f))
    by (unfold context; by rewrite Hsave).
  apply away_context in Haway as [Hctx HI2]; [|done|by rewrite Hs1].
  rewrite Hs1 in Hctx. unfold context in Hctx. apply fmap_Some in Hctx as (k & Hk & [= Hrip Hst Hgp]).
  split.
  - intros held2 f2 g2 s3 H2 Hcur. apply timer_switch in H2 as (_ & k2 & Hk2 & -> & _).
    rewrite Hcur in Hk2. simplify_eq. simpl. by rewrite Hrip, Hst, Hgp.
  - intros st st' s3 H2 Hcur. apply perform_task_switch_inv in H2 as (_ & n & _ & Hn & _ & _ & -> & _).
    rewrite Hcur in Hn. simplify_eq. simpl. rewrite Hrip, Hst, Hgp. by destruct (sinv_id s2 HI2 _ _ Hk) as [-> _].
Qed.

(** A spawned thread gets the next thread identifier and a task of its own,
    registered under the next task identifier, not started, with the given entry
    point; it joins the thread group of its process and changes no other task,
    thread or process.  Its task belongs to the kernel process, whichever process
    the thread is spawned for. *)
Theorem spawn_thread_spec s p e fl i h s' : sinv s → spawn_thread s p e fl i = Done (h, s') →
  tasks s !! last_task_id s = None
  ∧ h = first_available_tid s
  ∧ (∃ k, tasks s' !! last_task_id s = Some k ∧ id k = last_task_id s ∧ tid k = h
       ∧ state k = Uninitialized (VirtAddr_new e) ∧ rip k = VirtAddr_new i ∧ pid k = KERNEL_INIT_PID)
  ∧ threads s' !! h = Some {| thr_id := h; thr_task := last_task_id s; thr_flags := fl |}
  ∧ (∃ q, processes s' !! p = Some q ∧ h ∈ tg_threads (prc_threads q))
  ∧ (∀ t, t ≠ last_task_id s → tasks s' !! t = tasks s !! t)
  ∧ (∀ t, t ≠ h → threads s' !! t = threads s !! t)
  ∧ (∀ q, q ≠ p → processes s' !! q = processes s !! q)
  ∧ kernel_queue s' = kernel_queue s.
Proof.
  intros HI Hs. apply spawn_thread_inv in Hs as (st & prc & -> & Hp & Ht & Hth & Hpr & Hq & _).
  rewrite Ht, Hth, Hpr. split_and!; try done.
  - destruct (tasks s !! last_task_id s) eqn:E; [|done]. apply (sinv_id s HI) in E. lia.
  - eexists. rewrite lookup_insert_eq. split; [done|]. done.
  - by rewrite lookup_insert_eq.
  - eexists. rewrite lookup_insert_eq. split; [done|]. simpl. set_solver.
  - intros t Hne. by rewrite lookup_insert_ne.
  - intros t Hne. by rewrite lookup_insert_ne.
  - intros t Hne. by rewrite lookup_insert_ne.
Qed.

(** ** Starting a thread *)

Lemma timer_task held s frame r s' t k : timer_irq_entry held s frame = Done (r, s') →
  tasks s !! t = Some k → t ≠ current_task s →
  threads s' = threads s
  ∧ ∃ k', tasks s' !! t = Some k' ∧ tid k' = tid k
     ∧ (state k = Waiting → state k' = Waiting ∨ (current_task s' = t ∧ state k' = Running)).
Proof.
  intros Ht Hk Hne. apply timer_cases in Ht as [(_ & Ht & _ & _ & Hth & _)|Ht].
  { split; [done|]. exists k. rewrite Ht. auto. }
  apply irq_schedule_spec in Ht as (Hth & _ & _ & _ & _ & _ & Ht). simpl in *. split; [done|].
  destruct (fst (next_task _)) as [n|]; [|destruct Ht as (_ & -> & _); exists k; auto].
  destruct Ht as [Hc Ht]. case_bool_decide; [destruct Ht as (_ & -> & _); exists k; auto|].
  destruct Ht as (kn & Hkn & -> & _). destruct (decide (t = n)) as [->|Hn].
  - rewrite Hk in Hkn. injection Hkn as <-. eexists. rewrite lookup_insert_eq. split; [done|].
    split; [by destruct (state k)|]. intros ->. right. by simpl.
  - exists k. rewrite lookup_insert_ne, lookup_alter_ne by done. auto.
Qed.

(** A timer interrupt taken while [t] is not the running task. *)
Definition timer_away (t : Z) (s s' : ks) : Prop :=
  current_task s ≠ t ∧ ∃ held frame r, timer_irq_entry held s frame = Done (r, s').

Lemma away_task t s s' k : rtc (timer_away t) s s' → tasks s !! t = Some k →
  state k = Waiting → current_task s ≠ t → current_task s' ≠ t →
  threads s' = threads s ∧ ∃ k', tasks s' !! t = Some k' ∧ tid k' = tid k ∧ state k' = Waiting.
Proof.
  intros Hr. revert k. induction Hr as [s|s1 s2 s3 (Hne & held & f & r & Ht) Hr IH]; intros k Hk Hw Hc Hc'; [eauto|].
  destruct (timer_task held s1 f r s2 t k Ht Hk ltac:(done)) as (Hth & k2 & Hk2 & Htid & Hst).
  destruct (decide (current_task s2 = t)) as [Hct|Hct].
  { inversion Hr as [|? ? ? (Hn2 & _)]; subst; done. }
  destruct (Hst Hw) as [Hw2|[? _]]; [|done].
  destruct (IH k2 Hk2 Hw2 Hct Hc') as (Hth' & k3 & ? & ? & ?).
  split; [congruence|]. exists k3. split_and!; [done|congruence|done].
Qed.

(** [__thread_init] enters the thread's entry point as long as the task's
    state is still the initial one; but when the timer interrupts the thread
    before it reads that state, the task is marked waiting, and the thread panics
    when it is scheduled again, after any timer interrupts of other tasks. *)
Theorem thread_init_preempted held s f g s1 s2 held2 f2 g2 s3 k th e :
  tasks s !! current_task s = Some k → tid k = current_thread s → state k = Uninitialized e →
  threads s !! current_thread s = Some th → thr_task th = current_task s →
  thread_init_entry s = Done e
  ∧ (timer_irq_entry held s f = Done (Some g, s1) → rtc (timer_away (current_task s)) s1 s2 →
     timer_irq_entry held2 s2 f2 = Done (Some g2, s3) → current_task s3 = current_task s →
     thread_init_entry s3 = Panicked).
Proof.
  intros Hk Htid Hst Hth Htask. split.
  { unfold thread_init_entry. rewrite Hth. simpl. rewrite Htask, Hk. simpl. by rewrite Hst. }
  intros H1 Haway H2 Hcur.
  assert (Hth1 : threads s1 = threads s).
  { apply timer_cases in H1 as [(_ & _ & _ & _ & ? & _)|H1]; [done|]. by apply irq_schedule_spec in H1 as (? & _). }
  apply timer_switch in H1 as (Hne1 & _ & _ & _ & Hsave & _). specialize (Hsave k Hk).
  assert (Hne2 : current_task s2 ≠ current_task s).
  { apply timer_switch in H2 as (Hn & _). congruence. }
  destruct (away_task _ s1 s2 _ Haway Hsave eq_refl Hne1 Hne2) as (Hth2 & k2 & Hk2 & Htid2 & Hw2).
  destruct (timer_task held2 s2 f2 (Some g2) s3 _ k2 H2 Hk2 ltac:(done)) as (Hth3 & k3 & Hk3 & Htid3 & Hst3).
  assert (Hct : current_thread s3 = current_thread s).
  { apply timer_switch in H2 as (_ & kk & Hkk & _ & _ & _ & ->). rewrite Hcur, Hk2 in Hkk.
    injection Hkk as <-. simpl in Htid2. congruence. }
  unfold thread_init_entry. rewrite Hct, Hth3, Hth2, Hth1, Hth. simpl. rewrite Htask, Hk3. simpl.
  destruct (Hst3 Hw2) as [->|[_ ->]]; done.
Qed.

(** ** Stacks *)

(** A new stack is handed out as the address of its last byte, and the next
    one starts right above it; the allocator takes back only the page-aligned base
    of a stack, so that freeing the pointer it returned panics, and a recycled
    stack is handed out one byte higher than it was the first time. *)
Theorem stack_recycling a v p a' v' : free_stacks a = [] →
  running_ptr a mod 4096 = 0 → 2 ^ 64 - 2 ^ 47 ≤ running_ptr a < 2 ^ 64 - KERNEL_STACK_SIZE →
  alloc_stack a v = Done (p, a', v') →
  p = running_ptr a + KERNEL_STACK_SIZE - 1
  ∧ running_ptr a' = running_ptr a + KERNEL_STACK_SIZE
  ∧ free_stack a' p = Panicked
  ∧ ∃ a'', free_stack a' (running_ptr a) = Done a''
      ∧ alloc_stack a'' v' = Done (p + 1, a', v').
Proof.
  unfold alloc_stack. intros Hf Hm Hr Ha. rewrite Hf in Ha. cbn [last] in Ha.
  apply outcome_bind_Done in Ha as ([r al] & _ & Ha). destruct r as [page|]; [|done].
  apply outcome_bind_Done in Ha as (vm1 & _ & Ha). injection Ha as <- <- <-.
  unfold KERNEL_STACK_SIZE in *.
  assert (Hadd : VirtAddr_add_usize (running_ptr a) 0x800_000 = running_ptr a + 0x800_000).
  { unfold VirtAddr_add_usize. rewrite u64_id by lia. apply VirtAddr_new_id; unfold in_width, canonical; lia. }
  assert (Hsub : VirtAddr_sub_usize (running_ptr a + 0x800_000) 1 = running_ptr a + 0x800_000 - 1).
  { unfold VirtAddr_sub_usize. rewrite u64_id by lia. apply VirtAddr_new_id; unfold in_width, canonical; lia. }
  rewrite Hadd, Hsub. cbn [running_ptr free_stacks]. split_and!; [done|done| |].
  - unfold free_stack, VirtAddr_is_aligned_with. change ALIGN_4KB with 4096. simpl.
    rewrite bool_decide_false; [done|]. intros E. revert E Hm. clear. intros E Hm.
    Z.to_euclidean_division_equations; lia.
  - exists {| running_ptr := running_ptr a + 0x800_000; free_stacks := [running_ptr a] |}. split.
    + unfold free_stack, VirtAddr_is_aligned_with. change ALIGN_4KB with 4096. simpl.
      by rewrite bool_decide_true by done.
    + cbn [running_ptr free_stacks last removelast]. rewrite Hadd. do 3 f_equal. lia.
Qed.

(** ** Processes *)

Lemma process_table_lookup t i : length t = 512%nat → 0 ≤ i < 512 →
  (take 0x100 PageTable_default ++ take 0x100 (drop 0x100 t)) !! Z.to_nat i
  = if bool_decide (256 ≤ i) then t !! Z.to_nat i else Some EMPTY_ENTRY.
Proof.
  intros Hl Hi. unfold PageTable_default. rewrite take_replicate.
  change (256 `min` 512)%nat with 256%nat. case_bool_decide.
  - rewrite lookup_app_r, length_replicate by (rewrite length_replicate; lia).
    rewrite lookup_take_lt, lookup_drop by lia. f_equal. lia.
  - rewrite lookup_app_l by (rewrite length_replicate; lia). apply lookup_replicate_2. lia.
Qed.

(** A new process gets the next process identifier and a page table whose
    upper half is the kernel's and whose lower half is empty, in a frame the
    allocator returned; when no frame is left, creation fails and registers
    nothing. *)
Theorem spawn_process_spec s e fl r s' t : Paging.tables (vm s) !! pml4 = Some t → length t = 512%nat →
  spawn_process s e fl = Done (r, s') →
  first_available_pid s' = u64 (first_available_pid s + 1) ∧ threads s' = threads s ∧ tasks s' = tasks s
  ∧ match r with
    | Err _ => processes s' = processes s
    | Ok p => p = first_available_pid s ∧ ∃ prc, processes s' = <[p := prc]> (processes s)
        ∧ prc_id prc = p ∧ prc_flags prc = fl ∧ tg_threads (prc_threads prc) = ∅
        ∧ ∀ i, 0 ≤ i < 512 → entry_at (vm s') (page_table prc) i =
            if bool_decide (256 ≤ i) then entry_at (vm s) pml4 i else Some EMPTY_ENTRY
    end.
Proof.
  intros Ht Hlen Hs. unfold spawn_process in Hs. apply outcome_bind_Done in Hs as ([r1 al] & _ & Hs).
  destruct r1 as [page|err]; [|by injection Hs as <- <-].
  apply outcome_bind_Done in Hs as (table & Htab & Hs). injection Hs as <- <-.
  assert (Hlook : ∀ i, 0 ≤ i < 512 → table !! Z.to_nat i =
    if bool_decide (256 ≤ i) then t !! Z.to_nat i else Some EMPTY_ENTRY).
  { unfold create_process_table in Htab. cbn [Paging.tables with_falloc] in Htab.
    rewrite Ht in Htab. injection Htab as <-. intros. by apply process_table_lookup. }
  clear Htab. split_and!; [reflexivity..|]. eexists. split; [reflexivity|].
  split_and!; [reflexivity..|].
  intros i Hi. unfold entry_at. simpl Paging.tables. rewrite lookup_insert_eq, Ht. by apply Hlook.
Qed.
End kernel.

(** * A concrete kernel: two tasks in the queue *)

Definition demo_vm : pg Z :=
  {| Paging.tables := {[ 0x40000 := PageTable_default ]}; falloc := 0x40000; invlpg := [] |}.
Definition demo_frame (n : Z) : InterruptStackFrame :=
  {| fr_rip := 0x1000 + n; cs := 8; rflags := 0x202; stack_ptr := 0x7000 - n; stack_segment := 16;
     registers := gpr_default |}.

Definition demo_booted : outcome (ks (A := Z)) := init_kernel_process (init_global_scheduler (boot demo_vm)).
Definition demo_spawn : outcome (Z * ks (A := Z)) :=
  s ← demo_booted; spawn_kernel_thread (FB := flag_bits_lsb) (H := Bump_Allocator) 0 0x40000 false 0x5000 s 0x6000.
Definition demo_two : outcome (ks (A := Z)) :=
  '(h, s) ← demo_spawn; th ← unwrap (threads s !! h); thread_schedule s th.
(** After the first interrupt, which keeps the current task; after the second,
    which runs the thread; after the third, which runs the first task again. *)
Definition demo_tick (o : outcome (ks (A := Z))) (n : Z) : outcome (ks (A := Z)) :=
  s ← o; '(_, s) ← timer_irq_entry no_locks s (demo_frame n); Done s.
Definition demo_s (o : outcome (ks (A := Z))) : ks := match o with Done s => s | _ => boot demo_vm end.
Definition demo1 := demo_s (demo_tick demo_two 1).
Definition demo2 := demo_s (demo_tick (Done demo1) 2).
Definition demo3 := demo_s (demo_tick (Done demo2) 3).

Definition demo_out (s : ks (A := Z)) (n : Z) : InterruptStackFrame :=
  match timer_irq_entry no_locks s (demo_frame n) with Done (Some g, _) => g | _ => demo_frame n end.

Lemma demo_switch1 : timer_irq_entry no_locks demo1 (demo_frame 2) = Done (Some (demo_out demo1 2), demo2).
Proof. vm_compute. reflexivity. Qed.
Lemma demo_switch2 : timer_irq_entry no_locks demo2 (demo_frame 3) = Done (Some (demo_out demo2 3), demo3).
Proof. vm_compute. reflexivity. Qed.

Lemma demo_booted_ok : booted demo_vm (demo_s demo_booted).
Proof. vm_compute. reflexivity. Qed.


Definition demo_spawned : ks (A := Z) := match demo_spawn with Done (_, s) => s | _ => boot demo_vm end.
Lemma demo_spawn_eq : spawn_thread (FB := flag_bits_lsb) (H := Bump_Allocator) 0 0x40000 false
  (demo_s demo_booted) KERNEL_INIT_PID 0x6000 0 0x5000 = Done (1, demo_spawned).
Proof. vm_compute. reflexivity. Qed.

Abbreviation demo_reachable := (reachable (FB := flag_bits_lsb) (H := Bump_Allocator) 0 0x40000 false).

Lemma demo1_reachable : demo_reachable demo1.
Proof.
  exists demo_vm, (demo_s demo_booted). split; [exact demo_booted_ok|].
  eapply rtc_l; [eapply kstep_spawn; [vm_compute; reflexivity..|exact demo_spawn_eq]|].
  eapply (rtc_l _ _ (demo_s demo_two)).
  { apply (kstep_schedule _ _ _ _ {| thr_id := 1; thr_task := 1; thr_flags := 0 |});
      [exists 1; vm_compute; reflexivity|vm_compute; reflexivity]. }
  apply rtc_once. apply (kstep_timer _ _ _ no_locks _ (demo_frame 1) None). vm_compute. reflexivity.
Qed.

Lemma preempted_task_resumes_witness :
  fr_rip (demo_out demo2 3) = 0x1002 ∧ stack_ptr (demo_out demo2 3) = 0x6FFE.
Proof.
  destruct (preempted_task_resumes (FB := flag_bits_lsb) (H := Bump_Allocator) 0 0x40000 false
    no_locks demo1 (demo_frame 2) (demo_out demo1 2) demo2 demo2) as [Hr _].
  - exact demo1_reachable.
  - exact demo_switch1.
  - apply rtc_refl.
  - destruct (Hr no_locks (demo_frame 3) (demo_out demo2 3) demo3) as (H1 & H2 & _).
    + exact demo_switch2.
    + vm_compute. reflexivity.
    + split; [exact H1|exact H2].
Defined.

Lemma round_robin_witness :
  ∃ ts s', runs [demo_frame 1; demo_frame 2; demo_frame 3] (demo_s demo_two) = Done (ts, s')
    ∧ ts !! 2%nat = Some 0 ∧ kernel_queue s' = [1; 0].
Proof.
  assert (Hq : kernel_queue (demo_s demo_two) = [0; 1]) by (vm_compute; reflexivity).
  destruct (round_robin [demo_frame 1; demo_frame 2; demo_frame 3] (demo_s demo_two))
    as (ts & s' & Hr & _ & Hts & Hrot & _).
  - rewrite Hq. discriminate.
  - split; [split; (eexists; split; [vm_compute; reflexivity|reflexivity])|].
    intros t Ht. rewrite Hq in Ht.
    repeat (apply elem_of_cons in Ht as [->|Ht];
      [eexists; split; [vm_compute; reflexivity|split; (eexists; split; [vm_compute; reflexivity|reflexivity])]|]).
    apply elem_of_nil in Ht. destruct Ht.
  - exists ts, s'. split_and!; [exact Hr| |by rewrite Hrot, Hq]. rewrite Hts by (simpl; lia). by rewrite Hq.
Defined.

Lemma scheduler_safe_witness :
  ∃ r s', timer_irq_entry no_locks demo1 (demo_frame 0) = Done (r, s').
Proof.
  apply (scheduler_safe (FB := flag_bits_lsb) (H := Bump_Allocator) 0 0x40000 false demo1 demo1_reachable).
Defined.

Lemma spawn_thread_spec_witness : threads demo_spawned !! 1 = Some {| thr_id := 1; thr_task := 1; thr_flags := 0 |}.
Proof.
  apply (spawn_thread_spec (FB := flag_bits_lsb) (H := Bump_Allocator) 0 0x40000 false
    (demo_s demo_booted) KERNEL_INIT_PID 0x6000 0 0x5000 1 demo_spawned);
    [apply (booted_sinv demo_vm), demo_booted_ok|exact demo_spawn_eq].
Defined.

Lemma thread_init_preempted_witness : thread_init_entry demo2 = Done 0x6000.
Proof.
  apply (thread_init_preempted no_locks demo2 (demo_frame 3) (demo_out demo2 3) demo3 demo3 no_locks
    (demo_frame 4) (demo_frame 4) demo3
    {| id := 1; pid := 0; tid := 1; state := Uninitialized 0x6000; kernel_stack := 0;
       stack := 0xFFFF_9000_007F_FFFF; rip := 0x5000; gpr := gpr_default |}
    {| thr_id := 1; thr_task := 1; thr_flags := 0 |}); vm_compute; reflexivity.
Defined.

Lemma demo_stack : ∃ p a v, alloc_stack (FB := flag_bits_lsb) (H := Bump_Allocator) 0 0x40000 false
  (stack_allocator_new KERNEL_STACK_MAPPING_BASE) demo_vm = Done (p, a, v).
Proof. eexists _, _, _. vm_compute. reflexivity. Qed.

Lemma stack_recycling_witness : ∃ p a, free_stack a p = Panicked.
Proof.
  destruct demo_stack as (p & a & v & Ha). exists p, a.
  assert (H1 : running_ptr (stack_allocator_new KERNEL_STACK_MAPPING_BASE) mod 4096 = 0) by reflexivity.
  assert (H2 : 2 ^ 64 - 2 ^ 47 ≤ running_ptr (stack_allocator_new KERNEL_STACK_MAPPING_BASE) < 2 ^ 64 - KERNEL_STACK_SIZE)
    by (split; vm_compute; congruence).
  destruct (stack_recycling (FB := flag_bits_lsb) (H := Bump_Allocator) 0 0x40000 false
    (stack_allocator_new KERNEL_STACK_MAPPING_BASE) demo_vm p a v eq_refl H1 H2 Ha) as (_ & _ & Hp & _).
  exact Hp.
Defined.

Lemma demo_process : ∃ s', spawn_process (H := Bump_Allocator) 0x40000 (demo_s demo_booted) 0x6000 0 = Done (Ok 1, s').
Proof. eexists. vm_compute. reflexivity. Qed.

Lemma spawn_process_spec_witness : ∃ s' : ks (A := Z), is_Some (processes s' !! 1).
Proof.
  destruct demo_process as [s' Hs]. exists s'.
  destruct (spawn_process_spec (H := Bump_Allocator) 0x40000 (demo_s demo_booted) 0x6000 0 (Ok 1) s' PageTable_default)
    as (_ & _ & _ & _ & prc & -> & _); [vm_compute; reflexivity|reflexivity|exact Hs|].
  exists prc. apply lookup_insert_eq.
Defined.
