(* ===== verification/Irq.v ===== *)
(** Interrupts: gate descriptors and the descriptor table
    (src/x86/descriptors/idt.rs), the runtime handlers
    (src/fzboot/irq/handlers.rs) and the interrupt manager
    (src/fzboot/irq/manager.rs).

    Handlers are function pointers; calling them is observed as the list of the
    pointers called. *)

From stdpp Require Import sorting.
From S2P Require Import Prelude Addr Paging.

(** * Gate descriptors *)

Inductive GateType := TaskGate | InterruptGate16 | InterruptGate | TrapGate16 | TrapGate.
Inductive PrivilegeLevel := Ring0 | Ring1 | Ring2 | Ring3.

Definition GateType_bits (t : GateType) : Z :=
  match t with
  | TaskGate => 5 | InterruptGate16 => 6 | InterruptGate => 14 | TrapGate16 => 7 | TrapGate => 15
  end.

(** The fields of [GateDescriptorInner]; [segment_selector] is the selector's 16
    bits, [gate_type] the 4 bits of the type. *)
Record GateDescriptor := {
  offset : Z; segment_selector : Z; ist : Z; gate_type : Z; dpl : Z; present : bool;
  offset_mid : Z; offset_hi : Z
}.
(** All bits clear but the present one. *)
Definition gate_default : GateDescriptor :=
  {| offset := 0; segment_selector := 0; ist := 0; gate_type := 0; dpl := 0; present := true;
     offset_mid := 0; offset_hi := 0 |}.
Definition gate_new (t : GateType) : GateDescriptor :=
  {| offset := 0; segment_selector := 0; ist := 0; gate_type := GateType_bits t; dpl := 0;
     present := false; offset_mid := 0; offset_hi := 0 |}.
Definition gate_with_present (g : GateDescriptor) (b : bool) : GateDescriptor :=
  {| offset := offset g; segment_selector := segment_selector g; ist := ist g; gate_type := gate_type g;
     dpl := dpl g; present := b; offset_mid := offset_mid g; offset_hi := offset_hi g |}.
Definition gate_with_dpl (g : GateDescriptor) (l : PrivilegeLevel) : GateDescriptor :=
  {| offset := offset g; segment_selector := segment_selector g; ist := ist g; gate_type := gate_type g;
     dpl := match l with Ring0 => 0 | Ring1 => 1 | Ring2 => 2 | Ring3 => 3 end;
     present := present g; offset_mid := offset_mid g; offset_hi := offset_hi g |}.
Definition gate_with_segment_selector (g : GateDescriptor) (s : Z) : GateDescriptor :=
  {| offset := offset g; segment_selector := s; ist := ist g; gate_type := gate_type g;
     dpl := dpl g; present := present g; offset_mid := offset_mid g; offset_hi := offset_hi g |}.
(** The address is split in three fields; a task gate has none. *)
Definition gate_with_offset (g : GateDescriptor) (offset_num : Z) : GateDescriptor :=
  if bool_decide (gate_type g = GateType_bits TaskGate) then g
  else
    {| offset := Z.land offset_num 0xFFFF; segment_selector := segment_selector g; ist := ist g;
       gate_type := gate_type g; dpl := dpl g; present := present g;
       offset_mid := Z.land (Z.shiftr offset_num 16) 0xFFFF;
       offset_hi := Z.land (Z.shiftr offset_num 32) 0xFFFF_FFFF |}.

(** The address the processor jumps to. *)
Definition gate_target (g : GateDescriptor) : Z :=
  offset g + offset_mid g * 2 ^ 16 + offset_hi g * 2 ^ 32.

(** * The table *)

Inductive IDTError := InvalidBaseAddress | InvalidEntry | OutOfBoundsVector | Unknown.

(** [width] is [A::WIDTH]: 8 in long mode, 4 in protected mode. *)
Record InterruptDescriptorTable := {
  idt_base : Z; idt_length : Z; idt_entries : list GateDescriptor
}.
Definition idt_new (width base : Z) : InterruptDescriptorTable :=
  {| idt_base := base; idt_length := 256 * width;
     idt_entries := replicate 256 gate_default |}.

Definition set_entry (t : InterruptDescriptorTable) (ivt : Z) (d : GateDescriptor)
    : outcome (result unit IDTError * InterruptDescriptorTable) :=
  if negb (present d) then Done (Err InvalidEntry, t)
  else
    rust_assert (bool_decide (Z.to_nat ivt < length (idt_entries t))%nat);;
    Done (Ok (), {| idt_base := idt_base t; idt_length := idt_length t;
                    idt_entries := <[Z.to_nat ivt := d]> (idt_entries t) |}).

(** ** Writing the table to memory

    Memory is a map from addresses to bytes.  [gate_bytes] is the 16-byte
    encoding of a descriptor, generated by the bitfield crate. *)
Fixpoint write_bytes (ram : gmap Z Z) (a : Z) (bs : list Z) : gmap Z Z :=
  match bs with
  | [] => ram
  | b :: bs => write_bytes (<[a := b]> ram) (a + 1) bs
  end.

Section memory.
Context (gate_bytes : GateDescriptor → list Z).

Fixpoint write_entries (width : Z) (ram : gmap Z Z) (a : Z) (es : list GateDescriptor) : gmap Z Z :=
  match es with
  | [] => ram
  | e :: es =>
      let bs := take (Z.to_nat (2 * width)) (gate_bytes e) in
      write_entries width (write_bytes ram a bs) (a + 2 * width) es
  end.
(** The addition of [A]. *)
Definition idt_entries_base (width : Z) (t : InterruptDescriptorTable) : Z :=
  if bool_decide (width = 8) then VirtAddr_add_usize (idt_base t) 0x10
  else Z.min (idt_base t + 0x10) (2 ^ 32 - 1).
Definition write_header (width : Z) (t : InterruptDescriptorTable) (ram : gmap Z Z) : gmap Z Z :=
  write_bytes (write_bytes ram (idt_base t) (le_bytes 2 (idt_length t))) (idt_base t + 2)
    (le_bytes (Z.to_nat width) (idt_entries_base width t)).
Definition write_table (width : Z) (t : InterruptDescriptorTable) (ram : gmap Z Z)
    : result unit IDTError * gmap Z Z :=
  let ram := write_header width t ram in
  let p := idt_entries_base width t in
  if bool_decide (p = 0) then (Err InvalidBaseAddress, ram)
  else (Ok (), write_entries width ram p (idt_entries t)).
End memory.

(** * Runtime handlers *)

Definition MAX_INT_PRIORITY : Z := 0xFFFF.

(** Function pointer and priority. *)
Definition DynamicInterruptHandler : Type := Z * Z.

Record RuntimeInterruptHandler := {
  handlers : list DynamicInterruptHandler;
  once_handlers : list DynamicInterruptHandler
}.
Inductive InterruptHandler := Static (h : Z) | Dynamic (d : RuntimeInterruptHandler).

Definition runtime_new : RuntimeInterruptHandler := {| handlers := []; once_handlers := [] |}.

(** [sort_by(|a, b| b.1.cmp(&a.1))]: a stable sort by decreasing priority. *)
Fixpoint insert_sorted (h : DynamicInterruptHandler) (l : list DynamicInterruptHandler) :=
  match l with
  | [] => [h]
  | x :: l => if bool_decide (snd x < snd h) then h :: x :: l else x :: insert_sorted h l
  end.
Definition sort_by_priority (l : list DynamicInterruptHandler) : list DynamicInterruptHandler :=
  foldl (λ acc h, insert_sorted h acc) [] l.
Definition insert_handler (d : RuntimeInterruptHandler) (h p : Z) : RuntimeInterruptHandler :=
  {| handlers := sort_by_priority (handlers d ++ [(h, p)]); once_handlers := once_handlers d |}.

(** [BinaryHeap]: [pop] removes the greatest element in the order of its type,
    here that of pairs, the function pointer first. *)
Definition pair_lt (a b : DynamicInterruptHandler) : bool :=
  bool_decide (fst a < fst b) || (bool_decide (fst a = fst b) && bool_decide (snd a < snd b)).
Fixpoint heap_max (x : DynamicInterruptHandler) (l : list DynamicInterruptHandler) : DynamicInterruptHandler :=
  match l with
  | [] => x
  | y :: l => heap_max (if pair_lt x y then y else x) l
  end.
Fixpoint heap_remove (x : DynamicInterruptHandler) (l : list DynamicInterruptHandler) : list DynamicInterruptHandler :=
  match l with
  | [] => []
  | y :: l => if bool_decide (x = y) then l else y :: heap_remove x l
  end.
Definition heap_pop (l : list DynamicInterruptHandler)
    : option (DynamicInterruptHandler * list DynamicInterruptHandler) :=
  match l with
  | [] => None
  | x :: l' => let m := heap_max x l' in Some (m, heap_remove m (x :: l'))
  end.
Definition insert_once_handler (d : RuntimeInterruptHandler) (h p : Z) : RuntimeInterruptHandler :=
  {| handlers := handlers d; once_handlers := (h, p) :: once_handlers d |}.

(** [exec_handlers_in_order]: the function pointers called, in order. *)
Fixpoint pop_all (fuel : nat) (l : list DynamicInterruptHandler) : outcome (list Z) :=
  match fuel with
  | O => NoFuel
  | S fuel =>
      match heap_pop l with
      | None => Done []
      | Some (h, l) => cs ← pop_all fuel l; Done (fst h :: cs)
      end
  end.
Definition exec_handlers_in_order (d : RuntimeInterruptHandler) : outcome (list Z * RuntimeInterruptHandler) :=
  cs ← pop_all (S (length (once_handlers d))) (once_handlers d);
  Done ((fst <$> handlers d) ++ cs, {| handlers := handlers d; once_handlers := [] |}).

(** * The manager *)

Inductive HandlerRegistrationError := IDTWriteError | NoRuntimeHandlerMapping.

Record InterruptManager := {
  idt : InterruptDescriptorTable;
  handler_registry : gmap Z InterruptHandler;
  irq_enabled : bool;
  ram : gmap Z Z
}.

Section manager.
(** The width of the addresses, the code selector, the address of the default
    handler, the entry points generated for the vectors, and the encoding of the
    descriptors. *)
Context (width KERNEL_CODE_SELECTOR default_handler : Z) (runtime_wrapper : Z → option Z).
Context (gate_bytes : GateDescriptor → list Z).

Definition gate_for (p : Z) : GateDescriptor :=
  let ptr := if bool_decide (width = 8) then u64_from_VirtAddr (VirtAddr_new p) else PhyAddr_new p in
  gate_with_segment_selector
    (gate_with_present (gate_with_offset (gate_with_dpl (gate_new InterruptGate) Ring0) ptr) true)
    KERNEL_CODE_SELECTOR.

Definition with_registry (m : InterruptManager) (r : gmap Z InterruptHandler) : InterruptManager :=
  {| idt := idt m; handler_registry := r; irq_enabled := irq_enabled m; ram := ram m |}.
Definition with_idt (m : InterruptManager) (t : InterruptDescriptorTable) : InterruptManager :=
  {| idt := t; handler_registry := handler_registry m; irq_enabled := irq_enabled m; ram := ram m |}.
Definition with_irq (m : InterruptManager) (b : bool) : InterruptManager :=
  {| idt := idt m; handler_registry := handler_registry m; irq_enabled := b; ram := ram m |}.

Definition with_ram (m : InterruptManager) (r : gmap Z Z) : InterruptManager :=
  {| idt := idt m; handler_registry := handler_registry m; irq_enabled := irq_enabled m; ram := r |}.

(** The default handlers of [new]. *)
Fixpoint set_all (n : nat) (t : InterruptDescriptorTable) : outcome InterruptDescriptorTable :=
  match n with
  | O => Done t
  | S n =>
      t ← set_all n t;
      '(r, t) ← set_entry t (Z.of_nat n) (gate_for default_handler);
      match r with Ok _ => Done t | Err _ => Panicked end
  end.
Definition manager_new (base : Z) (irq : bool) (r : gmap Z Z) : outcome InterruptManager :=
  t ← set_all 256 (idt_new width base);
  match write_table gate_bytes width t r with
  | (Ok _, r) => Done {| idt := t; handler_registry := ∅; irq_enabled := irq; ram := r |}
  | (Err _, _) => Panicked
  end.

(** The end of the two registration functions: install the gate of [p] and
    restore the interrupt flag; an error returns with interrupts disabled. *)
Definition install (m : InterruptManager) (v p : Z) (irq_disabled : bool)
    : outcome (result unit HandlerRegistrationError * InterruptManager) :=
  '(r, t) ← set_entry (idt m) v (gate_for p);
  let m := with_idt m t in
  match r with
  | Err _ => Done (Err IDTWriteError, m)
  | Ok _ =>
      match write_table gate_bytes width t (ram m) with
      | (Err _, r) => Done (Err IDTWriteError, with_ram m r)
      | (Ok _, r) => Done (Ok (), if irq_disabled then with_ram m r else with_irq (with_ram m r) true)
      end
  end.

(** The registry entry after a dynamic registration. *)
Definition add_dynamic (o : option InterruptHandler) (h p : Z) : InterruptHandler :=
  match o with
  | None => Dynamic (insert_handler runtime_new h p)
  | Some (Static prev) => Dynamic (insert_handler (insert_handler runtime_new prev MAX_INT_PRIORITY) h p)
  | Some (Dynamic d) => Dynamic (insert_handler d h p)
  end.

Definition register_dynamic_handler (m : InterruptManager) (v h p : Z)
    : outcome (result unit HandlerRegistrationError * InterruptManager) :=
  let irq_disabled := negb (irq_enabled m) in
  let m := with_irq m false in
  let m := with_registry m (<[v := add_dynamic (handler_registry m !! v) h p]> (handler_registry m)) in
  match runtime_wrapper v with
  | None => Done (Err NoRuntimeHandlerMapping, m)
  | Some entry => install m v entry irq_disabled
  end.

Definition register_static_handler (m : InterruptManager) (v h : Z)
    : outcome (result unit HandlerRegistrationError * InterruptManager) :=
  let irq_disabled := negb (irq_enabled m) in
  let m := with_irq m false in
  '(r, m) ← (match handler_registry m !! v with
             | Some _ => register_dynamic_handler m v h MAX_INT_PRIORITY
             | None => Done (Ok (), m)
             end);
  match r with
  | Err e => Done (Err e, m)
  | Ok _ => install (with_registry m (<[v := Static h]> (handler_registry m))) v h irq_disabled
  end.

(** [_runtime_int_entry]. *)
Definition runtime_int_entry (m : InterruptManager) (v : Z) : outcome (list Z * InterruptManager) :=
  h ← unwrap (handler_registry m !! v);
  match h with
  | Dynamic d =>
      '(cs, d) ← exec_handlers_in_order d;
      Done (cs, with_registry m (<[v := Dynamic d]> (handler_registry m)))
  | Static _ => Done ([], m)
  end.
End manager.

(** * Priorities *)

Definition by_priority (a b : DynamicInterruptHandler) : Prop := snd b ≤ snd a.
Definition has_priority (p : Z) (h : DynamicInterruptHandler) : Prop := snd h = p.
#[global] Instance has_priority_dec p h : Decision (has_priority p h).
Proof. unfold has_priority. apply _. Defined.

Lemma insert_sorted_perm h l : insert_sorted h l ≡ₚ h :: l.
Proof.
  induction l as [|x l IH]; simpl; [done|]. case_bool_decide; [done|]. rewrite IH. apply Permutation_swap.
Qed.

Lemma insert_sorted_sorted h l : StronglySorted by_priority l → StronglySorted by_priority (insert_sorted h l).
Proof.
  induction 1 as [|x l Hs IH Hx]; simpl; [repeat constructor|]. case_bool_decide as Hlt.
  - constructor; [by constructor|]. constructor; [unfold by_priority; lia|].
    eapply Forall_impl; [done|]. unfold by_priority. intros y Hy. lia.
  - constructor; [done|]. rewrite insert_sorted_perm. constructor; [unfold by_priority; lia|done].
Qed.

Lemma filter_none {B} (P : B → Prop) `{∀ x, Decision (P x)} l : Forall (λ x, ¬ P x) l → filter P l = [].
Proof. induction 1; [done|]. by rewrite filter_cons_False. Qed.

Lemma insert_sorted_stable p h l : StronglySorted by_priority l →
  filter (has_priority p) (insert_sorted h l) = filter (has_priority p) (l ++ [h]).
Proof.
  induction 1 as [|x l Hs IH Hx]; simpl; [done|]. case_bool_decide as Hlt.
  - destruct (decide (has_priority p h)) as [Hh|Hh].
    + assert (Hnone : Forall (λ y, ¬ has_priority p y) (x :: l)).
      { constructor; [unfold has_priority in *; lia|]. eapply Forall_impl; [done|].
        unfold has_priority, by_priority in *. intros; lia. }
      rewrite filter_cons_True, (filter_none _ (x :: l)), app_comm_cons, filter_app, (filter_none _ (x :: l)),
        filter_cons_True by done. done.
    + by rewrite filter_cons_False, app_comm_cons, filter_app, (filter_cons_False _ h), filter_nil, app_nil_r by done.
  - rewrite !filter_cons, IH. done.
Qed.

Lemma sort_by_priority_spec p l acc : StronglySorted by_priority acc →
  StronglySorted by_priority (foldl (λ acc h, insert_sorted h acc) acc l)
  ∧ foldl (λ acc h, insert_sorted h acc) acc l ≡ₚ acc ++ l
  ∧ filter (has_priority p) (foldl (λ acc h, insert_sorted h acc) acc l) = filter (has_priority p) (acc ++ l).
Proof.
  revert acc. induction l as [|h l IH]; intros acc Hs; simpl; [by rewrite app_nil_r|].
  destruct (IH (insert_sorted h acc)) as (H1 & H2 & H3); [by apply insert_sorted_sorted|].
  split_and!; [done| |].
  - rewrite H2, insert_sorted_perm. by rewrite <- Permutation_middle.
  - rewrite H3, filter_app, insert_sorted_stable by done. rewrite <- filter_app, <- app_assoc. done.
Qed.

(** The registrations of a vector, in order. *)
Definition register_all (d : RuntimeInterruptHandler) (l : list (Z * Z)) : RuntimeInterruptHandler :=
  foldl (λ d h, insert_handler d (fst h) (snd h)) d l.

Lemma register_all_spec p l d : StronglySorted by_priority (handlers d) →
  StronglySorted by_priority (handlers (register_all d l))
  ∧ handlers (register_all d l) ≡ₚ handlers d ++ l
  ∧ filter (has_priority p) (handlers (register_all d l)) = filter (has_priority p) (handlers d ++ l)
  ∧ once_handlers (register_all d l) = once_handlers d.
Proof.
  revert d. induction l as [|[h q] l IH]; intros d Hs; simpl; [by rewrite app_nil_r|].
  destruct (sort_by_priority_spec p (handlers d ++ [(h, q)]) []) as (H1 & H2 & H3); [constructor|].
  destruct (IH (insert_handler d h q)) as (H4 & H5 & H6 & H7); [exact H1|].
  change (handlers (insert_handler d h q)) with (sort_by_priority (handlers d ++ [(h, q)])) in *.
  unfold sort_by_priority in *. simpl in H2, H3. split_and!; [done| | |done].
  - rewrite H5, H2. by rewrite <- app_assoc.
  - rewrite H6, filter_app, H3, <- filter_app, <- app_assoc. done.
Qed.

(** ** One-shot handlers *)

Definition pair_ge (a b : DynamicInterruptHandler) : Prop := pair_lt a b = false.

Lemma pair_lt_spec a b : pair_lt a b = true ↔ fst a < fst b ∨ fst a = fst b ∧ snd a < snd b.
Proof. unfold pair_lt. rewrite orb_true_iff, andb_true_iff, !bool_decide_eq_true. done. Qed.

Lemma pair_ge_spec a b : pair_ge a b ↔ fst b < fst a ∨ fst b = fst a ∧ snd b ≤ snd a.
Proof.
  unfold pair_ge. rewrite <- not_true_iff_false, pair_lt_spec. lia.
Qed.

Lemma heap_max_spec x l : heap_max x l ∈ x :: l ∧ Forall (pair_ge (heap_max x l)) (x :: l).
Proof.
  revert x. induction l as [|y l IH]; intros x; simpl.
  - split; [set_solver|]. constructor; [apply pair_ge_spec; lia|constructor].
  - destruct (IH (if pair_lt x y then y else x)) as [Hin Hall].
    set (m := heap_max _ l) in *. destruct (pair_lt x y) eqn:E.
    + apply pair_lt_spec in E. inversion Hall as [|? ? Hy Hl]; subst. split; [set_solver|].
      constructor; [|constructor; done]. apply pair_ge_spec in Hy. apply pair_ge_spec. lia.
    + fold (pair_ge x y) in E. apply pair_ge_spec in E. inversion Hall as [|? ? Hx Hl]; subst. split; [set_solver|].
      constructor; [done|]. constructor; [|done]. apply pair_ge_spec in Hx. apply pair_ge_spec. lia.
Qed.

Lemma heap_remove_perm x l : x ∈ l → x :: heap_remove x l ≡ₚ l.
Proof.
  induction l as [|y l IH]; intros Hx; [by apply elem_of_nil in Hx|]. simpl. case_bool_decide as E; [by subst|].
  rewrite Permutation_swap, IH; [done|]. set_solver.
Qed.

Lemma heap_remove_length x l : x ∈ l → length l = S (length (heap_remove x l)).
Proof. intros Hx. symmetry. exact (Permutation_length (heap_remove_perm x l Hx)). Qed.

Lemma pop_all_spec fuel l : (length l < fuel)%nat →
  ∃ l', pop_all fuel l = Done (fst <$> l') ∧ l' ≡ₚ l ∧ StronglySorted pair_ge l'.
Proof.
  revert l. induction fuel as [|fuel IH]; intros l Hf; [lia|]. simpl. destruct l as [|x l].
  { exists []. split_and!; [done|done|constructor]. }
  simpl heap_pop. destruct (heap_max_spec x l) as [Hin Hall]. set (m := heap_max x l) in *.
  pose proof (heap_remove_perm m (x :: l) Hin) as Hp. pose proof (heap_remove_length m (x :: l) Hin) as Hl.
  cbv beta iota zeta. destruct (IH (heap_remove m (x :: l))) as (l' & Heq & Hperm & Hs); [lia|].
  change (if bool_decide (m = x) then l else x :: heap_remove m l) with (heap_remove m (x :: l)).
  rewrite Heq. simpl. exists (m :: l'). split_and!; [done|by rewrite Hperm|].
  constructor; [done|]. rewrite Hperm. rewrite <- Hp in Hall. by inversion Hall.
Qed.

(** The dynamic handlers of a vector run in decreasing order of priority,
    those of equal priority in the order they were registered, each exactly once
    per interrupt; the one-shot handlers run after them, each once and never
    again, but in decreasing order of the address of the function, priorities
    being compared only between registrations of the same function. *)
Theorem handlers_run_in_order l once :
  let d := {| handlers := handlers (register_all runtime_new l); once_handlers := once |} in
  ∃ hs os, exec_handlers_in_order d
    = Done ((fst <$> hs) ++ (fst <$> os), {| handlers := hs; once_handlers := [] |})
  ∧ hs ≡ₚ l ∧ StronglySorted by_priority hs
  ∧ (∀ p, filter (has_priority p) hs = filter (has_priority p) l)
  ∧ os ≡ₚ once ∧ StronglySorted pair_ge os.
Proof.
  intros d. destruct (pop_all_spec (S (length once)) once) as (os & Hpop & Hperm & Hs); [lia|].
  exists (handlers (register_all runtime_new l)), os.
  destruct (register_all_spec 0 l runtime_new) as (H1 & H2 & _); [constructor|].
  unfold exec_handlers_in_order. simpl once_handlers. rewrite Hpop. split_and!; try done.
  intros p. by destruct (register_all_spec p l runtime_new) as (_ & _ & ? & _); [constructor|].
Qed.

(** * Gates and the table in memory *)

Lemma gate_offset_target g o : in_width 64 o → gate_type g ≠ GateType_bits TaskGate →
  gate_target (gate_with_offset g o) = o.
Proof.
  intros Ho Hg. unfold gate_with_offset. rewrite bool_decide_false by done. unfold gate_target. simpl.
  change 0xFFFF with (Z.ones 16). change 0xFFFF_FFFF with (Z.ones 32).
  rewrite !Z.land_ones, !Z.shiftr_div_pow2 by lia. unfold in_width in Ho.
  change (2 ^ 64) with 18446744073709551616 in Ho. change (2 ^ 16) with 65536. change (2 ^ 32) with 4294967296.
  Z.to_euclidean_division_equations. lia.
Qed.

Lemma write_bytes_lookup r a bs x : write_bytes r a bs !! x =
  if bool_decide (a ≤ x < a + Z.of_nat (length bs)) then bs !! Z.to_nat (x - a) else r !! x.
Proof.
  revert r a. induction bs as [|b bs IH]; intros r a; simpl; [by rewrite bool_decide_false by lia|].
  rewrite IH. destruct (decide (x = a)) as [->|Hne].
  - rewrite bool_decide_false, bool_decide_true by lia. rewrite lookup_insert_eq.
    by replace (a - a) with 0 by lia.
  - rewrite lookup_insert_ne by done.
    destruct (decide (a + 1 ≤ x < a + 1 + Z.of_nat (length bs))).
    + rewrite !bool_decide_true by lia. replace (Z.to_nat (x - a)) with (S (Z.to_nat (x - (a + 1)))) by lia. done.
    + by rewrite !bool_decide_false by lia.
Qed.

Section encoding.
Context (gate_bytes : GateDescriptor → list Z) (Hbytes : ∀ g, length (gate_bytes g) = 16%nat).

Lemma write_entries_lookup r a es x : write_entries gate_bytes 8 r a es !! x =
  if bool_decide (a ≤ x < a + 16 * Z.of_nat (length es))
  then e ← es !! Z.to_nat ((x - a) / 16); gate_bytes e !! Z.to_nat ((x - a) mod 16)
  else r !! x.
Proof.
  revert r a. induction es as [|e es IH]; intros r a; [by rewrite bool_decide_false by (simpl; lia)|].
  cbn [write_entries length]. rewrite take_ge by (rewrite Hbytes; simpl; lia).
  change (2 * 8) with 16. rewrite IH, write_bytes_lookup, Hbytes. simpl Z.of_nat.
  destruct (decide (a + 16 ≤ x < a + 16 + 16 * Z.of_nat (length es))).
  - rewrite !bool_decide_true by lia.
    assert (Hd : (x - a) / 16 = 1 + (x - (a + 16)) / 16).
    { replace (x - a) with (1 * 16 + (x - (a + 16))) by lia. rewrite Z.div_add_l by lia. lia. }
    assert (Hm : (x - a) mod 16 = (x - (a + 16)) mod 16).
    { replace (x - a) with ((x - (a + 16)) + 1 * 16) by lia. by rewrite Z_mod_plus_full. }
    rewrite Hd, Hm. assert (0 ≤ (x - (a + 16)) / 16) by (apply Z.div_pos; lia).
    replace (Z.to_nat (1 + (x - (a + 16)) / 16)) with (S (Z.to_nat ((x - (a + 16)) / 16))) by lia. done.
  - rewrite (bool_decide_false (a + 16 ≤ x < _)) by lia. destruct (decide (a ≤ x < a + 16)).
    + rewrite !bool_decide_true by lia. by rewrite Z.div_small, Z.mod_small by lia.
    + by rewrite !bool_decide_false by lia.
Qed.

Context (KERNEL_CODE_SELECTOR : Z) (runtime_wrapper : Z → option Z).
Notation gate p := (gate_for 8 KERNEL_CODE_SELECTOR p) (only parsing).

Lemma gate_for_target p : in_width 64 p → canonical p → gate_target (gate p) = p.
Proof.
  intros Hw Hc. unfold gate_for. rewrite bool_decide_true by done.
  change (u64_from_VirtAddr ?x) with (VirtAddr_new x). rewrite VirtAddr_new_idem, VirtAddr_new_id by done.
  unfold gate_with_segment_selector, gate_with_present, gate_target. simpl.
  by apply (gate_offset_target (gate_with_dpl (gate_new InterruptGate) Ring0)).
Qed.

(** A manager whose table has its 256 entries, in memory that an address can
    reach. *)
Definition manager_ok (m : InterruptManager) : Prop :=
  length (idt_entries (idt m)) = 256%nat ∧ 2 ^ 64 - 2 ^ 47 ≤ idt_base (idt m) ∧ idt_base (idt m) + 0x2000 < 2 ^ 64.

Lemma manager_ok_base m : manager_ok m → idt_entries_base 8 (idt m) = idt_base (idt m) + 0x10.
Proof.
  intros (_ & H1 & H2). unfold idt_entries_base. simpl. unfold VirtAddr_add_usize.
  rewrite u64_id by lia. apply VirtAddr_new_id; unfold in_width, canonical; lia.
Qed.

Lemma install_spec m v p b : manager_ok m → 0 ≤ v < 256 →
  ∃ m', install 8 KERNEL_CODE_SELECTOR gate_bytes m v p b = Done (Ok (), m')
  ∧ manager_ok m' ∧ handler_registry m' = handler_registry m
  ∧ idt_entries (idt m') = <[Z.to_nat v := gate p]> (idt_entries (idt m))
  ∧ irq_enabled m' = (if b then irq_enabled m else true)
  ∧ (∀ j, 0 ≤ j < 16 → ram m' !! (idt_base (idt m) + 0x10 + 16 * v + j) = gate_bytes (gate p) !! Z.to_nat j).
Proof.
  intros Hm Hv. pose proof (manager_ok_base m Hm) as Hb. destruct Hm as (Hl & H1 & H2).
  unfold install, set_entry. simpl present. rewrite bool_decide_true by lia. cbn [negb rust_assert mbind outcome_bind].
  unfold write_table. set (t := {| idt_base := _; idt_length := _; idt_entries := _ |}).
  change (idt_entries_base 8 t) with (idt_entries_base 8 (idt m)). rewrite Hb.
  rewrite bool_decide_false by lia.
  eexists. split; [reflexivity|].
  assert (Hram : ∀ r j, 0 ≤ j < 16 →
    write_entries gate_bytes 8 r (idt_base (idt m) + 0x10) (idt_entries t) !! (idt_base (idt m) + 0x10 + 16 * v + j)
    = gate_bytes (gate p) !! Z.to_nat j).
  { intros r j Hj. rewrite write_entries_lookup. simpl idt_entries. rewrite length_insert, Hl.
    rewrite bool_decide_true by lia.
    replace (idt_base (idt m) + 0x10 + 16 * v + j - (idt_base (idt m) + 0x10)) with (v * 16 + j) by lia.
    rewrite Z.div_add_l, (Z.div_small j), Z.add_0_r by lia.
    rewrite Z.add_comm, Z_mod_plus_full, Z.mod_small by lia.
    rewrite list_lookup_insert_eq by lia. done. }
  destruct b; (split_and!; [split_and!; simpl; rewrite ?length_insert; done| | | |intros; by apply Hram]); done.
Qed.

(** The handlers an interrupt on a vector runs through its registry entry. *)
Definition handlers_of (o : option InterruptHandler) : list (Z * Z) :=
  match o with
  | None => []
  | Some (Static h) => [(h, MAX_INT_PRIORITY)]
  | Some (Dynamic d) => handlers d
  end.

Lemma insert_handler_perm d h p : handlers (insert_handler d h p) ≡ₚ handlers d ++ [(h, p)].
Proof.
  simpl. destruct (sort_by_priority_spec 0 (handlers d ++ [(h, p)]) []) as (_ & H & _); [constructor|done].
Qed.

Lemma insert_handler_sorted d h p : StronglySorted by_priority (handlers (insert_handler d h p)).
Proof.
  simpl. by destruct (sort_by_priority_spec 0 (handlers d ++ [(h, p)]) []) as (H & _); [constructor|].
Qed.

Lemma add_dynamic_spec o h p : ∃ d, add_dynamic o h p = Dynamic d
  ∧ handlers d ≡ₚ handlers_of o ++ [(h, p)] ∧ StronglySorted by_priority (handlers d).
Proof.
  destruct o as [[prev|d]|]; simpl; eexists; (split; [done|]); (split; [|apply insert_handler_sorted]);
    rewrite insert_handler_perm; [by rewrite insert_handler_perm|done|done].
Qed.

(** A successful dynamic registration leaves the vector with all the handlers
    it had, a static one becoming a dynamic one of the highest priority, and the
    new one, in decreasing order of priority; the gate of the vector, in the
    table and in memory, is that of its runtime entry; no other vector changes
    and the interrupt flag is restored.  On a vector without runtime entry the
    call fails and returns with interrupts disabled. *)
Theorem register_dynamic_spec m v h p : manager_ok m → 0 ≤ v < 256 →
  ∃ r m', register_dynamic_handler 8 KERNEL_CODE_SELECTOR runtime_wrapper gate_bytes m v h p = Done (r, m')
  ∧ (∃ d, handler_registry m' !! v = Some (Dynamic d)
       ∧ handlers d ≡ₚ handlers_of (handler_registry m !! v) ++ [(h, p)]
       ∧ StronglySorted by_priority (handlers d))
  ∧ (∀ u, u ≠ v → handler_registry m' !! u = handler_registry m !! u)
  ∧ match runtime_wrapper v with
    | None => r = Err NoRuntimeHandlerMapping ∧ idt m' = idt m ∧ irq_enabled m' = false
    | Some entry => r = Ok () ∧ irq_enabled m' = irq_enabled m
        ∧ idt_entries (idt m') = <[Z.to_nat v := gate entry]> (idt_entries (idt m))
        ∧ ∀ j, 0 ≤ j < 16 →
            ram m' !! (idt_base (idt m) + 0x10 + 16 * v + j) = gate_bytes (gate entry) !! Z.to_nat j
    end.
Proof.
  intros Hm Hv. destruct (add_dynamic_spec (handler_registry m !! v) h p) as (d & Hd & Hperm & Hs).
  unfold register_dynamic_handler. simpl handler_registry. rewrite Hd.
  set (m1 := with_registry (with_irq m false) _).
  assert (Hm1 : manager_ok m1) by done.
  destruct (runtime_wrapper v) as [entry|].
  - destruct (install_spec m1 v entry (negb (irq_enabled m)) Hm1 Hv) as (m' & -> & _ & Hr & He & Hirq & Hram).
    exists (Ok ()), m'. split; [done|]. rewrite Hr. simpl. split_and!.
    + exists d. by rewrite lookup_insert_eq.
    + intros u Hu. by rewrite lookup_insert_ne.
    + done.
    + rewrite Hirq. by destruct (irq_enabled m).
    + exact He.
    + exact Hram.
  - eexists _, m1. split; [done|]. simpl. split_and!; try done.
    + exists d. by rewrite lookup_insert_eq.
    + intros u Hu. by rewrite lookup_insert_ne.
Qed.

(** A successful static registration makes the handler the target of the
    vector's gate and the only one of its registry entry: the handlers the
    vector had are first merged into a dynamic entry, and that entry is then
    overwritten, so that they are lost. *)
Theorem register_static_spec m v h : manager_ok m → 0 ≤ v < 256 → in_width 64 h → canonical h →
  is_Some (runtime_wrapper v) →
  ∃ m', register_static_handler 8 KERNEL_CODE_SELECTOR runtime_wrapper gate_bytes m v h = Done (Ok (), m')
  ∧ handlers_of (handler_registry m' !! v) = [(h, MAX_INT_PRIORITY)]
  ∧ (∀ u, u ≠ v → handler_registry m' !! u = handler_registry m !! u)
  ∧ gate_target <$> idt_entries (idt m') !! Z.to_nat v = Some h
  ∧ irq_enabled m' = irq_enabled m.
Proof.
  intros Hm Hv Hw Hc [entry He]. unfold register_static_handler. simpl handler_registry.
  assert (Hpre : ∃ m1, (match handler_registry m !! v with
      | Some _ => register_dynamic_handler 8 KERNEL_CODE_SELECTOR runtime_wrapper gate_bytes (with_irq m false) v h MAX_INT_PRIORITY
      | None => Done (Ok (), with_irq m false) end) = Done (Ok (), m1)
      ∧ manager_ok m1 ∧ (∀ u, u ≠ v → handler_registry m1 !! u = handler_registry m !! u) ∧ irq_enabled m1 = false).
  { destruct (handler_registry m !! v) as [o|].
    - unfold register_dynamic_handler. rewrite He.
      destruct (install_spec (with_registry (with_irq (with_irq m false) false)
        (<[v := add_dynamic (handler_registry (with_irq (with_irq m false) false) !! v) h MAX_INT_PRIORITY]>
          (handler_registry (with_irq (with_irq m false) false)))) v entry true Hm Hv)
        as (m1 & Hi & Hm1 & Hr & _ & Hirq & _).
      exists m1. split; [exact Hi|]. split_and!; [done| |done].
      intros u Hu. rewrite Hr. simpl. by rewrite lookup_insert_ne.
    - exists (with_irq m false). by split_and!. }
  destruct Hpre as (m1 & -> & Hm1 & Hreg & Hirq1). simpl.
  destruct (install_spec (with_registry m1 (<[v:=Static h]> (handler_registry m1))) v h (negb (irq_enabled m)) Hm1 Hv)
    as (m' & -> & _ & Hr & Hent & Hirq & _).
  exists m'. split; [done|]. rewrite Hr, Hent. simpl. split_and!.
  - by rewrite lookup_insert_eq.
  - intros u Hu. rewrite lookup_insert_ne by done. by apply Hreg.
  - rewrite list_lookup_insert_eq by (destruct Hm1; lia). simpl. by rewrite gate_for_target.
  - rewrite Hirq. simpl. rewrite Hirq1. by destruct (irq_enabled m).
Qed.
End encoding.

(** The limit stored for the descriptor table is 256 times the width of an
    address, while a descriptor takes twice that width: only the first 128
    vectors have their descriptor within the limit. *)
Theorem idt_limit_covers_128_vectors width base v : width ∈ [4; 8] → 0 ≤ v < 256 →
  (2 * width * v + 2 * width - 1 ≤ idt_length (idt_new width base) ↔ v < 128).
Proof.
  intros Hw Hv. simpl. apply elem_of_cons in Hw as [->|Hw]; [lia|].
  apply list_elem_of_singleton in Hw as ->. lia.
Qed.

Lemma idt_limit_covers_128_vectors_witness : ¬ (2 * 8 * 0x80 + 2 * 8 - 1 ≤ idt_length (idt_new 8 0)).
Proof.
  intros H. apply (idt_limit_covers_128_vectors 8 0 0x80) in H; [lia| |lia].
  apply elem_of_cons. right. by apply list_elem_of_singleton.
Defined.

(** ** A concrete manager *)

Definition demo_manager : InterruptManager :=
  {| idt := idt_new 8 0xFFFF_CF80_0000_0000; handler_registry := {[ 0x20 := Static 0x1000 ]};
     irq_enabled := true; ram := ∅ |}.
Definition demo_gate_bytes (g : GateDescriptor) : list Z := le_bytes 16 (gate_target g).
Definition demo_wrapper (v : Z) : option Z := Some (0x5000 + v).

Lemma demo_manager_ok : manager_ok demo_manager.
Proof. split; [done|]. split; by vm_compute. Qed.

Lemma register_dynamic_spec_witness :
  ∃ m', register_dynamic_handler 8 8 demo_wrapper demo_gate_bytes demo_manager 0x20 0x2000 7 = Done (Ok (), m')
    ∧ irq_enabled m' = true.
Proof.
  destruct (register_dynamic_spec demo_gate_bytes (λ g, length_le_bytes 16 _) 8 demo_wrapper demo_manager 0x20
    0x2000 7 demo_manager_ok ltac:(lia)) as (r & m' & Heq & _ & _ & -> & Hirq & _).
  exists m'. split; [exact Heq|exact Hirq].
Defined.

Lemma register_static_spec_witness :
  ∃ m', register_static_handler 8 8 demo_wrapper demo_gate_bytes demo_manager 0x20 0x3000 = Done (Ok (), m')
    ∧ handlers_of (handler_registry m' !! 0x20) = [(0x3000, MAX_INT_PRIORITY)].
Proof.
  destruct (register_static_spec demo_gate_bytes (λ g, length_le_bytes 16 _) 8 demo_wrapper demo_manager 0x20
    0x3000 demo_manager_ok) as (m' & Heq & Hh & _); [lia|by vm_compute|left; lia|by eexists|].
  exists m'. split; [exact Heq|exact Hh].
Defined.
