(* ===== verification/Ext4.v ===== *)
(** The ext4 filesystem (src/fs/ext4): the superblock and its accessors,
    identification and mounting, block reads, and the inode structure.

    [Ext4Superblock] has no [repr(C)], so that the language does not fix where
    its fields are: the layout is the class [SbLayout], and what is proved holds
    for every layout. *)

From S2P Require Import Prelude Crc Partitions.

(** * Drives *)

(** What the filesystem uses of a [SataDevice]: the sector size, the first
    sectors of [partitions()], and [read(lba, n).complete().data]. *)
Record SataDevice := {
  logical_sector_size : Z;
  partition_starts : list Z;
  drive_read : Z → Z → option (list Z)
}.

(** * The superblock *)

(** The fields of [Ext4Superblock], with their widths in bytes. *)
Inductive sb_field :=
  | sb_inodes_count | sb_blocks_count | sb_r_blocks_count | sb_free_blocks_count
  | sb_free_inodes_count | sb_first_datablock | sb_log_block_size | sb_log_cluster_size
  | sb_blocks_per_group | sb_clusters_per_group | sb_inodes_per_group | sb_mtime | sb_wtime
  | sb_mnt_count | sb_max_mnt_count | sb_magic | sb_state | sb_errors | sb_minor_rev_level
  | sb_lastcheck | sb_checkinterval | sb_creator_os | sb_rev_level | sb_def_resuid
  | sb_def_resgid | sb_first_ino | sb_inode_size | sb_block_group_nr | sb_feature_compat
  | sb_feature_incompat | sb_feature_ro_compat | sb_uuid | sb_volume_name | sb_last_mounted
  | sb_algo_bitmap | sb_prealloc_blocks | sb_prealloc_dir_block | sb_reserved_gdt_blocks
  | sb_journal_uuid | sb_journal_inum | sb_journal_dev | sb_last_orphan | sb_hash_seed
  | sb_def_hash_version | sb_jnl_backup_type | sb_desc_size | sb_default_mount_options
  | sb_first_meta_bg | sb_mkfs_time | sb_jnl_blocks_blk | sb_jnl_blocks_size_hi
  | sb_jnl_blocks_size_lo | sb_blocks_count_hi | sb_r_blocks_count_hi | sb_free_blocks_count_hi
  | sb_min_extra_isize | sb_want_extra_isize | sb_flags | sb_raid_stride | sb_mmp_interval
  | sb_mmp_block | sb_raid_stripe_width | sb_log_groups_per_flex | sb_checksum_type
  | sb_reserved_pad | sb_kbytes_written | sb_snapshot_inum | sb_snapshot_id
  | sb_snapshot_r_blocks_count | sb_snapshot_list | sb_error_count | sb_first_error_time
  | sb_first_error_ino | sb_first_error_block | sb_first_error_func | sb_first_error_line
  | sb_last_error_time | sb_last_error_ino | sb_last_error_line | sb_last_error_block
  | sb_last_error_func | sb_mount_opts | sb_usr_quota_inum | sb_grp_quota_inum
  | sb_overhead_blocks | sb_backup_bgs | sb_encrypt_algos | sb_encrypt_pw_salt | sb_lpf_ino
  | sb_prj_quota_inum | sb_checksum_seed | sb_wtime_hi | sb_mtime_hi | sb_mkfs_time_hi
  | sb_lastcheck_hi | sb_first_error_time_hi | sb_last_error_time_hi | sb_first_error_errcode
  | sb_last_error_errcode | sb_encoding | sb_encoding_flags | sb_reserved | sb_checksum.
Definition sb_width (f : sb_field) : nat :=
  match f with
  | sb_prealloc_blocks | sb_prealloc_dir_block | sb_def_hash_version | sb_jnl_backup_type
  | sb_log_groups_per_flex | sb_checksum_type | sb_wtime_hi | sb_mtime_hi | sb_mkfs_time_hi
  | sb_lastcheck_hi | sb_first_error_time_hi | sb_last_error_time_hi | sb_first_error_errcode
  | sb_last_error_errcode => 1
  | sb_mnt_count | sb_max_mnt_count | sb_magic | sb_state | sb_errors | sb_minor_rev_level
  | sb_def_resuid | sb_def_resgid | sb_inode_size | sb_block_group_nr | sb_reserved_gdt_blocks
  | sb_desc_size | sb_min_extra_isize | sb_want_extra_isize | sb_raid_stride | sb_mmp_interval
  | sb_reserved_pad | sb_encoding | sb_encoding_flags => 2
  | sb_mmp_block | sb_kbytes_written | sb_snapshot_r_blocks_count | sb_first_error_block
  | sb_last_error_block | sb_backup_bgs => 8
  | sb_uuid | sb_volume_name | sb_journal_uuid | sb_hash_seed | sb_encrypt_pw_salt => 16
  | sb_first_error_func | sb_last_error_func => 32
  | sb_jnl_blocks_blk => 60
  | sb_last_mounted | sb_mount_opts => 64
  | sb_reserved => 380
  | _ => 4
  end%nat.

(** [size_of::<Ext4Superblock>()] and the offset of each field. *)
Class SbLayout := {
  sb_size : nat;
  sb_offset : sb_field → nat;
  sb_offset_ok : ∀ f, (sb_offset f + sb_width f ≤ sb_size)%nat
}.

Definition EXT4_FEATURE_INCOMPAT_EXTENTS : Z := 0x0040.
Definition EXT4_FEATURE_INCOMPAT_64BIT : Z := 0x0080.
Definition EXT4_SB_MAGIC : Z := 0xEF53.
Definition CHKSUM_CRC32_C : Z := 0x1.

(** [IncompatibleFeatureSet]: [(self | features) ^ features == EMPTY_SET]. *)
Definition is_subset_of (self features : Z) : bool :=
  bool_decide (Z.lxor (Z.lor self features) features = 0).
Definition includes (self features : Z) : bool := is_subset_of features self.

(** [add_high_bits] of [Ext4BlkCount32]. *)
Definition add_high_bits (low high : Z) : Z := Z.lor low (Z.shiftl high 32).

Section superblock.
Context `{SbLayout}.

(** The superblock is the bytes of the structure. *)
Definition Superblock : Type := list Z.
Definition sb_get (sb : Superblock) (f : sb_field) : Z :=
  of_le (take (sb_width f) (drop (sb_offset f) sb)).

Definition blk_count (sb : Superblock) : Z :=
  if includes (sb_get sb sb_feature_incompat) EXT4_FEATURE_INCOMPAT_64BIT
  then add_high_bits (sb_get sb sb_blocks_count) (sb_get sb sb_blocks_count_hi)
  else sb_get sb sb_blocks_count.
Definition free_blk_count (sb : Superblock) : Z :=
  if includes (sb_get sb sb_feature_incompat) EXT4_FEATURE_INCOMPAT_64BIT
  then add_high_bits (sb_get sb sb_free_blocks_count) (sb_get sb sb_free_blocks_count_hi)
  else sb_get sb sb_free_blocks_count.
(** [1024 << log_block_size]: the shift amount is masked, the high bits lost. *)
Definition blk_size (sb : Superblock) : Z :=
  u64 (Z.shiftl 1024 (sb_get sb sb_log_block_size mod 64)).
(** Division panics on zero. *)
Definition rust_div (a b : Z) : outcome Z := if bool_decide (b = 0) then Panicked else Done (a / b).
Definition rust_rem (a b : Z) : outcome Z := if bool_decide (b = 0) then Panicked else Done (a mod b).
(** [try_from] to [w] bits, then [expect]. *)
Definition fit (w z : Z) : outcome Z := if bool_decide (in_width w z) then Done z else Panicked.

Definition bg_count (sb : Superblock) : outcome Z :=
  q ← rust_div (blk_count sb) (sb_get sb sb_blocks_per_group);
  fit 32 (u64 (1 + q)).
(** [inode_id - 1] saturates. *)
Definition inode_index (inode_id : Z) : Z := Z.max 0 (inode_id - 1).
Definition get_inode_blk_group (sb : Superblock) (inode_id : Z) : outcome Z :=
  rust_div (inode_index inode_id) (sb_get sb sb_inodes_per_group).
Definition get_inode_entry_pos (sb : Superblock) (inode_id : Z) : outcome (Z * Z * Z) :=
  inode_bg_idx ← rust_rem (inode_index inode_id) (sb_get sb sb_inodes_per_group);
  let inode_byte_idx := u64 (inode_bg_idx * sb_get sb sb_inode_size) in
  inode_blk_offset ← rust_div inode_byte_idx (blk_size sb);
  inode_bytes_idx_in_blk ← rust_rem inode_byte_idx (blk_size sb);
  g ← get_inode_blk_group sb inode_id;
  Done (g, inode_blk_offset, inode_bytes_idx_in_blk).

(** The checksum covers all but the last four bytes of the structure. *)
Definition compute_chksum (sb : Superblock) : outcome Z :=
  if bool_decide (4 ≤ sb_size)%nat then Done (crc32c_calc (take (sb_size - 4) sb)) else Panicked.
Definition validate_chksum (sb : Superblock) : outcome bool :=
  c ← compute_chksum sb;
  Done (bool_decide (c = sb_get sb sb_checksum)).
Definition magic_is_valid (sb : Superblock) : bool := bool_decide (sb_get sb sb_magic = EXT4_SB_MAGIC).

(** * Mounting *)

Context (get_sata_drive : AtaDeviceIdentifier → option SataDevice).

(** The filesystem: its drive, its partition and its superblock.  The caches are
    empty at mount time and are not part of this model. *)
Record Ext4Fs := {
  fs_drive_id : AtaDeviceIdentifier;
  fs_partition_id : Z;
  fs_superblock : Superblock
}.

(** The read shared by [mount] and [identify]: [None] when the drive fails; the
    pointer cast reads [sb_size] bytes of the buffer, whatever its length. *)
Definition read_superblock (drive : SataDevice) (partition_data : Z) : outcome (option Superblock) :=
  q ← rust_div 1024 (logical_sector_size drive);
  let sb_start_lba := u64 (q + partition_data) in
  sector ← fit 32 (logical_sector_size drive);
  sz ← fit 32 (Z.of_nat sb_size);
  sb_size_in_lba ← rust_div sz sector;
  n ← fit 16 sb_size_in_lba;
  match drive_read drive sb_start_lba n with
  | None => Done None
  | Some buf => bs ← read_at buf 0 sb_size; Done (Some bs)
  end.

Definition mount (drive_id : AtaDeviceIdentifier) (partition_id partition_data : Z)
    : outcome (result Ext4Fs MountError) :=
  match get_sata_drive drive_id with
  | None => Done (Err MountIOError)
  | Some drive =>
      r ← read_superblock drive partition_data;
      match r with
      | None => Done (Err MountIOError)
      | Some sb =>
          bad ← (if bool_decide (sb_get sb sb_checksum_type = CHKSUM_CRC32_C)
                 then negb <$> validate_chksum sb else Done false);
          if (bad : bool) then Done (Err BadSuperblock)
          else if negb (magic_is_valid sb) then Done (Err BadSuperblock)
          else Done (Ok {| fs_drive_id := drive_id; fs_partition_id := partition_id; fs_superblock := sb |})
      end
  end.

Definition identify (drive_id : AtaDeviceIdentifier) (partition_data : Z) : outcome (result bool IOError) :=
  match get_sata_drive drive_id with
  | None => Done (Err InvalidDevice)
  | Some drive =>
      r ← read_superblock drive partition_data;
      match r with
      | None => Done (Err IOUnknown)
      | Some sb => Done (Ok (magic_is_valid sb))
      end
  end.

#[export] Instance Ext4_Fs : Fs Ext4Fs := {| fs_mount := mount; fs_identify := identify |}.

(** * Block reads *)

(** [allocate_blk]: a zeroed buffer of one block. *)
Definition allocate_blk (fs : Ext4Fs) : list Z := replicate (Z.to_nat (blk_size (fs_superblock fs))) 0.

(** [read_blk_from_device(blk_id, buffer)] for a buffer of [len] bytes: the bytes
    that [copy_from_slice] leaves there. *)
Definition read_blk_from_device (fs : Ext4Fs) (blk_id : Z) (len : nat) : outcome (result (list Z) IOError) :=
  let sb := fs_superblock fs in
  if bool_decide (blk_id > blk_count sb) then Done (Err InvalidCommand)
  else
    match get_sata_drive (fs_drive_id fs) with
    | None => Done (Err InvalidDevice)
    | Some drive =>
        match partition_starts drive !! Z.to_nat (fs_partition_id fs) with
        | None => Done (Err IOUnknown)
        | Some partition_data =>
            sectors_count ← rust_div (blk_size sb) (logical_sector_size drive);
            off ← rust_div (u64 (blk_id * blk_size sb)) (logical_sector_size drive);
            n ← fit 16 sectors_count;
            match drive_read drive (u64 (partition_data + off)) n with
            | None => Done (Err IOUnknown)
            | Some data => if bool_decide (length data = len) then Done (Ok data) else Panicked
            end
        end
    end.
End superblock.

Lemma rust_div_Done a b q : rust_div a b = Done q ↔ b ≠ 0 ∧ q = a / b.
Proof. unfold rust_div. case_bool_decide; naive_solver. Qed.
Lemma rust_rem_Done a b q : rust_rem a b = Done q ↔ b ≠ 0 ∧ q = a mod b.
Proof. unfold rust_rem. case_bool_decide; naive_solver. Qed.
Lemma fit_Done w z q : fit w z = Done q ↔ in_width w z ∧ q = z.
Proof. unfold fit. case_bool_decide; naive_solver. Qed.

(** Inverts the checked arithmetic of a successful run. *)
Ltac inv_arith :=
  repeat match goal with
  | H : rust_div _ _ = Done _ |- _ => apply rust_div_Done in H as [? ?]
  | H : rust_rem _ _ = Done _ |- _ => apply rust_rem_Done in H as [? ?]
  | H : fit _ _ = Done _ |- _ => apply fit_Done in H as [? ?]
  end.

(** * The position of an inode *)

Section positions.
Context `{SbLayout}.

Lemma sb_get_width sb f : length sb = sb_size → Forall byte sb →
  in_width (8 * Z.of_nat (sb_width f)) (sb_get sb f).
Proof.
  intros Hl Hb. unfold sb_get. pose proof (sb_offset_ok f).
  assert (Hw : length (take (sb_width f) (drop (sb_offset f) sb)) = sb_width f)
    by (rewrite length_take, length_drop; lia).
  rewrite <- Hw at 1. by apply of_le_range, Forall_take, Forall_drop.
Qed.

Lemma blk_size_pow2 sb : length sb = sb_size → Forall byte sb →
  sb_get sb sb_log_block_size < 54 →
  blk_size sb = 2 ^ (10 + sb_get sb sb_log_block_size).
Proof.
  intros Hl Hb Hs. unfold blk_size.
  pose proof (sb_get_width sb sb_log_block_size Hl Hb) as [Hp _].
  rewrite Z.mod_small, Z.shiftl_mul_pow2 by lia.
  change 1024 with (2 ^ 10). rewrite <- Z.pow_add_r by lia.
  apply u64_id. split; [by apply Z.pow_nonneg|]. apply Z.pow_lt_mono_r; lia.
Qed.

(** The position [get_inode_entry_pos] computes for an inode is the one the
    ext4 layout gives it: the group and the byte offset in the group's inode table
    identify the inode, the offset is a multiple of the inode size, and an entry
    whose size divides the block size lies within one block.  Nothing overflows. *)
Theorem inode_entry_pos sb inode_id : length sb = sb_size → Forall byte sb →
  sb_get sb sb_log_block_size < 54 → 0 < sb_get sb sb_inodes_per_group →
  0 < sb_get sb sb_inode_size → 1 ≤ inode_id < 2 ^ 32 →
  ∃ g b o,
    get_inode_entry_pos sb inode_id = Done (g, b, o)
    ∧ get_inode_blk_group sb inode_id = Done g
    ∧ 0 ≤ b ∧ 0 ≤ o < blk_size sb
    ∧ b * blk_size sb + o < sb_get sb sb_inodes_per_group * sb_get sb sb_inode_size
    ∧ (sb_get sb sb_inode_size | b * blk_size sb + o)
    ∧ g * sb_get sb sb_inodes_per_group + (b * blk_size sb + o) / sb_get sb sb_inode_size = inode_id - 1
    ∧ ((sb_get sb sb_inode_size | blk_size sb) → o + sb_get sb sb_inode_size ≤ blk_size sb).
Proof.
  intros Hl Hb Hs Hi Hz Hid.
  pose proof (blk_size_pow2 sb Hl Hb Hs) as Hbs.
  pose proof (sb_get_width sb sb_log_block_size Hl Hb) as [Hp _].
  pose proof (sb_get_width sb sb_inodes_per_group Hl Hb) as [_ Hi2].
  pose proof (sb_get_width sb sb_inode_size Hl Hb) as [_ Hz2].
  assert (Hb0 : 0 < blk_size sb) by (rewrite Hbs; apply pow2_pos; lia).
  revert Hi2 Hz2. simpl sb_width.
  set (ipg := sb_get sb sb_inodes_per_group) in *. set (isz := sb_get sb sb_inode_size) in *.
  set (bs := blk_size sb) in *. clear Hbs Hp Hs Hb Hl.
  change (8 * Z.of_nat 4) with 32. change (8 * Z.of_nat 2) with 16. intros Hi2 Hz2.
  set (i := (inode_id - 1) mod ipg).
  assert (Hir : 0 ≤ i < ipg) by (apply Z.mod_pos_bound; lia).
  assert (Hn : 0 ≤ i * isz < ipg * isz) by nia.
  assert (Hw : u64 (i * isz) = i * isz) by (apply u64_id; split; [lia|];
    apply Z.le_lt_trans with (2 ^ 32 * 2 ^ 16); [apply Z.mul_le_mono_nonneg; lia|done]).
  exists ((inode_id - 1) / ipg), (i * isz / bs), (i * isz mod bs).
  assert (Hsplit : i * isz / bs * bs + i * isz mod bs = i * isz)
    by (pose proof (Z.div_mod (i * isz) bs); lia).
  rewrite Hsplit. unfold get_inode_entry_pos, get_inode_blk_group, rust_rem, rust_div.
  change (sb_get sb sb_inodes_per_group) with ipg. change (sb_get sb sb_inode_size) with isz.
  change (blk_size sb) with bs. clearbody bs.
  unfold inode_index. rewrite Z.max_r by lia.
  rewrite !bool_decide_false by lia. cbn [mbind outcome_bind]. fold i. rewrite Hw.
  split; [done|split; [done|]].
  pose proof (Z.mod_pos_bound (i * isz) bs Hb0) as Ho.
  split; [apply Z.div_pos; lia|]. split; [done|]. split; [lia|].
  split; [by apply Z.divide_factor_r|]. split.
  { rewrite Z.div_mul by lia. pose proof (Z.div_mod (inode_id - 1) ipg). unfold i. lia. }
  intros [k Hk]. assert (Hm : i * isz mod bs = (i mod k) * isz).
  { rewrite Hk, Z.mul_mod_distr_r by nia. done. }
  rewrite Hm, Hk. pose proof (Z.mod_pos_bound i k). nia.
Qed.
End positions.

(** * Mounting *)

Lemma load_fs_mounted {F} `{Fs F} (p p' : Partition F) f :
  load_fs p = Done (p', Ok ()) → fs p' = Ext4 f →
  fs_identify (drive_id p) (start_lba p) = Done (Ok true)
  ∧ fs_mount (drive_id p) (id p) (start_lba p) = Done (Ok f).
Proof.
  unfold load_fs, start_lba, try_ext4. destruct p as [i d m f0]; simpl.
  destruct m as [e|e]; simpl; [destruct (partition_type e); simpl; try (intros [= <-]; done); try done|];
    (destruct (fs_identify _ _) as [[[]|]| | |]; simpl; try done; [|by intros [= <-]]);
    (destruct (fs_mount _ _ _) as [[]| | |]; simpl; try done);
    intros [= <-] [= <-]; by split.
Qed.

Section mounting.
Context `{SbLayout} (get_sata_drive : AtaDeviceIdentifier → option SataDevice).

(** The superblock bytes of a drive at a partition's first sector. *)
Definition superblock_at (drive : SataDevice) (lba : Z) (sb : Superblock) : Prop :=
  ∃ buf, drive_read drive (u64 (1024 / logical_sector_size drive + lba))
           (Z.of_nat sb_size / logical_sector_size drive) = Some buf
    ∧ (sb_size ≤ length buf)%nat ∧ sb = take sb_size buf.

Lemma read_superblock_Some drive lba sb :
  read_superblock drive lba = Done (Some sb) → superblock_at drive lba sb.
Proof.
  unfold read_superblock. intros Hr. inv_done. inv_arith. simplify_eq.
  destruct (drive_read _ _ _) as [buf|] eqn:E; [|done]. inv_done.
  unfold read_at in *. case_bool_decide; [|done]. simplify_eq. exists buf.
  rewrite drop_0. split; [done|]. split; [lia|done].
Qed.

Lemma mount_Ok d i lba f : mount get_sata_drive d i lba = Done (Ok f) →
  fs_drive_id f = d ∧ fs_partition_id f = i
  ∧ ∃ drive, get_sata_drive d = Some drive ∧ superblock_at drive lba (fs_superblock f)
    ∧ magic_is_valid (fs_superblock f) = true
    ∧ (sb_get (fs_superblock f) sb_checksum_type = CHKSUM_CRC32_C →
       validate_chksum (fs_superblock f) = Done true).
Proof.
  unfold mount. destruct (get_sata_drive d) as [drive|]; [|done]. intros Hm. inv_done.
  destruct x as [sb|]; [|done]. inv_done. destruct x; [done|].
  destruct (magic_is_valid sb) eqn:Hv; [|done]. inv_done.
  split; [done|split; [done|]]. exists drive. split; [done|].
  split; [by apply read_superblock_Some|]. split; [done|]. intros Ht.
  rewrite bool_decide_true in H1 by done.
  destruct (validate_chksum sb) as [[]| | |]; done.
Qed.

(** C35: mounting through [Partition::load_fs]: a partition that [load_fs] leaves
    with an ext4 filesystem has it on the partition's own drive and number, with
    the superblock found 1024 bytes after the partition's first sector; that
    superblock has the ext4 magic number and, when it declares a CRC-32C
    checksum, its checksum is the CRC-32C of all but its last four bytes. *)
Theorem load_fs_ext4_checked (p p' : Partition Ext4Fs) f :
  let _ := Ext4_Fs get_sata_drive in
  load_fs p = Done (p', Ok ()) → fs p' = Ext4 f →
  fs_drive_id f = drive_id p ∧ fs_partition_id f = id p
  ∧ ∃ drive, get_sata_drive (drive_id p) = Some drive
    ∧ superblock_at drive (start_lba p) (fs_superblock f)
    ∧ sb_get (fs_superblock f) sb_magic = EXT4_SB_MAGIC
    ∧ (sb_get (fs_superblock f) sb_checksum_type = CHKSUM_CRC32_C →
       crc32c_calc (take (sb_size - 4) (fs_superblock f)) = sb_get (fs_superblock f) sb_checksum).
Proof.
  intros Hfs Hl Hf. destruct (load_fs_mounted p p' f Hl Hf) as [_ Hm].
  destruct (mount_Ok _ _ _ _ Hm) as (Hd & Hi & drive & Hg & Hs & Hv & Hc).
  split; [done|split; [done|]]. exists drive. split; [done|split; [done|]]. split.
  - unfold magic_is_valid in Hv. by apply bool_decide_eq_true in Hv.
  - intros Ht. specialize (Hc Ht). unfold validate_chksum, compute_chksum in Hc.
    case_bool_decide; [|done]. simpl in Hc. injection Hc as Hc. by apply bool_decide_eq_true in Hc.
Qed.
End mounting.

(** * A concrete filesystem

    The layout the structure would have with [repr(C)] and 8-byte alignment of
    [u128], a superblock with 4 KB blocks, and a drive that holds it on its first
    partition. *)
Definition c_offset (f : sb_field) : nat :=
  match f with
  | sb_inodes_count => 0 | sb_blocks_count => 4 | sb_r_blocks_count => 8
  | sb_free_blocks_count => 12 | sb_free_inodes_count => 16 | sb_first_datablock => 20
  | sb_log_block_size => 24 | sb_log_cluster_size => 28 | sb_blocks_per_group => 32
  | sb_clusters_per_group => 36 | sb_inodes_per_group => 40 | sb_mtime => 44 | sb_wtime => 48
  | sb_mnt_count => 52 | sb_max_mnt_count => 54 | sb_magic => 56 | sb_state => 58
  | sb_errors => 60 | sb_minor_rev_level => 62 | sb_lastcheck => 64 | sb_checkinterval => 68
  | sb_creator_os => 72 | sb_rev_level => 76 | sb_def_resuid => 80 | sb_def_resgid => 82
  | sb_first_ino => 84 | sb_inode_size => 88 | sb_block_group_nr => 90 | sb_feature_compat => 92
  | sb_feature_incompat => 96 | sb_feature_ro_compat => 100 | sb_uuid => 104
  | sb_volume_name => 120 | sb_last_mounted => 136 | sb_algo_bitmap => 200
  | sb_prealloc_blocks => 204 | sb_prealloc_dir_block => 205 | sb_reserved_gdt_blocks => 206
  | sb_journal_uuid => 208 | sb_journal_inum => 224 | sb_journal_dev => 228
  | sb_last_orphan => 232 | sb_hash_seed => 236 | sb_def_hash_version => 252
  | sb_jnl_backup_type => 253 | sb_desc_size => 254 | sb_default_mount_options => 256
  | sb_first_meta_bg => 260 | sb_mkfs_time => 264 | sb_jnl_blocks_blk => 268
  | sb_jnl_blocks_size_hi => 328 | sb_jnl_blocks_size_lo => 332 | sb_blocks_count_hi => 336
  | sb_r_blocks_count_hi => 340 | sb_free_blocks_count_hi => 344 | sb_min_extra_isize => 348
  | sb_want_extra_isize => 350 | sb_flags => 352 | sb_raid_stride => 356 | sb_mmp_interval => 358
  | sb_mmp_block => 360 | sb_raid_stripe_width => 368 | sb_log_groups_per_flex => 372
  | sb_checksum_type => 373 | sb_reserved_pad => 374 | sb_kbytes_written => 376
  | sb_snapshot_inum => 384 | sb_snapshot_id => 388 | sb_snapshot_r_blocks_count => 392
  | sb_snapshot_list => 400 | sb_error_count => 404 | sb_first_error_time => 408
  | sb_first_error_ino => 412 | sb_first_error_block => 416 | sb_first_error_func => 424
  | sb_first_error_line => 456 | sb_last_error_time => 460 | sb_last_error_ino => 464
  | sb_last_error_line => 468 | sb_last_error_block => 472 | sb_last_error_func => 480
  | sb_mount_opts => 512 | sb_usr_quota_inum => 576 | sb_grp_quota_inum => 580
  | sb_overhead_blocks => 584 | sb_backup_bgs => 588 | sb_encrypt_algos => 596
  | sb_encrypt_pw_salt => 600 | sb_lpf_ino => 616 | sb_prj_quota_inum => 620
  | sb_checksum_seed => 624 | sb_wtime_hi => 628 | sb_mtime_hi => 629 | sb_mkfs_time_hi => 630
  | sb_lastcheck_hi => 631 | sb_first_error_time_hi => 632 | sb_last_error_time_hi => 633
  | sb_first_error_errcode => 634 | sb_last_error_errcode => 635 | sb_encoding => 636
  | sb_encoding_flags => 638 | sb_reserved => 640 | sb_checksum => 1020
  end%nat.
Definition c_layout : SbLayout.
Proof.
  refine {| sb_size := 1024; sb_offset := c_offset |}. intros []; apply Nat.leb_le; vm_compute; done.
Defined.

Definition put (l : list Z) (off : nat) (bs : list Z) : list Z :=
  take off l ++ bs ++ drop (off + length bs) l.
Definition demo_sb : list Z := Eval vm_compute in
  let sb := put (put (put (put (put (put (put (replicate 1024 0)
              4 (le_bytes 4 4096)) 24 (le_bytes 4 2)) 40 (le_bytes 4 8192)) 56 (le_bytes 2 EXT4_SB_MAGIC))
              88 (le_bytes 2 256)) 96 (le_bytes 4 EXT4_FEATURE_INCOMPAT_EXTENTS)) 373 [CHKSUM_CRC32_C] in
  put sb 1020 (le_bytes 4 (crc32c_calc (take 1020 sb))).

Definition drive_of (contents : list (Z * list Z)) : SataDevice := {|
  logical_sector_size := 512;
  partition_starts := [2048];
  drive_read := λ lba n,
    c ← snd <$> head (filter (λ c, fst c = lba) contents);
    if bool_decide (length c = Z.to_nat (512 * n)) then Some c else None
|}.
Definition demo_id : AtaDeviceIdentifier := {| disk_type := AHCI; ide_controller := 0; device_id := 0 |}.
Definition demo_drives (contents : list (Z * list Z)) : AtaDeviceIdentifier → option SataDevice :=
  λ _, Some (drive_of ((2050, demo_sb) :: contents)).
Definition demo_fs : Ext4Fs := {| fs_drive_id := demo_id; fs_partition_id := 0; fs_superblock := demo_sb |}.
Definition demo_partition : Partition Ext4Fs := {|
  id := 0; drive_id := demo_id; fs := FsUnknown;
  metadata := MetaMBR {| attributes := 0; chs_start := (0, 0, 0); part_type := 0x83;
                         chs_last := (0, 0, 0); lba_start := 2048; sectors_count := 4096 |}
|}.

Lemma load_fs_ext4_checked_witness :
  let _ := c_layout in let _ := Ext4_Fs (demo_drives []) in
  load_fs demo_partition = Done (with_fs demo_partition (Ext4 demo_fs), Ok ())
  ∧ sb_get demo_sb sb_magic = EXT4_SB_MAGIC.
Proof.
  intros L I.
  assert (H1 : load_fs demo_partition = Done (with_fs demo_partition (Ext4 demo_fs), Ok ()))
    by (vm_compute; reflexivity).
  split; [exact H1|].
  destruct (load_fs_ext4_checked (demo_drives []) demo_partition _ demo_fs H1 eq_refl)
    as (_ & _ & d & _ & _ & Hm & _).
  exact Hm.
Defined.

Lemma inode_entry_pos_witness : let _ := c_layout in
  ∃ g b o, get_inode_entry_pos demo_sb 8200 = Done (g, b, o)
    ∧ g * 8192 + (b * 4096 + o) / 256 = 8199.
Proof.
  intros L.
  assert (Hb : Forall byte demo_sb).
  { apply (bool_decide_eq_true_1 (Forall byte demo_sb)). vm_compute. reflexivity. }
  destruct (inode_entry_pos demo_sb 8200) as (g & b & o & H & _ & _ & _ & _ & _ & E & _);
    [vm_compute; reflexivity|exact Hb|vm_compute; reflexivity|vm_compute; reflexivity
    |vm_compute; reflexivity|split; [lia|vm_compute; reflexivity]|].
  exists g, b, o. split; [exact H|]. exact E.
Defined.
