(* ===== verification/Extents.v ===== *)
(** Extent trees and file reads of ext4 (src/fs/ext4/extent.rs, file.rs, and the
    inode structure of inode.rs).

    [bytemuck::from_bytes] panics on a buffer that is not aligned for its type;
    [aligned4] says whether the allocator returns 4-byte aligned buffers.
    [binary_search_by] is the class [BinarySearch], its documented contract, with
    the algorithm of the standard library as an instance. *)

From stdpp Require Import sorting.
From S2P Require Import Prelude Crc Partitions Ext4.

(** * Structures *)

Record ExtentHeader := { eh_magic : Z; eh_entries : Z; eh_max : Z; eh_depth : Z; eh_generation : Z }.
Definition header_layout : list nat := [2; 2; 2; 2; 4]%nat.
Definition header_fields (h : ExtentHeader) : list Z :=
  [eh_magic h; eh_entries h; eh_max h; eh_depth h; eh_generation h].
Definition header_of_fields (v : list Z) : ExtentHeader := {|
  eh_magic := v !!! 0%nat; eh_entries := v !!! 1%nat; eh_max := v !!! 2%nat;
  eh_depth := v !!! 3%nat; eh_generation := v !!! 4%nat |}.

Record Extent := { block : Z; len : Z; start_hi : Z; start_lo : Z }.
Definition extent_layout : list nat := [4; 2; 2; 4]%nat.
Definition extent_fields (e : Extent) : list Z := [block e; len e; start_hi e; start_lo e].
Definition extent_of_fields (v : list Z) : Extent := {|
  block := v !!! 0%nat; len := v !!! 1%nat; start_hi := v !!! 2%nat; start_lo := v !!! 3%nat |}.

Record ExtentIdx := { idx_block : Z; leaf_lo : Z; leaf_hi : Z; idx_unused : Z }.
Definition idx_layout : list nat := [4; 4; 2; 2]%nat.
Definition idx_fields (e : ExtentIdx) : list Z := [idx_block e; leaf_lo e; leaf_hi e; idx_unused e].
Definition idx_of_fields (v : list Z) : ExtentIdx := {|
  idx_block := v !!! 0%nat; leaf_lo := v !!! 1%nat; leaf_hi := v !!! 2%nat; idx_unused := v !!! 3%nat |}.

#[global] Instance Extent_eq_dec : EqDecision Extent.
Proof. solve_decision. Defined.

(** [Ext4ExtentHeaderDepth::LEAF_DEPTH]. *)
Definition is_leaf (h : ExtentHeader) : bool := bool_decide (eh_depth h = 0).
(** [Ext4ExtentLength::is_initialized] and [length]. *)
Definition is_initialized (l : Z) : bool := bool_decide (l ≤ 32768).
Definition extent_length (l : Z) : Z := if is_initialized l then l else l - 32768.
(** The two halves of a block number. *)
Definition start_blk (e : Extent) : Z := Z.lor (start_lo e) (Z.shiftl (start_hi e) 32).
Definition leaf (e : ExtentIdx) : Z := Z.lor (leaf_lo e) (Z.shiftl (leaf_hi e) 32).
(** [self.block + self.len], on 32 bits, with the raw length. *)
Definition extent_end (e : Extent) : Z := u32 (block e + len e).
Definition extent_contains (e : Extent) (blk_id : Z) : bool :=
  bool_decide (block e ≤ blk_id) && bool_decide (blk_id ≤ extent_end e).

(** The inode structure of the disk, in the order of its fields. *)
Record Ext4Inode := {
  i_mode : Z; i_uid : Z; i_size_lo : Z; i_atime : Z; i_ctime : Z; i_mtime : Z; i_dtime : Z;
  i_gid : Z; i_links_count : Z; i_blocks_lo : Z; i_flags : Z; i_version : Z;
  i_block : list Z;
  i_generation : Z; i_file_acl_lo : Z; i_size_hi : Z; i_faddr : Z; i_blocks_high : Z;
  i_file_acl_high : Z; i_uid_high : Z; i_gid_high : Z; i_checksum_lo : Z; i_reserved : Z;
  i_extra_isize : Z; i_checksum_hi : Z; i_ctime_extra : Z; i_mtime_extra : Z; i_atime_extra : Z;
  i_crtime : Z; i_crtime_extra : Z; i_version_hi : Z; i_projid : Z
}.
Record Inode := { inode_number : Z; ext4_inode : Ext4Inode }.
Definition S_IFREG : Z := 0x8000.
Definition EXT4_EXTENTS_FL : Z := 0x80000.
Definition mode_contains (i : Inode) (mode : Z) : bool :=
  bool_decide (Z.land (i_mode (ext4_inode i)) mode ≠ 0).
Definition uses_extent_tree (i : Inode) : bool :=
  bool_decide (Z.land (i_flags (ext4_inode i)) EXT4_EXTENTS_FL ≠ 0).
Definition inode_size (i : Inode) : Z :=
  Z.lor (i_size_lo (ext4_inode i)) (Z.shiftl (i_size_hi (ext4_inode i)) 32).

(** * Binary search *)

(** The order of [f] on the list, as [binary_search_by] requires it. *)
Definition search_sorted (f : Extent → comparison) (l : list Extent) : Prop :=
  ∃ l1 l2 l3, l = l1 ++ l2 ++ l3 ∧ Forall (λ e, f e = Lt) l1
    ∧ Forall (λ e, f e = Eq) l2 ∧ Forall (λ e, f e = Gt) l3.
Class BinarySearch := {
  binary_search_by : (Extent → comparison) → list Extent → option nat;
  binary_search_Some : ∀ f l i, search_sorted f l → binary_search_by f l = Some i →
    ∃ e, l !! i = Some e ∧ f e = Eq;
  binary_search_None : ∀ f l, search_sorted f l → binary_search_by f l = None →
    Forall (λ e, f e ≠ Eq) l
}.

(** The loop of the standard library: it halves the candidates, keeping those
    from the middle on unless the middle is greater. *)
Fixpoint search_loop (fuel : nat) (f : Extent → comparison) (l : list Extent) (base size : nat) : nat :=
  match fuel with
  | O => base
  | S fuel =>
      if (size <=? 1)%nat then base
      else
        let half := (size / 2)%nat in
        let mid := (base + half)%nat in
        match l !! mid with
        | Some e => search_loop fuel f l (match f e with Gt => base | _ => mid end) (size - half)
        | None => base
        end
  end.
Definition std_search (f : Extent → comparison) (l : list Extent) : option nat :=
  let i := search_loop (length l) f l 0 (length l) in
  e ← l !! i;
  match f e with Eq => Some i | _ => None end.

Lemma search_sorted_mono f l i j e e' : search_sorted f l → (i ≤ j)%nat →
  l !! i = Some e → l !! j = Some e' →
  (f e = Gt → f e' = Gt) ∧ (f e = Eq → f e' ≠ Lt).
Proof.
  intros (l1 & l2 & l3 & -> & H1 & H2 & H3) Hij Hi Hj.
  rewrite Forall_lookup in H1, H2, H3.
  rewrite !lookup_app_Some in Hi, Hj.
  destruct Hi as [Hi|(? & [Hi|(? & Hi)])], Hj as [Hj|(? & [Hj|(? & Hj)])];
    repeat match goal with
    | Hx : l1 !! _ = Some _ |- _ => pose proof (H1 _ _ Hx); apply lookup_lt_Some in Hx
    | Hx : l2 !! _ = Some _ |- _ => pose proof (H2 _ _ Hx); apply lookup_lt_Some in Hx
    | Hx : l3 !! _ = Some _ |- _ => pose proof (H3 _ _ Hx); apply lookup_lt_Some in Hx
    end; solve [split; congruence | lia].
Qed.

Lemma search_loop_spec fuel f l base size : search_sorted f l →
  (1 ≤ size ≤ S fuel)%nat → (base + size ≤ length l)%nat →
  (∀ j e, (base + size ≤ j)%nat → l !! j = Some e → f e = Gt) →
  (∀ e, l !! base = Some e → base = 0%nat ∨ f e ≠ Gt) →
  let r := search_loop fuel f l base size in
  (r < length l)%nat ∧ (∀ j e, (r < j)%nat → l !! j = Some e → f e = Gt)
  ∧ (∀ e, l !! r = Some e → r = 0%nat ∨ f e ≠ Gt).
Proof.
  intros Hs. revert base size. induction fuel as [|fuel IH]; intros base size Hz Hl Hgt Hb; cbn [search_loop].
  { split; [lia|]. split; [|done]. intros j e Hj. apply Hgt. lia. }
  destruct (Nat.leb_spec size 1).
  { split; [lia|]. split; [|done]. intros j e Hj. apply Hgt. lia. }
  assert (Hh : (1 ≤ size / 2 < size)%nat).
  { split; [apply Nat.div_le_lower_bound; lia|apply Nat.div_lt; lia]. }
  pose proof (Nat.Div0.mul_div_le size 2).
  destruct (lookup_lt_is_Some_2 l (base + size / 2)) as [e He]; [lia|]. rewrite He.
  destruct (f e) eqn:Ef; apply IH; try lia.
  1,3: intros j e' Hj; apply Hgt; lia.
  1,2: intros e' He'; right; congruence.
  - intros j e' Hj Hj'. refine (proj1 (search_sorted_mono f l (base + size / 2) j e e' Hs _ He Hj') Ef). lia.
  - done.
Qed.

Lemma std_search_loop f l : search_sorted f l → l ≠ [] → ∃ e,
  l !! search_loop (length l) f l 0 (length l) = Some e
  ∧ (f e = Eq ∨ Forall (λ e, f e ≠ Eq) l).
Proof.
  intros Hs Hn. assert (length l ≠ 0%nat) by (by destruct l).
  destruct (search_loop_spec (length l) f l 0 (length l) Hs) as (Hr & Hgt & Hb); [lia..| |by left|].
  { intros j e Hj Hj'. apply lookup_lt_Some in Hj'. lia. }
  set (r := search_loop _ f l 0 _) in *. destruct (lookup_lt_is_Some_2 l r Hr) as [e He].
  exists e. split; [done|]. destruct (f e) eqn:Ef; [by left| |]; right;
    apply Forall_lookup; intros j e' Hj E;
    (destruct (decide (r < j)%nat) as [Hj'|Hj']; [by rewrite (Hgt _ _ Hj' Hj) in E|]).
  - by apply (proj2 (search_sorted_mono f l j r e' e Hs ltac:(lia) Hj He)).
  - destruct (Hb e He) as [->|]; [|done]. replace j with 0%nat in * by lia. congruence.
Qed.

#[export] Instance std_binary_search : BinarySearch.
Proof.
  refine {| binary_search_by := std_search |}; unfold std_search.
  - intros f l i Hs H. destruct (l !! search_loop _ f l 0 _) as [e|] eqn:E; [|done].
    simpl in H. destruct (f e) eqn:Ef; try done. injection H as <-. by exists e.
  - intros f l Hs H. destruct (decide (l = [])) as [->|Hn]; [constructor|].
    destruct (std_search_loop f l Hs Hn) as (e & E & He). rewrite E in H. simpl in H.
    destruct He as [He|He]; [by rewrite He in H|done].
Defined.

(** * Extent blocks *)

(** [&self.0[a..b]]. *)
Definition slice (l : list Z) (a b : nat) : outcome (list Z) :=
  if bool_decide (a ≤ b ≤ length l)%nat then Done (take (b - a) (drop a l)) else Panicked.

Definition EXTENT_HEADER_SIZE : nat := 12.
Definition EXTENT_SIZE : nat := 12.

Definition get_header (blk : list Z) : outcome ExtentHeader :=
  bs ← slice blk 0 EXTENT_HEADER_SIZE;
  Done (header_of_fields (decode_fields header_layout bs)).
(** [None] is the function's [None]. *)
Definition get_entry_bytes (blk : list Z) (entry : nat) : outcome (option (list Z)) :=
  h ← get_header blk;
  if bool_decide (eh_entries h ≤ Z.of_nat entry) then Done None
  else
    bs ← slice blk (EXTENT_HEADER_SIZE + entry * EXTENT_SIZE) (EXTENT_HEADER_SIZE + (1 + entry) * EXTENT_SIZE);
    Done (Some bs).

(** The derived order of [Extent]: its fields in order. *)
Fixpoint lex_le (a b : list Z) : bool :=
  match a, b with
  | x :: a, y :: b => bool_decide (x < y) || bool_decide (x = y) && lex_le a b
  | _, _ => true
  end.
Definition extent_le (a b : Extent) : bool := lex_le (extent_fields a) (extent_fields b).
(** [sort_unstable]: the order is total and antisymmetric, so that the sorted
    list is unique. *)
Fixpoint insert_extent (e : Extent) (l : list Extent) : list Extent :=
  match l with
  | [] => [e]
  | x :: l => if extent_le e x then e :: x :: l else x :: insert_extent e l
  end.
Definition sort_extents (l : list Extent) : list Extent := foldr insert_extent [] l.

Section tree.
Context `{SbLayout} (get_sata_drive : AtaDeviceIdentifier → option SataDevice).
Context (aligned4 : bool).
Context `{BinarySearch}.

(** [from_bytes] at a type of alignment 4. *)
Definition from_bytes4 {A} (f : list Z → A) (bs : list Z) : outcome A :=
  if aligned4 then Done (f bs) else Panicked.
Definition as_extent (bs : list Z) : outcome Extent :=
  from_bytes4 (λ bs, extent_of_fields (decode_fields extent_layout bs)) bs.
Definition as_extent_idx (bs : list Z) : outcome ExtentIdx :=
  from_bytes4 (λ bs, idx_of_fields (decode_fields idx_layout bs)) bs.

(** [ExtentBlock::validate_chksum]. *)
Definition extent_validate_chksum (blk : list Z) (fs_uuid inode_id inode_gen : Z) : outcome bool :=
  if bool_decide (length blk < 4)%nat then Panicked
  else
    let n := (length blk - 4)%nat in
    on_disk_chksum ← from_bytes4 of_le (drop n blk);
    let comp_chksum :=
      crc32c_calc (le_bytes 16 fs_uuid ++ le_bytes 4 inode_id ++ le_bytes 4 inode_gen ++ take n blk) in
    Done (bool_decide (comp_chksum = on_disk_chksum)).

(** The loop over the entries of a leaf block: [n] entries from [entry] on. *)
Fixpoint push_extents (blk : list Z) (n entry : nat) (extents : list Extent)
    : outcome (option unit * list Extent) :=
  match n with
  | O => Done (Some (), extents)
  | S n =>
      o ← get_entry_bytes blk entry;
      match o with
      | None => Done (None, extents)
      | Some bs => e ← as_extent bs; push_extents blk n (S entry) (extents ++ [e])
      end
  end.

(** The loop over the entries of an index block; [rec] is the recursive call, of
    which the result is not used, like that of the checksum validation. *)
Fixpoint follow_indices (rec : list Z → list Extent → outcome (option unit * list Extent))
    (fs : Ext4Fs) (inode : Inode) (blk : list Z) (n entry : nat) (extents : list Extent)
    : outcome (option unit * list Extent) :=
  match n with
  | O => Done (Some (), extents)
  | S n =>
      o ← get_entry_bytes blk entry;
      match o with
      | None => Done (None, extents)
      | Some bs =>
          extent_idx ← as_extent_idx bs;
          r ← read_blk_from_device get_sata_drive fs (leaf extent_idx) (length (allocate_blk fs));
          match r with
          | Err _ => Done (None, extents)
          | Ok data =>
              extent_validate_chksum data (sb_get (fs_superblock fs) sb_uuid) (inode_number inode)
                (i_generation (ext4_inode inode));;
              '(_, extents) ← rec data extents;
              follow_indices rec fs inode blk n (S entry) extents
          end
      end
  end.

Fixpoint traverse_extent_layer (fuel : nat) (fs : Ext4Fs) (inode : Inode) (ext_data : list Z)
    (extents : list Extent) : outcome (option unit * list Extent) :=
  match fuel with
  | O => NoFuel
  | S fuel =>
      header ← get_header ext_data;
      let n := Z.to_nat (eh_entries header) in
      if is_leaf header then push_extents ext_data n 0 extents
      else follow_indices (traverse_extent_layer fuel fs inode) fs inode ext_data n 0 extents
  end.

Record ExtentTree := { extents : list Extent; tree_inode : Inode }.

Definition load_extent_tree (fuel : nat) (fs : Ext4Fs) (inode : Inode) : outcome (option ExtentTree) :=
  if negb (includes (sb_get (fs_superblock fs) sb_feature_incompat) EXT4_FEATURE_INCOMPAT_EXTENTS)
     || negb (uses_extent_tree inode)
  then Done None
  else
    '(_, l) ← traverse_extent_layer fuel fs inode (i_block (ext4_inode inode)) [];
    Done (Some {| extents := sort_extents l; tree_inode := inode |}).

(** The order of an extent with respect to a block. *)
Definition blk_order (blk_id : Z) (ext : Extent) : comparison :=
  if extent_contains ext blk_id then Eq
  else if bool_decide (blk_id < block ext) then Gt
  else Lt.
Definition get_exact_blk_mapping (t : ExtentTree) (blk_id : Z) : option Z :=
  ext_id ← binary_search_by (blk_order blk_id) (extents t);
  extent ← extents t !! ext_id;
  let offset_in_extent := u64 (blk_id - block extent) in
  Some (u64 (start_blk extent + offset_in_extent)).
End tree.

(** * The trees on disk *)

Definition encode_extent (e : Extent) : list Z := encode_fields extent_layout (extent_fields e).
Definition encode_idx (e : ExtentIdx) : list Z := encode_fields idx_layout (idx_fields e).
Definition node_block (h : ExtentHeader) (entries : list (list Z)) (rest : list Z) : list Z :=
  encode_fields header_layout (header_fields h) ++ concat entries ++ rest.
(** A header of [n] entries at a depth. *)
Definition header_for (h : ExtentHeader) (n depth : nat) : Prop :=
  fields_fit header_layout (header_fields h) ∧ eh_entries h = Z.of_nat n ∧ eh_depth h = Z.of_nat depth.

Lemma header_decode h rest : fields_fit header_layout (header_fields h) →
  header_of_fields (decode_fields header_layout (encode_fields header_layout (header_fields h) ++ rest)) = h.
Proof. intros. rewrite decode_encode_fields by done. by destruct h. Qed.
Lemma extent_decode e : fields_fit extent_layout (extent_fields e) →
  extent_of_fields (decode_fields extent_layout (encode_extent e)) = e.
Proof.
  intros. unfold encode_extent. rewrite <- (app_nil_r (encode_fields _ _)).
  rewrite decode_encode_fields by done. by destruct e.
Qed.
Lemma idx_decode e : fields_fit idx_layout (idx_fields e) →
  idx_of_fields (decode_fields idx_layout (encode_idx e)) = e.
Proof.
  intros. unfold encode_idx. rewrite <- (app_nil_r (encode_fields _ _)).
  rewrite decode_encode_fields by done. by destruct e.
Qed.

Lemma take_drop_concat {A} (n k : nat) (l : list (list A)) x rest :
  Forall (λ y, length y = n) l → l !! k = Some x →
  take n (drop (k * n) (concat l ++ rest)) = x.
Proof.
  intros Hl. revert k. induction Hl as [|y l Hy _ IH]; intros k Hk; [done|].
  simpl. rewrite <- app_assoc. destruct k as [|k]; simpl in *.
  - injection Hk as ->. rewrite drop_0, take_app_le, take_ge by lia. done.
  - rewrite <- drop_drop. replace n with (length y) at 3 by done. rewrite drop_app_length. by apply IH.
Qed.

Lemma length_concat_uniform {A} (n : nat) (l : list (list A)) :
  Forall (λ y, length y = n) l → length (concat l) = (length l * n)%nat.
Proof. induction 1; simpl; [done|]. rewrite length_app. lia. Qed.

Section blocks.
Context (h : ExtentHeader) (es : list (list Z)) (rest : list Z) (d : nat).
Context (Hh : header_for h (length es) d) (Hes : Forall (λ y, length y = EXTENT_SIZE) es).

Lemma length_header_bytes : length (encode_fields header_layout (header_fields h)) = 12%nat.
Proof using Type. by rewrite length_encode_fields. Qed.

Lemma get_header_node : get_header (node_block h es rest) = Done h.
Proof using Hh.
  destruct Hh as (Hf & _ & _). unfold get_header, slice, node_block.
  rewrite bool_decide_true by (rewrite length_app, length_header_bytes; unfold EXTENT_HEADER_SIZE; lia).
  cbn [mbind outcome_bind]. rewrite drop_0, Nat.sub_0_r.
  rewrite decode_fields_take by (apply Nat.leb_le; reflexivity).
  by rewrite header_decode.
Qed.

Lemma get_entry_node k x : es !! k = Some x → get_entry_bytes (node_block h es rest) k = Done (Some x).
Proof using Hes Hh.
  intros Hk. unfold get_entry_bytes. rewrite get_header_node. cbn [mbind outcome_bind].
  destruct Hh as (_ & He & _). pose proof (lookup_lt_Some _ _ _ Hk).
  rewrite bool_decide_false by lia. unfold slice, EXTENT_HEADER_SIZE, EXTENT_SIZE in *.
  pose proof length_header_bytes as Hl.
  rewrite bool_decide_true.
  2:{ unfold node_block. rewrite !length_app, Hl, (length_concat_uniform 12) by done. nia. }
  cbn [mbind outcome_bind]. do 2 f_equal.
  replace (12 + (1 + k) * 12 - (12 + k * 12))%nat with 12%nat by lia.
  unfold node_block. rewrite <- (drop_drop _ (k * 12) 12). rewrite (drop_app_length' _ _ 12) by done.
  by apply take_drop_concat.
Qed.
End blocks.

(** * Traversal *)

Section traversal.
Context `{SbLayout} (get_sata_drive : AtaDeviceIdentifier → option SataDevice).
Context (fs : Ext4Fs) (inode : Inode).

(** The block holds, on disk, the root of an extent tree of the given height
    whose leaves are the extents [l], in the order of the tree. *)
Fixpoint stored (height : nat) (blk : list Z) (l : list Extent) : Prop :=
  match height with
  | O => ∃ h rest, header_for h (length l) 0
      ∧ Forall (λ e, fields_fit extent_layout (extent_fields e)) l
      ∧ blk = node_block h (encode_extent <$> l) rest
  | S n => ∃ h idxs children rest, header_for h (length idxs) (S n)
      ∧ Forall (λ i, fields_fit idx_layout (idx_fields i)) idxs
      ∧ blk = node_block h (encode_idx <$> idxs) rest
      ∧ Forall2 (λ i c, read_blk_from_device get_sata_drive fs (leaf i) (length (allocate_blk fs)) = Done (Ok (fst c))
                        ∧ stored n (fst c) (snd c)) idxs children
      ∧ l = concat (snd <$> children)
  end.

Lemma entries_uniform {A} (f : A → list Z) (l : list A) :
  (∀ x, length (f x) = EXTENT_SIZE) → Forall (λ y, length y = EXTENT_SIZE) (f <$> l).
Proof. intros Hf. apply Forall_fmap, Forall_true. done. Qed.

Lemma push_extents_node h l rest k acc : header_for h (length l) 0 →
  Forall (λ e, fields_fit extent_layout (extent_fields e)) l → (k ≤ length l)%nat →
  push_extents true (node_block h (encode_extent <$> l) rest) (length l - k) k acc
  = Done (Some (), acc ++ drop k l).
Proof.
  intros Hh Hl Hk. remember (length l - k)%nat as n eqn:En. revert k acc Hk En.
  induction n as [|n IH]; intros k acc Hk En; cbn [push_extents].
  { by rewrite drop_ge, app_nil_r by lia. }
  destruct (lookup_lt_is_Some_2 l k) as [e He]; [lia|].
  erewrite (get_entry_node h (encode_extent <$> l) rest 0);
    [|by rewrite length_fmap|apply entries_uniform; intros ?; by apply length_encode_fields|by rewrite list_lookup_fmap, He].
  cbn [mbind outcome_bind]. unfold as_extent, from_bytes4.
  rewrite (extent_decode e (Forall_lookup_1 _ _ _ _ Hl He)).
  cbn [mbind outcome_bind]. rewrite IH by lia.
  by rewrite <- app_assoc, (drop_S _ _ _ He).
Qed.

Lemma stored_length n blk l : stored n blk l → (12 ≤ length blk)%nat.
Proof.
  destruct n; simpl; intros (h & rest); [destruct rest as (rest & _ & _ & ->)
    |destruct rest as (cs & ch & rest & _ & _ & -> & _)];
    unfold node_block; rewrite length_app, length_header_bytes; lia.
Qed.

Lemma follow_indices_node rec n h idxs children rest k acc :
  header_for h (length idxs) (S n) →
  Forall (λ i, fields_fit idx_layout (idx_fields i)) idxs →
  Forall2 (λ i c, read_blk_from_device get_sata_drive fs (leaf i) (length (allocate_blk fs)) = Done (Ok (fst c))
                  ∧ stored n (fst c) (snd c)) idxs children →
  (∀ blk l acc, stored n blk l → rec blk acc = Done (Some (), acc ++ l)) →
  (k ≤ length idxs)%nat →
  follow_indices get_sata_drive true rec fs inode (node_block h (encode_idx <$> idxs) rest)
    (length idxs - k) k acc
  = Done (Some (), acc ++ concat (snd <$> drop k children)).
Proof.
  intros Hh Hi Hc Hrec Hk. remember (length idxs - k)%nat as m eqn:Em.
  pose proof (Forall2_length _ _ _ Hc) as Hlen. revert k acc Hk Em.
  induction m as [|m IH]; intros k acc Hk Em; cbn [follow_indices].
  { by rewrite drop_ge, app_nil_r by lia. }
  destruct (lookup_lt_is_Some_2 idxs k) as [i He]; [lia|].
  destruct (lookup_lt_is_Some_2 children k) as [c Hcl]; [lia|].
  destruct (Forall2_lookup_lr _ _ _ _ _ _ Hc He Hcl) as [Hread Hst].
  erewrite (get_entry_node h (encode_idx <$> idxs) rest (S n));
    [|by rewrite length_fmap|apply entries_uniform; intros ?; by apply length_encode_fields|by rewrite list_lookup_fmap, He].
  cbn [mbind outcome_bind]. unfold as_extent_idx, from_bytes4.
  rewrite (idx_decode i (Forall_lookup_1 _ _ _ _ Hi He)).
  cbn [mbind outcome_bind]. rewrite Hread. cbn [mbind outcome_bind].
  unfold extent_validate_chksum. rewrite bool_decide_false by (pose proof (stored_length _ _ _ Hst); lia).
  cbn [mbind outcome_bind from_bytes4]. rewrite (Hrec _ _ _ Hst). cbn [mbind outcome_bind].
  rewrite IH by lia. by rewrite (drop_S _ _ _ Hcl), fmap_cons, <- app_assoc.
Qed.

Lemma traverse_stored n blk l acc fuel : stored n blk l → (n < fuel)%nat →
  traverse_extent_layer get_sata_drive true fuel fs inode blk acc = Done (Some (), acc ++ l).
Proof.
  revert blk l acc fuel. induction n as [|n IH]; intros blk l acc [|fuel] Hs Hf; try lia;
    cbn [traverse_extent_layer]; simpl in Hs.
  - destruct Hs as (h & rest & Hh & Hl & ->).
    rewrite (get_header_node _ _ _ 0) by (by rewrite length_fmap).
    destruct Hh as (Hfit & Hn & Hd). cbn [mbind outcome_bind]. unfold is_leaf.
    rewrite bool_decide_true, Hn, Nat2Z.id by done.
    pose proof (push_extents_node h l rest 0 acc) as Hp.
    rewrite Nat.sub_0_r, drop_0 in Hp. apply Hp; [done|done|lia].
  - destruct Hs as (h & idxs & children & rest & Hh & Hi & -> & Hc & ->).
    rewrite (get_header_node _ _ _ (S n)) by (by rewrite length_fmap).
    pose proof Hh as (Hfit & Hn & Hd). cbn [mbind outcome_bind]. unfold is_leaf.
    rewrite bool_decide_false, Hn, Nat2Z.id by lia.
    pose proof (follow_indices_node (traverse_extent_layer get_sata_drive true fuel fs inode)
                  n h idxs children rest 0 acc Hh Hi Hc) as Hp.
    rewrite Nat.sub_0_r, drop_0 in Hp. apply Hp; [|lia].
    intros blk l acc' Hst. apply IH; [done|lia].
Qed.
End traversal.

Lemma lex_le_total a b : length a = length b → lex_le a b = false → lex_le b a = true.
Proof.
  revert b. induction a as [|x a IH]; intros [|y b] Hl; simpl in *; try done.
  repeat case_bool_decide; simpl; try done; try lia. intros. apply IH; [lia|done].
Qed.
Lemma extent_le_block a b : extent_le a b = true → block a ≤ block b.
Proof. unfold extent_le. simpl. repeat case_bool_decide; simpl; try done; lia. Qed.

Lemma insert_extent_perm e l : insert_extent e l ≡ₚ e :: l.
Proof. induction l as [|x l IH]; simpl; [done|]. destruct (extent_le e x); [done|]. rewrite IH. by constructor. Qed.
Lemma sort_extents_perm l : sort_extents l ≡ₚ l.
Proof. induction l as [|e l IH]; simpl; [done|]. by rewrite insert_extent_perm, IH. Qed.

Lemma insert_extent_sorted e l : Sorted extent_le l → Sorted extent_le (insert_extent e l).
Proof.
  induction 1 as [|x l Hs IH Hx]; simpl; [by repeat constructor|].
  destruct (extent_le e x) eqn:E.
  - constructor; [by constructor|]. constructor. by rewrite E.
  - apply lex_le_total in E; [|done]. constructor; [done|].
    destruct Hx as [|y l Hy]; simpl; [constructor; unfold extent_le; by rewrite E|].
    destruct (extent_le e y); constructor; [unfold extent_le; by rewrite E|done].
Qed.
Lemma sort_extents_sorted l : Sorted extent_le (sort_extents l).
Proof. induction l; simpl; [constructor|]. by apply insert_extent_sorted. Qed.

(** C6: loading an extent tree from disk is complete: when the inode's block area
    holds the root of a tree of extent blocks (headers, index nodes and leaves in
    their on-disk encoding), [load_extent_tree] returns, with any fuel above the
    height of the tree, exactly the extents of its leaves, sorted.  The hypotheses
    are that both the filesystem and the inode use extents and that buffers are
    aligned; otherwise the function returns [None]. *)
Theorem load_extent_tree_complete `{SbLayout} drives fs inode height l fuel :
  uses_extent_tree inode = true →
  includes (sb_get (fs_superblock fs) sb_feature_incompat) EXT4_FEATURE_INCOMPAT_EXTENTS = true →
  stored drives fs height (i_block (ext4_inode inode)) l → (height < fuel)%nat →
  ∃ t, load_extent_tree drives true fuel fs inode = Done (Some t)
    ∧ tree_inode t = inode ∧ extents t ≡ₚ l
    ∧ Sorted extent_le (extents t) ∧ StronglySorted (λ a b, block a ≤ block b) (extents t).
Proof.
  intros Hu Hi Hs Hf. exists {| extents := sort_extents l; tree_inode := inode |}.
  unfold load_extent_tree. rewrite Hu, Hi. cbn [negb orb].
  rewrite (traverse_stored drives fs inode height _ l) by done. cbn [mbind outcome_bind app].
  split; [done|]. split; [done|]. split; [apply sort_extents_perm|].
  split; [apply sort_extents_sorted|]. apply Sorted_StronglySorted; [intros ???; lia|].
  eapply Sorted_ind, sort_extents_sorted; [constructor|].
  intros a l' _ IH Hd. constructor; [done|]. destruct Hd; constructor. apply extent_le_block.
  by apply Is_true_true.
Qed.

(** * Block mapping *)

(** An extent list as ext4 writes it: initialised extents in increasing order
    that do not overlap and stay below the 32-bit block numbers. *)
Definition extents_ok (l : list Extent) : Prop :=
  Forall (λ e, fields_fit extent_layout (extent_fields e)
               ∧ len e ≤ 32768 ∧ block e + len e < 2 ^ 32) l
  ∧ StronglySorted (λ a b, block a + len a ≤ block b) l.

Section mapping.
Context `{BinarySearch}.

Lemma extent_end_ok e : fields_fit extent_layout (extent_fields e) ∧ len e ≤ 32768 ∧ block e + len e < 2 ^ 32 →
  extent_end e = block e + len e ∧ 0 ≤ block e ∧ 0 ≤ len e ∧ in_width 48 (start_blk e).
Proof.
  clear. intros (Hf & Hl & He).
  inversion_clear Hf as [|???? Hb Hf1]. inversion_clear Hf1 as [|???? Hn Hf2].
  inversion_clear Hf2 as [|???? Hh Hf3]. inversion_clear Hf3 as [|???? Hlo _].
  change (8 * Z.of_nat 4) with 32 in *. change (8 * Z.of_nat 2) with 16 in *.
  split_and!; [apply wrap_id; unfold in_width in *; lia|apply Hb|apply Hn|].
  unfold start_blk. apply in_width_lor; [lia|by apply (in_width_mono 32)|].
  unfold in_width in *. rewrite Z.shiftl_mul_pow2 by lia. lia.
Qed.

Lemma extents_search_sorted b l : extents_ok l → search_sorted (blk_order b) l.
Proof using Type.
  intros [Hok Hs]. induction Hs as [|e l Hs IH Hall]; [by exists [], [], []|].
  inversion_clear Hok as [|?? He Hok']. specialize (IH Hok').
  pose proof (extent_end_ok e He) as (Hend & Hb & Hl & _).
  assert (Hnext : Forall (λ e', block e' ≤ b → b = block e + len e → blk_order b e' = Eq) l
    ∧ Forall (λ e', b ≤ block e + len e → blk_order b e' ≠ Lt) l
    ∧ Forall (λ e', b < block e → blk_order b e' = Gt) l).
  { rewrite !Forall_lookup in *. split_and!; intros i e' Hi; specialize (Hall i e' Hi);
      pose proof (extent_end_ok e' (Hok' i e' Hi)) as (Hend' & _ & Hl' & _);
      unfold blk_order, extent_contains; rewrite Hend'; repeat case_bool_decide; simpl; try done; lia. }
  destruct Hnext as (_ & HnLt & HGt). destruct (blk_order b e) eqn:E.
  - destruct IH as (l1 & l2 & l3 & -> & H1 & H2 & H3).
    assert (Hbe : b ≤ block e + len e).
    { unfold blk_order, extent_contains in E. rewrite Hend in E. revert E.
      repeat case_bool_decide; simpl; done. }
    destruct l1 as [|x l1].
    + exists [], (e :: l2), l3. split_and!; [done|done|by constructor|done].
    + exfalso. inversion_clear H1 as [|?? Hx _]. simpl in HnLt.
      inversion_clear HnLt as [|?? Hx' _]. by apply (Hx' Hbe).
  - destruct IH as (l1 & l2 & l3 & -> & H1 & H2 & H3).
    exists (e :: l1), l2, l3. split_and!; [done|by constructor|done|done].
  - exists [], [], (e :: l). split_and!; [done|done|done|]. constructor; [done|].
    assert (Hbe : b < block e).
    { unfold blk_order in E. destruct (extent_contains e b); [done|]. revert E. by case_bool_decide. }
    eapply Forall_impl; [exact HGt|]. naive_solver.
Qed.

Lemma contains_iff e b : fields_fit extent_layout (extent_fields e) ∧ len e ≤ 32768 ∧ block e + len e < 2 ^ 32 →
  blk_order b e = Eq ↔ block e ≤ b ≤ block e + len e.
Proof using Type.
  intros He. pose proof (extent_end_ok e He) as (Hend & _).
  unfold blk_order, extent_contains. rewrite Hend. repeat case_bool_decide; simpl; split; try done; lia.
Qed.

Lemma mapping_at t i e b : extents_ok (extents t) →
  binary_search_by (blk_order b) (extents t) = Some i → extents t !! i = Some e →
  block e ≤ b ≤ block e + len e →
  get_exact_blk_mapping t b = Some (start_blk e + (b - block e)).
Proof.
  intros [Hok _] Hi He Hb. unfold get_exact_blk_mapping. rewrite Hi. simpl. rewrite He. simpl.
  rewrite Forall_lookup in Hok. pose proof (Hok i e He) as Hoe.
  pose proof (extent_end_ok e Hoe) as (_ & H0 & Hl & Hs). destruct Hoe as (_ & Hle & _).
  unfold in_width in Hs. rewrite (u64_id (b - block e)) by lia. rewrite u64_id by lia. done.
Qed.

Lemma extents_order l e e' : StronglySorted (λ a b, block a + len a ≤ block b) l →
  e ∈ l → e' ∈ l → e = e' ∨ block e + len e ≤ block e' ∨ block e' + len e' ≤ block e.
Proof using Type.
  induction 1 as [|x l Hs IH Hall]; [by intros ?%elem_of_nil|].
  rewrite Forall_forall in Hall. rewrite !elem_of_cons.
  intros [->|He] [->|He']; [by left|right; left; by apply Hall|right; right; by apply Hall|auto].
Qed.

(** C18: mapping of a logical block to a physical one, for an extent list as ext4
    writes it and any binary search that meets its documented contract: the
    result is the physical block of an extent that covers the logical one, or of
    one that ends right before it ([contains] includes the block after the last);
    a block that no extent covers in that sense is not mapped; a block inside an
    extent is mapped to its physical block when no other extent ends there, and
    the first block of a hole is mapped past the end of the extent before it. *)
Theorem get_exact_blk_mapping_spec t b : extents_ok (extents t) →
  (∀ p, get_exact_blk_mapping t b = Some p →
     ∃ e, e ∈ extents t ∧ block e ≤ b ≤ block e + len e ∧ p = start_blk e + (b - block e))
  ∧ (get_exact_blk_mapping t b = None ↔ ∀ e, e ∈ extents t → ¬ block e ≤ b ≤ block e + len e)
  ∧ (∀ e, e ∈ extents t → block e ≤ b < block e + len e →
       (∀ e', e' ∈ extents t → block e' + len e' ≠ b) →
       get_exact_blk_mapping t b = Some (start_blk e + (b - block e)))
  ∧ (∀ e, e ∈ extents t → b = block e + len e → (∀ e', e' ∈ extents t → block e' ≠ b) →
       get_exact_blk_mapping t b = Some (start_blk e + len e)).
Proof.
  intros Hok. pose proof (extents_search_sorted b _ Hok) as Hs. pose proof Hok as [Hall Hord].
  rewrite Forall_forall in Hall.
  destruct (binary_search_by (blk_order b) (extents t)) as [i|] eqn:Hi.
  - destruct (binary_search_Some _ _ _ Hs Hi) as (e & He & Heq).
    pose proof (list_elem_of_lookup_2 _ _ _ He) as Hin.
    rewrite contains_iff in Heq by auto. rewrite (mapping_at t i e b Hok Hi He Heq).
    split; [intros p [= <-]; by exists e|]. split; [split; [done|intros Hn; by destruct (Hn e Hin)]|].
    split; intros e2 Hin2 Hb2 Hne; destruct (extents_order _ e e2 Hord Hin Hin2) as [->|[Hlt|Hlt]];
      try (f_equal; lia).
    + exfalso. apply (Hne e Hin). lia.
    + pose proof (extent_end_ok e2 (Hall _ Hin2)). exfalso. apply (Hne e2 Hin2). lia.
    + exfalso. apply (Hne e Hin). lia.
  - pose proof (binary_search_None _ _ Hs Hi) as Hn. rewrite Forall_forall in Hn.
    assert (Hnone : ∀ e, e ∈ extents t → ¬ block e ≤ b ≤ block e + len e).
    { intros e He Hb. apply (Hn e He). by apply contains_iff; auto. }
    unfold get_exact_blk_mapping. rewrite Hi. simpl. split; [done|]. split; [done|].
    split; intros e He Hb _; exfalso; apply (Hnone e He); [lia|].
    pose proof (extent_end_ok e (Hall _ He)). lia.
Qed.
End mapping.

(** * Files *)

(** [slice::from_raw_parts_mut(buf.as_mut_ptr().add(off), n)] designates bytes of
    the buffer only when they are in range; [copy_from_slice] then fills them. *)
Definition write_at (buf : list Z) (off : Z) (bs : list Z) : outcome (list Z) :=
  if bool_decide (off + Z.of_nat (length bs) ≤ Z.of_nat (length buf))
  then Done (take (Z.to_nat off) buf ++ bs ++ drop (Z.to_nat off + length bs) buf)
  else Faulted.

Inductive Seek := Backward (count : Z) | Current | Forward (count : Z).

Section files.
Context `{SbLayout} (get_sata_drive : AtaDeviceIdentifier → option SataDevice).
Context (aligned4 : bool).

Record Ext4File := {
  file_fs : Ext4Fs; file_inode : Inode; cursor : Z; extent_tree : option ExtentTree
}.

Definition from_inode (fuel : nat) (fs : Ext4Fs) (inode : Inode) : outcome (result Ext4File IOError) :=
  if negb (mode_contains inode S_IFREG) then Done (Err IOUnknown)
  else
    t ← load_extent_tree get_sata_drive aligned4 fuel fs inode;
    Done (Ok {| file_fs := fs; file_inode := inode; cursor := 0; extent_tree := t |}).

(** [(cast(ext.block)..ext.block + ext.len).contains(&blk)]. *)
Definition extent_covers (blk : Z) (ext : Extent) : bool :=
  bool_decide (block ext ≤ blk) && bool_decide (blk < extent_end ext).

(** The step [if end(curr_extent) < i { curr_extent = useful_extents.next().unwrap() }]. *)
Definition advance (i : Z) (curr : Extent) (useful : list Extent) : outcome (Extent * list Extent) :=
  if bool_decide (extent_end curr < i)
  then match useful with e :: useful => Done (e, useful) | [] => Panicked end
  else Done (curr, useful).

(** The loop over the full blocks. *)
Fixpoint read_full_blocks (fs : Ext4Fs) (ids : list Z) (curr : Extent) (useful : list Extent) (buf : list Z)
    : outcome (result (Extent * list Extent) IOError * list Z) :=
  match ids with
  | [] => Done (Ok (curr, useful), buf)
  | i :: ids =>
      let bs := blk_size (fs_superblock fs) in
      '(curr, useful) ← advance i curr useful;
      r ← read_blk_from_device get_sata_drive fs (u64 (start_blk curr + i)) (Z.to_nat bs);
      match r with
      | Err e => Done (Err e, buf)
      | Ok data => buf ← write_at buf (u64 (i * bs)) data; read_full_blocks fs ids curr useful buf
      end
  end.

(** [ext4_read_bytes] of the macro: its result and the buffer it leaves.  The
    range of the loop ends at [min(0, last_blk - 1)]; a slice of the block that is
    out of range panics before anything is written. *)
Definition ext4_read_bytes (f : Ext4File) (offset count : Z) (buf : list Z)
    : outcome (result unit IOError * list Z) :=
  let fs := file_fs f in
  let bs := blk_size (fs_superblock fs) in
  blk_offset_from_file_start ← rust_div offset bs;
  blk_offset_from_first_blk ← rust_rem offset bs;
  last_blk ← rust_div (u64 (offset + count)) bs;
  last_blk_count ← rust_rem count bs;
  match extent_tree f with
  | None => Done (Ok (), buf)
  | Some ext_tree =>
      match filter (λ e, extent_covers blk_offset_from_file_start e) (extents ext_tree) with
      | [] => Panicked
      | curr :: useful =>
          let range_end := Z.min 0 (u64 (last_blk - 1)) in
          '(r, buf) ← read_full_blocks fs
            (seqZ blk_offset_from_file_start (range_end - blk_offset_from_file_start)) curr useful buf;
          match r with
          | Err e => Done (Err e, buf)
          | Ok (curr, useful) =>
              '(curr, _) ← advance last_blk curr useful;
              r ← read_blk_from_device get_sata_drive fs (u64 (start_blk curr + last_blk))
                    (length (allocate_blk fs));
              match r with
              | Err e => Done (Err e, buf)
              | Ok temp_buf =>
                  data ← (if bool_decide (last_blk = 0)
                          then slice temp_buf (Z.to_nat blk_offset_from_first_blk) (Z.to_nat last_blk_count)
                          else slice temp_buf 0 (Z.to_nat last_blk_count));
                  buf ← write_at buf (u64 (last_blk * bs)) data;
                  Done (Ok (), buf)
              end
          end
      end
  end.

Definition file_size (f : Ext4File) : Z := inode_size (file_inode f).
Definition set_cursor (f : Ext4File) (c : Z) : Ext4File :=
  {| file_fs := file_fs f; file_inode := file_inode f; cursor := c; extent_tree := extent_tree f |}.
Definition seek (f : Ext4File) (pos : Seek) : Ext4File :=
  match pos with
  | Backward count => set_cursor f (Z.max 0 (cursor f - count))
  | Current => f
  | Forward count => set_cursor f (Z.min (u64 (cursor f + count)) (file_size f))
  end.
Definition file_read (f : Ext4File) (buf : list Z) : outcome (result Z IOError * list Z * Ext4File) :=
  let bytes_count := Z.min (Z.of_nat (length buf)) (u64 (file_size f - cursor f)) in
  '(r, buf) ← ext4_read_bytes f (cursor f) bytes_count buf;
  match r with
  | Err e => Done (Err e, buf, f)
  | Ok _ => Done (Ok bytes_count, buf, seek f (Forward bytes_count))
  end.
End files.

Section reading.
Context `{SbLayout} (get_sata_drive : AtaDeviceIdentifier → option SataDevice).

Lemma useful_extents_unique l e b : extents_ok l → e ∈ l → block e ≤ b < block e + len e →
  filter (λ e, extent_covers b e) l = [e].
Proof using Type.
  intros [Hok Hs] He Hb. induction Hs as [|x l Hs IH Hall]; [by apply elem_of_nil in He|].
  inversion_clear Hok as [|?? Hx Hok']. rewrite Forall_forall in Hall, Hok'.
  pose proof (extent_end_ok x Hx) as (Hex & Hx0 & Hxl & _).
  apply elem_of_cons in He as [->|He].
  - rewrite filter_cons_True by (unfold extent_covers; rewrite Hex, !bool_decide_true by lia; done).
    f_equal.
    assert (Hn : ∀ y, y ∈ l → ¬ extent_covers b y).
    { intros y Hy. specialize (Hall y Hy). unfold extent_covers.
      rewrite bool_decide_false by lia. intros []. }
    clear -Hn. induction l as [|y l IH]; [done|]. rewrite filter_cons_False by (apply Hn; set_solver).
    apply IH. intros z Hz. apply Hn. set_solver.
  - rewrite filter_cons_False.
    + apply IH; [by apply Forall_forall|done].
    + specialize (Hall e He). unfold extent_covers. rewrite Hex.
      rewrite (bool_decide_false (b < _)) by lia. rewrite andb_false_r. intros [].
Qed.

Lemma read_blk_length fs blk n data : read_blk_from_device get_sata_drive fs blk n = Done (Ok data) →
  length data = n.
Proof using Type.
  unfold read_blk_from_device. case_bool_decide; [done|].
  destruct (get_sata_drive _) as [d|]; [|done].
  destruct (partition_starts d !! _) as [s|]; [|done]. intros Hr. inv_done.
  destruct (drive_read _ _ _) as [data'|]; [|done]. case_bool_decide; [|done]. by simplify_eq.
Qed.

(** Reading a file from its start.  For a file of [size] bytes held by one
    extent of at least its blocks and a buffer of at least that length, [read]
    reports [size] bytes and moves the cursor to the end; the buffer receives
    the bytes of the last, partial block, at their place.  A file shorter than a
    block is thus read completely; of a longer one, the blocks before the last
    are never read and the buffer keeps what it had there, because the loop over
    them ends at [min(0, last_blk - 1)]. *)
Theorem file_read_from_start f t e data buf :
  let sb := fs_superblock (file_fs f) in
  let size := file_size f in
  let last := size / blk_size sb in
  length sb = sb_size → Forall byte sb → sb_get sb sb_log_block_size < 54 →
  cursor f = 0 → 0 ≤ size < 2 ^ 63 → size ≤ Z.of_nat (length buf) →
  extent_tree f = Some t → extents_ok (extents t) → e ∈ extents t →
  block e = 0 → 1 ≤ len e → last ≤ len e →
  read_blk_from_device get_sata_drive (file_fs f) (start_blk e + last) (Z.to_nat (blk_size sb)) = Done (Ok data) →
  file_read get_sata_drive f buf
  = Done (Ok size,
          take (Z.to_nat (last * blk_size sb)) buf
            ++ take (Z.to_nat (size mod blk_size sb)) data ++ drop (Z.to_nat size) buf,
          set_cursor f size).
Proof.
  intros sb size last Hl Hb Hs Hc Hsz Hbuf Ht Hok He He0 Hlen Hlast Hread.
  pose proof (blk_size_pow2 sb Hl Hb Hs) as Hbs.
  pose proof (sb_get_width sb sb_log_block_size Hl Hb) as [Hp _].
  assert (Hb0 : 0 < blk_size sb) by (rewrite Hbs; apply pow2_pos; lia).
  pose proof (read_blk_length _ _ _ _ Hread) as Hd.
  assert (Hdm : size = blk_size sb * last + size mod blk_size sb) by (apply Z.div_mod; lia).
  pose proof (Z.mod_pos_bound size (blk_size sb) Hb0) as Hm.
  assert (Hl0 : 0 ≤ last) by (apply Z.div_pos; lia).
  pose proof Hok as [Hall _]. rewrite Forall_forall in Hall. specialize (Hall e He).
  pose proof (extent_end_ok e Hall) as (Hend & _ & _ & Hst). unfold in_width in Hst.
  destruct Hall as (_ & Hle & _).
  unfold file_read, ext4_read_bytes. rewrite Hc, Z.sub_0_r. change (file_size f) with size.
  rewrite (u64_id size), Z.min_r by lia. fold sb. unfold rust_div, rust_rem.
  rewrite !bool_decide_false by lia. cbn [mbind outcome_bind].
  rewrite Z.add_0_l, (u64_id size), Z.div_0_l, Z.mod_0_l by lia. rewrite Ht.
  rewrite (useful_extents_unique (extents t) e 0 Hok He) by lia.
  fold last. rewrite Z.min_l by (pose proof (u64_range (last - 1)); lia).
  change (seqZ 0 (0 - 0)) with ([] : list Z). cbn [read_full_blocks mbind outcome_bind].
  unfold advance. rewrite (bool_decide_false (extent_end e < last)) by lia. cbn [mbind outcome_bind].
  unfold allocate_blk. fold sb. rewrite length_replicate.
  rewrite (u64_id (start_blk e + last)) by lia. rewrite Hread. cbn [mbind outcome_bind].
  assert (Hdata : (if bool_decide (last = 0)
                   then slice data (Z.to_nat 0) (Z.to_nat (size mod blk_size sb))
                   else slice data 0 (Z.to_nat (size mod blk_size sb)))
                  = Done (take (Z.to_nat (size mod blk_size sb)) data)).
  { change (Z.to_nat 0) with 0%nat. destruct (bool_decide (last = 0));
      unfold slice; rewrite bool_decide_true by lia; by rewrite drop_0, Nat.sub_0_r. }
  rewrite Hdata. cbn [mbind outcome_bind]. unfold write_at.
  rewrite (u64_id (last * blk_size sb)) by nia.
  rewrite length_take, Nat.min_l by lia. rewrite bool_decide_true by lia.
  cbn [mbind outcome_bind]. unfold seek. rewrite Hc, Z.add_0_l, u64_id by lia.
  change (file_size f) with size. rewrite Z.min_id.
  do 6 f_equal. lia.
Qed.
End reading.

(** * A concrete file

    A regular file whose extent tree has one index node and, in block 10, a leaf
    with two extents; its data are in blocks 20, 40 and 41. *)
Definition demo_ext (b l s : Z) : Extent := {| block := b; len := l; start_hi := 0; start_lo := s |}.
Definition demo_extents : list Extent := [demo_ext 0 1 20; demo_ext 3 2 40].
Definition demo_header (n d : Z) : ExtentHeader :=
  {| eh_magic := 0xF30A; eh_entries := n; eh_max := 4; eh_depth := d; eh_generation := 0 |}.
Definition demo_idx : ExtentIdx := {| idx_block := 0; leaf_lo := 10; leaf_hi := 0; idx_unused := 0 |}.
Definition demo_leaf : list Z := Eval vm_compute in
  node_block (demo_header 2 0) (encode_extent <$> demo_extents) (replicate 4060 0).
Definition demo_root : list Z := Eval vm_compute in
  node_block (demo_header 1 1) [encode_idx demo_idx] (replicate 36 0).
Definition demo_data : list Z := Eval vm_compute in [72; 101; 108; 108; 111] ++ replicate 4091 0.
Definition demo_disk : AtaDeviceIdentifier → option SataDevice :=
  demo_drives [(2048 + 8 * 10, demo_leaf); (2048 + 8 * 20, demo_data)].
Definition demo_inode : Inode := {|
  inode_number := 12;
  ext4_inode := {|
    i_mode := 0x81A4; i_uid := 0; i_size_lo := 5; i_atime := 0; i_ctime := 0; i_mtime := 0; i_dtime := 0;
    i_gid := 0; i_links_count := 1; i_blocks_lo := 8; i_flags := EXT4_EXTENTS_FL; i_version := 0;
    i_block := demo_root;
    i_generation := 0; i_file_acl_lo := 0; i_size_hi := 0; i_faddr := 0; i_blocks_high := 0;
    i_file_acl_high := 0; i_uid_high := 0; i_gid_high := 0; i_checksum_lo := 0; i_reserved := 0;
    i_extra_isize := 0; i_checksum_hi := 0; i_ctime_extra := 0; i_mtime_extra := 0; i_atime_extra := 0;
    i_crtime := 0; i_crtime_extra := 0; i_version_hi := 0; i_projid := 0 |}
|}.
Definition demo_tree : ExtentTree := {| extents := demo_extents; tree_inode := demo_inode |}.
Definition demo_file : Ext4File :=
  {| file_fs := demo_fs; file_inode := demo_inode; cursor := 0; extent_tree := Some demo_tree |}.

(** The file as the code loads it. *)
Example demo_from_inode : let _ := c_layout in
  from_inode demo_disk true 6 demo_fs demo_inode = Done (Ok demo_file).
Proof. vm_compute. reflexivity. Qed.

Lemma load_extent_tree_complete_witness : let _ := c_layout in
  ∃ t, load_extent_tree demo_disk true 2 demo_fs demo_inode = Done (Some t) ∧ extents t ≡ₚ demo_extents.
Proof.
  intros L.
  assert (Hst : stored demo_disk demo_fs 1 (i_block (ext4_inode demo_inode)) demo_extents).
  { exists (demo_header 1 1), [demo_idx], [(demo_leaf, demo_extents)], (replicate 36 0).
    split; [split; [apply (bool_decide_eq_true_1 (fields_fit _ _)); vm_compute; reflexivity|split; reflexivity]|].
    split; [constructor; [apply (bool_decide_eq_true_1 (fields_fit _ _)); vm_compute; reflexivity|constructor]|].
    split; [vm_compute; reflexivity|]. split; [|vm_compute; reflexivity].
    constructor; [|constructor]. split; [vm_compute; reflexivity|].
    exists (demo_header 2 0), (replicate 4060 0).
    split; [split; [apply (bool_decide_eq_true_1 (fields_fit _ _)); vm_compute; reflexivity|split; reflexivity]|].
    split; [|vm_compute; reflexivity].
    apply (bool_decide_eq_true_1 (Forall _ _)). vm_compute. reflexivity. }
  destruct (load_extent_tree_complete demo_disk demo_fs demo_inode 1 demo_extents 2
    ltac:(vm_compute; reflexivity) ltac:(vm_compute; reflexivity) Hst ltac:(lia)) as (t & H1 & _ & H2 & _).
  exists t. split; [exact H1|exact H2].
Defined.

Lemma demo_extents_ok : extents_ok demo_extents.
Proof.
  split; [|repeat constructor; vm_compute; congruence].
  repeat constructor; vm_compute; congruence.
Qed.

(** Block 4 is inside the second extent; block 1, a hole, is mapped to 21. *)
Lemma get_exact_blk_mapping_spec_witness :
  get_exact_blk_mapping demo_tree 4 = Some 41 ∧ get_exact_blk_mapping demo_tree 1 = Some 21.
Proof.
  split.
  - destruct (get_exact_blk_mapping_spec demo_tree 4 demo_extents_ok) as (_ & _ & H & _).
    exact (H (demo_ext 3 2 40) ltac:(right; left) ltac:(split; [vm_compute; congruence|vm_compute; reflexivity])
      ltac:(intros e' [->|[->|[]%elem_of_nil]%elem_of_cons]%elem_of_cons; vm_compute; congruence)).
  - destruct (get_exact_blk_mapping_spec demo_tree 1 demo_extents_ok) as (_ & _ & _ & H).
    exact (H (demo_ext 0 1 20) ltac:(left) ltac:(reflexivity)
      ltac:(intros e' [->|[->|[]%elem_of_nil]%elem_of_cons]%elem_of_cons; vm_compute; congruence)).
Defined.

Lemma file_read_from_start_witness : let _ := c_layout in
  ∃ f, file_read demo_disk demo_file [0; 0; 0; 0; 0; 0] = Done (Ok 5, [72; 101; 108; 108; 111; 0], f).
Proof.
  intros L. exists (set_cursor demo_file 5).
  assert (Hb : Forall byte demo_sb).
  { apply (bool_decide_eq_true_1 (Forall byte demo_sb)). vm_compute. reflexivity. }
  pose proof (@file_read_from_start c_layout demo_disk demo_file demo_tree (demo_ext 0 1 20) demo_data [0; 0; 0; 0; 0; 0]
    ltac:(vm_compute; reflexivity) Hb ltac:(vm_compute; reflexivity) eq_refl
    ltac:(vm_compute; split; congruence) ltac:(vm_compute; congruence) eq_refl demo_extents_ok ltac:(left)
    eq_refl ltac:(vm_compute; congruence) ltac:(vm_compute; congruence) ltac:(vm_compute; reflexivity)) as H.
  refine (eq_trans H _). vm_compute. reflexivity.
Defined.
