(* ===== verification/AllocHeader.v ===== *)
(** The header of a block of the kernel heap (src/mem/vmalloc/kheap.rs), and the
    trait [NodePayload] through which the red-black tree uses it
    (src/mem/vmalloc/rbtree.rs). *)

From S2P Require Import Prelude.

(** * The interface *)

Inductive NodeColor := Black | Red.
#[global] Instance NodeColor_eq_dec : EqDecision NodeColor.
Proof. solve_decision. Defined.

Class NodePayload (P : Type) := {
  payload_NULL : P;
  get_color : P → NodeColor;
  set_color : P → NodeColor → P;
  value : P → Z;
  set_value : P → Z → P
}.
(** What the tree relies on: the colour and the value of a payload are
    independent, and the value is a [u64]. *)
Class NodePayloadLaws (P : Type) `{NodePayload P} := {
  get_set_color : ∀ h c, get_color (set_color h c) = c;
  value_set_color : ∀ h c, value (set_color h c) = value h;
  value_u64 : ∀ h, 0 ≤ value h < 2 ^ 64
}.

(** * The header *)

Record AllocHeader := { inner : Z; extra : Z }.
Definition with_inner (h : AllocHeader) (i : Z) : AllocHeader := {| inner := i; extra := extra h |}.

Definition allocate (h : AllocHeader) : AllocHeader := with_inner h (Z.lor (inner h) 0x1).
Definition free (h : AllocHeader) : AllocHeader := with_inner h (Z.land (inner h) (not_w 64 0x1)).
Definition is_mapped (h : AllocHeader) : bool := bool_decide (Z.land (inner h) 0x8 ≠ 0).
Definition set_mapped (h : AllocHeader) (mapped : bool) : AllocHeader :=
  if mapped then with_inner h (Z.lor (inner h) 0x8) else with_inner h (Z.land (inner h) (not_w 64 0x8)).
Definition is_allocated (h : AllocHeader) : bool := bool_decide (Z.land (inner h) 0x1 ≠ 0).
Definition get_size (h : AllocHeader) : Z := Z.land (inner h) (not_w 64 0xf).
Definition set_size (h : AllocHeader) (size : Z) : AllocHeader :=
  let header_attr := Z.land (inner h) 0xf in with_inner h (Z.lor size header_attr).
Definition left_allocated (h : AllocHeader) : bool := bool_decide (Z.land (inner h) 0x2 ≠ 0).
Definition set_left_allocated (h : AllocHeader) (allocated : bool) : AllocHeader :=
  if allocated then with_inner h (Z.lor (inner h) 0x2) else with_inner h (Z.land (inner h) (not_w 64 0x2)).

Definition AllocHeader_NULL : AllocHeader := {| inner := 0; extra := 0 |}.
Definition AllocHeader_get_color (h : AllocHeader) : NodeColor :=
  if bool_decide (Z.land (Z.shiftr (inner h) 2) 0x1 = 0) then Black else Red.
Definition AllocHeader_set_color (h : AllocHeader) (color : NodeColor) : AllocHeader :=
  match color with
  | Black => with_inner h (Z.land (inner h) (not_w 64 0x4))
  | Red => with_inner h (Z.lor (inner h) 0x4)
  end.

(** * Its fields *)

(** What a header says: four flags and a size. *)
Record header_view := {
  v_allocated : bool; v_left_allocated : bool; v_red : bool; v_mapped : bool; v_size : Z
}.
Definition view (h : AllocHeader) : header_view := {|
  v_allocated := is_allocated h; v_left_allocated := left_allocated h;
  v_red := bool_decide (AllocHeader_get_color h = Red); v_mapped := is_mapped h; v_size := get_size h
|}.

(** A flag of the header is a bit of [inner]. *)
Lemma land_pow2 z n : 0 ≤ n → bool_decide (Z.land z (2 ^ n) ≠ 0) = Z.testbit z n.
Proof.
  intros Hn. destruct (Z.testbit z n) eqn:E.
  - apply bool_decide_true. intros H0. apply (f_equal (λ x, Z.testbit x n)) in H0.
    by rewrite Z.land_spec, E, Z.pow2_bits_true, Z.bits_0 in H0 by done.
  - apply bool_decide_false. intros H0. apply H0. apply Z.bits_inj'. intros i Hi.
    rewrite Z.land_spec, Z.bits_0. destruct (decide (i = n)) as [->|]; [by rewrite E|].
    by rewrite Z.pow2_bits_false, andb_false_r by lia.
Qed.
Lemma get_color_bit h : AllocHeader_get_color h = if Z.testbit (inner h) 2 then Red else Black.
Proof.
  unfold AllocHeader_get_color. pose proof (land_pow2 (Z.shiftr (inner h) 2) 0 ltac:(lia)) as E.
  rewrite Z.shiftr_spec in E by lia. change (0 + 2) with 2 in E. change (2 ^ 0) with 1 in E. rewrite <- E.
  by repeat case_bool_decide.
Qed.
Lemma view_bits h : view h = {|
  v_allocated := Z.testbit (inner h) 0; v_left_allocated := Z.testbit (inner h) 1; v_red := Z.testbit (inner h) 2;
  v_mapped := Z.testbit (inner h) 3; v_size := get_size h |}.
Proof.
  unfold view. f_equal.
  - exact (land_pow2 (inner h) 0 ltac:(lia)).
  - exact (land_pow2 (inner h) 1 ltac:(lia)).
  - rewrite get_color_bit. by destruct (Z.testbit _ _).
  - exact (land_pow2 (inner h) 3 ltac:(lia)).
Qed.
Lemma size_eq h h' : (∀ i, 4 ≤ i < 64 → Z.testbit (inner h) i = Z.testbit (inner h') i) → get_size h = get_size h'.
Proof.
  intros E. apply (word_eq 64); [lia|by apply in_width_land_r..|]. intros i Hi. unfold get_size.
  rewrite !Z.land_spec. destruct (decide (4 ≤ i)); [by rewrite E by lia|].
  rewrite !testbit_not_w by lia.
  assert (i = 0 ∨ i = 1 ∨ i = 2 ∨ i = 3) as [->|[->|[->| ->]]] by lia; simpl; by rewrite !andb_false_r.
Qed.

(** The bits of [inner] after a flag is set or cleared. *)
Lemma set_flag_bits z f n i : f = 2 ^ n → 0 ≤ n < 4 → 0 ≤ i →
  Z.testbit (Z.lor z f) i = if bool_decide (i = n) then true else Z.testbit z i.
Proof.
  intros -> Hn Hi. rewrite Z.lor_spec. case_bool_decide as E; [subst; by rewrite Z.pow2_bits_true, orb_true_r by lia|].
  by rewrite Z.pow2_bits_false, orb_false_r by lia.
Qed.
Lemma clear_flag_bits z f n i : f = 2 ^ n → 0 ≤ n < 4 → 0 ≤ i < 64 →
  Z.testbit (Z.land z (not_w 64 f)) i = if bool_decide (i = n) then false else Z.testbit z i.
Proof.
  intros -> Hn Hi. rewrite Z.land_spec, testbit_not_w by lia.
  case_bool_decide as E; [subst; by rewrite Z.pow2_bits_true, andb_false_r by lia|].
  by rewrite Z.pow2_bits_false, andb_true_r by lia.
Qed.
Lemma set_size_bits h n i : 0 ≤ i → n mod 16 = 0 →
  Z.testbit (inner (set_size h n)) i = if bool_decide (i < 4) then Z.testbit (inner h) i else Z.testbit n i.
Proof.
  intros Hi Hn. simpl. rewrite Z.lor_spec, Z.land_spec. case_bool_decide.
  - assert (E : Z.testbit n i = false).
    { rewrite <- (Z.mod_pow2_bits_low n 4) by lia. change (2 ^ 4) with 16. by rewrite Hn, Z.bits_0. }
    rewrite E. change 15 with (Z.ones 4). by rewrite Z.ones_spec_low, andb_true_r by lia.
  - change 15 with (Z.ones 4). by rewrite Z.ones_spec_high, andb_false_r, orb_false_r by lia.
Qed.

(** The view after an operation, bit by bit. *)
Ltac flag_bits n :=
  rewrite view_bits; f_equal; [..|apply size_eq; intros];
  cbn [inner with_inner allocate free set_mapped set_left_allocated AllocHeader_set_color];
  first [rewrite (set_flag_bits _ _ n) by (reflexivity || lia) | rewrite (clear_flag_bits _ _ n) by (reflexivity || lia)];
  by case_bool_decide; try lia.

(** The effect of each setter on the fields. *)
Lemma header_fields_spec h n b c : 0 ≤ n < 2 ^ 64 → n mod 16 = 0 →
  let v := view h in
  let mk a l r m z := {| v_allocated := a; v_left_allocated := l; v_red := r; v_mapped := m; v_size := z |} in
  let '(a, l, r, m, z) := (v_allocated v, v_left_allocated v, v_red v, v_mapped v, v_size v) in
  view (allocate h) = mk true l r m z ∧ view (free h) = mk false l r m z
  ∧ view (set_left_allocated h b) = mk a b r m z ∧ view (set_mapped h b) = mk a l r b z
  ∧ view (AllocHeader_set_color h c) = mk a l (bool_decide (c = Red)) m z ∧ view (set_size h n) = mk a l r m n.
Proof.
  intros Hn Hn16. cbv zeta. rewrite view_bits. cbn [v_allocated v_left_allocated v_red v_mapped v_size]. split_and!.
  - flag_bits 0.
  - flag_bits 0.
  - destruct b; flag_bits 1.
  - destruct b; flag_bits 3.
  - destruct c; flag_bits 2.
  - rewrite view_bits. f_equal; [rewrite set_size_bits by done; by case_bool_decide..|].
    apply (word_eq 64); [lia|by apply in_width_land_r|done|]. intros i Hi. unfold get_size.
    rewrite Z.land_spec, set_size_bits, testbit_not_w by lia. change 15 with (Z.ones 4). case_bool_decide.
    + rewrite Z.ones_spec_low, andb_false_r by lia. rewrite <- (Z.mod_pow2_bits_low n 4) by lia.
      change (2 ^ 4) with 16. by rewrite Hn16, Z.bits_0.
    + by rewrite Z.ones_spec_high, andb_true_r by lia.
Qed.

(** A size that is not a multiple of 16: [set_size] ORs its four low bits over the flags. *)
Lemma set_size_view h n : 0 ≤ n < 2 ^ 64 →
  view (set_size h n) = {|
    v_allocated := v_allocated (view h) || Z.testbit n 0; v_left_allocated := v_left_allocated (view h) || Z.testbit n 1;
    v_red := v_red (view h) || Z.testbit n 2; v_mapped := v_mapped (view h) || Z.testbit n 3; v_size := n - n mod 16 |}.
Proof.
  intros Hn. rewrite !view_bits. cbn [v_allocated v_left_allocated v_red v_mapped inner set_size with_inner]. f_equal.
  1-4: rewrite Z.lor_spec, Z.land_spec, orb_comm; simpl (Z.testbit 15 _); by rewrite andb_true_r.
  assert (E : n - n mod 16 = Z.shiftl (Z.shiftr n 4) 4).
  { rewrite Z.shiftl_mul_pow2, Z.shiftr_div_pow2 by lia. change (2 ^ 4) with 16. pose proof (Z.div_mod n 16 ltac:(lia)). lia. }
  apply (word_eq 64); [lia|by apply in_width_land_r| |].
  - pose proof (Z.mod_pos_bound n 16 ltac:(lia)). pose proof (Z.mod_le n 16 ltac:(lia) ltac:(lia)). split; lia.
  - intros i Hi. unfold get_size. rewrite E, Z.land_spec, testbit_not_w by lia. cbn [inner set_size with_inner].
    rewrite Z.lor_spec, Z.land_spec, Z.shiftl_spec by lia. change 15 with (Z.ones 4). destruct (decide (i < 4)).
    + rewrite Z.ones_spec_low, andb_false_r, Z.testbit_neg_r by lia. done.
    + rewrite Z.ones_spec_high, andb_false_r, orb_false_r, andb_true_r, Z.shiftr_spec by lia. f_equal. lia.
Qed.

(** C39: the flags and the size of a block header.  Each setter of a flag changes this flag
    and leaves the three others and the size.  [set_size] stores the size rounded down to a
    multiple of 16 and sets in addition the flags at whose place the size has a bit; it
    leaves the flags, and stores the size itself, when the size is a multiple of 16. *)
Theorem header_fields h n b c : 0 ≤ n < 2 ^ 64 →
  let v := view h in
  let mk a l r m z := {| v_allocated := a; v_left_allocated := l; v_red := r; v_mapped := m; v_size := z |} in
  let '(a, l, r, m, z) := (v_allocated v, v_left_allocated v, v_red v, v_mapped v, v_size v) in
  view (allocate h) = mk true l r m z ∧ view (free h) = mk false l r m z
  ∧ view (set_left_allocated h b) = mk a b r m z ∧ view (set_mapped h b) = mk a l r b z
  ∧ view (AllocHeader_set_color h c) = mk a l (bool_decide (c = Red)) m z
  ∧ view (set_size h n)
    = mk (a || Z.testbit n 0) (l || Z.testbit n 1) (r || Z.testbit n 2) (m || Z.testbit n 3) (n - n mod 16)
  ∧ (n mod 16 = 0 → view (set_size h n) = mk a l r m n).
Proof.
  intros Hn. destruct (header_fields_spec h 0 b c ltac:(lia) eq_refl) as (H1 & H2 & H3 & H4 & H5 & _).
  cbv zeta. split_and!; [exact H1|exact H2|exact H3|exact H4|exact H5|by apply set_size_view|].
  intros H16. by destruct (header_fields_spec h n b c Hn H16) as (_ & _ & _ & _ & _ & H6).
Qed.

(** A size of 0x125 marks a free block as allocated and red. *)
Lemma header_fields_witness :
  let h := {| inner := 0x48; extra := 7 |} in
  view (set_size h 0x125)
    = {| v_allocated := true; v_left_allocated := false; v_red := true; v_mapped := true; v_size := 0x120 |}.
Proof.
  assert (H0 : 0 ≤ 0x125 < 2 ^ 64) by lia.
  pose proof (header_fields {| inner := 0x48; extra := 7 |} 0x125 true Red H0) as H.
  refine (eq_trans (proj1 (proj2 (proj2 (proj2 (proj2 (proj2 H)))))) _). vm_compute. reflexivity.
Defined.

(** * The instance of the interface *)

#[global] Instance AllocHeader_payload : NodePayload AllocHeader := {
  payload_NULL := AllocHeader_NULL;
  get_color := AllocHeader_get_color;
  set_color := AllocHeader_set_color;
  value := get_size;
  set_value := set_size
}.
#[global] Instance AllocHeader_laws : NodePayloadLaws AllocHeader.
Proof.
  split.
  - intros h c. simpl. rewrite get_color_bit. destruct c; cbn [AllocHeader_set_color inner with_inner].
    + by rewrite (clear_flag_bits _ _ 2) by (reflexivity || lia).
    + by rewrite (set_flag_bits _ _ 2) by (reflexivity || lia).
  - intros h c. simpl. apply size_eq. intros i Hi. destruct c; cbn [AllocHeader_set_color inner with_inner].
    + rewrite (clear_flag_bits _ _ 2) by (reflexivity || lia). by case_bool_decide; [lia|].
    + rewrite (set_flag_bits _ _ 2) by (reflexivity || lia). by case_bool_decide; [lia|].
  - intros h. by apply in_width_land_r.
Qed.
