(* ===== verification/RbTree.v ===== *)
(** The red-black tree of the kernel heap (src/mem/vmalloc/rbtree.rs).

    Nodes live in a memory from addresses to nodes and are linked by raw
    pointers; the leaf is a sentinel node.  The payload is any instance of the
    class [NodePayload]. *)

From stdpp Require Import sorting.
From S2P Require Import Prelude AllocHeader.

(** * Data *)

Section rbtree.
Context {P : Type} `{NodePayload P}.

Record Node := { header : P; parent : Z; left : Z; right : Z }.

(** The tree, with the memory its links point into. *)
Record RbTree := { root : Z; black_nil : Z; count : Z; nodes : gmap Z Node }.

Definition NULL_LINK : Z := 0.
Definition new_empty : Node :=
  {| header := payload_NULL; parent := NULL_LINK; left := NULL_LINK; right := NULL_LINK |}.
Definition new_isolated_with_value (v : Z) : Node :=
  {| header := set_value payload_NULL v; parent := NULL_LINK; left := NULL_LINK; right := NULL_LINK |}.

(** [get_node] and [get_node_mut]. *)
Definition get_node (s : RbTree) (x : Z) : outcome Node := deref (nodes s !! x).
Definition with_nodes (s : RbTree) (m : gmap Z Node) : RbTree :=
  {| root := root s; black_nil := black_nil s; count := count s; nodes := m |}.
Definition with_root (s : RbTree) (r : Z) : RbTree :=
  {| root := r; black_nil := black_nil s; count := count s; nodes := nodes s |}.
Definition with_count (s : RbTree) (c : Z) : RbTree :=
  {| root := root s; black_nil := black_nil s; count := c; nodes := nodes s |}.
Definition update (s : RbTree) (x : Z) (f : Node → Node) : outcome RbTree :=
  n ← get_node s x; Done (with_nodes s (<[x := f n]> (nodes s))).

Definition get_parent (s : RbTree) (x : Z) : outcome Z := parent <$> get_node s x.
Definition get_left (s : RbTree) (x : Z) : outcome Z := left <$> get_node s x.
Definition get_right (s : RbTree) (x : Z) : outcome Z := right <$> get_node s x.
Definition color_of (s : RbTree) (x : Z) : outcome NodeColor := (λ n, get_color (header n)) <$> get_node s x.
Definition value_of (s : RbTree) (x : Z) : outcome Z := (λ n, value (header n)) <$> get_node s x.
Definition put_parent (s : RbTree) (x v : Z) : outcome RbTree :=
  update s x (λ n, {| header := header n; parent := v; left := left n; right := right n |}).
Definition put_left (s : RbTree) (x v : Z) : outcome RbTree :=
  update s x (λ n, {| header := header n; parent := parent n; left := v; right := right n |}).
Definition put_right (s : RbTree) (x v : Z) : outcome RbTree :=
  update s x (λ n, {| header := header n; parent := parent n; left := left n; right := v |}).
Definition put_color (s : RbTree) (x : Z) (c : NodeColor) : outcome RbTree :=
  update s x (λ n, {| header := set_color (header n) c; parent := parent n; left := left n; right := right n |}).

(** [new_raw]: writes a root and a sentinel. *)
Definition new_raw (root_addr black_nil_addr : Z) (m : gmap Z Node) : RbTree := {|
  root := root_addr; black_nil := black_nil_addr; count := 1;
  nodes := <[black_nil_addr := new_empty]>
    (<[root_addr := {| header := payload_NULL; parent := black_nil_addr; left := black_nil_addr;
                       right := black_nil_addr |}]> m)
|}.

(** * Rotations *)

Definition left_rotate (s : RbTree) (center : Z) : outcome RbTree :=
  right_child ← get_right s center;
  rl ← get_left s right_child;
  s ← put_right s center rl;
  rl ← get_left s right_child;
  s ← (if bool_decide (rl ≠ black_nil s) then put_parent s rl center else Done s);
  p ← get_parent s center;
  s ← put_parent s right_child p;
  p ← get_parent s center;
  s ← (if bool_decide (p = black_nil s) then Done (with_root s right_child)
       else
         pl ← get_left s p;
         if bool_decide (center = pl) then put_left s p right_child else put_right s p right_child);
  s ← put_left s right_child center;
  put_parent s center right_child.

Definition right_rotate (s : RbTree) (center : Z) : outcome RbTree :=
  left_child ← get_left s center;
  lr ← get_right s left_child;
  s ← put_left s center lr;
  lr ← get_right s left_child;
  s ← (if bool_decide (lr ≠ black_nil s) then put_parent s lr center else Done s);
  p ← get_parent s center;
  s ← put_parent s left_child p;
  p ← get_parent s center;
  s ← (if bool_decide (p = black_nil s) then Done (with_root s left_child)
       else
         pr ← get_right s p;
         if bool_decide (center = pr) then put_right s p left_child else put_left s p left_child);
  s ← put_right s left_child center;
  put_parent s center left_child.

(** * Insertion *)

(** The loop of [fix_insert_rb_violation]. *)
Fixpoint fix_insert_loop (fuel : nat) (s : RbTree) (new_node : Z) : outcome RbTree :=
  match fuel with
  | O => NoFuel
  | S fuel =>
      p ← get_parent s new_node;
      c ← color_of s p;
      match c with
      | Black => Done s
      | Red =>
          g ← get_parent s p;
          gl ← get_left s g;
          if bool_decide (p = gl) then
            uncle ← get_right s g;
            uc ← color_of s uncle;
            match uc with
            | Red =>
                s ← put_color s p Black;
                s ← put_color s uncle Black;
                s ← put_color s g Red;
                fix_insert_loop fuel s g
            | Black =>
                pr ← get_right s p;
                '(new_node, s) ← (if bool_decide (new_node = pr)
                                  then s ← left_rotate s p; Done (p, s)
                                  else Done (new_node, s));
                p ← get_parent s new_node;
                s ← put_color s p Black;
                g ← get_parent s p;
                s ← put_color s g Red;
                s ← right_rotate s g;
                fix_insert_loop fuel s new_node
            end
          else
            uc ← color_of s gl;
            match uc with
            | Red =>
                s ← put_color s p Black;
                s ← put_color s gl Black;
                s ← put_color s g Red;
                fix_insert_loop fuel s g
            | Black =>
                pl ← get_left s p;
                '(new_node, s) ← (if bool_decide (new_node = pl)
                                  then s ← right_rotate s p; Done (p, s)
                                  else Done (new_node, s));
                p ← get_parent s new_node;
                s ← put_color s p Black;
                g ← get_parent s p;
                s ← put_color s g Red;
                s ← left_rotate s g;
                fix_insert_loop fuel s new_node
            end
      end
  end.
Definition fix_insert_rb_violation (fuel : nat) (s : RbTree) (new_node : Z) : outcome RbTree :=
  s ← fix_insert_loop fuel s new_node;
  put_color s (root s) Black.

(** The descent of [insert_node]: the last node before the sentinel. *)
Fixpoint insert_walk (fuel : nat) (s : RbTree) (child parent curr_size : Z) : outcome Z :=
  match fuel with
  | O => NoFuel
  | S fuel =>
      if bool_decide (child = black_nil s) then Done parent
      else
        child_size ← value_of s child;
        next ← (if bool_decide (curr_size < child_size) then get_left s child else get_right s child);
        insert_walk fuel s next child curr_size
  end.
Definition insert_node (fuel : nat) (s : RbTree) (new_node : Z) : outcome RbTree :=
  curr_size ← value_of s new_node;
  parent ← insert_walk fuel s (root s) (black_nil s) curr_size;
  s ← put_parent s new_node parent;
  s ← (if bool_decide (parent = black_nil s) then Done (with_root s new_node)
       else
         ps ← value_of s parent;
         if bool_decide (curr_size < ps) then put_left s parent new_node else put_right s parent new_node);
  s ← put_left s new_node (black_nil s);
  s ← put_right s new_node (black_nil s);
  s ← put_color s new_node Red;
  s ← fix_insert_rb_violation fuel s new_node;
  Done (with_count s (u64 (count s + 1))).
End rbtree.
Arguments RbTree P : clear implicits.
Arguments Node P : clear implicits.

(** * Trees in memory *)

Section shape.
Context {P : Type} `{NodePayload P} `{!NodePayloadLaws P}.
Implicit Types s : RbTree P.

(** A tree of nodes, each at its address. *)
Inductive tree := Leaf | Br (l : tree) (a : Z) (h : P) (r : tree).
(** A path from a subtree up to the root: at each step, the parent and the other
    child. *)
Inductive frame := FL (a : Z) (h : P) (r : tree) | FR (l : tree) (a : Z) (h : P).
Definition f_addr (f : frame) : Z := match f with FL a _ _ | FR _ a _ => a end.
Definition f_hdr (f : frame) : P := match f with FL _ h _ | FR _ _ h => h end.
Definition f_sib (f : frame) : tree := match f with FL _ _ r => r | FR l _ _ => l end.
Definition close (f : frame) (t : tree) : tree :=
  match f with FL a h r => Br t a h r | FR l a h => Br l a h t end.
Fixpoint plug (t : tree) (c : list frame) : tree :=
  match c with [] => t | f :: c => plug (close f t) c end.

Section pointers.
Context (nil : Z).
Definition addr (t : tree) : Z := match t with Leaf => nil | Br _ a _ _ => a end.
Definition ctx_parent (c : list frame) : Z := match c with [] => nil | f :: _ => f_addr f end.
(** The nodes of a subtree whose parent is [par], and those of a path whose
    focus has the address [child]. *)
Fixpoint tnodes (par : Z) (t : tree) : list (Z * Node P) :=
  match t with
  | Leaf => []
  | Br l a h r =>
      (a, {| header := h; parent := par; left := addr l; right := addr r |}) :: tnodes a l ++ tnodes a r
  end.
Definition fnode (f : frame) (child par : Z) : Z * Node P :=
  match f with
  | FL a h r => (a, {| header := h; parent := par; left := child; right := addr r |})
  | FR l a h => (a, {| header := h; parent := par; left := addr l; right := child |})
  end.
Fixpoint cnodes (c : list frame) (child : Z) : list (Z * Node P) :=
  match c with
  | [] => []
  | f :: c => fnode f child (ctx_parent c) :: tnodes (f_addr f) (f_sib f) ++ cnodes c (f_addr f)
  end.
Definition znodes (t : tree) (c : list frame) : list (Z * Node P) :=
  tnodes (ctx_parent c) t ++ cnodes c (addr t).

Lemma znodes_close t f c : znodes t (f :: c) ≡ₚ znodes (close f t) c.
Proof.
  unfold znodes. destruct f as [a h r|l a h]; simpl; solve_Permutation.
Qed.

Lemma plug_addr t t' c : addr t = addr t' → addr (plug t c) = addr (plug t' c).
Proof. revert t t'. induction c as [|[] c IH]; intros t t' E; simpl; [done|by apply IH..]. Qed.
Lemma plug_addr_cons t t' f c : addr (plug t (f :: c)) = addr (plug t' (f :: c)).
Proof. simpl. apply plug_addr. by destruct f. Qed.
End pointers.

(** The memory holds these nodes, at distinct addresses. *)
Definition own (m : gmap Z (Node P)) (L : list (Z * Node P)) : Prop :=
  NoDup L.*1 ∧ Forall (λ e, m !! e.1 = Some e.2) L.

#[global] Instance own_proper m : Proper ((≡ₚ) ==> iff) (own m).
Proof. intros L L' E. unfold own. by rewrite E. Qed.

Lemma own_lookup m L x n : own m L → (x, n) ∈ L → m !! x = Some n.
Proof. intros [_ Hf] Hx. rewrite Forall_forall in Hf. by apply (Hf (x, n)). Qed.

Lemma own_upd m x n n' L : own m ((x, n) :: L) → own (<[x := n']> m) ((x, n') :: L).
Proof.
  intros [Hnd Hf]. split; [done|]. apply NoDup_cons in Hnd as [Hx _].
  inversion_clear Hf as [|?? _ Hf']. constructor; [apply lookup_insert_eq|].
  rewrite Forall_forall in *. intros [y k] Hy. rewrite lookup_insert_ne; [by apply Hf'|].
  simpl. intros <-. apply Hx. apply list_elem_of_fmap. by exists (x, k).
Qed.

(** The state holds the tree [plug t c]; [K] is the set of its addresses. *)
Record zrepr (K : gset Z) (s : RbTree P) (t : tree) (c : list frame) : Prop := {
  z_own : own (nodes s) (znodes (black_nil s) t c);
  z_keys : list_to_set (znodes (black_nil s) t c).*1 = K;
  z_nil : black_nil s ∉ K;
  z_root : root s = addr (black_nil s) (plug t c)
}.
(** What an operation on the tree leaves alone. *)
Record same (K : gset Z) (s s' : RbTree P) : Prop := {
  same_nil : black_nil s' = black_nil s;
  same_count : count s' = count s;
  same_nodes : ∀ y, y ∉ K → nodes s' !! y = nodes s !! y
}.
#[global] Instance same_preorder K : PreOrder (same K).
Proof.
  split; [by constructor|]. intros s1 s2 s3 [] []. constructor; [congruence..|].
  intros y Hy. rewrite <- same_nodes0 by done. auto.
Qed.

Lemma zrepr_close K s t f c : zrepr K s t (f :: c) ↔ zrepr K s (close f t) c.
Proof.
  split; intros [Ho Hk Hn Hr]; constructor; try done.
  - by rewrite <- znodes_close.
  - by rewrite <- znodes_close.
  - by rewrite znodes_close.
  - by rewrite znodes_close.
Qed.

Lemma z_get K s l a h r c : zrepr K s (Br l a h r) c →
  get_node s a = Done {| header := h; parent := ctx_parent (black_nil s) c;
                         left := addr (black_nil s) l; right := addr (black_nil s) r |}.
Proof.
  intros [Ho _ _ _]. unfold get_node. erewrite (own_lookup _ _ a _ Ho); [done|].
  unfold znodes. simpl. by left.
Qed.

Lemma addr_ne nil par t x : x ∉ (tnodes nil par t).*1 → x ≠ nil → x ≠ addr nil t.
Proof. destruct t; simpl; set_solver. Qed.

(** The first node of a subtree and of a path, and the others. *)
Definition thead nil (par : Z) (t : tree) : list (Z * Node P) :=
  match t with
  | Leaf => []
  | Br l a h r => [(a, {| header := h; parent := par; left := addr nil l; right := addr nil r |})]
  end.
Definition trest nil (t : tree) : list (Z * Node P) :=
  match t with Leaf => [] | Br l a _ r => tnodes nil a l ++ tnodes nil a r end.
Definition chead nil (c : list frame) (child : Z) : list (Z * Node P) :=
  match c with [] => [] | f :: c => [fnode nil f child (ctx_parent nil c)] end.
Definition crest nil (c : list frame) : list (Z * Node P) :=
  match c with [] => [] | f :: c => tnodes nil (f_addr f) (f_sib f) ++ cnodes nil c (f_addr f) end.
Lemma tnodes_split nil par t : tnodes nil par t = thead nil par t ++ trest nil t.
Proof. by destruct t. Qed.
Lemma cnodes_split nil c x : cnodes nil c x = chead nil c x ++ crest nil c.
Proof. by destruct c. Qed.

(** An operation that changes the entries [S] into [S'], and no other. *)
Lemma zrepr_change K s t c S R t' c' S' s' :
  zrepr K s t c → znodes (black_nil s) t c ≡ₚ S ++ R → znodes (black_nil s) t' c' ≡ₚ S' ++ R →
  S'.*1 ≡ₚ S.*1 → Forall (λ e, nodes s' !! e.1 = Some e.2) S' →
  (∀ y, y ∉ S.*1 → nodes s' !! y = nodes s !! y) →
  black_nil s' = black_nil s → count s' = count s → root s' = addr (black_nil s) (plug t' c') →
  zrepr K s' t' c' ∧ same K s s'.
Proof.
  intros [[Hnd Hf] Hk Hn Hr] E E' Ek HS Hout Hnil Hc Hroot.
  rewrite E in Hnd, Hf, Hk. rewrite fmap_app in Hnd, Hk. apply NoDup_app in Hnd as Hnd'.
  destruct Hnd' as (_ & Hdis & _). apply Forall_app in Hf as [_ HR]. split.
  - split; rewrite ?Hnil; [split| | |done].
    + by rewrite E', fmap_app, Ek.
    + rewrite E'. apply Forall_app. split; [done|]. rewrite Forall_forall in *.
      intros e He. rewrite Hout; [by apply HR|]. intros He'. apply (Hdis _ He').
      by apply list_elem_of_fmap_2.
    + by rewrite E', fmap_app, Ek.
    + done.
  - split; [done|done|]. intros y Hy. apply Hout. intros Hy'. apply Hy. rewrite <- Hk.
    apply elem_of_list_to_set, elem_of_app. by left.
Qed.

(** Facts about the entries of a tree, split in two. *)
Lemma zrepr_split K s t c S R : zrepr K s t c → znodes (black_nil s) t c ≡ₚ S ++ R →
  NoDup (black_nil s :: S.*1) ∧ (∀ y, y ∈ S.*1 → y ∉ R.*1)
  ∧ Forall (λ e, nodes s !! e.1 = Some e.2) S.
Proof.
  intros [[Hnd Hf] Hk Hn _] E. rewrite E in Hnd, Hf, Hk. rewrite fmap_app in Hnd, Hk.
  apply NoDup_app in Hnd as (HS & Hdis & _). apply Forall_app in Hf as [Hf _].
  split; [|done]. constructor; [|done]. intros Hin. apply Hn. rewrite <- Hk.
  apply elem_of_list_to_set, elem_of_app. by left.
Qed.

Lemma put_color_spec K s l a h r c col : zrepr K s (Br l a h r) c → ∃ s',
  put_color s a col = Done s' ∧ zrepr K s' (Br l a (set_color h col) r) c ∧ same K s s'.
Proof.
  intros Hz. unfold put_color, update. rewrite (z_get _ _ _ _ _ _ _ Hz). cbn [mbind outcome_bind].
  eexists. split; [done|].
  eapply (zrepr_change _ _ _ _ [_] _ _ _ [_] _ Hz); unfold znodes; simpl;
    [reflexivity|reflexivity|done|by constructor; [apply lookup_insert_eq|]| |done|done|].
  - intros y Hy. apply lookup_insert_ne. set_solver.
  - rewrite (z_root _ _ _ _ Hz). by apply plug_addr.
Qed.

End shape.

(** Runs an operation of the model on a memory of which the entries it touches
    are known and distinct. *)
Ltac run_mem :=
  repeat (first
    [ progress cbn [mbind outcome_bind fmap outcome_fmap update with_nodes with_root nodes root
                    black_nil header parent left right ctx_parent f_addr]
    | rewrite lookup_insert_eq
    | rewrite lookup_insert_ne by congruence
    | match goal with H : ?m !! ?x = Some _ |- context [?m !! ?x] => rewrite H end
    | rewrite bool_decide_true by (first [congruence | lia])
    | rewrite bool_decide_false by (first [congruence | tauto | lia]) ]).
Ltac unfold_ops :=
  unfold left_rotate, right_rotate, get_right, get_left, get_parent, put_right, put_parent, put_left,
    update, get_node, deref.
Ltac run_steps :=
  repeat first
    [ progress cbn [mbind outcome_bind]
    | match goal with E : ?m = Done _ |- context [?m] => rewrite E end ].
(** The entries of [zrepr_split] one by one. *)
Ltac split_entries Hnd Hdis HS :=
  cbn [thead trest chead crest fnode f_addr f_sib app fmap list_fmap fst snd addr ctx_parent] in Hnd, Hdis, HS;
  rewrite ?NoDup_cons, ?not_elem_of_cons in Hnd; rewrite ?Forall_cons in HS;
  cbn [fst snd] in HS; destruct_and? Hnd; destruct_and? HS.
Ltac known_entries Hz E :=
  let Hnd := fresh "Hnd" in let Hdis := fresh "Hdis" in let HS := fresh "HS" in
  destruct (zrepr_split _ _ _ _ _ _ Hz E) as (Hnd & Hdis & HS); split_entries Hnd Hdis HS.

(** The focus is not the sibling of its parent's other side. *)
Ltac sibling_ne Hdis :=
  match goal with
  | |- ?a ≠ addr _ ?q =>
      eapply addr_ne; [|congruence];
      let Ha := fresh "Ha" in
      assert (Ha := Hdis a ltac:(left)); cbn [trest crest f_addr f_sib] in Ha;
      rewrite !fmap_app, !not_elem_of_app in Ha; destruct_and? Ha; eassumption
  end.
(** The end of the proofs below: the entries after the run. *)
Ltac change_entries Hz E E' :=
  eexists; split; [reflexivity|];
  eapply (zrepr_change _ _ _ _ _ _ _ _ _ _ Hz E E');
  cbn [thead trest chead crest fnode f_addr f_sib app fmap list_fmap fst snd];
  [ done
  | rewrite ?Forall_cons, ?Forall_nil; cbn [fst snd nodes with_nodes with_root addr ctx_parent]; split_and?;
    repeat first [rewrite lookup_insert_eq | rewrite lookup_insert_ne by congruence]; done
  | let y := fresh "y" in let Hy := fresh "Hy" in
    intros y Hy; rewrite ?not_elem_of_cons in Hy; destruct_and? Hy;
    cbn [nodes with_nodes with_root]; rewrite ?lookup_insert_ne by congruence; done
  | done | done
  | cbn [root with_nodes with_root]; try done; rewrite (z_root _ _ _ _ Hz); apply plug_addr_cons ].

Section rotations.
Context {P : Type} `{NodePayload P} `{!NodePayloadLaws P}.
Implicit Types s : RbTree P.
Notation tree := (@tree P).
Notation frame := (@frame P).

Lemma left_rotate_spec K s l a h bl b bh br c :
  zrepr K s (Br l a h (Br bl b bh br)) c → ∃ s',
  left_rotate s a = Done s' ∧ zrepr K s' (Br (Br l a h bl) b bh br) c ∧ same K s s'.
Proof.
  intros Hz. remember (black_nil s) as nil eqn:Hnil.
  set (R := tnodes nil a l ++ trest nil bl ++ tnodes nil b br ++ crest nil c).
  assert (E : znodes nil (Br l a h (Br bl b bh br)) c ≡ₚ
    ([(a, {| header := h; parent := ctx_parent nil c; left := addr nil l; right := b |});
      (b, {| header := bh; parent := a; left := addr nil bl; right := addr nil br |})]
      ++ thead nil b bl ++ chead nil c a) ++ R).
  { unfold znodes, R. simpl. rewrite cnodes_split, (tnodes_split _ b bl). solve_Permutation. }
  assert (E' : znodes nil (Br (Br l a h bl) b bh br) c ≡ₚ
    ([(a, {| header := h; parent := b; left := addr nil l; right := addr nil bl |});
      (b, {| header := bh; parent := ctx_parent nil c; left := a; right := addr nil br |})]
      ++ thead nil a bl ++ chead nil c b) ++ R).
  { unfold znodes, R. simpl. rewrite cnodes_split, (tnodes_split _ a bl). solve_Permutation. }
  subst nil R. destruct bl as [|m1 x xh m2], c as [|[p ph q|q p ph] c];
    known_entries Hz E; try (assert (a ≠ addr (black_nil s) q) by sibling_ne Hdis);
    unfold_ops; run_mem; change_entries Hz E E'.
Qed.

Lemma right_rotate_spec K s bl b bh br a h r c :
  zrepr K s (Br (Br bl b bh br) a h r) c → ∃ s',
  right_rotate s a = Done s' ∧ zrepr K s' (Br bl b bh (Br br a h r)) c ∧ same K s s'.
Proof.
  intros Hz. remember (black_nil s) as nil eqn:Hnil.
  set (R := tnodes nil a r ++ trest nil br ++ tnodes nil b bl ++ crest nil c).
  assert (E : znodes nil (Br (Br bl b bh br) a h r) c ≡ₚ
    ([(a, {| header := h; parent := ctx_parent nil c; left := b; right := addr nil r |});
      (b, {| header := bh; parent := a; left := addr nil bl; right := addr nil br |})]
      ++ thead nil b br ++ chead nil c a) ++ R).
  { unfold znodes, R. simpl. rewrite cnodes_split, (tnodes_split _ b br). solve_Permutation. }
  assert (E' : znodes nil (Br bl b bh (Br br a h r)) c ≡ₚ
    ([(a, {| header := h; parent := b; left := addr nil br; right := addr nil r |});
      (b, {| header := bh; parent := ctx_parent nil c; left := addr nil bl; right := a |})]
      ++ thead nil a br ++ chead nil c b) ++ R).
  { unfold znodes, R. simpl. rewrite cnodes_split, (tnodes_split _ a br). solve_Permutation. }
  subst nil R. destruct br as [|m1 x xh m2], c as [|[p ph q|q p ph] c];
    known_entries Hz E; try (assert (a ≠ addr (black_nil s) q) by sibling_ne Hdis);
    unfold_ops; run_mem; change_entries Hz E E'.
Qed.

(** * Accesses at the focus *)

Lemma get_parent_z K s l a h r c : zrepr K s (Br l a h r) c → get_parent s a = Done (ctx_parent (black_nil s) c).
Proof. intros Hz. unfold get_parent. by rewrite (z_get _ _ _ _ _ _ _ Hz). Qed.
Lemma get_left_z K s l a h r c : zrepr K s (Br l a h r) c → get_left s a = Done (addr (black_nil s) l).
Proof. intros Hz. unfold get_left. by rewrite (z_get _ _ _ _ _ _ _ Hz). Qed.
Lemma get_right_z K s l a h r c : zrepr K s (Br l a h r) c → get_right s a = Done (addr (black_nil s) r).
Proof. intros Hz. unfold get_right. by rewrite (z_get _ _ _ _ _ _ _ Hz). Qed.
Lemma value_z K s l a h r c : zrepr K s (Br l a h r) c → value_of s a = Done (value h).
Proof. intros Hz. unfold value_of. by rewrite (z_get _ _ _ _ _ _ _ Hz). Qed.

(** The sentinel is in memory and black. *)
Definition black_sentinel s : Prop :=
  ∃ n, nodes s !! black_nil s = Some n ∧ get_color (header n) = Black.
Lemma sentinel_same K s s' : black_nil s ∉ K → same K s s' → black_sentinel s → black_sentinel s'.
Proof. intros Hn [Hnil _ Hm] (n & Hl & Hc). exists n. rewrite Hnil, Hm by done. done. Qed.

Definition tcolor (t : tree) : NodeColor := match t with Leaf => Black | Br _ _ h _ => get_color h end.
Lemma color_z K s t c : zrepr K s t c → black_sentinel s → color_of s (addr (black_nil s) t) = Done (tcolor t).
Proof.
  intros Hz (n & Hl & Hc). unfold color_of. destruct t as [|l a h r].
  - unfold get_node. simpl. rewrite Hl. simpl. by rewrite Hc.
  - simpl. by rewrite (z_get _ _ _ _ _ _ _ Hz).
Qed.

(** A node is neither the sentinel, nor its sibling, nor its parent. *)
Lemma focus_ne K s l a h r f c : zrepr K s (Br l a h r) (f :: c) →
  a ≠ black_nil s ∧ a ≠ addr (black_nil s) (f_sib f) ∧ a ≠ f_addr f.
Proof.
  intros [[Hnd _] Hk Hn _]. unfold znodes in *. simpl in *.
  assert (Ha : a ≠ black_nil s) by set_solver. split; [done|].
  rewrite !fmap_app in Hnd. simpl in Hnd. apply NoDup_cons in Hnd as [Hx _].
  rewrite !fmap_app, !not_elem_of_app, not_elem_of_cons, not_elem_of_app in Hx.
  destruct Hx as (_ & Hx & Hs & _). split; [by eapply addr_ne|].
  by destruct f.
Qed.
Lemma addr_not_nil K s l a h r c : zrepr K s (Br l a h r) c → a ≠ black_nil s.
Proof. intros [_ Hk Hn _]. unfold znodes in *. simpl in *. set_solver. Qed.

(** * Red-black trees *)

(** No red node has a red child, and every path has [n] black nodes. *)
Inductive rb : tree → nat → Prop :=
  | rb_leaf : rb Leaf 0
  | rb_red l a h r n : get_color h = Red → tcolor l = Black → tcolor r = Black →
      rb l n → rb r n → rb (Br l a h r) n
  | rb_black l a h r n : get_color h = Black → rb l n → rb r n → rb (Br l a h r) (S n).
(** A path that a subtree of black height [n] completes to a red-black tree, its
    own root apart. *)
Fixpoint ctx_ok (c : list frame) (n : nat) : Prop :=
  match c with
  | [] => True
  | f :: c =>
      rb (f_sib f) n
      ∧ match get_color (f_hdr f) with
        | Red => tcolor (f_sib f) = Black ∧ ctx_ok c n
            ∧ match c with [] => False | f2 :: _ => get_color (f_hdr f2) = Black end
        | Black => ctx_ok c (S n)
        end
  end.

Definition cons_node (a : Z) (h : P) (L : list (Z * Z)) : list (Z * Z) := (a, value h) :: L.
Fixpoint inorder (t : tree) : list (Z * Z) :=
  match t with Leaf => [] | Br l a h r => inorder l ++ cons_node a h (inorder r) end.
Fixpoint cin (c : list frame) (L : list (Z * Z)) : list (Z * Z) :=
  match c with
  | [] => L
  | FL a h r :: c => cin c (L ++ cons_node a h (inorder r))
  | FR l a h :: c => cin c (inorder l ++ cons_node a h L)
  end.
Lemma inorder_plug t c : inorder (plug t c) = cin c (inorder t).
Proof. revert t. induction c as [|[] c IH]; intros t; simpl; [done|by rewrite IH..]. Qed.

Lemma rb_plug t c n : rb t n → ctx_ok c n →
  (tcolor t = Black ∨ match c with f :: _ => get_color (f_hdr f) = Black | [] => True end) →
  ∃ m, rb (plug t c) m.
Proof.
  revert t n. induction c as [|f c IH]; intros t n Ht Hc Hb; simpl in *; [by exists n|].
  destruct Hc as [Hs Hc]. destruct (get_color (f_hdr f)) eqn:Ef.
  - apply (IH _ (S n)); [|done|left].
    + destruct f; simpl in *; by constructor.
    + by destruct f.
  - destruct Hc as (Hsb & Hc & Hhd), Hb as [Hb|]; [|done]. apply (IH _ n); [|done|right; by destruct c].
    destruct f; simpl in *; by constructor.
Qed.

Lemma rb_set_color l a h r : tcolor l = Black → tcolor r = Black → ∀ n, rb l n → rb r n →
  rb (Br l a (set_color h Red) r) n.
Proof using NodePayloadLaws0. intros. constructor; try done. apply get_set_color. Qed.
Lemma rb_blacken l a h r n : rb l n → rb r n → rb (Br l a (set_color h Black) r) (S n).
Proof using NodePayloadLaws0. intros. apply rb_black; try done. apply get_set_color. Qed.
Lemma cons_set_color a h col L : cons_node a (set_color h col) L = cons_node a h L.
Proof using NodePayloadLaws0. unfold cons_node. by rewrite value_set_color. Qed.

End rotations.

Ltac solve_inorder :=
  cbn [cin inorder close]; rewrite ?cons_set_color; unfold cons_node; f_equal; cbn [app];
  repeat (rewrite <- app_assoc; cbn [app]); reflexivity.

Section insertion.
Context {P : Type} `{NodePayload P} `{!NodePayloadLaws P}.
Implicit Types s : RbTree P.
Notation tree := (@tree P).
Notation frame := (@frame P).

(** * Insertion *)

(** The recolouring of a node, its sibling and their parent. *)
Lemma recolor_spec K s l a h r f c ul ua uh ur :
  zrepr K s (Br l a h r) (f :: c) → f_sib f = Br ul ua uh ur → ∃ s1 s2 s3,
  put_color s a Black = Done s1 ∧ put_color s1 ua Black = Done s2 ∧ put_color s2 (f_addr f) Red = Done s3
  ∧ same K s s3
  ∧ zrepr K s3
      (match f with
       | FL g gh _ => Br (Br l a (set_color h Black) r) g (set_color gh Red) (Br ul ua (set_color uh Black) ur)
       | FR _ g gh => Br (Br ul ua (set_color uh Black) ur) g (set_color gh Red) (Br l a (set_color h Black) r)
       end) c.
Proof.
  intros Hz Hu. destruct (put_color_spec _ _ _ _ _ _ _ Black Hz) as (s1 & E1 & Hz1 & Hs1).
  destruct f as [g gh u|u g gh]; simpl in Hu; subst u; apply zrepr_close in Hz1; simpl in Hz1.
  - apply (zrepr_close K s1 _ (FR _ _ _)) in Hz1.
    destruct (put_color_spec _ _ _ _ _ _ _ Black Hz1) as (s2 & E2 & Hz2 & Hs2).
    apply zrepr_close in Hz2. simpl in Hz2.
    destruct (put_color_spec _ _ _ _ _ _ _ Red Hz2) as (s3 & E3 & Hz3 & Hs3).
    exists s1, s2, s3. split_and!; try done. by do 2 (etrans; [eassumption|]).
  - apply (zrepr_close K s1 _ (FL _ _ _)) in Hz1.
    destruct (put_color_spec _ _ _ _ _ _ _ Black Hz1) as (s2 & E2 & Hz2 & Hs2).
    apply zrepr_close in Hz2. simpl in Hz2.
    destruct (put_color_spec _ _ _ _ _ _ _ Red Hz2) as (s3 & E3 & Hz3 & Hs3).
    exists s1, s2, s3. split_and!; try done. by do 2 (etrans; [eassumption|]).
Qed.

(** The last rotation: the parent [p] of [x] becomes black, the grandparent red
    and the right, or left, child of [p]. *)
Lemma rotate_up_right K s t p ph q g gh u c :
  zrepr K s (Br t p ph q) (FL g gh u :: c) → ∃ s1 s2 s3,
  put_color s p Black = Done s1 ∧ get_parent s1 p = Done g ∧ put_color s1 g Red = Done s2
  ∧ right_rotate s2 g = Done s3 ∧ same K s s3
  ∧ zrepr K s3 t (FL p (set_color ph Black) (Br q g (set_color gh Red) u) :: c).
Proof.
  intros Hz. destruct (put_color_spec _ _ _ _ _ _ _ Black Hz) as (s1 & E1 & Hz1 & Hs1).
  pose proof (get_parent_z _ _ _ _ _ _ _ Hz1) as Eg. apply zrepr_close in Hz1. simpl in Hz1.
  destruct (put_color_spec _ _ _ _ _ _ _ Red Hz1) as (s2 & E2 & Hz2 & Hs2).
  destruct (right_rotate_spec _ _ _ _ _ _ _ _ _ _ Hz2) as (s3 & E3 & Hz3 & Hs3).
  exists s1, s2, s3. split_and!; try done; [by do 2 (etrans; [eassumption|])|].
  by apply zrepr_close.
Qed.
Lemma rotate_up_left K s t p ph q g gh u c :
  zrepr K s (Br q p ph t) (FR u g gh :: c) → ∃ s1 s2 s3,
  put_color s p Black = Done s1 ∧ get_parent s1 p = Done g ∧ put_color s1 g Red = Done s2
  ∧ left_rotate s2 g = Done s3 ∧ same K s s3
  ∧ zrepr K s3 t (FR (Br u g (set_color gh Red) q) p (set_color ph Black) :: c).
Proof.
  intros Hz. destruct (put_color_spec _ _ _ _ _ _ _ Black Hz) as (s1 & E1 & Hz1 & Hs1).
  pose proof (get_parent_z _ _ _ _ _ _ _ Hz1) as Eg. apply zrepr_close in Hz1. simpl in Hz1.
  destruct (put_color_spec _ _ _ _ _ _ _ Red Hz1) as (s2 & E2 & Hz2 & Hs2).
  destruct (left_rotate_spec _ _ _ _ _ _ _ _ _ _ Hz2) as (s3 & E3 & Hz3 & Hs3).
  exists s1, s2, s3. split_and!; try done; [by do 2 (etrans; [eassumption|])|].
  by apply zrepr_close.
Qed.

(** The state of the loop of [fix_insert_rb_violation]: the focus is a red node,
    and the tree is red-black but for that node and its parent. *)
Record insert_inv (K : gset Z) s (l : tree) (x : Z) (h : P) (r : tree) (c : list frame) (n : nat) : Prop := {
  ins_z : zrepr K s (Br l x h r) c;
  ins_sent : black_sentinel s;
  ins_red : get_color h = Red;
  ins_rb : rb (Br l x h r) n;
  ins_ctx : ctx_ok c n
}.
(** The state after it. *)
Definition fixed (K : gset Z) s s' (L : list (Z * Z)) : Prop :=
  same K s s' ∧ ∃ t, zrepr K s' t [] ∧ inorder t = L ∧ t ≠ Leaf ∧ ∃ m, rb t m.
Definition loop_ok (fuel : nat) (K : gset Z) : Prop :=
  ∀ c s l x h r n, insert_inv K s l x h r c n → (length c < fuel)%nat →
  ∃ s', fix_insert_loop fuel s x = Done s' ∧ fixed K s s' (cin c (inorder (Br l x h r))).

Lemma fixed_trans K s s1 s' L : same K s s1 → fixed K s1 s' L → fixed K s s' L.
Proof. intros Hs [Hs' Ht]. split; [by etrans|done]. Qed.
Lemma zrepr_plug K s t c : zrepr K s t c → zrepr K s (plug t c) [].
Proof. revert t. induction c as [|f c IH]; intros t Hz; simpl; [done|]. by apply IH, zrepr_close. Qed.
Lemma plug_not_leaf (t : tree) c : t ≠ Leaf → plug t c ≠ Leaf.
Proof. revert t. induction c as [|[] c IH]; intros t Ht; simpl; [done|by apply IH..]. Qed.
Lemma rb_red_inv l a h r n : rb (Br l a h r) n → get_color h = Red →
  rb l n ∧ rb r n ∧ tcolor l = Black ∧ tcolor r = Black.
Proof. inversion 1; subst; [done|congruence]. Qed.

(** The case of a red uncle. *)
Lemma recolor_case K s l x h r f f2 c n ul ua uh ur :
  insert_inv K s l x h r (f :: f2 :: c) n → get_color (f_hdr f) = Red →
  f_sib f2 = Br ul ua uh ur → get_color uh = Red → ∃ s1 s2 s3 l' h' r',
  put_color s (f_addr f) Black = Done s1 ∧ put_color s1 ua Black = Done s2
  ∧ put_color s2 (f_addr f2) Red = Done s3 ∧ same K s s3
  ∧ insert_inv K s3 l' (f_addr f2) h' r' c (S n)
  ∧ cin c (inorder (Br l' (f_addr f2) h' r')) = cin (f :: f2 :: c) (inorder (Br l x h r)).
Proof using NodePayloadLaws0.
  intros [Hz Hsent Hred Hrb Hctx] Hf Hu Huh. simpl in Hctx. rewrite Hf in Hctx.
  destruct Hctx as (Hq & Hqb & (Hu' & Hctx) & Hgh). rewrite Hgh in Hctx. rewrite Hu in Hu'.
  apply rb_red_inv in Hu' as (Hul & Hur & _ & _); [|done].
  assert (Hn : black_nil s ∉ K) by apply Hz.
  apply zrepr_close in Hz.
  destruct f as [p ph q|q p ph], f2 as [g gh u|u g gh]; simpl in *; subst u;
    destruct (recolor_spec _ _ _ _ _ _ _ _ _ _ _ _ Hz eq_refl) as (s1 & s2 & s3 & E1 & E2 & E3 & Hs & Hz3);
    simpl in *; do 6 eexists; split_and!; try eassumption;
    try (split; [exact Hz3|by eapply sentinel_same|apply get_set_color
                |apply rb_set_color; simpl; try apply get_set_color; by apply rb_blacken|done]);
    solve_inorder.
Qed.

Lemma loop_conclude fuel K s s3 l x h r c n L : loop_ok fuel K → same K s s3 →
  insert_inv K s3 l x h r c n → (length c < fuel)%nat → cin c (inorder (Br l x h r)) = L →
  ∃ s', fix_insert_loop fuel s3 x = Done s' ∧ fixed K s s' L.
Proof.
  intros IH Hs Hi Hl <-. destruct (IH _ _ _ _ _ _ _ Hi Hl) as (s' & E & Hf).
  exists s'. split; [done|]. by eapply fixed_trans.
Qed.
Lemma rotated_ctx f c n : get_color (f_hdr f) = Black → rb (f_sib f) n → ctx_ok c (S n) → ctx_ok (f :: c) n.
Proof. intros Hf Hs Hc. simpl. by rewrite Hf. Qed.
(** The case of a black uncle, the parent being the left child. *)
Lemma rotate_case_left fuel K s l x h r f g gh u c n : loop_ok fuel K →
  insert_inv K s l x h r (f :: FL g gh u :: c) n → get_color (f_hdr f) = Red → tcolor u = Black →
  (S (length c) < fuel)%nat → ∃ s',
  (pr ← get_right s (f_addr f);
   '(new_node, s) ← (if bool_decide (x = pr) then s ← left_rotate s (f_addr f); Done (f_addr f, s)
                     else Done (x, s));
   p ← get_parent s new_node;
   s ← put_color s p Black;
   g ← get_parent s p;
   s ← put_color s g Red;
   s ← right_rotate s g;
   fix_insert_loop fuel s new_node) = Done s'
  ∧ fixed K s s' (cin (f :: FL g gh u :: c) (inorder (Br l x h r))).
Proof using NodePayloadLaws0.
  intros IH [Hz Hsent Hred Hrb Hctx] Hf Huc Hlen. simpl in Hctx. rewrite Hf in Hctx.
  destruct Hctx as (Hq & Hqb & (Hu & Hctx) & Hgh). rewrite Hgh in Hctx.
  assert (Hn : black_nil s ∉ K) by apply Hz.
  pose proof (focus_ne _ _ _ _ _ _ _ _ Hz) as (_ & Hxq & _).
  pose proof (proj1 (zrepr_close _ _ _ _ _) Hz) as Hzp.
  destruct f as [p ph q|q p ph]; simpl f_addr; simpl in Hf, Hq, Hqb, Hxq, Hzp.
  - rewrite (get_right_z _ _ _ _ _ _ _ Hzp). cbn [mbind outcome_bind].
    rewrite bool_decide_false by done. cbn [mbind outcome_bind].
    rewrite (get_parent_z _ _ _ _ _ _ _ Hz). cbn [mbind outcome_bind ctx_parent f_addr].
    destruct (rotate_up_right _ _ _ _ _ _ _ _ _ _ Hzp) as (s1 & s2 & s3 & E1 & Eg & E2 & E3 & Hs & Hz3).
    run_steps. eapply loop_conclude; [exact IH|exact Hs
      |split; [exact Hz3|by eapply sentinel_same|done|exact Hrb
              |apply rotated_ctx; simpl; [apply get_set_color|by apply rb_set_color|done]]
      |done|solve_inorder].
  - rewrite (get_right_z _ _ _ _ _ _ _ Hzp). cbn [mbind outcome_bind addr].
    rewrite bool_decide_true by done.
    destruct (left_rotate_spec K s q p ph l x h r _ Hzp) as (s0 & E0 & Hz0 & Hs0).
    rewrite E0. cbn [mbind outcome_bind].
    rewrite (get_parent_z _ _ _ _ _ _ _ (proj2 (zrepr_close K s0 (Br q p ph l) (FL x h r) _) Hz0)). cbn [mbind outcome_bind ctx_parent f_addr].
    destruct (rotate_up_right _ _ _ _ _ _ _ _ _ _ Hz0) as (s1 & s2 & s3 & E1 & Eg & E2 & E3 & Hs & Hz3).
    run_steps. apply rb_red_inv in Hrb as (Hl & Hr & Hlb & Hrb'); [|done].
    assert (Hss : same K s s3) by (by etrans).
    eapply loop_conclude; [exact IH|exact Hss
      |split; [exact Hz3|by eapply sentinel_same|done|by constructor
              |apply rotated_ctx; simpl; [apply get_set_color|by apply rb_set_color|done]]
      |done|solve_inorder].
Qed.

(** The case of a black uncle, the parent being the right child. *)
Lemma rotate_case_right fuel K s l x h r f g gh u c n : loop_ok fuel K →
  insert_inv K s l x h r (f :: FR u g gh :: c) n → get_color (f_hdr f) = Red → tcolor u = Black →
  (S (length c) < fuel)%nat → ∃ s',
  (pl ← get_left s (f_addr f);
   '(new_node, s) ← (if bool_decide (x = pl) then s ← right_rotate s (f_addr f); Done (f_addr f, s)
                     else Done (x, s));
   p ← get_parent s new_node;
   s ← put_color s p Black;
   g ← get_parent s p;
   s ← put_color s g Red;
   s ← left_rotate s g;
   fix_insert_loop fuel s new_node) = Done s'
  ∧ fixed K s s' (cin (f :: FR u g gh :: c) (inorder (Br l x h r))).
Proof using NodePayloadLaws0.
  intros IH [Hz Hsent Hred Hrb Hctx] Hf Huc Hlen. simpl in Hctx. rewrite Hf in Hctx.
  destruct Hctx as (Hq & Hqb & (Hu & Hctx) & Hgh). rewrite Hgh in Hctx.
  assert (Hn : black_nil s ∉ K) by apply Hz.
  pose proof (focus_ne _ _ _ _ _ _ _ _ Hz) as (_ & Hxq & _).
  pose proof (proj1 (zrepr_close _ _ _ _ _) Hz) as Hzp.
  destruct f as [p ph q|q p ph]; simpl f_addr; simpl in Hf, Hq, Hqb, Hxq, Hzp.
  - rewrite (get_left_z _ _ _ _ _ _ _ Hzp). cbn [mbind outcome_bind addr].
    rewrite bool_decide_true by done.
    destruct (right_rotate_spec K s l x h r p ph q _ Hzp) as (s0 & E0 & Hz0 & Hs0).
    rewrite E0. cbn [mbind outcome_bind].
    rewrite (get_parent_z _ _ _ _ _ _ _ (proj2 (zrepr_close K s0 (Br r p ph q) (FR l x h) _) Hz0)). cbn [mbind outcome_bind ctx_parent f_addr].
    destruct (rotate_up_left _ _ _ _ _ _ _ _ _ _ Hz0) as (s1 & s2 & s3 & E1 & Eg & E2 & E3 & Hs & Hz3).
    run_steps. apply rb_red_inv in Hrb as (Hl & Hr & Hlb & Hrb'); [|done].
    assert (Hss : same K s s3) by (by etrans).
    eapply loop_conclude; [exact IH|exact Hss
      |split; [exact Hz3|by eapply sentinel_same|done|by constructor
              |apply rotated_ctx; simpl; [apply get_set_color|by apply rb_set_color|done]]
      |done|solve_inorder].
  - rewrite (get_left_z _ _ _ _ _ _ _ Hzp). cbn [mbind outcome_bind].
    rewrite bool_decide_false by done. cbn [mbind outcome_bind].
    rewrite (get_parent_z _ _ _ _ _ _ _ Hz). cbn [mbind outcome_bind ctx_parent f_addr].
    destruct (rotate_up_left _ _ _ _ _ _ _ _ _ _ Hzp) as (s1 & s2 & s3 & E1 & Eg & E2 & E3 & Hs & Hz3).
    run_steps. eapply loop_conclude; [exact IH|exact Hs
      |split; [exact Hz3|by eapply sentinel_same|done|exact Hrb
              |apply rotated_ctx; simpl; [apply get_set_color|by apply rb_set_color|done]]
      |done|solve_inorder].
Qed.

Lemma insert_step_left fuel K s l x h r f g gh u c n : loop_ok fuel K →
  insert_inv K s l x h r (f :: FL g gh u :: c) n → get_color (f_hdr f) = Red →
  (S (length c) < fuel)%nat →
  ∃ s', fix_insert_loop (S fuel) s x = Done s'
    ∧ fixed K s s' (cin (f :: FL g gh u :: c) (inorder (Br l x h r))).
Proof using NodePayloadLaws0.
  intros IH Hinv Hf Hlen. pose proof Hinv as [Hz Hsent _ _ _].
  pose proof (proj1 (zrepr_close _ _ _ _ _) Hz) as Hzp.
  pose proof (proj1 (zrepr_close _ _ _ _ _) Hzp) as Hzg. simpl close in Hzg.
  pose proof (proj2 (zrepr_close K s u (FR (close f (Br l x h r)) g gh) c) Hzg) as Hzu.
  cbn [fix_insert_loop]. rewrite (get_parent_z _ _ _ _ _ _ _ Hz). cbn [mbind outcome_bind ctx_parent].
  assert (Hpc : color_of s (f_addr f) = Done Red).
  { pose proof (color_z _ _ _ _ Hzp Hsent) as Hc. destruct f; simpl in *; by rewrite Hc, Hf. }
  assert (Hpp : get_parent s (f_addr f) = Done g).
  { destruct f; simpl in *; exact (get_parent_z _ _ _ _ _ _ _ Hzp). }
  rewrite Hpc. cbn [mbind outcome_bind]. rewrite Hpp. cbn [mbind outcome_bind].
  rewrite (get_left_z _ _ _ _ _ _ _ Hzg). cbn [mbind outcome_bind].
  rewrite bool_decide_true by (by destruct f).
  rewrite (get_right_z _ _ _ _ _ _ _ Hzg). cbn [mbind outcome_bind].
  rewrite (color_z _ _ _ _ Hzu Hsent). cbn [mbind outcome_bind].
  destruct (tcolor u) eqn:Huc; [by apply (rotate_case_left _ _ _ _ _ _ _ _ _ _ _ _ n)|].
  destruct u as [|ul ua uh ur]; [done|].
  destruct (recolor_case _ _ _ _ _ _ _ _ _ _ _ _ _ _ Hinv Hf eq_refl Huc)
    as (s1 & s2 & s3 & l' & h' & r' & E1 & E2 & E3 & Hs & Hi & Ein).
  simpl in E3. simpl addr. rewrite E1. cbn [mbind outcome_bind]. rewrite E2. cbn [mbind outcome_bind].
  rewrite E3. cbn [mbind outcome_bind]. eapply loop_conclude; [done|exact Hs|exact Hi|lia|exact Ein].
Qed.

Lemma insert_step_right fuel K s l x h r f g gh u c n : loop_ok fuel K →
  insert_inv K s l x h r (f :: FR u g gh :: c) n → get_color (f_hdr f) = Red →
  (S (length c) < fuel)%nat →
  ∃ s', fix_insert_loop (S fuel) s x = Done s'
    ∧ fixed K s s' (cin (f :: FR u g gh :: c) (inorder (Br l x h r))).
Proof using NodePayloadLaws0.
  intros IH Hinv Hf Hlen. pose proof Hinv as [Hz Hsent _ _ _].
  pose proof (proj1 (zrepr_close _ _ _ _ _) Hz) as Hzp.
  pose proof (proj1 (zrepr_close _ _ _ _ _) Hzp) as Hzg. simpl close in Hzg.
  pose proof (proj2 (zrepr_close K s u (FL g gh (close f (Br l x h r))) c) Hzg) as Hzu.
  cbn [fix_insert_loop]. rewrite (get_parent_z _ _ _ _ _ _ _ Hz). cbn [mbind outcome_bind ctx_parent].
  assert (Hpc : color_of s (f_addr f) = Done Red).
  { pose proof (color_z _ _ _ _ Hzp Hsent) as Hc. destruct f; simpl in *; by rewrite Hc, Hf. }
  assert (Hpp : get_parent s (f_addr f) = Done g).
  { destruct f; simpl in *; exact (get_parent_z _ _ _ _ _ _ _ Hzp). }
  rewrite Hpc. cbn [mbind outcome_bind]. rewrite Hpp. cbn [mbind outcome_bind].
  rewrite (get_left_z _ _ _ _ _ _ _ Hzg). cbn [mbind outcome_bind].
  assert (Hpu : f_addr f ≠ addr (black_nil s) u).
  { destruct f; simpl in *; exact (proj1 (proj2 (focus_ne _ _ _ _ _ _ _ _ Hzp))). }
  rewrite bool_decide_false by done.
  rewrite (color_z _ _ _ _ Hzu Hsent). cbn [mbind outcome_bind].
  destruct (tcolor u) eqn:Huc; [by apply (rotate_case_right _ _ _ _ _ _ _ _ _ _ _ _ n)|].
  destruct u as [|ul ua uh ur]; [done|].
  destruct (recolor_case _ _ _ _ _ _ _ _ _ _ _ _ _ _ Hinv Hf eq_refl Huc)
    as (s1 & s2 & s3 & l' & h' & r' & E1 & E2 & E3 & Hs & Hi & Ein).
  simpl in E3. simpl addr. rewrite E1. cbn [mbind outcome_bind]. rewrite E2. cbn [mbind outcome_bind].
  rewrite E3. cbn [mbind outcome_bind]. eapply loop_conclude; [done|exact Hs|exact Hi|lia|exact Ein].
Qed.

Lemma fix_insert_loop_spec fuel K : loop_ok fuel K.
Proof using NodePayloadLaws0.
  induction fuel as [|fuel IH]; intros c s l x h r n Hinv Hl; [lia|].
  pose proof Hinv as [Hz Hsent Hred Hrb Hctx]. destruct c as [|f c].
  - cbn [fix_insert_loop]. rewrite (get_parent_z _ _ _ _ _ _ _ Hz). cbn [mbind outcome_bind ctx_parent].
    destruct Hsent as (nn & Hn & Hc). unfold color_of, get_node. rewrite Hn. simpl. rewrite Hc.
    exists s. split; [done|]. split; [done|]. exists (Br l x h r). eauto.
  - destruct (get_color (f_hdr f)) eqn:Ef.
    + cbn [fix_insert_loop]. rewrite (get_parent_z _ _ _ _ _ _ _ Hz). cbn [mbind outcome_bind ctx_parent].
      pose proof (color_z _ _ _ _ (proj1 (zrepr_close _ _ _ _ _) Hz) Hsent) as Hc.
      assert (Hc' : color_of s (f_addr f) = Done Black) by (destruct f; simpl in *; by rewrite Hc, Ef).
      rewrite Hc'. cbn [mbind outcome_bind]. exists s. split; [done|]. split; [done|].
      exists (plug (Br l x h r) (f :: c)). split_and!.
      * by apply zrepr_plug.
      * apply inorder_plug.
      * by apply plug_not_leaf.
      * apply (rb_plug _ _ n); [done|done|by right].
    + destruct c as [|f2 c]; [simpl in Hctx; rewrite Ef in Hctx; naive_solver|].
      simpl in Hl. destruct f2; [apply (insert_step_left _ _ _ _ _ _ _ _ _ _ _ _ n)
        |apply (insert_step_right _ _ _ _ _ _ _ _ _ _ _ _ n)]; done || lia.
Qed.

(** ** The descent *)

Fixpoint height (t : tree) : nat :=
  match t with Leaf => 0 | Br l _ _ r => S (Nat.max (height l) (height r)) end.
(** The path follows the comparisons of a value with its nodes. *)
Definition path_ok (v : Z) (c : list frame) : Prop :=
  Forall (λ f, match f with FL _ h _ => v < value h | FR _ _ h => value h ≤ v end) c.

Lemma insert_walk_spec fuel K s t c v : zrepr K s t c → path_ok v c → (height t < fuel)%nat → ∃ c',
  insert_walk fuel s (addr (black_nil s) t) (ctx_parent (black_nil s) c) v
    = Done (ctx_parent (black_nil s) c')
  ∧ zrepr K s Leaf c' ∧ path_ok v c' ∧ plug Leaf c' = plug t c
  ∧ (length c' ≤ height t + length c)%nat.
Proof.
  revert fuel c. induction t as [|l IHl a h r IHr]; intros [|fuel] c Hz Hp Hh; simpl in Hh; try lia;
    cbn [insert_walk addr].
  { rewrite bool_decide_true by done. exists c. split_and!; try done. }
  rewrite bool_decide_false by (by apply (addr_not_nil _ _ _ _ _ _ _ Hz)).
  rewrite (value_z _ _ _ _ _ _ _ Hz). cbn [mbind outcome_bind]. case_bool_decide.
  - rewrite (get_left_z _ _ _ _ _ _ _ Hz). cbn [mbind outcome_bind].
    destruct (IHl fuel (FL a h r :: c)) as (c' & E & Hz' & Hp' & Hpl & Hl);
      [by apply zrepr_close|by constructor|lia|].
    exists c'. simpl in *. split_and!; try done. lia.
  - rewrite (get_right_z _ _ _ _ _ _ _ Hz). cbn [mbind outcome_bind].
    destruct (IHr fuel (FR l a h :: c)) as (c' & E & Hz' & Hp' & Hpl & Hl);
      [by apply zrepr_close|constructor; [lia|done]|lia|].
    exists c'. simpl in *. split_and!; try done. lia.
Qed.

(** An operation that adds a node at [a] and changes the entries [S] into [S']. *)
Lemma zrepr_add K s t c S R a n t' c' S' s' :
  zrepr K s t c → znodes (black_nil s) t c ≡ₚ S ++ R →
  znodes (black_nil s) t' c' ≡ₚ (a, n) :: S' ++ R → a ∉ K → a ≠ black_nil s →
  S'.*1 ≡ₚ S.*1 → nodes s' !! a = Some n → Forall (λ e, nodes s' !! e.1 = Some e.2) S' →
  (∀ y, y ≠ a → y ∉ S.*1 → nodes s' !! y = nodes s !! y) →
  black_nil s' = black_nil s → count s' = count s → root s' = addr (black_nil s) (plug t' c') →
  zrepr ({[a]} ∪ K) s' t' c' ∧ same ({[a]} ∪ K) s s'.
Proof.
  intros [[Hnd Hf] Hk Hn Hr] E E' Ha Hanil Ek Hla HS Hout Hnil Hc Hroot.
  rewrite E in Hnd, Hf, Hk. rewrite fmap_app in Hnd, Hk. apply NoDup_app in Hnd as Hnd'.
  destruct Hnd' as (_ & Hdis & _). apply Forall_app in Hf as [_ HR].
  assert (Ha' : a ∉ S.*1 ++ R.*1) by (intros Hin; apply Ha; rewrite <- Hk; by apply elem_of_list_to_set).
  split.
  - split; rewrite ?Hnil; [split| | |done].
    + rewrite E', fmap_cons, fmap_app, Ek. by apply NoDup_cons.
    + rewrite E'. constructor; [done|]. apply Forall_app. split; [done|]. rewrite Forall_forall in *.
      intros e He. assert (HeR : e.1 ∈ R.*1) by (by apply list_elem_of_fmap_2).
      rewrite Hout; [by apply HR| |].
      * intros Heq. apply Ha', elem_of_app. right. by rewrite <- Heq.
      * intros He'. by apply (Hdis _ He').
    + rewrite E', fmap_cons, fmap_app, Ek, list_to_set_cons. by rewrite Hk.
    + set_solver.
  - split; [done|done|]. intros y Hy. apply Hout; [set_solver|]. intros Hy'. apply Hy.
    apply elem_of_union_r. rewrite <- Hk. apply elem_of_list_to_set, elem_of_app. by left.
Qed.

Lemma attach_spec K s c a n0 v par : zrepr K s Leaf c → path_ok v c →
  a ∉ K → a ≠ black_nil s → nodes s !! a = Some n0 → par = ctx_parent (black_nil s) c → ∃ s',
  (s ← put_parent s a par;
   s ← (if bool_decide (par = black_nil s) then Done (with_root s a)
        else
          ps ← value_of s par;
          if bool_decide (v < ps) then put_left s par a else put_right s par a);
   s ← put_left s a (black_nil s);
   s ← put_right s a (black_nil s);
   put_color s a Red) = Done s'
  ∧ zrepr ({[a]} ∪ K) s' (Br Leaf a (set_color (header n0) Red) Leaf) c ∧ same ({[a]} ∪ K) s s'.
Proof.
  intros Hz Hp Ha Hanil Hla ->.
  assert (E : znodes (black_nil s) Leaf c ≡ₚ chead (black_nil s) c (black_nil s) ++ crest (black_nil s) c).
  { unfold znodes. simpl. by rewrite cnodes_split. }
  assert (E' : znodes (black_nil s) (Br Leaf a (set_color (header n0) Red) Leaf) c ≡ₚ
    (a, {| header := set_color (header n0) Red; parent := ctx_parent (black_nil s) c;
           left := black_nil s; right := black_nil s |})
    :: chead (black_nil s) c a ++ crest (black_nil s) c).
  { unfold znodes. simpl. by rewrite cnodes_split. }
  assert (Hkey : ∀ f c1, c = f :: c1 → a ≠ f_addr f).
  { intros f c1 -> ->. apply Ha. rewrite <- (z_keys _ _ _ _ Hz). unfold znodes. destruct f; simpl; set_solver. }
  destruct c as [|[p ph q|q p ph] c]; [|specialize (Hkey _ _ eq_refl); inversion_clear Hp..];
    known_entries Hz E; simpl in Hkey;
    unfold value_of, put_color; unfold_ops; run_mem; (eexists; split; [reflexivity|]);
    eapply (zrepr_add _ _ _ _ _ _ _ _ _ _ _ _ Hz E E');
    cbn [thead trest chead crest fnode f_addr f_sib app fmap list_fmap fst snd ctx_parent];
    try done;
    try (rewrite ?Forall_cons, ?Forall_nil; cbn [fst snd nodes with_nodes with_root addr ctx_parent]; split_and?;
      repeat first [rewrite lookup_insert_eq | rewrite lookup_insert_ne by congruence]; done);
    try (intros y Hya Hy; rewrite ?not_elem_of_cons in Hy; destruct_and? Hy;
      cbn [nodes with_nodes with_root]; rewrite ?lookup_insert_ne by congruence; done);
    try (cbn [root with_nodes with_root]; rewrite (z_root _ _ _ _ Hz); apply plug_addr_cons).
Qed.

(** ** The order *)

Definition value_le (a b : Z * Z) : Prop := a.2 ≤ b.2.
(** The nodes before and after the focus. *)
Fixpoint pre (c : list frame) : list (Z * Z) :=
  match c with
  | [] => []
  | FL _ _ _ :: c => pre c
  | FR l a h :: c => pre c ++ inorder l ++ [(a, value h)]
  end.
Fixpoint post (c : list frame) : list (Z * Z) :=
  match c with
  | [] => []
  | FL a h r :: c => (a, value h) :: inorder r ++ post c
  | FR _ _ _ :: c => post c
  end.
Lemma cin_split c L : cin c L = pre c ++ L ++ post c.
Proof.
  revert L. induction c as [|[a h r|l a h] c IH]; intros L; simpl; [by rewrite app_nil_r|..];
    rewrite IH; unfold cons_node; by rewrite <- ?app_assoc.
Qed.

Lemma StronglySorted_app_iff {A} (R : relation A) l1 l2 : StronglySorted R (l1 ++ l2) ↔
  StronglySorted R l1 ∧ StronglySorted R l2 ∧ ∀ x y, x ∈ l1 → y ∈ l2 → R x y.
Proof.
  induction l1 as [|x l1 IH]; simpl.
  - split; [intros ?; split_and!; [constructor|done|by intros ?? ?%elem_of_nil]|naive_solver].
  - split.
    + inversion_clear 1 as [|?? Hs Hf]. apply IH in Hs as (H1 & H2 & H3).
      apply Forall_app in Hf as [Hf1 Hf2]. rewrite Forall_forall in Hf2.
      split_and!; [by constructor|done|]. intros y z [->|Hy]%elem_of_cons Hz; auto.
    + intros (H1 & H2 & H3). inversion_clear H1 as [|?? Hs Hf]. constructor.
      * apply IH. split_and!; [done|done|]. intros y z Hy. apply H3. by right.
      * apply Forall_app. split; [done|]. apply Forall_forall. intros y Hy. apply H3; [by left|done].
Qed.

Lemma path_bounds v c : path_ok v c → StronglySorted value_le (pre c ++ post c) →
  Forall (λ e, e.2 ≤ v) (pre c) ∧ Forall (λ e, v ≤ e.2) (post c).
Proof.
  induction c as [|[a h r|l a h] c IH]; intros Hp Hs; simpl in *; [by split|..];
    inversion_clear Hp as [|?? Hv Hp'].
  - rewrite cons_middle, app_assoc in Hs. rewrite !StronglySorted_app_iff in Hs.
    destruct Hs as ((H1 & _ & _) & (H3 & H4 & H5) & H6).
    destruct IH as [IH1 IH2]; [done| |].
    { apply StronglySorted_app_iff. split_and!; [done|done|]. intros x y Hx Hy. apply H6; set_solver. }
    split; [done|]. constructor; [simpl; lia|]. apply Forall_app. split; [|done].
    apply Forall_forall. intros e He. assert (value_le (a, value h) e) by (apply H6; set_solver).
    unfold value_le in *. simpl in *. lia.
  - rewrite !StronglySorted_app_iff in Hs.
    destruct Hs as ((H1 & (H2 & _ & H4) & H5) & H6 & H7).
    destruct IH as [IH1 IH2]; [done| |].
    { apply StronglySorted_app_iff. split_and!; [done|done|]. intros x y Hx Hy. apply H7; set_solver. }
    split; [|done]. rewrite !Forall_app. split_and!; [done| |constructor; [done|constructor]].
    apply Forall_forall. intros e He. assert (value_le e (a, value h)) by (apply H4; set_solver).
    unfold value_le in *. simpl in *. lia.
Qed.

Lemma insert_sorted_path v c a : path_ok v c → StronglySorted value_le (cin c []) →
  StronglySorted value_le (cin c [(a, v)]).
Proof.
  rewrite !cin_split. simpl. intros Hp Hs. destruct (path_bounds v c Hp Hs) as [H1 H2].
  apply StronglySorted_app_iff in Hs as (Hs1 & Hs2 & Hs3).
  rewrite Forall_forall in H1, H2. apply StronglySorted_app_iff. split_and!; [done| |].
  - constructor; [done|]. apply Forall_forall. intros e He. apply (H2 e He).
  - intros x y Hx [->|Hy]%elem_of_cons; [by apply H1|by apply Hs3].
Qed.

(** ** Balance *)

Lemma rb_height t n : rb t n → (height t ≤ 2 * n + match tcolor t with Red => 1 | Black => 0 end)%nat
  ∧ (2 ^ n ≤ S (length (inorder t)))%nat.
Proof.
  induction 1 as [|l a h r n Hc Hl Hr _ [IH1 IH2] _ [IH3 IH4]|l a h r n Hc _ [IH1 IH2] _ [IH3 IH4]];
    simpl; rewrite ?Hc, ?length_app; simpl; [lia|rewrite ?Hl, ?Hr in *; lia|].
  destruct (tcolor l), (tcolor r); lia.
Qed.
Lemma rb_height_log t n : rb t n → tcolor t = Black →
  (height t ≤ 2 * Nat.log2 (S (length (inorder t))))%nat.
Proof.
  intros Hrb Hb. destruct (rb_height t n Hrb) as [H1 H2]. rewrite Hb in H1.
  apply Nat.log2_le_mono in H2. rewrite Nat.log2_pow2 in H2 by lia. lia.
Qed.

(** ** The operation *)

(** The state is a red-black search tree of nodes: the links are those of the
    tree [t], whose addresses are [K]. *)
Record rbtree (K : gset Z) s (t : tree) : Prop := {
  rbt_z : zrepr K s t [];
  rbt_sent : black_sentinel s;
  rbt_root : tcolor t = Black;
  rbt_rb : ∃ n, rb t n;
  rbt_sorted : StronglySorted value_le (inorder t)
}.

Lemma ctx_ok_unplug c : ∀ t m, rb (plug t c) m → tcolor (plug t c) = Black → ∃ n,
  rb t n ∧ ctx_ok c n ∧ (tcolor t = Black ∨ match c with f :: _ => get_color (f_hdr f) = Black | [] => False end).
Proof.
  induction c as [|f c IH]; intros t m Hrb Hb; simpl in *; [eauto|].
  destruct (IH _ _ Hrb Hb) as (n & Hcl & Hok & Hcol).
  destruct f as [a h r|l a h]; simpl in *;
    inversion Hcl as [|????? Hh H1 H2 H3 H4|????? Hh H3 H4]; subst; eexists; rewrite Hh; simpl;
    [destruct Hcol as [|Hcol]; [congruence|]; destruct c as [|f2 c]; [done|]; by eauto 10
    |by eauto
    |destruct Hcol as [|Hcol]; [congruence|]; destruct c as [|f2 c]; [done|]; by eauto 10
    |by eauto].
Qed.

Lemma blacken_root K s s' L : black_sentinel s → black_nil s ∉ K → fixed K s s' L →
  StronglySorted value_le L → ∃ s'' t,
  put_color s' (root s') Black = Done s'' ∧ rbtree K s'' t ∧ inorder t = L ∧ same K s s''.
Proof using NodePayloadLaws0.
  intros Hsent Hn [Hs (t & Hz & <- & Hne & m & Hrb)] HL. destruct t as [|l a h r]; [done|].
  rewrite (z_root _ _ _ _ Hz). simpl.
  destruct (put_color_spec _ _ _ _ _ _ _ Black Hz) as (s'' & E & Hz' & Hs'').
  assert (Hss : same K s s'') by (by etrans).
  exists s'', (Br l a (set_color h Black) r). split; [done|].
  split; [split; [done|by eapply sentinel_same|apply get_set_color| |]|split; [solve_inorder|done]].
  - inversion Hrb; subst; eexists; by apply rb_blacken.
  - replace (inorder _) with (inorder (Br l a h r)) by (symmetry; solve_inorder). done.
Qed.

(** An insertion keeps the tree. *)
Lemma insert_node_spec fuel K s t a n0 : rbtree K s t → a ∉ K → a ≠ black_nil s →
  nodes s !! a = Some n0 → (2 * Nat.log2 (S (length (inorder t))) < fuel)%nat → ∃ s' t',
  insert_node fuel s a = Done s' ∧ rbtree ({[a]} ∪ K) s' t'
  ∧ inorder t' ≡ₚ (a, value (header n0)) :: inorder t
  ∧ count s' = u64 (count s + 1) ∧ black_nil s' = black_nil s
  ∧ ∀ y, y ∉ {[a]} ∪ K → nodes s' !! y = nodes s !! y.
Proof.
  intros [Hz Hsent Hb (m & Hrb) Hsorted] Ha Hanil Hla Hfuel.
  pose proof (rb_height_log _ _ Hrb Hb) as Hh.
  set (v := value (header n0)).
  assert (Hv : value_of s a = Done v) by (unfold value_of, get_node; by rewrite Hla).
  unfold insert_node. rewrite Hv. cbn [mbind outcome_bind].
  destruct (insert_walk_spec fuel K s t [] v Hz) as (c & Ew & Hzc & Hp & Hplug & Hlen); [constructor|lia|].
  rewrite (z_root _ _ _ _ Hz). simpl in Ew. simpl plug. rewrite Ew. cbn [mbind outcome_bind].
  destruct (attach_spec K s c a n0 v _ Hzc Hp Ha Hanil Hla eq_refl) as (s1 & Ea & Hz1 & Hs1).
  assert (Hn' : black_nil s ∉ {[a]} ∪ K) by (pose proof (z_nil _ _ _ _ Hz); set_solver).
  assert (Hsent1 : black_sentinel s1) by (by eapply sentinel_same).
  simpl in Hplug. destruct (ctx_ok_unplug c Leaf m) as (n & Hn & Hctx & _); [by rewrite Hplug..|].
  destruct (fix_insert_loop_spec fuel ({[a]} ∪ K) c s1 Leaf a (set_color (header n0) Red) Leaf n)
    as (s2 & Ef & Hfixed).
  { split; [done|done|apply get_set_color|by apply rb_red; [apply get_set_color|..]|done]. }
  { simpl in Hlen. lia. }
  assert (Hin : cin c (inorder (Br Leaf a (set_color (header n0) Red) Leaf)) = cin c [(a, v)]).
  { simpl. by rewrite cons_set_color. }
  rewrite Hin in Hfixed.
  destruct (blacken_root _ s1 s2 _ Hsent1 ltac:(by rewrite (same_nil _ _ _ Hs1)) Hfixed) as (s3 & t' & Er & Hrbt & Hio & Hs3).
  { apply insert_sorted_path; [done|]. change [] with (inorder Leaf). rewrite <- inorder_plug, Hplug. done. }
  exists (with_count s3 (u64 (count s3 + 1))), t'.
  assert (Hss : same ({[a]} ∪ K) s s3) by (by etrans).
  split; [|split; [|split_and!]].
  - inv_done. unfold fix_insert_rb_violation. run_steps. done.
  - destruct Hrbt as [[????] ????]. constructor; [by constructor|done..].
  - rewrite Hio, cin_split, Permutation_app_comm. simpl. rewrite Permutation_app_comm. 
    rewrite <- Hplug, inorder_plug, cin_split. simpl. by rewrite Permutation_middle.
  - simpl. by rewrite (same_count _ _ _ Hss).
  - apply Hss.
  - intros y Hy. by apply (same_nodes _ _ _ Hss).
Qed.

(** C10: insertion into the red-black tree of the kernel heap.  From a state whose
    links form a red-black search tree, [insert_node] of a node that is not in it
    returns, within a number of steps logarithmic in the size of the tree, in a
    state whose links form a red-black search tree again, with exactly one node
    more; the rest of the memory, the sentinel included, is unchanged. *)
Theorem insert_node_correct fuel K s t a n0 : rbtree K s t → a ∉ K → a ≠ black_nil s →
  nodes s !! a = Some n0 → (2 * Nat.log2 (S (length (inorder t))) < fuel)%nat → ∃ s' t',
  insert_node fuel s a = Done s' ∧ rbtree ({[a]} ∪ K) s' t'
  ∧ inorder t' ≡ₚ (a, value (header n0)) :: inorder t
  ∧ count s' = u64 (count s + 1) ∧ black_nil s' = black_nil s
  ∧ ∀ y, y ∉ {[a]} ∪ K → nodes s' !! y = nodes s !! y.
Proof. apply insert_node_spec. Qed.

(** The tree [new_raw] makes has one node. *)
Lemma new_raw_rbtree root_addr nil_addr m : root_addr ≠ nil_addr → get_color (payload_NULL : P) = Black →
  rbtree {[root_addr]} (new_raw root_addr nil_addr m) (Br Leaf root_addr payload_NULL Leaf).
Proof.
  intros Hne Hb. split; try done.
  - split; simpl; try done; [|set_solver..]. split; [apply NoDup_singleton|]. constructor; [|constructor]. simpl.
    by rewrite lookup_insert_ne, lookup_insert_eq by done.
  - eexists. split; [apply lookup_insert_eq|done].
  - exists 1%nat. by repeat constructor.
  - by repeat constructor.
Qed.
End insertion.

Definition new_raw_sample : RbTree AllocHeader := new_raw 100 200 {[300 := new_isolated_with_value 64]}.
Lemma insert_node_correct_witness : ∃ s' t', insert_node 3 new_raw_sample 300 = Done s' ∧ rbtree {[300; 100]} s' t'
  ∧ inorder t' ≡ₚ [(300, 64); (100, 0)].
Proof.
  assert (H0 : rbtree {[100]} new_raw_sample (Br Leaf 100 payload_NULL Leaf)) by (by apply new_raw_rbtree).
  assert (H1 : 300 ∉ ({[100]} : gset Z)) by set_solver. assert (H2 : 300 ≠ black_nil new_raw_sample) by done.
  assert (H3 : nodes new_raw_sample !! 300 = Some (new_isolated_with_value 64)) by reflexivity.
  assert (H4 : (2 * Nat.log2 (S (length (inorder (Br Leaf 100 (payload_NULL : AllocHeader) Leaf)))) < 3)%nat) by (simpl; lia).
  destruct (insert_node_correct 3 {[100]} new_raw_sample (Br Leaf 100 payload_NULL Leaf) 300 _ H0 H1 H2 H3 H4)
    as (s' & t' & E & Hr & Hi & _).
  exists s', t'. split; [exact E|]. split; [exact Hr|exact Hi].
Defined.
