(* ===== verification/RbRemove.v ===== *)
(** Removal from the red-black tree of the kernel heap (src/mem/vmalloc/rbtree.rs):
    [remove_node], [fix_remove_rb_violation] and [find_best_node_fit]. *)

From stdpp Require Import sorting.
From S2P Require Import Prelude AllocHeader RbTree.

(** * Operations *)

Section remove.
Context {P : Type} `{NodePayload P}.
Implicit Types s : RbTree P.

(** [swap_nodes]: the second node takes the place of the first below the parent. *)
Definition swap_nodes (s : RbTree P) (node_to_remove replacement_node : Z) : outcome (RbTree P) :=
  p ← get_parent s node_to_remove;
  s ← (if bool_decide (p = black_nil s) then Done (with_root s replacement_node)
       else
         pl ← get_left s p;
         if bool_decide (node_to_remove = pl) then put_left s p replacement_node
         else put_right s p replacement_node);
  p ← get_parent s node_to_remove;
  put_parent s replacement_node p.

Fixpoint get_subtree_min (fuel : nat) (s : RbTree P) (subtree_root : Z) : outcome Z :=
  match fuel with
  | O => NoFuel
  | S fuel =>
      l ← get_left s subtree_root;
      if bool_decide (l ≠ black_nil s) then get_subtree_min fuel s l else Done subtree_root
  end.

(** The two branches of the loop of [fix_remove_rb_violation] are mirror images:
    the side is that of the node that carries the extra black. *)
Inductive side := OnLeft | OnRight.
Definition get_near (d : side) (s : RbTree P) (x : Z) : outcome Z :=
  match d with OnLeft => get_left s x | OnRight => get_right s x end.
Definition get_far (d : side) (s : RbTree P) (x : Z) : outcome Z :=
  match d with OnLeft => get_right s x | OnRight => get_left s x end.
Definition rotate (d : side) (s : RbTree P) (x : Z) : outcome (RbTree P) :=
  match d with OnLeft => left_rotate s x | OnRight => right_rotate s x end.
Definition rotate_back (d : side) (s : RbTree P) (x : Z) : outcome (RbTree P) :=
  match d with OnLeft => right_rotate s x | OnRight => left_rotate s x end.

(** The first test of a branch: a red sibling is rotated above the parent. *)
Definition red_sibling (d : side) (s : RbTree P) (x : Z) : outcome (Z * RbTree P) :=
  p ← get_parent s x;
  sibling ← get_far d s p;
  c ← color_of s sibling;
  match c with
  | Black => Done (sibling, s)
  | Red =>
      s ← put_color s sibling Black;
      p ← get_parent s x;
      s ← put_color s p Red;
      p ← get_parent s x;
      s ← rotate d s p;
      p ← get_parent s x;
      sibling ← get_far d s p;
      Done (sibling, s)
  end.
(** The end of a branch: the sibling, whose far child is red, is rotated above
    the parent and takes its colour. *)
Definition last_rotation (d : side) (s : RbTree P) (x sibling : Z) : outcome (RbTree P) :=
  p ← get_parent s x;
  cp ← color_of s p;
  s ← put_color s sibling cp;
  p ← get_parent s x;
  s ← put_color s p Black;
  far ← get_far d s sibling;
  s ← put_color s far Black;
  p ← get_parent s x;
  rotate d s p.
(** The part of a branch for a sibling with a red child. *)
Definition red_nephew (d : side) (s : RbTree P) (x sibling : Z) : outcome (RbTree P) :=
  far ← get_far d s sibling;
  cf ← color_of s far;
  '(sibling, s) ← match cf with
    | Red => Done (sibling, s)
    | Black =>
        near ← get_near d s sibling;
        s ← put_color s near Black;
        s ← put_color s sibling Red;
        s ← rotate_back d s sibling;
        p ← get_parent s x;
        sibling ← get_far d s p;
        Done (sibling, s)
    end;
  last_rotation d s x sibling.

(** [fix_remove_rb_violation]: the loop, and the recolouring after it. *)
Fixpoint fix_remove_rb_violation (fuel : nat) (s : RbTree P) (x : Z) : outcome (RbTree P) :=
  match fuel with
  | O => NoFuel
  | S fuel =>
      continues ← (if bool_decide (x ≠ root s)
                   then c ← color_of s x; Done (bool_decide (c = Black)) else Done false);
      if (continues : bool) then
        p ← get_parent s x;
        pl ← get_left s p;
        let d := if bool_decide (x = pl) then OnLeft else OnRight in
        '(sibling, s) ← red_sibling d s x;
        l ← get_left s sibling;
        cl ← color_of s l;
        r ← get_right s sibling;
        cr ← color_of s r;
        match cl, cr with
        | Black, Black =>
            s ← put_color s sibling Red;
            p ← get_parent s x;
            fix_remove_rb_violation fuel s p
        | _, _ =>
            s ← red_nephew d s x sibling;
            fix_remove_rb_violation fuel s (root s)
        end
      else put_color s x Black
  end.

(** The part of [remove_node] for a node with two children: its successor takes
    its place; the result is the colour that is lost and the node below it. *)
Definition take_place (s : RbTree P) (a right_min : Z) : outcome (RbTree P) :=
  s ← swap_nodes s a right_min;
  l ← get_left s a;
  s ← put_left s right_min l;
  l ← get_left s right_min;
  s ← put_parent s l right_min;
  c ← color_of s a;
  put_color s right_min c.
Definition take_successor (fuel : nat) (s : RbTree P) (a : Z) : outcome (NodeColor * Z * RbTree P) :=
  r ← get_right s a;
  right_min ← get_subtree_min fuel s r;
  color_check ← color_of s right_min;
  extra_black ← get_right s right_min;
  r ← get_right s a;
  s ← (if bool_decide (right_min ≠ r) then
         rr ← get_right s right_min;
         s ← swap_nodes s right_min rr;
         r ← get_right s a;
         s ← put_right s right_min r;
         rr ← get_right s right_min;
         put_parent s rr right_min
       else put_parent s extra_black right_min);
  s ← take_place s a right_min;
  Done (color_check, extra_black, s).

(** The first part of [remove_node]: the node is unlinked. *)
Definition take_out (fuel : nat) (s : RbTree P) (a : Z) : outcome (NodeColor * Z * RbTree P) :=
  color_check ← color_of s a;
  l ← get_left s a;
  r ← get_right s a;
  if bool_decide (l = black_nil s) then
    s ← swap_nodes s a r; Done (color_check, r, s)
  else if bool_decide (r = black_nil s) then
    s ← swap_nodes s a l; Done (color_check, l, s)
  else take_successor fuel s a.
Definition remove_node (fuel : nat) (s : RbTree P) (node_to_remove : Z) : outcome (Z * RbTree P) :=
  '(color_check, extra_black, s) ← take_out fuel s node_to_remove;
  s ← match color_check with
      | Black => fix_remove_rb_violation fuel s extra_black
      | Red => Done s
      end;
  Done (node_to_remove, with_count s (u64 (count s - 1))).

(** [find_best_node_fit]: the loop, then the test of what it found. *)
Fixpoint fit_loop (fuel : nat) (s : RbTree P) (value walker closest_size_match to_remove : Z) :
    outcome (Z * Z) :=
  match fuel with
  | O => NoFuel
  | S fuel =>
      if bool_decide (walker ≠ black_nil s) then
        walker_size ← value_of s walker;
        if bool_decide (value = walker_size) then Done (walker_size, walker)
        else if bool_decide (value < walker_size) then
          next ← get_left s walker;
          (if bool_decide (walker_size < closest_size_match)
           then fit_loop fuel s value next walker_size walker
           else fit_loop fuel s value next closest_size_match to_remove)
        else
          next ← get_right s walker;
          fit_loop fuel s value next closest_size_match to_remove
      else Done (closest_size_match, to_remove)
  end.
Definition find_best_node_fit (fuel : nat) (s : RbTree P) (value : Z) : outcome (option Z * RbTree P) :=
  if bool_decide (root s = black_nil s) then Done (None, s)
  else
    '(closest_size_match, to_remove) ← fit_loop fuel s value (root s) u64_max (root s);
    if bool_decide (closest_size_match < value) || bool_decide (closest_size_match = u64_max)
    then Done (None, s)
    else
      '(n, s) ← remove_node fuel s to_remove;
      Done (Some n, s).
End remove.

(** * The state during a removal *)

Section shape.
Context {P : Type} `{NodePayload P} `{!NodePayloadLaws P}.
Implicit Types s : RbTree P.
Notation tree := (@RbTree.tree P).
Notation frame := (@RbTree.frame P).

(** What a removal leaves alone: the memory outside [K] and the sentinel. *)
Record kept (K : gset Z) s s' : Prop := {
  kept_nil : black_nil s' = black_nil s;
  kept_count : count s' = count s;
  kept_nodes : ∀ y, y ∉ K → y ≠ black_nil s → nodes s' !! y = nodes s !! y
}.
#[global] Instance kept_preorder K : PreOrder (kept K).
Proof.
  split; [by constructor|]. intros s1 s2 s3 [E1 C1 H1] [E2 C2 H2]. constructor; [congruence..|].
  intros y Hy Hn. rewrite H2 by congruence. auto.
Qed.
Lemma same_kept K s s' : same K s s' → kept K s s'.
Proof. intros []. constructor; auto. Qed.
Lemma kept_mono K K' s s' : K ⊆ K' → kept K s s' → kept K' s s'.
Proof. intros HK []. constructor; [done..|]. intros y Hy. apply kept_nodes0. set_solver. Qed.

(** An operation that drops the node [a] and changes the entries [S] into [S']. *)
Lemma zrepr_drop K s a na S R t' c' S' s' : own (nodes s) ((a, na) :: S ++ R) →
  list_to_set ((a, na) :: S ++ R).*1 = K → black_nil s ∉ K →
  znodes (black_nil s) t' c' ≡ₚ S' ++ R → S'.*1 ≡ₚ S.*1 →
  Forall (λ e, nodes s' !! e.1 = Some e.2) S' →
  (∀ y, y ∉ S.*1 → y ≠ black_nil s → nodes s' !! y = nodes s !! y) →
  black_nil s' = black_nil s → count s' = count s → root s' = addr (black_nil s) (plug t' c') →
  zrepr (K ∖ {[a]}) s' t' c' ∧ kept (K ∖ {[a]}) s s'.
Proof.
  intros [Hnd Hf] Hk Hn E' Ek HS Hout Hnil Hc Hroot. rewrite fmap_cons, fmap_app in Hnd, Hk. simpl in Hnd, Hk.
  apply NoDup_cons in Hnd as [Ha Hnd]. apply NoDup_app in Hnd as Hnd'. destruct Hnd' as (_ & Hdis & _).
  apply Forall_cons in Hf as [_ Hf]. apply Forall_app in Hf as [_ HR].
  assert (HK : (list_to_set (S.*1 ++ R.*1) : gset Z) = K ∖ {[a]}).
  { rewrite <- Hk. apply set_eq. intros y. set_unfold. naive_solver. }
  split; [split; rewrite ?Hnil; [split| | |done]|split; [done|done|]].
  - by rewrite E', fmap_app, Ek.
  - rewrite E'. apply Forall_app. split; [done|]. rewrite Forall_forall in *. intros e He.
    assert (HeR : e.1 ∈ R.*1) by (by apply list_elem_of_fmap_2). rewrite Hout; [by apply HR|..].
    + intros HeS. by apply (Hdis _ HeS).
    + intros Heq. apply Hn. rewrite <- Heq, <- Hk. set_solver.
  - by rewrite E', fmap_app, Ek.
  - set_solver.
  - intros y Hy Hyn. apply Hout; [|done]. intros HyS. apply Hy. rewrite <- HK. set_solver.
Qed.

(** ** Sides *)

Definition mk (d : side) (t : tree) (a : Z) (h : P) (u : tree) : tree :=
  match d with OnLeft => Br t a h u | OnRight => Br u a h t end.
Definition fr (d : side) (a : Z) (h : P) (u : tree) : frame :=
  match d with OnLeft => FL a h u | OnRight => FR u a h end.

Lemma close_fr d a h t u : close (fr d a h u) t = mk d t a h u.
Proof. by destruct d. Qed.
Lemma zrepr_fr K s d t a h u c : zrepr K s t (fr d a h u :: c) ↔ zrepr K s (mk d t a h u) c.
Proof. by rewrite zrepr_close, close_fr. Qed.
(** The same node, seen from its other child. *)
Definition opp (d : side) : side := match d with OnLeft => OnRight | OnRight => OnLeft end.
Lemma mk_opp d t a h u : mk d t a h u = mk (opp d) u a h t.
Proof. by destruct d. Qed.
Lemma zrepr_far K s d t a h u c : zrepr K s t (fr d a h u :: c) ↔ zrepr K s u (fr (opp d) a h t :: c).
Proof. by rewrite !zrepr_fr, mk_opp. Qed.

Lemma get_near_z K s d t a h u c : zrepr K s (mk d t a h u) c → get_near d s a = Done (addr (black_nil s) t).
Proof. destruct d; [apply get_left_z|apply get_right_z]. Qed.
Lemma get_far_z K s d t a h u c : zrepr K s (mk d t a h u) c → get_far d s a = Done (addr (black_nil s) u).
Proof. destruct d; [apply get_right_z|apply get_left_z]. Qed.
Lemma get_parent_mk K s d t a h u c : zrepr K s (mk d t a h u) c → get_parent s a = Done (ctx_parent (black_nil s) c).
Proof. destruct d; apply get_parent_z. Qed.
Lemma color_mk K s d t a h u c : zrepr K s (mk d t a h u) c → color_of s a = Done (get_color h).
Proof. unfold color_of. destruct d; intros Hz; by rewrite (z_get _ _ _ _ _ _ _ Hz). Qed.
Lemma put_color_mk K s d t a h u c col : zrepr K s (mk d t a h u) c → ∃ s',
  put_color s a col = Done s' ∧ zrepr K s' (mk d t a (set_color h col) u) c ∧ same K s s'.
Proof. destruct d; apply put_color_spec. Qed.
Lemma rotate_spec K s d l a h bl b bh br c : zrepr K s (mk d l a h (mk d bl b bh br)) c → ∃ s',
  rotate d s a = Done s' ∧ zrepr K s' (mk d (mk d l a h bl) b bh br) c ∧ same K s s'.
Proof. destruct d; [apply left_rotate_spec|apply right_rotate_spec]. Qed.
Lemma rotate_back_spec K s d bl b bh br a h r c : zrepr K s (mk d (mk d bl b bh br) a h r) c → ∃ s',
  rotate_back d s a = Done s' ∧ zrepr K s' (mk d bl b bh (mk d br a h r)) c ∧ same K s s'.
Proof. destruct d; [apply right_rotate_spec|apply left_rotate_spec]. Qed.

Lemma ctx_ok_fr d a h u c n : ctx_ok (fr d a h u :: c) n ↔
  rb u n ∧ match get_color h with
    | Red => tcolor u = Black ∧ ctx_ok c n ∧ match c with [] => False | f :: _ => get_color (f_hdr f) = Black end
    | Black => ctx_ok c (S n)
    end.
Proof. by destruct d. Qed.
Lemma rb_mk_black d t a h u n : get_color h = Black → rb t n → rb u n → rb (mk d t a h u) (S n).
Proof. destruct d; by constructor. Qed.
Lemma rb_mk_red d t a h u n : get_color h = Red → tcolor t = Black → tcolor u = Black → rb t n → rb u n →
  rb (mk d t a h u) n.
Proof. destruct d; by constructor. Qed.
Lemma tcolor_mk d t a h u : tcolor (mk d t a h u) = get_color h.
Proof. by destruct d. Qed.
Lemma addr_mk nil d t a h u : addr nil (mk d t a h u) = a.
Proof. by destruct d. Qed.
Lemma rb_S_mk d u n : rb u (S n) → ∃ l a h r, u = mk d l a h r.
Proof. destruct u as [|l a h r]; [inversion 1|]. intros _. destruct d; [by exists l, a, h, r|by exists r, a, h, l]. Qed.
Lemma rb_mk_inv d t a h u n : rb (mk d t a h u) n →
  match get_color h with
  | Red => rb t n ∧ rb u n ∧ tcolor t = Black ∧ tcolor u = Black
  | Black => ∃ m, n = S m ∧ rb t m ∧ rb u m
  end.
Proof. destruct d; inversion 1 as [|????? E|????? E]; subst; rewrite E; eauto. Qed.
Lemma red_mk d u : tcolor u = Red → ∃ l a h r, u = mk d l a h r ∧ get_color h = Red.
Proof.
  destruct u as [|l a h r]; [done|]. simpl. intros E.
  destruct d; [by exists l, a, h, r|by exists r, a, h, l].
Qed.

(** ** The loop *)

Definition blacken (t : tree) : tree :=
  match t with Leaf => Leaf | Br l a h r => Br l a (set_color h Black) r end.
(** The state of the loop of [fix_remove_rb_violation]: every path through the
    focus, whose own colour does not count when it is red, lacks a black node. *)
Record remove_inv (K : gset Z) s (t : tree) (c : list frame) (n : nat) : Prop := {
  rm_z : zrepr K s t c;
  rm_sent : black_sentinel s;
  rm_parent : get_parent s (addr (black_nil s) t) = Done (ctx_parent (black_nil s) c);
  rm_rb : match tcolor t with Black => rb t n | Red => rb (blacken t) (S n) end;
  rm_ctx : ctx_ok c (S n)
}.
Definition removed (K : gset Z) s s' (L : list (Z * Z)) : Prop :=
  kept K s s' ∧ black_sentinel s' ∧ ∃ t, zrepr K s' t [] ∧ inorder t = L ∧ tcolor t = Black ∧ ∃ m, rb t m.

Lemma removed_trans K s s1 s' L : kept K s s1 → removed K s1 s' L → removed K s s' L.
Proof. intros Hs [Hs' Ht]. split; [by etrans|done]. Qed.

Lemma plug_app (t : tree) c1 c2 : plug t (c1 ++ c2) = plug (plug t c1) c2.
Proof. revert t. induction c1 as [|f c1 IH]; intros t; simpl; [done|by rewrite IH]. Qed.
Lemma plug_black c n : ctx_ok c n → ∀ t : tree, tcolor t = Black ∨ c ≠ [] → tcolor (plug t c) = Black.
Proof.
  revert n. induction c as [|f c IH]; intros n Hc t Ht; simpl; [by destruct Ht|].
  simpl in Hc. destruct Hc as [_ Hc]. destruct (get_color (f_hdr f)) eqn:Ef.
  - apply (IH (S n) Hc). left. by destruct f.
  - destruct Hc as (_ & Hc & Hne). apply (IH n Hc). right. by destruct c.
Qed.

Lemma zrepr_sentinel K s t c n : zrepr K s t c → zrepr K (with_nodes s (<[black_nil s := n]> (nodes s))) t c.
Proof.
  intros [[Hnd Hf] Hk Hn Hr]. split; [split|..]; simpl; try done. rewrite Forall_forall in *. intros e He.
  rewrite lookup_insert_ne; [by apply Hf|]. intros Heq. apply Hn. rewrite Heq, <- Hk.
  by apply elem_of_list_to_set, list_elem_of_fmap_2.
Qed.

(** The node the loop ends on is made black. *)
Lemma remove_exit K s t c n : remove_inv K s t c n → c = [] ∨ tcolor t = Red → ∃ s',
  put_color s (addr (black_nil s) t) Black = Done s' ∧ removed K s s' (cin c (inorder t)).
Proof using NodePayloadLaws0.
  intros [Hz Hsent Hpar Hrb Hctx] Hex. destruct t as [|l a h r].
  - destruct Hex as [->|]; [|done]. destruct Hsent as (nn & Hl & Hb).
    unfold put_color, update, get_node. simpl. rewrite Hl. cbn [mbind outcome_bind deref].
    eexists. split; [done|]. split; [|split].
    + split; [done..|]. intros y _ Hy. by apply lookup_insert_ne.
    + eexists. split; [apply lookup_insert_eq|]. apply get_set_color.
    + exists Leaf. split_and!; [by apply zrepr_sentinel|done|done|exists 0%nat; constructor].
  - destruct (put_color_spec _ _ _ _ _ _ _ Black Hz) as (s' & E & Hz' & Hs).
    exists s'. split; [done|]. split; [by apply same_kept|].
    split; [eapply sentinel_same; [apply Hz|done..]|].
    exists (plug (Br l a (set_color h Black) r) c). split_and!.
    + by apply zrepr_plug.
    + rewrite inorder_plug. simpl. by rewrite cons_set_color.
    + eapply plug_black; [done|left; apply get_set_color].
    + simpl in *. destruct Hex as [->|Hred].
      * simpl. destruct (get_color h); [|by eauto]. inversion Hrb; subst; eexists; by apply rb_blacken.
      * rewrite Hred in Hrb. apply (rb_plug _ _ (S n)); [done|done|left; apply get_set_color].
Qed.

Lemma parent_same K s s' t c c' : zrepr K s t c → zrepr K s' t c' → same K s s' →
  get_parent s (addr (black_nil s) t) = Done (ctx_parent (black_nil s) c) →
  ctx_parent (black_nil s) c = ctx_parent (black_nil s) c' →
  get_parent s' (addr (black_nil s') t) = Done (ctx_parent (black_nil s') c').
Proof.
  intros Hz Hz' [Hnil _ Hm] Hp Hc. destruct t as [|l a h r]; [|exact (get_parent_z _ _ _ _ _ _ _ Hz')].
  rewrite Hnil, <- Hc, <- Hp. simpl. unfold get_parent, get_node. by rewrite Hm by apply Hz.
Qed.

Lemma ctx_parent_fr nil d a h u c : ctx_parent nil (fr d a h u :: c) = a.
Proof. by destruct d. Qed.
Ltac solve_sides d := destruct d; cbn [fr mk]; solve_inorder.
Ltac same_trans := repeat first [done | etrans; [eassumption|]].
(** The focus [t], a child of [p]: its parent link is [p] even when [t] is the
    sentinel. *)
Record below (K : gset Z) s (nil : Z) (t : tree) (p : Z) (c : list frame) : Prop := {
  bl_z : zrepr K s t c;
  bl_nil : black_nil s = nil;
  bl_parent : get_parent s (addr nil t) = Done p
}.
Lemma below_step K s s' nil t d p ph u c ph' u' c' : below K s nil t p (fr d p ph u :: c) →
  zrepr K s' t (fr d p ph' u' :: c') → same K s s' → below K s' nil t p (fr d p ph' u' :: c').
Proof.
  intros [Hz <- Hp] Hz' Hs. split; [done|apply Hs|]. rewrite <- (same_nil _ _ _ Hs).
  rewrite (parent_same _ _ _ _ _ _ Hz Hz' Hs); [by rewrite ctx_parent_fr|by rewrite Hp, ctx_parent_fr|].
  by rewrite !ctx_parent_fr.
Qed.
Lemma below_inv K s t d p ph u c n : remove_inv K s t (fr d p ph u :: c) n →
  below K s (black_nil s) t p (fr d p ph u :: c).
Proof. intros [Hz _ Hp _ _]. rewrite ctx_parent_fr in Hp. by split. Qed.
Lemma opp_opp d : opp (opp d) = d.
Proof. by destruct d. Qed.

(** Recolourings of the parent, the sibling and the nephews of the focus. *)
Lemma color_parent K s nil d t p ph u c col : below K s nil t p (fr d p ph u :: c) → ∃ s',
  put_color s p col = Done s' ∧ below K s' nil t p (fr d p (set_color ph col) u :: c) ∧ same K s s'.
Proof.
  intros Hb. pose proof (bl_z _ _ _ _ _ _ Hb) as Hz%zrepr_fr.
  destruct (put_color_mk _ _ _ _ _ _ _ _ col Hz) as (s' & E & Hz'%zrepr_fr & Hs).
  eauto using below_step.
Qed.
Lemma zcolor_sib K s d e t p ph ql b bh qr c col : zrepr K s t (fr d p ph (mk e ql b bh qr) :: c) → ∃ s',
  put_color s b col = Done s' ∧ zrepr K s' t (fr d p ph (mk e ql b (set_color bh col) qr) :: c) ∧ same K s s'.
Proof.
  intros Hz%zrepr_far. destruct (put_color_mk _ _ _ _ _ _ _ _ col Hz) as (s' & E & Hz'%zrepr_far & Hs).
  rewrite ?opp_opp in Hz'. eauto.
Qed.
Lemma color_sib K s nil d t p ph ql b bh qr c col : below K s nil t p (fr d p ph (mk d ql b bh qr) :: c) → ∃ s',
  put_color s b col = Done s' ∧ below K s' nil t p (fr d p ph (mk d ql b (set_color bh col) qr) :: c) ∧ same K s s'.
Proof.
  intros Hb. destruct (zcolor_sib _ _ _ _ _ _ _ _ _ _ _ _ col (bl_z _ _ _ _ _ _ Hb)) as (s' & E & Hz' & Hs).
  eauto using below_step.
Qed.
Lemma color_far K s nil d t p ph ql b bh rl f fh rr c col :
  below K s nil t p (fr d p ph (mk d ql b bh (mk d rl f fh rr)) :: c) → ∃ s',
  put_color s f col = Done s'
  ∧ below K s' nil t p (fr d p ph (mk d ql b bh (mk d rl f (set_color fh col) rr)) :: c) ∧ same K s s'.
Proof.
  intros Hb. pose proof (bl_z _ _ _ _ _ _ Hb) as Hz%zrepr_far%zrepr_fr.
  destruct (zcolor_sib _ _ _ _ _ _ _ _ _ _ _ _ col Hz) as (s' & E & Hz' & Hs).
  apply zrepr_fr, zrepr_far in Hz'. rewrite ?opp_opp in Hz'. eauto using below_step.
Qed.
Lemma color_near K s nil d t p ph nl m mh nr b bh qr c col :
  below K s nil t p (fr d p ph (mk d (mk d nl m mh nr) b bh qr) :: c) → ∃ s',
  put_color s m col = Done s'
  ∧ below K s' nil t p (fr d p ph (mk d (mk d nl m (set_color mh col) nr) b bh qr) :: c) ∧ same K s s'.
Proof.
  intros Hb. pose proof (bl_z _ _ _ _ _ _ Hb) as Hz. rewrite mk_opp in Hz. apply zrepr_far, zrepr_fr in Hz.
  destruct (zcolor_sib _ _ _ _ _ _ _ _ _ _ _ _ col Hz) as (s' & E & Hz' & Hs).
  apply zrepr_fr, zrepr_far in Hz'. rewrite ?opp_opp, <- mk_opp in Hz'. eauto using below_step.
Qed.
(** The rotations at the parent and at the sibling. *)
Lemma rotate_parent K s nil d t p ph ql b bh qr c : below K s nil t p (fr d p ph (mk d ql b bh qr) :: c) → ∃ s',
  rotate d s p = Done s' ∧ below K s' nil t p (fr d p ph ql :: fr d b bh qr :: c) ∧ same K s s'.
Proof.
  intros Hb. pose proof (bl_z _ _ _ _ _ _ Hb) as Hz%zrepr_fr.
  destruct (rotate_spec _ _ _ _ _ _ _ _ _ _ _ Hz) as (s' & E & Hz'%zrepr_fr%zrepr_fr & Hs).
  eauto using below_step.
Qed.
Lemma rotate_sib K s nil d t p ph nl m mh nr b bh qr c :
  below K s nil t p (fr d p ph (mk d (mk d nl m mh nr) b bh qr) :: c) → ∃ s',
  rotate_back d s b = Done s'
  ∧ below K s' nil t p (fr d p ph (mk d nl m mh (mk d nr b bh qr)) :: c) ∧ same K s s'.
Proof.
  intros Hb. pose proof (bl_z _ _ _ _ _ _ Hb) as Hz%zrepr_far.
  destruct (rotate_back_spec _ _ _ _ _ _ _ _ _ _ _ Hz) as (s' & E & Hz'%zrepr_far & Hs).
  rewrite ?opp_opp in Hz'. eauto using below_step.
Qed.
(** Reads of the neighbours of the focus. *)
Lemma get_sib K s nil d t p ph u c : below K s nil t p (fr d p ph u :: c) → get_far d s p = Done (addr nil u).
Proof. intros [Hz%zrepr_fr <- _]. by apply get_far_z in Hz. Qed.
Lemma get_niece K s nil d t p ph ql b bh qr c : below K s nil t p (fr d p ph (mk d ql b bh qr) :: c) →
  get_far d s b = Done (addr nil qr) ∧ get_near d s b = Done (addr nil ql).
Proof. intros [Hz%zrepr_far <- _]. split; [by apply get_far_z in Hz|by apply get_near_z in Hz]. Qed.
Lemma color_neighbours K s nil d t p ph ql b bh qr c : below K s nil t p (fr d p ph (mk d ql b bh qr) :: c) →
  black_sentinel s →
  color_of s p = Done (get_color ph) ∧ color_of s b = Done (get_color bh)
  ∧ color_of s (addr nil ql) = Done (tcolor ql) ∧ color_of s (addr nil qr) = Done (tcolor qr).
Proof.
  intros [Hz <- _] Hs. pose proof (proj1 (zrepr_far _ _ _ _ _ _ _ _) Hz) as Hq. split_and!.
  - exact (color_mk _ _ _ _ _ _ _ _ (proj1 (zrepr_fr _ _ _ _ _ _ _ _) Hz)).
  - exact (color_mk _ _ _ _ _ _ _ _ Hq).
  - exact (color_z _ _ _ _ (proj2 (zrepr_fr _ _ _ _ _ _ _ _) Hq) Hs).
  - exact (color_z _ _ _ _ (proj1 (zrepr_far _ _ _ _ _ _ _ _) (proj2 (zrepr_fr _ _ _ _ _ _ _ _) Hq)) Hs).
Qed.

Lemma red_sibling_spec K s d t p ph q c n : remove_inv K s t (fr d p ph q :: c) n → tcolor t = Black →
  ∃ s' ph' ql b bh qr c', red_sibling d s (addr (black_nil s) t) = Done (b, s') ∧ same K s s'
  ∧ get_color bh = Black ∧ remove_inv K s' t (fr d p ph' (mk d ql b bh qr) :: c') n
  ∧ cin (fr d p ph' (mk d ql b bh qr) :: c') (inorder t) = cin (fr d p ph q :: c) (inorder t)
  ∧ (c' = c ∨ get_color ph' = Red).
Proof using NodePayloadLaws0.
  intros Hinv Hblack. pose proof (below_inv _ _ _ _ _ _ _ _ _ Hinv) as Hb.
  pose proof Hinv as [Hz Hsent _ Hrb Hctx]. rewrite ctx_ok_fr in Hctx. destruct Hctx as [Hq Hctx].
  destruct (rb_S_mk d _ _ Hq) as (ql & b & bh & qr & ->).
  pose proof (color_neighbours _ _ _ _ _ _ _ _ _ _ _ _ Hb Hsent) as (_ & Hcb & _ & _).
  unfold red_sibling. rewrite (bl_parent _ _ _ _ _ _ Hb). cbn [mbind outcome_bind].
  rewrite (get_sib _ _ _ _ _ _ _ _ _ Hb), addr_mk. cbn [mbind outcome_bind]. rewrite Hcb. cbn [mbind outcome_bind].
  apply rb_mk_inv in Hq. destruct (get_color bh) eqn:Hbh.
  { exists s, ph, ql, b, bh, qr, c. split_and!; try done. by left. }
  destruct Hq as (Hql & Hqr & Hqlb & Hqrb). rewrite tcolor_mk, Hbh in Hctx.
  destruct (get_color ph) eqn:Hph; [|by destruct Hctx].
  destruct (rb_S_mk d _ _ Hql) as (l2 & b2 & h2 & r2 & ->). rewrite tcolor_mk in Hqlb.
  destruct (color_sib _ _ _ _ _ _ _ _ _ _ _ _ Black Hb) as (s1 & E1 & Hb1 & Hs1).
  destruct (color_parent _ _ _ _ _ _ _ _ _ Red Hb1) as (s2 & E2 & Hb2 & Hs2).
  destruct (rotate_parent _ _ _ _ _ _ _ _ _ _ _ _ Hb2) as (s3 & E3 & Hb3 & Hs3).
  pose proof (get_sib _ _ _ _ _ _ _ _ _ Hb3) as Esib. rewrite addr_mk in Esib.
  pose proof (bl_parent _ _ _ _ _ _ Hb1). pose proof (bl_parent _ _ _ _ _ _ Hb2).
  pose proof (bl_parent _ _ _ _ _ _ Hb3) as Hp3. run_steps.
  assert (Hs : same K s s3) by same_trans.
  exists s3, (set_color ph Red), l2, b2, h2, r2, (fr d b (set_color bh Black) qr :: c).
  split_and!; try done; [|solve_sides d|right; apply get_set_color].
  split; [apply Hb3|eapply sentinel_same; [apply Hz|done..]
         |by rewrite (same_nil _ _ _ Hs), ctx_parent_fr|done|].
  rewrite !ctx_ok_fr, !get_set_color, tcolor_mk. split_and!; try done.
  all: first [by rewrite ctx_ok_fr, get_set_color | destruct d; simpl; apply get_set_color].
Qed.

(** A black sibling with two black children: it becomes red, and the extra black
    moves to the parent. *)
Lemma black_nephews_spec K s d t p ph ql b bh qr c n :
  remove_inv K s t (fr d p ph (mk d ql b bh qr) :: c) n → tcolor t = Black → get_color bh = Black →
  tcolor ql = Black → tcolor qr = Black → ∃ s' n' t',
  put_color s b Red = Done s' ∧ same K s s' ∧ get_parent s' (addr (black_nil s) t) = Done p
  ∧ remove_inv K s' t' c n' ∧ addr (black_nil s) t' = p ∧ tcolor t' = get_color ph
  ∧ cin c (inorder t') = cin (fr d p ph (mk d ql b bh qr) :: c) (inorder t).
Proof using NodePayloadLaws0.
  intros Hinv Hblack Hbh Hql Hqr. pose proof (below_inv _ _ _ _ _ _ _ _ _ Hinv) as Hb.
  pose proof Hinv as [Hz Hsent _ Hrb Hctx]. rewrite Hblack in Hrb. rewrite ctx_ok_fr in Hctx. destruct Hctx as [Hq Hctx].
  apply rb_mk_inv in Hq. rewrite Hbh in Hq. destruct Hq as (m & [= <-] & Hrql & Hrqr).
  destruct (color_sib _ _ _ _ _ _ _ _ _ _ _ _ Red Hb) as (s1 & E1 & Hb1 & Hs1).
  pose proof (bl_z _ _ _ _ _ _ Hb1) as Hz1%zrepr_fr.
  assert (Hsib : rb (mk d ql b (set_color bh Red) qr) n) by (by apply rb_mk_red; [apply get_set_color|..]).
  exists s1, (match get_color ph with Red => n | Black => S n end), (mk d t p ph (mk d ql b (set_color bh Red) qr)).
  split_and!; try done; [apply Hb1| |apply addr_mk|apply tcolor_mk|solve_sides d].
  split; [done|eapply sentinel_same; [apply Hz|done..]| | |].
  - rewrite addr_mk. exact (get_parent_mk _ _ _ _ _ _ _ _ Hz1).
  - rewrite tcolor_mk. destruct (get_color ph) eqn:Hph; [by apply rb_mk_black|].
    destruct d; by apply rb_blacken.
  - destruct (get_color ph); [done|]. apply Hctx.
Qed.

(** What the rest of the tree expects of a node of colour [col] at this place. *)
Definition place_ok (col : NodeColor) (c : list frame) (n : nat) : Prop :=
  match col with
  | Black => ctx_ok c (S n)
  | Red => ctx_ok c n ∧ match c with [] => False | f :: _ => get_color (f_hdr f) = Black end
  end.
Lemma place_plug d t a h u c n : place_ok (get_color h) c n → rb t n → rb u n →
  tcolor t = Black → tcolor u = Black →
  tcolor (plug (mk d t a h u) c) = Black ∧ ∃ m, rb (plug (mk d t a h u) c) m.
Proof.
  intros Hp Ht Hu Htb Hub. unfold place_ok in Hp. destruct (get_color h) eqn:Hh.
  - split; [eapply plug_black; [done|left; by rewrite tcolor_mk]|].
    eapply rb_plug; [by apply rb_mk_black|done|left; by rewrite tcolor_mk].
  - destruct Hp as [Hc Hf]. split; [eapply plug_black; [done|right; by destruct c]|].
    eapply rb_plug; [by apply rb_mk_red|done|right; by destruct c].
Qed.


(** The end of a branch leaves a red-black tree. *)
Lemma last_rotation_spec K s nil d t p ph ql b bh rl f fh rr c n :
  below K s nil t p (fr d p ph (mk d ql b bh (mk d rl f fh rr)) :: c) → black_sentinel s →
  place_ok (get_color ph) c (S n) → rb t n → rb ql n → rb rl n → rb rr n → ∃ s' t',
  last_rotation d s (addr nil t) b = Done s' ∧ same K s s' ∧ zrepr K s' t' [] ∧ t' ≠ Leaf
  ∧ tcolor t' = Black ∧ (∃ m, rb t' m)
  ∧ inorder t' = cin (fr d p ph (mk d ql b bh (mk d rl f fh rr)) :: c) (inorder t).
Proof using NodePayloadLaws0.
  intros Hb Hsent Hpl Ht Hql Hrl Hrr.
  pose proof (color_neighbours _ _ _ _ _ _ _ _ _ _ _ _ Hb Hsent) as (Hcp & _).
  destruct (color_sib _ _ _ _ _ _ _ _ _ _ _ _ (get_color ph) Hb) as (s1 & E1 & Hb1 & Hs1).
  destruct (color_parent _ _ _ _ _ _ _ _ _ Black Hb1) as (s2 & E2 & Hb2 & Hs2).
  destruct (get_niece _ _ _ _ _ _ _ _ _ _ _ _ Hb2) as [Ef _]. rewrite addr_mk in Ef.
  destruct (color_far _ _ _ _ _ _ _ _ _ _ _ _ _ _ _ Black Hb2) as (s3 & E3 & Hb3 & Hs3).
  destruct (rotate_parent _ _ _ _ _ _ _ _ _ _ _ _ Hb3) as (s4 & E4 & Hb4 & Hs4).
  pose proof (bl_parent _ _ _ _ _ _ Hb). pose proof (bl_parent _ _ _ _ _ _ Hb1).
  pose proof (bl_parent _ _ _ _ _ _ Hb3). unfold last_rotation. run_steps.
  pose proof (zrepr_plug _ _ _ _ (proj1 (zrepr_fr _ _ _ _ _ _ _ _)
    (proj1 (zrepr_fr _ _ _ _ _ _ _ _) (bl_z _ _ _ _ _ _ Hb4)))) as Hz.
  assert (Hcol : get_color (set_color bh (get_color ph)) = get_color ph) by apply get_set_color.
  destruct (place_plug d (mk d t p (set_color ph Black) ql) b (set_color bh (get_color ph))
    (mk d rl f (set_color fh Black) rr) c (S n)) as [Hblack Hrb];
    [by rewrite Hcol|by apply rb_mk_black; [apply get_set_color|..]
    |by apply rb_mk_black; [apply get_set_color|..]|rewrite tcolor_mk; apply get_set_color
    |rewrite tcolor_mk; apply get_set_color|].
  eexists s4, _. split_and!; [done|same_trans|exact Hz|apply plug_not_leaf; by destruct d|done|done|].
  rewrite inorder_plug. solve_sides d.
Qed.

Lemma red_nephew_spec K s d t p ph ql b bh qr c n :
  remove_inv K s t (fr d p ph (mk d ql b bh qr) :: c) n → tcolor t = Black → get_color bh = Black →
  tcolor ql = Red ∨ tcolor qr = Red → ∃ s' t',
  red_nephew d s (addr (black_nil s) t) b = Done s' ∧ same K s s' ∧ zrepr K s' t' [] ∧ t' ≠ Leaf
  ∧ tcolor t' = Black ∧ (∃ m, rb t' m)
  ∧ inorder t' = cin (fr d p ph (mk d ql b bh qr) :: c) (inorder t).
Proof using NodePayloadLaws0.
  intros Hinv Hblack Hbh Hred. pose proof (below_inv _ _ _ _ _ _ _ _ _ Hinv) as Hb.
  pose proof Hinv as [Hz Hsent _ Hrb Hctx]. rewrite Hblack in Hrb.
  rewrite ctx_ok_fr in Hctx. destruct Hctx as [Hq Hctx]. apply rb_mk_inv in Hq. rewrite Hbh in Hq.
  destruct Hq as (m & [= <-] & Hql & Hqr).
  assert (Hpl : place_ok (get_color ph) c (S n)) by (unfold place_ok; destruct (get_color ph); naive_solver).
  pose proof (color_neighbours _ _ _ _ _ _ _ _ _ _ _ _ Hb Hsent) as (_ & _ & _ & Hcq).
  destruct (get_niece _ _ _ _ _ _ _ _ _ _ _ _ Hb) as [Efar Enear].
  unfold red_nephew. rewrite Efar. cbn [mbind outcome_bind]. rewrite Hcq. cbn [mbind outcome_bind].
  destruct (tcolor qr) eqn:Eqr.
  - destruct Hred as [Hred|]; [|done]. destruct (red_mk d _ Hred) as (nl & x & xh & nr & -> & Hxh).
    apply rb_mk_inv in Hql. rewrite Hxh in Hql. destruct Hql as (Hnl & Hnr & _ & _).
    rewrite addr_mk in Enear.
    destruct (color_near _ _ _ _ _ _ _ _ _ _ _ _ _ _ _ Black Hb) as (s1 & E1 & Hb1 & Hs1).
    destruct (color_sib _ _ _ _ _ _ _ _ _ _ _ _ Red Hb1) as (s2 & E2 & Hb2 & Hs2).
    destruct (rotate_sib _ _ _ _ _ _ _ _ _ _ _ _ _ _ _ Hb2) as (s3 & E3 & Hb3 & Hs3).
    pose proof (bl_parent _ _ _ _ _ _ Hb3). pose proof (get_sib _ _ _ _ _ _ _ _ _ Hb3) as Esib.
    rewrite addr_mk in Esib. assert (Hs : same K s s3) by same_trans.
    destruct (last_rotation_spec _ _ _ _ _ _ _ _ _ _ _ _ _ _ _ n Hb3) as (s4 & t' & E4 & Hs4 & Ht');
      [eapply sentinel_same; [apply Hz|done..]|done..|].
    run_steps. exists s4, t'. split_and!; [done|same_trans|apply Ht'..|]. destruct Ht' as (_ & _ & _ & _ & ->).
    solve_sides d.
  - destruct (red_mk d _ Eqr) as (rl & f & fh & rr & -> & Hfh). apply rb_mk_inv in Hqr. rewrite Hfh in Hqr.
    destruct Hqr as (Hrl & Hrr & _ & _). cbn [mbind outcome_bind].
    destruct (last_rotation_spec _ _ _ _ _ _ _ _ _ _ _ _ _ _ _ n Hb) as (s4 & t' & E4 & Hs4 & Ht'); [done..|].
    by exists s4, t'.
Qed.

Lemma plug_addr_in nil (t : tree) f c c2 :
  addr nil (plug t (f :: c)) ∈ (cnodes nil ((f :: c) ++ c2) (addr nil t)).*1.
Proof.
  revert t f. induction c as [|f2 c IH]; intros t f; [destruct f; simpl; by left|].
  change (plug t (f :: f2 :: c)) with (plug (close f t) (f2 :: c)).
  specialize (IH (close f t) f2). change ((f :: f2 :: c) ++ c2) with (f :: (f2 :: c) ++ c2).
  cbn [cnodes]. rewrite !fmap_cons, !fmap_app. right. apply elem_of_app. right.
  replace (addr nil (close f t)) with (f_addr f) in IH by (by destruct f). exact IH.
Qed.
Lemma focus_not_above K s t f c c2 : zrepr K s t ((f :: c) ++ c2) →
  addr (black_nil s) t ≠ addr (black_nil s) (plug t (f :: c)).
Proof.
  intros [[Hnd _] Hk Hn Hr] Heq. pose proof (plug_addr_in (black_nil s) t f c c2) as Hin.
  rewrite <- Heq in Hin. unfold znodes in *. rewrite fmap_app in *. destruct t as [|l a h r].
  - apply Hn. rewrite <- Hk. apply elem_of_list_to_set, elem_of_app. by right.
  - apply NoDup_app in Hnd as (_ & Hdis & _). apply (Hdis a); [simpl; by left|done].
Qed.
Lemma focus_not_root K s t f c : zrepr K s t (f :: c) → addr (black_nil s) t ≠ root s.
Proof. intros Hz. rewrite (z_root _ _ _ _ Hz). eapply (focus_not_above _ _ _ _ _ []). by rewrite app_nil_r. Qed.
Lemma frame_fr (f : frame) : ∃ d a h u, f = fr d a h u.
Proof. destruct f as [a h u|u a h]; [by exists OnLeft, a, h, u|by exists OnRight, a, h, u]. Qed.
(** The loop takes the branch of the side of the focus. *)
Lemma find_side K s d t p ph u c n : remove_inv K s t (fr d p ph u :: c) n → ∃ pl,
  get_left s p = Done pl ∧ (if bool_decide (addr (black_nil s) t = pl) then OnLeft else OnRight) = d.
Proof.
  intros [Hz _ _ _ Hctx]. apply ctx_ok_fr in Hctx as [Hu _]. pose proof (proj1 (zrepr_fr _ _ _ _ _ _ _ _) Hz) as Hp.
  destruct (rb_S_mk OnLeft _ _ Hu) as (ul & b & bh & ur & ->). destruct d.
  - eexists. split; [exact (get_left_z _ _ _ _ _ _ _ Hp)|by rewrite bool_decide_true].
  - eexists. split; [exact (get_left_z _ _ _ _ _ _ _ Hp)|]. rewrite bool_decide_false; [done|].
    destruct t as [|tl x xh tr].
    + apply zrepr_far in Hz. pose proof (addr_not_nil _ _ _ _ _ _ _ Hz). simpl. congruence.
    + exact (proj1 (proj2 (focus_ne _ _ _ _ _ _ _ _ Hz))).
Qed.
(** The colours of the two nephews, from left to right. *)
Lemma nephew_colors K s nil d t p ph ql b bh qr c : below K s nil t p (fr d p ph (mk d ql b bh qr) :: c) →
  black_sentinel s → ∃ l r, get_left s b = Done l ∧ get_right s b = Done r
  ∧ color_of s l = Done (tcolor (match d with OnLeft => ql | OnRight => qr end))
  ∧ color_of s r = Done (tcolor (match d with OnLeft => qr | OnRight => ql end)).
Proof.
  intros Hb Hs. destruct (get_niece _ _ _ _ _ _ _ _ _ _ _ _ Hb) as [Ef En].
  pose proof (color_neighbours _ _ _ _ _ _ _ _ _ _ _ _ Hb Hs) as (_ & _ & Hl & Hr).
  destruct d; simpl in *; eauto 10.
Qed.

(** The loop returns within one step per level of the tree. *)
Definition levels (t : tree) (c : list frame) : nat := match tcolor t with Red => 0 | Black => length c end.
Lemma fix_remove_spec fuel K : ∀ c s t n, remove_inv K s t c n → (levels t c < fuel)%nat → ∃ s',
  fix_remove_rb_violation fuel s (addr (black_nil s) t) = Done s' ∧ removed K s s' (cin c (inorder t)).
Proof using NodePayloadLaws0.
  induction fuel as [|fuel IH]; intros c s t n Hinv Hfuel; [lia|]. cbn [fix_remove_rb_violation].
  pose proof Hinv as [Hz Hsent Hpar _ _]. destruct c as [|f c].
  { rewrite bool_decide_false by (rewrite (z_root _ _ _ _ Hz); naive_solver). cbn [mbind outcome_bind].
    by eapply remove_exit; [done|left]. }
  rewrite bool_decide_true by (by eapply focus_not_root).
  rewrite (color_z _ _ _ _ Hz Hsent). cbn [mbind outcome_bind]. unfold levels in Hfuel.
  destruct (tcolor t) eqn:Ht; [rewrite bool_decide_true by done|rewrite bool_decide_false by done;
    eapply remove_exit; [done|by right]].
  destruct (frame_fr f) as (d & p & ph & u & ->).
  destruct (find_side _ _ _ _ _ _ _ _ _ Hinv) as (pl & Epl & Ed).
  rewrite Hpar, ctx_parent_fr. cbn [mbind outcome_bind]. rewrite Epl. cbn [mbind outcome_bind]. rewrite Ed.
  destruct (red_sibling_spec _ _ _ _ _ _ _ _ _ Hinv Ht)
    as (s1 & ph1 & ql & b & bh & qr & c1 & E1 & Hs1 & Hbh & Hinv1 & <- & Hc1).
  rewrite E1. cbn [mbind outcome_bind]. pose proof (below_inv _ _ _ _ _ _ _ _ _ Hinv1) as Hb1.
  destruct (nephew_colors _ _ _ _ _ _ _ _ _ _ _ _ Hb1 (rm_sent _ _ _ _ _ Hinv1)) as (l & r & El & Er & Ecl & Ecr).
  rewrite El. cbn [mbind outcome_bind]. rewrite Ecl. cbn [mbind outcome_bind].
  rewrite Er. cbn [mbind outcome_bind]. rewrite Ecr. cbn [mbind outcome_bind].
  rewrite <- (same_nil _ _ _ Hs1).
  assert (Hcases : (tcolor ql = Black ∧ tcolor qr = Black) ∨ (tcolor ql = Red ∨ tcolor qr = Red))
    by (destruct (tcolor ql), (tcolor qr); auto).
  destruct Hcases as [[Hql Hqr]|Hred].
  - destruct (black_nephews_spec _ _ _ _ _ _ _ _ _ _ _ _ Hinv1 Ht Hbh Hql Hqr)
      as (s2 & n2 & t2 & E2 & Hs2 & Hp2 & Hinv2 & Ha2 & Hcol2 & <-).
    destruct (IH _ _ _ _ Hinv2) as (s3 & E3 & Hr3).
    { unfold levels. rewrite Hcol2. simpl in Hfuel. destruct Hc1 as [->|Hr]; [destruct (get_color ph1)|rewrite Hr]; lia. }
    rewrite (same_nil _ _ _ Hs2), Ha2 in E3.
    exists s3. split; [|eapply removed_trans; [|done]; apply same_kept; same_trans].
    destruct d; rewrite Hql, Hqr, E2; cbn [mbind outcome_bind]; rewrite Hp2; cbn [mbind outcome_bind]; done.
  - destruct (red_nephew_spec _ _ _ _ _ _ _ _ _ _ _ _ Hinv1 Ht Hbh Hred)
      as (s2 & t2 & E2 & Hs2 & Hz2 & Hne2 & Hb2 & (m & Hrb2) & <-).
    destruct (IH [] s2 t2 m) as (s3 & E3 & Hr3).
    { split; [done| | |by rewrite Hb2|done].
      - eapply sentinel_same; [apply Hinv1|exact Hs2|apply Hinv1].
      - destruct t2; [done|]. exact (get_parent_z _ _ _ _ _ _ _ Hz2). }
    { unfold levels. rewrite Hb2. simpl in *. lia. }
    pose proof (z_root _ _ _ _ Hz2) as Hroot. simpl in Hroot. rewrite <- Hroot in E3.
    exists s3. split; [|eapply removed_trans; [|done]; apply same_kept; same_trans].
    destruct d, (tcolor ql) eqn:Eq1, (tcolor qr) eqn:Eq2; try (by destruct Hred);
      rewrite E2; cbn [mbind outcome_bind]; done.
Qed.

(** ** Taking a node out *)

(** The entries of the memory that an operation leaves in [S']. *)
Ltac solve_entries :=
  cbn [thead chead fnode f_addr f_sib app fmap list_fmap fst snd];
  rewrite ?Forall_cons, ?Forall_nil; cbn [fst snd nodes with_nodes with_root addr ctx_parent]; split_and?;
  repeat first [rewrite lookup_insert_eq | rewrite lookup_insert_ne by congruence]; done.
Ltac solve_outside :=
  let y := fresh "y" in let Hy := fresh "Hy" in let Hn := fresh "Hn" in
  intros y Hy Hn; cbn [thead chead fnode f_addr f_sib app fmap list_fmap fst snd] in Hy;
  rewrite ?not_elem_of_cons in Hy; destruct_and? Hy;
  cbn [nodes with_nodes with_root]; rewrite ?lookup_insert_ne by congruence; done.

(** A node with at most one child is replaced by that child. *)
Lemma swap_child_spec K s d y a h c : zrepr K s (mk d y a h Leaf) c → black_sentinel s → ∃ s',
  swap_nodes s a (addr (black_nil s) y) = Done s' ∧ (zrepr (K ∖ {[a]}) s' y c ∧ kept (K ∖ {[a]}) s s')
  ∧ black_sentinel s' ∧ get_parent s' (addr (black_nil s) y) = Done (ctx_parent (black_nil s) c).
Proof.
  intros Hz (nn & Hnil & Hbl). remember (black_nil s) as nil eqn:Hn.
  set (na := match d with
             | OnLeft => {| header := h; parent := ctx_parent nil c; left := addr nil y; right := nil |}
             | OnRight => {| header := h; parent := ctx_parent nil c; left := nil; right := addr nil y |}
             end).
  set (R := trest nil y ++ crest nil c).
  assert (E : znodes nil (mk d y a h Leaf) c ≡ₚ ((a, na) :: thead nil a y ++ chead nil c a) ++ R).
  { unfold znodes, R, na. destruct d; simpl; rewrite cnodes_split, (tnodes_split _ a y); solve_Permutation. }
  assert (E' : znodes nil y c ≡ₚ (thead nil (ctx_parent nil c) y ++ chead nil c (addr nil y)) ++ R).
  { unfold znodes, R. rewrite cnodes_split, (tnodes_split _ _ y). solve_Permutation. }
  assert (Hsib : match c with FL p _ q :: _ | FR q p _ :: _ => a ≠ addr nil q | [] => True end).
  { subst nil. destruct c as [|[p ph q|q p ph] c]; [done|..];
      destruct d; exact (proj1 (proj2 (focus_ne _ _ _ _ _ _ _ _ Hz))). }
  pose proof Hz as [Hown Hkeys Hnk Hroot]. rewrite <- Hn, E in Hown, Hkeys. subst nil.
  pose proof (λ s', zrepr_drop K s a na _ R y c _ s' Hown Hkeys Hnk E') as Hfin.
  subst R. clear Hown Hkeys Hnk. destruct d, y as [|yl b bh yr], c as [|[p ph q|q p ph] c];
    subst na; known_entries Hz E; cbn [addr] in *; unfold swap_nodes; unfold_ops; run_mem;
    (eexists; split; [reflexivity|]; split;
     [apply Hfin;
        [done|solve_entries|solve_outside|done|done
        |cbn [root with_nodes with_root]; try done; rewrite Hroot; apply plug_addr_cons]
     |split; [eexists; cbn [nodes with_nodes with_root black_nil];
              split; [repeat first [rewrite lookup_insert_eq | rewrite lookup_insert_ne by congruence]; done|done]
             |run_mem; done]]).
Qed.

(** The successor [m] of [a], not linked yet: [r] is the rest of the right
    subtree, and its root has [m] as its parent. *)
Record detached (K : gset Z) s (l : tree) (a : Z) (na : Node P) (m : Z) (nm : Node P) (r : tree) (c : list frame) : Prop := {
  det_own : own (nodes s) ((a, na) :: (m, nm)
    :: tnodes (black_nil s) a l ++ tnodes (black_nil s) m r ++ cnodes (black_nil s) c a);
  det_keys : list_to_set ((a, na) :: (m, nm)
    :: tnodes (black_nil s) a l ++ tnodes (black_nil s) m r ++ cnodes (black_nil s) c a).*1 = K;
  det_nil : black_nil s ∉ K;
  det_root : root s = addr (black_nil s) (plug (Br l a (header na) r) c);
  det_parent : parent na = ctx_parent (black_nil s) c;
  det_left : left na = addr (black_nil s) l;
  det_right : right nm = addr (black_nil s) r
}.
Lemma own_perm (m : gmap Z (Node P)) L L' : L ≡ₚ L' → own m L → own m L'.
Proof. intros E. by rewrite E. Qed.
Lemma own_facts (m : gmap Z (Node P)) S R nil : own m (S ++ R) → nil ∉ (S ++ R).*1 →
  NoDup (nil :: S.*1) ∧ (∀ y, y ∈ S.*1 → y ∉ R.*1) ∧ Forall (λ e, m !! e.1 = Some e.2) S.
Proof.
  intros [Hnd Hf] Hn. rewrite fmap_app in Hnd, Hn. apply NoDup_app in Hnd as (HS & Hdis & _).
  apply Forall_app in Hf as [Hf _]. split_and!; [|done|done]. constructor; [|done]. set_solver.
Qed.

Lemma take_place_spec K s l a na m nm r c : detached K s l a na m nm r c → l ≠ Leaf → ∃ s',
  take_place s a m = Done s'
  ∧ (zrepr (K ∖ {[a]}) s' (Br l m (set_color (header nm) (get_color (header na))) r) c
     ∧ kept (K ∖ {[a]}) s s')
  ∧ nodes s' !! black_nil s = nodes s !! black_nil s.
Proof.
  intros [Hown Hkeys Hnk Hroot Hpar Hleft Hright] Hl. destruct l as [|ll b bh lr]; [done|]. clear Hl.
  destruct na as [ah ap al ar], nm as [mh mp ml mr]. simpl in Hpar, Hleft, Hright, Hroot. subst ap al mr.
  set (nil := black_nil s) in *. set (R := trest nil (Br ll b bh lr) ++ tnodes nil m r ++ crest nil c).
  set (na := {| header := ah; parent := ctx_parent nil c; left := b; right := ar |}) in *.
  set (nm := {| header := mh; parent := mp; left := ml; right := addr nil r |}) in *.
  assert (E : (a, na) :: (m, nm) :: tnodes nil a (Br ll b bh lr) ++ tnodes nil m r ++ cnodes nil c a
    ≡ₚ (a, na) :: ((m, nm) :: thead nil a (Br ll b bh lr) ++ chead nil c a) ++ R).
  { unfold R. rewrite cnodes_split, (tnodes_split _ a (Br _ _ _ _)). solve_Permutation. }
  assert (E' : znodes nil (Br (Br ll b bh lr) m (set_color mh (get_color ah)) r) c ≡ₚ
    ((m, {| header := set_color mh (get_color ah); parent := ctx_parent nil c; left := b; right := addr nil r |})
      :: thead nil m (Br ll b bh lr) ++ chead nil c m) ++ R).
  { unfold znodes, R. rewrite cnodes_split. simpl. solve_Permutation. }
  apply (own_perm _ _ _ E) in Hown. rewrite E in Hkeys.
  pose proof (λ s', zrepr_drop K s a na _ R _ c _ s' Hown Hkeys Hnk E') as Hfin.
  rewrite app_comm_cons in Hown, Hkeys. destruct (own_facts _ _ _ nil Hown) as (Hnd & Hdis & HS).
  { rewrite <- Hkeys in Hnk. by rewrite elem_of_list_to_set in Hnk. }
  clear Hown Hkeys Hnk E E'. subst R na nm nil. destruct c as [|[p ph q|q p ph] c];
    split_entries Hnd Hdis HS; try (assert (a ≠ addr (black_nil s) q) by sibling_ne Hdis);
    cbn [addr] in *; unfold take_place, swap_nodes, color_of, put_color; unfold_ops; run_mem;
    (eexists; split; [reflexivity|]; split;
     [apply Hfin;
        [done|solve_entries|solve_outside|done|done
        |cbn [root with_nodes with_root]; try done; rewrite Hroot; apply plug_addr_cons]
     |cbn [nodes with_nodes with_root]; rewrite ?lookup_insert_ne by congruence; done]).
Qed.

(** ** The successor *)

Definition is_left (f : frame) : Prop := match f with FL _ _ _ => True | FR _ _ _ => False end.
Lemma cin_left c x L : Forall is_left c → cin c (x :: L) = x :: cin c L.
Proof. intros Hc. revert L. induction Hc as [|[] c Hf Hc IH]; intros L; simpl in *; [done|by rewrite IH|done]. Qed.
Lemma zrepr_app K s t c1 c2 : zrepr K s t (c1 ++ c2) ↔ zrepr K s (plug t c1) c2.
Proof. revert t. induction c1 as [|f c1 IH]; intros t; simpl; [done|]. by rewrite zrepr_close, IH. Qed.

Lemma get_subtree_min_spec fuel K s l a h r c : zrepr K s (Br l a h r) c → (height (Br l a h r) ≤ fuel)%nat →
  ∃ m mh mr c1, get_subtree_min fuel s a = Done m ∧ plug (Br Leaf m mh mr) c1 = Br l a h r ∧ Forall is_left c1.
Proof.
  revert fuel a h r c. induction l as [|ll IHl b bh lr _]; intros [|fuel] a h r c Hz Hh; simpl in Hh; try lia;
    cbn [get_subtree_min]; rewrite (get_left_z _ _ _ _ _ _ _ Hz); cbn [mbind outcome_bind addr].
  - rewrite bool_decide_false by naive_solver. by exists a, h, r, [].
  - assert (Hz' : zrepr K s (Br ll b bh lr) (FL a h r :: c)) by (by apply zrepr_close).
    rewrite bool_decide_true by (by apply (addr_not_nil _ _ _ _ _ _ _ Hz')).
    destruct (IHl fuel b bh lr _ Hz') as (m & mh & mr & c1 & E & Hpl & Hc1); [simpl; lia|].
    exists m, mh, mr, (c1 ++ [FL a h r]). rewrite plug_app, Hpl. split_and!; try done.
    apply Forall_app. split; [done|]. by repeat constructor.
Qed.

(** Writing the parent of the focus, the sentinel included. *)
Lemma put_parent_focus K s t c : zrepr K s t c → black_sentinel s → ∃ s',
  put_parent s (addr (black_nil s) t) (ctx_parent (black_nil s) c) = Done s' ∧ zrepr K s' t c ∧ kept ∅ s s'
  ∧ black_sentinel s' ∧ get_parent s' (addr (black_nil s) t) = Done (ctx_parent (black_nil s) c).
Proof.
  intros Hz (nn & Hn & Hb). unfold put_parent, update, get_parent. destruct t as [|l a h r].
  - unfold get_node. simpl. rewrite Hn. cbn [mbind outcome_bind deref]. eexists. split; [done|].
    split_and!; [by apply zrepr_sentinel|split; [done..|]; intros y _ Hy; by apply lookup_insert_ne| |].
    + eexists. split; [apply lookup_insert_eq|done].
    + simpl. by rewrite lookup_insert_eq.
  - pose proof (z_get _ _ _ _ _ _ _ Hz) as Hg. simpl. rewrite Hg. cbn [mbind outcome_bind header left right].
    assert (E : with_nodes s (<[a := {| header := h; parent := ctx_parent (black_nil s) c;
        left := addr (black_nil s) l; right := addr (black_nil s) r |}]> (nodes s)) = s).
    { destruct s as [rt nl ct nd]. unfold with_nodes, get_node in *. simpl in *. f_equal.
      apply insert_id. destruct (nd !! a); naive_solver. }
    rewrite E. exists s. split_and!; [done|done|done|by exists nn|]. by rewrite Hg.
Qed.
Lemma parent_z K s t c : zrepr K s t c →
  (t = Leaf → get_parent s (black_nil s) = Done (ctx_parent (black_nil s) c)) →
  get_parent s (addr (black_nil s) t) = Done (ctx_parent (black_nil s) c).
Proof. intros Hz Hp. destruct t; [by apply Hp|]. exact (get_parent_z _ _ _ _ _ _ _ Hz). Qed.

Definition spot (l : tree) (m : Z) (mh h : P) (c1 c : list frame) : list frame :=
  c1 ++ FR l m (set_color mh (get_color h)) :: c.
(** The state [take_successor] ends in. *)
Definition succeeded (K : gset Z) s s' (l : tree) (a : Z) (h : P) m mh mr c1 c : Prop :=
  zrepr (K ∖ {[a]}) s' mr (spot l m mh h c1 c) ∧ kept (K ∖ {[a]}) s s' ∧ black_sentinel s'
  ∧ get_parent s' (addr (black_nil s') mr) = Done (ctx_parent (black_nil s') (spot l m mh h c1 c)).

(** [take_place] in a state with the successor detached. *)
Lemma take_place_done K s s1 l a na m nm mr c1 c : detached K s1 l a na m nm (plug mr c1) c → l ≠ Leaf →
  kept (K ∖ {[a]}) s s1 → black_sentinel s1 →
  (mr = Leaf → get_parent s1 (black_nil s1) = Done (ctx_parent (black_nil s1) (spot l m (header nm) (header na) c1 c))) → ∃ s',
  take_place s1 a m = Done s' ∧ succeeded K s s' l a (header na) m (header nm) mr c1 c.
Proof.
  intros Hd Hl Hk (nn & Hn & Hb) Hp. destruct (take_place_spec _ _ _ _ _ _ _ _ _ Hd Hl) as (s' & E & [Hz Hk'] & Hs).
  apply (zrepr_close _ _ _ (FR l m _)), zrepr_app in Hz. exists s'. split; [done|]. split; [done|].
  pose proof (kept_nil _ _ _ Hk') as Hnil. split; [by etrans|]. split.
  - exists nn. by rewrite Hnil, Hs.
  - apply (parent_z _ _ _ _ Hz). intros Hmr. unfold spot in Hp. rewrite Hnil, <- Hp by done.
    unfold get_parent, get_node. by rewrite Hs.
Qed.

(** The successor is the right child. *)
Lemma successor_child K s l a h m mh mr c :
  zrepr K s (Br l a h (Br Leaf m mh mr)) c → l ≠ Leaf → black_sentinel s → ∃ s1 s',
  put_parent s (addr (black_nil s) mr) m = Done s1 ∧ take_place s1 a m = Done s'
  ∧ succeeded K s s' l a h m mh mr [] c.
Proof.
  intros Hz Hl Hsent. assert (Hz1 : zrepr K s mr (FR Leaf m mh :: FR l a h :: c)) by (by do 2 apply zrepr_close).
  destruct (put_parent_focus _ _ _ _ Hz1 Hsent) as (s1 & E1 & Hz2 & Hk & Hs1 & Hp).
  pose proof (kept_nil _ _ _ Hk) as Hnil. pose proof (proj1 (zrepr_app K s1 mr [FR Leaf m mh; FR l a h] c) Hz2) as Hz3.
  pose proof Hz3 as [Hown Hkeys Hn Hroot].
  set (na := {| header := h; parent := ctx_parent (black_nil s1) c; left := addr (black_nil s1) l; right := m |}).
  set (nm := {| header := mh; parent := a; left := black_nil s1; right := addr (black_nil s1) mr |}).
  assert (E : znodes (black_nil s1) (Br l a h (Br Leaf m mh mr)) c ≡ₚ (a, na) :: (m, nm)
    :: tnodes (black_nil s1) a l ++ tnodes (black_nil s1) m mr ++ cnodes (black_nil s1) c a).
  { unfold znodes, na, nm. simpl. solve_Permutation. }
  destruct (take_place_done K s s1 l a na m nm mr [] c) as (s' & E' & Hs'); try done.
  - split; try done; [exact (own_perm _ _ _ E Hown)|by rewrite <- Hkeys, E|]. rewrite Hroot. simpl. by apply plug_addr.
  - eapply kept_mono; [|done]. set_solver.
  - intros ->. simpl in *. by rewrite Hnil.
  - by exists s1, s'.
Qed.

Lemma own_add (mm : gmap Z (Node P)) k n L : own mm L → k ∉ L.*1 → own (<[k := n]> mm) ((k, n) :: L).
Proof.
  intros [Hnd Hf] Hk. split; [by apply NoDup_cons|]. constructor; [apply lookup_insert_eq|].
  rewrite Forall_forall in *. intros e He. rewrite lookup_insert_ne; [by apply Hf|].
  intros ->. apply Hk. by apply list_elem_of_fmap_2.
Qed.

(** The successor [m], taken out of the right subtree, receives it as its own. *)
Lemma detach_spec K s l a h r c m nm : zrepr K s (Br l a h r) c → r ≠ Leaf → nodes s !! m = Some nm →
  m ∉ K → m ≠ black_nil s → ∃ s1 s2,
  put_right s m (addr (black_nil s) r) = Done s1 ∧ get_right s1 m = Done (addr (black_nil s) r)
  ∧ put_parent s1 (addr (black_nil s) r) m = Done s2 ∧ same ({[m]} ∪ K ∖ {[a]}) s s2
  ∧ detached ({[m]} ∪ K) s2 l a
      {| header := h; parent := ctx_parent (black_nil s) c; left := addr (black_nil s) l; right := addr (black_nil s) r |}
      m {| header := header nm; parent := parent nm; left := left nm; right := addr (black_nil s) r |} r c.
Proof.
  intros Hz Hr Hm HmK Hmn. destruct r as [|rl x xh rr]; [done|]. clear Hr. pose proof Hz as [Hown Hkeys Hn Hroot].
  set (nil := black_nil s) in *. unfold put_right, put_parent, get_right, update, get_node. simpl addr. rewrite Hm.
  cbn [mbind outcome_bind deref header parent left right].
  set (S := (a, {| header := h; parent := ctx_parent nil c; left := addr nil l; right := x |})
    :: tnodes nil a l ++ (tnodes nil x rl ++ tnodes nil x rr) ++ cnodes nil c a).
  set (nx := {| header := xh; parent := a; left := addr nil rl; right := addr nil rr |}).
  assert (E : znodes nil (Br l a h (Br rl x xh rr)) c ≡ₚ (x, nx) :: S).
  { unfold znodes, S, nx. simpl. solve_Permutation. }
  rewrite E in Hown, Hkeys.
  assert (Hx : nodes s !! x = Some nx) by (apply (own_lookup _ _ _ _ Hown); by left).
  assert (HmL : m ∉ ((x, nx) :: S).*1) by (intros Hin; apply HmK; rewrite <- Hkeys; by apply elem_of_list_to_set).
  assert (Hxm : m ≠ x) by set_solver. eexists _, _. split; [reflexivity|]. cbn [nodes with_nodes].
  rewrite lookup_insert_eq, lookup_insert_ne, Hx by done.
  split; [reflexivity|]. split; [reflexivity|]. cbn [header left right nx].
  assert (Hxa : x ≠ a).
  { destruct Hown as [Hnd _]. apply NoDup_cons in Hnd as [Hnd _]. unfold S in Hnd. simpl in Hnd. set_solver. }
  split; [split; [done|done|]; intros y Hy; cbn [nodes with_nodes]; rewrite !lookup_insert_ne; try done; [|set_solver]|].
  { rewrite <- Hkeys in Hy. set_solver. }
  set (nm' := {| header := header nm; parent := parent nm; left := left nm; right := x |}).
  set (nx' := {| header := xh; parent := m; left := addr nil rl; right := addr nil rr |}).
  pose proof (own_add _ m nm' _ Hown HmL) as Hown1.
  assert (E1 : (m, nm') :: (x, nx) :: S ≡ₚ (x, nx) :: (m, nm') :: S) by solve_Permutation.
  apply (own_perm _ _ _ E1), (own_upd _ _ _ nx') in Hown1.
  split; try done.
  - eapply own_perm; [|exact Hown1]. unfold S. simpl. solve_Permutation.
  - rewrite <- Hkeys. simpl. rewrite !fmap_app. simpl. apply set_eq. intros y. unfold S. simpl. rewrite !fmap_app. set_solver.
  - set_solver.
Qed.

Lemma plug_not_leaf_cons (t : tree) f c : plug t (f :: c) ≠ Leaf.
Proof. simpl. apply plug_not_leaf. by destruct f. Qed.
(** The successor is further down. *)
Lemma successor_deep K s l a h c m mh mr f c1 :
  zrepr K s (Br l a h (plug (Br Leaf m mh mr) (f :: c1))) c → l ≠ Leaf → black_sentinel s → ∃ x s1 s2 s3 s',
  swap_nodes s m (addr (black_nil s) mr) = Done s1 ∧ get_right s1 a = Done x ∧ put_right s1 m x = Done s2
  ∧ get_right s2 m = Done x ∧ put_parent s2 x m = Done s3 ∧ take_place s3 a m = Done s'
  ∧ succeeded K s s' l a h m mh mr (f :: c1) c.
Proof.
  intros Hz Hl Hsent.
  pose proof (proj2 (zrepr_app K s (Br Leaf m mh mr) (f :: c1) (FR l a h :: c)) (proj2 (zrepr_close _ _ _ (FR l a h) _) Hz)) as Hzm.
  pose proof (addr_not_nil _ _ _ _ _ _ _ Hzm) as Hmn. pose proof (z_get _ _ _ _ _ _ _ Hzm) as Hm.
  destruct (swap_child_spec K s OnRight mr m mh _ Hzm Hsent) as (s1 & E1 & [Hz1 Hk1] & Hs1 & Hp1).
  pose proof (kept_nil _ _ _ Hk1) as Hnil.
  pose proof (proj1 (zrepr_close _ _ _ (FR l a h) _) (proj1 (zrepr_app _ _ mr (f :: c1) (FR l a h :: c)) Hz1)) as Hza.
  simpl in Hza.
  assert (Haddr : addr (black_nil s1) (plug mr (f :: c1)) = addr (black_nil s1) (plug (Br Leaf m mh mr) (f :: c1)))
    by apply plug_addr_cons.
  assert (Hma : m ∈ K) by (rewrite <- (z_keys _ _ _ _ Hzm); unfold znodes; simpl; set_solver).
  assert (HaK : a ∈ K) by (rewrite <- (z_keys _ _ _ _ Hz); unfold znodes; simpl; set_solver).
  assert (Ham : a ≠ m).
  { assert (Ha1 : a ∈ K ∖ {[m]}) by (rewrite <- (z_keys _ _ _ _ Hza); unfold znodes; simpl; set_solver). set_solver. }
  assert (Hm1 : nodes s1 !! m = nodes s !! m) by (apply (kept_nodes _ _ _ Hk1); [set_solver|done]).
  unfold get_node in Hm. destruct (nodes s !! m) as [nm|] eqn:Em; [|done]. injection Hm as ->.
  destruct (detach_spec _ _ _ _ _ (plug mr (f :: c1)) _ m _ Hza (plug_not_leaf_cons _ _ _) Hm1)
    as (s2 & s3 & E2 & Eg & E3 & Hs3 & Hd); [set_solver|by rewrite Hnil|].
  assert (HK : {[m]} ∪ K ∖ {[m]} = K).
  { apply set_eq. intros y. destruct (decide (y = m)) as [->|]; set_solver. }
  rewrite HK in Hd.
  assert (Hk3 : kept (K ∖ {[a]}) s s3).
  { transitivity s1; [|eapply kept_mono; [|by apply same_kept]; set_solver].
    split; [done|apply Hk1|]. intros y Hy Hyn. destruct (decide (y = a)) as [->|Hya];
      [|apply (kept_nodes _ _ _ Hk1); set_solver].
    rewrite (own_lookup _ _ a _ (z_own _ _ _ _ Hz)) by (by left).
    rewrite (own_lookup _ _ a _ (z_own _ _ _ _ Hza)) by (by left). simpl in *. by rewrite Haddr, Hnil. }
  assert (Hn3 : black_nil s3 ∉ K) by apply Hd.
  assert (Hnm : nodes s3 !! black_nil s1 = nodes s1 !! black_nil s1).
  { apply (same_nodes _ _ _ Hs3). rewrite (same_nil _ _ _ Hs3) in Hn3. set_solver. }
  destruct (take_place_done K s s3 _ _ _ _ _ mr (f :: c1) c Hd Hl Hk3) as (s' & E' & Hs').
  - destruct Hs1 as (nn & Hnn & Hb). exists nn. by rewrite (same_nil _ _ _ Hs3), Hnm.
  - intros ->. rewrite (same_nil _ _ _ Hs3). rewrite <- Hnil in Hp1. simpl in *. rewrite <- Hp1.
    unfold get_parent, get_node. by rewrite Hnm.
  - exists (addr (black_nil s1) (plug mr (f :: c1))), s1, s2, s3, s'. split_and!; try done.
    exact (get_right_z _ _ _ _ _ _ _ Hza).
Qed.

Lemma take_successor_spec fuel K s l a h r c : zrepr K s (Br l a h r) c → l ≠ Leaf → r ≠ Leaf →
  black_sentinel s → (height r ≤ fuel)%nat → ∃ s' m mh mr c1,
  plug (Br Leaf m mh mr) c1 = r ∧ Forall is_left c1
  ∧ take_successor fuel s a = Done (get_color mh, addr (black_nil s) mr, s')
  ∧ succeeded K s s' l a h m mh mr c1 c.
Proof.
  intros Hz Hl Hr Hsent Hh. destruct r as [|rl x xh rr]; [done|]. clear Hr.
  assert (Hzr : zrepr K s (Br rl x xh rr) (FR l a h :: c)) by (by apply zrepr_close).
  destruct (get_subtree_min_spec fuel _ _ _ _ _ _ _ Hzr Hh) as (m & mh & mr & c1 & Em & Hpl & Hc1).
  pose proof (get_right_z _ _ _ _ _ _ _ Hz) as Er. simpl in Er. rewrite <- Hpl in Hzr.
  pose proof (proj2 (zrepr_app _ _ _ _ _) Hzr) as Hzm.
  assert (Ecol : color_of s m = Done (get_color mh)) by (unfold color_of; by rewrite (z_get _ _ _ _ _ _ _ Hzm)).
  pose proof (get_right_z _ _ _ _ _ _ _ Hzm) as Emr.
  unfold take_successor. run_steps. destruct c1 as [|f c1].
  - simpl in Hpl. injection Hpl as <- <- <- <-.
    destruct (successor_child _ _ _ _ _ _ _ _ _ Hz Hl Hsent) as (s1 & s' & E1 & E2 & Hs).
    rewrite bool_decide_false by naive_solver. run_steps. by exists s', m, mh, mr, [].
  - pose proof (focus_not_above _ _ _ _ _ _ Hzm) as Hne. rewrite Hpl in Hne. simpl in Hne.
    rewrite bool_decide_true by done. rewrite <- Hpl in Hz.
    destruct (successor_deep _ _ _ _ _ _ _ _ _ _ _ Hz Hl Hsent) as (y & s1 & s2 & s3 & s' & E1 & E2 & E3 & E4 & E5 & E6 & Hs).
    run_steps. by exists s', m, mh, mr, (f :: c1).
Qed.

(** ** The operation *)

(** What the end of [remove_node] does once [y] has taken the place of a node of
    header [h] whose only subtree it was. *)
Lemma finish_spec fuel K s d y a h c n : rb (mk d y a h Leaf) n → ctx_ok c n →
  tcolor (mk d y a h Leaf) = Black ∨ match c with f :: _ => get_color (f_hdr f) = Black | [] => False end →
  zrepr K s y c → black_sentinel s →
  get_parent s (addr (black_nil s) y) = Done (ctx_parent (black_nil s) c) → (length c < fuel)%nat → ∃ s',
  match get_color h with
  | Black => fix_remove_rb_violation fuel s (addr (black_nil s) y)
  | Red => Done s
  end = Done s' ∧ removed K s s' (cin c (inorder y)).
Proof using NodePayloadLaws0.
  intros Hrb Hctx Hcol Hz Hsent Hpar Hfuel. apply rb_mk_inv in Hrb. rewrite tcolor_mk in Hcol.
  destruct (get_color h).
  - destruct Hrb as (m & -> & Hy & _). apply (fix_remove_spec fuel K c s y m).
    + split; try done. destruct (tcolor y) eqn:Ey; [done|]. destruct y as [|yl b bh yr]; [done|].
      apply rb_red_inv in Hy as (Hl & Hr & _); [|done]. by apply rb_blacken.
    + unfold levels. destruct (tcolor y); lia.
  - destruct Hcol as [|Hcol]; [done|]. destruct Hrb as (Hy & _ & Hyb & _). exists s. split; [done|]. split; [done|].
    split; [done|]. exists (plug y c). split_and!.
    + by apply zrepr_plug.
    + apply inorder_plug.
    + eapply plug_black; [done|by left].
    + apply (rb_plug _ _ n); [done|done|by left].
Qed.

Lemma height_plug (t : tree) c : (length c + height t ≤ height (plug t c))%nat.
Proof.
  revert t. induction c as [|f c IH]; intros t; simpl; [done|]. specialize (IH (close f t)).
  destruct f; simpl in *; lia.
Qed.
(** Every node of the tree is the focus of a zipper. *)
Lemma find_focus nil par (t : tree) a : a ∈ (tnodes nil par t).*1 → ∃ l h r c, plug (Br l a h r) c = t.
Proof.
  revert par. induction t as [|l IHl b h r IHr]; intros par; simpl; [by intros ?%elem_of_nil|].
  rewrite fmap_app. intros [->|[Ha|Ha]%elem_of_app]%elem_of_cons.
  - by exists l, h, r, [].
  - destruct (IHl _ Ha) as (l' & h' & r' & c & <-). exists l', h', r', (c ++ [FL b h r]). by rewrite plug_app.
  - destruct (IHr _ Ha) as (l' & h' & r' & c & <-). exists l', h', r', (c ++ [FR l b h]). by rewrite plug_app.
Qed.
Lemma cin_app (c1 c2 : list frame) L : cin (c1 ++ c2) L = cin c2 (cin c1 L).
Proof. revert L. induction c1 as [|[] c1 IH]; intros L; simpl; [done|by rewrite IH..]. Qed.
Lemma ctx_ok_replace c1 l a h m h' (c : list frame) n : get_color h' = get_color h →
  ctx_ok (c1 ++ FR l a h :: c) n → ctx_ok (c1 ++ FR l m h' :: c) n.
Proof.
  intros E. revert n. induction c1 as [|f c1 IH]; intros n; simpl; [by rewrite E|].
  intros [Hs Hf]. split; [done|]. destruct (get_color (f_hdr f)); [by apply IH|].
  destruct Hf as (Hsb & Hc & Hhd). split_and!; [done|by apply IH|]. destruct c1; simpl in *; congruence.
Qed.

(** The state once the node [a] is unlinked: [y] has replaced a node of colour
    [col] below [c]. *)
Record taken_out (fuel : nat) (K : gset Z) s s1 (a v : Z) (t y : tree) (c : list frame) (hx : P) : Prop := {
  to_z : zrepr (K ∖ {[a]}) s1 y c;
  to_kept : kept (K ∖ {[a]}) s s1;
  to_sent : black_sentinel s1;
  to_parent : get_parent s1 (addr (black_nil s1) y) = Done (ctx_parent (black_nil s1) c);
  to_rb : ∃ d x n, rb (mk d y x hx Leaf) n ∧ ctx_ok c n
    ∧ (get_color hx = Black ∨ match c with f :: _ => get_color (f_hdr f) = Black | [] => False end);
  to_len : (length c < fuel)%nat;
  to_inorder : ∃ L1 L2, inorder t = L1 ++ (a, v) :: L2 ∧ cin c (inorder y) = L1 ++ L2
}.

Lemma rb_facts d y x hx c m fuel : rb (plug (mk d y x hx Leaf) c) m → tcolor (plug (mk d y x hx Leaf) c) = Black →
  (height (plug (mk d y x hx Leaf) c) < fuel)%nat →
  (∃ d x n, rb (mk d y x hx Leaf) n ∧ ctx_ok c n
    ∧ (get_color hx = Black ∨ match c with f :: _ => get_color (f_hdr f) = Black | [] => False end))
  ∧ (length c < fuel)%nat.
Proof.
  intros Hrb Hb Hh. destruct (ctx_ok_unplug _ _ _ Hrb Hb) as (n & Hn & Hc & Hcol). rewrite tcolor_mk in Hcol.
  split; [by exists d, x, n|]. pose proof (height_plug (mk d y x hx Leaf) c). lia.
Qed.

Lemma take_out_child fuel K s d y a h c m : zrepr K s (mk d y a h Leaf) c → black_sentinel s →
  rb (plug (mk d y a h Leaf) c) m → tcolor (plug (mk d y a h Leaf) c) = Black →
  (height (plug (mk d y a h Leaf) c) < fuel)%nat → ∃ s1,
  swap_nodes s a (addr (black_nil s) y) = Done s1
  ∧ taken_out fuel K s s1 a (value h) (plug (mk d y a h Leaf) c) y c h.
Proof.
  intros Hz Hsent Hrb Hb Hh. destruct (swap_child_spec _ _ _ _ _ _ _ Hz Hsent) as (s1 & E & [Hz1 Hk] & Hs1 & Hp).
  rewrite <- (kept_nil _ _ _ Hk) in Hp. destruct (rb_facts _ _ _ _ _ _ _ Hrb Hb Hh) as [Hfacts Hlen].
  exists s1. split; [done|]. split; try done. rewrite inorder_plug, !cin_split. destruct d; simpl; unfold cons_node.
  - exists (pre c ++ inorder y), (post c). by rewrite <- !app_assoc.
  - by exists (pre c), (inorder y ++ post c).
Qed.

Lemma take_out_spec fuel K s l a h r c m : zrepr K s (Br l a h r) c → black_sentinel s →
  rb (plug (Br l a h r) c) m → tcolor (plug (Br l a h r) c) = Black →
  (height (plug (Br l a h r) c) < fuel)%nat → ∃ s1 y c' hx,
  take_out fuel s a = Done (get_color hx, addr (black_nil s) y, s1)
  ∧ taken_out fuel K s s1 a (value h) (plug (Br l a h r) c) y c' hx.
Proof using NodePayloadLaws0.
  intros Hz Hsent Hrb Hb Hh. unfold take_out.
  assert (Hcol : color_of s a = Done (get_color h)) by (unfold color_of; by rewrite (z_get _ _ _ _ _ _ _ Hz)).
  rewrite Hcol, (get_left_z _ _ _ _ _ _ _ Hz), (get_right_z _ _ _ _ _ _ _ Hz). cbn [mbind outcome_bind].
  destruct l as [|ll b bh lr].
  { rewrite bool_decide_true by done.
    destruct (take_out_child fuel K s OnRight r a h c m) as (s1 & E & Ht); try done.
    rewrite E. cbn [mbind outcome_bind]. by exists s1, r, c, h. }
  assert (Hzl : zrepr K s (Br ll b bh lr) (FL a h r :: c)) by (by apply zrepr_close).
  rewrite bool_decide_false by (by apply (addr_not_nil _ _ _ _ _ _ _ Hzl)).
  assert (r = Leaf ∨ r ≠ Leaf) as [->|Hr] by (destruct r; [by left|by right]).
  { rewrite bool_decide_true by done.
    destruct (take_out_child fuel K s OnLeft (Br ll b bh lr) a h c m) as (s1 & E & Ht); try done.
    rewrite E. cbn [mbind outcome_bind]. by exists s1, (Br ll b bh lr), c, h. }
  rewrite bool_decide_false.
  2: { destruct r as [|rl x xh rr]; [done|]. apply (zrepr_close _ _ _ (FR _ a h)) in Hz.
       by apply (addr_not_nil _ _ _ _ _ _ _ Hz). }
  pose proof (height_plug (Br (Br ll b bh lr) a h r) c) as Hhp. set (l := Br ll b bh lr) in *. simpl in Hhp.
  destruct (take_successor_spec fuel K s l a h r c) as (s1 & x & xh & y & c1 & <- & Hc1 & E & Hs); try done; [lia|].
  destruct Hs as (Hz1 & Hk & Hs1 & Hp). exists s1, y, (spot l x xh h c1 c), xh. split; [done|].
  assert (Epl : plug (Br l a h (plug (Br Leaf x xh y) c1)) c = plug (mk OnRight y x xh Leaf) (c1 ++ FR l a h :: c))
    by (by rewrite plug_app).
  rewrite Epl in Hrb, Hb, Hh. destruct (rb_facts _ _ _ _ _ _ _ Hrb Hb Hh) as [(d & x' & n & Hx & Hc & Hcx) Hlen].
  split; try done.
  - exists d, x', n. split_and!; [done|eapply ctx_ok_replace; [apply get_set_color|done]|].
    destruct c1; simpl in *; by rewrite ?get_set_color.
  - unfold spot. rewrite !length_app in *. done.
  - rewrite inorder_plug. simpl. rewrite inorder_plug. simpl. unfold spot. rewrite cin_app. simpl.
    rewrite cons_set_color. unfold cons_node. rewrite cin_left by done. rewrite !cin_split.
    exists (pre c ++ inorder l), ((x, value xh) :: (pre c1 ++ inorder y ++ post c1) ++ post c).
    rewrite <- !app_assoc. simpl. by rewrite <- !app_assoc.
Qed.

(** What is left of the tree [t] once the node [a] is out. *)
Definition without (K : gset Z) s (t : tree) (a v : Z) s' : Prop := ∃ t' L1 L2,
  rbtree (K ∖ {[a]}) s' t' ∧ inorder t = L1 ++ (a, v) :: L2 ∧ inorder t' = L1 ++ L2
  ∧ count s' = u64 (count s - 1) ∧ black_nil s' = black_nil s
  ∧ ∀ y, y ∉ K ∖ {[a]} → y ≠ black_nil s → nodes s' !! y = nodes s !! y.

Lemma remove_node_spec fuel K s t a : rbtree K s t → a ∈ K →
  (2 * Nat.log2 (S (length (inorder t))) < fuel)%nat → ∃ s' v,
  remove_node fuel s a = Done (a, s') ∧ without K s t a v s'.
Proof.
  intros [Hz Hsent Hb (m & Hrb) Hsorted] Ha Hfuel. pose proof (rb_height_log _ _ Hrb Hb) as Hh.
  assert (Hin : a ∈ (tnodes (black_nil s) (black_nil s) t).*1).
  { rewrite <- (z_keys _ _ _ _ Hz) in Ha. unfold znodes in Ha. simpl in Ha. rewrite app_nil_r in Ha.
    by apply elem_of_list_to_set in Ha. }
  destruct (find_focus _ _ _ _ Hin) as (l & h & r & c & <-).
  pose proof (proj2 (zrepr_app K s _ c []) Hz) as Hzf. rewrite app_nil_r in Hzf.
  destruct (take_out_spec fuel K s l a h r c m) as (s1 & y & c' & hx & E1 & Ht); try done; [lia|].
  destruct Ht as [Hz1 Hk1 Hs1 Hp1 (d & x & n & Hx & Hc & Hcx) Hlen (L1 & L2 & EL & EL')].
  pose proof (kept_nil _ _ _ Hk1) as Hnil.
  destruct (finish_spec fuel (K ∖ {[a]}) s1 d y x hx c' n) as (s2 & E2 & Hk2 & Hs2 & t' & Hz2 & Hin2 & Hb2 & Hrb2);
    try done; [by rewrite tcolor_mk|].
  pose proof (transitivity Hk1 Hk2) as Hk. rewrite Hnil in E2.
  exists (with_count s2 (u64 (count s2 - 1))), (value h). split; [|exists t', L1, L2; split_and!].
  - unfold remove_node. rewrite E1. cbn [mbind outcome_bind]. by rewrite E2.
  - destruct Hz2. split; [by constructor|done..|]. rewrite Hin2, EL'.
    rewrite EL, !StronglySorted_app_iff in Hsorted. apply StronglySorted_app_iff.
    destruct Hsorted as (H1 & H2 & H3). inversion_clear H2. split_and!; [done..|]. intros u v Hu Hv. apply H3; set_solver.
  - done.
  - by rewrite Hin2.
  - simpl. by rewrite (kept_count _ _ _ Hk).
  - apply Hk.
  - intros u Hu Hun. by apply (kept_nodes _ _ _ Hk).
Qed.

(** ** The best fit *)

(** The best node seen so far: every node before the focus is too small, every
    node after it is at least as large as the best one. *)
Record fit_inv (v cl rm : Z) (L : list (Z * Z)) (c : list frame) : Prop := {
  fit_pre : Forall (λ e, e.2 < v) (pre c);
  fit_post : Forall (λ e, cl ≤ e.2) (post c);
  fit_best : cl = u64_max ∨ (v < cl ∧ (rm, cl) ∈ L)
}.
(** What the loop finds. *)
Definition fits (v cl rm : Z) (L : list (Z * Z)) : Prop :=
  (∀ e, e ∈ L → v ≤ e.2 → cl ≤ e.2) ∧ (cl = u64_max ∨ (v ≤ cl ∧ (rm, cl) ∈ L)).

Lemma fit_left v cl rm L a h l r c w x : fit_inv v cl rm L c → StronglySorted value_le L →
  L = cin c (inorder (Br l a h r)) → v < value h → w ≤ value h → (w = u64_max ∨ (v < w ∧ (x, w) ∈ L)) →
  fit_inv v w x L (FL a h r :: c).
Proof.
  intros [Hpre Hpost Hbest] Hs EL Hv Hw Hx. split; [done| |done]. simpl. rewrite EL, cin_split in Hs. simpl in Hs.
  unfold cons_node in Hs. rewrite !StronglySorted_app_iff in Hs.
  destruct Hs as (_ & ((_ & Hr & _) & _ & Hp) & _). inversion_clear Hr as [|?? _ Hf].
  rewrite Forall_cons, Forall_app. split_and!; [done|..]; rewrite Forall_forall in *; intros e He.
  - specialize (Hf e He). unfold value_le in Hf. simpl in Hf. lia.
  - assert (Hle : value_le (a, value h) e) by (apply Hp; set_solver). unfold value_le in Hle. simpl in Hle. lia.
Qed.
Lemma fit_right v cl rm L a h l r c : fit_inv v cl rm L c → StronglySorted value_le L →
  L = cin c (inorder (Br l a h r)) → value h < v → fit_inv v cl rm L (FR l a h :: c).
Proof.
  intros [Hpre Hpost Hbest] Hs EL Hv. split; [|done|done]. simpl. rewrite EL, cin_split in Hs. simpl in Hs.
  unfold cons_node in Hs. rewrite !StronglySorted_app_iff in Hs. destruct Hs as (_ & ((_ & _ & Hl) & _ & _) & _).
  rewrite !Forall_app, Forall_singleton. split_and!; [done| |done]. apply Forall_forall. intros e He.
  assert (Hle : value_le e (a, value h)) by (apply Hl; set_solver). unfold value_le in Hle. simpl in Hle. lia.
Qed.

Lemma fit_loop_spec fuel K s v t c L cl rm : zrepr K s t c → (height t < fuel)%nat → L = cin c (inorder t) →
  StronglySorted value_le L → fit_inv v cl rm L c → ∃ cl' rm',
  fit_loop fuel s v (addr (black_nil s) t) cl rm = Done (cl', rm') ∧ fits v cl' rm' L.
Proof using NodePayloadLaws0.
  revert fuel c cl rm. induction t as [|l IHl a h r IHr]; intros [|fuel] c cl rm Hz Hh EL Hs Hinv;
    simpl in Hh; try lia; cbn [fit_loop].
  { rewrite bool_decide_false by naive_solver. exists cl, rm. split; [done|]. destruct Hinv as [Hpre Hpost Hbest].
    split; [|naive_solver lia]. intros e. rewrite EL, cin_split. simpl. rewrite Forall_forall in *.
    intros [He|He]%elem_of_app Hv; [specialize (Hpre e He); lia|auto]. }
  assert (Hin : (a, value h) ∈ L) by (rewrite EL, cin_split; simpl; unfold cons_node; set_solver).
  rewrite bool_decide_true by (by apply (addr_not_nil _ _ _ _ _ _ _ Hz)). cbn [addr].
  rewrite (value_z _ _ _ _ _ _ _ Hz). cbn [mbind outcome_bind]. case_bool_decide as Heq.
  { subst v. exists (value h), a. split; [done|]. split; [done|]. right. split; [lia|done]. }
  assert (EL1 : L = cin (FL a h r :: c) (inorder l)) by done. assert (EL2 : L = cin (FR l a h :: c) (inorder r)) by done.
  case_bool_decide as Hlt.
  - rewrite (get_left_z _ _ _ _ _ _ _ Hz). cbn [mbind outcome_bind]. apply (zrepr_close _ _ _ (FL a h r)) in Hz as Hzl.
    case_bool_decide as Hcl; eapply IHl; try done; [lia| |lia|];
      eapply fit_left; try done; try lia; [right; done|apply Hinv].
  - rewrite (get_right_z _ _ _ _ _ _ _ Hz). cbn [mbind outcome_bind]. apply (zrepr_close _ _ _ (FR l a h)) in Hz as Hzr.
    eapply IHr; try done; [lia|]. eapply fit_right; try done. lia.
Qed.

(** C11: removal from the red-black tree of the kernel heap.  From a state whose
    links form a red-black search tree, [remove_node] of one of its nodes returns
    that node, within a number of steps logarithmic in the size of the tree, in a
    state whose links form a red-black search tree of the other nodes, in the
    same order.  The node itself and the rest of the memory are unchanged, the
    sentinel apart. *)
Theorem remove_node_correct fuel K s t a : rbtree K s t → a ∈ K →
  (2 * Nat.log2 (S (length (inorder t))) < fuel)%nat → ∃ s' v,
  remove_node fuel s a = Done (a, s') ∧ without K s t a v s'.
Proof. apply remove_node_spec. Qed.

Lemma inorder_u64 (t : tree) e : e ∈ inorder t → e.2 ≤ u64_max.
Proof using NodePayloadLaws0.
  induction t as [|l IHl a h r IHr]; simpl; [by intros ?%elem_of_nil|].
  intros [?|[->|?]%elem_of_cons]%elem_of_app; [auto| |auto]. pose proof (value_u64 h). unfold u64_max. simpl. lia.
Qed.
(** The nodes of the tree, by address. *)
Lemma tnodes_inorder nil par (t : tree) : (tnodes nil par t).*1 ≡ₚ (inorder t).*1.
Proof.
  revert par. induction t as [|l IHl a h r IHr]; intros par; simpl; [done|].
  unfold cons_node. rewrite !fmap_app, IHl, IHr. simpl. by rewrite Permutation_middle.
Qed.
Lemma inorder_keys K s t : zrepr K s t [] → NoDup (inorder t).*1 ∧ list_to_set (inorder t).*1 = K.
Proof.
  intros [[Hnd _] Hk _ _]. unfold znodes in *. simpl in *. rewrite app_nil_r, tnodes_inorder in Hnd, Hk. done.
Qed.
Lemma inorder_key K s t a v : zrepr K s t [] → (a, v) ∈ inorder t → a ∈ K.
Proof.
  intros Hz Hin. destruct (inorder_keys _ _ _ Hz) as [_ <-]. apply elem_of_list_to_set.
  by apply (list_elem_of_fmap_2 fst) in Hin.
Qed.
Lemma inorder_unique K s t a v w : zrepr K s t [] → (a, v) ∈ inorder t → (a, w) ∈ inorder t → v = w.
Proof.
  intros Hz H1 H2. destruct (inorder_keys _ _ _ Hz) as [Hnd _].
  apply (elem_of_list_to_map (M:=gmap Z)) in H1, H2; [|done..]. congruence.
Qed.

(** The best fit is found and taken out. *)
Lemma find_best_node_fit_spec fuel K s t v : rbtree K s t → 0 ≤ v →
  (2 * Nat.log2 (S (length (inorder t))) < fuel)%nat → ∃ o s',
  find_best_node_fit fuel s v = Done (o, s')
  ∧ match o with
    | Some a => ∃ w, v ≤ w ∧ (∀ e, e ∈ inorder t → v ≤ e.2 → w ≤ e.2) ∧ without K s t a w s'
    | None => s' = s ∧ ∀ e, e ∈ inorder t → v ≤ e.2 → e.2 = u64_max
    end.
Proof.
  intros Hrbt Hv Hfuel. pose proof Hrbt as [Hz Hsent Hb (m & Hrb) Hs]. pose proof (rb_height_log _ _ Hrb Hb) as Hh.
  unfold find_best_node_fit. pose proof (z_root _ _ _ _ Hz) as Hroot. simpl in Hroot. case_bool_decide as Hr.
  { exists None, s. split; [done|]. split; [done|]. destruct t as [|l a h r]; [by intros e ?%elem_of_nil|].
    apply addr_not_nil in Hz. simpl in Hroot. congruence. }
  destruct (fit_loop_spec fuel K s v t [] (inorder t) u64_max (root s)) as (cl & rm & E & Hall & Hbest);
    [done|lia|done|done|by split; [constructor|constructor|left]|].
  rewrite <- Hroot in E. rewrite E. cbn [mbind outcome_bind].
  assert (Hmax : ∀ e, e ∈ inorder t → e.2 ≤ u64_max) by (intros e He; apply (inorder_u64 t e He)).
  destruct (bool_decide (cl = u64_max)) eqn:Ecl; [apply bool_decide_eq_true in Ecl|apply bool_decide_eq_false in Ecl].
  { rewrite orb_true_r. exists None, s. split; [done|]. split; [done|]. intros e He Hve. specialize (Hall e He Hve).
    specialize (Hmax e He). lia. }
  destruct Hbest as [|[Hvcl Hin]]; [done|]. rewrite bool_decide_false by lia. cbn [orb].
  destruct (remove_node_spec fuel K s t rm Hrbt) as (s' & w & Er & Hw); [by eapply inorder_key|done|].
  rewrite Er. exists (Some rm), s'. split; [done|]. exists w.
  replace cl with w in *; [done|]. destruct Hw as (t' & L1 & L2 & _ & EL & _).
  eapply inorder_unique; [exact Hz| |exact Hin]. rewrite EL. set_solver.
Qed.

(** [find_best_node_fit] is a best fit.  From a red-black search tree it
    returns, for a request of [v], the smallest of the nodes of value at least
    [v] and takes it out of the tree; it returns nothing, and changes nothing,
    only when every node is smaller than [v] or has the value [u64::MAX]. *)
Theorem find_best_node_fit_correct fuel K s t v : rbtree K s t → 0 ≤ v →
  (2 * Nat.log2 (S (length (inorder t))) < fuel)%nat → ∃ o s',
  find_best_node_fit fuel s v = Done (o, s')
  ∧ match o with
    | Some a => ∃ w, v ≤ w ∧ (∀ e, e ∈ inorder t → v ≤ e.2 → w ≤ e.2) ∧ without K s t a w s'
    | None => s' = s ∧ ∀ e, e ∈ inorder t → v ≤ e.2 → e.2 = u64_max
    end.
Proof. apply find_best_node_fit_spec. Qed.
End shape.

Lemma remove_node_correct_witness : ∃ s' v,
  remove_node 3 new_raw_sample 100 = Done (100, s')
  ∧ without {[100]} new_raw_sample (Br Leaf 100 payload_NULL Leaf) 100 v s'.
Proof.
  assert (H0 : rbtree {[100]} new_raw_sample (Br Leaf 100 payload_NULL Leaf)) by (by apply new_raw_rbtree).
  assert (H1 : 100 ∈ ({[100]} : gset Z)) by set_solver.
  assert (H4 : (2 * Nat.log2 (S (length (inorder (Br Leaf 100 (payload_NULL : AllocHeader) Leaf)))) < 3)%nat) by (simpl; lia).
  exact (remove_node_correct 3 {[100]} new_raw_sample _ 100 H0 H1 H4).
Defined.

(** Nothing fits a request that is larger than every node. *)
Lemma find_best_node_fit_correct_witness : ∃ s',
  find_best_node_fit 3 new_raw_sample 64 = Done (None, s') ∧ s' = new_raw_sample.
Proof.
  assert (H0 : rbtree {[100]} new_raw_sample (Br Leaf 100 payload_NULL Leaf)) by (by apply new_raw_rbtree).
  assert (H1 : 0 ≤ 64) by lia.
  assert (H4 : (2 * Nat.log2 (S (length (inorder (Br Leaf 100 (payload_NULL : AllocHeader) Leaf)))) < 3)%nat) by (simpl; lia).
  destruct (find_best_node_fit_correct 3 {[100]} new_raw_sample _ 64 H0 H1 H4) as (o & s' & E & Hm).
  assert (Ho : o = None).
  { assert (E' : find_best_node_fit 3 new_raw_sample 64 = Done (None, new_raw_sample)) by (vm_compute; reflexivity).
    rewrite E' in E. congruence. }
  subst o. exists s'. split; [exact E|exact (proj1 Hm)].
Defined.
