(* ===== verification/KHeap.v ===== *)
(** The kernel heap (src/mem/vmalloc/kheap.rs and mod.rs).

    A heap is a sequence of blocks.  Each starts with an [AllocHeader], which
    the red-black trees see as the payload of a node, and a free block ends with
    a copy of it, the footer, through which the block to its right finds it.  Two
    trees hold the free blocks, one those backed by physical memory.

    The memory of the heap is modelled by the objects the code places in it:
    the nodes, in [mem], and the footers, in [footers].  Where a block is split
    the code reinterprets bytes of the old block as a node; what it finds there
    is the argument [raw], any node.  Page faults are not modelled: memory of the
    heap can be accessed whether or not it has been mapped. *)

From stdpp Require Import sorting.
From S2P Require Import Prelude Addr Frames Paging AllocHeader RbTree RbRemove.

(** * What the heap asks of the memory manager

    [alloc_page] of the frame allocator and [map_physical_memory] of the mapper,
    with the flags the heap passes. *)
Class PageSource (A : Type) := {
  source_alloc_page : Z → A → outcome (result FrameAllocation FrameAllocationError * A);
  source_map : Z → Z → Z → A → outcome A
}.
(** * The allocator *)

(** The fields of an [RbTree]; the nodes are in the memory of the heap. *)
Record tree_ref := { t_root : Z; t_nil : Z; t_count : Z }.

Record KernelHeapAllocator := {
  heap_start : Z;
  heap_end : Z;
  heap_size : Z;
  mapped_alloc_tree : tree_ref;
  unmapped_alloc_tree : tree_ref;
  mem : gmap Z (Node AllocHeader);
  footers : gmap Z AllocHeader
}.
#[local] Notation heap := KernelHeapAllocator.

Definition MIN_HEAP_SIZE : Z := 0x1000.
Definition MIN_KHEAP_ALIGN : Z := 0x10.
Definition MIN_BLOCK_SIZE : Z := 0x80.
Definition MIN_ALLOC_SIZE : Z := 0x40.
(** [size_of::<AllocHeader>()] and [size_of::<Node<AllocHeader>>()]. *)
Definition HEADER_SIZE : Z := 16.
Definition NODE_SIZE : Z := 40.
(** Steps given to a walk of a tree of less than [2 ^ 64] nodes. *)
Definition TREE_FUEL : nat := 256.

Definition with_mem (h : heap) (m : gmap Z (Node AllocHeader)) : heap := {|
  heap_start := heap_start h; heap_end := heap_end h; heap_size := heap_size h;
  mapped_alloc_tree := mapped_alloc_tree h; unmapped_alloc_tree := unmapped_alloc_tree h;
  mem := m; footers := footers h
|}.
Definition with_footers (h : heap) (f : gmap Z AllocHeader) : heap := {|
  heap_start := heap_start h; heap_end := heap_end h; heap_size := heap_size h;
  mapped_alloc_tree := mapped_alloc_tree h; unmapped_alloc_tree := unmapped_alloc_tree h;
  mem := mem h; footers := f
|}.

(** One of the two trees, with the memory, and the heap after an operation on it. *)
Definition tree_of (h : heap) (r : tree_ref) : RbTree AllocHeader :=
  {| root := t_root r; black_nil := t_nil r; count := t_count r; nodes := mem h |}.
Definition the_ref (mapped : bool) (h : heap) : tree_ref :=
  if mapped then mapped_alloc_tree h else unmapped_alloc_tree h.
Definition the_tree (mapped : bool) (h : heap) : RbTree AllocHeader := tree_of h (the_ref mapped h).
Definition put_tree (mapped : bool) (h : heap) (s : RbTree AllocHeader) : heap :=
  let r := {| t_root := root s; t_nil := black_nil s; t_count := count s |} in {|
  heap_start := heap_start h; heap_end := heap_end h; heap_size := heap_size h;
  mapped_alloc_tree := if mapped then r else mapped_alloc_tree h;
  unmapped_alloc_tree := if mapped then unmapped_alloc_tree h else r;
  mem := nodes s; footers := footers h
|}.

(** [get_node().header] and [get_node_mut().header], through a link. *)
Definition read_header (h : heap) (a : Z) : outcome AllocHeader := header <$> deref (mem h !! a).
Definition map_header (f : AllocHeader → AllocHeader) (n : Node AllocHeader) : Node AllocHeader :=
  {| header := f (header n); parent := parent n; left := left n; right := right n |}.
Definition on_header (h : heap) (a : Z) (f : AllocHeader → AllocHeader) : outcome heap :=
  n ← deref (mem h !! a);
  Done (with_mem h (<[a := map_header f n]> (mem h))).
(** Bytes at [a] that are read as a node from now on. *)
Definition carve (h : heap) (a : Z) (raw : Node AllocHeader) : heap := with_mem h (<[a := raw]> (mem h)).

(** * Blocks *)

(** [NodeLink::addr]. *)
Definition link_addr (node : Z) : Z := VirtAddr_from_u64 node.

Definition init_node_end (h : heap) (node size : Z) : outcome heap :=
  let footer_ptr := VirtAddr_as_mut_ptr (VirtAddr_add_u64 (link_addr node) size) in
  hd ← read_header h node;
  Done (with_footers h (<[footer_ptr := hd]> (footers h))).
Definition init_node_header (h : heap) (node size : Z) : outcome heap :=
  h ← on_header h node (λ hd, set_size hd size);
  on_header h node (λ hd, set_left_allocated hd true).

Definition get_block_right_neighbor (node size : Z) : Z :=
  VirtAddr_as_mut_ptr (VirtAddr_add_usize (VirtAddr_add_u64 (link_addr node) size) HEADER_SIZE).
Definition get_block_left_neighbor (h : heap) (node : Z) : outcome Z :=
  left_footer ← deref (footers h !! VirtAddr_as_mut_ptr (VirtAddr_sub_usize (link_addr node) HEADER_SIZE));
  Done (VirtAddr_as_mut_ptr
          (VirtAddr_sub_usize (VirtAddr_sub_u64 (link_addr node) (get_size left_footer)) HEADER_SIZE)).
Definition get_block_start_addr (node : Z) : Z := VirtAddr_add_usize (link_addr node) HEADER_SIZE.
Definition get_node_from_block_addr (block : Z) : Z :=
  VirtAddr_as_mut_ptr (VirtAddr_sub_usize block HEADER_SIZE).

Definition tree_insert (mapped : bool) (h : heap) (node : Z) : outcome heap :=
  s ← insert_node TREE_FUEL (the_tree mapped h) node; Done (put_tree mapped h s).
Definition tree_remove (mapped : bool) (h : heap) (node : Z) : outcome (Z * heap) :=
  '(n, s) ← remove_node TREE_FUEL (the_tree mapped h) node; Done (n, put_tree mapped h s).
Definition tree_best_fit (mapped : bool) (h : heap) (v : Z) : outcome (option Z * heap) :=
  '(o, s) ← find_best_node_fit TREE_FUEL (the_tree mapped h) v; Done (o, put_tree mapped h s).

Definition init_free_node (h : heap) (node size : Z) (mapped : bool) : outcome heap :=
  h ← on_header h node (λ hd, set_size hd size);
  h ← on_header h node (λ hd, AllocHeader_set_color hd Red);
  h ← on_header h node (λ hd, set_left_allocated hd true);
  h ← init_node_end h node size;
  h ← on_header h (get_block_right_neighbor node size) (λ hd, set_left_allocated hd false);
  tree_insert mapped h node.

(** [KernelHeapAllocator::init], on what the memory holds: the two trees, then the
    headers of their first nodes. *)
Definition init_trees (m : gmap Z (Node AllocHeader)) (start size : Z) : heap :=
  let heap_end := VirtAddr_sub_usize (VirtAddr_add_usize start size) (2 * NODE_SIZE) in
  let unmapped := new_raw start (VirtAddr_sub_usize heap_end NODE_SIZE) m in
  let mapped := new_raw heap_end (VirtAddr_add_usize heap_end NODE_SIZE) (nodes unmapped) in
  let ref s := {| t_root := root s; t_nil := black_nil s; t_count := count s |} in
  {| heap_start := start; heap_end := heap_end; heap_size := size;
     mapped_alloc_tree := ref mapped; unmapped_alloc_tree := ref unmapped;
     mem := nodes mapped; footers := ∅ |}.
Definition init (m : gmap Z (Node AllocHeader)) (start size : Z) : outcome heap :=
  aligned ← VirtAddr_is_aligned_with start ALIGN_4KB;
  _ ← rust_assert aligned;
  _ ← rust_assert (bool_decide (MIN_HEAP_SIZE < size));
  let h := init_trees m start size in
  h ← on_header h (t_nil (unmapped_alloc_tree h)) allocate;
  h ← on_header h (t_nil (mapped_alloc_tree h)) allocate;
  h ← init_node_header h (t_root (unmapped_alloc_tree h)) (u64 (size - Z.shiftr PAGE_SIZE 1));
  h ← init_node_header h (t_root (mapped_alloc_tree h)) 0;
  h ← init_node_end h (t_root (unmapped_alloc_tree h)) (u64 (size - Z.shiftr PAGE_SIZE 1));
  init_node_end h (t_root (mapped_alloc_tree h)) 0.

(** * Allocation *)

Definition alloc_size_req_align (size_req : Z) : Z :=
  if bool_decide (size_req mod MIN_KHEAP_ALIGN ≠ 0)
  then u64 (u64 (size_req - size_req mod MIN_KHEAP_ALIGN) + MIN_KHEAP_ALIGN)
  else size_req.

(** The end of both [split_alloc*]: the block is used as a whole. *)
Definition take_whole (h : heap) (free_block block_size : Z) : outcome (Z * heap) :=
  let right_neigh := get_block_right_neighbor free_block block_size in
  h ← on_header h right_neigh (λ hd, set_left_allocated hd true);
  h ← init_node_header h free_block block_size;
  h ← on_header h free_block allocate;
  Done (get_block_start_addr free_block, h).

Definition split_alloc (raw : Node AllocHeader) (h : heap) (free_block size_req : Z) : outcome (Z * heap) :=
  hd ← read_header h free_block;
  let block_size := get_size hd in
  if bool_decide (u64 (size_req + MIN_BLOCK_SIZE) ≤ block_size) then
    let right := get_block_right_neighbor free_block size_req in
    let h := carve h right raw in
    h ← init_free_node h right (u64 (u64 (block_size - size_req) - HEADER_SIZE)) true;
    h ← init_node_header h free_block size_req;
    h ← on_header h right (λ hd, set_mapped hd true);
    h ← on_header h free_block allocate;
    Done (get_block_start_addr free_block, h)
  else take_whole h free_block block_size.

Section alloc.
Context {A : Type} `{PageSource A}.

Definition split_alloc_and_map (raw : Node AllocHeader) (h : heap) (a : A) (free_block size_req : Z) :
    outcome (Z * heap * A) :=
  hd ← read_header h free_block;
  let block_size := get_size hd in
  let page_aligned_start_addr := VirtAddr_new
    (u64 (Z.land (u64_from_VirtAddr (link_addr free_block)) (not_w 64 (PAGE_SIZE - 1)) + PAGE_SIZE)) in
  let page_aligned_alloc_size := u64 ((size_req / PAGE_SIZE + 1) * PAGE_SIZE) in
  '(r, a) ← source_alloc_page page_aligned_alloc_size a;
  match r with
  | Err _ => Done (VirtAddr_NULL_PTR, h, a)
  | Ok pages =>
      a ← source_map (start pages) page_aligned_start_addr (length_ pages) a;
      '(p, h) ← (
        if bool_decide (u64 (size_req + MIN_BLOCK_SIZE) ≤ block_size) then
          let right := get_block_right_neighbor free_block size_req in
          let h := carve h right raw in
          h ← init_free_node h right (u64 (u64 (block_size - size_req) - HEADER_SIZE)) false;
          h ← on_header h right (λ hd, set_mapped hd false);
          h ← init_node_header h free_block size_req;
          h ← on_header h free_block allocate;
          Done (get_block_start_addr free_block, h)
        else take_whole h free_block block_size);
      Done (p, h, a)
  end.

Definition kalloc_layout (raw : Node AllocHeader) (h : heap) (a : A) (size align : Z) : outcome (Z * heap * A) :=
  if bool_decide (size = 0) then Done (VirtAddr_NULL_PTR, h, a)
  else
    let alloc_size := if bool_decide (size < MIN_ALLOC_SIZE) then MIN_ALLOC_SIZE else size in
    let alloc_size := alloc_size_req_align alloc_size in
    '(o, h) ← tree_best_fit true h alloc_size;
    match o with
    | Some node => '(p, h) ← split_alloc raw h node alloc_size; Done (p, h, a)
    | None =>
        let page_aligned_alloc_size := u64 (
          (if bool_decide (alloc_size mod PAGE_SIZE ≠ 0) then alloc_size / PAGE_SIZE + 1
           else alloc_size / PAGE_SIZE) * PAGE_SIZE) in
        '(o, h) ← tree_best_fit false h page_aligned_alloc_size;
        match o with
        | Some node => split_alloc_and_map raw h a node alloc_size
        | None => Done (VirtAddr_NULL_PTR, h, a)
        end
    end.
End alloc.

(** * Deallocation *)

Record BlockMergeResult := { current : Z; m_left : Z; m_right : Z; new_size : Z }.

Definition merge_scan_neighbors (h : heap) (node : Z) (mapped : bool) : outcome BlockMergeResult :=
  hd ← read_header h node;
  let start_size := get_size hd in
  let right_node := get_block_right_neighbor node start_size in
  rhd ← read_header h right_node;
  let '(m_right, new_size) :=
    if negb (is_allocated rhd) && Bool.eqb mapped (is_mapped rhd)
    then (right_node, u64 (start_size + u64 (get_size rhd + HEADER_SIZE)))
    else (NULL_LINK, start_size) in
  if bool_decide (link_addr node ≠ heap_start h) && negb (left_allocated hd) then
    m_left ← get_block_left_neighbor h node;
    lhd ← read_header h m_left;
    Done {| current := node; m_left := m_left; m_right := m_right;
            new_size := u64 (new_size + u64 (get_size lhd + HEADER_SIZE)) |}
  else Done {| current := node; m_left := NULL_LINK; m_right := m_right; new_size := new_size |}.

Definition merge (h : heap) (scan_result : BlockMergeResult) (mapped : bool) : outcome (BlockMergeResult * heap) :=
  '(cur, h) ← (if bool_decide (m_left scan_result ≠ NULL_LINK) then tree_remove mapped h (m_left scan_result)
               else Done (current scan_result, h));
  '(rt, h) ← (if bool_decide (m_right scan_result ≠ NULL_LINK) then tree_remove mapped h (m_right scan_result)
              else Done (m_right scan_result, h));
  h ← init_node_header h cur (new_size scan_result);
  Done ({| current := cur; m_left := m_left scan_result; m_right := rt; new_size := new_size scan_result |}, h).

Definition kfree (h : heap) (block : Z) : outcome heap :=
  if bool_decide (block = VirtAddr_NULL_PTR) then Done h
  else
    r ← merge_scan_neighbors h (get_node_from_block_addr block) true;
    '(r, h) ← merge h r true;
    hd ← read_header h (current r);
    init_free_node h (current r) (get_size hd) true.

(** * The global allocator (mod.rs) *)

Definition KERNEL_HEAP_BASE : Z := VirtAddr_new 0xFFFF_B000_0000_0000.
Definition KERNEL_HEAP_SIZE : Z := 0xBAB_0000_0000.

Section global.
Context {A : Type} `{PageSource A}.

(** One page is allocated and mapped at [virt]. *)
Definition map_one_page (virt : Z) (a : A) : outcome A :=
  '(r, a) ← source_alloc_page PAGE_SIZE a;
  match r with
  | Err _ => Panicked
  | Ok page => source_map (start page) virt (length_ page) a
  end.
(** [init_kernel_heap]; the state is the content of [KERNEL_HEAP_ALLOCATOR]. *)
Definition init_kernel_heap (m : gmap Z (Node AllocHeader)) (k : option heap) (a : A) : outcome (option heap * A) :=
  match k with
  | Some _ => Done (k, a)
  | None =>
      a ← map_one_page KERNEL_HEAP_BASE a;
      a ← map_one_page (VirtAddr_sub_usize (VirtAddr_add_usize KERNEL_HEAP_BASE KERNEL_HEAP_SIZE) PAGE_SIZE) a;
      h ← init m KERNEL_HEAP_BASE KERNEL_HEAP_SIZE;
      Done (Some h, a)
  end.
(** [GlobalAlloc] for [SyncKernelHeapAllocator]. *)
Definition GlobalAlloc_alloc (raw : Node AllocHeader) (k : option heap) (a : A) (size align : Z) :
    outcome (Z * option heap * A) :=
  h ← deref k;
  '(p, h, a) ← kalloc_layout raw h a size align;
  Done (VirtAddr_as_mut_ptr p, Some h, a).
Definition GlobalAlloc_dealloc (k : option heap) (ptr : Z) : outcome (option heap) :=
  h ← deref k;
  h ← kfree h (VirtAddr_new ptr);
  Done (Some h).
End global.

(** The memory manager of the kernel as the source of pages. *)
Definition Mapper_source {FB : FlagBits} {B : Type} `{FrameAllocator B} (mapping pml4 : Z) : PageSource (pg B) := {|
  source_alloc_page n s := '(r, b) ← Frames.allocate n (falloc s); Done (r, with_falloc s b);
  source_map p v n s := map_physical_memory mapping pml4 s p v (with_write flags_new true) flags_new n
|}.
