(* ===== verification/KHeapSafe.v ===== *)
(** The kernel heap is safe: over any run of allocations and deallocations the
    blocks in use are disjoint parts of the heap, and the calls return, an
    allocation provided that the memory manager it asks for pages does.

    The state of the heap is described by the list of its blocks, from the start
    of the heap to its end ([heap_inv]). *)

From stdpp Require Import sorting.
From S2P Require Import Prelude Addr Frames Paging FrameAlloc AllocHeader RbTree RbRemove KHeap.

#[local] Notation heap := KernelHeapAllocator.

(** * Headers *)

Section headers.
Implicit Types hd : AllocHeader.
Lemma size_set_size hd n : 0 ≤ n < 2 ^ 64 → n mod 16 = 0 → get_size (set_size hd n) = n.
Proof.
  intros Hn Hm. destruct (header_fields_spec hd n true Red Hn Hm) as (_ & _ & _ & _ & _ & H).
  exact (f_equal v_size H).
Qed.
(** The fields of a header after an operation on another field. *)
Lemma hdr_left hd b : let h' := set_left_allocated hd b in
  get_size h' = get_size hd ∧ is_allocated h' = is_allocated hd ∧ is_mapped h' = is_mapped hd
  ∧ left_allocated h' = b ∧ AllocHeader_get_color h' = AllocHeader_get_color hd.
Proof.
  destruct (header_fields_spec hd 0 b Red ltac:(lia) eq_refl) as (_ & _ & H & _). cbv zeta.
  split_and!; [exact (f_equal v_size H)|exact (f_equal v_allocated H)|exact (f_equal v_mapped H)
              |exact (f_equal v_left_allocated H)|].
  pose proof (f_equal v_red H) as Hr. cbn in Hr. by destruct (AllocHeader_get_color (set_left_allocated hd b)),
    (AllocHeader_get_color hd).
Qed.
Lemma hdr_mapped hd b : let h' := set_mapped hd b in
  get_size h' = get_size hd ∧ is_allocated h' = is_allocated hd ∧ is_mapped h' = b
  ∧ AllocHeader_get_color h' = AllocHeader_get_color hd.
Proof.
  destruct (header_fields_spec hd 0 b Red ltac:(lia) eq_refl) as (_ & _ & _ & H & _). cbv zeta.
  split_and!; [exact (f_equal v_size H)|exact (f_equal v_allocated H)|exact (f_equal v_mapped H)|].
  pose proof (f_equal v_red H) as Hr. cbn in Hr. by destruct (AllocHeader_get_color (set_mapped hd b)),
    (AllocHeader_get_color hd).
Qed.
Lemma hdr_allocate hd : let h' := allocate hd in
  get_size h' = get_size hd ∧ is_allocated h' = true ∧ left_allocated h' = left_allocated hd.
Proof.
  destruct (header_fields_spec hd 0 true Red ltac:(lia) eq_refl) as (H & _). cbv zeta.
  split_and!; [exact (f_equal v_size H)|exact (f_equal v_allocated H)|exact (f_equal v_left_allocated H)].
Qed.
Lemma size_left hd b : get_size (set_left_allocated hd b) = get_size hd.
Proof. apply hdr_left. Qed.
Lemma size_fmap_left (o : option AllocHeader) v :
  get_size <$> ((λ hd, set_left_allocated hd v) <$> o) = get_size <$> o.
Proof. destruct o as [hd|]; simpl; [|done]. f_equal. apply hdr_left. Qed.
Lemma size_color hd c : get_size (AllocHeader_set_color hd c) = get_size hd.
Proof. exact (value_set_color hd c). Qed.
Lemma size_range hd : 0 ≤ get_size hd < 2 ^ 64.
Proof. exact (value_u64 hd). Qed.
End headers.

(** * The trees, as sets of nodes *)

Section trees.
Context {P : Type} `{NodePayload P} `{!NodePayloadLaws P}.
Implicit Types s : RbTree P.
Notation tree := (@RbTree.tree P).

Lemma inorder_tnodes nil par (t : tree) a w : (a, w) ∈ inorder t →
  ∃ n, (a, n) ∈ tnodes nil par t ∧ value (header n) = w.
Proof.
  revert par. induction t as [|l IHl b h r IHr]; intros par; simpl; [by intros ?%elem_of_nil|].
  unfold cons_node. rewrite elem_of_app, elem_of_cons. intros [Hl|[[= -> ->]|Hr]].
  - destruct (IHl b Hl) as (n & ? & ?). exists n. set_solver.
  - eexists. split; [by left|done].
  - destruct (IHr b Hr) as (n & ? & ?). exists n. set_solver.
Qed.
(** The nodes of the tree are in memory, with the values the tree sorts them by. *)
Lemma inorder_lookup K s t a w : zrepr K s t [] → (a, w) ∈ inorder t →
  ∃ n, nodes s !! a = Some n ∧ value (header n) = w.
Proof.
  intros [Ho _ _ _] Hin. destruct (inorder_tnodes (black_nil s) (black_nil s) t a w Hin) as (n & Hn & Hv).
  exists n. split; [|done]. eapply own_lookup; [exact Ho|]. unfold znodes. simpl. by rewrite app_nil_r.
Qed.
Lemma key_inorder K s t a : zrepr K s t [] → a ∈ K → ∃ w, (a, w) ∈ inorder t.
Proof.
  intros Hz Ha. destruct (inorder_keys _ _ _ Hz) as [_ <-]. apply elem_of_list_to_set, list_elem_of_fmap in Ha.
  destruct Ha as ([x w] & -> & Hin). by exists w.
Qed.
Lemma inorder_length K s t : zrepr K s t [] → length (inorder t) = size K.
Proof.
  intros Hz. destruct (inorder_keys _ _ _ Hz) as [Hnd <-]. rewrite size_list_to_set by done. by rewrite length_fmap.
Qed.

(** The tree depends on its nodes and its sentinel only. *)
Lemma rbtree_frame K s s' t : rbtree K s t → root s' = root s → black_nil s' = black_nil s →
  (∀ y, y ∈ K ∨ y = black_nil s → nodes s' !! y = nodes s !! y) → rbtree K s' t.
Proof.
  intros [[[Hnd Hf] Hk Hn Hr] (n & Hs & Hc) Hb Hrb Hso] Er En Em. split; try done.
  - split; rewrite ?En, ?Er; try done. split; [done|]. rewrite Forall_forall in *. intros e He.
    rewrite Em; [by apply Hf|]. left. rewrite <- Hk. apply elem_of_list_to_set. by apply list_elem_of_fmap_2.
  - exists n. rewrite En, Em by (by right). done.
Qed.

Lemma rb_plug_same (t t' : tree) c : tcolor t = tcolor t' → (∀ n, rb t n → rb t' n) →
  ∀ m, rb (plug t c) m → rb (plug t' c) m.
Proof.
  revert t t'. induction c as [|f c IH]; intros t t' Hc Hrb m Hp; simpl in *; [auto|].
  eapply IH; [| |exact Hp]; destruct f; simpl; [done|done|..];
    intros n Hn; inversion Hn; subst; constructor; auto; congruence.
Qed.
Lemma tcolor_plug_same (t t' : tree) c : tcolor t = tcolor t' → tcolor (plug t c) = tcolor (plug t' c).
Proof. revert t t'. induction c as [|[] c IH]; intros t t' E; simpl; [done|by apply IH..]. Qed.

(** A header of the tree changes in a field the tree does not use. *)
Lemma rbtree_touch K s t a n hd : rbtree K s t → nodes s !! a = Some n → a ≠ black_nil s →
  value hd = value (header n) → get_color hd = get_color (header n) → ∃ t',
  rbtree K (with_nodes s (<[a := {| header := hd; parent := parent n; left := left n; right := right n |}]> (nodes s))) t'
  ∧ inorder t' = inorder t.
Proof.
  intros Hrbt Hla Hnil Hv Hc. destruct (decide (a ∈ K)) as [Ha|Ha].
  2: { exists t. split; [|done]. eapply rbtree_frame; [exact Hrbt|done..|]. intros y Hy. simpl.
       apply lookup_insert_ne. intros ->. destruct Hy; congruence. }
  destruct Hrbt as [Hz (sn & Hs & Hsc) Hb (m & Hrb) Hso].
  assert (Hin : a ∈ (tnodes (black_nil s) (black_nil s) t).*1).
  { rewrite <- (z_keys _ _ _ _ Hz) in Ha. unfold znodes in Ha. simpl in Ha. rewrite app_nil_r in Ha.
    by apply elem_of_list_to_set in Ha. }
  destruct (find_focus _ _ _ _ Hin) as (l & h & r & c & <-).
  pose proof (proj2 (zrepr_app K s _ c []) Hz) as Hzf. rewrite app_nil_r in Hzf.
  pose proof (z_get _ _ _ _ _ _ _ Hzf) as Hg. unfold get_node in Hg. rewrite Hla in Hg. injection Hg as ->.
  simpl in *. assert (Ein : inorder (plug (Br l a hd r) c) = inorder (plug (Br l a h r) c)).
  { rewrite !inorder_plug. f_equal. simpl. unfold cons_node. by rewrite Hv. }
  exists (plug (Br l a hd r) c). split; [|done]. split.
  - apply zrepr_plug. eapply (zrepr_change _ _ _ _ [_] _ _ _ [_] _ Hzf); unfold znodes; simpl;
      [reflexivity|reflexivity|done|by constructor; [apply lookup_insert_eq|]| |done|done|].
    + intros y Hy. apply lookup_insert_ne. set_solver.
    + rewrite (z_root _ _ _ _ Hz). simpl. by apply plug_addr.
  - exists sn. simpl. by rewrite lookup_insert_ne.
  - rewrite <- Hb. by apply tcolor_plug_same.
  - exists m. eapply rb_plug_same; [| |exact Hrb]; simpl; [done|]. intros k Hk.
    inversion Hk; subst; constructor; congruence.
  - by rewrite Ein.
Qed.
End trees.

(** * Addresses of the heap *)

(** A heap in the upper half of the address space: the conversions of
    [VirtAddr] do nothing there. *)
Definition high (a : Z) : Prop := 2 ^ 64 - 2 ^ 47 ≤ a < 2 ^ 64.
Record region (base sz : Z) : Prop := {
  reg_low : 2 ^ 64 - 2 ^ 47 ≤ base;
  reg_high : base + sz < 2 ^ 64;
  reg_page : base mod 0x1000 = 0;
  reg_size : 0x1000 < sz;
  reg_align : sz mod 16 = 0
}.
(** Where the last block ends, and the fixed nodes after it. *)
Definition stop (base sz : Z) : Z := base + sz - 0x800 + 16.
Definition end_of (base sz : Z) : Z := base + sz - 80.
Definition nil_of (mapped : bool) (base sz : Z) : Z := if mapped then base + sz - 40 else base + sz - 120.

Lemma high_new a : high a → VirtAddr_new a = a.
Proof. intros Ha. apply VirtAddr_new_id; unfold in_width, canonical, high in *; lia. Qed.
Lemma high_u64 a : high a → u64_from_VirtAddr a = a.
Proof. intros Ha. change (VirtAddr_new a = a). by apply high_new. Qed.
Lemma u64_high a : high a → u64 a = a.
Proof. intros Ha. apply u64_id. unfold high in *. lia. Qed.
Lemma high_add a n : high a → high (a + n) → VirtAddr_add_u64 a n = a + n.
Proof. intros Ha Hn. unfold VirtAddr_add_u64. by rewrite u64_high, high_new. Qed.
Lemma high_sub a n : high (a - n) → VirtAddr_sub_u64 a n = a - n.
Proof. intros Hn. unfold VirtAddr_sub_u64. by rewrite u64_high, high_new. Qed.

Lemma right_neighbor_eq a n : 0 ≤ n → high a → high (a + n + 16) → get_block_right_neighbor a n = a + n + 16.
Proof.
  intros Hn Ha Ha'. unfold get_block_right_neighbor, link_addr, VirtAddr_from_u64, HEADER_SIZE, VirtAddr_as_mut_ptr.
  assert (Hm : high (a + n)) by (unfold high in *; lia). rewrite (high_new a Ha), (high_add a n Ha Hm).
  change (u64_from_VirtAddr (VirtAddr_add_u64 (a + n) 16) = a + n + 16).
  by rewrite (high_add _ _ Hm Ha'), high_u64.
Qed.
Lemma footer_eq a n : 0 ≤ n → high a → high (a + n) → VirtAddr_as_mut_ptr (VirtAddr_add_u64 (link_addr a) n) = a + n.
Proof.
  intros Hn Ha Ha'. unfold link_addr, VirtAddr_from_u64, VirtAddr_as_mut_ptr.
  by rewrite (high_new a Ha), (high_add a n Ha Ha'), high_u64.
Qed.

(** * Steps on the memory *)

Definition hdr (h : heap) (a : Z) : option AllocHeader := header <$> mem h !! a.
Definition touch (h : heap) (a : Z) (f : AllocHeader → AllocHeader) : heap :=
  with_mem h (alter (map_header f) a (mem h)).

Lemma on_header_touch h a f : is_Some (hdr h a) → on_header h a f = Done (touch h a f).
Proof.
  unfold hdr, on_header, touch. intros [hd Ha]. destruct (mem h !! a) as [n|] eqn:E; [|done]. simpl.
  f_equal. f_equal. apply map_eq. intros y. destruct (decide (a = y)) as [<-|].
  - by rewrite lookup_insert_eq, lookup_alter_eq, E.
  - by rewrite lookup_insert_ne, lookup_alter_ne.
Qed.
Lemma read_header_hdr h a hd : hdr h a = Some hd → read_header h a = Done hd.
Proof. unfold hdr, read_header. destruct (mem h !! a); simpl; [by intros [= ->]|done]. Qed.
Lemma hdr_touch_eq h a f : hdr (touch h a f) a = f <$> hdr h a.
Proof. unfold hdr. simpl. rewrite lookup_alter_eq. by destruct (mem h !! a). Qed.
Lemma hdr_touch_ne h a f y : y ≠ a → hdr (touch h a f) y = hdr h y.
Proof. intros. unfold hdr. simpl. by rewrite lookup_alter_ne. Qed.
Lemma hdr_carve_eq h a raw : hdr (carve h a raw) a = Some (header raw).
Proof. unfold hdr. simpl. by rewrite lookup_insert_eq. Qed.
Lemma hdr_carve_ne h a raw y : y ≠ a → hdr (carve h a raw) y = hdr h y.
Proof. intros. unfold hdr. simpl. by rewrite lookup_insert_ne. Qed.
Lemma hdr_is_Some h a : is_Some (hdr h a) ↔ is_Some (mem h !! a).
Proof. unfold hdr. by rewrite fmap_is_Some. Qed.

(** ** The trees *)

Definition tree_ok (m : bool) (K : gset Z) (h : heap) : Prop := ∃ t, rbtree K (the_tree m h) t.

(** What an operation on the tree [m], of nodes [K], leaves alone. *)
Record tree_step (m : bool) (K : gset Z) (h h' : heap) : Prop := {
  st_start : heap_start h' = heap_start h;
  st_feet : footers h' = footers h;
  st_other : the_ref (negb m) h' = the_ref (negb m) h;
  st_nil : t_nil (the_ref m h') = t_nil (the_ref m h);
  st_mem : ∀ y, y ∉ K → y ≠ t_nil (the_ref m h) → mem h' !! y = mem h !! y;
  st_size : ∀ y, y ∈ K → get_size <$> hdr h' y = get_size <$> hdr h y
}.

Lemma the_tree_put m h s : the_tree m (put_tree m h s) = s.
Proof. by destruct m, s. Qed.
Lemma put_tree_same m h : put_tree m h (the_tree m h) = h.
Proof. destruct m, h as [? ? ? [] [] ? ?]; done. Qed.

Lemma size_of_key K h m t a w : rbtree K (the_tree m h) t → (a, w) ∈ inorder t → get_size <$> hdr h a = Some w.
Proof.
  intros [Hz _ _ _ _] Hin. destruct (inorder_lookup _ _ _ _ _ Hz Hin) as (n & Hn & Hv).
  unfold hdr. simpl in Hn. rewrite Hn. simpl. by f_equal.
Qed.
Lemma fuel_ok K h m t : rbtree K (the_tree m h) t → (Z.of_nat (size K) < 2 ^ 64 - 1) →
  (2 * Nat.log2 (S (length (inorder t))) < TREE_FUEL)%nat.
Proof.
  intros [Hz _ _ _ _] HK. rewrite (inorder_length _ _ _ Hz). unfold TREE_FUEL.
  assert (Nat.log2 (S (size K)) ≤ 64)%nat; [|lia]. apply Nat.lt_succ_r, Nat.log2_lt_pow2; [lia|].
  apply Nat2Z.inj_lt. rewrite Nat2Z.inj_pow. change (Z.of_nat 2) with 2. change (Z.of_nat 65) with 65. lia.
Qed.

Lemma tree_insert_ok m K h a : tree_ok m K h → a ∉ K → a ≠ t_nil (the_ref m h) → is_Some (hdr h a) →
  Z.of_nat (size K) < 2 ^ 64 - 1 → ∃ h',
  tree_insert m h a = Done h' ∧ tree_ok m ({[a]} ∪ K) h' ∧ tree_step m ({[a]} ∪ K) h h'.
Proof.
  intros (t & Ht) Ha Hn (n0 & Hn0)%hdr_is_Some HK. pose proof (fuel_ok _ _ _ _ Ht HK) as Hf.
  destruct (insert_node_spec TREE_FUEL K (the_tree m h) t a n0 Ht Ha Hn Hn0 Hf) as (s' & t' & E & Ht' & Hin & _ & Hnil & Hm).
  unfold tree_insert. rewrite E. cbn [mbind outcome_bind]. eexists. split; [done|]. split.
  { exists t'. by rewrite the_tree_put. }
  split; try done; try (by destruct m).
  - intros y Hy _. destruct m; apply (Hm y Hy).
  - intros y Hy. assert (Ht2 : rbtree ({[a]} ∪ K) (the_tree m (put_tree m h s')) t') by (by rewrite the_tree_put).
    destruct (key_inorder _ _ _ y (rbt_z _ _ _ Ht') Hy) as (w & Hw). rewrite (size_of_key _ _ _ _ _ _ Ht2 Hw).
    rewrite Hin in Hw. apply elem_of_cons in Hw as [[= -> ->]|Hw].
    + unfold hdr. simpl in Hn0. by rewrite Hn0.
    + by rewrite (size_of_key _ _ _ _ _ _ Ht Hw).
Qed.

(** The part of a removal that both removing operations share. *)
Lemma without_ok m K h t a v s' : rbtree K (the_tree m h) t → without K (the_tree m h) t a v s' →
  tree_ok m (K ∖ {[a]}) (put_tree m h s') ∧ tree_step m (K ∖ {[a]}) h (put_tree m h s')
  ∧ a ∈ K ∧ get_size <$> hdr h a = Some v.
Proof.
  intros Ht (t' & L1 & L2 & Ht' & EL & EL' & _ & Hnil & Hm). split_and!.
  - exists t'. by rewrite the_tree_put.
  - split; try done; try (by destruct m).
    intros y Hy. assert (Ht2 : rbtree (K ∖ {[a]}) (the_tree m (put_tree m h s')) t') by (by rewrite the_tree_put).
    destruct (key_inorder _ _ _ y (rbt_z _ _ _ Ht') Hy) as (w & Hw). rewrite (size_of_key _ _ _ _ _ _ Ht2 Hw).
    rewrite (size_of_key _ _ _ _ y w Ht); [done|]. rewrite EL. rewrite EL' in Hw. set_solver.
  - eapply inorder_key; [apply Ht|]. rewrite EL. apply elem_of_app. right. by left.
  - eapply size_of_key; [exact Ht|]. rewrite EL. set_solver.
Qed.
Lemma tree_remove_ok m K h a : tree_ok m K h → a ∈ K → Z.of_nat (size K) < 2 ^ 64 - 1 → ∃ h',
  tree_remove m h a = Done (a, h') ∧ tree_ok m (K ∖ {[a]}) h' ∧ tree_step m (K ∖ {[a]}) h h'.
Proof.
  intros (t & Ht) Ha HK. pose proof (fuel_ok _ _ _ _ Ht HK) as Hf.
  destruct (remove_node_spec TREE_FUEL K (the_tree m h) t a Ht Ha Hf) as (s' & v & E & Hw).
  unfold tree_remove. rewrite E. cbn [mbind outcome_bind]. eexists. split; [done|].
  destruct (without_ok _ _ _ _ _ _ _ Ht Hw) as (? & ? & _). done.
Qed.
Lemma tree_best_fit_ok m K h v : tree_ok m K h → 0 ≤ v → Z.of_nat (size K) < 2 ^ 64 - 1 → ∃ o h',
  tree_best_fit m h v = Done (o, h')
  ∧ match o with
    | Some a => a ∈ K ∧ tree_ok m (K ∖ {[a]}) h' ∧ tree_step m (K ∖ {[a]}) h h'
        ∧ ∃ w, get_size <$> hdr h a = Some w ∧ v ≤ w
           ∧ ∀ y w', y ∈ K → get_size <$> hdr h y = Some w' → v ≤ w' → w ≤ w'
    | None => h' = h ∧ ∀ y w', y ∈ K → get_size <$> hdr h y = Some w' → v ≤ w' → w' = u64_max
    end.
Proof.
  intros (t & Ht) Hv HK. pose proof (fuel_ok _ _ _ _ Ht HK) as Hf.
  destruct (find_best_node_fit_spec TREE_FUEL K (the_tree m h) t v Ht Hv Hf) as (o & s' & E & Ho).
  assert (Hkey : ∀ y w', y ∈ K → get_size <$> hdr h y = Some w' → (y, w') ∈ inorder t).
  { intros y w' Hy Hw. destruct (key_inorder _ _ _ y (rbt_z _ _ _ Ht) Hy) as (w & Hin).
    rewrite (size_of_key _ _ _ _ _ _ Ht Hin) in Hw. congruence. }
  unfold tree_best_fit. rewrite E. cbn [mbind outcome_bind]. exists o, (put_tree m h s'). split; [done|].
  destruct o as [a|].
  - destruct Ho as (w & Hvw & Hbest & Hw). destruct (without_ok _ _ _ _ _ _ _ Ht Hw) as (? & ? & ? & ?).
    split_and!; try done. exists w. split_and!; try done. intros y w' Hy Hs Hle. apply (Hbest (y, w')); auto.
  - destruct Ho as [-> Hnone]. rewrite put_tree_same. split; [done|]. intros y w' Hy Hs Hle.
    apply (Hnone (y, w')); auto.
Qed.

(** A tree under changes of the memory outside it, or of fields it does not use. *)
Lemma tree_ok_frame m K h h' : tree_ok m K h → the_ref m h' = the_ref m h →
  (∀ y, y ∈ K ∨ y = t_nil (the_ref m h) → mem h' !! y = mem h !! y) → tree_ok m K h'.
Proof.
  intros (t & Ht) Er Em. exists t. eapply rbtree_frame; [exact Ht|unfold the_tree; by rewrite Er..|done].
Qed.
Definition tame (f : AllocHeader → AllocHeader) : Prop := ∀ hd,
  get_size (f hd) = get_size hd ∧ AllocHeader_get_color (f hd) = AllocHeader_get_color hd.
Lemma tree_ok_touch m K h a f : tree_ok m K h → tame f → a ≠ t_nil (the_ref m h) → tree_ok m K (touch h a f).
Proof.
  intros (t & Ht) Hf Hn. destruct (mem h !! a) as [n|] eqn:E.
  - destruct (Hf (header n)) as [Hv Hc].
    destruct (rbtree_touch K (the_tree m h) t a n (f (header n)) Ht E Hn Hv Hc) as (t' & Ht' & _).
    exists t'. eapply rbtree_frame; [exact Ht'|by destruct m..|]. intros y _. simpl.
    destruct (decide (a = y)) as [<-|]; [by rewrite lookup_alter_eq, lookup_insert_eq, E|].
    by rewrite lookup_alter_ne, lookup_insert_ne.
  - exists t. eapply rbtree_frame; [exact Ht|by destruct m..|]. intros y _. simpl.
    destruct (decide (a = y)) as [<-|]; [by rewrite lookup_alter_eq, E|by rewrite lookup_alter_ne].
Qed.

(** * Blocks *)

(** A block is in use, in one of the trees, or, during an operation, in none.
    The flag of [FreeUnmapped] says whether its header is known to be marked as
    not mapped.  An allocation that finds no physical memory loses its block. *)
Inductive kind := Live | FreeMapped | FreeUnmapped (marked : bool) | Taken | Lost.
Record blk := { b_addr : Z; b_size : Z; b_kind : kind }.
#[global] Instance kind_eq_dec : EqDecision kind.
Proof. solve_decision. Defined.
#[global] Instance blk_eq_dec : EqDecision blk.
Proof. solve_decision. Defined.
Definition b_next (b : blk) : Z := b_addr b + b_size b + 16.
Definition b_foot (b : blk) : Z := b_addr b + b_size b.

(** A block in use that says that the block to its left is free is right: the
    left block is in the tree of mapped blocks and has its footer. *)
Definition left_ok (h : heap) (p : option blk) (hd : AllocHeader) : Prop :=
  match p with
  | None => True
  | Some q => left_allocated hd = false →
      match b_kind q with
      | FreeMapped => get_size <$> footers h !! b_foot q = Some (b_size q)
      | Taken => True
      | _ => False
      end
  end.
Definition hdr_ok (h : heap) (p : option blk) (b : blk) : Prop :=
  match b_kind b with
  | Live => ∃ hd, hdr h (b_addr b) = Some hd ∧ get_size hd = b_size b ∧ is_allocated hd = true ∧ left_ok h p hd
  | FreeMapped | FreeUnmapped false => get_size <$> hdr h (b_addr b) = Some (b_size b)
  | FreeUnmapped true | Lost => ∃ hd, hdr h (b_addr b) = Some hd ∧ get_size hd = b_size b ∧ is_mapped hd = false
  | Taken => is_Some (hdr h (b_addr b))
  end.
Definition is_unmapped (k : kind) : bool := match k with FreeUnmapped _ | Lost => true | _ => false end.
(** The blocks from [a] to [e], after the block [p]: they follow each other, and
    only the last one may be unmapped. *)
Fixpoint blocks_ok (h : heap) (p : option blk) (a : Z) (bs : list blk) (e : Z) : Prop :=
  match bs with
  | [] => a = e
  | b :: bs =>
      b_addr b = a ∧ 64 ≤ b_size b ∧ b_size b mod 16 = 0 ∧ hdr_ok h p b
      ∧ (is_unmapped (b_kind b) = true → bs = []) ∧ blocks_ok h (Some b) (b_next b) bs e
  end.

Definition in_tree (m : bool) (k : kind) : bool :=
  match k with FreeMapped => m | FreeUnmapped _ => negb m | _ => false end.
(** The blocks in a tree. *)
Fixpoint keys (m : bool) (bs : list blk) : gset Z :=
  match bs with
  | [] => ∅
  | b :: bs => (if in_tree m (b_kind b) then {[b_addr b]} else ∅) ∪ keys m bs
  end.
Definition last_of (p : option blk) (l : list blk) : option blk := match last l with Some q => Some q | None => p end.

Lemma keys_app m l1 l2 : keys m (l1 ++ l2) = keys m l1 ∪ keys m l2.
Proof. induction l1 as [|b l1 IH]; simpl; [set_solver|]. rewrite IH. set_solver. Qed.
Lemma elem_of_keys m bs a : a ∈ keys m bs ↔ ∃ b, b ∈ bs ∧ b_addr b = a ∧ in_tree m (b_kind b) = true.
Proof.
  induction bs as [|b bs IH]; simpl; [set_solver|]. rewrite elem_of_union, IH. split.
  - intros [Hb|(c & ? & ?)]; [|exists c; set_solver]. exists b. destruct (in_tree m (b_kind b)); set_solver.
  - intros (c & [->|Hc]%elem_of_cons & Ha & Ht); [left; rewrite Ht; set_solver|right; eauto].
Qed.
Lemma keys_size m bs : (size (keys m bs) ≤ length bs)%nat.
Proof.
  induction bs as [|b bs IH]; simpl; [done|]. rewrite size_union_alt.
  pose proof (subseteq_size (keys m bs ∖ (if in_tree m (b_kind b) then {[b_addr b]} else ∅)) (keys m bs) ltac:(set_solver)).
  destruct (in_tree m (b_kind b)); rewrite ?size_singleton, ?size_empty; lia.
Qed.
Lemma last_of_app p l1 b l2 : last_of p (l1 ++ b :: l2) = last_of (Some b) l2.
Proof. unfold last_of. rewrite last_app_cons, last_cons. by destruct (last l2). Qed.

Lemma blocks_app h p a l1 l2 e : blocks_ok h p a (l1 ++ l2) e ↔
  ∃ m, blocks_ok h p a l1 m ∧ blocks_ok h (last_of p l1) m l2 e
       ∧ (l2 ≠ [] → Forall (λ b, is_unmapped (b_kind b) = false) l1).
Proof.
  revert p a. induction l1 as [|b l1 IH]; intros p a; simpl.
  { split; [intros Hb; exists a; split_and!; [done|done|by constructor]|by intros (m & -> & ? & _)]. }
  assert (El : last_of p (b :: l1) = last_of (Some b) l1) by (unfold last_of; rewrite last_cons; by destruct (last l1)).
  rewrite El. setoid_rewrite IH. split.
  - intros (H1 & H2 & H3 & H4 & H5 & m & H6 & H7 & H8). exists m. split; [|split; [done|]].
    + split_and!; try done. intros Hu. specialize (H5 Hu). by destruct l1, l2.
    + intros Hl2. constructor; [|auto]. destruct (is_unmapped (b_kind b)); [|done].
      by destruct l1, l2; specialize (H5 eq_refl).
  - intros (m & (H1 & H2 & H3 & H4 & H5 & H6) & H7 & H8). split_and!; try done; [|eauto].
    + intros Hu. rewrite (H5 Hu). destruct l2; [done|]. specialize (H8 ltac:(done)).
      apply Forall_cons in H8 as [H8 _]. congruence.
    + exists m. split_and!; try done. intros Hl2. specialize (H8 Hl2). by apply Forall_cons in H8 as [_ H8].
Qed.

(** Blocks lie in their range, in order. *)
Lemma blocks_range h p a bs e : blocks_ok h p a bs e → a ≤ e ∧ ∀ b, b ∈ bs →
  a ≤ b_addr b ∧ b_next b ≤ e ∧ 64 ≤ b_size b ∧ b_size b mod 16 = 0 ∧ (a mod 16 = 0 → b_addr b mod 16 = 0).
Proof.
  revert p a. induction bs as [|b bs IH]; intros p a; simpl; [intros ->; split; [lia|by intros ? ?%elem_of_nil]|].
  intros (Ha & Hs & Hm & _ & _ & Hbs). destruct (IH _ _ Hbs) as [Hle Hin]. unfold b_next in *.
  split; [lia|]. intros c [->|Hc]%elem_of_cons; [split_and!; [lia|lia|lia|done|intros; by rewrite Ha]|].
  destruct (Hin c Hc) as (? & ? & ? & ? & Hal). split_and!; [lia|lia|lia|done|]. intros H16. apply Hal.
  rewrite Ha. rewrite Z.add_mod, (Z.add_mod a), H16, Hm by lia. done.
Qed.
Lemma blocks_count h p a bs e : blocks_ok h p a bs e → a + 80 * Z.of_nat (length bs) ≤ e.
Proof.
  revert p a. induction bs as [|b bs IH]; intros p a; cbn [blocks_ok length]; [lia|].
  intros (Ha & Hs & Hm & _ & _ & Hbs). apply IH in Hbs. unfold b_next in *. lia.
Qed.

(** What a block needs of the memory. *)
Definition hdr_same (h h' : heap) (b : blk) : Prop :=
  match b_kind b with
  | Live | FreeUnmapped true | Lost => hdr h' (b_addr b) = hdr h (b_addr b)
  | FreeMapped | FreeUnmapped false => get_size <$> hdr h' (b_addr b) = get_size <$> hdr h (b_addr b)
  | Taken => is_Some (hdr h (b_addr b)) → is_Some (hdr h' (b_addr b))
  end.
Definition foot_same (h h' : heap) (b : blk) : Prop :=
  b_kind b = FreeMapped → footers h' !! b_foot b = footers h !! b_foot b.
Lemma left_ok_frame h h' p hd : (∀ q, p = Some q → foot_same h h' q) → left_ok h p hd → left_ok h' p hd.
Proof.
  unfold left_ok, foot_same. destruct p as [q|]; [|done]. intros Hf Hl E. specialize (Hl E).
  destruct (b_kind q) eqn:Ek; try done. by rewrite (Hf q eq_refl Ek).
Qed.
Lemma hdr_ok_frame h h' p b : hdr_same h h' b → (∀ q, p = Some q → foot_same h h' q) → hdr_ok h p b → hdr_ok h' p b.
Proof.
  unfold hdr_same, hdr_ok. intros Hs Hf. destruct (b_kind b) as [| |[]| |].
  - rewrite Hs. intros (hd & ? & ? & ? & Hl). exists hd. split_and!; try done. by eapply left_ok_frame.
  - by rewrite Hs.
  - by rewrite Hs.
  - by rewrite Hs.
  - done.
  - by rewrite Hs.
Qed.
Lemma blocks_frame h h' p a bs e : (∀ q, p = Some q → foot_same h h' q) →
  (∀ b, b ∈ bs → hdr_same h h' b ∧ foot_same h h' b) → blocks_ok h p a bs e → blocks_ok h' p a bs e.
Proof.
  revert p a. induction bs as [|b bs IH]; intros p a Hp Hbs; simpl; [done|].
  intros (H1 & H2 & H3 & H4 & H5 & H6). destruct (Hbs b) as [Hb1 Hb2]; [by left|]. split_and!; try done.
  - by eapply hdr_ok_frame.
  - apply IH; [by intros q [= <-]|set_solver|done].
Qed.
(** A predecessor that makes no promise on its footer can replace another. *)
Lemma blocks_pred h p p' a bs e : blocks_ok h p a bs e →
  (∀ b l, bs = b :: l → hdr_ok h p b → hdr_ok h p' b) → blocks_ok h p' a bs e.
Proof.
  destruct bs as [|b bs]; simpl; [done|]. intros (H1 & H2 & H3 & H4 & H5 & H6) Hb. split_and!; try done. by eapply Hb.
Qed.
Lemma hdr_ok_taken h p q b : b_kind q = Taken → hdr_ok h p b → hdr_ok h (Some q) b.
Proof.
  intros Hq. unfold hdr_ok, left_ok. destruct (b_kind b); try done. rewrite Hq. naive_solver.
Qed.

(** * The invariant *)

Section heap.
Context (base sz : Z) (Hreg : region base sz).
#[local] Notation stop := (stop base sz).
#[local] Notation end_of := (end_of base sz).
#[local] Notation nil_of m := (nil_of m base sz).

(** The nodes of a tree: the blocks, and the node of size 0 with which the tree
    of mapped blocks starts. *)
Definition treeset (m : bool) (bs : list blk) : gset Z := keys m bs ∪ (if m then {[end_of]} else ∅).

(** The heap has the blocks [bs]; the trees have the nodes [K]. *)
Record heap_at (K : bool → gset Z) (h : heap) (bs : list blk) : Prop := {
  at_start : heap_start h = base;
  at_nil m : t_nil (the_ref m h) = nil_of m;
  at_blocks : blocks_ok h None base bs stop;
  at_stop : ∃ hd, hdr h stop = Some hd ∧ (is_allocated hd = true ∨ is_mapped hd = false);
  at_end : get_size <$> hdr h end_of = Some 0;
  at_keys m : K m ⊆ treeset m bs;
  at_trees m : tree_ok m (K m) h
}.
Definition heap_inv (h : heap) (bs : list blk) : Prop := heap_at (λ m, treeset m bs) h bs.

Lemma heap_at_ext K K' h bs : (∀ m, K m = K' m) → heap_at K h bs → heap_at K' h bs.
Proof. intros E [? ? ? ? ? Hk Ht]. split; try done; intros m; rewrite <- E; auto. Qed.

(** ** Where things are *)

Lemma addr_high a : base ≤ a ≤ stop → high a.
Proof using Hreg. destruct Hreg. unfold high, KHeapSafe.stop. lia. Qed.
Lemma fixed_addrs a : a ≤ stop → a ≠ end_of ∧ (∀ m, a ≠ nil_of m).
Proof. unfold KHeapSafe.stop, KHeapSafe.end_of. split; [lia|]. intros []; simpl; lia. Qed.
Lemma end_not_nil m : end_of ≠ nil_of m.
Proof. unfold KHeapSafe.end_of. destruct m; simpl; lia. Qed.
Lemma nil_distinct m : nil_of m ≠ nil_of (negb m).
Proof. destruct m; simpl; lia. Qed.

Lemma blocks_unique h p a bs e b c : blocks_ok h p a bs e → b ∈ bs → c ∈ bs → b_addr b = b_addr c → b = c.
Proof.
  revert p a. induction bs as [|d bs IH]; intros p a; [by intros _ ?%elem_of_nil|]. simpl.
  intros (Ha & Hs & _ & _ & _ & Hbs). destruct (blocks_range _ _ _ _ _ Hbs) as [_ Hr]. unfold b_next in *.
  intros [->|Hb]%elem_of_cons [->|Hc]%elem_of_cons E; [done|destruct (Hr c Hc); lia|destruct (Hr b Hb); lia|].
  by eapply IH.
Qed.
Lemma blocks_ends h p a bs e b c : blocks_ok h p a bs e → b ∈ bs → c ∈ bs → b_next b = b_next c → b = c.
Proof.
  revert p a. induction bs as [|d bs IH]; intros p a; [by intros _ ?%elem_of_nil|]. simpl.
  intros (Ha & Hs & _ & _ & _ & Hbs). destruct (blocks_range _ _ _ _ _ Hbs) as [_ Hr]. unfold b_next in *.
  intros [->|Hb]%elem_of_cons [->|Hc]%elem_of_cons E; [done| | |by eapply IH].
  - destruct (Hr c Hc) as (? & ? & ? & _). lia.
  - destruct (Hr b Hb) as (? & ? & ? & _). lia.
Qed.
Lemma at_range K h bs b : heap_at K h bs → b ∈ bs → base ≤ b_addr b ∧ b_next b ≤ stop ∧ 64 ≤ b_size b ∧ b_size b mod 16 = 0.
Proof. intros Hat Hb. destruct (blocks_range _ _ _ _ _ (at_blocks _ _ _ Hat)) as [_ Hr]. destruct (Hr b Hb); naive_solver. Qed.
Lemma elem_treeset m bs a : a ∈ treeset m bs →
  (∃ b, b ∈ bs ∧ b_addr b = a ∧ in_tree m (b_kind b) = true) ∨ (a = end_of ∧ m = true).
Proof.
  unfold treeset. rewrite elem_of_union, elem_of_keys. intros [?|Ha]; [by left|]. destruct m; set_solver.
Qed.
(** A block is a node of a tree only as its kind says. *)
Lemma treeset_block K h bs m b : heap_at K h bs → b ∈ bs → b_addr b ∈ treeset m bs → in_tree m (b_kind b) = true.
Proof.
  intros Hat Hb [(c & Hc & Ha & Ht)|[Ha _]]%elem_treeset.
  - by rewrite (blocks_unique _ _ _ _ _ b c (at_blocks _ _ _ Hat) Hb Hc (eq_sym Ha)).
  - destruct (at_range _ _ _ _ Hat Hb) as (? & ? & ? & _). unfold b_next in *.
    destruct (fixed_addrs (b_addr b)) as [? _]; [lia|done].
Qed.
Lemma treeset_range K h bs m a : heap_at K h bs → a ∈ treeset m bs → a < stop ∨ a = end_of.
Proof.
  intros Hat [(c & Hc & <- & _)|[-> _]]%elem_treeset; [left|by right].
  destruct (at_range _ _ _ _ Hat Hc) as (? & ? & ? & _). unfold b_next in *. lia.
Qed.
Lemma treeset_fixed K h bs m a : heap_at K h bs → a ∈ treeset m bs → a ≠ stop ∧ ∀ m', a ≠ nil_of m'.
Proof.
  intros Hat Ha. destruct (treeset_range _ _ _ _ _ Hat Ha) as [Hlt| ->].
  - split; [lia|]. apply fixed_addrs. lia.
  - split; [|intros; apply end_not_nil]. unfold KHeapSafe.stop, KHeapSafe.end_of. lia.
Qed.
Lemma treeset_disjoint K h bs m a : heap_at K h bs → a ∈ treeset m bs → a ∉ treeset (negb m) bs.
Proof.
  intros Hat Ha Hb. apply elem_treeset in Ha as [(c & Hc & <- & Ht)|[-> ->]].
  - apply (treeset_block _ _ _ _ _ Hat Hc) in Hb. by destruct m, (b_kind c).
  - apply elem_treeset in Hb as [(c & Hc & Ha & _)|[_ ?]]; [|done].
    destruct (at_range _ _ _ _ Hat Hc) as (? & ? & ? & _). unfold b_next in *.
    destruct (fixed_addrs (b_addr c)) as [? _]; [lia|done].
Qed.
Lemma treeset_size K h bs m : heap_at K h bs → Z.of_nat (size (treeset m bs)) < 2 ^ 64 - 1.
Proof using Hreg.
  intros Hat. pose proof (blocks_count _ _ _ _ _ (at_blocks _ _ _ Hat)) as Hc.
  pose proof (keys_size m bs) as Hk. unfold treeset. rewrite size_union_alt.
  pose proof (subseteq_size ((if m then {[end_of]} else ∅) ∖ keys m bs) (if m then {[end_of]} else ∅ : gset Z) ltac:(set_solver)) as Hs.
  assert (size (if m then {[end_of]} else ∅ : gset Z) ≤ 1)%nat by (destruct m; rewrite ?size_singleton, ?size_empty; lia).
  destruct Hreg. unfold KHeapSafe.stop in *. lia.
Qed.
Lemma keys_bound K h bs m : heap_at K h bs → Z.of_nat (size (K m)) < 2 ^ 64 - 1.
Proof using Hreg.
  intros Hat. pose proof (treeset_size _ _ _ m Hat). pose proof (subseteq_size _ _ (at_keys _ _ _ Hat m)). lia.
Qed.

(** ** Steps that keep the blocks *)

(** An operation on the tree [m]. *)
Definition put_keys (K : bool → gset Z) (m : bool) (K' : gset Z) : bool → gset Z :=
  λ m', if Bool.eqb m' m then K' else K m'.
Lemma step_same m K' h h' b : tree_step m K' h h' → b_addr b ≠ t_nil (the_ref m h) →
  (b_addr b ∈ K' → b_kind b = FreeMapped ∨ b_kind b = FreeUnmapped false) → hdr_same h h' b ∧ foot_same h h' b.
Proof.
  intros Hst Hn Hk. split; [|intros _; by rewrite (st_feet _ _ _ _ Hst)]. unfold hdr_same.
  destruct (decide (b_addr b ∈ K')) as [Hb|Hb].
  - destruct (Hk Hb) as [->| ->]; by apply (st_size _ _ _ _ Hst).
  - unfold hdr. rewrite (st_mem _ _ _ _ Hst _ Hb Hn). by destruct (b_kind b) as [| |[]| |].
Qed.
Lemma at_tree_step K h bs m K' h' : heap_at K h bs → tree_step m K' h h' → tree_ok m K' h' → K' ⊆ treeset m bs →
  (∀ b, b ∈ bs → b_addr b ∈ K' → b_kind b ≠ FreeUnmapped true) → heap_at (put_keys K m K') h' bs.
Proof.
  intros Hat Hst Ht Hsub Hm. pose proof (at_nil _ _ _ Hat) as Hnil. unfold put_keys. split.
  - by rewrite (st_start _ _ _ _ Hst), (at_start _ _ _ Hat).
  - intros m'. destruct (decide (m' = m)) as [->|]; [by rewrite (st_nil _ _ _ _ Hst)|].
    replace m' with (negb m) by (by destruct m, m'). by rewrite (st_other _ _ _ _ Hst).
  - eapply blocks_frame; [done| |apply Hat]. intros b Hb. apply (step_same m K'); [done|..].
    + destruct (at_range _ _ _ _ Hat Hb) as (? & ? & ? & _). unfold b_next in *. rewrite Hnil. apply fixed_addrs. lia.
    + intros Hk. specialize (Hm b Hb Hk). apply Hsub, (treeset_block _ _ _ _ _ Hat Hb) in Hk.
      destruct m, (b_kind b) as [| |[]| |] eqn:E; try done; [by left|by right].
  - destruct (at_stop _ _ _ Hat) as (hd & Hhd & Hf). exists hd. split; [|done]. rewrite <- Hhd. unfold hdr.
    rewrite (st_mem _ _ _ _ Hst); [done|..].
    + intros Hk. apply Hsub in Hk. by destruct (treeset_fixed _ _ _ _ _ Hat Hk).
    + rewrite Hnil. by apply fixed_addrs.
  - rewrite <- (at_end _ _ _ Hat). destruct (decide (end_of ∈ K')) as [Hk|Hk]; [by apply (st_size _ _ _ _ Hst)|].
    unfold hdr. rewrite (st_mem _ _ _ _ Hst); [done|done|]. rewrite Hnil. apply end_not_nil.
  - intros m'. destruct (Bool.eqb_spec m' m) as [->|]; [done|apply Hat].
  - intros m'. destruct (Bool.eqb_spec m' m) as [->|Hne]; [done|]. replace m' with (negb m) by (by destruct m, m').
    eapply tree_ok_frame; [apply Hat|by rewrite (st_other _ _ _ _ Hst)|]. intros y Hy.
    apply (st_mem _ _ _ _ Hst).
    + intros Hk. apply Hsub in Hk. destruct Hy as [Hy| ->].
      * apply (at_keys _ _ _ Hat) in Hy. by apply (treeset_disjoint _ _ _ _ _ Hat Hk).
      * rewrite Hnil in Hk. destruct (treeset_fixed _ _ _ _ _ Hat Hk) as [_ Hf]. by apply (Hf (negb m)).
    + rewrite Hnil in *. destruct Hy as [Hy| ->].
      * apply (at_keys _ _ _ Hat) in Hy. by apply (treeset_fixed _ _ _ _ _ Hat Hy).
      * intros E. by apply (nil_distinct m).
Qed.

(** A change of one header of the heap, or of a footer. *)
Lemma at_touch K h bs a f : heap_at K h bs → a ≤ stop →
  (∀ m, tree_ok m (K m) (touch h a f)) →
  blocks_ok (touch h a f) None base bs stop →
  (a = stop → ∀ hd, is_allocated (f hd) = is_allocated hd ∧ is_mapped (f hd) = is_mapped hd) →
  heap_at K (touch h a f) bs.
Proof.
  intros Hat Ha Ht Hb Hf. destruct (fixed_addrs a Ha) as [He Hn]. split; try done; try apply Hat.
  - destruct (at_stop _ _ _ Hat) as (hd & Hhd & Hor). destruct (decide (a = stop)) as [->|Hne].
    + exists (f hd). rewrite hdr_touch_eq, Hhd. split; [done|]. destruct (Hf eq_refl hd) as [-> ->]. done.
    + exists hd. by rewrite hdr_touch_ne by done.
  - rewrite hdr_touch_ne by done. apply Hat.
Qed.
Lemma touch_same h a f b : b_addr b ≠ a → hdr_same h (touch h a f) b ∧ foot_same h (touch h a f) b.
Proof. intros Hne. split; [|done]. unfold hdr_same. rewrite hdr_touch_ne by done. by destruct (b_kind b) as [| |[]| |]. Qed.
Lemma touch_outside m K h a f : tree_ok m K h → a ∉ K → a ≠ t_nil (the_ref m h) → tree_ok m K (touch h a f).
Proof.
  intros Ht Ha Hn. eapply tree_ok_frame; [exact Ht|by destruct m|]. intros y Hy. simpl. apply lookup_alter_ne.
  intros <-. by destruct Hy.
Qed.

(** The header of a block that is in no tree. *)
Lemma touch_taken K h bs b f : heap_at K h bs → b ∈ bs → b_kind b = Taken → heap_at K (touch h (b_addr b) f) bs.
Proof.
  intros Hat Hb Hk. destruct (at_range _ _ _ _ Hat Hb) as (H1 & H2 & H3 & _). unfold b_next in *.
  destruct (fixed_addrs (b_addr b)) as [He Hn]; [lia|]. apply at_touch; [done|lia|..|lia].
  - intros m. apply touch_outside; [apply Hat| |by rewrite (at_nil _ _ _ Hat)].
    intros Hin. apply (at_keys _ _ _ Hat), (treeset_block _ _ _ _ _ Hat Hb) in Hin. by rewrite Hk in Hin.
  - eapply blocks_frame; [done| |apply Hat]. intros c Hc. destruct (decide (b_addr c = b_addr b)) as [E|E]; [|by apply touch_same].
    rewrite (blocks_unique _ _ _ _ _ c b (at_blocks _ _ _ Hat) Hc Hb E). split; [|done]. unfold hdr_same. rewrite Hk.
    rewrite hdr_touch_eq. by intros [hd ->].
Qed.

(** The footer of a block that is in no tree. *)
Lemma foot_taken K h bs b x : heap_at K h bs → b ∈ bs → b_kind b = Taken →
  heap_at K (with_footers h (<[b_foot b := x]> (footers h))) bs.
Proof.
  intros Hat Hb Hk. split; try apply Hat.
  eapply blocks_frame; [done| |apply Hat]. intros c Hc. split.
  - unfold hdr_same, hdr. simpl. by destruct (b_kind c) as [| |[]| |].
  - intros Hc'. simpl. apply lookup_insert_ne. intros E.
    assert (b_next b = b_next c) as En by (unfold b_next, b_foot in *; lia).
    assert (b = c) as ->; [|congruence].
    by eapply blocks_ends; [apply Hat|..].
Qed.

(** ** Steps that change the blocks *)

Lemma last_of_ne p l x : l ≠ [] → last_of p l = last_of x l.
Proof. intros Hl. unfold last_of. destruct (last l) eqn:E; [done|]. by apply last_None in E. Qed.

(** The blocks [X] become [Y]; the memory is the same. *)
Lemma at_replace K h l1 X Y l2 : heap_at K h (l1 ++ X ++ l2) → X ≠ [] → Y ≠ [] →
  (∀ a e, base ≤ a → e ≤ stop → blocks_ok h (last_of None l1) a X e → blocks_ok h (last_of None l1) a Y e) →
  (∀ m, K m ⊆ treeset m (l1 ++ Y ++ l2)) →
  (∀ c l, l2 = c :: l → hdr_ok h (last_of None X) c → hdr_ok h (last_of None Y) c) →
  (l2 ≠ [] → Forall (λ b, is_unmapped (b_kind b) = false) Y) → heap_at K h (l1 ++ Y ++ l2).
Proof.
  intros Hat HX HY HXY HK Hl2 Hun. split; try apply Hat; [|done]. pose proof (at_blocks _ _ _ Hat) as Hb.
  apply blocks_app in Hb as (a & H1 & Hb & H3). apply blocks_app in Hb as (e & H4 & H5 & H6).
  pose proof (proj1 (blocks_range _ _ _ _ _ H1)). pose proof (proj1 (blocks_range _ _ _ _ _ H5)).
  apply blocks_app. exists a. split_and!; [done| |].
  - apply blocks_app. exists e. split_and!; [by apply HXY| |done].
    eapply blocks_pred; [exact H5|]. intros c l ->.
    rewrite (last_of_ne _ X None HX), (last_of_ne _ Y None HY). by eapply Hl2.
  - intros _. apply H3. by destruct X.
Qed.
(** The same for one block that keeps its place. *)
Lemma at_retag K h l1 b k l2 : heap_at K h (l1 ++ b :: l2) →
  let b' := {| b_addr := b_addr b; b_size := b_size b; b_kind := k |} in
  (hdr_ok h (last_of None l1) b → hdr_ok h (last_of None l1) b') →
  (∀ m, K m ⊆ treeset m (l1 ++ b' :: l2)) →
  (∀ c l, l2 = c :: l → hdr_ok h (Some b) c → hdr_ok h (Some b') c) →
  (is_unmapped k = true → l2 = []) → heap_at K h (l1 ++ b' :: l2).
Proof.
  intros Hat b' Hb HK Hl2 Hun. apply (at_replace K h l1 [b] [b'] l2); try done.
  - intros a e _ _ (H1 & H2 & H3 & H4 & _ & H6). simpl. split_and!; auto.
  - intros Hne. constructor; [|done]. simpl. destruct (is_unmapped k); [|done]. by rewrite Hun in Hne.
Qed.

Definition take (b : blk) : blk := {| b_addr := b_addr b; b_size := b_size b; b_kind := Taken |}.
Lemma keys_take m l1 b l2 : b_addr b ∉ keys m (l1 ++ l2) → keys m (l1 ++ take b :: l2) = keys m (l1 ++ b :: l2) ∖ {[b_addr b]}.
Proof.
  rewrite !keys_app. simpl. intros Hb. destruct (in_tree m (b_kind b)); apply set_eq; intros y;
    destruct (decide (y = b_addr b)) as [->|]; set_solver.
Qed.
Lemma hdr_ok_some h p b : hdr_ok h p b → is_Some (hdr h (b_addr b)).
Proof.
  unfold hdr_ok. destruct (b_kind b) as [| |[]| |]; try done; try (intros (hd & -> & _); by eexists);
    intros E; by destruct (hdr h (b_addr b)).
Qed.
Lemma block_not_key K h m l1 b l2 : heap_at K h (l1 ++ b :: l2) → b_addr b ∉ keys m (l1 ++ l2).
Proof.
  intros Hat. rewrite elem_of_keys. intros (c & Hc & Ha & _). pose proof (at_blocks _ _ _ Hat) as Hb.
  apply blocks_app in Hb as (a & H1 & (H2 & H3 & _ & _ & _ & H4) & _).
  apply blocks_range in H1 as [_ H1]. apply blocks_range in H4 as [_ H4]. unfold b_next in *.
  apply elem_of_app in Hc as [Hc|Hc]; [destruct (H1 c Hc) as (? & ? & ? & _)|destruct (H4 c Hc) as (? & ? & ? & _)]; lia.
Qed.
(** A node of a tree that is a block. *)
Lemma treeset_take K h m l1 b l2 : heap_at K h (l1 ++ b :: l2) →
  treeset m (l1 ++ take b :: l2) = treeset m (l1 ++ b :: l2) ∖ {[b_addr b]}.
Proof.
  intros Hat. pose proof (block_not_key _ _ m _ _ _ Hat) as Hnk. unfold treeset. rewrite keys_take by done.
  destruct (at_range _ _ _ b Hat) as (? & ? & ? & _); [set_solver|]. unfold b_next in *.
  destruct (fixed_addrs (b_addr b)) as [Hne _]; [lia|]. destruct m; set_solver.
Qed.

(** A block leaves the tree [m]: what both removing operations do. *)
Lemma take_block h l1 b l2 m h' : heap_inv h (l1 ++ b :: l2) → in_tree m (b_kind b) = true →
  tree_ok m (treeset m (l1 ++ b :: l2) ∖ {[b_addr b]}) h' →
  tree_step m (treeset m (l1 ++ b :: l2) ∖ {[b_addr b]}) h h' → heap_inv h' (l1 ++ take b :: l2).
Proof.
  intros Hat Hk Ht Hst. assert (Hb : b ∈ l1 ++ b :: l2) by set_solver.
  assert (Hother : b_addr b ∉ treeset (negb m) (l1 ++ b :: l2)).
  { intros Hin. apply (treeset_block _ _ _ _ b Hat Hb) in Hin. by destruct m, (b_kind b). }
  eapply heap_at_ext; [|apply (at_retag _ h' l1 b Taken l2); [eapply at_tree_step; [exact Hat|exact Hst|exact Ht|set_solver|]|..]].
  - intros m'. simpl. rewrite (treeset_take _ _ m' _ _ _ Hat). unfold put_keys.
    destruct (Bool.eqb_spec m' m) as [->|Hne]; [done|]. replace m' with (negb m) by (by destruct m, m'). set_solver.
  - intros c Hc Hin Hkc. assert (m = false) as ->.
    { apply elem_of_difference in Hin as [Hin _]. apply (treeset_block _ _ _ _ c Hat Hc) in Hin. rewrite Hkc in Hin. by destruct m. }
    pose proof (at_blocks _ _ _ Hat) as Hbl. apply blocks_app in Hbl as (a & _ & (_ & _ & _ & _ & Hlast & _) & Hun).
    rewrite Hlast in * by (by destruct (b_kind b)). specialize (Hun ltac:(done)). rewrite Forall_forall in Hun.
    apply elem_of_app in Hc as [Hc|[-> |Hc%elem_of_nil]%elem_of_cons]; [|set_solver|done].
    specialize (Hun c Hc). by rewrite Hkc in Hun.
  - intros Hok. unfold hdr_ok. simpl. by apply (hdr_ok_some _ _ _ Hok).
  - intros m'. change {| b_addr := b_addr b; b_size := b_size b; b_kind := Taken |} with (take b).
    rewrite (treeset_take _ _ m' _ _ _ Hat). unfold put_keys.
    destruct (Bool.eqb_spec m' m) as [->|Hne]; [done|]. replace m' with (negb m) by (by destruct m, m'). set_solver.
  - intros c l ->. by apply hdr_ok_taken.
  - done.
Qed.

Lemma in_tree_size h p b m : hdr_ok h p b → in_tree m (b_kind b) = true → get_size <$> hdr h (b_addr b) = Some (b_size b).
Proof.
  unfold hdr_ok. destruct (b_kind b) as [| |[]| |]; try done. intros (hd & -> & <- & _) _. done.
Qed.
Lemma at_hdr K h l1 b l2 : heap_at K h (l1 ++ b :: l2) → hdr_ok h (last_of None l1) b.
Proof. intros Hat. pose proof (at_blocks _ _ _ Hat) as Hb. by apply blocks_app in Hb as (a & _ & (_ & _ & _ & ? & _) & _). Qed.
Lemma at_size K h bs b m : heap_at K h bs → b ∈ bs → in_tree m (b_kind b) = true →
  get_size <$> hdr h (b_addr b) = Some (b_size b).
Proof.
  intros Hat (l1 & l2 & ->)%list_elem_of_split Ht. eapply in_tree_size; [by eapply at_hdr|done].
Qed.
Lemma block_in_tree m bs b : b ∈ bs → in_tree m (b_kind b) = true → b_addr b ∈ treeset m bs.
Proof. intros Hb Ht. unfold treeset. apply elem_of_union. left. apply elem_of_keys. eauto. Qed.

(** [find_best_node_fit] on a heap: the smallest block that is large enough. *)
Lemma best_fit_step m h bs v : heap_inv h bs → 0 < v → ∃ o h', tree_best_fit m h v = Done (o, h')
  ∧ match o with
    | Some a => ∃ l1 b l2, bs = l1 ++ b :: l2 ∧ b_addr b = a ∧ in_tree m (b_kind b) = true ∧ v ≤ b_size b
        ∧ (∀ c, c ∈ bs → in_tree m (b_kind c) = true → v ≤ b_size c → b_size b ≤ b_size c)
        ∧ heap_inv h' (l1 ++ take b :: l2) ∧ hdr h' a = hdr h a
    | None => h' = h ∧ ∀ c, c ∈ bs → in_tree m (b_kind c) = true → b_size c < v
    end.
Proof using Hreg.
  intros Hat Hv. destruct (tree_best_fit_ok m (treeset m bs) h v) as (o & h' & E & Ho);
    [apply Hat|lia|by eapply treeset_size|].
  exists o, h'. split; [done|]. destruct o as [a|].
  - destruct Ho as (Ha & Ht & Hst & w & Hw & Hvw & Hbest). apply elem_treeset in Ha as [(b & Hb & <- & Hk)|[-> _]].
    2: { rewrite (at_end _ _ _ Hat) in Hw. naive_solver lia. }
    pose proof (at_size _ _ _ _ _ Hat Hb Hk) as Hbs. rewrite Hbs in Hw. injection Hw as <-.
    apply list_elem_of_split in Hb as Hsp. destruct Hsp as (l1 & l2 & ->). exists l1, b, l2. split_and!; try done.
    + intros c Hc Hkc Hle. apply (Hbest (b_addr c)); [by apply block_in_tree|by eapply at_size|done].
    + by eapply take_block.
    + unfold hdr. rewrite (st_mem _ _ _ _ Hst); [done|set_solver|].
      rewrite (at_nil _ _ _ Hat). destruct (at_range _ _ _ _ Hat Hb) as (? & ? & ? & _). unfold b_next in *.
      apply fixed_addrs. lia.
  - destruct Ho as [-> Hnone]. split; [done|]. intros c Hc Hkc. destruct (decide (b_size c < v)); [done|].
    specialize (Hnone (b_addr c) (b_size c) (block_in_tree _ _ _ Hc Hkc) (at_size _ _ _ _ _ Hat Hc Hkc) ltac:(lia)).
    destruct (at_range _ _ _ _ Hat Hc) as (? & ? & ? & Hm). rewrite Hnone in Hm. done.
Qed.
Lemma remove_step h l1 b l2 : heap_inv h (l1 ++ b :: l2) → b_kind b = FreeMapped → ∃ h',
  tree_remove true h (b_addr b) = Done (b_addr b, h') ∧ heap_inv h' (l1 ++ take b :: l2).
Proof using Hreg.
  intros Hat Hk. destruct (tree_remove_ok true (treeset true (l1 ++ b :: l2)) h (b_addr b)) as (h' & E & Ht & Hst).
  - apply Hat.
  - apply block_in_tree; [set_solver|by rewrite Hk].
  - by eapply treeset_size.
  - exists h'. split; [done|]. eapply take_block; [done|by rewrite Hk|done..].
Qed.

(** ** The right neighbour *)

Lemma next_cases K h l1 q l2 : heap_at K h (l1 ++ q :: l2) →
  (l2 = [] ∧ b_next q = stop) ∨ ∃ c l3, l2 = c :: l3 ∧ b_addr c = b_next q.
Proof.
  intros Hat. pose proof (at_blocks _ _ _ Hat) as Hb. apply blocks_app in Hb as (a & _ & (_ & _ & _ & _ & _ & Hb) & _).
  destruct l2 as [|c l3]; simpl in Hb; [by left|right]. exists c, l3. by destruct Hb as [? _].
Qed.
Lemma next_header K h l1 q l2 : heap_at K h (l1 ++ q :: l2) → is_Some (hdr h (b_next q)).
Proof.
  intros Hat. destruct (next_cases _ _ _ _ _ Hat) as [[_ ->]|(c & l3 & -> & <-)].
  - destruct (at_stop _ _ _ Hat) as (hd & -> & _). done.
  - eapply hdr_ok_some, (at_hdr K h (l1 ++ [q]) c l3). by rewrite <- app_assoc.
Qed.
(** The mark on the right neighbour of a block that is in no tree. *)
Lemma touch_next K h l1 q l2 v : heap_at K h (l1 ++ q :: l2) → b_kind q = Taken →
  heap_at K (touch h (b_next q) (λ hd, set_left_allocated hd v)) (l1 ++ q :: l2).
Proof.
  intros Hat Hq. set (f := λ hd, set_left_allocated hd v). destruct (at_range _ _ _ q Hat) as (H1 & H2 & H3 & _); [set_solver|].
  apply at_touch; [done|done|..].
  - intros m. apply tree_ok_touch; [apply Hat| |rewrite (at_nil _ _ _ Hat); by apply fixed_addrs].
    intros hd. destruct (hdr_left hd v) as (? & _ & _ & _ & ?). done.
  - pose proof (at_blocks _ _ _ Hat) as Hb. apply blocks_app in Hb as (a & Hl1 & (Ea & Hs & Hm & Hh & Hu & Hl2) & Hun).
    apply blocks_range in Hl1 as Hr1. destruct Hr1 as [_ Hr1]. unfold b_next in *.
    apply blocks_app. exists a. split; [|split; [split_and!; try done|done]].
    + eapply blocks_frame; [done| |exact Hl1]. intros b Hb. apply touch_same. destruct (Hr1 b Hb) as (? & ? & ? & _). lia.
    + eapply hdr_ok_frame; [apply touch_same; lia| |exact Hh]. intros c Hc. done.
    + destruct l2 as [|c l3]; [done|]. simpl in Hl2 |- *. destruct Hl2 as (Ec & Hsc & Hmc & Hhc & Huc & Hl3).
      split_and!; try done.
      * unfold hdr_ok in *. rewrite Ec, hdr_touch_eq. rewrite Ec in Hhc.
        destruct (b_kind c) as [| |[]| |].
        -- destruct Hhc as (hd & -> & ? & ? & _). exists (f hd). destruct (hdr_left hd v) as (Hgs & Hal & _).
           split_and!; [done|by etrans; [apply Hgs|]|by etrans; [apply Hal|]|]. simpl. by rewrite Hq.
        -- rewrite <- Hhc. by apply size_fmap_left.
        -- destruct Hhc as (hd & -> & ? & ?). exists (f hd). destruct (hdr_left hd v) as (Hgs & _ & Hmp & _).
           split_and!; [done|by etrans; [apply Hgs|]|by etrans; [apply Hmp|]].
        -- rewrite <- Hhc. by apply size_fmap_left.
        -- by destruct Hhc as [hd ->].
        -- destruct Hhc as (hd & -> & ? & ?). exists (f hd). destruct (hdr_left hd v) as (Hgs & _ & Hmp & _).
           split_and!; [done|by etrans; [apply Hgs|]|by etrans; [apply Hmp|]].
      * apply blocks_range in Hl3 as Hr3. destruct Hr3 as [_ Hr3]. unfold b_next in *.
        eapply (blocks_frame h); [done| |exact Hl3]. intros b Hb. apply touch_same. destruct (Hr3 b Hb) as (? & ? & ? & _). lia.
  - intros _ hd. destruct (hdr_left hd v) as (_ & ? & ? & _). done.
Qed.

(** ** A free block *)

Definition freed (m : bool) (b : blk) : blk :=
  {| b_addr := b_addr b; b_size := b_size b; b_kind := if m then FreeMapped else FreeUnmapped false |}.
Lemma treeset_freed m m' l1 b l2 : b_kind b = Taken →
  treeset m' (l1 ++ freed m b :: l2) = (if Bool.eqb m' m then {[b_addr b]} else ∅) ∪ treeset m' (l1 ++ b :: l2).
Proof.
  intros Hb. unfold treeset. rewrite !keys_app. simpl. rewrite Hb. destruct m, m'; set_solver.
Qed.
(** A block enters the tree [m]. *)
Lemma insert_step h l1 b l2 m : heap_inv h (l1 ++ b :: l2) → b_kind b = Taken →
  get_size <$> hdr h (b_addr b) = Some (b_size b) →
  (∀ c l, l2 = c :: l → m = true ∧ get_size <$> footers h !! b_foot b = Some (b_size b)) →
  ∃ h', tree_insert m h (b_addr b) = Done h' ∧ heap_inv h' (l1 ++ freed m b :: l2).
Proof using Hreg.
  intros Hat Hb Hs Hl2. assert (Hin : b ∈ l1 ++ b :: l2) by set_solver.
  destruct (at_range _ _ _ _ Hat Hin) as (H1 & H2 & H3 & _). unfold b_next in *.
  destruct (tree_insert_ok m (treeset m (l1 ++ b :: l2)) h (b_addr b)) as (h' & E & Ht & Hst).
  - apply Hat.
  - intros Ha. apply (treeset_block _ _ _ _ _ Hat Hin) in Ha. by rewrite Hb in Ha.
  - rewrite (at_nil _ _ _ Hat). apply fixed_addrs. lia.
  - destruct (hdr h (b_addr b)); [done|discriminate].
  - by eapply treeset_size.
  - exists h'. split; [done|]. pose proof (treeset_freed m) as Ef.
    eapply (heap_at_ext (put_keys (λ m, treeset m (l1 ++ b :: l2)) m ({[b_addr b]} ∪ treeset m (l1 ++ b :: l2)))).
    { intros m'. rewrite Ef by done. unfold put_keys. destruct (Bool.eqb_spec m' m) as [->|]; set_solver. }
    assert (Hun : l2 = [] ∨ m = true) by (destruct l2; [by left|right; by eapply Hl2]).
    eapply at_tree_step; [|done..| |].
    + apply (at_retag _ h l1 b (b_kind (freed m b)) l2 Hat).
      * intros _. unfold hdr_ok. simpl. by destruct m.
      * intros m'. change (treeset m' (l1 ++ b :: l2) ⊆ treeset m' (l1 ++ freed m b :: l2)). rewrite Ef by done. set_solver.
      * intros c l ->. destruct (Hl2 c l eq_refl) as [-> Hf]. unfold hdr_ok, left_ok. simpl.
        destruct (b_kind c) as [| |[]| |]; try done. naive_solver.
      * simpl. destruct m; [done|]. by destruct Hun.
    + change ({[b_addr b]} ∪ treeset m (l1 ++ b :: l2) ⊆ treeset m (l1 ++ freed m b :: l2)). rewrite Ef, Bool.eqb_reflx by done. set_solver.
    + intros c Hc Hk Hkc. apply elem_of_app in Hc as [Hc|[->|Hc]%elem_of_cons].
      * assert (is_unmapped (b_kind c) = false) as Hu; [|by rewrite Hkc in Hu].
        pose proof (at_blocks _ _ _ Hat) as Hbl. apply blocks_app in Hbl as (a & _ & _ & Hf).
        specialize (Hf ltac:(done)). rewrite Forall_forall in Hf. by apply Hf.
      * simpl in Hkc. by destruct m.
      * destruct Hun as [->| ->]; [by apply elem_of_nil in Hc|].
        assert (Hc' : c ∈ l1 ++ b :: l2) by set_solver.
        apply elem_of_union in Hk as [Hk%elem_of_singleton|Hk].
        -- pose proof (blocks_unique _ _ _ _ _ c b (at_blocks _ _ _ Hat) Hc' Hin Hk). congruence.
        -- apply (treeset_block _ _ _ _ _ Hat Hc') in Hk. by rewrite Hkc in Hk.
Qed.

(** [init_free_node] on a block that is in no tree. *)
Lemma init_free_step h l1 b l2 m : heap_inv h (l1 ++ b :: l2) → b_kind b = Taken → (m = false → l2 = []) →
  ∃ h', init_free_node h (b_addr b) (b_size b) m = Done h' ∧ heap_inv h' (l1 ++ freed m b :: l2).
Proof using Hreg.
  intros Hat Hb Hl2. assert (Hin : b ∈ l1 ++ b :: l2) by set_solver.
  destruct (at_range _ _ _ _ Hat Hin) as (H1 & H2 & H3 & H16). pose proof (addr_high (b_next b)) as Hh2.
  pose proof (addr_high (b_addr b)) as Hh1. pose proof (addr_high (b_foot b)) as Hh3. unfold b_next, b_foot in *.
  specialize (Hh1 ltac:(lia)). specialize (Hh2 ltac:(lia)). specialize (Hh3 ltac:(lia)).
  assert (Hsz : 0 ≤ b_size b < 2 ^ 64) by (unfold high in *; lia).
  pose proof (at_hdr _ _ _ _ _ Hat) as Hhd. unfold hdr_ok in Hhd. rewrite Hb in Hhd. destruct Hhd as [hd Hhd].
  unfold init_free_node. rewrite on_header_touch by (by eexists). cbn [mbind outcome_bind].
  set (h1 := touch h _ _). assert (Hat1 : heap_inv h1 (l1 ++ b :: l2)) by (by apply touch_taken).
  assert (Hhd1 : hdr h1 (b_addr b) = Some (set_size hd (b_size b))) by (unfold h1; by rewrite hdr_touch_eq, Hhd).
  rewrite on_header_touch by (by eexists). cbn [mbind outcome_bind].
  set (h2 := touch h1 _ _). assert (Hat2 : heap_inv h2 (l1 ++ b :: l2)) by (by apply touch_taken).
  assert (Hhd2 : hdr h2 (b_addr b) = Some (AllocHeader_set_color (set_size hd (b_size b)) Red))
    by (unfold h2; by rewrite hdr_touch_eq, Hhd1).
  rewrite on_header_touch by (by eexists). cbn [mbind outcome_bind].
  set (h3 := touch h2 _ _). assert (Hat3 : heap_inv h3 (l1 ++ b :: l2)) by (by apply touch_taken).
  assert (Hhd3 : ∃ hd3, hdr h3 (b_addr b) = Some hd3 ∧ get_size hd3 = b_size b).
  { unfold h3. rewrite hdr_touch_eq, Hhd2. eexists. split; [done|].
    by rewrite size_left, size_color, size_set_size. }
  destruct Hhd3 as (hd3 & Hhd3 & Hs3). unfold init_node_end. rewrite (read_header_hdr _ _ _ Hhd3). cbn [mbind outcome_bind].
  rewrite footer_eq by (done || lia). set (h4 := with_footers h3 _).
  assert (Hat4 : heap_inv h4 (l1 ++ b :: l2)) by (by apply (foot_taken _ _ _ b)).
  rewrite right_neighbor_eq by (done || lia). pose proof (next_header _ _ _ _ _ Hat4) as Hn4.
  unfold b_next in Hn4. rewrite on_header_touch by done. cbn [mbind outcome_bind].
  set (h5 := touch h4 _ _). assert (Hat5 : heap_inv h5 (l1 ++ b :: l2)) by (by apply touch_next).
  destruct (insert_step h5 l1 b l2 m Hat5 Hb) as (h' & E & Hat').
  - unfold h5. rewrite hdr_touch_ne by lia. change (get_size <$> hdr h3 (b_addr b) = Some (b_size b)). rewrite Hhd3. simpl. by f_equal.
  - intros c l ->. split; [by destruct m; [|specialize (Hl2 eq_refl)]|]. simpl. unfold b_foot. rewrite lookup_insert_eq. simpl. by f_equal.
  - exists h'. done.
Qed.

(** The mapped flag of a block that has just entered a tree. *)
Definition marked (m : bool) (b : blk) : blk :=
  {| b_addr := b_addr b; b_size := b_size b; b_kind := if m then FreeMapped else FreeUnmapped true |}.
Lemma mark_step h l1 b l2 m : heap_inv h (l1 ++ freed m b :: l2) →
  heap_inv (touch h (b_addr b) (λ hd, set_mapped hd m)) (l1 ++ marked m b :: l2).
Proof.
  intros Hat. set (f := λ hd, set_mapped hd m). assert (Hin : freed m b ∈ l1 ++ freed m b :: l2) by set_solver.
  destruct (at_range _ _ _ _ Hat Hin) as (H1 & H2 & H3 & _). unfold b_next in *. simpl in *.
  assert (Hsame : ∀ m', treeset m' (l1 ++ marked m b :: l2) = treeset m' (l1 ++ freed m b :: l2)).
  { intros m'. unfold treeset. rewrite !keys_app. simpl. by destruct m, m'. }
  assert (Hat1 : heap_at (λ m', treeset m' (l1 ++ freed m b :: l2)) (touch h (b_addr b) f) (l1 ++ freed m b :: l2)).
  { apply at_touch; [done|lia|..|lia].
    - intros m'. apply tree_ok_touch; [apply Hat| |rewrite (at_nil _ _ _ Hat); apply fixed_addrs; lia].
      intros hd. destruct (hdr_mapped hd m) as (? & _ & _ & ?). done.
    - eapply blocks_frame; [done| |apply Hat]. intros c Hc.
      destruct (decide (b_addr c = b_addr b)) as [E|E]; [|by apply touch_same].
      assert (c = freed m b) as -> by (eapply blocks_unique; [apply Hat|done..]). split; [|done].
      unfold hdr_same. simpl. rewrite hdr_touch_eq.
      assert (get_size <$> (f <$> hdr h (b_addr b)) = get_size <$> hdr h (b_addr b)); [|by destruct m].
      destruct (hdr h (b_addr b)) as [hd|]; [|done]. simpl. f_equal. apply hdr_mapped. }
  eapply heap_at_ext; [intros m'; symmetry; apply Hsame|].
  apply (at_retag _ _ _ _ (b_kind (marked m b)) _ Hat1).
  - pose proof (at_hdr _ _ _ _ _ Hat) as Hhd. unfold hdr_ok in *. simpl in *. destruct m; [done|].
    intros _. rewrite hdr_touch_eq. destruct (hdr h (b_addr b)) as [hd|]; simplify_eq/=. exists (f hd).
    destruct (hdr_mapped hd false) as (Hs & _ & Hm & _). split_and!; [done|exact (eq_trans Hs Hhd)|exact Hm].
  - intros m'. change (treeset m' (l1 ++ freed m b :: l2) ⊆ treeset m' (l1 ++ marked m b :: l2)). by rewrite Hsame.
  - intros c l ->. destruct m; [done|]. unfold hdr_ok. simpl. done.
  - pose proof (at_blocks _ _ _ Hat) as Hbl. apply blocks_app in Hbl as (a & _ & (_ & _ & _ & _ & Hu & _) & _).
    destruct m; [done|]. intros _. by apply Hu.
Qed.

(** ** A block in use *)

Definition live (b : blk) : blk := {| b_addr := b_addr b; b_size := b_size b; b_kind := Live |}.
Lemma treeset_untreed m l1 b b' l2 : in_tree m (b_kind b) = false → in_tree m (b_kind b') = false →
  treeset m (l1 ++ b :: l2) = treeset m (l1 ++ b' :: l2).
Proof. intros Hb Hb'. unfold treeset. rewrite !keys_app. simpl. by rewrite Hb, Hb'. Qed.
Lemma live_step h l1 b l2 hd : heap_inv h (l1 ++ b :: l2) → b_kind b = Taken → hdr h (b_addr b) = Some hd →
  get_size hd = b_size b → is_allocated hd = true → left_allocated hd = true →
  (∀ c l, l2 = c :: l → b_kind c = Live → ∃ hc, hdr h (b_addr c) = Some hc ∧ left_allocated hc = true) →
  heap_inv h (l1 ++ live b :: l2).
Proof.
  intros Hat Hb Hhd Hs Ha Hl Hc.
  assert (E : ∀ m, treeset m (l1 ++ b :: l2) = treeset m (l1 ++ live b :: l2)) by (intros m; apply treeset_untreed; by rewrite ?Hb).
  eapply heap_at_ext; [exact E|]. apply (at_retag _ _ _ _ Live _ Hat).
  - intros _. unfold hdr_ok. simpl. exists hd. split_and!; try done. unfold left_ok. rewrite Hl. by destruct (last_of None l1).
  - intros m. by rewrite E.
  - intros c l El. unfold hdr_ok. destruct (b_kind c) eqn:Ek; try done. destruct (Hc c l El Ek) as (hc & Ehc & Hlc).
    rewrite Ehc. intros (hd' & [= <-] & ? & ? & _). exists hc. split_and!; try done. unfold left_ok. by rewrite Hlc.
  - done.
Qed.
Lemma unlive_step h l1 b l2 : heap_inv h (l1 ++ b :: l2) → b_kind b = Live → heap_inv h (l1 ++ take b :: l2).
Proof.
  intros Hat Hb.
  assert (E : ∀ m, treeset m (l1 ++ b :: l2) = treeset m (l1 ++ take b :: l2)) by (intros m; apply treeset_untreed; by rewrite ?Hb).
  eapply heap_at_ext; [exact E|]. apply (at_retag _ _ _ _ Taken _ Hat).
  - intros Hok. by apply hdr_ok_some in Hok.
  - intros m. by rewrite E.
  - intros c l _. by apply hdr_ok_taken.
  - done.
Qed.

(** ** Cutting and joining blocks that are in no tree *)

Definition left_part (b : blk) (n : Z) : blk := {| b_addr := b_addr b; b_size := n; b_kind := Taken |}.
Definition right_part (b : blk) (n : Z) : blk :=
  {| b_addr := b_addr b + n + 16; b_size := b_size b - n - 16; b_kind := Taken |}.
Lemma carve_step h l1 b l2 n raw : heap_inv h (l1 ++ b :: l2) → b_kind b = Taken → 64 ≤ n → n mod 16 = 0 →
  n + 0x80 ≤ b_size b → heap_inv (carve h (b_addr b + n + 16) raw) (l1 ++ left_part b n :: right_part b n :: l2).
Proof.
  intros Hat Hb Hn H16 Hle. set (x := b_addr b + n + 16). set (h' := carve h x raw).
  assert (Hin : b ∈ l1 ++ b :: l2) by set_solver. destruct (at_range _ _ _ _ Hat Hin) as (H1 & H2 & H3 & Hm). unfold b_next in *.
  assert (Hx : ∀ c, c ∈ l1 ++ b :: l2 → b_addr c ≠ x).
  { intros c Hc. pose proof (at_blocks _ _ _ Hat) as Hbl. apply blocks_app in Hbl as (a & Hl1 & (<- & _ & _ & _ & _ & Hl2) & _).
    apply blocks_range in Hl1 as [_ Hl1]. apply blocks_range in Hl2 as [_ Hl2]. unfold b_next, x in *.
    apply elem_of_app in Hc as [Hc|[->|Hc]%elem_of_cons]; [destruct (Hl1 c Hc) as (? & ? & ? & _)|..|destruct (Hl2 c Hc) as (? & ? & ? & _)]; lia. }
  assert (E : ∀ m, treeset m (l1 ++ b :: l2) = treeset m (l1 ++ left_part b n :: right_part b n :: l2)).
  { intros m. unfold treeset. rewrite !keys_app. simpl. rewrite Hb. set_solver. }
  assert (Hxs : x < stop) by (unfold x; lia). destruct (fixed_addrs x) as [He Hnil]; [lia|].
  assert (Hat1 : heap_inv h' (l1 ++ b :: l2)).
  { split; try apply Hat.
    - eapply blocks_frame; [done| |apply Hat]. intros c Hc. split; [|done]. unfold hdr_same, h'.
      rewrite hdr_carve_ne by (by apply Hx). by destruct (b_kind c) as [| |[]| |].
    - unfold h'. rewrite hdr_carve_ne by lia. apply Hat.
    - unfold h'. rewrite hdr_carve_ne by done. apply Hat.
    - intros m. eapply tree_ok_frame; [apply (at_trees _ _ _ Hat m)|by destruct m|]. intros y Hy. simpl. apply lookup_insert_ne.
      intros <-. destruct Hy as [Hy|Hy]; [|by rewrite (at_nil _ _ _ Hat) in Hy; apply (Hnil m)].
      apply elem_treeset in Hy as [(c & Hc & Ha & _)|[Ha _]]; [by apply (Hx c)|done]. }
  eapply heap_at_ext; [exact E|]. apply (at_replace _ h' l1 [b] [left_part b n; right_part b n] l2); try done.
  - intros a e _ _ (Ea & Hs & _ & Hok & _ & En). simpl in *. unfold hdr_ok, b_next in *. rewrite Hb in Hok. simpl in *. split_and!; try done; try lia.
    + rewrite Zminus_mod, (Zminus_mod (b_size b)), Hm, H16. done.
    + unfold h'. rewrite hdr_carve_eq. done.
  - intros m. rewrite E. done.
  - intros c l _. by apply hdr_ok_taken.
  - intros _. by repeat constructor.
Qed.
Definition join (b c : blk) : blk := {| b_addr := b_addr b; b_size := b_size b + 16 + b_size c; b_kind := Taken |}.
Lemma join_step h l1 b c l2 : heap_inv h (l1 ++ b :: c :: l2) → b_kind b = Taken → b_kind c = Taken →
  heap_inv h (l1 ++ join b c :: l2).
Proof.
  intros Hat Hb Hc.
  assert (E : ∀ m, treeset m (l1 ++ b :: c :: l2) = treeset m (l1 ++ join b c :: l2)).
  { intros m. unfold treeset. rewrite !keys_app. simpl. rewrite Hb, Hc. set_solver. }
  eapply heap_at_ext; [exact E|]. apply (at_replace _ h l1 [b; c] [join b c] l2); try done.
  - intros a e _ _ (Ea & Hs & Hm & Hok & _ & Ec & Hsc & Hmc & _ & _ & En). simpl in *. unfold hdr_ok, b_next in *.
    rewrite Hb in Hok. simpl in *. split_and!; try done; try lia.
    rewrite Z.add_mod, (Z.add_mod (b_size b)), Hm, Hmc by lia. done.
  - intros m. rewrite E. done.
  - intros d l _. by apply hdr_ok_taken.
  - intros _. by repeat constructor.
Qed.

(** ** Using a block *)

Lemma taken_header K h l1 b l2 : heap_at K h (l1 ++ b :: l2) → b_kind b = Taken → is_Some (hdr h (b_addr b)).
Proof. intros Hat _. eapply hdr_ok_some, at_hdr, Hat. Qed.
(** [init_node_header] on a block that is in no tree. *)
Lemma init_header_step h l1 b l2 n : heap_inv h (l1 ++ b :: l2) → b_kind b = Taken → 0 ≤ n < 2 ^ 64 → n mod 16 = 0 → ∃ h' hd,
  init_node_header h (b_addr b) n = Done h' ∧ heap_inv h' (l1 ++ b :: l2)
  ∧ hdr h' (b_addr b) = Some hd ∧ get_size hd = n ∧ left_allocated hd = true
  ∧ ∀ y, y ≠ b_addr b → hdr h' y = hdr h y.
Proof.
  intros Hat Hb Hn H16. assert (Hin : b ∈ l1 ++ b :: l2) by set_solver.
  destruct (taken_header _ _ _ _ _ Hat Hb) as [hd Hhd]. unfold init_node_header. rewrite on_header_touch by (by eexists).
  cbn [mbind outcome_bind]. set (h1 := touch h _ _).
  assert (Hhd1 : hdr h1 (b_addr b) = Some (set_size hd n)) by (unfold h1; by rewrite hdr_touch_eq, Hhd).
  rewrite on_header_touch by (by eexists). eexists _, _. split; [done|]. split_and!.
  - apply touch_taken; [apply touch_taken; done|done..].
  - rewrite hdr_touch_eq, Hhd1. done.
  - by rewrite size_left, size_set_size.
  - apply hdr_left.
  - intros y Hy. unfold h1. by rewrite !hdr_touch_ne.
Qed.
Lemma allocate_step h l1 b l2 hd : heap_inv h (l1 ++ b :: l2) → b_kind b = Taken → hdr h (b_addr b) = Some hd →
  get_size hd = b_size b → left_allocated hd = true →
  (∀ c l, l2 = c :: l → b_kind c = Live → ∃ hc, hdr h (b_addr c) = Some hc ∧ left_allocated hc = true) →
  ∃ h', on_header h (b_addr b) AllocHeader.allocate = Done h' ∧ heap_inv h' (l1 ++ live b :: l2).
Proof.
  intros Hat Hb Hhd Hs Hl Hc. rewrite on_header_touch by (by eexists). eexists. split; [done|].
  destruct (hdr_allocate hd) as (Es & Ea & El).
  eapply (live_step _ l1 b l2 (AllocHeader.allocate hd)); try done; [apply touch_taken; set_solver|..].
  - by rewrite hdr_touch_eq, Hhd.
  - by rewrite Es.
  - by rewrite El.
  - intros c l -> Hk. destruct (Hc c l eq_refl Hk) as (hc & Ehc & ?). exists hc. split; [|done].
    rewrite hdr_touch_ne; [done|]. destruct (next_cases _ _ _ _ _ Hat) as [[? _]|(c' & l3 & [= <- <-] & ->)]; [done|].
    destruct (at_range _ _ _ b Hat) as (_ & _ & ? & _); [set_solver|]. unfold b_next. lia.
Qed.

Lemma start_addr_eq a : high a → high (a + 16) → get_block_start_addr a = a + 16.
Proof.
  intros Ha H16. unfold get_block_start_addr, link_addr, VirtAddr_from_u64, HEADER_SIZE. rewrite (high_new a Ha).
  exact (high_add a 16 Ha H16).
Qed.
(** [take_whole]. *)
Lemma take_whole_step h l1 b l2 : heap_inv h (l1 ++ b :: l2) → b_kind b = Taken → ∃ h',
  take_whole h (b_addr b) (b_size b) = Done (b_addr b + 16, h') ∧ heap_inv h' (l1 ++ live b :: l2).
Proof using Hreg.
  intros Hat Hb. destruct (at_range _ _ _ b Hat) as (H1 & H2 & H3 & H16); [set_solver|].
  pose proof (addr_high (b_addr b)) as Hh1. pose proof (addr_high (b_next b)) as Hh2. pose proof (addr_high (b_addr b + 16)) as Hh3.
  assert (Hlt : b_next b < 2 ^ 64) by (destruct Hreg; unfold KHeapSafe.stop in *; lia). unfold b_next in *.
  assert (0 ≤ base) by (destruct Hreg; lia).
  unfold take_whole. rewrite right_neighbor_eq by (try apply Hh1; try apply Hh2; lia).
  rewrite on_header_touch by exact (next_header _ _ _ _ _ Hat). cbn [mbind outcome_bind].
  set (h1 := touch h _ _). assert (Hat1 : heap_inv h1 (l1 ++ b :: l2)) by (by apply touch_next).
  destruct (init_header_step h1 l1 b l2 (b_size b) Hat1 Hb) as (h2 & hd & E2 & Hat2 & Hhd & Hs & Hl & Hsame); [lia|done|].
  rewrite E2. cbn [mbind outcome_bind].
  destruct (allocate_step h2 l1 b l2 hd Hat2 Hb Hhd Hs Hl) as (h3 & E3 & Hat3).
  - intros c l -> _. destruct (next_cases _ _ _ _ _ Hat) as [[? _]|(c' & l3 & [= <- <-] & ->)]; [done|].
    unfold b_next. rewrite Hsame by lia. unfold h1. rewrite hdr_touch_eq.
    destruct (next_header _ _ _ _ _ Hat) as [hc Ehc]. unfold b_next in Ehc. rewrite Ehc. eexists. split; [done|]. apply hdr_left.
  - rewrite E3. cbn [mbind outcome_bind]. exists h3. split; [|done]. rewrite start_addr_eq; [done|apply Hh1; lia|apply Hh3; lia].
Qed.

(** What is left of a free block of the tree [m] after an allocation of [n] bytes. *)
Definition split_blocks (m : bool) (b : blk) (n : Z) : list blk :=
  if bool_decide (n + 0x80 ≤ b_size b) then [live (left_part b n); marked m (right_part b n)] else [live b].

(** The state before the header of the block itself is written. *)
Lemma split_first h l1 b l2 n m raw : heap_inv h (l1 ++ b :: l2) → b_kind b = Taken → 64 ≤ n → n mod 16 = 0 →
  n + 0x80 ≤ b_size b → (m = false → l2 = []) →
  let right := get_block_right_neighbor (b_addr b) n in
  right = b_addr b + n + 16 ∧ ∃ h',
  init_free_node (carve h right raw) right (u64 (u64 (b_size b - n) - HEADER_SIZE)) m = Done h'
  ∧ heap_inv h' (l1 ++ left_part b n :: freed m (right_part b n) :: l2).
Proof using Hreg.
  intros Hat Hb Hn H16 Hle Hl2. destruct (at_range _ _ _ b Hat) as (H1 & H2 & H3 & Hm); [set_solver|].
  assert (Hlt : b_next b < 2 ^ 64) by (destruct Hreg; unfold KHeapSafe.stop in *; lia). unfold b_next in *.
  assert (0 ≤ base) by (destruct Hreg; lia).
  pose proof (addr_high (b_addr b)) as Hh1. pose proof (addr_high (b_addr b + n + 16)) as Hh2.
  rewrite right_neighbor_eq by (try apply Hh1; try apply Hh2; lia). split; [done|].
  unfold HEADER_SIZE. rewrite (u64_id (b_size b - n)) by lia. rewrite u64_id by lia.
  pose proof (carve_step h l1 b l2 n raw Hat Hb Hn H16 Hle) as Hat1.
  destruct (init_free_step (carve h (b_addr b + n + 16) raw) (l1 ++ [left_part b n]) (right_part b n) l2 m) as (h' & E & Hat');
    [by rewrite <- app_assoc|done|done|].
  rewrite <- app_assoc in Hat'. exists h'. done.
Qed.
Lemma split_size h b n : get_size <$> hdr h (b_addr b) = Some (b_size b) → 64 ≤ n ≤ b_size b → b_size b < 2 ^ 48 →
  ∃ hd, read_header h (b_addr b) = Done hd ∧ get_size hd = b_size b ∧ u64 (n + MIN_BLOCK_SIZE) = n + 0x80.
Proof.
  intros Hs Hn Hb. destruct (hdr h (b_addr b)) as [hd|] eqn:E; [|done]. exists hd. split; [by apply read_header_hdr|].
  split; [by injection Hs|]. unfold MIN_BLOCK_SIZE. rewrite u64_id; lia.
Qed.
Lemma size_48 K h bs b : heap_at K h bs → b ∈ bs → b_size b < 2 ^ 48.
Proof using Hreg.
  intros Hat Hb. destruct (at_range _ _ _ b Hat Hb) as (H1 & H2 & H3 & Hm). destruct Hreg. unfold b_next, KHeapSafe.stop in *. lia.
Qed.

(** [split_alloc]. *)
Lemma split_alloc_step h l1 b l2 n raw : heap_inv h (l1 ++ b :: l2) → b_kind b = Taken →
  get_size <$> hdr h (b_addr b) = Some (b_size b) → 64 ≤ n ≤ b_size b → n mod 16 = 0 → ∃ h',
  split_alloc raw h (b_addr b) n = Done (b_addr b + 16, h') ∧ heap_inv h' (l1 ++ split_blocks true b n ++ l2).
Proof using Hreg.
  intros Hat Hb Hs Hn H16. assert (Hb48 : b_size b < 2 ^ 48) by (eapply size_48; [exact Hat|set_solver]).
  destruct (split_size h b n Hs Hn Hb48) as (hd & Ehd & Esz & Eu). unfold split_alloc. rewrite Ehd. cbn [mbind outcome_bind].
  rewrite Eu, Esz. unfold split_blocks. case_bool_decide as Hle.
  - destruct (split_first h l1 b l2 n true raw Hat Hb ltac:(lia) H16 Hle ltac:(done)) as [Er (h1 & E1 & Hat1)].
    cbv zeta in Er, E1. rewrite E1, Er. cbn [mbind outcome_bind].
    destruct (init_header_step h1 l1 (left_part b n) (freed true (right_part b n) :: l2) n) as (h2 & hd2 & E2 & Hat2 & Hhd2 & Hs2 & Hl2 & _);
      [done|done|lia|done|]. simpl in E2. rewrite E2. cbn [mbind outcome_bind].
    assert (Hr : is_Some (hdr h2 (b_addr b + n + 16))).
    { exact (next_header _ _ _ _ _ Hat2). }
    rewrite on_header_touch by done. cbn [mbind outcome_bind].
    pose proof (mark_step h2 (l1 ++ [left_part b n]) (right_part b n) l2 true) as Hat3. rewrite <- !app_assoc in Hat3.
    specialize (Hat3 Hat2). simpl in Hat3. set (h3 := touch h2 _ _) in *.
    destruct (allocate_step h3 l1 (left_part b n) (marked true (right_part b n) :: l2) hd2 Hat3) as (h4 & E4 & Hat4); try done.
    { unfold h3. rewrite hdr_touch_ne; [done|]. simpl. lia. }
    { by intros c l [= <- _]. }
    simpl in E4. rewrite E4. cbn [mbind outcome_bind]. exists h4. split; [|done].
    destruct (at_range _ _ _ b Hat) as (H1 & H2 & H3 & _); [set_solver|]. unfold b_next in *.
    rewrite start_addr_eq; [done|apply addr_high; lia..].
  - apply take_whole_step; done.
Qed.

(** * The operations *)

(** Between operations every block is in use, in a tree or lost. *)
Definition settled (b : blk) : Prop := b_kind b ≠ Taken ∧ b_kind b ≠ FreeUnmapped false.
Definition heap_ok (h : heap) (bs : list blk) : Prop := heap_inv h bs ∧ Forall settled bs.
(** The extents the heap has handed out: what a client may use of the blocks in use. *)
Fixpoint lives (bs : list blk) : list (Z * Z) :=
  match bs with
  | [] => []
  | b :: bs => match b_kind b with Live => [(b_addr b + 16, b_size b)] | _ => [] end ++ lives bs
  end.
Lemma lives_app l1 l2 : lives (l1 ++ l2) = lives l1 ++ lives l2.
Proof. induction l1 as [|b l1 IH]; simpl; [done|]. by rewrite IH, app_assoc. Qed.
Lemma elem_of_lives bs p n : (p, n) ∈ lives bs ↔ ∃ b, b ∈ bs ∧ b_kind b = Live ∧ p = b_addr b + 16 ∧ n = b_size b.
Proof.
  induction bs as [|b bs IH]; simpl; [set_solver|]. rewrite elem_of_app, IH. split.
  - intros [Hb|(c & ? & ?)]; [|exists c; set_solver]. exists b. destruct (b_kind b); set_solver.
  - intros (c & [->|Hc]%elem_of_cons & Hk & -> & ->); [left; rewrite Hk; set_solver|right; eauto].
Qed.

(** ** Deallocation *)

Lemma prev_cases K h l1 b l2 : heap_at K h (l1 ++ b :: l2) →
  (l1 = [] ∧ b_addr b = base) ∨ ∃ l0 q, l1 = l0 ++ [q] ∧ b_addr b = b_next q.
Proof.
  intros Hat. pose proof (at_blocks _ _ _ Hat) as Hb. apply blocks_app in Hb as (a & H1 & (E & _) & _). rewrite E.
  destruct l1 as [|q l0 _] using rev_ind; [by left|right]. exists l0, q. split; [done|].
  apply blocks_app in H1 as (e & _ & (_ & _ & _ & _ & _ & H1) & _). by simpl in H1.
Qed.
(** A mapped free block on the left, or on the right, that the scan found. *)
Definition left_found (l1 : list blk) (m_left ls : Z) : Prop :=
  (m_left = NULL_LINK ∧ ls = 0)
  ∨ ∃ l0 q, l1 = l0 ++ [q] ∧ b_kind q = FreeMapped ∧ m_left = b_addr q ∧ ls = b_size q + 16.
Definition right_found (l2 : list blk) (m_right rs : Z) : Prop :=
  (m_right = NULL_LINK ∧ rs = 0)
  ∨ ∃ c l3, l2 = c :: l3 ∧ b_kind c = FreeMapped ∧ m_right = b_addr c ∧ rs = b_size c + 16.

(** The part of the scan that looks at the right neighbour. *)
Lemma right_scan h l1 b l2 : heap_ok h (l1 ++ b :: l2) → ∃ rhd, hdr h (b_next b) = Some rhd
  ∧ (negb (is_allocated rhd) && Bool.eqb true (is_mapped rhd) = true →
     right_found l2 (b_next b) (get_size rhd + 16)).
Proof.
  intros [Hat Hset]. destruct (next_header _ _ _ _ _ Hat) as [rhd Hr]. exists rhd. split; [done|].
  rewrite andb_true_iff, negb_true_iff, Bool.eqb_true_iff. intros [Hna Hma].
  destruct (next_cases _ _ _ _ _ Hat) as [[-> Est]|(c & l3 & -> & Ec)].
  - rewrite Est in Hr. destruct (at_stop _ _ _ Hat) as (hd & Hhd & [?|?]); congruence.
  - right. exists c, l3. rewrite <- Ec in Hr |- *. 
    assert (Hc : hdr_ok h (last_of None (l1 ++ [b])) c) by (eapply (at_hdr _ h (l1 ++ [b]) c l3); rewrite <- app_assoc; exact Hat).
    apply Forall_app in Hset as [_ Hset]. apply Forall_cons in Hset as [_ Hset]. apply Forall_cons in Hset as [[Hs1 Hs2] _].
    unfold hdr_ok in Hc. rewrite Hr in Hc. destruct (b_kind c) as [| |[]| |] eqn:Ek; try done.
    + destruct Hc as (? & [= <-] & _ & ? & _). congruence.
    + simpl in Hc. injection Hc as Hc. split_and!; try done. lia.
    + destruct Hc as (? & [= <-] & _ & ?). congruence.
    + destruct Hc as (? & [= <-] & _ & ?). congruence.
Qed.
(** The part that looks at the left one. *)
Lemma left_scan h l1 b l2 hd : heap_ok h (l1 ++ b :: l2) → b_kind b = Live → hdr h (b_addr b) = Some hd →
  bool_decide (link_addr (b_addr b) ≠ heap_start h) && negb (left_allocated hd) = true → ∃ ml lhd,
  get_block_left_neighbor h (b_addr b) = Done ml ∧ read_header h ml = Done lhd
  ∧ left_found l1 ml (get_size lhd + 16).
Proof using Hreg.
  intros [Hat Hset] Hb Hhd. rewrite andb_true_iff, bool_decide_eq_true, negb_true_iff. intros [Hne Hnl].
  destruct (at_range _ _ _ b Hat) as (H1 & H2 & H3 & _); [set_solver|]. unfold b_next in *.
  unfold link_addr, VirtAddr_from_u64 in *. rewrite high_new in * by (apply addr_high; lia). rewrite (at_start _ _ _ Hat) in Hne.
  destruct (prev_cases _ _ _ _ _ Hat) as [[_ ?]|(l0 & q & -> & Eq)]; [done|].
  pose proof (at_hdr _ _ _ _ _ Hat) as Hok. unfold hdr_ok in Hok. rewrite Hb, Hhd in Hok.
  destruct Hok as (? & [= <-] & _ & _ & Hl). unfold left_ok in Hl. rewrite last_of_app in Hl. simpl in Hl. specialize (Hl Hnl).
  assert (Hq : q ∈ (l0 ++ [q]) ++ b :: l2) by set_solver. destruct (at_range _ _ _ q Hat Hq) as (G1 & G2 & G3 & _). unfold b_next in *.
  destruct (b_kind q) eqn:Ek; try done.
  2: { exfalso. apply Forall_app in Hset as [Hset _]. apply Forall_app in Hset as [_ Hset].
       apply Forall_cons in Hset as [[Hs _] _]. done. }
  unfold get_block_left_neighbor, link_addr, VirtAddr_from_u64, HEADER_SIZE, VirtAddr_as_mut_ptr.
  rewrite high_new by (apply addr_high; lia). change VirtAddr_sub_usize with VirtAddr_sub_u64.
  rewrite (high_sub (b_addr b) 16) by (apply addr_high; lia). rewrite high_u64 by (apply addr_high; lia).
  replace (b_addr b - 16) with (b_foot q) by (unfold b_foot; lia).
  destruct (footers h !! b_foot q) as [f|]; [|done]. simpl in Hl. injection Hl as Hf. cbn [deref mbind outcome_bind]. rewrite Hf.
  rewrite (high_sub (b_addr b) (b_size q)) by (apply addr_high; lia). rewrite high_sub by (apply addr_high; lia).
  rewrite high_u64 by (apply addr_high; lia). replace (b_addr b - b_size q - 16) with (b_addr q) by lia.
  pose proof (at_size _ _ _ q true Hat Hq) as Hsz. rewrite Ek in Hsz. specialize (Hsz eq_refl).
  destruct (hdr h (b_addr q)) as [lhd|] eqn:El; [|done]. simpl in Hsz. injection Hsz as Hsz.
  exists (b_addr q), lhd. split_and!; [done|by apply read_header_hdr|]. right. exists l0, q. split_and!; try done. lia.
Qed.

Lemma scan_step h l1 b l2 : heap_ok h (l1 ++ b :: l2) → b_kind b = Live → ∃ r ls rs,
  merge_scan_neighbors h (b_addr b) true = Done r ∧ current r = b_addr b
  ∧ left_found l1 (m_left r) ls ∧ right_found l2 (m_right r) rs ∧ new_size r = b_size b + rs + ls.
Proof using Hreg.
  intros Hok Hb. pose proof Hok as [Hat _]. destruct (at_range _ _ _ b Hat) as (H1 & H2 & H3 & _); [set_solver|].
  pose proof (at_hdr _ _ _ _ _ Hat) as Hh. unfold hdr_ok in Hh. rewrite Hb in Hh. destruct Hh as (hd & Hhd & Hs & _).
  assert (Hb48 : ∀ c, c ∈ l1 ++ b :: l2 → b_size c < 2 ^ 48) by (intros c Hc; eapply size_48; done).
  assert (Hrs : ∀ mr rs, right_found l2 mr rs → 0 ≤ rs < 2 ^ 49).
  { intros mr rs [[_ ->]|(c & l3 & -> & _ & _ & ->)]; [lia|]. specialize (Hb48 c ltac:(set_solver)).
    destruct (at_range _ _ _ c Hat) as (_ & _ & ? & _); [set_solver|]. lia. }
  assert (Hls : ∀ ml ls, left_found l1 ml ls → 0 ≤ ls < 2 ^ 49).
  { intros ml ls [[_ ->]|(l0 & c & -> & _ & _ & ->)]; [lia|]. specialize (Hb48 c ltac:(set_solver)).
    destruct (at_range _ _ _ c Hat) as (_ & _ & ? & _); [set_solver|]. lia. }
  specialize (Hb48 b ltac:(set_solver)).
  unfold merge_scan_neighbors. rewrite (read_header_hdr _ _ _ Hhd). cbn [mbind outcome_bind]. rewrite Hs.
  rewrite right_neighbor_eq by (try apply addr_high; unfold b_next in *; lia). fold (b_next b).
  destruct (right_scan _ _ _ _ Hok) as (rhd & Hr & Hright). rewrite (read_header_hdr _ _ _ Hr). cbn [mbind outcome_bind].
  set (cr := negb (is_allocated rhd) && Bool.eqb true (is_mapped rhd)) in *.
  assert (∃ mr rs, (if cr then (b_next b, u64 (b_size b + u64 (get_size rhd + HEADER_SIZE))) else (NULL_LINK, b_size b))
    = (mr, b_size b + rs) ∧ right_found l2 mr rs) as (mr & rs & -> & Hmr).
  { destruct cr; [|exists NULL_LINK, 0; split; [by rewrite Z.add_0_r|by left]].
    specialize (Hright eq_refl). specialize (Hrs _ _ Hright). exists (b_next b), (get_size rhd + 16). split; [|done].
    unfold HEADER_SIZE. rewrite (u64_id (get_size rhd + 16)), u64_id by lia. done. }
  specialize (Hrs _ _ Hmr). destruct (bool_decide _ && _) eqn:Ecl.
  - destruct (left_scan _ _ _ _ _ Hok Hb Hhd Ecl) as (ml & lhd & El & Elh & Hml). rewrite El. cbn [mbind outcome_bind].
    rewrite Elh. cbn [mbind outcome_bind]. specialize (Hls _ _ Hml). eexists _, (get_size lhd + 16), rs. split; [done|]. simpl.
    split_and!; try done. unfold HEADER_SIZE. rewrite (u64_id (get_size lhd + 16)), u64_id by lia. done.
  - eexists _, 0, rs. split; [done|]. simpl. split_and!; try done; [by left|lia].
Qed.

Lemma not_null K h bs b : heap_at K h bs → b ∈ bs → b_addr b ≠ NULL_LINK.
Proof using Hreg. intros Hat Hb. destruct (at_range _ _ _ b Hat Hb) as (? & _). destruct Hreg. unfold NULL_LINK. lia. Qed.
(** The two parts of [merge]. *)
Lemma merge_left h l1 b l2 ml ls : heap_inv h (l1 ++ b :: l2) → b_kind b = Taken → left_found l1 ml ls → Forall settled l1 →
  ∃ h' l1' b', (if bool_decide (ml ≠ NULL_LINK) then tree_remove true h ml else Done (b_addr b, h)) = Done (b_addr b', h')
  ∧ heap_inv h' (l1' ++ b' :: l2) ∧ b_kind b' = Taken ∧ b_size b' = b_size b + ls ∧ lives l1' = lives l1 ∧ Forall settled l1'.
Proof using Hreg.
  intros Hat Hb [[-> ->]|(l0 & q & -> & Hq & -> & ->)] Hset.
  - exists h, l1, b. rewrite bool_decide_false by naive_solver. split_and!; try done. lia.
  - rewrite bool_decide_true by (eapply not_null; [exact Hat|set_solver]). rewrite <- app_assoc in Hat.
    destruct (remove_step _ _ _ _ Hat Hq) as (h' & E & Hat'). exists h', l0, (join (take q) b).
    apply Forall_app in Hset as [Hset _]. rewrite lives_app. simpl. rewrite Hq, app_nil_r.
    split_and!; try done; [by apply join_step|lia].
Qed.
Lemma merge_right h l1 b l2 mr rs : heap_inv h (l1 ++ b :: l2) → b_kind b = Taken → right_found l2 mr rs → Forall settled l2 →
  ∃ h' l2' b' rt, (if bool_decide (mr ≠ NULL_LINK) then tree_remove true h mr else Done (mr, h)) = Done (rt, h')
  ∧ heap_inv h' (l1 ++ b' :: l2') ∧ b_kind b' = Taken ∧ b_addr b' = b_addr b ∧ b_size b' = b_size b + rs
  ∧ lives l2' = lives l2 ∧ Forall settled l2'.
Proof using Hreg.
  intros Hat Hb [[-> ->]|(c & l3 & -> & Hc & -> & ->)] Hset.
  - exists h, l2, b, NULL_LINK. rewrite bool_decide_false by naive_solver. split_and!; try done. lia.
  - rewrite bool_decide_true by (eapply not_null; [exact Hat|set_solver]).
    pose proof (remove_step h (l1 ++ [b]) c l3) as Hr. rewrite <- !app_assoc in Hr.
    destruct (Hr Hat Hc) as (h' & E & Hat'). exists h', l3, (join b (take c)), (b_addr c).
    apply Forall_cons in Hset as [_ Hset]. simpl. rewrite Hc.
    split_and!; try done; [by apply join_step|lia].
Qed.

Lemma kfree_step h bs p n : heap_ok h bs → (p, n) ∈ lives bs → ∃ h' bs',
  kfree h p = Done h' ∧ heap_ok h' bs' ∧ (p, n) :: lives bs' ≡ₚ lives bs.
Proof using Hreg.
  intros Hok (b & Hb & Hk & -> & ->)%elem_of_lives. apply list_elem_of_split in Hb as (l1 & l2 & ->).
  pose proof Hok as [Hat Hset]. destruct (at_range _ _ _ b Hat) as (H1 & H2 & H3 & _); [set_solver|].
  assert (Hlow : 0 < base) by (destruct Hreg; lia).
  apply Forall_app in Hset as [Hset1 Hset2]. apply Forall_cons in Hset2 as [_ Hset2].
  unfold kfree. rewrite bool_decide_false by (unfold VirtAddr_NULL_PTR; lia).
  assert (get_node_from_block_addr (b_addr b + 16) = b_addr b) as ->.
  { unfold get_node_from_block_addr, HEADER_SIZE, VirtAddr_as_mut_ptr. change VirtAddr_sub_usize with VirtAddr_sub_u64.
    rewrite high_sub by (replace (b_addr b + 16 - 16) with (b_addr b) by lia; apply addr_high; unfold b_next in *; lia).
    rewrite high_u64 by (replace (b_addr b + 16 - 16) with (b_addr b) by lia; apply addr_high; unfold b_next in *; lia). lia. }
  destruct (scan_step _ _ _ _ Hok Hk) as ([cur ml mr nsz] & ls & rs & -> & Ecur & Hml & Hmr & Esz). simpl in *. subst cur nsz.
  cbn [mbind outcome_bind]. unfold merge. cbn [m_left m_right current new_size].
  pose proof (unlive_step _ _ _ _ Hat Hk) as Hat0.
  destruct (merge_left h l1 (take b) l2 ml ls Hat0 eq_refl Hml Hset1) as (h1 & l1' & b1 & E1 & Hat1 & Hk1 & Hs1 & Hlv1 & Hset1').
  simpl in E1. rewrite E1. cbn [mbind outcome_bind].
  destruct (merge_right h1 l1' b1 l2 mr rs Hat1 Hk1 Hmr Hset2) as (h2 & l2' & b2 & rt & E2 & Hat2 & Hk2 & Ha2 & Hs2 & Hlv2 & Hset2').
  rewrite E2. cbn [mbind outcome_bind]. rewrite <- Ha2. simpl in Hs1.
  destruct (at_range _ _ _ b2 Hat2) as (_ & _ & H64 & H16); [set_solver|]. pose proof (size_48 _ _ _ b2 Hat2 ltac:(set_solver)).
  replace (b_size b + rs + ls) with (b_size b2) by lia.
  destruct (init_header_step h2 l1' b2 l2' (b_size b2) Hat2 Hk2) as (h3 & hd & E3 & Hat3 & Hhd & Hsz & _); [lia|done|].
  rewrite E3. cbn [mbind outcome_bind current]. rewrite (read_header_hdr _ _ _ Hhd). cbn [mbind outcome_bind]. rewrite Hsz.
  destruct (init_free_step h3 l1' b2 l2' true Hat3 Hk2) as (h4 & E4 & Hat4); [done|].
  exists h4, (l1' ++ freed true b2 :: l2'). split_and!; [done|split; [done|]|].
  - apply Forall_app. split; [done|]. constructor; [done|done].
  - rewrite !lives_app. simpl. rewrite Hk, Hlv1, Hlv2. simpl. by rewrite Permutation_middle.
Qed.

(** ** Allocation *)

(** The size the heap looks for. *)
Definition request (size : Z) : Z := alloc_size_req_align (if bool_decide (size < MIN_ALLOC_SIZE) then MIN_ALLOC_SIZE else size).
Lemma request_spec size : 0 < size < 2 ^ 63 →
  64 ≤ request size ∧ size ≤ request size < size + 80 ∧ request size mod 16 = 0.
Proof.
  intros Hs. unfold request, MIN_ALLOC_SIZE. case_bool_decide; [change (alloc_size_req_align _) with 64; split_and!; done || lia|].
  unfold alloc_size_req_align, MIN_KHEAP_ALIGN. change 0x10 with 16. case_bool_decide as H16.
  - assert (0 ≤ size mod 16 < 16) by (apply Z.mod_pos_bound; lia). rewrite (u64_id (size - _)), u64_id by lia.
    split_and!; [lia..|]. replace (size - size mod 16 + 16) with ((size / 16 + 1) * 16); [apply Z.mod_mul; lia|].
    rewrite (Z.div_mod size 16) at 2 by lia. lia.
  - split_and!; [lia..|]. destruct (decide (size mod 16 = 0)); [done|]. by destruct H16.
Qed.
Lemma page_request n : 64 ≤ n < 2 ^ 63 + 80 →
  n ≤ u64 ((if bool_decide (n mod PAGE_SIZE ≠ 0) then n / PAGE_SIZE + 1 else n / PAGE_SIZE) * PAGE_SIZE).
Proof.
  intros Hn. unfold PAGE_SIZE. change 0x1000 with 4096. pose proof (Z.div_mod n 4096 ltac:(lia)).
  assert (0 ≤ n mod 4096 < 4096) by (apply Z.mod_pos_bound; lia). case_bool_decide; rewrite u64_id by lia; lia.
Qed.

Definition lost (b : blk) : blk := {| b_addr := b_addr b; b_size := b_size b; b_kind := Lost |}.
Lemma lost_step h l1 b hd : heap_inv h (l1 ++ [b]) → b_kind b = Taken → hdr h (b_addr b) = Some hd →
  get_size hd = b_size b → is_mapped hd = false → heap_inv h (l1 ++ [lost b]).
Proof.
  intros Hat Hb Hhd Hs Hm.
  assert (E : ∀ m, treeset m (l1 ++ [b]) = treeset m (l1 ++ [lost b])) by (intros m; apply treeset_untreed; by rewrite ?Hb).
  eapply heap_at_ext; [exact E|]. apply (at_retag _ _ _ _ Lost _ Hat); try done.
  - intros _. unfold hdr_ok. simpl. eauto.
  - intros m. by rewrite E.
Qed.

Section pages.
Context {A : Type} `{HP : PageSource A}.

(** The pages that the heap asks the memory manager for, and where it maps them;
    [false] when there is no physical memory left.  Neither call is assumed to
    return. *)
Definition pages_asked (n : Z) : Z := u64 ((n / PAGE_SIZE + 1) * PAGE_SIZE).
Definition mapped_at (b : Z) : Z :=
  VirtAddr_new (u64 (Z.land (u64_from_VirtAddr (link_addr b)) (not_w 64 (PAGE_SIZE - 1)) + PAGE_SIZE)).
Definition get_pages (a : A) (v n : Z) : outcome (bool * A) :=
  '(r, a) ← source_alloc_page n a;
  match r with
  | Err _ => Done (false, a)
  | Ok pages => a ← source_map (start pages) v (length_ pages) a; Done (true, a)
  end.

Lemma split_map_step h l1 b n raw a : heap_inv h (l1 ++ [b]) → b_kind b = Taken →
  get_size <$> hdr h (b_addr b) = Some (b_size b) → 64 ≤ n ≤ b_size b → n mod 16 = 0 →
  match get_pages a (mapped_at (b_addr b)) (pages_asked n) with
  | Done (true, a') => ∃ h', split_alloc_and_map raw h a (b_addr b) n = Done (b_addr b + 16, h', a')
      ∧ heap_inv h' (l1 ++ split_blocks false b n)
  | Done (false, a') => split_alloc_and_map raw h a (b_addr b) n = Done (VirtAddr_NULL_PTR, h, a')
  | _ => ∀ r, split_alloc_and_map raw h a (b_addr b) n ≠ Done r
  end.
Proof using Hreg.
  intros Hat Hb Hs Hn H16. assert (Hb48 : b_size b < 2 ^ 48) by (eapply size_48; [exact Hat|set_solver]).
  destruct (split_size h b n Hs Hn Hb48) as (hd & Ehd & Esz & Eu). unfold split_alloc_and_map, get_pages. rewrite Ehd. cbn [mbind outcome_bind].
  cbv zeta. fold (pages_asked n) (mapped_at (b_addr b)).
  destruct (source_alloc_page (pages_asked n) a) as [[r a1]| | |]; cbn [mbind outcome_bind]; [|done..].
  destruct r as [pages|]; [|done].
  destruct (source_map (start pages) (mapped_at (b_addr b)) (length_ pages) a1) as [a2| | |]; cbn [mbind outcome_bind]; [|done..].
  rewrite Eu, Esz. unfold split_blocks. case_bool_decide as Hle.
  - destruct (split_first h l1 b [] n false raw Hat Hb ltac:(lia) H16 Hle ltac:(done)) as [Er (h1 & E3 & Hat1)].
    cbv zeta in Er, E3. rewrite E3, Er. cbn [mbind outcome_bind].
    pose proof (next_header _ _ _ _ _ Hat1) as Hr. unfold b_next in Hr. simpl in Hr.
    rewrite on_header_touch by done. cbn [mbind outcome_bind].
    pose proof (mark_step h1 (l1 ++ [left_part b n]) (right_part b n) [] false) as Hat3. rewrite <- !app_assoc in Hat3.
    specialize (Hat3 Hat1). simpl in Hat3. set (h3 := touch h1 _ _) in *.
    destruct (init_header_step h3 l1 (left_part b n) [marked false (right_part b n)] n) as (h2 & hd2 & E4 & Hat2 & Hhd2 & Hs2 & Hl2 & _);
      [done|done|lia|done|]. simpl in E4. rewrite E4. cbn [mbind outcome_bind].
    destruct (allocate_step h2 l1 (left_part b n) [marked false (right_part b n)] hd2 Hat2) as (h4 & E5 & Hat4); try done.
    { by intros c l [= <- _]. }
    simpl in E5. rewrite E5. cbn [mbind outcome_bind]. exists h4.
    destruct (at_range _ _ _ b Hat) as (H1 & H2 & H3 & _); [set_solver|]. unfold b_next in *.
    rewrite start_addr_eq by (apply addr_high; lia). done.
  - destruct (take_whole_step h l1 b [] Hat Hb) as (h1 & E3 & Hat1). rewrite E3. cbn [mbind outcome_bind]. eauto.
Qed.

(** What an allocation does, on a heap [h] with the blocks [bs]: it gives block
    [b] to the client and keeps the other blocks in use. *)
Definition gives (size : Z) (bs : list blk) (b : blk) (a' : A) (o : outcome (Z * heap * A)) : Prop :=
  ∃ h' bs' n, o = Done (b_addr b + 16, h', a') ∧ heap_ok h' bs' ∧ size ≤ n
  ∧ lives bs' ≡ₚ (b_addr b + 16, n) :: lives bs.
Definition fits (m : bool) (n : Z) (bs : list blk) : Prop :=
  ∃ c, c ∈ bs ∧ in_tree m (b_kind c) = true ∧ n ≤ b_size c.
(** The whole pages that an unmapped block must have. *)
Definition whole_pages (n : Z) : Z :=
  u64 ((if bool_decide (n mod PAGE_SIZE ≠ 0) then n / PAGE_SIZE + 1 else n / PAGE_SIZE) * PAGE_SIZE).

Inductive alloc_spec (size : Z) (h : heap) (a : A) (bs : list blk) : outcome (Z * heap * A) → Prop :=
  | alloc_zero : size = 0 → alloc_spec size h a bs (Done (VirtAddr_NULL_PTR, h, a))
  | alloc_mapped b o : 0 < size → b ∈ bs → b_kind b = FreeMapped → request size ≤ b_size b →
      (∀ c, c ∈ bs → b_kind c = FreeMapped → request size ≤ b_size c → b_size b ≤ b_size c) →
      gives size bs b a o → alloc_spec size h a bs o
  | alloc_none : 0 < size → ¬ fits true (request size) bs → ¬ fits false (whole_pages (request size)) bs →
      alloc_spec size h a bs (Done (VirtAddr_NULL_PTR, h, a))
  | alloc_unmapped l b o : 0 < size → ¬ fits true (request size) bs → bs = l ++ [b] →
      b_kind b = FreeUnmapped true → whole_pages (request size) ≤ b_size b →
      match get_pages a (mapped_at (b_addr b)) (pages_asked (request size)) with
      | Done (true, a') => gives size bs b a' o
      | Done (false, a') => ∃ h', o = Done (VirtAddr_NULL_PTR, h', a') ∧ heap_ok h' (l ++ [lost b])
      | _ => ∀ r, o ≠ Done r
      end → alloc_spec size h a bs o.

Lemma split_blocks_lives m b n : n ≤ b_size b → ∃ k, n ≤ k ∧ lives (split_blocks m b n) = [(b_addr b + 16, k)].
Proof. intros Hn. unfold split_blocks. case_bool_decide; simpl; [exists n|exists (b_size b)]; [by destruct m|done]. Qed.
Lemma split_blocks_settled m b n : Forall settled (split_blocks m b n).
Proof. unfold split_blocks. case_bool_decide; repeat constructor; simpl; by destruct m. Qed.
Lemma split_post m b n l1 l2 : b_kind b ≠ Live → n ≤ b_size b → ∃ k, n ≤ k
  ∧ lives (l1 ++ split_blocks m b n ++ l2) ≡ₚ (b_addr b + 16, k) :: lives (l1 ++ b :: l2).
Proof.
  intros Hb Hn. destruct (split_blocks_lives m b n Hn) as (k & Hk & E). exists k. split; [done|].
  rewrite !lives_app, E. simpl. destruct (b_kind b); try done; by rewrite Permutation_middle.
Qed.
Lemma settled_split m b n l1 l2 : Forall settled (l1 ++ b :: l2) → Forall settled (l1 ++ split_blocks m b n ++ l2).
Proof.
  rewrite !Forall_app, Forall_cons. intros (H1 & _ & H2). split_and!; [done|apply split_blocks_settled|done].
Qed.

Lemma kalloc_step h bs a raw size align : heap_ok h bs → 0 ≤ size < 2 ^ 63 →
  alloc_spec size h a bs (kalloc_layout raw h a size align).
Proof using Hreg.
  intros [Hat Hset] Hsz. unfold kalloc_layout. case_bool_decide as H0; [by apply alloc_zero|].
  destruct (request_spec size) as (R1 & [R2 R2'] & R3); [lia|]. fold (request size). set (n := request size) in *.
  destruct (best_fit_step true h bs n Hat) as (o & h1 & E1 & Ho); [lia|]. rewrite E1. cbn [mbind outcome_bind].
  destruct o as [x|].
  - destruct Ho as (l1 & b & l2 & -> & <- & Hk & Hle & Hbest & Hat1 & Hhd).
    assert (Hkb : b_kind b = FreeMapped) by (destruct (b_kind b); done).
    destruct (split_alloc_step h1 l1 (take b) l2 n raw Hat1) as (h2 & E2 & Hat2); [done| |done|done|].
    { simpl. rewrite Hhd. eapply at_size; [exact Hat|set_solver|exact Hk]. }
    change (split_blocks true (take b) n) with (split_blocks true b n) in Hat2.
    destruct (split_post true b n l1 l2) as (k & Hnk & Hlv); [by rewrite Hkb|done|].
    simpl in E2. rewrite E2. cbn [mbind outcome_bind].
    apply (alloc_mapped _ _ _ _ b); [lia|set_solver|done|done| |].
    + intros c Hc Hkc. apply Hbest; [done|by rewrite Hkc].
    + eexists _, _, k. split; [done|]. split_and!; [split; [exact Hat2|by apply settled_split]|lia|done].
  - destruct Ho as [-> Hnone].
    assert (Hnm : ¬ fits true n bs) by (intros (c & Hc & Hkc & Hle); specialize (Hnone c Hc Hkc); lia).
    pose proof (page_request n ltac:(lia)) as Hpr. fold (whole_pages n) in *.
    destruct (best_fit_step false h bs (whole_pages n) Hat) as (o & h2 & E2 & Ho); [lia|]. rewrite E2. cbn [mbind outcome_bind].
    destruct o as [x|].
    2: { destruct Ho as [-> Hnone2]. apply alloc_none; [lia|done|].
         intros (c & Hc & Hkc & Hle). specialize (Hnone2 c Hc Hkc). fold n in Hle. lia. }
    destruct Ho as (l1 & b & l2 & -> & <- & Hk & Hle & _ & Hat2 & Hhd).
    assert (Hkb : b_kind b = FreeUnmapped true).
    { apply Forall_app in Hset as [_ Hset]. apply Forall_cons in Hset as [[Hs1 Hs2] _]. destruct (b_kind b) as [| |[]| |]; done. }
    pose proof (at_hdr _ _ _ _ _ Hat) as Hok. unfold hdr_ok in Hok. rewrite Hkb in Hok. destruct Hok as (hd & Hhd0 & Hs & Hm).
    assert (l2 = []) as ->.
    { pose proof (at_blocks _ _ _ Hat) as Hbl. apply blocks_app in Hbl as (e & _ & (_ & _ & _ & _ & Hu & _) & _). apply Hu. by rewrite Hkb. }
    apply (alloc_unmapped _ _ _ _ l1 b); [lia|done|done|done|done|].
    pose proof (split_map_step h2 l1 (take b) n raw a Hat2 eq_refl) as Hsm. simpl in Hsm. fold n.
    destruct (get_pages a (mapped_at (b_addr b)) (pages_asked n)) as [[[] a3]| | |].
    + destruct Hsm as (h3 & -> & Hat3); [rewrite Hhd, Hhd0; simpl; by f_equal|lia|done|].
      change (split_blocks false (take b) n) with (split_blocks false b n) in Hat3.
      destruct (split_post false b n l1 []) as (k & Hnk & Hlv); [by rewrite Hkb|lia|]. rewrite app_nil_r in Hlv.
      eexists _, _, k. split; [done|]. split_and!; [split; [exact Hat3|]|lia|done].
      apply (settled_split false b n) in Hset. by rewrite app_nil_r in Hset.
    + rewrite Hsm; [|rewrite Hhd, Hhd0; simpl; by f_equal|lia|done]. exists h2. split; [done|]. split.
      * eapply (lost_step h2 l1 (take b) hd Hat2); [done|simpl; congruence|done..].
      * apply Forall_app in Hset as [Hset _]; apply Forall_app; split; [done|by repeat constructor].
    + apply Hsm; [rewrite Hhd, Hhd0; simpl; by f_equal|lia|done].
    + apply Hsm; [rewrite Hhd, Hhd0; simpl; by f_equal|lia|done].
    + apply Hsm; [rewrite Hhd, Hhd0; simpl; by f_equal|lia|done].
Qed.

(** An allocation that returned: a new block in use, or none. *)
Lemma kalloc_returned h bs a raw size align p h' a' : heap_ok h bs → 0 ≤ size < 2 ^ 63 →
  kalloc_layout raw h a size align = Done (p, h', a') → ∃ bs', heap_ok h' bs'
  ∧ ((p = VirtAddr_NULL_PTR ∧ lives bs' = lives bs)
     ∨ ∃ b n, b ∈ bs ∧ p = b_addr b + 16 ∧ size ≤ n ∧ lives bs' ≡ₚ (p, n) :: lives bs).
Proof using Hreg.
  intros Hok Hs E. pose proof (kalloc_step h bs a raw size align Hok Hs) as Hsp.
  destruct Hsp as [_|b o _ Hb _ _ _ (h2 & bs' & n & -> & Hok' & Hn & Hlv)|_ _ _|l b o _ _ -> Hk _ Hg].
  - injection E as <- <- <-. exists bs. split; [done|]. by left.
  - injection E as <- <- <-. exists bs'. split; [done|]. right. by exists b, n.
  - injection E as <- <- <-. exists bs. split; [done|]. by left.
  - destruct (get_pages _ _ _) as [[[] a2]| | |]; [| |by edestruct Hg..].
    + destruct Hg as (h2 & bs' & n & -> & Hok' & Hn & Hlv). injection E as <- <- <-. exists bs'. split; [done|].
      right. exists b, n. split_and!; [set_solver|done..].
    + destruct Hg as (h2 & -> & Hok'). injection E as <- <- <-. eexists. split; [exact Hok'|]. left. split; [done|].
      rewrite !lives_app. simpl. by rewrite Hk.
Qed.
(** It returns when the memory manager does. *)
Lemma kalloc_returns h bs a raw size align : heap_ok h bs → 0 ≤ size < 2 ^ 63 →
  (∀ b, ∃ r, get_pages a (mapped_at b) (pages_asked (request size)) = Done r) →
  ∃ r, kalloc_layout raw h a size align = Done r.
Proof using Hreg.
  intros Hok Hs Hp.
  destruct (kalloc_step h bs a raw size align Hok Hs) as [|b o _ _ _ _ _ (? & ? & ? & -> & _)| |l b o _ _ _ _ _ Hg]; [eauto..|].
  destruct (Hp (b_addr b)) as [[[] a'] Er]; rewrite Er in Hg; [destruct Hg as (? & ? & ? & -> & _)|destruct Hg as (? & -> & _)]; eauto.
Qed.
End pages.

(** ** Initialisation *)

Lemma single_tree m h a n : mem h !! a = Some n → t_root (the_ref m h) = a → a ≠ t_nil (the_ref m h) →
  AllocHeader_get_color (header n) = Black → parent n = t_nil (the_ref m h) → left n = t_nil (the_ref m h) →
  right n = t_nil (the_ref m h) →
  (∃ z, mem h !! t_nil (the_ref m h) = Some z ∧ AllocHeader_get_color (header z) = Black) → tree_ok m {[a]} h.
Proof.
  intros Ha Hr Hne Hb Hp Hl Hrt Hnil. exists (Br Leaf a (header n) Leaf). destruct n as [hd pn ln rn]. simpl in *. subst pn ln rn.
  split; try done.
  - split; simpl; try done; [|set_solver..]. split; [apply NoDup_singleton|]. constructor; [exact Ha|constructor].
  - exists 1%nat. by repeat constructor.
  - by repeat constructor.
Qed.
(** A lookup after writes at known, distinct addresses. *)
Ltac find_mem :=
  repeat first [rewrite lookup_alter_eq | rewrite lookup_alter_ne by lia | rewrite lookup_insert_eq
               | rewrite lookup_insert_ne by lia]; try reflexivity.

Definition first_block : blk := {| b_addr := base; b_size := sz - 0x800; b_kind := FreeUnmapped true |}.
(** The two trees before their headers are written. *)
Lemma init_trees_eq m : ∃ h, init_trees m base sz = h ∧ heap_start h = base ∧ footers h = ∅
  ∧ mapped_alloc_tree h = {| t_root := end_of; t_nil := nil_of true; t_count := 1 |}
  ∧ unmapped_alloc_tree h = {| t_root := base; t_nil := nil_of false; t_count := 1 |}
  ∧ mem h = <[nil_of true := new_empty]> (<[end_of := {| header := AllocHeader_NULL; parent := nil_of true; left := nil_of true; right := nil_of true |}]>
      (<[nil_of false := new_empty]> (<[base := {| header := AllocHeader_NULL; parent := nil_of false; left := nil_of false; right := nil_of false |}]> m))).
Proof using Hreg.
  destruct Hreg as [R1 R2 R3 R4 R5].
  assert (He : VirtAddr_sub_usize (VirtAddr_add_usize base sz) (2 * NODE_SIZE) = end_of).
  { change VirtAddr_sub_usize with VirtAddr_sub_u64. change VirtAddr_add_usize with VirtAddr_add_u64.
    unfold NODE_SIZE, KHeapSafe.end_of. rewrite high_add by (unfold high; lia). rewrite high_sub by (unfold high; lia). lia. }
  assert (Hu : VirtAddr_sub_usize end_of NODE_SIZE = nil_of false).
  { change VirtAddr_sub_usize with VirtAddr_sub_u64. unfold NODE_SIZE, KHeapSafe.end_of. simpl.
    rewrite high_sub by (unfold high; lia). lia. }
  assert (Hn : VirtAddr_add_usize end_of NODE_SIZE = nil_of true).
  { change VirtAddr_add_usize with VirtAddr_add_u64. unfold NODE_SIZE, KHeapSafe.end_of. simpl.
    rewrite high_add by (unfold high; lia). lia. }
  eexists. split; [reflexivity|]. unfold init_trees. rewrite He. cbv zeta. rewrite Hu, Hn. done.
Qed.
(** The headers [init] writes. *)
Definition init_headers (h : heap) : heap :=
  let at_node h a n := touch (touch h a (λ hd, set_size hd n)) a (λ hd, set_left_allocated hd true) in
  at_node (at_node (touch (touch h (nil_of false) AllocHeader.allocate) (nil_of true) AllocHeader.allocate) base (sz - 0x800)) end_of 0.
Lemma touch_some h a f y : is_Some (hdr (touch h a f) y) ↔ is_Some (hdr h y).
Proof. rewrite !hdr_is_Some. simpl. by rewrite lookup_alter_is_Some. Qed.
Lemma init_node_end_some h a n : is_Some (hdr h a) → ∃ f, init_node_end h a n = Done (with_footers h f).
Proof. intros [hd Hhd]. unfold init_node_end. rewrite (read_header_hdr _ _ _ Hhd). by eexists. Qed.
Lemma init_run m : ∃ f, init m base sz = Done (with_footers (init_headers (init_trees m base sz)) f).
Proof using Hreg.
  destruct (init_trees_eq m) as (h0 & E0 & _ & _ & Hmt & Hut & Hmem). pose proof Hreg as [R1 R2 R3 R4 R5].
  assert (Hsz : u64 (sz - Z.shiftr PAGE_SIZE 1) = sz - 0x800) by (apply u64_id; change (Z.shiftr PAGE_SIZE 1) with 2048; lia).
  assert (Hsome : ∀ y, y ∈ [base; end_of; nil_of false; nil_of true] → is_Some (hdr h0 y)).
  { intros y Hy. apply hdr_is_Some. rewrite Hmem, !lookup_insert_is_Some'. set_solver. }
  unfold init, VirtAddr_is_aligned_with. change (bool_decide (ALIGN_4KB = 0)) with false. cbn [mbind outcome_bind].
  change ALIGN_4KB with 0x1000. rewrite (bool_decide_true (base mod 0x1000 = 0)) by done.
  rewrite (bool_decide_true (MIN_HEAP_SIZE < sz)) by done. cbn [rust_assert mbind outcome_bind]. rewrite E0. cbv zeta.
  rewrite Hut. cbn [t_nil t_root]. rewrite Hsz. unfold init_node_header.
  repeat (rewrite on_header_touch by (rewrite ?touch_some; apply Hsome; set_solver);
          cbn [mbind outcome_bind touch with_mem mapped_alloc_tree unmapped_alloc_tree]; rewrite ?Hmt, ?Hut; cbn [t_nil t_root]).
  destruct (init_node_end_some (init_headers h0) base (sz - 0x800)) as (f & Ef); [unfold init_headers; rewrite !touch_some; apply Hsome; set_solver|].
  fold (init_headers h0). change (touch _ end_of _) with (init_headers h0). rewrite Ef. cbn [mbind outcome_bind].
  apply (init_node_end_some (with_footers (init_headers h0) f)).
  change (hdr (with_footers ?h _)) with (hdr h). change (mapped_alloc_tree _) with (mapped_alloc_tree h0). rewrite Hmt. cbn [t_root].
  unfold init_headers. rewrite !touch_some. apply Hsome. set_solver.
Qed.
Lemma init_step m raw : m !! stop = Some raw →
  is_allocated (header raw) = true ∨ is_mapped (header raw) = false → ∃ h,
  init m base sz = Done h ∧ heap_ok h [first_block].
Proof using Hreg.
  intros Hm Hraw. destruct (init_run m) as (f & E). rewrite E. eexists. split; [done|].
  destruct (init_trees_eq m) as (h0 & -> & Hst & _ & Hmt & Hut & Hmem). pose proof Hreg as [R1 R2 R3 R4 R5].
  assert (Hs16 : (sz - 0x800) mod 16 = 0) by (rewrite Zminus_mod, R5; done).
  set (h := with_footers _ f). set (hb := set_left_allocated (set_size AllocHeader_NULL (sz - 0x800)) true).
  set (he := set_left_allocated (set_size AllocHeader_NULL 0) true).
  unfold KHeapSafe.stop in Hm.
  assert (Mb : mem h !! base = Some {| header := hb; parent := nil_of false; left := nil_of false; right := nil_of false |}).
  { simpl. rewrite Hmem. unfold KHeapSafe.end_of. simpl. find_mem. }
  assert (Me : mem h !! end_of = Some {| header := he; parent := nil_of true; left := nil_of true; right := nil_of true |}).
  { simpl. rewrite Hmem. unfold KHeapSafe.end_of. simpl. find_mem. }
  assert (Mn : ∀ m', mem h !! nil_of m' = Some (map_header AllocHeader.allocate new_empty)).
  { intros []; simpl; rewrite Hmem; unfold KHeapSafe.end_of; simpl; find_mem. }
  assert (Ms : mem h !! stop = Some raw).
  { simpl. rewrite Hmem. unfold KHeapSafe.end_of, KHeapSafe.stop. simpl. find_mem. done. }
  destruct (header_fields_spec AllocHeader_NULL (sz - 0x800) true Red ltac:(lia) Hs16) as (_ & _ & _ & _ & _ & Hv).
  pose proof (hdr_left (set_size AllocHeader_NULL (sz - 0x800)) true) as (Hl1 & _ & Hl3 & _ & Hl5).
  assert (Hcb : AllocHeader_get_color hb = Black).
  { unfold hb. rewrite Hl5. pose proof (f_equal v_red Hv) as Hr. cbn [v_red view] in Hr.
    destruct (AllocHeader_get_color (set_size _ _)); [done|]. discriminate Hr. }
  assert (Hmb : is_mapped hb = false) by (unfold hb; rewrite Hl3; exact (f_equal v_mapped Hv)).
  assert (Hsb : get_size hb = sz - 0x800) by (unfold hb; rewrite Hl1; exact (f_equal v_size Hv)).
  split; [|by repeat constructor]. split.
  - done.
  - intros []; simpl; by rewrite ?Hmt, ?Hut.
  - simpl. unfold hdr_ok, hdr. simpl b_addr. simpl b_kind. rewrite Mb. unfold b_next, KHeapSafe.stop. simpl. split_and!; try done; try lia.
    exists hb. done.
  - exists (header raw). unfold hdr. by rewrite Ms.
  - unfold hdr. rewrite Me. done.
  - done.
  - intros m'. assert (E' : treeset m' [first_block] = {[if m' then end_of else base]})
      by (unfold treeset; destruct m'; simpl; set_solver). rewrite E'.
    assert (Er : the_ref m' h = {| t_root := if m' then end_of else base; t_nil := nil_of m'; t_count := 1 |}) by (by destruct m').
    destruct m'; [apply (single_tree _ _ _ _ Me)|apply (single_tree _ _ _ _ Mb)]; rewrite ?Er; cbn [t_root t_nil]; try done;
      try (eexists; split; [apply Mn|done]); [apply end_not_nil|simpl; lia].
Qed.

(** ** Clients *)

(** The client holds the extents [L]: an address and a size each. *)
Definition inside (L : list (Z * Z)) (y : Z) : Prop := ∃ p n, (p, n) ∈ L ∧ p ≤ y < p + n.
(** It writes in them: objects that lie there change, and so do the links of a
    node whose header is just before an extent. *)
Record client_write (L : list (Z * Z)) (h h' : heap) : Prop := {
  cw_fields : heap_start h' = heap_start h ∧ ∀ m, the_ref m h' = the_ref m h;
  cw_hdr y : ¬ inside L y → hdr h' y = hdr h y;
  cw_mem y : ¬ inside L y → ¬ inside L (y + 16) → mem h' !! y = mem h !! y;
  cw_feet y : ¬ inside L y → footers h' !! y = footers h !! y
}.
(** The extents of the client are those the heap has handed out, as large as
    requested. *)
Definition covered (L : list (Z * Z)) (bs : list blk) : Prop :=
  ∃ L', L' ≡ₚ lives bs ∧ Forall2 (λ e e', e.1 = e'.1 ∧ e.2 ≤ e'.2) L L'.

Lemma covered_in L bs p n : covered L bs → (p, n) ∈ L → ∃ k, (p, k) ∈ lives bs ∧ n ≤ k.
Proof.
  intros (L' & HL & Hf) (i & Hi)%list_elem_of_lookup. destruct (Forall2_lookup_l _ _ _ _ _ Hf Hi) as ([q k] & Hq & E1 & E2).
  simpl in *. subst q. exists k. split; [|done]. rewrite <- HL. by eapply list_elem_of_lookup_2.
Qed.
(** A place in the extents of the client is in the payload of a block in use. *)
Lemma inside_block L bs y : covered L bs → inside L y → ∃ b, b ∈ bs ∧ b_kind b = Live ∧ b_addr b + 16 ≤ y < b_next b.
Proof.
  intros Hc (p & n & Hin & Hy). destruct (covered_in _ _ _ _ Hc Hin) as (k & (b & Hb & Hk & -> & ->)%elem_of_lives & Hle).
  exists b. unfold b_next. split_and!; try done; lia.
Qed.
Lemma blocks_apart K h bs b c : heap_at K h bs → b ∈ bs → c ∈ bs → b ≠ c → b_next b ≤ b_addr c ∨ b_next c ≤ b_addr b.
Proof.
  intros Hat Hb Hc Hne. destruct (decide (b_addr b = b_addr c)) as [E|E]; [by destruct Hne; eapply blocks_unique; [apply Hat|..]|].
  apply list_elem_of_split in Hb as (l1 & l2 & ->). pose proof (at_blocks _ _ _ Hat) as Hbl.
  apply blocks_app in Hbl as (a & Hl1 & (<- & _ & _ & _ & _ & Hl2) & _).
  apply elem_of_app in Hc as [Hc|[->|Hc]%elem_of_cons]; [|done|].
  - right. apply blocks_range in Hl1 as [_ Hr]. by apply Hr.
  - left. apply blocks_range in Hl2 as [_ Hr]. by apply Hr.
Qed.
Lemma write_step L h h' bs : heap_ok h bs → covered L bs → client_write L h h' → heap_ok h' bs.
Proof.
  intros [Hat Hset] Hc [[Hs Hr] Hh Hm Hf]. split; [|done].
  assert (Hout : ∀ y, (∀ b, b ∈ bs → b_kind b = Live → y < b_addr b + 16 ∨ b_next b ≤ y) → ¬ inside L y).
  { intros y Hy Hin. destruct (inside_block _ _ _ Hc Hin) as (b & Hb & Hk & ?). destruct (Hy b Hb Hk); lia. }
  assert (Haddr : ∀ b, b ∈ bs → ¬ inside L (b_addr b) ∧ (b_kind b ≠ Live → ¬ inside L (b_addr b + 16) ∧ ¬ inside L (b_foot b))).
  { intros b Hb. destruct (at_range _ _ _ b Hat Hb) as (? & ? & ? & _). unfold b_foot. split; [|intros Hk; split]; apply Hout; intros c Hc' Hkc;
      (destruct (decide (b = c)) as [<-|Hne]; [unfold b_next in *; try done; try lia|]);
      destruct (at_range _ _ _ c Hat Hc') as (? & ? & ? & _); destruct (blocks_apart _ _ _ _ _ Hat Hb Hc' Hne); unfold b_next in *; lia. }
  assert (Hfix : ∀ y, stop ≤ y → ¬ inside L y).
  { intros y Hy. apply Hout. intros c Hc' _. destruct (at_range _ _ _ c Hat Hc') as (? & ? & ? & _). lia. }
  split.
  - by rewrite Hs, (at_start _ _ _ Hat).
  - intros m. by rewrite Hr, (at_nil _ _ _ Hat).
  - eapply blocks_frame; [done| |apply Hat]. intros b Hb. destruct (Haddr b Hb) as [H1 H2]. split.
    + unfold hdr_same. rewrite (Hh _ H1). by destruct (b_kind b) as [| |[]| |].
    + intros Hk. apply Hf, H2. by rewrite Hk.
  - destruct (at_stop _ _ _ Hat) as (hd & ? & ?). exists hd. rewrite Hh by (apply Hfix; lia). done.
  - rewrite Hh; [apply Hat|]. apply Hfix. unfold KHeapSafe.stop, KHeapSafe.end_of. lia.
  - done.
  - intros m. eapply tree_ok_frame; [apply (at_trees _ _ _ Hat m)|apply Hr|].
    intros y [Hy|Hy]; apply Hm.
    + apply elem_treeset in Hy as [(b & Hb & <- & _)|[-> _]]; [by apply Haddr|]. apply Hfix. unfold KHeapSafe.stop, KHeapSafe.end_of. lia.
    + apply elem_treeset in Hy as [(b & Hb & <- & Hk)|[-> _]]; [|apply Hfix; unfold KHeapSafe.stop, KHeapSafe.end_of; lia].
      apply Haddr; [done|]. intros E. rewrite E in Hk. done.
    + rewrite Hy, (at_nil _ _ _ Hat). apply Hfix. unfold KHeapSafe.stop. destruct m; simpl; lia.
    + rewrite Hy, (at_nil _ _ _ Hat). apply Hfix. unfold KHeapSafe.stop. destruct m; simpl; lia.
Qed.

(** * Runs *)

Section runs.
Context {A : Type} `{HP : PageSource A}.

(** A heap, its source of pages and what the client holds. *)
Definition config : Type := heap * A * list (Z * Z).
Inductive heap_step : config → config → Prop :=
  | step_alloc raw h a L size align p h' a' : 0 ≤ size < 2 ^ 63 →
      kalloc_layout raw h a size align = Done (p, h', a') → p ≠ VirtAddr_NULL_PTR →
      heap_step (h, a, L) (h', a', (p, size) :: L)
  | step_alloc_null raw h a L size align h' a' : 0 ≤ size < 2 ^ 63 →
      kalloc_layout raw h a size align = Done (VirtAddr_NULL_PTR, h', a') →
      heap_step (h, a, L) (h', a', L)
  | step_free h a L1 p n L2 h' : kfree h p = Done h' →
      heap_step (h, a, L1 ++ (p, n) :: L2) (h', a, L1 ++ L2)
  | step_write h a L h' : client_write L h h' → heap_step (h, a, L) (h', a, L).

Definition config_ok (c : config) : Prop := ∃ bs, heap_ok c.1.1 bs ∧ covered c.2 bs.

Lemma covered_free L1 p n L2 bs bs' k : (p, k) :: lives bs' ≡ₚ lives bs → covered (L1 ++ (p, n) :: L2) bs →
  NoDup (lives bs).*1 → covered (L1 ++ L2) bs'.
Proof.
  intros HP' (L' & HL' & Hf) Hnd. apply Forall2_app_inv_l in Hf as (L1' & L2' & Hf1 & Hf2 & ->).
  apply Forall2_cons_inv_l in Hf2 as ([q k'] & L2'' & [E1 E2] & Hf2 & ->). simpl in E1, E2. subst q.
  exists (L1' ++ L2''). split; [|by apply Forall2_app].
  assert (Hk : k' = k).
  { rewrite <- HL' in Hnd, HP'. assert (Hin : (p, k) ∈ L1' ++ (p, k') :: L2'') by (rewrite <- HP'; by left).
    clear -Hnd Hin. rewrite fmap_app, fmap_cons in Hnd. simpl in Hnd.
    apply NoDup_app in Hnd as (_ & Hd & Hn). apply NoDup_cons in Hn as [Hn _].
    apply elem_of_app in Hin as [Hin|[[= ->]|Hin]%elem_of_cons]; [|done|].
    - apply (list_elem_of_fmap_2 fst) in Hin. exfalso. apply (Hd _ Hin). by left.
    - apply (list_elem_of_fmap_2 fst) in Hin. done. }
  subst k'. apply (Permutation_cons_inv (a := (p, k))). rewrite HP', <- HL'. by rewrite Permutation_middle.
Qed.
Lemma lives_nodup h p a bs e : blocks_ok h p a bs e → NoDup (lives bs).*1 ∧ ∀ x, x ∈ (lives bs).*1 → a < x.
Proof.
  revert p a. induction bs as [|b bs IH]; intros p a; simpl; [intros _; split; [constructor|by intros ? ?%elem_of_nil]|].
  intros (Ha & Hs & _ & _ & _ & Hb). destruct (IH _ _ Hb) as [Hnd Hgt]. unfold b_next in *. destruct (b_kind b); simpl;
    try (split; [done|]; intros x Hx; specialize (Hgt x Hx); lia).
  split.
  - constructor; [|done]. intros Hx. specialize (Hgt _ Hx). lia.
  - intros x [->|Hx]%elem_of_cons; [lia|]. specialize (Hgt x Hx). lia.
Qed.

Lemma step_ok c c' : config_ok c → heap_step c c' → config_ok c'.
Proof using Hreg.
  intros (bs & Hok & Hc) Hstep. destruct Hstep as [raw h a L size align p h' a' Hs E Hp|raw h a L size align h' a' Hs E|h a L1 p n L2 h' E|h a L h' Hw];
    simpl in *.
  - destruct (kalloc_returned _ _ _ _ _ _ _ _ _ Hok Hs E) as (bs' & Hok' & Hpost). exists bs'. split; [done|].
    destruct Hpost as [(? & _)|(b & n & _ & _ & Hn & Hlv)]; [done|]. destruct Hc as (L' & HL' & Hf).
    exists ((p, n) :: L'). split; [by rewrite Hlv, HL'|by constructor].
  - destruct (kalloc_returned _ _ _ _ _ _ _ _ _ Hok Hs E) as (bs' & Hok' & Hpost). exists bs'. split; [done|].
    destruct Hpost as [(_ & Hlv)|(b & n & Hb & Hnull & _)]; [unfold covered; by rewrite Hlv|].
    destruct Hok as [Hat _]. destruct (at_range _ _ _ b Hat Hb) as (? & _). destruct Hreg. unfold VirtAddr_NULL_PTR in *. lia.
  - destruct (covered_in _ _ p n Hc) as (k & Hk & _); [set_solver|].
    destruct (kfree_step h bs p k Hok Hk) as (h2 & bs' & E' & Hok' & Hlv). rewrite E in E'. injection E' as <-.
    exists bs'. split_and!; try done. destruct Hok as [Hat _]. eapply covered_free; [exact Hlv|exact Hc|].
    by eapply lives_nodup, (at_blocks _ _ _ Hat).
  - exists bs. split_and!; try done. by eapply write_step.
Qed.

(** What the client can rely on: its extents are aligned parts of the heap, no
    two of them overlap, the next deallocation returns, and so does the next
    allocation unless the memory manager, asked for the pages of the request,
    itself does not. *)
Definition extents_ok (L : list (Z * Z)) : Prop :=
  (∀ p n, (p, n) ∈ L → base + 16 ≤ p ∧ p + n ≤ stop ∧ p mod 16 = 0)
  ∧ ∀ i j p n q k, L !! i = Some (p, n) → L !! j = Some (q, k) → i ≠ j → p + n ≤ q ∨ q + k ≤ p.
Definition calls_return (h : heap) (a : A) (L : list (Z * Z)) : Prop :=
  (∀ raw size align, 0 ≤ size < 2 ^ 63 →
     (∀ b, ∃ r, get_pages a (mapped_at b) (pages_asked (request size)) = Done r) →
     ∃ r, kalloc_layout raw h a size align = Done r)
  ∧ ∀ p n, (p, n) ∈ L → ∃ h', kfree h p = Done h'.
Lemma config_safe h a L : config_ok (h, a, L) → extents_ok L ∧ calls_return h a L.
Proof using Hreg.
  intros (bs & Hok & Hc). simpl in *. pose proof Hok as [Hat _]. split; [split|split].
  - intros p n Hin. destruct (covered_in _ _ _ _ Hc Hin) as (k & (b & Hb & _ & -> & ->)%elem_of_lives & Hle).
    destruct (blocks_range _ _ _ _ _ (at_blocks _ _ _ Hat)) as [_ Hr]. destruct (Hr b Hb) as (? & ? & ? & ? & Hal). unfold b_next in *.
    split_and!; [lia|lia|]. rewrite Z.add_mod, Hal by (lia || (destruct Hreg as [_ _ Hpg _ _]; clear -Hpg;
      rewrite (Z.div_mod base 0x1000), Hpg, Z.add_0_r by lia; replace (0x1000 * (base / 0x1000)) with (0x100 * (base / 0x1000) * 16) by lia;
      apply Z.mod_mul; lia)). done.
  - intros i j p n q k Hi Hj Hij. destruct Hc as (L' & HL' & Hf).
    destruct (Forall2_lookup_l _ _ _ _ _ Hf Hi) as ([p' n'] & Hi' & E1 & E2).
    destruct (Forall2_lookup_l _ _ _ _ _ Hf Hj) as ([q' k'] & Hj' & E3 & E4). simpl in *. subst p' q'.
    assert (Hnd : NoDup L'.*1) by (rewrite HL'; by eapply lives_nodup, (at_blocks _ _ _ Hat)).
    assert (Hpq : p ≠ q).
    { intros ->. apply Hij. eapply NoDup_lookup; [exact Hnd|rewrite list_lookup_fmap, Hi'; done|rewrite list_lookup_fmap, Hj'; done]. }
    apply list_elem_of_lookup_2 in Hi', Hj'. rewrite HL' in Hi', Hj'.
    apply elem_of_lives in Hi' as (b & Hb & _ & -> & ->). apply elem_of_lives in Hj' as (c & Hcc & _ & -> & ->).
    destruct (blocks_apart _ _ _ b c Hat Hb Hcc) as [?|?]; [by intros ->|..]; unfold b_next in *; lia.
  - intros raw size align Hs. by apply (kalloc_returns h bs).
  - intros p n Hin. destruct (covered_in _ _ _ _ Hc Hin) as (k & Hk & _).
    destruct (kfree_step h bs p k Hok Hk) as (h' & bs' & E & _). eauto.
Qed.
Lemma runs_ok c c' : config_ok c → rtc heap_step c c' → config_ok c'.
Proof using Hreg. intros Hc Hr. induction Hr as [|c1 c2 c3 Hs _ IH]; [done|]. apply IH. by eapply step_ok. Qed.
End runs.
End heap.

(** C8: the kernel heap is safe, over any memory manager.  Initialised on any
    memory (whose word after the last block does not read as the header of a free
    mapped block), it returns; and after any sequence of calls of [kalloc_layout]
    and of [kfree] of blocks that are in use, and writes of the clients in their
    blocks, whatever bytes the heap finds where it splits a block, the blocks in
    use are 16-byte aligned, inside the heap, as large as requested and disjoint.
    The deallocation of any block in use then returns; the next allocation, of less
    than 2^63 bytes, returns whenever the frame allocator and the mapper, asked for
    the pages of the request, return. *)
Theorem kernel_heap_safe {A : Type} `{PageSource A} base sz m raw a :
  region base sz → m !! stop base sz = Some raw →
  is_allocated (header raw) = true ∨ is_mapped (header raw) = false →
  ∃ h, init m base sz = Done h ∧ ∀ h' a' L, rtc heap_step (h, a, []) (h', a', L) →
    extents_ok base sz L ∧ calls_return h' a' L.
Proof.
  intros Hreg Hm Hraw. destruct (init_step base sz Hreg m raw Hm Hraw) as (h & E & Hok).
  exists h. split; [done|]. intros h' a' L Hr. eapply (config_safe base sz Hreg).
  eapply (runs_ok base sz Hreg); [|exact Hr]. eexists. split; [exact Hok|].
  exists []. split; [done|constructor].
Qed.

(** C9: what an allocation of less than 2^63 bytes of the kernel heap does, on a
    heap with the blocks [bs] and over any memory manager.  A size of 0 gives null.
    Otherwise, when a free mapped block has the rounded size, the smallest such
    block is given to the client, without a call of the memory manager.  When none
    has, and the free unmapped block has the whole pages of the request, pages are
    asked for: the client gets that block when they can be allocated and mapped;
    it gets null, and the heap forgets its unmapped block, when there is no
    physical memory left; the call does not return when the memory manager does
    not.  When the unmapped block is too small too, the result is null and nothing
    changes.  The blocks in use are kept, the new one is added to them. *)
Theorem kalloc_best_fit {A : Type} `{PageSource A} base sz h bs a raw size align :
  region base sz → heap_ok base sz h bs → 0 ≤ size < 2 ^ 63 →
  alloc_spec base sz size h a bs (kalloc_layout raw h a size align).
Proof. intros Hreg. by apply kalloc_step. Qed.

(** A deallocation frees one block.  On a heap with the blocks [bs], [kfree] of
    a block in use returns, in a heap whose blocks in use are the others. *)
Theorem kfree_frees base sz h bs p n : region base sz → heap_ok base sz h bs → (p, n) ∈ lives bs → ∃ h' bs',
  kfree h p = Done h' ∧ heap_ok base sz h' bs' ∧ (p, n) :: lives bs' ≡ₚ lives bs.
Proof. intros Hreg. by apply kfree_step. Qed.

(** * A heap *)

(** The kernel's memory manager: the buddy frame allocator over a pool of 512 MB
    and the mapper, on a page table that is empty but for its root. *)
Definition boot_pages : pg (option Buddy.bst) :=
  {| tables := {[ 0x9000 := PageTable_default ]};
     falloc := match Frame_from_base_unchecked 18 0x2000_0000 0x2000_0000 with
               | Done a => Some {| Buddy.ba := a; Buddy.mem := ∅ |} | _ => None end;
     invlpg := [] |}.
#[local] Instance kernel_pages : PageSource (pg (option Buddy.bst)) :=
  Mapper_source (FB := flag_bits_lsb) (H := PoolAllocator kernel_mmu DEFAULT_OFFSET 18 0) DEFAULT_OFFSET 0x9000.

Definition kernel_region : region KERNEL_HEAP_BASE KERNEL_HEAP_SIZE.
Proof. split; by vm_compute. Defined.
Definition empty_node : Node AllocHeader := new_empty.
Definition boot_memory : gmap Z (Node AllocHeader) := {[stop KERNEL_HEAP_BASE KERNEL_HEAP_SIZE := empty_node]}.
Definition boot_heap : heap :=
  match init boot_memory KERNEL_HEAP_BASE KERNEL_HEAP_SIZE with Done h => h | _ => with_mem (init_trees ∅ 0 0) ∅ end.
(** Three blocks, of which the second and then the first are freed. *)
Definition busy_heap : outcome (list Z * heap) :=
  '(p, h, a) ← kalloc_layout empty_node boot_heap boot_pages 100 8;
  '(q, h, a) ← kalloc_layout empty_node h a 200 8;
  '(r, h, a) ← kalloc_layout empty_node h a 300 8;
  h ← kfree h q;
  h ← kfree h p;
  Done ([p; q; r], h).
(** The two blocks are neighbours and both are free, but are not merged: the block
    on the right still says that it is in use, since [kfree] does not clear
    [allocated]. *)
Definition busy_view : option (list Z * list (option Z) * option bool * Z) :=
  match busy_heap with
  | Done ([p; q; r], h) =>
      Some ([q - p; r - q], [get_size <$> hdr h (p - 16); get_size <$> hdr h (q - 16)], is_allocated <$> hdr h (q - 16),
            t_count (mapped_alloc_tree h))
  | _ => None
  end.
Example freed_neighbours_stay_apart : busy_view = Some ([112 + 16; 208 + 16], [Some 112; Some 208], Some true, 3).
Proof. vm_compute. reflexivity. Qed.

Lemma Done_inj {B} (x y : B) : Done x = Done y → x = y.
Proof. by intros [= ->]. Qed.
Lemma boot_init : init boot_memory KERNEL_HEAP_BASE KERNEL_HEAP_SIZE = Done boot_heap.
Proof. vm_compute. reflexivity. Qed.
Lemma boot_stop : boot_memory !! stop KERNEL_HEAP_BASE KERNEL_HEAP_SIZE = Some empty_node.
Proof. vm_compute. reflexivity. Qed.
Definition first_alloc : Z * heap * pg (option Buddy.bst) :=
  match kalloc_layout empty_node boot_heap boot_pages 100 8 with Done r => r | _ => (0, boot_heap, boot_pages) end.
Definition first_ptr : Z := first_alloc.1.1.
Lemma first_alloc_eq : kalloc_layout empty_node boot_heap boot_pages 100 8 = Done first_alloc.
Proof. vm_compute. reflexivity. Qed.

Lemma kernel_heap_safe_witness :
  extents_ok KERNEL_HEAP_BASE KERNEL_HEAP_SIZE [(first_ptr, 100)]
  ∧ calls_return first_alloc.1.2 first_alloc.2 [(first_ptr, 100)].
Proof.
  assert (H1 : is_allocated (header empty_node) = true ∨ is_mapped (header empty_node) = false) by (right; by vm_compute).
  destruct (kernel_heap_safe KERNEL_HEAP_BASE KERNEL_HEAP_SIZE boot_memory empty_node boot_pages
    kernel_region boot_stop H1) as (h & E & Hrun).
  assert (h = boot_heap) as ->.
  { exact (Done_inj _ _ (eq_trans (eq_sym E) boot_init)). }
  apply Hrun. apply rtc_once. pose proof first_alloc_eq as Ea. unfold first_ptr.
  destruct first_alloc as [[p h'] a'] eqn:Ef.
  apply (step_alloc empty_node boot_heap boot_pages [] 100 8 p h' a'); [lia|exact Ea|].
  assert (p = first_alloc.1.1) as -> by (by rewrite Ef). vm_compute. discriminate.
Defined.

Lemma boot_heap_ok : heap_ok KERNEL_HEAP_BASE KERNEL_HEAP_SIZE boot_heap [first_block KERNEL_HEAP_BASE KERNEL_HEAP_SIZE].
Proof.
  destruct (init_step KERNEL_HEAP_BASE KERNEL_HEAP_SIZE kernel_region boot_memory empty_node boot_stop) as (h & E & Hok);
    [right; by vm_compute|]. by rewrite (Done_inj _ _ (eq_trans (eq_sym E) boot_init)) in Hok.
Qed.
Lemma kalloc_best_fit_witness : first_ptr ≠ VirtAddr_NULL_PTR
  ∧ alloc_spec KERNEL_HEAP_BASE KERNEL_HEAP_SIZE 100 boot_heap boot_pages
      [first_block KERNEL_HEAP_BASE KERNEL_HEAP_SIZE] (Done first_alloc).
Proof.
  assert (H0 : 0 ≤ 100 < 2 ^ 63) by lia. split; [vm_compute; discriminate|]. rewrite <- first_alloc_eq.
  exact (kalloc_best_fit KERNEL_HEAP_BASE KERNEL_HEAP_SIZE boot_heap _ boot_pages empty_node 100 8
    kernel_region boot_heap_ok H0).
Defined.

(** The heap after the first allocation, with its block. *)
Lemma first_alloc_ok : ∃ bs n, heap_ok KERNEL_HEAP_BASE KERNEL_HEAP_SIZE first_alloc.1.2 bs ∧ (first_ptr, n) ∈ lives bs.
Proof.
  assert (Hs : 0 ≤ 100 < 2 ^ 63) by lia.
  pose proof first_alloc_eq as E. assert (H0 : first_ptr ≠ VirtAddr_NULL_PTR) by (vm_compute; discriminate).
  unfold first_ptr in *. destruct first_alloc as [[p h'] a']. simpl in *.
  pose proof (kalloc_returned KERNEL_HEAP_BASE KERNEL_HEAP_SIZE kernel_region boot_heap _ boot_pages empty_node 100 8
    p h' a' boot_heap_ok Hs E) as (bs' & Hok & [[Hp _]|(b & n & _ & _ & _ & Hlv)]); [by destruct (H0 Hp)|].
  exists bs', n. split; [exact Hok|]. rewrite Hlv. apply elem_of_cons. by left.
Qed.
Lemma kfree_frees_witness : ∃ bs n h' bs', kfree first_alloc.1.2 first_ptr = Done h'
  ∧ heap_ok KERNEL_HEAP_BASE KERNEL_HEAP_SIZE h' bs' ∧ (first_ptr, n) :: lives bs' ≡ₚ lives bs.
Proof.
  destruct first_alloc_ok as (bs & n & Hok & Hin). exists bs, n.
  exact (kfree_frees KERNEL_HEAP_BASE KERNEL_HEAP_SIZE first_alloc.1.2 bs first_ptr n kernel_region Hok Hin).
Defined.
