(* ===== verification/Vob.v ===== *)
(** The bit vector the filesystem bitmaps are built on (src/deps/vob/src/lib.rs),
    a copy of the vob crate with two range operations added.

    A [Vob<usize>] is a length and a vector of words.  The width of a word is
    that of the target: [bytes_per_block] bytes.  The abstraction is the list of
    its bits. *)

From S2P Require Import Prelude.

Section vob.
Context (bytes_per_block : nat).
Definition bits_per_block : nat := bytes_per_block * 8.
Notation W := bits_per_block.
Notation Wz := (Z.of_nat bits_per_block).
Notation word := (wrap Wz).

(** * Operations *)

Record Vob := { len : nat; vec : list Z }.

Definition block_offset (off : nat) : nat := off / W.
Definition blocks_required (num_bits : nat) : nat :=
  num_bits / W + (if bool_decide (num_bits mod W = 0)%nat then 0 else 1).
Definition max_value : Z := 2 ^ Wz - 1.
Definition not_word (z : Z) : Z := not_w Wz z.
(** A shift by [n]: the amount is masked to the width, the high bits are lost. *)
Definition shl_word (z : Z) (n : nat) : Z := word (Z.shiftl z (Z.of_nat (n mod W))).
Definition shr_word (z : Z) (n : nat) : Z := Z.shiftr z (Z.of_nat (n mod W)).
Definition low_mask (n : nat) : Z := word (shl_word 1 n - 1).

(** [self.vec[off]] and its assignment: out of range they panic. *)
Definition vec_get (v : list Z) (off : nat) : outcome Z := unwrap (v !! off).
Definition vec_set (v : list Z) (off : nat) (x : Z) : outcome (list Z) :=
  if bool_decide (off < length v)%nat then Done (<[off := x]> v) else Panicked.
(** A length that does not fit in [usize]. *)
Definition usize_fits (n : nat) : bool := bool_decide (Z.of_nat n < 2 ^ Wz).

Definition mask_last_block (v : Vob) : outcome Vob :=
  let ub := (len v mod W)%nat in
  if bool_decide (0 < ub)%nat then
    let msk := low_mask ub in
    let off := block_offset (len v) in
    old_v ← vec_get (vec v) off;
    let new_v := Z.land old_v msk in
    if bool_decide (new_v ≠ old_v) then w ← vec_set (vec v) off new_v; Done {| len := len v; vec := w |}
    else Done v
  else Done v.

Definition vob_new : Vob := {| len := 0; vec := [] |}.
Definition from_elem (value : bool) (n : nat) : outcome Vob :=
  mask_last_block {| len := n; vec := replicate (blocks_required n) (if value then max_value else 0) |}.

(** The byte with its bits in reverse order. *)
Definition reverse_bits (b : Z) : Z :=
  foldr (λ k rb, Z.lor rb (Z.shiftl (Z.land (Z.shiftr b k) 1) (7 - k))) 0 (seqZ 0 8).
(** The word of [from_bytes] at index [i]. *)
Fixpoint word_of_bytes (slice : list Z) (i j n : nat) (w : Z) : Z :=
  match n with
  | O => w
  | S n =>
      let off := (i * bytes_per_block + j)%nat in
      word_of_bytes slice i (S j) n
        (match slice !! off with
         | None => w
         | Some b => if bool_decide (b ≠ 0) then Z.lor w (Z.shiftl (reverse_bits b) (8 * Z.of_nat j)) else w
         end)
  end.
Definition from_bytes (slice : list Z) : outcome Vob :=
  let new_len := (length slice * 8)%nat in
  if usize_fits new_len then
    Done {| len := new_len;
            vec := (λ i, word_of_bytes slice i 0 bytes_per_block 0) <$> seq 0 (blocks_required new_len) |}
  else Panicked.

Definition truncate (v : Vob) (n : nat) : outcome Vob :=
  if bool_decide (len v < n)%nat then Done v
  else mask_last_block {| len := n; vec := take (blocks_required n) (vec v) |}.

Definition get (v : Vob) (index : nat) : outcome (option bool) :=
  if bool_decide (len v ≤ index)%nat then Done None
  else
    blk ← vec_get (vec v) (block_offset index);
    Done (Some (bool_decide (Z.land blk (shl_word 1 (index mod W)) ≠ 0))).
(** [set] returns whether the bit changed. *)
Definition set (v : Vob) (index : nat) (value : bool) : outcome (bool * Vob) :=
  if bool_decide (len v ≤ index)%nat then Panicked
  else
    let msk := shl_word 1 (index mod W) in
    let off := block_offset index in
    old_v ← vec_get (vec v) off;
    let new_v := if value then Z.lor old_v msk else Z.land old_v (not_word msk) in
    if bool_decide (new_v ≠ old_v) then w ← vec_set (vec v) off new_v; Done (true, {| len := len v; vec := w |})
    else Done (false, v).

Definition push (v : Vob) (value : bool) : outcome Vob :=
  let w := if bool_decide (len v mod W = 0)%nat then vec v ++ [0] else vec v in
  if usize_fits (S (len v)) then
    '(_, v) ← set {| len := S (len v); vec := w |} (len v) value; Done v
  else Panicked.
Definition pop (v : Vob) : outcome (option bool * Vob) :=
  if bool_decide (len v = 0)%nat then Done (None, v)
  else
    o ← get v (len v - 1);
    v ← truncate v (len v - 1);
    Done (o, v).
Definition clear (v : Vob) : Vob := vob_new.
Definition set_all (v : Vob) (value : bool) : outcome Vob :=
  mask_last_block {| len := len v; vec := (λ _, if value then max_value else 0) <$> vec v |}.
Definition negate (v : Vob) : outcome Vob :=
  mask_last_block {| len := len v; vec := not_word <$> vec v |}.
(** [and], [or] and [xor]: the result says whether a word changed. *)
Definition zip_words (f : Z → Z → Z) (v other : Vob) : outcome (bool * Vob) :=
  if bool_decide (len v ≠ len other) then Panicked
  else
    let n := Nat.min (length (vec v)) (length (vec other)) in
    let w := zip_with f (vec v) (vec other) in
    Done (bool_decide (w ≠ take n (vec v)), {| len := len v; vec := w ++ drop n (vec v) |}).
Definition and := zip_words Z.land.
Definition or := zip_words Z.lor.
Definition xor := zip_words Z.lxor.
Definition vob_eq (v other : Vob) : bool :=
  if bool_decide (len v ≠ len other) then false
  else forallb (λ '(a, b), bool_decide (a = b)) (zip (vec v) (vec other)).

(** [Vec::resize]. *)
Definition vec_resize (n : nat) (x : Z) (l : list Z) : list Z := take n l ++ replicate (n - length l) x.
Definition resize (v : Vob) (new_len : nat) (value : bool) : outcome Vob :=
  if bool_decide (new_len ≤ len v)%nat then truncate v new_len
  else
    w ← (if value && bool_decide (0 < len v)%nat then
           let off := block_offset (len v) in
           x ← vec_get (vec v) off;
           vec_set (vec v) off (Z.lor x (shl_word max_value (len v mod W)))
         else Done (vec v));
    mask_last_block {| len := new_len;
      vec := vec_resize (blocks_required new_len) (if value then max_value else 0) w |}.

(** [extend_blocks]: the blocks of [other] from [block_offset] on.  When the last
    block is partly used, each new block is rotated into it and the next. *)
Definition rotate_left (z : Z) (n : nat) : Z := Z.lor (shl_word z n) (shr_word z (W - n)).
Fixpoint push_rotated (ub : nat) (blocks : list Z) (w : list Z) : outcome (list Z) :=
  match blocks with
  | [] => Done w
  | block :: blocks =>
      let msk := low_mask ub in
      let new_block := rotate_left block ub in
      last ← unwrap (list.last w);
      let w := <[(length w - 1)%nat := Z.lor last (Z.land new_block (not_word msk))]> w in
      push_rotated ub blocks (w ++ [Z.land new_block msk])
  end.
Definition extend_blocks (v other : Vob) (offset : nat) : outcome Vob :=
  let ub := (len v mod W)%nat in
  w ← (if bool_decide (ub = 0)%nat then Done (vec v ++ drop offset (vec other))
       else push_rotated ub (drop offset (vec other)) (vec v));
  let new_len := (len v + (len other - offset * W))%nat in
  if usize_fits new_len then
    mask_last_block {| len := new_len; vec := take (blocks_required new_len) w |}
  else Panicked.
Definition extend_from_vob (v other : Vob) : outcome Vob := extend_blocks v other 0.
Fixpoint extend_from_slice (v : Vob) (other : list bool) : outcome Vob :=
  match other with
  | [] => Done v
  | b :: other => v ← push v b; extend_from_slice v other
  end.

(** The result is the new vector and what is left in the old one. *)
Definition split_off (v : Vob) (at_ : nat) : outcome (Vob * Vob) :=
  if bool_decide (len v ≤ at_)%nat then Done (vob_new, v)
  else if bool_decide (at_ = 0)%nat then Done (v, vob_new)
  else
    let block_to_split := (blocks_required at_ - 1)%nat in
    let ub := (at_ mod W)%nat in
    nv ← (if bool_decide (0 < ub)%nat then
            let first_block_len := if bool_decide (len v - at_ < W - ub)%nat then (len v - at_)%nat else (W - ub)%nat in
            x ← vec_get (vec v) block_to_split;
            mask_last_block {| len := first_block_len; vec := [shr_word x ub] |}
          else Done vob_new);
    nv ← (if bool_decide (block_to_split + 1 < length (vec v))%nat
          then extend_blocks nv v (block_to_split + 1) else Done nv);
    v ← truncate v at_;
    Done (nv, v).

(** * Iterators *)

(** A [RangeBounds<usize>]. *)
Inductive bound := Included (t : nat) | Excluded (t : nat) | Unbounded.
Definition succ_usize (t : nat) : nat := Z.to_nat (word (Z.of_nat t + 1)).
Definition process_range (v : Vob) (range : bound * bound) : nat * nat :=
  (match range.1 with
   | Included t => Nat.min t (len v)
   | Excluded t => Nat.min (succ_usize t) (len v)
   | Unbounded => 0%nat
   end,
   match range.2 with
   | Included t => Nat.min (succ_usize t) (len v)
   | Excluded t => Nat.min t (len v)
   | Unbounded => len v
   end).

(** The number of the lowest bit set, the width when there is none. *)
Fixpoint find_bit (z : Z) (n i : nat) : nat :=
  match n with
  | O => i
  | S n => if Z.testbit z (Z.of_nat i) then i else find_bit z n (S i)
  end.
Definition trailing_zeros (z : Z) : nat := find_bit z W 0.

(** The loop of [IterSetBits::next], [inv] being the identity, and of
    [IterUnsetBits::next], where it is the complement: the bit that was found
    and the start of the rest of the range. *)
Fixpoint scan_blocks (fuel : nat) (inv : Z → Z) (v : Vob) (b i_off : nat) (x : Z) (end_ : nat)
    : outcome (option nat * nat) :=
  match fuel with
  | O => NoFuel
  | S fuel =>
      let tz := trailing_zeros (shr_word (inv x) i_off) in
      if bool_decide (tz < W)%nat then
        let bs := (b * W + i_off + tz)%nat in
        if bool_decide (end_ ≤ bs)%nat then Done (None, S bs) else Done (Some bs, S bs)
      else if bool_decide (S b = blocks_required end_) then Done (None, end_)
      else
        y ← vec_get (vec v) (S b);
        scan_blocks fuel inv v (S b) 0 y end_
  end.
(** [next] of the two iterators: [full] is the block in which every bit is wanted. *)
Definition iter_next (inv : Z → Z) (full : Z) (v : Vob) (start end_ : nat) : outcome (option nat * nat) :=
  if bool_decide (start < end_)%nat then
    let b := block_offset start in
    x ← vec_get (vec v) b;
    if bool_decide (x = full) then Done (Some start, S start)
    else scan_blocks (S (length (vec v))) inv v b (start mod W) x end_
  else Done (None, start).
Fixpoint iter_collect (fuel : nat) (inv : Z → Z) (full : Z) (v : Vob) (start end_ : nat) : outcome (list nat) :=
  match fuel with
  | O => NoFuel
  | S fuel =>
      '(o, start) ← iter_next inv full v start end_;
      match o with
      | None => Done []
      | Some i => l ← iter_collect fuel inv full v start end_; Done (i :: l)
      end
  end.
(** The items of [iter_set_bits(range)] and [iter_unset_bits(range)]. *)
Definition iter_set_bits (v : Vob) (range : bound * bound) : outcome (list nat) :=
  let '(s, e) := process_range v range in iter_collect (S (len v)) (λ x, x) max_value v s e.
Definition iter_unset_bits (v : Vob) (range : bound * bound) : outcome (list nat) :=
  let '(s, e) := process_range v range in iter_collect (S (len v)) not_word 0 v s e.

(** * Ranges of bits *)

(** [for i in 0..n { self.vec[from + i] = x }]. *)
Fixpoint fill_blocks (w : list Z) (from n : nat) (x : Z) : outcome (list Z) :=
  match n with
  | O => Done w
  | S n => w ← vec_set w from x; fill_blocks w (S from) n x
  end.
Definition clear_bit_range (v : Vob) (range : bound * bound) : outcome Vob :=
  let '(s, e) := process_range v range in
  let n := (e - s)%nat in
  let first_blk_id := block_offset s in
  first_blk ← vec_get (vec v) first_blk_id;
  let first_blk_off := (s mod W)%nat in
  let first_blk_bits_to_set := Nat.min (W - first_blk_off) n in
  w ← vec_set (vec v) first_blk_id
        (if bool_decide (first_blk_bits_to_set = W) then 0
         else Z.lor (Z.land first_blk (low_mask first_blk_off))
                (Z.land first_blk (not_word (low_mask first_blk_bits_to_set))));
  let blk_to_set := ((n - first_blk_bits_to_set) / W)%nat in
  w ← fill_blocks w (first_blk_id + 1) blk_to_set 0;
  let remaining_bits := (n - first_blk_bits_to_set - blk_to_set * W)%nat in
  if bool_decide (remaining_bits = 0)%nat then Done {| len := len v; vec := w |}
  else
    last_blk ← vec_get w (first_blk_id + blk_to_set + 1);
    w ← vec_set w (first_blk_id + blk_to_set + 1) (Z.land last_blk (not_word (low_mask remaining_bits)));
    Done {| len := len v; vec := w |}.
Definition set_bit_range (v : Vob) (range : bound * bound) : outcome Vob :=
  let '(s, e) := process_range v range in
  let n := (e - s)%nat in
  let first_blk_id := block_offset s in
  first_blk ← vec_get (vec v) first_blk_id;
  let first_blk_off := (s mod W)%nat in
  let first_blk_bits_to_set := Nat.min (W - first_blk_off) n in
  w ← vec_set (vec v) first_blk_id
        (if bool_decide (first_blk_bits_to_set = W) then max_value
         else Z.lor (Z.lor (Z.land (Z.land max_value (not_word (low_mask first_blk_off))) (low_mask first_blk_bits_to_set))
                       (Z.land first_blk (low_mask first_blk_off)))
                (Z.land first_blk (not_word (low_mask first_blk_bits_to_set))));
  let blk_to_set := ((n - first_blk_bits_to_set) / W)%nat in
  w ← fill_blocks w (first_blk_id + 1) blk_to_set max_value;
  let remaining_bits := word (Z.of_nat n - Z.of_nat first_blk_bits_to_set - 8 * Z.of_nat blk_to_set * Wz) in
  if bool_decide (remaining_bits = 0) then Done {| len := len v; vec := w |}
  else
    last_blk ← vec_get w (first_blk_id + blk_to_set + 1);
    w ← vec_set w (first_blk_id + blk_to_set + 1) (Z.lor last_blk (low_mask (Z.to_nat (remaining_bits mod Wz))));
    Done {| len := len v; vec := w |}.
End vob.

(** * The bits of a vector *)

Section spec.
Context (bytes_per_block : nat) (Hpos : (0 < bytes_per_block)%nat).
Notation W := (bits_per_block bytes_per_block).
Notation Wz := (Z.of_nat (bits_per_block bytes_per_block)).
Implicit Types v : Vob.

Definition vbit (w : list Z) (i : nat) : bool :=
  Z.testbit (default 0 (w !! (i / W)%nat)) (Z.of_nat (i mod W)).
Definition bits (v : Vob) : list bool := vbit (vec v) <$> seq 0 (len v).
(** As many words as the length needs, and no bit set past the length. *)
Record vob_ok (v : Vob) : Prop := {
  ok_blocks : length (vec v) = blocks_required bytes_per_block (len v);
  ok_words : Forall (in_width Wz) (vec v);
  ok_tail : ∀ i, (len v ≤ i)%nat → vbit (vec v) i = false
}.

Lemma W_pos : (0 < W)%nat.
Proof using Hpos. unfold bits_per_block. lia. Qed.
Lemma index_split i : i = (W * (i / W) + i mod W)%nat ∧ (i mod W < W)%nat.
Proof using Hpos. pose proof W_pos. split; [apply Nat.div_mod_eq|apply Nat.mod_upper_bound; lia]. Qed.
Lemma index_of b k : (k < W)%nat → ((W * b + k) / W = b)%nat ∧ ((W * b + k) mod W = k)%nat.
Proof.
  intros Hk. rewrite Nat.mul_comm. split.
  - rewrite Nat.div_add_l by lia. rewrite Nat.div_small by done. lia.
  - rewrite Nat.add_comm, Nat.Div0.mod_add. by apply Nat.mod_small.
Qed.
Lemma blocks_required_spec n : (n ≤ W * blocks_required bytes_per_block n < n + W)%nat.
Proof using Hpos.
  unfold blocks_required. pose proof (index_split n). pose proof W_pos. case_bool_decide; lia.
Qed.
Lemma block_lt i n : (i < n)%nat → (i / W < blocks_required bytes_per_block n)%nat.
Proof using Hpos. intros. pose proof (blocks_required_spec n). pose proof (index_split i). nia. Qed.

Lemma lookup_bits v i : bits v !! i = if bool_decide (i < len v)%nat then Some (vbit (vec v) i) else None.
Proof.
  unfold bits. rewrite list_lookup_fmap. case_bool_decide.
  - by rewrite lookup_seq_lt.
  - by rewrite lookup_seq_ge by lia.
Qed.
Lemma length_bits v : length (bits v) = len v.
Proof. unfold bits. by rewrite length_fmap, length_seq. Qed.
(** The bits of a vector, one by one. *)
Lemma bits_eq v l : length l = len v → (∀ i b, l !! i = Some b → vbit (vec v) i = b) → bits v = l.
Proof.
  intros Hl Hi. apply list_eq. intros i. rewrite lookup_bits. case_bool_decide.
  - destruct (lookup_lt_is_Some_2 l i) as [b Hb]; [lia|]. by rewrite Hb, (Hi _ _ Hb).
  - symmetry. apply lookup_ge_None_2. lia.
Qed.

Lemma vbit_out w i : (length w ≤ i / W)%nat → vbit w i = false.
Proof. intros. unfold vbit. rewrite lookup_ge_None_2 by done. apply Z.bits_0. Qed.
Lemma vbit_insert w off x i : (off < length w)%nat →
  vbit (<[off := x]> w) i = if bool_decide (i / W = off)%nat then Z.testbit x (Z.of_nat (i mod W)) else vbit w i.
Proof.
  intros Hl. unfold vbit. case_bool_decide as E.
  - by rewrite E, list_lookup_insert_eq.
  - by rewrite list_lookup_insert_ne.
Qed.

Lemma testbit_shl1 n i : (n < W)%nat →
  Z.testbit (shl_word bytes_per_block 1 n) (Z.of_nat i) = bool_decide (i = n).
Proof.
  intros Hn. unfold shl_word. rewrite Nat.mod_small, testbit_wrap, Z.shiftl_1_l by lia.
  rewrite Z.pow2_bits_eqb by lia. destruct (Z.eqb_spec (Z.of_nat n) (Z.of_nat i)) as [E|E]; simpl.
  - rewrite !bool_decide_true by lia. done.
  - by rewrite (bool_decide_false (i = n)) by lia.
Qed.
Lemma testbit_low_mask n i : (n < W)%nat →
  Z.testbit (low_mask bytes_per_block n) (Z.of_nat i) = bool_decide (i < n)%nat.
Proof using Hpos.
  intros Hn. unfold low_mask, shl_word. rewrite Nat.mod_small, Z.shiftl_1_l by lia.
  assert (Hp : 2 ^ Z.of_nat n < 2 ^ Wz) by (apply Z.pow_lt_mono_r; lia).
  pose proof (pow2_pos (Z.of_nat n) ltac:(lia)).
  rewrite (wrap_id Wz (2 ^ Z.of_nat n)) by (unfold in_width; lia). rewrite wrap_id by (unfold in_width; lia).
  replace (2 ^ Z.of_nat n - 1) with (Z.ones (Z.of_nat n)) by (rewrite Z.ones_equiv; lia). rewrite Z.testbit_ones by lia.
  destruct (Z.leb_spec 0 (Z.of_nat i)), (Z.ltb_spec (Z.of_nat i) (Z.of_nat n)); simpl; try lia.
  - by rewrite bool_decide_true by lia.
  - by rewrite bool_decide_false by lia.
Qed.

Lemma low_mask_width n : in_width Wz (low_mask bytes_per_block n).
Proof. apply wrap_range. lia. Qed.
Lemma max_value_width : in_width Wz (max_value bytes_per_block).
Proof. unfold max_value, in_width. pose proof (pow2_pos Wz ltac:(lia)). lia. Qed.
Lemma testbit_max i : (i < W)%nat → Z.testbit (max_value bytes_per_block) (Z.of_nat i) = true.
Proof.
  intros. unfold max_value. replace (2 ^ Wz - 1) with (Z.ones Wz) by (rewrite Z.ones_equiv; lia).
  by rewrite Z.ones_spec_low by lia.
Qed.
Lemma testbit_not z i : (i < W)%nat → Z.testbit (not_word bytes_per_block z) (Z.of_nat i) = negb (Z.testbit z (Z.of_nat i)).
Proof. intros. unfold not_word. by rewrite testbit_not_w by lia. Qed.
Lemma vbit_default w i x : w !! (i / W)%nat = Some x → vbit w i = Z.testbit x (Z.of_nat (i mod W)).
Proof. unfold vbit. by intros ->. Qed.

(** Clearing the bits past the length makes a vector well-formed. *)
Lemma mask_last_block_spec v : length (vec v) = blocks_required bytes_per_block (len v) →
  Forall (in_width Wz) (vec v) → ∃ v', mask_last_block bytes_per_block v = Done v'
  ∧ vob_ok v' ∧ len v' = len v ∧ bits v' = bits v.
Proof using Hpos.
  intros Hlen Hw. unfold mask_last_block. pose proof (index_split (len v)) as [E Hm]. pose proof (blocks_required_spec (len v)) as Hbr.
  assert (Hin : ∀ i, (len v ≤ i)%nat → (i / W < length (vec v))%nat →
    (0 < len v mod W)%nat ∧ (i / W = len v / W)%nat ∧ (len v mod W ≤ i mod W)%nat).
  { intros i Hi Hb. rewrite Hlen in Hb. unfold blocks_required in *. pose proof (index_split i). case_bool_decide; nia. }
  case_bool_decide as Hub.
  - set (off := block_offset bytes_per_block (len v)).
    assert (Hoff : (off < length (vec v))%nat).
    { rewrite Hlen. unfold off, block_offset, blocks_required. rewrite bool_decide_false by lia. lia. }
    destruct (lookup_lt_is_Some_2 _ _ Hoff) as [x Hx]. unfold vec_get, vec_set. rewrite Hx. cbn [mbind outcome_bind unwrap].
    rewrite (bool_decide_true (off < _)%nat) by done. cbn [mbind outcome_bind].
    set (msk := low_mask bytes_per_block (len v mod W)).
    assert (Hv' : (if bool_decide (Z.land x msk ≠ x) then Done {| len := len v; vec := <[off:=Z.land x msk]> (vec v) |} else Done v)
      = Done {| len := len v; vec := <[off:=Z.land x msk]> (vec v) |}).
    { case_bool_decide as Hne; [done|]. rewrite Hne, list_insert_id by done. by destruct v. }
    rewrite Hv'. clear Hv'. eexists. split; [done|].
    assert (Hbit : ∀ i, vbit (<[off:=Z.land x msk]> (vec v)) i
      = if bool_decide (i / W = off)%nat then Z.testbit x (Z.of_nat (i mod W)) && bool_decide (i mod W < len v mod W)%nat
        else vbit (vec v) i).
    { intros i. rewrite vbit_insert by done. destruct (decide (i / W = off)%nat) as [Eo|Eo]; [|rewrite !(bool_decide_false _ Eo); done].
      rewrite !(bool_decide_true _ Eo), Z.land_spec. unfold msk. rewrite testbit_low_mask by done. done. }
    split; [split; simpl|split; [done|]].
    + by rewrite length_insert.
    + apply Forall_insert; [done|]. apply in_width_land_l; [lia|]. by eapply Forall_lookup_1.
    + intros i Hi. rewrite Hbit. case_bool_decide as Ei.
      * destruct (Hin i Hi) as (_ & _ & Hle); [by rewrite Ei|]. rewrite bool_decide_false by lia. apply andb_false_r.
      * apply vbit_out. destruct (decide (i / W < length (vec v))%nat) as [Hlt|]; [|lia].
        destruct (Hin i Hi Hlt) as (_ & Hq & _). unfold off, block_offset in Ei. lia.
    + apply bits_eq; [by rewrite length_bits|]. simpl. intros i b. rewrite lookup_bits. case_bool_decide as Hi; [|done].
      intros [= <-]. rewrite Hbit. case_bool_decide as Ei; [|done]. rewrite (vbit_default _ i x) by (by rewrite Ei).
      rewrite bool_decide_true; [by rewrite andb_true_r|]. unfold off, block_offset in Ei.
      pose proof (index_split i). nia.
  - exists v. split; [done|]. split; [|done]. split; [done..|]. intros i Hi.
    apply vbit_out. destruct (decide (i / W < length (vec v))%nat) as [Hlt|]; [|lia].
    destruct (Hin i Hi Hlt). lia.
Qed.

(** ** Bits of the words the operations build *)

Lemma bits_vbit v i : (i < len v)%nat → bits v !! i = Some (vbit (vec v) i).
Proof. intros. rewrite lookup_bits. by rewrite bool_decide_true. Qed.
Lemma vbit_bits v i : vob_ok v → vbit (vec v) i = default false (bits v !! i).
Proof. intros []. rewrite lookup_bits. case_bool_decide; [done|]. simpl. apply ok_tail0. lia. Qed.
(** Well-formed vectors with the same bits are equal. *)
Lemma vob_ext v1 v2 : vob_ok v1 → vob_ok v2 → bits v1 = bits v2 → v1 = v2.
Proof using Hpos.
  intros H1 H2 E. assert (Hl : len v1 = len v2) by (by rewrite <-!length_bits, E).
  enough (vec v1 = vec v2) by (destruct v1, v2; by simplify_eq/=).
  apply list_eq_same_length with (length (vec v1)); [|done|].
  { by rewrite (ok_blocks _ H1), (ok_blocks _ H2), Hl. }
  intros b x y Hb Hx Hy. apply word_eq with Wz; [lia|exact (Forall_lookup_1 _ _ _ _ (ok_words _ H1) Hx)|exact (Forall_lookup_1 _ _ _ _ (ok_words _ H2) Hy)|].
  intros i Hi. destruct (index_of b (Z.to_nat i)) as [Hd Hm]; [lia|].
  pose proof (vbit_bits v1 (W * b + Z.to_nat i) H1) as B1. pose proof (vbit_bits v2 (W * b + Z.to_nat i) H2) as B2.
  rewrite E, <-B2 in B1. unfold vbit in B1. rewrite Hd, Hm, Hx, Hy in B1. simpl in B1. by rewrite Z2Nat.id in B1 by lia.
Qed.

Lemma vbit_replicate n x i : vbit (replicate n x) i = bool_decide (i / W < n)%nat && Z.testbit x (Z.of_nat (i mod W)).
Proof.
  unfold vbit. case_bool_decide.
  - by rewrite lookup_replicate_2.
  - rewrite lookup_ge_None_2 by (rewrite length_replicate; lia). simpl. by rewrite Z.bits_0.
Qed.
Lemma vbit_take n w i : vbit (take n w) i = bool_decide (i / W < n)%nat && vbit w i.
Proof.
  unfold vbit. case_bool_decide.
  - by rewrite lookup_take_lt by lia.
  - rewrite lookup_take_ge by lia. simpl. by rewrite Z.bits_0.
Qed.
Lemma div_shift i n : (W * n ≤ i)%nat → (i / W = n + (i - W * n) / W ∧ i mod W = (i - W * n) mod W)%nat.
Proof using Hpos.
  intros. pose proof (index_split (i - W * n)) as [E Hm].
  destruct (index_of (n + (i - W * n) / W) ((i - W * n) mod W) Hm) as [H1 H2].
  assert ((i = W * (n + (i - W * n) / W) + (i - W * n) mod W)%nat) as Ei by nia.
  split; [by rewrite Ei at 1|by rewrite Ei at 1].
Qed.
Lemma div_lt_iff i n : (i / W < n ↔ i < W * n)%nat.
Proof using Hpos. pose proof (index_split i). nia. Qed.
Lemma vbit_app w1 w2 i :
  vbit (w1 ++ w2) i = if bool_decide (i < W * length w1)%nat then vbit w1 i else vbit w2 (i - W * length w1).
Proof using Hpos.
  unfold vbit. case_bool_decide as Hi.
  - apply div_lt_iff in Hi. by rewrite lookup_app_l.
  - destruct (div_shift i (length w1)) as [E1 E2]; [lia|]. rewrite lookup_app_r by lia. rewrite <-E2. do 3 f_equal. lia.
Qed.
Lemma vbit_drop n w i : vbit (drop n w) i = vbit w (i + W * n).
Proof using Hpos.
  unfold vbit. rewrite lookup_drop. destruct (div_shift (i + W * n) n) as [-> ->]; [lia|].
  by replace (i + W * n - W * n)%nat with i by lia.
Qed.
Lemma vbit_map f w i : (i / W < length w)%nat →
  vbit (f <$> w) i = Z.testbit (f (default 0 (w !! (i / W)%nat))) (Z.of_nat (i mod W)).
Proof. intros Hl. unfold vbit. rewrite list_lookup_fmap. by destruct (lookup_lt_is_Some_2 _ _ Hl) as [x ->]. Qed.
Lemma vbit_zip f w1 w2 i : (i / W < length w1)%nat → length w1 = length w2 →
  vbit (zip_with f w1 w2) i
  = Z.testbit (f (default 0 (w1 !! (i / W)%nat)) (default 0 (w2 !! (i / W)%nat))) (Z.of_nat (i mod W)).
Proof.
  intros Hl E. unfold vbit. rewrite lookup_zip_with.
  destruct (lookup_lt_is_Some_2 w1 _ Hl) as [x ->], (lookup_lt_is_Some_2 w2 (i / W)) as [y ->]; [lia|done].
Qed.

(** The test of one bit. *)
Lemma test_one_bit x k : (k < W)%nat →
  bool_decide (Z.land x (shl_word bytes_per_block 1 k) ≠ 0) = Z.testbit x (Z.of_nat k).
Proof using Hpos.
  intros Hk. destruct (Z.testbit x (Z.of_nat k)) eqn:E.
  - apply bool_decide_true. intros E0. apply (f_equal (λ z, Z.testbit z (Z.of_nat k))) in E0.
    rewrite Z.land_spec, E, testbit_shl1, bool_decide_true, Z.bits_0 in E0 by done. done.
  - apply bool_decide_false. intros []. apply Z.bits_inj'. intros i Hi. rewrite Z.land_spec, Z.bits_0.
    rewrite <-(Z2Nat.id i) by done. rewrite testbit_shl1 by done. case_bool_decide as Ei; [|apply andb_false_r].
    by rewrite Ei, E.
Qed.

(** ** The operations, as operations on lists of bits *)

Definition represents (v : Vob) (l : list bool) : Prop := vob_ok v ∧ bits v = l.

(** Masking the last block of words that hold the bits of [l]. *)
Lemma mask_represents n w l : length w = blocks_required bytes_per_block n → Forall (in_width Wz) w → length l = n →
  (∀ i b, l !! i = Some b → vbit w i = b) →
  ∃ v', mask_last_block bytes_per_block {| len := n; vec := w |} = Done v' ∧ represents v' l.
Proof using Hpos.
  intros Hw Hf Hl Hb. destruct (mask_last_block_spec {| len := n; vec := w |}) as (v' & E & Hok & _ & Hbits); [done..|].
  exists v'. split; [done|]. split; [done|]. rewrite Hbits. by apply bits_eq.
Qed.

Definition fill (value : bool) : Z := if value then max_value bytes_per_block else 0.
Lemma fill_width value : in_width Wz (fill value).
Proof. destruct value; [apply max_value_width|unfold in_width; simpl; pose proof (pow2_pos Wz); lia]. Qed.
Lemma testbit_fill value k : (k < W)%nat → Z.testbit (fill value) (Z.of_nat k) = value.
Proof. intros. destruct value; [by apply testbit_max|apply Z.bits_0]. Qed.
Lemma mod_lt i : (i mod W < W)%nat.
Proof using Hpos. apply index_split. Qed.

Lemma from_elem_ok value n :
  ∃ v, from_elem bytes_per_block value n = Done v ∧ represents v (replicate n value).
Proof using Hpos.
  apply mask_represents; [by rewrite length_replicate|apply Forall_replicate, fill_width|by rewrite length_replicate|].
  intros i b [-> Hi]%lookup_replicate. rewrite vbit_replicate, bool_decide_true by (by apply block_lt).
  simpl. apply testbit_fill, mod_lt.
Qed.
Lemma set_all_ok v value l : represents v l →
  ∃ v', set_all bytes_per_block v value = Done v' ∧ represents v' (replicate (length l) value).
Proof using Hpos.
  intros [Hok <-]. rewrite length_bits. unfold set_all. apply mask_represents.
  - rewrite length_fmap. by apply ok_blocks.
  - apply Forall_fmap, Forall_true. intros. apply fill_width.
  - by rewrite length_replicate.
  - intros i b [-> Hi]%lookup_replicate. rewrite vbit_map by (rewrite ok_blocks by done; by apply block_lt).
    apply testbit_fill, mod_lt.
Qed.
Lemma negate_ok v l : represents v l →
  ∃ v', negate bytes_per_block v = Done v' ∧ represents v' (negb <$> l).
Proof using Hpos.
  intros [Hok <-]. apply mask_represents.
  - rewrite length_fmap. by apply ok_blocks.
  - apply Forall_fmap. eapply Forall_impl; [by apply ok_words|]. intros x. apply in_width_not_w.
  - by rewrite length_fmap, length_bits.
  - intros i b. rewrite list_lookup_fmap, lookup_bits. case_bool_decide; [|done]. intros [= <-].
    rewrite vbit_map by (rewrite ok_blocks by done; by apply block_lt). by rewrite testbit_not by apply mod_lt.
Qed.
Lemma truncate_ok v n l : represents v l →
  ∃ v', truncate bytes_per_block v n = Done v' ∧ represents v' (take n l).
Proof using Hpos.
  intros [Hok <-]. unfold truncate. case_bool_decide.
  { exists v. split; [done|]. split; [done|]. by rewrite take_ge by (rewrite length_bits; lia). }
  apply mask_represents.
  - rewrite length_take, ok_blocks by done. pose proof (blocks_required_spec n). pose proof (blocks_required_spec (len v)).
    pose proof W_pos. nia.
  - apply Forall_take. by apply ok_words.
  - rewrite length_take, length_bits. lia.
  - intros i b Hb. pose proof (lookup_lt_Some _ _ _ Hb) as Hi. rewrite length_take in Hi.
    rewrite lookup_take_lt in Hb by lia. rewrite lookup_bits, bool_decide_true in Hb by (rewrite length_bits in Hi; lia).
    rewrite vbit_take, bool_decide_true by (apply block_lt; lia). by simplify_eq/=.
Qed.
Lemma get_ok v i l : represents v l → get bytes_per_block v i = Done (l !! i).
Proof using Hpos.
  intros [Hok <-]. unfold get. rewrite lookup_bits. case_bool_decide as Hi.
  { by rewrite bool_decide_false by lia. }
  rewrite bool_decide_true by lia. destruct (lookup_lt_is_Some_2 (vec v) (i / W)) as [x Hx].
  { rewrite ok_blocks by done. apply block_lt. lia. }
  unfold vec_get, block_offset. rewrite Hx. simpl. rewrite test_one_bit by apply mod_lt. by rewrite (vbit_default _ _ _ Hx).
Qed.

(** The word [set] writes. *)
Lemma testbit_set_word x (k j : nat) (value : bool) : (k < W)%nat → (j < W)%nat →
  Z.testbit (if value then Z.lor x (shl_word bytes_per_block 1 k)
             else Z.land x (not_word bytes_per_block (shl_word bytes_per_block 1 k))) (Z.of_nat j)
  = if bool_decide (j = k) then value else Z.testbit x (Z.of_nat j).
Proof using Hpos.
  intros Hk Hj. destruct value; [rewrite Z.lor_spec|rewrite Z.land_spec, testbit_not by done]; rewrite testbit_shl1 by done;
    case_bool_decide; simpl; by rewrite ?orb_true_r, ?orb_false_r, ?andb_false_r, ?andb_true_r.
Qed.
Lemma set_word_width x k (value : bool) : in_width Wz x →
  in_width Wz (if value then Z.lor x (shl_word bytes_per_block 1 k)
             else Z.land x (not_word bytes_per_block (shl_word bytes_per_block 1 k))).
Proof.
  intros. destruct value; [apply in_width_lor; [lia|done|apply wrap_range; lia]|by apply in_width_land_l; [lia|]].
Qed.

(** [set] on words that may not be well-formed yet: it changes one bit and tells
    whether it did. *)
Lemma set_words v i value : (i < len v)%nat → (i / W < length (vec v))%nat → Forall (in_width Wz) (vec v) →
  ∃ v', set bytes_per_block v i value = Done (bool_decide (vbit (vec v) i ≠ value), v') ∧ len v' = len v
  ∧ length (vec v') = length (vec v) ∧ Forall (in_width Wz) (vec v')
  ∧ ∀ j, vbit (vec v') j = if bool_decide (j = i) then value else vbit (vec v) j.
Proof using Hpos.
  intros Hi Hl Hf. unfold set, vec_get, vec_set, block_offset. rewrite bool_decide_false by lia.
  destruct (lookup_lt_is_Some_2 _ _ Hl) as [x Hx]. rewrite Hx. cbn [unwrap mbind outcome_bind].
  pose proof (Forall_lookup_1 _ _ _ _ Hf Hx) as Hwx. pose proof (set_word_width x (i mod W) value Hwx) as Hwy.
  pose proof (λ j Hj, testbit_set_word x (i mod W) j value (mod_lt i) Hj) as Ht.
  set (y := if value then _ else _) in *.
  assert (Hy : ∀ j, vbit (<[(i / W)%nat := y]> (vec v)) j = if bool_decide (j = i) then value else vbit (vec v) j).
  { intros j. rewrite vbit_insert by done. pose proof (index_split i) as [Ei _]. pose proof (index_split j) as [Ej _].
    destruct (decide (j / W = i / W)%nat) as [Ed|Ed].
    - rewrite (bool_decide_true _ Ed), Ht, (vbit_default _ j x) by first [apply mod_lt|by rewrite Ed].
      repeat case_bool_decide; try done; [congruence|lia].
    - rewrite (bool_decide_false _ Ed). rewrite bool_decide_false; [done|]. by intros ->. }
  rewrite (bool_decide_true (i / W < _)%nat) by done. case_bool_decide as Hxy.
  - exists {| len := len v; vec := <[(i / W)%nat := y]> (vec v) |}.
    split; [|split_and!; [done|simpl; by rewrite length_insert|by apply Forall_insert|done]].
    cbn [mbind outcome_bind]. do 2 f_equal. symmetry. apply bool_decide_true. intros Hv.
    apply Hxy, word_eq with Wz; [lia|done..|]. intros j Hj.
    rewrite <-(Z2Nat.id j) by lia. rewrite Ht by lia. case_bool_decide as E; [|done].
    rewrite <-Hv. rewrite (vbit_default _ _ _ Hx). by rewrite E.
  - exists v. rewrite (list_insert_id (vec v) (i / W)%nat y) in Hy by (rewrite Hxy; exact Hx).
    pose proof (Hy i) as Hyi. rewrite (bool_decide_true (i = i)) in Hyi by done. split; [|done].
    do 2 f_equal. rewrite bool_decide_false; [done|]. intros Hn. by destruct (Hn Hyi).
Qed.

(** What makes a vector represent a list. *)
Lemma represents_of v l : length (vec v) = blocks_required bytes_per_block (len v) → Forall (in_width Wz) (vec v) →
  length l = len v → (∀ i, vbit (vec v) i = default false (l !! i)) → represents v l.
Proof.
  intros Hb Hw Hl Hi. split; [split; [done..|]|].
  - intros i Hle. by rewrite Hi, lookup_ge_None_2 by lia.
  - apply bits_eq; [done|]. intros i b Hb'. by rewrite Hi, Hb'.
Qed.
Lemma represents_bit v l i : represents v l → vbit (vec v) i = default false (l !! i).
Proof. intros [Hok <-]. by apply vbit_bits. Qed.
Lemma represents_length v l : represents v l → length l = len v.
Proof. intros [_ <-]. apply length_bits. Qed.

Lemma set_ok v i value l : represents v l → (i < length l)%nat →
  ∃ v', set bytes_per_block v i value = Done (bool_decide (l !! i ≠ Some value), v') ∧ represents v' (<[i := value]> l).
Proof using Hpos.
  intros Hr Hi. pose proof (represents_length _ _ Hr) as Hl. destruct Hr as [Hok Hbits].
  destruct (set_words v i value) as (v' & E & El & Ev & Hw & Hb); [lia|rewrite ok_blocks by done; apply block_lt; lia|by apply ok_words|].
  exists v'. split.
  - rewrite E. do 2 f_equal. apply bool_decide_ext. rewrite <-Hbits, bits_vbit by lia. split; congruence.
  - apply represents_of; [by rewrite El, Ev, ok_blocks|done|by rewrite length_insert, El|].
    clear E. intros j. rewrite Hb. case_bool_decide as Ej.
    + subst j. by rewrite list_lookup_insert_eq.
    + by rewrite list_lookup_insert_ne, vbit_bits, Hbits by done.
Qed.
Lemma set_out v i value : (len v ≤ i)%nat → set bytes_per_block v i value = Panicked.
Proof. intros. unfold set. by rewrite bool_decide_true. Qed.

Lemma blocks_required_S n : blocks_required bytes_per_block (S n)
  = (blocks_required bytes_per_block n + if bool_decide (n mod W = 0)%nat then 1 else 0)%nat.
Proof using Hpos.
  pose proof (blocks_required_spec (S n)). pose proof (blocks_required_spec n) as Hn.
  unfold blocks_required in Hn at 1 2. pose proof (index_split n). pose proof W_pos.
  unfold blocks_required at 2. repeat case_bool_decide; try lia; nia.
Qed.
Lemma push_ok v value l : represents v l → usize_fits bytes_per_block (S (length l)) = true →
  ∃ v', push bytes_per_block v value = Done v' ∧ represents v' (l ++ [value]).
Proof using Hpos.
  intros Hr Hfit. pose proof (represents_length _ _ Hr) as Hl. unfold push. rewrite <-Hl, Hfit.
  set (w := if bool_decide _ then _ else _).
  assert (Hw : length w = blocks_required bytes_per_block (S (length l)) ∧ Forall (in_width Wz) w ∧ ∀ i, vbit w i = vbit (vec v) i).
  { rewrite blocks_required_S. destruct Hr as [[Hb Hf Ht] _]. unfold w. rewrite Hl in *. case_bool_decide as Hm.
    - rewrite length_app, Hb. split; [done|]. split.
      + apply Forall_app_2; [done|]. apply Forall_singleton, (fill_width false).
      + intros i. rewrite vbit_app. case_bool_decide as Hi; [done|]. rewrite (vbit_out (vec v)).
        * unfold vbit. destruct (_ / _)%nat; [apply Z.bits_0|]. simpl. apply Z.bits_0.
        * pose proof (div_lt_iff i (length (vec v))). lia.
    - split; [lia|done]. }
  destruct Hw as (Hwl & Hwf & Hwb).
  destruct (set_words {| len := S (length l); vec := w |} (length l) value) as (v' & E & El & Ev & Hf & Hb);
    [simpl; lia|simpl; rewrite Hwl; apply block_lt; lia|done|].
  rewrite E. clear E. exists v'. split; [done|]. simpl in *. apply represents_of; [by rewrite El, Ev|done|by rewrite length_app, El; simpl; lia|].
  intros i. rewrite Hb, Hwb, (represents_bit _ _ _ Hr). case_bool_decide as Hi.
  - subst i. by rewrite list_lookup_middle.
  - destruct (decide (i < length l)%nat).
    + by rewrite lookup_app_l.
    + rewrite !lookup_ge_None_2; [done|rewrite length_app; simpl; lia|lia].
Qed.
Lemma pop_ok v l : represents v l →
  ∃ v', pop bytes_per_block v = Done (last l, v') ∧ represents v' (take (length l - 1) l).
Proof using Hpos.
  intros Hr. pose proof (represents_length _ _ Hr) as Hl. unfold pop. rewrite <-Hl. case_bool_decide as E.
  - destruct l; [|done]. by exists v.
  - rewrite (get_ok _ _ _ Hr). cbn [mbind outcome_bind]. destruct (truncate_ok v (length l - 1) _ Hr) as (v' & -> & Hr').
    exists v'. split; [|done]. simpl. do 2 f_equal. by rewrite last_lookup, Nat.sub_1_r.
Qed.
Lemma extend_from_slice_ok other v l : represents v l →
  usize_fits bytes_per_block (length l + length other) = true →
  ∃ v', extend_from_slice bytes_per_block v other = Done v' ∧ represents v' (l ++ other).
Proof using Hpos.
  revert v l. induction other as [|b other IH]; intros v l Hr Hfit; simpl.
  { exists v. by rewrite app_nil_r. }
  destruct (push_ok v b l Hr) as (v1 & -> & Hr1).
  { apply bool_decide_eq_true in Hfit. apply bool_decide_eq_true. simpl in Hfit. lia. }
  destruct (IH v1 _ Hr1) as (v' & E & Hr').
  { rewrite length_app. simpl in *. by replace (length l + 1 + length other)%nat with (length l + S (length other))%nat by lia. }
  exists v'. split; [done|]. by rewrite <-app_assoc in Hr'.
Qed.

(** Two vectors that represent the same list are the same value. *)
Lemma represents_inj v1 v2 l : represents v1 l → represents v2 l → v1 = v2.
Proof using Hpos. intros [] []. apply vob_ext; [done..|]. congruence. Qed.
Lemma lookup_block_some v b : (b < length (vec v))%nat → ∃ x, vec v !! b = Some x.
Proof. apply lookup_lt_is_Some_2. Qed.

Lemma zip_words_ok (f : Z → Z → Z) (g : bool → bool → bool) v1 v2 l1 l2 :
  (∀ x y i, Z.testbit (f x y) i = g (Z.testbit x i) (Z.testbit y i)) → g false false = false →
  (∀ x y, in_width Wz x → in_width Wz y → in_width Wz (f x y)) →
  represents v1 l1 → represents v2 l2 → length l1 = length l2 →
  ∃ v', zip_words f v1 v2 = Done (bool_decide (zip_with g l1 l2 ≠ l1), v') ∧ represents v' (zip_with g l1 l2).
Proof using Hpos.
  intros Hf Hg Hw Hr1 Hr2 El. pose proof (represents_length _ _ Hr1) as Hl1. pose proof (represents_length _ _ Hr2) as Hl2.
  pose proof (ok_blocks _ (proj1 Hr1)) as Hb1. pose proof (ok_blocks _ (proj1 Hr2)) as Hb2.
  assert (Elv : length (vec v1) = length (vec v2)) by (rewrite Hb1, Hb2, <-Hl1, <-Hl2; by f_equal).
  unfold zip_words. rewrite bool_decide_false by lia. rewrite <-Elv, Nat.min_id, drop_all, app_nil_r, take_ge by done.
  set (v' := {| len := len v1; vec := zip_with f (vec v1) (vec v2) |}).
  assert (Hr' : represents v' (zip_with g l1 l2)).
  { apply represents_of; simpl.
    - rewrite length_zip_with, <-Elv. lia.
    - apply Forall_lookup_2. intros i z. rewrite lookup_zip_with_Some. intros (x & y & -> & Hx & Hy).
      apply Hw; [exact (Forall_lookup_1 _ _ _ _ (ok_words _ (proj1 Hr1)) Hx)|exact (Forall_lookup_1 _ _ _ _ (ok_words _ (proj1 Hr2)) Hy)].
    - rewrite length_zip_with. lia.
    - intros i. pose proof (represents_bit _ _ i Hr1) as B1. pose proof (represents_bit _ _ i Hr2) as B2.
      assert (Hz : vbit (zip_with f (vec v1) (vec v2)) i = g (vbit (vec v1) i) (vbit (vec v2) i)).
      { destruct (decide (i / W < length (vec v1))%nat).
        - by rewrite vbit_zip by done; rewrite Hf.
        - rewrite !vbit_out; [done|lia|lia|rewrite length_zip_with; lia]. }
      rewrite Hz, B1, B2, lookup_zip_with.
      destruct (decide (i < length l1)%nat) as [Hi|].
      + destruct (lookup_lt_is_Some_2 l1 i Hi) as [a ->], (lookup_lt_is_Some_2 l2 i) as [b ->]; [lia|done].
      + rewrite !lookup_ge_None_2 by lia. simpl. done. }
  exists v'. split; [|done]. do 2 f_equal. apply bool_decide_ext, not_iff_compat. split.
  - intros E. rewrite <-(proj2 Hr'), <-(proj2 Hr1). unfold bits, v'. simpl. by rewrite E.
  - intros E. rewrite E in Hr'. pose proof (represents_inj _ _ _ Hr' Hr1) as Ev. exact (f_equal vec Ev).
Qed.
Lemma zip_words_out f v1 v2 : len v1 ≠ len v2 → zip_words f v1 v2 = Panicked.
Proof. intros. unfold zip_words. by rewrite bool_decide_true. Qed.

Lemma zip_equal (w1 w2 : list Z) : length w1 = length w2 →
  forallb (λ '(a, b), bool_decide (a = b)) (zip w1 w2) = bool_decide (w1 = w2).
Proof.
  revert w2. induction w1 as [|a w1 IH]; intros [|b w2] El; simpl in *; try done.
  rewrite IH by lia. repeat case_bool_decide; simpl; try done; congruence.
Qed.
Lemma vob_eq_ok v1 v2 l1 l2 : represents v1 l1 → represents v2 l2 → vob_eq v1 v2 = bool_decide (l1 = l2).
Proof using Hpos.
  intros Hr1 Hr2. pose proof (represents_length _ _ Hr1) as Hl1. pose proof (represents_length _ _ Hr2) as Hl2.
  unfold vob_eq. case_bool_decide as En.
  - rewrite bool_decide_false; [done|]. intros ->. lia.
  - rewrite zip_equal by (rewrite (ok_blocks _ (proj1 Hr1)), (ok_blocks _ (proj1 Hr2)); by f_equal).
    apply bool_decide_ext. split.
    + intros Ev. rewrite <-(proj2 Hr1), <-(proj2 Hr2). unfold bits. by rewrite En, Ev.
    + intros ->. by rewrite (represents_inj _ _ _ Hr1 Hr2).
Qed.

(** ** Growing a vector *)

Lemma shr_bit x n k : (n < W)%nat → (k < W)%nat → in_width Wz x →
  Z.testbit (shr_word bytes_per_block x n) (Z.of_nat k) = bool_decide (k + n < W)%nat && Z.testbit x (Z.of_nat (k + n)).
Proof.
  intros Hn Hk Hx. unfold shr_word. rewrite Nat.mod_small, Z.shiftr_spec by lia.
  rewrite Nat2Z.inj_add. case_bool_decide; [done|]. simpl. by apply (testbit_above Wz); [|lia].
Qed.
Lemma shl_bit x n k : (n < W)%nat → (k < W)%nat →
  Z.testbit (shl_word bytes_per_block x n) (Z.of_nat k) = bool_decide (n ≤ k)%nat && Z.testbit x (Z.of_nat (k - n)).
Proof.
  intros Hn Hk. unfold shl_word. rewrite Nat.mod_small, testbit_wrap by lia. rewrite bool_decide_true by lia.
  rewrite Z.shiftl_spec by lia. simpl. case_bool_decide; simpl.
  - rewrite Nat2Z.inj_sub by lia. by rewrite andb_true_r.
  - by rewrite Z.testbit_neg_r by lia.
Qed.
Lemma rotate_left_bit x n k : (0 < n < W)%nat → (k < W)%nat → in_width Wz x →
  Z.testbit (rotate_left bytes_per_block x n) (Z.of_nat k)
  = if bool_decide (k < n)%nat then Z.testbit x (Z.of_nat (k + (W - n))) else Z.testbit x (Z.of_nat (k - n)).
Proof.
  intros Hn Hk Hx. unfold rotate_left. rewrite Z.lor_spec, shl_bit, shr_bit by (done || lia).
  repeat case_bool_decide; simpl; rewrite ?orb_false_r; try done; lia.
Qed.

(** The blocks pushed after a last block of which [ub] bits are used. *)
Lemma push_rotated_ok ub blocks w : (0 < ub < W)%nat → Forall (in_width Wz) w → Forall (in_width Wz) blocks →
  (0 < length w)%nat → (∀ i, (W * (length w - 1) + ub ≤ i)%nat → vbit w i = false) →
  ∃ w', push_rotated bytes_per_block ub blocks w = Done w' ∧ length w' = (length w + length blocks)%nat
  ∧ Forall (in_width Wz) w'
  ∧ ∀ i, vbit w' i = if bool_decide (i < W * (length w - 1) + ub)%nat then vbit w i
                     else vbit blocks (i - (W * (length w - 1) + ub)).
Proof using Hpos.
  intros Hub. revert w. induction blocks as [|x blocks IH]; intros w Hw Hbs Hne Htail; simpl.
  { exists w. split; [done|]. split; [lia|]. split; [done|]. intros i. case_bool_decide; [done|].
    rewrite Htail by lia. unfold vbit. by rewrite Z.bits_0. }
  apply Forall_cons in Hbs as [Hx Hbs]. destruct (lookup_lt_is_Some_2 w (length w - 1)) as [y Hy]; [lia|].
  rewrite last_lookup, <-Nat.sub_1_r, Hy. cbn [unwrap mbind outcome_bind].
  set (rot := rotate_left bytes_per_block x ub). set (msk := low_mask bytes_per_block ub).
  assert (Hrot : in_width Wz rot).
  { apply in_width_lor; [lia|apply wrap_range; lia|]. unfold shr_word.
    apply in_width_testbit; [lia|]. intros i Hi. rewrite Z.shiftr_spec by lia.
    apply (testbit_above Wz); [done|lia]. }
  set (w1 := <[(length w - 1)%nat := Z.lor y (Z.land rot (not_word bytes_per_block msk))]> w ++ [Z.land rot msk]).
  assert (Hl1 : length w1 = S (length w)) by (unfold w1; rewrite length_app, length_insert; simpl; lia).
  assert (Hbit : ∀ i, vbit w1 i = if bool_decide (i < W * (length w - 1) + ub)%nat then vbit w i
                       else vbit [x] (i - (W * (length w - 1) + ub))).
  { intros i. unfold w1. rewrite vbit_app, length_insert, vbit_insert by lia. pose proof (index_split i) as [Ei Hm].
    pose proof (div_lt_iff i (length w)) as Hd. case_bool_decide as Hi.
    - destruct (decide (i / W = length w - 1)%nat) as [Ed|Ed].
      + rewrite (bool_decide_true _ Ed), Z.lor_spec, Z.land_spec, testbit_not by done. unfold msk, rot.
        rewrite testbit_low_mask, rotate_left_bit by (done || lia). rewrite <-(vbit_default w i y) by (by rewrite Ed).
        assert (Ei' : i = (W * (length w - 1) + i mod W)%nat) by (rewrite <-Ed; exact Ei).
        destruct (decide (i mod W < ub)%nat) as [Hu|Hu]; [rewrite (bool_decide_true _ Hu)|rewrite (bool_decide_false _ Hu)]; simpl.
        * rewrite bool_decide_true by lia. by rewrite andb_false_r, orb_false_r.
        * rewrite bool_decide_false, Htail by lia. rewrite andb_true_r. unfold vbit.
          rewrite Nat.div_small, (Nat.mod_small (i - _)) by lia. simpl. do 2 f_equal. lia.
      + rewrite (bool_decide_false _ Ed). rewrite bool_decide_true; [done|]. nia.
    - rewrite bool_decide_false by nia. unfold vbit. destruct (decide (i < W * length w + ub)%nat) as [Hu|Hu].
      + rewrite !Nat.div_small, !Nat.mod_small by nia. simpl. rewrite Z.land_spec. unfold rot, msk.
        rewrite testbit_low_mask, rotate_left_bit by (done || lia). rewrite !bool_decide_true by lia.
        rewrite andb_true_r. do 2 f_equal. nia.
      + rewrite (lookup_ge_None_2 [x]).
        2: { simpl. pose proof (div_lt_iff (i - (W * (length w - 1) + ub)) 1). nia. }
        simpl. rewrite Z.bits_0. destruct (decide (i < W * S (length w))%nat) as [Hb|Hb].
        * rewrite Nat.div_small, Nat.mod_small by nia. simpl. rewrite Z.land_spec. unfold msk.
          rewrite testbit_low_mask by lia. rewrite bool_decide_false by lia. apply andb_false_r.
        * rewrite lookup_ge_None_2; [apply Z.bits_0|]. simpl.
          pose proof (div_lt_iff (i - W * length w) 1). nia. }
  destruct (IH w1) as (w' & E & Hl' & Hw' & Hb'); [..|exists w'; split; [done|]; split; [lia|]; split; [done|]].
  - apply Forall_app_2; [apply Forall_insert; [done|]|apply Forall_singleton].
    + apply in_width_lor; [lia|exact (Forall_lookup_1 _ _ _ _ Hw Hy)|by apply in_width_land_l; [lia|]].
    + by apply in_width_land_l; [lia|].
  - done.
  - lia.
  - intros i Hi. rewrite Hl1 in Hi. rewrite Hbit, bool_decide_false by nia. apply vbit_out. simpl.
    pose proof (div_lt_iff (i - (W * (length w - 1) + ub)) 1). nia.
  - intros i. rewrite Hb', Hl1, Hbit. replace (S (length w) - 1)%nat with (S (length w - 1)) by lia.
    change (x :: blocks) with ([x] ++ blocks). rewrite vbit_app. simpl length. pose proof W_pos.
    repeat case_bool_decide; try nia; f_equal; nia.
Qed.

(** The words [extend_blocks] builds before it trims them. *)
Lemma extend_words v blocks : vob_ok v → Forall (in_width Wz) blocks →
  ∃ w, (if bool_decide (len v mod W = 0)%nat then Done (vec v ++ blocks)
        else push_rotated bytes_per_block (len v mod W) blocks (vec v)) = Done w
  ∧ length w = (length (vec v) + length blocks)%nat ∧ Forall (in_width Wz) w
  ∧ ∀ i, vbit w i = if bool_decide (i < len v)%nat then vbit (vec v) i else vbit blocks (i - len v).
Proof using Hpos.
  intros [Hb Hw Ht] Hbs. pose proof (index_split (len v)) as [El Hm]. unfold blocks_required in Hb. case_bool_decide as Hub.
  - exists (vec v ++ blocks). split; [done|]. split; [by rewrite length_app|]. split; [by apply Forall_app_2|].
    intros i. rewrite vbit_app. by replace (W * length (vec v))%nat with (len v) by lia.
  - assert (HP : (W * (length (vec v) - 1) + len v mod W = len v)%nat) by nia.
    destruct (push_rotated_ok (len v mod W) blocks (vec v)) as (w & E & Hl & Hf & Hbit); [lia|done..|lia|by rewrite HP|].
    exists w. by rewrite HP in Hbit.
Qed.
Lemma extend_blocks_ok v other offset l1 l2 : represents v l1 → represents other l2 → (offset * W ≤ length l2)%nat →
  usize_fits bytes_per_block (length l1 + (length l2 - offset * W)) = true →
  ∃ v', extend_blocks bytes_per_block v other offset = Done v' ∧ represents v' (l1 ++ drop (offset * W) l2).
Proof using Hpos.
  intros Hr1 Hr2 Hoff Hfit. pose proof (represents_length _ _ Hr1) as Hl1. pose proof (represents_length _ _ Hr2) as Hl2.
  destruct (extend_words v (drop offset (vec other))) as (w & Ew & Hlw & Hfw & Hbw).
  { apply Hr1. } { apply Forall_drop, ok_words, Hr2. }
  unfold extend_blocks. rewrite Ew. cbn [mbind outcome_bind]. clear Ew. rewrite <-Hl1, <-Hl2, Hfit in *.
  apply mask_represents.
  - rewrite length_take, Hlw, length_drop, (ok_blocks _ (proj1 Hr1)), (ok_blocks _ (proj1 Hr2)), <-Hl1, <-Hl2.
    pose proof (blocks_required_spec (length l1)). pose proof (blocks_required_spec (length l2)).
    pose proof (blocks_required_spec (length l1 + (length l2 - offset * W))). pose proof W_pos. nia.
  - by apply Forall_take.
  - rewrite length_app, length_drop. lia.
  - intros i b Hb. pose proof (lookup_lt_Some _ _ _ Hb) as Hi. rewrite length_app, length_drop in Hi.
    rewrite vbit_take, bool_decide_true by (apply block_lt; lia). simpl. rewrite Hbw. case_bool_decide as Hi1.
    + rewrite lookup_app_l in Hb by done. by rewrite (represents_bit _ _ _ Hr1), Hb.
    + rewrite lookup_app_r, lookup_drop in Hb by lia. rewrite vbit_drop, (represents_bit _ _ _ Hr2).
      replace (i - length l1 + W * offset)%nat with (offset * W + (i - length l1))%nat by lia. by rewrite Hb.
Qed.

Lemma blocks_required_pos n : (0 < n)%nat → (0 < blocks_required bytes_per_block n)%nat.
Proof using Hpos. intros. pose proof (blocks_required_spec n). nia. Qed.
Lemma blocks_required_le n m : (n ≤ m)%nat → (blocks_required bytes_per_block n ≤ blocks_required bytes_per_block m)%nat.
Proof using Hpos. intros. pose proof (blocks_required_spec n). pose proof (blocks_required_spec m). pose proof W_pos. nia. Qed.

(** The part of the split block above the split. *)
Lemma split_first_ok v l at_ : represents v l → (0 < at_ < length l)%nat → (0 < at_ mod W)%nat →
  ∃ nv, (x ← vec_get (vec v) (blocks_required bytes_per_block at_ - 1);
         mask_last_block bytes_per_block
           {| len := if bool_decide (length l - at_ < W - at_ mod W)%nat then (length l - at_)%nat else (W - at_ mod W)%nat;
              vec := [shr_word bytes_per_block x (at_ mod W)] |}) = Done nv
  ∧ represents nv (take (W - at_ mod W) (drop at_ l)).
Proof using Hpos.
  intros Hr Hat Hub. pose proof (represents_length _ _ Hr) as Hl. pose proof (index_split at_) as [Ea Hm].
  assert (Hbl : (blocks_required bytes_per_block at_ - 1 = at_ / W)%nat).
  { unfold blocks_required. rewrite bool_decide_false by lia. lia. }
  rewrite Hbl. destruct (lookup_lt_is_Some_2 (vec v) (at_ / W)) as [x Hx].
  { rewrite (ok_blocks _ (proj1 Hr)), <-Hl. apply block_lt. lia. }
  unfold vec_get. rewrite Hx. cbn [unwrap mbind outcome_bind].
  pose proof (Forall_lookup_1 _ _ _ _ (ok_words _ (proj1 Hr)) Hx) as Hwx.
  set (n := if bool_decide _ then _ else _).
  assert (Hn : n = Nat.min (length l - at_) (W - at_ mod W)) by (unfold n; case_bool_decide; lia).
  apply mask_represents.
  - pose proof (blocks_required_spec n). simpl. pose proof (blocks_required_pos n). nia.
  - apply Forall_singleton. unfold shr_word. apply in_width_testbit; [lia|]. intros i Hi.
    rewrite Z.shiftr_spec by lia. apply (testbit_above Wz); [done|lia].
  - rewrite length_take, length_drop. lia.
  - intros i b Hb. pose proof (lookup_lt_Some _ _ _ Hb) as Hi. rewrite length_take, length_drop in Hi.
    rewrite lookup_take_lt, lookup_drop in Hb by lia.
    unfold vbit. rewrite (Nat.div_small i), (Nat.mod_small i) by lia. simpl.
    rewrite shr_bit by (done || lia). rewrite bool_decide_true by lia. simpl.
    pose proof (represents_bit _ _ (at_ + i) Hr) as Hv. rewrite Hb in Hv. simpl in Hv. rewrite <-Hv.
    destruct (index_of (at_ / W) (i + at_ mod W)) as [E1 E2]; [lia|].
    assert (Ei : (at_ + i = W * (at_ / W) + (i + at_ mod W))%nat) by lia.
    rewrite (vbit_default _ _ x), Ei, E2; [done|]. by rewrite Ei, E1.
Qed.

Lemma vob_new_ok : represents vob_new [].
Proof using Hpos.
  apply represents_of; [|constructor|done|intros; apply (vbit_out []); simpl; lia].
  unfold blocks_required. pose proof W_pos. rewrite bool_decide_true by (apply Nat.mod_0_l; lia). by rewrite Nat.div_0_l by lia.
Qed.
Lemma fits_le n m : usize_fits bytes_per_block m = true → (n ≤ m)%nat → usize_fits bytes_per_block n = true.
Proof. unfold usize_fits. rewrite !bool_decide_eq_true. lia. Qed.

Lemma split_off_ok v l at_ : represents v l → usize_fits bytes_per_block (length l) = true →
  ∃ nv v', split_off bytes_per_block v at_ = Done (nv, v') ∧ represents nv (drop at_ l) ∧ represents v' (take at_ l).
Proof using Hpos.
  intros Hr Hfit. pose proof (represents_length _ _ Hr) as Hl. unfold split_off. rewrite <-Hl.
  case_bool_decide as H1; [|case_bool_decide as H2].
  { exists vob_new, v. rewrite drop_ge, take_ge by lia. auto using vob_new_ok. }
  { subst at_. exists v, vob_new. rewrite drop_0, take_0. auto using vob_new_ok. }
  set (bts := (blocks_required bytes_per_block at_ - 1)%nat).
  pose proof (index_split at_) as [Ea Hm]. pose proof (blocks_required_spec at_) as Hba.
  pose proof (blocks_required_spec (length l)) as Hbl. pose proof (blocks_required_pos at_ ltac:(lia)) as Hp.
  (* the first block *)
  assert (∃ nv, (if bool_decide (0 < at_ mod W)%nat then _ else Done vob_new) = Done nv
    ∧ represents nv (take (W * S bts - at_) (drop at_ l))) as (nv & -> & Hnv).
  { case_bool_decide as Hub.
    - destruct (split_first_ok v l at_ Hr) as (nv & E & Hnv); [lia..|]. exists nv. split; [exact E|].
      replace (W * S bts - at_)%nat with (W - at_ mod W)%nat; [done|]. unfold bts, blocks_required.
      rewrite bool_decide_false by lia. nia.
    - exists vob_new. split; [done|]. replace (W * S bts - at_)%nat with 0%nat; [apply vob_new_ok|].
      unfold bts, blocks_required in *. rewrite bool_decide_true in * by lia. nia. }
  cbn [mbind outcome_bind].
  assert (∃ nv', (if bool_decide (bts + 1 < length (vec v))%nat then extend_blocks bytes_per_block nv v (bts + 1) else Done nv) = Done nv'
    ∧ represents nv' (drop at_ l)) as (nv' & -> & Hnv').
  { rewrite (ok_blocks _ (proj1 Hr)), <-Hl. case_bool_decide as Hlast.
    - destruct (extend_blocks_ok nv v (bts + 1) _ _ Hnv Hr) as (nv' & E & Hnv'); [nia| |].
      + apply (fits_le _ _ Hfit). rewrite length_take, length_drop. nia.
      + exists nv'. split; [done|].
        replace (drop ((bts + 1) * W) l) with (drop (W * S bts - at_) (drop at_ l)) in Hnv'; [by rewrite take_drop in Hnv'|].
        rewrite drop_drop. f_equal. nia.
    - exists nv. split; [done|]. rewrite take_ge in Hnv; [done|]. rewrite length_drop. nia. }
  cbn [mbind outcome_bind]. destruct (truncate_ok v at_ l Hr) as (v' & -> & Hv'). by exists nv', v'.
Qed.

Lemma length_vec_resize n x w : length (vec_resize n x w) = n.
Proof. unfold vec_resize. rewrite length_app, length_take, length_replicate. lia. Qed.
(** Words that are long enough, the bits past [k] all equal to [value]. *)
Lemma vbit_vec_resize n value w i : (i / W < n)%nat →
  vbit (vec_resize n (fill value) w) i = if bool_decide (i / W < length w)%nat then vbit w i else value.
Proof using Hpos.
  intros Hi. unfold vec_resize. rewrite vbit_app, length_take, vbit_take, vbit_replicate.
  pose proof (div_lt_iff i (Nat.min n (length w))) as Hd. pose proof (index_split i). case_bool_decide as H1.
  - rewrite !bool_decide_true by lia. done.
  - destruct (div_shift i (Nat.min n (length w))) as [E1 E2]; [lia|].
    rewrite (bool_decide_false (i / W < _)%nat) by lia. rewrite bool_decide_true by lia. simpl. apply testbit_fill, mod_lt.
Qed.

(** Filling the unused bits of the last block. *)
Lemma fill_tail v l value : represents v l → value = true → (length l mod W ≠ 0)%nat →
  ∃ w, (x ← vec_get (vec v) (length l / W); vec_set (vec v) (length l / W)
          (Z.lor x (shl_word bytes_per_block (max_value bytes_per_block) (length l mod W)))) = Done w
  ∧ length w = length (vec v) ∧ Forall (in_width Wz) w
  ∧ ∀ i, (i / W < length w)%nat → vbit w i = default value (l !! i).
Proof using Hpos.
  intros Hr -> Hm. pose proof (represents_length _ _ Hr) as Hl. pose proof (index_split (length l)) as [El Hml].
  pose proof (ok_blocks _ (proj1 Hr)) as Hb. rewrite <-Hl in Hb. unfold blocks_required in Hb. rewrite bool_decide_false in Hb by done.
  destruct (lookup_lt_is_Some_2 (vec v) (length l / W)) as [x Hx]; [lia|].
  unfold vec_get, vec_set. rewrite Hx. cbn [unwrap mbind outcome_bind]. rewrite bool_decide_true by lia.
  eexists. split; [done|]. rewrite length_insert. split; [done|]. split.
  - apply Forall_insert; [apply Hr|]. apply in_width_lor; [lia| |apply wrap_range; lia].
    exact (Forall_lookup_1 _ _ _ _ (ok_words _ (proj1 Hr)) Hx).
  - intros i Hi. rewrite vbit_insert by lia. pose proof (represents_bit _ _ i Hr) as Hv. pose proof (index_split i) as [Ei Hmi].
    destruct (decide (i / W = length l / W)%nat) as [Ed|Ed].
    + rewrite (bool_decide_true _ Ed), Z.lor_spec, shl_bit, testbit_max by lia. rewrite <-(vbit_default (vec v) i x) by (by rewrite Ed).
      rewrite Hv, andb_true_r. assert (i = (W * (length l / W) + i mod W)%nat) by (rewrite <-Ed; exact Ei).
      case_bool_decide.
      * rewrite orb_true_r, lookup_ge_None_2 by lia. done.
      * destruct (lookup_lt_is_Some_2 l i) as [b ->]; [lia|]. simpl. apply orb_false_r.
    + rewrite (bool_decide_false _ Ed), Hv. destruct (lookup_lt_is_Some_2 l i) as [b ->]; [nia|done].
Qed.

Lemma resize_tail_ok w l n value : (length l < n)%nat → length w = blocks_required bytes_per_block (length l) →
  Forall (in_width Wz) w → (∀ i, (i / W < length w)%nat → vbit w i = default value (l !! i)) →
  ∃ v', mask_last_block bytes_per_block
          {| len := n; vec := vec_resize (blocks_required bytes_per_block n) (fill value) w |} = Done v'
  ∧ represents v' (l ++ replicate (n - length l) value).
Proof using Hpos.
  intros Hn Hlw Hw Hb. apply mask_represents.
  - apply length_vec_resize.
  - apply Forall_app_2; [by apply Forall_take|apply Forall_replicate, fill_width].
  - rewrite length_app, length_replicate. lia.
  - intros i b Hi. pose proof (lookup_lt_Some _ _ _ Hi) as Hlt. rewrite length_app, length_replicate in Hlt.
    rewrite vbit_vec_resize by (apply block_lt; lia).
    assert (Hlw' : (length l ≤ W * length w)%nat) by (rewrite Hlw; apply blocks_required_spec).
    destruct (decide (i < length l)%nat) as [Hl|Hl].
    + rewrite lookup_app_l in Hi by done. rewrite bool_decide_true by (apply div_lt_iff; lia).
      rewrite Hb, Hi by (apply div_lt_iff; lia). done.
    + rewrite lookup_app_r in Hi by lia. apply lookup_replicate in Hi as [-> _].
      case_bool_decide; [|done]. by rewrite Hb, lookup_ge_None_2 by (done || lia).
Qed.
(** [resize] panics when it grows a non-empty vector of full blocks with ones. *)
Lemma resize_ok v l n value : represents v l →
  if bool_decide (length l < n)%nat && value && bool_decide (0 < length l)%nat && bool_decide (length l mod W = 0)%nat
  then resize bytes_per_block v n value = Panicked
  else ∃ v', resize bytes_per_block v n value = Done v' ∧ represents v' (take n l ++ replicate (n - length l) value).
Proof using Hpos.
  intros Hr. pose proof (represents_length _ _ Hr) as Hl. pose proof (ok_blocks _ (proj1 Hr)) as Hb. unfold resize. rewrite <-Hl in *.
  destruct (decide (length l < n)%nat) as [Hn|Hn].
  2: { rewrite (bool_decide_false _ Hn). simpl. rewrite bool_decide_true by lia. destruct (truncate_ok v n l Hr) as (v' & E & Hr').
       exists v'. split; [done|]. by replace (n - length l)%nat with 0%nat by lia; rewrite app_nil_r. }
  rewrite (bool_decide_true _ Hn), (bool_decide_false (n ≤ _)%nat), take_ge by lia. simpl. change (if value then _ else 0) with (fill value).
  destruct (decide (0 < length l)%nat) as [H0|H0].
  2: { rewrite !(bool_decide_false _ H0), andb_false_r. simpl. apply resize_tail_ok; [done..|apply Hr|].
       intros i Hi. rewrite Hb in Hi. assert (length l = 0)%nat as Hz by lia. rewrite Hz in Hi.
       pose proof (ok_blocks _ (proj1 vob_new_ok)) as Hb0. simpl in Hb0. lia. }
  rewrite !(bool_decide_true _ H0), !andb_true_r. destruct value; simpl.
  - destruct (decide (length l mod W = 0)%nat) as [Hm|Hm].
    + rewrite (bool_decide_true _ Hm). unfold vec_get, block_offset. rewrite lookup_ge_None_2; [done|].
      rewrite Hb. unfold blocks_required. rewrite (bool_decide_true _ Hm). lia.
    + rewrite (bool_decide_false _ Hm). destruct (fill_tail v l true Hr eq_refl Hm) as (w & E & Hlw & Hfw & Hbw).
      unfold block_offset. rewrite E. cbn [mbind outcome_bind]. apply (resize_tail_ok w l n true); [done|lia|done..].
  - apply (resize_tail_ok (vec v) l n false); [done..|apply Hr|]. intros i _. apply (represents_bit _ _ _ Hr).
Qed.
End spec.

(** * The operations against lists of bits *)

(** The operations of the vector, [V] being the type of vectors they take. *)
Inductive vop (V : Type) :=
  | FromElem (value : bool) (n : nat) | Push (value : bool) | Pop | Truncate (n : nat) | Clear
  | Get (i : nat) | Set_ (i : nat) (value : bool) | SetAll (value : bool) | Negate
  | And (o : V) | Or (o : V) | Xor (o : V) | Eq (o : V)
  | Resize (n : nat) (value : bool) | ExtendFromVob (o : V) | ExtendFromSlice (l : list bool) | SplitOff (n : nat).
Arguments FromElem {V}. Arguments Push {V}. Arguments Pop {V}. Arguments Truncate {V}. Arguments Clear {V}.
Arguments Get {V}. Arguments Set_ {V}. Arguments SetAll {V}. Arguments Negate {V}. Arguments And {V}. Arguments Or {V}.
Arguments Xor {V}. Arguments Eq {V}. Arguments Resize {V}. Arguments ExtendFromVob {V}. Arguments ExtendFromSlice {V}.
Arguments SplitOff {V}.
(** What an operation returns. *)
Inductive vres (V : Type) := RUnit | RBool (b : bool) | RBit (o : option bool) | RVec (v : V).
Arguments RUnit {V}. Arguments RBool {V}. Arguments RBit {V}. Arguments RVec {V}.

Section refinement.
Context (bytes_per_block : nat) (Hpos : (0 < bytes_per_block)%nat).
Notation W := (bits_per_block bytes_per_block).

Definition unit_op (m : outcome Vob) : outcome (vres Vob * Vob) := v ← m; Done (RUnit, v).
Definition bool_op (m : outcome (bool * Vob)) : outcome (vres Vob * Vob) := '(b, v) ← m; Done (RBool b, v).
Definition run_vop (op : vop Vob) (v : Vob) : outcome (vres Vob * Vob) :=
  match op with
  | FromElem value n => unit_op (from_elem bytes_per_block value n)
  | Push value => unit_op (push bytes_per_block v value)
  | Pop => '(o, v) ← pop bytes_per_block v; Done (RBit o, v)
  | Truncate n => unit_op (truncate bytes_per_block v n)
  | Clear => Done (RUnit, clear v)
  | Get i => o ← get bytes_per_block v i; Done (RBit o, v)
  | Set_ i value => bool_op (set bytes_per_block v i value)
  | SetAll value => unit_op (set_all bytes_per_block v value)
  | Negate => unit_op (negate bytes_per_block v)
  | And o => bool_op (and v o)
  | Or o => bool_op (or v o)
  | Xor o => bool_op (xor v o)
  | Eq o => Done (RBool (vob_eq v o), v)
  | Resize n value => unit_op (resize bytes_per_block v n value)
  | ExtendFromVob o => unit_op (extend_from_vob bytes_per_block v o)
  | ExtendFromSlice l => unit_op (extend_from_slice bytes_per_block v l)
  | SplitOff n => '(nv, v) ← split_off bytes_per_block v n; Done (RVec nv, v)
  end.

(** The same operations on lists, as they are documented; [None] is a panic. *)
Definition when {A} (b : bool) (a : A) : option A := if b then Some a else None.
Definition pointwise (g : bool → bool → bool) (l o : list bool) : option (vres (list bool) * list bool) :=
  when (bool_decide (length l = length o)) (RBool (bool_decide (zip_with g l o ≠ l)), zip_with g l o).
Definition spec_vop (op : vop (list bool)) (l : list bool) : option (vres (list bool) * list bool) :=
  match op with
  | FromElem value n => Some (RUnit, replicate n value)
  | Push value => when (usize_fits bytes_per_block (S (length l))) (RUnit, l ++ [value])
  | Pop => Some (RBit (last l), take (length l - 1) l)
  | Truncate n => Some (RUnit, take n l)
  | Clear => Some (RUnit, [])
  | Get i => Some (RBit (l !! i), l)
  | Set_ i value => when (bool_decide (i < length l)%nat) (RBool (bool_decide (l !! i ≠ Some value)), <[i := value]> l)
  | SetAll value => Some (RUnit, replicate (length l) value)
  | Negate => Some (RUnit, negb <$> l)
  | And o => pointwise andb l o
  | Or o => pointwise orb l o
  | Xor o => pointwise xorb l o
  | Eq o => Some (RBool (bool_decide (l = o)), l)
  | Resize n value => Some (RUnit, take n l ++ replicate (n - length l) value)
  | ExtendFromVob o => when (usize_fits bytes_per_block (length l + length o)) (RUnit, l ++ o)
  | ExtendFromSlice o => when (usize_fits bytes_per_block (length l + length o)) (RUnit, l ++ o)
  | SplitOff n => Some (RVec (drop n l), take n l)
  end.

(** The calls that do not follow their specification: [resize] that grows with
    ones a non-empty vector whose words are all full. *)
Definition grows_full_with_ones {V} (op : vop V) (length_ : nat) : bool :=
  match op with
  | Resize n value => bool_decide (length_ < n)%nat && value && bool_decide (0 < length_)%nat && bool_decide (length_ mod W = 0)%nat
  | _ => false
  end.

Definition op_operand {V} (op : vop V) : option V :=
  match op with And o | Or o | Xor o | Eq o | ExtendFromVob o => Some o | _ => None end.
Definition op_map {V V'} (f : V → V') (op : vop V) : vop V' :=
  match op with
  | FromElem value n => FromElem value n | Push value => Push value | Pop => Pop | Truncate n => Truncate n | Clear => Clear
  | Get i => Get i | Set_ i value => Set_ i value | SetAll value => SetAll value | Negate => Negate
  | And o => And (f o) | Or o => Or (f o) | Xor o => Xor (f o) | Eq o => Eq (f o)
  | Resize n value => Resize n value | ExtendFromVob o => ExtendFromVob (f o) | ExtendFromSlice l => ExtendFromSlice l
  | SplitOff n => SplitOff n
  end.
(** A returned value is what the specification says. *)
Definition res_ok (r : vres Vob) (r' : vres (list bool)) : Prop :=
  match r, r' with
  | RUnit, RUnit => True
  | RBool b, RBool b' => b = b'
  | RBit o, RBit o' => o = o'
  | RVec v, RVec l => represents bytes_per_block v l
  | _, _ => False
  end.

Lemma push_out v l value : represents bytes_per_block v l → usize_fits bytes_per_block (S (length l)) = false →
  push bytes_per_block v value = Panicked.
Proof using. intros Hr Hf. unfold push. by rewrite <-(represents_length _ _ _ Hr), Hf. Qed.
Lemma extend_from_slice_out other v l : represents bytes_per_block v l → usize_fits bytes_per_block (length l) = true →
  usize_fits bytes_per_block (length l + length other) = false →
  extend_from_slice bytes_per_block v other = Panicked.
Proof using Hpos.
  revert v l. induction other as [|b other IH]; intros v l Hr Hl Hf; simpl.
  { rewrite Nat.add_0_r in Hf. congruence. }
  destruct (usize_fits bytes_per_block (S (length l))) eqn:E.
  - destruct (push_ok _ Hpos v b l Hr E) as (v1 & -> & Hr1). apply (IH _ _ Hr1); rewrite length_app; simpl in *.
    + by rewrite Nat.add_comm.
    + by replace (length l + 1 + length other)%nat with (length l + S (length other))%nat by lia.
  - by rewrite (push_out v l b Hr E).
Qed.
Lemma extend_from_vob_out v o l lo : represents bytes_per_block v l → represents bytes_per_block o lo →
  usize_fits bytes_per_block (length l + length lo) = false → extend_from_vob bytes_per_block v o = Panicked.
Proof using Hpos.
  intros Hr Ho Hf. unfold extend_from_vob, extend_blocks. rewrite drop_0.
  destruct (extend_words _ Hpos v (vec o)) as (w & -> & _); [apply Hr|apply Ho|]. cbn [mbind outcome_bind]. simpl.
  by rewrite Nat.sub_0_r, <-(represents_length _ _ _ Hr), <-(represents_length _ _ _ Ho), Hf.
Qed.
(** [and], [or] and [xor]. *)
Lemma zip_op_ok (f : Z → Z → Z) (g : bool → bool → bool) v o l lo :
  (∀ x y i, Z.testbit (f x y) i = g (Z.testbit x i) (Z.testbit y i)) → g false false = false →
  (∀ x y, in_width (Z.of_nat W) x → in_width (Z.of_nat W) y → in_width (Z.of_nat W) (f x y)) →
  represents bytes_per_block v l → represents bytes_per_block o lo →
  match pointwise g l lo with
  | Some (r, l') => ∃ r' v', bool_op (zip_words f v o) = Done (r', v') ∧ res_ok r' r ∧ represents bytes_per_block v' l'
  | None => bool_op (zip_words f v o) = Panicked
  end.
Proof using Hpos.
  intros Hf Hg Hw Hr Ho. unfold pointwise, when. case_bool_decide as El.
  - destruct (zip_words_ok _ Hpos f g v o l lo) as (v' & -> & Hr'); [done..|]. by exists (RBool (bool_decide (zip_with g l lo ≠ l))), v'.
  - rewrite zip_words_out; [done|]. rewrite <-(represents_length _ _ _ Hr), <-(represents_length _ _ _ Ho). done.
Qed.

(** C12: the bit vector refines a list of bits.  On a vector that represents the
    list [l] (as many words as needed, no bit set past the length, a length that
    fits), each of [from_elem], [push], [pop], [truncate], [clear], [get], [set],
    [set_all], [negate], [and], [or], [xor], [eq], [resize], [extend_from_vob],
    [extend_from_slice] and [split_off] does on it what the operation on lists
    does: it returns the same value, the vector it leaves represents the resulting
    list, and it panics when the operation on lists has no result (an index out of
    range, two vectors of different lengths, a length that overflows).  There is
    one exception, which panics where a list would grow: [resize] of a non-empty
    vector of full words to a greater length with ones. *)
Theorem vob_refines_bits (op : vop Vob) v : vob_ok bytes_per_block v → usize_fits bytes_per_block (len v) = true →
  (∀ o, op_operand op = Some o → vob_ok bytes_per_block o) →
  if grows_full_with_ones op (len v) then run_vop op v = Panicked
  else match spec_vop (op_map (bits bytes_per_block) op) (bits bytes_per_block v) with
  | Some (r, l) => ∃ r' v', run_vop op v = Done (r', v') ∧ res_ok r' r ∧ represents bytes_per_block v' l
  | None => run_vop op v = Panicked
  end.
Proof using Hpos.
  intros Hv Hfit Hop. assert (Hr : represents bytes_per_block v (bits bytes_per_block v)) by done.
  rewrite <-(length_bits bytes_per_block) in *. remember (bits bytes_per_block v) as l eqn:El. clear El.
  assert (Ho : ∀ o, op_operand op = Some o → represents bytes_per_block o (bits bytes_per_block o)) by (intros o E; split; auto).
  clear Hop. destruct op as [value n|value| |n| |i|i value|value| |o|o|o|o|n value|o|sl|n];
    cbn [op_map spec_vop run_vop op_operand grows_full_with_ones] in *; try (specialize (Ho o eq_refl)).
  - destruct (from_elem_ok _ Hpos value n) as (v' & -> & ?). by exists RUnit, v'.
  - unfold when. destruct (usize_fits _ (S _)) eqn:E.
    + destruct (push_ok _ Hpos v value l Hr E) as (v' & -> & ?). by exists RUnit, v'.
    + by rewrite (push_out v l value Hr E).
  - destruct (pop_ok _ Hpos v l Hr) as (v' & -> & ?). by exists (RBit (last l)), v'.
  - destruct (truncate_ok _ Hpos v n l Hr) as (v' & -> & ?). by exists RUnit, v'.
  - exists RUnit, vob_new. split_and!; [done..|by apply vob_new_ok].
  - rewrite (get_ok _ Hpos v i l Hr). by exists (RBit (l !! i)), v.
  - unfold when. case_bool_decide as Hi.
    + destruct (set_ok _ Hpos v i value l Hr Hi) as (v' & -> & ?). by exists (RBool (bool_decide (l !! i ≠ Some value))), v'.
    + rewrite set_out; [done|]. rewrite <-(represents_length _ _ _ Hr). lia.
  - destruct (set_all_ok _ Hpos v value l Hr) as (v' & -> & ?). by exists RUnit, v'.
  - destruct (negate_ok _ Hpos v l Hr) as (v' & -> & ?). by exists RUnit, v'.
  - apply (zip_op_ok Z.land andb); auto using Z.land_spec. intros. apply in_width_land_l; [lia|done].
  - apply (zip_op_ok Z.lor orb); auto using Z.lor_spec. intros. apply in_width_lor; [lia|done..].
  - apply (zip_op_ok Z.lxor xorb); auto using Z.lxor_spec. intros. apply in_width_lxor; [lia|done..].
  - rewrite (vob_eq_ok _ Hpos v o l _ Hr Ho). by exists (RBool (bool_decide (l = bits bytes_per_block o))), v.
  - pose proof (resize_ok _ Hpos v l n value Hr) as Hre. destruct (_ && _ && _ && _); [by rewrite Hre|].
    destruct Hre as (v' & -> & ?). by exists RUnit, v'.
  - unfold when. destruct (usize_fits _ (_ + _)) eqn:E.
    + destruct (extend_blocks_ok _ Hpos v o 0 l _ Hr Ho) as (v' & E' & ?); [lia|by rewrite Nat.sub_0_r|].
      exists RUnit, v'. unfold extend_from_vob. by rewrite E'.
    + by rewrite (extend_from_vob_out v o l _ Hr Ho E).
  - unfold when. destruct (usize_fits _ (_ + _)) eqn:E.
    + destruct (extend_from_slice_ok _ Hpos sl v l Hr E) as (v' & -> & ?). by exists RUnit, v'.
    + by rewrite (extend_from_slice_out sl v l Hr Hfit E).
  - destruct (split_off_ok _ Hpos v l n Hr Hfit) as (nv & v' & -> & ? & ?). by exists (RVec nv), v'.
Qed.
End refinement.

(** Well-formedness of a concrete vector, by computation. *)
Definition vob_check (bytes_per_block : nat) (v : Vob) : bool :=
  bool_decide (length (vec v) = blocks_required bytes_per_block (len v))
  && bool_decide (Forall (λ z, 0 ≤ z < 2 ^ Z.of_nat (bits_per_block bytes_per_block)) (vec v))
  && forallb (λ i, negb (vbit bytes_per_block (vec v) i))
       (seq (len v) (length (vec v) * bits_per_block bytes_per_block - len v)).
Lemma vob_check_ok bytes_per_block v : (0 < bytes_per_block)%nat → vob_check bytes_per_block v = true → vob_ok bytes_per_block v.
Proof.
  unfold vob_check. rewrite !andb_true_iff, !bool_decide_eq_true. intros Hpos [[H1 H2] H3]. split; [done..|]. intros i Hi.
  destruct (decide (i < length (vec v) * bits_per_block bytes_per_block)%nat) as [Hlt|].
  - rewrite forallb_forall in H3. specialize (H3 i). rewrite in_seq in H3. apply negb_true_iff, H3. lia.
  - apply vbit_out. apply Nat.div_le_lower_bound; unfold bits_per_block in *; lia.
Qed.

(** A vector of nine bits on one-byte words, extended with a vector of six. *)
Lemma vob_refines_bits_witness : run_vop 1 (ExtendFromVob {| len := 6; vec := [45] |}) {| len := 9; vec := [255; 1] |}
  = Done (RUnit, {| len := 15; vec := [255; 91] |})
  ∧ bits 1 {| len := 15; vec := [255; 91] |}
    = bits 1 {| len := 9; vec := [255; 1] |} ++ bits 1 {| len := 6; vec := [45] |}.
Proof.
  pose proof (vob_refines_bits 1 ltac:(lia) (ExtendFromVob {| len := 6; vec := [45] |}) {| len := 9; vec := [255; 1] |}
    ltac:(by apply vob_check_ok; [lia|]) ltac:(done) ltac:(intros o [= <-]; by apply vob_check_ok; [lia|])) as Hc.
  split; [reflexivity|]. destruct Hc as (r' & v' & E & _ & Hr). injection E as <- <-. exact (proj2 Hr).
Defined.

(** * Iterators *)

Section iterators.
Context (bytes_per_block : nat) (Hpos : (0 < bytes_per_block)%nat).
Notation W := (bits_per_block bytes_per_block).
Notation Wz := (Z.of_nat (bits_per_block bytes_per_block)).

Lemma find_bit_spec z n i : (i ≤ find_bit z n i ≤ i + n)%nat
  ∧ (∀ j, (i ≤ j < find_bit z n i)%nat → Z.testbit z (Z.of_nat j) = false)
  ∧ ((find_bit z n i < i + n)%nat → Z.testbit z (Z.of_nat (find_bit z n i)) = true).
Proof using.
  clear Hpos bytes_per_block. revert i. induction n as [|n IH]; intros i; simpl.
  { split; [lia|]. split; [intros; lia|lia]. }
  destruct (Z.testbit z (Z.of_nat i)) eqn:E.
  { split; [lia|]. split; [intros; lia|done]. }
  destruct (IH (S i)) as (H1 & H2 & H3). split; [lia|]. split; [|intros; apply H3; lia].
  intros j Hj. destruct (decide (j = i)) as [->|]; [done|]. apply H2. lia.
Qed.

(** The bits an iterator looks for: [inv] is the identity or the complement. *)
Section one.
Context (inv : Z → Z) (full : Z) (want : bool).
Context (Hinv : ∀ z, in_width Wz z → in_width Wz (inv z)).
Context (Hbit : ∀ z k, (k < W)%nat → Z.testbit (inv z) (Z.of_nat k) = bool_decide (Z.testbit z (Z.of_nat k) = want)).
Context (Hfull : ∀ k, (k < W)%nat → Z.testbit full (Z.of_nat k) = want).

(** The first position of [from, to) whose bit is the one that is wanted. *)
Definition first_in (w : list Z) (from to : nat) (o : option nat) : Prop :=
  match o with
  | Some i => (from ≤ i < to)%nat ∧ vbit bytes_per_block w i = want
              ∧ ∀ j, (from ≤ j < i)%nat → vbit bytes_per_block w j ≠ want
  | None => ∀ j, (from ≤ j < to)%nat → vbit bytes_per_block w j ≠ want
  end.

Lemma scan_blocks_ok v e fuel b i_off x :
  Forall (in_width Wz) (vec v) → length (vec v) = blocks_required bytes_per_block (len v) → (e ≤ len v)%nat →
  vec v !! b = Some x → (i_off < W)%nat → (b * W + i_off < e)%nat → (length (vec v) ≤ b + fuel)%nat →
  ∃ o s', scan_blocks bytes_per_block fuel inv v b i_off x e = Done (o, s') ∧ first_in (vec v) (b * W + i_off) e o
  ∧ (∀ i, o = Some i → s' = S i).
Proof using Hpos Hinv Hbit.
  intros Hw Hb He. revert b i_off x. induction fuel as [|fuel IH]; intros b i_off x Hx Hoff Hlt Hf; cbn [scan_blocks].
  { pose proof (lookup_lt_Some _ _ _ Hx). lia. }
  set (tz := trailing_zeros _ _).
  assert (Hin : in_width Wz (inv x)) by (apply Hinv; exact (Forall_lookup_1 _ _ _ _ Hw Hx)).
  destruct (find_bit_spec (shr_word bytes_per_block (inv x) i_off) W 0) as (H1 & H2 & H3).
  change (find_bit _ _ _) with tz in H1, H2, H3.
  assert (Hv : ∀ k, (i_off + k < W)%nat → vbit bytes_per_block (vec v) (b * W + i_off + k) = want
    ↔ Z.testbit (shr_word bytes_per_block (inv x) i_off) (Z.of_nat k) = true).
  { intros k Hk. rewrite (shr_bit bytes_per_block) by (done || lia). rewrite bool_decide_true by lia. simpl.
    rewrite Hbit by lia. rewrite bool_decide_eq_true.
    destruct (index_of bytes_per_block Hpos b (i_off + k) Hk) as [E1 E2].
    replace (b * W + i_off + k)%nat with (W * b + (i_off + k))%nat by lia.
    rewrite (vbit_default _ _ _ x) by (by rewrite E1). by rewrite E2, (Nat.add_comm k). }
  assert (Hhigh : ∀ k, (k < W)%nat → (W ≤ i_off + k)%nat → Z.testbit (shr_word bytes_per_block (inv x) i_off) (Z.of_nat k) = false).
  { intros k Hk Hge. rewrite (shr_bit bytes_per_block) by (done || lia). by rewrite bool_decide_false by lia. }
  case_bool_decide as Htz.
  - specialize (H3 ltac:(lia)). assert (Hr : (i_off + tz < W)%nat).
    { destruct (decide (i_off + tz < W)%nat); [done|]. rewrite Hhigh in H3 by lia. done. }
    assert (Hno : ∀ j, (b * W + i_off ≤ j < b * W + i_off + tz)%nat → vbit bytes_per_block (vec v) j ≠ want).
    { intros j Hj. replace j with (b * W + i_off + (j - (b * W + i_off)))%nat by lia. rewrite Hv by lia.
      rewrite H2 by lia. done. }
    case_bool_decide as Hend; eexists _, _; (split; [done|]).
    + split; [|done]. intros j Hj. apply Hno. lia.
    + split; [|by intros i [= ->]]. split; [lia|]. split; [by apply Hv|]. done.
  - assert (Hno : ∀ j, (b * W + i_off ≤ j < W * S b)%nat → vbit bytes_per_block (vec v) j ≠ want).
    { intros j Hj. replace j with (b * W + i_off + (j - (b * W + i_off)))%nat by lia. rewrite Hv by lia.
      rewrite H2 by lia. done. }
    pose proof (blocks_required_spec bytes_per_block Hpos e) as Hbe. case_bool_decide as Hend.
    + eexists _, _. split; [done|]. split; [|done]. intros j Hj. apply Hno. rewrite Hend. lia.
    + assert (He' : (W * S b < e)%nat) by nia.
      destruct (lookup_lt_is_Some_2 (vec v) (S b)) as [y Hy].
      { rewrite Hb. pose proof (blocks_required_le bytes_per_block Hpos e (len v) He). nia. }
      unfold vec_get. rewrite Hy. cbn [unwrap mbind outcome_bind].
      destruct (IH (S b) 0%nat y Hy) as (o & s' & E & Hfirst & Hs); [apply W_pos; done|lia|lia|].
      exists o, s'. split; [done|]. split; [|done]. destruct o as [i|]; simpl in *.
      * destruct Hfirst as (Hi & Hw' & Hj). split; [lia|]. split; [done|]. intros j Hjr.
        destruct (decide (j < W * S b)%nat); [apply Hno; lia|apply Hj; lia].
      * intros j Hjr. destruct (decide (j < W * S b)%nat); [apply Hno; lia|apply Hfirst; lia].
Qed.

Lemma iter_next_ok v s e : vob_ok bytes_per_block v → (e ≤ len v)%nat →
  ∃ o s', iter_next bytes_per_block inv full v s e = Done (o, s') ∧ first_in (vec v) s e o ∧ (∀ i, o = Some i → s' = S i).
Proof using Hpos Hinv Hbit Hfull.
  intros [Hb Hw _] He. unfold iter_next. case_bool_decide as Hs.
  2: { eexists _, _. split; [done|]. split; [|done]. intros j Hj. lia. }
  destruct (index_split bytes_per_block Hpos s) as [Es Hm].
  destruct (lookup_lt_is_Some_2 (vec v) (s / W)) as [x Hx].
  { rewrite Hb. apply block_lt; [done|lia]. }
  unfold vec_get, block_offset. rewrite Hx. cbn [unwrap mbind outcome_bind]. case_bool_decide as Ex.
  - eexists _, _. split; [done|]. split; [|by intros i [= ->]]. split; [lia|]. split; [|intros; lia].
    rewrite (vbit_default _ _ _ x Hx), Ex. by apply Hfull.
  - destruct (scan_blocks_ok v e (S (length (vec v))) (s / W) (s mod W) x) as (o & s' & E & Hf & Hs'); [done..|lia|lia|].
    exists o, s'. split; [done|]. split; [|done]. by replace s with (s / W * W + s mod W)%nat at 1 by lia.
Qed.

Lemma filter_seq_none (P : nat → Prop) `{∀ i, Decision (P i)} s n :
  (∀ j, (s ≤ j < s + n)%nat → ¬ P j) → filter P (seq s n) = [].
Proof using. clear. revert s. induction n as [|n IH]; intros s Hn; simpl; [done|].
  rewrite filter_cons_False by (apply Hn; lia). apply IH. intros j Hj. apply Hn. lia.
Qed.
(** The items of an iterator are the positions of the range, in order. *)
Lemma iter_collect_ok v fuel s e : vob_ok bytes_per_block v → (e ≤ len v)%nat → (e - s < fuel)%nat →
  iter_collect bytes_per_block fuel inv full v s e
  = Done (filter (λ i, vbit bytes_per_block (vec v) i = want) (seq s (e - s))).
Proof using Hpos Hinv Hbit Hfull.
  intros Hok He. revert s. induction fuel as [|fuel IH]; intros s Hf; [lia|]. cbn [iter_collect].
  destruct (iter_next_ok v s e Hok He) as (o & s' & E & Hfirst & Hs). rewrite E. cbn [mbind outcome_bind].
  destruct o as [i|]; simpl in Hfirst.
  - rewrite (Hs i eq_refl) in *. destruct Hfirst as (Hi & Hw & Hno). rewrite IH by lia. cbn [mbind outcome_bind]. f_equal.
    replace (e - s)%nat with ((i - s) + S (e - S i))%nat by lia. rewrite seq_app, filter_app. simpl.
    replace (s + (i - s))%nat with i by lia. rewrite filter_cons_True by done.
    rewrite (filter_seq_none _ s (i - s)); [done|]. intros j Hj. apply Hno. lia.
  - f_equal. symmetry. apply filter_seq_none. intros j Hj. apply Hfirst. lia.
Qed.
End one.

(** A bound that can be incremented, and the positions of a range. *)
Definition bound_fits (b : bound) : Prop :=
  match b with Included t | Excluded t => usize_fits bytes_per_block (t + 1) = true | Unbounded => True end.
Definition in_range (range : bound * bound) (i : nat) : bool :=
  match range.1 with Included t => bool_decide (t ≤ i)%nat | Excluded t => bool_decide (t < i)%nat | Unbounded => true end
  && match range.2 with Included t => bool_decide (i ≤ t)%nat | Excluded t => bool_decide (i < t)%nat | Unbounded => true end.

Lemma succ_usize_fits t : usize_fits bytes_per_block (t + 1) = true → succ_usize bytes_per_block t = (t + 1)%nat.
Proof using.
  clear Hpos. unfold usize_fits, succ_usize. rewrite bool_decide_eq_true. intros Hf. rewrite wrap_id by (unfold in_width; lia). lia.
Qed.
(** The clipped range holds the positions of the range below the length. *)
Lemma process_range_ok v range s e : bound_fits range.1 → bound_fits range.2 →
  process_range bytes_per_block v range = (s, e) →
  (s ≤ len v)%nat ∧ (e ≤ len v)%nat ∧ ∀ i, (s ≤ i < e)%nat ↔ (i < len v)%nat ∧ in_range range i = true.
Proof using.
  clear Hpos. destruct range as [lo hi]. unfold process_range, in_range. simpl. intros Hlo Hhi [= <- <-].
  split; [destruct lo; lia|]. split; [destruct hi; lia|]. intros i. rewrite andb_true_iff.
  destruct lo, hi; simpl in *; rewrite ?succ_usize_fits, ?bool_decide_eq_true by done; lia.
Qed.
Lemma filter_range v s e (P : nat → Prop) (Q : nat → Prop) `{∀ i, Decision (P i), ∀ i, Decision (Q i)} :
  (e ≤ len v)%nat → (s ≤ len v)%nat → (∀ i, (i < len v)%nat → P i ↔ (s ≤ i < e)%nat ∧ Q i) →
  filter P (seq 0 (len v)) = filter Q (seq s (e - s)).
Proof using.
  clear. intros He Hs Hi.
  assert (Hn : ∀ a n, (a + n ≤ len v)%nat → (a + n ≤ s ∨ e ≤ a)%nat → filter P (seq a n) = []).
  { intros a n Hl Hr. apply filter_seq_none. intros j Hj Hp. apply Hi in Hp; lia. }
  destruct (decide (s ≤ e)%nat) as [Hse|Hse].
  - replace (len v) with (s + ((e - s) + (len v - e)))%nat by lia. rewrite !seq_app, !filter_app. simpl.
    rewrite (Hn 0%nat s), (Hn (s + (e - s))%nat), app_nil_r by lia. simpl.
    assert (Hq : ∀ a n, (s ≤ a)%nat → (a + n ≤ e)%nat → filter P (seq a n) = filter Q (seq a n)).
    { intros a n. revert a. induction n as [|n IH]; intros a Ha Hl; simpl; [done|].
      destruct (decide (Q a)) as [Hqa|Hqa].
      - rewrite !filter_cons_True by (done || (apply Hi; [lia|split; [lia|done]])). f_equal. apply IH; lia.
      - rewrite !filter_cons_False; [apply IH; lia|done|]. intros Hp. apply Hi in Hp; [tauto|lia]. }
    apply Hq; lia.
  - rewrite filter_seq_none; [by replace (e - s)%nat with 0%nat by lia|]. intros j Hj Hp. apply Hi in Hp; lia.
Qed.

(** C20: the bit iterators are exact.  [iter_set_bits] and [iter_unset_bits] of a
    well-formed vector, for any range whose bounds can be incremented, return, in
    increasing order, the positions of the range below the length whose bit is
    set, or not set: the scan by whole words and trailing zeros misses none, adds
    none, reads no word out of range and ends. *)
Theorem bit_iterators_exact v range : vob_ok bytes_per_block v → bound_fits range.1 → bound_fits range.2 →
  iter_set_bits bytes_per_block v range
    = Done (filter (λ i, in_range range i = true ∧ bits bytes_per_block v !! i = Some true) (seq 0 (len v)))
  ∧ iter_unset_bits bytes_per_block v range
    = Done (filter (λ i, in_range range i = true ∧ bits bytes_per_block v !! i = Some false) (seq 0 (len v))).
Proof using Hpos.
  intros Hok Hlo Hhi. unfold iter_set_bits, iter_unset_bits.
  destruct (process_range bytes_per_block v range) as [s e] eqn:E.
  destruct (process_range_ok v range s e Hlo Hhi E) as (Hs & He & Hin).
  assert (Hf : ∀ b, filter (λ i, in_range range i = true ∧ bits bytes_per_block v !! i = Some b) (seq 0 (len v))
    = filter (λ i, vbit bytes_per_block (vec v) i = b) (seq s (e - s))).
  { intros b. apply filter_range; [done..|]. intros i Hi. rewrite Hin, bits_vbit by done. naive_solver. }
  rewrite !Hf. split; apply iter_collect_ok; (done || lia || idtac).
  - intros z k Hk. by destruct (Z.testbit z (Z.of_nat k)).
  - intros k Hk. by apply testbit_max.
  - intros z. apply in_width_not_w.
  - intros z k Hk. rewrite testbit_not by done. by destruct (Z.testbit z (Z.of_nat k)).
  - intros k Hk. apply Z.bits_0.
Qed.
End iterators.

(** The free positions of a bitmap of 19 bits, from 3 on. *)
Lemma bit_iterators_exact_witness : iter_unset_bits 1 {| len := 19; vec := [255; 240; 6] |} (Included 3, Unbounded)
  = Done [8; 9; 10; 11; 16]%nat.
Proof.
  pose proof (bit_iterators_exact 1 ltac:(lia) {| len := 19; vec := [255; 240; 6] |} (Included 3, Unbounded)
    ltac:(by apply vob_check_ok; [lia|]) ltac:(done) ltac:(done)) as [_ Hc].
  refine (eq_trans Hc _). vm_compute. reflexivity.
Defined.

(** * Ranges of bits *)

Section ranges.
Context (bytes_per_block : nat) (Hpos : (0 < bytes_per_block)%nat).
Notation W := (bits_per_block bytes_per_block).
Notation Wz := (Z.of_nat (bits_per_block bytes_per_block)).

Lemma fill_blocks_ok x n : in_width Wz x → ∀ w from, Forall (in_width Wz) w → (from + n ≤ length w)%nat →
  ∃ w', fill_blocks w from n x = Done w' ∧ length w' = length w ∧ Forall (in_width Wz) w'
  ∧ ∀ i, vbit bytes_per_block w' i = if bool_decide (from ≤ i / W < from + n)%nat then Z.testbit x (Z.of_nat (i mod W))
                                     else vbit bytes_per_block w i.
Proof using.
  clear Hpos. intros Hx. induction n as [|n IH]; intros w from Hw Hl; simpl.
  { exists w. split_and!; [done..|]. intros i. by rewrite bool_decide_false by lia. }
  unfold vec_set. rewrite bool_decide_true by lia. cbn [mbind outcome_bind].
  destruct (IH (<[from := x]> w) (S from)) as (w' & -> & El & Hf & Hb); [by apply Forall_insert|rewrite length_insert; lia|].
  rewrite length_insert in El. exists w'. split_and!; [done..|]. intros i. rewrite Hb, vbit_insert by lia.
  destruct (decide (i / W = from)%nat) as [E|E].
  - rewrite (bool_decide_false (S from ≤ _ < _)%nat), (bool_decide_true _ E), bool_decide_true by lia. done.
  - rewrite (bool_decide_false _ E). repeat case_bool_decide; try done; lia.
Qed.

(** The positions that [set_bit_range] and [clear_bit_range] write, for a clipped
    range [s, e): in its first word they compare the offset in the word to the
    number of bits instead of the end. *)
Definition first_bits (s e : nat) : nat := Nat.min (W - s mod W) (e - s).
Definition touched (s e i : nat) : bool :=
  bool_decide (s ≤ i < e)%nat && (bool_decide (i / W ≠ s / W)%nat || bool_decide (i mod W < first_bits s e)%nat).
(** The same, word by word. *)
Definition touched_words (s e i : nat) : bool :=
  let k := first_bits s e in
  let blk := ((e - s - k) / W)%nat in
  if bool_decide (i / W = s / W)%nat then bool_decide (s mod W ≤ i mod W < k)%nat
  else bool_decide (s / W + 1 ≤ i / W < s / W + 1 + blk)%nat
       || bool_decide (i / W = s / W + blk + 1 ∧ i mod W < e - s - k - blk * W)%nat.
Lemma touched_eq s e i : touched s e i = touched_words s e i.
Proof using Hpos.
  unfold touched, touched_words. destruct (index_split _ Hpos s) as [Es Hs], (index_split _ Hpos i) as [Ei Hi].
  destruct (index_split _ Hpos (e - s - first_bits s e)) as [Er Hr]. unfold first_bits in *.
  set (k := Nat.min _ _) in *. assert (Hk : (k < W - s mod W ∧ e - s = k ∨ k = W - s mod W ∧ k ≤ e - s)%nat) by lia.
  generalize dependent k. intros k Er Hr Hk.
  generalize dependent (i mod W)%nat. generalize dependent (s mod W)%nat. generalize dependent ((e - s - k) mod W)%nat.
  intros r Er Hr so Es Hso Hk io Ei Hio.
  generalize dependent ((e - s - k) / W)%nat. generalize dependent (s / W)%nat. generalize dependent (i / W)%nat.
  intros ib Ei sb Es blk Er.
  destruct (decide (ib = sb)) as [->|Hne].
  - rewrite (bool_decide_true (sb = sb)) by done. rewrite (bool_decide_false (sb ≠ sb)) by lia. simpl.
    rewrite <-bool_decide_and. apply bool_decide_ext. lia.
  - rewrite (bool_decide_true _ Hne), (bool_decide_false _ Hne), andb_true_r, <-bool_decide_or. apply bool_decide_ext.
    nia.
Qed.

(** A range over [l], with the bits it touches set to [value]. *)
Definition write_range (value : bool) (s e : nat) (l : list bool) : list bool :=
  imap (λ i b, if touched s e i then value else b) l.
Lemma write_range_ok v l w value s e : represents bytes_per_block v l → length w = length (vec v) → Forall (in_width Wz) w →
  (e ≤ len v)%nat →
  (∀ i, vbit bytes_per_block w i = if touched_words s e i then value else vbit bytes_per_block (vec v) i) →
  represents bytes_per_block {| len := len v; vec := w |} (write_range value s e l).
Proof using Hpos.
  intros Hr Hl Hw He Hb. pose proof (represents_length _ _ _ Hr) as Hll. apply represents_of; simpl; [done|..].
  - rewrite Hl. apply (ok_blocks _ _ (proj1 Hr)).
  - done.
  - unfold write_range. by rewrite length_imap.
  - intros i. rewrite Hb, <-touched_eq, (represents_bit _ Hpos _ _ _ Hr). unfold write_range. rewrite list_lookup_imap.
    destruct (l !! i) eqn:E; simpl; [done|]. unfold touched. rewrite bool_decide_false; [done|].
    apply lookup_ge_None_1 in E. lia.
Qed.
(** The words a range reaches exist. *)
Lemma range_blocks v s e (k := first_bits s e) (blk := ((e - s - k) / W)%nat) : vob_ok bytes_per_block v → (e ≤ len v)%nat →
  (s / W < length (vec v))%nat →
  (s / W + 1 + blk ≤ length (vec v))%nat
  ∧ ((e - s - k - blk * W)%nat ≠ 0%nat → (s / W + blk + 1 < length (vec v))%nat)
  ∧ (e - s - k - blk * W < W)%nat
  ∧ (blk ≠ 0%nat → (length (vec v) ≤ s / W + blk + 1)%nat ↔ e = len v ∧ (e mod W = 0)%nat).
Proof using Hpos.
  intros Hok He Hs. rewrite (ok_blocks _ _ Hok) in *. destruct (index_split _ Hpos s) as [Es Hsm].
  destruct (index_split _ Hpos (e - s - k)) as [Er Hr]. fold blk in Er. destruct (blocks_required_spec _ Hpos (len v)) as [B1 B2].
  assert (Hk : (k < W - s mod W ∧ e - s = k ∨ k = W - s mod W ∧ k ≤ e - s)%nat) by (unfold k, first_bits; lia).
  clearbody k blk. split; [nia|]. split; [nia|]. split; [lia|]. intros Hb0. split.
  - intros Hge. assert (e = len v ∧ len v = W * (s / W + blk + 1))%nat as [-> Hlen] by nia. split; [done|].
    rewrite Hlen, Nat.mul_comm. apply Nat.Div0.mod_mul.
  - intros [-> Hm]. destruct (index_split _ Hpos (len v)) as [El _]. rewrite Hm in El.
    assert (Hc : (len v / W = s / W + blk + 1)%nat) by (clear B1 B2; nia). rewrite <-Hc. nia.
Qed.

Lemma vec_get_in w b : (b < length w)%nat → ∃ x, vec_get w b = Done x ∧ w !! b = Some x.
Proof using. clear. intros Hb. destruct (lookup_lt_is_Some_2 w b Hb) as [x Hx]. exists x. unfold vec_get. by rewrite Hx. Qed.
Lemma vec_set_in w b x : (b < length w)%nat → vec_set w b x = Done (<[b := x]> w).
Proof using. clear. intros Hb. unfold vec_set. by rewrite bool_decide_true. Qed.

(** The three writes of a range operation: [y] in the first word, [x] in the
    words after it, [z] in the last one. *)
Lemma range_writes v s e value y x : vob_ok bytes_per_block v → (e ≤ len v)%nat → (s / W < length (vec v))%nat →
  in_width Wz y → in_width Wz x → (∀ j, (j < W)%nat → Z.testbit x (Z.of_nat j) = value) →
  let k := first_bits s e in let blk := ((e - s - k) / W)%nat in
  (∀ j, (j < W)%nat → Z.testbit y (Z.of_nat j)
     = if bool_decide (s mod W ≤ j < k)%nat then value else vbit bytes_per_block (vec v) (W * (s / W) + j)) →
  ∃ w, fill_blocks (<[(s / W)%nat := y]> (vec v)) (s / W + 1) blk x = Done w ∧ length w = length (vec v) ∧ Forall (in_width Wz) w
  ∧ ∀ i, vbit bytes_per_block w i = if bool_decide (i / W = s / W)%nat && bool_decide (s mod W ≤ i mod W < k)%nat
                                       || bool_decide (s / W + 1 ≤ i / W < s / W + 1 + blk)%nat
                                    then value else vbit bytes_per_block (vec v) i.
Proof using Hpos.
  intros Hok He Hs Hy Hx Hxb k blk Hyb. destruct (range_blocks v s e Hok He Hs) as (H1 & _).
  destruct (fill_blocks_ok x blk Hx (<[(s / W)%nat := y]> (vec v)) (s / W + 1)) as (w & E & El & Hf & Hb).
  { apply Forall_insert; [apply Hok|done]. } { rewrite length_insert. exact H1. }
  rewrite length_insert in El. exists w. split_and!; [done..|]. intros i. rewrite Hb, vbit_insert by done.
  destruct (index_split _ Hpos i) as [Ei Hi]. rewrite Hxb by done.
  destruct (decide (i / W = s / W)%nat) as [E'|E'].
  - rewrite (bool_decide_false (s / W + 1 ≤ _ < _)%nat), !(bool_decide_true _ E'), Hyb by (done || lia).
    rewrite <-E', <-Ei, orb_false_r. done.
  - rewrite !(bool_decide_false _ E'). done.
Qed.

Lemma first_bits_lt s e : first_bits s e ≠ W → (first_bits s e < W)%nat.
Proof using. clear Hpos. unfold first_bits. lia. Qed.
Lemma first_bits_full s e : first_bits s e = W → (s mod W = 0)%nat.
Proof using Hpos. pose proof (W_pos _ Hpos). pose proof (mod_lt _ Hpos s). unfold first_bits. lia. Qed.
(** The first word of the two operations. *)
Definition clear_first (x : Z) (s e : nat) : Z :=
  if bool_decide (first_bits s e = W) then 0
  else Z.lor (Z.land x (low_mask bytes_per_block (s mod W)))
         (Z.land x (not_word bytes_per_block (low_mask bytes_per_block (first_bits s e)))).
Definition set_first (x : Z) (s e : nat) : Z :=
  if bool_decide (first_bits s e = W) then max_value bytes_per_block
  else Z.lor (Z.lor (Z.land (Z.land (max_value bytes_per_block) (not_word bytes_per_block (low_mask bytes_per_block (s mod W))))
                       (low_mask bytes_per_block (first_bits s e)))
                (Z.land x (low_mask bytes_per_block (s mod W))))
         (Z.land x (not_word bytes_per_block (low_mask bytes_per_block (first_bits s e)))).
Lemma first_word_bits x s e j : (j < W)%nat →
  Z.testbit (clear_first x s e) (Z.of_nat j)
    = (if bool_decide (s mod W ≤ j < first_bits s e)%nat then false else Z.testbit x (Z.of_nat j))
  ∧ Z.testbit (set_first x s e) (Z.of_nat j)
    = (if bool_decide (s mod W ≤ j < first_bits s e)%nat then true else Z.testbit x (Z.of_nat j)).
Proof using Hpos.
  intros Hj. unfold clear_first, set_first. destruct (decide (first_bits s e = W)) as [E|E].
  - rewrite !(bool_decide_true _ E). pose proof (first_bits_full s e E). rewrite !bool_decide_true by lia.
    split; [apply Z.bits_0|by apply testbit_max].
  - rewrite !(bool_decide_false _ E). pose proof (first_bits_lt s e E). pose proof (mod_lt _ Hpos s).
    rewrite !Z.lor_spec, !Z.land_spec, !testbit_not, !testbit_low_mask, testbit_max by done.
    destruct (Z.testbit x (Z.of_nat j)); repeat case_bool_decide; simpl; (done || lia).
Qed.
Lemma first_word_width x s e : in_width Wz x → in_width Wz (clear_first x s e) ∧ in_width Wz (set_first x s e).
Proof using Hpos.
  intros Hx. unfold clear_first, set_first.
  case_bool_decide; [split; [by apply (fill_width _ Hpos false)|by apply max_value_width]|].
  split; repeat apply in_width_lor; try lia; try (apply in_width_land_l; [lia|done]).
  apply in_width_land_l, in_width_land_l, max_value_width; (lia || done).
Qed.

(** The last step: [z] written over the word after the filled ones, when its low
    [rem] bits are [value]. *)
Lemma range_last v s e value w l (k := first_bits s e) (blk := ((e - s - k) / W)%nat) z :
  represents bytes_per_block v l → (e ≤ len v)%nat → (s / W < length (vec v))%nat →
  length w = length (vec v) → Forall (in_width Wz) w →
  (∀ i, vbit bytes_per_block w i = if bool_decide (i / W = s / W)%nat && bool_decide (s mod W ≤ i mod W < k)%nat
                                       || bool_decide (s / W + 1 ≤ i / W < s / W + 1 + blk)%nat
                                    then value else vbit bytes_per_block (vec v) i) →
  in_width Wz z →
  ((s / W + blk + 1 < length w)%nat → ∀ j, (j < W)%nat → Z.testbit z (Z.of_nat j)
     = if bool_decide (j < e - s - k - blk * W)%nat then value
       else vbit bytes_per_block w (W * (s / W + blk + 1) + j)) →
  represents bytes_per_block {| len := len v; vec := <[(s / W + blk + 1)%nat := z]> w |} (write_range value s e l).
Proof using Hpos.
  intros Hr He Hs Hl Hf Hb Hz Hzb. destruct (range_blocks v s e (proj1 Hr) He Hs) as (H1 & H2 & H3 & _). fold k blk in H1, H2, H3.
  apply write_range_ok; [done|by rewrite length_insert|by apply Forall_insert|done|].
  intros i. destruct (index_split _ Hpos i) as [Ei Hi]. unfold touched_words. fold k blk.
  assert (Hi' : vbit bytes_per_block (<[(s / W + blk + 1)%nat := z]> w) i
    = if bool_decide (i / W = s / W + blk + 1)%nat && bool_decide (i mod W < e - s - k - blk * W)%nat then value
      else vbit bytes_per_block w i).
  { destruct (decide (s / W + blk + 1 < length w)%nat) as [Hlt|Hge].
    - rewrite vbit_insert by done. destruct (decide (i / W = s / W + blk + 1)%nat) as [E|E].
      + rewrite !(bool_decide_true _ E), Hzb by done. rewrite <-E, <-Ei. done.
      + by rewrite !(bool_decide_false _ E).
    - rewrite list_insert_ge by lia. rewrite Hl in Hge. destruct (decide (e - s - k - blk * W = 0)%nat) as [E0|]; [|tauto].
      rewrite E0. rewrite (bool_decide_false (_ < 0)%nat) by lia. by rewrite andb_false_r. }
  rewrite Hi', Hb. destruct (decide (i / W = s / W)%nat) as [E|E].
  - rewrite !(bool_decide_true _ E). rewrite (bool_decide_false (i / W = _ + _ + _)%nat) by lia.
    rewrite (bool_decide_false (_ + _ ≤ _ < _)%nat) by lia. simpl. by rewrite orb_false_r.
  - rewrite !(bool_decide_false _ E). simpl.
    clear -Hi. repeat case_bool_decide; simpl; first [done|exfalso; naive_solver].
Qed.
(** No word is left to write. *)
Lemma range_no_last v s e value w l (k := first_bits s e) (blk := ((e - s - k) / W)%nat) :
  represents bytes_per_block v l → (e ≤ len v)%nat → (s / W < length (vec v))%nat →
  length w = length (vec v) → Forall (in_width Wz) w →
  (∀ i, vbit bytes_per_block w i = if bool_decide (i / W = s / W)%nat && bool_decide (s mod W ≤ i mod W < k)%nat
                                       || bool_decide (s / W + 1 ≤ i / W < s / W + 1 + blk)%nat
                                    then value else vbit bytes_per_block (vec v) i) →
  (e - s - k - blk * W = 0)%nat →
  represents bytes_per_block {| len := len v; vec := w |} (write_range value s e l).
Proof using Hpos.
  intros Hr He Hs Hl Hf Hb H0.
  destruct (decide (s / W + blk + 1 < length w)%nat) as [Hlt|Hge].
  - destruct (lookup_lt_is_Some_2 w _ Hlt) as [z Hz].
    rewrite <-(list_insert_id w _ z Hz) at 1. unfold k, blk. apply range_last; try done.
    + exact (Forall_lookup_1 _ _ _ _ Hf Hz).
    + intros _ j Hj. fold k blk. rewrite H0, bool_decide_false by lia.
      destruct (index_of _ Hpos (s / W + blk + 1) j Hj) as [E1 E2]. rewrite (vbit_default _ _ _ z) by (by rewrite E1). by rewrite E2.
  - rewrite <-(list_insert_ge w (s / W + blk + 1) 0) by lia. unfold k, blk.
    apply range_last; try done. by apply (fill_width _ Hpos false).
Qed.

(** A word of the vector, and its bits. *)
Lemma last_word w (b : nat) : Forall (in_width Wz) w → (b < length w)%nat →
  ∃ x, vec_get w b = Done x ∧ in_width Wz x
  ∧ ∀ j, (j < W)%nat → vbit bytes_per_block w (W * b + j) = Z.testbit x (Z.of_nat j).
Proof using Hpos.
  intros Hw Hs. destruct (vec_get_in w b Hs) as (x & Hx & Hlk). exists x. split; [done|].
  split; [exact (Forall_lookup_1 _ _ _ _ Hw Hlk)|]. intros j Hj.
  destruct (index_of _ Hpos b j Hj) as [E1 E2]. rewrite (vbit_default _ _ _ x) by (by rewrite E1). by rewrite E2.
Qed.

Lemma clear_bit_range_ok v l range s e : represents bytes_per_block v l →
  process_range bytes_per_block v range = (s, e) → (e ≤ len v)%nat →
  if bool_decide (s / W < length (vec v))%nat
  then ∃ v', clear_bit_range bytes_per_block v range = Done v' ∧ represents bytes_per_block v' (write_range false s e l)
  else clear_bit_range bytes_per_block v range = Panicked.
Proof using Hpos.
  intros Hr E He. unfold clear_bit_range. rewrite E. unfold block_offset. case_bool_decide as Hs.
  2: { unfold vec_get. by rewrite lookup_ge_None_2 by lia. }
  destruct (last_word (vec v) (s / W) (ok_words _ _ (proj1 Hr)) Hs) as (x & -> & Hx & Hxb). cbn [mbind outcome_bind].
  change (Nat.min (W - s mod W) (e - s)) with (first_bits s e). change (if bool_decide (first_bits s e = W) then _ else _) with (clear_first x s e).
  rewrite vec_set_in by done. cbn [mbind outcome_bind].
  destruct (range_writes v s e false (clear_first x s e) 0) as (w & -> & Hl & Hf & Hb);
    [apply Hr|done|done|by apply first_word_width|by apply (fill_width _ Hpos false)|intros; apply Z.bits_0| |].
  { intros j Hj. rewrite (proj1 (first_word_bits x s e j Hj)), Hxb by done. done. }
  cbn [mbind outcome_bind]. destruct (range_blocks v s e (proj1 Hr) He Hs) as (_ & H2 & H3 & _).
  case_bool_decide as H0.
  - eexists. split; [done|]. by apply range_no_last.
  - destruct (last_word w (s / W + (e - s - first_bits s e) / W + 1) Hf) as (z & -> & Hz & Hzb); [rewrite Hl; by apply H2|].
    cbn [mbind outcome_bind]. rewrite vec_set_in by (rewrite Hl; by apply H2). cbn [mbind outcome_bind].
    eexists. split; [done|]. apply range_last; try done; [by apply in_width_land_l; [lia|]|].
    intros _ j Hj. rewrite Z.land_spec, testbit_not, testbit_low_mask, Hzb by done.
    case_bool_decide; simpl; [apply andb_false_r|apply andb_true_r].
Qed.

(** The number of bits [set_bit_range] finds left for the last word: right when no
    word was filled; otherwise the subtraction underflows, which the shift undoes. *)
Definition bits_left (s e : nat) : Z :=
  wrap Wz (Z.of_nat (e - s) - Z.of_nat (first_bits s e) - 8 * Z.of_nat ((e - s - first_bits s e) / W) * Wz).
Lemma bits_left_ok s e (k := first_bits s e) (blk := ((e - s - k) / W)%nat) :
  (Wz | 2 ^ Wz) → 8 * Z.of_nat e < 2 ^ Wz → (e - s - k - blk * W < W)%nat →
  Z.to_nat (bits_left s e mod Wz) = (e - s - k - blk * W)%nat
  ∧ (bits_left s e = 0 ↔ blk = 0%nat ∧ (e - s - k - blk * W = 0)%nat).
Proof using Hpos.
  intros [q Hq] He Hr. unfold bits_left. fold k blk. pose proof (W_pos _ Hpos) as HW.
  assert (Hk : (k ≤ e - s)%nat) by (unfold k, first_bits; lia).
  assert (Hdiv : (blk * W ≤ e - s - k)%nat) by (unfold blk; rewrite Nat.mul_comm; apply Nat.Div0.mul_div_le).
  clearbody k blk. set (r := (e - s - k - blk * W)%nat) in *.
  assert (Hz : Z.of_nat (e - s) - Z.of_nat k - 8 * Z.of_nat blk * Wz = Z.of_nat r - 7 * Z.of_nat blk * Wz) by (unfold r; nia).
  rewrite Hz. destruct (decide (blk = 0)%nat) as [->|Hb].
  - rewrite wrap_id by (unfold in_width; nia). replace (Z.of_nat r - 7 * Z.of_nat 0 * Wz) with (Z.of_nat r) by lia.
    rewrite Z.mod_small, Nat2Z.id by lia. split; [done|]. lia.
  - assert (Hneg : - 2 ^ Wz < Z.of_nat r - 7 * Z.of_nat blk * Wz < 0) by nia.
    assert (Hw : wrap Wz (Z.of_nat r - 7 * Z.of_nat blk * Wz) = Z.of_nat r + (q - 7 * Z.of_nat blk) * Wz).
    { unfold wrap. symmetry. apply (Z.mod_unique _ _ (-1)); lia. }
    rewrite Hw. split; [|lia]. rewrite Z.mod_add, Z.mod_small, Nat2Z.id by lia. done.
Qed.

Lemma set_bit_range_ok v l range s e : represents bytes_per_block v l →
  process_range bytes_per_block v range = (s, e) → (e ≤ len v)%nat →
  (Wz | 2 ^ Wz) → 8 * Z.of_nat (len v) < 2 ^ Wz →
  if bool_decide (s / W < length (vec v))%nat
     && negb (bool_decide (W ≤ e - s - first_bits s e)%nat && bool_decide (e = len v) && bool_decide (e mod W = 0)%nat)
  then ∃ v', set_bit_range bytes_per_block v range = Done v' ∧ represents bytes_per_block v' (write_range true s e l)
  else set_bit_range bytes_per_block v range = Panicked.
Proof using Hpos.
  intros Hr E He Hdiv Hlen. unfold set_bit_range. rewrite E. unfold block_offset.
  destruct (decide (s / W < length (vec v))%nat) as [Hs|Hs].
  2: { rewrite (bool_decide_false _ Hs). simpl. unfold vec_get. by rewrite lookup_ge_None_2 by lia. }
  rewrite (bool_decide_true _ Hs). cbn [andb].
  destruct (last_word (vec v) (s / W) (ok_words _ _ (proj1 Hr)) Hs) as (x & -> & Hx & Hxb). cbn [mbind outcome_bind].
  change (Nat.min (W - s mod W) (e - s)) with (first_bits s e). change (if bool_decide (first_bits s e = W) then _ else _) with (set_first x s e).
  rewrite vec_set_in by done. cbn [mbind outcome_bind].
  destruct (range_writes v s e true (set_first x s e) (max_value bytes_per_block)) as (w & -> & Hl & Hf & Hb);
    [apply Hr|done|done|by apply first_word_width|by apply max_value_width|intros; by apply testbit_max| |].
  { intros j Hj. rewrite (proj2 (first_word_bits x s e j Hj)), Hxb by done. done. }
  cbn [mbind outcome_bind]. destruct (range_blocks v s e (proj1 Hr) He Hs) as (H1 & H2 & H3 & H4).
  destruct (bits_left_ok s e Hdiv ltac:(lia) H3) as [Hm H0]. fold (bits_left s e).
  set (blk := ((e - s - first_bits s e) / W)%nat) in *. set (rem := (e - s - first_bits s e - blk * W)%nat) in *.
  assert (Hblk : (W ≤ e - s - first_bits s e ↔ blk ≠ 0)%nat).
  { pose proof (W_pos _ Hpos). split.
    - intros Hle. apply (Nat.div_le_mono _ _ W) in Hle; [|lia]. rewrite Nat.div_same in Hle by lia. fold blk in Hle. lia.
    - intros Hn. destruct (decide (W ≤ e - s - first_bits s e)%nat); [done|]. destruct Hn. apply Nat.div_small. lia. }
  destruct (decide (bits_left s e = 0)) as [Hz|Hz]; [rewrite (bool_decide_true _ Hz)|rewrite (bool_decide_false _ Hz)].
  - apply H0 in Hz as [Hz1 Hz2]. rewrite (bool_decide_false (W ≤ _)%nat) by (rewrite Hblk; lia). simpl.
    eexists. split; [done|]. by apply range_no_last.
  - destruct (decide (s / W + blk + 1 < length w)%nat) as [Hlt|Hge].
    + destruct (last_word w (s / W + blk + 1) Hf Hlt) as (z & -> & Hzw & Hzb). cbn [mbind outcome_bind].
      rewrite vec_set_in by done. cbn [mbind outcome_bind].
      assert (Hno : bool_decide (W ≤ e - s - first_bits s e)%nat && bool_decide (e = len v) && bool_decide (e mod W = 0)%nat = false).
      { apply not_true_iff_false. rewrite !andb_true_iff, !bool_decide_eq_true. intros [[Hw Ee] Em].
        pose proof (proj2 (H4 (proj1 Hblk Hw)) (conj Ee Em)). lia. }
      rewrite Hno. clear Hno. simpl. eexists. split; [done|].
      rewrite Hm. apply range_last; try done.
      * apply in_width_lor; [lia|done|]. by apply low_mask_width.
      * intros _ j Hj. rewrite Z.lor_spec, testbit_low_mask, Hzb by done. fold blk rem.
        case_bool_decide; simpl; [apply orb_true_r|apply orb_false_r].
    + unfold vec_get. rewrite lookup_ge_None_2 by lia. cbn [unwrap mbind outcome_bind].
      assert (Hnb : blk ≠ 0%nat).
      { intros Hb0. destruct (decide (rem = 0)%nat) as [Hr0|Hr0]; [by apply Hz, H0|]. specialize (H2 Hr0). lia. }
      destruct (proj1 (H4 Hnb)) as [Ee Em]; [lia|].
      rewrite !bool_decide_true; [done|done|done|by apply Hblk].
Qed.

(** What the range operations of the bitmaps do, on every range.  Both write
    exactly the positions [touched s e] of the clipped range [s, e), which is the
    whole range when it starts on a word, and keep the rest.  Clearing panics only
    when the range starts past the last word; setting also panics when at least
    one whole word follows the first one and the range ends with the last word of
    the vector, because the number of bits that are left underflows. *)
Theorem bit_range_behaviour v range s e : vob_ok bytes_per_block v → bound_fits bytes_per_block range.1 → bound_fits bytes_per_block range.2 →
  process_range bytes_per_block v range = (s, e) → (Wz | 2 ^ Wz) → 8 * Z.of_nat (len v) < 2 ^ Wz →
  (if bool_decide (s / W < length (vec v))%nat
   then ∃ v', clear_bit_range bytes_per_block v range = Done v'
        ∧ represents bytes_per_block v' (write_range false s e (bits bytes_per_block v))
   else clear_bit_range bytes_per_block v range = Panicked)
  ∧ (if bool_decide (s / W < length (vec v))%nat
       && negb (bool_decide (W ≤ e - s - first_bits s e)%nat && bool_decide (e = len v) && bool_decide (e mod W = 0)%nat)
     then ∃ v', set_bit_range bytes_per_block v range = Done v'
          ∧ represents bytes_per_block v' (write_range true s e (bits bytes_per_block v))
     else set_bit_range bytes_per_block v range = Panicked)
  ∧ ((s mod W = 0)%nat → ∀ i, touched s e i = bool_decide (s ≤ i < e)%nat).
Proof using Hpos.
  intros Hok Hlo Hhi E Hdiv Hlen. destruct (process_range_ok _ v range s e Hlo Hhi E) as (_ & He & _).
  split; [by apply clear_bit_range_ok|]. split; [by apply set_bit_range_ok|].
  intros Hs i. unfold touched. case_bool_decide as Hi; [|done]. simpl.
  destruct (decide (i / W = s / W)%nat) as [Ei|Ei]; [|by rewrite bool_decide_true].
  rewrite (bool_decide_false (_ ≠ _)), bool_decide_true; [done| |tauto].
  destruct (index_split _ Hpos i) as [Ii Hm], (index_split _ Hpos s) as [Is _]. rewrite Ei in Ii. unfold first_bits. lia.
Qed.
End ranges.

(** On words of one byte, clearing the bits 2 to 10 of sixteen leaves the bits 6
    and 7 set, and marking a whole bitmap of three words panics. *)
Lemma bit_range_behaviour_witness :
  clear_bit_range 1 {| len := 16; vec := [255; 255] |} (Included 2, Excluded 11) = Done {| len := 16; vec := [195; 248] |}
  ∧ set_bit_range 1 {| len := 24; vec := [0; 0; 0] |} (Unbounded, Unbounded) = Panicked.
Proof.
  pose proof (bit_range_behaviour 1 ltac:(lia) {| len := 24; vec := [0; 0; 0] |} (Unbounded, Unbounded) 0 24
    ltac:(by apply vob_check_ok; [lia|]) ltac:(done) ltac:(done) ltac:(done) ltac:(by exists 32) ltac:(done)) as (_ & Hc & _).
  split; [reflexivity|]. exact Hc.
Defined.
