(* ===== verification/Bitmap.v ===== *)
(** Block and inode bitmaps of ext4 (src/fs/ext4/bitmap.rs) over the bit vector
    of Vob.v: loading, checksums, queries and updates.

    [BlockBitmap] and [InodeBitmap] have the same operations; each pair is modelled
    once, on the vector both wrap. *)

From S2P Require Import Prelude Crc Ext4 Vob.

Section bitmap.
Context (bytes_per_block : nat).
Notation Wz := (Z.of_nat (bits_per_block bytes_per_block)).

(** * Operations *)

(** [BlockBitmapChksumLo + BlockBitmapChksumHi], and the same for inodes. *)
Definition bitmap_chksum (lo hi : Z) : Z := Z.lor lo (Z.shiftl hi 16).

(** The bytes the checksum covers: the words in little-endian order, each byte with
    its bits reversed, cut to the bytes of the bitmap. *)
Definition chksum_bytes (fs_uuid : Z) (v : Vob) : list Z :=
  take (16 + len v / 8)
    (le_bytes 16 fs_uuid ++ concat ((λ w, reverse_bits <$> le_bytes bytes_per_block w) <$> vec v)).
Definition bitmap_validate_chksum (v : Vob) (fs_uuid on_disk_chksum : Z) : bool :=
  bool_decide (crc32c_calc (chksum_bytes fs_uuid v) = on_disk_chksum).

Definition bitmap_from_bytes (bitmap : list Z) : outcome Vob := from_bytes bytes_per_block bitmap.

(** [usize::from(blk)]. *)
Definition to_usize (id : Z) : outcome nat := Z.to_nat <$> fit Wz id.
(** [blk_in_use] and [inode_in_use]. *)
Definition in_use (v : Vob) (id : Z) : outcome bool :=
  i ← to_usize id;
  o ← get bytes_per_block v i;
  Done (default false o).
(** [set_blk_in_use], [set_inode_in_use]; [free_blk], [free_inode]. *)
Definition set_in_use (v : Vob) (id : Z) : outcome (bool * Vob) :=
  i ← to_usize id; set bytes_per_block v i true.
Definition free_one (v : Vob) (id : Z) : outcome (bool * Vob) :=
  i ← to_usize id; set bytes_per_block v i false.
(** [available_blks_in_range], [available_inodes_in_range]. *)
Definition available_in_range (v : Vob) (start end_ : Z) : outcome (list nat) :=
  s ← to_usize start;
  e ← to_usize end_;
  iter_unset_bits bytes_per_block v (Included s, Excluded e).
(** [get_some_available_blks], [get_some_available_inodes]. *)
Definition get_some_available (v : Vob) (count : Z) : outcome (list nat) :=
  n ← to_usize count;
  l ← iter_unset_bits bytes_per_block v (Unbounded, Unbounded);
  Done (take n l).
(** [mark_blk_range_used], [mark_inode_range_used]; [free_blk_range], [free_inode_range]. *)
Definition mark_range_used (v : Vob) (start end_ : Z) : outcome Vob :=
  s ← to_usize start;
  e ← to_usize end_;
  set_bit_range bytes_per_block v (Included s, Excluded e).
Definition free_range (v : Vob) (start end_ : Z) : outcome Vob :=
  s ← to_usize start;
  e ← to_usize end_;
  clear_bit_range bytes_per_block v (Included s, Excluded e).
(** [free_some_blks], [free_some_inodes]. *)
Fixpoint free_some (v : Vob) (ids : list Z) : outcome Vob :=
  match ids with
  | [] => Done v
  | id :: ids => '(_, v) ← free_one v id; free_some v ids
  end.
(** [count_free]: the count is converted to 32 bits. *)
Definition count_free (v : Vob) : outcome Z :=
  l ← iter_unset_bits bytes_per_block v (Unbounded, Unbounded);
  fit 32 (Z.of_nat (length l)).
End bitmap.

(** * Bytes and bits *)

(** The bits of a byte from the most significant one on. *)
Definition byte_bits (b : Z) : list bool := (λ k, Z.testbit b (7 - k)) <$> seqZ 0 8.

Lemma testbit_reverse_step b j k : 0 ≤ j ≤ 7 → 0 ≤ k →
  Z.testbit (Z.shiftl (Z.land (Z.shiftr b j) 1) (7 - j)) k = bool_decide (k = 7 - j) && Z.testbit b j.
Proof.
  intros Hj Hk. rewrite Z.shiftl_spec by done. destruct (Z.lt_trichotomy k (7 - j)) as [H|[->|H]].
  - rewrite (Z.testbit_neg_r _ (k - (7 - j))) by lia. by rewrite bool_decide_false by lia.
  - rewrite Z.sub_diag, Z.land_spec, Z.shiftr_spec, Z.add_0_l, bool_decide_true by done. by rewrite andb_true_r.
  - rewrite bool_decide_false, Z.land_spec by lia. change (Z.testbit 1) with (Z.testbit (2 ^ 0)).
    rewrite Z.pow2_bits_false by lia. apply andb_false_r.
Qed.
Lemma testbit_reverse_bits b k : 0 ≤ k →
  Z.testbit (reverse_bits b) k = bool_decide (k < 8) && Z.testbit b (7 - k).
Proof.
  intros Hk. unfold reverse_bits. change (seqZ 0 8) with [0; 1; 2; 3; 4; 5; 6; 7]. cbn [foldr].
  rewrite !Z.lor_spec, !testbit_reverse_step, Z.bits_0 by lia.
  destruct (decide (k < 8)) as [H8|H8]; [rewrite (bool_decide_true _ H8)|rewrite (bool_decide_false _ H8)]; simpl.
  - assert (k = 0 ∨ k = 1 ∨ k = 2 ∨ k = 3 ∨ k = 4 ∨ k = 5 ∨ k = 6 ∨ k = 7) as Hc by lia.
    destruct Hc as [->|[->|[->|[->|[->|[->|[->| ->]]]]]]]; simpl; by rewrite ?orb_false_r.
  - rewrite !bool_decide_false by lia. done.
Qed.
Lemma reverse_bits_byte b : byte (reverse_bits b).
Proof.
  apply in_width_testbit; [done|]. intros i Hi. rewrite testbit_reverse_bits by lia. by rewrite bool_decide_false by lia.
Qed.
Lemma reverse_bits_involutive b : byte b → reverse_bits (reverse_bits b) = b.
Proof.
  intros Hb. apply (word_eq 8); [done|apply reverse_bits_byte|done|]. intros i Hi.
  rewrite !testbit_reverse_bits by lia. rewrite !bool_decide_true by lia. simpl. f_equal. lia.
Qed.

(** A byte of a little-endian encoding. *)
Lemma lookup_le_bytes n z j : (j < n)%nat → le_bytes n z !! j = Some (Z.shiftr z (8 * Z.of_nat j) mod 256).
Proof.
  revert z j. induction n as [|n IH]; intros z j Hj; [lia|]. destruct j as [|j]; simpl; [done|].
  rewrite IH by lia. do 2 f_equal. change 256 with (2 ^ 8) at 1. rewrite <-Z.shiftr_div_pow2, Z.shiftr_shiftr by lia.
  f_equal. lia.
Qed.
Lemma testbit_byte_of z j k : 0 ≤ k < 8 → 0 ≤ j →
  Z.testbit (Z.shiftr z (8 * j) mod 256) k = Z.testbit z (8 * j + k).
Proof.
  intros Hk Hj. change 256 with (2 ^ 8). rewrite Z.mod_pow2_bits_low, Z.shiftr_spec by lia. f_equal. lia.
Qed.

Lemma testbit_word_of_bytes bytes_per_block slice i j n w p : Forall byte slice → 0 ≤ p →
  Z.testbit (word_of_bytes bytes_per_block slice i j n w) p
  = Z.testbit w p || (bool_decide (8 * Z.of_nat j ≤ p < 8 * Z.of_nat (j + n))
      && Z.testbit (reverse_bits (default 0 (slice !! (i * bytes_per_block + Z.to_nat (p / 8))%nat))) (p mod 8)).
Proof.
  intros Hs Hp. revert j w. induction n as [|n IH]; intros j w; simpl.
  { rewrite bool_decide_false by lia. by rewrite orb_false_r. }
  pose proof (Z.div_mod p 8 ltac:(lia)) as Hdm. pose proof (Z.mod_pos_bound p 8 ltac:(lia)) as Hm.
  rewrite IH. set (b := slice !! (i * bytes_per_block + j)%nat).
  assert (Hw : Z.testbit (match b with
      | Some b => if bool_decide (b ≠ 0) then Z.lor w (Z.shiftl (reverse_bits b) (8 * Z.of_nat j)) else w
      | None => w end) p
    = Z.testbit w p || (bool_decide (p / 8 = Z.of_nat j) && Z.testbit (reverse_bits (default 0 b)) (p mod 8))).
  { assert (Hsh : ∀ x, Z.testbit (Z.shiftl (reverse_bits x) (8 * Z.of_nat j)) p
      = bool_decide (p / 8 = Z.of_nat j) && Z.testbit (reverse_bits x) (p mod 8)).
    { intros x. rewrite Z.shiftl_spec by done. destruct (Z.lt_trichotomy (p / 8) (Z.of_nat j)) as [H|[H|H]].
      - rewrite Z.testbit_neg_r by lia. by rewrite bool_decide_false by lia.
      - rewrite bool_decide_true by lia. simpl. f_equal. lia.
      - rewrite testbit_reverse_bits by lia. rewrite (bool_decide_false (p - _ < 8)), bool_decide_false by lia. done. }
    assert (Hz : Z.testbit (reverse_bits 0) (p mod 8) = false).
    { rewrite testbit_reverse_bits by lia. rewrite Z.bits_0. apply andb_false_r. }
    destruct b as [b|]; simpl; [destruct (decide (b = 0)) as [->|Hb]|].
    - rewrite (bool_decide_false (0 ≠ 0)), Hz by tauto. by rewrite andb_false_r, orb_false_r.
    - rewrite (bool_decide_true (b ≠ 0)) by done. by rewrite Z.lor_spec, Hsh.
    - rewrite Hz. by rewrite andb_false_r, orb_false_r. }
  rewrite Hw. unfold b. rewrite <-orb_assoc. f_equal.
  destruct (decide (p / 8 = Z.of_nat j)) as [E|E].
  - rewrite (bool_decide_true _ E), E, Nat2Z.id. rewrite (bool_decide_false (_ * Z.of_nat (S j) ≤ _ < _)) by lia.
    rewrite (bool_decide_true (_ ≤ _ < _)) by lia. simpl. by rewrite orb_false_r.
  - rewrite (bool_decide_false _ E). simpl. f_equal. apply bool_decide_ext. lia.
Qed.

Lemma length_byte_bits b : length (byte_bits b) = 8%nat.
Proof. done. Qed.
Lemma lookup_byte_bits b k : (k < 8)%nat → byte_bits b !! k = Some (Z.testbit b (7 - Z.of_nat k)).
Proof. intros. unfold byte_bits. rewrite list_lookup_fmap, lookup_seqZ_lt by lia. simpl. do 3 f_equal. Qed.
Lemma byte_bits_same bs : Forall (λ l, length l = 8%nat) (byte_bits <$> bs).
Proof. apply Forall_fmap, Forall_true. intros. apply length_byte_bits. Qed.
Lemma length_concat_bits bs : length (concat (byte_bits <$> bs)) = (8 * length bs)%nat.
Proof. rewrite (length_concat_same 8) by apply byte_bits_same. rewrite length_fmap. lia. Qed.
Lemma lookup_concat_bits bs i : concat (byte_bits <$> bs) !! i
  = (λ b, Z.testbit b (7 - Z.of_nat (i mod 8))) <$> bs !! (i / 8)%nat.
Proof.
  rewrite (lookup_concat_same 8) by (lia || apply byte_bits_same). rewrite list_lookup_fmap.
  destruct (bs !! (i / 8)%nat) as [b|]; [|done]. cbn [fmap option_fmap option_map mbind option_bind].
  by rewrite lookup_byte_bits by (apply Nat.mod_upper_bound; lia).
Qed.

Section loading.
Context (bytes_per_block : nat) (Hpos : (0 < bytes_per_block)%nat).
Notation W := (bits_per_block bytes_per_block).
Notation Wz := (Z.of_nat (bits_per_block bytes_per_block)).

Lemma length_word_bits : Wz = 8 * Z.of_nat bytes_per_block.
Proof. unfold bits_per_block. lia. Qed.
Lemma block_byte i (q := (i / W)%nat) (r := (i mod W)%nat) :
  (q * bytes_per_block + r / 8 = i / 8)%nat ∧ (r mod 8 = i mod 8)%nat.
Proof using Hpos.
  destruct (index_split _ Hpos i) as [E _]. fold q r in E. unfold bits_per_block in E.
  rewrite E. replace (bytes_per_block * 8 * q + r)%nat with (r + (q * bytes_per_block) * 8)%nat by lia.
  rewrite Nat.div_add, Nat.Div0.mod_add by lia. lia.
Qed.

Lemma word_width slice i : Forall byte slice → in_width Wz (word_of_bytes bytes_per_block slice i 0 bytes_per_block 0).
Proof.
  intros Hs. apply in_width_testbit; [lia|]. intros p Hp. rewrite testbit_word_of_bytes by (done || lia).
  rewrite Z.bits_0, bool_decide_false by (rewrite length_word_bits in Hp; lia). done.
Qed.
(** A bitmap loaded from bytes holds the bits of each byte, the most significant
    one first. *)
Lemma from_bytes_ok slice : Forall byte slice → usize_fits bytes_per_block (length slice * 8) = true →
  ∃ v, from_bytes bytes_per_block slice = Done v ∧ represents bytes_per_block v (concat (byte_bits <$> slice)).
Proof using Hpos.
  intros Hs Hf. unfold from_bytes. rewrite Hf. eexists. split; [done|].
  apply represents_of; simpl; [done|by rewrite length_fmap, length_seq| |by rewrite length_concat_bits; lia|].
  - apply Forall_fmap, Forall_true. intros i. by apply word_width.
  - intros i. rewrite lookup_concat_bits. unfold vbit.
    destruct (index_split _ Hpos i) as [Ei Hm]. destruct (block_byte i) as [B1 B2].
    destruct (decide (i / W < blocks_required bytes_per_block (length slice * 8))%nat) as [Hl|Hl].
    + rewrite list_lookup_fmap, lookup_seq_lt by done. cbn [fmap option_fmap option_map default id]. rewrite Nat.add_0_l.
      rewrite testbit_word_of_bytes by (done || lia).
      rewrite Z.bits_0, bool_decide_true by (pose proof length_word_bits; lia). cbn [orb andb].
      assert (Hq : Z.of_nat (i mod W) / 8 = Z.of_nat (i mod W / 8)) by exact (eq_sym (Nat2Z.inj_div _ 8)).
      assert (Hr : Z.of_nat (i mod W) mod 8 = Z.of_nat ((i mod W) mod 8)) by exact (eq_sym (Nat2Z.inj_mod _ 8)).
      rewrite Hq, Hr, Nat2Z.id, B1, B2. pose proof (Nat.mod_upper_bound i 8 ltac:(lia)).
      rewrite testbit_reverse_bits, bool_decide_true by lia. cbn [andb].
      destruct (slice !! (i / 8)%nat); [done|apply Z.bits_0].
    + rewrite lookup_ge_None_2 by (rewrite length_fmap, length_seq; lia). cbn [default]. rewrite Z.bits_0.
      rewrite (lookup_ge_None_2 slice (i / 8)%nat); [done|].
      pose proof (blocks_required_spec _ Hpos (length slice * 8)). apply Nat.div_le_lower_bound; nia.
Qed.

(** The bytes the checksum covers are those the bitmap was loaded from. *)
Lemma chksum_bytes_loaded slice v fs_uuid : Forall byte slice → from_bytes bytes_per_block slice = Done v →
  chksum_bytes bytes_per_block fs_uuid v = le_bytes 16 fs_uuid ++ slice.
Proof using Hpos.
  intros Hs. unfold from_bytes. destruct (usize_fits _ _); [|done]. intros [= <-]. unfold chksum_bytes. cbn [len vec].
  rewrite Nat.div_mul by lia. rewrite take_app_ge, length_le_bytes by (rewrite length_le_bytes; lia).
  replace (16 + length slice - 16)%nat with (length slice) by lia. f_equal.
  set (n := blocks_required bytes_per_block (length slice * 8)).
  assert (Hc : ∀ i, concat ((λ w, reverse_bits <$> le_bytes bytes_per_block w) <$>
      ((λ i, word_of_bytes bytes_per_block slice i 0 bytes_per_block 0) <$> seq 0 n)) !! i
    = if bool_decide (i < n * bytes_per_block)%nat then Some (default 0 (slice !! i)) else None).
  { intros i. rewrite (lookup_concat_same bytes_per_block); [|done|].
    2: { apply Forall_fmap, Forall_true. intros w. unfold compose. by rewrite length_fmap, length_le_bytes. }
    rewrite !list_lookup_fmap. pose proof (Nat.mod_upper_bound i bytes_per_block ltac:(lia)) as Hm.
    pose proof (Nat.div_mod_eq i bytes_per_block) as Ei. case_bool_decide as Hi.
    - rewrite lookup_seq_lt by (apply Nat.Div0.div_lt_upper_bound; lia). simpl.
      rewrite list_lookup_fmap, lookup_le_bytes by done. simpl. f_equal.
      rewrite <-(reverse_bits_involutive (default 0 (slice !! i))).
      2: { destruct (slice !! i) as [b|] eqn:Hb; [exact (Forall_lookup_1 _ _ _ _ Hs Hb)|done]. }
      f_equal. apply (word_eq 8); [done|apply (Z.mod_pos_bound _ 256); lia|apply reverse_bits_byte|]. intros k Hk.
      rewrite testbit_byte_of, testbit_word_of_bytes by (done || lia). rewrite Z.bits_0, bool_decide_true by lia. simpl.
      rewrite Z.mul_comm, Z.add_comm, Z.div_add, Z.mod_add, Z.div_small, Z.mod_small, Z.add_0_l, Nat2Z.id by lia.
      do 3 f_equal. f_equal. lia.
    - rewrite lookup_seq_ge; [done|]. apply Nat.div_le_lower_bound; lia. }
  apply list_eq. intros i. destruct (decide (i < length slice)%nat) as [Hi|Hi].
  - rewrite lookup_take_lt, Hc by done. destruct (lookup_lt_is_Some_2 slice i Hi) as [b Hb]. rewrite Hb, bool_decide_true; [done|].
    pose proof (blocks_required_spec _ Hpos (length slice * 8)) as Hb'. fold n in Hb'. unfold bits_per_block in Hb'. nia.
  - rewrite lookup_take_ge, lookup_ge_None_2 by lia. done.
Qed.
End loading.

(** * What the operations do to the bits *)

Section updates.
Context (bytes_per_block : nat) (Hpos : (0 < bytes_per_block)%nat).
Notation Wz := (Z.of_nat (bits_per_block bytes_per_block)).

(** The free positions of a bitmap, and their number. *)
Definition free_positions (l : list bool) : list nat := filter (λ i, l !! i = Some false) (seq 0 (length l)).
Definition free_count (l : list bool) : nat := length (filter (λ b, b = false) l).

Lemma filter_fmap_S (P : nat → Prop) `{∀ i, Decision (P i)} (l : list nat) :
  filter P (S <$> l) = S <$> filter (λ i, P (S i)) l.
Proof using.
  clear. induction l as [|x l IH]; [done|]. cbn [fmap list_fmap]. destruct (decide (P (S x))).
  - rewrite !filter_cons_True by done. cbn [fmap list_fmap]. by f_equal.
  - by rewrite !filter_cons_False by done.
Qed.
Lemma length_free_positions l : length (free_positions l) = free_count l.
Proof using.
  clear. unfold free_positions, free_count. induction l as [|b l IH]; [done|].
  cbn [length seq]. rewrite <-fmap_S_seq. destruct b.
  - rewrite !filter_cons_False by done. rewrite filter_fmap_S, length_fmap. exact IH.
  - rewrite !filter_cons_True by done. cbn [length]. rewrite filter_fmap_S, length_fmap. by f_equal.
Qed.
Lemma free_count_insert l i (b b' : bool) : l !! i = Some b →
  (free_count (<[i := b']> l) + (if b then 0 else 1) = free_count l + if b' then 0 else 1)%nat.
Proof using.
  clear. revert i. induction l as [|x l IH]; intros [|i] Hi; try done; simpl in *.
  - simplify_eq. destruct b, b'; unfold free_count; rewrite ?filter_cons_True, ?filter_cons_False by done; simpl; lia.
  - specialize (IH i Hi). unfold free_count in *. destruct x; rewrite ?filter_cons_True, ?filter_cons_False by done; simpl; lia.
Qed.

Lemma unset_positions v l : represents bytes_per_block v l →
  iter_unset_bits bytes_per_block v (Unbounded, Unbounded) = Done (free_positions l).
Proof using Hpos.
  intros [Hok <-]. unfold iter_unset_bits, process_range. cbn [fst snd].
  rewrite (iter_collect_ok _ Hpos (not_word bytes_per_block) 0 false); [|..|done|done|lia].
  - unfold free_positions. rewrite length_bits. f_equal. symmetry.
    apply (filter_range v 0 (len v)); try lia. intros i Hi. rewrite bits_vbit by done. split; [intros E; split; [lia|]|intros [_ E]]; congruence.
  - intros z. apply in_width_not_w.
  - intros z k Hk. rewrite testbit_not by done. by destruct (Z.testbit z (Z.of_nat k)).
  - intros k Hk. apply Z.bits_0.
Qed.
Lemma to_usize_ok id : 0 ≤ id < 2 ^ Wz → to_usize bytes_per_block id = Done (Z.to_nat id).
Proof using. clear Hpos. intros. unfold to_usize, fit. by rewrite bool_decide_true. Qed.
Lemma in_use_ok v l id : represents bytes_per_block v l → 0 ≤ id < 2 ^ Wz →
  in_use bytes_per_block v id = Done (default false (l !! Z.to_nat id)).
Proof using Hpos. intros Hr Hid. unfold in_use. rewrite to_usize_ok by done. simpl. by rewrite (get_ok _ Hpos v _ l Hr). Qed.

(** C28: loading a bitmap.  The bytes of a block become a well-formed bit vector of
    eight bits per byte; its checksum is compared to that of the identifier of the
    filesystem and of those very bytes (reversing the bits of each byte when the
    words are built and again when the checksum is computed cancels out); and the
    bit an identifier designates is, in its byte, the one counted from the most
    significant side. *)
Theorem bitmap_loading slice : Forall byte slice → Z.of_nat (length slice) * 8 < 2 ^ Wz →
  ∃ v, bitmap_from_bytes bytes_per_block slice = Done v ∧ vob_ok bytes_per_block v
  ∧ len v = (length slice * 8)%nat
  ∧ (∀ fs_uuid chksum, bitmap_validate_chksum bytes_per_block v fs_uuid chksum
       = bool_decide (crc32c_calc (le_bytes 16 fs_uuid ++ slice) = chksum))
  ∧ ∀ id, 0 ≤ id < 2 ^ Wz → in_use bytes_per_block v id
       = Done (default false ((λ b, Z.testbit b (7 - id mod 8)) <$> slice !! Z.to_nat (id / 8))).
Proof using Hpos.
  intros Hs Hf. destruct (from_bytes_ok _ Hpos slice Hs) as (v & E & Hr).
  { apply bool_decide_true. rewrite Nat2Z.inj_mul. exact Hf. }
  exists v. split; [done|]. split; [apply Hr|]. split; [rewrite <-(represents_length _ _ _ Hr), length_concat_bits; lia|]. split.
  - intros. unfold bitmap_validate_chksum. by rewrite (chksum_bytes_loaded _ Hpos slice v) by done.
  - intros id Hid. rewrite (in_use_ok v _ id Hr Hid), lookup_concat_bits. do 2 f_equal.
    rewrite Z2Nat.inj_div by lia. change (Z.to_nat 8) with 8%nat. apply option_fmap_ext. intros b. do 2 f_equal.
    rewrite <-(Z2Nat.id id) at 2 by lia. apply (Nat2Z.inj_mod _ 8).
Qed.

(** Marking and freeing.  On a bitmap that represents [l], an identifier below
    the length can be marked in use or freed: the call says whether the bit
    changed, the identifier is then reported in use, or free, every other one as
    before, and the count of free ones moves by one exactly when the bit changed.
    The identifiers that [get_some_available_*] offers are the first free ones, in
    order.  An identifier past the end is reported free and panics when marked. *)
Theorem bitmap_updates v l id used : represents bytes_per_block v l → 0 ≤ id < 2 ^ Wz → Z.of_nat (length l) < 2 ^ 32 →
  count_free bytes_per_block v = Done (Z.of_nat (free_count l))
  ∧ (∀ n, 0 ≤ n < 2 ^ Wz → get_some_available bytes_per_block v n = Done (take (Z.to_nat n) (free_positions l)))
  ∧ match l !! Z.to_nat id with
    | None => in_use bytes_per_block v id = Done false
              ∧ set_in_use bytes_per_block v id = Panicked ∧ free_one bytes_per_block v id = Panicked
    | Some b => ∃ v',
        (if used : bool then set_in_use bytes_per_block v id else free_one bytes_per_block v id) = Done (xorb b used, v')
        ∧ vob_ok bytes_per_block v'
        ∧ in_use bytes_per_block v' id = Done used
        ∧ (∀ id', 0 ≤ id' < 2 ^ Wz → id' ≠ id → in_use bytes_per_block v' id' = in_use bytes_per_block v id')
        ∧ count_free bytes_per_block v'
          = Done (Z.of_nat (free_count l) + (if b then 0 else -1) + if used then 0 else 1)
    end.
Proof using Hpos.
  intros Hr Hid Hlen.
  assert (Hcount : ∀ v l, represents bytes_per_block v l → Z.of_nat (length l) < 2 ^ 32 →
    count_free bytes_per_block v = Done (Z.of_nat (free_count l))).
  { intros v0 l0 Hr0 Hl0. unfold count_free. rewrite (unset_positions v0 l0 Hr0). cbn [mbind outcome_bind].
    rewrite length_free_positions. unfold fit. rewrite bool_decide_true; [done|]. split; [lia|].
    unfold free_count. pose proof (length_filter (λ b, b = false) l0). lia. }
  split; [by apply Hcount|]. split.
  { intros n Hn. unfold get_some_available. rewrite to_usize_ok by done. cbn [mbind outcome_bind].
    by rewrite (unset_positions v l Hr). }
  destruct (l !! Z.to_nat id) as [b|] eqn:E.
  - pose proof (lookup_lt_Some _ _ _ E) as Hi. destruct (set_ok _ Hpos v (Z.to_nat id) used l Hr Hi) as (v' & Es & Hr').
    exists v'. split; [|split; [apply Hr'|]].
    { unfold set_in_use, free_one. rewrite to_usize_ok by done. cbn [mbind outcome_bind].
      destruct used; rewrite Es, E; by destruct b. }
    split; [rewrite (in_use_ok v' _ id Hr' Hid), list_lookup_insert_eq by done; done|]. split.
    + intros id' Hid' Hne. rewrite (in_use_ok v' _ id' Hr' Hid'), (in_use_ok v _ id' Hr Hid'), list_lookup_insert_ne by lia. done.
    + rewrite (Hcount v' _ Hr') by (by rewrite length_insert). f_equal.
      pose proof (free_count_insert l (Z.to_nat id) b used E). destruct b, used; lia.
  - apply lookup_ge_None_1 in E as Hi. rewrite (in_use_ok v _ id Hr Hid), E. split; [done|].
    unfold set_in_use, free_one. rewrite to_usize_ok by done. cbn [mbind outcome_bind].
    rewrite (represents_length _ _ _ Hr) in Hi. split; by apply set_out.
Qed.
End updates.

(** The two bytes [0x01; 0x80]: blocks 7 and 8 are in use. *)
Definition demo_bitmap : Vob := {| len := 16; vec := [384] |}.
Lemma bitmap_loading_witness : bitmap_from_bytes 8 [0x01; 0x80] = Done demo_bitmap
  ∧ in_use 8 demo_bitmap 7 = Done true ∧ in_use 8 demo_bitmap 0 = Done false.
Proof.
  destruct (bitmap_loading 8 ltac:(lia) [0x01; 0x80] ltac:(repeat constructor; done) ltac:(done)) as (v & E & _ & _ & _ & H).
  injection E as <-. split; [reflexivity|]. split; [exact (H 7 ltac:(done))|exact (H 0 ltac:(done))].
Defined.
Lemma bitmap_updates_witness : ∃ v', set_in_use 8 demo_bitmap 3 = Done (true, v') ∧ count_free 8 v' = Done 13.
Proof.
  assert (Hr : represents 8 demo_bitmap (bits 8 demo_bitmap)) by (split; [apply vob_check_ok; [lia|reflexivity]|reflexivity]).
  destruct (bitmap_updates 8 ltac:(lia) demo_bitmap _ 3 true Hr ltac:(done) ltac:(done)) as (_ & _ & H).
  change (bits 8 demo_bitmap !! Z.to_nat 3) with (Some false) in H. destruct H as (v' & E & _ & _ & _ & Hc).
  exists v'. split; [exact E|exact Hc].
Defined.
