(* ===== verification/Inodes.v ===== *)
(** Group descriptors (src/fs/ext4/block_grp.rs), inodes (src/fs/ext4/inode.rs) and
    the two caches of a mounted filesystem (the methods of [Ext4Fs] in
    src/fs/ext4/mod.rs that load them).

    Objects behind an [Arc] are cells of a heap: two references to one object are
    the same pointer.  A lock that is requested while the same thread holds it for
    writing is never obtained: the outcome is [NoFuel]. *)

From S2P Require Import Prelude Crc Partitions Ext4 Extents Vob Bitmap.

(** * Group descriptors *)

Record Ext4GroupDescriptor := {
  bg_block_bitmap_lo : Z; bg_inode_bitmap_lo : Z; bg_inode_table_lo : Z;
  bg_free_blocks_count_lo : Z; bg_free_inodes_count_lo : Z; bg_used_dirs_count_lo : Z; bg_flags : Z;
  bg_exclude_bitmap_lo : Z; bg_block_bitmap_csum_lo : Z; bg_inode_bitmap_csum_lo : Z;
  bg_itable_unused_lo : Z; bg_checksum : Z;
  bg_block_bitmap_hi : Z; bg_inode_bitmap_hi : Z; bg_inode_table_hi : Z;
  bg_free_blocks_count_hi : Z; bg_free_inodes_count_hi : Z; bg_used_dirs_count_hi : Z;
  bg_itable_unused_hi : Z; bg_exclude_bitmap_hi : Z; bg_block_bitmap_csum_hi : Z;
  bg_inode_bitmap_csum_hi : Z; bg_reserved : Z
}.
Definition desc_layout : list nat :=
  [4; 4; 4; 2; 2; 2; 2; 4; 2; 2; 2; 2; 4; 4; 4; 2; 2; 2; 2; 4; 2; 2; 4]%nat.
Definition desc_fields (d : Ext4GroupDescriptor) : list Z :=
  [bg_block_bitmap_lo d; bg_inode_bitmap_lo d; bg_inode_table_lo d; bg_free_blocks_count_lo d;
   bg_free_inodes_count_lo d; bg_used_dirs_count_lo d; bg_flags d; bg_exclude_bitmap_lo d;
   bg_block_bitmap_csum_lo d; bg_inode_bitmap_csum_lo d; bg_itable_unused_lo d; bg_checksum d;
   bg_block_bitmap_hi d; bg_inode_bitmap_hi d; bg_inode_table_hi d; bg_free_blocks_count_hi d;
   bg_free_inodes_count_hi d; bg_used_dirs_count_hi d; bg_itable_unused_hi d; bg_exclude_bitmap_hi d;
   bg_block_bitmap_csum_hi d; bg_inode_bitmap_csum_hi d; bg_reserved d].
Definition desc_of_fields (v : list Z) : Ext4GroupDescriptor := {|
  bg_block_bitmap_lo := v !!! 0%nat; bg_inode_bitmap_lo := v !!! 1%nat; bg_inode_table_lo := v !!! 2%nat;
  bg_free_blocks_count_lo := v !!! 3%nat; bg_free_inodes_count_lo := v !!! 4%nat;
  bg_used_dirs_count_lo := v !!! 5%nat; bg_flags := v !!! 6%nat; bg_exclude_bitmap_lo := v !!! 7%nat;
  bg_block_bitmap_csum_lo := v !!! 8%nat; bg_inode_bitmap_csum_lo := v !!! 9%nat;
  bg_itable_unused_lo := v !!! 10%nat; bg_checksum := v !!! 11%nat;
  bg_block_bitmap_hi := v !!! 12%nat; bg_inode_bitmap_hi := v !!! 13%nat; bg_inode_table_hi := v !!! 14%nat;
  bg_free_blocks_count_hi := v !!! 15%nat; bg_free_inodes_count_hi := v !!! 16%nat;
  bg_used_dirs_count_hi := v !!! 17%nat; bg_itable_unused_hi := v !!! 18%nat;
  bg_exclude_bitmap_hi := v !!! 19%nat; bg_block_bitmap_csum_hi := v !!! 20%nat;
  bg_inode_bitmap_csum_hi := v !!! 21%nat; bg_reserved := v !!! 22%nat |}.
(** [size_of::<Ext4GroupDescriptor>()]. *)
Definition DESC_SIZE : nat := 64.

Definition desc_set_chksum (d : Ext4GroupDescriptor) (chksum : Z) : Ext4GroupDescriptor :=
  desc_of_fields (<[11%nat := chksum]> (desc_fields d)).
Definition block_bitmap_blk_addr (d : Ext4GroupDescriptor) : Z :=
  add_high_bits (bg_block_bitmap_lo d) (bg_block_bitmap_hi d).
Definition inode_bitmap_blk_addr (d : Ext4GroupDescriptor) : Z :=
  add_high_bits (bg_inode_bitmap_lo d) (bg_inode_bitmap_hi d).
Definition inode_table_blk_addr (d : Ext4GroupDescriptor) : Z :=
  add_high_bits (bg_inode_table_lo d) (bg_inode_table_hi d).
Definition snapshot_excl_bitmap_blk_addr (d : Ext4GroupDescriptor) : Z :=
  add_high_bits (bg_exclude_bitmap_lo d) (bg_exclude_bitmap_hi d).
(** The counts are of two halves of 16 bits. *)
Definition halves16 (lo hi : Z) : Z := Z.lor lo (Z.shiftl hi 16).
Definition desc_free_blk_count (d : Ext4GroupDescriptor) : Z :=
  halves16 (bg_free_blocks_count_lo d) (bg_free_blocks_count_hi d).
Definition free_inode_count (d : Ext4GroupDescriptor) : Z :=
  halves16 (bg_free_inodes_count_lo d) (bg_free_inodes_count_hi d).
Definition directory_count (d : Ext4GroupDescriptor) : Z :=
  halves16 (bg_used_dirs_count_lo d) (bg_used_dirs_count_hi d).
Definition unused_inodes_count (d : Ext4GroupDescriptor) : Z :=
  halves16 (bg_itable_unused_lo d) (bg_itable_unused_hi d).

(** [BlockGroupNumber + u32] and [- u32] saturate. *)
Definition bg_add (g n : Z) : Z := Z.min (g + n) (2 ^ 32 - 1).
Definition bg_sub (g n : Z) : Z := Z.max (g - n) 0.

Record GroupDescriptor := {
  group_number : Z;
  block_bitmap : option Vob;
  inode_bitmap : option Vob;
  descriptor : Ext4GroupDescriptor
}.

Section descriptors.
Context `{SbLayout} (get_sata_drive : AtaDeviceIdentifier → option SataDevice).
Context (aligned4 : bool) (bytes_per_block : nat).

Definition desc_compute_chksum (d : GroupDescriptor) (fs_uuid : Z) : Z :=
  u16 (crc32c_calc (le_bytes 16 fs_uuid ++ le_bytes 4 (group_number d)
    ++ encode_fields desc_layout (desc_fields (desc_set_chksum (descriptor d) 0)))).
Definition desc_validate_chksum (fs : Ext4Fs) (d : GroupDescriptor) : bool :=
  bool_decide (desc_compute_chksum d (sb_get (fs_superblock fs) sb_uuid) = bg_checksum (descriptor d)).

(** [GroupDescriptor::load_descriptor]. *)
Definition load_descriptor (fs : Ext4Fs) (id : Z) : outcome (result GroupDescriptor IOError) :=
  let sb := fs_superblock fs in
  n ← bg_count sb;
  if bool_decide (n ≤ id) then Done (Err InvalidCommand)
  else
    let descriptor_size := if includes (sb_get sb sb_feature_incompat) EXT4_FEATURE_INCOMPAT_64BIT then 64 else 32 in
    let initial_blk_offset := if bool_decide (blk_size sb = Z.of_nat sb_size) then 2 else 1 in
    descriptor_per_block ← rust_div (blk_size sb) descriptor_size;
    q ← rust_div (u64 (id * descriptor_size)) (blk_size sb);
    let desc_blk_id := u64 (initial_blk_offset + q) in
    desc_idx_in_blk ← rust_rem id descriptor_per_block;
    r ← read_blk_from_device get_sata_drive fs desc_blk_id (length (allocate_blk fs));
    match r with
    | Err e => Done (Err e)
    | Ok desc_blk =>
        raw_bg_descriptor ← slice desc_blk (Z.to_nat (desc_idx_in_blk * descriptor_size))
                              (Z.to_nat ((desc_idx_in_blk + 1) * descriptor_size));
        ext4_descriptor ← from_bytes4 aligned4 (λ bs, desc_of_fields (decode_fields desc_layout bs))
                            (raw_bg_descriptor ++ replicate (DESC_SIZE - length raw_bg_descriptor) 0);
        Done (Ok {| group_number := id; block_bitmap := None; inode_bitmap := None; descriptor := ext4_descriptor |})
    end.

(** [load_blk_bitmap] and [load_inode_bitmap]: a failed read panics; the result of
    the checksum validation is not used. *)
Definition load_bitmap (fs : Ext4Fs) (addr per_group : Z) : outcome Vob :=
  r ← read_blk_from_device get_sata_drive fs addr (length (allocate_blk fs));
  match r with
  | Err _ => Panicked
  | Ok buf => bs ← slice buf 0 (Z.to_nat (per_group / 8)); bitmap_from_bytes bytes_per_block bs
  end.
Definition load_blk_bitmap (fs : Ext4Fs) (d : GroupDescriptor) : outcome GroupDescriptor :=
  bitmap ← load_bitmap fs (block_bitmap_blk_addr (descriptor d)) (sb_get (fs_superblock fs) sb_blocks_per_group);
  Done {| group_number := group_number d; block_bitmap := Some bitmap; inode_bitmap := inode_bitmap d;
          descriptor := descriptor d |}.
Definition load_inode_bitmap (fs : Ext4Fs) (d : GroupDescriptor) : outcome GroupDescriptor :=
  bitmap ← load_bitmap fs (inode_bitmap_blk_addr (descriptor d)) (sb_get (fs_superblock fs) sb_inodes_per_group);
  Done {| group_number := group_number d; block_bitmap := block_bitmap d; inode_bitmap := Some bitmap;
          descriptor := descriptor d |}.
Definition get_or_load_inode_bitmap (fs : Ext4Fs) (d : GroupDescriptor) : outcome (Vob * GroupDescriptor) :=
  match inode_bitmap d with
  | Some b => Done (b, d)
  | None => d ← load_inode_bitmap fs d; b ← unwrap (inode_bitmap d); Done (b, d)
  end.
Definition get_or_load_blk_bitmap (fs : Ext4Fs) (d : GroupDescriptor) : outcome (Vob * GroupDescriptor) :=
  match block_bitmap d with
  | Some b => Done (b, d)
  | None => d ← load_blk_bitmap fs d; b ← unwrap (block_bitmap d); Done (b, d)
  end.
End descriptors.

(** * Inodes *)

(** The fields before and after the block map of an inode, with their widths. *)
Definition inode_layout_lo : list nat := [2; 2; 4; 4; 4; 4; 4; 2; 2; 4; 4; 4]%nat.
Definition inode_layout_hi : list nat := [4; 4; 4; 4; 2; 2; 2; 2; 2; 2; 2; 2; 4; 4; 4; 4; 4; 4; 4]%nat.
Definition inode_fields_lo (i : Ext4Inode) : list Z :=
  [i_mode i; i_uid i; i_size_lo i; i_atime i; i_ctime i; i_mtime i; i_dtime i; i_gid i; i_links_count i;
   i_blocks_lo i; i_flags i; i_version i].
Definition inode_fields_hi (i : Ext4Inode) : list Z :=
  [i_generation i; i_file_acl_lo i; i_size_hi i; i_faddr i; i_blocks_high i; i_file_acl_high i; i_uid_high i;
   i_gid_high i; i_checksum_lo i; i_reserved i; i_extra_isize i; i_checksum_hi i; i_ctime_extra i;
   i_mtime_extra i; i_atime_extra i; i_crtime i; i_crtime_extra i; i_version_hi i; i_projid i].
Definition inode_of_fields (lo : list Z) (blk : list Z) (hi : list Z) : Ext4Inode := {|
  i_mode := lo !!! 0%nat; i_uid := lo !!! 1%nat; i_size_lo := lo !!! 2%nat; i_atime := lo !!! 3%nat;
  i_ctime := lo !!! 4%nat; i_mtime := lo !!! 5%nat; i_dtime := lo !!! 6%nat; i_gid := lo !!! 7%nat;
  i_links_count := lo !!! 8%nat; i_blocks_lo := lo !!! 9%nat; i_flags := lo !!! 10%nat; i_version := lo !!! 11%nat;
  i_block := blk;
  i_generation := hi !!! 0%nat; i_file_acl_lo := hi !!! 1%nat; i_size_hi := hi !!! 2%nat; i_faddr := hi !!! 3%nat;
  i_blocks_high := hi !!! 4%nat; i_file_acl_high := hi !!! 5%nat; i_uid_high := hi !!! 6%nat;
  i_gid_high := hi !!! 7%nat; i_checksum_lo := hi !!! 8%nat; i_reserved := hi !!! 9%nat;
  i_extra_isize := hi !!! 10%nat; i_checksum_hi := hi !!! 11%nat; i_ctime_extra := hi !!! 12%nat;
  i_mtime_extra := hi !!! 13%nat; i_atime_extra := hi !!! 14%nat; i_crtime := hi !!! 15%nat;
  i_crtime_extra := hi !!! 16%nat; i_version_hi := hi !!! 17%nat; i_projid := hi !!! 18%nat |}.
(** [size_of::<Ext4Inode>()], [bytes_of] and [from_bytes]. *)
Definition INODE_STRUCT_SIZE : nat := 160.
Definition inode_bytes (i : Ext4Inode) : list Z :=
  encode_fields inode_layout_lo (inode_fields_lo i) ++ i_block i
  ++ encode_fields inode_layout_hi (inode_fields_hi i).
Definition inode_of_bytes (bs : list Z) : Ext4Inode :=
  inode_of_fields (decode_fields inode_layout_lo bs) (take 60 (drop 40 bs)) (decode_fields inode_layout_hi (drop 100 bs)).

(** File modes. *)
Definition S_IFSOCK : Z := 0xC000.
Definition S_IFLNK : Z := 0xA000.
Definition S_IFBLK : Z := 0x6000.
Definition S_IFDIR : Z := 0x4000.
Definition S_IFCHR : Z := 0x2000.
Definition S_IFIFO : Z := 0x1000.
Definition S_IXOTH : Z := 0x0001.
Definition S_IWOTH : Z := 0x0002.
Definition S_IROTH : Z := 0x0003.
Definition S_IXGRP : Z := 0x0008.
Definition S_IWGRP : Z := 0x0010.
Definition S_IRGRP : Z := 0x0020.
Definition S_IXUSR : Z := 0x0040.
Definition S_IWUSR : Z := 0x0080.
Definition S_IRUSR : Z := 0x0100.
Definition LOW12 : Z := 0xFFF.

Inductive InodeType := Regular | Directory | FIFO | CharacterDevice | BlockDevice | SymbolicLink | Socket.
#[global] Instance InodeType_eq_dec : EqDecision InodeType.
Proof. solve_decision. Defined.
(** [InodeType::from(InodeFileMode)]. *)
Definition InodeType_from (mode : Z) : InodeType :=
  let file_type := Z.land mode LOW12 in
  if bool_decide (file_type = S_IFSOCK) then Socket
  else if bool_decide (file_type = S_IFLNK) then SymbolicLink
  else if bool_decide (file_type = S_IFCHR) then CharacterDevice
  else if bool_decide (file_type = S_IFBLK) then BlockDevice
  else if bool_decide (file_type = S_IFIFO) then FIFO
  else if bool_decide (file_type = S_IFDIR) then Directory
  else Regular.
Definition inode_type (i : Ext4Inode) : InodeType := InodeType_from (i_mode i).
Definition mode_has (mode flag : Z) : bool := bool_decide (Z.land mode flag ≠ 0).
(** [BitOr] and [BitOrAssign] of [InodeFileMode]. *)
Definition mode_bitor (self rhs : Z) : Z :=
  let file_mode_part_self := Z.land self LOW12 in
  let file_mode_part_rhs := Z.land rhs LOW12 in
  let final_file_mode := Z.lor file_mode_part_rhs file_mode_part_self in
  Z.lor final_file_mode (Z.land file_mode_part_self (not_w 16 LOW12)).
(** [Display] of [InodeFileMode]: one character per permission. *)
Definition mode_string (mode : Z) : list bool :=
  mode_has mode <$> [S_IRUSR; S_IWUSR; S_IXUSR; S_IRGRP; S_IWGRP; S_IXGRP; S_IROTH; S_IWOTH; S_IXOTH].

(** Accessors that join two halves. *)
Definition halves32 (lo hi : Z) : Z := Z.lor lo (Z.shiftl hi 32).
Definition inode_blk_count (i : Ext4Inode) : Z := halves32 (i_blocks_lo i) (i_blocks_high i).
Definition inode_uid (i : Ext4Inode) : Z := halves16 (i_uid i) (i_uid_high i).
Definition inode_gid (i : Ext4Inode) : Z := halves16 (i_gid i) (i_gid_high i).
Definition inode_chksum (i : Ext4Inode) : Z := halves16 (i_checksum_lo i) (i_checksum_hi i).
Definition change_time (i : Ext4Inode) : Z := halves32 (i_ctime i) (i_ctime_extra i).
Definition access_time (i : Ext4Inode) : Z := halves32 (i_atime i) (i_atime_extra i).
Definition modification_time (i : Ext4Inode) : Z := halves32 (i_mtime i) (i_mtime_extra i).
Definition creation_time (i : Ext4Inode) : Z := halves32 (i_crtime i) (i_crtime_extra i).
Definition deletion_time (i : Ext4Inode) : Z := i_dtime i.
Definition has_flag (i : Ext4Inode) (flag : Z) : bool := bool_decide (Z.land (i_flags i) flag ≠ 0).
(** [InodeSize + u64] and [- u64] saturate. *)
Definition size_add (s n : Z) : Z := Z.min (s + n) (2 ^ 64 - 1).
Definition size_sub (s n : Z) : Z := Z.max (s - n) 0.

(** Updates of one field of an inode, by its place. *)
Definition set_lo (i : Ext4Inode) (k : nat) (v : Z) : Ext4Inode :=
  inode_of_fields (<[k := v]> (inode_fields_lo i)) (i_block i) (inode_fields_hi i).
Definition set_hi (i : Ext4Inode) (k : nat) (v : Z) : Ext4Inode :=
  inode_of_fields (inode_fields_lo i) (i_block i) (<[k := v]> (inode_fields_hi i)).
Definition set_blk_count (i : Ext4Inode) (n : Z) : Ext4Inode :=
  let i := set_lo i 9 (Z.land n 0xffffffff) in
  set_hi i 4 (Z.land (Z.shiftr n 32) 0xffff).
Definition set_size (i : Ext4Inode) (n : Z) : Ext4Inode :=
  let i := set_lo i 2 (Z.land n 0xffffffff) in
  set_hi i 2 (Z.land (Z.shiftr n 32) 0xffffffff).
(** [set_chksum]: the high half only when the inode has extra space. *)
Definition set_chksum (i : Ext4Inode) (chksum : Z) : Ext4Inode :=
  let i := set_hi i 8 (Z.land chksum 0xffff) in
  if bool_decide (i_extra_isize i ≠ 0) then set_hi i 11 (Z.land (Z.shiftr chksum 16) 0xffff) else i.

(** [compute_chksum]: [i_extra_isize + 0x80] saturates; a size past the structure
    panics. *)
Definition inode_compute_chksum (i : Ext4Inode) (fs_uuid inode_id : Z) : outcome Z :=
  bs ← slice (inode_bytes (set_chksum i 0)) 0 (Z.to_nat (Z.min (i_extra_isize i + 0x80) 65535));
  Done (crc32c_calc (le_bytes 16 fs_uuid ++ le_bytes 4 inode_id ++ le_bytes 4 (i_generation i) ++ bs)).
Definition inode_validate_chksum (fs_uuid : Z) (i : Inode) : outcome bool :=
  let on_disk_chksum := inode_chksum (ext4_inode i) in
  comp_chksum ← inode_compute_chksum (ext4_inode i) fs_uuid (inode_number i);
  Done (if bool_decide (i_extra_isize (ext4_inode i) = 0)
        then bool_decide (Z.land comp_chksum 0xffff = Z.land on_disk_chksum 0xffff)
        else bool_decide (comp_chksum = on_disk_chksum)).
Definition update_chksum (fs_uuid : Z) (i : Inode) : outcome Inode :=
  new_chksum ← inode_compute_chksum (ext4_inode i) fs_uuid (inode_number i);
  Done {| inode_number := inode_number i; ext4_inode := set_chksum (ext4_inode i) new_chksum |}.

(** * The caches of a filesystem *)

Record GroupDescriptorCacheEntry := { ge_desc : nat; ge_usage_count : Z; ge_first_access : Z }.
Inductive InodeCacheEntryState := Valid | MustClear.
#[global] Instance InodeCacheEntryState_eq_dec : EqDecision InodeCacheEntryState.
Proof. solve_decision. Defined.
Inductive InodeCacheRemovalPolicy := Immediate | BatchRemoval.
Record InodeCacheEntry := { ie_inode : nat; ie_usage_count : Z; ie_entry_state : InodeCacheEntryState }.
(** A [RwLock<Inode>] with its [cache] flag and the number of its strong references. *)
Record InodeCell := { cell_inode : Inode; cell_cache : bool; cell_strong : nat }.

Record Ext4State := {
  st_fs : Ext4Fs;
  desc_heap : gmap nat GroupDescriptor;
  desc_write_locked : gset nat;
  descriptor_table : gmap Z GroupDescriptorCacheEntry;
  inode_heap : gmap nat InodeCell;
  hashtable : gmap Z InodeCacheEntry;
  removal_policy : InodeCacheRemovalPolicy
}.
Definition with_descs (s : Ext4State) h t : Ext4State := {|
  st_fs := st_fs s; desc_heap := h; desc_write_locked := desc_write_locked s; descriptor_table := t;
  inode_heap := inode_heap s; hashtable := hashtable s; removal_policy := removal_policy s |}.
Definition with_locks (s : Ext4State) l : Ext4State := {|
  st_fs := st_fs s; desc_heap := desc_heap s; desc_write_locked := l; descriptor_table := descriptor_table s;
  inode_heap := inode_heap s; hashtable := hashtable s; removal_policy := removal_policy s |}.
Definition with_inodes (s : Ext4State) h t : Ext4State := {|
  st_fs := st_fs s; desc_heap := desc_heap s; desc_write_locked := desc_write_locked s;
  descriptor_table := descriptor_table s; inode_heap := h; hashtable := t; removal_policy := removal_policy s |}.
(** The caches [mount] creates. *)
Definition mounted (fs : Ext4Fs) : Ext4State := {|
  st_fs := fs; desc_heap := ∅; desc_write_locked := ∅; descriptor_table := ∅; inode_heap := ∅; hashtable := ∅;
  removal_policy := Immediate |}.

(** [Arc::clone] and the drop of a strong reference, which frees the last one. *)
Definition acquire (p : nat) (h : gmap nat InodeCell) : gmap nat InodeCell :=
  alter (λ c, {| cell_inode := cell_inode c; cell_cache := cell_cache c; cell_strong := S (cell_strong c) |}) p h.
Definition release (p : nat) (h : gmap nat InodeCell) : gmap nat InodeCell :=
  match h !! p with
  | Some c => if bool_decide (cell_strong c ≤ 1)%nat then delete p h
              else <[p := {| cell_inode := cell_inode c; cell_cache := cell_cache c;
                             cell_strong := cell_strong c - 1 |}]> h
  | None => h
  end.
Definition release_all (ps : list nat) (h : gmap nat InodeCell) : gmap nat InodeCell := foldr release h ps.

Section caches.
Context `{SbLayout} (get_sata_drive : AtaDeviceIdentifier → option SataDevice).
Context (aligned4 : bool) (bytes_per_block : nat) (current_timestamp : Z).

(** [load_cached_group_descriptor_or_insert], which is [Ext4Fs::get_group_descriptor]. *)
Definition get_group_descriptor (bg_number : Z) (s : Ext4State) : outcome (option nat * Ext4State) :=
  match descriptor_table s !! bg_number with
  | Some e =>
      let e' := {| ge_desc := ge_desc e; ge_usage_count := u32 (ge_usage_count e + 1);
                   ge_first_access := ge_first_access e |} in
      Done (Some (ge_desc e), with_descs s (desc_heap s) (<[bg_number := e']> (descriptor_table s)))
  | None =>
      r ← load_descriptor get_sata_drive aligned4 (st_fs s) bg_number;
      match r with
      | Err _ => Done (None, s)
      | Ok d =>
          let p := fresh (dom (desc_heap s)) in
          let e := {| ge_desc := p; ge_usage_count := 0; ge_first_access := current_timestamp |} in
          Done (Some p, with_descs s (<[p := d]> (desc_heap s)) (<[bg_number := e]> (descriptor_table s)))
      end
  end.
Definition desc_flush_cache (s : Ext4State) : Ext4State := with_descs s (desc_heap s) ∅.

(** The part of [load_inode_from_raw] after the descriptor was found. *)
Definition read_inode (fs : Ext4Fs) (d : Ext4GroupDescriptor) (inode_id blk_offset bytes_offset : Z)
    : outcome (result Inode IOError) :=
  let sb := fs_superblock fs in
  r ← read_blk_from_device get_sata_drive fs (Z.min (inode_table_blk_addr d + blk_offset) (2 ^ 64 - 1))
        (length (allocate_blk fs));
  match r with
  | Err e => Done (Err e)
  | Ok blk =>
      raw_inode ← slice blk (Z.to_nat bytes_offset) (Z.to_nat (u64 (bytes_offset + sb_get sb sb_inode_size)));
      rust_assert (bool_decide (length raw_inode ≤ INODE_STRUCT_SIZE)%nat);;
      i ← from_bytes4 aligned4 inode_of_bytes (raw_inode ++ replicate (INODE_STRUCT_SIZE - length raw_inode) 0);
      let inode := {| inode_number := inode_id; ext4_inode := i |} in
      inode_validate_chksum (sb_get sb sb_uuid) inode;;
      Done (Ok inode)
  end.
(** [load_inode_from_raw]: the read lock of the descriptor is not obtained while it
    is held for writing. *)
Definition load_inode_from_raw (inode_id : Z) (s : Ext4State) : outcome (result Inode IOError * Ext4State) :=
  let sb := fs_superblock (st_fs s) in
  '(inode_bg, blk_offset, bytes_offset) ← get_inode_entry_pos sb inode_id;
  '(o, s) ← get_group_descriptor inode_bg s;
  match o with
  | None => Done (Err IOUnknown, s)
  | Some p =>
      d ← deref (desc_heap s !! p);
      if bool_decide (p ∈ desc_write_locked s) then NoFuel
      else r ← read_inode (st_fs s) (descriptor d) inode_id blk_offset bytes_offset; Done (r, s)
  end.
(** [load_cached_inode_or_insert]: the reference it returns is not counted yet. *)
Definition load_cached_inode_or_insert (inode_id : Z) (s : Ext4State) : outcome (option nat * Ext4State) :=
  match hashtable s !! inode_id with
  | Some e =>
      let e' := {| ie_inode := ie_inode e; ie_usage_count := u32 (ie_usage_count e + 1);
                   ie_entry_state := ie_entry_state e |} in
      Done (Some (ie_inode e), with_inodes s (inode_heap s) (<[inode_id := e']> (hashtable s)))
  | None =>
      '(r, s) ← load_inode_from_raw inode_id s;
      match r with
      | Err _ => Done (None, s)
      | Ok inode =>
          let p := fresh (dom (inode_heap s)) in
          let c := {| cell_inode := inode; cell_cache := false; cell_strong := 1 |} in
          let e := {| ie_inode := p; ie_usage_count := 0; ie_entry_state := Valid |} in
          Done (Some p, with_inodes s (<[p := c]> (inode_heap s)) (<[inode_id := e]> (hashtable s)))
      end
  end.
(** [get_inode]: a weak reference.  [get_inode_strong]: a strong one. *)
Definition get_inode := load_cached_inode_or_insert.
Definition get_inode_strong (inode_id : Z) (s : Ext4State) : outcome (option nat * Ext4State) :=
  '(o, s) ← load_cached_inode_or_insert inode_id s;
  match o with
  | Some p => Done (Some p, with_inodes s (acquire p (inode_heap s)) (hashtable s))
  | None => Done (None, s)
  end.
(** [get_inode_checked]: the descriptor stays locked for writing until the end. *)
Definition get_inode_checked (inode_id : Z) (s : Ext4State) : outcome (option nat * Ext4State) :=
  let sb := fs_superblock (st_fs s) in
  inode_bg ← get_inode_blk_group sb inode_id;
  invalid ← (if bool_decide (sb_get sb sb_inodes_count < inode_id) then Done true
             else n ← bg_count sb; Done (bool_decide (n < inode_bg)));
  if (invalid : bool) then Done (None, s)
  else
    '(o, s) ← get_group_descriptor inode_bg s;
    match o with
    | None => Done (None, s)
    | Some p =>
        if bool_decide (p ∈ desc_write_locked s) then NoFuel
        else
          d ← deref (desc_heap s !! p);
          let locked := with_locks s ({[p]} ∪ desc_write_locked s) in
          '(bitmap, d) ← get_or_load_inode_bitmap get_sata_drive bytes_per_block (st_fs s) d;
          let locked := with_descs locked (<[p := d]> (desc_heap locked)) (descriptor_table locked) in
          u ← in_use bytes_per_block bitmap inode_id;
          if negb u then Done (None, with_locks locked (desc_write_locked s))
          else
            '(o, s') ← load_cached_inode_or_insert inode_id locked;
            Done (o, with_locks s' (desc_write_locked s))
    end.

(** ** Removal *)

Definition mark_clear (e : InodeCacheEntry) : InodeCacheEntry :=
  {| ie_inode := ie_inode e; ie_usage_count := ie_usage_count e; ie_entry_state := MustClear |}.
Definition remove_entry (inode_id : Z) (s : Ext4State) : Ext4State :=
  match removal_policy s with
  | Immediate =>
      match hashtable s !! inode_id with
      | None => s
      | Some e =>
          let h :=
            match inode_heap s !! ie_inode e with
            | Some c => if bool_decide (1 < cell_strong c)%nat
                        then <[ie_inode e := {| cell_inode := cell_inode c; cell_cache := false;
                                                cell_strong := cell_strong c |}]> (inode_heap s)
                        else inode_heap s
            | None => inode_heap s
            end in
          with_inodes s (release (ie_inode e) h) (delete inode_id (hashtable s))
      end
  | BatchRemoval => with_inodes s (inode_heap s) (alter mark_clear inode_id (hashtable s))
  end.
Definition delayed_entry_removal (inode_id : Z) (s : Ext4State) : Ext4State :=
  with_inodes s (inode_heap s) (alter mark_clear inode_id (hashtable s)).
Definition flush_cache (s : Ext4State) : Ext4State :=
  with_inodes s (release_all ((λ '(_, e), ie_inode e) <$> map_to_list (hashtable s)) (inode_heap s)) ∅.
Definition flush_invalid_cache_entries (s : Ext4State) : Ext4State :=
  let gone := filter (λ '(_, e), ie_entry_state e = MustClear) (hashtable s) in
  with_inodes s (release_all ((λ '(_, e), ie_inode e) <$> map_to_list gone) (inode_heap s))
    (filter (λ '(_, e), ie_entry_state e ≠ MustClear) (hashtable s)).
End caches.

(** * Structures and their bytes *)

Definition inode_fits (i : Ext4Inode) : Prop :=
  fields_fit inode_layout_lo (inode_fields_lo i) ∧ length (i_block i) = 60%nat
  ∧ fields_fit inode_layout_hi (inode_fields_hi i).
#[global] Instance inode_fits_dec i : Decision (inode_fits i).
Proof. unfold inode_fits. apply _. Defined.

Lemma inode_of_its_fields i : inode_of_fields (inode_fields_lo i) (i_block i) (inode_fields_hi i) = i.
Proof. by destruct i. Qed.
Lemma length_inode_bytes i : length (i_block i) = 60%nat → length (inode_bytes i) = INODE_STRUCT_SIZE.
Proof. intros Hb. unfold inode_bytes. by rewrite !length_app, !length_encode_fields, Hb. Qed.
Lemma inode_of_inode_bytes i rest : inode_fits i → inode_of_bytes (inode_bytes i ++ rest) = i.
Proof.
  intros (Hlo & Hb & Hhi). unfold inode_of_bytes, inode_bytes. rewrite <-!app_assoc.
  rewrite decode_encode_fields by done.
  rewrite drop_app_ge, length_encode_fields by (rewrite ?length_encode_fields by done; simpl; lia).
  change (40 - sum_list inode_layout_lo)%nat with 0%nat. rewrite drop_0.
  rewrite take_app_le, take_ge by lia.
  rewrite drop_app_ge, length_encode_fields by (rewrite ?length_encode_fields by done; simpl; lia).
  change (100 - sum_list inode_layout_lo)%nat with 60%nat.
  rewrite drop_app_ge, Hb by lia. change (60 - 60)%nat with 0%nat. rewrite drop_0, decode_encode_fields by done.
  apply inode_of_its_fields.
Qed.
Lemma desc_of_desc_bytes d rest : fields_fit desc_layout (desc_fields d) →
  desc_of_fields (decode_fields desc_layout (encode_fields desc_layout (desc_fields d) ++ rest)) = d.
Proof. intros. rewrite decode_encode_fields by done. by destruct d. Qed.

Lemma land_ones_mod z n : 0 ≤ n → Z.land z (Z.ones n) = z mod 2 ^ n.
Proof. intros. by rewrite Z.land_ones. Qed.
(** The two halves of a word join again. *)
Lemma halves_join n z : 0 ≤ n → 0 ≤ z → Z.lor (z mod 2 ^ n) (Z.shiftl (Z.shiftr z n) n) = z.
Proof.
  intros Hn Hz. apply Z.bits_inj'. intros i Hi. rewrite Z.lor_spec. destruct (decide (i < n)).
  - rewrite Z.mod_pow2_bits_low, Z.shiftl_spec_low by lia. apply orb_false_r.
  - rewrite Z.mod_pow2_bits_high, Z.shiftl_spec_high, Z.shiftr_spec by lia. simpl. f_equal. lia.
Qed.

(** The structures of an inode and of a group descriptor round-trip through
    their bytes, whatever follows them; what [set_size] and [set_blk_count] store is
    what the accessors return (of a block count, the low 48 bits the structure
    has). *)
Theorem ext4_structs_roundtrip i d rest : inode_fits i → fields_fit desc_layout (desc_fields d) →
  inode_of_bytes (inode_bytes i ++ rest) = i ∧ length (inode_bytes i) = INODE_STRUCT_SIZE
  ∧ desc_of_fields (decode_fields desc_layout (encode_fields desc_layout (desc_fields d) ++ rest)) = d
  ∧ length (encode_fields desc_layout (desc_fields d)) = DESC_SIZE
  ∧ (∀ n z, 0 ≤ z < 2 ^ 64 → inode_size {| inode_number := n; ext4_inode := set_size i z |} = z)
  ∧ ∀ z, 0 ≤ z < 2 ^ 64 → inode_blk_count (set_blk_count i z) = z mod 2 ^ 48.
Proof.
  intros Hi Hd. split; [by apply inode_of_inode_bytes|]. split; [apply length_inode_bytes, Hi|].
  split; [by apply desc_of_desc_bytes|]. split; [by rewrite length_encode_fields|]. split.
  - intros n z Hz. unfold inode_size, set_size. cbn.
    change 4294967295 with (Z.ones 32). rewrite !land_ones_mod by done.
    rewrite (Z.mod_small (Z.shiftr z 32)); [apply halves_join; lia|].
    rewrite Z.shiftr_div_pow2 by done. split; [apply Z.div_pos; lia|]. apply Z.div_lt_upper_bound; lia.
  - intros z Hz. unfold inode_blk_count, set_blk_count, halves32. cbn.
    change 4294967295 with (Z.ones 32). change 65535 with (Z.ones 16). rewrite !land_ones_mod by done.
    apply Z.bits_inj'. intros k Hk. rewrite Z.lor_spec. destruct (decide (k < 32)).
    + rewrite Z.shiftl_spec_low, orb_false_r by lia. by rewrite !Z.mod_pow2_bits_low by lia.
    + rewrite Z.mod_pow2_bits_high, Z.shiftl_spec_high, orb_false_l by lia. destruct (decide (k < 48)).
      * rewrite !Z.mod_pow2_bits_low, Z.shiftr_spec by lia. f_equal. lia.
      * by rewrite !Z.mod_pow2_bits_high by lia.
Qed.

(** Types and permissions of an inode.  [InodeType::from] keeps the low twelve
    bits of the mode instead of the four type bits, so that every inode is
    reported as a regular file; [|] on modes loses the type; the permission to
    read for others is tested with the bits to write or execute. *)
Theorem inode_type_is_regular mode rhs : 0 ≤ mode < 2 ^ 16 → 0 ≤ rhs < 2 ^ 16 →
  InodeType_from mode = Regular
  ∧ mode_bitor mode rhs = Z.land (Z.lor mode rhs) LOW12
  ∧ mode_has mode S_IROTH = mode_has mode S_IWOTH || mode_has mode S_IXOTH.
Proof.
  intros Hm Hr.
  assert (Hlow : ∀ z, 0 ≤ Z.land z LOW12 < 4096).
  { intros z. change LOW12 with (Z.ones 12). rewrite land_ones_mod by done. by apply Z.mod_pos_bound. }
  split; [|split].
  - unfold InodeType_from. specialize (Hlow mode). rewrite !bool_decide_false; [done|..]; intros E; rewrite E in Hlow;
      unfold S_IFSOCK, S_IFLNK, S_IFCHR, S_IFBLK, S_IFIFO, S_IFDIR in Hlow; lia.
  - unfold mode_bitor. apply Z.bits_inj'. intros k Hk. rewrite !Z.lor_spec, !Z.land_spec, Z.lor_spec.
    destruct (decide (k < 16)) as [Hk16|Hk16].
    + rewrite testbit_not_w by lia. destruct (Z.testbit mode k), (Z.testbit rhs k), (Z.testbit LOW12 k); done.
    + rewrite (testbit_above 16 mode), (testbit_above 16 rhs) by (done || lia). done.
  - unfold mode_has, S_IROTH, S_IWOTH, S_IXOTH.
    assert (H3 : Z.land mode 3 = Z.lor (Z.land mode 2) (Z.land mode 1)) by (by rewrite <-Z.land_lor_distr_r).
    rewrite H3, <-bool_decide_or. apply bool_decide_ext. rewrite Z.lor_eq_0_iff.
    destruct (decide (Z.land mode 2 = 0)), (decide (Z.land mode 1 = 0)); tauto.
Qed.

Lemma set_chksum_set_chksum i c c' : set_chksum (set_chksum i c) c' = set_chksum i c'.
Proof.
  assert (Hd : bool_decide (i_extra_isize i ≠ 0) = true ∨ bool_decide (i_extra_isize i ≠ 0) = false)
    by (destruct (bool_decide _); auto).
  unfold set_chksum, set_hi. destruct Hd as [E|E]; repeat (progress cbn; rewrite ?E); done.
Qed.
Lemma set_chksum_fields i c : i_extra_isize (set_chksum i c) = i_extra_isize i
  ∧ i_generation (set_chksum i c) = i_generation i ∧ i_block (set_chksum i c) = i_block i
  ∧ i_checksum_lo (set_chksum i c) = c mod 2 ^ 16
  ∧ (i_extra_isize i ≠ 0 → i_checksum_hi (set_chksum i c) = Z.shiftr c 16 mod 2 ^ 16).
Proof.
  unfold set_chksum, set_hi. change 65535 with (Z.ones 16). rewrite !land_ones_mod by done.
  destruct i. cbn. case_bool_decide; cbn; repeat split; done.
Qed.

(** An inode whose checksum was just updated passes the validation, whatever
    its other fields, when its declared size is that of the structure at most. *)
Theorem update_then_validate fs_uuid i : inode_fits (ext4_inode i) → i_extra_isize (ext4_inode i) ≤ 32 →
  ∃ i', update_chksum fs_uuid i = Done i' ∧ inode_validate_chksum fs_uuid i' = Done true
  ∧ inode_number i' = inode_number i ∧ i_block (ext4_inode i') = i_block (ext4_inode i).
Proof.
  destruct i as [n i]. cbn [ext4_inode inode_number]. intros Hfit Hx.
  assert (Hc : ∃ c, inode_compute_chksum i fs_uuid n = Done c ∧ in_width 32 c).
  { unfold inode_compute_chksum, slice. rewrite length_inode_bytes.
    - rewrite bool_decide_true by (unfold INODE_STRUCT_SIZE; lia). eexists. split; [done|]. apply crc32c_range.
    - destruct (set_chksum_fields i 0) as (_ & _ & -> & _). apply Hfit. }
  destruct Hc as (c & Hc & Hcw). unfold update_chksum. cbn [ext4_inode inode_number]. rewrite Hc. cbn [mbind outcome_bind].
  eexists. split; [done|]. cbn [ext4_inode inode_number].
  destruct (set_chksum_fields i c) as (Ex & Eg & Eb & El & Eh). split; [|done].
  unfold inode_validate_chksum. cbn [ext4_inode inode_number].
  assert (Hc' : inode_compute_chksum (set_chksum i c) fs_uuid n = Done c).
  { unfold inode_compute_chksum in *. by rewrite set_chksum_set_chksum, Ex, Eg. }
  rewrite Hc'. cbn [mbind outcome_bind]. f_equal. unfold inode_chksum, halves16. rewrite Ex, El.
  case_bool_decide as E0; apply bool_decide_true.
  - change 65535 with (Z.ones 16). rewrite !land_ones_mod by done. apply Z.bits_inj'. intros k Hk.
    destruct (decide (k < 16)); [|by rewrite !Z.mod_pow2_bits_high by lia].
    rewrite !Z.mod_pow2_bits_low, Z.lor_spec, Z.shiftl_spec_low, Z.mod_pow2_bits_low by lia. by rewrite orb_false_r.
  - rewrite Eh by done. rewrite (Z.mod_small (Z.shiftr c 16)); [symmetry; apply halves_join; [done|apply Hcw]|].
    unfold in_width in Hcw. rewrite Z.shiftr_div_pow2 by done. split; [apply Z.div_pos; lia|]. apply Z.div_lt_upper_bound; lia.
Qed.

(** * Finding a group descriptor *)

Section finding.
Context `{SbLayout} (get_sata_drive : AtaDeviceIdentifier → option SataDevice).

(** The size of a descriptor on disk, how many a block holds, and the first block
    of their table. *)
Definition desc_disk_size (sb : Superblock) : Z :=
  if includes (sb_get sb sb_feature_incompat) EXT4_FEATURE_INCOMPAT_64BIT then 64 else 32.
Definition descs_per_block (sb : Superblock) : Z := blk_size sb / desc_disk_size sb.
Definition desc_table_start (sb : Superblock) : Z := if bool_decide (blk_size sb = Z.of_nat sb_size) then 2 else 1.
(** The descriptor in a slot of a block: its first bytes, the rest being zeros. *)
Definition desc_in_slot (sb : Superblock) (blk : list Z) (slot : Z) (d : Ext4GroupDescriptor) : Prop :=
  let n := Z.to_nat (desc_disk_size sb) in
  fields_fit desc_layout (desc_fields d)
  ∧ take n (drop (Z.to_nat slot * n) blk) ++ replicate (DESC_SIZE - n) 0 = encode_fields desc_layout (desc_fields d).

Lemma desc_size_cases sb : desc_disk_size sb = 64 ∨ desc_disk_size sb = 32.
Proof. unfold desc_disk_size. destruct (includes _ _); auto. Qed.
Lemma desc_geometry sb : length sb = sb_size → Forall byte sb → sb_get sb sb_log_block_size < 54 →
  0 < descs_per_block sb ∧ blk_size sb = descs_per_block sb * desc_disk_size sb ∧ 0 < blk_size sb < 2 ^ 64.
Proof.
  intros Hl Hb Hs. pose proof (blk_size_pow2 sb Hl Hb Hs) as Hbs. pose proof (sb_get_width sb sb_log_block_size Hl Hb) as [Hp _].
  assert (Hd : (desc_disk_size sb | blk_size sb)).
  { rewrite Hbs, Z.pow_add_r by lia. destruct (desc_size_cases sb) as [-> | ->].
    - exists (16 * 2 ^ sb_get sb sb_log_block_size). lia.
    - exists (32 * 2 ^ sb_get sb sb_log_block_size). lia. }
  assert (0 < blk_size sb < 2 ^ 64) by (rewrite Hbs; split; [apply pow2_pos; lia|apply Z.pow_lt_mono_r; lia]).
  destruct Hd as [k Hk]. unfold descs_per_block. assert (0 < desc_disk_size sb) by (destruct (desc_size_cases sb); lia).
  rewrite Hk, Z.div_mul by lia. split; [nia|]. split; [done|]. rewrite <-Hk. lia.
Qed.

(** [load_descriptor] returns the descriptor of the group it is asked for: for a
    group below the count, it reads the block of the descriptor table that holds
    the group's slot and decodes that slot, with 32 or 64 bytes per descriptor
    after the 64-bit feature; nothing overflows or is read out of range.  For any
    other group the error is [InvalidCommand]. *)
Theorem load_descriptor_correct fs id n blk d : let sb := fs_superblock fs in
  length sb = sb_size → Forall byte sb → sb_get sb sb_log_block_size < 54 →
  bg_count sb = Done n → 0 ≤ id → 
  (id < n → read_blk_from_device get_sata_drive fs (desc_table_start sb + id / descs_per_block sb)
              (Z.to_nat (blk_size sb)) = Done (Ok blk)
            ∧ desc_in_slot sb blk (id mod descs_per_block sb) d) →
  load_descriptor get_sata_drive true fs id
  = Done (if bool_decide (id < n)
          then Ok {| group_number := id; block_bitmap := None; inode_bitmap := None; descriptor := d |}
          else Err InvalidCommand).
Proof.
  intros sb Hl Hb Hs Hn Hid Hslot. unfold load_descriptor. fold sb. rewrite Hn. cbn [mbind outcome_bind].
  destruct (decide (id < n)) as [Hlt|Hlt]; [|by rewrite (bool_decide_false _ Hlt), (bool_decide_true (n ≤ id)) by lia].
  rewrite (bool_decide_true _ Hlt), (bool_decide_false (n ≤ id)) by lia.
  destruct (Hslot ltac:(lia)) as (Hread & Hfit & Henc). clear Hslot.
  destruct (desc_geometry sb Hl Hb Hs) as (Hper & Hbs & Hbr).
  change (if includes _ _ then 64 else 32) with (desc_disk_size sb). change (if bool_decide (blk_size sb = _) then 2 else 1) with (desc_table_start sb).
  assert (Hn32 : n < 2 ^ 32).
  { unfold bg_count in Hn. destruct (rust_div _ _); [|done..]. cbn [mbind outcome_bind] in Hn.
    apply fit_Done in Hn as [[_ Hw] ->]. done. }
  pose proof (desc_size_cases sb) as Hds. assert (0 < desc_disk_size sb) by lia.
  unfold rust_div, rust_rem. rewrite !bool_decide_false by (fold (descs_per_block sb); lia). cbn [mbind outcome_bind].
  fold (descs_per_block sb). rewrite bool_decide_false by lia. cbn [mbind outcome_bind].
  rewrite (u64_id (id * _)) by nia.
  assert (Hq : id * desc_disk_size sb / blk_size sb = id / descs_per_block sb) by (rewrite Hbs; apply Z.div_mul_cancel_r; lia).
  assert (Hq2 : 0 ≤ id / descs_per_block sb ≤ id) by (split; [apply Z.div_pos; lia|apply Z.div_le_upper_bound; nia]).
  rewrite Hq, u64_id by (unfold desc_table_start; case_bool_decide; lia).
  unfold allocate_blk. rewrite length_replicate. fold sb. rewrite Hread. cbn [mbind outcome_bind].
  pose proof (read_blk_length _ _ _ _ _ Hread) as Hlen. pose proof (Z.mod_pos_bound id (descs_per_block sb) Hper) as Hm.
  set (slot := id mod descs_per_block sb) in *.
  assert (Hend : (slot + 1) * desc_disk_size sb ≤ blk_size sb) by nia.
  unfold slice. rewrite bool_decide_true by nia. cbn [mbind outcome_bind].
  replace (Z.to_nat ((slot + 1) * desc_disk_size sb) - Z.to_nat (slot * desc_disk_size sb))%nat with (Z.to_nat (desc_disk_size sb)) by nia.
  rewrite Z2Nat.inj_mul by lia. unfold from_bytes4.
  rewrite length_take, length_drop, Nat.min_l by nia.
  rewrite Henc. cbn [mbind outcome_bind]. do 3 f_equal.
  rewrite <-(app_nil_r (encode_fields _ _)). by apply desc_of_desc_bytes.
Qed.
End finding.

(** * The caches are transparent *)

Section coherence.
Context `{SbLayout} (get_sata_drive : AtaDeviceIdentifier → option SataDevice).
Context (aligned4 : bool) (bytes_per_block : nat) (current_timestamp : Z).
Notation load_desc := (load_descriptor get_sata_drive aligned4).
Notation get_desc := (get_group_descriptor get_sata_drive aligned4 current_timestamp).
Notation get := (get_inode get_sata_drive aligned4 current_timestamp).

(** An inode as it is on the drive, read without any cache. *)
Definition disk_inode (fs : Ext4Fs) (inode_id : Z) : outcome (result Inode IOError) :=
  '(inode_bg, blk_offset, bytes_offset) ← get_inode_entry_pos (fs_superblock fs) inode_id;
  r ← load_desc fs inode_bg;
  match r with
  | Err _ => Done (Err IOUnknown)
  | Ok d => read_inode get_sata_drive aligned4 fs (descriptor d) inode_id blk_offset bytes_offset
  end.

(** Every cached object is what the drive holds, and entries share no object. *)
Record coherent (s : Ext4State) : Prop := {
  coh_desc : ∀ bg e, descriptor_table s !! bg = Some e → ∃ d d0, desc_heap s !! ge_desc e = Some d
    ∧ load_desc (st_fs s) bg = Done (Ok d0) ∧ descriptor d = descriptor d0;
  coh_inode : ∀ id e, hashtable s !! id = Some e → ∃ c, inode_heap s !! ie_inode e = Some c
    ∧ disk_inode (st_fs s) id = Done (Ok (cell_inode c));
  coh_inj : ∀ id id' e e', hashtable s !! id = Some e → hashtable s !! id' = Some e' →
    ie_inode e = ie_inode e' → id = id'
}.

Lemma mounted_coherent fs : coherent (mounted fs).
Proof. split; simpl; intros; by simplify_map_eq. Qed.

Lemma get_desc_ok bg s : coherent s →
  match load_desc (st_fs s) bg with
  | Done (Ok d0) => ∃ p d h t, get_desc bg s = Done (Some p, with_descs s h t) ∧ coherent (with_descs s h t)
                    ∧ h !! p = Some d ∧ descriptor d = descriptor d0 ∧ ∃ e, t !! bg = Some e ∧ ge_desc e = p
  | Done (Err _) => get_desc bg s = Done (None, s)
  | Panicked => get_desc bg s = Panicked
  | Faulted => get_desc bg s = Faulted
  | NoFuel => get_desc bg s = NoFuel
  end.
Proof.
  intros Hc. unfold get_group_descriptor. destruct (descriptor_table s !! bg) as [e|] eqn:Ee.
  - destruct (coh_desc _ Hc _ _ Ee) as (d & d0 & Hd & Hl & Heq). rewrite Hl.
    eexists (ge_desc e), d, _, _. split; [done|]. split; [|split; [done|split; [done|]]].
    + split; simpl; [|apply Hc..]. intros bg' e'. destruct (decide (bg' = bg)) as [->|].
      * rewrite lookup_insert_eq. intros [= <-]. simpl. eauto.
      * rewrite lookup_insert_ne by done. apply Hc.
    + eexists. by rewrite lookup_insert_eq.
  - destruct (load_desc (st_fs s) bg) as [[d0|e0]| | |] eqn:El; cbn [mbind outcome_bind]; try done.
    set (p := fresh _). assert (Hp : desc_heap s !! p = None) by (apply not_elem_of_dom, is_fresh).
    eexists p, d0, _, _. split; [done|]. split; [|split; [by rewrite lookup_insert_eq|split; [done|]]].
    + split; simpl; [|apply Hc..]. intros bg' e'. destruct (decide (bg' = bg)) as [->|].
      * rewrite lookup_insert_eq. intros [= <-]. simpl. exists d0, d0. by rewrite lookup_insert_eq.
      * rewrite lookup_insert_ne by done. intros He'. destruct (coh_desc _ Hc _ _ He') as (d & d1 & Hd & ?).
        exists d, d1. rewrite lookup_insert_ne by congruence. done.
    + eexists. by rewrite lookup_insert_eq.
Qed.

(** Loading an inode gives what the drive holds, whether it was cached or not. *)
Lemma get_inode_ok id s : coherent s → desc_write_locked s = ∅ →
  match disk_inode (st_fs s) id with
  | Done (Ok i) => ∃ p s' c, get id s = Done (Some p, s') ∧ coherent s' ∧ desc_write_locked s' = ∅ ∧ st_fs s' = st_fs s
                   ∧ inode_heap s' !! p = Some c ∧ cell_inode c = i ∧ ∃ e, hashtable s' !! id = Some e ∧ ie_inode e = p
  | Done (Err _) => ∃ s', get id s = Done (None, s') ∧ coherent s' ∧ desc_write_locked s' = ∅ ∧ st_fs s' = st_fs s
  | Panicked => get id s = Panicked
  | Faulted => get id s = Faulted
  | NoFuel => get id s = NoFuel
  end.
Proof.
  intros Hc Hlock. unfold get_inode, load_cached_inode_or_insert. destruct (hashtable s !! id) as [e|] eqn:Ee.
  { destruct (coh_inode _ Hc _ _ Ee) as (c & Hh & Hd). rewrite Hd. eexists (ie_inode e), _, c. split; [done|].
    split; [|split; [done|split; [done|split; [done|split; [done|]]]]].
    - split; simpl; [apply Hc|..].
      + intros id' e'. destruct (decide (id' = id)) as [->|].
        * rewrite lookup_insert_eq. intros [= <-]. simpl. eauto.
        * rewrite lookup_insert_ne by done. apply Hc.
      + assert (Hlk : ∀ i x, <[id := {| ie_inode := ie_inode e; ie_usage_count := u32 (ie_usage_count e + 1);
          ie_entry_state := ie_entry_state e |}]> (hashtable s) !! i = Some x →
          ∃ y, hashtable s !! i = Some y ∧ ie_inode y = ie_inode x).
        { intros i x. destruct (decide (i = id)) as [->|]; [rewrite lookup_insert_eq; intros [= <-]; eauto|].
          rewrite lookup_insert_ne by done. eauto. }
        intros i1 i2 e1 e2 H1 H2 E12. apply Hlk in H1 as (y1 & H1 & E1), H2 as (y2 & H2 & E2).
        apply (coh_inj _ Hc _ _ _ _ H1 H2). congruence.
    - eexists. simpl. by rewrite lookup_insert_eq. }
  unfold load_inode_from_raw, disk_inode.
  destruct (get_inode_entry_pos _ _) as [[[bg bo] by_]| | |] eqn:Epos; cbn [mbind outcome_bind]; try done.
  pose proof (get_desc_ok bg s Hc) as Hg. destruct (load_desc (st_fs s) bg) as [[d0|e0]| | |] eqn:El; cbn [mbind outcome_bind].
  2: { rewrite Hg. cbn [mbind outcome_bind]. eauto. }
  2-4: by rewrite Hg.
  destruct Hg as (p & d & h & t & -> & Hc' & Hp & Hd & _). cbn [mbind outcome_bind]. simpl desc_heap. rewrite Hp.
  cbn [deref mbind outcome_bind]. simpl desc_write_locked. rewrite Hlock, bool_decide_false by set_solver.
  simpl st_fs. rewrite Hd. destruct (read_inode _ _ _ _ _ _ _) as [[i|e1]| | |] eqn:Er; cbn [mbind outcome_bind]; try done; [|eauto 10].
  set (s1 := with_descs s h t) in *. set (q := fresh _). assert (Hq : inode_heap s1 !! q = None) by (apply not_elem_of_dom, is_fresh).
  assert (Hdisk : disk_inode (st_fs s1) id = Done (Ok i)).
  { unfold disk_inode. simpl st_fs. rewrite Epos. cbn [mbind outcome_bind]. rewrite El. exact Er. }
  eexists q, _, _. split; [done|]. split; [|split; [done|split; [done|]]].
  - split; simpl; [apply Hc'|..].
    + intros id' e'. destruct (decide (id' = id)) as [->|].
      * rewrite lookup_insert_eq. intros [= <-]. simpl. eexists. rewrite lookup_insert_eq. split; [done|exact Hdisk].
      * rewrite lookup_insert_ne by done. intros He'. destruct (coh_inode _ Hc _ _ He') as (c & Hh & Hd').
        exists c. rewrite lookup_insert_ne by (intros Eq; simpl in Hq; rewrite Eq in Hq; congruence). done.
    + assert (Hne : ∀ i x, hashtable s !! i = Some x → ie_inode x ≠ q).
      { intros i0 x Hx Eq. destruct (coh_inode _ Hc _ _ Hx) as (c & Hh & _). simpl in Hq. rewrite <-Eq in Hq. congruence. }
      intros i1 i2 e1 e2. destruct (decide (i1 = id)) as [->|], (decide (i2 = id)) as [->|];
        rewrite ?lookup_insert_eq, ?lookup_insert_ne by done.
      * done.
      * intros [= <-] H2 E. simpl in E. by destruct (Hne _ _ H2).
      * intros H1 [= <-] E. simpl in E. by destruct (Hne _ _ H1).
      * intros H1 H2. apply (coh_inj _ Hc _ _ _ _ H1 H2).
  - simpl. rewrite lookup_insert_eq. split; [done|]. split; [done|]. eexists. by rewrite lookup_insert_eq.
Qed.

Lemma release_ne p q h : p ≠ q → release p h !! q = h !! q.
Proof using Type.
  intros Hne. unfold release. destruct (h !! p); [|done]. case_bool_decide; [by rewrite lookup_delete_ne|by rewrite lookup_insert_ne].
Qed.
Lemma release_all_ne ps q h : q ∉ ps → release_all ps h !! q = h !! q.
Proof using Type. induction ps as [|p ps IH]; intros Hq; simpl; [done|]. rewrite release_ne by set_solver. apply IH. set_solver. Qed.

(** Dropping entries, or marking them, keeps the rest. *)
Lemma shrink_coherent s h t : coherent s →
  (∀ id e, t !! id = Some e → ∃ e', hashtable s !! id = Some e' ∧ ie_inode e = ie_inode e') →
  (∀ id e, t !! id = Some e → ∃ c, h !! ie_inode e = Some c ∧ inode_heap s !! ie_inode e = Some c) →
  coherent (with_inodes s h t).
Proof.
  intros Hc Ht Hh. split; simpl; [apply Hc|..].
  - intros id e He. destruct (Ht _ _ He) as (e' & He' & E), (Hh _ _ He) as (c & Hc1 & Hc2).
    destruct (coh_inode _ Hc _ _ He') as (c' & Hc' & Hd). rewrite E in *. exists c. split; [done|]. congruence.
  - intros id id' e e' He He' E. destruct (Ht _ _ He) as (x & Hx & Ex), (Ht _ _ He') as (y & Hy & Ey).
    apply (coh_inj _ Hc _ _ _ _ Hx Hy). congruence.
Qed.
Lemma coh_heap s id e : coherent s → hashtable s !! id = Some e → ∃ c, inode_heap s !! ie_inode e = Some c.
Proof. intros Hc He. destruct (coh_inode _ Hc _ _ He) as (c & ? & _). eauto. Qed.
Lemma mark_coherent s id : coherent s → coherent (with_inodes s (inode_heap s) (alter mark_clear id (hashtable s))).
Proof.
  intros Hc. assert (Hl : ∀ i e, alter mark_clear id (hashtable s) !! i = Some e → ∃ e', hashtable s !! i = Some e' ∧ ie_inode e = ie_inode e').
  { intros i e. destruct (decide (i = id)) as [->|]; [|rewrite lookup_alter_ne by done; eauto].
    rewrite lookup_alter_eq. destruct (hashtable s !! id) as [x|]; simpl; [|done]. intros [= <-]. eauto. }
  apply shrink_coherent; [done|done|]. intros i e He. destruct (Hl _ _ He) as (e' & He' & ->).
  destruct (coh_heap _ _ _ Hc He') as [c Hcc]. eauto.
Qed.
Lemma remove_coherent s id : coherent s → coherent (remove_entry id s).
Proof.
  intros Hc. unfold remove_entry. destruct (removal_policy s); [|by apply mark_coherent].
  destruct (hashtable s !! id) as [e|] eqn:He; [|done].
  apply shrink_coherent; [done|..]; intros i x [Hne Hx]%lookup_delete_Some; [eauto|].
  destruct (coh_heap _ _ _ Hc Hx) as [c Hcx]. exists c. split; [|done].
  assert (Hp : ie_inode e ≠ ie_inode x) by (intros E; apply Hne, (coh_inj _ Hc _ _ _ _ He Hx E)).
  rewrite release_ne by done. destruct (inode_heap s !! ie_inode e); [|done]. case_bool_decide; [|done].
  by rewrite lookup_insert_ne.
Qed.
Lemma flush_invalid_coherent s : coherent s → coherent (flush_invalid_cache_entries s).
Proof.
  intros Hc. apply shrink_coherent; [done|..]; intros i x Hx; apply map_lookup_filter_Some in Hx as [Hx Hv]; [eauto|].
  destruct (coh_heap _ _ _ Hc Hx) as [c Hcx]. exists c. split; [|done]. rewrite release_all_ne; [done|].
  intros Hin. apply list_elem_of_fmap in Hin as ([j y] & Ey & Hin).
  apply elem_of_map_to_list, map_lookup_filter_Some in Hin as [Hy Hs]. simpl in *.
  assert (i = j) as <- by (apply (coh_inj _ Hc _ _ _ _ Hx Hy); done). congruence.
Qed.

(** ** Runs of cache operations *)

Inductive cache_op :=
  | OpGet (id : Z) | OpGetStrong (id : Z) | OpGetDesc (bg : Z) | OpRemove (id : Z) | OpDelayed (id : Z)
  | OpFlush | OpFlushInvalid | OpFlushDescs.
Definition run_op (op : cache_op) (s : Ext4State) : outcome Ext4State :=
  match op with
  | OpGet id => '(_, s) ← get id s; Done s
  | OpGetStrong id => '(_, s) ← get_inode_strong get_sata_drive aligned4 current_timestamp id s; Done s
  | OpGetDesc bg => '(_, s) ← get_desc bg s; Done s
  | OpRemove id => Done (remove_entry id s)
  | OpDelayed id => Done (delayed_entry_removal id s)
  | OpFlush => Done (flush_cache s)
  | OpFlushInvalid => Done (flush_invalid_cache_entries s)
  | OpFlushDescs => Done (desc_flush_cache s)
  end.
Fixpoint run_ops (ops : list cache_op) (s : Ext4State) : outcome Ext4State :=
  match ops with [] => Done s | op :: ops => s ← run_op op s; run_ops ops s end.

Definition cache_inv (fs : Ext4Fs) (s : Ext4State) : Prop := coherent s ∧ desc_write_locked s = ∅ ∧ st_fs s = fs.
Lemma get_inv fs id s o s' : cache_inv fs s → get id s = Done (o, s') → cache_inv fs s'.
Proof.
  intros (Hc & Hl & Hf) Hg. pose proof (get_inode_ok id s Hc Hl) as Hok.
  destruct (disk_inode (st_fs s) id) as [[i|]| | |].
  - destruct Hok as (p & s1 & c & E & ? & ? & ? & _). rewrite E in Hg. simplify_eq. split_and!; congruence.
  - destruct Hok as (s1 & E & ? & ? & ?). rewrite E in Hg. simplify_eq. split_and!; congruence.
  - congruence.
  - congruence.
  - congruence.
Qed.
Lemma acquire_coherent s p : coherent s → coherent (with_inodes s (acquire p (inode_heap s)) (hashtable s)).
Proof.
  intros Hc. split; simpl; [apply Hc| |apply Hc]. intros id e He. destruct (coh_inode _ Hc _ _ He) as (c & Hh & Hd).
  unfold acquire. destruct (decide (p = ie_inode e)) as [->|]; [|rewrite lookup_alter_ne by done; eauto].
  rewrite lookup_alter_eq, Hh. simpl. eauto.
Qed.
Lemma run_op_inv fs op s s' : cache_inv fs s → run_op op s = Done s' → cache_inv fs s'.
Proof.
  intros Hi. pose proof Hi as (Hc & Hl & Hf). destruct op; cbn [run_op]; intros E.
  - destruct (get id s) as [[o s1]| | |] eqn:Eg; simplify_eq/=. by eapply get_inv.
  - unfold get_inode_strong in E. destruct (get id s) as [[o s1]| | |] eqn:Eg; unfold get_inode in Eg; rewrite Eg in E; simplify_eq/=.
    pose proof (get_inv _ _ _ _ _ Hi Eg) as (Hc1 & Hl1 & Hf1). destruct o as [p|]; simplify_eq/=; [|done].
    split_and!; [by apply acquire_coherent|done..].
  - pose proof (get_desc_ok bg s Hc) as Hg. destruct (load_desc (st_fs s) bg) as [[d0|]| | |]; [..|by rewrite Hg in E].
    + destruct Hg as (p & d & h & t & Eg & Hc' & _). rewrite Eg in E. simplify_eq/=. done.
    + rewrite Hg in E. by simplify_eq/=.
    + by rewrite Hg in E.
    + by rewrite Hg in E.
  - simplify_eq. split; [by apply remove_coherent|]. unfold remove_entry. destruct (removal_policy s); [destruct (hashtable s !! id)|]; done.
  - simplify_eq. split; [by apply mark_coherent|done].
  - simplify_eq. split; [|done]. split; simpl; [apply Hc|intros; by simplify_map_eq..].
  - simplify_eq. split; [by apply flush_invalid_coherent|done].
  - simplify_eq. split; [|done]. split; simpl; [intros; by simplify_map_eq|apply Hc..].
Qed.
Lemma run_ops_inv fs ops s s' : cache_inv fs s → run_ops ops s = Done s' → cache_inv fs s'.
Proof.
  revert s. induction ops as [|op ops IH]; intros s Hi E; simpl in E; [by simplify_eq|].
  destruct (run_op op s) as [s1| | |] eqn:E1; simplify_eq/=. eapply IH; [|done]. by eapply run_op_inv.
Qed.

(** C15: the caches are transparent.  After any run of loads, removals and flushes of
    the two caches of a mounted filesystem, looking an inode up succeeds exactly
    when reading it from the drive does, and the object it returns then holds that
    inode: no entry is stale, or stands for another inode, and a removal drops no
    other entry's object. *)
Theorem caches_transparent fs ops s id : run_ops ops (mounted fs) = Done s →
  match disk_inode fs id with
  | Done (Ok i) => ∃ p s' c, get id s = Done (Some p, s') ∧ inode_heap s' !! p = Some c ∧ cell_inode c = i
  | Done (Err _) => ∃ s', get id s = Done (None, s')
  | Panicked => get id s = Panicked
  | Faulted => get id s = Faulted
  | NoFuel => get id s = NoFuel
  end.
Proof.
  intros Hrun. assert (Hi : cache_inv fs s).
  { eapply run_ops_inv; [|done]. split; [apply mounted_coherent|done]. }
  destruct Hi as (Hc & Hl & <-). pose proof (get_inode_ok id s Hc Hl) as Hok.
  destruct (disk_inode (st_fs s) id) as [[i|]| | |]; [..|done|done|done].
  - destruct Hok as (p & s' & c & ? & _ & _ & _ & ? & ? & _). eauto 10.
  - destruct Hok as (s' & ? & _). eauto.
Qed.
End coherence.

(** * The checked lookup *)

Section checked.
Context `{SbLayout} (get_sata_drive : AtaDeviceIdentifier → option SataDevice).
Context (aligned4 : bool) (bytes_per_block : nat) (Hpos : (0 < bytes_per_block)%nat) (current_timestamp : Z).

(** [get_inode_checked] never loads an inode.  It tests the bit of the bitmap at
    the number of the inode itself, not at its place in the group: an inode whose
    number is past the bitmap, as are all those of the groups after the first, is
    refused.  When the bit is set, a cached inode is returned; one that is not
    cached is never returned, because the lookup waits for the lock of the group
    descriptor, which the function holds for writing. *)
Theorem get_inode_checked_behaviour s id bg bo by_ n p s1 d bitmap d' l :
  let sb := fs_superblock (st_fs s) in
  get_inode_entry_pos sb id = Done (bg, bo, by_) → id ≤ sb_get sb sb_inodes_count → bg_count sb = Done n → bg ≤ n →
  0 ≤ id < 2 ^ Z.of_nat (bits_per_block bytes_per_block) → desc_write_locked s = ∅ →
  get_group_descriptor get_sata_drive aligned4 current_timestamp bg s = Done (Some p, s1) → desc_heap s1 !! p = Some d →
  get_or_load_inode_bitmap get_sata_drive bytes_per_block (st_fs s) d = Done (bitmap, d') →
  represents bytes_per_block bitmap l →
  let r := get_inode_checked get_sata_drive aligned4 bytes_per_block current_timestamp id s in
  match l !! Z.to_nat id with
  | Some true =>
      match hashtable s !! id with
      | Some e => ∃ s', r = Done (Some (ie_inode e), s') ∧ desc_write_locked s' = ∅
      | None => r = NoFuel
      end
  | _ => ∃ s', r = Done (None, s') ∧ hashtable s' = hashtable s ∧ desc_write_locked s' = ∅
  end.
Proof using Hpos.
  intros sb Hpos' Hid Hn Hbg Hrange Hlock Hg Hd Hbm Hrep r.
  assert (Hgrp : get_inode_blk_group sb id = Done bg).
  { unfold get_inode_entry_pos in Hpos'. destruct (rust_rem _ _); [|done..]. cbn [mbind outcome_bind] in Hpos'.
    destruct (rust_div _ _); [|done..]. cbn [mbind outcome_bind] in Hpos'. destruct (rust_rem _ _); [|done..].
    cbn [mbind outcome_bind] in Hpos'. destruct (get_inode_blk_group sb id); simplify_eq/=. done. }
  assert (Hs1 : st_fs s1 = st_fs s ∧ desc_write_locked s1 = ∅ ∧ hashtable s1 = hashtable s ∧ inode_heap s1 = inode_heap s
    ∧ ∃ e, descriptor_table s1 !! bg = Some e ∧ ge_desc e = p).
  { unfold get_group_descriptor in Hg. destruct (descriptor_table s !! bg) as [e|] eqn:Ee.
    - simplify_eq/=. split_and!; [done..|]. eexists. by rewrite lookup_insert_eq.
    - destruct (load_descriptor _ _ _ _) as [[d0|]| | |]; simplify_eq/=. split_and!; [done..|]. eexists. by rewrite lookup_insert_eq. }
  destruct Hs1 as (Hfs & Hl1 & Hh & Hi & e & He & Hp).
  unfold r, get_inode_checked. fold sb. rewrite Hgrp. cbn [mbind outcome_bind]. rewrite bool_decide_false by lia.
  rewrite Hn. cbn [mbind outcome_bind]. rewrite bool_decide_false by lia. rewrite Hg. cbn [mbind outcome_bind].
  rewrite Hl1, bool_decide_false by set_solver. rewrite Hd. cbn [deref mbind outcome_bind]. rewrite Hfs, Hbm. cbn [mbind outcome_bind].
  rewrite (in_use_ok _ Hpos bitmap l id Hrep Hrange). cbn [mbind outcome_bind].
  destruct (l !! Z.to_nat id) as [[]|] eqn:El; cbn [from_option Datatypes.id negb].
  - unfold load_cached_inode_or_insert. simpl hashtable. rewrite Hh. destruct (hashtable s !! _) as [x|].
    + cbn [mbind outcome_bind]. eexists. split; [done|done].
    + unfold load_inode_from_raw. simpl st_fs. rewrite Hfs. fold sb. rewrite Hpos'. cbn [mbind outcome_bind].
      unfold get_group_descriptor. simpl descriptor_table. rewrite He. cbn [mbind outcome_bind]. simpl desc_heap. rewrite Hp, lookup_insert_eq.
      cbn [deref mbind outcome_bind]. simpl desc_write_locked. rewrite bool_decide_true by set_solver. done.
  - eexists. split; [done|]. split; done.
  - eexists. split; [done|]. split; done.
Qed.
End checked.

(** * A concrete filesystem

    The superblock of the mounted example with inodes of 128 bytes and groups of
    32768 blocks; a table of one descriptor in block 1, the inode bitmap in block
    4 and the inode table in block 5. *)
Definition demo_sb2 : list Z := Eval vm_compute in
  put (put (put demo_sb 88 (le_bytes 2 128)) 32 (le_bytes 4 32768)) 0 (le_bytes 4 8192).
Definition demo_fs2 : Ext4Fs := {| fs_drive_id := demo_id; fs_partition_id := 0; fs_superblock := demo_sb2 |}.
Definition demo_desc : Ext4GroupDescriptor :=
  desc_of_fields [3; 4; 5; 0; 0; 0; 0; 0; 0; 0; 0; 0; 0; 0; 0; 0; 0; 0; 0; 0; 0; 0; 0].
Definition demo_desc_blk : list Z := Eval vm_compute in
  take 32 (encode_fields desc_layout (desc_fields demo_desc)) ++ replicate 4064 0.
Definition demo_inode_blk : list Z := Eval vm_compute in
  put (replicate 4096 0) 1408 (take 128 (inode_bytes (ext4_inode demo_inode))).
(** Inodes 0 to 15 are marked in use. *)
Definition demo_bitmap_blk : list Z := Eval vm_compute in [255; 255] ++ replicate 4094 0.
Definition demo_drives2 : AtaDeviceIdentifier → option SataDevice :=
  demo_drives [(2048 + 8, demo_desc_blk); (2048 + 8 * 4, demo_bitmap_blk); (2048 + 8 * 5, demo_inode_blk)].

Lemma ext4_structs_roundtrip_witness :
  inode_of_bytes (inode_bytes (ext4_inode demo_inode) ++ [7]) = ext4_inode demo_inode.
Proof.
  assert (Hi : inode_fits (ext4_inode demo_inode)).
  { apply (bool_decide_eq_true_1 (inode_fits _)). vm_compute. reflexivity. }
  assert (Hd : fields_fit desc_layout (desc_fields demo_desc)).
  { apply (bool_decide_eq_true_1 (fields_fit _ _)). vm_compute. reflexivity. }
  exact (proj1 (ext4_structs_roundtrip (ext4_inode demo_inode) demo_desc [7] Hi Hd)).
Defined.
(** A directory's mode. *)
Lemma inode_type_is_regular_witness : InodeType_from 0x41ED = Regular ∧ mode_bitor 0x41ED 0 = 0x1ED.
Proof.
  destruct (inode_type_is_regular 0x41ED 0 ltac:(done) ltac:(done)) as (H1 & H2 & _).
  split; [exact H1|]. refine (eq_trans H2 _). reflexivity.
Defined.
Lemma update_then_validate_witness : ∃ i, update_chksum 5 demo_inode = Done i ∧ inode_validate_chksum 5 i = Done true.
Proof.
  destruct (update_then_validate 5 demo_inode) as (i & H1 & H2 & _).
  - apply (bool_decide_eq_true_1 (inode_fits _)). vm_compute. reflexivity.
  - done.
  - exists i. split; [exact H1|exact H2].
Defined.
Lemma load_descriptor_correct_witness : let _ := c_layout in
  load_descriptor demo_drives2 true demo_fs2 0
  = Done (Ok {| group_number := 0; block_bitmap := None; inode_bitmap := None; descriptor := demo_desc |}).
Proof.
  intros L. assert (Hb : Forall byte demo_sb2).
  { apply (bool_decide_eq_true_1 (Forall byte demo_sb2)). vm_compute. reflexivity. }
  refine (@load_descriptor_correct c_layout demo_drives2 demo_fs2 0 1 demo_desc_blk demo_desc
    ltac:(vm_compute; reflexivity) Hb ltac:(vm_compute; reflexivity) ltac:(vm_compute; reflexivity) ltac:(done) _).
  intros _. split; [vm_compute; reflexivity|]. split; [|vm_compute; reflexivity].
  apply (bool_decide_eq_true_1 (fields_fit _ _)). vm_compute. reflexivity.
Defined.
Lemma caches_transparent_witness : let _ := c_layout in
  ∃ p s' c, get_inode demo_drives2 true 0 12 (mounted demo_fs2) = Done (Some p, s')
  ∧ inode_heap s' !! p = Some c ∧ cell_inode c = demo_inode.
Proof.
  intros L. pose proof (@caches_transparent c_layout demo_drives2 true 0 demo_fs2 [] (mounted demo_fs2) 12 eq_refl) as Hc.
  assert (Hd : @disk_inode c_layout demo_drives2 true demo_fs2 12 = Done (Ok demo_inode)) by (vm_compute; reflexivity).
  rewrite Hd in Hc. exact Hc.
Defined.
(** Inode 12, whose bit is set and which is not cached: the lookup does not return. *)
Definition demo_gd : GroupDescriptor :=
  {| group_number := 0; block_bitmap := None; inode_bitmap := None; descriptor := demo_desc |}.
Definition demo_inode_bitmap : Vob := Eval vm_compute in
  default vob_new (match bitmap_from_bytes 8 (take 1024 demo_bitmap_blk) with Done v => Some v | _ => None end).
Lemma get_inode_checked_behaviour_witness : let _ := c_layout in
  get_inode_checked demo_drives2 true 8 0 12 (mounted demo_fs2) = NoFuel.
Proof.
  intros L.
  assert (Hr : represents 8 demo_inode_bitmap (bits 8 demo_inode_bitmap)).
  { split; [apply vob_check_ok; [lia|vm_compute; reflexivity]|reflexivity]. }
  pose proof (@get_inode_checked_behaviour c_layout demo_drives2 true 8 ltac:(lia) 0 (mounted demo_fs2) 12 0 0 1408 1 0
    (with_descs (mounted demo_fs2) {[0%nat := demo_gd]} {[0 := {| ge_desc := 0; ge_usage_count := 0; ge_first_access := 0 |}]})
    demo_gd demo_inode_bitmap
    {| group_number := 0; block_bitmap := None; inode_bitmap := Some demo_inode_bitmap; descriptor := demo_desc |}
    (bits 8 demo_inode_bitmap)
    ltac:(vm_compute; reflexivity) ltac:(vm_compute; congruence) ltac:(vm_compute; reflexivity) ltac:(done) ltac:(done)
    ltac:(reflexivity) ltac:(vm_compute; reflexivity) ltac:(reflexivity) ltac:(vm_compute; reflexivity) Hr) as Hc.
  assert (El : bits 8 demo_inode_bitmap !! Z.to_nat 12 = Some true) by (vm_compute; reflexivity).
  cbv zeta in Hc. rewrite El in Hc. exact Hc.
Defined.

(** Inodes larger than the structure of the code, as those of 256 bytes that
    ext4 uses by default, are never loaded: the copy into the buffer of the
    structure is out of range and panics.  Inodes of 128 to 160 bytes are decoded
    from their own bytes, the fields past the end being zero, whatever their
    checksum, unless they declare an extra size past the structure, which panics. *)
Theorem read_inode_by_size `{SbLayout} get_sata_drive fs d id bo by_ blk : let sb := fs_superblock fs in
  let size := sb_get sb sb_inode_size in
  0 ≤ by_ < 2 ^ 32 → 0 ≤ size < 2 ^ 16 → 0 ≤ inode_table_blk_addr d + bo < 2 ^ 64 →
  read_blk_from_device get_sata_drive fs (inode_table_blk_addr d + bo) (Z.to_nat (blk_size sb)) = Done (Ok blk) →
  by_ + size ≤ Z.of_nat (length blk) → Forall byte blk →
  let i := inode_of_bytes (take (Z.to_nat size) (drop (Z.to_nat by_) blk) ++ replicate (160 - Z.to_nat size) 0) in
  read_inode get_sata_drive true fs d id bo by_
  = if bool_decide (160 < size) || bool_decide (32 < i_extra_isize i) then Panicked
    else Done (Ok {| inode_number := id; ext4_inode := i |}).
Proof.
  intros sb size Hby Hsz Haddr Hread Hlen Hbytes i. unfold read_inode. fold sb size. rewrite Z.min_l by lia.
  unfold allocate_blk. rewrite length_replicate. fold sb. rewrite Hread. cbn [mbind outcome_bind].
  rewrite u64_id by lia. unfold slice at 1. rewrite bool_decide_true by lia. cbn [mbind outcome_bind].
  replace (Z.to_nat (by_ + size) - Z.to_nat by_)%nat with (Z.to_nat size) by lia.
  rewrite length_take, length_drop, Nat.min_l by lia. unfold INODE_STRUCT_SIZE, rust_assert.
  destruct (decide (160 < size)) as [H160|H160].
  { rewrite (bool_decide_true _ H160), bool_decide_false by lia. done. }
  rewrite (bool_decide_false _ H160), bool_decide_true by lia. cbn [mbind outcome_bind from_bytes4 orb]. fold i.
  unfold inode_validate_chksum, inode_compute_chksum, slice. cbn [ext4_inode inode_number].
  assert (Hi : length (inode_bytes (set_chksum i 0)) = 160%nat).
  { apply length_inode_bytes. destruct (set_chksum_fields i 0) as (_ & _ & -> & _). unfold i, inode_of_bytes. cbn [i_block inode_of_fields].
    rewrite length_take, length_drop, length_app, length_take, length_drop, length_replicate. lia. }
  rewrite Hi. destruct (decide (32 < i_extra_isize i)) as [Hx|Hx].
  - rewrite (bool_decide_true _ Hx), (bool_decide_false (_ ≤ _ ≤ _)%nat) by lia. done.
  - rewrite (bool_decide_false _ Hx), (bool_decide_true (_ ≤ _ ≤ _)%nat) by lia. cbn [mbind outcome_bind]. done.
Qed.
Lemma read_inode_by_size_witness : let _ := c_layout in
  read_inode demo_drives2 true demo_fs2 demo_desc 12 0 1408 = Done (Ok demo_inode).
Proof.
  intros L.
  pose proof (@read_inode_by_size c_layout demo_drives2 demo_fs2 demo_desc 12 0 1408 demo_inode_blk ltac:(done)
    ltac:(vm_compute; split; congruence) ltac:(vm_compute; split; congruence) ltac:(vm_compute; reflexivity)
    ltac:(vm_compute; congruence)) as Hc.
  refine (eq_trans (Hc _) _); [|vm_compute; reflexivity].
  apply (bool_decide_eq_true_1 (Forall byte _)). vm_compute. reflexivity.
Defined.
