(* ===== verification/Dirs.v ===== *)
(** Directories of ext4 (src/fs/ext4/dir.rs): their entries, the iterator over
    them, searches, and the conversion of entries to files and directories through
    the inode cache. *)

From S2P Require Import Prelude Crc Partitions Ext4 Extents Vob Bitmap Inodes.

(** * Entries *)

Record Ext4DirectoryEntry := {
  rec_len : Z; name_len : Z; file_type : option Z; name : list Z; de_inode_number : Z
}.
Definition MAX_ENTRY_SIZE : Z := 263.
Definition FT_REGULAR : Z := 0x1.
Definition FT_DIRECTORY : Z := 0x2.
Definition ROOT_DIR : Z := 0x2.

(** The characters of a file name. *)
Definition filename_chars (n : list Z) : list Z := filter (λ b, b ≠ 0) n.

Record Ext4Directory := {
  dir_inode : Inode; dir_fs : Ext4Fs; internal_cursor : Z; dir_extent_tree : option ExtentTree
}.
Definition dir_set_cursor (d : Ext4Directory) (c : Z) : Ext4Directory :=
  {| dir_inode := dir_inode d; dir_fs := dir_fs d; internal_cursor := c; dir_extent_tree := dir_extent_tree d |}.
(** [ext4_read_bytes] is the same macro for directories and files. *)
Definition dir_as_file (d : Ext4Directory) : Ext4File :=
  {| file_fs := dir_fs d; file_inode := dir_inode d; cursor := internal_cursor d; extent_tree := dir_extent_tree d |}.
Definition dir_size (d : Ext4Directory) : Z := inode_size (dir_inode d).
Definition is_root_dir (d : Ext4Directory) : bool := bool_decide (inode_number (dir_inode d) = ROOT_DIR).

Inductive DirEntry := DirFile (f : Ext4File) | DirDirectory (d : Ext4Directory).

Section directories.
Context `{SbLayout} (get_sata_drive : AtaDeviceIdentifier → option SataDevice).
Context (aligned4 : bool).

(** The fields of a raw entry; the name is cut by its length. *)
Definition parse_entry (raw_entry : list Z) : outcome Ext4DirectoryEntry :=
  n ← from_bytes4 aligned4 of_le (take 4 raw_entry);
  let name_len := raw_entry !!! 6%nat in
  raw_name ← slice raw_entry 8 (8 + Z.to_nat name_len);
  Done {| rec_len := of_le (take 2 (drop 4 raw_entry)); name_len := name_len;
          file_type := Some (raw_entry !!! 7%nat); name := raw_name; de_inode_number := n |}.

(** [Ext4Directory::next]. *)
Definition dir_next (d : Ext4Directory) : outcome (option Ext4DirectoryEntry * Ext4Directory) :=
  let count_to_read := Z.min (size_sub (dir_size d) (internal_cursor d)) MAX_ENTRY_SIZE in
  if bool_decide (count_to_read ≤ 8) then Done (None, dir_set_cursor d 0)
  else
    '(r, raw_entry) ← ext4_read_bytes get_sata_drive (dir_as_file d) (internal_cursor d) count_to_read
                        (replicate (Z.to_nat MAX_ENTRY_SIZE) 0);
    match r with
    | Err _ => Done (None, d)
    | Ok _ =>
        e ← parse_entry raw_entry;
        if bool_decide (de_inode_number e = 0) then Done (None, dir_set_cursor d 0)
        else Done (Some e, dir_set_cursor d (Z.min (internal_cursor d + rec_len e) (dir_size d)))
    end.
(** [search]: [Iterator::find]. *)
Fixpoint dir_search (fuel : nat) (d : Ext4Directory) (target : list Z)
    : outcome (option Ext4DirectoryEntry * Ext4Directory) :=
  match fuel with
  | O => NoFuel
  | S fuel =>
      '(o, d) ← dir_next d;
      match o with
      | None => Done (None, d)
      | Some e => if bool_decide (name e = target) then Done (Some e, d) else dir_search fuel d target
      end
  end.

(** [Ext4Directory::from_inode]. *)
Definition dir_from_inode (fuel : nat) (fs : Ext4Fs) (inode : Inode) : outcome (result Ext4Directory IOError) :=
  if negb (mode_contains inode S_IFDIR) then Done (Err IOUnknown)
  else
    t ← load_extent_tree get_sata_drive aligned4 fuel fs inode;
    Done (Ok {| dir_inode := inode; dir_fs := fs; internal_cursor := 0; dir_extent_tree := t |}).

(** ** Entries as files and directories *)

Context (current_timestamp : Z).
Notation get := (get_inode get_sata_drive aligned4 current_timestamp).

(** The inode of a number, through the cache. *)
Definition cached_inode (id : Z) (s : Ext4State) : outcome (option Inode * Ext4State) :=
  '(o, s) ← get id s;
  match o with
  | None => Done (None, s)
  | Some p => c ← deref (inode_heap s !! p); Done (Some (cell_inode c), s)
  end.
Definition ok {A} (r : result A IOError) : option A := match r with Ok a => Some a | Err _ => None end.
Definition as_directory (fuel : nat) (e : Ext4DirectoryEntry) (s : Ext4State)
    : outcome (option Ext4Directory * Ext4State) :=
  if bool_decide (file_type e = Some FT_DIRECTORY) then
    '(o, s) ← cached_inode (de_inode_number e) s;
    match o with
    | None => Done (None, s)
    | Some i => r ← dir_from_inode fuel (st_fs s) i; Done (ok r, s)
    end
  else Done (None, s).
Definition as_file (fuel : nat) (e : Ext4DirectoryEntry) (s : Ext4State) : outcome (option Ext4File * Ext4State) :=
  if bool_decide (file_type e = Some FT_REGULAR) then
    '(o, s) ← cached_inode (de_inode_number e) s;
    match o with
    | None => Done (None, s)
    | Some i => r ← from_inode get_sata_drive aligned4 fuel (st_fs s) i; Done (ok r, s)
    end
  else Done (None, s).
Definition file_entry (fuel : nat) (e : Ext4DirectoryEntry) (s : Ext4State) : outcome (result DirEntry IOError * Ext4State) :=
  '(o, s) ← as_file fuel e s; f ← unwrap o; Done (Ok (DirFile f), s).
Definition directory_entry (fuel : nat) (e : Ext4DirectoryEntry) (s : Ext4State) : outcome (result DirEntry IOError * Ext4State) :=
  '(o, s) ← as_directory fuel e s; d ← unwrap o; Done (Ok (DirDirectory d), s).
(** [TryInto<DirEntry>]. *)
Definition entry_try_into (fuel : nat) (e : Ext4DirectoryEntry) (s : Ext4State)
    : outcome (result DirEntry IOError * Ext4State) :=
  match file_type e with
  | Some ft =>
      if bool_decide (ft = FT_REGULAR) then file_entry fuel e s
      else if bool_decide (ft = FT_DIRECTORY) then directory_entry fuel e s
      else Done (Err IOUnknown, s)
  | None =>
      '(o, s) ← cached_inode (de_inode_number e) s;
      match o with
      | None => Done (Err IOUnknown, s)
      | Some i =>
          match inode_type (ext4_inode i) with
          | Regular => file_entry fuel e s
          | Directory => directory_entry fuel e s
          | _ => Done (Err IOUnknown, s)
          end
      end
  end.
(** [GenericExt4Directory::next], [parent] and [root_dir]. *)
Definition generic_next (fuel : nat) (d : Ext4Directory) (s : Ext4State)
    : outcome (option DirEntry * Ext4Directory * Ext4State) :=
  '(o, d) ← dir_next d;
  match o with
  | None => Done (None, d, s)
  | Some e => '(r, s) ← entry_try_into fuel e s; Done (ok r, d, s)
  end.
Definition parent (fuel : nat) (d : Ext4Directory) (s : Ext4State)
    : outcome (option Ext4Directory * Ext4Directory * Ext4State) :=
  '(o, d) ← dir_search fuel d [46; 46];
  match o with
  | None => Done (None, d, s)
  | Some e => '(p, s) ← as_directory fuel e s; Done (p, d, s)
  end.
Definition root_dir (fuel : nat) (s : Ext4State) : outcome (result Ext4Directory IOError * Ext4State) :=
  '(o, s) ← cached_inode ROOT_DIR s;
  match o with
  | None => Done (Err IOUnknown, s)
  | Some i => r ← dir_from_inode fuel (st_fs s) i; Done (r, s)
  end.
End directories.

(** * Iterating over a directory *)

Section iteration.
Context `{SbLayout} (get_sata_drive : AtaDeviceIdentifier → option SataDevice).
Notation dir_next := (dir_next get_sata_drive true).
Notation dir_search := (dir_search get_sata_drive true).

(** A directory whose first block is [data]. *)
Record first_block (d : Ext4Directory) (data : list Z) : Prop := {
  fb_length : length (fs_superblock (dir_fs d)) = sb_size;
  fb_bytes : Forall byte (fs_superblock (dir_fs d));
  fb_log : sb_get (fs_superblock (dir_fs d)) sb_log_block_size < 54;
  fb_read : ∃ t e, dir_extent_tree d = Some t ∧ extents_ok (extents t) ∧ e ∈ extents t ∧ block e = 0 ∧ 1 ≤ Extents.len e
    ∧ read_blk_from_device get_sata_drive (dir_fs d) (start_blk e)
        (Z.to_nat (blk_size (fs_superblock (dir_fs d)))) = Done (Ok data)
}.

(** A read of [count] bytes at [c] in the first block copies the bytes from [c] to
    [count]. *)
Lemma read_first_block d data c count buf : first_block d data →
  0 ≤ c → 0 ≤ count → c + count < blk_size (fs_superblock (dir_fs d)) → count ≤ Z.of_nat (length buf) →
  ext4_read_bytes get_sata_drive (dir_as_file d) c count buf
  = if bool_decide (c ≤ count)
    then Done (Ok (), take (Z.to_nat (count - c)) (drop (Z.to_nat c) data) ++ drop (Z.to_nat (count - c)) buf)
    else Panicked.
Proof.
  intros [Hl Hb Hs (t & e & Ht & Hok & He & He0 & Hlen & Hread)] Hc Hcount Hbs Hbuf.
  set (sb := fs_superblock (dir_fs d)) in *. pose proof (blk_size_pow2 sb Hl Hb Hs) as Hpow.
  pose proof (sb_get_width sb sb_log_block_size Hl Hb) as [Hp _].
  assert (Hb64 : blk_size sb < 2 ^ 64) by (rewrite Hpow; apply Z.pow_lt_mono_r; lia).
  pose proof (read_blk_length _ _ _ _ _ Hread) as Hdl.
  unfold ext4_read_bytes. cbn [dir_as_file file_fs extent_tree]. fold sb. unfold rust_div, rust_rem.
  rewrite !bool_decide_false by lia. cbn [mbind outcome_bind].
  rewrite (u64_id (c + count)), !Z.div_small, !Z.mod_small by lia. rewrite Ht.
  rewrite (useful_extents_unique (extents t) e 0 Hok He) by lia.
  change (u64 (0 - 1)) with (2 ^ 64 - 1). rewrite Z.min_l by done.
  change (seqZ 0 (0 - 0)) with ([] : list Z). cbn [read_full_blocks mbind outcome_bind].
  pose proof Hok as [Hall _]. rewrite Forall_forall in Hall. specialize (Hall e He).
  pose proof (extent_end_ok e Hall) as (Hend & _ & _ & Hst). unfold in_width in Hst.
  unfold advance. rewrite (bool_decide_false (extent_end e < 0)) by lia. cbn [mbind outcome_bind].
  rewrite (Z.add_0_r (start_blk e)), (u64_id (start_blk e)) by lia. unfold allocate_blk. rewrite length_replicate. fold sb. rewrite Hread. cbn [mbind outcome_bind].
  rewrite (bool_decide_true (0 = 0)) by done. unfold slice. destruct (decide (c ≤ count)) as [Hcc|Hcc].
  - rewrite (bool_decide_true (_ ≤ _ ≤ _)%nat) by lia. rewrite (bool_decide_true _ Hcc). cbn [mbind outcome_bind].
    replace (Z.to_nat count - Z.to_nat c)%nat with (Z.to_nat (count - c)) by lia. rewrite Z.mul_0_l. change (u64 0) with 0.
    unfold write_at. rewrite length_take, length_drop, Nat.min_l by lia. rewrite bool_decide_true by lia. cbn [mbind outcome_bind].
    rewrite take_0. done.
  - rewrite (bool_decide_false (_ ≤ _ ≤ _)%nat) by lia. by rewrite (bool_decide_false _ Hcc).
Qed.

(** The bytes of an entry. *)
Definition entry_bytes (e : Ext4DirectoryEntry) : list Z :=
  le_bytes 4 (de_inode_number e) ++ le_bytes 2 (rec_len e) ++ [name_len e; default 0 (file_type e)] ++ name e.
Record entry_ok (e : Ext4DirectoryEntry) : Prop := {
  eo_inode : in_width 32 (de_inode_number e);
  eo_rec : in_width 16 (rec_len e);
  eo_len : name_len e = Z.of_nat (length (name e)) ∧ name_len e < 256;
  eo_type : is_Some (file_type e)
}.
Lemma take_le_bytes n z rest : take n (le_bytes n z ++ rest) = le_bytes n z.
Proof using Type. rewrite take_app_le, take_ge; rewrite ?length_le_bytes; done. Qed.
Lemma parse_entry_bytes e rest : entry_ok e → parse_entry true (entry_bytes e ++ rest) = Done e.
Proof using Type.
  intros [Hi Hr [Hl Hl2] [ft Hft]]. unfold parse_entry, entry_bytes. rewrite Hft. cbn [from_option Datatypes.id].
  rewrite <-!app_assoc. unfold from_bytes4. cbn [mbind outcome_bind].
  rewrite take_le_bytes, of_le_le_bytes by done.
  assert (Hd : drop 4 (le_bytes 4 (de_inode_number e) ++ le_bytes 2 (rec_len e) ++ [name_len e; ft] ++ name e ++ rest)
    = le_bytes 2 (rec_len e) ++ [name_len e; ft] ++ name e ++ rest) by (by rewrite drop_app_ge).
  rewrite Hd, take_le_bytes, of_le_le_bytes by done.
  set (raw := le_bytes 4 (de_inode_number e) ++ le_bytes 2 (rec_len e) ++ [name_len e; ft] ++ name e ++ rest).
  change (raw !!! 6%nat) with (name_len e). change (raw !!! 7%nat) with ft. unfold slice.
  rewrite bool_decide_true by (unfold raw; rewrite !length_app, !length_le_bytes; simpl; lia). cbn [mbind outcome_bind].
  rewrite Hl. replace (8 + Z.to_nat (Z.of_nat (length (name e))) - 8)%nat with (length (name e)) by lia.
  change (drop 8 raw) with (name e ++ rest). rewrite take_app_length. destruct e; simpl in *; by subst.
Qed.

(** One step of a directory iterator inside the first block, for a directory of
    at least 263 bytes past the cursor.  As long as the cursor is at most 263, the
    entry found there is returned and the cursor moves by its record length; an
    unused entry, of inode 0, ends the iteration and rewinds it, even when used
    entries follow.  Past 263 the iterator panics: the read copies the bytes from
    the cursor to the length of the read, not to the cursor plus that length. *)
Theorem dir_next_in_first_block d data e rest : let c := internal_cursor d in
  first_block d data → 0 ≤ c → c + 263 ≤ dir_size d → c + 263 < blk_size (fs_superblock (dir_fs d)) →
  (c ≤ 263 → take (Z.to_nat (263 - c)) (drop (Z.to_nat c) data) = entry_bytes e ++ rest ∧ entry_ok e) →
  dir_next d
  = if bool_decide (c ≤ 263) then
      if bool_decide (de_inode_number e = 0) then Done (None, dir_set_cursor d 0)
      else Done (Some e, dir_set_cursor d (Z.min (c + rec_len e) (dir_size d)))
    else Panicked.
Proof.
  intros c Hfb Hc Hsz Hbs He. unfold Dirs.dir_next, size_sub. fold c. rewrite Z.max_l by lia.
  unfold MAX_ENTRY_SIZE. rewrite Z.min_r by lia. rewrite (bool_decide_false (263 ≤ 8)) by lia.
  rewrite (read_first_block d data c 263 _ Hfb) by (rewrite ?length_replicate; lia).
  destruct (decide (c ≤ 263)) as [Hle|Hle].
  - rewrite !(bool_decide_true _ Hle). cbn [mbind outcome_bind]. destruct (He Hle) as [Hb Hok].
    rewrite Hb, <-app_assoc, parse_entry_bytes by done. cbn [mbind outcome_bind]. done.
  - by rewrite !(bool_decide_false _ Hle).
Qed.

(** A search over a corrupted directory, whose first entry has a record length
    of zero and not the name that is looked for, never ends: the cursor does not
    move. *)
Theorem search_zero_rec_len fuel d data e rest target : first_block d data →
  internal_cursor d = 0 → 263 ≤ dir_size d → 263 < blk_size (fs_superblock (dir_fs d)) →
  take 263 data = entry_bytes e ++ rest → entry_ok e →
  rec_len e = 0 → de_inode_number e ≠ 0 → name e ≠ target →
  dir_search fuel d target = NoFuel.
Proof.
  intros Hfb Hc Hsz Hbs Hdata Hok Hrec Hino Hname.
  assert (Hnext : dir_next d = Done (Some e, d)).
  { unfold Dirs.dir_next, size_sub. rewrite Hc, Z.sub_0_r, Z.max_l by lia. unfold MAX_ENTRY_SIZE. rewrite Z.min_r by lia.
    rewrite (bool_decide_false (263 ≤ 8)) by lia.
    rewrite (read_first_block d data 0 263 _ Hfb) by (rewrite ?length_replicate; lia).
    rewrite bool_decide_true by done. cbn [mbind outcome_bind]. rewrite drop_0. change (Z.to_nat (263 - 0)) with 263%nat.
    rewrite Hdata, <-app_assoc, parse_entry_bytes by done. cbn [mbind outcome_bind].
    rewrite (bool_decide_false _ Hino), Hrec, Z.min_l by lia. do 2 f_equal. destruct d; simpl in *; by subst. }
  induction fuel as [|fuel IH]; [done|]. cbn [Dirs.dir_search]. rewrite Hnext. cbn [mbind outcome_bind].
  by rewrite (bool_decide_false _ Hname).
Qed.
End iteration.

(** * Which inodes are files or directories *)

Lemma land_low_high perm k : 0 ≤ perm < 2 ^ 12 → 12 ≤ k → Z.land perm (2 ^ k) = 0.
Proof.
  intros Hp Hk. apply Z.bits_inj'. intros i Hi. rewrite Z.land_spec, Z.bits_0. destruct (decide (i < 12)).
  - rewrite Z.pow2_bits_false by lia. apply andb_false_r.
  - rewrite (testbit_above 12 perm) by (done || lia). done.
Qed.

(** The tests of [from_inode] accept more than files and directories.  For an
    inode of the type [t] and the permissions [perm], the test for a directory
    also accepts block devices and sockets, the one for a regular file also
    symbolic links and sockets: they look for one bit of the type. *)
Theorem kind_tests i t perm : 0 ≤ perm < 2 ^ 12 →
  t ∈ [S_IFIFO; S_IFCHR; S_IFDIR; S_IFBLK; S_IFREG; S_IFLNK; S_IFSOCK] → i_mode (ext4_inode i) = Z.lor t perm →
  (mode_contains i S_IFDIR = true ↔ t ∈ [S_IFDIR; S_IFBLK; S_IFSOCK])
  ∧ (mode_contains i S_IFREG = true ↔ t ∈ [S_IFREG; S_IFLNK; S_IFSOCK]).
Proof.
  intros Hp Ht Hm. unfold mode_contains. rewrite Hm, !Z.land_lor_distr_l, !bool_decide_eq_true.
  change S_IFDIR with (2 ^ 14) at 2. change S_IFREG with (2 ^ 15) at 2. rewrite !land_low_high, !Z.lor_0_r by lia.
  clear Hm. revert t Ht. rewrite <-Forall_forall. repeat (apply Forall_cons; split); [..|apply Forall_nil; done];
    split; apply (bool_decide_eq_true_1 (_ ↔ _)); vm_compute; reflexivity.
Qed.
Lemma kind_tests_witness : let i := {| inode_number := 9; ext4_inode := set_lo (ext4_inode demo_inode) 0 0x61A4 |} in
  mode_contains i S_IFDIR = true.
Proof.
  intros i. apply (kind_tests i S_IFBLK 0x1A4 ltac:(done) ltac:(set_solver) ltac:(reflexivity)). set_solver.
Defined.

(** * A concrete directory

    The inode and the extent of the example file, as a directory of one block: an
    entry for itself, an unused one, and a file name. *)
Definition demo_entry (n r : Z) (nm : list Z) : Ext4DirectoryEntry :=
  {| rec_len := r; name_len := Z.of_nat (length nm); file_type := Some FT_DIRECTORY; name := nm; de_inode_number := n |}.
Definition demo_dir_blk (e : Ext4DirectoryEntry) : list Z :=
  let bs := entry_bytes e in bs ++ replicate (4096 - length bs) 0.
Definition demo_dir_inode : Inode := {| inode_number := 2; ext4_inode := set_size (ext4_inode demo_inode) 4096 |}.
Definition demo_dir (c : Z) : Ext4Directory :=
  {| dir_inode := demo_dir_inode; dir_fs := demo_fs; internal_cursor := c; dir_extent_tree := Some demo_tree |}.
Definition demo_dir_drives (e : Ext4DirectoryEntry) : AtaDeviceIdentifier → option SataDevice :=
  demo_drives [(2048 + 8 * 20, demo_dir_blk e)].
Ltac demo_first_block :=
  split;
  [ vm_compute; reflexivity
  | apply (bool_decide_eq_true_1 (Forall byte demo_sb)); vm_compute; reflexivity
  | vm_compute; reflexivity
  | exists demo_tree, (demo_ext 0 1 20); split; [done|]; split; [apply demo_extents_ok|]; split; [left|];
    split; [done|]; split; [done|]; vm_compute; reflexivity ].
Ltac demo_entry_ok := split; [done|done|split; done|eexists; reflexivity].

(** The entry at the start, and the panic past 263 bytes. *)
Lemma dir_next_in_first_block_witness : let _ := c_layout in let e := demo_entry 2 12 [46] in
  dir_next (demo_dir_drives e) true (demo_dir 0) = Done (Some e, demo_dir 12)
  ∧ dir_next (demo_dir_drives e) true (demo_dir 264) = Panicked.
Proof.
  intros L e. assert (Hok : entry_ok e) by demo_entry_ok. split.
  - assert (Hf : first_block (demo_dir_drives e) (demo_dir 0) (demo_dir_blk e)) by demo_first_block.
    refine (eq_trans (@dir_next_in_first_block c_layout (demo_dir_drives e) (demo_dir 0) (demo_dir_blk e) e (replicate 254 0)
      Hf ltac:(done) ltac:(done) ltac:(vm_compute; reflexivity) _) _); [|vm_compute; reflexivity].
    intros _. split; [vm_compute; reflexivity|exact Hok].
  - assert (Hf : first_block (demo_dir_drives e) (demo_dir 264) (demo_dir_blk e)) by demo_first_block.
    refine (eq_trans (@dir_next_in_first_block c_layout (demo_dir_drives e) (demo_dir 264) (demo_dir_blk e) e []
      Hf ltac:(done) ltac:(done) ltac:(vm_compute; reflexivity) _) _); [|vm_compute; reflexivity].
    intros Hle. exfalso. apply Hle. reflexivity.
Defined.
Lemma search_zero_rec_len_witness : let _ := c_layout in let e := demo_entry 2 0 [46] in
  dir_search (demo_dir_drives e) true 1000 (demo_dir 0) [46; 46] = NoFuel.
Proof.
  intros L e. assert (Hf : first_block (demo_dir_drives e) (demo_dir 0) (demo_dir_blk e)) by demo_first_block.
  exact (@search_zero_rec_len c_layout (demo_dir_drives e) 1000 (demo_dir 0) (demo_dir_blk e) e (replicate 254 0) [46; 46]
    Hf ltac:(done) ltac:(done) ltac:(vm_compute; reflexivity) ltac:(vm_compute; reflexivity) ltac:(demo_entry_ok)
    ltac:(reflexivity) ltac:(done) ltac:(done)).
Defined.
