(* ===== verification/Ports.v ===== *)
(** Port input and output (src/io/mod.rs), the interrupt controllers behind it
    (src/io/pic/mod.rs) and the PS/2 controller (src/io/ps2/mod.rs).

    A port access is one machine instruction.  What is behind the ports is the
    type of a class, [PortBus]: an access takes and returns a state of it. *)

From S2P Require Import Prelude Partitions.

(** * Ports *)

(** A port is a [u16]. *)
Definition IOPort : Type := Z.
Definition IMCR_ADDR : IOPort := 0x22.
Definition IMCR_DATA : IOPort := 0x23.
Definition PRIM_ATA : IOPort := 0x1F0.
Definition PRIM_ATA_CTRL : IOPort := 0x3F6.
Definition SEC_ATA : IOPort := 0x170.
Definition SEC_ATA_CTRL : IOPort := 0x376.
(** [Add<u16>]: saturating. *)
Definition IOPort_add (p rhs : Z) : IOPort := Z.min (p + rhs) (2 ^ 16 - 1).

(** The instructions [out] and [in], of 1, 2 and 4 bytes. *)
Class PortBus (D : Type) := {
  out_port : nat → IOPort → Z → D → D;
  in_port : nat → IOPort → D → Z * D
}.
(** What is read has the width of the instruction. *)
Class PortBusLaws (D : Type) `{PortBus D} := {
  in_port_width n p d : in_width (8 * Z.of_nat n) (in_port n p d).1
}.

Section ports.
Context {D : Type} `{PortBus D}.
Definition outb (port : IOPort) (data : Z) (d : D) : D := out_port 1 port data d.
Definition outw (port : IOPort) (data : Z) (d : D) : D := out_port 2 port data d.
Definition outl (port : IOPort) (data : Z) (d : D) : D := out_port 4 port data d.
Definition inb (port : IOPort) (d : D) : Z * D := in_port 1 port d.
Definition inw (port : IOPort) (d : D) : Z * D := in_port 2 port d.
Definition inl (port : IOPort) (d : D) : Z * D := in_port 4 port d.
Definition io_delay (d : D) : D := out_port 1 0x80 0 d.
End ports.
Arguments inb {D H} port d : simpl never.
Arguments inw {D H} port d : simpl never.
Arguments inl {D H} port d : simpl never.

(** * The interrupt controllers *)

Definition DEFAULT_ICW1 : Z := 0x11.
Definition DEFAULT_MASTER_ICW3 : Z := 0x4.
Definition DEFAULT_SLAVE_ICW3 : Z := 0x2.
Definition DEFAULT_ICW4 : Z := 0x1.

Record PIC := { master_cmd_port : Z; master_data_port : Z; slave_cmd_port : Z; slave_data_port : Z }.
Definition PIC_default : PIC :=
  {| master_cmd_port := 0x20; master_data_port := 0x21; slave_cmd_port := 0xA0; slave_data_port := 0xA1 |}.

Section pic.
Context {D : Type} `{PortBus D}.
Implicit Types (p : PIC) (d : D).

Definition remap p (master_offset slave_offset : Z) d : D :=
  let d := outb (master_cmd_port p) DEFAULT_ICW1 d in
  let d := io_delay d in
  let d := outb (slave_cmd_port p) DEFAULT_ICW1 d in
  let d := io_delay d in
  let d := outb (master_data_port p) master_offset d in
  let d := io_delay d in
  let d := outb (slave_data_port p) slave_offset d in
  let d := io_delay d in
  let d := outb (master_data_port p) DEFAULT_MASTER_ICW3 d in
  let d := io_delay d in
  let d := outb (slave_data_port p) DEFAULT_SLAVE_ICW3 d in
  let d := io_delay d in
  let d := outb (master_data_port p) DEFAULT_ICW4 d in
  let d := io_delay d in
  outb (slave_data_port p) DEFAULT_ICW4 d.
Definition mask_slave p (bitmask : Z) d : D := outb (slave_data_port p) bitmask d.
Definition mask_master p (bitmask : Z) d : D := outb (master_data_port p) bitmask d.
Definition acknowledge_master p d : D := outb (master_cmd_port p) 0x20 d.
Definition acknowledge_slave p d : D := outb (slave_cmd_port p) 0x20 d.
Definition acknowledge_all p d : D := acknowledge_slave p (acknowledge_master p d).
End pic.

(** ** What the controllers do

    The 8259A, as its data sheet describes the commands that the kernel uses: a
    byte with bit 4 set at the command port starts the initialisation, during
    which the data port takes the vector offset, the cascade and the mode; after
    it, the data port sets the mask, and the byte [0x20] at the command port ends
    the interrupt of highest priority in service. *)
Inductive icw := Ready | Want2 (icw4 : bool) | Want3 (icw4 : bool) | Want4.
Record chip := { stage : icw; offset : Z; cascade : Z; mode : Z; mask : Z; in_service : Z }.

Definition chip_command (c : chip) (b : Z) : chip :=
  if Z.testbit b 4 then
    {| stage := Want2 (Z.testbit b 0); offset := offset c; cascade := cascade c; mode := 0; mask := 0; in_service := 0 |}
  else if bool_decide (b = 0x20) then
    {| stage := stage c; offset := offset c; cascade := cascade c; mode := mode c; mask := mask c;
       in_service := Z.land (in_service c) (in_service c - 1) |}
  else c.
Definition chip_data (c : chip) (b : Z) : chip :=
  match stage c with
  | Want2 w => {| stage := Want3 w; offset := b; cascade := cascade c; mode := mode c; mask := mask c; in_service := in_service c |}
  | Want3 w => {| stage := if w then Want4 else Ready; offset := offset c; cascade := b; mode := mode c; mask := mask c;
                  in_service := in_service c |}
  | Want4 => {| stage := Ready; offset := offset c; cascade := cascade c; mode := b; mask := mask c; in_service := in_service c |}
  | Ready => {| stage := Ready; offset := offset c; cascade := cascade c; mode := mode c; mask := b; in_service := in_service c |}
  end.
(** The two controllers of a computer; the other ports do nothing here. *)
Definition board : Type := chip * chip.
#[global] Instance board_bus : PortBus board := {|
  out_port n p b d :=
    if bool_decide (p = 0x20) then (chip_command d.1 b, d.2)
    else if bool_decide (p = 0x21) then (chip_data d.1 b, d.2)
    else if bool_decide (p = 0xA0) then (d.1, chip_command d.2 b)
    else if bool_decide (p = 0xA1) then (d.1, chip_data d.2 b)
    else d;
  in_port n p d := (0, d)
|}.

(** A controller that delivers its requests from [o] on. *)
Definition serves (o casc m : Z) (c : chip) : Prop :=
  c = {| stage := Ready; offset := o; cascade := casc; mode := 1; mask := m; in_service := 0 |}.

(** The interrupt controllers are remapped.  Whatever state they are in, an
    initialisation that was left half-way included, [remap] leaves both ready,
    in 8086 mode, each with its vector offset, the slave on line 2 of the master
    and nothing masked; [mask_master] and [mask_slave] then set the masks, and do
    not disturb the rest. *)
Theorem pic_remap_correct master_offset slave_offset m s (d : board) :
  let d1 := remap PIC_default master_offset slave_offset d in
  let d2 := mask_slave PIC_default s (mask_master PIC_default m d1) in
  serves master_offset 4 0 d1.1 ∧ serves slave_offset 2 0 d1.2
  ∧ serves master_offset 4 m d2.1 ∧ serves slave_offset 2 s d2.2.
Proof. destruct d as [c1 c2]. done. Qed.

(** [acknowledge_all] ends one interrupt, the lowest line in service, on each
    controller. *)
Lemma acknowledge_all_board (d : board) :
  let d' := acknowledge_all PIC_default d in
  in_service d'.1 = Z.land (in_service d.1) (in_service d.1 - 1)
  ∧ in_service d'.2 = Z.land (in_service d.2) (in_service d.2 - 1)
  ∧ stage d'.1 = stage d.1 ∧ mask d'.1 = mask d.1 ∧ stage d'.2 = stage d.2 ∧ mask d'.2 = mask d.2.
Proof. destruct d as [c1 c2]. done. Qed.

(** * The PS/2 controller *)

Section ps2.
Context {D : Type} `{PortBus D}.
Implicit Types d : D.
Definition send_data (data : Z) d : D := outb 0x60 data d.
Definition read_ps2 d : Z * D := inb 0x60 d.
Definition send_ps2 (cmd : Z) d : D := outb 0x64 cmd d.
(** The two waits are loops of at most [loops] reads of the status. *)
Fixpoint wait_status (ok : Z → bool) (loops : nat) d : result unit IOError * D :=
  match loops with
  | O => (Err IOTimeout, d)
  | S loops =>
      let '(status_reg, d) := inb 0x64 d in
      if ok status_reg then (Ok (), d) else wait_status ok loops d
  end.
Definition input_wait (loops : Z) d : result unit IOError * D :=
  wait_status (λ s, bool_decide (Z.land s 2 = 0)) (Z.to_nat loops) d.
Definition output_wait (loops : Z) d : result unit IOError * D :=
  wait_status (λ s, bool_decide (Z.land s 1 = 1)) (Z.to_nat loops) d.

(** The status a controller gives at its [i]-th reading. *)
Fixpoint after_reads (i : nat) d : D :=
  match i with O => d | S i => after_reads i (inb 0x64 d).2 end.
Definition nth_status (i : nat) d : Z := (inb 0x64 (after_reads i d)).1.

Lemma wait_status_spec ok loops d :
  match wait_status ok loops d with
  | (Ok _, d') => ∃ i, (i < loops)%nat ∧ ok (nth_status i d) = true ∧ d' = after_reads (S i) d
                       ∧ ∀ j, (j < i)%nat → ok (nth_status j d) = false
  | (Err e, d') => e = IOTimeout ∧ d' = after_reads loops d ∧ ∀ j, (j < loops)%nat → ok (nth_status j d) = false
  end.
Proof.
  revert d. induction loops as [|n IH]; intros d; simpl; [split_and!; [done|done|lia]|].
  destruct (inb 0x64 d) as [s d1] eqn:E. assert (Hs : nth_status 0 d = s) by (unfold nth_status; simpl; by rewrite E).
  assert (HS : ∀ j, nth_status (S j) d = nth_status j d1) by (intros j; unfold nth_status; simpl; by rewrite E).
  destruct (ok s) eqn:Eok.
  - exists O. split_and!; [lia|by rewrite Hs|simpl; by rewrite ?E|lia].
  - specialize (IH d1). destruct (wait_status ok n d1) as [[u|e] d'].
    + destruct IH as (i & Hi & Ho & -> & Hj). exists (S i). split_and!; [lia|by rewrite HS|simpl; by rewrite ?E|].
      intros [|j] Hlt; [by rewrite Hs|rewrite HS; apply Hj; lia].
    + destruct IH as (-> & -> & Hj). split_and!; [done|done|].
      intros [|j] Hlt; [by rewrite Hs|rewrite HS; apply Hj; lia].
Qed.

(** C40: the waits of the PS/2 controller.  [input_wait] returns after the first of at
    most [loops] readings of the status whose bit 1 is clear, having read no
    further, and times out exactly when all of them have it set, after exactly [loops]
    readings; [output_wait] does so for bit 0 set. *)
Theorem ps2_waits loops d : 0 ≤ loops →
  match input_wait loops d with
  | (Ok _, d') => ∃ i, Z.of_nat i < loops ∧ Z.testbit (nth_status i d) 1 = false ∧ d' = after_reads (S i) d
                       ∧ ∀ j, (j < i)%nat → Z.testbit (nth_status j d) 1 = true
  | (Err e, d') => e = IOTimeout ∧ d' = after_reads (Z.to_nat loops) d ∧ ∀ j, Z.of_nat j < loops → Z.testbit (nth_status j d) 1 = true
  end
  ∧ match output_wait loops d with
    | (Ok _, d') => ∃ i, Z.of_nat i < loops ∧ Z.testbit (nth_status i d) 0 = true ∧ d' = after_reads (S i) d
                         ∧ ∀ j, (j < i)%nat → Z.testbit (nth_status j d) 0 = false
    | (Err e, d') => e = IOTimeout ∧ d' = after_reads (Z.to_nat loops) d ∧ ∀ j, Z.of_nat j < loops → Z.testbit (nth_status j d) 0 = false
    end.
Proof.
  intros Hl. unfold input_wait, output_wait.
  assert (H2 : ∀ s, bool_decide (Z.land s 2 = 0) = negb (Z.testbit s 1)).
  { intros s. destruct (Z.testbit s 1) eqn:E; [apply bool_decide_false|apply bool_decide_true].
    - intros H0. apply (f_equal (λ x, Z.testbit x 1)) in H0. by rewrite Z.land_spec, E in H0.
    - apply Z.bits_inj'. intros i Hi. rewrite Z.land_spec, Z.bits_0. destruct (decide (i = 1)) as [->|]; [by rewrite E|].
      change 2 with (2 ^ 1). by rewrite Z.pow2_bits_false, andb_false_r by lia. }
  assert (H1 : ∀ s, bool_decide (Z.land s 1 = 1) = Z.testbit s 0).
  { intros s. pose proof (Z.land_ones s 1 ltac:(lia)) as E. change (Z.ones 1) with 1 in E. change (2 ^ 1) with 2 in E.
    rewrite E, Z.bit0_odd, Zmod_odd. by destruct (Z.odd s). }
  pose proof (wait_status_spec (λ s, bool_decide (Z.land s 2 = 0)) (Z.to_nat loops) d) as Hi.
  pose proof (wait_status_spec (λ s, bool_decide (Z.land s 1 = 1)) (Z.to_nat loops) d) as Ho. split.
  - destruct (wait_status _ _ d) as [[u|e] d'].
    + destruct Hi as (i & Hi & Hs & Hd & Hj). rewrite H2, negb_true_iff in Hs. exists i. split_and!; [lia|done|done|].
      intros j Hlt. specialize (Hj j Hlt). by rewrite H2, negb_false_iff in Hj.
    + destruct Hi as (He & Hd & Hj). split_and!; [done|done|]. intros j Hlt. specialize (Hj j ltac:(lia)). by rewrite H2, negb_false_iff in Hj.
  - destruct (wait_status (λ s, bool_decide (Z.land s 1 = 1)) _ d) as [[u|e] d'].
    + destruct Ho as (i & Ho & Hs & Hd & Hj). rewrite H1 in Hs. exists i. split_and!; [lia|done|done|].
      intros j Hlt. specialize (Hj j Hlt). by rewrite H1 in Hj.
    + destruct Ho as (He & Hd & Hj). split_and!; [done|done|]. intros j Hlt. specialize (Hj j ltac:(lia)). by rewrite H1 in Hj.
Qed.
End ps2.

(** A controller whose input buffer is full for two readings. *)
#[local] Instance counter_bus : PortBus nat := {|
  out_port _ _ _ d := d;
  in_port _ _ d := (if bool_decide (d < 2)%nat then 3 else 1, S d)
|}.
Lemma ps2_waits_witness : input_wait 2 0%nat = (Err IOTimeout, 2%nat) ∧ input_wait 10 0%nat = (Ok (), 3%nat)
  ∧ ∃ i, Z.of_nat i < 10 ∧ Z.testbit (nth_status i 0%nat) 1 = false ∧ 3%nat = after_reads (S i) 0%nat
         ∧ ∀ j, (j < i)%nat → Z.testbit (nth_status j 0%nat) 1 = true.
Proof.
  split; [vm_compute; reflexivity|]. split; [vm_compute; reflexivity|].
  exact (proj1 (ps2_waits 10 0%nat ltac:(lia))).
Defined.
