(* ===== verification/Time.v ===== *)
(** Dates (src/fzboot/time/mod.rs) and the real-time clock
    (src/fzboot/time/rtc.rs). *)

From Stdlib Require Import String.
From S2P Require Import Prelude Ports.
#[local] Open Scope string_scope.
#[local] Open Scope Z_scope.

(** * Dates *)

Inductive Weekday := Monday | Tuesday | Wednesday | Thursday | Friday | Saturday | Sunday.
#[global] Instance Weekday_eq_dec : EqDecision Weekday.
Proof. solve_decision. Defined.

Record DateTime := {
  seconds : Z; minutes : Z; hours : Z; weekday : Weekday; month_day : Z; month : Z; year : Z
}.
#[global] Instance DateTime_eq_dec : EqDecision DateTime.
Proof. solve_decision. Defined.
Definition LINUX_EPOCH : DateTime := {|
  seconds := 0; minutes := 0; hours := 0; weekday := Thursday; month_day := 1; month := 1; year := 1970
|}.

(** ** Formats *)

(** The decimal digits of a number ([Display] of the unsigned integers), and
    [{:02}]. *)
Definition digit (d : Z) : string :=
  match d with
  | 0 => "0" | 1 => "1" | 2 => "2" | 3 => "3" | 4 => "4" | 5 => "5" | 6 => "6" | 7 => "7" | 8 => "8" | _ => "9"
  end.
Fixpoint digits (fuel : nat) (z : Z) : string :=
  match fuel with
  | O => ""
  | S fuel => if bool_decide (z < 10) then digit z else digits fuel (z / 10) ++ digit (z mod 10)
  end.
(** Five digits are enough for a [u16]. *)
Definition dec (z : Z) : string := digits 5 z.
Definition dec02 (z : Z) : string := if bool_decide (z < 10) then "0" ++ dec z else dec z.

Definition format_datetime_iso8601 (t : DateTime) : string :=
  dec (year t) ++ "-" ++ dec02 (month t) ++ "-" ++ dec02 (month_day t) ++ "T" ++ dec02 (hours t) ++ ":"
  ++ dec02 (minutes t) ++ ":" ++ dec02 (seconds t) ++ "Z".
Definition format_time_iso8601 (t : DateTime) : string :=
  "T" ++ dec02 (hours t) ++ ":" ++ dec02 (minutes t) ++ ":" ++ dec02 (seconds t).
Definition format_date_iso8601 (t : DateTime) : string :=
  dec (year t) ++ "-" ++ dec02 (month t) ++ "-" ++ dec02 (month_day t).
Definition weekday_name (w : Weekday) : string :=
  match w with
  | Monday => "Monday" | Tuesday => "Tuesday" | Wednesday => "Wednesday" | Thursday => "Thursday"
  | Friday => "Friday" | Saturday => "Saturday" | Sunday => "Sunday"
  end.
Definition month_name (m : Z) : string :=
  match m with
  | 1 => "January" | 2 => "February" | 3 => "March" | 4 => "April" | 5 => "May" | 6 => "June" | 7 => "July"
  | 8 => "August" | 9 => "September" | 10 => "October" | 11 => "November" | 12 => "December" | _ => ""
  end.
Definition format_longdate (t : DateTime) : string :=
  weekday_name (weekday t) ++ ", " ++ month_name (month t) ++ " " ++ dec (month_day t) ++ ", " ++ dec (year t).
Definition format_shortdate (t : DateTime) : string :=
  dec02 (month t) ++ "/" ++ dec02 (month_day t) ++ "/" ++ dec (year t).
(** The last placeholder is [{02}]: the argument of index 2, without padding. *)
Definition format_longtime (t : DateTime) : string :=
  dec02 (hours t) ++ ":" ++ dec02 (minutes t) ++ ":" ++ dec (seconds t).
Definition format_shorttime (t : DateTime) : string := dec02 (hours t) ++ ":" ++ dec02 (minutes t).

(** * Timestamps *)

Definition SECS_PER_DAY : Z := 86_400.
Definition SECS_PER_HOUR : Z := 3_600.
Definition SECS_PER_MINUTE : Z := 60.
Definition FOUR_YEARS_LEN_IN_SECS : Z := 126_230_400.
Definition DAYS_PER_MONTH : list Z := [
  31; 28; 31; 30; 31; 30; 31; 31; 30; 31; 30; 31; 31; 28; 31; 30; 31; 30; 31; 31; 30; 31; 30; 31;
  31; 29; 31; 30; 31; 30; 31; 31; 30; 31; 30; 31; 31; 28; 31; 30; 31; 30; 31; 31; 30; 31; 30; 31].

(** [UnixTimestamp], a [u64]. *)
Definition raw_seconds (t : Z) : Z := Z.land t (2 ^ 32 - 1) + 2 ^ 32 * Z.land (Z.shiftr t 32) 3.
Definition raw_ns (t : Z) : Z := Z.land (Z.shiftr t 34) (2 ^ 30 - 1).
Definition current_timestamp : Z := 0.
Definition UnixTimestamp_sub (a b : Z) : Z := Z.max 0 (a - b).
Definition UnixTimestamp_div (a b : Z) : outcome Z := if bool_decide (b = 0) then Panicked else Done (a / b).
Definition UnixTimestamp_rem (a b : Z) : outcome Z := if bool_decide (b = 0) then Panicked else Done (a mod b).

(** The loop of [get_current_date_in_block], on the months that are left; an
    index past the table panics. *)
Fixpoint block_loop (rest : list Z) (curr_month day_counter : Z) : outcome (Z * Z) :=
  if bool_decide (0 < day_counter) then
    match rest with
    | [] => Panicked
    | d :: rest =>
        if bool_decide (day_counter ≤ d) then Done (curr_month, day_counter)
        else block_loop rest (curr_month + 1) (day_counter - d)
    end
  else Done (curr_month, day_counter).
Definition get_current_date_in_block (days_passed : Z) : outcome (Z * Z * Z) :=
  '(curr_month, day_counter) ← block_loop DAYS_PER_MONTH 0 days_passed;
  Done (curr_month / 12, curr_month mod 12 + 1, day_counter + 1).

(** [try_into] to an unsigned type of [w] bits, with [expect]. *)
Definition try_into (w z : Z) : outcome Z := if bool_decide (in_width w z) then Done z else Panicked.
(** [From<UnixTimestamp> for DateTime]. *)
Definition DateTime_from_timestamp (t : Z) : outcome DateTime :=
  let full_year_blk_count := raw_seconds t / FOUR_YEARS_LEN_IN_SECS in
  let remaining_secs := raw_seconds t mod FOUR_YEARS_LEN_IN_SECS in
  let days_passed := remaining_secs / SECS_PER_DAY in
  '(year_offset, month, day) ← get_current_date_in_block days_passed;
  let years := year LINUX_EPOCH + year_offset + 4 * full_year_blk_count in
  let seconds := raw_seconds t mod SECS_PER_DAY in
  let hours := seconds / SECS_PER_HOUR in
  let minutes := seconds mod SECS_PER_HOUR / SECS_PER_MINUTE in
  let remaining_secs := (seconds mod SECS_PER_HOUR) mod SECS_PER_MINUTE in
  s ← try_into 8 remaining_secs;
  mi ← try_into 8 minutes;
  h ← try_into 8 hours;
  d ← try_into 8 day;
  mo ← try_into 8 month;
  y ← try_into 16 years;
  Done {| seconds := s; minutes := mi; hours := h; weekday := Monday; month_day := d; month := mo; year := y |}.

(** ** The calendar *)

Definition is_leap (y : Z) : bool :=
  bool_decide (y mod 4 = 0) && (negb (bool_decide (y mod 100 = 0)) || bool_decide (y mod 400 = 0)).
Definition days_in_month (y m : Z) : Z :=
  match m with
  | 2 => if is_leap y then 29 else 28
  | 4 | 6 | 9 | 11 => 30
  | _ => 31
  end.
(** The number of days of the [n] years from [y] on, and of the first [n] months
    of a year. *)
Fixpoint days_of_years (n : nat) (y : Z) : Z :=
  match n with O => 0 | S n => (if is_leap y then 366 else 365) + days_of_years n (y + 1) end.
Fixpoint days_of_months (n : nat) (y : Z) : Z :=
  match n with O => 0 | S n => days_of_months n y + days_in_month y (Z.of_nat n + 1) end.
(** Days from 1970-01-01 to a date. *)
Definition day_number (y m d : Z) : Z :=
  days_of_years (Z.to_nat (y - 1970)) 1970 + days_of_months (Z.to_nat (m - 1)) y + (d - 1).

(** A block of four years, day by day: the conversion is checked on each. *)
Definition block_ok (r : Z) : bool :=
  match get_current_date_in_block r with
  | Done (yo, m, d) =>
      bool_decide (0 ≤ yo < 4 ∧ 1 ≤ m ≤ 12 ∧ 1 ≤ d ≤ days_in_month (1970 + yo) m + 1
        ∧ days_of_years (Z.to_nat yo) 1970 + days_of_months (Z.to_nat (m - 1)) (1970 + yo) + (d - 1) = r)
  | _ => false
  end.
Lemma block_checked : forallb (λ r, block_ok (Z.of_nat r)) (seq 0 1461) = true.
Proof. vm_compute. reflexivity. Qed.
(** The first day of 2100, which is not a leap year: until then every block of
    four years from 1970 is like the first one. *)
Definition END_2099 : Z := 47482.
Lemma leap_checked : forallb (λ n, Bool.eqb (is_leap (1970 + Z.of_nat n)) (bool_decide (n mod 4 = 2)%nat)) (seq 0 130) = true.
Proof. vm_compute. reflexivity. Qed.
Lemma leap_block y : 1970 ≤ y < 2100 → is_leap y = bool_decide ((y - 1970) mod 4 = 2).
Proof.
  intros Hy. pose proof leap_checked as Hc. rewrite forallb_forall in Hc. specialize (Hc (Z.to_nat (y - 1970))).
  rewrite in_seq, Bool.eqb_true_iff in Hc. specialize (Hc ltac:(lia)). replace (1970 + Z.of_nat (Z.to_nat (y - 1970))) with y in Hc by lia.
  rewrite Hc. apply bool_decide_ext. rewrite <- Nat2Z.inj_iff, Nat2Z.inj_mod, Z2Nat.id by lia. done.
Qed.
Lemma days_of_years_add n k y : days_of_years (n + k) y = days_of_years n y + days_of_years k (y + Z.of_nat n).
Proof.
  revert y. induction n as [|n IH]; intros y; simpl; [by rewrite Z.add_0_r|]. rewrite IH.
  replace (y + 1 + Z.of_nat n) with (y + Z.of_nat (S n)) by lia. lia.
Qed.
Lemma days_of_years_same n y y' : (∀ i, 0 ≤ i < Z.of_nat n → is_leap (y + i) = is_leap (y' + i)) →
  days_of_years n y = days_of_years n y'.
Proof.
  revert y y'. induction n as [|n IH]; intros y y' Hi; simpl; [done|]. f_equal.
  - specialize (Hi 0 ltac:(lia)). rewrite !Z.add_0_r in Hi. by rewrite Hi.
  - apply IH. intros i Hi'. rewrite <- !Z.add_assoc. apply Hi. lia.
Qed.
Lemma block_leap y q : 0 ≤ q → 1970 ≤ y → y + 4 * q < 2100 → is_leap (y + 4 * q) = is_leap y.
Proof.
  intros Hq Hy Hlt. rewrite !leap_block by lia. apply bool_decide_ext.
  replace (y + 4 * q - 1970) with ((y - 1970) + q * 4) by lia. by rewrite Z_mod_plus_full.
Qed.
Lemma days_of_blocks (q : nat) : 4 * Z.of_nat q ≤ 130 → days_of_years (4 * q) 1970 = 1461 * Z.of_nat q.
Proof.
  induction q as [|q IH]; intros Hq; [done|]. replace (4 * S q)%nat with (4 * q + 4)%nat by lia.
  rewrite days_of_years_add, IH by lia. rewrite (days_of_years_same 4 _ 1970).
  - change (days_of_years 4 1970) with 1461. lia.
  - intros i Hi. replace (1970 + Z.of_nat (4 * q) + i) with (1970 + i + 4 * Z.of_nat q) by lia. apply block_leap; lia.
Qed.
Lemma days_in_month_same y y' m : is_leap y = is_leap y' → days_in_month y m = days_in_month y' m.
Proof. intros E. unfold days_in_month. by rewrite E. Qed.
Lemma days_of_months_same n y y' : is_leap y = is_leap y' → days_of_months n y = days_of_months n y'.
Proof. intros E. induction n as [|n IH]; simpl; [done|]. rewrite IH. f_equal. by apply days_in_month_same. Qed.

Lemma block_correct q r yo m d : 0 ≤ q → 0 ≤ r < 1461 → 1461 * q + r < END_2099 →
  get_current_date_in_block r = Done (yo, m, d) → let y := 1970 + yo + 4 * q in
  1 ≤ m ≤ 12 ∧ 1 ≤ d ≤ days_in_month y m + 1 ∧ day_number y m d = 1461 * q + r.
Proof.
  intros Hq Hr Hlt E y. unfold END_2099 in *. pose proof block_checked as Hc. rewrite forallb_forall in Hc.
  specialize (Hc (Z.to_nat r)). rewrite in_seq, Z2Nat.id in Hc by lia. specialize (Hc ltac:(lia)). unfold block_ok in Hc.
  rewrite E in Hc. apply bool_decide_eq_true in Hc. destruct Hc as (Hyo & Hm & Hd & Hday).
  assert (Hy : y < 2100).
  { unfold y. destruct (decide (q < 32)); [lia|]. assert (q = 32) as -> by lia. assert (r < 730) by lia.
    destruct (decide (yo < 2)); [lia|]. assert (730 ≤ days_of_years (Z.to_nat yo) 1970) by (assert (yo = 2 ∨ yo = 3) as [->| ->] by lia; by vm_compute).
    assert (0 ≤ days_of_months (Z.to_nat (m - 1)) (1970 + yo)); [|lia]. generalize (Z.to_nat (m - 1)). intros k.
    induction k as [|k IH]; simpl; [done|]. assert (0 ≤ days_in_month (1970 + yo) (Z.of_nat k + 1)); [|lia].
    unfold days_in_month. repeat case_match; done. }
  assert (El : is_leap y = is_leap (1970 + yo)) by (apply block_leap; lia).
  split_and!; [lia|lia|lia|rewrite (days_in_month_same _ _ _ El); lia|]. unfold day_number.
  rewrite (days_of_months_same _ _ _ El). replace (Z.to_nat (y - 1970)) with (4 * Z.to_nat q + Z.to_nat yo)%nat by (unfold y; lia).
  rewrite days_of_years_add, days_of_blocks by lia. rewrite (days_of_years_same (Z.to_nat yo) _ 1970).
  - lia.
  - intros i Hi. replace (1970 + Z.of_nat (4 * Z.to_nat q) + i) with (1970 + i + 4 * q) by lia. apply block_leap; unfold y in *; lia.
Qed.
(** The block does not panic on any day. *)
Lemma block_total : forallb (λ r, match get_current_date_in_block (Z.of_nat r) with
    | Done (yo, m, d) => bool_decide (0 ≤ yo < 4 ∧ 1 ≤ m ≤ 12 ∧ 1 ≤ d ≤ 32 ∧ (d = 1 ↔ r = 0%nat)) | _ => false end) (seq 0 1461) = true.
Proof. vm_compute. reflexivity. Qed.

Lemma raw_seconds_range t : 0 ≤ raw_seconds t < 2 ^ 34.
Proof.
  unfold raw_seconds. change (2 ^ 32 - 1) with (Z.ones 32). change 3 with (Z.ones 2). rewrite !Z.land_ones by lia.
  pose proof (Z.mod_pos_bound t (2 ^ 32) ltac:(lia)). pose proof (Z.mod_pos_bound (Z.shiftr t 32) (2 ^ 2) ltac:(lia)). lia.
Qed.
Lemma try_into_ok w z : in_width w z → try_into w z = Done z.
Proof. intros Hz. unfold try_into. by rewrite bool_decide_true. Qed.

(** The seconds as the documentation of [UnixTimestamp] has them: the low 32 bits are a signed
    integer, which two more bits widen. *)
Definition documented_seconds (t : Z) : Z :=
  let low := t mod 2 ^ 32 in
  (if bool_decide (low < 2 ^ 31) then low else low - 2 ^ 32) + 2 ^ 32 * Z.land (Z.shiftr t 32) 3.
Lemma raw_documented t : raw_seconds t = documented_seconds t + (if Z.testbit t 31 then 2 ^ 32 else 0).
Proof.
  unfold raw_seconds, documented_seconds. change (2 ^ 32 - 1) with (Z.ones 32). rewrite Z.land_ones by lia.
  rewrite <- (Z.mod_pow2_bits_low t 32 31) by lia. pose proof (Z.mod_pos_bound t (2 ^ 32) ltac:(lia)) as Hl.
  set (low := t mod 2 ^ 32) in *. clearbody low. change (2 ^ 32) with 4294967296 in *. change (2 ^ 31) with 2147483648.
  assert (Hb : Z.testbit low 31 = negb (bool_decide (low < 2147483648))).
  { rewrite Z.testbit_eqb by lia. change (2 ^ 31) with 2147483648. case_bool_decide.
    - by rewrite (Z.div_small low) by lia.
    - assert (low / 2147483648 = 1) as -> by (symmetry; apply (Z.div_unique _ _ _ (low - 2147483648)); lia). done. }
  rewrite Hb. case_bool_decide; simpl; lia.
Qed.

(** C32: timestamps are converted to dates.  The conversion never panics.  It takes the low
    32 bits as unsigned, against their documentation as signed: the seconds that it converts
    are the documented ones when bit 31 is clear, and 2^32 more when it is set.  The time of
    day is the one of these seconds; and until the end of 2099 the date counts their
    days since the epoch, month by month.  The day 1 is only given every 1461 days,
    on the first of January of 1970 and of each fourth year from it: on the first
    of any other month the date is the day after the last of the month before.
    The week day is always Monday. *)
Theorem timestamp_to_date t : ∃ dt, DateTime_from_timestamp t = Done dt
  ∧ raw_seconds t = documented_seconds t + (if Z.testbit t 31 then 2 ^ 32 else 0)
  ∧ (0 ≤ hours dt < 24 ∧ 0 ≤ minutes dt < 60 ∧ 0 ≤ seconds dt < 60
     ∧ hours dt * 3600 + minutes dt * 60 + seconds dt = raw_seconds t mod SECS_PER_DAY)
  ∧ (raw_seconds t / SECS_PER_DAY < END_2099 →
     day_number (year dt) (month dt) (month_day dt) = raw_seconds t / SECS_PER_DAY
     ∧ 1 ≤ month dt ≤ 12 ∧ 1 ≤ month_day dt ≤ days_in_month (year dt) (month dt) + 1)
  ∧ (month_day dt = 1 ↔ (raw_seconds t / SECS_PER_DAY) mod 1461 = 0) ∧ weekday dt = Monday.
Proof.
  rewrite <- raw_documented. pose proof (raw_seconds_range t) as Hs. set (s := raw_seconds t) in *.
  set (q := s / FOUR_YEARS_LEN_IN_SECS). set (r := s mod FOUR_YEARS_LEN_IN_SECS / SECS_PER_DAY).
  assert (Hq : 0 ≤ q < 137) by (unfold q, FOUR_YEARS_LEN_IN_SECS; split; [apply Z.div_pos; lia|apply Z.div_lt_upper_bound; lia]).
  assert (Hr : 0 ≤ r < 1461).
  { unfold r, SECS_PER_DAY. pose proof (Z.mod_pos_bound s FOUR_YEARS_LEN_IN_SECS ltac:(done)) as Hm.
    unfold FOUR_YEARS_LEN_IN_SECS in *. split; [apply Z.div_pos; lia|apply Z.div_lt_upper_bound; lia]. }
  assert (Hd : s / SECS_PER_DAY = 1461 * q + r).
  { unfold q, r, SECS_PER_DAY. change FOUR_YEARS_LEN_IN_SECS with (86_400 * 1461).
    rewrite Z.rem_mul_r, <- Z.div_div by lia. rewrite (Z.add_comm (s mod _)), (Z.mul_comm 86_400), Z.div_add_l by lia.
    rewrite (Z.div_small (s mod _)) by (apply Z.mod_pos_bound; lia). pose proof (Z.div_mod (s / 86_400) 1461). lia. }
  pose proof block_total as Ht. rewrite forallb_forall in Ht. specialize (Ht (Z.to_nat r)). rewrite in_seq, Z2Nat.id in Ht by lia.
  specialize (Ht ltac:(lia)).
  unfold DateTime_from_timestamp. fold s q r. destruct (get_current_date_in_block r) as [[[yo m] d]| | |] eqn:E; try done.
  apply bool_decide_eq_true in Ht. destruct Ht as (Hyo & Hm & Hdd & Hone). cbn [mbind outcome_bind].
  set (sd := s mod SECS_PER_DAY). assert (Hsd : 0 ≤ sd < 86_400) by (apply Z.mod_pos_bound; done).
  unfold SECS_PER_HOUR, SECS_PER_MINUTE. pose proof (Z.div_mod sd 3_600 ltac:(lia)) as E1.
  pose proof (Z.mod_pos_bound sd 3_600 ltac:(lia)) as M1. pose proof (Z.div_mod (sd mod 3_600) 60 ltac:(lia)) as E2.
  pose proof (Z.mod_pos_bound (sd mod 3_600) 60 ltac:(lia)) as M2.
  set (hh := sd / 3_600) in *. set (mm := sd mod 3_600 / 60) in *. set (ss := (sd mod 3_600) mod 60) in *.
  assert (0 ≤ hh < 24 ∧ 0 ≤ mm < 60) as [Hhh Hmm].
  { split; [unfold hh|unfold mm]; (split; [apply Z.div_pos; lia|apply Z.div_lt_upper_bound; lia]). }
  rewrite !try_into_ok by (unfold in_width; simpl; lia). cbn [mbind outcome_bind].
  eexists. split; [done|]. cbn [hours minutes seconds year month month_day weekday]. split_and!; try lia; [| |done].
  2: { rewrite Hd, Z.add_comm, Z.mul_comm, Z_mod_plus_full, Z.mod_small by lia. rewrite Hone. lia. }
  intros Hlt. rewrite Hd in Hlt |- *. change (year LINUX_EPOCH) with 1970.
  pose proof (block_correct q r yo m d ltac:(lia) Hr Hlt E). naive_solver.
Qed.

(** The first of a month that is not the first of a block. *)
Example first_of_month : DateTime_from_timestamp (31 * 86_400) = Done
  {| seconds := 0; minutes := 0; hours := 0; weekday := Monday; month_day := 32; month := 1; year := 1970 |}.
Proof. vm_compute. reflexivity. Qed.

(** * The real-time clock *)

Section rtc.
Context {D : Type} `{PortBus D}.
Implicit Types d : D.

Definition cmos_read (registry : Z) d : Z * D :=
  let d := outb 0x70 registry d in
  let d := io_delay d in
  inb 0x71 d.
Definition rtc_update d : bool * D :=
  let '(stat_reg_a, d) := cmos_read 0xa d in
  (bool_decide (Z.land stat_reg_a (Z.shiftl 1 7) ≠ 0), d).
Definition cmos_rtc_read d : list Z * D :=
  let '(seconds, d) := cmos_read 0x00 d in
  let '(minutes, d) := cmos_read 0x02 d in
  let '(hours, d) := cmos_read 0x04 d in
  let '(week_day, d) := cmos_read 0x06 d in
  let '(month_day, d) := cmos_read 0x07 d in
  let '(month, d) := cmos_read 0x08 d in
  let '(year, d) := cmos_read 0x09 d in
  ([seconds; minutes; hours; week_day; month_day; month; year], d).

(** The two loops of [rtc_read]: waiting for the end of an update, and reading
    until two readings agree. *)
Fixpoint wait_update (fuel : nat) d : outcome D :=
  match fuel with
  | O => NoFuel
  | S fuel => let '(busy, d) := rtc_update d in if busy : bool then wait_update fuel d else Done d
  end.
Fixpoint settle (fuel : nat) (last_time time : list Z) d : outcome (list Z * D) :=
  match fuel with
  | O => NoFuel
  | S fuel =>
      if bool_decide (last_time ≠ time) then
        d ← wait_update fuel d;
        let '(time', d) := cmos_rtc_read d in
        settle fuel time time' d
      else Done (time, d)
  end.

Definition from_bcd (x : Z) : Z := u8 (Z.shiftr x 4 * 10 + Z.land x 0x0f).
Definition weekday_of (w : Z) : Weekday :=
  match w with
  | 1 => Sunday | 2 => Monday | 3 => Tuesday | 4 => Wednesday | 5 => Thursday | 6 => Friday | 7 => Saturday
  | _ => Monday
  end.
(** What [rtc_read] makes of the seven bytes, given the two readings of status
    register B. *)
Definition rtc_decode (sb1 sb2 : Z) (time : list Z) : DateTime :=
  let get i := default 0 (time !! i) in
  let bcd := bool_decide (Z.land sb1 0x4 = 0) in
  let conv x := if bcd then from_bcd x else x in
  let h := conv (get 2%nat) in
  let h := if bool_decide (Z.land sb2 0x2 = 0) && bool_decide (Z.land h 0x80 ≠ 0) then u8 (Z.land h 0x7f + 12) mod 24 else h in
  {| seconds := conv (get 0%nat); minutes := conv (get 1%nat); hours := h; weekday := weekday_of (get 3%nat);
     month_day := conv (get 4%nat); month := conv (get 5%nat); year := 2000 + conv (get 6%nat) |}.
Definition rtc_read (fuel : nat) d : outcome (DateTime * D) :=
  d ← wait_update fuel d;
  let '(time, d) := cmos_rtc_read d in
  '(time, d) ← settle fuel (replicate 7 0) time d;
  let '(sb1, d) := cmos_read 0xb d in
  let '(sb2, d) := cmos_read 0xb d in
  Done (rtc_decode sb1 sb2 time, d).

(** ** A reading is consistent *)

(** No update was in progress at [d0], where the reading that ends in [d'] began. *)
Definition quiet_reading (t : list Z) (d' : D) : Prop :=
  ∃ fuel d d0, wait_update fuel d = Done d0 ∧ cmos_rtc_read d0 = (t, d').
(** The same bytes were read twice in a row. *)
Definition read_twice (t : list Z) (d' : D) : Prop :=
  ∃ fuel d1 d2, quiet_reading t d1 ∧ wait_update fuel d1 = Done d2 ∧ cmos_rtc_read d2 = (t, d').
Lemma settle_spec fuel last time d t d' : quiet_reading time d →
  (last = time → read_twice time d ∨ time = replicate 7 0) →
  settle fuel last time d = Done (t, d') → read_twice t d' ∨ (t = replicate 7 0 ∧ quiet_reading t d').
Proof.
  revert last time d. induction fuel as [|fuel IH]; intros last time d Hq Hl; simpl; [done|].
  case_bool_decide as Hne.
  - intros E. inv_done. destruct (cmos_rtc_read _) as [time' d2] eqn:Er. eapply IH; [| |exact E].
    + eexists _, _, _. split; [eassumption|done].
    + intros ->. left. eexists _, d, _. split_and!; [done|eassumption|done].
  - intros [= <- <-]. destruct (decide (last = time)) as [->|Hd]; [|by destruct Hne].
    destruct (Hl eq_refl) as [?|?]; auto.
Qed.
(** The clock is read consistently.  The date [rtc_read] returns is decoded from
    seven bytes that were read twice in a row, each time with no update in
    progress at the start of the reading; only seven bytes 0 are not read twice. *)
Theorem rtc_read_consistent fuel d dt d' : rtc_read fuel d = Done (dt, d') → ∃ t d1,
  (read_twice t d1 ∨ (t = replicate 7 0 ∧ quiet_reading t d1))
  ∧ let '(sb1, d2) := cmos_read 0xb d1 in let '(sb2, d3) := cmos_read 0xb d2 in dt = rtc_decode sb1 sb2 t ∧ d' = d3.
Proof.
  unfold rtc_read. intros E. apply outcome_bind_Done in E as (d0 & E0 & E). destruct (cmos_rtc_read d0) as [t0 d1] eqn:E1.
  apply outcome_bind_Done in E as ([t d2] & E2 & E). exists t, d2. split.
  - eapply settle_spec; [| |exact E2]; [by eexists _, _, _|]. intros <-. by right.
  - destruct (cmos_read 0xb d2) as [sb1 d3]. destruct (cmos_read 0xb d3) as [sb2 d4]. by injection E as <- <-.
Qed.
End rtc.

(** ** A clock *)

(** A clock whose registers do not change: a byte written to port 0x70 selects a
    register, port 0x71 reads it. *)
Record clock := { selected : Z; registers : Z → Z }.
#[global] Instance clock_bus : PortBus clock := {|
  out_port _ p b c := if bool_decide (p = 0x70) then {| selected := b; registers := registers c |} else c;
  in_port _ p c := (if bool_decide (p = 0x71) then registers c (selected c) else 0, c)
|}.
Definition to_bcd (x : Z) : Z := x / 10 * 16 + x mod 10.
(** The hours register of a 12-hour clock: 1 to 12, with bit 7 in the afternoon. *)
Definition hour12 (h : Z) : Z := if bool_decide (h mod 12 = 0) then 12 else h mod 12.
Definition hour_reg (bcd h24 : bool) (h : Z) : Z :=
  let enc x := if bcd then to_bcd x else x in
  if h24 then enc h else enc (hour12 h) + (if bool_decide (12 ≤ h) then 0x80 else 0).
Definition weekday_reg (w : Weekday) : Z :=
  match w with
  | Sunday => 1 | Monday => 2 | Tuesday => 3 | Wednesday => 4 | Thursday => 5 | Friday => 6 | Saturday => 7
  end.
(** The registers that show the date [t]. *)
Definition shows (bcd h24 : bool) (t : DateTime) (r : Z → Z) : Prop :=
  let enc x := if bcd then to_bcd x else x in
  r 0x00 = enc (seconds t) ∧ r 0x02 = enc (minutes t) ∧ r 0x04 = hour_reg bcd h24 (hours t)
  ∧ r 0x06 = weekday_reg (weekday t) ∧ r 0x07 = enc (month_day t) ∧ r 0x08 = enc (month t) ∧ r 0x09 = enc (year t - 2000)
  ∧ r 0xa = 0 ∧ r 0xb = (if bcd then 0 else 4) + (if h24 then 2 else 0).
(** The hour that is read. *)
Definition hour_read (bcd h24 : bool) (h : Z) : Z :=
  if h24 then h
  else if bool_decide (h < 12) then hour12 h
  else if bcd then hour12 h + 80 else (hour12 h + 12) mod 24.

Lemma cmos_read_clock r c : cmos_read r c = (registers c r, {| selected := r; registers := registers c |}).
Proof. done. Qed.
Lemma bcd_checked : forallb (λ n, bool_decide (from_bcd (to_bcd (Z.of_nat n)) = Z.of_nat n)) (seq 0 100) = true.
Proof. vm_compute. reflexivity. Qed.
Lemma from_to_bcd x : 0 ≤ x < 100 → from_bcd (to_bcd x) = x.
Proof.
  intros Hx. pose proof bcd_checked as Hc. rewrite forallb_forall in Hc. specialize (Hc (Z.to_nat x)).
  rewrite in_seq, Z2Nat.id in Hc by lia.
  ospecialize (Hc _); [lia|]. by apply bool_decide_eq_true in Hc.
Qed.
Lemma hours_checked : forallb (λ n, forallb (λ bcd : bool, forallb (λ h24 : bool, let sb := (if bcd then 0 else 4) + (if h24 then 2 else 0) in
    bool_decide (hours (rtc_decode sb sb [0; 0; hour_reg bcd h24 (Z.of_nat n); 0; 0; 0; 0]) = hour_read bcd h24 (Z.of_nat n)))
    [true; false]) [true; false]) (seq 0 24) = true.
Proof. vm_compute. reflexivity. Qed.
Lemma hours_decoded (bcd h24 : bool) h t0 t1 t3 t4 t5 t6 : 0 ≤ h < 24 → let sb := (if bcd then 0 else 4) + (if h24 then 2 else 0) in
  hours (rtc_decode sb sb [t0; t1; hour_reg bcd h24 h; t3; t4; t5; t6]) = hour_read bcd h24 h.
Proof.
  intros Hh. pose proof hours_checked as Hc. rewrite forallb_forall in Hc. specialize (Hc (Z.to_nat h)).
  rewrite in_seq, Z2Nat.id in Hc by lia. ospecialize (Hc _); [lia|]. rewrite forallb_forall in Hc.
  specialize (Hc bcd ltac:(destruct bcd; simpl; auto)). rewrite forallb_forall in Hc.
  specialize (Hc h24 ltac:(destruct h24; simpl; auto)). apply bool_decide_eq_true in Hc. exact Hc.
Qed.

(** The date on the clock is the one that is read.  On a clock that shows a date
    of this century, in either number format, [rtc_read] returns it with two
    readings, its hour included when the clock counts 24 hours.  On a 12-hour
    clock only the hours from 1 to 11, and those of the afternoon in binary, are
    read as they are: midnight is read as 12, noon as 0 in binary, and in BCD an
    hour of the afternoon as the hour plus 80. *)
Theorem rtc_read_exact (bcd h24 : bool) t c : shows bcd h24 t (registers c) →
  0 ≤ seconds t < 60 → 0 ≤ minutes t < 60 → 0 ≤ hours t < 24 → 1 ≤ month_day t ≤ 31 → 1 ≤ month t ≤ 12 →
  2000 ≤ year t < 2100 → ∃ c', rtc_read 3 c = Done (
    {| seconds := seconds t; minutes := minutes t; hours := hour_read bcd h24 (hours t); weekday := weekday t;
       month_day := month_day t; month := month t; year := year t |}, c').
Proof.
  intros (R0 & R2 & R4 & R6 & R7 & R8 & R9 & RA & RB) Hs Hm Hh Hd Hmo Hy.
  assert (Hup : ∀ s, rtc_update {| selected := s; registers := registers c |} = (false, {| selected := 0xa; registers := registers c |})).
  { intros s. unfold rtc_update. rewrite cmos_read_clock. simpl registers. by rewrite RA. }
  assert (Hrd : ∀ s, ∃ s', cmos_rtc_read {| selected := s; registers := registers c |}
    = ([registers c 0; registers c 2; registers c 4; registers c 6; registers c 7; registers c 8; registers c 9],
       {| selected := s'; registers := registers c |})) by (intros s; by eexists).
  destruct c as [s0 r]. simpl in *. set (tt := [r 0; r 2; r 4; r 6; r 7; r 8; r 9]) in *.
  unfold rtc_read. cbn [wait_update]. rewrite Hup. cbn [mbind outcome_bind]. destruct (Hrd 0xa) as (s1 & ->).
  assert (Hset : ∃ s2, settle 3 (replicate 7 0) tt {| selected := s1; registers := r |} = Done (tt, {| selected := s2; registers := r |})).
  { cbn [settle]. case_bool_decide; [|by eexists]. cbn [wait_update]. rewrite Hup. cbn [mbind outcome_bind].
    destruct (Hrd 0xa) as (s2 & ->). rewrite bool_decide_false by naive_solver. by eexists. }
  destruct Hset as (s2 & ->). cbn [mbind outcome_bind]. rewrite !cmos_read_clock. simpl registers. eexists. f_equal. f_equal.
  pose proof (hours_decoded bcd h24 (hours t) (r 0) (r 2) (r 6) (r 7) (r 8) (r 9) Hh) as Hhr. cbv zeta in Hhr.
  rewrite <- RB, <- R4 in Hhr. fold tt in Hhr. rewrite <- Hhr. unfold rtc_decode at 1. f_equal; simpl.
  all: rewrite ?RB, ?R0, ?R2, ?R6, ?R7, ?R8, ?R9; destruct bcd, h24; simpl; rewrite ?from_to_bcd by lia; try done; try lia.
  all: by destruct (weekday t).
Qed.

Definition sample_date : DateTime :=
  {| seconds := 18; minutes := 43; hours := 15; weekday := Tuesday; month_day := 7; month := 8; year := 2023 |}.
Definition sample_clock : clock := {| selected := 0; registers r :=
  match r with
  | 0 => 0x18 | 2 => 0x43 | 4 => 0x83 | 6 => 3 | 7 => 0x07 | 8 => 0x08 | 9 => 0x23 | _ => 0
  end |}.
(** Three in the afternoon on a 12-hour BCD clock is read as 83 hours. *)
Lemma rtc_read_exact_witness : ∃ c', rtc_read 3 sample_clock = Done (
  {| seconds := 18; minutes := 43; hours := 83; weekday := Tuesday; month_day := 7; month := 8; year := 2023 |}, c').
Proof.
  assert (H0 : shows true false sample_date (registers sample_clock)) by (repeat split).
  apply (rtc_read_exact true false sample_date sample_clock H0); simpl; lia.
Defined.
Lemma rtc_read_consistent_witness : ∃ t d1, read_twice t d1 ∨ (t = replicate 7 0 ∧ quiet_reading t d1).
Proof.
  destruct (rtc_read 3 sample_clock) as [[dt c']| | |] eqn:E; [|exfalso; vm_compute in E; discriminate..].
  destruct (rtc_read_consistent 3 sample_clock dt c' E) as (t & d1 & Ht & _). exists t, d1. exact Ht.
Defined.
