(* ===== verification/Pci.v ===== *)
(** PCI configuration space, device headers, base address registers and the
    enumeration of devices (src/drivers/pci/{mod,device}.rs), over the ports of
    Ports.v. *)

From S2P Require Import Prelude Partitions Ports PciClass.

(** * Headers *)

Record PCICommonHeader := {
  vendor_id : Z; device_id : Z; command : Z; status : Z; revision_id : Z; prog_if : Z; subclass : Z;
  class_code : Z; cache_line_size : Z; latency_timer : Z; header_type : Z; bist : Z
}.
Definition common_layout : list nat := [2; 2; 2; 2; 1; 1; 1; 1; 1; 1; 1; 1]%nat.

Record PCIHeaderType0 := {
  t0_bar_0 : Z; t0_bar_1 : Z; t0_bar_2 : Z; t0_bar_3 : Z; t0_bar_4 : Z; t0_bar_5 : Z; t0_cardbus_cis_ptr : Z;
  t0_subsystem_vendor_id : Z; t0_subsystem_id : Z; t0_rom_base_addr : Z; t0_cap_ptr : Z; t0_reserved1 : Z;
  t0_reserved2 : Z; t0_reserved3 : Z; t0_interrupt_line : Z; t0_interrupt_pin : Z; t0_min_grant : Z; t0_max_latency : Z
}.
Definition type0_layout : list nat := [4; 4; 4; 4; 4; 4; 4; 2; 2; 4; 1; 1; 2; 4; 1; 1; 1; 1]%nat.

Record PCIHeaderType1 := {
  t1_bar_0 : Z; t1_bar_1 : Z; primary_bus : Z; secondary_bus : Z; subordinate_bus : Z; secondary_latency : Z;
  io_base : Z; io_limit : Z; t1_secondary_status : Z; memory_base : Z; memory_limit : Z; prefetchable_memory_base : Z;
  prefetchable_memory_limit : Z; prefetchable_base_hi : Z; prefetchable_limit_hi : Z; io_base_hi : Z; io_limit_hi : Z;
  t1_cap : Z; t1_reserved1 : Z; t1_reserved2 : Z; expansion_rom_base_addr : Z; t1_interrupt_line : Z;
  t1_interrupt_pin : Z; bridge_control : Z
}.
Definition type1_layout : list nat := [4; 4; 1; 1; 1; 1; 1; 1; 2; 2; 2; 2; 2; 4; 4; 2; 2; 1; 1; 2; 4; 1; 1; 2]%nat.

Record PCIHeaderType2 := {
  cardbus_sock_base_addr : Z; offset_cap_list : Z; t2_reserved1 : Z; t2_secondary_status : Z; pci_bus_number : Z;
  cardbus_bus_number : Z; subordinate_bus_number : Z; cardbus_latency_timer : Z; mem_base_addr_0 : Z; mem_limit_0 : Z;
  mem_base_addr_1 : Z; mem_limit_1 : Z; io_base_addr_0 : Z; io_limit_0 : Z; io_base_addr_1 : Z; io_limit_1 : Z;
  t2_interrupt_line : Z; t2_interrupt_pin : Z; bridge_ctrl : Z; subsystem_device_id : Z; t2_subsystem_vendor_id : Z;
  legacy_mode_base_addr : Z
}.
Definition type2_layout : list nat := [4; 1; 1; 2; 1; 1; 1; 1; 4; 4; 4; 4; 4; 4; 4; 4; 1; 1; 2; 2; 2; 4]%nat.

Inductive PCIHeaderVar :=
  | Type0 (h : PCIHeaderType0)
  | Type1 (h : PCIHeaderType1)
  | Type2 (h : PCIHeaderType2).
Record PCIHeader := { common : PCICommonHeader; var : PCIHeaderVar }.

(** [mem::transmute] of an array of [u32]: the structures are [repr(C)], without
    padding. *)
Definition fields_of (layout : list nat) (longs : list Z) : nat → Z :=
  λ i, nth i (decode_fields layout (concat (map (le_bytes 4) longs))) 0.
Definition common_of (longs : list Z) : PCICommonHeader :=
  let f := fields_of common_layout longs in
  {| vendor_id := f 0%nat; device_id := f 1%nat; command := f 2%nat; status := f 3%nat; revision_id := f 4%nat;
     prog_if := f 5%nat; subclass := f 6%nat; class_code := f 7%nat; cache_line_size := f 8%nat;
     latency_timer := f 9%nat; header_type := f 10%nat; bist := f 11%nat |}.
Definition type0_of (longs : list Z) : PCIHeaderType0 :=
  let f := fields_of type0_layout longs in
  {| t0_bar_0 := f 0%nat; t0_bar_1 := f 1%nat; t0_bar_2 := f 2%nat; t0_bar_3 := f 3%nat; t0_bar_4 := f 4%nat;
     t0_bar_5 := f 5%nat; t0_cardbus_cis_ptr := f 6%nat; t0_subsystem_vendor_id := f 7%nat; t0_subsystem_id := f 8%nat;
     t0_rom_base_addr := f 9%nat; t0_cap_ptr := f 10%nat; t0_reserved1 := f 11%nat; t0_reserved2 := f 12%nat;
     t0_reserved3 := f 13%nat; t0_interrupt_line := f 14%nat; t0_interrupt_pin := f 15%nat; t0_min_grant := f 16%nat;
     t0_max_latency := f 17%nat |}.
Definition type1_of (longs : list Z) : PCIHeaderType1 :=
  let f := fields_of type1_layout longs in
  {| t1_bar_0 := f 0%nat; t1_bar_1 := f 1%nat; primary_bus := f 2%nat; secondary_bus := f 3%nat;
     subordinate_bus := f 4%nat; secondary_latency := f 5%nat; io_base := f 6%nat; io_limit := f 7%nat;
     t1_secondary_status := f 8%nat; memory_base := f 9%nat; memory_limit := f 10%nat;
     prefetchable_memory_base := f 11%nat; prefetchable_memory_limit := f 12%nat; prefetchable_base_hi := f 13%nat;
     prefetchable_limit_hi := f 14%nat; io_base_hi := f 15%nat; io_limit_hi := f 16%nat; t1_cap := f 17%nat;
     t1_reserved1 := f 18%nat; t1_reserved2 := f 19%nat; expansion_rom_base_addr := f 20%nat;
     t1_interrupt_line := f 21%nat; t1_interrupt_pin := f 22%nat; bridge_control := f 23%nat |}.
Definition type2_of (longs : list Z) : PCIHeaderType2 :=
  let f := fields_of type2_layout longs in
  {| cardbus_sock_base_addr := f 0%nat; offset_cap_list := f 1%nat; t2_reserved1 := f 2%nat;
     t2_secondary_status := f 3%nat; pci_bus_number := f 4%nat; cardbus_bus_number := f 5%nat;
     subordinate_bus_number := f 6%nat; cardbus_latency_timer := f 7%nat; mem_base_addr_0 := f 8%nat;
     mem_limit_0 := f 9%nat; mem_base_addr_1 := f 10%nat; mem_limit_1 := f 11%nat; io_base_addr_0 := f 12%nat;
     io_limit_0 := f 13%nat; io_base_addr_1 := f 14%nat; io_limit_1 := f 15%nat; t2_interrupt_line := f 16%nat;
     t2_interrupt_pin := f 17%nat; bridge_ctrl := f 18%nat; subsystem_device_id := f 19%nat;
     t2_subsystem_vendor_id := f 20%nat; legacy_mode_base_addr := f 21%nat |}.

Definition is_present (h : PCIHeader) : bool := bool_decide (vendor_id (common h) ≠ 0xffff).
Definition is_multifunction (h : PCIHeader) : bool := bool_decide (Z.land (header_type (common h)) 0x80 ≠ 0).

(** * Devices *)

Definition BAR_32_WIDTH : Z := 0x00.
Definition BAR_64_WIDTH : Z := 0x02.

(** The buffer of a mapped memory is its address and its length. *)
Record PCIMappedMemory := { mem_base : Z; mem_len : Z; width : Z }.
Inductive MappedRegister :=
  | Memory (mem : PCIMappedMemory)
  | IO (port : Z)
  | Unavailable.
Record PCIDevice := {
  class : DeviceClass; registers : list MappedRegister; eprom : option PCIMappedMemory;
  bus : Z; device : Z; function : Z
}.

(** The address that selects a register; [offset] counts in units of four bytes. *)
Definition config_address (bus device func offset : Z) : Z :=
  Z.lor (Z.lor (Z.lor (Z.lor 0x80000000 (Z.shiftl bus 16)) (Z.shiftl device 11)) (Z.shiftl func 8))
    (Z.land (u32 (Z.shiftl offset 2)) 0xfc).

Section pci.
Context {D : Type} `{PortBus D}.
Implicit Types d : D.

Definition pci_read_long (bus device func offset : Z) d : Z * D :=
  let d := outl 0xcf8 (config_address bus device func offset) d in
  inl 0xcfc d.
Definition pci_write_long (bus device func offset data : Z) d : D :=
  let d := outl 0xcf8 (config_address bus device func offset) d in
  outl 0xcfc data d.

(** [for_each] over the [n] registers from [first] on. *)
Fixpoint read_longs (bus device func first : Z) (n : nat) d : list Z * D :=
  match n with
  | O => ([], d)
  | S n =>
      let '(x, d) := pci_read_long bus device func first d in
      let '(xs, d) := read_longs bus device func (u8 (first + 1)) n d in
      (x :: xs, d)
  end.
Definition PCIHeader_read (bus device function : Z) d : PCIHeader * D :=
  let '(conf_header, d) := read_longs bus device function 0 4 d in
  let common := common_of conf_header in
  let kind := Z.land (header_type common) 0x7f in
  if bool_decide (kind = 2) then
    let '(var_header, d) := read_longs bus device function 4 14 d in
    ({| common := common; var := Type2 (type2_of var_header) |}, d)
  else if bool_decide (kind = 1) then
    let '(var_header, d) := read_longs bus device function 4 12 d in
    ({| common := common; var := Type1 (type1_of var_header) |}, d)
  else
    let '(var_header, d) := read_longs bus device function 4 12 d in
    ({| common := common; var := Type0 (type0_of var_header) |}, d).

Definition from_bar (bus device function bar_offset : Z) d : MappedRegister * D :=
  let entry_offset := u8 (16 / 4 + u8 bar_offset) in
  let '(bar, d) := pci_read_long bus device function entry_offset d in
  if bool_decide (bar = 0) || bool_decide (bar = 0xFFFFFFFF) then (Unavailable, d)
  else if bool_decide (Z.land bar 1 = 1) then (IO (u16 (Z.land bar 0xfffe)), d)
  else
    let reg_size := Z.land (Z.shiftr bar 1) 3 in
    if bool_decide (reg_size = BAR_32_WIDTH) then
      let d := pci_write_long bus device function entry_offset 0xFFFFFFFF d in
      let '(bar_size, d) := pci_read_long bus device function entry_offset d in
      let bar_size := Z.land bar_size (not_w 32 0xf) in
      let seg_size := u32 (not_w 32 bar_size + 1) in
      let d := pci_write_long bus device function entry_offset bar d in
      let seg_base := Z.land bar (not_w 32 0xf) in
      (Memory {| mem_base := seg_base; mem_len := seg_size; width := 32 |}, d)
    else if bool_decide (reg_size = BAR_64_WIDTH) then
      let '(bar_2, d) := pci_read_long bus device function (u8 (entry_offset + 1)) d in
      let d := pci_write_long bus device function entry_offset 0xFFFFFFFF d in
      let d := pci_write_long bus device function (u8 (entry_offset + 1)) 0xFFFFFFFF d in
      let '(bar_size_1, d) := pci_read_long bus device function entry_offset d in
      let '(bar_size_2, d) := pci_read_long bus device function (u8 (entry_offset + 1)) d in
      let bar_size := u64 (u64 (Z.shiftl bar_size_2 32) + bar_size_1) in
      let d := pci_write_long bus device function entry_offset bar d in
      let d := pci_write_long bus device function (u8 (entry_offset + 1)) bar_2 d in
      let bar_size := Z.land bar_size (not_w 64 0xf) in
      let seg_size := u64 (not_w 64 bar_size + 1) in
      let seg_base := u64 (u64 (Z.shiftl bar_2 32) + Z.land bar (not_w 32 0xf)) in
      (Memory {| mem_base := seg_base; mem_len := seg_size; width := 64 |}, d)
    else (Unavailable, d).

(** The iterations of [load] over the registers: [i] skips the second half of a
    64-bit register. *)
Fixpoint load_registers (n : nat) (bus device function : Z) (i : nat) (regs : list MappedRegister) d :
    list MappedRegister * D :=
  match n with
  | O => (regs, d)
  | S n =>
      if bool_decide (5 < i)%nat then load_registers n bus device function i regs d
      else
        let '(mapped_reg, d) := from_bar bus device function (Z.of_nat i) d in
        let regs := <[i := mapped_reg]> regs in
        let i := match mapped_reg with
                 | Memory mem => if bool_decide (width mem = 64) then S i else i
                 | _ => i
                 end in
        load_registers n bus device function (S i) regs d
  end.
Definition load_eprom (bus device function : Z) d : option PCIMappedMemory * D :=
  let '(eprom_data, d) := pci_read_long bus device function 12 d in
  if bool_decide (Z.land eprom_data 1 = 1) then
    let eprom_addr := Z.land eprom_data (not_w 32 0x3ff) in
    let size_chk_data := Z.land (u32 (Z.shiftl (not_w 32 0) 11)) (Z.land eprom_data 0x3ff) in
    let d := pci_write_long bus device function 12 size_chk_data d in
    let '(size_unparsed, d) := pci_read_long bus device function 12 d in
    let d := pci_write_long bus device function 12 eprom_data d in
    let size_bits := not_w 32 (Z.land size_unparsed (not_w 32 0x3ff)) in
    (Some {| mem_base := eprom_addr; mem_len := size_bits; width := 32 |}, d)
  else (None, d).
Definition load (bus device function : Z) d : PCIDevice * D :=
  let '(header, d) := PCIHeader_read bus device function d in
  let '(regs, d) := load_registers 6 bus device function 0 (replicate 6 Unavailable) d in
  let class_num := u32 (u32 (Z.shiftl (class_code (common header)) 16
    + Z.shiftl (subclass (common header)) 8) + prog_if (common header)) in
  let '(rom, d) := load_eprom bus device function d in
  ({| class := DeviceClass_from_u32 class_num; registers := regs; eprom := rom;
      bus := bus; device := device; function := function |}, d).

(** * Enumeration *)

Definition pci_function_secbus_check (pci_bus_scan : Z → list PCIDevice * D → outcome (list PCIDevice * D))
    (bus device function : Z) (s : list PCIDevice * D) : outcome (list PCIDevice * D) :=
  let '(l, d) := s in
  let '(header, d) := PCIHeader_read bus device function d in
  if negb (is_present header) then Done (l, d)
  else
    '(l, d) ← (
      if bool_decide (class_code (common header) = 0x6) && bool_decide (subclass (common header) = 0x4) then
        match var header with
        | Type1 bridge => pci_bus_scan (secondary_bus bridge) (l, d)
        | _ => Done (l, d)
        end
      else Done (l, d));
    let '(dev, d) := load bus device function d in
    Done (l ++ [dev], d).

Fixpoint pci_bus_scan (fuel : nat) (bus : Z) (s : list PCIDevice * D) : outcome (list PCIDevice * D) :=
  match fuel with
  | O => NoFuel
  | S fuel =>
      for_each (range 0 32) (λ device '(l, d),
        let '(header, d) := PCIHeader_read bus device 0 d in
        if negb (is_present header) then Done (l, d)
        else
          s ← pci_function_secbus_check (pci_bus_scan fuel) bus device 0 (l, d);
          if is_multifunction header then
            for_each (range 1 8) (λ func s, pci_function_secbus_check (pci_bus_scan fuel) bus device func s) s
          else Done s) s
  end.

(** The loop over the functions of the host, which stops at the first that is
    absent. *)
Fixpoint host_loop (fuel : nat) (funcs : list Z) (s : list PCIDevice * D) : outcome (list PCIDevice * D) :=
  match funcs with
  | [] => Done s
  | func :: funcs =>
      let '(l, d) := s in
      let '(pci_aux_host, d) := PCIHeader_read 0 0 func d in
      if negb (is_present pci_aux_host) then Done (l, d)
      else s ← pci_bus_scan fuel func (l, d); host_loop fuel funcs s
  end.
Definition pci_enumerate_traversal (fuel : nat) d : outcome (list PCIDevice * D) :=
  let '(pci_host_0, d) := PCIHeader_read 0 0 0 d in
  if negb (is_multifunction pci_host_0) then pci_bus_scan fuel 0 ([], d)
  else host_loop fuel (range 1 8) ([], d).

Definition pci_device_check (bus device : Z) (s : list PCIDevice * D) : outcome (list PCIDevice * D) :=
  let '(l, d) := s in
  let '(header, d) := PCIHeader_read bus device 0 d in
  if negb (is_present header) then Done (l, d)
  else
    let '(dev, d) := load bus device 0 d in
    let l := l ++ [dev] in
    if is_multifunction header then
      for_each (range 1 8) (λ func '(l, d),
        let '(header, d) := PCIHeader_read bus device func d in
        if negb (is_present header) then Done (l, d)
        else let '(dev, d) := load bus device func d in Done (l ++ [dev], d)) (l, d)
    else Done (l, d).
Definition pci_enumerate_all d : outcome (list PCIDevice * D) :=
  for_each (range 0 256) (λ bus s, for_each (range 0 32) (λ device s, pci_device_check bus device s) s) ([], d).

(** [get_by_class]: the argument of [then_some] is evaluated for every device. *)
Fixpoint get_by_class (devices : list PCIDevice) (c : DeviceClass) d : list PCIDevice * D :=
  match devices with
  | [] => ([], d)
  | dev :: devices =>
      let '(x, d) := load (bus dev) (device dev) (function dev) d in
      let '(xs, d) := get_by_class devices c d in
      (if bool_decide (u32_from_DeviceClass (class dev) = u32_from_DeviceClass c) then x :: xs else xs, d)
  end.

(** * The command and status registers *)

Definition COMMAND_WOFFSET : Z := 0x1.
Definition STATUS_WOFFSET : Z := 0x1.
Definition INTERRUPT_WOFFSET : Z := 0xF.
Definition IO_SPACE_COMMAND_BOFFSET : Z := 0.
Definition MEM_SPACE_COMMAND_BOFFSET : Z := 1.
Definition BUS_MSTR_COMMAND_BOFFSET : Z := 2.
Definition SPEC_CYC_COMMAND_BOFFSET : Z := 3.
Definition MEM_WR_INVAL_COMMAND_BOFFSET : Z := 4.
Definition VGA_PAL_SNOOP_COMMAND_BOFFSET : Z := 5.
Definition PAR_ERR_RESP_COMMAND_BOFFSET : Z := 6.
Definition STEP_CTRL_COMMAND_BOFFSET : Z := 7.
Definition SERR_COMMAND_BOFFSET : Z := 8.
Definition FAST_B2B_TRANS_COMMAND_BOFFSET : Z := 9.
Definition INTERRUPT_DISABLE : Z := 10.
Definition CAP_LIST_STATUS_BOFFSET : Z := 4.
Definition MHZ66_CAP_STATUS_BOFFSET : Z := 5.
Definition FAST_B2B_CAP_STATUS_BOFFSET : Z := 7.
Definition DEVSEL_TIM_STATUS_BOFFSET : Z := 9.
Definition SIG_TARGET_ABORT_STATUS_BOFFSET : Z := 0xB.
Definition REC_TARGET_ABORT_STATUS_BOFFSET : Z := 0xC.
Definition REC_MASTER_ABORT_STATUS_BOFFSET : Z := 0xD.
Definition SIG_SYS_ERROR_STATUS_BOFFSET : Z := 0xE.
Definition PAR_ERROR_STATUS_BOFFSET : Z := 0xF.

Definition read_confl (p : PCIDevice) (offset : Z) d : Z * D := pci_read_long (bus p) (device p) (function p) offset d.
Definition write_confl (p : PCIDevice) (offset data : Z) d : D :=
  pci_write_long (bus p) (device p) (function p) offset data d.

Definition read_status (p : PCIDevice) d : Z * D :=
  let '(x, d) := read_confl p STATUS_WOFFSET d in (u16 (Z.shiftr (Z.land x 0xffff0000) 16), d).
Definition write_status (p : PCIDevice) (data : Z) d : D :=
  let '(curr_statusl, d) := read_confl p STATUS_WOFFSET d in
  write_confl p STATUS_WOFFSET (Z.lor (Z.land curr_statusl 0xffff) (u32 (Z.shiftl data 16))) d.
Definition clear_status_flg (p : PCIDevice) (offset : Z) d : D :=
  let '(curr_status, d) := read_status p d in
  write_status p (Z.land curr_status (not_w 16 (u16 (Z.shiftl 1 offset)))) d.

Definition read_command (p : PCIDevice) d : Z * D :=
  let '(x, d) := read_confl p COMMAND_WOFFSET d in (u16 (Z.land x 0xffff), d).
Definition write_command (p : PCIDevice) (data : Z) d : D :=
  let '(curr_commandl, d) := read_confl p COMMAND_WOFFSET d in
  write_confl p COMMAND_WOFFSET (Z.lor (Z.land curr_commandl 0xffff0000) data) d.
Definition update_command (p : PCIDevice) (offset : Z) (new_state : bool) d : result unit IOError * D :=
  let '(curr_command, d) := read_command p d in
  let flag := u16 (Z.shiftl 1 offset) in
  let new_command := if new_state then Z.lor curr_command flag else Z.land curr_command (not_w 16 flag) in
  let d := write_command p new_command d in
  let '(c, d) := read_command p d in
  (if Bool.eqb (bool_decide (Z.land c flag ≠ 0)) new_state then Ok () else Err IOUnknown, d).
Definition disable (p : PCIDevice) d : D := write_command p 0 d.

Definition interrupt_line (p : PCIDevice) d : Z * D :=
  let '(x, d) := read_confl p INTERRUPT_WOFFSET d in (u8 (Z.land x 0xff), d).
Definition interrupt_pin (p : PCIDevice) d : Z * D :=
  let '(x, d) := read_confl p INTERRUPT_WOFFSET d in (u8 (Z.land (Z.shiftr x 8) 0xff), d).

(** The accessors of the flags of both registers. *)
Definition status_flag (offset : Z) (p : PCIDevice) d : bool * D :=
  let '(s, d) := read_status p d in (bool_decide (Z.land s (u16 (Z.shiftl 1 offset)) ≠ 0), d).
Definition command_flag (offset : Z) (p : PCIDevice) d : bool * D :=
  let '(c, d) := read_command p d in (bool_decide (Z.land c (u16 (Z.shiftl 1 offset)) ≠ 0), d).
Definition capabilities_list_available := status_flag CAP_LIST_STATUS_BOFFSET.
Definition device_66mhz_support := status_flag MHZ66_CAP_STATUS_BOFFSET.
Definition fast_b2b_transactions_support := status_flag FAST_B2B_CAP_STATUS_BOFFSET.
Inductive DevselTiming := Fast | Medium | Slow.
Definition devsel_timing (p : PCIDevice) d : DevselTiming * D :=
  let '(s, d) := read_status p d in
  let t := Z.shiftr (Z.land s (Z.lor (Z.shiftl 1 DEVSEL_TIM_STATUS_BOFFSET) (Z.shiftl 1 (DEVSEL_TIM_STATUS_BOFFSET + 1))))
    DEVSEL_TIM_STATUS_BOFFSET in
  (if bool_decide (t = 0) then Fast else if bool_decide (t = 1) then Medium else Slow, d).
Definition target_abort_terminated := status_flag SIG_TARGET_ABORT_STATUS_BOFFSET.
Definition clear_target_abort_terminated p := clear_status_flg p SIG_TARGET_ABORT_STATUS_BOFFSET.
Definition received_target_abort := status_flag REC_TARGET_ABORT_STATUS_BOFFSET.
Definition clear_received_target_abort p := clear_status_flg p REC_TARGET_ABORT_STATUS_BOFFSET.
Definition received_master_abort := status_flag REC_MASTER_ABORT_STATUS_BOFFSET.
Definition clear_received_master_abort p := clear_status_flg p REC_MASTER_ABORT_STATUS_BOFFSET.
Definition signaled_system_error := status_flag SIG_SYS_ERROR_STATUS_BOFFSET.
Definition clear_signaled_system_error p := clear_status_flg p SIG_SYS_ERROR_STATUS_BOFFSET.
Definition parity_error := status_flag PAR_ERROR_STATUS_BOFFSET.
Definition clear_parity_error p := clear_status_flg p PAR_ERROR_STATUS_BOFFSET.
Definition io_space_access := command_flag IO_SPACE_COMMAND_BOFFSET.
Definition set_io_space_access p := update_command p IO_SPACE_COMMAND_BOFFSET.
Definition memory_space_access := command_flag MEM_SPACE_COMMAND_BOFFSET.
Definition set_memory_space_access p := update_command p MEM_SPACE_COMMAND_BOFFSET.
Definition bus_master := command_flag BUS_MSTR_COMMAND_BOFFSET.
Definition set_bus_master p := update_command p BUS_MSTR_COMMAND_BOFFSET.
Definition special_cycle := command_flag SPEC_CYC_COMMAND_BOFFSET.
Definition set_special_cycle p := update_command p SPEC_CYC_COMMAND_BOFFSET.
Definition mem_write_invalidate := command_flag MEM_WR_INVAL_COMMAND_BOFFSET.
Definition set_mem_write_invalidate p := update_command p MEM_WR_INVAL_COMMAND_BOFFSET.
Definition vga_palette_snoop := command_flag VGA_PAL_SNOOP_COMMAND_BOFFSET.
Definition set_vga_palette_snoop p := update_command p VGA_PAL_SNOOP_COMMAND_BOFFSET.
Definition parity_error_response := command_flag PAR_ERR_RESP_COMMAND_BOFFSET.
Definition set_parity_error_response p := update_command p PAR_ERR_RESP_COMMAND_BOFFSET.
Definition stepping_control := command_flag STEP_CTRL_COMMAND_BOFFSET.
Definition set_stepping_control p := update_command p STEP_CTRL_COMMAND_BOFFSET.
Definition serr_driver := command_flag SERR_COMMAND_BOFFSET.
Definition set_serr_driver p := update_command p SERR_COMMAND_BOFFSET.
Definition fast_b2b_transactions := command_flag FAST_B2B_TRANS_COMMAND_BOFFSET.
Definition set_fast_b2b_transactions p := update_command p FAST_B2B_TRANS_COMMAND_BOFFSET.
Definition interrupt_disable := command_flag INTERRUPT_DISABLE.
Definition set_interrupt_disable p := update_command p INTERRUPT_DISABLE.
End pci.

(** * The hardware: configuration space *)

(** A register of four bytes: its value, the bits that a write sets, and the bits
    that a write of one clears; the other bits are read-only.  A register of an
    absent function reads as ones. *)
Record reg := { value : Z; rw : Z; w1c : Z }.
Definition write_reg (r : reg) (v : Z) : reg :=
  {| value := Z.lor (Z.land v (rw r)) (Z.ldiff (Z.ldiff (value r) (rw r)) (Z.land v (w1c r))); rw := rw r; w1c := w1c r |}.
Definition reg_ok (r : reg) : Prop := in_width 32 (value r) ∧ in_width 32 (rw r) ∧ in_width 32 (w1c r) ∧ Z.land (rw r) (w1c r) = 0.

(** The address of a register: bus, device, function, offset. *)
Definition loc : Type := Z * Z * Z * Z.
Definition decode_address (a : Z) : loc :=
  (Z.land (Z.shiftr a 16) 0xff, Z.land (Z.shiftr a 11) 0x1f, Z.land (Z.shiftr a 8) 7, Z.land (Z.shiftr a 2) 0x3f).
Record pci_machine := { address : Z; space : loc → reg }.
Definition update_space (f : loc → reg) (l : loc) (r : reg) : loc → reg := λ l', if decide (l' = l) then r else f l'.
(** Configuration mechanism 1: the address at port 0xcf8, the register it selects
    at port 0xcfc. *)
#[global] Instance pci_bus : PortBus pci_machine := {|
  out_port n p v m :=
    if decide (n = 4%nat ∧ p = 0xcf8) then {| address := v; space := space m |}
    else if decide (n = 4%nat ∧ p = 0xcfc ∧ Z.testbit (address m) 31 = true) then
      let l := decode_address (address m) in
      {| address := address m; space := update_space (space m) l (write_reg (space m l) v) |}
    else m;
  in_port n p m :=
    if decide (n = 4%nat ∧ p = 0xcfc ∧ Z.testbit (address m) 31 = true) then (value (space m (decode_address (address m))), m)
    else (2 ^ (8 * Z.of_nat n) - 1, m)
|}.
