(* ===== verification/PciSpec.v ===== *)
(** What the PCI code of Pci.v does on configuration space: register accesses,
    the sizing of base address registers, the command and status registers, and
    the enumeration of the devices. *)

From S2P Require Import Prelude Partitions Ports PciClass Pci.

#[local] Arguments Z.testbit : simpl never.

(** * Register accesses *)

Definition fn_ok (b d f : Z) : Prop := 0 ≤ b < 256 ∧ 0 ≤ d < 32 ∧ 0 ≤ f < 8.
#[global] Instance fn_ok_dec b d f : Decision (fn_ok b d f).
Proof. unfold fn_ok. apply _. Defined.

Lemma offset_checked : forallb (λ o, bool_decide (Z.land (u32 (Z.shiftl (Z.of_nat o) 2)) 0xfc = 4 * (Z.of_nat o mod 64)))
  (seq 0 256) = true.
Proof. vm_compute. reflexivity. Qed.
Lemma config_address_sum b d f o : fn_ok b d f → 0 ≤ o < 256 →
  config_address b d f o = 0x80000000 + b * 2 ^ 16 + d * 2 ^ 11 + f * 2 ^ 8 + 4 * (o mod 64).
Proof.
  intros (Hb & Hd & Hf) Ho. pose proof offset_checked as Hc. rewrite forallb_forall in Hc. specialize (Hc (Z.to_nat o)).
  rewrite in_seq, Z2Nat.id in Hc by lia. ospecialize (Hc _); [lia|]. apply bool_decide_eq_true in Hc.
  pose proof (Z.mod_pos_bound o 64 ltac:(lia)) as Ho'. unfold config_address. rewrite Hc, !Z.shiftl_mul_pow2 by lia.
  assert (Hl : ∀ n a x, 0 ≤ n → 0 ≤ x < 2 ^ n → Z.lor (a * 2 ^ n) x = a * 2 ^ n + x).
  { intros n a x Hn Hx. rewrite <- lor_shiftl_add by done. by rewrite Z.shiftl_mul_pow2. }
  change 0x80000000 with (1 * 2 ^ 31) at 1. rewrite Hl by lia.
  replace (1 * 2 ^ 31 + b * 2 ^ 16) with ((2 ^ 15 + b) * 2 ^ 16) by lia. rewrite Hl by lia.
  replace ((2 ^ 15 + b) * 2 ^ 16 + d * 2 ^ 11) with (((2 ^ 15 + b) * 2 ^ 5 + d) * 2 ^ 11) by lia. rewrite Hl by lia.
  replace (((2 ^ 15 + b) * 2 ^ 5 + d) * 2 ^ 11 + f * 2 ^ 8) with ((((2 ^ 15 + b) * 2 ^ 5 + d) * 2 ^ 3 + f) * 2 ^ 8) by lia.
  rewrite Hl by lia. lia.
Qed.
Lemma decode_config_address b d f o : fn_ok b d f → 0 ≤ o < 256 →
  decode_address (config_address b d f o) = (b, d, f, o mod 64) ∧ Z.testbit (config_address b d f o) 31 = true.
Proof.
  intros Hfn Ho. rewrite config_address_sum by done. destruct Hfn as (Hb & Hd & Hf).
  pose proof (Z.mod_pos_bound o 64 ltac:(lia)) as Ho'. set (x := o mod 64) in *. split.
  - unfold decode_address. change 0xff with (Z.ones 8). change 0x1f with (Z.ones 5). change 0x3f with (Z.ones 6).
    change 7 with (Z.ones 3). rewrite !Z.land_ones, !Z.shiftr_div_pow2 by lia. f_equal; [f_equal; [f_equal|]|].
    all: change (2 ^ 16) with 65536; change (2 ^ 11) with 2048; change (2 ^ 8) with 256; change (2 ^ 5) with 32;
      change (2 ^ 3) with 8; change (2 ^ 6) with 64; change (2 ^ 2) with 4; Z.div_mod_to_equations; lia.
  - rewrite Z.testbit_odd, Z.shiftr_div_pow2 by lia.
    replace ((0x80000000 + b * 2 ^ 16 + d * 2 ^ 11 + f * 2 ^ 8 + 4 * x) / 2 ^ 31) with 1; [done|].
    apply (Z.div_unique _ _ _ (b * 2 ^ 16 + d * 2 ^ 11 + f * 2 ^ 8 + 4 * x)); lia.
Qed.

(** An access reads or writes the register it names, and moves the address. *)
Lemma read_long_spec b d f o m : fn_ok b d f → 0 ≤ o < 64 →
  pci_read_long b d f o m = (value (space m (b, d, f, o)), {| address := config_address b d f o; space := space m |}).
Proof.
  intros Hfn Ho. destruct (decode_config_address b d f o Hfn ltac:(lia)) as [E1 E2]. rewrite Z.mod_small in E1 by lia.
  unfold pci_read_long, inl, outl, in_port, out_port, pci_bus. cbn [address space].
  rewrite (decide_True (P := 4%nat = 4%nat ∧ 0xcf8 = 0xcf8)) by done. cbn [address space]. rewrite decide_True by done.
  by rewrite E1.
Qed.
Lemma write_long_spec b d f o v m : fn_ok b d f → 0 ≤ o < 64 →
  pci_write_long b d f o v m = {| address := config_address b d f o;
    space := update_space (space m) (b, d, f, o) (write_reg (space m (b, d, f, o)) v) |}.
Proof.
  intros Hfn Ho. destruct (decode_config_address b d f o Hfn ltac:(lia)) as [E1 E2]. rewrite Z.mod_small in E1 by lia.
  unfold pci_write_long, outl, out_port, pci_bus. rewrite (decide_True (P := 4%nat = 4%nat ∧ 0xcf8 = 0xcf8)) by done.
  cbn [address space]. rewrite decide_False by (intros [_ ?]; lia). rewrite decide_True by done. by rewrite E1.
Qed.
#[local] Opaque pci_read_long pci_write_long.

Lemma update_space_eq f l r : update_space f l r l = r.
Proof. unfold update_space. by rewrite decide_True. Qed.
Lemma update_space_ne f l l' r : l' ≠ l → update_space f l r l' = f l'.
Proof. intros. unfold update_space. by rewrite decide_False. Qed.

(** * Machines up to cleared flags *)

(** A register after its flags are cleared.  Writing anything and then the value
    that was read leaves that. *)
Definition cleared (r : reg) : reg := {| value := Z.ldiff (value r) (w1c r); rw := rw r; w1c := w1c r |}.
Lemma write_restore r a : reg_ok r → write_reg (write_reg r a) (value r) = cleared r.
Proof.
  intros (_ & _ & _ & Hx). unfold write_reg, cleared. cbn [value rw w1c]. f_equal. apply Z.bits_inj'. intros i Hi.
  apply (f_equal (λ x, Z.testbit x i)) in Hx. revert Hx. autorewrite with fz_word.
  destruct (Z.testbit (value r) i), (Z.testbit (rw r) i), (Z.testbit (w1c r) i), (Z.testbit a i); done.
Qed.
Lemma write_reg_ok r v : reg_ok r → reg_ok (write_reg r v).
Proof.
  intros (Hv & Hr & Hw & Hx). split_and!; [|done..]. cbn [write_reg value]. apply in_width_lor; [lia| |].
  - by apply in_width_land_r.
  - by do 2 (apply in_width_ldiff; [lia|]).
Qed.
Lemma cleared_ok r : reg_ok r → reg_ok (cleared r).
Proof. intros (Hv & Hr & Hw & Hx). split_and!; [|done..]. by apply in_width_ldiff. Qed.
Lemma cleared_id r : w1c r = 0 → cleared r = r.
Proof. intros Hw. destruct r as [v a b]. simpl in Hw. subst b. unfold cleared. simpl. by rewrite Z.ldiff_0_r. Qed.

Definition reg_equiv (r r' : reg) : Prop :=
  rw r = rw r' ∧ w1c r = w1c r' ∧ Z.ldiff (value r) (w1c r) = Z.ldiff (value r') (w1c r').
#[global] Instance pci_machine_equiv : Equiv pci_machine := λ m m', ∀ l, reg_equiv (space m l) (space m' l).
#[global] Instance pci_machine_equivalence : Equivalence (≡@{pci_machine}).
Proof.
  split.
  - intros m l. done.
  - intros m m' E l. destruct (E l) as (E1 & E2 & E3). by split_and!.
  - intros m m' m'' E E' l. destruct (E l) as (E1 & E2 & E3), (E' l) as (E1' & E2' & E3').
    split_and!; etrans; eauto.
Qed.
Lemma reg_equiv_value r r' : reg_equiv r r' → w1c r = 0 → value r = value r'.
Proof. intros (_ & Hw & Hv) H0. rewrite <- Hw, H0, !Z.ldiff_0_r in Hv. done. Qed.

Definition regs_ok (m : pci_machine) : Prop := ∀ l, reg_ok (space m l).
(** What a probe of the registers [P] leaves: some of them have their flags
    cleared. *)
Definition settled (P : loc → Prop) (m m' : pci_machine) : Prop :=
  ∀ l, space m' l = space m l ∨ (P l ∧ space m' l = cleared (space m l)).
Lemma settled_refl P m a : settled P m {| address := a; space := space m |}.
Proof. intros l. by left. Qed.
Lemma settled_mono (P Q : loc → Prop) m m' : (∀ l, P l → Q l) → settled P m m' → settled Q m m'.
Proof. intros HPQ Hs l. destruct (Hs l) as [|[]]; auto. Qed.
Lemma settled_equiv P m m' : settled P m m' → m' ≡ m.
Proof.
  intros Hs l. destruct (Hs l) as [->|[_ ->]]; [done|]. unfold reg_equiv, cleared. cbn [value rw w1c]. split_and!; [done..|].
  apply Z.bits_inj'. intros i Hi. autorewrite with fz_word. destruct (Z.testbit (value _) i), (Z.testbit (w1c _) i); done.
Qed.
Lemma settled_ok P m m' : settled P m m' → regs_ok m → regs_ok m'.
Proof. intros Hs Hm l. destruct (Hs l) as [->|[_ ->]]; [apply Hm|apply cleared_ok, Hm]. Qed.
Lemma cleared_cleared r : cleared (cleared r) = cleared r.
Proof.
  unfold cleared. cbn [value rw w1c]. f_equal. apply Z.bits_inj'. intros i Hi. autorewrite with fz_word.
  destruct (Z.testbit (value _) i), (Z.testbit (w1c _) i); done.
Qed.
Lemma settled_trans P m1 m2 m3 : settled P m1 m2 → settled P m2 m3 → settled P m1 m3.
Proof.
  intros H1 H2 l. destruct (H1 l) as [E1|[HP E1]], (H2 l) as [E2|[HP' E2]]; rewrite E2, E1; rewrite ?cleared_cleared; auto.
Qed.
(** Where there are no flags, nothing has changed. *)
Lemma settled_same P m m' l : settled P m m' → (P l → w1c (space m l) = 0) → space m' l = space m l.
Proof. intros Hs Hw. destruct (Hs l) as [->|[HP ->]]; [done|]. by apply cleared_id, Hw. Qed.

(** * Base address registers *)

(** What is found in a base address register [r] followed by [r2]. *)
Definition bar_result (r r2 : reg) : MappedRegister :=
  let bar := value r in
  let ones x := value (write_reg x 0xFFFFFFFF) in
  if bool_decide (bar = 0) || bool_decide (bar = 0xFFFFFFFF) then Unavailable
  else if bool_decide (Z.land bar 1 = 1) then IO (u16 (Z.land bar 0xfffe))
  else if bool_decide (Z.land (Z.shiftr bar 1) 3 = BAR_32_WIDTH) then
    Memory {| mem_base := Z.land bar (not_w 32 0xf); mem_len := u32 (not_w 32 (Z.land (ones r) (not_w 32 0xf)) + 1);
              width := 32 |}
  else if bool_decide (Z.land (Z.shiftr bar 1) 3 = BAR_64_WIDTH) then
    Memory {| mem_base := u64 (u64 (Z.shiftl (value r2) 32) + Z.land bar (not_w 32 0xf));
              mem_len := u64 (not_w 64 (Z.land (u64 (u64 (Z.shiftl (ones r2) 32) + ones r)) (not_w 64 0xf)) + 1);
              width := 64 |}
  else Unavailable.

Lemma from_bar_spec b d f i m : fn_ok b d f → 0 ≤ i ≤ 5 → regs_ok m → ∃ m',
  settled (λ l, l = (b, d, f, 4 + i) ∨ l = (b, d, f, 4 + i + 1)) m m'
  ∧ from_bar b d f i m = (bar_result (space m (b, d, f, 4 + i)) (space m (b, d, f, 4 + i + 1)), m').
Proof.
  intros Hfn Hi Hm. set (lo := (b, d, f, 4 + i)). set (hi := (b, d, f, 4 + i + 1)).
  assert (Hne : hi ≠ lo) by (unfold lo, hi; intros [=]; lia).
  unfold from_bar, bar_result. replace (u8 (16 / 4 + u8 i)) with (4 + i) by (unfold u8; change (16 / 4) with 4; rewrite (wrap_id 8 i), wrap_id; [done|unfold in_width; lia..]).
  replace (u8 (4 + i + 1)) with (4 + i + 1) by (unfold u8; rewrite wrap_id; [done|unfold in_width; lia]).
  rewrite read_long_spec by (done || lia). fold lo.
  destruct (_ || _); [eexists; split; [apply settled_refl|done]|].
  destruct (bool_decide (Z.land _ 1 = 1)); [eexists; split; [apply settled_refl|done]|].
  destruct (bool_decide (_ = BAR_32_WIDTH)).
  - rewrite write_long_spec, read_long_spec, write_long_spec by (done || lia). fold lo. cbn [space]. rewrite update_space_eq.
    eexists. split; [|done]. intros l. cbn [space]. destruct (decide (l = lo)) as [->|Hl].
    + right. split; [auto|]. rewrite !update_space_eq. apply write_restore, Hm.
    + left. by rewrite !update_space_ne.
  - destruct (bool_decide (_ = BAR_64_WIDTH)); [|eexists; split; [apply settled_refl|done]].
    rewrite read_long_spec, !write_long_spec, !read_long_spec, !write_long_spec by (done || lia). fold lo hi. cbn [space].
    rewrite ?update_space_eq, ?(update_space_ne _ lo hi), ?(update_space_ne _ hi lo), ?update_space_eq by done.
    rewrite ?(update_space_ne _ hi lo), ?update_space_eq, ?(update_space_ne _ lo hi), ?update_space_eq by done.
    eexists. split; [|done]. intros l. cbn [space]. destruct (decide (l = lo)) as [->|Hl]; [|destruct (decide (l = hi)) as [->|Hl']].
    + right. split; [auto|]. rewrite update_space_ne, update_space_eq by done. apply write_restore, Hm.
    + right. split; [auto|]. rewrite update_space_eq. apply write_restore, Hm.
    + left. by rewrite !update_space_ne.
Qed.

(** ** Registers of memory and ports *)

Lemma land_not_ones w n x : 0 ≤ n ≤ w → in_width w x → Z.land x (not_w w (Z.ones n)) = x - x mod 2 ^ n.
Proof.
  intros Hw Hx. assert (E : Z.land x (not_w w (Z.ones n)) = Z.ldiff x (Z.ones n)).
  { apply (word_eq w); [lia|by apply in_width_land_l; [lia|]|apply in_width_ldiff; [lia|done]|].
    intros i Hi. by rewrite Z.land_spec, testbit_not_w, Z.ldiff_spec by lia. }
  rewrite E, Z.ldiff_ones_r, Z.shiftr_div_pow2, Z.shiftl_mul_pow2 by lia.
  pose proof (Z.div_mod x (2 ^ n)). pose proof (pow2_pos n). lia.
Qed.
Lemma land_not_15 w x : 4 ≤ w → in_width w x → Z.land x (not_w w 0xf) = x - x mod 16.
Proof. intros Hw Hx. by apply (land_not_ones w 4); [lia|]. Qed.
Lemma ldiff_high w k v : 0 ≤ k ≤ w → in_width w v → Z.ldiff v (2 ^ w - 2 ^ k) = v mod 2 ^ k.
Proof.
  intros Hk Hv. apply (word_eq w); [lia|apply in_width_ldiff; [lia|done]| |].
  - apply (in_width_mono k); [lia|]. apply Z.mod_pos_bound, pow2_pos. lia.
  - intros i Hi. replace (2 ^ w - 2 ^ k) with (not_w w (Z.ones k)) by (rewrite Z.ones_equiv; unfold not_w; lia).
    rewrite Z.ldiff_spec, testbit_not_w by lia. destruct (decide (i < k)).
    + by rewrite Z.ones_spec_low, Z.mod_pow2_bits_low, andb_true_r by lia.
    + by rewrite Z.ones_spec_high, Z.mod_pow2_bits_high, andb_false_r by lia.
Qed.
(** What reads back after ones are written: the bits of the address from [k] on,
    and the fixed bits below. *)
Lemma ones_read k v : 0 ≤ k ≤ 32 → in_width 32 v →
  value (write_reg {| value := v; rw := 2 ^ 32 - 2 ^ k; w1c := 0 |} 0xFFFFFFFF) = 2 ^ 32 - 2 ^ k + v mod 2 ^ k.
Proof.
  intros Hk Hv. unfold write_reg. cbn [value rw w1c]. rewrite Z.land_0_r, Z.ldiff_0_r, (ldiff_high 32) by (done || lia).
  pose proof (pow2_pos k ltac:(lia)). assert (2 ^ k ≤ 2 ^ 32) by (apply Z.pow_le_mono_r; lia).
  rewrite Z.land_comm. change 0xFFFFFFFF with (Z.ones 32). rewrite Z.land_ones, (Z.mod_small (2 ^ 32 - 2 ^ k)) by lia.
  replace (2 ^ 32 - 2 ^ k) with (Z.shiftl (2 ^ (32 - k) - 1) k) at 1.
  - rewrite lor_shiftl_add by (lia || apply Z.mod_pos_bound; lia).
    replace ((2 ^ (32 - k) - 1) * 2 ^ k) with (2 ^ (32 - k) * 2 ^ k - 2 ^ k) by lia.
    rewrite <- Z.pow_add_r by lia. by replace (32 - k + k) with 32 by lia.
  - rewrite Z.shiftl_mul_pow2, Z.mul_sub_distr_r, <- Z.pow_add_r by lia. replace (32 - k + k) with 32 by lia. lia.
Qed.

(** A register that maps [2 ^ k] bytes of memory at [base], in 32 or 64 bits, or
    ports from [base] on: the bits of the address that the size leaves free can be
    written, the others are fixed. *)
Inductive bar_desc :=
  | Mem32 (base k : Z) (prefetchable : bool)
  | Mem64 (base k : Z) (prefetchable : bool)
  | Ports (base : Z).
Definition bar_desc_ok (x : bar_desc) : Prop :=
  match x with
  | Mem32 base k _ => 4 ≤ k < 32 ∧ 0 < base < 2 ^ 32 ∧ base mod 2 ^ k = 0
  | Mem64 base k _ => 4 ≤ k < 64 ∧ 0 ≤ base < 2 ^ 64 ∧ base mod 2 ^ k = 0
  | Ports base => 0 ≤ base < 2 ^ 16 ∧ base mod 4 = 0
  end.
Definition bar_shows (x : bar_desc) (r r2 : reg) : Prop :=
  match x with
  | Mem32 base k pf => r = {| value := base + (if pf then 8 else 0); rw := 2 ^ 32 - 2 ^ k; w1c := 0 |}
  | Mem64 base k pf =>
      r = {| value := base mod 2 ^ 32 + 4 + (if pf then 8 else 0); rw := 2 ^ 32 - 2 ^ (Z.min k 32); w1c := 0 |}
      ∧ r2 = {| value := base / 2 ^ 32; rw := 2 ^ 32 - 2 ^ (Z.max (k - 32) 0); w1c := 0 |}
  | Ports base => value r = base + 1
  end.
Definition bar_mapping (x : bar_desc) : MappedRegister :=
  match x with
  | Mem32 base k _ => Memory {| mem_base := base; mem_len := 2 ^ k; width := 32 |}
  | Mem64 base k _ => Memory {| mem_base := base; mem_len := 2 ^ k; width := 64 |}
  | Ports base => IO base
  end.

Lemma pow2_multiple_16 base k : 4 ≤ k → base mod 2 ^ k = 0 → base mod 16 = 0.
Proof.
  intros Hk H0. apply Z.mod_divide in H0 as [c ->]; [|pose proof (pow2_pos k); lia].
  replace k with (k - 4 + 4) by lia. rewrite Z.pow_add_r, Z.mul_assoc by lia. apply Z.mod_mul. lia.
Qed.
(** The tests on the low bits of a register. *)
Lemma bar_low_bits v : Z.land v 1 = v mod 2 ∧ Z.land (Z.shiftr v 1) 3 = v / 2 mod 4.
Proof.
  split.
  - change 1 with (Z.ones 1). by rewrite Z.land_ones by lia.
  - change 3 with (Z.ones 2). rewrite Z.land_ones, Z.shiftr_div_pow2 by lia. done.
Qed.
Lemma bar_result_mem32 base k (pf : bool) r2 : 4 ≤ k < 32 → 0 < base < 2 ^ 32 → base mod 2 ^ k = 0 →
  bar_result {| value := base + (if pf then 8 else 0); rw := 2 ^ 32 - 2 ^ k; w1c := 0 |} r2
  = Memory {| mem_base := base; mem_len := 2 ^ k; width := 32 |}.
Proof.
  intros Hk Hb Ha. pose proof (pow2_multiple_16 base k ltac:(lia) Ha) as H16. set (t := if pf then 8 else 0).
  assert (Ht : t = 0 ∨ t = 8) by (unfold t; destruct pf; auto).
  assert (Hd : base = 16 * (base / 16)) by (pose proof (Z.div_mod base 16); lia). set (c := base / 16) in *.
  assert (Hw : in_width 32 (base + t)) by (unfold in_width; lia).
  assert (2 ^ 4 ≤ 2 ^ k ≤ 2 ^ 31) by (split; apply Z.pow_le_mono_r; lia). change (2 ^ 4) with 16 in *.
  assert (Hm : (base + t) mod 2 ^ k = t).
  { rewrite <- Zplus_mod_idemp_l, Ha, Z.mod_small; lia. }
  assert (H16' : (2 ^ k) mod 16 = 0) by (apply (pow2_multiple_16 _ k); [lia|apply Z.mod_same; lia]).
  unfold bar_result. destruct (bar_low_bits (base + t)) as [E1 E2]. cbn [value]. rewrite E1, E2, ones_read, Hm by (done || lia).
  rewrite (bool_decide_false (base + t = 0)), (bool_decide_false (base + t = 0xFFFFFFFF)) by lia.
  rewrite bool_decide_false by (Z.div_mod_to_equations; lia). cbn [orb].
  rewrite bool_decide_true by (unfold BAR_32_WIDTH; Z.div_mod_to_equations; lia).
  rewrite !land_not_15 by (lia || (unfold in_width in *; lia)). do 2 f_equal.
  - Z.div_mod_to_equations; lia.
  - replace ((2 ^ 32 - 2 ^ k + t) mod 16) with t by (Z.div_mod_to_equations; lia).
    unfold not_w, u32. rewrite wrap_id; unfold in_width; lia.
Qed.
(** An aligned 64-bit address in two halves. *)
Lemma aligned_halves base k : 4 ≤ k < 64 → base mod 2 ^ k = 0 →
  (base mod 2 ^ 32) mod 2 ^ (Z.min k 32) = 0 ∧ (base / 2 ^ 32) mod 2 ^ (Z.max (k - 32) 0) = 0
  ∧ 2 ^ 32 * 2 ^ (Z.max (k - 32) 0) + 2 ^ (Z.min k 32) = 2 ^ 32 + 2 ^ k.
Proof.
  intros Hk Ha.
  assert (Hlo : (base mod 2 ^ 32) mod 2 ^ (Z.min k 32) = 0).
  { apply Z.mod_divide in Ha as [c ->]; [|pose proof (pow2_pos k); lia]. destruct (decide (k ≤ 32)) as [Hl|Hl].
    - rewrite Z.min_l by lia. replace (2 ^ 32) with (2 ^ k * 2 ^ (32 - k)) by (rewrite <- Z.pow_add_r by lia; f_equal; lia).
      rewrite (Z.mul_comm c), Zmult_mod_distr_l, Z.mul_comm. apply Z.mod_mul. pose proof (pow2_pos k). lia.
    - rewrite Z.min_r by lia. replace k with (k - 32 + 32) at 1 by lia.
      rewrite Z.pow_add_r, Z.mul_assoc, Z.mod_mul by lia. done. }
  assert (Hhi : (base / 2 ^ 32) mod 2 ^ (Z.max (k - 32) 0) = 0).
  { apply Z.mod_divide in Ha as [c ->]; [|pose proof (pow2_pos k); lia]. destruct (decide (k ≤ 32)) as [Hl|Hl].
    - rewrite Z.max_r by lia. apply Z.mod_1_r.
    - rewrite Z.max_l by lia. replace k with (k - 32 + 32) at 1 by lia.
      rewrite Z.pow_add_r, Z.mul_assoc, Z.div_mul, Z.mod_mul by (lia || pose proof (pow2_pos (k - 32)); lia). done. }
  assert (Hk2 : 2 ^ 32 * 2 ^ (Z.max (k - 32) 0) + 2 ^ (Z.min k 32) = 2 ^ 32 + 2 ^ k).
  { destruct (decide (k ≤ 32)) as [Hl|Hl].
    - rewrite Z.max_r, Z.min_l by lia. lia.
    - rewrite Z.max_l, Z.min_r, <- Z.pow_add_r by lia. replace (32 + (k - 32)) with k by lia. lia. }
  done.
Qed.
Lemma bar_result_mem64 base k (pf : bool) : 4 ≤ k < 64 → 0 ≤ base < 2 ^ 64 → base mod 2 ^ k = 0 →
  bar_result {| value := base mod 2 ^ 32 + 4 + (if pf then 8 else 0); rw := 2 ^ 32 - 2 ^ (Z.min k 32); w1c := 0 |}
    {| value := base / 2 ^ 32; rw := 2 ^ 32 - 2 ^ (Z.max (k - 32) 0); w1c := 0 |}
  = Memory {| mem_base := base; mem_len := 2 ^ k; width := 64 |}.
Proof.
  intros Hk Hb Ha. set (t := if pf then 8 else 0). assert (Ht : t = 0 ∨ t = 8) by (unfold t; destruct pf; auto).
  destruct (aligned_halves base k Hk Ha) as (Hlo & Hhi & Hk2).
  pose proof (Z.mod_pos_bound base (2 ^ 32) ltac:(lia)) as Hbl. pose proof (Z.div_mod base (2 ^ 32) ltac:(lia)) as Hbd.
  assert (Hbh : 0 ≤ base / 2 ^ 32 < 2 ^ 32) by (split; [apply Z.div_pos|apply Z.div_lt_upper_bound]; lia).
  set (bl := base mod 2 ^ 32) in *. set (bh := base / 2 ^ 32) in *.
  pose proof (pow2_multiple_16 bl (Z.min k 32) ltac:(lia) Hlo) as H16.
  assert (Hd : bl = 16 * (bl / 16)) by (pose proof (Z.div_mod bl 16); lia). set (c := bl / 16) in *.
  assert (Hkl : 2 ^ 4 ≤ 2 ^ Z.min k 32 ≤ 2 ^ 32) by (split; apply Z.pow_le_mono_r; lia). change (2 ^ 4) with 16 in Hkl.
  assert (Hkh : 2 ^ 0 ≤ 2 ^ Z.max (k - 32) 0 ≤ 2 ^ 32) by (split; apply Z.pow_le_mono_r; lia). change (2 ^ 0) with 1 in Hkh.
  assert (Hkk : 16 ≤ 2 ^ k < 2 ^ 64) by (split; [change 16 with (2 ^ 4); apply Z.pow_le_mono_r|apply Z.pow_lt_mono_r]; lia).
  assert (H16k : (2 ^ k) mod 16 = 0) by (apply (pow2_multiple_16 _ k); [lia|apply Z.mod_same; lia]).
  assert (Hlt : (bl + 4 + t) mod 2 ^ Z.min k 32 = 4 + t).
  { replace (bl + 4 + t) with (bl + (4 + t)) by lia. rewrite <- Zplus_mod_idemp_l, Hlo, Z.mod_small; lia. }
  unfold bar_result. destruct (bar_low_bits (bl + 4 + t)) as [E1 E2]. cbn [value].
  rewrite E1, E2, !ones_read, Hlt, Hhi by ((unfold in_width; lia) || lia).
  rewrite (bool_decide_false (bl + 4 + t = 0)), (bool_decide_false (bl + 4 + t = 0xFFFFFFFF)) by lia. cbn [orb].
  rewrite bool_decide_false by (Z.div_mod_to_equations; lia).
  rewrite bool_decide_false by (unfold BAR_32_WIDTH; Z.div_mod_to_equations; lia).
  rewrite bool_decide_true by (unfold BAR_64_WIDTH; Z.div_mod_to_equations; lia).
  rewrite !Z.shiftl_mul_pow2 by lia. rewrite !(u64_id (_ * _)) by lia.
  replace ((2 ^ 32 - 2 ^ Z.max (k - 32) 0 + 0) * 2 ^ 32 + (2 ^ 32 - 2 ^ Z.min k 32 + (4 + t))) with (2 ^ 64 - 2 ^ k + (4 + t)) by lia.
  rewrite (u64_id (2 ^ 64 - _ + _)) by lia.
  rewrite (land_not_15 32), (land_not_15 64) by (lia || (unfold in_width; lia)).
  replace ((bl + 4 + t) mod 16) with (4 + t) by (Z.div_mod_to_equations; lia).
  replace ((2 ^ 64 - 2 ^ k + (4 + t)) mod 16) with (4 + t) by (Z.div_mod_to_equations; lia).
  unfold not_w. rewrite !u64_id by lia. do 2 f_equal; lia.
Qed.
Lemma bar_result_ports r r2 base : 0 ≤ base < 2 ^ 16 → base mod 4 = 0 → value r = base + 1 → bar_result r r2 = IO base.
Proof.
  intros Hb Ha E. unfold bar_result. destruct (bar_low_bits (value r)) as [E1 _]. rewrite E in *.
  rewrite (bool_decide_false (base + 1 = 0)), (bool_decide_false (base + 1 = 0xFFFFFFFF)) by lia. cbn [orb].
  rewrite bool_decide_true by (rewrite E1; Z.div_mod_to_equations; lia). f_equal.
  assert (in_width 16 (base + 1)) by (unfold in_width; Z.div_mod_to_equations; lia).
  replace 0xfffe with (not_w 16 (Z.ones 1)) by done. rewrite land_not_ones by (done || lia). change (2 ^ 1) with 2.
  unfold u16. replace (base + 1 - (base + 1) mod 2) with base by (Z.div_mod_to_equations; lia). by apply wrap_id.
Qed.

(** * Devices *)

(** The six registers of a device: what is at each, none for a register that is not
    implemented; a 64-bit one takes two. *)
Fixpoint bars_shown (fn : Z * Z * Z) (i : nat) (xs : list (option bar_desc)) (m : pci_machine) : Prop :=
  let r k := space m (fn, 4 + Z.of_nat k) in
  match xs with
  | [] => i = 6%nat
  | None :: xs => value (r i) = 0 ∧ bars_shown fn (S i) xs m
  | Some x :: xs => bar_desc_ok x ∧ bar_shows x (r i) (r (S i))
      ∧ bars_shown fn (match x with Mem64 _ _ _ => S (S i) | _ => S i end) xs m
  end.
Definition bar_slots (x : option bar_desc) : list MappedRegister :=
  match x with
  | None => [Unavailable]
  | Some (Mem64 _ _ _ as x) => [bar_mapping x; Unavailable]
  | Some x => [bar_mapping x]
  end.
Definition mapped_bars (xs : list (option bar_desc)) : list MappedRegister := concat (map bar_slots xs).

(** ** Headers *)

Definition longs_at (sp : loc → reg) (fn : Z * Z * Z) (first : Z) (n : nat) : list Z :=
  map (λ i, value (sp (fn, first + Z.of_nat i))) (seq 0 n).
Definition header_at (sp : loc → reg) (fn : Z * Z * Z) : PCIHeader :=
  let common := common_of (longs_at sp fn 0 4) in
  let kind := Z.land (header_type common) 0x7f in
  {| common := common;
     var := if bool_decide (kind = 2) then Type2 (type2_of (longs_at sp fn 4 14))
            else if bool_decide (kind = 1) then Type1 (type1_of (longs_at sp fn 4 12))
            else Type0 (type0_of (longs_at sp fn 4 12)) |}.

Lemma read_longs_spec b d f first n m : fn_ok b d f → 0 ≤ first → first + Z.of_nat n ≤ 64 → ∃ a,
  read_longs b d f first n m = (longs_at (space m) (b, d, f) first n, {| address := a; space := space m |}).
Proof.
  intros Hfn. revert first m. induction n as [|n IH]; intros first m H0 Hn; simpl.
  - exists (address m). by destruct m.
  - rewrite read_long_spec by (done || lia). unfold u8. rewrite wrap_id by (unfold in_width; lia).
    edestruct (IH (first + 1)) as [a ->]; [lia..|]. exists a. cbn [space]. unfold longs_at. cbn [seq map].
    rewrite Z.add_0_r, <- seq_shift, map_map. do 2 f_equal. apply map_ext. intros i. do 3 f_equal. lia.
Qed.
Lemma header_read_spec b d f m : fn_ok b d f → ∃ a,
  PCIHeader_read b d f m = (header_at (space m) (b, d, f), {| address := a; space := space m |}).
Proof.
  intros Hfn. unfold PCIHeader_read, header_at. edestruct (read_longs_spec b d f 0 4) as [a ->]; [done|lia..|].
  repeat case_bool_decide; [edestruct (read_longs_spec b d f 4 14) as [a' ->]|edestruct (read_longs_spec b d f 4 12) as [a' ->]..];
    try done; try lia; by eexists.
Qed.

(** What the enumeration looks at: the bus behind a bridge. *)
Definition bridge_target (h : PCIHeader) : option Z :=
  if bool_decide (class_code (common h) = 0x6) && bool_decide (subclass (common h) = 0x4) then
    match var h with Type1 bridge => Some (secondary_bus bridge) | _ => None end
  else None.

(** The fields it needs are in the registers 0, 2, 3 and 6. *)
Lemma vendor_id_long sp fn : vendor_id (common (header_at sp fn)) = vendor_id (common_of [value (sp (fn, 0)); 0; 0; 0]).
Proof. reflexivity. Qed.
Lemma class_code_long sp fn : class_code (common (header_at sp fn)) = class_code (common_of [0; 0; value (sp (fn, 2)); 0]).
Proof. reflexivity. Qed.
Lemma subclass_long sp fn : subclass (common (header_at sp fn)) = subclass (common_of [0; 0; value (sp (fn, 2)); 0]).
Proof. reflexivity. Qed.
Lemma header_type_long sp fn : header_type (common_of (longs_at sp fn 0 4)) = header_type (common_of [0; 0; 0; value (sp (fn, 3))]).
Proof. reflexivity. Qed.
Lemma secondary_bus_long sp fn : secondary_bus (type1_of (longs_at sp fn 4 12))
  = secondary_bus (type1_of [0; 0; value (sp (fn, 6)); 0; 0; 0; 0; 0; 0; 0; 0; 0]).
Proof. reflexivity. Qed.
Lemma secondary_bus_range sp fn : 0 ≤ secondary_bus (type1_of (longs_at sp fn 4 12)) < 256.
Proof. rewrite secondary_bus_long. unfold type1_of, fields_of. simpl. rewrite Z.add_0_r. apply Z.mod_pos_bound. lia. Qed.

(** ** Loading a device *)

(** The registers that loading a device probes. *)
Definition probed (fn : Z * Z * Z) (l : loc) : Prop := l.1 = fn ∧ 4 ≤ l.2 ≤ 12.

Lemma from_bar_settled b d f i m : fn_ok b d f → (i ≤ 5)%nat → regs_ok m → ∃ m',
  from_bar b d f (Z.of_nat i) m
  = (bar_result (space m (b, d, f, 4 + Z.of_nat i)) (space m (b, d, f, 4 + Z.of_nat (S i))), m') ∧ settled (probed (b, d, f)) m m'.
Proof.
  intros Hfn Hi Hm. destruct (from_bar_spec b d f (Z.of_nat i) m Hfn ltac:(lia) Hm) as (m' & Hs & ->). exists m'. split.
  - do 4 f_equal. lia.
  - eapply settled_mono; [|exact Hs]. intros l [-> | ->]; split; simpl; (done || lia).
Qed.
Lemma load_registers_settled b d f n i regs m : fn_ok b d f → regs_ok m → ∃ regs' m',
  load_registers n b d f i regs m = (regs', m') ∧ settled (probed (b, d, f)) m m'.
Proof.
  intros Hfn. revert i regs m. induction n as [|n IH]; intros i regs m Hm; simpl.
  - exists regs, m. split; [done|]. intros l. by left.
  - case_bool_decide as Hi; [by apply IH|]. destruct (from_bar_settled b d f i m Hfn ltac:(lia) Hm) as (m1 & -> & H1).
    match goal with |- context [load_registers n b d f ?i' ?r' m1] =>
      destruct (IH i' r' m1 (settled_ok _ _ _ H1 Hm)) as (regs' & m' & -> & H2) end.
    exists regs', m'. split; [done|]. by eapply settled_trans.
Qed.

(** The expansion ROM.  The value that is written to find its size is always 0. *)
Definition rom_result (r : reg) : option PCIMappedMemory :=
  if bool_decide (Z.land (value r) 1 = 1) then
    Some {| mem_base := Z.land (value r) (not_w 32 0x3ff);
            mem_len := not_w 32 (Z.land (value (write_reg r 0)) (not_w 32 0x3ff)); width := 32 |}
  else None.
Lemma rom_probe_zero x : Z.land (u32 (Z.shiftl (not_w 32 0) 11)) (Z.land x 0x3ff) = 0.
Proof.
  rewrite (Z.land_comm x), Z.land_assoc. replace (Z.land (u32 (Z.shiftl (not_w 32 0) 11)) 0x3ff) with 0 by done.
  apply Z.land_0_l.
Qed.
Lemma load_eprom_settled b d f m : fn_ok b d f → regs_ok m → ∃ m',
  load_eprom b d f m = (rom_result (space m (b, d, f, 12)), m') ∧ settled (probed (b, d, f)) m m'.
Proof.
  intros Hfn Hm. unfold load_eprom, rom_result. rewrite read_long_spec by (done || lia). set (l0 := (b, d, f, 12)).
  case_bool_decide; [|eexists; split; [done|apply settled_refl]]. rewrite rom_probe_zero.
  rewrite write_long_spec, read_long_spec, write_long_spec by (done || lia). fold l0. cbn [space]. rewrite update_space_eq.
  eexists. split; [done|]. intros l. cbn [space]. destruct (decide (l = l0)) as [->|Hl].
  - right. split; [split; [done|simpl; lia]|]. rewrite !update_space_eq. apply write_restore, Hm.
  - left. by rewrite !update_space_ne.
Qed.

(** The class number is the upper three bytes of register 2. *)
Lemma class_number x : in_width 32 x → let c := common_of [0; 0; x; 0] in
  u32 (u32 (Z.shiftl (class_code c) 16 + Z.shiftl (subclass c) 8) + prog_if c) = x / 2 ^ 8.
Proof.
  intros Hx c.
  assert (E1 : class_code c = x / 256 / 256 / 256 mod 256) by (unfold c, common_of, fields_of; simpl; by rewrite Z.add_0_r).
  assert (E2 : subclass c = x / 256 / 256 mod 256) by (unfold c, common_of, fields_of; simpl; by rewrite Z.add_0_r).
  assert (E3 : prog_if c = x / 256 mod 256) by (unfold c, common_of, fields_of; simpl; by rewrite Z.add_0_r).
  rewrite E1, E2, E3, !Z.shiftl_mul_pow2 by lia. change (2 ^ 16) with 65536. change (2 ^ 8) with 256.
  unfold in_width in Hx. change (2 ^ 32) with 4294967296 in Hx.
  assert (Hu : ∀ z, 0 ≤ z < 4294967296 → u32 z = z) by (intros; by apply wrap_id).
  pose proof (Z.div_mod x 256 ltac:(lia)). pose proof (Z.mod_pos_bound x 256 ltac:(lia)). set (q1 := x / 256) in *.
  pose proof (Z.div_mod q1 256 ltac:(lia)). pose proof (Z.mod_pos_bound q1 256 ltac:(lia)). set (q2 := q1 / 256) in *.
  pose proof (Z.div_mod q2 256 ltac:(lia)). pose proof (Z.mod_pos_bound q2 256 ltac:(lia)). set (q3 := q2 / 256) in *.
  rewrite (Z.mod_small q3) by lia. rewrite (Hu (q3 * 65536 + _)) by lia. rewrite Hu; lia.
Qed.
(** Whatever the device, loading it only clears flags. *)
Lemma load_settled b d f m : fn_ok b d f → regs_ok m → ∃ dev m', load b d f m = (dev, m')
  ∧ settled (probed (b, d, f)) m m' ∧ (bus dev, device dev, function dev) = (b, d, f).
Proof.
  intros Hfn Hm. unfold load. destruct (header_read_spec b d f m Hfn) as [a ->].
  set (m0 := {| address := a; space := space m |}).
  destruct (load_registers_settled b d f 6 0 (replicate 6 Unavailable) m0 Hfn Hm) as (regs & m1 & -> & H1).
  destruct (load_eprom_settled b d f m1 Hfn (settled_ok _ _ _ H1 Hm)) as (m2 & -> & H2).
  eexists _, m2. split; [done|]. split; [|done]. exact (settled_trans _ _ _ _ H1 H2).
Qed.

(** *** Without flags *)

Definition no_flags (fn : Z * Z * Z) (m : pci_machine) : Prop := ∀ l, probed fn l → w1c (space m l) = 0.
Definition same_space (m m' : pci_machine) : Prop := ∀ l, space m' l = space m l.
Lemma settled_no_flags fn m m' : no_flags fn m → settled (probed fn) m m' → same_space m m'.
Proof. intros Hn Hs l. apply (settled_same _ _ _ _ Hs). auto. Qed.
Lemma bars_shown_ext fn i xs m m' : same_space m m' → bars_shown fn i xs m → bars_shown fn i xs m'.
Proof. intros E. revert i. induction xs as [|[x|] xs IH]; intros i; simpl; rewrite ?E; naive_solver. Qed.
Lemma bars_shown_bound fn i xs m : bars_shown fn i xs m → (i ≤ 6)%nat ∧ ∃ k, length xs = k ∧ (k ≤ 6 - i)%nat.
Proof.
  revert i. induction xs as [|[x|] xs IH]; intros i; simpl.
  - intros ->. split; [done|]. by exists 0%nat.
  - intros (_ & _ & H). apply IH in H as (H1 & k & Hk & H2). split; [destruct x; lia|]. exists (S k). destruct x; lia.
  - intros (_ & H). apply IH in H as (H1 & k & Hk & H2). split; [lia|]. exists (S k). lia.
Qed.
Lemma bar_result_shows x r r2 : bar_desc_ok x → bar_shows x r r2 → bar_result r r2 = bar_mapping x.
Proof.
  destruct x as [base k pf|base k pf|base]; simpl.
  - intros (Hk & Hb & Ha) ->. by apply bar_result_mem32.
  - intros (Hk & Hb & Ha) [-> ->]. by apply bar_result_mem64.
  - intros [Hb Ha] E. by apply bar_result_ports.
Qed.
Lemma load_registers_bars b d f n i xs pre m : fn_ok b d f → regs_ok m → no_flags (b, d, f) m →
  bars_shown (b, d, f) i xs m → length pre = i → (length xs ≤ n)%nat → ∃ m',
  load_registers n b d f i (pre ++ replicate (6 - i) Unavailable) m = (pre ++ mapped_bars xs, m') ∧ same_space m m'.
Proof.
  intros Hfn. revert i xs pre m. induction n as [|n IH]; intros i xs pre m Hm Hn Hx Hp Hl.
  - destruct xs; [|simpl in Hl; lia]. simpl in Hx. rewrite Hx. exists m. split; [done|]. by intros l.
  - destruct (bars_shown_bound _ _ _ _ Hx) as [Hi _]. simpl. destruct xs as [|o xs].
    { simpl in Hx. subst i. rewrite bool_decide_true by lia. apply (IH 6%nat [] pre m); [done..|simpl; lia]. }
    assert (Hi5 : (i ≤ 5)%nat).
    { destruct (bars_shown_bound _ _ _ _ Hx) as (_ & k & Hk & Hk'). simpl in Hk. lia. }
    rewrite bool_decide_false by lia. destruct (from_bar_settled b d f i m Hfn Hi5 Hm) as (m1 & -> & Hs).
    pose proof (settled_no_flags _ _ _ Hn Hs) as E. assert (Hm1 : regs_ok m1) by (intros l; rewrite E; apply Hm).
    assert (Hn1 : no_flags (b, d, f) m1) by (intros l Hq; rewrite E; by apply Hn).
    assert (Hins : ∀ y, <[i := y]> (pre ++ replicate (6 - i) Unavailable) = (pre ++ [y]) ++ replicate (6 - S i) Unavailable).
    { intros y. replace (6 - i)%nat with (S (6 - S i)) by lia. cbn [replicate].
      rewrite <- (Nat.add_0_r i), <- Hp at 1. rewrite insert_app_r, <- app_assoc. done. }
    assert (Hstep : ∀ ys, (length (pre ++ ys) ≤ 6)%nat → bars_shown (b, d, f) (length (pre ++ ys)) xs m → ∃ m',
      load_registers n b d f (length (pre ++ ys)) ((pre ++ ys) ++ replicate (6 - length (pre ++ ys)) Unavailable) m1
      = (pre ++ ys ++ mapped_bars xs, m') ∧ same_space m m').
    { intros ys Hys Hsh. destruct (IH (length (pre ++ ys)) xs (pre ++ ys) m1) as (m' & E1 & E2);
        [done|done|by eapply bars_shown_ext|done|simpl in Hl; lia|].
      exists m'. rewrite E1, <- app_assoc. split; [done|]. intros l. by rewrite E2. }
    rewrite Hins. destruct o as [x|].
    + destruct Hx as (Hok & Hsh & Hx). rewrite (bar_result_shows x _ _ Hok Hsh).
      destruct x as [base k pf|base k pf|base]; simpl in Hx; cbn [bar_mapping width].
      * specialize (Hstep [bar_mapping (Mem32 base k pf)]). rewrite length_app, Nat.add_1_r, Hp in Hstep. by apply Hstep; [lia|].
      * destruct (bars_shown_bound _ _ _ _ Hx) as [H6 _]. specialize (Hstep [bar_mapping (Mem64 base k pf); Unavailable]).
        rewrite length_app, Hp in Hstep. cbn [length] in Hstep. replace (i + 2)%nat with (S (S i)) in Hstep by lia.
        replace (6 - S i)%nat with (S (6 - S (S i))) by lia. cbn [replicate]. rewrite bool_decide_true by done.
        rewrite <- !app_assoc in Hstep |- *. by apply Hstep; [lia|].
      * specialize (Hstep [bar_mapping (Ports base)]). rewrite length_app, Nat.add_1_r, Hp in Hstep. by apply Hstep; [lia|].
    + destruct Hx as [H0 Hx]. assert (bar_result (space m (b, d, f, 4 + Z.of_nat i)) (space m (b, d, f, 4 + Z.of_nat (S i))) = Unavailable) as ->.
      { unfold bar_result. by rewrite H0. }
      specialize (Hstep [Unavailable]). rewrite length_app, Nat.add_1_r, Hp in Hstep. by apply Hstep; [lia|].
Qed.

(** An enabled expansion ROM of [2 ^ k] bytes at [base]. *)
Definition rom_shown (base k : Z) (r : reg) : Prop :=
  11 ≤ k < 32 ∧ 0 ≤ base < 2 ^ 32 ∧ base mod 2 ^ k = 0
  ∧ r = {| value := base + 1; rw := Z.lor (2 ^ 32 - 2 ^ k) 1; w1c := 0 |}.
Lemma rom_result_shown base k r : rom_shown base k r →
  rom_result r = Some {| mem_base := base; mem_len := 2 ^ 32 - 1; width := 32 |}.
Proof.
  intros (Hk & Hb & Ha & ->). unfold rom_result, write_reg. cbn [value rw w1c].
  pose proof (pow2_pos k ltac:(lia)) as Hp. assert (H10 : base mod 2 ^ 10 = 0).
  { apply Z.mod_divide in Ha as [c ->]; [|lia]. replace k with (k - 10 + 10) by lia.
    rewrite Z.pow_add_r, Z.mul_assoc by lia. apply Z.mod_mul. lia. }
  assert (H16 : base mod 2 = 0) by (change (2 ^ 10) with 1024 in H10; Z.div_mod_to_equations; lia).
  assert (Hb1 : in_width 32 (base + 1)) by (unfold in_width; Z.div_mod_to_equations; lia).
  rewrite (proj1 (bar_low_bits (base + 1))), bool_decide_true by (Z.div_mod_to_equations; lia).
  assert (E0 : Z.ldiff (base + 1) (Z.lor (2 ^ 32 - 2 ^ k) 1) = 0).
  { replace (Z.ldiff (base + 1) (Z.lor (2 ^ 32 - 2 ^ k) 1)) with (Z.ldiff (Z.ldiff (base + 1) (2 ^ 32 - 2 ^ k)) 1).
    - rewrite (ldiff_high 32) by (done || lia). rewrite <- Zplus_mod_idemp_l, Ha, Z.mod_small; [done|].
      split; [lia|]. assert (2 ^ 11 ≤ 2 ^ k) by (apply Z.pow_le_mono_r; lia). lia.
    - apply Z.bits_inj'. intros i Hi. autorewrite with fz_word. rewrite negb_orb. by rewrite andb_assoc. }
  rewrite ?Z.land_0_l, ?Z.land_0_r, ?Z.ldiff_0_r, E0, ?Z.ldiff_0_l. cbn [Z.lor Z.land].
  change 0x3ff with (Z.ones 10). rewrite land_not_ones by (done || lia). do 2 f_equal.
  change (2 ^ 10) with 1024 in *. Z.div_mod_to_equations; lia.
Qed.

(** C31: loading a device.  When its six base address registers show memory of a power
    of two bytes, in 32 or 64 bits, or ports, each is found with its address and
    its size, the second half of a 64-bit one is skipped, and the class is the one
    of the number in the header.  Every register of configuration space has the
    value it had.  The expansion ROM has the right address but always a length of
    2^32 - 1: the code looks for its size by writing zero. *)
Theorem load_maps_bars b d f m xs : fn_ok b d f → regs_ok m → no_flags (b, d, f) m → bars_shown (b, d, f) 0 xs m →
  ∃ dev m', load b d f m = (dev, m') ∧ same_space m m'
  ∧ registers dev = mapped_bars xs ∧ class dev = DeviceClass_from_u32 (value (space m (b, d, f, 2)) / 2 ^ 8)
  ∧ (∀ base k, rom_shown base k (space m (b, d, f, 12)) →
      eprom dev = Some {| mem_base := base; mem_len := 2 ^ 32 - 1; width := 32 |})
  ∧ (bus dev, device dev, function dev) = (b, d, f).
Proof.
  intros Hfn Hm Hn Hx. unfold load. destruct (header_read_spec b d f m Hfn) as [a ->].
  set (m0 := {| address := a; space := space m |}).
  destruct (bars_shown_bound _ _ _ _ Hx) as (_ & k & Hk & Hk').
  assert (Hx0 : bars_shown (b, d, f) 0 xs m0) by (by apply (bars_shown_ext _ _ _ m m0)).
  destruct (load_registers_bars b d f 6 0 xs [] m0 Hfn Hm Hn Hx0 eq_refl ltac:(lia)) as (m1 & E1 & S1).
  cbn [app Nat.sub] in E1. rewrite E1.
  assert (Hm1 : regs_ok m1) by (intros l; rewrite S1; apply Hm).
  assert (Hn1 : no_flags (b, d, f) m1) by (intros l Hq; rewrite S1; by apply Hn).
  destruct (load_eprom_settled b d f m1 Hfn Hm1) as (m2 & E2 & H2). rewrite E2.
  eexists _, m2. split; [done|]. cbn [registers class eprom bus device function]. split_and!.
  - intros l. rewrite (settled_no_flags _ _ _ Hn1 H2). apply S1.
  - done.
  - f_equal. apply (class_number (value (space m (b, d, f, 2)))), Hm.
  - intros base k0 Hr. rewrite S1. by apply (rom_result_shown base k0).
  - done.
Qed.

Definition sample_bars : list (option bar_desc) :=
  [Some (Mem32 0xfebf0000 12 false); Some (Mem64 0x180000000 20 true); Some (Ports 0xc000); None; None].
Definition plain (v : Z) : reg := {| value := v; rw := 0; w1c := 0 |}.
(** A SATA controller at 0:1:0. *)
Definition sample_machine : pci_machine := {| address := 0; space l :=
  match l with
  | (0, 1, 0, o) =>
      match o with
      | 0 => plain 0x29228086
      | 2 => plain 0x01060102
      | 4 => {| value := 0xfebf0000; rw := 2 ^ 32 - 2 ^ 12; w1c := 0 |}
      | 5 => {| value := 0x8000000c; rw := 2 ^ 32 - 2 ^ 20; w1c := 0 |}
      | 6 => {| value := 1; rw := 2 ^ 32 - 1; w1c := 0 |}
      | 7 => plain 0xc001
      | 12 => {| value := 0xfea00001; rw := Z.lor (2 ^ 32 - 2 ^ 16) 1; w1c := 0 |}
      | _ => plain 0
      end
  | _ => plain 0xffffffff
  end |}.
Lemma sample_cases (P : reg → Prop) : P (plain 0x29228086) → P (plain 0x01060102) →
  P {| value := 0xfebf0000; rw := 2 ^ 32 - 2 ^ 12; w1c := 0 |} → P {| value := 0x8000000c; rw := 2 ^ 32 - 2 ^ 20; w1c := 0 |} →
  P {| value := 1; rw := 2 ^ 32 - 1; w1c := 0 |} → P (plain 0xc001) →
  P {| value := 0xfea00001; rw := Z.lor (2 ^ 32 - 2 ^ 16) 1; w1c := 0 |} → P (plain 0) → P (plain 0xffffffff) →
  ∀ l, P (space sample_machine l).
Proof. intros ????????? l. destruct l as [[[b d] f] o]. simpl. repeat case_match; done. Qed.
Lemma sample_ok : regs_ok sample_machine.
Proof. intros l. apply sample_cases; split_and!; (done || (unfold in_width; simpl; lia)). Qed.
Lemma load_maps_bars_witness : ∃ dev m', load 0 1 0 sample_machine = (dev, m') ∧ same_space sample_machine m'
  ∧ registers dev = mapped_bars sample_bars ∧ class dev = SATAControllerAHCI
  ∧ eprom dev = Some {| mem_base := 0xfea00000; mem_len := 2 ^ 32 - 1; width := 32 |}.
Proof.
  destruct (load_maps_bars 0 1 0 sample_machine sample_bars) as (dev & m' & E & Hs & Hr & Hc & He & _).
  - unfold fn_ok. lia.
  - apply sample_ok.
  - intros l _. by apply sample_cases.
  - simpl. split_and!; (done || lia).
  - exists dev, m'. split_and!; [done|done|done|rewrite Hc; vm_compute; done|].
    apply (He 0xfea00000 16). split_and!; (done || lia).
Defined.
