(* ===== verification/PciEnum.v ===== *)
(** The enumeration of PCI devices (src/drivers/pci/mod.rs) finds every function
    exactly once, and the effect of the accessors of the command and status
    registers (src/drivers/pci/device.rs). *)

From stdpp Require Import relations.
From S2P Require Import Prelude Partitions Ports PciClass Pci PciSpec.

#[local] Opaque pci_read_long pci_write_long PCIHeader_read load header_at.
#[local] Arguments Z.testbit : simpl never.
#[local] Arguments pci_function_secbus_check : simpl never.
#[local] Arguments pci_bus_scan : simpl never.
#[local] Opaque range.

(** * What the machine shows *)

#[local] Abbreviation fn := (Z * Z * Z)%type.
Definition pres (m : pci_machine) (x : fn) : bool := is_present (header_at (space m) x).
Definition multi (m : pci_machine) (x : fn) : bool := is_multifunction (header_at (space m) x).
Definition target (m : pci_machine) (x : fn) : option Z := bridge_target (header_at (space m) x).
Definition fn_valid (x : fn) : Prop := fn_ok x.1.1 x.1.2 x.2.

(** A function answers when its device has a function 0, and is that one or a
    function of a multifunction device. *)
Definition responds (m : pci_machine) (x : fn) : Prop :=
  fn_valid x ∧ pres m (x.1.1, x.1.2, 0) = true ∧ pres m x = true ∧ (x.2 = 0 ∨ multi m (x.1.1, x.1.2, 0) = true).
(** A bridge leads from its bus to another one. *)
Definition step (m : pci_machine) (b b' : Z) : Prop := ∃ x, x.1.1 = b ∧ responds m x ∧ target m x = Some b'.

(** No register that the enumeration reads has flags to clear. *)
Definition header_stable (m : pci_machine) : Prop :=
  ∀ (x : fn) o, o ∈ [0; 2; 3; 6] → w1c (space m (x, o)) = 0.

Lemma view_equiv m m' x : m' ≡ m → header_stable m →
  pres m' x = pres m x ∧ multi m' x = multi m x ∧ target m' x = target m x.
Proof.
  intros E Hs. assert (Hv : ∀ o, o ∈ [0; 2; 3; 6] → value (space m' (x, o)) = value (space m (x, o))).
  { intros o Ho. apply reg_equiv_value; [apply E|]. destruct (E (x, o)) as (_ & -> & _). by apply Hs. }
  assert (Hc : header_type (common (header_at (space m') x)) = header_type (common (header_at (space m) x))).
  { Transparent header_at. unfold header_at. cbn [common]. rewrite !header_type_long, Hv by set_solver. done. }
  split_and!.
  - unfold pres, is_present. rewrite !vendor_id_long, Hv by set_solver. done.
  - unfold multi, is_multifunction. by rewrite Hc.
  - unfold target, bridge_target. rewrite !class_code_long, !subclass_long, (Hv 2) by set_solver.
    case_match; [|done]. unfold header_at in *. cbn [common var] in *. rewrite Hc.
    repeat case_match; simplify_eq; try done. rewrite !secondary_bus_long, (Hv 6) by set_solver. done.
Qed.
#[local] Opaque header_at.

(** * The reference enumeration *)

Section spec.
Context (m : pci_machine).

(** What the visit of a function adds, given what is behind a bus. *)
Definition visited (scan : Z → list fn) (x : fn) : list fn :=
  if pres m x then (match target m x with Some b' => scan b' | None => [] end) ++ [x] else [].
Definition device_fns (b d : Z) : list fn :=
  if pres m (b, d, 0) then (b, d, 0) :: (if multi m (b, d, 0) then map (λ f, (b, d, f)) (range 1 8) else []) else [].
Fixpoint scan_list (n : nat) (b : Z) : list fn :=
  match n with
  | O => []
  | S n => concat (map (λ d, concat (map (visited (scan_list n)) (device_fns b d))) (range 0 32))
  end.

(** Secondary buses have greater numbers, as the firmware assigns them. *)
Definition forward : Prop := ∀ x b', responds m x → target m x = Some b' → x.1.1 < b'.
(** The roots: bus 0, or one bus for each function of a multifunction host from
    function 1 on. *)
Fixpoint host_roots (funcs : list Z) : list Z :=
  match funcs with
  | [] => []
  | f :: funcs => if pres m (0, 0, f) then f :: host_roots funcs else []
  end.
Definition roots : list Z := if multi m (0, 0, 0) then host_roots (range 1 8) else [0].
(** Every bus is behind one bridge at most, and the roots behind none. *)
Definition tree_like : Prop :=
  (∀ x y b', responds m x → responds m y → target m x = Some b' → target m y = Some b' → x = y)
  ∧ ∀ x b', responds m x → target m x = Some b' → b' ∉ roots.

(** * Devices found *)

Definition dev_fn (dev : PCIDevice) : fn := (bus dev, device dev, function dev).
Definition inv (m1 : pci_machine) : Prop := m1 ≡ m ∧ regs_ok m1.
(** A device is what loading it gives. *)
Definition loaded (dev : PCIDevice) (x : fn) : Prop :=
  dev_fn dev = x ∧ ∃ m1, inv m1 ∧ (load x.1.1 x.1.2 x.2 m1).1 = dev.
Definition appends (code : list PCIDevice * pci_machine → outcome (list PCIDevice * pci_machine)) (xs : list fn) : Prop :=
  ∀ l m1, inv m1 → ∃ l' m2, code (l, m1) = Done (l ++ l', m2) ∧ inv m2 ∧ Forall2 loaded l' xs.

Lemma appends_for_each body g xs : (∀ x, x ∈ xs → appends (body x) (g x)) → appends (for_each xs body) (concat (map g xs)).
Proof.
  induction xs as [|x xs IH]; intros H l m1 H1; simpl.
  - exists [], m1. rewrite app_nil_r. by split_and!.
  - destruct (H x ltac:(set_solver) l m1 H1) as (l1 & m2 & -> & H2 & F1). simpl.
    destruct (IH ltac:(set_solver) (l ++ l1) m2 H2) as (l2 & m3 & -> & H3 & F2).
    exists (l1 ++ l2), m3. rewrite app_assoc. split_and!; [done..|]. by apply Forall2_app.
Qed.

Lemma host_roots_sub funcs x : x ∈ host_roots funcs → x ∈ funcs.
Proof. induction funcs as [|f funcs IH]; simpl; [done|]. destruct (pres m (0, 0, f)); set_solver. Qed.
Lemma NoDup_roots : NoDup roots.
Proof.
  unfold roots. destruct (multi m (0, 0, 0)); [|apply NoDup_singleton]. pose proof (NoDup_range 1 8) as H.
  induction H as [|f funcs Hf _ IH]; simpl; [constructor|]. destruct (pres m (0, 0, f)); constructor; [|done].
  intros Hx%host_roots_sub. done.
Qed.
Lemma roots_range r : r ∈ roots → 0 ≤ r < 8.
Proof.
  unfold roots. destruct (multi m (0, 0, 0)); [|intros ->%list_elem_of_singleton; lia].
  intros Hr%host_roots_sub%elem_of_range. lia.
Qed.

Hypothesis Hstable : header_stable m.

Lemma inv_stable m1 : inv m1 → header_stable m1.
Proof. intros [E _] x o Ho. destruct (E (x, o)) as (_ & -> & _). by apply Hstable. Qed.
(** Reading a header and loading a device, up to the invariant. *)
Lemma inv_header b d f m1 : fn_ok b d f → inv m1 → ∃ h m2, PCIHeader_read b d f m1 = (h, m2) ∧ inv m2
  ∧ is_present h = pres m (b, d, f) ∧ is_multifunction h = multi m (b, d, f) ∧ bridge_target h = target m (b, d, f).
Proof.
  intros Hfn [E Hr]. destruct (header_read_spec b d f m1 Hfn) as [a ->]. eexists _, _. split; [done|].
  destruct (view_equiv m m1 (b, d, f) E Hstable) as (E1 & E2 & E3). by rewrite <- E1, <- E2, <- E3.
Qed.
Lemma inv_load b d f m1 : fn_ok b d f → inv m1 → ∃ dev m2, load b d f m1 = (dev, m2) ∧ inv m2 ∧ loaded dev (b, d, f).
Proof.
  intros Hfn [E Hr]. destruct (load_settled b d f m1 Hfn Hr) as (dev & m2 & El & Hs & Hd). exists dev, m2. split_and!; [done| |].
  - split; [etrans; [by eapply settled_equiv|done]|by eapply settled_ok].
  - split; [done|]. exists m1. split; [done|]. cbn [fst snd]. by rewrite El.
Qed.

Lemma secbus_appends scan scan' b d f : fn_ok b d f →
  (∀ b', pres m (b, d, f) = true → target m (b, d, f) = Some b' → appends (scan b') (scan' b')) →
  appends (pci_function_secbus_check scan b d f) (visited scan' (b, d, f)).
Proof.
  intros Hfn Hscan l m1 H1. unfold pci_function_secbus_check, visited.
  destruct (inv_header b d f m1 Hfn H1) as (h & m2 & -> & H2 & Ep & _ & Et). rewrite Ep.
  destruct (pres m (b, d, f)) eqn:E; simpl; [|exists [], m2; rewrite app_nil_r; by split_and!].
  assert (Hbr : ∃ l1 m3, (if bool_decide (class_code (common h) = 0x6) && bool_decide (subclass (common h) = 0x4) then
        match var h with Type1 bridge => scan (secondary_bus bridge) (l, m2) | _ => Done (l, m2) end
      else Done (l, m2)) = Done (l ++ l1, m3) ∧ inv m3
      ∧ Forall2 loaded l1 (match target m (b, d, f) with Some b' => scan' b' | None => [] end)).
  { rewrite <- Et. unfold bridge_target in *. destruct (_ && _); [destruct (var h)|].
    2: { destruct (Hscan (secondary_bus h0) eq_refl (eq_sym Et) l m2 H2) as (l1 & m3 & ?). by exists l1, m3. }
    all: exists [], m2; rewrite app_nil_r; by split_and!. }
  destruct Hbr as (l1 & m3 & -> & H3 & F1). simpl.
  destruct (inv_load b d f m3 Hfn H3) as (dev & m4 & -> & H4 & Hd). exists (l1 ++ [dev]), m4.
  rewrite app_assoc. split_and!; [done..|]. apply Forall2_app; [done|]. by constructor.
Qed.

Lemma appends_nil l0 code : (∀ l m1, inv m1 → ∃ m2, code (l, m1) = Done (l, m2) ∧ inv m2) → l0 = [] → appends code l0.
Proof. intros H -> l m1 H1. destruct (H l m1 H1) as (m2 & -> & H2). exists [], m2. rewrite app_nil_r. by split_and!. Qed.

(** ** One bus *)

Lemma responds_intro b d f : fn_ok b d f → pres m (b, d, 0) = true → pres m (b, d, f) = true →
  f = 0 ∨ multi m (b, d, 0) = true → responds m (b, d, f).
Proof. intros. by split_and!. Qed.
Lemma target_range x b' : target m x = Some b' → 0 ≤ b' < 256.
Proof.
  Transparent header_at. unfold target, bridge_target, header_at. cbn [var common]. intros H.
  repeat case_match; simplify_eq. apply secondary_bus_range.
Qed.
#[local] Opaque header_at.

Hypothesis Hforward : forward.

Lemma device_appends fuel b d : 0 ≤ b < 256 → 0 ≤ d < 32 →
  (∀ b', b < b' < 256 → appends (pci_bus_scan fuel b') (scan_list fuel b')) →
  appends (λ '(l, m1), let '(header, m1) := PCIHeader_read b d 0 m1 in
    if negb (is_present header) then Done (l, m1)
    else
      s ← pci_function_secbus_check (pci_bus_scan fuel) b d 0 (l, m1);
      if is_multifunction header then
        for_each (range 1 8) (λ func s, pci_function_secbus_check (pci_bus_scan fuel) b d func s) s
      else Done s) (concat (map (visited (scan_list fuel)) (device_fns b d))).
Proof.
  intros Hb Hd IH l m1 H1. assert (Hfn : ∀ f, 0 ≤ f < 8 → fn_ok b d f) by (intros; unfold fn_ok; lia).
  destruct (inv_header b d 0 m1 (Hfn 0 ltac:(lia)) H1) as (h & m2 & -> & H2 & Ep & Em & _). rewrite Ep, Em. unfold device_fns.
  destruct (pres m (b, d, 0)) eqn:E0; simpl; [|exists [], m2; rewrite app_nil_r; by split_and!].
  assert (Hv : ∀ f, 0 ≤ f < 8 → f = 0 ∨ multi m (b, d, 0) = true →
    appends (pci_function_secbus_check (pci_bus_scan fuel) b d f) (visited (scan_list fuel) (b, d, f))).
  { intros f Hf Hm. apply secbus_appends; [by apply Hfn|]. intros b' Hp Ht. apply IH. pose proof (target_range _ _ Ht).
    assert (responds m (b, d, f)) as Hr by (apply responds_intro; auto). specialize (Hforward _ _ Hr Ht). simpl in Hforward. lia. }
  destruct (Hv 0 ltac:(lia) (or_introl eq_refl) l m2 H2) as (l1 & m3 & -> & H3 & F1). simpl.
  destruct (multi m (b, d, 0)) eqn:Em0.
  - rewrite map_map. destruct (appends_for_each (λ func s, pci_function_secbus_check (pci_bus_scan fuel) b d func s)
      (λ f, visited (scan_list fuel) (b, d, f)) (range 1 8)) with (l := l ++ l1) (m1 := m3) as (l2 & m4 & -> & H4 & F2); [|done|].
    + intros f Hf%elem_of_range. apply Hv; auto. lia.
    + exists (l1 ++ l2), m4. rewrite app_assoc. split_and!; [done..|]. by apply Forall2_app.
  - exists l1, m3. simpl. rewrite app_nil_r. by split_and!.
Qed.
(** The fuel bounds the depth, and bus numbers grow. *)
Lemma scan_appends fuel b : 0 ≤ b < 256 → 255 < b + Z.of_nat fuel → appends (pci_bus_scan fuel b) (scan_list fuel b).
Proof.
  revert b. induction fuel as [|fuel IH]; intros b Hb Hf; [lia|].
  intros l m1 H1. cbn [pci_bus_scan scan_list]. revert l m1 H1.
  apply (appends_for_each _ (λ d, concat (map (visited (scan_list fuel)) (device_fns b d)))).
  intros d Hd%elem_of_range. apply device_appends; [done|lia|]. intros b' Hb'. apply IH; lia.
Qed.
Lemma hosts_append fuel funcs : 256 ≤ Z.of_nat fuel → (∀ f, f ∈ funcs → 0 ≤ f < 8) →
  appends (host_loop fuel funcs) (concat (map (scan_list fuel) (host_roots funcs))).
Proof.
  intros Hfuel. induction funcs as [|f funcs IH]; intros Hf l m1 H1; simpl.
  - exists [], m1. rewrite app_nil_r. by split_and!.
  - assert (Hf0 : 0 ≤ f < 8) by (apply Hf; set_solver).
    destruct (inv_header 0 0 f m1 ltac:(unfold fn_ok; lia) H1) as (h & m2 & -> & H2 & Ep & _). rewrite Ep.
    destruct (pres m (0, 0, f)) eqn:E; simpl; [|exists [], m2; rewrite app_nil_r; by split_and!].
    destruct (scan_appends fuel f ltac:(lia) ltac:(lia) l m2 H2) as (l1 & m3 & -> & H3 & F1). simpl.
    destruct (IH ltac:(set_solver) (l ++ l1) m3 H3) as (l2 & m4 & -> & H4 & F2).
    exists (l1 ++ l2), m4. rewrite app_assoc. split_and!; [done..|]. by apply Forall2_app.
Qed.
Lemma traversal_appends fuel m1 : 256 ≤ Z.of_nat fuel → inv m1 → ∃ l m2, pci_enumerate_traversal fuel m1 = Done (l, m2)
  ∧ inv m2 ∧ Forall2 loaded l (concat (map (scan_list fuel) roots)).
Proof.
  intros Hfuel H1. unfold pci_enumerate_traversal, roots.
  destruct (inv_header 0 0 0 m1 ltac:(unfold fn_ok; lia) H1) as (h & m2 & -> & H2 & _ & Em & _). rewrite Em.
  destruct (multi m (0, 0, 0)); simpl.
  - destruct (hosts_append fuel (range 1 8) Hfuel) with (l := @nil PCIDevice) (m1 := m2) as (l & m3 & -> & ? & ?); [|done|by exists l, m3].
    intros f Hf%elem_of_range. lia.
  - rewrite app_nil_r. destruct (scan_appends fuel 0 ltac:(lia) ltac:(lia) [] m2 H2) as (l & m3 & -> & ? & ?). by exists l, m3.
Qed.

(** * What the reference enumeration contains *)

Lemma elem_of_device_fns b d x : 0 ≤ b < 256 → 0 ≤ d < 32 →
  (x ∈ device_fns b d ∧ pres m x = true) ↔ responds m x ∧ x.1 = (b, d).
Proof.
  intros Hb Hd. unfold device_fns, responds, fn_valid, fn_ok. destruct x as [[b' d'] f']. simpl. split.
  - intros [Hx Hp]. destruct (pres m (b, d, 0)) eqn:E0; [|by apply not_elem_of_nil in Hx].
    apply elem_of_cons in Hx as [[= -> -> ->]|Hx]; [split_and!; auto; lia|].
    destruct (multi m (b, d, 0)) eqn:Em; [|by apply not_elem_of_nil in Hx].
    apply list_elem_of_fmap in Hx as (f & [= -> -> ->] & Hf%elem_of_range). split_and!; auto; lia.
  - intros [(Hok & H0 & Hp & Hf) [= -> ->]]. split; [|done]. rewrite H0. apply elem_of_cons.
    destruct (decide (f' = 0)) as [->|Hne]; [by left|right]. destruct Hf as [?|Hm]; [done|]. rewrite Hm.
    apply list_elem_of_fmap. exists f'. split; [done|]. apply elem_of_range. lia.
Qed.
Lemma elem_of_visited scan x y : y ∈ visited scan x ↔
  pres m x = true ∧ (y = x ∨ ∃ b', target m x = Some b' ∧ y ∈ scan b').
Proof. unfold visited. destruct (pres m x), (target m x); set_solver. Qed.
Lemma elem_of_scan_S n b y : 0 ≤ b < 256 → y ∈ scan_list (S n) b ↔
  ∃ x, x.1.1 = b ∧ responds m x ∧ (y = x ∨ ∃ b', target m x = Some b' ∧ y ∈ scan_list n b').
Proof.
  intros Hb. cbn [scan_list]. rewrite elem_of_concat_map. split.
  - intros (d & Hd%elem_of_range & (x & Hx & Hy)%elem_of_concat_map). apply elem_of_visited in Hy as [Hp Hy].
    destruct (proj1 (elem_of_device_fns b d x Hb ltac:(lia)) (conj Hx Hp)) as [Hr E]. exists x. by rewrite E.
  - intros (x & E & Hr & Hy). assert (Hd : 0 ≤ x.1.2 < 32) by (destruct Hr as [(_ & ? & _) _]; lia).
    exists x.1.2. split; [by apply elem_of_range|]. apply elem_of_concat_map. exists x.
    destruct (proj2 (elem_of_device_fns b x.1.2 x Hb Hd)) as [Hx Hp].
    { split; [done|]. rewrite <- E. by destruct x as [[] ?]. }
    split; [done|]. by apply elem_of_visited.
Qed.
Lemma step_forward b b' : step m b b' → b < b' < 256.
Proof. intros (x & <- & Hr & Ht). pose proof (target_range _ _ Ht). specialize (Hforward _ _ Hr Ht). lia. Qed.
Lemma reach_forward b b' : rtc (step m) b b' → b ≤ b'.
Proof. induction 1 as [|b b1 b' Hs _ IH]; [done|]. apply step_forward in Hs. lia. Qed.

(** It has the functions that answer on the buses that can be reached. *)
Lemma elem_of_scan n b y : 0 ≤ b < 256 → 255 < b + Z.of_nat n →
  y ∈ scan_list n b ↔ rtc (step m) b y.1.1 ∧ responds m y.
Proof.
  revert b. induction n as [|n IH]; intros b Hb Hn; [lia|]. rewrite elem_of_scan_S by done. split.
  - intros (x & <- & Hr & [->|(b' & Ht & Hy)]); [by split; [apply rtc_refl|]|].
    assert (Hs : step m x.1.1 b') by (by exists x). pose proof (step_forward _ _ Hs).
    apply IH in Hy as [Hp Hy]; [|lia..]. split; [|done]. by eapply rtc_l.
  - intros [Hp Hy]. inversion Hp as [E|? b' ? Hs Hp']; subst; [by exists y; auto|].
    pose proof (step_forward _ _ Hs). destruct Hs as (x & <- & Hr & Ht). exists x. split_and!; [done..|].
    right. exists b'. split; [done|]. apply IH; [lia..|done].
Qed.

(** ** Each one once *)

Hypothesis Htree : tree_like.

Lemma step_unique b1 b2 b' : step m b1 b' → step m b2 b' → b1 = b2.
Proof. intros (x & <- & Hx & Ex) (y & <- & Hy & Ey). by rewrite (proj1 Htree x y b'). Qed.
Lemma ancestors b1 b2 b' : rtc (step m) b1 b' → rtc (step m) b2 b' → rtc (step m) b1 b2 ∨ rtc (step m) b2 b1.
Proof.
  intros H1. revert b' H1 b2.
  apply (rtc_ind_r (λ z, ∀ b2, rtc (step m) b2 z → rtc (step m) b1 b2 ∨ rtc (step m) b2 b1) b1); [auto|].
  intros p b' H1 Hs IH b2 H2. apply rtc_inv_r in H2 as [->|(p' & H2 & Hs')].
  - left. by eapply rtc_r.
  - rewrite (step_unique _ _ _ Hs' Hs) in H2. by apply IH.
Qed.
(** The subtrees behind two functions of a bus are disjoint. *)
Lemma subtrees_disjoint x y z b1 b2 : responds m x → responds m y → x.1.1 = y.1.1 → target m x = Some b1 →
  target m y = Some b2 → rtc (step m) b1 z → rtc (step m) b2 z → x = y.
Proof.
  intros Hx Hy Exy E1 E2 R1 R2. destruct (decide (b1 = b2)) as [->|Hne]; [by apply (proj1 Htree x y b2)|]. exfalso.
  assert (Hs1 : step m x.1.1 b1) by (by exists x). assert (Hs2 : step m x.1.1 b2) by (by exists y).
  assert (Hc : ∀ a b, a ≠ b → step m x.1.1 a → step m x.1.1 b → rtc (step m) a b → False).
  { intros a b Hab Ha Hb R. apply rtc_inv_r in R as [?|(p & R & Hp)]; [done|].
    rewrite (step_unique _ _ _ Hp Hb) in R. apply reach_forward in R. apply step_forward in Ha. lia. }
  destruct (ancestors _ _ _ R1 R2); eauto.
Qed.
Lemma visits_disjoint n x y z : responds m x → responds m y → x.1.1 = y.1.1 → 255 < x.1.1 + 1 + Z.of_nat n →
  z ∈ visited (scan_list n) x → z ∈ visited (scan_list n) y → x = y.
Proof.
  intros Hx Hy Exy Hn Hzx Hzy. assert (Hsub : ∀ x b' w, responds m x → 255 < x.1.1 + 1 + Z.of_nat n → target m x = Some b' →
    w ∈ scan_list n b' → rtc (step m) b' w.1.1 ∧ x.1.1 < w.1.1).
  { intros x' b' w Hx' Hn' Ht Hw. pose proof (target_range _ _ Ht). pose proof (Hforward _ _ Hx' Ht).
    apply elem_of_scan in Hw as [R _]; [|lia..]. split; [done|]. apply reach_forward in R. lia. }
  apply elem_of_visited in Hzx as [_ [->|(b1 & E1 & H1)]], Hzy as [_ [Hz|(b2 & E2 & H2)]].
  - done.
  - destruct (Hsub _ _ _ Hy ltac:(lia) E2 H2). lia.
  - subst z. destruct (Hsub _ _ _ Hx Hn E1 H1). lia.
  - destruct (Hsub _ _ _ Hx Hn E1 H1) as [R1 _], (Hsub _ _ _ Hy ltac:(lia) E2 H2) as [R2 _].
    by eapply (subtrees_disjoint x y z.1.1 b1 b2).
Qed.

Lemma NoDup_device_fns b d : NoDup (device_fns b d).
Proof.
  unfold device_fns. destruct (pres m (b, d, 0)); [|constructor].
  destruct (multi m (b, d, 0)); [|apply NoDup_singleton]. constructor.
  - intros Hx. apply list_elem_of_fmap in Hx as (f & [= Hf0] & Hf%elem_of_range). lia.
  - assert (Inj (=) (=) (λ f : Z, (b, d, f))) by (by intros ?? [=]). apply (NoDup_fmap_2 (λ f, (b, d, f))), NoDup_range.
Qed.
Lemma NoDup_scan n b : 0 ≤ b < 256 → 255 < b + Z.of_nat n → NoDup (scan_list n b).
Proof.
  revert b. induction n as [|n IH]; intros b Hb Hn; [lia|]. cbn [scan_list].
  assert (Hresp : ∀ d x z, d ∈ range 0 32 → x ∈ device_fns b d → z ∈ visited (scan_list n) x → responds m x ∧ x.1 = (b, d)).
  { intros d x z Hd%elem_of_range Hx [Hp _]%elem_of_visited. by apply elem_of_device_fns. }
  apply NoDup_concat_map; [apply NoDup_range| |].
  - intros d Hd. apply NoDup_concat_map; [apply NoDup_device_fns| |].
    + intros x Hx. unfold visited. destruct (pres m x) eqn:Hp; [|constructor].
      destruct (proj1 (elem_of_device_fns b d x Hb ltac:(by apply elem_of_range in Hd)) (conj Hx Hp)) as [Hr E].
      destruct (target m x) as [b'|] eqn:Et; [|apply NoDup_singleton].
      pose proof (target_range _ _ Et). pose proof (Hforward _ _ Hr Et) as Hlt. rewrite E in Hlt. simpl in Hlt.
      apply NoDup_app. split_and!; [apply IH; lia| |apply NoDup_singleton].
      intros z Hz ->%list_elem_of_singleton. apply elem_of_scan in Hz as [R _]; [|lia..]. apply reach_forward in R. rewrite E in R. simpl in R. lia.
    + intros x y z Hx Hy Hzx Hzy. destruct (Hresp _ _ _ Hd Hx Hzx) as [Rx Ex], (Hresp _ _ _ Hd Hy Hzy) as [Ry Ey].
      apply (visits_disjoint n x y z); try done; rewrite ?Ex, ?Ey; simpl; lia.
  - intros d d' z Hd Hd' (x & Hx & Hzx)%elem_of_concat_map (y & Hy & Hzy)%elem_of_concat_map.
    destruct (Hresp _ _ _ Hd Hx Hzx) as [Rx Ex], (Hresp _ _ _ Hd' Hy Hzy) as [Ry Ey].
    assert (x = y) as <- by (apply (visits_disjoint n x y z); try done; rewrite ?Ex, ?Ey; simpl; lia). congruence.
Qed.
Lemma NoDup_roots_scan n : 256 ≤ Z.of_nat n → NoDup (concat (map (scan_list n) roots)).
Proof.
  intros Hn. apply NoDup_concat_map; [apply NoDup_roots| |].
  - intros r Hr%roots_range. apply NoDup_scan; lia.
  - intros r r' z Hr Hr' Hz Hz'. pose proof (roots_range _ Hr). pose proof (roots_range _ Hr').
    apply elem_of_scan in Hz as [R _], Hz' as [R' _]; [|lia..].
    assert (Hc : ∀ a b, b ∈ roots → rtc (step m) a b → a = b).
    { intros a b Hb Hab. apply rtc_inv_r in Hab as [?|(p & _ & x & _ & Hx & Ht)]; [done|].
      by destruct (proj2 Htree x b Hx Ht). }
    destruct (ancestors _ _ _ R R') as [A|A]; [by apply Hc|symmetry; by apply Hc].
Qed.
End spec.

Lemma Forall2_dev_fns m l xs : Forall2 (loaded m) l xs → map dev_fn l = xs.
Proof. induction 1 as [|dev x l xs [E _] _ IH]; simpl; congruence. Qed.
Lemma Forall2_loaded m l xs : Forall2 (loaded m) l xs → Forall (λ dev, loaded m dev (dev_fn dev)) l.
Proof. induction 1 as [|dev x l xs H _ IH]; constructor; [|done]. destruct H as [<- H]. by split. Qed.

(** C30: the traversal of the buses.  When secondary buses have greater numbers than the
    bus of their bridge, which is how firmware assigns them, the traversal ends, and
    a nesting of 256 buses is enough; configuration space is as it was, except
    for flags that the probing has cleared; the devices found are the functions
    that answer on the buses that bridges lead to from the roots, each as loading
    it gives, and each once when no bus is behind two bridges.  The roots are bus 0
    or, when the host is multifunction, the buses of its functions from 1 on:
    bus 0 is then left out. *)
Theorem traversal_complete m : regs_ok m → header_stable m → forward m →
  ∃ l m', pci_enumerate_traversal 256 m = Done (l, m') ∧ m' ≡ m
  ∧ (∀ x, x ∈ map dev_fn l ↔ responds m x ∧ ∃ r, r ∈ roots m ∧ rtc (step m) r x.1.1)
  ∧ Forall (λ dev, loaded m dev (dev_fn dev)) l
  ∧ (tree_like m → NoDup (map dev_fn l))
  ∧ (multi m (0, 0, 0) = true → ∀ d f, (0, d, f) ∉ map dev_fn l).
Proof.
  intros Hm Hs Hf. destruct (traversal_appends m Hs Hf 256 m ltac:(lia)) as (l & m' & E & [Hm' _] & F); [by split|].
  exists l, m'. pose proof (Forall2_dev_fns _ _ _ F) as El.
  assert (Hmem : ∀ x, x ∈ map dev_fn l ↔ responds m x ∧ ∃ r, r ∈ roots m ∧ rtc (step m) r x.1.1).
  { intros x. rewrite El, elem_of_concat_map. split.
    - intros (r & Hr & Hx). pose proof (roots_range _ _ Hr). apply (elem_of_scan m Hs Hf 256 r x ltac:(lia) ltac:(lia)) in Hx as [R Hx]. eauto.
    - intros (Hx & r & Hr & R). pose proof (roots_range _ _ Hr). exists r. split; [done|].
      by apply (elem_of_scan m Hs Hf 256 r x ltac:(lia) ltac:(lia)). }
  split_and!; [done..|by eapply Forall2_loaded| |].
  - intros Ht. rewrite El. apply NoDup_roots_scan; [done..|lia].
  - intros Hmu d f (_ & r & Hr & R)%Hmem. unfold roots in Hr. rewrite Hmu in Hr. apply host_roots_sub, elem_of_range in Hr.
    apply reach_forward in R; [|done]. simpl in R. lia.
Qed.

(** A host, a bridge to bus 1, and a controller behind it. *)
Definition bridge_machine : pci_machine := {| address := 0; space l :=
  let '(x, o) := l in
  if decide (x = (0, 0, 0)) then match o with 0 => plain 0x12378086 | 2 => plain 0x06000002 | _ => plain 0 end
  else if decide (x = (0, 1, 0)) then
    match o with
    | 0 => plain 0x00011b36 | 2 => plain 0x06040000 | 3 => plain 0x00010000 | 6 => plain 0x00010100
    | 7 => {| value := 0x20000000; rw := 0; w1c := 0xf8000000 |} | _ => plain 0
    end
  else if decide (x = (1, 0, 0)) then match o with 0 => plain 0x29228086 | 2 => plain 0x01060102 | _ => plain 0 end
  else plain 0xffffffff |}.
#[local] Transparent header_at.
Lemma bridge_machine_pres x : pres bridge_machine x = true → x ∈ [(0, 0, 0); (0, 1, 0); (1, 0, 0)].
Proof.
  unfold pres, is_present. rewrite vendor_id_long. cbn [bridge_machine space].
  repeat (case_decide; [subst; set_solver|]). by vm_compute.
Qed.
Lemma bridge_machine_ok : regs_ok bridge_machine ∧ header_stable bridge_machine.
Proof.
  split.
  - intros [x o]. cbn [bridge_machine space]. repeat case_match; split_and!; (done || (unfold in_width; simpl; lia)).
  - intros x o Ho. cbn [bridge_machine space]. repeat case_decide; repeat case_match; try done. subst. set_solver by lia.
Qed.
Lemma bridge_machine_target x b' : responds bridge_machine x → target bridge_machine x = Some b' → x = (0, 1, 0) ∧ b' = 1.
Proof.
  intros (_ & _ & Hp & _) Ht. apply bridge_machine_pres in Hp. repeat (apply elem_of_cons in Hp as [->|Hp]; [vm_compute in Ht|]).
  all: by simplify_eq || by apply not_elem_of_nil in Hp.
Qed.
Lemma bridge_machine_responds b d : bool_decide (fn_ok b d 0) = true → pres bridge_machine (b, d, 0) = true →
  responds bridge_machine (b, d, 0).
Proof. intros H1%bool_decide_eq_true H2. split_and!; auto. Qed.
Lemma traversal_complete_witness : ∃ l m', pci_enumerate_traversal 256 bridge_machine = Done (l, m')
  ∧ (1, 0, 0) ∈ map dev_fn l ∧ NoDup (map dev_fn l).
Proof.
  destruct (traversal_complete bridge_machine) as (l & m' & E & _ & Hmem & _ & Hnd & _).
  - apply bridge_machine_ok.
  - apply bridge_machine_ok.
  - intros x b' Hr Ht. destruct (bridge_machine_target x b' Hr Ht) as [-> ->]. simpl. lia.
  - exists l, m'. split_and!; [done| |].
    + apply Hmem. split; [exact (bridge_machine_responds 1 0 eq_refl eq_refl)|].
      exists 0. split; [vm_compute; by left|]. apply rtc_once. exists (0, 1, 0). split; [done|].
      split; [exact (bridge_machine_responds 0 1 eq_refl eq_refl)|vm_compute; reflexivity].
    + apply Hnd. split.
      * intros x y b' Hx Hy Hxb Hyb. destruct (bridge_machine_target _ _ Hx Hxb) as [-> _].
        destruct (bridge_machine_target _ _ Hy Hyb) as [-> _]. done.
      * intros x b' Hx Hb. destruct (bridge_machine_target _ _ Hx Hb) as [_ ->]. vm_compute. intros H.
        inversion H as [|? ? ? H']; subst. by inversion H'.
Defined.
#[local] Opaque header_at.

(** * The exhaustive enumeration *)

Section all.
Context (m : pci_machine) (Hstable : header_stable m).

Lemma visited_nil x : visited m (λ _, []) x = if pres m x then [x] else [].
Proof. unfold visited. by destruct (pres m x), (target m x). Qed.
Lemma device_check_appends b d : 0 ≤ b < 256 → 0 ≤ d < 32 →
  appends m (pci_device_check b d) (concat (map (visited m (λ _, [])) (device_fns m b d))).
Proof.
  intros Hb Hd l m1 H1. assert (Hfn : ∀ f, 0 ≤ f < 8 → fn_ok b d f) by (intros; unfold fn_ok; lia).
  unfold pci_device_check, device_fns.
  destruct (inv_header m Hstable b d 0 m1 (Hfn 0 ltac:(lia)) H1) as (h & m2 & -> & H2 & Ep & Em & _). rewrite Ep, Em.
  destruct (pres m (b, d, 0)) eqn:E0; simpl; [|exists [], m2; rewrite app_nil_r; by split_and!].
  destruct (inv_load m b d 0 m2 (Hfn 0 ltac:(lia)) H2) as (dev & m3 & -> & H3 & Hl). rewrite visited_nil, E0.
  destruct (multi m (b, d, 0)).
  - rewrite map_map. edestruct (appends_for_each m (λ func '(l, m1),
      let '(header, m1) := PCIHeader_read b d func m1 in
      if negb (is_present header) then Done (l, m1)
      else let '(dev, m1) := load b d func m1 in Done (l ++ [dev], m1))
      (λ f, visited m (λ _, []) (b, d, f)) (range 1 8)) as (l2 & m4 & E4 & H4 & F2); [|exact H3|].
    + intros f Hf%elem_of_range l0 m0 H0. destruct (inv_header m Hstable b d f m0 (Hfn f ltac:(lia)) H0) as (h' & m5 & -> & H5 & Ep' & _).
      rewrite Ep', visited_nil. destruct (pres m (b, d, f)); simpl; [|exists [], m5; rewrite app_nil_r; by split_and!].
      destruct (inv_load m b d f m5 (Hfn f ltac:(lia)) H5) as (dev' & m6 & -> & H6 & Hl').
      exists [dev'], m6. split_and!; [done..|]. by constructor.
    + rewrite E4. exists (dev :: l2), m4. rewrite <- app_assoc. split_and!; [done..|]. by constructor.
  - exists [dev], m3. split_and!; [done..|]. by constructor.
Qed.
Lemma all_appends m1 : inv m m1 → ∃ l m2, pci_enumerate_all m1 = Done (l, m2) ∧ inv m m2
  ∧ Forall2 (loaded m) l (concat (map (λ b, concat (map (λ d, concat (map (visited m (λ _, [])) (device_fns m b d))) (range 0 32)))
      (range 0 256))).
Proof.
  intros H1. unfold pci_enumerate_all. edestruct (appends_for_each m (λ b s, for_each (range 0 32) (λ d s, pci_device_check b d s) s)
    (λ b, concat (map (λ d, concat (map (visited m (λ _, [])) (device_fns m b d))) (range 0 32))) (range 0 256))
    as (l & m2 & -> & H2 & F); [|exact H1|by exists l, m2].
  intros b Hb%elem_of_range. apply (appends_for_each m (λ d s, pci_device_check b d s)).
  intros d Hd%elem_of_range. apply device_check_appends; lia.
Qed.
Lemma elem_of_all x : x ∈ concat (map (λ b, concat (map (λ d, concat (map (visited m (λ _, [])) (device_fns m b d))) (range 0 32)))
  (range 0 256)) ↔ responds m x.
Proof.
  rewrite elem_of_concat_map. split.
  - intros (b & Hb%elem_of_range & (d & Hd%elem_of_range & (y & Hy & Hx)%elem_of_concat_map)%elem_of_concat_map).
    rewrite visited_nil in Hx. destruct (pres m y) eqn:Ep; [|by apply not_elem_of_nil in Hx].
    apply list_elem_of_singleton in Hx as ->. by apply (elem_of_device_fns m b d); [lia..|].
  - intros Hx. destruct x as [[b d] f]. assert (Hok : fn_ok b d f) by apply Hx. destruct Hok as (Hb & Hd & _).
    destruct (proj2 (elem_of_device_fns m b d (b, d, f) ltac:(lia) ltac:(lia)) (conj Hx eq_refl)) as [Hin Hp].
    exists b. split; [apply elem_of_range; lia|]. apply elem_of_concat_map. exists d. split; [apply elem_of_range; lia|].
    apply elem_of_concat_map. exists (b, d, f). split; [done|]. rewrite visited_nil, Hp. by apply list_elem_of_singleton.
Qed.
Lemma NoDup_all : NoDup (concat (map (λ b, concat (map (λ d, concat (map (visited m (λ _, [])) (device_fns m b d))) (range 0 32)))
  (range 0 256))).
Proof.
  assert (Hat : ∀ b d z, 0 ≤ b < 256 → 0 ≤ d < 32 → z ∈ concat (map (visited m (λ _, [])) (device_fns m b d)) → z.1 = (b, d)).
  { intros b d z Hb Hd (y & Hy & Hz)%elem_of_concat_map. rewrite visited_nil in Hz.
    destruct (pres m y) eqn:Ep; [|by apply not_elem_of_nil in Hz]. apply list_elem_of_singleton in Hz as ->.
    by apply (elem_of_device_fns m b d). }
  apply NoDup_concat_map; [apply NoDup_range| |].
  - intros b Hb%elem_of_range. apply NoDup_concat_map; [apply NoDup_range| |].
    + intros d Hd%elem_of_range. apply NoDup_concat_map; [apply NoDup_device_fns| |].
      * intros y Hy. rewrite visited_nil. destruct (pres m y); [apply NoDup_singleton|constructor].
      * intros x y z Hx Hy. rewrite !visited_nil. destruct (pres m x), (pres m y); set_solver.
    + intros d d' z Hd%elem_of_range Hd'%elem_of_range Hz Hz'. apply Hat in Hz; [|lia..]. apply Hat in Hz'; [|lia..]. congruence.
  - intros b b' z Hb%elem_of_range Hb'%elem_of_range (d & Hd%elem_of_range & Hz)%elem_of_concat_map
      (d' & Hd'%elem_of_range & Hz')%elem_of_concat_map. apply Hat in Hz; [|lia..]. apply Hat in Hz'; [|lia..]. congruence.
Qed.
End all.

(** The exhaustive enumeration finds exactly the functions that answer, each once,
    whatever the bridges are, and leaves configuration space as the traversal does. *)
Theorem enumerate_all_complete m : regs_ok m → header_stable m → ∃ l m', pci_enumerate_all m = Done (l, m') ∧ m' ≡ m
  ∧ (∀ x, x ∈ map dev_fn l ↔ responds m x) ∧ NoDup (map dev_fn l) ∧ Forall (λ dev, loaded m dev (dev_fn dev)) l.
Proof.
  intros Hm Hs. destruct (all_appends m Hs m) as (l & m' & E & [Hm' _] & F); [by split|]. exists l, m'.
  rewrite (Forall2_dev_fns _ _ _ F). split_and!; [done|done|intros x; by apply elem_of_all|by apply NoDup_all|by eapply Forall2_loaded].
Qed.
Lemma enumerate_all_complete_witness : ∃ l m', pci_enumerate_all bridge_machine = Done (l, m') ∧ (1, 0, 0) ∈ map dev_fn l.
Proof.
  destruct (enumerate_all_complete bridge_machine (proj1 bridge_machine_ok) (proj2 bridge_machine_ok)) as (l & m' & E & _ & Hmem & _).
  exists l, m'. split; [done|]. apply Hmem. exact (bridge_machine_responds 1 0 eq_refl eq_refl).
Defined.

(** * The command and status registers *)

Lemma testbit_low16 x j : 0 ≤ j → Z.testbit (u16 (Z.land x 0xffff)) j = Z.testbit x j && bool_decide (j < 16).
Proof.
  intros Hj. unfold u16. rewrite testbit_wrap, Z.land_spec by lia. change 0xffff with (Z.ones 16).
  case_bool_decide; [by rewrite Z.ones_spec_low, !andb_true_r by lia|by rewrite !andb_false_r].
Qed.
Lemma testbit_high16 x j : 0 ≤ j < 32 → Z.testbit (Z.land x 0xffff0000) j = Z.testbit x j && bool_decide (16 ≤ j).
Proof.
  intros Hj. rewrite Z.land_spec. change 0xffff0000 with (not_w 32 (Z.ones 16)). rewrite testbit_not_w by lia. case_bool_decide.
  - by rewrite Z.ones_spec_high by lia.
  - by rewrite Z.ones_spec_low by lia.
Qed.
Lemma testbit_flag i j : 0 ≤ i < 16 → 0 ≤ j → Z.testbit (u16 (Z.shiftl 1 i)) j = bool_decide (j = i).
Proof.
  intros Hi Hj. rewrite Z.shiftl_1_l. unfold u16. rewrite testbit_wrap, Z.pow2_bits_eqb by lia.
  repeat case_bool_decide; try lia; simplify_eq; rewrite ?Z.eqb_refl, ?(proj2 (Z.eqb_neq i j)) by lia; done.
Qed.
Lemma flag_in_width i : 0 ≤ i < 16 → in_width 16 (u16 (Z.shiftl 1 i)).
Proof. intros. by apply wrap_range. Qed.
Lemma testbit_not_flag i j : 0 ≤ i < 16 → 0 ≤ j → Z.testbit (not_w 16 (u16 (Z.shiftl 1 i))) j = bool_decide (j < 16) && bool_decide (j ≠ i).
Proof.
  intros Hi Hj. case_bool_decide.
  - rewrite testbit_not_w, testbit_flag by lia. repeat case_bool_decide; naive_solver.
  - apply (testbit_above 16); [|lia]. by apply in_width_not_w, flag_in_width.
Qed.
(** Testing a flag. *)
Lemma land_flag c i : 0 ≤ i < 16 → bool_decide (Z.land c (u16 (Z.shiftl 1 i)) ≠ 0) = Z.testbit c i.
Proof.
  intros Hi. destruct (Z.testbit c i) eqn:E; [apply bool_decide_true|apply bool_decide_false].
  - intros H. apply (f_equal (λ x, Z.testbit x i)) in H. by rewrite Z.land_spec, E, testbit_flag, bool_decide_true, Z.bits_0 in H by lia.
  - intros H. apply H, Z.bits_inj'. intros j Hj. rewrite Z.land_spec, Z.bits_0, testbit_flag by lia.
    case_bool_decide; subst; [by rewrite E|by rewrite andb_false_r].
Qed.
Lemma testbit_write_reg r v j : Z.testbit (value (write_reg r v)) j
  = if Z.testbit (rw r) j then Z.testbit v j else Z.testbit (value r) j && negb (Z.testbit v j && Z.testbit (w1c r) j).
Proof.
  unfold write_reg. cbn [value]. autorewrite with fz_word.
  destruct (Z.testbit (rw r) j), (Z.testbit (value r) j), (Z.testbit v j), (Z.testbit (w1c r) j); done.
Qed.

Section command.
Context (p : PCIDevice) (m : pci_machine) (Hp : fn_valid (dev_fn p)).
#[local] Abbreviation r := (space m (dev_fn p, 1)).
Context (Hr : reg_ok r).

Lemma read_confl_spec o m1 : 0 ≤ o < 64 → space m1 = space m →
  read_confl p o m1 = (value (space m (dev_fn p, o)), {| address := config_address (bus p) (device p) (function p) o; space := space m |}).
Proof. intros Ho E. unfold read_confl. rewrite read_long_spec by (done || lia). by rewrite E. Qed.
(** The register after a write to its command half, and to its status half. *)
Lemma write_command_spec data m1 : space m1 = space m → in_width 16 data → ∃ a x,
  write_command p data m1 = {| address := a; space := update_space (space m) (dev_fn p, 1) (write_reg r x) |}
  ∧ ∀ j, 0 ≤ j < 32 → Z.testbit x j = if bool_decide (j < 16) then Z.testbit data j else Z.testbit (value r) j.
Proof.
  intros E Hd. unfold write_command, write_confl, COMMAND_WOFFSET. rewrite read_confl_spec by (done || lia).
  rewrite write_long_spec by (done || lia). eexists _, _. split; [done|]. intros j Hj.
  rewrite Z.lor_spec, testbit_high16 by lia. case_bool_decide.
  - rewrite bool_decide_false by lia. by rewrite andb_true_r, (testbit_above 16 data), orb_false_r by (done || lia).
  - rewrite bool_decide_true by lia. by rewrite andb_false_r.
Qed.
Lemma write_status_spec data m1 : space m1 = space m → in_width 16 data → ∃ a x,
  write_status p data m1 = {| address := a; space := update_space (space m) (dev_fn p, 1) (write_reg r x) |}
  ∧ ∀ j, 0 ≤ j < 32 → Z.testbit x j = if bool_decide (j < 16) then Z.testbit (value r) j else Z.testbit data (j - 16).
Proof.
  intros E Hd. unfold write_status, write_confl, STATUS_WOFFSET. rewrite read_confl_spec by (done || lia).
  rewrite write_long_spec by (done || lia). eexists _, _. split; [done|]. intros j Hj.
  unfold u32. rewrite Z.lor_spec, testbit_wrap, Z.shiftl_spec by lia. rewrite (bool_decide_true (j < 32)), andb_true_r by lia.
  rewrite Z.land_spec. change 0xffff with (Z.ones 16). case_bool_decide.
  - rewrite Z.ones_spec_low, andb_true_r, (Z.testbit_neg_r data), orb_false_r by lia. done.
  - by rewrite Z.ones_spec_high, andb_false_r by lia.
Qed.

(** Writing back one flag of the command, and clearing one flag of the status. *)
Lemma update_command_spec i v : 0 ≤ i < 16 → ∃ res m' x, update_command p i v m = (res, m')
  ∧ space m' = update_space (space m) (dev_fn p, 1) (write_reg r x)
  ∧ (∀ j, 0 ≤ j < 32 → Z.testbit x j = if bool_decide (j = i) then v else Z.testbit (value r) j)
  ∧ res = if Bool.eqb (Z.testbit (value (write_reg r x)) i) v then Ok () else Err IOUnknown.
Proof.
  intros Hi. unfold update_command, read_command at 1, COMMAND_WOFFSET. rewrite read_confl_spec by (done || lia).
  set (c := u16 (Z.land (value r) 0xffff)).
  set (nc := if v then Z.lor c (u16 (Z.shiftl 1 i)) else Z.land c (not_w 16 (u16 (Z.shiftl 1 i)))).
  assert (Hc : in_width 16 c) by (by apply wrap_range).
  assert (Hnc : in_width 16 nc).
  { unfold nc. destruct v; [apply in_width_lor; [lia|done|by apply flag_in_width]|by apply in_width_land_l; [lia|]]. }
  assert (Hbit : ∀ j, 0 ≤ j < 16 → Z.testbit nc j = if bool_decide (j = i) then v else Z.testbit (value r) j).
  { intros j Hj. unfold nc, c. destruct v.
    - rewrite Z.lor_spec, testbit_low16, testbit_flag by lia. rewrite (bool_decide_true (j < 16)), andb_true_r by lia.
      case_bool_decide; [by rewrite orb_true_r|by rewrite orb_false_r].
    - rewrite Z.land_spec, testbit_low16, testbit_not_flag by lia. rewrite (bool_decide_true (j < 16)), andb_true_r by lia. simpl.
      destruct (decide (j = i)); repeat case_bool_decide; try done; try lia; by rewrite ?andb_false_r, ?andb_true_r. }
  destruct (write_command_spec nc {| address := config_address (bus p) (device p) (function p) 1; space := space m |} eq_refl Hnc)
    as (a & x & -> & Hx).
  unfold read_command, COMMAND_WOFFSET, read_confl. rewrite read_long_spec by (done || lia). cbn [space].
  change (bus p, device p, function p, 1) with (dev_fn p, 1). rewrite update_space_eq, land_flag by lia.
  rewrite testbit_low16, (bool_decide_true (i < 16)), andb_true_r by lia.
  eexists _, _, x. split_and!; [done|done| |done].
  intros j Hj. rewrite Hx by lia. case_bool_decide; [apply Hbit; lia|]. by rewrite bool_decide_false by lia.
Qed.
Lemma clear_status_flg_spec i : 0 ≤ i < 16 → ∃ a x,
  clear_status_flg p i m = {| address := a; space := update_space (space m) (dev_fn p, 1) (write_reg r x) |}
  ∧ ∀ j, 0 ≤ j < 32 → Z.testbit x j = if bool_decide (j = 16 + i) then false else Z.testbit (value r) j.
Proof.
  intros Hi. unfold clear_status_flg, read_status, STATUS_WOFFSET. rewrite read_confl_spec by (done || lia).
  set (s := u16 (Z.shiftr (Z.land (value r) 0xffff0000) 16)).
  assert (Hs : in_width 16 (Z.land s (not_w 16 (u16 (Z.shiftl 1 i))))) by (apply in_width_land_l; [lia|by apply wrap_range]).
  destruct (write_status_spec _ {| address := config_address (bus p) (device p) (function p) 1; space := space m |} eq_refl Hs)
    as (a & x & -> & Hx).
  exists a, x. split; [done|]. intros j Hj. rewrite Hx by lia. case_bool_decide; [by rewrite bool_decide_false by lia|].
  rewrite Z.land_spec, testbit_not_flag by lia. unfold s, u16. rewrite testbit_wrap, Z.shiftr_spec by lia.
  replace (j - 16 + 16) with j by lia. rewrite testbit_high16 by lia. rewrite !(bool_decide_true (j - 16 < 16)), (bool_decide_true (16 ≤ j)), !andb_true_r by lia.
  repeat case_bool_decide; try lia; simpl; by rewrite ?andb_true_r, ?andb_false_r.
Qed.
End command.

(** The setters of the command register.  The flag gets the value asked for when
    the device lets it be written, and the call reports an error exactly when the
    flag reads back otherwise; the other flags of the command are kept.  But every
    status flag that a write of one clears is cleared, since the status is written
    back with the command. *)
Theorem command_setters p i v m : let r := space m (dev_fn p, 1) in
  fn_valid (dev_fn p) → reg_ok r → 0 ≤ i < 16 → Z.land (w1c r) 0xffff = 0 → ∃ res m', update_command p i v m = (res, m')
  ∧ (∀ l, l ≠ (dev_fn p, 1) → space m' l = space m l)
  ∧ let r' := space m' (dev_fn p, 1) in
    Z.testbit (value r') i = (if Z.testbit (rw r) i then v else Z.testbit (value r) i)
    ∧ (res = Ok () ↔ Z.testbit (value r') i = v) ∧ (res ≠ Ok () → res = Err IOUnknown)
    ∧ (∀ j, 0 ≤ j < 16 → j ≠ i → Z.testbit (value r') j = Z.testbit (value r) j)
    ∧ ∀ j, 16 ≤ j < 32 → Z.testbit (value r') j = Z.testbit (value r) j && negb (Z.testbit (w1c r) j).
Proof.
  intros r Hp Hr Hi Hw. destruct (update_command_spec p m Hp i v Hi) as (res & m' & x & E & Es & Hx & Eres). fold r in Hx. exists res, m'.
  assert (Hw0 : ∀ j, 0 ≤ j < 16 → Z.testbit (w1c r) j = false).
  { intros j Hj. apply (f_equal (λ z, Z.testbit z j)) in Hw. change 0xffff with (Z.ones 16) in Hw.
    by rewrite Z.land_spec, Z.ones_spec_low, andb_true_r, Z.bits_0 in Hw by lia. }
  assert (Hrw : ∀ j, 0 ≤ j < 32 → Z.testbit (rw r) j = true → Z.testbit (w1c r) j = false).
  { intros j Hj Ht. destruct Hr as (_ & _ & _ & H0). apply (f_equal (λ z, Z.testbit z j)) in H0.
    by rewrite Z.land_spec, Ht, Z.bits_0 in H0. }
  assert (Hv : ∀ j, 0 ≤ j < 32 → Z.testbit (value (space m' (dev_fn p, 1))) j = if Z.testbit (rw r) j then Z.testbit x j
    else Z.testbit (value r) j && negb (Z.testbit x j && Z.testbit (w1c r) j)).
  { intros j Hj. rewrite Es, update_space_eq. apply testbit_write_reg. }
  split; [done|]. split; [intros l Hl; rewrite Es; by apply update_space_ne|]. cbv zeta. split_and!.
  - rewrite Hv, Hx, Hw0, andb_false_r, andb_true_r, bool_decide_true by lia. done.
  - rewrite Es, update_space_eq, Eres. destruct (Bool.eqb _ v) eqn:Eb.
    + apply Bool.eqb_prop in Eb. done.
    + apply Bool.eqb_false_iff in Eb. split; [done|]. intros Ev. by destruct Eb.
  - rewrite Eres. by destruct (Bool.eqb _ v).
  - intros j Hj Hne. rewrite Hv, Hx, Hw0, andb_false_r, andb_true_r, bool_decide_false by lia. by destruct (Z.testbit (rw r) j).
  - intros j Hj. rewrite Hv, Hx, bool_decide_false by lia. destruct (Z.testbit (rw r) j) eqn:Er.
    + by rewrite (Hrw j ltac:(lia) Er), andb_true_r.
    + by destruct (Z.testbit (value r) j), (Z.testbit (w1c r) j).
Qed.

(** Clearing a status flag clears the others.  The flag that [clear_status_flg] is
    asked to clear is written back as zero, which leaves a flag of this kind set;
    every other such flag is written back as it was read, which clears it. *)
Theorem clear_flag_clears_others p i m : let r := space m (dev_fn p, 1) in
  fn_valid (dev_fn p) → reg_ok r → 0 ≤ i < 16 → Z.testbit (w1c r) (16 + i) = true →
  let r' := space (clear_status_flg p i m) (dev_fn p, 1) in
  Z.testbit (value r') (16 + i) = Z.testbit (value r) (16 + i)
  ∧ ∀ j, 0 ≤ j < 32 → j ≠ 16 + i → Z.testbit (value r') j = Z.testbit (value r) j && negb (Z.testbit (w1c r) j).
Proof.
  intros r Hp Hr Hi Hw r'. destruct (clear_status_flg_spec p m Hp i Hi) as (a & x & E & Hx). fold r in Hx.
  assert (Hrw : ∀ j, Z.testbit (rw r) j = true → Z.testbit (w1c r) j = false).
  { intros j Ht. destruct Hr as (_ & _ & _ & H0). apply (f_equal (λ z, Z.testbit z j)) in H0. by rewrite Z.land_spec, Ht, Z.bits_0 in H0. }
  assert (Hv : ∀ j, Z.testbit (value r') j = if Z.testbit (rw r) j then Z.testbit x j
    else Z.testbit (value r) j && negb (Z.testbit x j && Z.testbit (w1c r) j)).
  { intros j. unfold r'. rewrite E. cbn [space]. rewrite update_space_eq. apply testbit_write_reg. }
  split.
  - rewrite Hv, Hx, bool_decide_true by lia. destruct (Z.testbit (rw r) (16 + i)) eqn:Er; [|by rewrite andb_true_r].
    apply Hrw in Er. congruence.
  - intros j Hj Hne. rewrite Hv, Hx, bool_decide_false by lia. destruct (Z.testbit (rw r) j) eqn:Er.
    + by rewrite (Hrw j Er), andb_true_r.
    + by destruct (Z.testbit (value r) j), (Z.testbit (w1c r) j).
Qed.

Definition sample_dev : PCIDevice :=
  {| class := EthernetController; registers := []; eprom := None; bus := 0; device := 3; function := 0 |}.
(** A device with memory access enabled and two error flags set. *)
Definition error_machine : pci_machine := {| address := 0; space l :=
  if decide (l = (0, 3, 0, 1)) then {| value := 0x30000002; rw := 0x547; w1c := 0xf9000000 |} else plain 0xffffffff |}.
Lemma error_machine_ok : reg_ok (space error_machine (dev_fn sample_dev, 1)).
Proof. vm_compute. split_and!; done. Qed.
Lemma command_setters_witness : ∃ m', set_bus_master sample_dev true error_machine = (Ok (), m')
  ∧ value (space m' (0, 3, 0, 1)) = 6.
Proof.
  destruct (command_setters sample_dev 2 true error_machine) as (res & m' & E & _ & E1 & E2 & _).
  - unfold fn_valid, fn_ok. simpl. lia.
  - apply error_machine_ok.
  - lia.
  - vm_compute. reflexivity.
  - exists m'. assert (res = Ok ()) as -> by (apply E2; by rewrite E1).
    split; [exact E|]. apply (f_equal snd) in E. simpl in E. rewrite <- E. vm_compute. reflexivity.
Defined.
Lemma clear_flag_clears_others_witness :
  let m' := clear_received_master_abort sample_dev error_machine in
  Z.testbit (value (space m' (0, 3, 0, 1))) 29 = true ∧ value (space m' (0, 3, 0, 1)) = 0x20000002.
Proof.
  pose proof (clear_flag_clears_others sample_dev 13 error_machine) as H. cbv zeta in H.
  destruct H as [H _]; [unfold fn_valid, fn_ok; simpl; lia|apply error_machine_ok|lia|vm_compute; reflexivity|].
  split; [exact H|vm_compute; reflexivity].
Defined.
