(* ===== verification/Bitfield.v ===== *)
(** Packed structures (the [modular_bitfield] crate, used by src/x86/descriptors/gdt.rs,
    src/x86/{apic,registers,msr.rs} and src/drivers).  The crate is not part of the repository: its getters and
    setters are the class [ModularBitfield], and what the code relies on are its
    laws. *)

From stdpp Require Import strings.
From S2P Require Import Prelude.

#[local] Arguments Z.testbit : simpl never.

(** * Packed structures *)

(** A structure is an integer and its list of field widths, from the least
    significant bit on: the getter of a field, and [with_*], which panics on a
    value that is too large for the field. *)
Class ModularBitfield := {
  bf_get : list Z → nat → Z → Z;
  bf_with : list Z → nat → Z → Z → outcome Z
}.
Definition bf_offset (ws : list Z) (i : nat) : Z := foldr Z.add 0 (take i ws).
Class ModularBitfieldLaws `{ModularBitfield} := {
  bf_get_bits ws i w x j : Forall (Z.le 0) ws → ws !! i = Some w → 0 ≤ j →
    Z.testbit (bf_get ws i x) j = bool_decide (j < w) && Z.testbit x (bf_offset ws i + j);
  bf_with_ok ws i w v x : Forall (Z.le 0) ws → ws !! i = Some w → in_width w v → ∃ y, bf_with ws i v x = Done y
    ∧ ∀ j, 0 ≤ j → Z.testbit y j
        = if bool_decide (bf_offset ws i ≤ j < bf_offset ws i + w) then Z.testbit v (j - bf_offset ws i) else Z.testbit x j;
  bf_with_panics ws i w v x : Forall (Z.le 0) ws → ws !! i = Some w → 0 ≤ v → ¬ in_width w v → bf_with ws i v x = Panicked
}.

(** * What the fields hold *)

Lemma field_nonneg ws i w : Forall (Z.le 0) ws → ws !! i = Some w → 0 ≤ w ∧ 0 ≤ bf_offset ws i.
Proof.
  intros Hws Hw. split; [by eapply Forall_lookup_1 in Hw|]. unfold bf_offset. clear Hw. revert i.
  induction Hws as [|x ws Hx _ IH]; intros [|i]; simpl; try lia. specialize (IH i). lia.
Qed.
Section fields.
Context `{ML : ModularBitfieldLaws}.

(** The laws, as operations on integers. *)
Definition get_ref (off w x : Z) : Z := Z.land (Z.shiftr x off) (Z.ones w).
Definition put_ref (off w v x : Z) : Z := Z.lor (Z.ldiff x (Z.shiftl (Z.ones w) off)) (Z.shiftl v off).
Lemma testbit_put off w v x j : 0 ≤ off → 0 ≤ w → in_width w v → 0 ≤ j →
  Z.testbit (put_ref off w v x) j = if bool_decide (off ≤ j < off + w) then Z.testbit v (j - off) else Z.testbit x j.
Proof.
  intros Ho Hw Hv Hj. unfold put_ref. rewrite Z.lor_spec, Z.ldiff_spec, !Z.shiftl_spec by done. case_bool_decide as Hb.
  - by rewrite Z.ones_spec_low, andb_false_r by lia.
  - destruct (decide (j < off)).
    + rewrite !(Z.testbit_neg_r _ (j - off)) by lia. by rewrite andb_true_r, orb_false_r.
    + rewrite Z.ones_spec_high, (testbit_above w v) by (done || lia). by rewrite andb_true_r, orb_false_r.
Qed.
Lemma testbit_get off w x j : 0 ≤ off → 0 ≤ w → 0 ≤ j → Z.testbit (get_ref off w x) j = bool_decide (j < w) && Z.testbit x (off + j).
Proof.
  intros Ho Hw Hj. unfold get_ref. rewrite Z.land_spec, Z.shiftr_spec, Z.add_comm by done. case_bool_decide.
  - by rewrite Z.ones_spec_low, andb_true_r by lia.
  - by rewrite Z.ones_spec_high, andb_false_r by lia.
Qed.
Lemma bf_get_eq ws i w off x : Forall (Z.le 0) ws → ws !! i = Some w → bf_offset ws i = off → bf_get ws i x = get_ref off w x.
Proof.
  intros Hws Hw <-. destruct (field_nonneg ws i w Hws Hw) as [H0 Ho].
  apply Z.bits_inj'. intros j Hj. by rewrite (bf_get_bits ws i w), testbit_get.
Qed.
Lemma bf_with_eq ws i w off v x : Forall (Z.le 0) ws → ws !! i = Some w → bf_offset ws i = off → in_width w v →
  bf_with ws i v x = Done (put_ref off w v x).
Proof.
  intros Hws Hw <- Hv. destruct (field_nonneg ws i w Hws Hw) as [H0 Ho].
  destruct (bf_with_ok ws i w v x Hws Hw Hv) as (y & -> & Hy). f_equal. apply Z.bits_inj'. intros j Hj.
  by rewrite Hy, testbit_put.
Qed.
Lemma get_put_same off w v x : 0 ≤ off → 0 ≤ w → in_width w v → get_ref off w (put_ref off w v x) = v.
Proof.
  intros Ho Hw Hv. apply (word_eq w); [done|apply in_width_land_r; [done|]|done|].
  { unfold in_width. rewrite Z.ones_equiv. pose proof (pow2_pos w Hw). lia. }
  intros j Hj. unfold get_ref, put_ref. rewrite Z.land_spec, Z.shiftr_spec, Z.lor_spec, Z.ldiff_spec, !Z.shiftl_spec by lia.
  replace (j + off - off) with j by lia. by rewrite Z.ones_spec_low, andb_false_r, andb_true_r by lia.
Qed.
Lemma get_put_other off w off' w' v x : 0 ≤ off → 0 ≤ w → 0 ≤ off' → 0 ≤ w' → in_width w v →
  off + w ≤ off' ∨ off' + w' ≤ off → get_ref off' w' (put_ref off w v x) = get_ref off' w' x.
Proof.
  intros Ho Hw Ho' Hw' Hv Hd. apply Z.bits_inj'. intros j Hj. unfold get_ref, put_ref.
  rewrite !Z.land_spec, !Z.shiftr_spec, Z.lor_spec, Z.ldiff_spec, !Z.shiftl_spec by lia.
  destruct (decide (j < w')) as [Hl|Hl]; [|by rewrite (Z.ones_spec_high w'), !andb_false_r by lia].
  destruct (decide (j + off' < off)) as [Hl'|Hl'].
  - rewrite !(Z.testbit_neg_r _ (j + off' - off)) by lia. by rewrite andb_true_r, orb_false_r.
  - rewrite (Z.ones_spec_high w), (testbit_above w v) by (done || lia). by rewrite andb_true_r, orb_false_r.
Qed.
End fields.

(** An implementation of the crate's contract. *)
Definition shifts : ModularBitfield := {|
  bf_get ws i x := get_ref (bf_offset ws i) (nth i ws 0) x;
  bf_with ws i v x := if bool_decide (in_width (nth i ws 0) v) then Done (put_ref (bf_offset ws i) (nth i ws 0) v x) else Panicked
|}.
Lemma shifts_laws : @ModularBitfieldLaws shifts.
Proof.
  assert (Hn : ∀ (ws : list Z) i w, ws !! i = Some w → nth i ws 0 = w).
  { intros ws i w Hw. apply nth_lookup_Some with (d := 0) in Hw. done. }
  split.
  - intros ws i w x j Hws Hw Hj. destruct (field_nonneg ws i w Hws Hw). cbn [bf_get shifts]. by rewrite (Hn ws i w Hw), testbit_get.
  - intros ws i w v x Hws Hw Hv. destruct (field_nonneg ws i w Hws Hw). cbn [bf_with shifts]. rewrite (Hn ws i w Hw), bool_decide_true by done.
    eexists. split; [done|]. intros j Hj. by rewrite testbit_put.
  - intros ws i w v x Hws Hw Hv Hn'. cbn [bf_with shifts]. by rewrite (Hn ws i w Hw), bool_decide_false.
Qed.

(** * Structures with named fields

    A layout gives the fields from the least significant bit on, with their names
    (empty for the bits that are skipped) and widths. *)
Abbreviation layout := (list (string * Z)).
Definition widths (l : layout) : list Z := map snd l.
Fixpoint index_of (name : string) (l : layout) : nat :=
  match l with
  | [] => 0
  | (n, _) :: l => if decide (n = name) then 0%nat else S (index_of name l)
  end.
(** The first bit and the width of a field. *)
Definition place (l : layout) (name : string) : option (Z * Z) :=
  w ← widths l !! index_of name l; Some (bf_offset (widths l) (index_of name l), w).

Section named.
Context `{MB : ModularBitfield}.
Definition field (l : layout) (name : string) (x : Z) : Z := bf_get (widths l) (index_of name l) x.
Definition flag (l : layout) (name : string) (x : Z) : bool := bool_decide (field l name x = 1).
Definition with_field (l : layout) (name : string) (v x : Z) : outcome Z := bf_with (widths l) (index_of name l) v x.
Definition with_flag (l : layout) (name : string) (b : bool) (x : Z) : outcome Z := with_field l name (Z.b2z b) x.

Definition widths_ok (l : layout) : bool := bool_decide (Forall (Z.le 0) (widths l)).
Lemma place_inv l name off w : place l name = Some (off, w) →
  widths l !! index_of name l = Some w ∧ bf_offset (widths l) (index_of name l) = off.
Proof. unfold place. destruct (_ !! _) as [w'|] eqn:E; [|done]. by intros [= <- <-]. Qed.
Context `{ML : !ModularBitfieldLaws}.
Lemma field_at l name off w x : widths_ok l = true → place l name = Some (off, w) → field l name x = get_ref off w x.
Proof. intros Hw%bool_decide_eq_true [Hi Ho]%place_inv. by apply bf_get_eq. Qed.
Lemma with_field_at l name off w v x : widths_ok l = true → place l name = Some (off, w) → in_width w v →
  with_field l name v x = Done (put_ref off w v x).
Proof. intros Hw%bool_decide_eq_true [Hi Ho]%place_inv Hv. by apply bf_with_eq. Qed.
Lemma with_field_panics l name off w v x : widths_ok l = true → place l name = Some (off, w) → 0 ≤ v → ¬ in_width w v →
  with_field l name v x = Panicked.
Proof. intros Hw%bool_decide_eq_true [Hi Ho]%place_inv Hv Hn. by eapply bf_with_panics. Qed.
Lemma flag_at l name off x : widths_ok l = true → place l name = Some (off, 1) → 0 ≤ off → flag l name x = Z.testbit x off.
Proof.
  intros Hw Hp Ho. unfold flag. rewrite (field_at _ _ _ _ _ Hw Hp). unfold get_ref. change (Z.ones 1) with (2 ^ 1 - 1).
  change (2 ^ 1 - 1) with (Z.ones 1). rewrite Z.land_ones by lia. change (2 ^ 1) with 2. rewrite <- Z.bit0_mod, Z.shiftr_spec by lia.
  rewrite Z.add_0_l. by destruct (Z.testbit x off).
Qed.
Lemma with_flag_at l name off b x : widths_ok l = true → place l name = Some (off, 1) →
  with_flag l name b x = Done (put_ref off 1 (Z.b2z b) x).
Proof. intros Hw Hp. unfold with_flag. apply with_field_at; [done|done|]. by destruct b. Qed.
End named.
(** Rewrites the accessors of a named field to bit operations. *)
Ltac named_fields :=
  repeat first
    [ erewrite flag_at by (vm_compute; reflexivity || discriminate || lia)
    | erewrite field_at by (vm_compute; reflexivity)
    | erewrite with_flag_at by (vm_compute; reflexivity) ].
