(* ===== verification/Gdt.v ===== *)
(** Segment descriptors, selectors and the global descriptor table
    (src/x86/descriptors/gdt.rs).

    The packed structures are generated by a crate, as Bitfield.v says. *)

From S2P Require Import Prelude Addr Irq Bitfield.

#[local] Arguments Z.testbit : simpl never.

(** * Segment types *)

Inductive CodeSegmentType :=
  | ExecuteOnly | ExecuteOnlyAccessed | ExecuteRead | ExecuteReadAccessed | ExecuteOnlyConforming
  | ExecuteOnlyConformingAccessed | ExecuteReadConforming | ExecuteReadConformingAccessed.
#[global] Instance CodeSegmentType_eq_dec : EqDecision CodeSegmentType.
Proof. solve_decision. Defined.
Inductive DataSegmentType :=
  | ReadOnly | ReadOnlyAccessed | ReadWrite | ReadWriteAccessed | ReadOnlyExpandDown | ReadOnlyExpandDownAccessed
  | ReadWriteExpandDown | ReadWriteExpandDownAccessed.
Inductive SystemSegmentType :=
  | AvailableTSS16 | LDT | BusyTSS16 | CallGate16 | SysTaskGate | SysInterruptGate16 | SysTrapGate16 | AvailableTSS
  | BusyTSS | CallGate | SysInterruptGate | SysTrapGate.

(** [mem::transmute] of a byte to an enumeration: undefined when it is not the
    discriminant of a variant. *)
Definition transmute {T} (discriminants : list (Z * T)) (byte : Z) : outcome (option T) :=
  match List.find (λ e, bool_decide (e.1 = byte)) discriminants with
  | Some e => Done (Some e.2)
  | None => Faulted
  end.

(** The discriminants as they are declared. *)
Definition CodeSegmentType_discriminants : list (Z * CodeSegmentType) :=
  [(0x18, ExecuteOnly); (0x19, ExecuteOnlyAccessed); (0x1a, ExecuteRead); (0x1b, ExecuteReadAccessed);
   (0x1c, ExecuteOnlyConforming); (0x1d, ExecuteOnlyConformingAccessed); (0x1e, ExecuteReadConforming);
   (0xf, ExecuteReadConformingAccessed)].
Definition DataSegmentType_discriminants : list (Z * DataSegmentType) :=
  [(0x10, ReadOnly); (0x11, ReadOnlyAccessed); (0x12, ReadWrite); (0x13, ReadWriteAccessed); (0x14, ReadOnlyExpandDown);
   (0x15, ReadOnlyExpandDownAccessed); (0x16, ReadWriteExpandDown); (0x17, ReadWriteExpandDownAccessed)].
Definition SystemSegmentType_discriminants : list (Z * SystemSegmentType) :=
  [(1, AvailableTSS16); (2, LDT); (3, BusyTSS16); (4, CallGate16); (5, SysTaskGate); (6, SysInterruptGate16);
   (7, SysTrapGate16); (9, AvailableTSS); (11, BusyTSS); (12, CallGate); (14, SysInterruptGate); (15, SysTrapGate)].

(** The trait [SegmentType]. *)
Class SegmentType (T : Type) := { from_byte : Z → outcome (option T); convert : T → Z }.
Definition CodeSegmentType_convert (t : CodeSegmentType) : Z :=
  match t with
  | ExecuteOnly => 0x18 | ExecuteOnlyAccessed => 0x19 | ExecuteRead => 0x1a | ExecuteReadAccessed => 0x1b
  | ExecuteOnlyConforming => 0x1c | ExecuteOnlyConformingAccessed => 0x1d | ExecuteReadConforming => 0x1e
  | ExecuteReadConformingAccessed => 0x1f
  end.
#[global] Instance CodeSegmentType_impl : SegmentType CodeSegmentType := {|
  from_byte byte := if bool_decide (get_bit 8 byte 3 ≠ 1) then Done None else transmute CodeSegmentType_discriminants byte;
  convert := CodeSegmentType_convert
|}.
Definition DataSegmentType_convert (t : DataSegmentType) : Z :=
  match t with
  | ReadOnly => 0x10 | ReadOnlyAccessed => 0x11 | ReadWrite => 0x12 | ReadWriteAccessed => 0x13
  | ReadOnlyExpandDown => 0x14 | ReadOnlyExpandDownAccessed => 0x15 | ReadWriteExpandDown => 0x16
  | ReadWriteExpandDownAccessed => 0x17
  end.
#[global] Instance DataSegmentType_impl : SegmentType DataSegmentType := {|
  from_byte byte := if bool_decide (get_bit 8 byte 3 ≠ 0) then Done None else transmute DataSegmentType_discriminants byte;
  convert := DataSegmentType_convert
|}.
Definition SystemSegmentType_convert (t : SystemSegmentType) : Z :=
  match t with
  | AvailableTSS16 => 1 | LDT => 2 | BusyTSS16 => 3 | CallGate16 => 4 | SysTaskGate => 5 | SysInterruptGate16 => 6
  | SysTrapGate16 => 7 | AvailableTSS => 9 | BusyTSS => 11 | CallGate => 12 | SysInterruptGate => 14 | SysTrapGate => 15
  end.
#[global] Instance SystemSegmentType_impl : SegmentType SystemSegmentType := {|
  from_byte byte := if bool_decide (byte = 0) then Done None else transmute SystemSegmentType_discriminants byte;
  convert := SystemSegmentType_convert
|}.

(** * Segment descriptors *)

Inductive InvalidSegmentDescriptor :=
  | InvalidBase | LimitTooLarge | InvalidAddressSizeSpecifier | NonCodeSegmentLongMode | UnsupportedLongMode
  | InvalidProcessorMode.

(** [limit_lo], [base_lo], [access_byte_lo], [privilege_lvl], [present], [limit_hi],
    skipped, [long_mode], [size], [granularity], [base_hi], skipped. *)
Definition SegmentDescriptorInner : list Z := [16; 24; 5; 2; 1; 4; 1; 1; 1; 1; 40; 32].
Definition level_bits (l : PrivilegeLevel) : Z := match l with Ring0 => 0 | Ring1 => 1 | Ring2 => 2 | Ring3 => 3 end.
Definition level_of_bits (z : Z) : PrivilegeLevel :=
  if bool_decide (z = 0) then Ring0 else if bool_decide (z = 1) then Ring1 else if bool_decide (z = 2) then Ring2 else Ring3.

Section descriptors.
Context `{MB : ModularBitfield}.
#[local] Abbreviation get := (bf_get SegmentDescriptorInner).
#[local] Abbreviation put := (bf_with SegmentDescriptorInner).
(** A descriptor is its 128 bits. *)
Implicit Types s : Z.

Definition with_segment_type {T} `{SegmentType T} s (segment_type : T) : outcome Z := put 2 (convert segment_type) s.
Definition new_segment {T} `{SegmentType T} (seg_type : T) : outcome Z := with_segment_type 0 seg_type.
Definition is_system_segment s : bool := bool_decide (get_bit 8 (get 2%nat s) 4 = 0).
Definition is_code_segment s : bool :=
  if negb (is_system_segment s) then bool_decide (get_bit 8 (get 2%nat s) 3 ≠ 0) else false.
Definition as_long_mode_system_desc s : Z := s.
Definition as_bytes s : outcome Z := low_bits u128_u64 s.
Definition limit s : Z := Z.lor (Z.shiftl (get 5%nat s) 16) (get 0%nat s).
Definition with_limit s (l : Z) : outcome (result Z InvalidSegmentDescriptor) :=
  if bool_decide (0xFFFFF < l) then Done (Err LimitTooLarge)
  else
    lo ← convert_with_mask u32_u16 l 0xFFFF;
    s ← put 0 lo s;
    hi ← convert_with_mask u32_u8 (Z.shiftr l 16) 0xF;
    s ← put 5 hi s;
    Done (Ok s).
Definition base s : Z := PhyAddr_new (Z.lor (u64 (Z.shiftl (get 10%nat s) 24)) (get 1%nat s)).
Definition with_base s (address : Z) : outcome (result Z InvalidSegmentDescriptor) :=
  if negb (is_system_segment s) && bool_decide (PhyAddr_MAX_32 < address) then Done (Err InvalidBase)
  else
    lo ← convert_with_mask u64_u32 address 0x00FFFFFF;
    s ← put 1 lo s;
    s ← put 10 (Z.shiftr address 24) s;
    Done (Ok s).
Definition long_mode s : bool := bool_decide (get 7%nat s = 1).
Definition enable_long s : outcome (result Z InvalidSegmentDescriptor) :=
  if negb (is_code_segment s) then Done (Err NonCodeSegmentLongMode)
  else if bool_decide (get 8%nat s = 1) then Done (Err InvalidAddressSizeSpecifier)
  else s ← put 7 1 s; Done (Ok s).
Definition seg_present s : bool := bool_decide (get 4%nat s = 1).
Definition with_present s (is_present : bool) : outcome Z := put 4 (Z.b2z is_present) s.
Definition privilege_level s : PrivilegeLevel := level_of_bits (get 3%nat s).
Definition with_privilege_level s (priv_lvl : PrivilegeLevel) : outcome Z := put 3 (level_bits priv_lvl) s.
Definition granularity s : bool := bool_decide (get 9%nat s = 1).
Definition with_granularity s (g : bool) : outcome Z := put 9 (Z.b2z g) s.
Definition size s : bool := bool_decide (get 8%nat s = 1).
Definition with_size s (b : bool) : outcome Z := put 8 (Z.b2z b) s.

(** * Selectors *)

(** [rpl], [ti], [index]. *)
Definition SegmentSelectorInner : list Z := [2; 1; 13].
Inductive InvalidSegmentSelector := InvalidIndexAlignment.
Definition with_rpl (s : Z) (rpl : PrivilegeLevel) : outcome Z :=
  let rpl_bits := match rpl with Ring0 => 0 | Ring1 => 1 | Ring2 => 2 | Ring3 => 3 end in
  bf_with SegmentSelectorInner 0 rpl_bits s.
Definition gdt_selector : Z := 0.
Definition ldt_selector : outcome Z := bf_with SegmentSelectorInner 1 1 0.
Definition with_index (s index : Z) : outcome (result Z InvalidSegmentSelector) :=
  if bool_decide (Z.land index 7 ≠ 0) then Done (Err InvalidIndexAlignment)
  else s ← bf_with SegmentSelectorInner 2 (Z.shiftr index 3) s; Done (Ok s).
(** The initialiser of the four static selectors. *)
Definition lazy_selector (rpl : PrivilegeLevel) (index : Z) : outcome Z :=
  s ← with_rpl gdt_selector rpl;
  r ← with_index s index;
  match r with Ok ds => Done ds | Err _ => Panicked end.
Definition KERNEL_DATA_SELECTOR : outcome Z := lazy_selector Ring0 0x08.
Definition KERNEL_CODE_SELECTOR : outcome Z := lazy_selector Ring0 0x10.
Definition USERMODE_DATA_SELECTOR : outcome Z := lazy_selector Ring3 0x18.
Definition USERMODE_CODE_SELECTOR : outcome Z := lazy_selector Ring3 0x20.
End descriptors.

(** * The table *)

(** The implementations of [MemoryAddress]: the width in bytes, also that of the
    primitive type, the pointer, the addition, the conversion to the primitive. *)
Class MemoryAddress := { WIDTH : Z; as_ptr : Z → Z; add_usize : Z → Z → outcome Z; as_primitive : Z → Z }.
Definition VirtAddr_impl : MemoryAddress :=
  {| WIDTH := 8; as_ptr := VirtAddr_as_mut_ptr; add_usize a n := Done (VirtAddr_add_usize a n); as_primitive := u64_from_VirtAddr |}.
Definition PhyAddr_impl : MemoryAddress :=
  {| WIDTH := 8; as_ptr a := a; add_usize a n := Done (PhyAddr_add_usize a n); as_primitive a := a |}.
(** In the bootloader, where physical memory is mapped at its own address. *)
Definition PhyAddr32_impl : MemoryAddress :=
  {| WIDTH := 4; as_ptr a := PhyAddr_from_PhyAddr32 a; add_usize := PhyAddr32_add_usize; as_primitive a := a |}.

(** Memory, and the register of the processor: limit and base. *)
Record machine := { ram : gmap Z Z; gdtr : Z * Z }.
Definition read_bytes (r : gmap Z Z) (a : Z) (n : nat) : outcome (list Z) :=
  deref (mapM (λ i, r !! (a + Z.of_nat i)) (seq 0 n)).
Definition write_mem (m : machine) (a : Z) (bs : list Z) : machine := {| ram := write_bytes (ram m) a bs; gdtr := gdtr m |}.

Record GlobalDescriptorTable := { base_address : Z; tail_address : Z; gdt_length : Z; entries : list Z }.
Definition with_length (g : GlobalDescriptorTable) (l : Z) : GlobalDescriptorTable :=
  {| base_address := base_address g; tail_address := tail_address g; gdt_length := l; entries := entries g |}.
Definition with_tail (g : GlobalDescriptorTable) (t l : Z) : GlobalDescriptorTable :=
  {| base_address := base_address g; tail_address := t; gdt_length := l; entries := entries g |}.

Section table.
Context `{MB : ModularBitfield} `{MA : MemoryAddress}.

(** [lgdt]: the limit in two bytes, then the address. *)
Definition update (g : GlobalDescriptorTable) (m : machine) : outcome machine :=
  let p := as_ptr (base_address g) in
  lim ← read_bytes (ram m) p 2;
  addr ← read_bytes (ram m) (p + 2) (Z.to_nat WIDTH);
  Done {| ram := ram m; gdtr := (of_le lim, of_le addr) |}.
Definition write_register (g : GlobalDescriptorTable) (m : machine) : outcome (GlobalDescriptorTable * machine) :=
  let p := as_ptr (base_address g) in
  if bool_decide (p = 0) then Panicked
  else
    '(g, m) ← (
      if bool_decide (WIDTH = 8) then
        gdt_base_address ← add_usize (base_address g) 0x8;
        Done (g, write_mem m (p + 2) (le_bytes 8 (as_primitive gdt_base_address)))
      else
        let m := write_mem m (p + 2) (le_bytes (Z.to_nat WIDTH) (as_primitive (base_address g))) in
        Done (if bool_decide (gdt_length g = 0) then with_length g (u16 (gdt_length g + 8)) else g, m));
    let m := write_mem m p (le_bytes 2 (u16 (gdt_length g - 1))) in
    m ← update g m;
    Done (g, m).
Definition add_entry (g : GlobalDescriptorTable) (descriptor : Z) (m : machine) :
    outcome (result unit MemoryError * GlobalDescriptorTable * machine) :=
  let p := as_ptr (tail_address g) in
  if bool_decide (WIDTH = 64) && is_system_segment descriptor then
    if bool_decide (p = 0) then Done (Err NullPointer, g, m)
    else
      let m := write_mem m p (le_bytes 16 (as_long_mode_system_desc descriptor)) in
      t ← add_usize (tail_address g) 0x10;
      '(g, m) ← write_register (with_tail g t (u16 (gdt_length g + 0x10))) m;
      Done (Ok (), g, m)
  else
    descriptor_bytes ← as_bytes descriptor;
    if bool_decide (p = 0) then Done (Err NullPointer, g, m)
    else
      let m := write_mem m p (le_bytes 8 descriptor_bytes) in
      t ← add_usize (tail_address g) 0x8;
      '(g, m) ← write_register (with_tail g t (u16 (gdt_length g + 0x8))) m;
      Done (Ok (), g, m).
(** [add_entry(..).unwrap()]. *)
Definition add_entry_unwrap (g : GlobalDescriptorTable) (descriptor : Z) (m : machine) : outcome (GlobalDescriptorTable * machine) :=
  '(r, g, m) ← add_entry g descriptor m;
  match r with Ok _ => Done (g, m) | Err _ => Panicked end.
Definition gdt_new (base_address : Z) (m : machine) : outcome (GlobalDescriptorTable * machine) :=
  tail ← add_usize base_address 0x8;
  let gdt := {| base_address := base_address; tail_address := tail; gdt_length := 0; entries := [] |} in
  '(gdt, m) ← write_register gdt m;
  if bool_decide (WIDTH = 8) then
    d ← new_segment ReadOnly;
    add_entry_unwrap gdt d m
  else Done (gdt, m).

Definition unwrap_ok {A E} (r : outcome (result A E)) : outcome A :=
  r ← r; match r with Ok a => Done a | Err _ => Panicked end.
(** The chains of builders of the entries; only user segments set a level. *)
Definition at_level (level : option PrivilegeLevel) (s : Z) : outcome Z :=
  match level with Some l => with_privilege_level s l | None => Done s end.
Definition flat_data (level : option PrivilegeLevel) : outcome Z :=
  s ← new_segment ReadWrite;
  s ← with_present s true;
  s ← at_level level s;
  s ← unwrap_ok (with_base s (PhyAddr_new 0));
  unwrap_ok (with_limit s 0xFFFFF).
Definition flat_code (level : option PrivilegeLevel) : outcome Z :=
  s ← new_segment ExecuteRead;
  s ← with_present s true;
  s ← at_level level s;
  s ← unwrap_ok (with_base s (PhyAddr_new 0));
  s ← unwrap_ok (with_limit s 0xFFFFF);
  unwrap_ok (enable_long s).

Definition long_init_gdt (base_address : Z) (m : machine) : outcome machine :=
  '(gdt, m) ← gdt_new base_address m;
  d ← flat_data None;
  '(gdt, m) ← add_entry_unwrap gdt d m;
  d ← flat_code None;
  '(gdt, m) ← add_entry_unwrap gdt d m;
  update gdt m.
Definition kernel_init_gdt (base_address : Z) (m : machine) : outcome machine :=
  '(gdt, m) ← gdt_new base_address m;
  d ← flat_data None;
  '(gdt, m) ← add_entry_unwrap gdt d m;
  d ← flat_code None;
  '(gdt, m) ← add_entry_unwrap gdt d m;
  d ← flat_data (Some Ring3);
  '(gdt, m) ← add_entry_unwrap gdt d m;
  d ← flat_code (Some Ring3);
  '(gdt, m) ← add_entry_unwrap gdt d m;
  update gdt m.

(** [load_gdt]: the loop over the table at [addr]. *)
Fixpoint load_entries (fuel : nat) (r : gmap Z Z) (stop curr_pos : Z) (acc : list Z) : outcome (list Z) :=
  match fuel with
  | O => NoFuel
  | S fuel =>
      if bool_decide (curr_pos ≤ stop) then
        bs ← read_bytes r (as_ptr curr_pos) 16;
        let entry_inner := of_le bs in
        '(entry, curr_pos) ← (
          if is_system_segment entry_inner && bool_decide (WIDTH = 8) then
            next ← add_usize curr_pos 0x10; Done (entry_inner, next)
          else
            lo ← low_bits u128_u64 entry_inner;
            next ← add_usize curr_pos 0x8; Done (lo, next));
        load_entries fuel r stop curr_pos (if seg_present entry then acc ++ [entry] else acc)
      else Done acc
  end.
Definition load_gdt (fuel : nat) (m : machine) : outcome GlobalDescriptorTable :=
  let '(len, gdt_addr) := gdtr m in
  curr_pos ← add_usize gdt_addr 0x8;
  stop ← add_usize gdt_addr len;
  es ← load_entries fuel (ram m) stop curr_pos [];
  end_ ← add_usize gdt_addr len;
  tail ← add_usize end_ 1;
  Done {| base_address := gdt_addr; tail_address := tail; gdt_length := u16 (len + 1); entries := es |}.
End table.

(** * Building descriptors *)

Section builders.
Context `{ML : ModularBitfieldLaws}.
#[local] Abbreviation get := (bf_get SegmentDescriptorInner).
#[local] Abbreviation put := (bf_with SegmentDescriptorInner).
Implicit Types s : Z.

Definition offsets : list Z := [0; 16; 40; 45; 47; 48; 52; 53; 54; 55; 56; 96].
Definition field (i : nat) : Z * Z := (nth i offsets 0, nth i SegmentDescriptorInner 0).
Lemma inner_nonneg : Forall (Z.le 0) SegmentDescriptorInner.
Proof. repeat constructor; lia. Qed.
Lemma get_field i s : (i < 12)%nat → get i s = get_ref (field i).1 (field i).2 s.
Proof. intros Hi. do 12 (destruct i as [|i]; [apply bf_get_eq; [apply inner_nonneg|done..]|]). lia. Qed.
Lemma put_field i v s : (i < 12)%nat → in_width (field i).2 v → put i v s = Done (put_ref (field i).1 (field i).2 v s).
Proof. intros Hi Hv. do 12 (destruct i as [|i]; [apply bf_with_eq; [apply inner_nonneg|done..]|]). lia. Qed.
Lemma field_disjoint_checked : forallb (λ i, forallb (λ j, bool_decide (i = j) || bool_decide (0 ≤ (field i).1 ∧ 0 ≤ (field i).2
  ∧ ((field i).1 + (field i).2 ≤ (field j).1 ∨ (field j).1 + (field j).2 ≤ (field i).1))) (seq 0 12)) (seq 0 12) = true.
Proof. vm_compute. reflexivity. Qed.
Lemma field_disjoint i j : (i < 12)%nat → (j < 12)%nat → i ≠ j → 0 ≤ (field i).1 ∧ 0 ≤ (field i).2
  ∧ ((field i).1 + (field i).2 ≤ (field j).1 ∨ (field j).1 + (field j).2 ≤ (field i).1).
Proof.
  intros Hi Hj Hne. pose proof field_disjoint_checked as Hc. rewrite forallb_forall in Hc. specialize (Hc i).
  rewrite in_seq, forallb_forall in Hc. specialize (Hc ltac:(lia) j). rewrite in_seq in Hc. specialize (Hc ltac:(lia)).
  apply orb_true_iff in Hc as [Hc|Hc]; apply bool_decide_eq_true in Hc; done.
Qed.
Lemma field_pos i : (i < 12)%nat → 0 ≤ (field i).1 ∧ 0 ≤ (field i).2.
Proof. intros Hi. destruct i; [split; simpl; lia|]. by edestruct (field_disjoint (S i) 0) as (? & ? & _); [lia..|]. Qed.
(** Setting a field sets it and keeps the others. *)
Lemma put_spec i v s : (i < 12)%nat → in_width (field i).2 v → ∃ s', put i v s = Done s' ∧ get i s' = v
  ∧ ∀ j, (j < 12)%nat → j ≠ i → get j s' = get j s.
Proof.
  intros Hi Hv. destruct (field_pos i Hi). eexists. split; [by apply put_field|]. split.
  - rewrite get_field by done. by apply get_put_same.
  - intros j Hj Hne. rewrite !get_field by done. destruct (field_pos j Hj), (field_disjoint i j Hi Hj) as (_ & _ & ?); [done|].
    by apply get_put_other.
Qed.
Lemma get_width i s : (i < 12)%nat → in_width (field i).2 (get i s).
Proof.
  intros Hi. rewrite get_field by done. destruct (field_pos i Hi). apply in_width_land_r; [done|].
  unfold in_width. rewrite Z.ones_equiv. pose proof (pow2_pos (field i).2). lia.
Qed.
Lemma get_bit_low w x i : 0 ≤ i < w → in_width w x → get_bit w x i = Z.b2z (Z.testbit x i).
Proof.
  intros Hi Hx. unfold get_bit, shr_w, shl_w. rewrite Z.mod_small by lia. rewrite Z.shiftl_1_l, wrap_id.
  - apply Z.bits_inj'. intros j Hj. rewrite Z.shiftr_spec, Z.land_spec, Z.pow2_bits_eqb by lia.
    destruct (decide (j = 0)) as [->|Hne].
    + rewrite Z.add_0_l, Z.eqb_refl, andb_true_r. by destruct (Z.testbit x i).
    + rewrite (proj2 (Z.eqb_neq i (j + i))), andb_false_r by lia. destruct (Z.testbit x i); [|by rewrite Z.bits_0].
      symmetry. apply (testbit_above 1); [unfold in_width; simpl; lia|lia].
  - split; [apply Z.pow_nonneg; lia|apply Z.pow_lt_mono_r; lia].
Qed.

Lemma convert_mask c x n : 0 ≤ n ≤ dst_bits c → convert_with_mask c x (Z.ones n) = Done (x mod 2 ^ n).
Proof.
  intros Hn. unfold convert_with_mask. rewrite Z.land_ones by lia. rewrite bool_decide_true; [done|].
  pose proof (Z.mod_pos_bound x (2 ^ n) (pow2_pos n ltac:(lia))).
  assert (2 ^ n ≤ 2 ^ dst_bits c) by (apply Z.pow_le_mono_r; lia). lia.
Qed.
(** A value set in two fields, the second one for the bits above. *)
Lemma put_two i k n lo hi s : (i < 12)%nat → (k < 12)%nat → i ≠ k → n = (field i).2 → in_width n lo → in_width (field k).2 hi →
  ∃ s', (put i lo s ≫= put k hi) = Done s' ∧ Z.lor (Z.shiftl (get k s') n) (get i s') = hi * 2 ^ n + lo
  ∧ ∀ j, (j < 12)%nat → j ∉ [i; k] → get j s' = get j s.
Proof.
  intros Hi Hk Hne -> Hlo Hhi. destruct (put_spec i lo s Hi Hlo) as (s1 & -> & G1 & F1).
  destruct (put_spec k hi s1 Hk Hhi) as (s2 & E2 & G2 & F2). exists s2. split; [exact E2|]. split.
  - rewrite G2, F2, G1 by done. apply lor_shiftl_add; [by apply field_pos|done].
  - intros j Hj Hnj. rewrite F2, F1 by set_solver. done.
Qed.

(** The builders of a descriptor.  A limit of more than 20 bits is refused, and so
    are a base of more than 32 bits for a code or data segment, and long mode for a
    segment that is not a 16-bit code segment; otherwise the descriptor has the
    limit, the base or the mode that was given, and its other fields are kept.  A
    base is read back up to 52 bits. *)
Theorem descriptor_builders s : let kept s' js := ∀ j, (j < 12)%nat → j ∉ js → get j s' = get j s in
  (∀ l, 0xFFFFF < l → with_limit s l = Done (Err LimitTooLarge))
  ∧ (∀ l, 0 ≤ l ≤ 0xFFFFF → ∃ s', with_limit s l = Done (Ok s') ∧ limit s' = l ∧ kept s' [0; 5]%nat)
  ∧ (∀ a, PhyAddr_MAX_32 < a → is_system_segment s = false → with_base s a = Done (Err InvalidBase))
  ∧ (∀ a, 0 ≤ a < 2 ^ 52 → is_system_segment s = true ∨ a ≤ PhyAddr_MAX_32 →
       ∃ s', with_base s a = Done (Ok s') ∧ base s' = a ∧ kept s' [1; 10]%nat)
  ∧ (is_code_segment s = false → enable_long s = Done (Err NonCodeSegmentLongMode))
  ∧ (is_code_segment s = true → size s = true → enable_long s = Done (Err InvalidAddressSizeSpecifier))
  ∧ (is_code_segment s = true → size s = false → ∃ s', enable_long s = Done (Ok s') ∧ long_mode s' = true ∧ kept s' [7]%nat).
Proof.
  intros kept. split_and!.
  - intros l Hl. unfold with_limit. by rewrite bool_decide_true by lia.
  - intros l Hl. unfold with_limit. rewrite bool_decide_false by lia. change 0xFFFF with (Z.ones 16). change 0xF with (Z.ones 4).
    rewrite !convert_mask by (simpl; lia). cbn [mbind outcome_bind]. rewrite Z.shiftr_div_pow2 by lia.
    pose proof (Z.mod_pos_bound l (2 ^ 16) ltac:(lia)). pose proof (Z.div_mod l (2 ^ 16) ltac:(lia)).
    assert (0 ≤ l / 2 ^ 16 < 2 ^ 4) by (split; [apply Z.div_pos; lia|apply Z.div_lt_upper_bound; lia]).
    rewrite (Z.mod_small (l / 2 ^ 16)) by lia.
    destruct (put_two 0 5 16 (l mod 2 ^ 16) (l / 2 ^ 16) s) as (s' & E & G & K); [lia..|done|done|done|].
    apply outcome_bind_Done in E as (s1 & -> & E2). cbn [mbind outcome_bind]. rewrite E2. exists s'. split; [done|].
    split; [|done]. unfold limit. rewrite G. lia.
  - intros a Ha Hs. unfold with_base. rewrite Hs. simpl. by rewrite bool_decide_true by lia.
  - intros a Ha Hs. unfold with_base. assert (negb (is_system_segment s) && bool_decide (PhyAddr_MAX_32 < a) = false) as ->.
    { destruct Hs as [->|Hs]; [done|]. by rewrite (bool_decide_false (PhyAddr_MAX_32 < a)), andb_false_r by lia. }
    change 0x00FFFFFF with (Z.ones 24). rewrite convert_mask by (simpl; lia). cbn [mbind outcome_bind].
    rewrite Z.shiftr_div_pow2 by lia.
    pose proof (Z.mod_pos_bound a (2 ^ 24) ltac:(lia)). pose proof (Z.div_mod a (2 ^ 24) ltac:(lia)).
    assert (0 ≤ a / 2 ^ 24 < 2 ^ 28) by (split; [apply Z.div_pos; lia|apply Z.div_lt_upper_bound; lia]).
    destruct (put_two 1 10 24 (a mod 2 ^ 24) (a / 2 ^ 24) s) as (s' & E & G & K); [lia..|done|done|unfold in_width; simpl; lia|].
    apply outcome_bind_Done in E as (s1 & -> & E2). cbn [mbind outcome_bind]. rewrite E2. exists s'. split; [done|].
    split; [|done]. unfold base. destruct (get_width 10 s' ltac:(lia)) as [G0 G1]. simpl in G1.
    rewrite (u64_id (Z.shiftl _ _)) by (rewrite Z.shiftl_mul_pow2 by lia; lia). rewrite G. unfold PhyAddr_new.
    change (Z.shiftl 1 52) with (2 ^ 52). rewrite Z.mod_small; lia.
  - intros Hc. unfold enable_long. by rewrite Hc.
  - intros Hc Hs. unfold enable_long. rewrite Hc. simpl. unfold size in Hs. by rewrite Hs.
  - intros Hc Hs. unfold enable_long. rewrite Hc. simpl. unfold size in Hs. rewrite Hs.
    destruct (put_spec 7 1 s ltac:(lia)) as (s' & -> & G & K); [unfold in_width; simpl; lia|]. exists s'. split; [done|].
    split; [unfold long_mode; by rewrite G|]. intros j Hj Hnj. apply K; set_solver.
Qed.
End builders.

#[local] Existing Instances shifts shifts_laws.
Lemma descriptor_builders_witness : ∃ s', with_limit 0 0xABCDE = Done (Ok s') ∧ limit s' = 0xABCDE.
Proof.
  destruct (descriptor_builders 0) as (_ & H & _). destruct (H 0xABCDE ltac:(lia)) as (s' & E & L & _). by exists s'.
Defined.

(** * The table in memory *)

Lemma read_bytes_ok r a bs : (∀ i, (i < length bs)%nat → r !! (a + Z.of_nat i) = bs !! i) → read_bytes r a (length bs) = Done bs.
Proof.
  intros H. unfold read_bytes. apply deref_Done, mapM_Some. apply Forall2_same_length_lookup_2; [by rewrite length_seq|].
  intros i x b [-> Hi]%lookup_seq Hb. by rewrite H.
Qed.

Section image.
Context `{ML : ModularBitfieldLaws} `{MA : MemoryAddress}.
(** A table at [B] in long mode, in a stretch of addresses that neither wraps nor
    is cut. *)
Context (B n : Z) (Hwidth : WIDTH = 8) (HB : 0 < B) (Hn : B + n < 2 ^ 64).
Context (Hadd : ∀ i k, 0 ≤ i → 0 ≤ k → i + k ≤ n → add_usize (B + i) k = Done (B + i + k)).
Context (Hptr : ∀ i, 0 ≤ i ≤ n → as_ptr (B + i) = B + i ∧ as_primitive (B + i) = B + i).

(** What is in memory: the two bytes of the limit, the eight of the address, then
    the descriptors, whose first two bytes are under the address. *)
Definition image (ds : list Z) (r0 : gmap Z Z) (x : Z) : option Z :=
  let len := 8 * Z.of_nat (length ds) in
  if bool_decide (B ≤ x < B + 2) then le_bytes 2 (u16 (len - 1)) !! Z.to_nat (x - B)
  else if bool_decide (B + 2 ≤ x < B + 10) then le_bytes 8 (B + 8) !! Z.to_nat (x - (B + 2))
  else if bool_decide (B + 8 ≤ x < B + 8 + len) then concat (map (le_bytes 8) ds) !! Z.to_nat (x - (B + 8))
  else r0 !! x.
Definition table_of (ds : list Z) : GlobalDescriptorTable :=
  {| base_address := B; tail_address := B + 8 + 8 * Z.of_nat (length ds); gdt_length := 8 * Z.of_nat (length ds); entries := [] |}.

Lemma update_image g ds r0 m : base_address g = B → (∀ x, ram m !! x = image ds r0 x) → 16 ≤ n →
  update g m = Done {| ram := ram m; gdtr := (u16 (8 * Z.of_nat (length ds) - 1), B + 8) |}.
Proof.
  intros Eg Hm H16. unfold update. rewrite Eg, Hwidth. destruct (Hptr 0 ltac:(lia)) as [E _]. rewrite Z.add_0_r in E. rewrite E.
  set (len := 8 * Z.of_nat (length ds)).
  assert (E1 : read_bytes (ram m) B 2 = Done (le_bytes 2 (u16 (len - 1)))).
  { apply (read_bytes_ok _ _ (le_bytes 2 _)). rewrite length_le_bytes. intros i Hi. rewrite Hm. unfold image. fold len.
    rewrite bool_decide_true by lia. f_equal. lia. }
  assert (E2 : read_bytes (ram m) (B + 2) 8 = Done (le_bytes 8 (B + 8))).
  { apply (read_bytes_ok _ _ (le_bytes 8 _)). rewrite length_le_bytes. intros i Hi. rewrite Hm. unfold image.
    rewrite bool_decide_false, bool_decide_true by lia. f_equal. lia. }
  rewrite E1. cbn [mbind outcome_bind]. change (Z.to_nat 8) with 8%nat. rewrite E2. cbn [mbind outcome_bind].
  rewrite !of_le_le_bytes; [done|unfold in_width; simpl; lia|]. apply (wrap_range 16). lia.
Qed.
(** Writing the register completes the image. *)
Lemma write_register_image ds r0 m : 16 ≤ n →
  (∀ x, ¬ (B ≤ x < B + 10) → ram m !! x = image ds r0 x) →
  ∃ m', write_register (table_of ds) m = Done (table_of ds, m') ∧ (∀ x, ram m' !! x = image ds r0 x)
  ∧ gdtr m' = (u16 (8 * Z.of_nat (length ds) - 1), B + 8).
Proof.
  intros H16 Hm. unfold write_register. cbn [base_address table_of]. destruct (Hptr 0 ltac:(lia)) as [E _]. rewrite Z.add_0_r in E.
  rewrite E, (bool_decide_false (B = 0)), (bool_decide_true (WIDTH = 8)) by (done || lia).
  pose proof (Hadd 0 8 ltac:(lia) ltac:(lia) ltac:(lia)) as Ea. rewrite Z.add_0_r in Ea. rewrite Ea. cbn [mbind outcome_bind].
  rewrite (proj2 (Hptr 8 ltac:(lia))). cbn [gdt_length]. set (len := 8 * Z.of_nat (length ds)).
  set (m1 := write_mem _ B _). assert (Hm1 : ∀ x, ram m1 !! x = image ds r0 x).
  { intros x. unfold m1, write_mem. cbn [ram]. rewrite !write_bytes_lookup, !length_le_bytes. unfold image at 1. fold len.
    destruct (decide (B ≤ x < B + 2)) as [H1|H1]; [by rewrite !bool_decide_true by lia|]. rewrite !(bool_decide_false (B ≤ x < _)) by lia.
    destruct (decide (B + 2 ≤ x < B + 10)) as [H2|H2]; [by rewrite !bool_decide_true by lia|].
    rewrite !(bool_decide_false (B + 2 ≤ x < _)) by lia. rewrite Hm by lia. unfold image. fold len.
    by rewrite !(bool_decide_false (B ≤ x < _)), !(bool_decide_false (B + 2 ≤ x < _)) by lia. }
  rewrite (update_image _ ds r0 m1) by done. cbn [mbind outcome_bind]. eexists. split; [done|]. by split.
Qed.
(** An entry is added as eight bytes, whatever its type. *)
Lemma add_entry_image ds d r0 m : 24 + 8 * Z.of_nat (length ds) ≤ n → n < 2 ^ 16 → in_width 128 d → (∀ x, ram m !! x = image ds r0 x) →
  ∃ m', add_entry (table_of ds) d m = Done (Ok (), table_of (ds ++ [d mod 2 ^ 64]), m')
  ∧ (∀ x, ram m' !! x = image (ds ++ [d mod 2 ^ 64]) r0 x) ∧ gdtr m' = (8 * Z.of_nat (length ds) + 7, B + 8).
Proof.
  intros Hlen Hn16 Hd Hm. unfold add_entry. rewrite (bool_decide_false (WIDTH = 64)) by lia. cbn [andb].
  cbn [tail_address table_of gdt_length]. set (k := 8 * Z.of_nat (length ds)) in *.
  assert (El : as_bytes d = Done (d mod 2 ^ 64)).
  { unfold as_bytes, low_bits. change (LOW_BITS_MASK u128_u64) with (Z.ones 64). by apply convert_mask. }
  rewrite El. cbn [mbind outcome_bind]. replace (B + 8 + k) with (B + (8 + k)) by lia.
  rewrite (proj1 (Hptr (8 + k) ltac:(lia))), (bool_decide_false (B + (8 + k) = 0)) by lia.
  rewrite (Hadd (8 + k) 8) by lia. cbn [mbind outcome_bind].
  set (ds' := ds ++ [d mod 2 ^ 64]). assert (Ek : 8 * Z.of_nat (length ds') = k + 8) by (unfold ds'; rewrite length_app; simpl; lia).
  replace (with_tail (table_of ds) (B + (8 + k) + 8) (u16 (k + 8))) with (table_of ds').
  2: { unfold with_tail, table_of. cbn [base_address entries]. rewrite Ek. unfold u16. rewrite wrap_id by (unfold in_width; lia).
       f_equal. lia. }
  edestruct (write_register_image ds' r0) as (m' & -> & H1 & H2); [lia| |].
  2: { exists m'. split; [done|]. split; [done|]. rewrite H2, Ek. unfold u16. rewrite wrap_id by (unfold in_width; lia). f_equal. lia. }
  intros x Hx. unfold write_mem. cbn [ram]. rewrite write_bytes_lookup, length_le_bytes, Hm. unfold image. rewrite Ek. fold k.
  rewrite !(bool_decide_false (B ≤ x < _)), !(bool_decide_false (B + 2 ≤ x < _)) by lia.
  assert (Hcl : length (concat (map (le_bytes 8) ds)) = (8 * length ds)%nat).
  { rewrite (length_concat_same 8), length_map; [lia|]. apply Forall_map, Forall_true. intros y. apply length_le_bytes. }
  unfold ds'. rewrite map_app, concat_app. cbn [map concat]. rewrite app_nil_r.
  destruct (decide (B + 8 ≤ x < B + 8 + k)) as [Hin|Hin].
  - rewrite bool_decide_false, !bool_decide_true by lia. rewrite lookup_app_l; [done|]. rewrite Hcl. lia.
  - destruct (decide (B + 8 + k ≤ x < B + 8 + k + 8)) as [Hlt|Hlt].
    + rewrite !bool_decide_true by lia. rewrite lookup_app_r by (rewrite Hcl; lia). f_equal. rewrite Hcl. lia.
    + by rewrite !bool_decide_false by lia.
Qed.
End image.

(** The bytes of an entry other than the first. *)
Lemma image_entry B ds r0 (r : gmap Z Z) k d i : (∀ x, r !! x = image B ds r0 x) → ds !! k = Some d → (0 < k)%nat → (i < 8)%nat →
  r !! (B + 8 + 8 * Z.of_nat k + Z.of_nat i) = le_bytes 8 d !! i.
Proof.
  intros Hr Hd Hk Hi. assert (Hlt : (k < length ds)%nat) by (by eapply lookup_lt_Some). rewrite Hr. unfold image.
  rewrite (bool_decide_false (B ≤ _ < _)), (bool_decide_false (B + 2 ≤ _ < _)), bool_decide_true by lia.
  assert (HF : Forall (λ l, length l = 8%nat) (map (le_bytes 8) ds)) by (apply Forall_map, Forall_true; intros; apply length_le_bytes).
  rewrite (lookup_concat_same 8) by (done || lia).
  replace (Z.to_nat (B + 8 + 8 * Z.of_nat k + Z.of_nat i - (B + 8))) with (i + k * 8)%nat by lia.
  rewrite Nat.div_add, Nat.div_small, Nat.Div0.mod_add, Nat.mod_small by lia.
  change (map (le_bytes 8) ds) with (le_bytes 8 <$> ds). rewrite list_lookup_fmap. simpl. by rewrite Hd.
Qed.

(** ** The entries of the kernel *)

Section values.
Context `{ML : ModularBitfieldLaws}.

Lemma put_value i v s s' : (i < 12)%nat → in_width (field i).2 v → put_ref (field i).1 (field i).2 v s = s' →
  bf_with SegmentDescriptorInner i v s = Done s'.
Proof. intros Hi Hv <-. by apply put_field. Qed.
Lemma get_value i s v : (i < 12)%nat → get_ref (field i).1 (field i).2 s = v → bf_get SegmentDescriptorInner i s = v.
Proof. intros Hi <-. by apply get_field. Qed.
(** Runs one builder on concrete values. *)
Ltac run_put := erewrite put_value; [|lia|unfold in_width; simpl; lia|vm_compute; reflexivity]; cbn [mbind outcome_bind].
Ltac run_get := erewrite get_value; [|lia|vm_compute; reflexivity].

Lemma null_value : new_segment ReadOnly = Done 0x0000100000000000.
Proof. unfold new_segment, with_segment_type. cbn [convert DataSegmentType_impl DataSegmentType_convert]. by run_put. Qed.
Lemma with_base_0 s s' : is_system_segment s = false → put_ref 16 24 0 s = s → put_ref 56 40 0 s = s' →
  unwrap_ok (with_base s (PhyAddr_new 0)) = Done s'.
Proof.
  intros Hs H1 H2. unfold with_base. rewrite Hs. cbn [negb andb]. rewrite bool_decide_false by (vm_compute; done).
  change (PhyAddr_new 0) with 0. change (convert_with_mask u64_u32 0 0x00FFFFFF) with (Done 0 : outcome Z).
  cbn [mbind outcome_bind]. change (Z.shiftr 0 24) with 0.
  rewrite (put_value 1 0 s s) by (done || lia). cbn [mbind outcome_bind]. by rewrite (put_value 10 0 s s') by (done || lia).
Qed.
Lemma with_limit_max s s1 s2 : put_ref 0 16 0xFFFF s = s1 → put_ref 48 4 0xF s1 = s2 → unwrap_ok (with_limit s 0xFFFFF) = Done s2.
Proof.
  intros H1 H2. unfold with_limit. rewrite bool_decide_false by lia.
  change (convert_with_mask u32_u16 0xFFFFF 0xFFFF) with (Done 0xFFFF : outcome Z). cbn [mbind outcome_bind].
  rewrite (put_value 0 0xFFFF s s1) by (done || lia). cbn [mbind outcome_bind].
  change (convert_with_mask u32_u8 (Z.shiftr 0xFFFFF 16) 0xF) with (Done 0xF : outcome Z). cbn [mbind outcome_bind].
  by rewrite (put_value 5 0xF s1 s2) by (done || lia).
Qed.
Lemma flat_data_value level : level ∈ [None; Some Ring3] →
  flat_data level = Done (match level with Some _ => 0x000FF2000000FFFF | None => 0x000F92000000FFFF end).
Proof.
  intros Hl. unfold flat_data, new_segment, with_segment_type, with_present, at_level.
  cbn [convert DataSegmentType_impl DataSegmentType_convert Z.b2z]. do 2 run_put.
  apply elem_of_cons in Hl as [->|Hl%list_elem_of_singleton]; [|subst level; unfold with_privilege_level; cbn [level_bits]; run_put].
  all: cbn [mbind outcome_bind]; erewrite with_base_0;
    [|unfold is_system_segment; run_get; vm_compute; reflexivity|vm_compute; reflexivity..].
  all: cbn [mbind outcome_bind]; apply (with_limit_max _ _ _ eq_refl); vm_compute; reflexivity.
Qed.
Lemma flat_code_value level : level ∈ [None; Some Ring3] →
  flat_code level = Done (match level with Some _ => 0x002FFA000000FFFF | None => 0x002F9A000000FFFF end).
Proof.
  intros Hl. unfold flat_code, new_segment, with_segment_type, with_present, at_level.
  cbn [convert CodeSegmentType_impl CodeSegmentType_convert Z.b2z]. do 2 run_put.
  apply elem_of_cons in Hl as [->|Hl%list_elem_of_singleton]; [|subst level; unfold with_privilege_level; cbn [level_bits]; run_put].
  all: cbn [mbind outcome_bind]; erewrite with_base_0;
    [|unfold is_system_segment; run_get; vm_compute; reflexivity|vm_compute; reflexivity..].
  all: cbn [mbind outcome_bind]; erewrite with_limit_max by (vm_compute; reflexivity); cbn [mbind outcome_bind].
  all: unfold enable_long, is_code_segment, is_system_segment; run_get; run_get; cbn; run_put; reflexivity.
Qed.
End values.

(** ** The table of the kernel *)

(** Addresses from [B] to [B + n] are where they say. *)
Definition linear_addresses `{MemoryAddress} (B n : Z) : Prop :=
  WIDTH = 8 ∧ 0 < B ∧ B + n < 2 ^ 64
  ∧ (∀ i k, 0 ≤ i → 0 ≤ k → i + k ≤ n → add_usize (B + i) k = Done (B + i + k))
  ∧ (∀ i, 0 ≤ i ≤ n → as_ptr (B + i) = B + i ∧ as_primitive (B + i) = B + i).
Lemma VirtAddr_linear B n : 0 ≤ n → 0 < B → B + n < 2 ^ 64 → (B + n < 2 ^ 47 ∨ 2 ^ 64 - 2 ^ 47 ≤ B) →
  let _ := VirtAddr_impl in linear_addresses B n.
Proof.
  intros Hn H0 H1 Hc MA. assert (Hid : ∀ i, 0 ≤ i ≤ n → VirtAddr_new (B + i) = B + i).
  { intros i Hi. apply VirtAddr_new_id; [unfold in_width; lia|unfold canonical; lia]. }
  split_and!; [done|done|done| |].
  - intros i k Hi Hk Hik. cbn [MA VirtAddr_impl add_usize]. unfold VirtAddr_add_usize. rewrite u64_id by lia.
    replace (B + i + k) with (B + (i + k)) by lia. by rewrite Hid by lia.
  - intros i Hi. cbn [MA VirtAddr_impl as_ptr as_primitive]. unfold VirtAddr_as_mut_ptr.
    change (u64_from_VirtAddr (B + i)) with (VirtAddr_new (B + i)). by rewrite Hid.
Qed.

Section kernel.
Context `{ML : ModularBitfieldLaws} `{MA : MemoryAddress} (B : Z) (HL : linear_addresses B 64).

Lemma add_unwrap_image ds d r0 m : (length ds ≤ 5)%nat → in_width 64 d → (∀ x, ram m !! x = image B ds r0 x) →
  ∃ m', add_entry_unwrap (table_of B ds) d m = Done (table_of B (ds ++ [d]), m')
  ∧ (∀ x, ram m' !! x = image B (ds ++ [d]) r0 x) ∧ gdtr m' = (8 * Z.of_nat (length ds) + 7, B + 8).
Proof.
  intros Hlen Hd Hm. destruct HL as (Hw & H0 & H1 & H2 & H3). unfold add_entry_unwrap.
  destruct (add_entry_image B 64 Hw H0 H1 H2 H3 ds d r0 m) as (m' & -> & Hr & Hg); [lia|lia|by apply (in_width_mono 64)|done|].
  rewrite Z.mod_small in Hr |- * by done. cbn [mbind outcome_bind]. by exists m'.
Qed.
Definition NULL_ENTRY : Z := 0x0000100000000000.
Lemma new_image m : ∃ m', gdt_new B m = Done (table_of B [NULL_ENTRY], m') ∧ (∀ x, ram m' !! x = image B [NULL_ENTRY] (ram m) x)
  ∧ gdtr m' = (7, B + 8).
Proof.
  pose proof HL as (Hw & H0 & H1 & H2 & H3). unfold gdt_new.
  pose proof (H2 0 8 ltac:(lia) ltac:(lia) ltac:(lia)) as Ea. rewrite Z.add_0_r in Ea. rewrite Ea. cbn [mbind outcome_bind].
  replace {| base_address := B; tail_address := B + 8; gdt_length := 0; entries := [] |} with (table_of B [])
    by (unfold table_of; simpl; f_equal; lia).
  destruct (write_register_image B 64 Hw H0 H1 H2 H3 [] (ram m) m) as (m1 & -> & Hr1 & _); [lia| |].
  - intros x Hx. unfold image. simpl length. by rewrite !bool_decide_false by lia.
  - cbn [mbind outcome_bind]. rewrite bool_decide_true, null_value by done. cbn [mbind outcome_bind]. change 0x0000100000000000 with NULL_ENTRY.
    destruct (add_unwrap_image [] NULL_ENTRY (ram m) m1) as (m' & -> & ?); [simpl; lia|by vm_compute|done|]. by exists m'.
Qed.
Definition kernel_entries : list Z :=
  [NULL_ENTRY; 0x000F92000000FFFF; 0x002F9A000000FFFF; 0x000FF2000000FFFF; 0x002FFA000000FFFF].
Lemma kernel_image m : ∃ m', kernel_init_gdt B m = Done m' ∧ (∀ x, ram m' !! x = image B kernel_entries (ram m) x)
  ∧ gdtr m' = (39, B + 8).
Proof.
  pose proof HL as (Hw & H0 & H1 & H2 & H3). unfold kernel_init_gdt.
  destruct (new_image m) as (m1 & -> & R1 & _). cbn [mbind outcome_bind].
  rewrite (flat_data_value None), (flat_code_value None) by set_solver. cbn [mbind outcome_bind].
  edestruct add_unwrap_image as (m2 & -> & R2 & _); [..|exact R1|]; [simpl; lia|by vm_compute|]. cbn [mbind outcome_bind].
  edestruct add_unwrap_image as (m3 & -> & R3 & _); [..|exact R2|]; [simpl; lia|by vm_compute|]. cbn [mbind outcome_bind].
  rewrite (flat_data_value (Some Ring3)), (flat_code_value (Some Ring3)) by set_solver. cbn [mbind outcome_bind].
  edestruct add_unwrap_image as (m4 & -> & R4 & _); [..|exact R3|]; [simpl; lia|by vm_compute|]. cbn [mbind outcome_bind].
  edestruct add_unwrap_image as (m5 & -> & R5 & _); [..|exact R4|]; [simpl; lia|by vm_compute|]. cbn [mbind outcome_bind].
  change (update (table_of B _) m5) with (update (table_of B kernel_entries) m5).
  rewrite (update_image B 64 Hw H0 H1 H3 (table_of B kernel_entries) kernel_entries (ram m) m5 eq_refl R5) by lia. eexists. split; [done|]. by split.
Qed.
(** The descriptor that a selector selects. *)
Definition selected (m : machine) (selector : Z) : outcome (list Z) := read_bytes (ram m) ((gdtr m).2 + 8 * (selector / 8)) 8.
Lemma selected_image ds r0 m k d : (∀ x, ram m !! x = image B ds r0 x) → (gdtr m).2 = B + 8 → ds !! k = Some d → (0 < k)%nat →
  ∀ selector, selector / 8 = Z.of_nat k → selected m selector = Done (le_bytes 8 d).
Proof.
  intros Hr Hg Hd Hk sel Hs. unfold selected. rewrite Hg, Hs. apply (read_bytes_ok _ _ (le_bytes 8 d)). rewrite length_le_bytes.
  intros i Hi. by apply (image_entry B ds r0).
Qed.
End kernel.

(** The descriptor table of the kernel.  [kernel_init_gdt] at [B] loads the register
    with a table of five descriptors at [B + 8], and the four static selectors
    select the flat data and 64-bit code segments of the kernel and of user
    mode, with the right levels; memory outside the 48 bytes of the table and the
    image of its register is as it was. *)
Theorem kernel_gdt `{ML : ModularBitfieldLaws} `{MA : MemoryAddress} B m : linear_addresses B 64 →
  KERNEL_DATA_SELECTOR = Done 0x08 ∧ KERNEL_CODE_SELECTOR = Done 0x10
  ∧ USERMODE_DATA_SELECTOR = Done 0x1b ∧ USERMODE_CODE_SELECTOR = Done 0x23
  ∧ ∃ m', kernel_init_gdt B m = Done m' ∧ gdtr m' = (39, B + 8)
  ∧ selected m' 0x08 = Done (le_bytes 8 0x000F92000000FFFF) ∧ selected m' 0x10 = Done (le_bytes 8 0x002F9A000000FFFF)
  ∧ selected m' 0x1b = Done (le_bytes 8 0x000FF2000000FFFF) ∧ selected m' 0x23 = Done (le_bytes 8 0x002FFA000000FFFF)
  ∧ ∀ x, ¬ (B ≤ x < B + 48) → ram m' !! x = ram m !! x.
Proof.
  intros HL. destruct (kernel_image B HL m) as (m' & E & R & G).
  assert (Hsel : ∀ rpl idx v, (rpl, idx, v) ∈ [(Ring0, 0x08, 0x08); (Ring0, 0x10, 0x10); (Ring3, 0x18, 0x1b); (Ring3, 0x20, 0x23)] →
    lazy_selector rpl idx = Done v).
  { intros rpl idx v Hin. assert (Hws : Forall (Z.le 0) SegmentSelectorInner) by (repeat constructor; lia).
    unfold lazy_selector, with_rpl, with_index, gdt_selector.
    repeat (apply elem_of_cons in Hin as [[= -> -> ->]|Hin];
      [rewrite (bf_with_eq _ 0 2 0) by (done || (unfold in_width; simpl; lia)); cbn [mbind outcome_bind];
       rewrite bool_decide_false by (intros Hz; by apply Hz); rewrite (bf_with_eq _ 2 13 3) by (done || (unfold in_width; simpl; lia));
       by vm_compute|]).
    by apply not_elem_of_nil in Hin. }
  split_and!; [apply Hsel; set_solver..|]. exists m'.
  assert (HS : ∀ k d sel, kernel_entries !! k = Some d → (0 < k)%nat → sel / 8 = Z.of_nat k → selected m' sel = Done (le_bytes 8 d)).
  { intros k d sel Hk H0 Hs. by apply (selected_image B kernel_entries (ram m) m' k d R) with (selector := sel); [rewrite G|..]. }
  split_and!; [done|done|apply (HS 1%nat); [reflexivity|lia|reflexivity]|apply (HS 2%nat); [reflexivity|lia|reflexivity]|apply (HS 3%nat); [reflexivity|lia|reflexivity]|apply (HS 4%nat); [reflexivity|lia|reflexivity]|].
  intros x Hx. rewrite R. unfold image. simpl length. by rewrite !bool_decide_false by lia.
Qed.
Lemma kernel_gdt_witness : let _ := VirtAddr_impl in ∃ m', kernel_init_gdt 0xFFFFCF8000004000 {| ram := ∅; gdtr := (0, 0) |} = Done m'
  ∧ gdtr m' = (39, 0xFFFFCF8000004008).
Proof.
  intros MA. destruct (kernel_gdt 0xFFFFCF8000004000 {| ram := ∅; gdtr := (0, 0) |}) as (_ & _ & _ & _ & m' & E & G & _).
  - apply VirtAddr_linear; lia.
  - exists m'. split; [exact E|exact G].
Defined.

(** * Reading the table back *)

Lemma of_le_app l1 l2 : of_le (l1 ++ l2) = of_le l1 + 2 ^ (8 * Z.of_nat (length l1)) * of_le l2.
Proof.
  induction l1 as [|b l1 IH]; [simpl; lia|]. cbn [app of_le length]. rewrite IH, pow256_succ. lia.
Qed.
Section load.
Context `{ML : ModularBitfieldLaws} `{MA : MemoryAddress} (B n : Z) (HL : linear_addresses B n).

(** The fields of a descriptor below bit 64 do not depend on what follows it. *)
Lemma get_low i d hi : (i < 10)%nat → in_width 64 d → 0 ≤ hi →
  bf_get SegmentDescriptorInner i (d + 2 ^ 64 * hi) = bf_get SegmentDescriptorInner i d.
Proof.
  intros Hi Hd Hh. rewrite !get_field by lia. assert (Hf : 0 ≤ (field i).1 ∧ (field i).1 + (field i).2 ≤ 64).
  { do 10 (destruct i as [|i]; [simpl; lia|]). lia. }
  destruct (field_pos i ltac:(lia)) as [_ Hw]. apply Z.bits_inj'. intros j Hj. unfold get_ref.
  rewrite !Z.land_spec, !Z.shiftr_spec by lia. destruct (decide (j < (field i).2)) as [Hl|Hl].
  - f_equal. rewrite <- (Z.mod_pow2_bits_low _ 64) by lia.
    replace (d + 2 ^ 64 * hi) with (d + hi * 2 ^ 64) by lia. by rewrite Z_mod_plus_full, Z.mod_small.
  - by rewrite Z.ones_spec_high, !andb_false_r by lia.
Qed.
(** The bytes of a table, and those that follow it. *)
Context (ds : list Z) (r0 r : gmap Z Z) (Hr : ∀ x, r !! x = image B ds r0 x) (Hds : Forall (in_width 64) ds).
#[local] Abbreviation len := (8 * Z.of_nat (length ds)).
Context (Hlen : len + 24 ≤ n) (Hmapped : ∀ x, B + 8 + len ≤ x < B + 16 + len → ∃ b, r0 !! x = Some b ∧ byte b).

Lemma image_next k : (0 < k)%nat → (k ≤ length ds)%nat → ∃ rest, length rest = 8%nat ∧ Forall byte rest ∧
  ∀ i, (i < 8)%nat → r !! (B + 8 + 8 * Z.of_nat k + Z.of_nat i) = rest !! i.
Proof.
  intros Hk Hle. destruct (ds !! k) as [d|] eqn:E.
  - exists (le_bytes 8 d). split_and!; [apply length_le_bytes|apply le_bytes_byte|]. intros i Hi. by apply (image_entry B ds r0).
  - apply lookup_ge_None in E. replace k with (length ds) by lia.
    exists (map (λ i, default 0 (r0 !! (B + 8 + len + Z.of_nat i))) (seq 0 8)). split_and!.
    + by rewrite length_map, length_seq.
    + apply Forall_map, Forall_forall. intros i [_ Hi]%elem_of_seq. destruct (Hmapped (B + 8 + len + Z.of_nat i) ltac:(lia)) as (b & -> & Hb). done.
    + intros i Hi. rewrite Hr. unfold image.
      rewrite (bool_decide_false (B ≤ _ < _)), (bool_decide_false (B + 2 ≤ _ < _)), bool_decide_false by lia.
      destruct (Hmapped (B + 8 + len + Z.of_nat i) ltac:(lia)) as (b & Eb & _).
      change (map ?g (seq 0 8)) with (g <$> seq 0 8). rewrite list_lookup_fmap, lookup_seq_lt by done. simpl. by rewrite Eb.
Qed.
(** Sixteen bytes are read for each descriptor. *)
Lemma read_entry k d : ds !! k = Some d → (0 < k)%nat → ∃ hi, 0 ≤ hi < 2 ^ 64
  ∧ ∃ bs, read_bytes r (B + 8 + 8 * Z.of_nat k) 16 = Done bs ∧ of_le bs = d + 2 ^ 64 * hi.
Proof.
  intros Hd Hk. assert (Hlt : (k < length ds)%nat) by (by eapply lookup_lt_Some).
  destruct (image_next (S k) ltac:(lia) ltac:(lia)) as (rest & Hl & Hb & Hn). exists (of_le rest). split.
  { pose proof (of_le_range rest Hb) as H0. rewrite Hl in H0. done. }
  exists (le_bytes 8 d ++ rest). assert (H16 : length (le_bytes 8 d ++ rest) = 16%nat) by (rewrite length_app, length_le_bytes; lia). split.
  - rewrite <- H16. apply read_bytes_ok. rewrite H16. intros i Hi. destruct (decide (i < 8)%nat) as [H8|H8].
    + rewrite lookup_app_l by (rewrite length_le_bytes; lia). by apply (image_entry B ds r0).
    + rewrite lookup_app_r, length_le_bytes by (rewrite length_le_bytes; lia). rewrite <- Hn by lia. f_equal. lia.
  - rewrite of_le_app, length_le_bytes, of_le_le_bytes; [done|]. by apply (Forall_lookup_1 _ _ _ _ Hds Hd).
Qed.
Lemma load_entries_image fuel k acc : Forall (λ d, is_system_segment d = false) (drop k ds) →
  (0 < k ≤ length ds)%nat → (length ds - k < fuel)%nat →
  load_entries fuel r (B + 8 + (len - 1)) (B + 8 + 8 * Z.of_nat k) acc
  = Done (acc ++ filter (λ d, seg_present d = true) (drop k ds)).
Proof.
  destruct HL as (Hw & H0 & H1 & Hadd & Hptr). revert k acc. induction fuel as [|fuel IH]; intros k acc Hs Hk Hf; [lia|].
  cbn [load_entries]. destruct (ds !! k) as [d|] eqn:E.
  2: { apply lookup_ge_None in E. rewrite bool_decide_false by lia. rewrite drop_ge by lia. by rewrite app_nil_r. }
  assert (Hlt : (k < length ds)%nat) by (by eapply lookup_lt_Some). rewrite bool_decide_true by lia.
  replace (B + 8 + 8 * Z.of_nat k) with (B + (8 + 8 * Z.of_nat k)) by lia. rewrite (proj1 (Hptr (8 + 8 * Z.of_nat k) ltac:(lia))).
  destruct (read_entry k d E ltac:(lia)) as (hi & Hhi & bs & Eb & Ev). rewrite Z.add_assoc, Eb. cbn [mbind outcome_bind]. rewrite Ev.
  rewrite (drop_S _ _ _ E) in Hs |- *. apply Forall_cons in Hs as [Hd Hs]. pose proof (Forall_lookup_1 _ _ _ _ Hds E) as Hwd.
  assert (is_system_segment (d + 2 ^ 64 * hi) = false) as -> by (unfold is_system_segment in *; by rewrite get_low by (done || lia)).
  cbn [andb]. unfold low_bits. change (LOW_BITS_MASK u128_u64) with (Z.ones 64). rewrite convert_mask by (simpl; lia).
  replace (d + 2 ^ 64 * hi) with (d + hi * 2 ^ 64) by lia. rewrite Z_mod_plus_full, Z.mod_small by done. cbn [mbind outcome_bind].
  replace (B + 8 + 8 * Z.of_nat k) with (B + (8 + 8 * Z.of_nat k)) by lia. rewrite Hadd by lia. cbn [mbind outcome_bind].
  replace (B + (8 + 8 * Z.of_nat k) + 8) with (B + 8 + 8 * Z.of_nat (S k)) by lia. rewrite IH by (done || lia).
  rewrite filter_cons. destruct (seg_present d) eqn:Ep; [rewrite decide_True by done|by rewrite decide_False by done].
  by rewrite <- app_assoc.
Qed.
End load.

(** Reading the table back.  After [kernel_init_gdt], [load_gdt] finds the four
    segments in their order, and the length and end of the table.  It reads sixteen
    bytes for each entry, so that the eight bytes after the table must be mapped. *)
Theorem load_gdt_roundtrip `{ML : ModularBitfieldLaws} `{MA : MemoryAddress} B m : linear_addresses B 64 →
  (∀ x, B + 48 ≤ x < B + 56 → ∃ b, ram m !! x = Some b ∧ byte b) → ∃ m' g, kernel_init_gdt B m = Done m' ∧ load_gdt 5 m' = Done g
  ∧ entries g = [0x000F92000000FFFF; 0x002F9A000000FFFF; 0x000FF2000000FFFF; 0x002FFA000000FFFF]
  ∧ base_address g = B + 8 ∧ gdt_length g = 40 ∧ tail_address g = B + 48.
Proof.
  intros HL Hmap. destruct (kernel_image B HL m) as (m' & E & R & G). exists m'. pose proof HL as (Hw & H0 & H1 & Hadd & Hptr).
  assert (Hgood : Forall (λ d, is_system_segment d = false ∧ seg_present d = true) (drop 1 kernel_entries)).
  { repeat constructor; unfold is_system_segment, seg_present; rewrite get_field by lia; vm_compute; reflexivity. }
  assert (Hload : load_entries 5 (ram m') (B + 8 + 39) (B + 8 + 8) [] = Done (drop 1 kernel_entries)).
  { assert (Hw64 : Forall (in_width 64) kernel_entries) by (repeat constructor; unfold in_width; vm_compute; done).
    assert (Hm8 : ∀ x, B + 8 + 40 ≤ x < B + 16 + 40 → ∃ b, ram m !! x = Some b ∧ byte b) by (intros; apply Hmap; lia).
    assert (Hns : Forall (λ d, is_system_segment d = false) (drop 1 kernel_entries)) by (eapply Forall_impl; [exact Hgood|naive_solver]).
    etrans; [exact (load_entries_image B 64 HL kernel_entries (ram m) (ram m') R Hw64 ltac:(simpl; lia) Hm8 5 1 [] Hns
      ltac:(simpl; lia) ltac:(simpl; lia))|].
    rewrite app_nil_l. f_equal. clear -Hgood. induction Hgood as [|d l [_ Hd] _ IH]; [done|].
    rewrite filter_cons_True by done. by rewrite IH. }
  unfold load_gdt. rewrite G. replace (B + 8) with (B + 8) by lia. rewrite !Hadd by lia. cbn [mbind outcome_bind].
  rewrite Hload. cbn [mbind outcome_bind]. replace (B + 8 + 39) with (B + 47) by lia. rewrite Hadd by lia. cbn [mbind outcome_bind].
  eexists. split; [done|]. split; [done|]. cbn [entries base_address gdt_length tail_address]. split_and!; [done|done|done|lia].
Qed.
Lemma load_gdt_roundtrip_witness : let _ := VirtAddr_impl in ∃ m' g,
  kernel_init_gdt 0x4000 {| ram := write_bytes ∅ 0x4030 (replicate 8 0); gdtr := (0, 0) |} = Done m' ∧ load_gdt 5 m' = Done g
  ∧ gdt_length g = 40.
Proof.
  intros MA. destruct (load_gdt_roundtrip 0x4000 {| ram := write_bytes ∅ 0x4030 (replicate 8 0); gdtr := (0, 0) |}) as (m' & g & E & L & _ & _ & H & _).
  - apply VirtAddr_linear; lia.
  - intros x Hx. exists 0. split; [|by vm_compute]. cbn [ram]. rewrite write_bytes_lookup, bool_decide_true by (simpl; lia).
    apply lookup_replicate_2. lia.
  - exists m', g. split; [exact E|]. split; [exact L|exact H].
Defined.

(** System segments.  In long mode the descriptor of a system segment has sixteen
    bytes, but [add_entry] writes the first eight of every descriptor: the test for
    the long form compares the width of an address in bytes with 64. *)
Theorem add_entry_writes_low_half `{ML : ModularBitfieldLaws} `{MA : MemoryAddress} B ds d m r0 : linear_addresses B 64 →
  (length ds ≤ 5)%nat → in_width 128 d → (∀ x, ram m !! x = image B ds r0 x) → ∃ g m',
  add_entry (table_of B ds) d m = Done (Ok (), g, m') ∧ gdt_length g = gdt_length (table_of B ds) + 8
  ∧ tail_address g = tail_address (table_of B ds) + 8 ∧ (∀ x, ram m' !! x = image B (ds ++ [d mod 2 ^ 64]) r0 x).
Proof.
  intros (Hw & H0 & H1 & H2 & H3) Hlen Hd Hm.
  destruct (add_entry_image B 64 Hw H0 H1 H2 H3 ds d r0 m) as (m' & E & Hr & _); [lia|lia|done|done|].
  eexists _, m'. split; [exact E|]. unfold table_of. cbn [gdt_length tail_address]. rewrite length_app. simpl length. split_and!; [lia|lia|done].
Qed.
(** A task-state segment with a base above 4 GB, after the null entry. *)
Definition high_tss : Z := 0x00000001_00008900_00000067 + Z.shiftl 0x1 64.
Lemma add_entry_writes_low_half_witness : let _ := VirtAddr_impl in is_system_segment high_tss = true ∧ ∃ g m' m'',
  gdt_new 0x4000 {| ram := ∅; gdtr := (0, 0) |} = Done (table_of 0x4000 [NULL_ENTRY], m')
  ∧ add_entry (table_of 0x4000 [NULL_ENTRY]) high_tss m' = Done (Ok (), g, m'') ∧ gdt_length g = 16 ∧ ram m'' !! 0x4018 = None.
Proof.
  intros MA. split; [by vm_compute|]. assert (HL : linear_addresses 0x4000 64) by (apply VirtAddr_linear; lia).
  destruct (new_image 0x4000 HL {| ram := ∅; gdtr := (0, 0) |}) as (m' & E & R & _).
  destruct (add_entry_writes_low_half 0x4000 [NULL_ENTRY] high_tss m' ∅ HL) as (g & m'' & E' & L & _ & R'); [simpl; lia|by vm_compute|exact R|].
  exists g, m', m''. split; [exact E|]. split; [exact E'|]. split; [exact L|]. rewrite R'. by vm_compute.
Defined.

(** Segment types and their bytes.  Every type is read back from the byte it is
    converted to, except the conforming, readable, accessed code segment: its
    discriminant is declared without the bit of code and data segments, so that
    its own byte is not valid, and that of a trap gate gives it. *)
Theorem segment_type_bytes :
  (∀ t : DataSegmentType, from_byte (convert t) = Done (Some t))
  ∧ (∀ t : SystemSegmentType, from_byte (convert t) = Done (Some t))
  ∧ (∀ t : CodeSegmentType, from_byte (convert t) = if decide (t = ExecuteReadConformingAccessed) then Faulted else Done (Some t))
  ∧ from_byte (convert SysTrapGate) = Done (Some ExecuteReadConformingAccessed).
Proof. split_and!; [intros []..|]; vm_compute; reflexivity. Qed.
