(* ===== verification/Ata.v ===== *)
(** The ATA driver in PIO mode (src/drivers/ide/{ata_pio,ata_command}.rs): commands,
    the interrupt handler, reads and writes of sectors, over the ports of Ports.v.

    Waiting for a request is waiting for the interrupts of the drive: the class
    [IntLine] says when the drive asks for one. *)

From S2P Require Import Prelude Partitions Addr Ports Bitfield.

(** * Commands and results *)

Inductive AtaCommand :=
  | AtaCheckPowerMode | AtaConfigureStream | AtaDataSetMgmt | AtaDeviceReset | AtaDownloadMicrocode
  | AtaDownloadMicrocodeDma | AtaExecuteDeviceDiagnostic | AtaFlushCache | AtaFlushCacheExt | AtaIdentifyDevice
  | AtaIdentifyPacket | AtaIdle | AtaIdleImmediate | AtaNcqQueueMgmt | AtaNop | AtaPacket | AtaReadBuffer
  | AtaReadBufferDma | AtaReadDma | AtaReadDmaExt | AtaReadFpdmaQueued | AtaReadLogExt | AtaReadLogDmaExt
  | AtaReadMultiple | AtaReadMultipleExt | AtaReadSectors | AtaReadSectorsExt | AtaWriteSectors | AtaWriteSectorsExt
  | AtaWriteMultipleExt | AtaSetMultipleMode.
Definition discriminant (c : AtaCommand) : Z :=
  match c with
  | AtaCheckPowerMode => 0xE5 | AtaConfigureStream => 0x51 | AtaDataSetMgmt => 0x06 | AtaDeviceReset => 0x08
  | AtaDownloadMicrocode => 0x92 | AtaDownloadMicrocodeDma => 0x93 | AtaExecuteDeviceDiagnostic => 0x90
  | AtaFlushCache => 0xE7 | AtaFlushCacheExt => 0xEA | AtaIdentifyDevice => 0xEC | AtaIdentifyPacket => 0xA1
  | AtaIdle => 0xE3 | AtaIdleImmediate => 0xE1 | AtaNcqQueueMgmt => 0x63 | AtaNop => 0x00 | AtaPacket => 0xA0
  | AtaReadBuffer => 0xE4 | AtaReadBufferDma => 0xE9 | AtaReadDma => 0xC8 | AtaReadDmaExt => 0x25
  | AtaReadFpdmaQueued => 0x60 | AtaReadLogExt => 0x2F | AtaReadLogDmaExt => 0x47 | AtaReadMultiple => 0xC4
  | AtaReadMultipleExt => 0x29 | AtaReadSectors => 0x20 | AtaReadSectorsExt => 0x24 | AtaWriteSectors => 0x30
  | AtaWriteSectorsExt => 0x34 | AtaWriteMultipleExt => 0x39 | AtaSetMultipleMode => 0xC6
  end.

Inductive AtaErrorCode :=
  | CommandAbort | DriveNotPresent | InvalidBufferSize | InvalidAtaCommand | BadBlock | Generic | DriveFault.
Record AtaError := { code : AtaErrorCode; err_lba : Z }.
Inductive AtaResult := AtaSuccess | AtaFailure (e : AtaError).
Record AtaIoResult := { io_result : AtaResult; io_command : AtaCommand; io_data : option (list Z) }.
Inductive AtaTransferDirection := DirRead | DirWrite.
Inductive AtaAddressingMode := Lba24 | Lba48.

(** * The identification of a drive: 256 words *)

Definition AtaIdentify : Type := list Z.
Definition id_word (d : AtaIdentify) (i : nat) : Z := nth i d 0.
Definition addressing_mode (d : AtaIdentify) : AtaAddressingMode :=
  if bool_decide (Z.land (Z.shiftr (id_word d 83) 10) 1 = 0) then Lba24 else Lba48.
Definition queue_depth (d : AtaIdentify) : Z := u8 (u8 (Z.land (id_word d 75) 0x1f) + 1).
Definition minimum_multiword_dma_transfer_cycle_time_per_word (d : AtaIdentify) : Z := id_word d 65.
Definition maximum_count_logical_sectors_per_drq (d : AtaIdentify) : Z := u8 (Z.land (id_word d 47) 0xff).
Definition logical_sectors_per_drq (d : AtaIdentify) : outcome Z := low_bits u16_u8 (id_word d 59).
Definition logical_physical_relationship_supported (d : AtaIdentify) : bool :=
  bool_decide (Z.land (id_word d 106) (Z.shiftl 1 13) ≠ 0).
Definition logical_sectors_per_physical_sector (d : AtaIdentify) : Z :=
  if negb (logical_physical_relationship_supported d) then 1
  else shl_w 8 1 (u8 (Z.land (id_word d 106) 0xf)).
Inductive ATAMediaRotationRate := NonRotating | Rotating (speed : Z) | NotReported.
Definition nominal_rotation_rate (d : AtaIdentify) : ATAMediaRotationRate :=
  let speed := id_word d 217 in
  if bool_decide (speed = 0x0001) then NonRotating
  else if bool_decide (0x0401 ≤ speed < 0xFFFE) then Rotating speed else NotReported.
Definition logical_sector_size (d : AtaIdentify) : Z :=
  if bool_decide (Z.land (id_word d 106) (Z.shiftl 1 12) ≠ 0) then Z.lor (u32 (Z.shiftl (id_word d 118) 16)) (id_word d 117)
  else 0x200.
Definition maximum_addressable_lba (d : AtaIdentify) : Z :=
  let max_lba := Z.lor (u32 (Z.shiftl (id_word d 61) 16)) (id_word d 60) in
  if bool_decide (max_lba = 0x0fffffff) && bool_decide (Z.land (id_word d 69) 8 ≠ 0) then
    Z.lor (Z.lor (Z.lor (u64 (Z.shiftl (id_word d 233) 48)) (u64 (Z.shiftl (id_word d 232) 32)))
      (u64 (Z.shiftl (id_word d 231) 16))) (id_word d 230)
  else max_lba.
Inductive SizeFormat := Bytes | Kilobytes | Megabytes | Gigabytes | Terabytes.
Definition device_size (d : AtaIdentify) (format : SizeFormat) : Z :=
  let bytes_size := u64 (maximum_addressable_lba d * logical_sector_size d) in
  match format with
  | Bytes => bytes_size
  | Kilobytes => Z.shiftr bytes_size 10
  | Megabytes => Z.shiftr bytes_size 20
  | Gigabytes => Z.shiftr bytes_size 30
  | Terabytes => Z.shiftr bytes_size 40
  end.
(** The strings, as bytes: each word has its first character in its high byte. *)
Definition word_bytes (w : Z) : list Z := [u8 (Z.land (Z.shiftr w 8) 0xff); u8 (Z.land w 0xff)].
Definition id_string (d : AtaIdentify) (first last : nat) : list Z :=
  concat (map (λ i, word_bytes (id_word d i)) (seq first (last - first))).
Definition media_serial_number (d : AtaIdentify) : list Z := id_string d 176 206.
Definition model_number (d : AtaIdentify) : list Z := id_string d 27 47.
Definition serial_number (d : AtaIdentify) : list Z := id_string d 10 20.
Definition firmware_revision (d : AtaIdentify) : list Z := id_string d 23 27.

(** * Requests and the device *)

(** The closures that are given as [on_completion]; none is given as [callback]. *)
Inductive AtaCommandCallback := OnIdentify | OnSetMultiple (sectors_per_drq : Z).
Record AtaCommandRequest := {
  command : AtaCommand; data_size : Z; transfer_blk_size : Z; direction : AtaTransferDirection;
  callback : option AtaCommandCallback; completion : option AtaCommandCallback; buffer : option (list Z);
  io_req : option nat; req_err : option AtaError
}.
Definition request_new (c : AtaCommand) (size : Z) : AtaCommandRequest :=
  {| command := c; data_size := size; transfer_blk_size := 0x200; direction := DirRead; callback := None;
     completion := None; buffer := None; io_req := None; req_err := None |}.
Definition with_direction (r : AtaCommandRequest) (x : AtaTransferDirection) : AtaCommandRequest :=
  {| command := command r; data_size := data_size r; transfer_blk_size := transfer_blk_size r; direction := x;
     callback := callback r; completion := completion r; buffer := buffer r; io_req := None; req_err := None |}.
Definition with_data_buffer (r : AtaCommandRequest) (x : list Z) : AtaCommandRequest :=
  {| command := command r; data_size := data_size r; transfer_blk_size := transfer_blk_size r; direction := direction r;
     callback := callback r; completion := completion r; buffer := Some x; io_req := None; req_err := None |}.
Definition with_callback (r : AtaCommandRequest) (x : AtaCommandCallback) : AtaCommandRequest :=
  {| command := command r; data_size := data_size r; transfer_blk_size := transfer_blk_size r; direction := direction r;
     callback := Some x; completion := completion r; buffer := buffer r; io_req := None; req_err := None |}.
Definition with_transfer_blk_size (r : AtaCommandRequest) (x : Z) : AtaCommandRequest :=
  {| command := command r; data_size := data_size r; transfer_blk_size := x; direction := direction r;
     callback := callback r; completion := completion r; buffer := buffer r; io_req := None; req_err := None |}.
Definition on_completion (r : AtaCommandRequest) (x : AtaCommandCallback) : AtaCommandRequest :=
  {| command := command r; data_size := data_size r; transfer_blk_size := transfer_blk_size r; direction := direction r;
     callback := callback r; completion := Some x; buffer := buffer r; io_req := None; req_err := None |}.
Definition link_to_ioreq (r : AtaCommandRequest) (x : nat) : AtaCommandRequest :=
  {| command := command r; data_size := data_size r; transfer_blk_size := transfer_blk_size r; direction := direction r;
     callback := callback r; completion := completion r; buffer := buffer r; io_req := Some x; req_err := None |}.
(** The fields that the interrupt handler changes in place. *)
Definition set_progress (r : AtaCommandRequest) (size : Z) (buf : option (list Z)) (e : option AtaError) : AtaCommandRequest :=
  {| command := command r; data_size := size; transfer_blk_size := transfer_blk_size r; direction := direction r;
     callback := callback r; completion := completion r; buffer := buf; io_req := io_req r; req_err := e |}.

(** A request is shared by the caller and the queue of the device: the store of
    requests has, for each, whether it has completed and its result. *)
Record AtaDevice := {
  io_base : Z; ctrl_base : Z; is_slave : bool; busy : bool; sector_sz : Z; command_queue : option AtaCommandRequest;
  identify_data : AtaIdentify; sectors_per_drq : Z; requests : list (bool * option AtaIoResult)
}.
Definition set_busy (a : AtaDevice) (b : bool) : AtaDevice :=
  {| io_base := io_base a; ctrl_base := ctrl_base a; is_slave := is_slave a; busy := b; sector_sz := sector_sz a;
     command_queue := command_queue a; identify_data := identify_data a; sectors_per_drq := sectors_per_drq a;
     requests := requests a |}.
Definition set_queue (a : AtaDevice) (q : option AtaCommandRequest) : AtaDevice :=
  {| io_base := io_base a; ctrl_base := ctrl_base a; is_slave := is_slave a; busy := busy a; sector_sz := sector_sz a;
     command_queue := q; identify_data := identify_data a; sectors_per_drq := sectors_per_drq a; requests := requests a |}.
Definition set_identity (a : AtaDevice) (d : AtaIdentify) (sz : Z) : AtaDevice :=
  {| io_base := io_base a; ctrl_base := ctrl_base a; is_slave := is_slave a; busy := busy a; sector_sz := sz;
     command_queue := command_queue a; identify_data := d; sectors_per_drq := sectors_per_drq a; requests := requests a |}.
Definition set_drq (a : AtaDevice) (n : Z) : AtaDevice :=
  {| io_base := io_base a; ctrl_base := ctrl_base a; is_slave := is_slave a; busy := busy a; sector_sz := sector_sz a;
     command_queue := command_queue a; identify_data := identify_data a; sectors_per_drq := n; requests := requests a |}.
Definition set_requests (a : AtaDevice) (rs : list (bool * option AtaIoResult)) : AtaDevice :=
  {| io_base := io_base a; ctrl_base := ctrl_base a; is_slave := is_slave a; busy := busy a; sector_sz := sector_sz a;
     command_queue := command_queue a; identify_data := identify_data a; sectors_per_drq := sectors_per_drq a; requests := rs |}.
Definition may_expect_irq (a : AtaDevice) : bool := busy a.

(** [for w in &mut identify_data]: two bytes removed from the front for each word;
    removing from an empty vector panics. *)
Fixpoint take_words (n : nat) (buf : list Z) : outcome (list Z * list Z) :=
  match n, buf with
  | O, _ => Done ([], buf)
  | S n, lo :: hi :: buf => '(ws, buf) ← take_words n buf; Done (lo + 256 * hi :: ws, buf)
  | S _, _ => Panicked
  end.
Definition run_callback (c : AtaCommandCallback) (a : AtaDevice) (buf : option (list Z)) :
    outcome (result unit AtaErrorCode * AtaDevice * option (list Z)) :=
  match c with
  | OnSetMultiple n => Done (Ok (), set_drq a n, buf)
  | OnIdentify =>
      match buf with
      | None => Done (Err InvalidAtaCommand, a, buf)
      | Some b =>
          '(ws, b) ← take_words 256 b;
          Done (Ok (), set_identity a ws (logical_sector_size ws), Some b)
      end
  end.

(** * Registers *)

Definition ErrorRegister : list Z := replicate 8 1.
Definition StatusRegister : list Z := replicate 8 1.
Definition ControlRegister : list Z := [1; 1; 1; 4; 1].

(** The line by which the drive asks for an interrupt. *)
Class IntLine (D : Type) := { int_pending : D → bool }.

Section driver.
Context `{MB : ModularBitfield} {D : Type} `{PB : PortBus D} `{IL : IntLine D}.
Implicit Types (a : AtaDevice) (d : D).

(** The trait [AtaRegister]. *)
Definition read_byte (BASE_OFFSET port : Z) d : Z * D := inb (IOPort_add port BASE_OFFSET) d.
Definition read_alternate_byte (port : Z) d : Z * D := inb port d.
Definition register_write (BASE_OFFSET port data : Z) d : D := outb (IOPort_add port BASE_OFFSET) data d.
Definition flag (ws : list Z) (i : nat) (x : Z) : bool := bool_decide (bf_get ws i x = 1).
Definition st_err := flag StatusRegister 0.
Definition st_drq := flag StatusRegister 3.
Definition st_drive_fault := flag StatusRegister 5.
Definition st_bsy := flag StatusRegister 7.
Definition err_abrt := flag ErrorRegister 2.
Definition err_bbk := flag ErrorRegister 7.

Definition enable_irq a d : D := register_write 0 (ctrl_base a) 0 d.
Definition disable_irq a d : outcome D :=
  x ← bf_with ControlRegister 1 1 0; Done (register_write 0 (ctrl_base a) x d).
Definition read_data_port a d : Z * D := inw (io_base a) d.
Definition write_data_port a (data : Z) d : D := outw (io_base a) data d.

Definition set_sectors_count a (count : Z) d : outcome D :=
  match addressing_mode (identify_data a) with
  | Lba24 => lo ← low_bits u16_u8 count; Done (outb (IOPort_add (io_base a) 2) lo d)
  | Lba48 =>
      hi ← high_bits u16_u8 count;
      let d := outb (IOPort_add (io_base a) 2) hi d in
      lo ← low_bits u16_u8 count;
      Done (outb (IOPort_add (io_base a) 2) lo d)
  end.
(** One byte of the address to a register. *)
Definition out_lba_byte a (reg lba shift : Z) d : outcome D :=
  b ← low_bits u64_u8 (Z.shiftr lba shift); Done (outb (IOPort_add (io_base a) reg) b d).
Definition set_lba a (lba : Z) d : outcome D :=
  match addressing_mode (identify_data a) with
  | Lba24 => d ← out_lba_byte a 3 lba 0 d; d ← out_lba_byte a 4 lba 8 d; out_lba_byte a 5 lba 16 d
  | Lba48 =>
      let d := outb (IOPort_add (io_base a) 6) 0x40 d in
      d ← out_lba_byte a 3 lba 24 d; d ← out_lba_byte a 4 lba 32 d; d ← out_lba_byte a 5 lba 40 d;
      d ← out_lba_byte a 3 lba 0 d; d ← out_lba_byte a 4 lba 8 d; out_lba_byte a 5 lba 16 d
  end.
Definition read_lba a d : outcome (Z * D) :=
  match addressing_mode (identify_data a) with
  | Lba24 =>
      let '(low_b, d) := inb (io_base a) d in
      let '(mid_b, d) := inb (io_base a) d in
      let '(high_b, d) := inb (io_base a) d in
      Done (Z.lor (Z.lor low_b (Z.shiftl low_b 8)) (Z.shiftl low_b 16), d)
  | Lba48 =>
      let d := outb (IOPort_add (io_base a) 6) 0x40 d in
      let '(b1, d) := inb (IOPort_add (io_base a) 3) d in
      let '(b2, d) := inb (IOPort_add (io_base a) 4) d in
      let '(b3, d) := inb (IOPort_add (io_base a) 5) d in
      x ← bf_with ControlRegister 4 1 0;
      let d := register_write 0 (ctrl_base a) x d in
      let '(b4, d) := inb (IOPort_add (io_base a) 3) d in
      let '(b5, d) := inb (IOPort_add (io_base a) 4) d in
      let '(b6, d) := inb (IOPort_add (io_base a) 5) d in
      let d := register_write 0 (ctrl_base a) 0 d in
      Done (of_le [b1; b2; b3; b4; b5; b6; 0; 0], d)
  end.

(** * The interrupt handler *)

Fixpoint read_words (n : nat) a (buf : list Z) d : outcome (list Z * D) :=
  match n with
  | O => Done (buf, d)
  | S n =>
      let '(w, d) := read_data_port a d in
      lo ← low_bits u16_u8 w;
      hi ← high_bits u16_u8 w;
      read_words n a (buf ++ [lo; hi]) d
  end.
(** [u16::from_le_bytes] of the next two bytes, for each word; running out of bytes
    panics. *)
Fixpoint write_words (n : nat) a (buf : list Z) d : outcome D :=
  match n, buf with
  | O, _ => Done d
  | S n, lo :: hi :: buf => write_words n a buf (write_data_port a (lo + 256 * hi) d)
  | S _, _ => Panicked
  end.
(** The transfer of one block. *)
Definition transfer a (q : AtaCommandRequest) (transfer_size : Z) d : outcome (option (list Z) * D) :=
  match direction q, buffer q with
  | _, None => Done (None, d)
  | DirRead, Some buf =>
      '(buf, d) ← read_words (Z.to_nat (Z.shiftr transfer_size 1)) a buf d;
      Done (Some buf, d)
  | DirWrite, Some buf =>
      rust_assert (bool_decide (transfer_size ≤ Z.of_nat (length buf)));;
      d ← write_words (Z.to_nat (Z.shiftr transfer_size 1)) a (take (Z.to_nat transfer_size) buf) d;
      Done (Some (drop (Z.to_nat transfer_size) buf), d)
  end.
(** The first part: the callback and the transfer of a block of the command in the
    queue. *)
Definition irq_transfer a (q : AtaCommandRequest) d : outcome (AtaDevice * D) :=
  '(a, q, d) ← (
    match callback q with
    | None => Done (a, q, d)
    | Some c =>
        '(r, a, buf) ← run_callback c a (buffer q);
        match r with
        | Ok _ => Done (a, set_progress q (data_size q) buf (req_err q), d)
        | Err e => '(l, d) ← read_lba a d;
                   Done (a, set_progress q (data_size q) buf (Some {| code := e; err_lba := l |}), d)
        end
    end);
  let transfer_size := Z.min (data_size q) (transfer_blk_size q) in
  let q := set_progress q (data_size q - transfer_size) (buffer q) (req_err q) in
  let '(status, d) := read_alternate_byte (ctrl_base a) d in
  if st_drq status then
    '(buf, d) ← transfer a q transfer_size d;
    Done (set_queue a (Some (set_progress q (data_size q) buf (req_err q))), d)
  else Done (set_queue a (Some q), d).
(** The end of a command. *)
Definition irq_complete a (status : Z) d : outcome (AtaDevice * D) :=
  q ← unwrap (command_queue a);
  let a := set_queue a None in
  '(e, d) ← (
    if st_err status then
      let '(err_reg, d) := read_byte 1 (io_base a) d in
      '(l, d) ← read_lba a d;
      Done (Some {| code := if err_abrt err_reg then CommandAbort else if err_bbk err_reg then BadBlock else Generic;
                    err_lba := l |}, d)
    else Done (req_err q, d));
  '(e, d) ← (
    if st_drive_fault status then '(l, d) ← read_lba a d; Done (Some {| code := DriveFault; err_lba := l |}, d)
    else Done (e, d));
  '(e, buf, a, d) ← (
    match completion q with
    | None => Done (e, buffer q, a, d)
    | Some c =>
        '(r, a, buf) ← run_callback c a (buffer q);
        match r with
        | Ok _ => Done (e, buf, a, d)
        | Err x => '(l, d) ← read_lba a d; Done (Some {| code := x; err_lba := l |}, buf, a, d)
        end
    end);
  let res := {| io_result := match e with Some err => AtaFailure err | None => AtaSuccess end;
                io_command := command q; io_data := buf |} in
  a ← (
    match io_req q with
    | None => Done a
    | Some k =>
        (* the exchange from false to true is retried until it succeeds *)
        match requests a !! k with
        | Some (false, _) => Done (set_requests a (<[k := (true, Some res)]> (requests a)))
        | _ => NoFuel
        end
    end);
  if busy a then Done (set_busy a false, d) else NoFuel.
Definition handle_irq a d : outcome (AtaDevice * D) :=
  let '(_, d) := read_byte 7 (io_base a) d in
  match command_queue a with
  | None => Done (a, d)
  | Some q =>
      '(a, d) ← irq_transfer a q d;
      let '(status, d) := read_alternate_byte (ctrl_base a) d in
      if negb (st_bsy status) && negb (st_drq status) then irq_complete a status d else Done (a, d)
  end.
(** [ata_irq_entry], with this device registered. *)
Definition ata_irq_entry a d : outcome (AtaDevice * D) :=
  if may_expect_irq a then handle_irq a d else Done (a, d).

(** * Waiting *)

(** A spin loop, interrupted when the drive asks for it: [fuel] turns. *)
Fixpoint spin_until (cond : AtaDevice → bool) (fuel : nat) a d : outcome (AtaDevice * D) :=
  if cond a then Done (a, d)
  else
    match fuel with
    | O => NoFuel
    | S fuel =>
        '(a, d) ← (if int_pending d then ata_irq_entry a d else Done (a, d));
        spin_until cond fuel a d
    end.
Definition completed (k : nat) a : bool := match requests a !! k with Some (b, _) => b | None => false end.
(** [AtaIoRequest::complete]. *)
Definition complete (fuel : nat) (k : nat) a d : outcome (AtaIoResult * AtaDevice * D) :=
  '(a, d) ← spin_until (completed k) fuel a d;
  match requests a !! k with
  | Some (_, Some r) => Done (r, a, d)
  | _ => Panicked
  end.

Definition send_ata_command (fuel : nat) (c : AtaCommandRequest) a d : outcome (nat * AtaDevice * D) :=
  '(a, d) ← spin_until (λ a, negb (busy a)) fuel a d;
  let a := set_busy a true in
  let k := length (requests a) in
  let a := set_requests a (requests a ++ [(false, None)]) in
  let command_byte := discriminant (command c) in
  let a := set_queue a (Some (link_to_ioreq c k)) in
  let '(drive_reg, d) := inb (IOPort_add (io_base a) 6) d in
  let drive_reg := if is_slave a then Z.lor drive_reg (Z.shiftl 1 4) else drive_reg in
  let d := outb (IOPort_add (io_base a) 6) drive_reg d in
  let d := outb (IOPort_add (io_base a) 7) command_byte d in
  Done (k, a, d).
(** A request made complete: [AtaIoRequest::new(AtomicBool::new(true))] with its
    result. *)
Definition finished_request (r : AtaIoResult) a : nat * AtaDevice :=
  (length (requests a), set_requests a (requests a ++ [(true, Some r)])).

(** * Reading and writing sectors *)

(** [u16::try_from(..).expect(..)]. *)
Definition expect_u16 (z : Z) : outcome Z := if bool_decide (in_width 16 z) then Done z else Panicked.

(** The loop of reads of at most 255 sectors. *)
Fixpoint read24_loop (turns fuel : nat) (start_lba count remaining : Z) (buf : list Z) a d :
    outcome (option AtaError * list Z * AtaDevice * D) :=
  if bool_decide (remaining = 0) then Done (None, buf, a, d)
  else
    match turns with
    | O => NoFuel
    | S turns =>
        let n := Z.min 0xff remaining in
        d ← set_lba a (u64 (start_lba + (count - remaining))) d;
        d ← set_sectors_count a n d;
        '(k, a, d) ← send_ata_command fuel (with_data_buffer (request_new AtaReadSectors (u64 (n * sector_sz a))) []) a d;
        '(r, a, d) ← complete fuel k a d;
        match io_result r with
        | AtaFailure err => Done (Some err, buf, a, d)
        | AtaSuccess =>
            match io_data r with
            | Some req_buf => read24_loop turns fuel start_lba count (remaining - n) (buf ++ req_buf) a d
            | None => '(l, d) ← read_lba a d; Done (Some {| code := InvalidBufferSize; err_lba := l |}, buf, a, d)
            end
        end
    end.
Definition result_of (e : option AtaError) : AtaResult := match e with Some err => AtaFailure err | None => AtaSuccess end.
Definition ata_read (fuel : nat) (start_lba sectors_count : Z) a d : outcome (nat * AtaDevice * D) :=
  d ← set_lba a start_lba d;
  d ← set_sectors_count a sectors_count d;
  match addressing_mode (identify_data a) with
  | Lba24 =>
      '(e, buf, a, d) ← read24_loop (S (Z.to_nat sectors_count)) fuel start_lba sectors_count sectors_count [] a d;
      let '(k, a) := finished_request {| io_result := result_of e; io_command := AtaReadSectors; io_data := Some buf |} a in
      Done (k, a, d)
  | Lba48 =>
      let ata_cmd := if bool_decide (sectors_per_drq a = 0) then AtaReadSectorsExt else AtaReadMultipleExt in
      sz ← expect_u16 (sector_sz a);
      let blk := Z.max 0x200 (u16 (sectors_per_drq a * sz)) in
      send_ata_command fuel
        (with_data_buffer (with_transfer_blk_size (request_new ata_cmd (u64 (sectors_count * sector_sz a))) blk) []) a d
  end.

(** [data.drain(from..to).collect()]: out of range, it panics. *)
Definition drain (data : list Z) (from to : Z) : outcome (list Z * list Z) :=
  if bool_decide (0 ≤ from ≤ to ∧ to ≤ Z.of_nat (length data)) then
    Done (take (Z.to_nat (to - from)) (drop (Z.to_nat from) data), take (Z.to_nat from) data ++ drop (Z.to_nat to) data)
  else Panicked.
Fixpoint write24_loop (turns fuel : nat) (start_lba count remaining : Z) (data : list Z) a d :
    outcome (option AtaError * AtaDevice * D) :=
  if bool_decide (remaining = 0) then Done (None, a, d)
  else
    match turns with
    | O => NoFuel
    | S turns =>
        let n := Z.min 0xff remaining in
        d ← set_lba a (u64 (start_lba + (count - remaining))) d;
        d ← set_sectors_count a n d;
        '(chunk, data) ← drain data ((count - remaining) * sector_sz a) (u16 (u16 (count + 1) - remaining) * sector_sz a);
        '(k, a, d) ← send_ata_command fuel
          (with_direction (with_data_buffer (request_new AtaWriteSectors (u64 (n * sector_sz a))) chunk) DirWrite) a d;
        '(r, a, d) ← complete fuel k a d;
        match io_result r with
        | AtaFailure err => Done (Some err, a, d)
        | AtaSuccess => write24_loop turns fuel start_lba count (remaining - n) data a d
        end
    end.
Definition ata_write (fuel : nat) (start_lba sectors_count : Z) (data : list Z) a d : outcome (nat * AtaDevice * D) :=
  d ← set_lba a start_lba d;
  d ← set_sectors_count a sectors_count d;
  let sz := Z.to_nat (sector_sz a) in
  let initial_sector := resize sz 0 (take sz data) in
  let data := drop sz data in
  '(k, a, d) ← (
    match addressing_mode (identify_data a) with
    | Lba24 =>
        '(e, a, d) ← write24_loop (S (Z.to_nat sectors_count)) fuel start_lba sectors_count sectors_count data a d;
        let '(k, a) := finished_request {| io_result := result_of e; io_command := AtaWriteSectors; io_data := Some [] |} a in
        Done (k, a, d)
    | Lba48 =>
        let ata_cmd := if bool_decide (sectors_per_drq a = 0) then AtaWriteSectorsExt else AtaWriteMultipleExt in
        sz ← expect_u16 (sector_sz a);
        let blk := Z.max 0x200 (u16 (sectors_per_drq a * sz)) in
        send_ata_command fuel
          (with_direction (with_data_buffer (with_transfer_blk_size (request_new ata_cmd (u64 (sectors_count * sector_sz a))) blk)
            data) DirWrite) a d
    end);
  d ← write_words (Z.to_nat (Z.shiftr (sector_sz a) 1)) a initial_sector d;
  Done (k, a, d).

Definition identify (fuel : nat) a d : outcome (AtaDevice * D) :=
  '(k, a, d) ← send_ata_command fuel (on_completion (with_data_buffer (request_new AtaIdentifyDevice 512) []) OnIdentify) a d;
  '(_, a, d) ← complete fuel k a d;
  Done (a, d).
Definition set_sectors_per_drq (fuel : nat) (n : Z) a d : outcome (AtaDevice * D) :=
  d ← set_sectors_count a n d;
  '(k, a, d) ← send_ata_command fuel (on_completion (request_new AtaSetMultipleMode 0) (OnSetMultiple n)) a d;
  '(_, a, d) ← complete fuel k a d;
  Done (a, d).
(** [init], up to the registration of the device and the reading of its partition
    table. *)
Definition ata_init (fuel : nat) (io ctrl : Z) (slave : bool) d : outcome (result AtaDevice AtaErrorCode * D) :=
  let d := if slave then outb (IOPort_add io 6) (Z.shiftl 1 4) d else d in
  let '(status, d) := read_byte 7 io d in
  if bool_decide (status = 0xFF) || bool_decide (status = 0) then Done (Err DriveNotPresent, d)
  else
    let a := {| io_base := io; ctrl_base := ctrl; is_slave := slave; busy := false; sector_sz := 0; command_queue := None;
                identify_data := replicate 256 0; sectors_per_drq := 0; requests := [] |} in
    let d := enable_irq a d in
    '(a, d) ← identify fuel a d;
    Done (Ok a, d).
End driver.
