(* ===== verification/AtaSpec.v ===== *)
(** What the ATA driver does to a drive: a PIO drive behind the ports of the
    primary channel, and the reads and writes of Ata.v on it. *)

From S2P Require Import Prelude Partitions Addr Ports Bitfield Ata.

(** * A drive

    The registers and the PIO protocols, as the ATA standard describes them.  The
    address and count registers hold their last two values.  A drive that works is
    busy, and asks for an interrupt when it has done: before each sector of a
    data-in command, after each sector of a data-out command.  It is busy until the
    status register is read, which is what the interrupt is answered with; the
    status at the control port can be read while it works.

    A data-out command makes the drive busy too; when it is ready for the first
    sector it sets DRQ, without an interrupt.  How long that takes is [lag], counted
    in accesses of the data and status ports: 0 for a drive that is ready by the time the
    host comes to the data port.  What is written to the data port before is lost. *)
Inductive phase :=
  | Quiet
  | DataIn (words : list Z) (next_lba more : Z)
  | Preparing (wait : nat) (lba more : Z)
  | DataOut (words : list Z) (lba more : Z).
Record drive := {
  sector : Z → list Z; n_sectors : Z; identity : list Z; lag : nat; count_reg : Z * Z; low_reg : Z * Z; mid_reg : Z * Z;
  high_reg : Z * Z; select_reg : Z; control_reg : Z; state : phase; working : bool; error_reg : Z
}.
(** The fields that change while a command runs. *)
Definition proceed (s : Z → list Z) (p : phase) (i : bool) (e : Z) (v : drive) : drive :=
  {| sector := s; n_sectors := n_sectors v; identity := identity v; lag := lag v; count_reg := count_reg v; low_reg := low_reg v;
     mid_reg := mid_reg v; high_reg := high_reg v; select_reg := select_reg v; control_reg := control_reg v;
     state := p; working := i; error_reg := e |}.
Definition set_regs (c l m h : Z * Z) (s k : Z) (v : drive) : drive :=
  {| sector := sector v; n_sectors := n_sectors v; identity := identity v; lag := lag v; count_reg := c; low_reg := l;
     mid_reg := m; high_reg := h; select_reg := s; control_reg := k;
     state := state v; working := working v; error_reg := error_reg v |}.
Definition push_reg (b : Z) (r : Z * Z) : Z * Z := (b, r.1).
Definition lba48 (v : drive) : Z := of_le [(low_reg v).1; (mid_reg v).1; (high_reg v).1; (low_reg v).2; (mid_reg v).2; (high_reg v).2].
Definition count48 (v : drive) : Z := let c := of_le [(count_reg v).1; (count_reg v).2] in if bool_decide (c = 0) then 65536 else c.
Definition is_busy (v : drive) : bool := working v || match state v with Preparing _ _ _ => true | _ => false end.
Definition status_of (v : drive) : Z :=
  if is_busy v then 0x80
  else (if bool_decide (error_reg v = 0) then 0 else 1) + match state v with Quiet => 0 | _ => 8 end + 0x40.

Definition in_next (v : drive) (lba more : Z) : drive :=
  if bool_decide (more = 0) then proceed (sector v) Quiet false 0 v
  else proceed (sector v) (DataIn (sector v lba) (lba + 1) (more - 1)) true 0 v.
Definition out_next (v : drive) (words : list Z) (lba more : Z) : drive :=
  if bool_decide (length words < 256)%nat then proceed (sector v) (DataOut words lba more) false 0 v
  else
    proceed (λ l, if bool_decide (l = lba) then words else sector v l)
      (if bool_decide (more = 1) then Quiet else DataOut [] (lba + 1) (more - 1)) true 0 v.
(** A data-out command, [wait] accesses before it is ready; an access. *)
Definition prepare (wait : nat) (lba more : Z) : phase :=
  match wait with O => DataOut [] lba more | S wait => Preparing wait lba more end.
Definition tick (v : drive) : drive :=
  match state v with Preparing wait lba more => proceed (sector v) (prepare wait lba more) (working v) (error_reg v) v | _ => v end.
(** A command; the error 4 is that it is aborted. *)
Definition run_command (c : Z) (v : drive) : drive :=
  let ok := bool_decide (lba48 v + count48 v ≤ n_sectors v) in
  if bool_decide (c = 0x24) && ok then in_next v (lba48 v) (count48 v)
  else if bool_decide (c = 0x34) && ok then proceed (sector v) (prepare (lag v) (lba48 v) (count48 v)) false 0 v
  else if bool_decide (c = 0xEC) then proceed (sector v) (DataIn (identity v) 0 0) true 0 v
  else proceed (sector v) Quiet true 4 v.

Definition old_bytes (v : drive) (r : Z * Z) : Z := if Z.testbit (control_reg v) 7 then r.2 else r.1.
#[global] Instance drive_bus : PortBus drive := {|
  out_port n p b v :=
    let '(c, l, m, h, s, k) := (count_reg v, low_reg v, mid_reg v, high_reg v, select_reg v, control_reg v) in
    if bool_decide (p = 0x1F0) then
      match working v, state v with false, DataOut ws lba more => out_next v (ws ++ [b]) lba more | _, _ => tick v end
    else if bool_decide (p = 0x1F2) then set_regs (push_reg b c) l m h s k v
    else if bool_decide (p = 0x1F3) then set_regs c (push_reg b l) m h s k v
    else if bool_decide (p = 0x1F4) then set_regs c l (push_reg b m) h s k v
    else if bool_decide (p = 0x1F5) then set_regs c l m (push_reg b h) s k v
    else if bool_decide (p = 0x1F6) then set_regs c l m h b k v
    else if bool_decide (p = 0x1F7) then (if Z.testbit s 4 then v else run_command b v)
    else if bool_decide (p = 0x3F6) then set_regs c l m h s b v
    else v;
  in_port n p v :=
    if bool_decide (p = 0x1F0) then
      match working v, state v with
      | false, DataIn [w] lba more => (w, in_next v lba more)
      | false, DataIn (w :: ws) lba more => (w, proceed (sector v) (DataIn ws lba more) false 0 v)
      | _, _ => (0, v)
      end
    else if bool_decide (p = 0x1F1) then (error_reg v, v)
    else if bool_decide (p = 0x1F2) then (old_bytes v (count_reg v), v)
    else if bool_decide (p = 0x1F3) then (old_bytes v (low_reg v), v)
    else if bool_decide (p = 0x1F4) then (old_bytes v (mid_reg v), v)
    else if bool_decide (p = 0x1F5) then (old_bytes v (high_reg v), v)
    else if bool_decide (p = 0x1F6) then (select_reg v, v)
    else if bool_decide (p = 0x1F7) then let v := proceed (sector v) (state v) false (error_reg v) v in (status_of v, tick v)
    else if bool_decide (p = 0x3F6) then (status_of v, tick v)
    else (0, v)
|}.
#[global] Instance drive_line : IntLine drive := {| int_pending v := working v && negb (Z.testbit (control_reg v) 1) |}.

(** A drive with sectors of 256 words. *)
Definition wf_sector (ws : list Z) : Prop := length ws = 256%nat ∧ Forall (in_width 16) ws.
Definition wf_drive (v : drive) : Prop := (∀ l, 0 ≤ l < n_sectors v → wf_sector (sector v l)) ∧ wf_sector (identity v).
(** It is idle, with its interrupts enabled. *)
Definition drive_idle (v : drive) : Prop := state v = Quiet ∧ working v = false ∧ control_reg v = 0.
(** The same drive, but for its registers. *)
Definition same_media (v v' : drive) : Prop :=
  sector v' = sector v ∧ n_sectors v' = n_sectors v ∧ identity v' = identity v ∧ lag v' = lag v.

(** The device of the driver for this drive, between commands, when the size of a
    sector is [sz]... *)
Definition device (sz : Z) (id : AtaIdentify) (rs : list (bool * option AtaIoResult)) : AtaDevice :=
  {| io_base := PRIM_ATA; ctrl_base := PRIM_ATA_CTRL; is_slave := false; busy := false; sector_sz := sz;
     command_queue := None; identify_data := id; sectors_per_drq := 0; requests := rs |}.
Abbreviation attached := (device 512).
(** ... and while it runs the command [q]. *)
Definition running_at (sz : Z) (id : AtaIdentify) (rs : list (bool * option AtaIoResult)) (q : AtaCommandRequest) : AtaDevice :=
  set_queue (set_busy (device sz id rs) true) (Some q).
Abbreviation running := (running_at 512).

(** The bytes of words, and of sectors. *)
Definition bytes_of (ws : list Z) : list Z := concat (map (le_bytes 2) ws).
Definition sectors_bytes (s : Z → list Z) (lba : Z) (n : nat) : list Z := concat (map (λ i, bytes_of (s (lba + Z.of_nat i))) (seq 0 n)).

(** * The registers *)

Lemma low_byte c x : c ∈ convertible_impls → dst_bits c = 8 → low_bits c x = Done (x mod 256).
Proof.
  intros Hc H8. unfold low_bits. rewrite convert_with_low_mask; [by rewrite H8|].
  pose proof convertible_impls_ok as Ok. rewrite Forall_forall in Ok. by apply Ok.
Qed.
Lemma low_byte_u64 x : low_bits u64_u8 x = Done (x mod 256).
Proof. apply low_byte; [unfold convertible_impls; set_solver|done]. Qed.
Lemma low_byte_u16 x : low_bits u16_u8 x = Done (x mod 256).
Proof. apply low_byte; [unfold convertible_impls; set_solver|done]. Qed.
Lemma high_byte_u16 x : in_width 16 x → high_bits u16_u8 x = Done (x / 256).
Proof.
  intros [H0 H1]. unfold high_bits. change (convert_with_mask u16_u8 ?x (LOW_BITS_MASK u16_u8)) with (low_bits u16_u8 x).
  change (SIZE_DIFF u16_u8) with 8. rewrite low_byte_u16, Z.shiftr_div_pow2 by lia. f_equal. change (2 ^ 8) with 256.
  change (2 ^ 16) with (256 * 256) in H1. apply Z.mod_small. split; [by apply Z.div_pos|by apply Z.div_lt_upper_bound].
Qed.

(** A flag of a register of eight is a bit. *)
Lemma flag_testbit `{ML : ModularBitfieldLaws} n i x : (i < n)%nat → flag (replicate n 1) i x = Z.testbit x (Z.of_nat i).
Proof.
  intros Hi. unfold flag.
  assert (Hw : Forall (Z.le 0) (replicate n 1)) by (apply Forall_replicate; lia).
  assert (Ho : bf_offset (replicate n 1) i = Z.of_nat i).
  { unfold bf_offset. rewrite take_replicate, Nat.min_l by lia. clear. induction i as [|i IH]; [done|].
    simpl. rewrite IH. lia. }
  rewrite (bf_get_eq _ i 1 (Z.of_nat i)) by (done || by apply lookup_replicate_2).
  unfold get_ref. rewrite Z.land_ones, Z.testbit_odd by lia. change (2 ^ 1) with 2.
  rewrite Zmod_odd. by destruct (Z.odd _).
Qed.

Section on_drive.
Context `{ML : ModularBitfieldLaws}.
Implicit Types (v : drive) (id : AtaIdentify) (rs : list (bool * option AtaIoResult)) (k : nat).

(** ** Transfers *)

Lemma read_words_in sz id rs q ws l m buf v : ws ≠ [] → Forall (in_width 16) ws → working v = false → state v = DataIn ws l m →
  read_words (length ws) (running_at sz id rs q) buf v = Done (buf ++ bytes_of ws, in_next v l m).
Proof.
  revert buf v. induction ws as [|w ws IH]; intros buf v Hne Hw Hi Hv; [done|].
  apply Forall_cons in Hw as [Hw Hws]. cbn [length read_words].
  assert (Hr : read_data_port (running_at sz id rs q) v
    = (w, match ws with [] => in_next v l m | _ => proceed (sector v) (DataIn ws l m) false 0 v end)).
  { unfold read_data_port, inw. cbn. rewrite Hi, Hv. by destruct ws. }
  rewrite Hr. cbn beta iota. rewrite low_byte_u16, (high_byte_u16 w Hw). cbn [mbind outcome_bind].
  assert (Hb : buf ++ bytes_of (w :: ws) = (buf ++ [w mod 256; w / 256]) ++ bytes_of ws).
  { rewrite <- app_assoc. unfold bytes_of. cbn [map concat le_bytes]. do 3 f_equal. cbn [app]. do 2 f_equal.
    apply Z.mod_small. unfold in_width in Hw. change (2 ^ 16) with (256 * 256) in Hw.
    split; [apply Z.div_pos; lia|apply Z.div_lt_upper_bound; lia]. }
  rewrite Hb. destruct ws as [|w' ws]; [by rewrite app_nil_r|]. by rewrite IH.
Qed.

(** ** The status *)

(** The drive is not getting ready for a data-out command. *)
Definition prepared v : Prop := match state v with Preparing _ _ _ => False | _ => True end.
Lemma tick_prepared v : prepared v → tick v = v.
Proof. unfold prepared, tick. by destruct (state v). Qed.
Lemma is_busy_prepared v : prepared v → is_busy v = working v.
Proof. unfold prepared, is_busy. destruct (state v); by rewrite ?orb_false_r. Qed.
Lemma alternate_status v : prepared v → read_alternate_byte PRIM_ATA_CTRL v = (status_of v, v).
Proof. intros Hp. transitivity (status_of v, tick v); [done|]. by rewrite tick_prepared. Qed.
Lemma status_flags v : prepared v →
  st_bsy (status_of v) = working v ∧ st_drive_fault (status_of v) = false
  ∧ st_err (status_of v) = negb (working v) && negb (bool_decide (error_reg v = 0))
  ∧ st_drq (status_of v) = negb (working v) && match state v with Quiet => false | _ => true end.
Proof.
  intros Hp. unfold st_bsy, st_drive_fault, st_err, st_drq, StatusRegister. rewrite !flag_testbit by lia.
  unfold status_of. rewrite (is_busy_prepared v Hp).
  destruct (working v); [done|]. destruct (decide (error_reg v = 0)) as [H0|H0]; [rewrite (bool_decide_true _ H0)|rewrite (bool_decide_false _ H0)];
    by destruct (state v).
Qed.

(** ** Interrupts *)

(** A command that reads, half-way. *)
Definition reading k (c : AtaCommand) (compl : option AtaCommandCallback) (size : Z) (buf : list Z) : AtaCommandRequest :=
  {| command := c; data_size := size; transfer_blk_size := 0x200; direction := DirRead; callback := None;
     completion := compl; buffer := Some buf; io_req := Some k; req_err := None |}.
Lemma irq_transfer_in sz id rs k c compl size buf ws l m v : wf_sector ws → working v = false →
  state v = DataIn ws l m → 512 ≤ size →
  irq_transfer (running_at sz id rs (reading k c compl size buf)) (reading k c compl size buf) v
  = Done (running_at sz id rs (reading k c compl (size - 512) (buf ++ bytes_of ws)), in_next v l m).
Proof.
  intros [Hlen Hws] Hi Hv Hsz. unfold irq_transfer. cbn [reading callback mbind outcome_bind data_size transfer_blk_size].
  assert (Hp : prepared v) by (unfold prepared; by rewrite Hv).
  rewrite Z.min_r by lia. rewrite alternate_status by done.
  destruct (status_flags v Hp) as (_ & _ & _ & ->). rewrite Hi, Hv. unfold transfer. cbn [direction buffer set_progress reading].
  change (Z.to_nat (Z.shiftr 512 1)) with 256%nat. rewrite <- Hlen.
  rewrite (read_words_in sz id rs _ ws l m buf v) by (done || by destruct ws). done.
Qed.
(** The end of a command. *)
Definition finished (c : AtaCommand) (r : AtaResult) (buf : list Z) : bool * option AtaIoResult :=
  (true, Some {| io_result := r; io_command := c; io_data := Some buf |}).
Lemma irq_complete_ok id rs q k buf v : prepared v → working v = false → error_reg v = 0 → completion q = None → req_err q = None → io_req q = Some k →
  buffer q = Some buf → rs !! k = Some (false, None) →
  irq_complete (running id rs q) (status_of v) v = Done (attached id (<[k := finished (command q) AtaSuccess buf]> rs), v).
Proof.
  intros Hp Hi He Hc Hr Hq Hb Hk. unfold irq_complete. destruct (status_flags v Hp) as (_ & Hf & Hse & _).
  rewrite Hse, Hf, Hi, He. cbn. rewrite Hr, Hc, Hb, Hq. cbn. rewrite Hk. done.
Qed.

Lemma status_read v : prepared v → read_byte 7 PRIM_ATA v
  = (status_of (proceed (sector v) (state v) false (error_reg v) v), proceed (sector v) (state v) false (error_reg v) v).
Proof.
  intros Hp. set (w := proceed _ _ _ _ v). transitivity (status_of w, tick w); [done|]. by rewrite tick_prepared.
Qed.
(** An interrupt, when the transfer leaves the command in the queue. *)
Lemma irq_entry_running sz id rs q q' v v' : prepared v → prepared v' →
  irq_transfer (running_at sz id rs q) q (proceed (sector v) (state v) false (error_reg v) v) = Done (running_at sz id rs q', v') →
  ata_irq_entry (running_at sz id rs q) v
  = match working v', state v' with
    | false, Quiet => irq_complete (running_at sz id rs q') (status_of v') v'
    | _, _ => Done (running_at sz id rs q', v')
    end.
Proof.
  intros Hp Hp' Ht. pose proof (status_read v Hp) as Hst.
  transitivity ('(a, d) ← irq_transfer (running_at sz id rs q) q (proceed (sector v) (state v) false (error_reg v) v);
    let '(status, d) := read_alternate_byte (ctrl_base a) d in
    if negb (st_bsy status) && negb (st_drq status) then irq_complete a status d else Done (a, d)).
  { unfold ata_irq_entry. change (may_expect_irq _) with true. cbn beta iota. unfold handle_irq.
    change (io_base (running_at sz id rs q)) with PRIM_ATA. by rewrite Hst. }
  rewrite Ht. cbn [mbind outcome_bind]. change (ctrl_base (running_at sz id rs q')) with PRIM_ATA_CTRL. rewrite alternate_status by done.
  destruct (status_flags v' Hp') as (-> & _ & _ & ->). by destruct (working v'), (state v').
Qed.
Lemma in_next_prepared v l m : prepared (in_next v l m).
Proof. unfold in_next. by case_bool_decide. Qed.
Lemma irq_reads_block id rs k size buf ws l m v : wf_sector ws → state v = DataIn ws l m →
  rs !! k = Some (false, None) → 512 ≤ size →
  ata_irq_entry (running id rs (reading k AtaReadSectorsExt None size buf)) v
  = Done (if bool_decide (m = 0) then attached id (<[k := finished AtaReadSectorsExt AtaSuccess (buf ++ bytes_of ws)]> rs)
          else running id rs (reading k AtaReadSectorsExt None (size - 512) (buf ++ bytes_of ws)), in_next v l m).
Proof.
  intros Hws Hv Hk Hsz. erewrite irq_entry_running;
    [|unfold prepared; by rewrite Hv|by apply in_next_prepared|by apply (irq_transfer_in _ _ _ _ _ _ _ _ ws l m)].
  change (in_next (proceed _ _ _ _ v) l m) with (in_next v l m). unfold in_next.
  destruct (decide (m = 0)) as [Hm|Hm]; [rewrite !(bool_decide_true _ Hm)|by rewrite !(bool_decide_false _ Hm)].
  cbn [state working proceed]. by rewrite (irq_complete_ok id rs _ k (buf ++ bytes_of ws)).
Qed.

(** ** Reading *)

Lemma sectors_bytes_S s l n : sectors_bytes s l (S n) = bytes_of (s l) ++ sectors_bytes s (l + 1) n.
Proof.
  unfold sectors_bytes. cbn [seq map concat]. rewrite Z.add_0_r. f_equal. f_equal.
  rewrite <- seq_shift, map_map. apply map_ext. intros i. f_equal. f_equal. lia.
Qed.
Lemma spin_until_done (cond : AtaDevice → bool) fuel a v : cond a = true → spin_until cond fuel a v = Done (a, v).
Proof. intros H1. destruct fuel; cbn [spin_until]; by rewrite H1. Qed.
Lemma spin_until_irq (cond : AtaDevice → bool) fuel a v : cond a = false → working v = true → control_reg v = 0 →
  spin_until cond (S fuel) a v = '(a, v) ← ata_irq_entry a v; spin_until cond fuel a v.
Proof. intros H1 H2 H3. cbn [spin_until int_pending drive_line]. by rewrite H1, H2, H3. Qed.
Lemma completed_insert id rs k c r buf : (k < length rs)%nat → completed k (attached id (<[k := finished c r buf]> rs)) = true.
Proof. intros Hk. unfold completed. cbn [requests device]. by rewrite list_lookup_insert_eq. Qed.

(** The interrupts until a read has finished: one for each sector that is left. *)
Lemma spin_reads id rs k fuel n buf l v : wf_drive v → state v = DataIn (sector v l) (l + 1) (Z.of_nat n) →
  working v = true → control_reg v = 0 → 0 ≤ l → l + Z.of_nat n < n_sectors v →
  rs !! k = Some (false, None) → (n < fuel)%nat →
  ∃ v', spin_until (completed k) fuel (running id rs (reading k AtaReadSectorsExt None (512 * (Z.of_nat n + 1)) buf)) v
    = Done (attached id (<[k := finished AtaReadSectorsExt AtaSuccess (buf ++ sectors_bytes (sector v) l (S n))]> rs), v')
    ∧ same_media v v' ∧ drive_idle v'.
Proof.
  intros Hwf Hv Hi Hc Hl Hn Hk Hf. revert fuel buf l v Hwf Hv Hi Hc Hl Hn Hf.
  induction n as [|n IH]; intros [|fuel] buf l v Hwf Hv Hi Hc Hl Hn Hf; try lia;
    (rewrite spin_until_irq; [|unfold completed; cbn [requests running_at set_queue set_busy device]; by rewrite Hk|done|done]);
    (rewrite (irq_reads_block _ _ _ _ _ _ _ _ _ (proj1 Hwf l ltac:(lia)) Hv Hk) by lia); cbn [mbind outcome_bind].
  - rewrite bool_decide_true, spin_until_done by (done || by apply completed_insert, lookup_lt_is_Some_1).
    rewrite sectors_bytes_S. cbn [sectors_bytes seq map concat]. rewrite app_nil_r. eexists. split; [done|].
    split; [done|]. by split_and!.
  - rewrite bool_decide_false by lia. rewrite sectors_bytes_S, app_assoc. unfold in_next. rewrite bool_decide_false by lia.
    replace (512 * (Z.of_nat (S n) + 1) - 512) with (512 * (Z.of_nat n + 1)) by lia.
    replace (Z.of_nat (S n) - 1) with (Z.of_nat n) by lia.
    ospecialize (IH fuel (buf ++ bytes_of (sector v l)) (l + 1)
      (proceed (sector v) (DataIn (sector v (l + 1)) (l + 1 + 1) (Z.of_nat n)) true 0 v) _ _ _ _ _ _ _);
      [done|done|done|done|lia|cbn; lia|lia|].
    destruct IH as (v' & IH & Hm & Hd). exists v'. split; [exact IH|]. done.
Qed.

(** ** Setting the registers *)

Definition lba_byte (lba s : Z) : Z := Z.shiftr lba s mod 256.
Definition with_lba (lba : Z) v : drive :=
  set_regs (count_reg v) (lba_byte lba 0, lba_byte lba 24) (lba_byte lba 8, lba_byte lba 32) (lba_byte lba 16, lba_byte lba 40)
    0x40 (control_reg v) v.
Definition with_count (n : Z) v : drive :=
  set_regs (n mod 256, n / 256) (low_reg v) (mid_reg v) (high_reg v) (select_reg v) (control_reg v) v.
Lemma set_lba48 id rs lba v : addressing_mode id = Lba48 → set_lba (attached id rs) lba v = Done (with_lba lba v).
Proof.
  intros Hm. unfold set_lba, out_lba_byte. cbn [identify_data device]. rewrite Hm, !low_byte_u64. cbn [mbind outcome_bind].
  done.
Qed.
Lemma set_count48 id rs n v : addressing_mode id = Lba48 → in_width 16 n →
  set_sectors_count (attached id rs) n v = Done (with_count n v).
Proof.
  intros Hm Hn. unfold set_sectors_count. cbn [identify_data device]. rewrite Hm, low_byte_u16, high_byte_u16 by done. done.
Qed.
Lemma lba48_with_lba lba v : in_width 48 lba → lba48 (with_lba lba v) = lba.
Proof.
  intros Hl. rewrite <- (of_le_le_bytes 6 lba Hl) at 2. unfold lba48. f_equal. cbn [low_reg mid_reg high_reg with_lba set_regs fst snd le_bytes].
  unfold lba_byte. rewrite !Z.shiftr_div_pow2 by lia. rewrite !Z.div_div by lia. by rewrite Z.div_1_r.
Qed.
Lemma count48_with_count n v : 0 < n < 2 ^ 16 → count48 (with_count n v) = n.
Proof.
  intros Hn. unfold count48. cbn [count_reg with_count set_regs fst snd of_le].
  replace (n mod 256 + 256 * (n / 256 + 256 * 0)) with n by (rewrite (Z.div_mod n 256) at 1; lia).
  by rewrite bool_decide_false by lia.
Qed.
(** A command is given to the drive. *)
Lemma send_command sz id rs q fuel v : Z.testbit (select_reg v) 4 = false →
  send_ata_command fuel q (device sz id rs) v
  = Done (length rs, running_at sz id (rs ++ [(false, None)]) (link_to_ioreq q (length rs)), run_command (discriminant (command q)) v).
Proof.
  intros Hs. unfold send_ata_command. rewrite spin_until_done by done. cbn [mbind outcome_bind].
  transitivity (Done (length rs, running_at sz id (rs ++ [(false, None)]) (link_to_ioreq q (length rs)),
    if Z.testbit (select_reg v) 4 then v else run_command (discriminant (command q)) v)); [by destruct v|]. by rewrite Hs.
Qed.
Lemma complete_from id rs k fuel a v c r buf v' : (k < length rs)%nat →
  spin_until (completed k) fuel a v = Done (attached id (<[k := finished c r buf]> rs), v') →
  complete fuel k a v = Done ({| io_result := r; io_command := c; io_data := Some buf |}, attached id (<[k := finished c r buf]> rs), v').
Proof.
  intros Hk Hs. unfold complete. rewrite Hs. cbn [mbind outcome_bind requests device]. by rewrite list_lookup_insert_eq.
Qed.
(** The last request is the one that a command has just made. *)
Lemma last_request rs x : (rs ++ [x]) !! length rs = Some x.
Proof. by rewrite lookup_app_r, Nat.sub_diag by lia. Qed.
Lemma set_last_request rs x y : <[length rs := y]> (rs ++ [x]) = rs ++ [y].
Proof. rewrite insert_app_r_alt, Nat.sub_diag by lia. done. Qed.

(** What a command of [n] sectors from [lba] on gives to the drive. *)
Definition addressed (lba n : Z) v : drive := with_count n (with_lba lba v).
Lemma ata_read48 id rs lba n fuel v : addressing_mode id = Lba48 → in_width 16 n →
  ata_read fuel lba n (attached id rs) v
  = Done (length rs, running id (rs ++ [(false, None)]) (reading (length rs) AtaReadSectorsExt None (512 * n) []),
          run_command 0x24 (addressed lba n v)).
Proof.
  intros Hm Hn. unfold ata_read. rewrite set_lba48 by done. cbn [mbind outcome_bind]. rewrite set_count48 by done.
  cbn [mbind outcome_bind]. change (addressing_mode (identify_data (attached id rs))) with (addressing_mode id). rewrite Hm.
  change (expect_u16 (sector_sz (attached id rs))) with (Done 512). cbn [mbind outcome_bind].
  change (sectors_per_drq (attached id rs)) with 0. change (sector_sz (attached id rs)) with 512.
  rewrite u64_id, (Z.mul_comm n) by (unfold in_width in Hn; change (2 ^ 16) with 65536 in Hn; change (2 ^ 64) with (65536 * 281474976710656); lia).
  by rewrite send_command.
Qed.
(** A command for sectors that the drive has. *)
Lemma lba48_addressed lba n v : in_width 48 lba → lba48 (addressed lba n v) = lba.
Proof. intros Hl. change (lba48 (addressed lba n v)) with (lba48 (with_lba lba v)). by apply lba48_with_lba. Qed.
Lemma count48_addressed lba n v : 0 < n < 2 ^ 16 → count48 (addressed lba n v) = n.
Proof. apply count48_with_count. Qed.
Lemma run_read lba n v : 0 ≤ lba → 0 < n < 2 ^ 16 → lba + n ≤ n_sectors v → n_sectors v ≤ 2 ^ 48 →
  run_command 0x24 (addressed lba n v)
  = proceed (sector v) (DataIn (sector v lba) (lba + 1) (n - 1)) true 0 (addressed lba n v).
Proof.
  intros Hl Hn Hb Hs. unfold run_command. rewrite count48_addressed, lba48_addressed by (done || unfold in_width; lia). change (n_sectors (addressed lba n v)) with (n_sectors v).
  rewrite (bool_decide_true (_ ≤ _)) by done. cbn [andb bool_decide]. unfold in_next. by rewrite (bool_decide_false (n = 0)) by lia.
Qed.

(** On a drive with 48-bit addresses, [read] of [n] sectors
    followed by [complete] returns, within [n] interrupts, success and the bytes of
    the [n] sectors in order; the device can be used again, the drive is idle and
    its contents are what they were. *)
Lemma read_on_drive id rs lba n v fuel : addressing_mode id = Lba48 → wf_drive v → drive_idle v →
  0 ≤ lba → 0 < n < 2 ^ 16 → lba + n ≤ n_sectors v → n_sectors v ≤ 2 ^ 48 → n ≤ Z.of_nat fuel →
  let bytes := sectors_bytes (sector v) lba (Z.to_nat n) in
  ∃ v', ('(k, a, v) ← ata_read fuel lba n (attached id rs) v; complete fuel k a v)
    = Done ({| io_result := AtaSuccess; io_command := AtaReadSectorsExt; io_data := Some bytes |},
            attached id (rs ++ [finished AtaReadSectorsExt AtaSuccess bytes]), v')
    ∧ same_media v v' ∧ drive_idle v'.
Proof.
  intros Hm Hwf (_ & _ & Hc) Hl Hn Hb Hs Hf bytes. rewrite ata_read48 by (done || unfold in_width; lia).
  cbn [mbind outcome_bind]. rewrite run_read by done.
  destruct (spin_reads id (rs ++ [(false, None)]) (length rs) fuel (Z.to_nat (n - 1)) [] lba
    (proceed (sector v) (DataIn (sector v lba) (lba + 1) (n - 1)) true 0 (addressed lba n v))) as (v' & Hsp & Hmedia & Hidle);
    [done|cbn; f_equal; lia|done|done|done|cbn; lia|apply last_request|lia|].
  rewrite Z2Nat.id in Hsp by lia. replace (512 * (n - 1 + 1)) with (512 * n) in Hsp by lia.
  replace (S (Z.to_nat (n - 1))) with (Z.to_nat n) in Hsp by lia. cbn [app sector proceed] in Hsp.
  apply complete_from in Hsp; [|rewrite length_app; simpl; lia]. rewrite Hsp, set_last_request. by exists v'.
Qed.

(** ** Errors *)

Lemma control_read_high : bf_with ControlRegister 4 1 0 = Done 0x80.
Proof. rewrite (bf_with_eq _ 4 1 7); [done|by repeat constructor|done|done|done]. Qed.
Lemma read_lba48 id rs v : addressing_mode id = Lba48 → control_reg v = 0 →
  read_lba (set_busy (attached id rs) true) v
  = Done (lba48 v, set_regs (count_reg v) (low_reg v) (mid_reg v) (high_reg v) 0x40 0 v).
Proof.
  intros Hm Hc. unfold read_lba. change (addressing_mode _) with (addressing_mode id). rewrite Hm, control_read_high.
  cbn [mbind outcome_bind]. unfold register_write. 
  cbn -[of_le Z.testbit]. unfold old_bytes. cbn -[of_le Z.testbit]. rewrite Hc. done.
Qed.
Lemma quiet_prepared v : state v = Quiet → prepared v.
Proof. unfold prepared. by intros ->. Qed.
Lemma irq_transfer_quiet id rs q v : callback q = None → working v = false → state v = Quiet →
  irq_transfer (running id rs q) q v
  = Done (running id rs (set_progress q (data_size q - Z.min (data_size q) (transfer_blk_size q)) (buffer q) (req_err q)), v).
Proof.
  intros Hq Hi Hv. unfold irq_transfer. rewrite Hq. cbn [mbind outcome_bind].
  pose proof (quiet_prepared v Hv) as Hp.
  change (ctrl_base (running id rs q)) with PRIM_ATA_CTRL. rewrite alternate_status by done.
  destruct (status_flags v Hp) as (_ & _ & _ & ->). by rewrite Hi, Hv.
Qed.
Lemma irq_complete_abort id rs q k buf v : addressing_mode id = Lba48 → state v = Quiet → working v = false → error_reg v = 4 → control_reg v = 0 →
  completion q = None → io_req q = Some k → buffer q = Some buf → rs !! k = Some (false, None) →
  irq_complete (running id rs q) (status_of v) v
  = Done (attached id (<[k := finished (command q) (AtaFailure {| code := CommandAbort; err_lba := lba48 v |}) buf]> rs),
          set_regs (count_reg v) (low_reg v) (mid_reg v) (high_reg v) 0x40 0 v).
Proof.
  intros Hm Hv Hi He Hctl Hc Hq Hb Hk. unfold irq_complete. destruct (status_flags v (quiet_prepared v Hv)) as (_ & Hf & Hse & _).
  rewrite Hse, Hf, Hi, He. cbn [unwrap command_queue running_at set_queue mbind outcome_bind].
  rewrite (bool_decide_false (4 = 0)) by done. cbn [negb].
  assert (Hr : read_byte 1 PRIM_ATA v = (4, v)) by (transitivity (error_reg v, v); [done|by rewrite He]).
  change (io_base _) with PRIM_ATA. rewrite Hr. change (set_queue _ None) with (set_busy (attached id rs) true).
  rewrite read_lba48 by done. cbn [mbind outcome_bind].
  unfold err_abrt, ErrorRegister. rewrite flag_testbit by lia. change (Z.testbit 4 (Z.of_nat 2)) with true.
  rewrite Hc. cbn [mbind outcome_bind]. rewrite Hq. change (requests _) with rs. by rewrite Hk, Hb.
Qed.

(** A command that the drive refuses: one interrupt, and the failure is reported. *)
Lemma spin_aborts id rs q fuel buf v : addressing_mode id = Lba48 → state v = Quiet → working v = true → error_reg v = 4 →
  control_reg v = 0 → callback q = None → completion q = None → buffer q = Some buf → io_req q = Some (length rs) →
  (0 < fuel)%nat →
  let r := AtaFailure {| code := CommandAbort; err_lba := lba48 v |} in
  ∃ v', complete fuel (length rs) (running id (rs ++ [(false, None)]) q) v
    = Done ({| io_result := r; io_command := command q; io_data := Some buf |}, attached id (rs ++ [finished (command q) r buf]), v')
    ∧ same_media v v' ∧ drive_idle v'.
Proof.
  intros Hm Hv Hi He Hc Hcb Hcp Hb Hk Hf r. destruct fuel as [|fuel]; [lia|].
  assert (Hsp : ∃ v', spin_until (completed (length rs)) (S fuel) (running id (rs ++ [(false, None)]) q) v
    = Done (attached id (<[length rs := finished (command q) r buf]> (rs ++ [(false, None)])), v') ∧ same_media v v' ∧ drive_idle v').
  { rewrite spin_until_irq; [|unfold completed; change (requests _) with (rs ++ [(false, None) : bool * option AtaIoResult]);
      by rewrite last_request|done|done].
    erewrite irq_entry_running; [| | |by apply irq_transfer_quiet]; [|by apply quiet_prepared..].
    cbn [state working proceed]. rewrite Hv.
    rewrite (irq_complete_abort id _ _ (length rs) buf) by (done || apply last_request). cbn [mbind outcome_bind].
    rewrite spin_until_done by (apply completed_insert; rewrite length_app; simpl; lia).
    eexists. split; [done|]. split; [done|]. split_and!; done. }
  destruct Hsp as (v' & Hsp & Hms & Hid). apply complete_from in Hsp; [|rewrite length_app; simpl; lia].
  rewrite Hsp, set_last_request. by exists v'.
Qed.

(** A read beyond the end of the drive fails: the result says that the command was
    aborted and has the address that was asked for, no data is returned, and the
    device can be used again. *)
Lemma read_aborts id rs lba n v fuel : addressing_mode id = Lba48 → drive_idle v →
  in_width 48 lba → 0 < n < 2 ^ 16 → n_sectors v < lba + n → (0 < fuel)%nat →
  let r := AtaFailure {| code := CommandAbort; err_lba := lba |} in
  ∃ v', ('(k, a, v) ← ata_read fuel lba n (attached id rs) v; complete fuel k a v)
    = Done ({| io_result := r; io_command := AtaReadSectorsExt; io_data := Some [] |},
            attached id (rs ++ [finished AtaReadSectorsExt r []]), v')
    ∧ same_media v v' ∧ drive_idle v'.
Proof.
  intros Hm (Hq & _ & Hc) Hl Hn Hb Hf r. rewrite ata_read48 by (done || unfold in_width; lia). cbn [mbind outcome_bind].
  unfold run_command. rewrite count48_addressed, lba48_addressed by done. change (n_sectors (addressed lba n v)) with (n_sectors v).
  rewrite (bool_decide_false (_ ≤ _)) by lia. rewrite !andb_false_r. rewrite (bool_decide_false (36 = 236)) by done.
  destruct (spin_aborts id rs (reading (length rs) AtaReadSectorsExt None (512 * n) []) fuel []
    (proceed (sector (addressed lba n v)) Quiet true 4 (addressed lba n v))) as (v' & Hsp & Hms & Hid); try done.
  change (lba48 (proceed _ _ _ _ _)) with (lba48 (addressed lba n v)) in Hsp. rewrite lba48_addressed in Hsp by done.
  exists v'. by split.
Qed.

(** ** Writing *)

Fixpoint words_of (bs : list Z) : list Z := match bs with lo :: hi :: bs => lo + 256 * hi :: words_of bs | _ => [] end.
Lemma words_of_spec n bs : length bs = (2 * n)%nat → Forall byte bs →
  length (words_of bs) = n ∧ Forall (in_width 16) (words_of bs) ∧ bytes_of (words_of bs) = bs.
Proof.
  revert bs. induction n as [|n IH]; intros [|lo [|hi bs]] Hl Hb; simpl in Hl; try lia; [done|].
  apply Forall_cons in Hb as [Hlo Hb]. apply Forall_cons in Hb as [Hhi Hb]. destruct (IH bs) as (IH1 & IH2 & IH3); [lia|done|].
  unfold byte, in_width in Hlo, Hhi. change (2 ^ 8) with 256 in *. cbn [words_of]. split_and!.
  - simpl. by rewrite IH1.
  - constructor; [unfold in_width; change (2 ^ 16) with 65536; lia|done].
  - change (bytes_of (?w :: ?ws)) with (le_bytes 2 w ++ bytes_of ws). rewrite IH3. cbn [le_bytes app].
    replace (lo + 256 * hi) with (lo + hi * 256) by lia.
    rewrite Z.mod_add, Z.div_add, (Z.mod_small lo), (Z.div_small lo), (Z.mod_small (0 + hi)) by lia. done.
Qed.
Lemma write_words_out a n bs ws l m v : io_base a = PRIM_ATA → length bs = (2 * n)%nat → working v = false → state v = DataOut ws l m →
  (0 < n)%nat → (length ws + n = 256)%nat →
  write_words n a bs v = Done (out_next v (ws ++ words_of bs) l m).
Proof.
  intros Ha. revert n ws v. induction bs as [bs IH] using (induction_ltof1 _ (@length Z)). intros n ws v Hl Hi Hv Hn Hw.
  destruct n as [|n]; [lia|]. destruct bs as [|lo [|hi bs]]; simpl in Hl; try lia. cbn [write_words words_of].
  assert (Hr : write_data_port a (lo + 256 * hi) v = out_next v (ws ++ [lo + 256 * hi]) l m).
  { unfold write_data_port, outw. rewrite Ha. cbn. by rewrite Hi, Hv. }
  rewrite Hr. destruct n as [|n].
  - destruct bs; [done|simpl in Hl; lia].
  - unfold out_next at 1. rewrite bool_decide_true by (rewrite length_app; simpl; lia).
    rewrite (IH bs) with (ws := ws ++ [lo + 256 * hi]);
      [by rewrite <- app_assoc|unfold ltof; simpl; lia|lia|done|done|lia|rewrite length_app; simpl; lia].
Qed.
(** A command that writes, half-way: [buf] is what is left to write. *)
Definition writing k (size : Z) (buf : list Z) : AtaCommandRequest :=
  {| command := AtaWriteSectorsExt; data_size := size; transfer_blk_size := 0x200; direction := DirWrite; callback := None;
     completion := None; buffer := Some buf; io_req := Some k; req_err := None |}.
Lemma irq_transfer_out id rs k size buf l m v : working v = false → state v = DataOut [] l m → 512 ≤ size → (512 ≤ length buf)%nat →
  irq_transfer (running id rs (writing k size buf)) (writing k size buf) v
  = Done (running id rs (writing k (size - 512) (drop 512 buf)), out_next v (words_of (take 512 buf)) l m).
Proof.
  intros Hi Hv Hsz Hb. unfold irq_transfer. cbn [writing callback mbind outcome_bind data_size transfer_blk_size].
  assert (Hp : prepared v) by (unfold prepared; by rewrite Hv).
  rewrite Z.min_r by lia. rewrite alternate_status by done.
  destruct (status_flags v Hp) as (_ & _ & _ & ->). rewrite Hi, Hv. unfold transfer. cbn [direction buffer set_progress writing].
  rewrite bool_decide_true by lia. cbn [rust_assert mbind outcome_bind]. change (Z.to_nat (Z.shiftr 512 1)) with 256%nat.
  change (Z.to_nat 512) with 512%nat.
  rewrite (write_words_out _ 256 _ [] l m v) by (done || simpl; lia || rewrite length_take; lia). done.
Qed.

(** What has been written from [l] on. *)
Definition written (v v' : drive) (l : Z) (n : nat) (data : list Z) : Prop :=
  sectors_bytes (sector v') l n = data ∧ (∀ x, ¬ l ≤ x < l + Z.of_nat n → sector v' x = sector v x)
  ∧ (∀ x, l ≤ x < l + Z.of_nat n → wf_sector (sector v' x)) ∧ n_sectors v' = n_sectors v ∧ identity v' = identity v
  ∧ lag v' = lag v.
(** A sector has been received. *)
Definition store_sector v (ws : list Z) (l m : Z) : drive :=
  proceed (λ x, if bool_decide (x = l) then ws else sector v x)
    (if bool_decide (m = 1) then Quiet else DataOut [] (l + 1) (m - 1)) true 0 v.
Lemma out_full v ws l m : length ws = 256%nat → out_next v ws l m = store_sector v ws l m.
Proof. intros Hw. unfold out_next. by rewrite bool_decide_false by lia. Qed.
Lemma written_cons v v' l m n ws data : wf_sector ws → bytes_of ws = take 512 data →
  written (store_sector v ws l m) v' (l + 1) n (drop 512 data) → written v v' l (S n) data.
Proof.
  intros Hw Hb (Hd & Ho & Hwf & Hn & Hi & Hlg).
  assert (Hs : sector v' l = ws) by (rewrite Ho by lia; cbn; by rewrite bool_decide_true).
  split_and!; [|intros x Hx|intros x Hx|done|done|done].
  - rewrite sectors_bytes_S, Hs, Hb, Hd. apply take_drop.
  - rewrite Ho by lia. cbn. by rewrite bool_decide_false by lia.
  - destruct (decide (x = l)) as [->|]; [by rewrite Hs|]. apply Hwf. lia.
Qed.
(** The interrupts until a write has finished: [n] sectors are left. *)
Lemma spin_writes id rs k fuel n buf l v : length buf = (512 * n)%nat → Forall byte buf →
  state v = (if bool_decide (n = 0%nat) then Quiet else DataOut [] l (Z.of_nat n)) →
  working v = true → control_reg v = 0 → error_reg v = 0 → rs !! k = Some (false, None) → (n < fuel)%nat →
  ∃ v', spin_until (completed k) fuel (running id rs (writing k (512 * (Z.of_nat n + 1)) buf)) v
    = Done (attached id (<[k := finished AtaWriteSectorsExt AtaSuccess []]> rs), v')
    ∧ written v v' l n buf ∧ drive_idle v'.
Proof.
  intros Hb Hby Hv Hi Hc He Hk Hf. revert fuel buf l v Hb Hby Hv Hi Hc He Hf.
  induction n as [|n IH]; intros [|fuel] buf l v Hb Hby Hv Hi Hc He Hf; try lia;
    (rewrite spin_until_irq; [|unfold completed; change (requests _) with rs; by rewrite Hk|done|done]).
  - apply nil_length_inv in Hb as ->.
    rewrite bool_decide_true in Hv by done.
    erewrite irq_entry_running; [| | |by apply irq_transfer_quiet]; [|by apply quiet_prepared..].
    cbn [state working proceed]. rewrite Hv.
    rewrite (irq_complete_ok id rs _ k []) by (done || by apply quiet_prepared). cbn [mbind outcome_bind].
    rewrite spin_until_done by (by apply completed_insert, lookup_lt_is_Some_1). eexists. split; [done|].
    split; [|by split_and!]. split_and!; try done. intros; lia.
  - rewrite bool_decide_false in Hv by done.
    erewrite irq_entry_running; [|unfold prepared; by rewrite Hv| |apply (irq_transfer_out _ _ _ _ _ l (Z.of_nat (S n))); [done|done|lia|lia]].
    2: { unfold out_next. repeat case_bool_decide; done. }
    destruct (words_of_spec 256 (take 512 buf)) as (Hlen & Hwid & Hbytes); [rewrite length_take; lia|by apply Forall_take|].
    rewrite out_full by done. cbn [working proceed mbind outcome_bind].
    replace (512 * (Z.of_nat (S n) + 1) - 512) with (512 * (Z.of_nat n + 1)) by lia.
    ospecialize (IH fuel (drop 512 buf) (l + 1) (store_sector v (words_of (take 512 buf)) l (Z.of_nat (S n))) _ _ _ _ _ _ _).
    + rewrite length_drop. lia.
    + by apply Forall_drop.
    + unfold store_sector. cbn [state proceed]. replace (Z.of_nat (S n) - 1) with (Z.of_nat n) by lia.
      destruct n; [done|]. by rewrite bool_decide_false by lia.
    + done.
    + done.
    + done.
    + lia.
    + destruct IH as (v' & IH & Hwr & Hid). exists v'. split; [exact IH|]. split; [|done].
      by apply (written_cons v v' l (Z.of_nat (S n)) n (words_of (take 512 buf)) buf).
Qed.

Lemma run_write lba n v : 0 ≤ lba → 0 < n < 2 ^ 16 → lba + n ≤ n_sectors v → n_sectors v ≤ 2 ^ 48 →
  run_command 0x34 (addressed lba n v) = proceed (sector v) (prepare (lag v) lba n) false 0 (addressed lba n v).
Proof.
  intros Hl Hn Hb Hs. unfold run_command. rewrite count48_addressed, lba48_addressed by (done || unfold in_width; lia).
  change (n_sectors (addressed lba n v)) with (n_sectors v). by rewrite (bool_decide_true (_ ≤ _)) by done.
Qed.
(** A busy drive ignores the data port: a command to write that the drive refuses
    leaves what is written after it without effect. *)
Lemma write_words_ignored a n bs v : io_base a = PRIM_ATA → working v = true → prepared v → length bs = (2 * n)%nat → write_words n a bs v = Done v.
Proof.
  intros Ha Hi Hp. revert bs. induction n as [|n IH]; intros bs Hl; [by destruct bs|].
  destruct bs as [|lo [|hi bs]]; simpl in Hl; try lia. cbn [write_words].
  assert (Hr : write_data_port a (lo + 256 * hi) v = v)
    by (unfold write_data_port, outw; rewrite Ha; cbn; rewrite Hi; by apply tick_prepared).
  rewrite Hr. apply IH. lia.
Qed.
Lemma ata_write48 id rs lba n fuel data v v' : addressing_mode id = Lba48 → 0 < n < 2 ^ 16 → Z.of_nat (length data) = 512 * n →
  write_words 256 (running id (rs ++ [(false, None)]) (writing (length rs) (512 * n) (drop 512 data))) (take 512 data)
    (run_command 0x34 (addressed lba n v)) = Done v' →
  ata_write fuel lba n data (attached id rs) v
  = Done (length rs, running id (rs ++ [(false, None)]) (writing (length rs) (512 * n) (drop 512 data)), v').
Proof.
  intros Hm Hn Hlen Hw. unfold ata_write. rewrite set_lba48 by done. cbn [mbind outcome_bind].
  rewrite set_count48 by (done || unfold in_width; lia). cbn [mbind outcome_bind].
  change (addressing_mode (identify_data (attached id rs))) with (addressing_mode id). rewrite Hm.
  change (expect_u16 (sector_sz (attached id rs))) with (Done 512). cbn [mbind outcome_bind].
  change (sectors_per_drq (attached id rs)) with 0. change (sector_sz (attached id rs)) with 512.
  rewrite u64_id, (Z.mul_comm n) by (change (2 ^ 16) with 65536 in Hn; change (2 ^ 64) with (65536 * 281474976710656); lia).
  rewrite send_command by done. fold (addressed lba n v). cbn [mbind outcome_bind].
  change (Z.to_nat 512) with 512%nat. rewrite resize_all_alt by (rewrite length_take; lia).
  set (a := running id (rs ++ [(false, None)]) (writing (length rs) (512 * n) (drop 512 data))) in *.
  transitivity (w ← write_words 256 a (take 512 data) (run_command 0x34 (addressed lba n v)); Done (length rs, a, w)); [done|].
  by rewrite Hw.
Qed.
(** On a drive with 48-bit addresses that is ready at once, [write] of [n] sectors of
    data followed by [complete] returns, within [n] interrupts, success; the [n]
    sectors hold the data, every other sector is what it was, the device can be
    used again and the drive is idle. *)
Lemma write_on_drive id rs lba n data v fuel : addressing_mode id = Lba48 → lag v = 0%nat → wf_drive v → drive_idle v →
  0 ≤ lba → 0 < n < 2 ^ 16 → lba + n ≤ n_sectors v → n_sectors v ≤ 2 ^ 48 → n ≤ Z.of_nat fuel →
  Z.of_nat (length data) = 512 * n → Forall byte data →
  ∃ v', ('(k, a, v) ← ata_write fuel lba n data (attached id rs) v; complete fuel k a v)
    = Done ({| io_result := AtaSuccess; io_command := AtaWriteSectorsExt; io_data := Some [] |},
            attached id (rs ++ [finished AtaWriteSectorsExt AtaSuccess []]), v')
    ∧ sectors_bytes (sector v') lba (Z.to_nat n) = data
    ∧ (∀ x, ¬ lba ≤ x < lba + n → sector v' x = sector v x)
    ∧ wf_drive v' ∧ n_sectors v' = n_sectors v ∧ lag v' = lag v ∧ drive_idle v'.
Proof.
  intros Hm Hlag Hwf (_ & _ & Hc) Hl Hn Hb Hs Hf Hlen Hby. erewrite ata_write48; [|done|done|done|].
  2: { rewrite run_write, Hlag by done. apply (write_words_out _ 256 _ [] lba n); [done|rewrite length_take; lia|done|done|lia|simpl; lia]. }
  cbn [mbind outcome_bind app].
  destruct (words_of_spec 256 (take 512 data)) as (Hwl & Hww & Hwb); [rewrite length_take; lia|by apply Forall_take|].
  change (out_next _ ?ws lba n) with (out_next (addressed lba n v) ws lba n). rewrite out_full by done.
  destruct (spin_writes id (rs ++ [(false, None)]) (length rs) fuel (Z.to_nat (n - 1)) (drop 512 data) (lba + 1)
    (store_sector (addressed lba n v) (words_of (take 512 data)) lba n)) as (v' & Hsp & Hwr & Hid);
    [rewrite length_drop; lia|by apply Forall_drop| |done|done|done|apply last_request|lia|].
  { unfold store_sector. cbn [state proceed]. rewrite Z2Nat.id by lia.
    destruct (decide (n = 1)) as [->|Hn1]; [done|]. by rewrite !bool_decide_false by lia. }
  rewrite Z2Nat.id in Hsp by lia. replace (512 * (n - 1 + 1)) with (512 * n) in Hsp by lia.
  apply complete_from in Hsp; [|rewrite length_app; simpl; lia]. rewrite Hsp, set_last_request.
  apply (written_cons (addressed lba n v)) in Hwr; [|done|done].
  replace (S (Z.to_nat (n - 1))) with (Z.to_nat n) in Hwr by lia.
  destruct Hwr as (Hd & Ho & Hsw & Hns & Hidn & Hlg). rewrite Z2Nat.id in Ho, Hsw by lia.
  exists v'. split; [done|]. split; [done|]. split; [done|]. split; [|done].
  split; [|rewrite Hidn; apply Hwf]. intros x Hx. rewrite Hns in Hx. destruct (decide (lba ≤ x < lba + n)) as [Hin|Hout]; [by apply Hsw|].
  rewrite Ho by done. by apply Hwf.
Qed.

(** A write beyond the end of the drive fails as a read does, and writes nothing. *)
Lemma write_aborts id rs lba n data v fuel : addressing_mode id = Lba48 → drive_idle v →
  in_width 48 lba → 0 < n < 2 ^ 16 → n_sectors v < lba + n → (0 < fuel)%nat → Z.of_nat (length data) = 512 * n →
  let r := AtaFailure {| code := CommandAbort; err_lba := lba |} in
  ∃ v', ('(k, a, v) ← ata_write fuel lba n data (attached id rs) v; complete fuel k a v)
    = Done ({| io_result := r; io_command := AtaWriteSectorsExt; io_data := Some (drop 512 data) |},
            attached id (rs ++ [finished AtaWriteSectorsExt r (drop 512 data)]), v')
    ∧ same_media v v' ∧ drive_idle v'.
Proof.
  intros Hm (Hq & _ & Hc) Hl Hn Hb Hf Hlen r.
  assert (Hrun : run_command 0x34 (addressed lba n v) = proceed (sector v) Quiet true 4 (addressed lba n v)).
  { unfold run_command. rewrite count48_addressed, lba48_addressed by done. change (n_sectors (addressed lba n v)) with (n_sectors v).
    rewrite (bool_decide_false (_ ≤ _)) by lia. rewrite !andb_false_r. by rewrite (bool_decide_false (52 = 236)) by done. }
  erewrite ata_write48; [|done|done|done|].
  2: { rewrite Hrun. apply write_words_ignored; [done|done|done|rewrite length_take; lia]. }
  cbn [mbind outcome_bind].
  destruct (spin_aborts id rs (writing (length rs) (512 * n) (drop 512 data)) fuel (drop 512 data)
    (proceed (sector v) Quiet true 4 (addressed lba n v))) as (v' & Hsp & Hms & Hid); try done.
  change (lba48 (proceed _ _ _ _ _)) with (lba48 (addressed lba n v)) in Hsp. rewrite lba48_addressed in Hsp by done.
  exists v'. by split.
Qed.

(** ** The driver implements a disk *)

(** The abstract disk: numbered blocks of 512 bytes. *)
Inductive disk_op := ReadOp (lba n : Z) | WriteOp (lba n : Z) (data : list Z).
Definition op_lba (o : disk_op) : Z := match o with ReadOp lba _ | WriteOp lba _ _ => lba end.
Definition op_count (o : disk_op) : Z := match o with ReadOp _ n | WriteOp _ n _ => n end.
Definition op_ok (o : disk_op) : Prop :=
  in_width 48 (op_lba o) ∧ 0 < op_count o < 2 ^ 16
  ∧ match o with ReadOp _ _ => True | WriteOp _ n data => Z.of_nat (length data) = 512 * n ∧ Forall byte data end.
Definition blocks (s : Z → list Z) (lba n : Z) : list Z := concat (map (λ i, s (lba + Z.of_nat i)) (seq 0 (Z.to_nat n))).
Definition put_blocks (s : Z → list Z) (lba n : Z) (data : list Z) : Z → list Z :=
  λ x, if bool_decide (lba ≤ x < lba + n) then take 512 (drop (Z.to_nat (512 * (x - lba))) data) else s x.
Definition disk_step (capacity : Z) (s : Z → list Z) (o : disk_op) : AtaIoResult * (Z → list Z) :=
  let refused := AtaFailure {| code := CommandAbort; err_lba := op_lba o |} in
  let fits := bool_decide (op_lba o + op_count o ≤ capacity) in
  match o with
  | ReadOp lba n =>
      (if fits then {| io_result := AtaSuccess; io_command := AtaReadSectorsExt; io_data := Some (blocks s lba n) |}
       else {| io_result := refused; io_command := AtaReadSectorsExt; io_data := Some [] |}, s)
  | WriteOp lba n data =>
      if fits then ({| io_result := AtaSuccess; io_command := AtaWriteSectorsExt; io_data := Some [] |}, put_blocks s lba n data)
      else ({| io_result := refused; io_command := AtaWriteSectorsExt; io_data := Some (drop 512 data) |}, s)
  end.
Fixpoint disk_run (capacity : Z) (s : Z → list Z) (os : list disk_op) : list AtaIoResult * (Z → list Z) :=
  match os with
  | [] => ([], s)
  | o :: os => let '(r, s) := disk_step capacity s o in let '(rs, s) := disk_run capacity s os in (r :: rs, s)
  end.
(** The same operations by the driver, each waited for. *)
Definition ata_step (fuel : nat) (o : disk_op) (a : AtaDevice) v : outcome (AtaIoResult * AtaDevice * drive) :=
  '(k, a, v) ← match o with ReadOp lba n => ata_read fuel lba n a v | WriteOp lba n data => ata_write fuel lba n data a v end;
  complete fuel k a v.
Fixpoint ata_run (fuel : nat) (os : list disk_op) (a : AtaDevice) v : outcome (list AtaIoResult * AtaDevice * drive) :=
  match os with
  | [] => Done ([], a, v)
  | o :: os => '(r, a, v) ← ata_step fuel o a v; '(rs, a, v) ← ata_run fuel os a v; Done (r :: rs, a, v)
  end.
(** The drive holds the blocks of the disk. *)
Definition holds (s : Z → list Z) v : Prop := ∀ l, 0 ≤ l < n_sectors v → bytes_of (sector v l) = s l.

Lemma length_bytes_of ws : length (bytes_of ws) = (2 * length ws)%nat.
Proof. induction ws as [|w ws IH]; [done|]. change (bytes_of (w :: ws)) with (le_bytes 2 w ++ bytes_of ws). rewrite length_app, IH. simpl. lia. Qed.
Lemma holds_blocks s v lba n : holds s v → 0 ≤ lba → lba + n ≤ n_sectors v →
  sectors_bytes (sector v) lba (Z.to_nat n) = blocks s lba n.
Proof.
  intros Hs Hl Hn. unfold sectors_bytes, blocks. f_equal. apply map_ext_in. intros i Hi. apply in_seq in Hi. apply Hs. lia.
Qed.
Lemma sectors_bytes_lookup s l n data i : (∀ x, l ≤ x < l + Z.of_nat n → wf_sector (s x)) → sectors_bytes s l n = data →
  (i < n)%nat → bytes_of (s (l + Z.of_nat i)) = take 512 (drop (512 * i) data).
Proof.
  revert l data i. induction n as [|n IH]; intros l data i Hwf <- Hi; [lia|]. rewrite sectors_bytes_S.
  assert (Hlen : length (bytes_of (s l)) = 512%nat) by (rewrite length_bytes_of, (proj1 (Hwf l ltac:(lia))); done).
  destruct i as [|i].
  - rewrite Z.add_0_r, Nat.mul_0_r, drop_0. by rewrite take_app_length' by done.
  - replace (512 * S i)%nat with (length (bytes_of (s l)) + 512 * i)%nat by lia. rewrite <- drop_drop, drop_app_length.
    replace (l + Z.of_nat (S i)) with (l + 1 + Z.of_nat i) by lia. apply IH; [|done|lia]. intros x Hx. apply Hwf. lia.
Qed.
Lemma same_media_wf v v' : same_media v v' → wf_drive v → wf_drive v'.
Proof. intros (Hs & Hn & Hi & _) [H1 H2]. split; [|by rewrite Hi]. intros l. rewrite Hs, Hn. apply H1. Qed.

(** The operations that the drive serves in time: all of them when it is ready at
    once for the data of a write; the reads, and the writes it refuses, when it is
    not. *)
Definition served v (o : disk_op) : Prop :=
  match o with ReadOp _ _ => True | WriteOp lba n _ => lag v = 0%nat ∨ n_sectors v < lba + n end.

(** One operation. *)
Lemma ata_step_refines fuel o id rs s v : addressing_mode id = Lba48 → wf_drive v → drive_idle v → holds s v →
  n_sectors v ≤ 2 ^ 48 → op_ok o → op_count o ≤ Z.of_nat fuel → served v o →
  ∃ rs' v', ata_step fuel o (attached id rs) v = Done ((disk_step (n_sectors v) s o).1, attached id rs', v')
    ∧ wf_drive v' ∧ drive_idle v' ∧ holds (disk_step (n_sectors v) s o).2 v' ∧ n_sectors v' = n_sectors v ∧ lag v' = lag v.
Proof.
  intros Hm Hwf Hid Hs Hcap (Hl & Hn & Hd) Hf Hsv. unfold ata_step, disk_step.
  assert (Hl0 : 0 ≤ op_lba o) by apply Hl.
  destruct (decide (op_lba o + op_count o ≤ n_sectors v)) as [Hfit|Hfit];
    [rewrite (bool_decide_true _ Hfit)|rewrite (bool_decide_false _ Hfit)]; destruct o as [lba n|lba n data]; cbn in *.
  - destruct (read_on_drive id rs lba n v fuel) as (v' & -> & Hms & Hi); try done.
    rewrite (holds_blocks s) by done. eexists _, v'. split; [done|]. pose proof Hms as (Hse & Hns & _ & Hlg).
    split; [by eapply same_media_wf|]. split; [done|]. split; [|done]. intros l. rewrite Hse, Hns. apply Hs.
  - destruct Hd as [Hlen Hby]. assert (Hlag : lag v = 0%nat) by (destruct Hsv; [done|lia]).
    destruct (write_on_drive id rs lba n data v fuel) as (v' & -> & Hd & Ho & Hwf' & Hns & Hlg & Hi); try done.
    eexists _, v'. split; [done|]. split; [done|]. split; [done|]. split; [|done]. intros l Hl'. unfold put_blocks. case_bool_decide as Hin.
    + replace l with (lba + Z.of_nat (Z.to_nat (l - lba))) at 1 by lia.
      rewrite (sectors_bytes_lookup (sector v') lba (Z.to_nat n) data (Z.to_nat (l - lba)));
        [do 2 f_equal; lia| |done|lia]. intros x Hx. apply Hwf'. lia.
    + rewrite Ho by done. apply Hs. lia.
  - destruct (read_aborts id rs lba n v fuel) as (v' & -> & Hms & Hi); try done; [lia..|].
    eexists _, v'. split; [done|]. pose proof Hms as (Hse & Hns & _ & Hlg).
    split; [by eapply same_media_wf|]. split; [done|]. split; [|done]. intros l. rewrite Hse, Hns. apply Hs.
  - destruct Hd as [Hlen Hby]. destruct (write_aborts id rs lba n data v fuel) as (v' & -> & Hms & Hi); try done; [lia..|].
    eexists _, v'. split; [done|]. pose proof Hms as (Hse & Hns & _ & Hlg).
    split; [by eapply same_media_wf|]. split; [done|]. split; [|done]. intros l. rewrite Hse, Hns. apply Hs.
Qed.
Lemma ata_run_refines fuel os id rs s v : addressing_mode id = Lba48 → wf_drive v → drive_idle v → holds s v →
  n_sectors v ≤ 2 ^ 48 → Forall op_ok os → Forall (λ o, op_count o ≤ Z.of_nat fuel) os → Forall (served v) os →
  ∃ rs' v', ata_run fuel os (attached id rs) v = Done ((disk_run (n_sectors v) s os).1, attached id rs', v')
    ∧ wf_drive v' ∧ drive_idle v' ∧ holds (disk_run (n_sectors v) s os).2 v' ∧ n_sectors v' = n_sectors v.
Proof.
  intros Hm Hwf Hid Hs Hcap Hok. revert rs s v Hwf Hid Hs Hcap.
  induction Hok as [|o os Ho _ IH]; intros rs s v Hwf Hid Hs Hcap Hf Hsv; [by exists rs, v|].
  apply Forall_cons in Hf as [Hf1 Hf2]. apply Forall_cons in Hsv as [Hsv1 Hsv2]. cbn [ata_run disk_run].
  destruct (ata_step_refines fuel o id rs s v) as (rs1 & v1 & -> & Hwf1 & Hid1 & Hs1 & Hn1 & Hlg1); try done.
  cbn [mbind outcome_bind]. destruct (disk_step (n_sectors v) s o) as [r s1]. cbn [fst snd] in *.
  assert (Hsv2' : Forall (served v1) os).
  { eapply Forall_impl; [exact Hsv2|]. intros []; simpl; [done|]. by rewrite Hlg1, Hn1. }
  destruct (IH rs1 s1 v1) as (rs2 & v2 & -> & Hwf2 & Hid2 & Hs2 & Hn2); try done; [by rewrite Hn1|].
  rewrite Hn1 in *. cbn [mbind outcome_bind]. destruct (disk_run (n_sectors v) s1 os) as [r2 s2]. by exists rs2, v2.
Qed.

(** ** A drive that is not ready at once *)

(** It waits for words that the driver does not have: [n] more do not fill the
    sector, and there is no interrupt. *)
Definition starved (n : nat) v : Prop :=
  working v = false ∧ match state v with
    | Preparing _ _ _ => (n ≤ 256)%nat | DataOut ws _ _ => (length ws + n < 256)%nat | _ => False end.
Lemma write_words_starved a n bs v : io_base a = PRIM_ATA → length bs = (2 * n)%nat → starved n v →
  ∃ v', write_words n a bs v = Done v' ∧ starved 0 v'.
Proof.
  intros Ha. revert bs v. induction n as [|n IH]; intros bs v Hl Hst; [by exists v|].
  destruct bs as [|lo [|hi bs]]; simpl in Hl; try lia. cbn [write_words].
  apply (IH bs (write_data_port a (lo + 256 * hi) v)); [lia|]. destruct Hst as [Hw Hst].
  assert (Hr : write_data_port a (lo + 256 * hi) v
    = match state v with DataOut ws lba more => out_next v (ws ++ [lo + 256 * hi]) lba more | _ => tick v end).
  { unfold write_data_port, outw. rewrite Ha. cbn. rewrite Hw. by destruct (state v). }
  rewrite Hr. unfold starved. destruct (state v) as [| |w l m|ws l m] eqn:Hs; [done|done| |].
  - unfold tick. rewrite Hs. destruct w; cbn; (split; [done|lia]).
  - unfold out_next. rewrite bool_decide_true by (rewrite length_app; simpl; lia). cbn. rewrite length_app. simpl. split; [done|lia].
Qed.
Lemma starved_spins fuel k a v : starved 0 v → completed k a = false → spin_until (completed k) fuel a v = NoFuel.
Proof.
  intros [Hw _] Hk. induction fuel as [|fuel IH]; cbn [spin_until]; rewrite Hk; [done|].
  cbn [int_pending drive_line]. by rewrite Hw.
Qed.
Lemma slow_drive_hangs id rs lba n data v fuel : addressing_mode id = Lba48 → lag v ≠ 0%nat →
  0 ≤ lba → 0 < n < 2 ^ 16 → lba + n ≤ n_sectors v → n_sectors v ≤ 2 ^ 48 → Z.of_nat (length data) = 512 * n →
  ata_step fuel (WriteOp lba n data) (attached id rs) v = NoFuel.
Proof.
  intros Hm Hlag Hl Hn Hb Hs Hlen. unfold ata_step.
  set (a := running id (rs ++ [(false, None)]) (writing (length rs) (512 * n) (drop 512 data))).
  destruct (write_words_starved a 256 (take 512 data) (run_command 0x34 (addressed lba n v))) as (v' & Hw & Hst).
  - done.
  - rewrite length_take. lia.
  - rewrite run_write by done. destruct (lag v) as [|w]; [done|].
    unfold starved. cbn [working state proceed prepare]. split; [done|lia].
  - rewrite (ata_write48 id rs lba n fuel data v v') by done. cbn [mbind outcome_bind]. unfold complete.
    rewrite starved_spins; [done|done|]. unfold completed. change (requests _) with (rs ++ [(false, None) : bool * option AtaIoResult]).
    by rewrite last_request.
Qed.

(** C13: the driver and a disk.  On a drive with 48-bit addresses, at most 2^48
    sectors of 512 bytes and no multiple mode, take operations with addresses below
    2^48 and 1 to 65535 sectors, the data of a write being exactly its sectors.  Any
    sequence of reads and of writes, each waited for, returns exactly what an array
    of blocks of 512 bytes would, with as many interrupts as sectors: a read returns
    the blocks last written, a write changes its blocks and no other, an operation
    beyond the end of the drive fails with its address and changes nothing; after it
    the device and the drive are idle and the drive holds the blocks.  This holds if
    the drive is ready for the first sector of a write by the time the command is
    given ([lag v = 0]), or if all the writes are beyond its end.  On any other drive
    a write of sectors it has never returns: [write] sends the first sector without
    waiting for the drive to ask for it, the words are lost, and the interrupt that
    would end the command never comes. *)
Theorem ata_refines_disk fuel os id rs s v : addressing_mode id = Lba48 → wf_drive v → drive_idle v → holds s v →
  n_sectors v ≤ 2 ^ 48 →
  (Forall op_ok os → Forall (λ o, op_count o ≤ Z.of_nat fuel) os → Forall (served v) os →
   ∃ rs' v', ata_run fuel os (attached id rs) v = Done ((disk_run (n_sectors v) s os).1, attached id rs', v')
     ∧ wf_drive v' ∧ drive_idle v' ∧ holds (disk_run (n_sectors v) s os).2 v' ∧ n_sectors v' = n_sectors v)
  ∧ (∀ lba n data, op_ok (WriteOp lba n data) → ¬ served v (WriteOp lba n data) →
     ata_step fuel (WriteOp lba n data) (attached id rs) v = NoFuel).
Proof.
  intros Hm Hwf Hid Hs Hcap. split; [by apply ata_run_refines|].
  intros lba n data (Hl & Hn & Hlen & _) Hns. cbn in Hl, Hn, Hns.
  apply slow_drive_hangs; [done|naive_solver|apply Hl|done| |done|done].
  destruct (decide (lba + n ≤ n_sectors v)); [done|]. destruct Hns. right. lia.
Qed.

(** ** Identification *)

Lemma take_words_bytes ws : Forall (in_width 16) ws → take_words (length ws) (bytes_of ws) = Done (ws, []).
Proof.
  induction 1 as [|w ws Hw _ IH]; [done|].
  change (bytes_of (w :: ws)) with (w mod 256 :: (w / 256) mod 256 :: bytes_of ws). cbn [length take_words]. rewrite IH.
  cbn [mbind outcome_bind]. do 3 f_equal. unfold in_width in Hw. change (2 ^ 16) with (256 * 256) in Hw.
  rewrite (Z.mod_small (w / 256)), Z.add_comm, <- Z.div_mod;
    [done|lia|split; [apply Z.div_pos; lia|apply Z.div_lt_upper_bound; lia]].
Qed.
(** The interrupt that ends the identification. *)
Lemma irq_identifies sz id v : wf_drive v → state v = DataIn (identity v) 0 0 →
  ata_irq_entry (running_at sz id [(false, None)] (reading 0 AtaIdentifyDevice (Some OnIdentify) 512 [])) v
  = Done (device (logical_sector_size (identity v)) (identity v) [finished AtaIdentifyDevice AtaSuccess []], in_next v 0 0).
Proof.
  intros [_ Hid] Hv. erewrite irq_entry_running;
    [|unfold prepared; by rewrite Hv|by apply in_next_prepared|by apply (irq_transfer_in _ _ _ _ _ _ _ _ (identity v) 0 0)].
  change (in_next (proceed _ _ _ _ v) 0 0) with (in_next v 0 0).
  change (working (in_next v 0 0)) with false. change (state (in_next v 0 0)) with Quiet. cbn beta iota.
  unfold irq_complete. destruct (status_flags (in_next v 0 0) (in_next_prepared v 0 0)) as (_ & -> & -> & _).
  change (error_reg (in_next v 0 0)) with 0. change (working (in_next v 0 0)) with false.
  cbn [negb andb unwrap command_queue running_at set_queue mbind outcome_bind].
  rewrite bool_decide_true by done. cbn [negb req_err reading completion buffer app run_callback mbind outcome_bind].
  destruct Hid as [Hlen Hw]. change 256%nat with 256%nat. rewrite <- Hlen, take_words_bytes by done. done.
Qed.
(** [init] on a drive with sectors of 512 bytes: the device that it makes is the one
    for which reading and writing are proved above, with the identification data of
    the drive and one request, finished, in the store; one interrupt is enough. *)
Theorem init_attaches fuel v : wf_drive v → drive_idle v → Z.testbit (select_reg v) 4 = false → error_reg v = 0 →
  logical_sector_size (identity v) = 512 → (0 < fuel)%nat →
  ∃ v', ata_init fuel PRIM_ATA PRIM_ATA_CTRL false v
    = Done (Ok (attached (identity v) [finished AtaIdentifyDevice AtaSuccess []]), v') ∧ same_media v v' ∧ drive_idle v'.
Proof.
  intros Hwf (Hq & Hi & Hc) Hs He Hsz Hf. destruct fuel as [|fuel]; [lia|]. unfold ata_init.
  assert (Hst : read_byte 7 PRIM_ATA v = (0x40, v)).
  { rewrite status_read by (unfold prepared; by rewrite Hq). unfold status_of, is_busy. cbn [working state error_reg proceed]. rewrite Hq, He. f_equal.
    destruct v; cbn in *. by subst. }
  rewrite Hst, (bool_decide_false (64 = 255)), (bool_decide_false (64 = 0)) by done. cbn [orb]. unfold identify.
  fold (device 0 (replicate 256 0) []).
  set (w := set_regs (count_reg v) (low_reg v) (mid_reg v) (high_reg v) (select_reg v) 0 v).
  change (enable_irq _ v) with w. rewrite send_command by done. cbn [mbind outcome_bind length app].
  change (run_command (discriminant _) w) with (proceed (sector v) (DataIn (identity v) 0 0) true 0 w).
  change (link_to_ioreq _ 0) with (reading 0 AtaIdentifyDevice (Some OnIdentify) 512 []).
  unfold complete. rewrite spin_until_irq by done. rewrite irq_identifies by done. cbn [mbind outcome_bind].
  rewrite spin_until_done by done. change (identity (proceed _ _ _ _ w)) with (identity v). rewrite Hsz.
  cbn [mbind outcome_bind]. eexists. split; [done|]. done.
Qed.
End on_drive.

Section lba24.
Context `{MB : ModularBitfield} {D : Type} `{PB : PortBus D} `{IL : IntLine D}.
Lemma write24_loop_panics turns fuel lba data (a : AtaDevice) (d : D) : addressing_mode (identify_data a) = Lba24 →
  Z.of_nat (length data) < sector_sz a → write24_loop (S turns) fuel lba 1 1 data a d = Panicked.
Proof.
  intros Hm Hlen. cbn [write24_loop]. rewrite bool_decide_false by done.
  unfold set_lba, set_sectors_count, out_lba_byte. rewrite Hm, !low_byte_u64, low_byte_u16. cbn [mbind outcome_bind].
  change (u16 (u16 (1 + 1) - 1)) with 1. unfold drain. by rewrite bool_decide_false by lia.
Qed.
(** With 28-bit addresses, a write of one sector panics, whatever the drive is: the
    first sector has been taken out of the data when the loop drains its bytes. *)
Theorem lba24_write_panics fuel lba data (a : AtaDevice) (d : D) :
  addressing_mode (identify_data a) = Lba24 → 0 < sector_sz a → Z.of_nat (length data) < 2 * sector_sz a →
  ata_write fuel lba 1 data a d = Panicked.
Proof.
  intros Hm Hsz Hlen. unfold ata_write, set_lba, set_sectors_count, out_lba_byte.
  rewrite Hm, !low_byte_u64, low_byte_u16. cbn [mbind outcome_bind].
  rewrite write24_loop_panics; [done|done|rewrite length_drop; lia].
Qed.
End lba24.

(** * Examples *)

#[local] Existing Instances shifts shifts_laws.

Definition demo_identity : AtaIdentify := <[83%nat := 0x400]> (replicate 256 0).
Definition demo_drive : drive :=
  {| sector l := replicate 256 (l mod 65536); n_sectors := 16; identity := demo_identity; lag := 0; count_reg := (0, 0); low_reg := (0, 0);
     mid_reg := (0, 0); high_reg := (0, 0); select_reg := 0; control_reg := 0; state := Quiet; working := false; error_reg := 0 |}.
Lemma demo_drive_wf : wf_drive demo_drive.
Proof.
  split.
  - intros l Hl. split; [done|]. apply Forall_replicate. apply Z.mod_pos_bound. lia.
  - split; [done|]. apply Forall_insert; [apply Forall_replicate|]; done.
Qed.

Lemma ata_refines_disk_witness : ∃ x y z a v',
  ata_run 2 [WriteOp 3 2 (replicate 1024 7); ReadOp 4 2; ReadOp 15 2] (attached demo_identity []) demo_drive = Done ([x; y; z], a, v')
  ∧ io_data y = Some (replicate 512 7 ++ concat (replicate 256 [5; 0])) ∧ io_result z = AtaFailure {| code := CommandAbort; err_lba := 15 |}.
Proof.
  destruct (ata_refines_disk 2 [WriteOp 3 2 (replicate 1024 7); ReadOp 4 2; ReadOp 15 2] demo_identity []
    (λ l, bytes_of (sector demo_drive l)) demo_drive) as [Hrun _];
    [done|exact demo_drive_wf|done|done|done|].
  destruct Hrun as (rs' & v' & H & _); [by repeat constructor|repeat constructor; cbn; lia|repeat constructor; by left|].
  do 4 eexists. exists v'. split; [exact H|]. split; vm_compute; reflexivity.
Defined.
Lemma init_attaches_witness : ∃ v', ata_init 1 PRIM_ATA PRIM_ATA_CTRL false demo_drive
  = Done (Ok (attached demo_identity [finished AtaIdentifyDevice AtaSuccess []]), v').
Proof.
  destruct (init_attaches 1 demo_drive) as (v' & H & _); [exact demo_drive_wf|done|done|done|done|lia|]. exists v'. exact H.
Defined.
Lemma lba24_write_panics_witness : ata_write 1 0 1 (replicate 512 7) (attached (replicate 256 0) []) demo_drive = Panicked.
Proof. apply lba24_write_panics; done. Defined.
