(* ===== verification/Ide.v ===== *)
(** The IDE controllers (src/drivers/ide/mod.rs): the ports of a controller, found
    in the base address registers of its PCI function, and the drives behind
    them. *)

From S2P Require Import Prelude Partitions Addr Ports Bitfield Ata AtaSpec.
From S2P Require Pci.

(** * Identifiers *)

Definition internal_identifier (i : AtaDeviceIdentifier) : Z := u64 (u64 (ide_controller i * 4) + device_id i).
(** The number that [AtaDevice::init] gives to a drive of a controller. *)
Definition ctlr_dev_id (is_slave is_prim : bool) : Z :=
  match is_slave, is_prim with
  | false, true => 0
  | false, false => 1
  | true, true => 2
  | true, false => 3
  end.
Definition ide_identifier (ctrl_id : Z) (is_slave is_prim : bool) : AtaDeviceIdentifier :=
  {| disk_type := IDE; ide_controller := ctrl_id; device_id := ctlr_dev_id is_slave is_prim |}.

(** The drives that [ata_devices] has, by internal identifier: the identifiers are
    compared by it. *)
Abbreviation registry := (gmap Z AtaDevice).

Record IdeController := {
  primary_master : option AtaDeviceIdentifier; primary_slave : option AtaDeviceIdentifier;
  secondary_master : option AtaDeviceIdentifier; secondary_slave : option AtaDeviceIdentifier
}.

(** * Ports *)

Definition port_or (p default : Z) : IOPort := if bool_decide (p ≠ 0) then p else default.
(** Of the four first base address registers. *)
Definition controller_ports (prim prim_ctrl sec sec_ctrl : Pci.MappedRegister) : Z * Z * Z * Z :=
  match prim, prim_ctrl, sec, sec_ctrl with
  | Pci.IO p, Pci.IO pc, Pci.IO s, Pci.IO sc =>
      (port_or p PRIM_ATA, port_or pc PRIM_ATA_CTRL, port_or s SEC_ATA, port_or sc SEC_ATA_CTRL)
  | _, _, _, _ => (PRIM_ATA, PRIM_ATA_CTRL, SEC_ATA, SEC_ATA_CTRL)
  end.

Section controller.
Context `{MB : ModularBitfield} {D : Type} `{PB : PortBus D} `{IL : IntLine D}.
Implicit Types (devs : registry) (d : D).

(** [AtaDevice::init]: the drive is registered, then asked for its identity.  While
    it answers, no other drive of the registry runs a command, and the interrupt is
    for this one. *)
Definition device_init (fuel : nat) (io ctrl : Z) (slave : bool) (ctrl_id : Z) (is_prim : bool) devs d :
    outcome (result AtaDeviceIdentifier AtaErrorCode * registry * D) :=
  '(r, d) ← ata_init fuel io ctrl slave d;
  match r with
  | Err e => Done (Err e, devs, d)
  | Ok a =>
      let i := ide_identifier ctrl_id slave is_prim in
      Done (Ok i, <[internal_identifier i := a]> devs, d)
  end.
Definition ok {A E} (r : result A E) : option A := match r with Ok x => Some x | Err _ => None end.
(** [IdeController::init_from_pci], on the registers of the function; [ctrls] are the
    controllers so far. *)
Definition init_from_pci (fuel : nat) (registers : list Pci.MappedRegister) (ctrls : list IdeController) devs d :
    outcome (list IdeController * registry * D) :=
  prim_chan ← unwrap (registers !! 0%nat);
  prim_chan_ctrl ← unwrap (registers !! 1%nat);
  sec_chan ← unwrap (registers !! 2%nat);
  sec_chan_ctrl ← unwrap (registers !! 3%nat);
  let '(p0, p1, p2, p3) := controller_ports prim_chan prim_chan_ctrl sec_chan sec_chan_ctrl in
  let controller_id := Z.of_nat (length ctrls) in
  '(pm, devs, d) ← device_init fuel p0 p1 false controller_id true devs d;
  '(ps, devs, d) ← device_init fuel p0 p1 true controller_id true devs d;
  '(sm, devs, d) ← device_init fuel p2 p3 false controller_id true devs d;
  '(ss, devs, d) ← device_init fuel p2 p3 true controller_id true devs d;
  Done (ctrls ++ [{| primary_master := ok pm; primary_slave := ok ps; secondary_master := ok sm; secondary_slave := ok ss |}], devs, d).
(** [ide_init], on the IDE controllers of the PCI bus. *)
Fixpoint ide_init (fuel : nat) (functions : list (list Pci.MappedRegister)) (ctrls : list IdeController) devs d :
    outcome (list IdeController * registry * D) :=
  match functions with
  | [] => Done (ctrls, devs, d)
  | regs :: functions => '(ctrls, devs, d) ← init_from_pci fuel regs ctrls devs d; ide_init fuel functions ctrls devs d
  end.

Lemma device_init_spec fuel io ctrl slave c prim devs d r devs' d' :
  device_init fuel io ctrl slave c prim devs d = Done (r, devs', d') →
  (∀ i, ok r = Some i → i = ide_identifier c slave prim)
  ∧ ∀ k, k ≠ internal_identifier (ide_identifier c slave prim) → devs' !! k = devs !! k.
Proof.
  unfold device_init. intros H. inv_done. destruct x as [[a|e] d1]; simplify_eq; [|done].
  split; [by intros i [= <-]|]. intros k Hk. by rewrite lookup_insert_ne.
Qed.

(** At most two drives of a controller are registered, whatever is behind the
    ports: the drives of the secondary channel get the identifiers of those of the
    primary one, and take their place. *)
Theorem ide_channels_share_identifiers fuel regs ctrls devs d ctrls' devs' d' :
  init_from_pci fuel regs ctrls devs d = Done (ctrls', devs', d') →
  let c := Z.of_nat (length ctrls) in
  (∃ x, ctrls' = ctrls ++ [x]
    ∧ (∀ i j, primary_master x = Some i → secondary_master x = Some j → i = j)
    ∧ (∀ i j, primary_slave x = Some i → secondary_slave x = Some j → i = j))
  ∧ ∀ k, k ≠ internal_identifier (ide_identifier c false true) → k ≠ internal_identifier (ide_identifier c true true) →
    devs' !! k = devs !! k.
Proof.
  intros H c. unfold init_from_pci in H. inv_done. destruct (controller_ports _ _ _ _) as [[[p0 p1] p2] p3]. inv_done.
  do 4 (match goal with x : result _ _ * registry * D |- _ => destruct x as [[? ?] ?] end; inv_done).
  repeat match goal with Hi : device_init _ _ _ _ _ _ _ _ = Done _ |- _ => apply device_init_spec in Hi as [? ?] end.
  split.
  - eexists. split; [done|]. cbn [primary_master primary_slave secondary_master secondary_slave]. split; intros i j Hi Hj; naive_solver.
  - intros k Hm Hs. repeat match goal with Hk : ∀ k, k ≠ _ → _ !! k = _ |- _ => rewrite Hk by done; clear Hk end. done.
Qed.
End controller.

(** * An example: a drive on each channel

    Neither channel has a slave: its status reads as zero. *)
#[local] Existing Instances shifts shifts_laws.
Definition on_primary (p : IOPort) : bool := bool_decide (0x1F0 ≤ p < 0x1F8 ∨ p = 0x3F6).
Definition on_secondary (p : IOPort) : bool := bool_decide (0x170 ≤ p < 0x178 ∨ p = 0x376).
Definition drive_in (n : nat) (p : IOPort) (v : drive) : Z * drive :=
  if bool_decide (p = 0x1F7) && Z.testbit (select_reg v) 4 then (0, v) else in_port n p v.
#[global] Instance two_drives_bus : PortBus (drive * drive) := {|
  out_port n p b d :=
    if on_primary p then (out_port n p b d.1, d.2)
    else if on_secondary p then (d.1, out_port n (p + 0x80) b d.2) else d;
  in_port n p d :=
    if on_primary p then let '(x, v) := drive_in n p d.1 in (x, (v, d.2))
    else if on_secondary p then let '(x, v) := drive_in n (p + 0x80) d.2 in (x, (d.1, v)) else (0, d)
|}.
#[global] Instance two_drives_line : IntLine (drive * drive) := {| int_pending d := int_pending d.1 || int_pending d.2 |}.
Lemma ide_channels_share_identifiers_witness : ∃ x devs' d',
  init_from_pci 1 [Pci.IO 0; Pci.IO 0; Pci.IO 0; Pci.IO 0] [] ∅ (demo_drive, demo_drive) = Done ([x], devs', d')
  ∧ primary_master x = secondary_master x ∧ devs' !! 1 = None ∧ ctrl_base <$> devs' !! 0 = Some SEC_ATA_CTRL.
Proof.
  assert (Hc : match init_from_pci 1 [Pci.IO 0; Pci.IO 0; Pci.IO 0; Pci.IO 0] [] ∅ (demo_drive, demo_drive) with
    | Done ([x], devs, _) => is_Some (primary_master x) ∧ is_Some (secondary_master x) ∧ ctrl_base <$> devs !! 0 = Some SEC_ATA_CTRL
    | _ => False
    end) by (vm_compute; repeat split; by eexists).
  destruct (init_from_pci _ _ _ _ _) as [[[cs devs'] d']| | |] eqn:E; [|destruct Hc..].
  destruct (ide_channels_share_identifiers _ _ _ _ _ _ _ _ E) as [(x & -> & Hm & _) Hk].
  cbn [app] in *. destruct Hc as ([i Hi] & [j Hj] & Hc). exists x, devs', d'. split; [exact eq_refl|].
  split; [rewrite Hi, Hj, (Hm i j Hi Hj); exact eq_refl|]. split; [rewrite Hk by done; exact eq_refl|exact Hc].
Defined.
