(* ===== verification/Fis.v ===== *)
(** The frames that an AHCI controller and a drive exchange
    (src/drivers/ahci/fis.rs): the accessors of their registers. *)

From S2P Require Import Prelude Partitions Addr Bitfield.

(** * Frames

    A frame is the list of its dwords; its first byte is its type. *)
Abbreviation FIS := (list Z).
Definition dword (f : FIS) (i : nat) : Z := nth (i - 1) f 0.
Definition set_dword (f : FIS) (i : nat) (x : Z) : FIS := <[(i - 1)%nat := x]> f.

Inductive FISType :=
  | RegisterHostToDevice | RegisterDeviceToHost | DMAActivateFIS | DMASetupFIS | DataFIS | BISTActivateFIS | PIOSetupFIS
  | SetDeviceBitsFIS | UnknownFIS.
Definition FISType_from_u8 (value : Z) : FISType :=
  if bool_decide (value = 0x27) then RegisterHostToDevice
  else if bool_decide (value = 0x34) then RegisterDeviceToHost
  else if bool_decide (value = 0x39) then DMAActivateFIS
  else if bool_decide (value = 0x41) then DMASetupFIS
  else if bool_decide (value = 0x46) then DataFIS
  else if bool_decide (value = 0x58) then BISTActivateFIS
  else if bool_decide (value = 0x5F) then PIOSetupFIS
  else if bool_decide (value = 0xA1) then SetDeviceBitsFIS
  else UnknownFIS.
Definition u8_from_FISType (value : FISType) : Z :=
  match value with
  | RegisterHostToDevice => 0x27 | RegisterDeviceToHost => 0x34 | DMAActivateFIS => 0x39 | DMASetupFIS => 0x41
  | DataFIS => 0x46 | BISTActivateFIS => 0x58 | PIOSetupFIS => 0x5F | SetDeviceBitsFIS => 0xA1 | UnknownFIS => 0xD9
  end.

(** The shapes of the accessors: [((x >> shift) & mask)], [(x & !mask) | (v << shift)],
    and those of a bit. *)
Definition masked (x shift mask : Z) : Z := Z.land (Z.shiftr x shift) mask.
Definition replaced (x mask v shift : Z) : Z := Z.lor (Z.land x (not_w 32 mask)) (shl_w 32 v shift).
Definition bit_set_p (x b : Z) : bool := bool_decide (Z.land x (Z.shiftl 1 b) ≠ 0).
Definition bit_put (x b : Z) (state : bool) : Z :=
  if state then Z.lor (Z.land x (not_w 32 (Z.shiftl 1 b))) (Z.shiftl 1 b) else Z.land x (not_w 32 (Z.shiftl 1 b)).

(** The six bytes of an address, in three kinds of frames. *)
Definition fis_lba (f : FIS) : Z :=
  let lba_1 := Z.land (dword f 2) 0xff in
  let lba_2 := masked (dword f 2) 8 0xff in
  let lba_3 := masked (dword f 2) 16 0xff in
  let lba_4 := Z.land (dword f 3) 0xff in
  let lba_5 := masked (dword f 3) 8 0xff in
  let lba_6 := masked (dword f 3) 16 0xff in
  Z.lor (Z.lor (Z.lor (Z.lor (Z.lor lba_1 (Z.shiftl lba_2 8)) (Z.shiftl lba_3 16)) (Z.shiftl lba_4 24)) (Z.shiftl lba_5 32))
    (Z.shiftl lba_6 40).
Definition fis_set_lba (f : FIS) (lba : Z) : FIS :=
  let lba_1 := Z.land lba 0xff in
  let lba_2 := masked lba 8 0xff in
  let lba_3 := masked lba 16 0xff in
  let lba_4 := masked lba 24 0xff in
  let lba_5 := masked lba 32 0xff in
  let lba_6 := masked lba 40 0xff in
  let f := set_dword f 2 (Z.lor (Z.lor (Z.lor (Z.land (dword f 2) (not_w 32 0xffffff)) lba_1) (Z.shiftl lba_2 8)) (Z.shiftl lba_3 16)) in
  set_dword f 3 (Z.lor (Z.lor (Z.lor (Z.land (dword f 3) (not_w 32 0xffffff)) lba_4) (Z.shiftl lba_5 8)) (Z.shiftl lba_6 16)).


(** ** Register, host to device *)

Definition h2d_new_empty : FIS := [u8_from_FISType RegisterHostToDevice; 0; 0; 0; 0].
Definition h2d_auxiliary (f : FIS) : Z := dword f 5.
Definition h2d_set_auxiliary (f : FIS) (v : Z) : FIS := set_dword f 5 v.
Definition h2d_isochronous_command_compl (f : FIS) : Z := u8 (masked (dword f 4) 16 0xff).
Definition h2d_set_isochronous_command_compl (f : FIS) (v : Z) : FIS := set_dword f 4 (replaced (dword f 4) 0xff0000 v 16).
Definition h2d_device (f : FIS) : Z := u8 (masked (dword f 2) 24 0xff).
Definition h2d_set_device (f : FIS) (v : Z) : FIS := set_dword f 2 (replaced (dword f 2) 0xff000000 v 24).
Definition h2d_control (f : FIS) : Z := u8 (masked (dword f 4) 24 0xff).
Definition h2d_set_control (f : FIS) (v : Z) : FIS := set_dword f 4 (replaced (dword f 4) 0xff000000 v 24).
Definition h2d_command (f : FIS) : Z := u8 (masked (dword f 1) 16 0xff).
Definition h2d_set_command (f : FIS) (v : Z) : FIS := set_dword f 1 (replaced (dword f 1) 0xff0000 v 16).
Definition h2d_features (f : FIS) : Z :=
  let features_1 := masked (dword f 1) 24 0xff in
  let features_2 := masked (dword f 3) 24 0xff in
  u16 (Z.lor (shl_w 32 features_2 8) features_1).
Definition h2d_set_features (f : FIS) (features : Z) : FIS :=
  let features_1 := Z.land features 0xff in
  let features_2 := masked features 8 0xff in
  let f := set_dword f 1 (replaced (dword f 1) 0xff000000 features_1 24) in
  set_dword f 3 (replaced (dword f 3) 0xff000000 features_2 24).
Definition h2d_lba : FIS → Z := fis_lba.
Definition h2d_set_lba : FIS → Z → FIS := fis_set_lba.
Definition h2d_count (f : FIS) : Z := u16 (Z.land (dword f 4) 0xffff).
Definition h2d_set_count (f : FIS) (v : Z) : FIS := set_dword f 4 (replaced (dword f 4) 0xffff v 0).
Definition h2d_pm_port (f : FIS) : Z := u8 (masked (dword f 1) 8 0xf).
Definition h2d_set_pm_port (f : FIS) (v : Z) : FIS := set_dword f 1 (replaced (dword f 1) 0xf00 v 8).
Definition h2d_command_update_bit (f : FIS) : bool := bit_set_p (dword f 1) 15.
Definition h2d_set_command_update_bit (f : FIS) (state : bool) : FIS := set_dword f 1 (bit_put (dword f 1) 15 state).
(** [Deref]: the bytes that are sent. *)
Definition h2d_deref (f : FIS) : list Z := concat (map (le_bytes 4) f).

(** ** Register, device to host *)

Definition d2h_new_empty : FIS := [u8_from_FISType RegisterDeviceToHost; 0; 0; 0; 0].
Definition d2h_pm_port (f : FIS) : Z := u8 (masked (dword f 1) 8 0xf).
Definition d2h_set_pm_port (f : FIS) (v : Z) : FIS := set_dword f 1 (replaced (dword f 1) 0xf00 v 8).
Definition d2h_interrupt_bit (f : FIS) : bool := bit_set_p (dword f 1) 14.
Definition d2h_set_interrupt_bit (f : FIS) (state : bool) : FIS := set_dword f 1 (bit_put (dword f 1) 14 state).
Definition d2h_status (f : FIS) : Z := u8 (masked (dword f 1) 16 0xff).
Definition d2h_set_status (f : FIS) (v : Z) : FIS := set_dword f 1 (replaced (dword f 1) 0xff0000 v 16).
Definition d2h_error (f : FIS) : Z := u8 (masked (dword f 1) 24 0xff).
Definition d2h_set_error (f : FIS) (v : Z) : FIS := set_dword f 1 (replaced (dword f 1) 0xff000000 v 24).
Definition d2h_count (f : FIS) : Z := u16 (Z.land (dword f 4) 0xffff).
Definition d2h_set_count (f : FIS) (v : Z) : FIS := set_dword f 4 (replaced (dword f 4) 0xffff v 0).
Definition d2h_device (f : FIS) : Z := u8 (masked (dword f 2) 24 0xff).
Definition d2h_set_device (f : FIS) (v : Z) : FIS := set_dword f 2 (replaced (dword f 2) 0xff000000 v 24).
Definition d2h_lba : FIS → Z := fis_lba.
Definition d2h_set_lba : FIS → Z → FIS := fis_set_lba.

(** ** Set device bits *)

Definition sdb_new_empty : FIS := [u8_from_FISType SetDeviceBitsFIS; 0].
Definition sdb_status (f : FIS) : Z :=
  let sta_lo := u8 (masked (dword f 1) 16 7) in
  let sta_hi := u8 (masked (dword f 1) 20 7) in
  Z.lor (shl_w 8 sta_hi 4) sta_lo.
Definition sdb_set_status (f : FIS) (status : Z) : FIS :=
  let sta_lo := Z.land status 7 in
  let sta_hi := masked status 4 7 in
  let f := set_dword f 1 (replaced (dword f 1) (Z.shiftl 7 16) sta_lo 16) in
  set_dword f 1 (replaced (dword f 1) (Z.shiftl 7 20) sta_hi 20).
Definition sdb_pm_port (f : FIS) : Z := u8 (masked (dword f 1) 8 0xf).
Definition sdb_set_pm_port (f : FIS) (v : Z) : FIS := set_dword f 1 (replaced (dword f 1) 0xf00 v 8).
Definition sdb_error (f : FIS) : Z := u8 (masked (dword f 1) 24 0xff).
Definition sdb_set_error (f : FIS) (v : Z) : FIS := set_dword f 1 (replaced (dword f 1) 0xff000000 v 24).
Definition sdb_interrupt (f : FIS) : bool := bit_set_p (dword f 1) 14.
Definition sdb_set_interrupt_bit (f : FIS) (state : bool) : FIS := set_dword f 1 (bit_put (dword f 1) 14 state).

(** ** DMA activate *)

Definition dmaa_new_empty : FIS := [u8_from_FISType DMAActivateFIS].
Definition dmaa_pm_port (f : FIS) : Z := u8 (masked (dword f 1) 8 0xf).
Definition dmaa_set_pm_port (f : FIS) (v : Z) : FIS := set_dword f 1 (replaced (dword f 1) 0xf00 v 8).

(** ** DMA setup *)

Definition dmas_new_empty : FIS := [u8_from_FISType DMASetupFIS; 0; 0; 0; 0; 0; 0].
Definition dmas_direction (f : FIS) : bool := bit_set_p (dword f 1) 13.
Definition dmas_set_direction_bit (f : FIS) (state : bool) : FIS := set_dword f 1 (bit_put (dword f 1) 13 state).
Definition dmas_auto_activate (f : FIS) : bool := bit_set_p (dword f 1) 15.
Definition dmas_set_auto_activate_bit (f : FIS) (state : bool) : FIS := set_dword f 1 (bit_put (dword f 1) 15 state).
Definition dmas_interrupt (f : FIS) : bool := bit_set_p (dword f 1) 14.
Definition dmas_set_interrupt_bit (f : FIS) (state : bool) : FIS := set_dword f 1 (bit_put (dword f 1) 14 state).
Definition dmas_pm_port (f : FIS) : Z := u8 (masked (dword f 1) 8 0xf).
Definition dmas_set_pm_port (f : FIS) (v : Z) : FIS := set_dword f 1 (replaced (dword f 1) 0xf00 v 8).
Definition dmas_dma_transfer_count (f : FIS) : Z := dword f 6.
Definition dmas_set_dma_transfer_count (f : FIS) (v : Z) : FIS := set_dword f 6 v.
Definition dmas_dma_buffer_offset (f : FIS) : Z := dword f 5.
Definition dmas_set_dma_buffer_offset (f : FIS) (offset : Z) : outcome FIS :=
  rust_assert (bool_decide (Z.land offset 3 = 0));;
  Done (set_dword f 5 offset).
Definition dmas_dma_buffer_identifier (f : FIS) : Z := Z.lor (Z.shiftl (dword f 2) 32) (dword f 1).
Definition dmas_set_dma_buffer_identifier (f : FIS) (buffer_id : Z) : FIS :=
  let buffer_id_lo := Z.land buffer_id 0xffffffff in
  let buffer_id_hi := masked buffer_id 32 0xffffffff in
  set_dword (set_dword f 1 buffer_id_lo) 2 buffer_id_hi.

(** ** BIST activate *)

Definition bist_new_empty : FIS := [u8_from_FISType BISTActivateFIS; 0; 0].
Definition bist_pm_port (f : FIS) : Z := u8 (masked (dword f 1) 8 0xf).
Definition bist_set_pm_port (f : FIS) (v : Z) : FIS := set_dword f 1 (replaced (dword f 1) 0xf00 v 8).
Definition bist_data1 (f : FIS) : Z := dword f 1.
Definition bist_set_data1 (f : FIS) (v : Z) : FIS := set_dword f 1 v.
Definition bist_data2 (f : FIS) : Z := dword f 2.
Definition bist_set_data2 (f : FIS) (v : Z) : FIS := set_dword f 2 v.
Definition bist_vendor_specific_test (f : FIS) : bool := bit_set_p (dword f 1) 16.
Definition bist_set_vendor_specific_test (f : FIS) (state : bool) : FIS := set_dword f 1 (bit_put (dword f 1) 16 state).
Definition bist_primitive (f : FIS) : bool := bit_set_p (dword f 1) 18.
Definition bist_set_primitive_bit (f : FIS) (state : bool) : FIS := set_dword f 1 (bit_put (dword f 1) 18 state).
Definition bist_far_end_analog (f : FIS) : bool := bit_set_p (dword f 1) 19.
Definition bist_set_far_end_analog_bit (f : FIS) (state : bool) : FIS := set_dword f 1 (bit_put (dword f 1) 19 state).
Definition bist_far_end_retimed_loopback (f : FIS) : bool := bit_set_p (dword f 1) 20.
Definition bist_set_far_end_retimed_loopback_bit (f : FIS) (state : bool) : FIS := set_dword f 1 (bit_put (dword f 1) 20 state).
Definition bist_bypass_scrambling (f : FIS) : bool := bit_set_p (dword f 1) 21.
Definition bist_set_bypass_scrambling_bit (f : FIS) (state : bool) : FIS := set_dword f 1 (bit_put (dword f 1) 21 state).
Definition bist_align_bypass (f : FIS) : bool := bit_set_p (dword f 1) 22.
Definition bist_set_align_bypass_bit (f : FIS) (state : bool) : FIS := set_dword f 1 (bit_put (dword f 1) 22 state).
Definition bist_far_end_transmit_only (f : FIS) : bool := bit_set_p (dword f 1) 23.
Definition bist_set_far_end_transmit_only_bit (f : FIS) (state : bool) : FIS := set_dword f 1 (bit_put (dword f 1) 23 state).

(** ** PIO setup *)

Definition pios_new_empty : FIS := [u8_from_FISType PIOSetupFIS; 0; 0; 0; 0].
Definition pios_pm_port (f : FIS) : Z := u8 (masked (dword f 1) 8 0xf).
Definition pios_set_pm_port (f : FIS) (v : Z) : FIS := set_dword f 1 (replaced (dword f 1) 0xf00 v 8).
Definition pios_device (f : FIS) : Z := u8 (masked (dword f 2) 24 0xff).
Definition pios_set_device (f : FIS) (v : Z) : FIS := set_dword f 2 (replaced (dword f 2) 0xff000000 v 24).
Definition pios_lba : FIS → Z := fis_lba.
Definition pios_set_lba : FIS → Z → FIS := fis_set_lba.
Definition pios_status (f : FIS) : Z := u8 (masked (dword f 1) 16 0xff).
Definition pios_set_status (f : FIS) (v : Z) : FIS := set_dword f 1 (replaced (dword f 1) 0xff0000 v 16).
Definition pios_error (f : FIS) : Z := u8 (masked (dword f 1) 24 0xff).
Definition pios_set_error (f : FIS) (v : Z) : FIS := set_dword f 1 (replaced (dword f 1) 0xff000000 v 24).
Definition pios_count (f : FIS) : Z := u16 (Z.land (dword f 4) 0xffff).
Definition pios_set_count (f : FIS) (v : Z) : FIS := set_dword f 4 (replaced (dword f 4) 0xffff v 0).
Definition pios_e_status (f : FIS) : Z := u8 (masked (dword f 4) 24 0xff).
Definition pios_set_e_status (f : FIS) (v : Z) : FIS := set_dword f 4 (replaced (dword f 4) 0xff000000 v 24).
Definition pios_transfer_count (f : FIS) : Z := u16 (Z.land (dword f 5) 0xffff).
Definition pios_set_transfer_count (f : FIS) (v : Z) : FIS := set_dword f 5 (replaced (dword f 5) 0xffff v 0).

(** ** Data *)

Definition data_new_empty : FIS := [u8_from_FISType DataFIS].
Definition data_pm_port (f : FIS) : Z := u8 (masked (dword f 1) 8 0xf).
Definition data_set_pm_port (f : FIS) (v : Z) : FIS := set_dword f 1 (replaced (dword f 1) 0xf00 v 8).

(** * The fields

    A field is a list of segments: bits from [src] on of the value, [w] of them, are
    the bits from [off] on of dword [i]. *)
Abbreviation segment := (Z * nat * Z * Z)%type.
Definition seg_ok (n : nat) (s : segment) : Prop := let '(src, i, off, w) := s in (1 ≤ i ≤ n)%nat ∧ 0 ≤ src ∧ 0 ≤ off ∧ 0 ≤ w ∧ off + w ≤ 32.
Definition read_segment (f : FIS) (s : segment) : Z := let '(src, i, off, w) := s in get_ref off w (dword f i).
Definition write_segment (f : FIS) (v : Z) (s : segment) : FIS :=
  let '(src, i, off, w) := s in set_dword f i (put_ref off w (get_ref src w v) (dword f i)).
Definition seg_get (ss : list segment) (f : FIS) : Z := foldr (λ s acc, Z.lor (Z.shiftl (read_segment f s) s.1.1.1) acc) 0 ss.
Definition seg_set (ss : list segment) (f : FIS) (v : Z) : FIS := foldl (λ f s, write_segment f v s) f ss.
(** What a field keeps of a value. *)
Definition seg_value (ss : list segment) (v : Z) : Z := foldr (λ s acc, Z.lor (Z.shiftl (get_ref s.1.1.1 s.2 v) s.1.1.1) acc) 0 ss.

(** An accessor, its segments and the width of its values. *)
Record accessor := { acc_get : FIS → Z; acc_set : FIS → Z → FIS; acc_segments : list segment; acc_width : Z }.
(** The bits of a value that a field has. *)
Definition seg_mask (ss : list segment) : Z := foldr (λ s m, Z.lor (Z.shiftl (Z.ones s.2) s.1.1.1) m) 0 ss.
Definition bit_accessor (get : FIS → bool) (set : FIS → bool → FIS) (b : Z) : accessor :=
  {| acc_get f := Z.b2z (get f); acc_set f v := set f (bool_decide (v = 1)); acc_segments := [(0, 1%nat, b, 1)]; acc_width := 1 |}.
Definition acc (get : FIS → Z) (set : FIS → Z → FIS) (ss : list segment) (w : Z) : accessor :=
  {| acc_get := get; acc_set := set; acc_segments := ss; acc_width := w |}.
Definition h2d_fields : list accessor :=
  [acc h2d_auxiliary h2d_set_auxiliary [(0, 5%nat, 0, 32)] 32;
   acc h2d_isochronous_command_compl h2d_set_isochronous_command_compl [(0, 4%nat, 16, 8)] 8;
   acc h2d_device h2d_set_device [(0, 2%nat, 24, 8)] 8;
   acc h2d_control h2d_set_control [(0, 4%nat, 24, 8)] 8;
   acc h2d_command h2d_set_command [(0, 1%nat, 16, 8)] 8;
   acc h2d_features h2d_set_features [(0, 1%nat, 24, 8); (8, 3%nat, 24, 8)] 16;
   acc h2d_lba h2d_set_lba [(0, 2%nat, 0, 24); (24, 3%nat, 0, 24)] 48;
   acc h2d_count h2d_set_count [(0, 4%nat, 0, 16)] 16;
   acc h2d_pm_port h2d_set_pm_port [(0, 1%nat, 8, 4)] 4;
   bit_accessor h2d_command_update_bit h2d_set_command_update_bit 15].
Definition d2h_fields : list accessor :=
  [acc d2h_pm_port d2h_set_pm_port [(0, 1%nat, 8, 4)] 4;
   bit_accessor d2h_interrupt_bit d2h_set_interrupt_bit 14;
   acc d2h_status d2h_set_status [(0, 1%nat, 16, 8)] 8;
   acc d2h_error d2h_set_error [(0, 1%nat, 24, 8)] 8;
   acc d2h_count d2h_set_count [(0, 4%nat, 0, 16)] 16;
   acc d2h_device d2h_set_device [(0, 2%nat, 24, 8)] 8;
   acc d2h_lba d2h_set_lba [(0, 2%nat, 0, 24); (24, 3%nat, 0, 24)] 48].
Definition sdb_fields : list accessor :=
  [acc sdb_status sdb_set_status [(0, 1%nat, 16, 3); (4, 1%nat, 20, 3)] 8;
   acc sdb_pm_port sdb_set_pm_port [(0, 1%nat, 8, 4)] 4;
   acc sdb_error sdb_set_error [(0, 1%nat, 24, 8)] 8;
   bit_accessor sdb_interrupt sdb_set_interrupt_bit 14].
Definition dmaa_fields : list accessor :=
  [acc dmaa_pm_port dmaa_set_pm_port [(0, 1%nat, 8, 4)] 4].
Definition dmas_fields : list accessor :=
  [bit_accessor dmas_direction dmas_set_direction_bit 13;
   bit_accessor dmas_auto_activate dmas_set_auto_activate_bit 15;
   bit_accessor dmas_interrupt dmas_set_interrupt_bit 14;
   acc dmas_pm_port dmas_set_pm_port [(0, 1%nat, 8, 4)] 4;
   acc dmas_dma_transfer_count dmas_set_dma_transfer_count [(0, 6%nat, 0, 32)] 32].
Definition bist_fields : list accessor :=
  [acc bist_pm_port bist_set_pm_port [(0, 1%nat, 8, 4)] 4;
   acc bist_data2 bist_set_data2 [(0, 2%nat, 0, 32)] 32;
   bit_accessor bist_vendor_specific_test bist_set_vendor_specific_test 16;
   bit_accessor bist_primitive bist_set_primitive_bit 18;
   bit_accessor bist_far_end_analog bist_set_far_end_analog_bit 19;
   bit_accessor bist_far_end_retimed_loopback bist_set_far_end_retimed_loopback_bit 20;
   bit_accessor bist_bypass_scrambling bist_set_bypass_scrambling_bit 21;
   bit_accessor bist_align_bypass bist_set_align_bypass_bit 22;
   bit_accessor bist_far_end_transmit_only bist_set_far_end_transmit_only_bit 23].
Definition pios_fields : list accessor :=
  [acc pios_pm_port pios_set_pm_port [(0, 1%nat, 8, 4)] 4;
   acc pios_device pios_set_device [(0, 2%nat, 24, 8)] 8;
   acc pios_lba pios_set_lba [(0, 2%nat, 0, 24); (24, 3%nat, 0, 24)] 48;
   acc pios_status pios_set_status [(0, 1%nat, 16, 8)] 8;
   acc pios_error pios_set_error [(0, 1%nat, 24, 8)] 8;
   acc pios_count pios_set_count [(0, 4%nat, 0, 16)] 16;
   acc pios_e_status pios_set_e_status [(0, 4%nat, 24, 8)] 8;
   acc pios_transfer_count pios_set_transfer_count [(0, 5%nat, 0, 16)] 16].
Definition data_fields : list accessor :=
  [acc data_pm_port data_set_pm_port [(0, 1%nat, 8, 4)] 4].
Definition fis_kinds : list (nat * list accessor) :=
  [(5%nat, h2d_fields); (5%nat, d2h_fields); (2%nat, sdb_fields); (1%nat, dmaa_fields); (7%nat, dmas_fields); (3%nat, bist_fields);
   (5%nat, pios_fields); (1%nat, data_fields)].

Definition fis_wf (n : nat) (f : FIS) : Prop := length f = n ∧ Forall (in_width 32) f.

(** ** Segments *)

Definition seg_disjoint (s t : segment) : Prop :=
  let '(_, i, off, w) := s in let '(_, j, off', w') := t in i ≠ j ∨ off + w ≤ off' ∨ off' + w' ≤ off.
#[global] Instance seg_ok_dec n s : Decision (seg_ok n s).
Proof. destruct s as [[[src i] off] w]. unfold seg_ok. apply _. Defined.
#[global] Instance seg_disjoint_dec s t : Decision (seg_disjoint s t).
Proof. destruct s as [[[src i] off] w], t as [[[src' j] off'] w']. unfold seg_disjoint. apply _. Defined.

Lemma dword_set_same f i x : (1 ≤ i ≤ length f)%nat → dword (set_dword f i x) i = x.
Proof. intros Hi. unfold dword, set_dword. by rewrite nth_lookup, list_lookup_insert_eq by lia. Qed.
Lemma dword_set_other f i j x : (1 ≤ i)%nat → (1 ≤ j)%nat → i ≠ j → dword (set_dword f i x) j = dword f j.
Proof. intros Hi Hj Hij. unfold dword, set_dword. rewrite !nth_lookup, list_lookup_insert_ne by lia. done. Qed.
Lemma dword_width n f i : fis_wf n f → in_width 32 (dword f i).
Proof.
  intros [_ Hf]. unfold dword. rewrite nth_lookup. destruct (f !! _) as [x|] eqn:E; [by eapply Forall_lookup_1 in E|done].
Qed.
Lemma set_dword_wf n f i x : fis_wf n f → in_width 32 x → fis_wf n (set_dword f i x).
Proof. intros [Hl Hf] Hx. split; [by unfold set_dword; rewrite length_insert|by apply Forall_insert]. Qed.
Lemma get_ref_width off w x : 0 ≤ w → in_width w (get_ref off w x).
Proof.
  intros Hw. unfold get_ref. apply in_width_land_r; [done|]. unfold in_width. rewrite Z.ones_equiv. pose proof (pow2_pos w Hw). lia.
Qed.
Lemma put_ref_width off w v x : 0 ≤ off → 0 ≤ w → off + w ≤ 32 → in_width w v → in_width 32 x → in_width 32 (put_ref off w v x).
Proof.
  intros Ho Hw Hs Hv Hx. unfold put_ref. apply in_width_lor; [lia| |].
  - apply in_width_testbit; [lia|]. intros j Hj. rewrite Z.ldiff_spec, (testbit_above 32 x) by (done || lia). done.
  - rewrite Z.shiftl_mul_pow2 by done. unfold in_width in *. split; [nia|].
    apply Z.lt_le_trans with (2 ^ w * 2 ^ off); [apply Z.mul_lt_mono_pos_r; [by apply pow2_pos|lia]|].
    rewrite <- Z.pow_add_r by done. apply Z.pow_le_mono_r; lia.
Qed.
Lemma write_segment_wf n f v s : fis_wf n f → seg_ok n s → fis_wf n (write_segment f v s).
Proof.
  destruct s as [[[src i] off] w]. intros Hf (Hi & Hs & Ho & Hw & H32). apply set_dword_wf; [done|].
  apply put_ref_width; [done..|by apply get_ref_width|by eapply dword_width].
Qed.
Lemma seg_set_wf n f v ss : fis_wf n f → Forall (seg_ok n) ss → fis_wf n (seg_set ss f v).
Proof.
  intros Hf Hs. revert f Hf. induction Hs as [|s ss Hs _ IH]; intros f Hf; [done|]. apply IH. by apply write_segment_wf.
Qed.
Lemma read_write_same n f v s : fis_wf n f → seg_ok n s → read_segment (write_segment f v s) s = get_ref s.1.1.1 s.2 v.
Proof.
  destruct s as [[[src i] off] w]. intros [Hl _] (Hi & Hs & Ho & Hw & H32). cbn [read_segment write_segment fst snd]. rewrite dword_set_same by lia.
  apply get_put_same; [done..|by apply get_ref_width].
Qed.
Lemma read_write_other n f v s t : fis_wf n f → seg_ok n s → seg_ok n t → seg_disjoint s t →
  read_segment (write_segment f v s) t = read_segment f t.
Proof.
  destruct s as [[[src i] off] w], t as [[[src' j] off'] w'].
  intros [Hl _] (Hi & Hs & Ho & Hw & H32) (Hj & Hs' & Ho' & Hw' & H32') Hd.
  cbn [read_segment write_segment seg_disjoint] in *.
  destruct (decide (i = j)) as [<-|Hij]; [|by rewrite dword_set_other by lia].
  rewrite dword_set_same by lia. apply get_put_other; [done..|by apply get_ref_width|]. destruct Hd as [Hd|Hd]; [by destruct Hd|done].
Qed.
Lemma read_set_other n f v ss t : fis_wf n f → Forall (seg_ok n) ss → seg_ok n t → Forall (λ s, seg_disjoint s t) ss →
  read_segment (seg_set ss f v) t = read_segment f t.
Proof.
  intros Hf Hss Ht Hd. revert f Hf. induction Hss as [|s ss Hs _ IH]; intros f Hf; [done|].
  apply Forall_cons in Hd as [Hd1 Hd2]. cbn [seg_set foldl]. fold (seg_set ss (write_segment f v s) v).
  rewrite IH by (done || by apply write_segment_wf). by apply (read_write_other n).
Qed.
Lemma read_set_same n f v ss t : fis_wf n f → Forall (seg_ok n) ss → ForallOrdPairs (λ s t, seg_disjoint t s) ss → t ∈ ss →
  read_segment (seg_set ss f v) t = get_ref t.1.1.1 t.2 v.
Proof.
  intros Hf Hss Hd Ht. revert f Hf. induction Hd as [|s ss Hd1 Hd2 IH]; intros f Hf; [by apply not_elem_of_nil in Ht|].
  apply Forall_cons in Hss as [Hs Hss]. cbn [seg_set foldl]. fold (seg_set ss (write_segment f v s) v).
  apply elem_of_cons in Ht as [->|Ht].
  - rewrite (read_set_other n) by (done || by apply write_segment_wf). by apply (read_write_same n).
  - apply IH; [done|done|by apply write_segment_wf].
Qed.
Lemma seg_get_ext ss f g : (∀ s, s ∈ ss → read_segment f s = read_segment g s) → seg_get ss f = seg_get ss g.
Proof.
  induction ss as [|s ss IH]; intros H; [done|]. cbn [seg_get foldr]. fold (seg_get ss f) (seg_get ss g).
  rewrite (H s), IH; [done|intros t Ht; apply H; by right|by left].
Qed.
Lemma seg_get_set_other n f v ss ts : fis_wf n f → Forall (seg_ok n) ss → Forall (seg_ok n) ts →
  Forall (λ t, Forall (λ s, seg_disjoint s t) ss) ts → seg_get ts (seg_set ss f v) = seg_get ts f.
Proof.
  intros Hf Hss Hts Hd. apply seg_get_ext. intros t Ht. rewrite Forall_forall in Hts, Hd. apply (read_set_other n); auto.
Qed.
Lemma seg_get_set_same n f v ss : fis_wf n f → Forall (seg_ok n) ss → ForallOrdPairs (λ s t, seg_disjoint t s) ss →
  seg_get ss (seg_set ss f v) = Z.land v (seg_mask ss).
Proof.
  intros Hf Hss Hd.
  assert (H1 : ∀ ts, (∀ t, t ∈ ts → t ∈ ss) → seg_get ts (seg_set ss f v) = Z.land v (seg_mask ts)); [|by apply H1].
  intros ts Ht. induction ts as [|t ts IH]; [by rewrite Z.land_0_r|].
  assert (Hto : seg_ok n t) by (rewrite Forall_forall in Hss; apply Hss, Ht; by left).
  cbn [seg_get seg_mask foldr]. fold (seg_get ts (seg_set ss f v)) (seg_mask ts).
  rewrite (read_set_same n) by (done || (apply Ht; by left)). rewrite IH by (intros t' Ht'; apply Ht; by right).
  rewrite Z.land_lor_distr_r. f_equal. destruct t as [[[src i] off] w]. destruct Hto as (_ & Hs & _ & Hw & _). cbn. unfold get_ref.
  apply Z.bits_inj'. intros j Hj. rewrite Z.land_spec, !Z.shiftl_spec, Z.land_spec by done.
  destruct (decide (j < src)); [by rewrite !(Z.testbit_neg_r _ (j - src)), !andb_false_r by lia|].
  rewrite Z.shiftr_spec by lia. do 2 f_equal. lia.
Qed.
(** ** The shapes *)

Lemma get_ref_ones s w x m : m = Z.ones w → masked x s m = get_ref s w x.
Proof. by intros ->. Qed.
Lemma get_ref_0 w x m : m = Z.ones w → Z.land x m = get_ref 0 w x.
Proof. intros ->. unfold get_ref. by rewrite Z.shiftr_0_r. Qed.
Lemma get_ref_id w x : 0 ≤ w → in_width w x → get_ref 0 w x = x.
Proof. intros Hw Hx. unfold get_ref. rewrite Z.shiftr_0_r, Z.land_ones by done. by apply Z.mod_small. Qed.
Lemma land_not_ldiff x m : in_width 32 x → Z.land x (not_w 32 m) = Z.ldiff x m.
Proof.
  intros Hx. apply Z.bits_inj'. intros j Hj. rewrite Z.land_spec, Z.ldiff_spec.
  destruct (decide (j < 32)); [by rewrite testbit_not_w by lia|]. by rewrite (testbit_above 32 x) by (done || lia).
Qed.
Lemma shl_w_32 w s v : 0 ≤ s → 0 ≤ w → s + w ≤ 32 → s < 32 → in_width w v → shl_w 32 v s = Z.shiftl v s.
Proof.
  intros Hs Hw H32 Hs' Hv. unfold shl_w. rewrite Z.mod_small by lia. apply wrap_id. rewrite Z.shiftl_mul_pow2 by done. unfold in_width in *.
  split; [nia|]. apply Z.lt_le_trans with (2 ^ w * 2 ^ s); [apply Z.mul_lt_mono_pos_r; [by apply pow2_pos|lia]|].
  rewrite <- Z.pow_add_r by done. apply Z.pow_le_mono_r; lia.
Qed.
Lemma replaced_put m w s v x : m = Z.shiftl (Z.ones w) s → 0 ≤ s → 0 ≤ w → s + w ≤ 32 → s < 32 → in_width w v → in_width 32 x →
  replaced x m v s = put_ref s w v x.
Proof. intros -> Hs Hw H32 Hs' Hv Hx. unfold replaced, put_ref. by rewrite land_not_ldiff, (shl_w_32 w). Qed.
Lemma bit_put_put x b state : 0 ≤ b < 32 → in_width 32 x → bit_put x b state = put_ref b 1 (Z.b2z state) x.
Proof.
  intros Hb Hx. unfold bit_put, put_ref. rewrite !land_not_ldiff by done. change (Z.ones 1) with 1.
  destruct state; [done|]. change (Z.b2z false) with 0. by rewrite Z.shiftl_0_l, Z.lor_0_r.
Qed.
Lemma bit_set_get x b : 0 ≤ b → Z.b2z (bit_set_p x b) = get_ref b 1 x.
Proof.
  intros Hb. unfold bit_set_p, get_ref. rewrite Z.land_ones by lia. change (2 ^ 1) with 2.
  rewrite <- Z.bit0_mod, Z.shiftr_spec, Z.add_0_l by lia. f_equal.
  destruct (Z.testbit x b) eqn:Ht.
  - apply bool_decide_eq_true. intros H0. apply (f_equal (λ z, Z.testbit z b)) in H0.
    rewrite Z.land_spec, Ht, Z.shiftl_spec, Z.sub_diag, Z.bits_0 in H0 by done. done.
  - apply bool_decide_eq_false. intros H0. apply H0. apply Z.bits_inj'. intros j Hj. rewrite Z.land_spec, Z.shiftl_spec, Z.bits_0 by done.
    destruct (decide (j = b)) as [->|]; [by rewrite Ht|]. 
    destruct (decide (j < b)); [by rewrite (Z.testbit_neg_r _ (j - b)), andb_false_r by lia|].
    by rewrite (testbit_above 1 1 (j - b)), andb_false_r by (done || lia).
Qed.
Lemma get_ref_bits o w x j : 0 ≤ o → 0 ≤ w → 0 ≤ j → Z.testbit (get_ref o w x) j = bool_decide (j < w) && Z.testbit x (o + j).
Proof.
  intros Ho Hw Hj. unfold get_ref. rewrite Z.land_spec, Z.shiftr_spec, Z.testbit_ones, (Z.add_comm j) by done.
  rewrite (proj2 (Z.leb_le 0 j)) by done. rewrite andb_comm. f_equal. case_bool_decide; [by apply Z.ltb_lt|apply Z.ltb_ge; lia].
Qed.
Lemma get_ref_split o a b x : 0 ≤ o → 0 ≤ a → 0 ≤ b →
  get_ref o (a + b) x = Z.lor (get_ref o a x) (Z.shiftl (get_ref (o + a) b x) a).
Proof.
  intros Ho Ha Hb. apply Z.bits_inj'. intros j Hj. rewrite Z.lor_spec, Z.shiftl_spec, !get_ref_bits by lia.
  destruct (decide (j < a)).
  - rewrite !bool_decide_true by lia. rewrite (Z.testbit_neg_r _ (j - a)) by lia. by rewrite orb_false_r.
  - rewrite (bool_decide_false (j < a)), get_ref_bits by lia. cbn [andb orb]. f_equal; [apply bool_decide_ext; lia|f_equal; lia].
Qed.
Lemma bytes3 x o : 0 ≤ o →
  Z.lor (Z.lor (get_ref o 8 x) (Z.shiftl (get_ref (o + 8) 8 x) 8)) (Z.shiftl (get_ref (o + 16) 8 x) 16) = get_ref o 24 x.
Proof. intros Ho. change 24 with (16 + 8). rewrite get_ref_split by lia. by change 16 with (8 + 8) at 4; rewrite (get_ref_split o 8 8) by lia. Qed.

(** An accessor does what its segments say. *)
Definition acc_ok (n : nat) (a : accessor) : Prop :=
  Forall (seg_ok n) (acc_segments a)
  ∧ ∀ f, fis_wf n f → acc_get a f = seg_get (acc_segments a) f
    ∧ ∀ v, in_width (acc_width a) v → acc_set a f v = seg_set (acc_segments a) f v.
(** A field in one piece. *)
Lemma acc_ok_piece n get set i s w : seg_ok n (0, i, s, w) → s < 32 →
  (∀ f, fis_wf n f → get f = get_ref s w (dword f i)) →
  (∀ f v, fis_wf n f → in_width w v → set f v = set_dword f i (put_ref s w v (dword f i))) → acc_ok n (acc get set [(0, i, s, w)] w).
Proof.
  intros Hs Hs32 Hg Hset. split; [by apply Forall_singleton|]. intros f Hf. split.
  - cbn. by rewrite Hg, Z.shiftl_0_r, Z.lor_0_r.
  - intros v Hv. cbn [acc acc_set seg_set foldl write_segment acc_segments]. rewrite Hset by done. by rewrite get_ref_id by apply Hs || done.
Qed.
Lemma acc_ok_field n get set i s w mask m cast : (1 ≤ i ≤ n)%nat → 0 ≤ s → 0 ≤ w → s + w ≤ 32 → s < 32 → mask = Z.ones w → m = Z.shiftl (Z.ones w) s → w ≤ cast →
  (∀ f, get f = wrap cast (masked (dword f i) s mask)) →
  (∀ f v, set f v = set_dword f i (replaced (dword f i) m v s)) → acc_ok n (acc get set [(0, i, s, w)] w).
Proof.
  intros Hi H1 H2 H3 H4 Hmask Hm Hc Hg Hset. apply acc_ok_piece; [cbn; lia|done|intros f Hf|intros f v Hf Hv].
  - rewrite Hg, (get_ref_ones s w) by done. apply wrap_id. apply (in_width_mono w); [lia|]. by apply get_ref_width.
  - rewrite Hset, (replaced_put m w); [done..|by eapply dword_width].
Qed.
Lemma acc_ok_bit n get set b : (1 ≤ n)%nat → 0 ≤ b < 32 → (∀ f, get f = bit_set_p (dword f 1) b) →
  (∀ f v, set f v = set_dword f 1 (bit_put (dword f 1) b v)) → acc_ok n (bit_accessor get set b).
Proof.
  intros Hn Hb Hg Hset. split; [apply Forall_singleton; cbn; lia|]. intros f Hf. cbn. split.
  - by rewrite Hg, bit_set_get, Z.shiftl_0_r, Z.lor_0_r by lia.
  - intros v Hv. rewrite Hset, bit_put_put by (lia || by eapply dword_width). rewrite get_ref_id by (lia || done).
    assert (Hvb : Z.b2z (bool_decide (v = 1)) = v); [|by rewrite Hvb].
    unfold in_width in Hv. change (2 ^ 1) with 2 in Hv. case_bool_decide; cbn; lia.
Qed.
(** The address: two pieces of three bytes. *)
Lemma acc_ok_lba n : (3 ≤ n)%nat → acc_ok n (acc fis_lba fis_set_lba [(0, 2%nat, 0, 24); (24, 3%nat, 0, 24)] 48).
Proof.
  intros Hn. split; [repeat (apply Forall_cons; split; [cbn; lia|]); constructor|]. intros f Hf. cbn [acc acc_get acc_set acc_segments acc_width]. split.
  - unfold fis_lba. rewrite !(get_ref_0 8), !(get_ref_ones _ 8) by done.
    cbn [seg_get foldr read_segment fst snd]. rewrite Z.shiftl_0_r, Z.lor_0_r, <- !(bytes3 _ 0), !Z.shiftl_lor, !Z.shiftl_shiftl, !Z.lor_assoc by lia.
    done.
  - intros v Hv. unfold fis_set_lba. rewrite (get_ref_0 8 v), !(get_ref_ones _ 8) by done.
    cbn [seg_set foldl write_segment].
    set (f1 := set_dword f 2 _). set (f2 := set_dword f 2 _).
    assert (Hf2 : fis_wf n f2) by (apply set_dword_wf; [done|]; apply put_ref_width; [lia..|by apply get_ref_width|by eapply dword_width]).
    assert (H12 : f1 = f2).
    { unfold f1, f2. f_equal. unfold put_ref. rewrite !Z.shiftl_0_r, <- (bytes3 v 0), land_not_ldiff, !Z.lor_assoc by (lia || by eapply dword_width). done. }
    rewrite H12. f_equal. unfold put_ref. rewrite !Z.shiftl_0_r, <- (bytes3 v 24), land_not_ldiff, !Z.lor_assoc by (lia || by eapply dword_width). done.
Qed.
Lemma acc_ok_features : acc_ok 5 (acc h2d_features h2d_set_features [(0, 1%nat, 24, 8); (8, 3%nat, 24, 8)] 16).
Proof.
  split; [repeat (apply Forall_cons; split; [cbn; lia|]); constructor|]. intros f Hf. cbn [acc acc_get acc_set acc_segments acc_width]. split.
  - unfold h2d_features. rewrite !(get_ref_ones 24 8) by done. cbn [seg_get foldr read_segment fst snd].
    assert (H8 : ∀ x, in_width 8 (get_ref 24 8 x)) by (intros x; by apply get_ref_width).
    rewrite (shl_w_32 8), Z.shiftl_0_r, Z.lor_0_r, Z.lor_comm by (done || lia). apply wrap_id. apply in_width_lor; [lia| |].
    + apply (in_width_mono 8); [lia|done].
    + pose proof (H8 (dword f 3)) as H3. unfold in_width in *. rewrite Z.shiftl_mul_pow2 by lia.
      change (2 ^ 16) with (2 ^ 8 * 2 ^ 8). nia.
  - intros v Hv. unfold h2d_set_features. rewrite (get_ref_0 8), (get_ref_ones 8 8) by done. cbn [seg_set foldl write_segment].
    assert (H1 : replaced (dword f 1) 0xff000000 (get_ref 0 8 v) 24 = put_ref 24 8 (get_ref 0 8 v) (dword f 1))
      by (apply (replaced_put _ 8); [done|lia|lia|lia|lia|by apply get_ref_width|by eapply dword_width]).
    rewrite H1. f_equal. set (f2 := set_dword f 1 _).
    assert (Hf2 : fis_wf 5 f2) by (apply set_dword_wf; [done|]; apply put_ref_width; [lia..|by apply get_ref_width|by eapply dword_width]).
    apply (replaced_put _ 8); [done|lia|lia|lia|lia|by apply get_ref_width|by eapply dword_width].
Qed.
Lemma acc_ok_sdb_status : acc_ok 2 (acc sdb_status sdb_set_status [(0, 1%nat, 16, 3); (4, 1%nat, 20, 3)] 8).
Proof.
  split; [repeat (apply Forall_cons; split; [cbn; lia|]); constructor|]. intros f Hf. cbn [acc acc_get acc_set acc_segments acc_width]. split.
  - unfold sdb_status. rewrite !(get_ref_ones _ 3) by done. cbn [seg_get foldr read_segment fst snd].
    assert (H3 : ∀ o x, in_width 3 (get_ref o 3 x)) by (intros o x; by apply get_ref_width).
    assert (Hu : ∀ o x, u8 (get_ref o 3 x) = get_ref o 3 x) by (intros o x; apply wrap_id, (in_width_mono 3); [lia|done]).
    rewrite !Hu, Z.shiftl_0_r, Z.lor_0_r, Z.lor_comm. f_equal. unfold shl_w. rewrite Z.mod_small by lia. apply wrap_id.
    pose proof (H3 20 (dword f 1)) as Hw. unfold in_width in *. rewrite Z.shiftl_mul_pow2 by lia. change (2 ^ 3) with 8 in Hw. change (2 ^ 4) with 16. change (2 ^ 8) with 256. lia.
  - intros v Hv. unfold sdb_set_status. rewrite (get_ref_0 3), (get_ref_ones 4 3) by done. cbn [seg_set foldl write_segment].
    assert (H1 : ∀ g src off, fis_wf 2 g → 0 ≤ off → off + 3 ≤ 32 →
      replaced (dword g 1) (Z.shiftl 7 off) (get_ref src 3 v) off = put_ref off 3 (get_ref src 3 v) (dword g 1))
      by (intros g src off Hg Ho Ho'; apply (replaced_put _ 3); [done|lia|lia|lia|lia|by apply get_ref_width|by eapply dword_width]).
    rewrite (H1 f) by (done || lia). rewrite H1; [done| |lia|lia].
    apply set_dword_wf; [done|]; apply put_ref_width; [lia..|by apply get_ref_width|by eapply dword_width].
Qed.
Lemma put_ref_whole v x : in_width 32 x → put_ref 0 32 v x = v.
Proof.
  intros Hx. unfold put_ref. rewrite !Z.shiftl_0_r, Z.ldiff_ones_r, Z.shiftr_div_pow2, Z.div_small by (done || lia). by rewrite Z.shiftl_0_l.
Qed.
Ltac field_ok :=
  match goal with
  | |- acc_ok _ (bit_accessor _ _ _) => apply acc_ok_bit; [lia|lia|done|done]
  | |- acc_ok _ (acc _ _ [(0, _, 0, 32)] _) => apply acc_ok_piece;
      [cbn; lia|lia|intros f Hf; symmetry; apply get_ref_id; [lia|by eapply dword_width]
      |intros f v Hf Hv; rewrite put_ref_whole by (done || by eapply dword_width); done]
  | |- acc_ok _ (acc _ _ [(0, _, ?s, ?w)] _) => apply (acc_ok_field _ _ _ _ _ _ (Z.ones w) (Z.shiftl (Z.ones w) s) (Z.max 8 w));
      [lia|lia|lia|lia|lia|done|done|lia|done|done]
  end.
Lemma fields_ok : Forall (λ '(n, accs), Forall (acc_ok n) accs) fis_kinds.
Proof.
  repeat (apply Forall_cons; split); try apply Forall_nil_2;
    unfold h2d_fields, d2h_fields, sdb_fields, dmaa_fields, dmas_fields, bist_fields, pios_fields, data_fields;
    repeat (apply Forall_cons; split); try apply Forall_nil_2; try field_ok; try (apply acc_ok_lba; lia);
    apply acc_ok_features || apply acc_ok_sdb_status.
Qed.
(** The segments of a kind of frame are apart, and apart from the type. *)
Definition type_segment : segment := (0, 1%nat, 0, 8).
Definition apart (ss ts : list segment) : Prop := Forall (λ t, Forall (λ s, seg_disjoint s t) ss) ts.
Definition fields_apart (accs : list accessor) : Prop :=
  Forall (λ i, Forall (λ j, i = j ∨ apart (default [] (acc_segments <$> accs !! i)) (default [] (acc_segments <$> accs !! j)))
    (seq 0 (length accs))) (seq 0 (length accs))
  ∧ Forall (λ a, apart (acc_segments a) [type_segment]
      ∧ ForallOrdPairs (λ s t, seg_disjoint t s) (acc_segments a)) accs.
Lemma kinds_apart : Forall (λ k, fields_apart k.2) fis_kinds.
Proof.
  repeat (apply Forall_cons; split); try apply Forall_nil_2; split.
  all: try (apply (bool_decide_unpack _); vm_compute; exact I).
  all: cbn [snd]; unfold h2d_fields, d2h_fields, sdb_fields, dmaa_fields, dmas_fields, bist_fields, pios_fields, data_fields;
    repeat (apply Forall_cons; split); try apply Forall_nil_2; split;
    repeat (apply FOP_nil || apply FOP_cons); apply (bool_decide_unpack _); vm_compute; exact I.
Qed.

(** The registers of a frame are independent fields.  In each of the eight kinds of
    frames, setting a register to a value of its width makes it read as that value
    (the status of a set-device-bits frame without its bits 3 and 7), keeps every
    other register and the type of the frame. *)
Theorem fis_fields n accs f i a v : (n, accs) ∈ fis_kinds → fis_wf n f → accs !! i = Some a → in_width (acc_width a) v →
  let f' := acc_set a f v in
  fis_wf n f' ∧ Z.land (dword f' 1) 0xff = Z.land (dword f 1) 0xff
  ∧ acc_get a f' = Z.land v (seg_mask (acc_segments a))
  ∧ ∀ j b, accs !! j = Some b → i ≠ j → acc_get b f' = acc_get b f.
Proof.
  intros Hk Hf Ha Hv f'. pose proof fields_ok as Hok. pose proof kinds_apart as Hap. rewrite Forall_forall in Hok, Hap.
  specialize (Hok _ Hk). destruct (Hap _ Hk) as [Hpairs Hown]. cbn [fst snd] in *.
  destruct (Forall_lookup_1 _ _ _ _ Hok Ha) as [Hseg Hacc]. destruct (Forall_lookup_1 _ _ _ _ Hown Ha) as [Htype Hordered].
  assert (Hf' : f' = seg_set (acc_segments a) f v) by (by apply Hacc).
  assert (Hwf : fis_wf n f') by (rewrite Hf'; by apply seg_set_wf).
  split; [done|]. split_and!.
  - change 0xff with (Z.ones 8). rewrite !(get_ref_0 8) by done.
    change (get_ref 0 8 (dword ?g 1)) with (read_segment g type_segment). rewrite Hf'. apply (read_set_other n); [done|done| |exact (proj1 (proj1 (Forall_cons _ _ _) Htype))].
    assert (Hn : Forall (λ k, (1 ≤ k.1)%nat) fis_kinds) by (apply (bool_decide_unpack _); vm_compute; exact I).
    rewrite Forall_forall in Hn. specialize (Hn _ Hk). cbn in *. lia.
  - rewrite (proj1 (Hacc _ Hwf)), Hf'. by apply (seg_get_set_same n).
  - intros j b Hb Hij. destruct (Forall_lookup_1 _ _ _ _ Hok Hb) as [Hsegb Haccb].
    rewrite (proj1 (Haccb _ Hwf)), (proj1 (Haccb _ Hf)), Hf'. apply (seg_get_set_other n); [done..|].
    rewrite Forall_forall in Hpairs. specialize (Hpairs i). rewrite elem_of_seq in Hpairs.
    rewrite Forall_forall in Hpairs. pose proof (lookup_lt_Some _ _ _ Ha). pose proof (lookup_lt_Some _ _ _ Hb).
    destruct (Hpairs ltac:(lia) j ltac:(apply elem_of_seq; lia)) as [->|Hd]; [done|]. by rewrite Ha, Hb in Hd.
Qed.

Lemma fis_fields_witness : let f := h2d_set_lba h2d_new_empty 0x123456789ABC in
  h2d_lba f = 0x123456789ABC ∧ h2d_device f = 0 ∧ Z.land (dword f 1) 0xff = 0x27.
Proof.
  destruct (fis_fields 5 h2d_fields h2d_new_empty 6 (acc h2d_lba h2d_set_lba [(0, 2%nat, 0, 24); (24, 3%nat, 0, 24)] 48) 0x123456789ABC)
    as (_ & Ht & Hl & Ho).
  - left.
  - split; [reflexivity|]. apply (bool_decide_unpack _). vm_compute. exact I.
  - reflexivity.
  - apply (bool_decide_unpack _). vm_compute. exact I.
  - split; [exact Hl|]. split; [exact (Ho 2%nat _ eq_refl ltac:(discriminate))|exact Ht].
Defined.

(** ** The bytes of a command frame *)

Lemma le_bytes4 x : in_width 32 x → le_bytes 4 x = [get_ref 0 8 x; get_ref 8 8 x; get_ref 16 8 x; get_ref 24 8 x].
Proof.
  intros Hx. unfold get_ref. rewrite !Z.land_ones, !Z.shiftr_div_pow2 by lia. cbn [le_bytes].
  rewrite !Z.div_div by lia. by rewrite Z.div_1_r.
Qed.
Lemma get_put_inside off w off' w' v x : 0 ≤ off → 0 ≤ w → off ≤ off' → 0 ≤ w' → off' + w' ≤ off + w → in_width w v →
  get_ref off' w' (put_ref off w v x) = get_ref (off' - off) w' v.
Proof.
  intros Ho Hw Ho' Hw' Hin Hv. apply Z.bits_inj'. intros j Hj. rewrite !get_ref_bits by lia. case_bool_decide; [|done].
  unfold put_ref. rewrite Z.lor_spec, Z.ldiff_spec, !Z.shiftl_spec, Z.ones_spec_low, andb_false_r by lia. cbn [andb orb]. f_equal. lia.
Qed.
Lemma get_get o w o' w' x : 0 ≤ o → 0 ≤ w → 0 ≤ o' → 0 ≤ w' → o' + w' ≤ w → get_ref o' w' (get_ref o w x) = get_ref (o + o') w' x.
Proof.
  intros Ho Hw Ho' Hw' Hin. apply Z.bits_inj'. intros j Hj. rewrite !get_ref_bits by lia. case_bool_decide; [|done].
  rewrite bool_decide_true by lia. cbn [andb]. f_equal. lia.
Qed.
Lemma get_ref_div o x : 0 ≤ o → get_ref o 8 x = (x / 2 ^ o) mod 256.
Proof. intros Ho. unfold get_ref. by rewrite Z.land_ones, Z.shiftr_div_pow2 by lia. Qed.
Ltac width32 := repeat (apply put_ref_width; [lia|lia|lia| |]); first [done|by apply get_ref_width|by (unfold in_width; vm_compute)].
Ltac read_puts :=
  repeat first [rewrite get_put_inside by (lia || done || by apply get_ref_width)
               |rewrite get_put_same by (lia || done || by apply get_ref_width)
               |rewrite get_put_other by (lia || done || by apply get_ref_width)].
Definition h2d_command_frame pm c cmd feat lba dev count icc ctl aux : FIS :=
  h2d_set_auxiliary (h2d_set_control (h2d_set_isochronous_command_compl (h2d_set_count (h2d_set_device (h2d_set_lba
    (h2d_set_features (h2d_set_command (h2d_set_command_update_bit (h2d_set_pm_port h2d_new_empty pm) c) cmd) feat) lba) dev) count) icc) ctl) aux.
Lemma set_lba_put d1 d2 d3 d4 d5 lba : in_width 32 d2 → in_width 32 d3 →
  fis_set_lba [d1; d2; d3; d4; d5] lba = [d1; put_ref 0 24 (get_ref 0 24 lba) d2; put_ref 0 24 (get_ref 24 24 lba) d3; d4; d5].
Proof.
  intros H2 H3. unfold fis_set_lba. rewrite (get_ref_0 8 lba), !(get_ref_ones _ 8) by done.
  cbn [dword set_dword nth Nat.sub insert list_insert]. unfold put_ref.
  rewrite !Z.shiftl_0_r, <- (bytes3 lba 0), <- (bytes3 lba 24), !land_not_ldiff, !Z.lor_assoc by (lia || done). done.
Qed.
Lemma command_frame_dwords pm c cmd feat lba dev count icc ctl aux :
  in_width 4 pm → byte cmd → in_width 16 feat → byte dev → in_width 16 count → byte icc → byte ctl →
  h2d_command_frame pm c cmd feat lba dev count icc ctl aux
  = [put_ref 24 8 (get_ref 0 8 feat) (put_ref 16 8 cmd (put_ref 15 1 (Z.b2z c) (put_ref 8 4 pm 0x27)));
     put_ref 24 8 dev (put_ref 0 24 (get_ref 0 24 lba) 0);
     put_ref 0 24 (get_ref 24 24 lba) (put_ref 24 8 (get_ref 8 8 feat) 0);
     put_ref 24 8 ctl (put_ref 16 8 icc (put_ref 0 16 count 0)); aux].
Proof.
  intros Hpm Hcmd Hfeat Hdev Hcount Hicc Hctl.
  assert (Hc : in_width 1 (Z.b2z c)) by (by destruct c).
  unfold h2d_command_frame.
  assert (E1 : h2d_set_command (h2d_set_command_update_bit (h2d_set_pm_port h2d_new_empty pm) c) cmd
    = [put_ref 16 8 cmd (put_ref 15 1 (Z.b2z c) (put_ref 8 4 pm 0x27)); 0; 0; 0; 0]).
  { unfold h2d_set_pm_port, h2d_set_command_update_bit, h2d_set_command, h2d_new_empty.
    cbn [dword set_dword nth Nat.sub insert list_insert u8_from_FISType].
    rewrite (replaced_put 0xf00 4 8) by (done || lia). rewrite bit_put_put by (lia || width32).
    by rewrite (replaced_put 0xff0000 8 16) by (done || lia || width32). }
  rewrite E1. unfold h2d_set_features. rewrite (get_ref_0 8 feat), (get_ref_ones 8 8 feat) by done.
  cbn [dword set_dword nth Nat.sub insert list_insert].
  rewrite (replaced_put 0xff000000 8 24 (get_ref 0 8 feat)), (replaced_put 0xff000000 8 24 (get_ref 8 8 feat)) by (done || lia || width32).
  unfold h2d_set_lba. rewrite set_lba_put by width32.
  unfold h2d_set_device, h2d_set_count, h2d_set_isochronous_command_compl, h2d_set_control, h2d_set_auxiliary.
  cbn [dword set_dword nth Nat.sub insert list_insert].
  rewrite (replaced_put 0xff000000 8 24 dev) by (done || lia || width32).
  rewrite (replaced_put 0xffff 16 0 count) by (done || lia || width32).
  rewrite (replaced_put 0xff0000 8 16 icc) by (done || lia || width32).
  by rewrite (replaced_put 0xff000000 8 24 ctl) by (done || lia || width32).
Qed.
Lemma pm_byte pm c : in_width 4 pm → get_ref 8 8 (put_ref 15 1 (Z.b2z c) (put_ref 8 4 pm 39)) = pm + 128 * Z.b2z c.
Proof.
  intros [H0 H1]. change (2 ^ 4) with 16 in H1.
  assert (Hall : Forall (λ p, get_ref 8 8 (put_ref 15 1 (Z.b2z c) (put_ref 8 4 p 39)) = p + 128 * Z.b2z c) (seqZ 0 16))
    by (apply (bool_decide_unpack _); destruct c; vm_compute; exact I).
  rewrite Forall_forall in Hall. apply Hall, elem_of_seqZ. lia.
Qed.
(** The command frame that is sent to a drive has the layout of the standard: type,
    port and update bit, command, features; address and device; the rest of the
    address and of the features; count, time limit and control; auxiliary. *)
Theorem h2d_layout pm c cmd feat lba dev count icc ctl aux :
  in_width 4 pm → byte cmd → in_width 16 feat → in_width 48 lba → byte dev → in_width 16 count → byte icc → byte ctl → in_width 32 aux →
  h2d_deref (h2d_command_frame pm c cmd feat lba dev count icc ctl aux)
  = [0x27; pm + 128 * Z.b2z c; cmd; feat mod 256] ++ le_bytes 3 lba ++ [dev] ++ le_bytes 3 (lba / 2 ^ 24) ++ [feat / 256]
    ++ le_bytes 2 count ++ [icc; ctl] ++ le_bytes 4 aux.
Proof.
  intros Hpm Hcmd Hfeat Hlba Hdev Hcount Hicc Hctl Haux.
  assert (Hc : in_width 1 (Z.b2z c)) by (by destruct c).
  rewrite command_frame_dwords by done. unfold h2d_deref. cbn [map concat].
  rewrite !(le_bytes4 (put_ref _ _ _ _)) by width32.
  assert (Hb1 : get_ref 8 8 (put_ref 15 1 (Z.b2z c) (put_ref 8 4 pm 39)) = pm + 128 * Z.b2z c) by (by apply pm_byte).
  rewrite !(get_put_other 24 8 0 8), !(get_put_other 24 8 8 8), !(get_put_other 24 8 16 8) by (lia || done || by apply get_ref_width).
  rewrite !(get_put_other 16 8 0 8), !(get_put_other 16 8 8 8) by (lia || done). rewrite Hb1. read_puts.
  rewrite !get_get by lia. rewrite !(get_ref_id 8) by (lia || done || by apply get_ref_width).
  rewrite !get_ref_div by lia. cbn [le_bytes app]. rewrite !Z.div_div by lia.
  repeat (apply (f_equal2 cons)); try done; try (by rewrite Z.div_1_r).
  apply Z.mod_small. unfold in_width in Hfeat. change (2 ^ 16) with (256 * 256) in Hfeat.
  split; [apply Z.div_pos; lia|apply Z.div_lt_upper_bound; lia].
Qed.
Lemma h2d_layout_witness : h2d_deref (h2d_command_frame 0 true 0xC8 0 0x123456789ABC 0x40 7 0 0 0)
  = [0x27; 128; 0xC8; 0; 0xBC; 0x9A; 0x78; 0x40; 0x56; 0x34; 0x12; 0; 7; 0; 0; 0; 0; 0; 0; 0].
Proof. rewrite h2d_layout by (apply (bool_decide_unpack _); vm_compute; exact I). reflexivity. Defined.

(** ** Setters that are not fields

    A port above 15 is not masked, and the identifier of a DMA buffer and the first
    data dword of a BIST frame take the place of the first dword: in each case the
    type or other registers of the frame are lost. *)
Lemma pm_port_not_masked : h2d_command (h2d_set_pm_port (h2d_set_command h2d_new_empty 0xC8) 255) = 0xC8
  ∧ h2d_command_update_bit (h2d_set_pm_port h2d_new_empty 255) = true.
Proof. done. Qed.
Lemma type_overwritten :
  FISType_from_u8 (Z.land (dword (dmas_set_dma_buffer_identifier dmas_new_empty 0) 1) 0xff) = UnknownFIS
  ∧ FISType_from_u8 (Z.land (dword (bist_set_data1 bist_new_empty 0) 1) 0xff) = UnknownFIS.
Proof. done. Qed.
Lemma fis_type_roundtrip t : t ≠ UnknownFIS → FISType_from_u8 (u8_from_FISType t) = t.
Proof. by destruct t. Qed.
