(* ===== verification/AhciRegs.v ===== *)
(** The registers and the command structures of an AHCI controller
    (src/drivers/ahci/{port,mod,command}.rs).

    The registers are in memory, and reading or writing one is an action of the
    controller: the class [HbaBus].  The structures are laid out in the order of
    their declaration: their fields are all [u32], and the code relies on that
    order. *)

From S2P Require Import Prelude Partitions Addr Bitfield Fis.

(** * The controller, memory and the heap *)

Class HbaBus (D : Type) := {
  (** [read_volatile] and [write_volatile] of a 32-bit register. *)
  mmio_read : Z → D → Z * D;
  mmio_write : Z → Z → D → D;
  (** Memory, byte by byte, which the controller reads and writes too. *)
  mem_load : Z → nat → D → list Z;
  mem_store : Z → list Z → D → D;
  (** A block of the heap: [Box::new] and [Vec::with_capacity]. *)
  heap_alloc : Z → D → Z * D
}.

(** * Offsets of the registers *)

(** In an [HBAPort]. *)
Definition P_CLB : Z := 0x0.
Definition P_CLBU : Z := 0x4.
Definition P_FB : Z := 0x8.
Definition P_FBU : Z := 0xc.
Definition P_IS : Z := 0x10.
Definition P_IE : Z := 0x14.
Definition P_CMD : Z := 0x18.
Definition P_TFD : Z := 0x20.
Definition P_SIG : Z := 0x24.
Definition P_SSTS : Z := 0x28.
Definition P_SCTL : Z := 0x2c.
Definition P_SERR : Z := 0x30.
Definition P_SACT : Z := 0x34.
Definition P_CI : Z := 0x38.
Definition P_SNTF : Z := 0x3c.
Definition P_FBS : Z := 0x40.
Definition P_DEVSLP : Z := 0x44.
(** In the [HBAGenericHostControl]. *)
Definition G_CAP : Z := 0x0.
Definition G_GHC : Z := 0x4.
Definition G_ISR : Z := 0x8.
Definition G_PI : Z := 0xc.
Definition G_VS : Z := 0x10.
Definition G_CCC_CTL : Z := 0x14.
Definition G_CCC_PORTS : Z := 0x18.
Definition G_EM_LOC : Z := 0x1c.
Definition G_EM_CTL : Z := 0x20.
Definition G_CAP2 : Z := 0x24.
Definition G_BOHC : Z := 0x28.
Definition GHC_BOFFSET : Z := 0.
Definition PORT_REG_OFFSET : Z := 0x100.
Definition SATA_ATA_SIG : Z := 0x101.
Definition SATA_ATAPI_SIG : Z := 0xEB140101.
Definition SATA_SEMB_SIG : Z := 0xC33C0101.
Definition SATA_PM_SIG : Z := 0x96690101.

(** * Command structures *)

Definition AHCI_CMDH_ATAPI : Z := Z.shiftl 1 5.
Definition AHCI_CMDH_WRITE : Z := Z.shiftl 1 6.
Definition AHCI_CMDH_PREFETCHABLE : Z := Z.shiftl 1 7.
Definition AHCI_CMDH_RESET : Z := Z.shiftl 1 8.
Definition AHCI_CMDH_BIST : Z := Z.shiftl 1 9.
Definition AHCI_CMDH_CLEAR_BUSY : Z := Z.shiftl 1 10.

Record AHCICommandHeader := {
  di : Z; cs : Z; ctba : Z; ctba_hi : Z; res_1 : Z; res_2 : Z; res_3 : Z; res_4 : Z
}.
Definition header_new_empty : AHCICommandHeader :=
  {| di := 0; cs := 0; ctba := 0; ctba_hi := 0; res_1 := 0; res_2 := 0; res_3 := 0; res_4 := 0 |}.
Definition with_di (h : AHCICommandHeader) (x : Z) : AHCICommandHeader :=
  {| di := x; cs := cs h; ctba := ctba h; ctba_hi := ctba_hi h; res_1 := res_1 h; res_2 := res_2 h; res_3 := res_3 h; res_4 := res_4 h |}.
Definition with_ctba (h : AHCICommandHeader) (lo hi : Z) : AHCICommandHeader :=
  {| di := di h; cs := cs h; ctba := lo; ctba_hi := hi; res_1 := res_1 h; res_2 := res_2 h; res_3 := res_3 h; res_4 := res_4 h |}.
Definition header_bytes (h : AHCICommandHeader) : list Z :=
  concat (map (le_bytes 4) [di h; cs h; ctba h; ctba_hi h; res_1 h; res_2 h; res_3 h; res_4 h]).

(** The accessors of a bit. *)
Definition flag_get (h : AHCICommandHeader) (m : Z) : bool := bool_decide (Z.land (di h) m ≠ 0).
Definition flag_put (h : AHCICommandHeader) (m : Z) (state : bool) : AHCICommandHeader :=
  with_di h (if state then Z.lor (Z.land (di h) (not_w 32 m)) m else Z.land (di h) (not_w 32 m)).

Definition command_fis_length (h : AHCICommandHeader) : Z := u8 (Z.land (di h) 0xf).
Definition set_command_fis_length (h : AHCICommandHeader) (length : Z) : outcome AHCICommandHeader :=
  rust_assert (bool_decide (1 < length));;
  rust_assert (bool_decide (length < 17));;
  Done (with_di h (Z.lor (Z.land (di h) (not_w 32 0xf)) length)).
Definition atapi (h : AHCICommandHeader) : bool := flag_get h AHCI_CMDH_ATAPI.
Definition set_atapi (h : AHCICommandHeader) (state : bool) : AHCICommandHeader := flag_put h AHCI_CMDH_ATAPI state.
Definition is_write (h : AHCICommandHeader) : bool := flag_get h AHCI_CMDH_WRITE.
Definition set_write (h : AHCICommandHeader) (state : bool) : AHCICommandHeader := flag_put h AHCI_CMDH_WRITE state.
Definition is_prefetchable (h : AHCICommandHeader) : bool := flag_get h AHCI_CMDH_PREFETCHABLE.
Definition set_prefetchable (h : AHCICommandHeader) (state : bool) : AHCICommandHeader := flag_put h AHCI_CMDH_PREFETCHABLE state.
Definition in_reset_sequence (h : AHCICommandHeader) : bool := flag_get h AHCI_CMDH_RESET.
Definition set_in_reset_sequence (h : AHCICommandHeader) (state : bool) : AHCICommandHeader := flag_put h AHCI_CMDH_RESET state.
Definition is_bist (h : AHCICommandHeader) : bool := flag_get h AHCI_CMDH_BIST.
Definition set_bist (h : AHCICommandHeader) (state : bool) : AHCICommandHeader := flag_put h AHCI_CMDH_BIST state.
Definition should_clear_busy (h : AHCICommandHeader) : bool := flag_get h AHCI_CMDH_CLEAR_BUSY.
Definition set_should_clear_busy (h : AHCICommandHeader) (state : bool) : AHCICommandHeader := flag_put h AHCI_CMDH_CLEAR_BUSY state.
Definition port_multiplier_port (h : AHCICommandHeader) : Z := u8 (masked (di h) 12 0xf).
Definition set_port_multiplier_port (h : AHCICommandHeader) (port : Z) : AHCICommandHeader :=
  with_di h (Z.lor (Z.land (di h) (not_w 32 (Z.shiftl 0xf 12))) port).
Definition prd_table_length (h : AHCICommandHeader) : Z := u16 (Z.shiftr (di h) 16).
Definition set_prd_table_length (h : AHCICommandHeader) (length : Z) : AHCICommandHeader :=
  with_di h (replaced (di h) (Z.shiftl 0xff 16) length 16).
Definition bytes_count_transferred (h : AHCICommandHeader) : Z := cs h.
Definition cmd_table_base_addr (h : AHCICommandHeader) : Z := ctba h.
Definition set_cmd_table_base_addr (h : AHCICommandHeader) (addr : Z) : AHCICommandHeader := with_ctba h (u32 addr) (ctba_hi h).
Definition cmd_table_base_addr64 (h : AHCICommandHeader) : Z := Z.lor (Z.shiftl (ctba_hi h) 32) (ctba h).
Definition set_cmd_table_base_addr64 (h : AHCICommandHeader) (addr : Z) : AHCICommandHeader :=
  with_ctba h (u32 (Z.land addr 0xffffffff)) (u32 (Z.shiftr addr 32)).

Record AHCIPhysicalRegionDescriptor := { dba : Z; dbau : Z; prd_reserved : Z; prd_di : Z }.
Definition prd_new_empty : AHCIPhysicalRegionDescriptor := {| dba := 0; dbau := 0; prd_reserved := 0; prd_di := 0 |}.
Definition with_prd_di (r : AHCIPhysicalRegionDescriptor) (x : Z) : AHCIPhysicalRegionDescriptor :=
  {| dba := dba r; dbau := dbau r; prd_reserved := prd_reserved r; prd_di := x |}.
Definition prd_bytes (r : AHCIPhysicalRegionDescriptor) : list Z := concat (map (le_bytes 4) [dba r; dbau r; prd_reserved r; prd_di r]).
Definition base_address (r : AHCIPhysicalRegionDescriptor) : Z :=
  if bool_decide (dbau r ≠ 0) then Z.lor (Z.shiftl (dbau r) 32) (dba r) else dba r.
(** On the kernel's 64-bit target. *)
Definition set_base_address (r : AHCIPhysicalRegionDescriptor) (addr : Z) : AHCIPhysicalRegionDescriptor :=
  {| dba := u32 (Z.land addr 0xffffffff); dbau := u32 (Z.shiftr addr 32); prd_reserved := prd_reserved r; prd_di := prd_di r |}.
Definition interrupt_on_completion (r : AHCIPhysicalRegionDescriptor) : bool := bit_set_p (prd_di r) 31.
Definition set_interrupt_on_completion (r : AHCIPhysicalRegionDescriptor) (state : bool) : AHCIPhysicalRegionDescriptor :=
  with_prd_di r (bit_put (prd_di r) 31 state).
Definition data_bytes_count (r : AHCIPhysicalRegionDescriptor) : Z := u32 (Z.land (prd_di r) (2 ^ 22 - 1) + 1).
Definition set_data_bytes_count (r : AHCIPhysicalRegionDescriptor) (count : Z) : outcome AHCIPhysicalRegionDescriptor :=
  rust_assert (bool_decide (Z.land count 1 = 0));;
  Done (with_prd_di r (Z.lor (Z.land (prd_di r) (not_w 32 (2 ^ 22 - 1))) (Z.land (u32 (count + 1)) (2 ^ 22 - 1)))).

Record AHCITransaction := { header : AHCICommandHeader; byte_size : Z }.
Definition transaction_new : AHCITransaction := {| header := header_new_empty; byte_size := 0 |}.
Definition set_byte_size (t : AHCITransaction) (size : Z) : AHCITransaction := {| header := header t; byte_size := size |}.
Definition with_header (t : AHCITransaction) (h : AHCICommandHeader) : AHCITransaction := {| header := h; byte_size := byte_size t |}.

(** [dst[..src.len()].copy_from_slice(src)] on an array of [n] zeros: it panics when
    [src] is longer. *)
Definition zero_extended (src : list Z) (n : nat) : outcome (list Z) :=
  if bool_decide (length src ≤ n)%nat then Done (src ++ replicate (n - length src) 0) else Panicked.
Definition AHCI_PRD_SIZE : nat := 16.

Section commands.
Context {D : Type} `{HbaBus D}.
Implicit Types d : D.

Definition build_command_table (h : AHCICommandHeader) (raw_fis raw_acmd : list Z) (prdt : list AHCIPhysicalRegionDescriptor) d :
    outcome (AHCICommandHeader * D) :=
  rust_assert (bool_decide (length raw_acmd < 0x11)%nat);;
  h ← set_command_fis_length h (u8 (Z.shiftr (Z.of_nat (length raw_fis)) 2));
  let h := set_prd_table_length h (u16 (Z.of_nat (length prdt))) in
  let total_len := Z.of_nat (0x40 + 0x10 + 0x30 + length prdt * AHCI_PRD_SIZE) in
  let '(table, d) := heap_alloc total_len d in
  raw_fis_ext ← zero_extended raw_fis 0x40;
  raw_acmd_ext ← zero_extended raw_acmd 0x10;
  let d := mem_store table (raw_fis_ext ++ raw_acmd_ext ++ replicate 0x30 0 ++ concat (map prd_bytes prdt)) d in
  Done (set_cmd_table_base_addr64 h table, d).

(** * Registers *)

(** [hba_reg_field!]: a bit of a register. *)
Definition hba_getter (reg bit : Z) d : bool * D :=
  let '(x, d) := mmio_read reg d in (bool_decide (Z.land x (Z.shiftl 1 bit) ≠ 0), d).
Definition hba_setter (reg bit : Z) (new_state : bool) d : D :=
  let '(x, d) := mmio_read reg d in
  mmio_write reg (if new_state then Z.lor x (Z.shiftl 1 bit) else Z.land x (not_w 32 (Z.shiftl 1 bit))) d.

(** ** Of a port

    [p] is the address of the [HBAPort]. *)
Implicit Types p b tag : Z.

Definition tfd_error p d : Z * D := let '(tfd, d) := mmio_read (p + P_TFD) d in (u8 (masked tfd 8 0xff), d).
Definition tfd_status p d : Z * D := let '(tfd, d) := mmio_read (p + P_TFD) d in (u8 (Z.land tfd 0xff), d).
Definition device_error p d : bool * D := let '(e, d) := tfd_error p d in (bool_decide (Z.land e 1 ≠ 0), d).
Definition device_busy p d : bool * D := let '(e, d) := tfd_error p d in (bool_decide (Z.land e (Z.shiftl 1 7) ≠ 0), d).
Definition device_drq p d : bool * D := let '(e, d) := tfd_error p d in (bool_decide (Z.land e (Z.shiftl 1 3) ≠ 0), d).
(** A register of which some bits are replaced. *)
Definition mmio_update (reg keep put : Z) d : D := let '(x, d) := mmio_read reg d in mmio_write reg (Z.lor (Z.land x keep) put) d.
Definition interface_comreset p d : D := mmio_update (p + P_SCTL) (not_w 32 0xf) 1 d.
Definition disable_sata_interface p d : D := mmio_update (p + P_SCTL) (not_w 32 0xf) 4 d.

Inductive AHCIDeviceDetection := NoDevice | DeviceDetectedNoPhysicalCom | DeviceDetectedPhysicalCom | PhysicalOffline.
Definition AHCIDeviceDetection_from_u8 (value : Z) : AHCIDeviceDetection :=
  if bool_decide (value = 1) then DeviceDetectedNoPhysicalCom else if bool_decide (value = 3) then DeviceDetectedPhysicalCom
  else if bool_decide (value = 4) then PhysicalOffline else NoDevice.
Inductive AHCIInterfaceSpeed := NoSpeed | Gen1 | Gen2 | Gen3.
Definition u8_from_AHCIInterfaceSpeed (value : AHCIInterfaceSpeed) : Z := match value with NoSpeed => 0 | Gen1 => 1 | Gen2 => 2 | Gen3 => 3 end.
Definition AHCIInterfaceSpeed_from_u8 (value : Z) : AHCIInterfaceSpeed :=
  if bool_decide (value = 1) then Gen1 else if bool_decide (value = 2) then Gen2 else if bool_decide (value = 3) then Gen3 else NoSpeed.
Inductive AHCIInterfaceState := DevSleep | Slumber | PartialState | ActiveState | IdleState.
Definition u8_from_AHCIInterfaceState (value : AHCIInterfaceState) : Z :=
  match value with DevSleep => 8 | Slumber => 6 | PartialState => 2 | ActiveState => 1 | IdleState => 0 end.
Definition AHCIInterfaceState_from_u8 (value : Z) : AHCIInterfaceState :=
  if bool_decide (value = 1) then ActiveState else if bool_decide (value = 2) then PartialState
  else if bool_decide (value = 6) then Slumber else if bool_decide (value = 8) then DevSleep else IdleState.

Definition set_max_interface_speed p (speed : AHCIInterfaceSpeed) d : D :=
  mmio_update (p + P_SCTL) (not_w 32 (Z.shiftl 0xf 4)) (Z.shiftl (u8_from_AHCIInterfaceSpeed speed) 4) d.
Definition port_cmdlist_base_address p d : Z * D :=
  let '(clbu, d) := mmio_read (p + P_CLBU) d in
  let '(clb, d) := mmio_read (p + P_CLB) d in
  (Z.lor (Z.shiftl clbu 32) clb, d).
Definition port_set_cmdlist_base_address p (address : Z) d : outcome D :=
  rust_assert (bool_decide (Z.land address (2 ^ 10 - 1) = 0));;
  let d := mmio_write (p + P_CLBU) (u32 (masked address 32 0xffffffff)) d in
  Done (mmio_write (p + P_CLB) (u32 (Z.land address 0xffffffff)) d).
Definition port_fis_base_address p d : Z * D :=
  let '(fbu, d) := mmio_read (p + P_FBU) d in
  let '(fb, d) := mmio_read (p + P_FB) d in
  (Z.lor (Z.shiftl fbu 32) fb, d).
Definition port_set_fis_base_address p (address : Z) d : outcome D :=
  rust_assert (bool_decide (Z.land address (2 ^ 8 - 1) = 0));;
  let d := mmio_write (p + P_FBU) (u32 (masked address 32 0xffffffff)) d in
  Done (mmio_write (p + P_FB) (u32 (Z.land address 0xffffffff)) d).
(** [command_list_mut()[id]]: an index of 32 or more panics. *)
Definition update_command_list_entry p (id : Z) (new_entry : AHCICommandHeader) d : outcome D :=
  let '(clb, d) := port_cmdlist_base_address p d in
  rust_assert (bool_decide (id < 32));;
  Done (mem_store (clb + 32 * id) (header_bytes new_entry) d).
Definition get_command_list_entry p (id : Z) d : outcome (AHCICommandHeader * D) :=
  let '(clb, d) := port_cmdlist_base_address p d in
  rust_assert (bool_decide (id < 32));;
  match decode_fields [4; 4; 4; 4; 4; 4; 4; 4]%nat (mem_load (clb + 32 * id) 32 d) with
  | [a; b; c; e; r1; r2; r3; r4] =>
      Done ({| di := a; cs := b; ctba := c; ctba_hi := e; res_1 := r1; res_2 := r2; res_3 := r3; res_4 := r4 |}, d)
  | _ => Faulted
  end.
Definition port_icc_read p d : AHCIInterfaceState * D :=
  let '(cmd, d) := mmio_read (p + P_CMD) d in (AHCIInterfaceState_from_u8 (u8 (masked cmd 28 0xf)), d).
Definition port_icc_write p (cmd : AHCIInterfaceState) d : D :=
  mmio_update (p + P_CMD) (not_w 32 (Z.shiftl 0xf 28)) (Z.shiftl (u8_from_AHCIInterfaceState cmd) 28) d.
Definition port_current_command_slot p d : Z * D := let '(cmd, d) := mmio_read (p + P_CMD) d in (u8 (masked cmd 7 31), d).
Definition port_device_sig p d : Z * D := mmio_read (p + P_SIG) d.
Definition port_interface_state p d : AHCIInterfaceState * D :=
  let '(ssts, d) := mmio_read (p + P_SSTS) d in (AHCIInterfaceState_from_u8 (u8 (masked ssts 8 0xf)), d).
Definition port_interface_speed p d : AHCIInterfaceSpeed * D :=
  let '(ssts, d) := mmio_read (p + P_SSTS) d in (AHCIInterfaceSpeed_from_u8 (u8 (masked ssts 4 0xf)), d).
Definition port_interface_device_detection p d : AHCIDeviceDetection * D :=
  let '(ssts, d) := mmio_read (p + P_SSTS) d in (AHCIDeviceDetection_from_u8 (u8 (Z.land ssts 0xf)), d).
Definition port_tag_status p tag d : bool * D := hba_getter (p + P_SACT) (tag mod 32) d.
Definition port_tag_set_outstanding p tag d : D :=
  mmio_update (p + P_SACT) (not_w 32 (Z.shiftl 1 (tag mod 32))) (Z.shiftl 1 (tag mod 32)) d.
Definition port_tag_clear_outstanding p tag d : D := mmio_update (p + P_SACT) (not_w 32 (Z.shiftl 1 (tag mod 32))) 0 d.
Definition port_command_is_issued p tag d : bool * D := hba_getter (p + P_CI) (tag mod 32) d.
Definition port_command_set_issued p tag d : D :=
  mmio_update (p + P_CI) (not_w 32 (Z.shiftl 1 (tag mod 32))) (Z.shiftl 1 (tag mod 32)) d.
Definition port_command_clear_issued p tag d : D := mmio_update (p + P_CI) (not_w 32 (Z.shiftl 1 (tag mod 32))) 0 d.
Definition port_pm_notification_received p port d : bool * D := hba_getter (p + P_SNTF) (port mod 32) d.
Definition port_pm_notification_clear p port d : D :=
  mmio_update (p + P_SNTF) (not_w 32 (Z.shiftl 1 (port mod 32))) (Z.shiftl 1 (port mod 32)) d.
Definition clear_interrupts p d : D := let '(pending, d) := mmio_read (p + P_IS) d in mmio_write (p + P_IS) pending d.

Definition PORT_IS_CPDS : Z := 31.
Definition port_cold_detect p d : bool * D := hba_getter (p + P_IS) PORT_IS_CPDS d.
Definition port_clear_cold_detect p (new_state : bool) d : D := hba_setter (p + P_IS) PORT_IS_CPDS new_state d.
Definition PORT_IS_TFES : Z := 30.
Definition port_task_file_err p d : bool * D := hba_getter (p + P_IS) PORT_IS_TFES d.
Definition port_clear_task_file_err p (new_state : bool) d : D := hba_setter (p + P_IS) PORT_IS_TFES new_state d.
Definition PORT_IS_HBFS : Z := 29.
Definition port_host_bus_fatal p d : bool * D := hba_getter (p + P_IS) PORT_IS_HBFS d.
Definition port_clear_host_bus_fatal p (new_state : bool) d : D := hba_setter (p + P_IS) PORT_IS_HBFS new_state d.
Definition PORT_IS_HBDS : Z := 28.
Definition port_host_bus_data_error p d : bool * D := hba_getter (p + P_IS) PORT_IS_HBDS d.
Definition port_clear_host_bus_data_error p (new_state : bool) d : D := hba_setter (p + P_IS) PORT_IS_HBDS new_state d.
Definition PORT_IS_IFS : Z := 27.
Definition port_interface_error p d : bool * D := hba_getter (p + P_IS) PORT_IS_IFS d.
Definition port_clear_interface_error p (new_state : bool) d : D := hba_setter (p + P_IS) PORT_IS_IFS new_state d.
Definition PORT_IS_INFS : Z := 26.
Definition port_nonfatal_interface_error p d : bool * D := hba_getter (p + P_IS) PORT_IS_INFS d.
Definition port_clear_nonfatal_interfcae_error p (new_state : bool) d : D := hba_setter (p + P_IS) PORT_IS_INFS new_state d.
Definition PORT_IS_OFS : Z := 24.
Definition port_overflow p d : bool * D := hba_getter (p + P_IS) PORT_IS_OFS d.
Definition port_clear_overflow p (new_state : bool) d : D := hba_setter (p + P_IS) PORT_IS_OFS new_state d.
Definition PORT_IS_IPMS : Z := 23.
Definition port_incorrect_multiplier p d : bool * D := hba_getter (p + P_IS) PORT_IS_IPMS d.
Definition port_clear_incorrect_multiplier p (new_state : bool) d : D := hba_setter (p + P_IS) PORT_IS_IPMS new_state d.
Definition PORT_IS_PRCS : Z := 22.
Definition port_phyrdy_changed p d : bool * D := hba_getter (p + P_IS) PORT_IS_PRCS d.
Definition PORT_IS_DMPS : Z := 7.
Definition port_mech_presence_switch p d : bool * D := hba_getter (p + P_IS) PORT_IS_DMPS d.
Definition port_clear_mech_presence_switch p (new_state : bool) d : D := hba_setter (p + P_IS) PORT_IS_DMPS new_state d.
Definition PORT_IS_PCS : Z := 6.
Definition port_connect_change p d : bool * D := hba_getter (p + P_IS) PORT_IS_PCS d.
Definition PORT_IS_DPS : Z := 5.
Definition port_descriptor_processed p d : bool * D := hba_getter (p + P_IS) PORT_IS_DPS d.
Definition port_clear_descriptor_processed p (new_state : bool) d : D := hba_setter (p + P_IS) PORT_IS_DPS new_state d.
Definition PORT_IS_UFS : Z := 4.
Definition port_unknown_fis_interrupt p d : bool * D := hba_getter (p + P_IS) PORT_IS_UFS d.
Definition PORT_IS_SDBS : Z := 3.
Definition port_set_device_bits_recv p d : bool * D := hba_getter (p + P_IS) PORT_IS_SDBS d.
Definition port_clear_set_device_bits_recv p (new_state : bool) d : D := hba_setter (p + P_IS) PORT_IS_SDBS new_state d.
Definition PORT_IS_DSS : Z := 2.
Definition port_dma_setup_recv p d : bool * D := hba_getter (p + P_IS) PORT_IS_DSS d.
Definition port_clear_dma_setup_recv p (new_state : bool) d : D := hba_setter (p + P_IS) PORT_IS_DSS new_state d.
Definition PORT_IS_PSS : Z := 1.
Definition port_pio_setup_recv p d : bool * D := hba_getter (p + P_IS) PORT_IS_PSS d.
Definition port_clear_pio_setup_recv p (new_state : bool) d : D := hba_setter (p + P_IS) PORT_IS_PSS new_state d.
Definition PORT_IS_DHRS : Z := 0.
Definition port_d2h_register_recv p d : bool * D := hba_getter (p + P_IS) PORT_IS_DHRS d.
Definition port_clear_d2h_register_recv p (new_state : bool) d : D := hba_setter (p + P_IS) PORT_IS_DHRS new_state d.
Definition PORT_IE_CPDE : Z := 31.
Definition port_cold_presence_detect p d : bool * D := hba_getter (p + P_IE) PORT_IE_CPDE d.
Definition port_enable_cold_presence_detect p (new_state : bool) d : D := hba_setter (p + P_IE) PORT_IE_CPDE new_state d.
Definition PORT_IE_TFEE : Z := 30.
Definition port_task_file_error_enabled p d : bool * D := hba_getter (p + P_IE) PORT_IE_TFEE d.
Definition port_enable_task_file_error p (new_state : bool) d : D := hba_setter (p + P_IE) PORT_IE_TFEE new_state d.
Definition PORT_IE_HBFE : Z := 29.
Definition port_host_bus_fatal_err_enabled p d : bool * D := hba_getter (p + P_IE) PORT_IE_HBFE d.
Definition port_enable_host_bus_fatal_err p (new_state : bool) d : D := hba_setter (p + P_IE) PORT_IE_HBFE new_state d.
Definition PORT_IE_HBDE : Z := 28.
Definition port_host_bus_data_err_enabled p d : bool * D := hba_getter (p + P_IE) PORT_IE_HBDE d.
Definition port_enable_host_bus_data_err p (new_state : bool) d : D := hba_setter (p + P_IE) PORT_IE_HBDE new_state d.
Definition PORT_IE_IFE : Z := 27.
Definition port_interface_fatal_err_enabled p d : bool * D := hba_getter (p + P_IE) PORT_IE_IFE d.
Definition port_enable_interface_fatal_err p (new_state : bool) d : D := hba_setter (p + P_IE) PORT_IE_IFE new_state d.
Definition PORT_IE_INFE : Z := 26.
Definition port_interface_nonfatal_err_enabled p d : bool * D := hba_getter (p + P_IE) PORT_IE_INFE d.
Definition port_enable_interface_nonfatal_err p (new_state : bool) d : D := hba_setter (p + P_IE) PORT_IE_INFE new_state d.
Definition PORT_IE_OFE : Z := 24.
Definition port_overflow_enabled p d : bool * D := hba_getter (p + P_IE) PORT_IE_OFE d.
Definition port_enable_overflow p (new_state : bool) d : D := hba_setter (p + P_IE) PORT_IE_OFE new_state d.
Definition PORT_IE_IPME : Z := 23.
Definition port_incorrect_multiplier_enabled p d : bool * D := hba_getter (p + P_IE) PORT_IE_IPME d.
Definition port_enable_incorrect_multiplier p (new_state : bool) d : D := hba_setter (p + P_IE) PORT_IE_IPME new_state d.
Definition PORT_IE_PRCE : Z := 22.
Definition port_phyrdy_change_interrupt_enabled p d : bool * D := hba_getter (p + P_IE) PORT_IE_PRCE d.
Definition port_enable_phyrdy_change_interrupt p (new_state : bool) d : D := hba_setter (p + P_IE) PORT_IE_PRCE new_state d.
Definition PORT_IE_DMPE : Z := 7.
Definition port_device_mechanical_presence_enabled p d : bool * D := hba_getter (p + P_IE) PORT_IE_DMPE d.
Definition port_enable_device_mechanical_presence p (new_state : bool) d : D := hba_setter (p + P_IE) PORT_IE_DMPE new_state d.
Definition PORT_IE_PCE : Z := 6.
Definition port_change_interrupt_enabled p d : bool * D := hba_getter (p + P_IE) PORT_IE_PCE d.
Definition port_enable_change_interrupt p (new_state : bool) d : D := hba_setter (p + P_IE) PORT_IE_PCE new_state d.
Definition PORT_IE_DPE : Z := 5.
Definition port_descriptor_processed_interrupt_enabled p d : bool * D := hba_getter (p + P_IE) PORT_IE_DPE d.
Definition port_enable_descriptor_processed_interrupt p (new_state : bool) d : D := hba_setter (p + P_IE) PORT_IE_DPE new_state d.
Definition PORT_IE_UFE : Z := 4.
Definition port_unknown_fis_interrupt_enabled p d : bool * D := hba_getter (p + P_IE) PORT_IE_UFE d.
Definition port_enable_unknown_fis_interrupt p (new_state : bool) d : D := hba_setter (p + P_IE) PORT_IE_UFE new_state d.
Definition PORT_IE_SDBE : Z := 3.
Definition port_set_device_bits_interrupt_enabled p d : bool * D := hba_getter (p + P_IE) PORT_IE_SDBE d.
Definition port_enable_set_device_bits p (new_state : bool) d : D := hba_setter (p + P_IE) PORT_IE_SDBE new_state d.
Definition PORT_IE_DSE : Z := 2.
Definition port_dma_setup_interrupt_enabled p d : bool * D := hba_getter (p + P_IE) PORT_IE_DSE d.
Definition port_enable_dma_setup_interrupt p (new_state : bool) d : D := hba_setter (p + P_IE) PORT_IE_DSE new_state d.
Definition PORT_IE_PSE : Z := 1.
Definition port_pio_setup_interrupt_enabled p d : bool * D := hba_getter (p + P_IE) PORT_IE_PSE d.
Definition port_enable_pio_setup_interrupt p (new_state : bool) d : D := hba_setter (p + P_IE) PORT_IE_PSE new_state d.
Definition PORT_IE_DHRE : Z := 0.
Definition port_d2h_register_interrupt_enabled p d : bool * D := hba_getter (p + P_IE) PORT_IE_DHRE d.
Definition port_enable_d2h_register_interrupt p (new_state : bool) d : D := hba_setter (p + P_IE) PORT_IE_DHRE new_state d.
Definition PORT_CMD_ASP : Z := 27.
Definition port_cmd_asp p d : bool * D := hba_getter (p + P_CMD) PORT_CMD_ASP d.
Definition port_cmd_set_asp p (new_state : bool) d : D := hba_setter (p + P_CMD) PORT_CMD_ASP new_state d.
Definition PORT_CMD_ALPE : Z := 26.
Definition port_alp_enabled p d : bool * D := hba_getter (p + P_CMD) PORT_CMD_ALPE d.
Definition port_enable_alp p (new_state : bool) d : D := hba_setter (p + P_CMD) PORT_CMD_ALPE new_state d.
Definition PORT_CMD_DLAE : Z := 25.
Definition port_led_drive_enabled p d : bool * D := hba_getter (p + P_CMD) PORT_CMD_DLAE d.
Definition port_enable_led_drive p (new_state : bool) d : D := hba_setter (p + P_CMD) PORT_CMD_DLAE new_state d.
Definition PORT_CMD_ATAPI : Z := 24.
Definition port_connected_device_is_atapi p d : bool * D := hba_getter (p + P_CMD) PORT_CMD_ATAPI d.
Definition port_set_connected_is_atapi p (new_state : bool) d : D := hba_setter (p + P_CMD) PORT_CMD_ATAPI new_state d.
Definition PORT_CMD_APSTE : Z := 23.
Definition port_auto_partial2slumber p d : bool * D := hba_getter (p + P_CMD) PORT_CMD_APSTE d.
Definition port_enble_auto_partial2slumber p (new_state : bool) d : D := hba_setter (p + P_CMD) PORT_CMD_APSTE new_state d.
Definition PORT_CMD_FBSCP : Z := 22.
Definition port_fis_based_switching_capable p d : bool * D := hba_getter (p + P_CMD) PORT_CMD_FBSCP d.
Definition PORT_CMD_ESP : Z := 21.
Definition port_external_sata p d : bool * D := hba_getter (p + P_CMD) PORT_CMD_ESP d.
Definition PORT_CMD_CPD : Z := 20.
Definition port_cold_presence_detection_support p d : bool * D := hba_getter (p + P_CMD) PORT_CMD_CPD d.
Definition PORT_CMD_MPSP : Z := 19.
Definition port_mechanical_presence_switch_support p d : bool * D := hba_getter (p + P_CMD) PORT_CMD_MPSP d.
Definition PORT_CMD_HPCP : Z := 18.
Definition port_hot_plug_capable p d : bool * D := hba_getter (p + P_CMD) PORT_CMD_HPCP d.
Definition PORT_CMD_PMA : Z := 17.
Definition port_multiplier_attached p d : bool * D := hba_getter (p + P_CMD) PORT_CMD_PMA d.
Definition port_set_multiplier_attached p (new_state : bool) d : D := hba_setter (p + P_CMD) PORT_CMD_PMA new_state d.
Definition PORT_CMD_CPS : Z := 16.
Definition port_device_cold_presence_detected p d : bool * D := hba_getter (p + P_CMD) PORT_CMD_CPS d.
Definition PORT_CMD_CR : Z := 15.
Definition port_command_list_dma_engine_running p d : bool * D := hba_getter (p + P_CMD) PORT_CMD_CR d.
Definition PORT_CMD_FR : Z := 14.
Definition port_fis_receive_dma_engine_running p d : bool * D := hba_getter (p + P_CMD) PORT_CMD_FR d.
Definition PORT_CMD_MPSS : Z := 13.
Definition port_mechanical_switch_state p d : bool * D := hba_getter (p + P_CMD) PORT_CMD_MPSS d.
Definition PORT_CMD_FRE : Z := 4.
Definition port_fis_receive_enabled p d : bool * D := hba_getter (p + P_CMD) PORT_CMD_FRE d.
Definition port_enable_fis_receive p (new_state : bool) d : D := hba_setter (p + P_CMD) PORT_CMD_FRE new_state d.
Definition PORT_CMD_CLO : Z := 3.
Definition port_command_list_override p d : bool * D := hba_getter (p + P_CMD) PORT_CMD_CLO d.
Definition port_set_command_list_override p (new_state : bool) d : D := hba_setter (p + P_CMD) PORT_CMD_CLO new_state d.
Definition PORT_CMD_POD : Z := 2.
Definition port_power_on_device p d : bool * D := hba_getter (p + P_CMD) PORT_CMD_POD d.
Definition port_set_power_on_device p (new_state : bool) d : D := hba_setter (p + P_CMD) PORT_CMD_POD new_state d.
Definition PORT_CMD_SUD : Z := 1.
Definition port_status_spin_up p d : bool * D := hba_getter (p + P_CMD) PORT_CMD_SUD d.
Definition port_spin_up_device p (new_state : bool) d : D := hba_setter (p + P_CMD) PORT_CMD_SUD new_state d.
Definition PORT_CMD_ST : Z := 0.
Definition port_start p d : bool * D := hba_getter (p + P_CMD) PORT_CMD_ST d.
Definition port_set_start p (new_state : bool) d : D := hba_setter (p + P_CMD) PORT_CMD_ST new_state d.

(** ** Of the controller

    [b] is the address of the [HBAGenericHostControl]. *)
Definition hba_number_ports b d : Z * D := let '(x, d) := mmio_read (b + G_CAP) d in (u8 (1 + Z.land x 31), d).
Definition hba_number_cmd_slots b d : Z * D := let '(x, d) := mmio_read (b + G_CAP) d in (u8 (1 + masked x 8 31), d).
Definition port_has_interrupt_pending b (x : Z) d : bool * D := hba_getter (b + G_ISR) (x mod 32) d.
Definition reset_pending_interrupts b d : D := mmio_write (b + G_ISR) 0 d.
Definition is_port_implemented b (x : Z) d : bool * D := hba_getter (b + G_PI) (x mod 32) d.
Fixpoint ports_implemented_from (xs : list Z) b d : list Z * D :=
  match xs with
  | [] => ([], d)
  | x :: xs =>
      let '(yes, d) := is_port_implemented b x d in
      let '(ys, d) := ports_implemented_from xs b d in
      (if yes : bool then x :: ys else ys, d)
  end.
Definition ports_implemented b d : list Z * D := ports_implemented_from (range 0 32) b d.
(** The version is read as an ordinary field. *)
Definition ahci_minor_version b d : Z * D :=
  let '(vs, d) := mmio_read (b + G_VS) d in
  (u8 (u8 (u8 (Z.shiftr (Z.land vs 0xff00) 8) * 10) + u8 (Z.land vs 0xff)), d).
Definition ahci_major_version b d : Z * D :=
  let '(vs, d) := mmio_read (b + G_VS) d in
  (u8 (u8 (u8 (Z.shiftr (Z.land vs 0xff000000) 24) * 10) + u8 (Z.shiftr (Z.land vs 0xff0000) 16)), d).
Definition timeout_value b d : Z * D := let '(x, d) := mmio_read (b + G_CCC_CTL) d in (u16 (Z.shiftr (Z.land x 0xff00) 16), d).
Definition ccc_cmd_compl b d : Z * D := let '(x, d) := mmio_read (b + G_CCC_CTL) d in (u8 (Z.land (shl_w 32 x 8) 0xff), d).
Definition ccc_interrupt b d : Z * D := let '(x, d) := mmio_read (b + G_CCC_CTL) d in (u8 (Z.land (shl_w 32 x 3) 0xf), d).
Definition is_port_coalesced b (x : Z) d : bool * D := hba_getter (b + G_CCC_PORTS) (x mod 32) d.
Definition em_buf_size b d : Z * D := let '(x, d) := mmio_read (b + G_EM_LOC) d in (u16 (Z.land x 0xff), d).
Definition em_buf_offset b d : Z * D := let '(x, d) := mmio_read (b + G_EM_LOC) d in (u16 (Z.shiftr (Z.land x 0xff00) 16), d).

Definition HBA_EM_STSMR : Z := 0.
Definition hba_em_mr b d : bool * D := hba_getter (b + G_EM_CTL) HBA_EM_STSMR d.
Definition hba_em_mr_clear b (new_state : bool) d : D := hba_setter (b + G_EM_CTL) HBA_EM_STSMR new_state d.
Definition HBA_EM_TM : Z := 8.
Definition hba_em_tm b d : bool * D := hba_getter (b + G_EM_CTL) HBA_EM_TM d.
Definition hba_em_transmit b (new_state : bool) d : D := hba_setter (b + G_EM_CTL) HBA_EM_TM new_state d.
Definition HBA_EM_RST : Z := 9.
Definition hba_em_is_rst b d : bool * D := hba_getter (b + G_EM_CTL) HBA_EM_RST d.
Definition hba_em_reset b (new_state : bool) d : D := hba_setter (b + G_EM_CTL) HBA_EM_RST new_state d.
Definition HBA_EM_LED_SUPP : Z := 16.
Definition hba_em_supp_led b d : bool * D := hba_getter (b + G_EM_CTL) HBA_EM_LED_SUPP d.
Definition HBA_EM_SAFTE_SUPP : Z := 17.
Definition hba_em_supp_safte b d : bool * D := hba_getter (b + G_EM_CTL) HBA_EM_SAFTE_SUPP d.
Definition HBA_EM_SES2_SUPP : Z := 18.
Definition hba_em_supp_ses2 b d : bool * D := hba_getter (b + G_EM_CTL) HBA_EM_SES2_SUPP d.
Definition HBA_EM_SGPIO_SUPP : Z := 19.
Definition hba_em_supp_sgpio b d : bool * D := hba_getter (b + G_EM_CTL) HBA_EM_SGPIO_SUPP d.
Definition HBA_EM_SMB : Z := 24.
Definition hba_em_smb b d : bool * D := hba_getter (b + G_EM_CTL) HBA_EM_SMB d.
Definition HBA_EM_XMT : Z := 25.
Definition hba_em_transmit_only b d : bool * D := hba_getter (b + G_EM_CTL) HBA_EM_XMT d.
Definition HBA_EM_ALHD : Z := 26.
Definition hba_em_aled_hw_driven b d : bool * D := hba_getter (b + G_EM_CTL) HBA_EM_ALHD d.
Definition HBA_EM_PM : Z := 27.
Definition hba_em_pm_supp b d : bool * D := hba_getter (b + G_EM_CTL) HBA_EM_PM d.
Definition HBA_CCC_EN : Z := 0.
Definition hba_ccc_enable b d : bool * D := hba_getter (b + G_CCC_CTL) HBA_CCC_EN d.
Definition HBA_BOHC_BOS : Z := 0.
Definition hba_bohc_bos b d : bool * D := hba_getter (b + G_BOHC) HBA_BOHC_BOS d.
Definition HBA_BOHC_OOS : Z := 1.
Definition hba_bohc_oos b d : bool * D := hba_getter (b + G_BOHC) HBA_BOHC_OOS d.
Definition hba_request_ownership b (new_state : bool) d : D := hba_setter (b + G_BOHC) HBA_BOHC_OOS new_state d.
Definition HBA_BOHC_SOOE : Z := 2.
Definition hba_bohc_sooe b d : bool * D := hba_getter (b + G_BOHC) HBA_BOHC_SOOE d.
Definition hba_enable_smi_on_ooc b (new_state : bool) d : D := hba_setter (b + G_BOHC) HBA_BOHC_SOOE new_state d.
Definition HBA_BOHC_OOC : Z := 3.
Definition hba_os_ownership_change b d : bool * D := hba_getter (b + G_BOHC) HBA_BOHC_OOC d.
Definition hba_clear_oos_bit b (new_state : bool) d : D := hba_setter (b + G_BOHC) HBA_BOHC_OOC new_state d.
Definition HBA_BOHC_BB : Z := 4.
Definition hba_bios_busy b d : bool * D := hba_getter (b + G_BOHC) HBA_BOHC_BB d.
Definition HBA_CAP2_BOH : Z := 0.
Definition hba_cap_bios_os_handoff b d : bool * D := hba_getter (b + G_CAP2) HBA_CAP2_BOH d.
Definition HBA_CAP2_NVMP : Z := 1.
Definition hba_cap_nvmhci_present b d : bool * D := hba_getter (b + G_CAP2) HBA_CAP2_NVMP d.
Definition HBA_CAP2_APST : Z := 2.
Definition hba_cap_apst b d : bool * D := hba_getter (b + G_CAP2) HBA_CAP2_APST d.
Definition HBA_CAP2_SDS : Z := 3.
Definition hba_cap_sup_device_slp b d : bool * D := hba_getter (b + G_CAP2) HBA_CAP2_SDS d.
Definition HBA_CAP2_SADM : Z := 4.
Definition hba_cpa_sadm b d : bool * D := hba_getter (b + G_CAP2) HBA_CAP2_SADM d.
Definition HBA_CAP2_DESO : Z := 5.
Definition hba_cap_deso b d : bool * D := hba_getter (b + G_CAP2) HBA_CAP2_DESO d.
Definition HBA_GHC_HR : Z := 0.
Definition hba_ghc_rst b d : bool * D := hba_getter (b + G_GHC) HBA_GHC_HR d.
Definition perform_hba_ghc_rst b (new_state : bool) d : D := hba_setter (b + G_GHC) HBA_GHC_HR new_state d.
Definition HBA_GHC_IE : Z := 1.
Definition hba_ghc_interrupt_enable b d : bool * D := hba_getter (b + G_GHC) HBA_GHC_IE d.
Definition set_hba_ghc_interrupt_enable b (new_state : bool) d : D := hba_setter (b + G_GHC) HBA_GHC_IE new_state d.
Definition HBA_GHC_MRSM : Z := 2.
Definition hba_ghc_msi_revert_to_single b d : bool * D := hba_getter (b + G_GHC) HBA_GHC_MRSM d.
Definition HBA_GHC_AE : Z := 31.
Definition hba_ghc_ahci_enable b d : bool * D := hba_getter (b + G_GHC) HBA_GHC_AE d.
Definition set_hba_ghc_ahci_enable b (new_state : bool) d : D := hba_setter (b + G_GHC) HBA_GHC_AE new_state d.
Definition HBA_CAP_S64A : Z := 31.
Definition hba_cap_64_addr_support b d : bool * D := hba_getter (b + G_CAP) HBA_CAP_S64A d.
Definition HBA_CAP_SNCQ : Z := 30.
Definition hba_cap_native_cmdq_support b d : bool * D := hba_getter (b + G_CAP) HBA_CAP_SNCQ d.
Definition HBA_CAP_SSNTF : Z := 29.
Definition hba_cap_snotif_reg_support b d : bool * D := hba_getter (b + G_CAP) HBA_CAP_SSNTF d.
Definition HBA_CAP_SMPS : Z := 28.
Definition hba_cap_mech_presw_support b d : bool * D := hba_getter (b + G_CAP) HBA_CAP_SMPS d.
Definition HBA_CAP_SSS : Z := 27.
Definition hba_cap_ss_support b d : bool * D := hba_getter (b + G_CAP) HBA_CAP_SSS d.
Definition HBA_CAP_SALP : Z := 26.
Definition hba_cap_aggr_linkpow_mgmt_support b d : bool * D := hba_getter (b + G_CAP) HBA_CAP_SALP d.
Definition HBA_CAP_SAL : Z := 25.
Definition hba_cap_act_led_support b d : bool * D := hba_getter (b + G_CAP) HBA_CAP_SAL d.
Definition HBA_CAP_SCLO : Z := 24.
Definition hba_cap_cmd_list_override_support b d : bool * D := hba_getter (b + G_CAP) HBA_CAP_SCLO d.
Definition HBA_CAP_SAM : Z := 18.
Definition hba_cap_ahci_only b d : bool * D := hba_getter (b + G_CAP) HBA_CAP_SAM d.
Definition HBA_CAP_SPM : Z := 17.
Definition hba_cap_port_mul_support b d : bool * D := hba_getter (b + G_CAP) HBA_CAP_SPM d.
Definition HBA_CAP_FBSS : Z := 16.
Definition hba_cap_fis_switching_support b d : bool * D := hba_getter (b + G_CAP) HBA_CAP_FBSS d.
Definition HBA_CAP_PMD : Z := 15.
Definition hba_cap_pio_mul_drq_blk b d : bool * D := hba_getter (b + G_CAP) HBA_CAP_PMD d.
Definition HBA_CAP_SSC : Z := 14.
Definition hba_cap_slumber_state b d : bool * D := hba_getter (b + G_CAP) HBA_CAP_SSC d.
Definition HBA_CAP_PSC : Z := 13.
Definition hba_cap_partial_state b d : bool * D := hba_getter (b + G_CAP) HBA_CAP_PSC d.
Definition HBA_CAP_CCCS : Z := 7.
Definition hba_cap_cmd_compl_coalescing_support b d : bool * D := hba_getter (b + G_CAP) HBA_CAP_CCCS d.
Definition HBA_CAP_EMS : Z := 6.
Definition hba_cap_enclosure_mgmt_support b d : bool * D := hba_getter (b + G_CAP) HBA_CAP_EMS d.
Definition HBA_CAP_SXS : Z := 5.
Definition hba_cap_external_sata b d : bool * D := hba_getter (b + G_CAP) HBA_CAP_SXS d.
End commands.
