(* ===== verification/Ahci.v ===== *)
(** The AHCI driver (src/drivers/ahci/{mod,port,device}.rs): the setup of the
    controller, commands, its interrupt handler, and the drives behind it.

    A loop with a timeout is a loop of [polls] turns: the clock decides how many
    there are.  Interrupts come while the driver waits ([IntLine]). *)

From S2P Require Import Prelude Partitions Addr Ports Bitfield Ata Fis AhciRegs.

(** The commands that are waited for, by slot: [SATA_COMMAND_QUEUE]. *)
Abbreviation command_map := (gmap Z AHCITransaction).

(** ** Received frames

    [HBAPortReceivedFIS] is packed: the frames at their offsets. *)
Definition received_fis_new : list Z :=
  concat (map (le_bytes 4) (dmas_new_empty ++ [0] ++ pios_new_empty ++ [0; 0; 0] ++ d2h_new_empty ++ [0] ++ sdb_new_empty))
    ++ replicate 64 0.
Definition frame_at (bs : list Z) (off n : nat) : FIS := decode_fields (replicate n 4%nat) (drop off bs).
Definition received_dma_setup (bs : list Z) : FIS := frame_at bs 0 7.
Definition received_pio_setup (bs : list Z) : FIS := frame_at bs 0x20 5.
Definition received_device_to_host (bs : list Z) : FIS := frame_at bs 0x40 5.
Definition received_set_device_bits (bs : list Z) : FIS := frame_at bs 0x58 2.

(** A drive: its identification data and its port. *)
Record AHCIDrive := { drive_id : AtaDeviceIdentifier; device_info : AtaIdentify; ahci_port : Z }.

Section driver.
Context {D : Type} `{HB : HbaBus D} `{IL : IntLine D}.
(** The address of the registers of the controller. *)
Context (hba_mem : Z).
Implicit Types (d : D) (q : command_map) (p : Z).

Definition read_ghc : Z := hba_mem + GHC_BOFFSET.
Definition read_port_register (port : Z) : outcome Z :=
  rust_assert (bool_decide (port < 32));;
  Done (hba_mem + (PORT_REG_OFFSET + port * 0x80)).

(** * Waiting *)

(** [wait_for!] and [wait_for_or!]: whether the condition was seen. *)
Fixpoint wait_for (polls : nat) (cond : D → bool * D) d : bool * D :=
  match polls with
  | O => (false, d)
  | S polls => let '(ok, d) := cond d in if ok : bool then (true, d) else wait_for polls cond d
  end.
(** [while self.device_busy() || self.device_drq() {}]. *)
Definition busy_or_drq p d : bool * D :=
  let '(x, d) := device_busy p d in if x : bool then (true, d) else device_drq p d.
Fixpoint wait_idle (fuel : nat) p d : outcome D :=
  let '(x, d) := busy_or_drq p d in
  if x : bool then match fuel with O => NoFuel | S fuel => wait_idle fuel p d end else Done d.

(** * Commands *)

(** [(0..32).position(|i| !self.port_command_is_issued(i))]. *)
Fixpoint free_slot (slots : list Z) p d : option Z * D :=
  match slots with
  | [] => (None, d)
  | i :: slots => let '(issued, d) := port_command_is_issued p i d in if issued : bool then free_slot slots p d else (Some i, d)
  end.
(** The timeout of 50 ms panics. *)
Fixpoint find_command_slot (polls : nat) p d : outcome (Z * D) :=
  match polls with
  | O => Panicked
  | S polls => match free_slot (range 0 32) p d with (Some slot, d) => Done (slot, d) | (None, d) => find_command_slot polls p d end
  end.
Definition dispatch_command (polls fuel : nat) p (cmd : AHCITransaction) q d : outcome (Z * command_map * D) :=
  '(cmd_slot, d) ← find_command_slot polls p d;
  d ← update_command_list_entry p cmd_slot (header cmd) d;
  d ← wait_idle fuel p d;
  let q := <[cmd_slot := cmd]> q in
  Done (cmd_slot, q, port_command_set_issued p cmd_slot d).

(** * Interrupts *)

(** The commands of the queue that the port does not run any more. *)
Fixpoint completed_commands (keys : list Z) p d : list Z * D :=
  match keys with
  | [] => ([], d)
  | i :: keys =>
      let '(issued, d) := port_command_is_issued p i d in
      let '(done, d) := completed_commands keys p d in
      (if issued : bool then done else i :: done, d)
  end.
(** The handling of one port. *)
Definition irq_port (i : Z) q d : outcome (command_map * D) :=
  p ← read_port_register i;
  let '(completed, d) := completed_commands (map fst (map_to_list q)) p d in
  let q := foldr delete q completed in
  let '(err, d) := tfd_error p d in
  let d := if bool_decide (err ≠ 0) then (let '(_, d) := tfd_error p d in let '(_, d) := port_current_command_slot p d in d) else d in
  Done (q, clear_interrupts p d).
Fixpoint irq_ports (ports : list Z) q d : outcome (command_map * D) :=
  match ports with
  | [] => Done (q, d)
  | i :: ports =>
      let '(pending, d) := port_has_interrupt_pending read_ghc i d in
      '(q, d) ← (if pending : bool then irq_port i q d else Done (q, d));
      irq_ports ports q d
  end.
Definition irq_entry q d : outcome (command_map * D) :=
  '(q, d) ← irq_ports (range 0 32) q d;
  Done (q, reset_pending_interrupts read_ghc d).

(** [wait_for_or!(!SATA_COMMAND_QUEUE.lock().contains_key(&slot), ..)]. *)
Fixpoint wait_command (polls : nat) (slot : Z) q d : outcome (bool * command_map * D) :=
  match polls with
  | O => Done (false, q, d)
  | S polls =>
      '(q, d) ← (if int_pending d then irq_entry q d else Done (q, d));
      match q !! slot with
      | None => Done (true, q, d)
      | Some _ => wait_command polls slot q d
      end
  end.

(** * Drives *)

(** The descriptors of a transfer: 16 sectors each, the rest in the last. *)
Fixpoint region_descriptors (js : list Z) (buffer sector_size : Z) : outcome (list AHCIPhysicalRegionDescriptor) :=
  match js with
  | [] => Done []
  | i :: js =>
      prdt ← set_data_bytes_count (set_base_address prd_new_empty (u64 (buffer + i * 16 * sector_size))) (u32 (16 * sector_size));
      rest ← region_descriptors js buffer sector_size;
      Done (set_interrupt_on_completion prdt true :: rest)
  end.
Definition prdt_count (sectors_count : Z) : Z := u16 (Z.shiftr (u16 (sectors_count - 1)) 4 + 1).
Definition transfer_descriptors (sectors_count buffer sector_size : Z) : outcome (list AHCIPhysicalRegionDescriptor) :=
  let n := prdt_count sectors_count in
  prdtl ← region_descriptors (range 0 (n - 1)) buffer sector_size;
  last_prdt ← set_data_bytes_count (set_base_address prd_new_empty (u64 (buffer + (n - 1) * 16 * sector_size)))
    (u32 (u32 (sectors_count * sector_size) - u32 (u32 ((n - 1) * 16) * sector_size)));
  Done (prdtl ++ [last_prdt]).
(** The frame of a command that transfers sectors. *)
Definition transfer_fis (command start_lba sectors_count : Z) : FIS :=
  let f := h2d_set_command h2d_new_empty command in
  let f := h2d_set_device f (Z.shiftl 1 6) in
  let f := h2d_set_lba f start_lba in
  let f := h2d_set_count f sectors_count in
  h2d_set_command_update_bit f true.
Definition ATA_READ_DMA : Z := 0xC8.
Definition ATA_WRITE_DMA : Z := 0xCA.
Definition ATA_IDENTIFY_DEVICE : Z := 0xEC.
Definition ATA_EXECUTE_DEVICE_DIAGNOSTIC : Z := 0x90.

(** [read_dma] and [write_dma], which differ by the command. *)
Definition transfer_dma (command : Z) (polls fuel : nat) (drive : AHCIDrive) (start_lba sectors_count buffer : Z) q d :
    outcome (Z * command_map * D) :=
  let sector_size := logical_sector_size (device_info drive) in
  let fis := transfer_fis command start_lba sectors_count in
  let t := set_byte_size transaction_new (u32 (sectors_count * sector_size)) in
  prdtl ← transfer_descriptors sectors_count buffer sector_size;
  '(h, d) ← build_command_table (header t) (h2d_deref fis) [] prdtl d;
  port ← read_port_register (ahci_port drive);
  dispatch_command polls fuel port (with_header t h) q d.
Definition read_dma := transfer_dma ATA_READ_DMA.
Definition write_dma := transfer_dma ATA_WRITE_DMA.

Definition read_to_buf (polls fuel : nat) (drive : AHCIDrive) (start_lba sectors_count buffer buffer_len : Z) q d :
    outcome (result unit IOError * command_map * D) :=
  if negb (bool_decide (u64 (sectors_count * logical_sector_size (device_info drive)) ≤ buffer_len)) then Done (Err InvalidCommand, q, d)
  else if negb (bool_decide (u64 (start_lba + sectors_count) ≤ maximum_addressable_lba (device_info drive))) then
    Done (Err InvalidCommand, q, d)
  else
    '(slot, q, d) ← read_dma polls fuel drive start_lba sectors_count buffer q d;
    '(ok, q, d) ← wait_command polls (u8 slot) q d;
    Done (if ok : bool then Ok () else Err IOTimeout, q, d).
Definition write_from_buf (polls fuel : nat) (drive : AHCIDrive) (start_lba sectors_count buffer : Z) q d :
    outcome (result unit IOError * command_map * D) :=
  if negb (bool_decide (u64 (start_lba + sectors_count) ≤ maximum_addressable_lba (device_info drive))) then
    Done (Err InvalidCommand, q, d)
  else
    '(slot, q, d) ← write_dma polls fuel drive start_lba sectors_count buffer q d;
    '(ok, q, d) ← wait_command polls (u8 slot) q d;
    Done (if ok : bool then Ok () else Err IOTimeout, q, d).
Definition abort_of (r : result unit IOError) : AtaResult :=
  match r with Ok _ => AtaSuccess | Err _ => AtaFailure {| code := CommandAbort; err_lba := 0 |} end.
(** [DiskDevice::read]: a buffer of zeros is filled. *)
Definition ahci_read (polls fuel : nat) (drive : AHCIDrive) (start_lba sectors_count : Z) q d :
    outcome (AtaIoResult * command_map * D) :=
  let len := u64 (sectors_count * logical_sector_size (device_info drive)) in
  let '(buffer, d) := heap_alloc len d in
  let d := mem_store buffer (replicate (Z.to_nat len) 0) d in
  '(r, q, d) ← read_to_buf polls fuel drive start_lba sectors_count buffer len q d;
  Done ({| io_result := abort_of r; io_command := AtaReadSectors; io_data := Some (mem_load buffer (Z.to_nat len) d) |}, q, d).
(** [DiskDevice::write] of the data at [buffer]. *)
Definition ahci_write (polls fuel : nat) (drive : AHCIDrive) (start_lba sectors_count buffer : Z) q d :
    outcome (AtaIoResult * command_map * D) :=
  '(r, q, d) ← write_from_buf polls fuel drive start_lba sectors_count buffer q d;
  Done ({| io_result := abort_of r; io_command := AtaWriteSectors; io_data := None |}, q, d).

(** A command without an address. *)
Definition plain_fis (command : Z) : FIS :=
  h2d_set_command_update_bit (h2d_set_device (h2d_set_command h2d_new_empty command) 0) true.
Definition internal_device_diagnostic (polls fuel : nat) q d : outcome (command_map * D) :=
  '(h, d) ← build_command_table header_new_empty (h2d_deref (plain_fis ATA_EXECUTE_DEVICE_DIAGNOSTIC)) [] [] d;
  port ← read_port_register 0;
  '(_, q, d) ← dispatch_command polls fuel port (with_header transaction_new h) q d;
  Done (q, d).
(** The buffer is on the stack, at [recv_buffer]; the answer is checked at once. *)
Definition dispach_ata_identify (polls fuel : nat) p (recv_buffer : Z) q d : outcome (AtaIdentify * command_map * D) :=
  let d := mem_store recv_buffer (replicate 512 0) d in
  prdt1 ← set_data_bytes_count (set_base_address prd_new_empty recv_buffer) 0x200;
  '(h, d) ← build_command_table header_new_empty (h2d_deref (plain_fis ATA_IDENTIFY_DEVICE)) [] [prdt1] d;
  '(_, q, d) ← dispatch_command polls fuel p (set_byte_size (with_header transaction_new h) 0x200) q d;
  let '(fb, d) := port_fis_base_address p d in
  rust_assert (bool_decide (pios_transfer_count (received_pio_setup (mem_load fb 160 d)) = 0x200));;
  let words := decode_fields (replicate 256 2%nat) (mem_load recv_buffer 512 d) in
  rust_assert (bool_decide (Z.land (nth 0 words 0) (Z.shiftl 1 15) = 0));;
  Done (words, q, d).
Definition build_from_ahci (polls fuel : nat) (port id recv_buffer : Z) q d : outcome (AHCIDrive * command_map * D) :=
  p ← read_port_register port;
  '(info, q, d) ← dispach_ata_identify polls fuel p recv_buffer q d;
  Done ({| drive_id := {| disk_type := AHCI; ide_controller := id; device_id := 0 |}; device_info := info; ahci_port := port |}, q, d).

(** * The controller *)

(** The registry of drives, by internal identifier. *)
Definition identifier_key (i : AtaDeviceIdentifier) : Z := u64 (u64 (ide_controller i * 4) + device_id i).
Fixpoint load_drives (ports : list Z) (polls fuel : nat) (recv_buffer : Z) (drives : gmap Z AHCIDrive) q d :
    outcome (gmap Z AHCIDrive * command_map * D) :=
  match ports with
  | [] => Done (drives, q, d)
  | port :: ports =>
      p ← read_port_register port;
      let '(detection, d) := port_interface_device_detection p d in
      let '(sig, d) := match detection with DeviceDetectedPhysicalCom => port_device_sig p d | _ => (0, d) end in
      '(drives, q, d) ← (
        if bool_decide (sig = SATA_ATA_SIG) then
          '(drive, q, d) ← build_from_ahci polls fuel port port recv_buffer q d;
          Done (<[identifier_key {| disk_type := AHCI; ide_controller := 0; device_id := port |} := drive]> drives, q, d)
        else Done (drives, q, d));
      load_drives ports polls fuel recv_buffer drives q d
  end.
(** [load_sata_drives], without the partition tables of the drives. *)
Definition load_sata_drives (polls fuel : nat) (recv_buffer : Z) (drives : gmap Z AHCIDrive) q d :
    outcome (gmap Z AHCIDrive * command_map * D) :=
  let '(ports, d) := ports_implemented read_ghc d in
  load_drives ports polls fuel recv_buffer drives q d.

Definition reset d : D := perform_hba_ghc_rst read_ghc true d.
Definition enable d : D := set_hba_ghc_ahci_enable read_ghc true d.
Definition hard_reset (polls : nat) p d : D :=
  let d := port_set_start p false d in
  let '(_, d) := wait_for polls (λ d, let '(x, d) := port_start p d in (negb x, d)) d in
  let d := interface_comreset p d in
  mmio_write (p + P_SERR) 0xffffffff d.
Definition engine_running p d : bool * D :=
  let '(x, d) := port_start p d in
  if x : bool then (true, d)
  else
    let '(x, d) := port_command_list_dma_engine_running p d in
    if x : bool then (true, d) else port_fis_receive_dma_engine_running p d.
Definition detected p d : bool * D :=
  let '(x, d) := port_interface_device_detection p d in (match x with DeviceDetectedPhysicalCom => true | _ => false end, d).
(** The setup of a port; a timeout leaves it as it is. *)
Definition setup_port (polls : nat) p d : outcome D :=
  let d := port_set_start p false d in
  let d := port_enable_fis_receive p false d in
  let '(ok, d) := wait_for polls (λ d, let '(x, d) := engine_running p d in (negb x, d)) d in
  if negb ok then Done d
  else
    let '(fis_receive, d) := heap_alloc 160 d in
    let d := mem_store fis_receive received_fis_new d in
    d ← port_set_fis_base_address p fis_receive d;
    let '(command_list, d) := heap_alloc 1024 d in
    let d := mem_store command_list (concat (replicate 32 (header_bytes header_new_empty))) d in
    d ← port_set_cmdlist_base_address p command_list d;
    let d := port_enable_fis_receive p true d in
    let '(ss, d) := hba_cap_ss_support read_ghc d in
    let d := if ss : bool then port_spin_up_device p true d else d in
    let '(ok, d) := wait_for polls (detected p) d in
    if negb ok then Done d
    else
      let d := mmio_write (p + P_SERR) 0xffffffff d in
      let '(ok, d) := wait_for polls (λ d, let '(x, d) := busy_or_drq p d in (negb x, d)) d in
      if negb ok then Done d
      else
        let d := mmio_write (p + P_IS) 0 d in
        let d := mmio_write (p + P_IE) 0xffffffff d in
        let '(yes, d) := detected p d in
        Done (if yes : bool then port_set_start p true d else d).
Fixpoint setup_ports (polls : nat) (ports : list Z) d : outcome D :=
  match ports with
  | [] => Done d
  | i :: ports =>
      p ← read_port_register i;
      d ← setup_port polls p d;
      setup_ports polls ports d
  end.
(** [ahci_init], from the handoff of the firmware on. *)
Definition ahci_init (polls fuel : nat) (recv_buffer : Z) q d : outcome (gmap Z AHCIDrive * command_map * D) :=
  let '(handoff, d) := hba_cap_bios_os_handoff read_ghc d in
  let d := if handoff : bool then
      let d := hba_request_ownership read_ghc true d in
      (wait_for polls (λ d, let '(x, d) := hba_bohc_bos read_ghc d in (negb x, d)) d).2
    else d in
  let d := reset d in
  let '(_, d) := wait_for polls (hba_ghc_rst read_ghc) d in
  let d := enable d in
  let '(ports, d) := ports_implemented read_ghc d in
  d ← setup_ports polls ports d;
  let d := set_hba_ghc_interrupt_enable read_ghc true d in
  load_sata_drives polls fuel recv_buffer ∅ q d.
End driver.
