(* ===== verification/AhciSpec.v ===== *)
(** What the AHCI driver does to a controller with a drive on its first port. *)

From S2P Require Import Prelude Partitions Addr Ports Bitfield Ata Fis AhciRegs Ahci.

(** * Memory *)

Definition store (a : Z) (bs : list Z) (m : Z → Z) : Z → Z :=
  λ x, if bool_decide (a ≤ x < a + Z.of_nat (length bs)) then nth (Z.to_nat (x - a)) bs 0 else m x.
Definition load (a : Z) (n : nat) (m : Z → Z) : list Z := map (λ i, m (a + Z.of_nat i)) (seq 0 n).

Lemma length_load a n m : length (load a n m) = n.
Proof. unfold load. by rewrite length_map, length_seq. Qed.
Lemma load_ext a n m m' : (∀ i, 0 ≤ i < Z.of_nat n → m (a + i) = m' (a + i)) → load a n m = load a n m'.
Proof. intros H. unfold load. apply map_ext_in. intros i Hi. apply in_seq in Hi. apply H. lia. Qed.
Lemma load_store_in a bs m k n : (k + n ≤ length bs)%nat →
  load (a + Z.of_nat k) n (store a bs m) = take n (drop k bs).
Proof.
  intros Hk. apply list_eq. intros i. unfold load. rewrite list_lookup_fmap.
  destruct (decide (i < n)%nat) as [Hi|Hi].
  - rewrite lookup_seq_lt by done. cbn. rewrite lookup_take_lt, lookup_drop by done. unfold store.
    rewrite bool_decide_true by lia. replace (Z.to_nat _) with (k + i)%nat by lia.
    rewrite nth_lookup. destruct (bs !! (k + i)%nat) eqn:E; [done|]. apply lookup_ge_None in E. lia.
  - rewrite lookup_seq_ge, lookup_take_ge by lia. done.
Qed.
Lemma load_store_same a bs m : load a (length bs) (store a bs m) = bs.
Proof.
  pose proof (load_store_in a bs m 0 (length bs) ltac:(lia)) as H. rewrite drop_0, take_ge, Z.add_0_r in H by lia. exact H.
Qed.
Lemma store_out a bs m x : ¬ (a ≤ x < a + Z.of_nat (length bs)) → store a bs m x = m x.
Proof. intros H. unfold store. by rewrite bool_decide_false. Qed.
Lemma store_zeros a n m i : 0 ≤ i < Z.of_nat n → store a (replicate n 0) m (a + i) = 0.
Proof.
  intros Hi. unfold store. rewrite length_replicate, bool_decide_true by lia. rewrite nth_lookup.
  destruct (replicate n 0 !! _) as [x|] eqn:E; [|done]. by apply lookup_replicate in E as [-> _].
Qed.
Lemma load_store_out a bs m b n : b + Z.of_nat n ≤ a ∨ a + Z.of_nat (length bs) ≤ b → load b n (store a bs m) = load b n m.
Proof. intros H. apply load_ext. intros i Hi. apply store_out. lia. Qed.

(** * A controller and a drive

    One drive, on the first port, that knows the command READ DMA: 28 bits of
    address and 8 of count, 0 for 256.  A command runs when its slot is set in the
    register [CI], and its completion clears the slot and asks for an interrupt; the
    data go to the regions of the descriptors, in order.  The interrupt registers
    are cleared by writing ones. *)
Record hba := {
  ram : Z → Z; brk : Z; regs : Z → Z; sectors : Z → list Z; capacity : Z
}.
Definition HBA : Z := 0xF0000000.
Definition PORT0 : Z := HBA + 0x100.
Definition set_ram (m : Z → Z) (h : hba) : hba := {| ram := m; brk := brk h; regs := regs h; sectors := sectors h; capacity := capacity h |}.
Definition set_reg (a x : Z) (h : hba) : hba :=
  {| ram := ram h; brk := brk h; regs := λ b, if bool_decide (b = a) then x else regs h b; sectors := sectors h; capacity := capacity h |}.

Definition u32_at (m : Z → Z) (a : Z) : Z := of_le (load a 4 m).
Definition u64_at (m : Z → Z) (a : Z) : Z := of_le (load a 8 m).
(** A descriptor: an address and a length. *)
Definition region_at (m : Z → Z) (a : Z) : Z * Z := (u64_at m a, Z.land (u32_at m (a + 12)) (2 ^ 22 - 1) + 1).
Definition regions_at (m : Z → Z) (a : Z) (n : nat) : list (Z * Z) := map (λ i, region_at m (a + 16 * Z.of_nat i)) (seq 0 n).
Fixpoint scatter (rs : list (Z * Z)) (bs : list Z) (m : Z → Z) : Z → Z :=
  match rs with
  | [] => m
  | (a, len) :: rs => scatter rs (drop (Z.to_nat len) bs) (store a (take (Z.to_nat len) bs) m)
  end.
Definition media (h : hba) (lba : Z) (n : nat) : list Z := concat (map (λ i, sectors h (lba + Z.of_nat i)) (seq 0 n)).
Definition complete_slot (slot : Z) (tfd : Z) (h : hba) : hba :=
  set_reg (HBA + G_ISR) (Z.lor (regs h (HBA + G_ISR)) 1)
    (set_reg (PORT0 + P_IS) (Z.lor (regs h (PORT0 + P_IS)) 1)
      (set_reg (PORT0 + P_TFD) tfd
        (set_reg (PORT0 + P_CI) (Z.ldiff (regs h (PORT0 + P_CI)) (Z.shiftl 1 slot)) h))).
Definition run_slot (slot : Z) (h : hba) : hba :=
  let header := regs h (PORT0 + P_CLB) + 2 ^ 32 * regs h (PORT0 + P_CLBU) + 32 * slot in
  let prdtl := Z.shiftr (u32_at (ram h) header) 16 in
  let table := u64_at (ram h) (header + 8) in
  let fis := load table 20 (ram h) in
  let lba := of_le [nth 4 fis 0; nth 5 fis 0; nth 6 fis 0; Z.land (nth 7 fis 0) 0xf] in
  let count := if bool_decide (nth 12 fis 0 = 0) then 256 else nth 12 fis 0 in
  if bool_decide (nth 0 fis 0 = 0x27) && bool_decide (nth 2 fis 0 = 0xC8) && Z.testbit (nth 1 fis 0) 7 && bool_decide (lba + count ≤ capacity h)
  then
    complete_slot slot 0x50
      (set_ram (scatter (regions_at (ram h) (table + 0x80) (Z.to_nat prdtl)) (media h lba (Z.to_nat count)) (ram h)) h)
  else complete_slot slot 0x451 h.
Fixpoint run_slots (slots : list Z) (v : Z) (h : hba) : hba :=
  match slots with
  | [] => h
  | s :: slots => run_slots slots v (if Z.testbit v s then run_slot s h else h)
  end.
Definition round_up (n : Z) : Z := (n + 1023) / 1024 * 1024.
#[global] Instance hba_bus : HbaBus hba := {|
  mmio_read a h := (regs h a, h);
  mmio_write a v h :=
    if bool_decide (a = PORT0 + P_CI) then run_slots (range 0 32) v (set_reg a (Z.lor (regs h a) v) h)
    else if bool_decide (a = PORT0 + P_IS) || bool_decide (a = HBA + G_ISR) then set_reg a (Z.ldiff (regs h a) v) h
    else set_reg a v h;
  mem_load a n h := load a n (ram h);
  mem_store a bs h := set_ram (store a bs (ram h)) h;
  heap_alloc n h := (brk h, {| ram := ram h; brk := brk h + round_up n; regs := regs h; sectors := sectors h; capacity := capacity h |})
|}.
#[global] Instance hba_line : IntLine hba := {| int_pending h := bool_decide (regs h (HBA + G_ISR) ≠ 0) && Z.testbit (regs h (HBA + G_GHC)) 1 |}.

(** * Reading what the driver wrote *)

Lemma load_sub a N m k n : (k + n ≤ N)%nat → load (a + Z.of_nat k) n m = take n (drop k (load a N m)).
Proof.
  intros Hk. apply list_eq. intros i. destruct (decide (i < n)%nat) as [Hi|Hi].
  - rewrite lookup_take_lt, lookup_drop by done. unfold load. rewrite !list_lookup_fmap, !lookup_seq_lt by lia. cbn. do 2 f_equal. lia.
  - rewrite !lookup_ge_None_2; [done|rewrite length_take; lia|rewrite length_load; lia].
Qed.
Lemma le_bytes_8 lo hi : in_width 32 lo → in_width 32 hi → of_le (le_bytes 4 lo ++ le_bytes 4 hi) = lo + 2 ^ 32 * hi.
Proof.
  intros Hl Hh. assert (E : ∀ l r, of_le (l ++ r) = of_le l + 256 ^ Z.of_nat (length l) * of_le r).
  { clear. intros l r. induction l as [|b l IH]; cbn [app of_le length]; [lia|]. rewrite IH, Nat2Z.inj_succ, Z.pow_succ_r by lia. lia. }
  rewrite E, length_le_bytes, !of_le_le_bytes by done. done.
Qed.
(** A descriptor in memory. *)
Lemma region_of_bytes m a r : load a 16 m = prd_bytes r → in_width 32 (dba r) → in_width 32 (dbau r) → in_width 32 (prd_di r) →
  region_at m a = (dba r + 2 ^ 32 * dbau r, Z.land (prd_di r) (2 ^ 22 - 1) + 1).
Proof.
  intros Hm Ha Hu Hd. unfold region_at, u64_at, u32_at. f_equal.
  - pose proof (load_sub a 16 m 0 8 ltac:(lia)) as E. rewrite Z.add_0_r, Hm in E. rewrite E. by apply le_bytes_8.
  - change (a + 12) with (a + Z.of_nat 12). rewrite (load_sub a 16 m 12 4) by lia. rewrite Hm.
    change (take 4 (drop 12 (prd_bytes r))) with (le_bytes 4 (prd_di r)). by rewrite of_le_le_bytes.
Qed.
Lemma length_prd_bytes r : length (prd_bytes r) = 16%nat.
Proof. done. Qed.
Lemma length_concat_prds rs : length (concat (map prd_bytes rs)) = (16 * length rs)%nat.
Proof. induction rs as [|r rs IH]; [done|]. cbn [map concat length]. rewrite length_app, length_prd_bytes, IH. lia. Qed.
Lemma drop_concat_prds rs i : (i < length rs)%nat → take 16 (drop (16 * i) (concat (map prd_bytes rs))) = prd_bytes (nth i rs prd_new_empty).
Proof.
  revert i. induction rs as [|r rs IH]; intros i Hi; [simpl in Hi; lia|]. destruct i as [|i].
  - cbn [map concat nth]. rewrite Nat.mul_0_r, drop_0. by rewrite take_app_length' by done.
  - cbn [map concat nth]. replace (16 * S i)%nat with (length (prd_bytes r) + 16 * i)%nat by (rewrite length_prd_bytes; lia).
    rewrite <- drop_drop, drop_app_length. apply IH. simpl in Hi. lia.
Qed.
(** The descriptors of a table in memory. *)
Lemma regions_of_table m a rs : load a (16 * length rs) m = concat (map prd_bytes rs) →
  Forall (λ r, in_width 32 (dba r) ∧ in_width 32 (dbau r) ∧ in_width 32 (prd_di r)) rs →
  regions_at m a (length rs) = map (λ r, (dba r + 2 ^ 32 * dbau r, Z.land (prd_di r) (2 ^ 22 - 1) + 1)) rs.
Proof.
  intros Hm Hw. unfold regions_at. apply list_eq. intros i. rewrite !list_lookup_fmap.
  destruct (decide (i < length rs)%nat) as [Hi|Hi]; [|by rewrite lookup_seq_ge, lookup_ge_None_2 by lia].
  rewrite lookup_seq_lt by done. destruct (rs !! i) as [r|] eqn:Hr; [|apply lookup_ge_None in Hr; lia].
  destruct (Forall_lookup_1 _ _ _ _ Hw Hr) as (H1 & H2 & H3). cbn. f_equal. apply region_of_bytes; [|done..].
  replace (a + 16 * Z.of_nat i) with (a + Z.of_nat (16 * i)) by lia. rewrite (load_sub a (16 * length rs) m (16 * i) 16) by lia.
  rewrite Hm, drop_concat_prds by done. by rewrite (nth_lookup_Some _ _ _ _ Hr).
Qed.

(** * What a transfer writes

    [n] sectors: each full region is said to be two bytes longer than it is. *)
Definition image (bs : list Z) (n : Z) : list Z := map (λ i, nth (Z.to_nat (i + 2 * (i / 8192))) bs 0) (range 0 (512 * n)).
Definition last_region (n : Z) : Z := (n - 1) / 16.
Definition regions_from (buffer n k : Z) : list (Z * Z) :=
  map (λ j, (buffer + 8192 * j, 8194)) (range k (last_region n))
    ++ [(buffer + 8192 * last_region n, 512 * n - 8192 * last_region n + 2)].
(** What is at [x] when the regions from [k] on have been filled. *)
Definition filled (buffer n k : Z) (bs : list Z) (m : Z → Z) (x : Z) : Z :=
  let i := x - buffer in
  let s := i + 2 * (i / 8192) in
  if bool_decide (8192 * k ≤ i < 512 * n) && bool_decide (s < 512 * n) then nth (Z.to_nat s) bs 0 else m x.

Lemma range_nil a b : b ≤ a → range a b = [].
Proof. intros H. unfold range. apply seqZ_nil. lia. Qed.
Lemma range_cons a b : a < b → range a b = a :: range (a + 1) b.
Proof. intros H. unfold range. rewrite seqZ_cons by lia. do 2 f_equal; lia. Qed.
Lemma last_region_bounds n : 0 < n ≤ 256 → 0 ≤ last_region n ≤ 15 ∧ 16 * last_region n < n ≤ 16 * last_region n + 16.
Proof.
  intros Hn. unfold last_region. pose proof (Z.div_mod (n - 1) 16 ltac:(lia)). pose proof (Z.mod_pos_bound (n - 1) 16 ltac:(lia)). lia.
Qed.
Lemma div_8192 i k : 8192 * k ≤ i < 8192 * (k + 1) → i / 8192 = k.
Proof. intros Hi. symmetry. apply (Z.div_unique_pos i 8192 k (i - 8192 * k)); lia. Qed.
Lemma nth_drop_Z (bs : list Z) k i : 0 ≤ k → 0 ≤ i → nth (Z.to_nat i) (drop (Z.to_nat k) bs) 0 = nth (Z.to_nat (k + i)) bs 0.
Proof. intros Hk Hi. rewrite !nth_lookup, lookup_drop. do 2 f_equal. lia. Qed.
Lemma nth_take_Z (bs : list Z) len i : 0 ≤ i < len → nth (Z.to_nat i) (take (Z.to_nat len) bs) 0 = nth (Z.to_nat i) bs 0.
Proof. intros Hi. rewrite !nth_lookup, lookup_take_lt by lia. done. Qed.
(** One region of [len] bytes, from [off] on of the data. *)
Lemma store_region a len off bs m x : 0 ≤ off → 0 ≤ len →
  store a (take (Z.to_nat len) (drop (Z.to_nat off) bs)) m x
  = if bool_decide (a ≤ x < a + len) && bool_decide (off + (x - a) < Z.of_nat (length bs)) then nth (Z.to_nat (off + (x - a))) bs 0 else m x.
Proof.
  intros Ho Hl. unfold store. rewrite length_take, length_drop. case_bool_decide as H1.
  - rewrite !bool_decide_true by lia. cbn [andb]. by rewrite nth_take_Z, nth_drop_Z by lia.
  - case_bool_decide; [|done]. rewrite bool_decide_false by lia. done.
Qed.
Lemma scatter_regions buffer n bs k m x : 0 < n ≤ 256 → Z.of_nat (length bs) = 512 * n → 0 ≤ k ≤ last_region n →
  scatter (regions_from buffer n k) (drop (Z.to_nat (8194 * k)) bs) m x = filled buffer n k bs m x.
Proof.
  intros Hn Hlen Hk. destruct (last_region_bounds n Hn) as [Hr1 Hr2].
  remember (Z.to_nat (last_region n - k)) as c eqn:Hc. revert k m Hk Hc. induction c as [|c IH]; intros k m Hk Hc.
  - assert (k = last_region n) as -> by lia. unfold regions_from. rewrite range_nil by lia. cbn [map app scatter].
    rewrite store_region, Hlen by lia. unfold filled. set (L := last_region n) in *.
    destruct (decide (8192 * L ≤ x - buffer < 512 * n)) as [Hi|Hi].
    + rewrite (div_8192 (x - buffer) L), (bool_decide_true (8192 * L ≤ _ < _)) by lia. cbn [andb].
      rewrite (bool_decide_true (_ ≤ x < _)) by lia. cbn [andb]. replace (8194 * L + (x - (buffer + 8192 * L))) with (x - buffer + 2 * L) by lia. done.
    + rewrite (bool_decide_false (8192 * L ≤ _ < _)) by done. cbn [andb].
      destruct (decide (buffer + 8192 * L ≤ x < buffer + 8192 * L + (512 * n - 8192 * L + 2))); [|by rewrite (bool_decide_false (_ ≤ x < _))].
      rewrite (bool_decide_false (_ + _ < _)) by lia. by rewrite andb_false_r.
  - assert (Hlt : k < last_region n) by lia. unfold regions_from. rewrite (range_cons k) by lia. cbn [map app scatter].
    fold (regions_from buffer n (k + 1)). rewrite drop_drop.
    replace (Z.to_nat (8194 * k) + Z.to_nat 8194)%nat with (Z.to_nat (8194 * (k + 1))) by lia. rewrite IH by lia.
    unfold filled. set (L := last_region n) in *.
    destruct (decide (8192 * (k + 1) ≤ x - buffer < 512 * n)) as [Hi|Hi].
    + rewrite !(bool_decide_true (_ ≤ x - buffer < _)) by lia. cbn [andb]. case_bool_decide as Hs; [done|].
      rewrite store_region by lia. rewrite (bool_decide_false (_ ≤ x < _)); [done|]. intros Hx.
      destruct (decide (x - buffer < 8192 * L)) as [Hlo|Hhi].
      * apply Hs. rewrite (div_8192 (x - buffer) (k + 1)) by lia. lia.
      * rewrite (div_8192 (x - buffer) L) in Hs by lia. lia.
    + rewrite (bool_decide_false (8192 * (k + 1) ≤ _ < _)) by done. cbn [andb]. rewrite store_region by lia.
      destruct (decide (8192 * k ≤ x - buffer < 8192 * (k + 1))) as [Hin|Hout].
      * rewrite (div_8192 (x - buffer) k) by done. rewrite !bool_decide_true by lia. cbn [andb]. f_equal. lia.
      * rewrite (bool_decide_false (8192 * k ≤ _ < _)) by lia. cbn [andb].
        destruct (decide (buffer + 8192 * k ≤ x < buffer + 8192 * k + 8194)); [|by rewrite (bool_decide_false (_ ≤ x < _))]. lia.
Qed.
Lemma scatter_image buffer n bs m : 0 < n ≤ 256 → Z.of_nat (length bs) = 512 * n → (∀ i, 0 ≤ i < 512 * n → m (buffer + i) = 0) →
  load buffer (Z.to_nat (512 * n)) (scatter (regions_from buffer n 0) bs m) = image bs n.
Proof.
  intros Hn Hlen Hm. destruct (last_region_bounds n Hn) as [Hr1 Hr2].
  pose proof (λ x, scatter_regions buffer n bs 0 m x Hn Hlen ltac:(lia)) as Hsc. rewrite drop_0 in Hsc.
  unfold load, image, range, seqZ. rewrite map_map, Z.sub_0_r. apply map_ext_in. intros i Hi. apply in_seq in Hi. rewrite Hsc. unfold filled.
  replace (buffer + Z.of_nat i - buffer) with (Z.of_nat i) by lia. rewrite Z.add_0_r. rewrite (bool_decide_true (_ ≤ Z.of_nat i < _)) by lia.
  cbn [andb]. case_bool_decide as Hs; [done|]. rewrite Hm by lia. rewrite nth_overflow; [done|lia].
Qed.
Lemma image_small bs n : 0 < n ≤ 16 → Z.of_nat (length bs) = 512 * n → image bs n = bs.
Proof.
  intros Hn Hlen. apply list_eq. intros i. unfold image. rewrite list_lookup_fmap. unfold range. destruct (decide (i < length bs)%nat) as [Hi|Hi].
  - rewrite lookup_seqZ_lt by lia. cbn. rewrite Z.div_small by lia. replace (Z.to_nat _) with i by lia.
    rewrite nth_lookup. destruct (bs !! i) eqn:E; [done|]. apply lookup_ge_None in E. lia.
  - rewrite lookup_seqZ_ge, lookup_ge_None_2 by lia. done.
Qed.

(** * The command of a transfer *)

Lemma transfer_fis_bytes c lba n : byte c → in_width 48 lba → in_width 16 n →
  h2d_deref (transfer_fis c lba n)
  = [0x27; 0x80; c; 0] ++ le_bytes 3 lba ++ [0x40] ++ le_bytes 3 (lba / 2 ^ 24) ++ [0] ++ le_bytes 2 n ++ [0; 0; 0; 0; 0; 0].
Proof.
  intros Hc Hl Hn.
  assert (E : transfer_fis c lba n
    = [put_ref 15 1 1 (put_ref 16 8 c 0x27); put_ref 0 24 (get_ref 0 24 lba) (put_ref 24 8 0x40 0);
       put_ref 0 24 (get_ref 24 24 lba) 0; put_ref 0 16 n 0; 0]).
  { unfold transfer_fis, h2d_set_command, h2d_set_device, h2d_set_lba, h2d_new_empty.
    cbn [dword set_dword nth Nat.sub insert list_insert u8_from_FISType].
    rewrite (replaced_put 0xff0000 8 16), (replaced_put 0xff000000 8 24) by (done || lia || width32).
    rewrite set_lba_put by width32. unfold h2d_set_count, h2d_set_command_update_bit. cbn [dword set_dword nth Nat.sub insert list_insert].
    rewrite (replaced_put 0xffff 16 0 n) by (done || lia || width32). by rewrite bit_put_put by (lia || width32). }
  rewrite E. unfold h2d_deref. cbn [map concat]. rewrite !(le_bytes4 (put_ref _ _ _ _)) by width32.
  assert (Hb1 : get_ref 8 8 (put_ref 15 1 1 (put_ref 16 8 c 0x27)) = 0x80).
  { assert (Hall : Forall (λ c, get_ref 8 8 (put_ref 15 1 1 (put_ref 16 8 c 0x27)) = 0x80) (seqZ 0 256))
      by (apply (bool_decide_unpack _); vm_compute; exact I).
    rewrite Forall_forall in Hall. apply Hall, elem_of_seqZ. apply Hc. }
  rewrite Hb1, !(get_put_other 15 1) by (lia || done). read_puts.
  rewrite !get_get by lia. rewrite ?(get_ref_id 8) by (lia || done || by apply get_ref_width).
  rewrite !get_ref_div by lia. cbn [le_bytes app]. rewrite !Z.div_div by lia.
  repeat (apply (f_equal2 cons)); try done; try (by rewrite Z.div_1_r).
Qed.
Lemma u32_id z : 0 ≤ z < 2 ^ 32 → u32 z = z.
Proof. apply wrap_id. Qed.
Lemma u16_id z : 0 ≤ z < 65536 → u16 z = z.
Proof. apply (wrap_id 16). Qed.
(** A descriptor for [c] bytes at [addr]. *)
Definition descriptor (addr dw : Z) : AHCIPhysicalRegionDescriptor :=
  {| dba := addr mod 2 ^ 32; dbau := addr / 2 ^ 32; prd_reserved := 0; prd_di := dw |}.
Lemma set_descriptor addr c : in_width 64 addr → Z.land c 1 = 0 → 0 ≤ c → c + 1 < 2 ^ 22 →
  set_data_bytes_count (set_base_address prd_new_empty addr) c = Done (descriptor addr (c + 1)).
Proof.
  intros Ha Hc H0 H1. unfold set_data_bytes_count. rewrite bool_decide_true by done. cbn [rust_assert mbind outcome_bind].
  unfold set_base_address, with_prd_di, descriptor. cbn [prd_new_empty prd_di dba dbau prd_reserved]. do 2 f_equal.
  - change 0xffffffff with (Z.ones 32). rewrite Z.land_ones by lia. apply wrap_id. apply wrap_range. lia.
  - rewrite Z.shiftr_div_pow2 by lia. apply wrap_id. unfold in_width in *. split; [apply Z.div_pos; lia|].
    apply Z.div_lt_upper_bound; [lia|]. rewrite <- Z.pow_add_r by lia. lia.
  - rewrite Z.land_0_l, Z.lor_0_l. change (2 ^ 22 - 1) with (Z.ones 22). rewrite Z.land_ones by lia.
    rewrite u32_id by lia. apply Z.mod_small. lia.
Qed.
Lemma region_descriptors_ok js buffer : Forall (λ i, in_width 64 (buffer + 8192 * i)) js →
  region_descriptors js buffer 512 = Done (map (λ i, descriptor (buffer + 8192 * i) (8193 + 2 ^ 31)) js).
Proof.
  induction 1 as [|i js Hi _ IH]; [done|]. cbn [region_descriptors map].
  replace (buffer + i * 16 * 512) with (buffer + 8192 * i) by lia. rewrite u64_id by done.
  rewrite set_descriptor by (done || lia). cbn [mbind outcome_bind]. by rewrite IH.
Qed.
Definition transfer_prds (buffer n : Z) : list AHCIPhysicalRegionDescriptor :=
  map (λ i, descriptor (buffer + 8192 * i) (8193 + 2 ^ 31)) (range 0 (last_region n))
    ++ [descriptor (buffer + 8192 * last_region n) (512 * n - 8192 * last_region n + 1)].
Lemma prdt_count_eq n : 0 < n ≤ 256 → prdt_count n = last_region n + 1.
Proof.
  intros Hn. destruct (last_region_bounds n Hn). unfold prdt_count. rewrite Z.shiftr_div_pow2 by lia. change (2 ^ 4) with 16.
  rewrite (u16_id (n - 1)) by lia. fold (last_region n).
  apply wrap_id. unfold in_width. change (2 ^ 16) with 65536. lia.
Qed.
Lemma transfer_descriptors_ok n buffer : 0 < n ≤ 256 → 0 ≤ buffer → buffer + 512 * n < 2 ^ 64 →
  transfer_descriptors n buffer 512 = Done (transfer_prds buffer n).
Proof.
  intros Hn Hb He. destruct (last_region_bounds n Hn) as [Hr1 Hr2]. unfold transfer_descriptors. rewrite prdt_count_eq by done.
  replace (last_region n + 1 - 1) with (last_region n) by lia. set (L := last_region n) in *.
  rewrite region_descriptors_ok.
  2: { apply Forall_forall. intros i Hi. apply elem_of_range in Hi. unfold in_width. lia. }
  cbn [mbind outcome_bind]. replace (buffer + L * 16 * 512) with (buffer + 8192 * L) by lia. rewrite u64_id by lia.
  assert (Hsz : u32 (u32 (n * 512) - u32 (u32 (L * 16) * 512)) = 512 * n - 8192 * L).
  { rewrite (u32_id (n * 512)), (u32_id (L * 16)), (u32_id (L * 16 * 512)), u32_id by lia. lia. }
  rewrite Hsz. rewrite set_descriptor; [done|unfold in_width; lia| |lia|change (2 ^ 22) with 4194304; lia].
  change 1 with (Z.ones 1). rewrite Z.land_ones by lia. change (2 ^ 1) with 2.
  replace (512 * n - 8192 * L) with ((256 * n - 4096 * L) * 2) by lia. apply Z.mod_mul. lia.
Qed.
Lemma descriptor_region addr dw : (dba (descriptor addr dw) + 2 ^ 32 * dbau (descriptor addr dw)) = addr.
Proof. cbn. pose proof (Z.div_mod addr (2 ^ 32) ltac:(lia)). lia. Qed.
Lemma transfer_prds_regions n buffer : 0 < n ≤ 256 →
  map (λ r, (dba r + 2 ^ 32 * dbau r, Z.land (prd_di r) (2 ^ 22 - 1) + 1)) (transfer_prds buffer n) = regions_from buffer n 0.
Proof.
  intros Hn. destruct (last_region_bounds n Hn). unfold transfer_prds, regions_from. rewrite map_app, map_map. f_equal.
  - apply map_ext. intros i. by rewrite descriptor_region.
  - cbn [map]. rewrite descriptor_region. do 2 f_equal. cbn [prd_di descriptor]. change (2 ^ 22 - 1) with (Z.ones 22).
    rewrite Z.land_ones, Z.mod_small by (lia || change (2 ^ 22) with 4194304; lia). lia.
Qed.
Lemma transfer_prds_width n buffer : 0 < n ≤ 256 → 0 ≤ buffer → buffer + 512 * n < 2 ^ 64 →
  Forall (λ r, in_width 32 (dba r) ∧ in_width 32 (dbau r) ∧ in_width 32 (prd_di r)) (transfer_prds buffer n).
Proof.
  intros Hn Hb He. destruct (last_region_bounds n Hn).
  assert (Hd : ∀ addr dw, in_width 64 addr → in_width 32 dw →
    in_width 32 (dba (descriptor addr dw)) ∧ in_width 32 (dbau (descriptor addr dw)) ∧ in_width 32 (prd_di (descriptor addr dw))).
  { intros addr dw [Ha1 Ha2] Hdw. split_and!; [apply wrap_range; lia| |done]. cbn. split; [apply Z.div_pos; lia|].
    apply Z.div_lt_upper_bound; [lia|]. rewrite <- Z.pow_add_r by lia. lia. }
  unfold transfer_prds. apply Forall_app. split.
  - apply Forall_forall. intros r Hr. apply list_elem_of_fmap in Hr as (i & -> & Hi). apply elem_of_range in Hi.
    apply Hd; [unfold in_width; lia|done].
  - apply Forall_singleton, Hd; unfold in_width; [lia|change (2 ^ 32) with 4294967296; lia].
Qed.
Lemma length_transfer_prds n buffer : 0 < n ≤ 256 → Z.of_nat (length (transfer_prds buffer n)) = last_region n + 1.
Proof.
  intros Hn. destruct (last_region_bounds n Hn). unfold transfer_prds, range. rewrite length_app, length_map, length_seqZ. simpl. lia.
Qed.
Definition command_header (k : nat) (table : Z) : AHCICommandHeader :=
  {| di := 5 + 65536 * Z.of_nat k; cs := 0; ctba := table mod 2 ^ 32; ctba_hi := table / 2 ^ 32; res_1 := 0; res_2 := 0; res_3 := 0; res_4 := 0 |}.
Definition command_table (fis : list Z) (prds : list AHCIPhysicalRegionDescriptor) : list Z :=
  fis ++ replicate 108 0 ++ concat (map prd_bytes prds).
Definition after_alloc (n : Z) (m : Z → Z) (h : hba) : hba :=
  {| ram := m; brk := brk h + round_up n; regs := regs h; sectors := sectors h; capacity := capacity h |}.
Lemma build_table fis prds h : length fis = 20%nat → (length prds ≤ 17)%nat → in_width 64 (brk h) →
  build_command_table header_new_empty fis [] prds h
  = Done (command_header (length prds) (brk h),
          after_alloc (Z.of_nat (128 + length prds * 16)) (store (brk h) (command_table fis prds) (ram h)) h).
Proof.
  intros Hf Hp Hb. unfold build_command_table. rewrite bool_decide_true by (simpl; lia). cbn [rust_assert mbind outcome_bind].
  rewrite Hf. change (set_command_fis_length header_new_empty (u8 (Z.shiftr (Z.of_nat 20) 2))) with (Done (with_di header_new_empty 5)).
  cbn [mbind outcome_bind heap_alloc hba_bus]. unfold zero_extended. rewrite Hf. rewrite !bool_decide_true by (simpl; lia).
  cbn [mbind outcome_bind mem_store]. do 2 f_equal.
  - unfold set_cmd_table_base_addr64, set_prd_table_length, with_di, with_ctba, command_header. cbn [di cs ctba ctba_hi res_1 res_2 res_3 res_4 header_new_empty].
    f_equal.
    + assert (Hall : Forall (λ k, replaced 5 (Z.shiftl 255 16) (u16 k) 16 = 5 + 65536 * k) (seqZ 0 18))
        by (apply (bool_decide_unpack _); vm_compute; exact I).
      rewrite Forall_forall in Hall. apply Hall, elem_of_seqZ. lia.
    + change 0xffffffff with (Z.ones 32). rewrite Z.land_ones by lia. apply wrap_id. apply wrap_range. lia.
    + rewrite Z.shiftr_div_pow2 by lia. apply wrap_id. unfold in_width in *. split; [apply Z.div_pos; lia|].
      apply Z.div_lt_upper_bound; [lia|]. rewrite <- Z.pow_add_r by lia. lia.
  - unfold after_alloc, set_ram. cbn [ram brk regs sectors capacity]. f_equal. unfold command_table. f_equal.
    by rewrite <- app_assoc.
Qed.

(** A controller that waits for a command. *)
Definition list_base (h : hba) : Z := regs h (PORT0 + P_CLB) + 2 ^ 32 * regs h (PORT0 + P_CLBU).
Record hba_ready (h : hba) : Prop := {
  ready_ci : regs h (PORT0 + P_CI) = 0;
  ready_tfd : Z.land (Z.shiftr (regs h (PORT0 + P_TFD)) 8) 0xff = 0;
  ready_isr : regs h (HBA + G_ISR) = 0 ∨ regs h (HBA + G_ISR) = 1;
  ready_ghc : Z.testbit (regs h (HBA + G_GHC)) 1 = true;
  ready_clb : in_width 32 (regs h (PORT0 + P_CLB)) ∧ 0 ≤ regs h (PORT0 + P_CLBU);
  (** The command list is below the heap. *)
  ready_heap : list_base h + 1024 ≤ brk h
}.
Lemma cmdlist_base h : in_width 32 (regs h (PORT0 + P_CLB)) → 0 ≤ regs h (PORT0 + P_CLBU) →
  port_cmdlist_base_address PORT0 h = (list_base h, h).
Proof.
  intros Hl Hu. unfold port_cmdlist_base_address, list_base. cbn [mmio_read hba_bus]. f_equal.
  rewrite lor_shiftl_add by (done || lia). lia.
Qed.
Lemma dispatch_ready polls fuel cmd q h : hba_ready h →
  dispatch_command (S polls) fuel PORT0 cmd q h
  = Done (0, <[0 := cmd]> q, run_slot 0 (set_reg (PORT0 + P_CI) 1 (set_ram (store (list_base h) (header_bytes (header cmd)) (ram h)) h))).
Proof.
  intros Hr. unfold dispatch_command, find_command_slot.
  assert (Hslot : free_slot (range 0 32) PORT0 h = (Some 0, h)).
  { change (range 0 32) with (0 :: range 1 32). cbn [free_slot]. unfold port_command_is_issued, hba_getter. cbn [mmio_read hba_bus].
    rewrite (ready_ci h Hr). done. }
  rewrite Hslot. cbn [mbind outcome_bind]. unfold update_command_list_entry.
  rewrite cmdlist_base by apply (ready_clb h Hr). rewrite bool_decide_true by done. cbn [rust_assert mbind outcome_bind mem_store hba_bus].
  rewrite Z.mul_0_r, Z.add_0_r.
  set (h1 := set_ram _ h).
  assert (Hidle : wait_idle fuel PORT0 h1 = Done h1).
  { assert (He : tfd_error PORT0 h1 = (0, h1)).
    { unfold tfd_error. cbn [mmio_read hba_bus]. unfold masked. change (regs h1) with (regs h). by rewrite (ready_tfd h Hr). }
    assert (Hb1 : device_busy PORT0 h1 = (false, h1)) by (unfold device_busy; by rewrite He).
    assert (Hb2 : device_drq PORT0 h1 = (false, h1)) by (unfold device_drq; by rewrite He).
    assert (Hb : busy_or_drq PORT0 h1 = (false, h1)) by (unfold busy_or_drq; by rewrite Hb1, Hb2).
    destruct fuel; cbn [wait_idle]; by rewrite Hb. }
  rewrite Hidle. cbn [mbind outcome_bind]. do 2 f_equal. unfold port_command_set_issued, mmio_update. cbn [mmio_read mmio_write hba_bus].
  change (regs h1) with (regs h). rewrite (ready_ci h Hr). done.
Qed.

(** * The controller runs the command *)

Lemma load_prefix a N m n : (n ≤ N)%nat → load a n m = take n (load a N m).
Proof. intros Hn. pose proof (load_sub a N m 0 n ltac:(lia)) as E. by rewrite Z.add_0_r, drop_0 in E. Qed.
Lemma header_in_memory m a k table : (k ≤ 17)%nat → in_width 64 table → load a 32 m = header_bytes (command_header k table) →
  Z.shiftr (u32_at m a) 16 = Z.of_nat k ∧ u64_at m (a + 8) = table.
Proof.
  intros Hk Ht Hm. unfold u32_at, u64_at. split.
  - rewrite (load_prefix a 32) by lia. rewrite Hm. change (take 4 (header_bytes (command_header k table))) with (le_bytes 4 (5 + 65536 * Z.of_nat k)).
    rewrite of_le_le_bytes by (unfold in_width; change (2 ^ (8 * Z.of_nat 4)) with 4294967296; lia).
    rewrite Z.shiftr_div_pow2 by lia. change (2 ^ 16) with 65536. symmetry. apply (Z.div_unique_pos _ _ _ 5); lia.
  - change (a + 8) with (a + Z.of_nat 8). rewrite (load_sub a 32 m 8 8) by lia. rewrite Hm.
    change (take 8 (drop 8 (header_bytes (command_header k table)))) with (le_bytes 4 (table mod 2 ^ 32) ++ le_bytes 4 (table / 2 ^ 32)).
    rewrite le_bytes_8; [pose proof (Z.div_mod table (2 ^ 32) ltac:(lia)); lia|apply wrap_range; lia|].
    unfold in_width in *. split; [apply Z.div_pos; lia|]. apply Z.div_lt_upper_bound; [lia|]. rewrite <- Z.pow_add_r by lia. lia.
Qed.
Lemma of_le_lba24 lba : in_width 24 lba → of_le [lba mod 256; (lba / 256) mod 256; (lba / 256 / 256) mod 256; Z.land 0x40 0xf] = lba.
Proof.
  intros Hl. rewrite <- (of_le_le_bytes 3 lba Hl) at 4. cbn [le_bytes of_le]. change (Z.land 64 15) with 0. lia.
Qed.
Lemma run_read_command h lba n k prds table : in_width 24 lba → 0 < n ≤ 256 → lba + n ≤ capacity h →
  length prds = k → (k ≤ 17)%nat → in_width 64 table →
  Forall (λ r, in_width 32 (dba r) ∧ in_width 32 (dbau r) ∧ in_width 32 (prd_di r)) prds →
  load (list_base h) 32 (ram h) = header_bytes (command_header k table) →
  load table (128 + 16 * k) (ram h) = command_table (h2d_deref (transfer_fis ATA_READ_DMA lba n)) prds →
  run_slot 0 h = complete_slot 0 0x50
    (set_ram (scatter (map (λ r, (dba r + 2 ^ 32 * dbau r, Z.land (prd_di r) (2 ^ 22 - 1) + 1)) prds) (media h lba (Z.to_nat n)) (ram h)) h).
Proof.
  intros Hl Hn Hcap Hk Hk17 Ht Hw Hhdr Htab.
  rewrite transfer_fis_bytes in Htab by (done || (apply (in_width_mono 24); [lia|done]) || (unfold in_width; change (2 ^ 16) with 65536; lia)).
  unfold run_slot. fold (list_base h). rewrite Z.mul_0_r, Z.add_0_r.
  destruct (header_in_memory (ram h) (list_base h) k table Hk17 Ht Hhdr) as [-> ->].
  assert (Hfis : load table 20 (ram h) = [39; 128; 200; 0; lba mod 256; (lba / 256) mod 256; (lba / 256 / 256) mod 256; 64]
    ++ le_bytes 3 (lba / 2 ^ 24) ++ [0; n mod 256; (n / 256) mod 256; 0; 0; 0; 0; 0; 0]).
  { rewrite (load_prefix table (128 + 16 * k)) by lia. rewrite Htab. reflexivity. }
  rewrite Hfis. cbn [le_bytes app nth].
  rewrite of_le_lba24 by done.
  assert (Hcount : (if bool_decide (n mod 256 = 0) then 256 else n mod 256) = n).
  { destruct (decide (n = 256)) as [->|]; [done|]. rewrite Z.mod_small by lia. by rewrite bool_decide_false by lia. }
  rewrite Hcount. rewrite (bool_decide_true (_ ≤ _)) by done. cbn [andb bool_decide].
  replace (bool_decide (39 = 39) && bool_decide (200 = 200) && Z.testbit 128 7 && true) with true by done.
  rewrite Nat2Z.id, <- Hk. rewrite regions_of_table; [done| |done].
  change (table + 128) with (table + Z.of_nat 128). rewrite (load_sub table (128 + 16 * k) (ram h) 128 (16 * length prds)) by lia.
  rewrite Htab. unfold command_table. change (drop 128 _) with (concat (map prd_bytes prds)).
  apply take_ge. by rewrite length_concat_prds.
Qed.

(** * The interrupt *)

Lemma completed_all keys h : regs h (PORT0 + P_CI) = 0 → completed_commands keys PORT0 h = (keys, h).
Proof.
  intros Hc. induction keys as [|i keys IH]; [done|]. cbn [completed_commands].
  assert (Hi : port_command_is_issued PORT0 i h = (false, h)) by (unfold port_command_is_issued, hba_getter; cbn [mmio_read hba_bus]; by rewrite Hc).
  by rewrite Hi, IH.
Qed.
Lemma lookup_delete_list (q : command_map) ks i : foldr delete q ks !! i = if decide (i ∈ ks) then None else q !! i.
Proof.
  induction ks as [|k ks IH]; [done|]. cbn [foldr]. destruct (decide (i = k)) as [->|Hik].
  - rewrite lookup_delete_eq. by rewrite decide_True by left.
  - rewrite lookup_delete_ne, IH by done. destruct (decide (i ∈ ks)); [by rewrite decide_True by (by right)|].
    rewrite decide_False; [done|]. by intros [?|?]%elem_of_cons.
Qed.
Lemma delete_all (q : command_map) : foldr delete q (map fst (map_to_list q)) = ∅.
Proof.
  apply map_empty. intros i. rewrite lookup_delete_list.
  destruct (decide _) as [|Hn]; [done|]. destruct (q !! i) as [t|] eqn:E; [|done]. destruct Hn.
  apply list_elem_of_fmap. exists (i, t). split; [done|]. by apply elem_of_map_to_list.
Qed.
Lemma irq_ports_quiet ports q h : regs h (HBA + G_ISR) = 1 → Forall (λ i, Z.land 1 (Z.shiftl 1 (i mod 32)) = 0) ports →
  irq_ports HBA ports q h = Done (q, h).
Proof.
  intros Hr. induction 1 as [|i ports Hi _ IH]; [done|]. cbn [irq_ports].
  assert (Hp : port_has_interrupt_pending (read_ghc HBA) i h = (false, h)).
  { unfold port_has_interrupt_pending, hba_getter. cbn [mmio_read hba_bus]. change (read_ghc HBA + G_ISR) with (HBA + G_ISR). rewrite Hr, Hi. done. }
  rewrite Hp. cbn [mbind outcome_bind]. apply IH.
Qed.
(** The state after the interrupt. *)
Definition acknowledged (h : hba) : hba :=
  set_reg (HBA + G_ISR) (Z.ldiff (regs h (HBA + G_ISR)) 0)
    (set_reg (PORT0 + P_IS) (Z.ldiff (regs h (PORT0 + P_IS)) (regs h (PORT0 + P_IS))) h).
Lemma irq_entry_completes q h : regs h (HBA + G_ISR) = 1 → regs h (PORT0 + P_CI) = 0 → Z.land (Z.shiftr (regs h (PORT0 + P_TFD)) 8) 0xff = 0 →
  irq_entry HBA q h = Done (∅, acknowledged h).
Proof.
  intros Hi Hc Ht. unfold irq_entry. change (range 0 32) with (0 :: range 1 32). cbn [irq_ports].
  assert (Hp : port_has_interrupt_pending (read_ghc HBA) 0 h = (true, h)).
  { unfold port_has_interrupt_pending, hba_getter. cbn [mmio_read hba_bus]. change (read_ghc HBA + G_ISR) with (HBA + G_ISR). by rewrite Hi. }
  rewrite Hp. unfold irq_port. change (read_port_register HBA 0) with (Done PORT0). cbn [mbind outcome_bind].
  rewrite completed_all by done. rewrite delete_all.
  assert (He : tfd_error PORT0 h = (0, h)) by (unfold tfd_error, masked; cbn [mmio_read hba_bus]; by rewrite Ht).
  rewrite He. rewrite (bool_decide_false (0 ≠ 0)) by lia. cbn [mbind outcome_bind].
  change (clear_interrupts PORT0 h) with (set_reg (PORT0 + P_IS) (Z.ldiff (regs h (PORT0 + P_IS)) (regs h (PORT0 + P_IS))) h).
  rewrite irq_ports_quiet; [done|done|]. apply (bool_decide_unpack _). vm_compute. exact I.
Qed.
Lemma wait_completes polls slot q h : regs h (HBA + G_ISR) = 1 → regs h (PORT0 + P_CI) = 0 →
  Z.land (Z.shiftr (regs h (PORT0 + P_TFD)) 8) 0xff = 0 → Z.testbit (regs h (HBA + G_GHC)) 1 = true →
  wait_command HBA (S polls) slot q h = Done (true, ∅, acknowledged h).
Proof.
  intros Hi Hc Ht Hg. cbn [wait_command int_pending hba_line]. rewrite Hi, Hg. rewrite (bool_decide_true (1 ≠ 0)) by done. cbn [andb].
  rewrite irq_entry_completes by done. cbn [mbind outcome_bind]. by rewrite lookup_empty.
Qed.

(** * Reading *)

Lemma length_media h lba n : (∀ l, lba ≤ l < lba + Z.of_nat n → length (sectors h l) = 512%nat) → length (media h lba n) = (512 * n)%nat.
Proof.
  intros Hs. unfold media. assert (Hc : ∀ ks, (∀ k, k ∈ ks → (k < n)%nat) →
    length (concat (map (λ i, sectors h (lba + Z.of_nat i)) ks)) = (512 * length ks)%nat).
  { intros ks. induction ks as [|k ks IH]; intros Hk; [done|]. cbn [map concat length]. rewrite length_app, IH by (intros; apply Hk; by right).
    rewrite Hs; [lia|]. specialize (Hk k ltac:(left)). lia. }
  rewrite Hc, length_seq; [done|]. intros k Hk. apply elem_of_seq in Hk. lia.
Qed.
Lemma round_up_ge n : n ≤ round_up n ≤ n + 1023.
Proof.
  unfold round_up. pose proof (Z.div_mod (n + 1023) 1024 ltac:(lia)). pose proof (Z.mod_pos_bound (n + 1023) 1024 ltac:(lia)). lia.
Qed.

Lemma length_transfer_fis c lba n : length (h2d_deref (transfer_fis c lba n)) = 20%nat.
Proof. reflexivity. Qed.
Lemma hba_ready_ram h h' : regs h' = regs h → brk h ≤ brk h' → hba_ready h → hba_ready h'.
Proof. intros Hr Hb []. split; unfold list_base in *; rewrite ?Hr; try done. lia. Qed.
(** The command of a read, run by the controller: the data are in the regions of
    the buffer, and the rest of the buffer is as it was. *)
Definition after_read (h : hba) (m : Z → Z) (top : Z) (data : list Z) (buf n : Z) : hba :=
  complete_slot 0 0x50 (set_ram (scatter (regions_from buf n 0) data m)
    (set_reg (PORT0 + P_CI) 1 {| ram := m; brk := top; regs := regs h; sectors := sectors h; capacity := capacity h |})).
Lemma read_dma_runs drive lba n buf q h polls fuel : hba_ready h → ahci_port drive = 0 →
  logical_sector_size (device_info drive) = 512 → 0 ≤ lba → 0 < n ≤ 256 → lba + n ≤ capacity h → lba < 2 ^ 24 →
  0 ≤ list_base h → list_base h + 1024 ≤ buf → buf + 512 * n ≤ brk h → brk h + 2 ^ 19 < 2 ^ 64 →
  ∃ q' m top, read_dma HBA (S polls) fuel drive lba n buf q h = Done (0, q', after_read h m top (media h lba (Z.to_nat n)) buf n)
    ∧ (∀ i, 0 ≤ i < 512 * n → m (buf + i) = ram h (buf + i)) ∧ brk h ≤ top.
Proof.
  intros Hr Hport Hsz Hl Hn Hcap Hc24 Hlb Hlist Hbuf Hbrk. destruct (last_region_bounds n Hn) as [Hr1 Hr2].
  change (2 ^ 19) with 524288 in Hbrk. pose proof (length_transfer_prds n buf Hn) as Hk.
  unfold read_dma, transfer_dma. rewrite Hsz, transfer_descriptors_ok by lia. cbn [mbind outcome_bind].
  change (header (set_byte_size transaction_new _)) with header_new_empty.
  rewrite build_table; [|apply length_transfer_fis|lia|unfold in_width; lia].
  set (tbl := brk h) in *. set (hd := command_header _ tbl). set (T := command_table _ _). set (h2 := after_alloc _ _ h).
  assert (Htop : tbl ≤ brk h2) by (cbn [h2 after_alloc brk]; pose proof (round_up_ge (Z.of_nat (128 + length (transfer_prds buf n) * 16))); lia).
  cbn [mbind outcome_bind]. rewrite Hport. change (read_port_register HBA 0) with (Done PORT0). cbn [mbind outcome_bind].
  rewrite dispatch_ready by by apply (hba_ready_ram h). change (list_base h2) with (list_base h). set (h3 := set_reg _ _ _).
  assert (HT : length T = (128 + 16 * length (transfer_prds buf n))%nat).
  { unfold T, command_table. rewrite !length_app, length_transfer_fis, length_replicate, length_concat_prds. lia. }
  change (ram h2) with (store tbl T (ram h)) in h3.
  rewrite (run_read_command h3 lba n (length (transfer_prds buf n)) (transfer_prds buf n) tbl);
    [|unfold in_width; lia|done|done|done|lia|unfold in_width; lia|by apply transfer_prds_width; lia| |].
  - rewrite transfer_prds_regions by done. eexists _, (ram h3), (brk h2). split_and!; [reflexivity| |done].
    intros i Hi. change (ram h3) with (store (list_base h) (header_bytes hd) (store tbl T (ram h))).
    rewrite store_out by (change (Z.of_nat (length (header_bytes hd))) with 32; lia). by rewrite store_out by lia.
  - apply (load_store_same (list_base h) (header_bytes hd)).
  - change (ram h3) with (store (list_base h) (header_bytes hd) (store tbl T (ram h))).
    rewrite load_store_out by (change (Z.of_nat (length (header_bytes hd))) with 32; lia). rewrite <- HT. apply load_store_same.
Qed.
Lemma image_lookup bs n i : 0 ≤ i < 512 * n → image bs n !! Z.to_nat i = Some (nth (Z.to_nat (i + 2 * (i / 8192))) bs 0).
Proof.
  intros Hi. unfold image, range. rewrite list_lookup_fmap, lookup_seqZ_lt by lia. simpl. by rewrite Z2Nat.id by lia.
Qed.

(** C14: what a read of an AHCI drive returns.  On a controller that is ready, with a
    drive on its first port and sectors of 512 bytes, a read of 1 to 256 sectors that
    the drive has and whose first address is below 2^24 ends with success, the queue
    of commands is empty and the controller is ready again.  The data of at most 16
    sectors are those of the drive.  In general byte [i] of the data is byte
    [i + 2 * (i / 8192)] of the sectors (0 past their end): the first group of 16
    sectors is right, the next one two bytes late, the one after it four, since a
    descriptor of 8192 bytes says 8194. *)
Theorem ahci_read_result drive lba n q h polls fuel : hba_ready h → ahci_port drive = 0 →
  logical_sector_size (device_info drive) = 512 → 0 ≤ lba → 0 < n ≤ 256 → lba + n ≤ capacity h → lba < 2 ^ 24 →
  lba + n ≤ maximum_addressable_lba (device_info drive) → (∀ l, 0 ≤ l < capacity h → length (sectors h l) = 512%nat) →
  0 ≤ list_base h → brk h + 2 ^ 20 < 2 ^ 64 →
  let data := media h lba (Z.to_nat n) in
  (∃ h', ahci_read HBA (S polls) fuel drive lba n q h
    = Done ({| io_result := AtaSuccess; io_command := AtaReadSectors; io_data := Some (image data n) |}, ∅, h')
    ∧ hba_ready h' ∧ sectors h' = sectors h ∧ capacity h' = capacity h)
  ∧ (n ≤ 16 → image data n = data)
  ∧ (∀ i, 0 ≤ i < 512 * n → image data n !! Z.to_nat i = Some (nth (Z.to_nat (i + 2 * (i / 8192))) data 0)).
Proof.
  intros Hr Hport Hsz Hl Hn Hcap Hc24 Hmax Hsec Hlb Hbrk data.
  assert (Hdata : Z.of_nat (length data) = 512 * n) by (unfold data; rewrite length_media; [lia|intros l Hl'; apply Hsec; lia]).
  split; [|split; [intros H16; apply image_small; [lia|done]|intros i; apply image_lookup]].
  pose proof (ready_heap h Hr) as Hheap. destruct (last_region_bounds n Hn) as [Hr1 Hr2].
  change (2 ^ 20) with 1048576 in Hbrk.
  unfold ahci_read. rewrite Hsz, u64_id by lia. cbn [heap_alloc hba_bus mem_store]. rewrite (Z.mul_comm n 512).
  set (buf := brk h). set (h1 := set_ram _ _).
  pose proof (round_up_ge (512 * n)) as Hru.
  assert (Hr' : hba_ready h1) by (apply (hba_ready_ram h); [done|change (brk h1) with (buf + round_up (512 * n)); lia|done]).
  unfold read_to_buf. rewrite Hsz, (Z.mul_comm n 512), u64_id, bool_decide_true by lia. cbn [negb].
  rewrite u64_id, bool_decide_true by (done || lia). cbn [negb].
  destruct (read_dma_runs drive lba n buf q h1 polls fuel) as (q' & m & top & -> & Hm & Htop);
    [done..|change (brk h1) with (buf + round_up (512 * n)); lia|change (brk h1) with (buf + round_up (512 * n)); lia|].
  cbn [mbind outcome_bind]. set (h4 := after_read _ _ _ _ _ _).
  rewrite wait_completes; [|destruct (ready_isr h Hr) as [E|E]; cbn; by rewrite E|done|done|apply (ready_ghc h Hr)].
  cbn [mbind outcome_bind]. exists (acknowledged h4). split_and!; [|..|done|done].
  - do 5 f_equal. change (mem_load buf (Z.to_nat (512 * n)) (acknowledged h4))
      with (load buf (Z.to_nat (512 * n)) (scatter (regions_from buf n 0) data m)).
    f_equal. apply scatter_image; [done|done|]. intros i Hi. rewrite Hm by done.
    change (ram h1) with (store buf (replicate (Z.to_nat (512 * n)) 0) (ram h)). apply store_zeros. lia.
  - destruct Hr as [Hci Htfd Hisr Hghc Hclb _]. split; [done|done| |exact Hghc|exact Hclb|].
    + right. destruct Hisr as [E|E]; cbn; by rewrite E.
    + change (list_base (acknowledged h4)) with (list_base h). change (brk (acknowledged h4)) with top.
      change (brk h1) with (buf + round_up (512 * n)) in Htop. lia.
Qed.

(** A controller with a drive of 64 sectors; each byte of a sector is its number. *)
Definition sample_hba : hba := {|
  ram := λ _, 0; brk := 0x100400;
  regs := λ a, if bool_decide (a = HBA + G_GHC) then 2 else if bool_decide (a = PORT0 + P_CLB) then 0x100000 else 0;
  sectors := λ l, replicate 512 (l mod 256); capacity := 64
|}.
Definition sample_drive : AHCIDrive := {|
  drive_id := {| disk_type := AHCI; ide_controller := 0; device_id := 0 |};
  device_info := <[60%nat := 64]> (replicate 256 0); ahci_port := 0
|}.
Lemma ahci_read_result_witness :
  (∃ h', ahci_read HBA 3 2 sample_drive 5 17 ∅ sample_hba
     = Done ({| io_result := AtaSuccess; io_command := AtaReadSectors; io_data := Some (image (media sample_hba 5 17) 17) |}, ∅, h'))
  ∧ image (media sample_hba 5 17) 17 ≠ media sample_hba 5 17.
Proof.
  split.
  - destruct (ahci_read_result sample_drive 5 17 ∅ sample_hba 2 2) as [(h' & H & _) _];
      [|reflexivity|reflexivity|lia|lia|vm_compute; discriminate|lia|vm_compute; discriminate|
        intros l _; apply length_replicate|vm_compute; discriminate|vm_compute; reflexivity|].
    + split; [reflexivity|reflexivity|left; reflexivity|reflexivity|vm_compute; intuition discriminate|vm_compute; discriminate].
    + exists h'. exact H.
  - intros E. apply (f_equal (λ l, nth 8703 l 0)) in E. vm_compute in E. discriminate E.
Defined.

(** * Interrupts and queues *)

(** The slot of a command is in use on a port. *)
Definition in_use (h : hba) (p slot : Z) : Prop := Z.land (regs h (p + P_CI)) (Z.shiftl 1 (slot mod 32)) ≠ 0.
#[global] Instance in_use_dec h p slot : Decision (in_use h p slot).
Proof. unfold in_use. apply _. Defined.

Lemma completed_free keys p h : completed_commands keys p h = (base.filter (λ i, ¬ in_use h p i) keys, h).
Proof.
  induction keys as [|i keys IH]; [done|]. cbn [completed_commands].
  change (port_command_is_issued p i h) with (bool_decide (in_use h p i), h). cbn beta iota. rewrite IH, filter_cons.
  destruct (decide (in_use h p i)) as [H|H].
  - rewrite (bool_decide_true _ H), decide_False by tauto. done.
  - rewrite (bool_decide_false _ H), decide_True by done. done.
Qed.
(** The interrupt of a port ends every command of the queue whose slot is free on
    that port, and no other.  The queue knows a command by its slot alone, so that
    the commands given to the other ports end with it. *)
Theorem irq_port_ends_free_slots i q h : 0 ≤ i < 32 →
  ∃ q' h', irq_port HBA i q h = Done (q', h') ∧
    ∀ slot, q' !! slot = if decide (in_use h (HBA + 0x100 + i * 0x80) slot) then q !! slot else None.
Proof.
  intros Hi. unfold irq_port, read_port_register. rewrite bool_decide_true by lia. cbn [rust_assert mbind outcome_bind].
  replace (HBA + (PORT_REG_OFFSET + i * 128)) with (HBA + 0x100 + i * 0x80) by (unfold PORT_REG_OFFSET; lia).
  set (p := HBA + 256 + i * 128). rewrite completed_free. destruct (tfd_error p h) as [err h1]. eexists _, _. split; [reflexivity|].
  intros slot. rewrite lookup_delete_list. destruct (decide (in_use h p slot)) as [Hu|Hu].
  - rewrite decide_False; [done|]. by intros [? _]%list_elem_of_filter.
  - destruct (decide _) as [|Hn]; [done|]. destruct (q !! slot) as [t|] eqn:E; [|done]. destruct Hn.
    apply list_elem_of_filter. split; [done|]. apply list_elem_of_fmap. exists (slot, t). split; [done|]. by apply elem_of_map_to_list.
Qed.
(** Port 0 runs a command in slot 1, and the interrupt of port 1 ends it. *)
Lemma irq_port_ends_free_slots_witness :
  ∃ q' h', irq_port HBA 1 {[1 := transaction_new]} (set_reg (PORT0 + P_CI) 2 sample_hba) = Done (q', h')
    ∧ in_use (set_reg (PORT0 + P_CI) 2 sample_hba) PORT0 1 ∧ q' !! 1 = None.
Proof.
  destruct (irq_port_ends_free_slots 1 {[1 := transaction_new]} (set_reg (PORT0 + P_CI) 2 sample_hba)) as (q' & h' & H & Hq); [lia|].
  exists q', h'. split; [exact H|]. split; [vm_compute; discriminate|]. rewrite (Hq 1). vm_compute. reflexivity.
Defined.

(** * Writing *)

(** The bit of the direction in a header. *)
Lemma is_write_bit h : is_write h = Z.testbit (di h) 6.
Proof.
  unfold is_write, flag_get, AHCI_CMDH_WRITE. rewrite land_shiftl1 by lia. by destruct (Z.testbit (di h) 6).
Qed.
Lemma build_reads {D} `{HbaBus D} fis prds (d : D) hd d' : length fis = 20%nat →
  build_command_table header_new_empty fis [] prds d = Done (hd, d') → is_write hd = false.
Proof.
  intros Hf. unfold build_command_table. rewrite bool_decide_true by (simpl; lia). cbn [rust_assert mbind outcome_bind]. rewrite Hf.
  change (set_command_fis_length header_new_empty (u8 (Z.shiftr (Z.of_nat 20) 2))) with (Done (with_di header_new_empty 5)).
  cbn [mbind outcome_bind]. destruct (heap_alloc _ d) as [table d1]. unfold zero_extended. rewrite Hf, !bool_decide_true by (simpl; lia).
  cbn [mbind outcome_bind]. intros [= <- _]. rewrite is_write_bit. cbn [set_cmd_table_base_addr64 set_prd_table_length with_di with_ctba di].
  unfold replaced, shl_w, wrap. change (16 mod 32) with 16. rewrite Z.lor_spec, Z.mod_pow2_bits_low, Z.shiftl_spec_low by lia. by rewrite Z.land_spec.
Qed.
(** The direction of a write.  The header of every transfer, those of the command
    WRITE DMA included, tells the controller that the data come from the drive. *)
Theorem transfers_are_reads {D} `{HbaBus D} hba_mem command polls fuel drive start_lba count buffer q (d : D) slot q' d' :
  transfer_dma hba_mem command polls fuel drive start_lba count buffer q d = Done (slot, q', d') →
  ∃ t, q' !! slot = Some t ∧ is_write (header t) = false.
Proof.
  unfold transfer_dma. set (f := transfer_fis _ _ _). destruct (transfer_descriptors _ _ _) as [prds| | |]; try discriminate. cbn [mbind outcome_bind].
  change (header (set_byte_size transaction_new _)) with header_new_empty.
  destruct (build_command_table _ _ _ _ d) as [[hd d1]| | |] eqn:Eb; try discriminate. apply build_reads in Eb; [|reflexivity].
  cbn [mbind outcome_bind]. destruct (read_port_register _ _) as [p| | |]; try discriminate. cbn [mbind outcome_bind].
  unfold dispatch_command. destruct (find_command_slot _ p d1) as [[s d2]| | |]; try discriminate. cbn [mbind outcome_bind].
  destruct (update_command_list_entry _ _ _ d2) as [d3| | |]; try discriminate. cbn [mbind outcome_bind].
  destruct (wait_idle _ p d3) as [d4| | |]; try discriminate. cbn [mbind outcome_bind].
  intros [= <- <- _]. eexists. split; [apply lookup_insert_eq|]. exact Eb.
Qed.
(** A write of one sector of the sample drive is given to the controller so. *)
Lemma transfers_are_reads_witness :
  ∃ slot q' h' t, write_dma HBA 3 2 sample_drive 5 1 0x200000 ∅ sample_hba = Done (slot, q', h') ∧ q' !! slot = Some t ∧ is_write (header t) = false.
Proof.
  destruct (write_dma HBA 3 2 sample_drive 5 1 0x200000 ∅ sample_hba) as [[[slot q'] h']| | |] eqn:E.
  2-4: apply (f_equal (λ o, match o with Done _ => true | _ => false end)) in E; vm_compute in E; discriminate E.
  exists slot, q', h'. destruct (transfers_are_reads HBA ATA_WRITE_DMA 3 2 sample_drive 5 1 0x200000 ∅ sample_hba slot q' h' E) as (t & H1 & H2).
  exists t. split; [reflexivity|]. split; [exact H1|exact H2].
Defined.
