(* ===== verification/Cpu.v ===== *)
(** The processor (src/x86/{mod,cpuid,msr,flags}.rs, src/x86/registers/control.rs):
    identification, model-specific registers, control registers and the flags.
    Privileged instructions are operations of the class [Cpu]. *)

From stdpp Require Import strings.
From S2P Require Import Prelude Addr Bitfield.

(** * Instructions *)

Class Cpu (D : Type) := {
  (** [cpuid] with [eax] and [ecx]: the four registers [eax], [ebx], [ecx], [edx]. *)
  cpuid : Z → Z → D → Z * Z * Z * Z;
  (** What [ecx] holds where the code does not set it. *)
  ecx_left : D → Z;
  (** Whether bit 21 of the flags can be flipped. *)
  id_flag_flips : D → bool;
  (** The low 16 bits of the flags; [cli] and [sti]. *)
  flags_reg : D → Z;
  cli : D → D;
  sti : D → D;
  (** [rdmsr] gives [edx] and [eax]; a register that does not exist faults. *)
  rdmsr : Z → D → outcome (Z * Z);
  wrmsr : Z → Z → Z → D → outcome D;
  (** The control register of a number. *)
  read_cr : Z → D → Z;
  write_cr : Z → Z → D → D
}.

(** * Features and models *)

(** The register of leaf 1 (0 for [ecx], 1 for [edx]) and the mask in it. *)
Definition CPU_FEAT_SSE3 : Z * Z := (0, Z.shiftl 1 0).
Definition CPU_FEAT_PCLMULQDQ : Z * Z := (0, Z.shiftl 1 1).
Definition CPU_FEAT_DTES64 : Z * Z := (0, Z.shiftl 1 2).
Definition CPU_FEAT_MONITOR : Z * Z := (0, Z.shiftl 1 3).
Definition CPU_FEAT_DSCPL : Z * Z := (0, Z.shiftl 1 4).
Definition CPU_FEAT_VMX : Z * Z := (0, Z.shiftl 1 5).
Definition CPU_FEAT_SMX : Z * Z := (0, Z.shiftl 1 6).
Definition CPU_FEAT_EIST : Z * Z := (0, Z.shiftl 1 7).
Definition CPU_FEAT_TM2 : Z * Z := (0, Z.shiftl 1 8).
Definition CPU_FEAT_SSSE3 : Z * Z := (0, Z.shiftl 1 9).
Definition CPU_FEAT_CNXTID : Z * Z := (0, Z.shiftl 1 10).
Definition CPU_FEAT_SDBG : Z * Z := (0, Z.shiftl 1 11).
Definition CPU_FEAT_FMA : Z * Z := (0, Z.shiftl 1 12).
Definition CPU_FEAT_CMPXCHG16B : Z * Z := (0, Z.shiftl 1 13).
Definition CPU_FEAT_XTPR_CTRL : Z * Z := (0, Z.shiftl 1 14).
Definition CPU_FEAT_PDCM : Z * Z := (0, Z.shiftl 1 15).
Definition CPU_FEAT_PCID : Z * Z := (0, Z.shiftl 1 17).
Definition CPU_FEAT_DCA : Z * Z := (0, Z.shiftl 1 18).
Definition CPU_FEAT_SSE4_1 : Z * Z := (0, Z.shiftl 1 19).
Definition CPU_FEAT_SSE4_2 : Z * Z := (0, Z.shiftl 1 20).
Definition CPU_FEAT_X2APIC : Z * Z := (0, Z.shiftl 1 21).
Definition CPU_FEAT_MOVBE : Z * Z := (0, Z.shiftl 1 22).
Definition CPU_FEAT_POPCNT : Z * Z := (0, Z.shiftl 1 23).
Definition CPU_FEAT_TSC_DEADLINE : Z * Z := (0, Z.shiftl 1 24).
Definition CPU_FEAT_AESNI : Z * Z := (0, Z.shiftl 1 25).
Definition CPU_FEAT_XSAVE : Z * Z := (0, Z.shiftl 1 26).
Definition CPU_FEAT_OSXSAVE : Z * Z := (0, Z.shiftl 1 27).
Definition CPU_FEAT_AVX : Z * Z := (0, Z.shiftl 1 28).
Definition CPU_FEAT_F16C : Z * Z := (0, Z.shiftl 1 29).
Definition CPU_FEAT_RDRAND : Z * Z := (0, Z.shiftl 1 30).
Definition CPU_FEAT_FPU : Z * Z := (1, Z.shiftl 1 0).
Definition CPU_FEAT_VME : Z * Z := (1, Z.shiftl 1 1).
Definition CPU_FEAT_DE : Z * Z := (1, Z.shiftl 1 2).
Definition CPU_FEAT_PSE : Z * Z := (1, Z.shiftl 1 3).
Definition CPU_FEAT_TSC : Z * Z := (1, Z.shiftl 1 4).
Definition CPU_FEAT_MSR : Z * Z := (1, Z.shiftl 1 5).
Definition CPU_FEAT_PAE : Z * Z := (1, Z.shiftl 1 6).
Definition CPU_FEAT_MCE : Z * Z := (1, Z.shiftl 1 7).
Definition CPU_FEAT_CX8 : Z * Z := (1, Z.shiftl 1 8).
Definition CPU_FEAT_APIC : Z * Z := (1, Z.shiftl 1 9).
Definition CPU_FEAT_SEP : Z * Z := (1, Z.shiftl 1 11).
Definition CPU_FEAT_MTRR : Z * Z := (1, Z.shiftl 1 12).
Definition CPU_FEAT_PGE : Z * Z := (1, Z.shiftl 1 13).
Definition CPU_FEAT_MCA : Z * Z := (1, Z.shiftl 1 14).
Definition CPU_FEAT_CMOV : Z * Z := (1, Z.shiftl 1 15).
Definition CPU_FEAT_PAT : Z * Z := (1, Z.shiftl 1 16).
Definition CPU_FEAT_PSE36 : Z * Z := (1, Z.shiftl 1 17).
Definition CPU_FEAT_PSN : Z * Z := (1, Z.shiftl 1 18).
Definition CPU_FEAT_CLFSH : Z * Z := (1, Z.shiftl 1 19).
Definition CPU_FEAT_DS : Z * Z := (1, Z.shiftl 1 21).
Definition CPU_FEAT_ACPI : Z * Z := (1, Z.shiftl 1 22).
Definition CPU_FEAT_MMX : Z * Z := (1, Z.shiftl 1 23).
Definition CPU_FEAT_FXSR : Z * Z := (1, Z.shiftl 1 24).
Definition CPU_FEAT_SSE : Z * Z := (1, Z.shiftl 1 25).
Definition CPU_FEAT_SSE2 : Z * Z := (1, Z.shiftl 1 26).
Definition CPU_FEAT_SS : Z * Z := (1, Z.shiftl 1 27).
Definition CPU_FEAT_HTT : Z * Z := (1, Z.shiftl 1 28).
Definition CPU_FEAT_TM : Z * Z := (1, Z.shiftl 1 29).
Definition CPU_FEAT_PBE : Z * Z := (1, Z.shiftl 1 31).

Definition cpu_features : list (Z * Z) :=
  [CPU_FEAT_SSE3; CPU_FEAT_PCLMULQDQ; CPU_FEAT_DTES64; CPU_FEAT_MONITOR; CPU_FEAT_DSCPL; CPU_FEAT_VMX;
   CPU_FEAT_SMX; CPU_FEAT_EIST; CPU_FEAT_TM2; CPU_FEAT_SSSE3; CPU_FEAT_CNXTID; CPU_FEAT_SDBG; CPU_FEAT_FMA;
   CPU_FEAT_CMPXCHG16B; CPU_FEAT_XTPR_CTRL; CPU_FEAT_PDCM; CPU_FEAT_PCID; CPU_FEAT_DCA; CPU_FEAT_SSE4_1;
   CPU_FEAT_SSE4_2; CPU_FEAT_X2APIC; CPU_FEAT_MOVBE; CPU_FEAT_POPCNT; CPU_FEAT_TSC_DEADLINE; CPU_FEAT_AESNI;
   CPU_FEAT_XSAVE; CPU_FEAT_OSXSAVE; CPU_FEAT_AVX; CPU_FEAT_F16C; CPU_FEAT_RDRAND; CPU_FEAT_FPU; CPU_FEAT_VME;
   CPU_FEAT_DE; CPU_FEAT_PSE; CPU_FEAT_TSC; CPU_FEAT_MSR; CPU_FEAT_PAE; CPU_FEAT_MCE; CPU_FEAT_CX8;
   CPU_FEAT_APIC; CPU_FEAT_SEP; CPU_FEAT_MTRR; CPU_FEAT_PGE; CPU_FEAT_MCA; CPU_FEAT_CMOV; CPU_FEAT_PAT;
   CPU_FEAT_PSE36; CPU_FEAT_PSN; CPU_FEAT_CLFSH; CPU_FEAT_DS; CPU_FEAT_ACPI; CPU_FEAT_MMX; CPU_FEAT_FXSR;
   CPU_FEAT_SSE; CPU_FEAT_SSE2; CPU_FEAT_SS; CPU_FEAT_HTT; CPU_FEAT_TM; CPU_FEAT_PBE].

Inductive IntelCpuModel :=
  | RaptorLakeS | RaptorLakeP | AlderLakeS | AlderLakeP | RocketLakeS | TigerLakeH | TigerLakeU | IceLake |
  CometLakeS | CannonLake | KabylakeS | KabylakeY | SkylakeS | SkylakeY | BroadwellS | BroadwellH | HaswellS |
  HaswellU | HaswellG | IvyBridge | SandyBridge | Westmere | Nehalem | SkylakeServer | BroadwellServerE |
  BroadwellServerDE | HaswellServer | IvyBridgeServer | SandyBridgeServer | WestmereServer | NehalemServer |
  GoldmontA   | UnknownModel (model : Z).

Definition known_models : list (Z * IntelCpuModel) :=
  [(0xB7, RaptorLakeS); (0xBA, RaptorLakeP); (0x97, AlderLakeS); (0x9A, AlderLakeP); (0xA7, RocketLakeS); (0x8D,
   TigerLakeH); (0x8C, TigerLakeU); (0x7E, IceLake); (0xA5, CometLakeS); (0x66, CannonLake); (0x8E, KabylakeY); (0x9E,
   KabylakeS); (0x5E, SkylakeS); (0x4E, SkylakeY); (0x3D, BroadwellS); (0x47, BroadwellH); (0x3C, HaswellS); (0x45,
   HaswellU); (0x46, HaswellG); (0x3A, IvyBridge); (0x2A, SandyBridge); (0x25, Westmere); (0x1E, Nehalem); (0x55,
   SkylakeServer); (0x4F, BroadwellServerE); (0x56, BroadwellServerDE); (0x3F, HaswellServer); (0x3E,
   IvyBridgeServer); (0x2D, SandyBridgeServer); (0x2C, WestmereServer); (0x2F, WestmereServer); (0x2E, NehalemServer);
   (0x1A, NehalemServer); (0x5C, GoldmontA)].

Definition IntelCpuModel_from_u8 (value : Z) : IntelCpuModel :=
  match find (λ m, bool_decide (m.1 = value)) known_models with Some (_, m) => m | None => UnknownModel value end.

(** * UTF-8, as [core::str::from_utf8] checks it *)

Definition continuation (b : Z) : bool := bool_decide (0x80 ≤ b ≤ 0xBF).
Definition three_bytes (a b : Z) : bool :=
  (bool_decide (a = 0xE0) && bool_decide (0xA0 ≤ b ≤ 0xBF)) || (bool_decide (0xE1 ≤ a ≤ 0xEC) && continuation b)
  || (bool_decide (a = 0xED) && bool_decide (0x80 ≤ b ≤ 0x9F)) || (bool_decide (0xEE ≤ a ≤ 0xEF) && continuation b).
Definition four_bytes (a b : Z) : bool :=
  (bool_decide (a = 0xF0) && bool_decide (0x90 ≤ b ≤ 0xBF)) || (bool_decide (0xF1 ≤ a ≤ 0xF3) && continuation b)
  || (bool_decide (a = 0xF4) && bool_decide (0x80 ≤ b ≤ 0x8F)).
Fixpoint utf8 (bs : list Z) : bool :=
  match bs with
  | [] => true
  | a :: bs =>
      if bool_decide (a < 0x80) then utf8 bs
      else match bs with
      | [] => false
      | b :: bs =>
          if bool_decide (0xC2 ≤ a ≤ 0xDF) then continuation b && utf8 bs
          else match bs with
          | [] => false
          | c :: bs =>
              if three_bytes a b then continuation c && utf8 bs
              else match bs with
              | [] => false
              | d :: bs => four_bytes a b && continuation c && continuation d && utf8 bs
              end
          end
      end
  end.

Section cpu.
Context {D : Type} `{CPU : Cpu D}.
Implicit Types d : D.

(** * CPUID *)

Definition cpu_id_support d : bool := id_flag_flips d.
Definition cpu_id_max_leaf d : Z := let '(a, _, _, _) := cpuid 0 (ecx_left d) d in a.
Definition cpu_id_max_extended_leaf d : Z := let '(a, _, _, _) := cpuid 0x80000000 (ecx_left d) d in a.
Definition cpu_id_leaf_support (val : Z) d : bool :=
  if bool_decide (Z.land val 0x80000000 ≠ 0) then bool_decide (val ≤ Z.lor 0x80000000 (cpu_id_max_extended_leaf d))
  else bool_decide (val ≤ cpu_id_max_leaf d).
Definition cpu_id_subleaf (eax ecx : Z) d : option (Z * Z * Z * Z) :=
  if negb (cpu_id_support d && cpu_id_leaf_support eax d) then None else Some (cpuid eax ecx d).
Definition cpu_id (eax : Z) d : option (Z * Z * Z * Z) :=
  if negb (cpu_id_support d && cpu_id_leaf_support eax d) then None else Some (cpuid eax (ecx_left d) d).

Definition cpu_feature_support (code : Z * Z) d : option bool :=
  '(_, _, c, dx) ← cpu_id 1 d;
  if bool_decide (code.1 = 0) then Some (bool_decide (Z.land c code.2 ≠ 0))
  else if bool_decide (code.1 = 1) then Some (bool_decide (Z.land dx code.2 ≠ 0))
  else None.
Definition cpu_family_id d : option Z :=
  '(a, _, _, _) ← cpu_id 1 d;
  let family_id := Z.land (Z.shiftr a 8) 0xf in
  if bool_decide (family_id = 0x0f) then Some (u8 (family_id + u8 (Z.land (Z.shiftr a 20) 0xff))) else Some family_id.
Definition cpu_model_id d : option IntelCpuModel :=
  '(a, _, _, _) ← cpu_id 1 d;
  let model_id := Z.land (Z.shiftr a 4) 0xf in
  let family_id := Z.land (Z.shiftr a 8) 0xf in
  if bool_decide (family_id = 0x0f) || bool_decide (family_id = 0x06) then
    Some (IntelCpuModel_from_u8 (u8 (shl_w 8 (Z.land (Z.shiftr a 16) 0xf) 4 + model_id)))
  else Some (IntelCpuModel_from_u8 model_id).
(** The bytes of the registers of a leaf, in order. *)
Definition leaf_bytes (r : Z * Z * Z * Z) : list Z :=
  let '(a, b, c, dx) := r in le_bytes 4 a ++ le_bytes 4 b ++ le_bytes 4 c ++ le_bytes 4 dx.
(** The bytes that are not ASCII, and those that are 0, are dropped. *)
Definition cpu_brand_string d : option (list Z) :=
  r1 ← cpu_id 0x80000002 d;
  r2 ← cpu_id 0x80000003 d;
  r3 ← cpu_id 0x80000004 d;
  let bytes := base.filter (λ b, b ≠ 0) (base.filter (λ b, b < 128) (leaf_bytes r1 ++ leaf_bytes r2 ++ leaf_bytes r3)) in
  if utf8 bytes then Some bytes else None.
Definition cpu_vendor_string d : outcome (option (list Z)) :=
  match cpu_id 0 d with
  | None => Done None
  | Some (_, b, c, dx) =>
      let bytes := le_bytes 4 b ++ le_bytes 4 dx ++ le_bytes 4 c in
      if utf8 bytes then Done (Some bytes) else Panicked
  end.

(** * Flags *)

Definition ipts_disabled (flags : Z) : bool := if bool_decide (Z.land flags 0x200 = 0) then true else false.
Definition interrupts_disabled d : bool := ipts_disabled (flags_reg d).
Definition disable_interrupts d : D := cli d.
Definition enable_interrupts d : D := sti d.

(** * Model-specific registers *)

Definition msr_read (msr : Z) d : outcome (option Z) :=
  match cpu_feature_support CPU_FEAT_MSR d with
  | None | Some false => Done None
  | Some true => '(edx, eax) ← rdmsr msr d; Done (Some (Z.lor (u64 (Z.shiftl edx 32)) eax))
  end.
Definition msr_write (msr value : Z) d : outcome D :=
  wrmsr msr (Z.land (Z.shiftr value 32) 0xffffffff) (Z.land value 0xffffffff) d.

Definition IA32_EFER : Z := 0xC0000080.
Definition Ia32ExtendedFeature : layout :=
  [("syscall_enable", 1); ("", 7); ("ia32e_enable", 1); ("", 1); ("ia32e_active", 1); ("nxe", 1); ("", 52)].
Definition Ia32ExtendedFeature_read d : outcome (option Z) := msr_read IA32_EFER d.
Definition Ia32ExtendedFeature_write (self : Z) d : outcome D := msr_write IA32_EFER self d.

Definition IA32_APIC_BASE : Z := 0x1B.
Definition Ia32ApicBase : layout :=
  [("", 8); ("is_bsp", 1); ("", 2); ("global_enable_flag", 1); ("base_phy_addr", 24); ("", 28)].
Definition Ia32ApicBase_read d : outcome (option Z) := msr_read IA32_APIC_BASE d.
Definition Ia32ApicBase_write (self : Z) d : outcome D := msr_write IA32_APIC_BASE self d.

Context `{MB : ModularBitfield}.
Definition Ia32ApicBase_update (self : Z) d : outcome Z :=
  r ← Ia32ApicBase_read d;
  msr ← unwrap r;
  self ← with_flag Ia32ApicBase "global_enable_flag" (flag Ia32ApicBase "global_enable_flag" msr) self;
  self ← with_flag Ia32ApicBase "is_bsp" (flag Ia32ApicBase "is_bsp" msr) self;
  with_field Ia32ApicBase "base_phy_addr" (field Ia32ApicBase "base_phy_addr" msr) self.
Definition global_enable (self : Z) d : outcome (Z * D) :=
  self ← with_flag Ia32ApicBase "global_enable_flag" true self;
  d ← Ia32ApicBase_write self d;
  Done (self, d).
Definition global_disable (self : Z) d : outcome (Z * D) :=
  self ← with_flag Ia32ApicBase "global_enable_flag" false self;
  d ← Ia32ApicBase_write self d;
  Done (self, d).
(** The 24 bits are a [u32], and the shift drops the ones above bit 31. *)
Definition apic_register_base (self : Z) : Z := shl_w 32 (field Ia32ApicBase "base_phy_addr" self) 12.
Definition set_apic_register_base (self new_addr : Z) d : outcome (Z * D) :=
  rust_assert (bool_decide (PhyAddr32_bitand new_addr (Z.shiftl 1 12 - 1) = 0));;
  self ← with_field Ia32ApicBase "base_phy_addr" (PhyAddr32_shr new_addr 12) self;
  d ← Ia32ApicBase_write self d;
  Done (self, d).

(** * Control registers *)

Definition Cr0 : layout :=
  [("protection_enable", 1); ("monitor_coprocessor", 1); ("emulation", 1); ("task_switched", 1); ("extension_type", 1);
   ("numeric_error", 1); ("", 10); ("write_protect", 1); ("", 1); ("alignment_mask", 1); ("", 10); ("not_write_through", 1);
   ("cache_disable", 1); ("paging", 1); ("", 32)].
Definition Cr3 : layout := [("", 3); ("cache", 1); ("write_through", 1); ("", 7); ("pdt_addr", 52)].
Definition Cr4 : layout :=
  [("vm8086_ext", 1); ("pm_vif", 1); ("tsd", 1); ("debug_ext", 1); ("paging_ext", 1); ("phys_addr_ext", 1); ("machine_check", 1);
   ("page_global", 1); ("perf_mon_count", 1); ("osfxsr", 1); ("osxmmexcpt", 1); ("umip", 1); ("la57", 1); ("vmx", 1); ("smx", 1);
   ("", 1); ("fsgsbase", 1); ("pcid", 1); ("osxsave", 1); ("kl", 1); ("smep", 1); ("smap", 1); ("pke", 1); ("cet", 1); ("pks", 1);
   ("uintr", 1); ("", 38)].
(** In the 32-bit images. *)
Definition Cr0_32 : layout :=
  [("protection_enable", 1); ("monitor_coprocessor", 1); ("emulation", 1); ("task_switched", 1); ("extension_type", 1);
   ("numeric_error", 1); ("", 10); ("write_protect", 1); ("", 1); ("alignment_mask", 1); ("", 10); ("not_write_through", 1);
   ("cache_disable", 1); ("paging", 1)].
Definition Cr3_32 : layout := [("", 3); ("cache", 1); ("write_through", 1); ("", 7); ("pdt_addr", 20)].
Definition Cr4_32 : layout :=
  [("vm8086_ext", 1); ("pm_vif", 1); ("tsd", 1); ("debug_ext", 1); ("paging_ext", 1); ("phys_addr_ext", 1); ("machine_check", 1);
   ("page_global", 1); ("perf_mon_count", 1); ("osfxsr", 1); ("osxmmexcpt", 1); ("umip", 1); ("la57", 1); ("vmx", 1); ("smx", 1);
   ("fsgsbase", 1); ("pcid", 1); ("osxsave", 1); ("kl", 1); ("smep", 1); ("smap", 1); ("pke", 1); ("cet", 1); ("pks", 1);
   ("uintr", 1); ("", 7)].
Definition Cr0_read d : Z := read_cr 0 d.
Definition Cr0_write (self : Z) d : D := write_cr 0 self d.
Definition Cr3_read d : Z := read_cr 3 d.
Definition Cr3_write (self : Z) d : D := write_cr 3 self d.
Definition Cr4_read d : Z := read_cr 4 d.
Definition Cr4_write (self : Z) d : D := write_cr 4 self d.

Inductive InvalidAddress := InvalidAddress_InvalidAlignment.
Definition page_table_addr (self : Z) : Z := PhyAddr_new (shl_w 64 (field Cr3 "pdt_addr" self) 12).
Definition set_page_table_addr (self addr : Z) : outcome (result Z InvalidAddress) :=
  r ← PhyAddr_is_aligned_with addr ALIGN_4KB;
  match r with
  | Err _ => Done (Err InvalidAddress_InvalidAlignment)
  | Ok false => Done (Err InvalidAddress_InvalidAlignment)
  | Ok true => self ← with_field Cr3 "pdt_addr" (Z.shiftr addr 12) self; Done (Ok self)
  end.
Definition page_table_addr_32 (self : Z) : Z := shl_w 32 (field Cr3_32 "pdt_addr" self) 12.
Definition set_page_table_addr_32 (self addr : Z) : outcome (result Z InvalidAddress) :=
  r ← PhyAddr32_is_aligned_with addr ALIGN_4KB;
  match r with
  | Err _ => Panicked
  | Ok false => Done (Err InvalidAddress_InvalidAlignment)
  | Ok true => self ← with_field Cr3_32 "pdt_addr" (Z.shiftr addr 12) self; Done (Ok self)
  end.
End cpu.

(** * What the accessors read *)

Section laws.
Context `{ML : ModularBitfieldLaws}.

(** Each flag of the list is the bit of that number. *)
Definition flags_at (l : layout) (bits : list (string * Z)) : Prop :=
  ∀ name b x, (name, b) ∈ bits → flag l name x = Z.testbit x b.
Definition flags_check (l : layout) (bits : list (string * Z)) : bool :=
  widths_ok l && bool_decide (Forall (λ p, place l p.1 = Some (p.2, 1) ∧ 0 ≤ p.2) bits).
Lemma flags_checked l bits : flags_check l bits = true → flags_at l bits.
Proof.
  intros [Hw Hall%bool_decide_eq_true]%andb_true_iff name b x Hin. rewrite Forall_forall in Hall.
  destruct (Hall _ Hin) as [Hp Hb]. by apply flag_at.
Qed.

(** The bits of the control registers, of the extended features and of the APIC base
    register, as the processor numbers them: [CR0], [CR4], [IA32_EFER],
    [IA32_APIC_BASE].  In [CR3] the flag "cache disable" (bit 4) and the flag "write
    through" (bit 3) are exchanged, and in the 32-bit [CR4] the flags from
    [fsgsbase] on are one bit too low. *)
Theorem register_flags :
  flags_at Cr0 [("protection_enable", 0); ("monitor_coprocessor", 1); ("emulation", 2); ("task_switched", 3); ("extension_type", 4);
    ("numeric_error", 5); ("write_protect", 16); ("alignment_mask", 18); ("not_write_through", 29); ("cache_disable", 30); ("paging", 31)]
  ∧ flags_at Cr4 [("vm8086_ext", 0); ("pm_vif", 1); ("tsd", 2); ("debug_ext", 3); ("paging_ext", 4); ("phys_addr_ext", 5);
    ("machine_check", 6); ("page_global", 7); ("perf_mon_count", 8); ("osfxsr", 9); ("osxmmexcpt", 10); ("umip", 11); ("la57", 12);
    ("vmx", 13); ("smx", 14); ("fsgsbase", 16); ("pcid", 17); ("osxsave", 18); ("kl", 19); ("smep", 20); ("smap", 21); ("pke", 22);
    ("cet", 23); ("pks", 24); ("uintr", 25)]
  ∧ flags_at Ia32ExtendedFeature [("syscall_enable", 0); ("ia32e_enable", 8); ("ia32e_active", 10); ("nxe", 11)]
  ∧ flags_at Ia32ApicBase [("is_bsp", 8); ("global_enable_flag", 11)]
  ∧ flags_at Cr3 [("cache", 3); ("write_through", 4)]
  ∧ flags_at Cr4_32 [("smx", 14); ("fsgsbase", 15); ("pcid", 16); ("osxsave", 17); ("uintr", 24)].
Proof. split_and!; apply flags_checked; vm_compute; reflexivity. Qed.

(** The address of the page tables.  What is set is what is read, for an address that
    is page-aligned and in the 52 bits of physical addresses, and the low bits of the
    register are kept; an address that is not aligned is refused. *)
Theorem page_table_addr_roundtrip self addr : in_width 64 self → in_width 52 addr →
  (addr mod 4096 = 0 → ∃ self', set_page_table_addr self addr = Done (Ok self') ∧ page_table_addr self' = addr
     ∧ self' mod 4096 = self mod 4096)
  ∧ (addr mod 4096 ≠ 0 → set_page_table_addr self addr = Done (Err InvalidAddress_InvalidAlignment)).
Proof.
  intros Hs [Ha0 Ha1]. unfold set_page_table_addr, PhyAddr_is_aligned_with.
  change (bool_decide (ALIGN_4KB = 0)) with false. cbn [mbind outcome_bind]. change ALIGN_4KB with 4096.
  assert (Hm : PhyAddr_new (addr mod 4096) = addr mod 4096).
  { unfold PhyAddr_new. apply Z.mod_small. pose proof (Z.mod_pos_bound addr 4096 ltac:(lia)). change (Z.shiftl 1 52) with 4503599627370496. lia. }
  rewrite Hm. unfold PhyAddr_is_null. split; intros Hal; [rewrite bool_decide_true by done|by rewrite bool_decide_false].
  assert (Hq : in_width 40 (Z.shiftr addr 12)).
  { rewrite Z.shiftr_div_pow2 by lia. split; [apply Z.div_pos; lia|]. apply Z.div_lt_upper_bound; [lia|]. change (2 ^ 12 * 2 ^ 40) with (2 ^ 52). lia. }
  assert (Hq' : in_width 52 (Z.shiftr addr 12)) by (by apply (in_width_mono 40)).
  rewrite (with_field_at Cr3 "pdt_addr" 12 52) by done. cbn [mbind outcome_bind]. eexists. split; [reflexivity|]. split.
  - unfold page_table_addr. rewrite (field_at Cr3 "pdt_addr" 12 52) by done. rewrite get_put_same by (done || lia).
    unfold shl_w. change (12 mod 64) with 12. rewrite Z.shiftl_mul_pow2, Z.shiftr_div_pow2 by lia. change (2 ^ 12) with 4096.
    assert (E : addr / 4096 * 4096 = addr) by (rewrite Z.mul_comm; symmetry; apply Z_div_exact_full_2; [lia|done]).
    rewrite E. rewrite wrap_id by (split; [lia|]; change (2 ^ 64) with (4096 * 2 ^ 52); lia).
    unfold PhyAddr_new. apply Z.mod_small. change (Z.shiftl 1 52) with (2 ^ 52). lia.
  - change 4096 with (2 ^ 12). rewrite <- !Z.land_ones by lia. apply Z.bits_inj'. intros j Hj. rewrite !Z.land_spec. unfold put_ref.
    destruct (decide (j < 12)) as [Hl|Hl]; [|by rewrite (Z.ones_spec_high 12), !andb_false_r by lia].
    rewrite Z.lor_spec, Z.ldiff_spec, !Z.shiftl_spec_low by lia. by rewrite andb_true_r, orb_false_r.
Qed.

(** The address of the local APIC.  A page-aligned address is set, written to the
    register and read back, and the flags are kept; an address that is not aligned
    panics.  A base in the 36 bits that the register has loses its bits 32 to 35 when
    it is read. *)
Theorem apic_base_register {D} `{Cpu D} self addr (d : D) : in_width 64 self → in_width 32 addr →
  (addr mod 4096 = 0 → ∃ self', set_apic_register_base self addr d = (d' ← Ia32ApicBase_write self' d; Done (self', d'))
     ∧ apic_register_base self' = addr
     ∧ ∀ name, name ∈ ["is_bsp"; "global_enable_flag"] → flag Ia32ApicBase name self' = flag Ia32ApicBase name self)
  ∧ (addr mod 4096 ≠ 0 → set_apic_register_base self addr d = Panicked)
  ∧ apic_register_base self = Z.shiftl (get_ref 12 24 self) 12 mod 2 ^ 32.
Proof.
  intros Hs [Ha0 Ha1]. unfold set_apic_register_base, PhyAddr32_bitand, PhyAddr32_shr. change (Z.shiftl 1 12 - 1) with (Z.ones 12).
  rewrite Z.land_ones by lia. change (2 ^ 12) with 4096. change (12 mod 32) with 12.
  assert (Hread : ∀ x, apic_register_base x = Z.shiftl (get_ref 12 24 x) 12 mod 2 ^ 32).
  { intros x. unfold apic_register_base. by rewrite (field_at Ia32ApicBase "base_phy_addr" 12 24) by done. }
  split_and!; [intros Hal; rewrite bool_decide_true by done|intros Hal; by rewrite bool_decide_false|apply Hread].
  cbn [rust_assert mbind outcome_bind].
  assert (Hq : in_width 24 (Z.shiftr addr 12)).
  { rewrite Z.shiftr_div_pow2 by lia. split; [apply Z.div_pos; lia|]. apply Z.div_lt_upper_bound; [lia|]. change (2 ^ 12 * 2 ^ 24) with (2 ^ 36).
    change (2 ^ 32) with 4294967296 in Ha1. change (2 ^ 36) with 68719476736. lia. }
  rewrite (with_field_at Ia32ApicBase "base_phy_addr" 12 24) by done. cbn [mbind outcome_bind]. eexists. split_and!; [reflexivity| |].
  - rewrite Hread, get_put_same by (done || lia). rewrite Z.shiftl_mul_pow2, Z.shiftr_div_pow2 by lia. change (2 ^ 12) with 4096.
    replace (addr / 4096 * 4096) with addr by (rewrite Z.mul_comm; apply Z_div_exact_full_2; [lia|done]). by apply Z.mod_small.
  - intros name Hn. assert (Hp : ∃ b, place Ia32ApicBase name = Some (b, 1) ∧ 0 ≤ b < 12).
    { set_unfold in Hn. destruct Hn as [->|[->|[]]]; [exists 8|exists 11]; (split; [reflexivity|lia]). }
    destruct Hp as (b & Hp & Hb). rewrite !(flag_at Ia32ApicBase name b) by (done || lia). unfold put_ref.
    rewrite Z.lor_spec, Z.ldiff_spec, !Z.shiftl_spec_low by lia. by rewrite andb_true_r, orb_false_r.
Qed.
End laws.

(** * Identification *)

(** A processor with leaf 1. *)
Lemma cpu_id_1 {D} `{Cpu D} (d : D) : cpu_id_support d = true → 1 ≤ cpu_id_max_leaf d → cpu_id 1 d = Some (cpuid 1 (ecx_left d) d).
Proof.
  intros Hs Hm. unfold cpu_id, cpu_id_leaf_support. change (bool_decide (Z.land 1 0x80000000 ≠ 0)) with false. cbn beta iota.
  by rewrite Hs, bool_decide_true.
Qed.
(** What the identification of the processor gives.  On a processor with leaf 1, each
    feature is the bit of its number in [ecx] or [edx], the family includes the
    extended family when it is 15, and the model the extended model when the family is
    6 or 15. *)
Theorem cpu_identification {D} `{Cpu D} (d : D) a b c dx : cpu_id_support d = true → 1 ≤ cpu_id_max_leaf d →
  cpuid 1 (ecx_left d) d = (a, b, c, dx) → in_width 32 a →
  (∀ r k, (r, Z.shiftl 1 k) ∈ cpu_features → 0 ≤ k → cpu_feature_support (r, Z.shiftl 1 k) d = Some (Z.testbit (if bool_decide (r = 0) then c else dx) k))
  ∧ cpu_family_id d = Some (if bool_decide (a / 2 ^ 8 mod 16 = 15) then u8 (15 + a / 2 ^ 20 mod 256) else a / 2 ^ 8 mod 16)
  ∧ cpu_model_id d = Some (IntelCpuModel_from_u8
      (if bool_decide (a / 2 ^ 8 mod 16 = 15) || bool_decide (a / 2 ^ 8 mod 16 = 6) then 16 * (a / 2 ^ 16 mod 16) + a / 2 ^ 4 mod 16 else a / 2 ^ 4 mod 16)).
Proof.
  intros Hs Hm Hc Ha. assert (H1 : cpu_id 1 d = Some (a, b, c, dx)) by (by rewrite cpu_id_1, Hc). split_and!.
  - intros r k Hin Hk. unfold cpu_feature_support. rewrite H1. cbn [mbind option_bind fst snd].
    rewrite !land_shiftl1 by done. assert (Hr : r = 0 ∨ r = 1).
    { assert (Hall : Forall (λ f : Z * Z, f.1 = 0 ∨ f.1 = 1) cpu_features) by (apply (bool_decide_unpack _); vm_compute; exact I).
      rewrite Forall_forall in Hall. exact (Hall _ Hin). }
    assert (Hb : ∀ x, bool_decide (Z.b2z (Z.testbit x k) * 2 ^ k ≠ 0) = Z.testbit x k).
    { intros x. pose proof (pow2_pos k Hk). destruct (Z.testbit x k); [apply bool_decide_true|apply bool_decide_false]; simpl; lia. }
    destruct Hr as [-> | ->]; [change (bool_decide (0 = 0)) with true|change (bool_decide (1 = 0)) with false; change (bool_decide (1 = 1)) with true];
      cbn beta iota; by rewrite Hb.
  - unfold cpu_family_id. rewrite H1. cbn [mbind option_bind]. change 0xf with (Z.ones 4). change 0xff with (Z.ones 8).
    rewrite !Z.land_ones, !Z.shiftr_div_pow2 by lia. change (2 ^ 4) with 16. change (2 ^ 8) with 256.
    case_bool_decide as E; [|done]. do 2 f_equal. rewrite E. f_equal. apply wrap_id. apply Z.mod_pos_bound. lia.
  - unfold cpu_model_id. rewrite H1. cbn [mbind option_bind]. change 0xf with (Z.ones 4).
    rewrite !Z.land_ones, !Z.shiftr_div_pow2 by lia. change (2 ^ 4) with 16.
    destruct (bool_decide _ || bool_decide _); [|done]. do 2 f_equal.
    pose proof (Z.mod_pos_bound (a / 2 ^ 16) 16 ltac:(lia)). pose proof (Z.mod_pos_bound (a / 16) 16 ltac:(lia)).
    unfold shl_w. change (4 mod 8) with 4. rewrite Z.shiftl_mul_pow2 by lia. change (2 ^ 4) with 16.
    rewrite (wrap_id 8 (_ * 16)) by (unfold in_width; change (2 ^ 8) with 256; lia).
    rewrite Z.mul_comm. apply wrap_id. unfold in_width. change (2 ^ 8) with 256. lia.
Qed.

(** * A processor *)

(** A Skylake desktop processor: family 6, model 0x5E. *)
Record sample_cpu := { msrs : Z → Z; crs : Z → Z; int_flag : bool }.
Definition SAMPLE_SIGNATURE : Z := 0x000506E3.
#[global] Instance sample_cpu_impl : Cpu sample_cpu := {|
  cpuid a _ _ :=
    if bool_decide (a = 0) then (0x16, 0x756E6547, 0x6C65746E, 0x49656E69)
    else if bool_decide (a = 1) then (SAMPLE_SIGNATURE, 0x03100800, 0x7FFAFBBF, 0xBFEBFBFF)
    else if bool_decide (a = 0x80000000) then (0x80000008, 0, 0, 0)
    else (0, 0, 0, 0);
  ecx_left _ := 0;
  id_flag_flips _ := true;
  flags_reg d := if int_flag d then 0x202 else 0x2;
  cli d := {| msrs := msrs d; crs := crs d; int_flag := false |};
  sti d := {| msrs := msrs d; crs := crs d; int_flag := true |};
  rdmsr r d := Done (Z.shiftr (msrs d r) 32, Z.land (msrs d r) 0xffffffff);
  wrmsr r hi lo d := Done {| msrs := λ s, if bool_decide (s = r) then Z.lor (Z.shiftl hi 32) lo else msrs d s; crs := crs d; int_flag := int_flag d |};
  read_cr r d := crs d r;
  write_cr r v d := {| msrs := msrs d; crs := λ s, if bool_decide (s = r) then v else crs d s; int_flag := int_flag d |}
|}.
Definition sample_processor : sample_cpu := {|
  msrs := λ r, if bool_decide (r = IA32_APIC_BASE) then 0xFEE00900 else 0;
  crs := λ _, 0; int_flag := true
|}.

Lemma register_flags_witness : @flag shifts Cr0 "paging" 0x80000011 = true ∧ @flag shifts Cr3 "cache" 0x8 = true ∧ @flag shifts Cr4_32 "pcid" 0x20000 = false.
Proof.
  destruct (@register_flags shifts shifts_laws) as (H0 & _ & _ & _ & H3 & H4). split_and!.
  - rewrite (H0 "paging" 31); [reflexivity|]. apply (bool_decide_unpack _). vm_compute. exact I.
  - rewrite (H3 "cache" 3); [reflexivity|]. left.
  - rewrite (H4 "pcid" 16); [reflexivity|]. apply (bool_decide_unpack _). vm_compute. exact I.
Defined.
Lemma page_table_addr_roundtrip_witness :
  (∃ self, @set_page_table_addr shifts 0x18 0x12345000 = Done (Ok self) ∧ @page_table_addr shifts self = 0x12345000)
  ∧ @set_page_table_addr shifts 0x18 0x12345800 = Done (Err InvalidAddress_InvalidAlignment).
Proof.
  split.
  - destruct (@page_table_addr_roundtrip shifts shifts_laws 0x18 0x12345000) as [H _]; [vm_compute; intuition discriminate|vm_compute; intuition discriminate|].
    destruct H as (self & H1 & H2 & _); [reflexivity|]. exists self. split; [exact H1|exact H2].
  - destruct (@page_table_addr_roundtrip shifts shifts_laws 0x18 0x12345800) as [_ H]; [vm_compute; intuition discriminate|vm_compute; intuition discriminate|].
    apply H. vm_compute. discriminate.
Defined.
Lemma apic_base_register_witness : ∃ self d', @set_apic_register_base _ _ shifts 0xFEE00900 0xFEC00000 sample_processor = Done (self, d') ∧
  @apic_register_base shifts self = 0xFEC00000 ∧ @apic_register_base shifts 0xFFEE00900 = 0xFEE00000.
Proof.
  destruct (@apic_base_register shifts shifts_laws _ sample_cpu_impl 0xFEE00900 0xFEC00000 sample_processor) as (H & _ & _);
    [vm_compute; intuition discriminate|vm_compute; intuition discriminate|].
  destruct H as (self & H1 & H2 & _); [reflexivity|]. exists self. eexists. split; [exact H1|]. split; [exact H2|reflexivity].
Defined.
Lemma cpu_identification_witness : cpu_model_id sample_processor = Some SkylakeS ∧ cpu_family_id sample_processor = Some 6.
Proof.
  destruct (cpu_identification sample_processor SAMPLE_SIGNATURE 0x03100800 0x7FFAFBBF 0xBFEBFBFF) as (_ & Hf & Hm);
    [reflexivity|vm_compute; discriminate|reflexivity|vm_compute; intuition discriminate|].
  split; [exact Hm|exact Hf].
Defined.
