(* ===== verification/MpTable.v ===== *)
(** The multiprocessor configuration table (src/x86/apic/mp_table.rs): its
    structures in memory, the search of its pointer, loading and lookups.

    Memory is a byte for each physical address: [get_physical_memory32] maps it
    linearly.  Whether bytes at an address can be taken as a structure of some
    alignment is a test of the [bytemuck] crate, the class [Bytemuck]. *)

From stdpp Require Import strings.
From S2P Require Import Prelude Addr Bitfield.

Class Bytemuck := { pod_aligned : Z → Z → bool }.
Class BytemuckLaws `{Bytemuck} := { pod_aligned_spec align a : 0 < align → pod_aligned align a = bool_decide (a mod align = 0) }.

Abbreviation memory := (Z → Z).
Definition bytes_at (m : memory) (a : Z) (n : nat) : list Z := map (λ i, m (a + Z.of_nat i)) (seq 0 n).
(** A part of some bytes, and the integer there. *)
Definition part (bs : list Z) (off n : nat) : list Z := take n (drop off bs).
Definition int_part (bs : list Z) (off n : nat) : Z := of_le (part bs off n).

(** * Structures *)

Record MPConfigurationTableHeader := {
  h_signature : list Z; base_table_length : Z; h_spec_rev : Z; h_chksum : Z; oem_id : list Z; product_id : list Z;
  oem_table_ptr : Z; oem_table_size : Z; entry_count : Z; local_apic_addr : Z; ext_table_len : Z; ext_table_chksum : Z; h_reserved : Z
}.
Definition HEADER_SIZE : nat := 44.
Definition header_of (bs : list Z) : MPConfigurationTableHeader := {|
  h_signature := part bs 0 4; base_table_length := int_part bs 4 2; h_spec_rev := int_part bs 6 1; h_chksum := int_part bs 7 1;
  oem_id := part bs 8 8; product_id := part bs 16 12; oem_table_ptr := int_part bs 28 4; oem_table_size := int_part bs 32 2;
  entry_count := int_part bs 34 2; local_apic_addr := int_part bs 36 4; ext_table_len := int_part bs 40 2;
  ext_table_chksum := int_part bs 42 1; h_reserved := int_part bs 43 1
|}.
Definition header_image (h : MPConfigurationTableHeader) : list Z :=
  h_signature h ++ le_bytes 2 (base_table_length h) ++ le_bytes 1 (h_spec_rev h) ++ le_bytes 1 (h_chksum h) ++ oem_id h ++ product_id h
  ++ le_bytes 4 (oem_table_ptr h) ++ le_bytes 2 (oem_table_size h) ++ le_bytes 2 (entry_count h) ++ le_bytes 4 (local_apic_addr h)
  ++ le_bytes 2 (ext_table_len h) ++ le_bytes 1 (ext_table_chksum h) ++ le_bytes 1 (h_reserved h).

(** [MPConfigurationEntryType]: a byte with named values. *)
Definition ENTRY_Processor : Z := 0.
Definition ENTRY_Bus : Z := 1.
Definition ENTRY_IOApic : Z := 2.
Definition ENTRY_IOInterrupt : Z := 3.
Definition ENTRY_LocalInterrupt : Z := 4.

Record MPProcessorEntry := {
  p_entry_type : Z; lapic_id : Z; lapic_version : Z; p_flags : Z; p_signature : Z; p_family : Z; p_reserved1 : Z; p_reserved2 : Z;
  feature_flags : Z; p_reserved3 : list Z
}.
Definition MPProcessorEntryFlags : layout := [("usable", 1); ("is_bsp", 1); ("", 6)].
Definition MPProcessorEntryFeatureFlags : layout :=
  [("has_fpu", 1); ("", 6); ("has_mce", 1); ("cmpxchg64_support", 1); ("has_integrated_apic", 1); ("", 22)].
Record MPBusEntry := { b_entry_type : Z; bus_id : Z; bus_type : list Z }.
Record MPIOApicEntry := { a_entry_type : Z; ioapic_id : Z; ioapic_version : Z; ioapic_flags : Z; ioapic_addr : Z }.
Record MPIOInterruptEntry := {
  i_entry_type : Z; int_type : Z; int_mode : Z; i_reserved : Z; source_bus_id : Z; source_bus_irq : Z; dest_ioapic_id : Z;
  dest_ioapic_intin : Z
}.
Record MPLocalInterruptEntry := {
  l_entry_type : Z; l_int_type : Z; l_int_mode : Z; l_reserved : Z; l_source_bus_id : Z; l_source_bus_irq : Z; dest_lapic_id : Z;
  dest_lapic_lintin : Z
}.
Definition ALL_IO_APIC : Z := 0xFF.
Definition ALL_LAPIC : Z := 0xFF.
Definition LINTIN_0 : Z := 0.
Definition LINTIN_1 : Z := 1.
(** [MPInterruptType]: a byte with named values. *)
Definition INT_Vectored : Z := 0.
Definition INT_NonMaskable : Z := 1.
Definition INT_SystemManagement : Z := 2.
Definition INT_External : Z := 3.
Definition MPInterruptFlags : layout := [("polarity", 2); ("trigger_mode", 2); ("", 4)].
(** [MPBusType::chars]: without the zeros and the spaces. *)
Definition bus_type_chars (t : list Z) : list Z := base.filter (λ b, b ≠ 0 ∧ b ≠ 0x20) t.
Definition ioapic_usable (e : MPIOApicEntry) : bool := bool_decide (Z.land (ioapic_flags e) 1 = 1).

Inductive MPPinPolarity := PolarityBusSpec | MPActiveHigh | MPActiveLow.
Inductive MPTriggerMode := TriggerBusSpec | MPEdge | MPLevel.
(** The getters of these two bits panic on the value that no constructor has. *)
Definition MPPinPolarity_of_bits (b : Z) : outcome MPPinPolarity :=
  if bool_decide (b = 0) then Done PolarityBusSpec else if bool_decide (b = 1) then Done MPActiveHigh
  else if bool_decide (b = 3) then Done MPActiveLow else Panicked.
Definition MPTriggerMode_of_bits (b : Z) : outcome MPTriggerMode :=
  if bool_decide (b = 0) then Done TriggerBusSpec else if bool_decide (b = 1) then Done MPEdge
  else if bool_decide (b = 3) then Done MPLevel else Panicked.

(** ** Their bytes *)

(** A packed entry: its size, and what its bytes are taken as. *)
Class MPEntry (T : Type) := { entry_size : nat; entry_of : list Z → T; entry_image : T → list Z; entry_wf : T → Prop }.
#[global] Instance processor_entry : MPEntry MPProcessorEntry := {|
  entry_size := 20;
  entry_of bs := {|
    p_entry_type := int_part bs 0 1; lapic_id := int_part bs 1 1; lapic_version := int_part bs 2 1; p_flags := int_part bs 3 1;
    p_signature := int_part bs 4 1; p_family := int_part bs 5 1; p_reserved1 := int_part bs 6 1; p_reserved2 := int_part bs 7 1;
    feature_flags := int_part bs 8 4; p_reserved3 := part bs 12 8 |};
  entry_image e := map (λ f, f e) [p_entry_type; lapic_id; lapic_version; p_flags; p_signature; p_family; p_reserved1; p_reserved2]
    ++ le_bytes 4 (feature_flags e) ++ p_reserved3 e;
  entry_wf e := p_entry_type e = ENTRY_Processor ∧ in_width 32 (feature_flags e) ∧ length (p_reserved3 e) = 8%nat
|}.
#[global] Instance bus_entry : MPEntry MPBusEntry := {|
  entry_size := 8;
  entry_of bs := {| b_entry_type := int_part bs 0 1; bus_id := int_part bs 1 1; bus_type := part bs 2 6 |};
  entry_image e := [b_entry_type e; bus_id e] ++ bus_type e;
  entry_wf e := b_entry_type e = ENTRY_Bus ∧ length (bus_type e) = 6%nat
|}.
#[global] Instance ioapic_entry : MPEntry MPIOApicEntry := {|
  entry_size := 8;
  entry_of bs := {| a_entry_type := int_part bs 0 1; ioapic_id := int_part bs 1 1; ioapic_version := int_part bs 2 1;
    ioapic_flags := int_part bs 3 1; ioapic_addr := int_part bs 4 4 |};
  entry_image e := map (λ f, f e) [a_entry_type; ioapic_id; ioapic_version; ioapic_flags] ++ le_bytes 4 (ioapic_addr e);
  entry_wf e := a_entry_type e = ENTRY_IOApic ∧ in_width 32 (ioapic_addr e)
|}.
#[global] Instance iointerrupt_entry : MPEntry MPIOInterruptEntry := {|
  entry_size := 8;
  entry_of bs := {| i_entry_type := int_part bs 0 1; int_type := int_part bs 1 1; int_mode := int_part bs 2 1; i_reserved := int_part bs 3 1;
    source_bus_id := int_part bs 4 1; source_bus_irq := int_part bs 5 1; dest_ioapic_id := int_part bs 6 1; dest_ioapic_intin := int_part bs 7 1 |};
  entry_image e := map (λ f, f e) [i_entry_type; int_type; int_mode; i_reserved; source_bus_id; source_bus_irq; dest_ioapic_id; dest_ioapic_intin];
  entry_wf e := i_entry_type e = ENTRY_IOInterrupt
|}.
#[global] Instance localinterrupt_entry : MPEntry MPLocalInterruptEntry := {|
  entry_size := 8;
  entry_of bs := {| l_entry_type := int_part bs 0 1; l_int_type := int_part bs 1 1; l_int_mode := int_part bs 2 1; l_reserved := int_part bs 3 1;
    l_source_bus_id := int_part bs 4 1; l_source_bus_irq := int_part bs 5 1; dest_lapic_id := int_part bs 6 1; dest_lapic_lintin := int_part bs 7 1 |};
  entry_image e := map (λ f, f e) [l_entry_type; l_int_type; l_int_mode; l_reserved; l_source_bus_id; l_source_bus_irq; dest_lapic_id; dest_lapic_lintin];
  entry_wf e := l_entry_type e = ENTRY_LocalInterrupt
|}.

Inductive MPConfigurationEntry :=
  | Processor (e : MPProcessorEntry)
  | Bus (e : MPBusEntry)
  | IOApic (e : MPIOApicEntry)
  | IOInterrupt (e : MPIOInterruptEntry)
  | LocalInterrupt (e : MPLocalInterruptEntry).

Record MPFloatingPointer := {
  f_signature : list Z; mp_table_ptr : Z; f_length : Z; f_spec_rev : Z; f_chksum : Z; feature_information : Z
}.
Definition MPFeatureInformation : layout := [("config_type", 8); ("", 7); ("imcr_presence", 1); ("", 24)].
Definition FLOATING_SIZE : nat := 16.
Definition floating_of (bs : list Z) : MPFloatingPointer := {|
  f_signature := part bs 0 4; mp_table_ptr := int_part bs 4 4; f_length := int_part bs 8 1; f_spec_rev := int_part bs 9 1;
  f_chksum := int_part bs 10 1; feature_information := int_part bs 11 5
|}.

Record MPTable := { floating_ptr : MPFloatingPointer; header : MPConfigurationTableHeader; entries : list MPConfigurationEntry }.

(** * Loading *)

(** The sum of bytes, in a [u8]. *)
Definition byte_sum (bs : list Z) : Z := fold_left (λ s b, u8 (s + b)) bs 0.

(** The entry at an address, and the address after it; an unknown type stays there. *)
Definition load_mp_conf_entry (m : memory) (addr : Z) : option MPConfigurationEntry * Z :=
  let entry {T} `{MPEntry T} (c : T → MPConfigurationEntry) :=
    (Some (c (entry_of (bytes_at m addr entry_size))), PhyAddr32_add_assign addr (Z.of_nat entry_size)) in
  let entry_type := m addr in
  if bool_decide (entry_type = ENTRY_Processor) then entry Processor
  else if bool_decide (entry_type = ENTRY_Bus) then entry Bus
  else if bool_decide (entry_type = ENTRY_IOApic) then entry IOApic
  else if bool_decide (entry_type = ENTRY_IOInterrupt) then entry IOInterrupt
  else if bool_decide (entry_type = ENTRY_LocalInterrupt) then entry LocalInterrupt
  else (None, addr).
(** [(0..n).filter_map(|_| load_mp_conf_entry(&mut addr))]. *)
Fixpoint load_mp_conf_entries (n : nat) (m : memory) (addr : Z) : list MPConfigurationEntry :=
  match n with
  | O => []
  | S n =>
      let '(e, addr) := load_mp_conf_entry m addr in
      match e with Some e => e :: load_mp_conf_entries n m addr | None => load_mp_conf_entries n m addr end
  end.

(** [while curr_addr < range.1]: the address of the signature in a range. *)
Fixpoint search_range (fuel : nat) (m : memory) (sig : list Z) (curr_addr last align : Z) : outcome (option Z) :=
  if negb (bool_decide (curr_addr < last)) then Done None
  else if bool_decide (bytes_at m curr_addr (length sig) = sig) then Done (Some curr_addr)
  else match fuel with
  | O => NoFuel
  | S fuel => search_range fuel m sig (PhyAddr32_add_assign curr_addr align) last align
  end.

Section table.
Context `{BM : Bytemuck}.

(** The first structure with the signature: [size] bytes, taken as a type of alignment
    [type_align] if [bytemuck] can. *)
Fixpoint locate_struct_in_mem (fuel : nat) (m : memory) (sig : list Z) (ranges : list (Z * Z)) (align : Z) (size : nat) (type_align : Z) :
    outcome (option (list Z)) :=
  match ranges with
  | [] => Done None
  | (first, last) :: ranges =>
      r ← search_range fuel m sig first last align;
      match r with
      | Some a => Done (if pod_aligned type_align a then Some (bytes_at m a size) else None)
      | None => locate_struct_in_mem fuel m sig ranges align size type_align
      end
  end.
Definition MP_SIGNATURE : list Z := [0x5F; 0x4D; 0x50; 0x5F].
Definition MP_RANGES : list (Z * Z) := [(0xF0000, 0x100000); (0x80000, 0x9FFFF)].
(** More steps than either range has. *)
Definition MP_FUEL : nat := Z.to_nat 0x2000.
Definition floating_verify_chksum (bs : list Z) : bool := bool_decide (byte_sum bs = 0).
Definition MPFloatingPointer_load (m : memory) : outcome (option MPFloatingPointer) :=
  r ← locate_struct_in_mem MP_FUEL m MP_SIGNATURE MP_RANGES 16 FLOATING_SIZE 1;
  match r with
  | None => Done None
  | Some bs => Done (if floating_verify_chksum bs then Some (floating_of bs) else None)
  end.
Definition verify_chksum (m : memory) (t : MPTable) : bool :=
  bool_decide (byte_sum (bytes_at m (mp_table_ptr (floating_ptr t)) (Z.to_nat (base_table_length (header t)))) = 0).
Definition MPTable_load (m : memory) : outcome (option MPTable) :=
  r ← MPFloatingPointer_load m;
  match r with
  | None => Done None
  | Some mp_float_ptr =>
      let ptr := mp_table_ptr mp_float_ptr in
      if bool_decide (ptr = 0) then Done None
      else if negb (pod_aligned 4 ptr) then Panicked
      else
        let mp_table_header := header_of (bytes_at m ptr HEADER_SIZE) in
        let curr_addr := PhyAddr32_add_u32 ptr (Z.of_nat HEADER_SIZE) in
        let mp_table := {| floating_ptr := mp_float_ptr; header := mp_table_header;
          entries := load_mp_conf_entries (Z.to_nat (entry_count mp_table_header)) m curr_addr |} in
        Done (if negb (verify_chksum m mp_table) then None else Some mp_table)
  end.
End table.

(** * Lookups *)

(** The entries of one kind that satisfy a test: [filter], then [map] and [unwrap]. *)
Definition get_io_apic (t : MPTable) : list MPIOApicEntry := omap (λ e, match e with IOApic a => Some a | _ => None end) (entries t).
Definition get_processors (t : MPTable) : list MPProcessorEntry := omap (λ e, match e with Processor p => Some p | _ => None end) (entries t).
Definition get_int_to_local_apic (t : MPTable) (id : Z) : list MPLocalInterruptEntry :=
  omap (λ e, match e with LocalInterrupt i => if bool_decide (dest_lapic_id i = id) then Some i else None | _ => None end) (entries t).
Definition get_int_to_io_apic (t : MPTable) (id : Z) : list MPIOInterruptEntry :=
  omap (λ e, match e with IOInterrupt i => if bool_decide (dest_ioapic_id i = id) then Some i else None | _ => None end) (entries t).
Definition get_io_int_connected_to_pin (t : MPTable) (io_apic_id pin : Z) : option MPIOInterruptEntry :=
  match find (λ e, match e with IOInterrupt i => bool_decide (dest_ioapic_id i = io_apic_id) && bool_decide (dest_ioapic_intin i = pin) | _ => false end) (entries t) with
  | Some (IOInterrupt i) => Some i
  | _ => None
  end.
Definition get_local_int_connected_to_pin (t : MPTable) (id pin : Z) : option MPLocalInterruptEntry :=
  match find (λ e, match e with
      | LocalInterrupt i => (bool_decide (dest_lapic_id i = id) || bool_decide (dest_lapic_id i = ALL_LAPIC)) && bool_decide (dest_lapic_lintin i = pin)
      | _ => false end) (entries t) with
  | Some (LocalInterrupt i) => Some i
  | _ => None
  end.
Definition get_proc_entry_by_id (t : MPTable) (id : Z) : option MPProcessorEntry :=
  match find (λ e, match e with Processor p => bool_decide (lapic_id p = id) | _ => false end) (entries t) with
  | Some (Processor p) => Some p
  | _ => None
  end.
(** [entry.unwrap()]: no entry panics. *)
Definition get_bus_entry_by_id (t : MPTable) (id : Z) : outcome (option MPBusEntry) :=
  match find (λ e, match e with Bus b => bool_decide (bus_id b = id) | _ => false end) (entries t) with
  | None => Panicked
  | Some (Bus b) => Done (Some b)
  | Some _ => Done None
  end.
Definition get_io_apic_entry_by_id (t : MPTable) (id : Z) : outcome (option MPIOApicEntry) :=
  match find (λ e, match e with IOApic a => bool_decide (ioapic_id a = id) | _ => false end) (entries t) with
  | None => Panicked
  | Some (IOApic a) => Done (Some a)
  | Some _ => Done None
  end.
Definition imcr_present `{ModularBitfield} (t : MPTable) : bool := flag MPFeatureInformation "imcr_presence" (feature_information (floating_ptr t)).

(** * Memory and images *)

Lemma length_bytes_at m a n : length (bytes_at m a n) = n.
Proof. unfold bytes_at. by rewrite length_map, length_seq. Qed.
Lemma bytes_at_app m a n k : bytes_at m a (n + k) = bytes_at m a n ++ bytes_at m (a + Z.of_nat n) k.
Proof.
  unfold bytes_at. rewrite seq_app, map_app. f_equal. cbn [Nat.add]. rewrite <- (Nat.add_0_r n) at 1. rewrite <- (fmap_add_seq n 0 k), <- list_fmap_compose.
  apply map_ext. intros i. cbn. f_equal. lia.
Qed.
Lemma bytes_at_S m a n : bytes_at m a (S n) = m a :: bytes_at m (a + 1) n.
Proof. change (S n) with (1 + n)%nat. rewrite bytes_at_app. unfold bytes_at. cbn. by rewrite Z.add_0_r. Qed.
Lemma bytes_at_split m a bs cs : bytes_at m a (length bs + length cs) = bs ++ cs →
  bytes_at m a (length bs) = bs ∧ bytes_at m (a + Z.of_nat (length bs)) (length cs) = cs.
Proof. rewrite bytes_at_app. intros H. apply app_inj_1 in H; [done|]. apply length_bytes_at. Qed.
Lemma of_le_one b : of_le [b] = b.
Proof. cbn. lia. Qed.

(** What the bytes of an entry are taken as. *)
Class MPEntryLaws (T : Type) `{MPEntry T} := {
  entry_image_length (e : T) : entry_wf e → length (entry_image e) = entry_size;
  entry_of_image (e : T) : entry_wf e → entry_of (entry_image e) = e
}.
#[global] Instance iointerrupt_laws : MPEntryLaws MPIOInterruptEntry.
Proof. split; intros [] _; [done|]. cbn -[of_le]. unfold int_part, part. cbn -[of_le]. by rewrite ?of_le_one. Qed.
#[global] Instance localinterrupt_laws : MPEntryLaws MPLocalInterruptEntry.
Proof. split; intros [] _; [done|]. cbn -[of_le]. unfold int_part, part. cbn -[of_le]. by rewrite ?of_le_one. Qed.
#[global] Instance ioapic_laws : MPEntryLaws MPIOApicEntry.
Proof.
  split; intros [] [_ Hw]; [done|]. cbn [entry_of entry_image ioapic_entry map app int_part part]. unfold int_part, part.
  cbn [map app drop take a_entry_type ioapic_id ioapic_version ioapic_flags ioapic_addr]. rewrite ?of_le_one. f_equal.
  rewrite take_ge by done. by apply of_le_le_bytes.
Qed.
#[global] Instance bus_laws : MPEntryLaws MPBusEntry.
Proof.
  split; intros [] [_ Hl]; cbn [bus_type] in Hl; [cbn; by rewrite Hl|].
  cbn [entry_of entry_image bus_entry]. unfold int_part, part. cbn [app drop take b_entry_type bus_id bus_type].
  rewrite ?of_le_one. f_equal. apply take_ge. lia.
Qed.
#[global] Instance processor_laws : MPEntryLaws MPProcessorEntry.
Proof.
  split; intros [] (_ & Hw & Hl); cbn [p_reserved3 feature_flags] in Hw, Hl; [cbn; by rewrite Hl|].
  cbn [entry_of entry_image processor_entry]. unfold int_part, part.
  cbn [map app drop take p_entry_type lapic_id lapic_version p_flags p_signature p_family p_reserved1 p_reserved2 feature_flags p_reserved3].
  rewrite ?of_le_one. f_equal.
  - rewrite drop_0, take_app_length' by done. by apply of_le_le_bytes.
  - cbn. apply take_ge. lia.
Qed.

Definition conf_entry_image (e : MPConfigurationEntry) : list Z :=
  match e with Processor e => entry_image e | Bus e => entry_image e | IOApic e => entry_image e | IOInterrupt e => entry_image e | LocalInterrupt e => entry_image e end.
Definition conf_entry_wf (e : MPConfigurationEntry) : Prop :=
  match e with Processor e => entry_wf e | Bus e => entry_wf e | IOApic e => entry_wf e | IOInterrupt e => entry_wf e | LocalInterrupt e => entry_wf e end.

Lemma load_entry m addr e : conf_entry_wf e → 0 ≤ addr → addr + Z.of_nat (length (conf_entry_image e)) < 2 ^ 32 →
  bytes_at m addr (length (conf_entry_image e)) = conf_entry_image e →
  load_mp_conf_entry m addr = (Some e, addr + Z.of_nat (length (conf_entry_image e))).
Proof.
  intros Hwf H0 Hle Hm.
  assert (Hone : ∀ T `{MPEntryLaws T} (x : T) (c : T → MPConfigurationEntry), entry_wf x → conf_entry_image e = entry_image x →
    (Some (c (entry_of (bytes_at m addr entry_size))), PhyAddr32_add_assign addr (Z.of_nat entry_size))
    = (Some (c x), addr + Z.of_nat (length (conf_entry_image e)))).
  { intros T H1 H2 x c Hx Hi. rewrite Hi in *. rewrite (entry_image_length x Hx) in *. rewrite Hm, entry_of_image by done.
    f_equal. unfold PhyAddr32_add_assign. apply wrap_id. unfold in_width. lia. }
  unfold load_mp_conf_entry.
  assert (Ht : ∀ t l, conf_entry_image e = t :: l → m addr = t).
  { intros t l E. rewrite E in Hm. cbn [length] in Hm. rewrite bytes_at_S in Hm. by injection Hm. }
  destruct e as [x|x|x|x|x]; rewrite (Ht _ _ eq_refl).
  - replace (p_entry_type x) with ENTRY_Processor by (symmetry; apply Hwf). exact (Hone _ _ _ x Processor Hwf eq_refl).
  - replace (b_entry_type x) with ENTRY_Bus by (symmetry; apply Hwf). exact (Hone _ _ _ x Bus Hwf eq_refl).
  - replace (a_entry_type x) with ENTRY_IOApic by (symmetry; apply Hwf). exact (Hone _ _ _ x IOApic Hwf eq_refl).
  - replace (i_entry_type x) with ENTRY_IOInterrupt by (symmetry; apply Hwf). exact (Hone _ _ _ x IOInterrupt Hwf eq_refl).
  - replace (l_entry_type x) with ENTRY_LocalInterrupt by (symmetry; apply Hwf). exact (Hone _ _ _ x LocalInterrupt Hwf eq_refl).
Qed.
Lemma mp_entries_image m es addr n : Forall conf_entry_wf es → 0 ≤ addr →
  addr + Z.of_nat (length (concat (map conf_entry_image es))) < 2 ^ 32 →
  bytes_at m addr (length (concat (map conf_entry_image es))) = concat (map conf_entry_image es) →
  load_mp_conf_entries (length es + n) m addr = es ++ load_mp_conf_entries n m (addr + Z.of_nat (length (concat (map conf_entry_image es)))).
Proof.
  intros Hwf. revert addr. induction Hwf as [|e es He _ IH]; intros addr H0 Hle Hm; [cbn; by rewrite Z.add_0_r|].
  cbn [map concat] in *. rewrite length_app in *. apply bytes_at_split in Hm as [Hm1 Hm2].
  cbn [length Nat.add load_mp_conf_entries]. rewrite (load_entry m addr e) by (done || lia). cbn [app]. f_equal.
  rewrite IH by (done || lia). do 2 f_equal. lia.
Qed.
Lemma load_entry_unknown m addr : 4 < m addr → load_mp_conf_entry m addr = (None, addr).
Proof.
  intros H. unfold load_mp_conf_entry, ENTRY_Processor, ENTRY_Bus, ENTRY_IOApic, ENTRY_IOInterrupt, ENTRY_LocalInterrupt.
  by rewrite !bool_decide_false by lia.
Qed.
(** An entry of an unknown type hides those after it.  The entries before it are
    loaded; the loop then stays at its address, so that the table has no more
    entries, however many the header announces. *)
Theorem unknown_entry_ends_table m es addr n : Forall conf_entry_wf es → 0 ≤ addr →
  let image := concat (map conf_entry_image es) in
  addr + Z.of_nat (length image) < 2 ^ 32 → bytes_at m addr (length image) = image →
  4 < m (addr + Z.of_nat (length image)) →
  load_mp_conf_entries (length es + n) m addr = es.
Proof.
  intros Hwf H0 image Hle Hm Hu. rewrite mp_entries_image by done. fold image.
  assert (Hnone : ∀ k, load_mp_conf_entries k m (addr + Z.of_nat (length image)) = []).
  { intros k. induction k as [|k IH]; [done|]. cbn [load_mp_conf_entries]. by rewrite load_entry_unknown. }
  rewrite Hnone. apply app_nil_r.
Qed.

(** * The search of the pointer *)

(** The addresses of a range that are looked at. *)
Definition steps (first last align : Z) : nat := Z.to_nat ((last - first + align - 1) / align).
Definition candidates (first last align : Z) : list Z := map (λ i, first + align * Z.of_nat i) (seq 0 (steps first last align)).
Lemma steps_none first last align : 0 < align → last ≤ first → steps first last align = O.
Proof.
  intros Ha Hl. unfold steps. assert ((last - first + align - 1) / align < 1) by (apply Z.div_lt_upper_bound; lia). lia.
Qed.
Lemma steps_S first last align : 0 < align → first < last → steps first last align = S (steps (first + align) last align).
Proof.
  intros Ha Hl. unfold steps. replace (last - first + align - 1) with (last - (first + align) + align - 1 + 1 * align) by lia.
  rewrite Z.div_add by lia. assert (0 ≤ (last - (first + align) + align - 1) / align) by (apply Z.div_pos; lia). lia.
Qed.
Lemma candidates_S first last align : 0 < align → first < last → candidates first last align = first :: candidates (first + align) last align.
Proof.
  intros Ha Hl. unfold candidates. rewrite steps_S by done. cbn [seq map]. f_equal; [lia|].
  rewrite <- fmap_S_seq, <- list_fmap_compose. apply map_ext. intros i. cbn. lia.
Qed.
Lemma search_range_find fuel m sig first last align : 0 < align → 0 ≤ first → last + align ≤ 2 ^ 32 → (steps first last align ≤ fuel)%nat →
  search_range fuel m sig first last align = Done (find (λ a, bool_decide (bytes_at m a (length sig) = sig)) (candidates first last align)).
Proof.
  intros Ha. revert first. induction fuel as [|fuel IH]; intros first H0 H1 Hs; cbn [search_range].
  - destruct (decide (first < last)) as [Hl|Hl]; [rewrite steps_S in Hs by done; lia|].
    rewrite bool_decide_false by done. unfold candidates. by rewrite steps_none by lia.
  - destruct (decide (first < last)) as [Hl|Hl].
    + rewrite bool_decide_true by done. cbn [negb]. rewrite candidates_S by done. cbn [find]. case_bool_decide; [done|].
      rewrite steps_S in Hs by done. unfold PhyAddr32_add_assign. unfold u32. rewrite wrap_id by (unfold in_width; lia). apply IH; lia.
    + rewrite bool_decide_false by done. unfold candidates. by rewrite steps_none by lia.
Qed.

Lemma find_app {A} (f : A → bool) l k : find f (l ++ k) = match find f l with Some x => Some x | None => find f k end.
Proof. induction l as [|x l IH]; [done|]. cbn. by destruct (f x). Qed.

Section laws.
Context `{BL : BytemuckLaws}.
(** C24: where the table is announced.  The search ends on every memory: it looks at each
    16th byte of the two areas, in order, takes the first signature and gives a
    pointer when the sum of its 16 bytes is 0; a pointer whose sum is wrong ends the
    search, even when another one follows. *)
Theorem floating_pointer_search m :
  let seen := candidates 0xF0000 0x100000 16 ++ candidates 0x80000 0x9FFFF 16 in
  MPFloatingPointer_load m = Done (
    match find (λ a, bool_decide (bytes_at m a 4 = MP_SIGNATURE)) seen with
    | Some a => if bool_decide (byte_sum (bytes_at m a 16) = 0) then Some (floating_of (bytes_at m a 16)) else None
    | None => None
    end).
Proof.
  intros seen. unfold MPFloatingPointer_load, MP_RANGES. cbn [locate_struct_in_mem].
  assert (Hfuel : ∀ first last, (first, last) ∈ MP_RANGES → 0 ≤ first ∧ last + 16 ≤ 2 ^ 32 ∧ (steps first last 16 ≤ MP_FUEL)%nat).
  { intros first last [[= -> ->]|[[= -> ->]|[]%not_elem_of_nil]%elem_of_cons]%elem_of_cons; unfold steps, MP_FUEL;
      (split_and!; [lia|lia|apply Nat.leb_le; vm_compute; reflexivity]). }
  assert (Hal : ∀ a, pod_aligned 1 a = true) by (intros a; rewrite pod_aligned_spec, Z.mod_1_r by lia; done).
  destruct (Hfuel 0xF0000 0x100000 ltac:(left)) as (? & ? & ?). destruct (Hfuel 0x80000 0x9FFFF ltac:(right; left)) as (? & ? & ?).
  rewrite !search_range_find by (done || lia). cbn [mbind outcome_bind]. change (length MP_SIGNATURE) with 4%nat. unfold seen. rewrite find_app.
  destruct (find _ (candidates 0xF0000 _ _)) as [a|]; cbn [mbind outcome_bind]; [by rewrite Hal|].
  destruct (find _ (candidates 0x80000 _ _)) as [a|]; cbn [mbind outcome_bind]; [by rewrite Hal|done].
Qed.

Record header_wf (h : MPConfigurationTableHeader) : Prop := {
  wf_signature : length (h_signature h) = 4%nat;
  wf_oem : length (oem_id h) = 8%nat;
  wf_product : length (product_id h) = 12%nat;
  wf_ints : Forall (λ p, in_width p.1 p.2) [(16, base_table_length h); (8, h_spec_rev h); (8, h_chksum h); (32, oem_table_ptr h);
    (16, oem_table_size h); (16, entry_count h); (32, local_apic_addr h); (16, ext_table_len h); (8, ext_table_chksum h); (8, h_reserved h)]
}.
Lemma part_app bs cs off n : (length bs ≤ off)%nat → part (bs ++ cs) off n = part cs (off - length bs) n.
Proof. intros Hl. unfold part. by rewrite drop_app_ge. Qed.
Lemma part_here bs cs n : length bs = n → part (bs ++ cs) 0 n = bs.
Proof. intros Hl. unfold part. rewrite drop_0. by apply take_app_length'. Qed.
Lemma header_of_image h : header_wf h → header_of (header_image h) = h ∧ length (header_image h) = HEADER_SIZE.
Proof.
  intros [H1 H2 H3 Hi]. rewrite !Forall_cons in Hi. destruct h. cbn [h_signature oem_id product_id fst snd base_table_length h_spec_rev
    h_chksum oem_table_ptr oem_table_size entry_count local_apic_addr ext_table_len ext_table_chksum h_reserved] in *. destruct_and!.
  split; [|unfold header_image; cbn [h_signature oem_id product_id base_table_length h_spec_rev
    h_chksum oem_table_ptr oem_table_size entry_count local_apic_addr ext_table_len ext_table_chksum h_reserved];
    rewrite !length_app, !length_le_bytes; unfold HEADER_SIZE; lia].
  unfold header_of, header_image, int_part. cbn [h_signature oem_id product_id base_table_length h_spec_rev
    h_chksum oem_table_ptr oem_table_size entry_count local_apic_addr ext_table_len ext_table_chksum h_reserved].
  f_equal; repeat (rewrite part_app by (rewrite ?length_le_bytes; lia); rewrite ?length_le_bytes, ?H1, ?H2, ?H3; cbn [Nat.sub]);
    rewrite ?part_here by (done || apply length_le_bytes); try done; try (by apply of_le_le_bytes).
  change (part (le_bytes 1 h_reserved0) 0 1) with (le_bytes 1 h_reserved0). by apply of_le_le_bytes.
Qed.

(** C23: loading a table.  When memory holds a pointer, an aligned table of which it is the
    address, the entries that the header counts and a null sum over the length of the
    table, the table is loaded with exactly this header and these entries; with
    another sum there is none. *)
Theorem mp_table_load_image m fp h es : MPFloatingPointer_load m = Done (Some fp) →
  0 < mp_table_ptr fp → mp_table_ptr fp mod 4 = 0 → header_wf h → Forall conf_entry_wf es → entry_count h = Z.of_nat (length es) →
  let image := header_image h ++ concat (map conf_entry_image es) in
  mp_table_ptr fp + Z.of_nat (length image) < 2 ^ 32 → bytes_at m (mp_table_ptr fp) (length image) = image →
  MPTable_load m = Done (
    if bool_decide (byte_sum (bytes_at m (mp_table_ptr fp) (Z.to_nat (base_table_length h))) = 0)
    then Some {| floating_ptr := fp; header := h; entries := es |} else None).
Proof.
  intros Hfp Hptr Hal Hh Hes Hc image Hle Hm. unfold MPTable_load. rewrite Hfp. cbn [mbind outcome_bind].
  rewrite (bool_decide_false (_ = 0)) by lia. rewrite pod_aligned_spec, bool_decide_true by (done || lia). cbn [negb].
  destruct (header_of_image h Hh) as [Hof Hlen]. unfold image in *. rewrite length_app in *. apply bytes_at_split in Hm as [Hm1 Hm2].
  rewrite Hlen in *. rewrite Hm1, Hof, Hc, Nat2Z.id.
  unfold PhyAddr32_add_u32. rewrite Z.min_l by lia. rewrite <- (Nat.add_0_r (length es)), mp_entries_image, app_nil_r by (done || lia).
  unfold verify_chksum. cbn [floating_ptr header]. by case_bool_decide.
Qed.
End laws.

(** A bus or an I/O APIC that the table does not have is a panic, not [None]. *)
Lemma missing_entries t id :
  (∀ b, Bus b ∈ entries t → bus_id b ≠ id) → get_bus_entry_by_id t id = Panicked.
Proof.
  intros Hn. unfold get_bus_entry_by_id. destruct (find _ _) as [e|] eqn:E; [|done].
  apply find_some in E as [Hin He]. destruct e; try done. apply bool_decide_eq_true in He. by destruct (Hn e); [apply list_elem_of_In|].
Qed.

(** * A machine with two processors and an I/O APIC *)

Definition mod_aligned : Bytemuck := {| pod_aligned align a := bool_decide (a mod align = 0) |}.
Lemma mod_aligned_laws : @BytemuckLaws mod_aligned.
Proof. by split. Qed.
Definition with_bytes (a : Z) (bs : list Z) (m : memory) : memory :=
  λ x, if bool_decide (a ≤ x < a + Z.of_nat (length bs)) then nth (Z.to_nat (x - a)) bs 0 else m x.

Definition sample_processor_entry (id flags : Z) : MPProcessorEntry :=
  {| p_entry_type := 0; lapic_id := id; lapic_version := 0x14; p_flags := flags; p_signature := 0xE3; p_family := 6; p_reserved1 := 0;
     p_reserved2 := 0; feature_flags := 0x381; p_reserved3 := replicate 8 0 |}.
Definition sample_io_interrupt (ty mode irq pin : Z) : MPIOInterruptEntry :=
  {| i_entry_type := 3; int_type := ty; int_mode := mode; i_reserved := 0; source_bus_id := 0; source_bus_irq := irq; dest_ioapic_id := 2;
     dest_ioapic_intin := pin |}.
Definition sample_local_interrupt (ty pin : Z) : MPLocalInterruptEntry :=
  {| l_entry_type := 4; l_int_type := ty; l_int_mode := 0; l_reserved := 0; l_source_bus_id := 0; l_source_bus_irq := 0; dest_lapic_id := 0xFF;
     dest_lapic_lintin := pin |}.
Definition sample_entries : list MPConfigurationEntry :=
  [Processor (sample_processor_entry 0 3); Processor (sample_processor_entry 1 1);
   Bus {| b_entry_type := 1; bus_id := 0; bus_type := [0x49; 0x53; 0x41; 0x20; 0x20; 0x20] |};
   IOApic {| a_entry_type := 2; ioapic_id := 2; ioapic_version := 0x11; ioapic_flags := 1; ioapic_addr := 0xFEC00000 |};
   IOInterrupt (sample_io_interrupt 0 0 0 2); IOInterrupt (sample_io_interrupt 0 0xF 9 9);
   LocalInterrupt (sample_local_interrupt 3 0); LocalInterrupt (sample_local_interrupt 1 1)].
Definition sample_header (sum : Z) : MPConfigurationTableHeader :=
  {| h_signature := [0x50; 0x43; 0x4D; 0x50]; base_table_length := 132; h_spec_rev := 4; h_chksum := sum; oem_id := replicate 8 0x20;
     product_id := replicate 12 0x20; oem_table_ptr := 0; oem_table_size := 0; entry_count := 8; local_apic_addr := 0xFEE00000;
     ext_table_len := 0; ext_table_chksum := 0; h_reserved := 0 |}.
Definition sample_image (sum : Z) : list Z := header_image (sample_header sum) ++ concat (map conf_entry_image sample_entries).
Definition sample_sum : Z := 145.
Definition sample_floating : list Z := [0x5F; 0x4D; 0x50; 0x5F; 0x00; 0x10; 0x0F; 0x00; 1; 4; 0x81; 0; 0; 0; 0; 0].
Definition sample_memory : memory := with_bytes 0xF5A40 sample_floating (with_bytes 0xF1000 (sample_image sample_sum) (λ _, 0)).
Definition sample_table : MPTable :=
  {| floating_ptr := floating_of sample_floating; header := sample_header sample_sum; entries := sample_entries |}.

Lemma sample_entries_wf : Forall conf_entry_wf sample_entries.
Proof. repeat (apply Forall_cons; split); [..|apply Forall_nil_2]; vm_compute; intuition discriminate. Qed.
Lemma sample_header_wf : header_wf (sample_header sample_sum).
Proof. split; [done..|]. repeat (apply Forall_cons; split); [..|apply Forall_nil_2]; vm_compute; intuition discriminate. Qed.

Lemma floating_pointer_search_witness : @MPFloatingPointer_load mod_aligned sample_memory = Done (Some (floating_of sample_floating)).
Proof. rewrite (@floating_pointer_search mod_aligned mod_aligned_laws sample_memory). vm_compute. reflexivity. Defined.
Lemma mp_table_load_image_witness : @MPTable_load mod_aligned sample_memory = Done (Some sample_table).
Proof.
  rewrite (@mp_table_load_image mod_aligned mod_aligned_laws sample_memory (floating_of sample_floating) (sample_header sample_sum) sample_entries).
  - vm_compute. reflexivity.
  - vm_compute. reflexivity.
  - vm_compute. reflexivity.
  - vm_compute. reflexivity.
  - apply sample_header_wf.
  - apply sample_entries_wf.
  - vm_compute. reflexivity.
  - vm_compute. reflexivity.
  - vm_compute. reflexivity.
Defined.
(** With the type of the fourth entry changed to 9, only the first three are found. *)
Lemma unknown_entry_ends_table_witness :
  load_mp_conf_entries 8 (with_bytes 0xF105C [9] sample_memory) 0xF102C = take 3 sample_entries.
Proof.
  apply (unknown_entry_ends_table (with_bytes 0xF105C [9] sample_memory) (take 3 sample_entries) 0xF102C 5).
  - apply Forall_take, sample_entries_wf.
  - vm_compute. discriminate.
  - vm_compute. reflexivity.
  - vm_compute. reflexivity.
  - vm_compute. reflexivity.
Defined.
