(* ===== verification/Apic.v ===== *)
(** What the interrupt controllers share (src/x86/apic/local_apic.rs, used by
    io_apic.rs and mp_table.rs too): delivery, polarity and trigger modes, vectors
    and their priorities, the identifier of a processor, and accesses to
    memory-mapped registers. *)

From stdpp Require Import strings.
From S2P Require Import Prelude Addr Bitfield Cpu MpTable.

(** [read_volatile] and [write_volatile] of a 32-bit register at a physical address. *)
Class MmioBus (D : Type) := { mmio_read32 : Z → D → Z * D; mmio_write32 : Z → Z → D → D }.

(** * Modes

    The bits of each constructor; reading bits that no constructor has panics. *)
Inductive DeliveryMode := Fixed | SystemManagementInterrupt | NonMaskableInterrupt | DeliverInit | ExternalInterrupt.
Definition DeliveryMode_bits (x : DeliveryMode) : Z :=
  match x with Fixed => 0 | SystemManagementInterrupt => 2 | NonMaskableInterrupt => 4 | DeliverInit => 5 | ExternalInterrupt => 7 end.
Definition DeliveryMode_of_bits (b : Z) : outcome DeliveryMode :=
  if bool_decide (b = 0) then Done Fixed else if bool_decide (b = 2) then Done SystemManagementInterrupt
  else if bool_decide (b = 4) then Done NonMaskableInterrupt else if bool_decide (b = 5) then Done DeliverInit
  else if bool_decide (b = 7) then Done ExternalInterrupt else Panicked.
Inductive DeliveryStatus := Idle | SendPending.
Definition DeliveryStatus_bits (x : DeliveryStatus) : Z := match x with Idle => 0 | SendPending => 1 end.
Inductive TriggerMode := Edge | Level.
Definition TriggerMode_bits (x : TriggerMode) : Z := match x with Edge => 0 | Level => 1 end.
Inductive PinPolarity := ActiveHigh | ActiveLow.
Definition PinPolarity_bits (x : PinPolarity) : Z := match x with ActiveHigh => 0 | ActiveLow => 1 end.
Inductive DestinationMode := Physical | Logical.
Definition DestinationMode_bits (x : DestinationMode) : Z := match x with Physical => 0 | Logical => 1 end.
Inductive LVTTimerMode := OneShot | Periodic | TSCDeadline.
Definition LVTTimerMode_bits (x : LVTTimerMode) : Z := match x with OneShot => 0 | Periodic => 1 | TSCDeadline => 2 end.

(** [From<MPInterruptType> for DeliveryMode], and of the other two enumerations. *)
Definition DeliveryMode_from_MPInterruptType (value : Z) : DeliveryMode :=
  if bool_decide (value = INT_NonMaskable) then NonMaskableInterrupt
  else if bool_decide (value = INT_SystemManagement) then SystemManagementInterrupt
  else if bool_decide (value = INT_External) then ExternalInterrupt else Fixed.
Definition PinPolarity_from_MPPinPolarity (value : MPPinPolarity) : PinPolarity := match value with MPActiveLow => ActiveLow | _ => ActiveHigh end.
Definition TriggerMode_from_MPTriggerMode (value : MPTriggerMode) : TriggerMode := match value with MPLevel => Level | _ => Edge end.

(** * Vectors *)

(** [InterruptVector] is a byte, of which the high half is the priority class. *)
Definition SPURIOUS_VECTOR : Z := 0xFF.
Definition TIMER_IRQ : Z := 0x20.
Definition relative_priority (v : Z) : Z := Z.land v 0xf.
Definition priority_class (v : Z) : Z := Z.land (Z.shiftr v 4) 0xf.
Definition set_relative_priority (v priority : Z) : outcome Z :=
  rust_assert (bool_decide (priority < 16));;
  Done (Z.lor (shl_w 8 (priority_class v) 4) priority).
Definition set_priority_class (v priority : Z) : outcome Z :=
  rust_assert (bool_decide (priority ≠ 0));;
  rust_assert (bool_decide (priority < 16));;
  Done (Z.lor (shl_w 8 priority 4) (Z.land v 0xf)).

(** [ProcLocalApicID::get]. *)
Definition ProcLocalApicID_get {D} `{Cpu D} (d : D) : outcome Z :=
  match cpu_id 1 d with
  | None => Panicked
  | Some (_, b, _, _) => Done (nth 3 (le_bytes 4 b) 0)
  end.

(** The priorities of a vector.  What is set is what is read, the other half is kept,
    and two classes or priorities that differ give different vectors; the class 0 and
    values above 15 panic. *)
Theorem vector_priorities v p : byte v → 0 ≤ p →
  (p < 16 → ∃ v', set_relative_priority v p = Done v' ∧ byte v' ∧ relative_priority v' = p ∧ priority_class v' = priority_class v)
  ∧ (0 < p < 16 → ∃ v', set_priority_class v p = Done v' ∧ byte v' ∧ priority_class v' = p ∧ relative_priority v' = relative_priority v)
  ∧ (16 ≤ p → set_relative_priority v p = Panicked ∧ set_priority_class v p = Panicked) ∧ set_priority_class v 0 = Panicked
  ∧ v = 16 * priority_class v + relative_priority v.
Proof.
  intros Hv Hp.
  set (rel := λ v p, Z.lor (shl_w 8 (priority_class v) 4) p). set (cls := λ v p, Z.lor (shl_w 8 p 4) (Z.land v 0xf)).
  assert (Hall : Forall (λ v, Forall (λ p,
      (0 ≤ rel v p < 256 ∧ relative_priority (rel v p) = p ∧ priority_class (rel v p) = priority_class v)
      ∧ (0 ≤ cls v p < 256 ∧ priority_class (cls v p) = p ∧ relative_priority (cls v p) = relative_priority v)
      ∧ v = 16 * priority_class v + relative_priority v) (seqZ 0 16)) (seqZ 0 256))
    by (apply (bool_decide_unpack _); vm_compute; exact I).
  rewrite Forall_forall in Hall. specialize (Hall v ltac:(apply elem_of_seqZ; apply Hv)). rewrite Forall_forall in Hall.
  assert (Hc : ∀ q, 0 ≤ q < 16 → q ∈ seqZ 0 16) by (intros q Hq; apply elem_of_seqZ; lia).
  unfold set_relative_priority, set_priority_class. split_and!.
  - intros H. destruct (Hall p (Hc p ltac:(lia))) as ((? & ? & ?) & _). rewrite bool_decide_true by done. by eexists.
  - intros H. destruct (Hall p (Hc p ltac:(lia))) as (_ & (? & ? & ?) & _). rewrite !bool_decide_true by lia. by eexists.
  - intros H. rewrite !(bool_decide_false (p < 16)) by lia. split; [done|]. by rewrite bool_decide_true by lia.
  - done.
  - apply (Hall 0 (Hc 0 ltac:(lia))).
Qed.
Lemma vector_priorities_witness : ∃ v, set_priority_class 0x31 7 = Done v ∧ priority_class v = 7 ∧ relative_priority v = 1.
Proof.
  destruct (vector_priorities 0x31 7) as (_ & H & _); [vm_compute; intuition discriminate|lia|].
  destruct H as (v & H1 & _ & H2 & H3); [lia|]. exists v. split; [exact H1|]. split; [exact H2|exact H3].
Defined.
