(* ===== verification/IoApic.v ===== *)
(** The I/O APIC (src/x86/apic/io_apic.rs): its indexed registers, the redirection of
    its pins, and its setup from the multiprocessor table. *)

From stdpp Require Import strings.
From S2P Require Import Prelude Addr Bitfield Cpu MpTable Apic.

(** * Registers *)

Definition IOApicId : layout := [("", 24); ("io_apic_id", 4); ("", 4)].
Definition IOApicVersion : layout := [("io_apic_version", 8); ("", 8); ("maximum_redirection_entry", 8); ("", 8)].
Definition IOApicArbitration : layout := [("", 24); ("io_apic_arb_id", 4); ("", 4)].
Definition RedTblEntry : layout :=
  [("vector", 8); ("delivery_mode", 3); ("destination_mode", 1); ("delivery_status", 1); ("pin_polarity", 1); ("remote_irr", 1);
   ("trigger_mode", 1); ("masked", 1); ("", 39); ("destination", 8)].
Definition IOAPICID_OFFSET : Z := 0.
Definition IOAPICVER_OFFSET : Z := 1.
Definition IOAPICARB_OFFSET : Z := 2.
Definition IOREDTBL_BASE_OFFSET : Z := 0x10.

Record IOApic := {
  id : Z; base_addr : Z; ioregsel : Z; iowin : Z; mp_int_entries : list MPIOInterruptEntry; i8259_pin : option Z
}.
Definition set_id (a : IOApic) (i : Z) : IOApic :=
  {| id := i; base_addr := base_addr a; ioregsel := ioregsel a; iowin := iowin a; mp_int_entries := mp_int_entries a; i8259_pin := i8259_pin a |}.
Definition set_i8259_pin (a : IOApic) (p : option Z) : IOApic :=
  {| id := id a; base_addr := base_addr a; ioregsel := ioregsel a; iowin := iowin a; mp_int_entries := mp_int_entries a; i8259_pin := p |}.

Section ioapic.
Context {D : Type} `{MM : MmioBus D} `{MB : ModularBitfield}.
Implicit Types (a : IOApic) (d : D).

Definition MMIOApicRegister_read (r : Z) d : Z * D := mmio_read32 r d.
(** Two reads around the write. *)
Definition MMIOApicRegister_write (r data : Z) d : D :=
  let '(_, d) := mmio_read32 r d in
  let d := mmio_write32 r data d in
  let '(_, d) := mmio_read32 r d in d.
Definition read_register a (offset : Z) d : Z * D :=
  let d := MMIOApicRegister_write (ioregsel a) offset d in MMIOApicRegister_read (iowin a) d.
Definition write_register a (offset reg : Z) d : D :=
  let d := MMIOApicRegister_write (ioregsel a) offset d in MMIOApicRegister_write (iowin a) reg d.

(** A redirection entry is a 64-bit word, the high half written first. *)
Definition write_redirection_entry a (pin entry : Z) d : D :=
  let d := MMIOApicRegister_write (ioregsel a) (u8 (u8 (IOREDTBL_BASE_OFFSET + u8 (2 * pin)) + 1)) d in
  let d := MMIOApicRegister_write (iowin a) (Z.land (Z.shiftr entry 32) 0xffffffff) d in
  let d := MMIOApicRegister_write (ioregsel a) (u8 (IOREDTBL_BASE_OFFSET + u8 (2 * pin))) d in
  MMIOApicRegister_write (iowin a) (Z.land entry 0xffffffff) d.
Definition read_redirection_entry a (pin : Z) d : Z * D :=
  let d := MMIOApicRegister_write (ioregsel a) (u8 (IOREDTBL_BASE_OFFSET + u8 (2 * pin))) d in
  let '(entry_lo, d) := MMIOApicRegister_read (iowin a) d in
  let d := MMIOApicRegister_write (ioregsel a) (u8 (u8 (IOREDTBL_BASE_OFFSET + u8 (2 * pin)) + 1)) d in
  let '(entry_hi, d) := MMIOApicRegister_read (iowin a) d in
  (Z.lor entry_lo (u64 (Z.shiftl entry_hi 32)), d).
(** The two halves of an entry, [as_writable]. *)
Definition as_writable (pin entry : Z) : (Z * Z) * (Z * Z) :=
  ((pin, Z.land entry 0xffffffff), (pin, Z.land (Z.shiftr entry 32) 0xffffffff)).
Definition maximum_redirection_entry a d : Z * D :=
  let '(v, d) := read_register a IOAPICVER_OFFSET d in (field IOApicVersion "maximum_redirection_entry" v, d).

(** * Masks *)

Definition set_pin_mask (masked : bool) a (pin : Z) d : outcome D :=
  let '(entry, d) := read_redirection_entry a pin d in
  entry ← with_flag RedTblEntry "masked" masked entry;
  Done (write_redirection_entry a pin entry d).
Definition mask_pin_irq := set_pin_mask true.
Definition unmask_pin_irq := set_pin_mask false.
Definition mask_all a d : outcome D := let '(n, d) := maximum_redirection_entry a d in for_each (range 0 n) (mask_pin_irq a) d.
Definition unmask_all a d : outcome D := let '(n, d) := maximum_redirection_entry a d in for_each (range 0 n) (unmask_pin_irq a) d.
(** An entry that delivers a system management interrupt is left. *)
Definition clear_pin a (pin : Z) d : outcome D :=
  let '(entry, d) := read_redirection_entry a pin d in
  mode ← DeliveryMode_of_bits (field RedTblEntry "delivery_mode" entry);
  match mode with
  | SystemManagementInterrupt => Done d
  | _ =>
      d ← (if negb (flag RedTblEntry "masked" entry) then
             entry ← with_flag RedTblEntry "masked" true entry;
             Done (write_redirection_entry a pin entry d)
           else Done d);
      cleared ← with_flag RedTblEntry "masked" true 0;
      Done (write_redirection_entry a pin cleared d)
  end.

(** * Redirection *)

(** The first pin of a list whose entry passes a test, which may panic. *)
Fixpoint find_pin a (test : Z → outcome bool) (pins : list Z) d : outcome (option Z * D) :=
  match pins with
  | [] => Done (None, d)
  | pin :: pins =>
      let '(entry, d) := read_redirection_entry a pin d in
      ok ← test entry;
      if ok : bool then Done (Some pin, d) else find_pin a test pins d
  end.
(** The destination of the entry is compared, not its vector. *)
Definition get_pin_from_irq a (irq : Z) d : outcome (option Z * D) :=
  let '(n, d) := maximum_redirection_entry a d in
  find_pin a (λ entry, Done (bool_decide (field RedTblEntry "destination" entry = irq))) (range 0 n) d.
Definition is_external_unmasked (entry : Z) : outcome bool :=
  if negb (flag RedTblEntry "masked" entry) then
    mode ← DeliveryMode_of_bits (field RedTblEntry "delivery_mode" entry);
    Done (match mode with ExternalInterrupt => true | _ => false end)
  else Done false.
Definition find_i8259_pin a d : outcome (option Z * D) :=
  let '(n, d) := maximum_redirection_entry a d in find_pin a is_external_unmasked (range 0 n) d.
Definition mask_irq a (irq : Z) d : outcome D :=
  '(pin, d) ← get_pin_from_irq a irq d;
  match pin with Some pin => mask_pin_irq a pin d | None => Done d end.
Definition unmask_irq a (irq : Z) d : outcome D :=
  '(pin, d) ← get_pin_from_irq a irq d;
  match pin with Some pin => unmask_pin_irq a pin d | None => Done d end.

(** The entry that sends a pin to a vector, with the modes of the table if it has the pin. *)
Definition pin_entry (ints : list MPIOInterruptEntry) (pin vector : Z) : outcome Z :=
  match find (λ i, bool_decide (dest_ioapic_intin i = pin)) ints with
  | Some int_entry =>
      e ← with_field RedTblEntry "vector" vector 0;
      e ← with_field RedTblEntry "delivery_mode" (DeliveryMode_bits (DeliveryMode_from_MPInterruptType (int_type int_entry))) e;
      polarity ← MPPinPolarity_of_bits (field MPInterruptFlags "polarity" (int_mode int_entry));
      e ← with_field RedTblEntry "pin_polarity" (PinPolarity_bits (PinPolarity_from_MPPinPolarity polarity)) e;
      trigger ← MPTriggerMode_of_bits (field MPInterruptFlags "trigger_mode" (int_mode int_entry));
      e ← with_field RedTblEntry "trigger_mode" (TriggerMode_bits (TriggerMode_from_MPTriggerMode trigger)) e;
      with_field RedTblEntry "destination_mode" (DestinationMode_bits Physical) e
  | None =>
      e ← with_field RedTblEntry "vector" vector 0;
      e ← with_field RedTblEntry "destination_mode" (DestinationMode_bits Physical) e;
      e ← with_field RedTblEntry "trigger_mode" (TriggerMode_bits Edge) e;
      e ← with_field RedTblEntry "pin_polarity" (PinPolarity_bits ActiveHigh) e;
      with_field RedTblEntry "delivery_mode" (DeliveryMode_bits Fixed) e
  end.
Definition map_pin_to_irq a (pin vector : Z) d : outcome D :=
  e ← pin_entry (mp_int_entries a) pin vector;
  Done (write_redirection_entry a pin e d).
Definition initialize_redtbl a d : outcome D :=
  let '(n, d) := maximum_redirection_entry a d in
  for_each (range 1 (n + 1)) (λ entry d,
    if bool_decide (entry = 2) then map_pin_to_irq a entry 0x20 d else map_pin_to_irq a entry (u8 (entry + 0x20)) d) d.
Definition restore_native_virtual_wire `{Cpu D} a d : outcome D :=
  match i8259_pin a with
  | None => Done d
  | Some pin =>
      e ← with_field RedTblEntry "delivery_mode" (DeliveryMode_bits ExternalInterrupt) 0;
      e ← with_field RedTblEntry "destination_mode" (DestinationMode_bits Physical) e;
      me ← ProcLocalApicID_get d;
      e ← with_field RedTblEntry "destination" me e;
      Done (write_redirection_entry a pin e d)
  end.

(** * Setup *)

(** Recursion on the processor identifiers that are taken. *)
Fixpoint check_ioapic_id (fuel : nat) a (table : MPTable) d : outcome (IOApic * D) :=
  let taken := existsb (λ proc, bool_decide (lapic_id proc = id a)) (get_processors table) in
  '(a, d) ← (
    if taken then match fuel with O => NoFuel | S fuel => check_ioapic_id fuel (set_id a (u8 (id a + 1))) table d end
    else Done (a, d));
  reg ← with_field IOApicId "io_apic_id" (id a) 0;
  Done (a, write_register a IOAPICID_OFFSET reg d).
(** The registry of the initialized I/O APICs, by identifier. *)
Definition register_io_apic (apic : IOApic) (registry : gmap Z IOApic) : gmap Z IOApic := <[id apic := apic]> registry.
Definition registered_io_apic (i : Z) (registry : gmap Z IOApic) : option IOApic := registry !! i.
Definition IOApic_init (fuel : nat) (entry : MPIOApicEntry) (table : MPTable) (registry : gmap Z IOApic) d : outcome (gmap Z IOApic * D) :=
  win ← PhyAddr32_add_usize (ioapic_addr entry) 0x10;
  let io_apic := {| id := ioapic_id entry; base_addr := ioapic_addr entry; ioregsel := ioapic_addr entry; iowin := win;
    mp_int_entries := get_int_to_io_apic table (ioapic_id entry); i8259_pin := None |} in
  '(pin, d) ← find_i8259_pin io_apic d;
  '(io_apic, d) ← check_ioapic_id fuel (set_i8259_pin io_apic pin) table d;
  d ← initialize_redtbl io_apic d;
  d ← unmask_all io_apic d;
  Done (register_io_apic io_apic registry, d).
End ioapic.
