(* ===== verification/IoApicSpec.v ===== *)
(** What the driver of the I/O APIC does to its registers. *)

From stdpp Require Import strings.
From S2P Require Import Prelude Addr Bitfield Cpu MpTable Apic IoApic.

(** * The device

    An index register and a window on the register that it selects.  The version and
    the arbitration register cannot be written, nor the delivery status (bit 12) and
    the remote IRR (bit 14) of a redirection entry. *)
Record ioapic_dev := { dev_base : Z; sel : Z; iregs : Z → Z }.
Definition RO_BITS : Z := 0x5000.
Definition written (r v old : Z) : Z :=
  if bool_decide (r = IOAPICVER_OFFSET) || bool_decide (r = IOAPICARB_OFFSET) then old
  else if bool_decide (IOREDTBL_BASE_OFFSET ≤ r) && Z.even r then Z.lor (Z.ldiff v RO_BITS) (Z.land old RO_BITS) else v.
Definition select (r : Z) (d : ioapic_dev) : ioapic_dev := {| dev_base := dev_base d; sel := r; iregs := iregs d |}.
Definition set_ireg (r v : Z) (d : ioapic_dev) : ioapic_dev :=
  {| dev_base := dev_base d; sel := sel d; iregs := λ r', if bool_decide (r' = r) then written r v (iregs d r) else iregs d r' |}.
#[global] Instance ioapic_bus : MmioBus ioapic_dev := {|
  mmio_read32 p d := (if bool_decide (p = dev_base d) then sel d else if bool_decide (p = dev_base d + 0x10) then iregs d (sel d) else 0, d);
  mmio_write32 p v d :=
    if bool_decide (p = dev_base d) then select (Z.land v 0xff) d
    else if bool_decide (p = dev_base d + 0x10) then set_ireg (sel d) v d else d
|}.
Definition ioapic_wf (d : ioapic_dev) : Prop := ∀ r, in_width 32 (iregs d r).
(** The driver's structure is the one of the device. *)
Definition drives (a : IOApic) (d : ioapic_dev) : Prop := ioregsel a = dev_base d ∧ iowin a = dev_base d + 0x10.
(** The registers of a pin. *)
Definition lo (pin : Z) : Z := 0x10 + 2 * pin.
Definition hi (pin : Z) : Z := 0x11 + 2 * pin.
Definition entry_of_pin (d : ioapic_dev) (pin : Z) : Z := Z.lor (iregs d (lo pin)) (Z.shiftl (iregs d (hi pin)) 32).
Definition last_pin (d : ioapic_dev) : Z := get_ref 16 8 (iregs d IOAPICVER_OFFSET).

Section spec.
Context `{ML : ModularBitfieldLaws}.
Implicit Types (a : IOApic) (d : ioapic_dev).

(** Two states with the same registers; the index may differ. *)
Definition same_regs d d' : Prop := dev_base d' = dev_base d ∧ ∀ r, iregs d' r = iregs d r.
Lemma drives_same a d d' : dev_base d' = dev_base d → drives a d → drives a d'.
Proof. unfold drives. by intros ->. Qed.

Lemma write_select a d r : drives a d → 0 ≤ r < 256 → MMIOApicRegister_write (ioregsel a) r d = select r d.
Proof.
  intros [H1 _] Hr. unfold MMIOApicRegister_write. cbn [mmio_read32 mmio_write32 ioapic_bus]. rewrite H1, bool_decide_true by done.
  change 0xff with (Z.ones 8). by rewrite Z.land_ones, Z.mod_small by (change (2 ^ 8) with 256; lia).
Qed.
Lemma read_window a d : drives a d → MMIOApicRegister_read (iowin a) d = (iregs d (sel d), d).
Proof.
  intros [_ H2]. unfold MMIOApicRegister_read. cbn [mmio_read32 ioapic_bus]. rewrite H2, bool_decide_false, bool_decide_true by lia. done.
Qed.
Lemma write_window a d v : drives a d → MMIOApicRegister_write (iowin a) v d = set_ireg (sel d) v d.
Proof.
  intros [_ H2]. unfold MMIOApicRegister_write. cbn [mmio_read32 mmio_write32 ioapic_bus].
  rewrite H2, bool_decide_false, bool_decide_true by lia. done.
Qed.
Lemma pin_index pin : 0 ≤ pin < 0x78 → u8 (IOREDTBL_BASE_OFFSET + u8 (2 * pin)) = lo pin ∧ u8 (u8 (IOREDTBL_BASE_OFFSET + u8 (2 * pin)) + 1) = hi pin.
Proof.
  intros Hp. unfold u8, IOREDTBL_BASE_OFFSET, lo, hi.
  rewrite !(wrap_id 8 (2 * pin)), !(wrap_id 8 (16 + 2 * pin)), (wrap_id 8 (16 + 2 * pin + 1)) by (unfold in_width; change (2 ^ 8) with 256; lia). lia.
Qed.

Lemma max_entry a d : drives a d → maximum_redirection_entry a d = (last_pin d, select IOAPICVER_OFFSET d).
Proof.
  intros Ha. unfold maximum_redirection_entry, read_register. rewrite write_select by (done || (unfold IOAPICVER_OFFSET; lia)).
  rewrite read_window by done. cbn [select sel iregs]. by rewrite (field_at IOApicVersion "maximum_redirection_entry" 16 8).
Qed.
Lemma read_pin_entry a d pin : drives a d → ioapic_wf d → 0 ≤ pin < 0x78 →
  read_redirection_entry a pin d = (entry_of_pin d pin, select (hi pin) d).
Proof.
  intros Ha Hwf Hp. unfold read_redirection_entry. destruct (pin_index pin Hp) as [-> ->].
  rewrite write_select by (done || (unfold lo; lia)). rewrite read_window by done. cbn beta iota.
  rewrite write_select by (done || (unfold hi; lia)). rewrite read_window by done. unfold entry_of_pin. do 2 f_equal.
  unfold u64. apply wrap_id. specialize (Hwf (hi pin)). destruct Hwf. rewrite Z.shiftl_mul_pow2 by lia. cbn [select iregs sel]. unfold in_width.
  change (2 ^ 64) with (2 ^ 32 * 2 ^ 32). lia.
Qed.
(** Writing an entry: its two registers, and no other. *)
Lemma write_entry a d pin e : drives a d → ioapic_wf d → 0 ≤ pin < 0x78 → in_width 64 e →
  let d' := write_redirection_entry a pin e d in
  dev_base d' = dev_base d ∧ ioapic_wf d' ∧ iregs d' (hi pin) = get_ref 32 32 e
  ∧ iregs d' (lo pin) = Z.lor (Z.ldiff (get_ref 0 32 e) RO_BITS) (Z.land (iregs d (lo pin)) RO_BITS)
  ∧ ∀ r, r ≠ lo pin → r ≠ hi pin → iregs d' r = iregs d r.
Proof.
  intros Ha Hwf Hp He d'. unfold d', write_redirection_entry. destruct (pin_index pin Hp) as [-> ->].
  rewrite (write_select a d) by (done || (unfold hi; lia)). rewrite (write_window a (select (hi pin) d)) by done.
  rewrite (write_select a (set_ireg _ _ _)) by (done || (unfold lo; lia)). rewrite (write_window a (select (lo pin) _)) by done.
  cbn [select set_ireg dev_base sel iregs].
  assert (Hlh : lo pin ≠ hi pin) by (unfold lo, hi; lia).
  assert (Hwl : ∀ v old, written (lo pin) v old = Z.lor (Z.ldiff v RO_BITS) (Z.land old RO_BITS)).
  { intros v old. unfold written, lo. rewrite !bool_decide_false by (unfold IOAPICVER_OFFSET, IOAPICARB_OFFSET; lia).
    rewrite bool_decide_true by (unfold IOREDTBL_BASE_OFFSET; lia). replace (16 + 2 * pin) with (2 * (8 + pin)) by lia. by rewrite Z.even_mul. }
  assert (Hwh : ∀ v old, written (hi pin) v old = v).
  { intros v old. unfold written, hi. rewrite !bool_decide_false by (unfold IOAPICVER_OFFSET, IOAPICARB_OFFSET; lia).
    replace (17 + 2 * pin) with (2 * (8 + pin) + 1) by lia. rewrite Z.even_add, Z.even_mul. by rewrite andb_false_r. }
  assert (E1 : Z.land (Z.shiftr e 32) 0xffffffff = get_ref 32 32 e) by done.
  assert (E2 : Z.land e 0xffffffff = get_ref 0 32 e) by (unfold get_ref; by rewrite Z.shiftr_0_r).
  assert (Hg : ∀ off, 0 ≤ off → in_width 32 (get_ref off 32 e)) by (intros off Ho; apply in_width_land_r; [lia|done]).
  rewrite E1, E2, !Hwl, !Hwh. split_and!; [done| | | |].
  - intros r. cbn [iregs set_ireg select]. rewrite Hwl, Hwh, (bool_decide_false (lo pin = hi pin)) by done.
    case_bool_decide; [|case_bool_decide; [by apply Hg|by apply Hwf]].
    apply in_width_lor; [lia| |apply in_width_land_r; [lia|done]].
    apply in_width_ldiff; [lia|]. by apply Hg.
  - by rewrite (bool_decide_false (hi pin = lo pin)), bool_decide_true by done.
  - rewrite bool_decide_true by done. rewrite bool_decide_false by done. done.
  - intros r Hr1 Hr2. by rewrite !bool_decide_false by done.
Qed.

(** * Masks *)

Lemma testbit_entry d pin j : ioapic_wf d → 0 ≤ j →
  Z.testbit (entry_of_pin d pin) j = if bool_decide (j < 32) then Z.testbit (iregs d (lo pin)) j else Z.testbit (iregs d (hi pin)) (j - 32).
Proof.
  intros Hwf Hj. unfold entry_of_pin. rewrite Z.lor_spec, Z.shiftl_spec by done. case_bool_decide.
  - by rewrite (Z.testbit_neg_r _ (j - 32)), orb_false_r by lia.
  - by rewrite (testbit_above 32 (iregs d (lo pin))) by (apply Hwf || lia).
Qed.
Lemma entry_width d pin : ioapic_wf d → in_width 64 (entry_of_pin d pin).
Proof.
  intros Hwf. apply in_width_testbit; [lia|]. intros j Hj. rewrite testbit_entry, bool_decide_false by (done || lia).
  apply (testbit_above 32); [apply Hwf|lia].
Qed.
(** The mask of a pin is set or cleared, and nothing else changes. *)
Lemma set_pin_mask_spec b a d pin : drives a d → ioapic_wf d → 0 ≤ pin < 0x78 → ∃ d', set_pin_mask b a pin d = Done d'
  ∧ dev_base d' = dev_base d ∧ ioapic_wf d' ∧ iregs d' (lo pin) = put_ref 16 1 (Z.b2z b) (iregs d (lo pin))
  ∧ ∀ r, r ≠ lo pin → iregs d' r = iregs d r.
Proof.
  intros Ha Hwf Hp. unfold set_pin_mask. rewrite read_pin_entry by done. rewrite (with_flag_at RedTblEntry "masked" 16) by done.
  cbn [mbind outcome_bind]. eexists. split; [reflexivity|]. set (e := put_ref _ _ _ _).
  assert (Hv : in_width 1 (Z.b2z b)) by (by destruct b).
  assert (Hbit : ∀ j, 0 ≤ j → Z.testbit e j = if bool_decide (16 ≤ j < 16 + 1) then Z.testbit (Z.b2z b) (j - 16) else Z.testbit (entry_of_pin d pin) j).
  { intros j Hj. unfold e. by rewrite testbit_put by (done || lia). }
  assert (He : in_width 64 e).
  { apply in_width_testbit; [lia|]. intros j Hj. rewrite Hbit, bool_decide_false by lia. apply (testbit_above 64); [by apply entry_width|done]. }
  destruct (write_entry a (select (hi pin) d) pin e) as (H1 & H2 & H3 & H4 & H5); [done..|]. cbn [select dev_base iregs] in *. split_and!; [done|done| |].
  - rewrite H4. apply Z.bits_inj'. intros j Hj. rewrite Z.lor_spec, Z.ldiff_spec, Z.land_spec, testbit_get, testbit_put, Hbit, Z.add_0_l by (done || lia).
    rewrite testbit_entry by done. case_bool_decide as H32; cbn [andb].
    + case_bool_decide as H16; [replace j with 16 by lia; by rewrite andb_false_r, orb_false_r, andb_true_r|].
      destruct (Z.testbit RO_BITS j); by rewrite ?andb_false_r, ?andb_true_r, ?orb_false_r.
    + rewrite (bool_decide_false (16 ≤ j < 17)), (testbit_above 32 (iregs d (lo pin))) by (apply Hwf || lia). done.
  - intros r Hr. destruct (decide (r = hi pin)) as [->|Hne]; [|by apply H5]. rewrite H3. apply Z.bits_inj'. intros j Hj.
    rewrite testbit_get, Hbit by lia. rewrite (bool_decide_false (16 ≤ _ < _)) by lia. rewrite testbit_entry by (done || lia).
    rewrite (bool_decide_false (32 + j < 32)) by lia. replace (32 + j - 32) with j by lia.
    case_bool_decide; [done|]. symmetry. apply (testbit_above 32); [apply Hwf|lia].
Qed.
(** A loop over pins whose body changes the two registers of its pin. *)
Definition pin_step (body : Z → ioapic_dev → outcome ioapic_dev) (a : IOApic) (fl fh : Z → Z → Z) : Prop := ∀ pin d,
  drives a d → ioapic_wf d → 0 ≤ pin < 0x78 → ∃ d', body pin d = Done d' ∧ dev_base d' = dev_base d ∧ ioapic_wf d'
    ∧ iregs d' (lo pin) = fl pin (iregs d (lo pin)) ∧ iregs d' (hi pin) = fh pin (iregs d (hi pin))
    ∧ ∀ r, r ≠ lo pin → r ≠ hi pin → iregs d' r = iregs d r.
Lemma pin_loop body a fl fh x n d : pin_step body a fl fh → drives a d → ioapic_wf d → 0 ≤ x → n ≤ 0x78 →
  ∃ d', for_each (range x n) body d = Done d' ∧ dev_base d' = dev_base d ∧ ioapic_wf d'
  ∧ (∀ pin, x ≤ pin < n → iregs d' (lo pin) = fl pin (iregs d (lo pin)) ∧ iregs d' (hi pin) = fh pin (iregs d (hi pin)))
  ∧ ∀ r, (∀ pin, x ≤ pin < n → r ≠ lo pin ∧ r ≠ hi pin) → iregs d' r = iregs d r.
Proof.
  intros Hbody Ha Hwf Hx Hn.
  destruct (for_each_ind (λ l d', dev_base d' = dev_base d ∧ ioapic_wf d' ∧
    (∀ pin, pin ∈ l → iregs d' (lo pin) = fl pin (iregs d (lo pin)) ∧ iregs d' (hi pin) = fh pin (iregs d (hi pin)))
    ∧ ∀ r, (∀ pin, pin ∈ l → r ≠ lo pin ∧ r ≠ hi pin) → iregs d' r = iregs d r) (range x n) body d) as (d' & Hd & H1 & H2 & H3 & H4).
  - split_and!; [done|done|by intros pin ?%not_elem_of_nil|done].
  - intros l1 pin l2 s El (I1 & I2 & I3 & I4).
    assert (Hin : pin ∈ range x n) by (rewrite El; set_solver). apply elem_of_range in Hin.
    assert (Hnew : ∀ q, q ∈ l1 → q ≠ pin).
    { pose proof (NoDup_range x n) as Hnd. rewrite El in Hnd. apply NoDup_app in Hnd as (_ & Hdis & _). intros q Hq ->. apply (Hdis pin Hq). left. }
    destruct (Hbody pin s) as (s' & Hs & J1 & J2 & J3 & J4 & J5); [by apply (drives_same a d)|done|lia|].
    assert (Hold : iregs s (lo pin) = iregs d (lo pin) ∧ iregs s (hi pin) = iregs d (hi pin)).
    { split; apply I4; intros q Hq; specialize (Hnew q Hq); unfold lo, hi; lia. }
    destruct Hold as [Hold1 Hold2]. exists s'. split_and!; [done|by rewrite J1|done| |].
    + intros q [Hq|Hq]%elem_of_app; [|apply list_elem_of_singleton in Hq as ->; by rewrite J3, J4, Hold1, Hold2].
      specialize (Hnew q Hq). destruct (I3 q Hq). rewrite !J5 by (unfold lo, hi; lia). done.
    + intros r Hr. destruct (Hr pin) as [? ?]; [set_solver|]. rewrite J5 by done. apply I4. intros q Hq. apply Hr. set_solver.
  - exists d'. split_and!; [done|done|done| |].
    + intros pin Hp. apply H3. by apply elem_of_range.
    + intros r Hr. apply H4. intros pin Hp%elem_of_range. by apply Hr.
Qed.
Lemma mask_step b a : pin_step (set_pin_mask b a) a (λ _, put_ref 16 1 (Z.b2z b)) (λ _ x, x).
Proof.
  intros pin d Ha Hwf Hp. destruct (set_pin_mask_spec b a d pin Ha Hwf Hp) as (d' & ? & ? & ? & ? & Ho). exists d'.
  split_and!; [done..| |]; [apply Ho; unfold lo, hi; lia|]. intros r ? _. by apply Ho.
Qed.
(** Masking or unmasking every pin leaves the last one.  The version register gives the
    number of the last pin, and the loop stops before it: the pins below have their
    mask bit set, the last pin and every other register are as they were. *)
Theorem mask_all_spares_last_pin a d : drives a d → ioapic_wf d → last_pin d < 0x78 →
  ∃ d', mask_all a d = Done d'
    ∧ (∀ pin, 0 ≤ pin < last_pin d → iregs d' (lo pin) = Z.lor (iregs d (lo pin)) (Z.shiftl 1 16))
    ∧ iregs d' (lo (last_pin d)) = iregs d (lo (last_pin d))
    ∧ (∀ pin, 0 ≤ pin → iregs d' (hi pin) = iregs d (hi pin)).
Proof.
  intros Ha Hwf Hl. assert (H0 : 0 ≤ last_pin d) by (apply Z.land_nonneg; right; done).
  unfold mask_all. rewrite max_entry by done.
  destruct (pin_loop _ a _ _ 0 (last_pin d) (select IOAPICVER_OFFSET d) (mask_step true a)) as (d' & Hd & _ & _ & H3 & H4); [done..|lia|].
  exists d'. cbn [select iregs] in *. split_and!; [done| | |].
  - intros pin Hp. rewrite (proj1 (H3 pin Hp)). apply Z.bits_inj'. intros j Hj. rewrite testbit_put, Z.lor_spec by (done || lia).
    case_bool_decide as Hb; [replace j with 16 by lia; by rewrite orb_true_r|].
    rewrite Z.shiftl_1_l, Z.pow2_bits_false, orb_false_r by lia. done.
  - apply H4. intros pin Hp. unfold lo, hi. lia.
  - intros pin Hp. destruct (decide (pin < last_pin d)); [by apply H3|]. apply H4. intros q Hq. unfold lo, hi. lia.
Qed.

(** * Redirection *)

(** The modes of the table, which must not be the reserved value. *)
Definition modes_ok (ints : list MPIOInterruptEntry) : Prop :=
  Forall (λ i, get_ref 0 2 (int_mode i) ≠ 2 ∧ get_ref 2 2 (int_mode i) ≠ 2) ints.
(** The low word of the entry of a pin. *)
Definition route (ints : list MPIOInterruptEntry) (pin vector : Z) : Z :=
  match find (λ i, bool_decide (dest_ioapic_intin i = pin)) ints with
  | Some i =>
      vector + 2 ^ 8 * DeliveryMode_bits (DeliveryMode_from_MPInterruptType (int_type i))
        + 2 ^ 13 * Z.b2z (bool_decide (get_ref 0 2 (int_mode i) = 3)) + 2 ^ 15 * Z.b2z (bool_decide (get_ref 2 2 (int_mode i) = 3))
  | None => vector
  end.
Lemma entry_value v m p t : byte v → m ∈ [0; 2; 4; 5; 7] → in_width 1 p → in_width 1 t →
  put_ref 11 1 0 (put_ref 15 1 t (put_ref 13 1 p (put_ref 8 3 m (put_ref 0 8 v 0)))) = v + 2 ^ 8 * m + 2 ^ 13 * p + 2 ^ 15 * t.
Proof.
  intros Hv Hm Hp Ht.
  assert (Hall : Forall (λ v, Forall (λ m, Forall (λ p, Forall (λ t,
      put_ref 11 1 0 (put_ref 15 1 t (put_ref 13 1 p (put_ref 8 3 m (put_ref 0 8 v 0)))) = v + 2 ^ 8 * m + 2 ^ 13 * p + 2 ^ 15 * t)
      (seqZ 0 2)) (seqZ 0 2)) [0; 2; 4; 5; 7]) (seqZ 0 256)) by (apply (bool_decide_unpack _); vm_compute; exact I).
  rewrite Forall_forall in Hall. specialize (Hall v ltac:(apply elem_of_seqZ; apply Hv)). rewrite Forall_forall in Hall. specialize (Hall m Hm).
  rewrite Forall_forall in Hall. specialize (Hall p ltac:(apply elem_of_seqZ; apply Hp)). rewrite Forall_forall in Hall.
  apply (Hall t). apply elem_of_seqZ. apply Ht.
Qed.
Lemma polarity_bits x : get_ref 0 2 x ≠ 2 → ∃ q, MPPinPolarity_of_bits (get_ref 0 2 x) = Done q
  ∧ PinPolarity_bits (PinPolarity_from_MPPinPolarity q) = Z.b2z (bool_decide (get_ref 0 2 x = 3)).
Proof.
  intros H2. assert (Hw : in_width 2 (get_ref 0 2 x)) by (apply in_width_land_r; [lia|done]).
  destruct Hw as [H0 H1]. change (2 ^ 2) with 4 in H1. set (b := get_ref 0 2 x) in *. unfold MPPinPolarity_of_bits.
  assert (b = 0 ∨ b = 1 ∨ b = 3) as [-> | [-> | ->]] by lia; by eexists.
Qed.
Lemma trigger_bits x : get_ref 2 2 x ≠ 2 → ∃ q, MPTriggerMode_of_bits (get_ref 2 2 x) = Done q
  ∧ TriggerMode_bits (TriggerMode_from_MPTriggerMode q) = Z.b2z (bool_decide (get_ref 2 2 x = 3)).
Proof.
  intros H2. assert (Hw : in_width 2 (get_ref 2 2 x)) by (apply in_width_land_r; [lia|done]).
  destruct Hw as [H0 H1]. change (2 ^ 2) with 4 in H1. set (b := get_ref 2 2 x) in *. unfold MPTriggerMode_of_bits.
  assert (b = 0 ∨ b = 1 ∨ b = 3) as [-> | [-> | ->]] by lia; by eexists.
Qed.
Lemma b2z_width b : in_width 1 (Z.b2z b).
Proof. by destruct b. Qed.
Lemma mode_width m : in_width 3 (DeliveryMode_bits m).
Proof. by destruct m. Qed.
Lemma pin_entry_route ints pin vector : modes_ok ints → byte vector → pin_entry ints pin vector = Done (route ints pin vector).
Proof.
  intros Hm Hv. unfold pin_entry, route. rewrite (with_field_at RedTblEntry "vector" 0 8) by done.
  destruct (find _ _) as [i|] eqn:E; cbn [mbind outcome_bind].
  - apply find_some in E as [Hin%list_elem_of_In _]. unfold modes_ok in Hm. rewrite Forall_forall in Hm. destruct (Hm i Hin) as [Hp Ht].
    set (m := DeliveryMode_bits _). assert (Hmode : m ∈ [0; 2; 4; 5; 7]) by (unfold m; destruct (DeliveryMode_from_MPInterruptType _); set_solver).
    rewrite (with_field_at RedTblEntry "delivery_mode" 8 3) by (done || apply mode_width).
    cbn [mbind outcome_bind]. rewrite (field_at MPInterruptFlags "polarity" 0 2), (field_at MPInterruptFlags "trigger_mode" 2 2) by done.
    destruct (polarity_bits _ Hp) as (q & -> & Hq). cbn [mbind outcome_bind]. rewrite Hq.
    rewrite (with_field_at RedTblEntry "pin_polarity" 13 1) by (done || apply b2z_width). cbn [mbind outcome_bind].
    destruct (trigger_bits _ Ht) as (t & -> & Htr). cbn [mbind outcome_bind]. rewrite Htr.
    rewrite (with_field_at RedTblEntry "trigger_mode" 15 1) by (done || apply b2z_width). cbn [mbind outcome_bind].
    rewrite (with_field_at RedTblEntry "destination_mode" 11 1) by done. f_equal.
    apply entry_value; [done|done|apply b2z_width..].
  - rewrite (with_field_at RedTblEntry "destination_mode" 11 1) by done. cbn [mbind outcome_bind].
    rewrite (with_field_at RedTblEntry "trigger_mode" 15 1) by done. cbn [mbind outcome_bind].
    rewrite (with_field_at RedTblEntry "pin_polarity" 13 1) by done. cbn [mbind outcome_bind].
    rewrite (with_field_at RedTblEntry "delivery_mode" 8 3) by done. f_equal.
    assert (Hall : Forall (λ v, put_ref 8 3 0 (put_ref 13 1 0 (put_ref 15 1 0 (put_ref 11 1 0 (put_ref 0 8 v 0)))) = v) (seqZ 0 256))
      by (apply (bool_decide_unpack _); vm_compute; exact I).
    rewrite Forall_forall in Hall. apply Hall, elem_of_seqZ. apply Hv.
Qed.

Lemma route_bits ints pin v : byte v → 0 ≤ route ints pin v < 2 ^ 16 ∧ Z.ldiff (route ints pin v) RO_BITS = route ints pin v.
Proof.
  intros Hv.
  assert (Hall : Forall (λ v, Forall (λ m, Forall (λ p, Forall (λ t,
      0 ≤ v + 2 ^ 8 * m + 2 ^ 13 * p + 2 ^ 15 * t < 2 ^ 16
      ∧ Z.ldiff (v + 2 ^ 8 * m + 2 ^ 13 * p + 2 ^ 15 * t) RO_BITS = v + 2 ^ 8 * m + 2 ^ 13 * p + 2 ^ 15 * t)
      (seqZ 0 2)) (seqZ 0 2)) [0; 2; 4; 5; 7]) (seqZ 0 256)) by (apply (bool_decide_unpack _); vm_compute; exact I).
  rewrite Forall_forall in Hall. specialize (Hall v ltac:(apply elem_of_seqZ; apply Hv)). rewrite Forall_forall in Hall.
  assert (Hb : ∀ b, Z.b2z b ∈ seqZ 0 2) by (intros b; apply elem_of_seqZ, b2z_width). unfold route. destruct (find _ _) as [x|].
  - set (m := DeliveryMode_bits _). assert (Hm : m ∈ [0; 2; 4; 5; 7]) by (unfold m; destruct (DeliveryMode_from_MPInterruptType _); set_solver).
    specialize (Hall m Hm). rewrite Forall_forall in Hall. ospecialize (Hall _ (Hb (bool_decide (get_ref 0 2 (int_mode x) = 3)))).
    rewrite Forall_forall in Hall. apply (Hall _ (Hb _)).
  - specialize (Hall 0 ltac:(left)). rewrite Forall_forall in Hall. ospecialize (Hall 0 _); [by apply elem_of_seqZ|].
    rewrite Forall_forall in Hall. ospecialize (Hall 0 _); [by apply elem_of_seqZ|]. rewrite !Z.mul_0_r, !Z.add_0_r in Hall. done.
Qed.
(** The vector of a pin. *)
Definition vector_of (pin : Z) : Z := if bool_decide (pin = 2) then 0x20 else pin + 0x20.
Lemma redirect_step a : modes_ok (mp_int_entries a) →
  pin_step (λ entry d, if bool_decide (entry = 2) then map_pin_to_irq a entry 0x20 d else map_pin_to_irq a entry (u8 (entry + 0x20)) d) a
    (λ pin old, Z.lor (route (mp_int_entries a) pin (vector_of pin)) (Z.land old RO_BITS)) (λ _ _, 0).
Proof.
  intros Hm pin d Ha Hwf Hp.
  assert (Hv : byte (vector_of pin)) by (unfold vector_of; case_bool_decide; [done|]; unfold byte, in_width; change (2 ^ 8) with 256; lia).
  assert (E : (if bool_decide (pin = 2) then map_pin_to_irq a pin 0x20 d else map_pin_to_irq a pin (u8 (pin + 0x20)) d) = map_pin_to_irq a pin (vector_of pin) d).
  { unfold vector_of in *. case_bool_decide; [done|]. by rewrite (wrap_id 8). }
  rewrite E. unfold map_pin_to_irq. rewrite pin_entry_route by done. cbn [mbind outcome_bind]. eexists. split; [reflexivity|].
  destruct (route_bits (mp_int_entries a) pin _ Hv) as [[Hr0 Hr1] Hro]. set (e := route _ _ _) in *.
  destruct (write_entry a d pin e) as (H1 & H2 & H3 & H4 & H5); [done..|unfold in_width; change (2 ^ 64) with (2 ^ 16 * 2 ^ 48); lia|].
  assert (Elo : get_ref 0 32 e = e).
  { unfold get_ref. rewrite Z.shiftr_0_r, Z.land_ones by lia. apply Z.mod_small. change (2 ^ 32) with (2 ^ 16 * 65536). lia. }
  assert (Ehi : get_ref 32 32 e = 0).
  { unfold get_ref. rewrite Z.shiftr_div_pow2, Z.div_small by (lia || (change (2 ^ 32) with (2 ^ 16 * 65536); lia)). done. }
  split_and!; [done|done| |by rewrite H3|done]. by rewrite H4, Elo, Hro.
Qed.

(** * Setup *)

Lemma find_pin_pure a test f pins d : drives a d → ioapic_wf d → (∀ pin, pin ∈ pins → 0 ≤ pin < 0x78 ∧ test (entry_of_pin d pin) = Done (f pin)) →
  ∃ d', find_pin a test pins d = Done (find f pins, d') ∧ same_regs d d'.
Proof.
  intros Ha Hwf Hp. assert (Hgen : ∀ d1, same_regs d d1 → ∃ d', find_pin a test pins d1 = Done (find f pins, d') ∧ same_regs d d').
  { induction pins as [|pin pins IH]; intros d1 [Hb Hr]; cbn [find_pin find]; [by exists d1|].
    destruct (Hp pin) as [Hpin Ht]; [left|]. rewrite read_pin_entry by (done || (by apply (drives_same a d)) || (intros r; rewrite Hr; apply Hwf)).
    replace (entry_of_pin d1 pin) with (entry_of_pin d pin) by (unfold entry_of_pin; by rewrite !Hr). rewrite Ht. cbn [mbind outcome_bind].
    destruct (f pin); [by eexists|]. apply IH; [|done]. intros q Hq. apply Hp. by right. }
  by apply Hgen.
Qed.
Lemma write_id a d i : drives a d → ioapic_wf d → 0 ≤ i < 16 →
  ∃ reg, with_field IOApicId "io_apic_id" i 0 = Done reg ∧
  let d' := write_register a IOAPICID_OFFSET reg d in
  dev_base d' = dev_base d ∧ ioapic_wf d' ∧ iregs d' 0 = Z.shiftl i 24 ∧ ∀ r, r ≠ 0 → iregs d' r = iregs d r.
Proof.
  intros Ha Hwf Hi. rewrite (with_field_at IOApicId "io_apic_id" 24 4) by done. eexists. split; [reflexivity|].
  unfold write_register. rewrite write_select by (done || (unfold IOAPICID_OFFSET; lia)). rewrite write_window by done.
  assert (E : put_ref 24 4 i 0 = Z.shiftl i 24) by done. rewrite E. cbn [select set_ireg dev_base sel iregs].
  assert (Hw : in_width 32 (Z.shiftl i 24)) by (rewrite Z.shiftl_mul_pow2 by lia; unfold in_width; change (2 ^ 32) with (256 * 2 ^ 24); lia).
  split_and!; [done| |done|].
  - intros r. cbn [iregs set_ireg]. case_bool_decide; [exact Hw|apply Hwf].
  - intros r Hr. by rewrite bool_decide_false.
Qed.
(** The identifier becomes the first one, from the announced one on, that no processor has. *)
Lemma check_ioapic_id_spec k a t d fuel : drives a d → ioapic_wf d → (k ≤ fuel)%nat → 0 ≤ id a → id a + Z.of_nat k < 16 →
  (∀ j, id a ≤ j < id a + Z.of_nat k → j ∈ map lapic_id (get_processors t)) → id a + Z.of_nat k ∉ map lapic_id (get_processors t) →
  ∃ d', check_ioapic_id fuel a t d = Done (set_id a (id a + Z.of_nat k), d') ∧ dev_base d' = dev_base d ∧ ioapic_wf d'
    ∧ iregs d' 0 = Z.shiftl (id a + Z.of_nat k) 24 ∧ ∀ r, r ≠ 0 → iregs d' r = iregs d r.
Proof.
  assert (Htaken : ∀ i, existsb (λ proc, bool_decide (lapic_id proc = i)) (get_processors t) = bool_decide (i ∈ map lapic_id (get_processors t))).
  { intros i. case_bool_decide as Hi.
    - apply existsb_exists. apply list_elem_of_fmap in Hi as (p & -> & Hp%list_elem_of_In). exists p. split; [done|]. by apply bool_decide_eq_true.
    - apply not_true_iff_false. intros (p & Hp%list_elem_of_In & E%bool_decide_eq_true)%existsb_exists. apply Hi.
      apply list_elem_of_fmap. by exists p. }
  revert a fuel. induction k as [|k IH]; intros a fuel Ha Hwf Hk H0 H16 Hin Hout.
  - rewrite Z.add_0_r in *. assert (Es : set_id a (id a) = a) by (by destruct a).
    destruct (write_id a d (id a)) as (reg & Hreg & Hw); [done..|]. exists (write_register a IOAPICID_OFFSET reg d). split; [|done].
    destruct fuel; cbn [check_ioapic_id]; rewrite Htaken, bool_decide_false by done; cbn [mbind outcome_bind]; by rewrite Hreg, Es.
  - destruct fuel as [|fuel]; [lia|]. cbn [check_ioapic_id]. rewrite Htaken, bool_decide_true by (apply Hin; lia).
    unfold u8. rewrite (wrap_id 8) by (unfold in_width; change (2 ^ 8) with 256; lia).
    destruct (IH (set_id a (id a + 1)) fuel) as (d1 & Hd1 & Hb & Hwf1 & Hi & Ho); [done|done|lia|cbn; lia|cbn; lia| | |].
    { intros j Hj. apply Hin. cbn in Hj. lia. }
    { cbn. replace (id a + 1 + Z.of_nat k) with (id a + Z.of_nat (S k)) by lia. done. }
    cbn [id set_id] in *. replace (id a + 1 + Z.of_nat k) with (id a + Z.of_nat (S k)) in * by lia.
    replace (set_id (set_id a (id a + 1)) (id a + Z.of_nat (S k))) with (set_id a (id a + Z.of_nat (S k))) in Hd1 by done.
    rewrite Hd1. cbn [mbind outcome_bind id set_id].
    destruct (write_id (set_id a (id a + Z.of_nat (S k))) d1 (id a + Z.of_nat (S k))) as (reg & Hreg & Hw1 & Hw2 & Hw3 & Hw4);
      [by apply (drives_same _ d)|done|lia|].
    rewrite Hreg. cbn [mbind outcome_bind]. eexists. split; [reflexivity|]. split_and!; [by rewrite Hw1|done|done|].
    intros r Hr. by rewrite Hw4, Ho.
Qed.

(** A device that the table describes: [i] is the first free identifier, and the
    entries of the firmware and the modes of the table are not reserved values. *)
Record setup_ok (e : MPIOApicEntry) (t : MPTable) (d : ioapic_dev) (i : Z) : Prop := {
  setup_base : dev_base d = ioapic_addr e;
  setup_addr : ioapic_addr e + 0x10 < 2 ^ 32;
  setup_wf : ioapic_wf d;
  setup_pins : 0 < last_pin d < 0x77;
  setup_id : 0 ≤ ioapic_id e ≤ i ∧ i < 16;
  setup_taken : ∀ j, ioapic_id e ≤ j < i → j ∈ map lapic_id (get_processors t);
  setup_free : i ∉ map lapic_id (get_processors t);
  setup_modes : modes_ok (get_int_to_io_apic t (ioapic_id e));
  setup_entries : ∀ pin, 0 ≤ pin < last_pin d → Z.testbit (iregs d (lo pin)) 16 = true ∨ get_ref 8 3 (iregs d (lo pin)) ∈ [0; 2; 4; 5; 7]
}.
Definition external (x : Z) : bool := negb (Z.testbit x 16) && bool_decide (get_ref 8 3 x = 7).
Lemma get_ref_entry d pin off w : ioapic_wf d → 0 ≤ off → 0 ≤ w → off + w ≤ 32 → get_ref off w (entry_of_pin d pin) = get_ref off w (iregs d (lo pin)).
Proof.
  intros Hwf Ho Hw Hs. apply Z.bits_inj'. intros j Hj. rewrite !testbit_get by done. case_bool_decide; [|done].
  rewrite testbit_entry, bool_decide_true by (done || lia). done.
Qed.
Lemma external_test d pin : ioapic_wf d →
  Z.testbit (iregs d (lo pin)) 16 = true ∨ get_ref 8 3 (iregs d (lo pin)) ∈ [0; 2; 4; 5; 7] →
  is_external_unmasked (entry_of_pin d pin) = Done (external (iregs d (lo pin))).
Proof.
  intros Hwf Hok. unfold is_external_unmasked, external. rewrite (flag_at RedTblEntry "masked" 16) by (done || lia).
  rewrite (field_at RedTblEntry "delivery_mode" 8 3) by done. rewrite get_ref_entry by (done || lia).
  rewrite testbit_entry, bool_decide_true by (done || lia).
  destruct Hok as [->|Hm]; [done|]. destruct (Z.testbit _ 16); [done|]. cbn [negb andb]. set_unfold in Hm.
  destruct Hm as [-> | [-> | [-> | [-> | [-> | []]]]]]; done.
Qed.
Lemma unmask_route v old : 0 ≤ v < 2 ^ 16 → Z.ldiff v RO_BITS = v →
  Z.ldiff (put_ref 16 1 0 (Z.lor v (Z.land old RO_BITS))) RO_BITS = v ∧ Z.ldiff (Z.lor v (Z.land old RO_BITS)) RO_BITS = v.
Proof.
  intros Hv Hro. assert (H16 : ∀ j, 16 ≤ j → Z.testbit v j = false) by (intros j Hj; by apply (testbit_above 16)).
  assert (Hd : ∀ j, 0 ≤ j → Z.testbit v j && negb (Z.testbit RO_BITS j) = Z.testbit v j).
  { intros j Hj. rewrite <- Hro at 2. by rewrite Z.ldiff_spec. }
  split; apply Z.bits_inj'; intros j Hj; specialize (Hd j Hj); rewrite Z.ldiff_spec; [rewrite testbit_put by (done || lia); case_bool_decide as Hb|];
    rewrite ?Z.lor_spec, ?Z.land_spec.
  - rewrite H16 by lia. by rewrite Z.bits_0.
  - destruct (Z.testbit v j), (Z.testbit RO_BITS j), (Z.testbit old j); done.
  - destruct (Z.testbit v j), (Z.testbit RO_BITS j), (Z.testbit old j); done.
Qed.
Lemma last_pin_same d d' : iregs d' IOAPICVER_OFFSET = iregs d IOAPICVER_OFFSET → last_pin d' = last_pin d.
Proof. unfold last_pin. by intros ->. Qed.

(** C22: what the setup of an I/O APIC does.  It gets the first identifier, from the
    announced one on, that no processor of the table has (other I/O APICs are not looked
    at), and is registered under it with the first of pins 0 to the last but one that the
    firmware had left unmasked for external interrupts (the last pin is not looked at).
    Each pin from 1 to the last is sent to the vector of its number plus 32, pin 2 to 32,
    unmasked, to the processor 0, with the modes of the table.  Pin 0, which the source
    documents as mapped like the others, is not: its entry is what the firmware had, with
    the mask bit cleared. *)
Theorem ioapic_init_routes e t d i registry fuel : setup_ok e t d i → (Z.to_nat (i - ioapic_id e) ≤ fuel)%nat →
  ∃ a d', IOApic_init fuel e t registry d = Done (<[i := a]> registry, d') ∧ id a = i
    ∧ i8259_pin a = find (λ pin, external (iregs d (lo pin))) (range 0 (last_pin d))
    ∧ iregs d' 0 = Z.shiftl i 24
    ∧ (∀ pin, 1 ≤ pin ≤ last_pin d → Z.ldiff (iregs d' (lo pin)) RO_BITS = route (get_int_to_io_apic t (ioapic_id e)) pin (vector_of pin)
         ∧ iregs d' (hi pin) = 0)
    ∧ iregs d' (lo 0) = put_ref 16 1 0 (iregs d (lo 0)) ∧ iregs d' (hi 0) = iregs d (hi 0).
Proof.
  intros [Hb Ha Hwf Hpins Hid Htk Hfr Hmodes Hent] Hfuel. unfold IOApic_init, PhyAddr32_add_usize.
  rewrite bool_decide_true by done. cbn [mbind outcome_bind]. rewrite Z.min_l by lia. set (a0 := {| id := ioapic_id e |}).
  assert (Hdr : drives a0 d) by (split; cbn; lia). unfold find_i8259_pin. rewrite max_entry by done.
  destruct (find_pin_pure a0 is_external_unmasked (λ pin, external (iregs d (lo pin))) (range 0 (last_pin d)) (select IOAPICVER_OFFSET d))
    as (d1 & -> & Hb1 & Hr1); [done|done| |].
  { intros pin Hp%elem_of_range. split; [lia|]. by apply (external_test d), Hent. }
  cbn [mbind outcome_bind select iregs dev_base] in *. set (pin := find _ _).
  assert (Hwf1 : ioapic_wf d1) by (intros r; rewrite Hr1; apply Hwf).
  destruct (check_ioapic_id_spec (Z.to_nat (i - ioapic_id e)) (set_i8259_pin a0 pin) t d1 fuel) as (d2 & Hd2 & Hb2 & Hwf2 & Hi2 & Hr2);
    cbn [id set_i8259_pin a0]; rewrite ?Z2Nat.id by lia; replace (ioapic_id e + (i - ioapic_id e)) with i by lia;
    [by apply (drives_same a0 d)|done|done|lia|lia|done|done|].
  cbn [id set_i8259_pin a0] in Hd2, Hi2. rewrite Z2Nat.id in Hd2, Hi2 by lia. replace (ioapic_id e + (i - ioapic_id e)) with i in Hd2, Hi2 by lia.
  rewrite Hd2. cbn [mbind outcome_bind]. set (a := set_id _ i).
  assert (Hdr2 : drives a d2) by (apply (drives_same a d); [by rewrite Hb2|done]).
  assert (Hl2 : last_pin d2 = last_pin d) by (apply last_pin_same; rewrite Hr2, Hr1 by done; done).
  unfold initialize_redtbl. rewrite max_entry, Hl2 by done.
  destruct (pin_loop _ a _ _ 1 (last_pin d + 1) (select IOAPICVER_OFFSET d2) (redirect_step a Hmodes)) as (d3 & Hd3 & Hb3 & Hwf3 & Hp3 & Hr3);
    [exact Hdr2|exact Hwf2|lia|lia|].
  rewrite Hd3.
  cbn [mbind outcome_bind select iregs dev_base] in *.
  assert (Hl3 : last_pin d3 = last_pin d).
  { rewrite <- Hl2. apply last_pin_same, Hr3. intros q Hq. unfold IOAPICVER_OFFSET, lo, hi. lia. }
  unfold unmask_all. rewrite max_entry, Hl3 by (apply (drives_same a d2); [exact Hb3|exact Hdr2]).
  destruct (pin_loop _ a _ _ 0 (last_pin d) (select IOAPICVER_OFFSET d3) (mask_step false a)) as (d4 & Hd4 & _ & _ & Hp4 & Hr4);
    [apply (drives_same a d2); [exact Hb3|exact Hdr2]|exact Hwf3|lia|lia|].
  unfold unmask_pin_irq. rewrite Hd4. cbn [mbind outcome_bind select iregs dev_base] in *. exists a, d4. split_and!; [done|done|done| | | |].
  - rewrite Hr4, Hr3; [done|..]; intros q Hq; unfold lo, hi; lia.
  - intros q Hq. destruct (Hp3 q) as [Hlo Hhi]; [lia|]. set (v := route _ _ _) in *.
    assert (Hv : byte (vector_of q)) by (unfold vector_of; case_bool_decide; [done|]; unfold byte, in_width; change (2 ^ 8) with 256; lia).
    destruct (route_bits (get_int_to_io_apic t (ioapic_id e)) q _ Hv) as [Hv1 Hv2]. fold v in Hv1, Hv2.
    destruct (unmask_route v (iregs d2 (lo q)) Hv1 Hv2) as [Hu1 Hu2].
    destruct (decide (q < last_pin d)) as [Hlt|Hge].
    + destruct (Hp4 q) as [-> ->]; [lia|]. by rewrite Hlo, Hhi.
    + rewrite !Hr4 by (intros q' Hq'; unfold lo, hi; lia). by rewrite Hlo, Hhi.
  - destruct (Hp4 0) as [-> _]; [lia|]. f_equal. rewrite Hr3, Hr2, Hr1; [done|done|]. intros q Hq. unfold lo, hi. lia.
  - destruct (Hp4 0) as [_ ->]; [lia|]. rewrite Hr3, Hr2, Hr1; [done|done|]. intros q Hq. unfold lo, hi. lia.
Qed.
(** Masking an interrupt after the setup does nothing.  The pin of an interrupt is looked
    up by the destination of its entry, which the setup has set to processor 0: for any
    interrupt but 0 no pin is found, and no register changes. *)
Theorem mask_irq_finds_no_pin a d irq : drives a d → ioapic_wf d → last_pin d < 0x78 → irq ≠ 0 →
  (∀ pin, 0 ≤ pin < last_pin d → iregs d (hi pin) = 0) →
  ∃ d1 d2, mask_irq a irq d = Done d1 ∧ unmask_irq a irq d = Done d2 ∧ same_regs d d1 ∧ same_regs d d2.
Proof.
  intros Ha Hwf Hl Hirq Hhi. unfold mask_irq, unmask_irq, get_pin_from_irq. rewrite max_entry by done.
  destruct (find_pin_pure a (λ entry, Done (bool_decide (field RedTblEntry "destination" entry = irq))) (λ _, false)
    (range 0 (last_pin d)) (select IOAPICVER_OFFSET d)) as (d1 & -> & Hs); [done|done| |].
  - intros pin Hp%elem_of_range. split; [lia|]. rewrite (field_at RedTblEntry "destination" 56 8) by done.
    rewrite bool_decide_false; [done|]. intros <-. apply Hirq. apply Z.bits_inj'. intros j Hj.
    rewrite testbit_get, Z.bits_0 by lia. case_bool_decide; [|done].
    rewrite testbit_entry, bool_decide_false by (done || lia). cbn [select iregs]. by rewrite Hhi, Z.bits_0 by lia.
  - assert (E : find (λ _ : Z, false) (range 0 (last_pin d)) = None) by (by induction (range 0 (last_pin d))).
    rewrite E. cbn [mbind outcome_bind]. by exists d1, d1.
Qed.
End spec.

(** * A device of 24 pins: the first carries the 8259, the others are masked *)

Definition sample_regs (r : Z) : Z :=
  if bool_decide (r = IOAPICVER_OFFSET) then 0x170011 else if bool_decide (r = lo 0) then 0x700
  else if bool_decide (0x10 ≤ r) && Z.even r then 0x10000 else 0.
Definition sample_ioapic : ioapic_dev := {| dev_base := 0xFEC00000; sel := 0; iregs := sample_regs |}.
Definition sample_ioapic_entry : MPIOApicEntry :=
  {| a_entry_type := 2; ioapic_id := 2; ioapic_version := 0x11; ioapic_flags := 1; ioapic_addr := 0xFEC00000 |}.
Definition sample_driver : IOApic :=
  {| id := 2; base_addr := 0xFEC00000; ioregsel := 0xFEC00000; iowin := 0xFEC00010; mp_int_entries := []; i8259_pin := None |}.
Lemma sample_wf : ioapic_wf sample_ioapic.
Proof. intros r. cbn. unfold sample_regs. repeat case_match; done. Qed.
Lemma sample_setup : setup_ok sample_ioapic_entry sample_table sample_ioapic 2.
Proof.
  split; [done|done|apply sample_wf|done|done|cbn; lia| | |].
  - vm_compute. intros H. repeat (apply elem_of_cons in H as [H|H]; [discriminate|]). by apply not_elem_of_nil in H.
  - repeat constructor; vm_compute; discriminate.
  - intros pin Hp. destruct (decide (pin = 0)) as [->|Hne]; [right; vm_compute; repeat constructor|left].
    cbn. unfold sample_regs, lo. rewrite !bool_decide_false by (unfold IOAPICVER_OFFSET; lia). rewrite bool_decide_true by lia.
    replace (16 + 2 * pin) with (2 * (8 + pin)) by lia. by rewrite Z.even_mul.
Qed.
Lemma mask_all_spares_last_pin_witness : ∃ d', @mask_all _ ioapic_bus shifts sample_driver sample_ioapic = Done d'
  ∧ iregs d' (lo 0) = 0x10700 ∧ iregs d' (lo 23) = 0x10000.
Proof.
  destruct (@mask_all_spares_last_pin shifts shifts_laws sample_driver sample_ioapic) as (d' & H1 & H2 & H3 & _).
  - split; reflexivity.
  - apply sample_wf.
  - vm_compute. reflexivity.
  - exists d'. split; [exact H1|]. split; [apply (H2 0); vm_compute; split; [discriminate|reflexivity]|exact H3].
Defined.
(** Pin 1 goes to vector 0x21, pin 2 to 0x20, pin 9 to 0x29 with the modes of the table. *)
Lemma ioapic_init_routes_witness : ∃ a d', @IOApic_init _ ioapic_bus shifts 0 sample_ioapic_entry sample_table ∅ sample_ioapic = Done (<[2 := a]> ∅, d')
  ∧ i8259_pin a = Some 0 ∧ Z.ldiff (iregs d' (lo 1)) RO_BITS = 0x21 ∧ Z.ldiff (iregs d' (lo 2)) RO_BITS = 0x20
  ∧ Z.ldiff (iregs d' (lo 9)) RO_BITS = 0xA029.
Proof.
  destruct (@ioapic_init_routes shifts shifts_laws sample_ioapic_entry sample_table sample_ioapic 2 ∅ 0) as (a & d' & H1 & _ & H3 & _ & H5 & _).
  - apply sample_setup.
  - vm_compute. repeat constructor.
  - exists a, d'. split; [exact H1|]. split; [exact H3|]. split; [apply (H5 1)|split; [apply (H5 2)|apply (H5 9)]];
      vm_compute; split; discriminate.
Defined.
Lemma mask_irq_finds_no_pin_witness : ∃ d', @mask_irq _ ioapic_bus shifts sample_driver 0x29 sample_ioapic = Done d' ∧ same_regs sample_ioapic d'.
Proof.
  destruct (@mask_irq_finds_no_pin shifts shifts_laws sample_driver sample_ioapic 0x29) as (d1 & d2 & H1 & _ & H2 & _).
  - split; reflexivity.
  - apply sample_wf.
  - vm_compute. reflexivity.
  - discriminate.
  - intros pin Hp. change (sample_regs (hi pin) = 0). unfold sample_regs, hi, lo, IOAPICVER_OFFSET. rewrite !bool_decide_false by lia.
    replace (17 + 2 * pin) with (2 * (8 + pin) + 1) by lia. rewrite Z.even_add, Z.even_mul, andb_false_r. reflexivity.
  - exists d1. split; [exact H1|exact H2].
Defined.
