(* ===== verification/LocalApic.v ===== *)
(** The local APIC (src/x86/apic/local_apic.rs): its registers and vector table, the
    interrupts that processors send to each other, its setup from the multiprocessor
    table, and the registry of the initialized ones. *)

From stdpp Require Import strings.
From S2P Require Import Prelude Addr Bitfield Ports Cpu MpTable Apic IoApic.

(** * Registers *)

Definition VERSION_REGISTER : Z := 0x30.
Definition EOI_REGISTER : Z := 0xB0.
Definition ERROR_REGISTER : Z := 0x280.
Definition CMCI_REGISTER : Z := 0x2F0.
Definition ICR_LOW : Z := 0x300.
Definition ICR_HIGH : Z := 0x310.
Definition TIMER_REGISTER : Z := 0x320.
Definition THERMAL_MON_REGISTER : Z := 0x330.
Definition PERF_COUNT_REGISTER : Z := 0x340.
Definition LINT0_REGISTER : Z := 0x350.
Definition LINT1_REGISTER : Z := 0x360.
Definition LVT_ERR_REGISTER : Z := 0x370.
Definition SVR : Z := 0xF0.
(** [Add<LocalAPICRegisterOffset> for PhyAddr32]: the sum saturates. *)
Definition register_addr (base offset : Z) : Z := Z.min (base + offset) (2 ^ 32 - 1).

Definition LocalAPICVersionRegister : layout :=
  [("version", 8); ("", 8); ("max_lvt_entry", 8); ("eoi_broadcast_suppr", 1); ("", 7)].
Definition LocalAPICSpuriousVectorRegister : layout :=
  [("vector", 8); ("soft_enable", 1); ("focus_proc_checking", 1); ("", 2); ("eoi_broadcast_suppr", 1); ("", 19)].
Definition LVTCMCIEntry : layout :=
  [("vector", 8); ("delivery_mode", 3); ("", 1); ("delivery_status", 1); ("", 3); ("masked", 1); ("", 15)].
Definition LVTTimerEntry : layout :=
  [("vector", 8); ("delivery_mode", 3); ("", 1); ("delivery_status", 1); ("", 3); ("masked", 1); ("timer_mode", 2); ("", 13)].
Definition LVTThermalMonitorEntry : layout :=
  [("vector", 8); ("delivery_mode", 3); ("", 1); ("delivery_status", 1); ("", 3); ("masked", 1); ("", 15)].
Definition LVTPerformanceCounterEntry : layout :=
  [("vector", 8); ("delivery_mode", 3); ("", 1); ("delivery_status", 1); ("", 3); ("masked", 1); ("", 15)].
Definition LVTLINTEntry : layout :=
  [("vector", 8); ("delivery_mode", 3); ("", 1); ("delivery_status", 1); ("pin_polarity", 1); ("remote_irr", 1); ("trigger_mode", 1);
   ("masked", 1); ("", 15)].
Definition LVTErrorEntry : layout :=
  [("vector", 8); ("", 4); ("delivery_status", 1); ("", 3); ("masked", 1); ("", 15)].
Definition LocalAPICErrorRegister : layout :=
  [("send_chksum_error", 1); ("receive_chksum_error", 1); ("send_accept_error", 1); ("receive_accept_error", 1); ("redirectable_ipi", 1);
   ("send_illegal_vector", 1); ("received_illegal_vector", 1); ("illegal_register_address", 1); ("", 24)].
Definition LocalAPICInterruptCmdRegister : layout :=
  [("vector", 8); ("delivery_mode", 3); ("destination_mode", 1); ("delivery_status", 1); ("", 1); ("level", 1); ("trigger_mode", 1); ("", 2);
   ("destination_shorthand", 2); ("", 36); ("destination", 8)].

(** A chain of [with_] calls. *)
Fixpoint with_fields `{ModularBitfield} (l : layout) (fs : list (string * Z)) (x : Z) : outcome Z :=
  match fs with
  | [] => Done x
  | (name, v) :: fs => x ← with_field l name v x; with_fields l fs x
  end.

(** * Interprocessor interrupts *)

Inductive IPIDeliveryMode := IPIFixed | IPILowestPriority | IPISystemManagement | IPINonMaskable | IPIInit | IPIStartUp.
Definition IPIDeliveryMode_bits (x : IPIDeliveryMode) : Z :=
  match x with IPIFixed => 0 | IPILowestPriority => 1 | IPISystemManagement => 2 | IPINonMaskable => 4 | IPIInit => 5 | IPIStartUp => 6 end.
Inductive IPILevel := DeAssert | Assert.
Definition IPILevel_bits (x : IPILevel) : Z := match x with DeAssert => 0 | Assert => 1 end.
Inductive IPIDestinationShorthand := NoShorthand | SelfInt | AllProcs | AllButSelf.
Definition IPIDestinationShorthand_bits (x : IPIDestinationShorthand) : Z :=
  match x with NoShorthand => 0 | SelfInt => 1 | AllProcs => 2 | AllButSelf => 3 end.
Record IPI := {
  ipi_vector : Z; ipi_delivery_mode : IPIDeliveryMode; ipi_destination_mode : DestinationMode; ipi_level : IPILevel;
  ipi_trigger_mode : TriggerMode; ipi_destination_shorthand : IPIDestinationShorthand; ipi_destination : Z
}.
Definition std_int (vector : Z) (destination_shorthand : IPIDestinationShorthand) (destination : Z) : IPI :=
  {| ipi_vector := vector; ipi_delivery_mode := IPIFixed; ipi_destination_mode := Physical; ipi_level := Assert; ipi_trigger_mode := Edge;
     ipi_destination_shorthand := destination_shorthand; ipi_destination := destination |}.
Definition broadcast_std_int (vector : Z) : IPI :=
  {| ipi_vector := vector; ipi_delivery_mode := IPIFixed; ipi_destination_mode := Physical; ipi_level := Assert; ipi_trigger_mode := Edge;
     ipi_destination_shorthand := AllProcs; ipi_destination := 0 |}.
Definition broadcast_others_std_int (vector : Z) : IPI :=
  {| ipi_vector := vector; ipi_delivery_mode := IPIFixed; ipi_destination_mode := Physical; ipi_level := Assert; ipi_trigger_mode := Edge;
     ipi_destination_shorthand := AllButSelf; ipi_destination := 0 |}.
Definition nmi (destination : Z) : IPI :=
  {| ipi_vector := 0; ipi_delivery_mode := IPINonMaskable; ipi_destination_mode := Physical; ipi_level := Assert; ipi_trigger_mode := Edge;
     ipi_destination_shorthand := NoShorthand; ipi_destination := destination |}.
Definition broadcast_nmi : IPI :=
  {| ipi_vector := 0; ipi_delivery_mode := IPIFixed; ipi_destination_mode := Physical; ipi_level := Assert; ipi_trigger_mode := Edge;
     ipi_destination_shorthand := AllProcs; ipi_destination := 0 |}.
Definition init_proc (destination : Z) : IPI :=
  {| ipi_vector := 0; ipi_delivery_mode := IPIInit; ipi_destination_mode := Physical; ipi_level := Assert; ipi_trigger_mode := Edge;
     ipi_destination_shorthand := NoShorthand; ipi_destination := destination |}.
Definition init_others : IPI :=
  {| ipi_vector := 0; ipi_delivery_mode := IPIInit; ipi_destination_mode := Physical; ipi_level := Assert; ipi_trigger_mode := Edge;
     ipi_destination_shorthand := AllButSelf; ipi_destination := 0 |}.

(** * The structure *)

Record ApicLVT := { cmci : Z; timer : Z; thermal_mon : Z; perf_count : Z; lint0 : Z; lint1 : Z; lvt_error : Z }.
Definition ApicLVT_default : ApicLVT := {| cmci := 0; timer := 0; thermal_mon := 0; perf_count := 0; lint0 := 0; lint1 := 0; lvt_error := 0 |}.
Definition set_lint0 (v : Z) (l : ApicLVT) : ApicLVT :=
  {| cmci := cmci l; timer := timer l; thermal_mon := thermal_mon l; perf_count := perf_count l; lint0 := v; lint1 := lint1 l;
     lvt_error := lvt_error l |}.
Inductive APICOperatingMode := PICMode | VirtualWire | SymmetricIO.
Record LocalAPIC := {
  apic_id : Z; msr_register : Z; version_register : Z; lvt : ApicLVT; svr : Z; mp_table : MPTable; operating_mode : APICOperatingMode;
  interrupt_cmd : Z
}.
Definition set_msr_register (v : Z) (a : LocalAPIC) : LocalAPIC :=
  {| apic_id := apic_id a; msr_register := v; version_register := version_register a; lvt := lvt a; svr := svr a; mp_table := mp_table a;
     operating_mode := operating_mode a; interrupt_cmd := interrupt_cmd a |}.
Definition set_version_register (v : Z) (a : LocalAPIC) : LocalAPIC :=
  {| apic_id := apic_id a; msr_register := msr_register a; version_register := v; lvt := lvt a; svr := svr a; mp_table := mp_table a;
     operating_mode := operating_mode a; interrupt_cmd := interrupt_cmd a |}.
Definition set_lvt (v : ApicLVT) (a : LocalAPIC) : LocalAPIC :=
  {| apic_id := apic_id a; msr_register := msr_register a; version_register := version_register a; lvt := v; svr := svr a;
     mp_table := mp_table a; operating_mode := operating_mode a; interrupt_cmd := interrupt_cmd a |}.
Definition set_svr (v : Z) (a : LocalAPIC) : LocalAPIC :=
  {| apic_id := apic_id a; msr_register := msr_register a; version_register := version_register a; lvt := lvt a; svr := v;
     mp_table := mp_table a; operating_mode := operating_mode a; interrupt_cmd := interrupt_cmd a |}.
Definition set_operating_mode (v : APICOperatingMode) (a : LocalAPIC) : LocalAPIC :=
  {| apic_id := apic_id a; msr_register := msr_register a; version_register := version_register a; lvt := lvt a; svr := svr a;
     mp_table := mp_table a; operating_mode := v; interrupt_cmd := interrupt_cmd a |}.

Section lapic.
Context {D : Type} `{MM : MmioBus D} `{PB : PortBus D} `{CP : Cpu D} `{MB : ModularBitfield}.
Implicit Types (a : LocalAPIC) (d : D).

(** * Register accesses *)

Definition read_reg a (register : Z) d : Z * D := mmio_read32 (register_addr (apic_register_base (msr_register a)) register) d.
Definition write_reg a (offset value : Z) d : D :=
  let '(_, d) := read_reg a offset d in
  let d := mmio_write32 (register_addr (apic_register_base (msr_register a)) offset) value d in
  let '(_, d) := read_reg a offset d in d.
Definition load_version_register a d : LocalAPIC * D :=
  let '(v, d) := read_reg a VERSION_REGISTER d in (set_version_register v a, d).
Definition update_lvt a d : LocalAPIC * D :=
  let '(v_cmci, d) := read_reg a CMCI_REGISTER d in
  let '(v_timer, d) := read_reg a TIMER_REGISTER d in
  let '(v_thermal_mon, d) := read_reg a THERMAL_MON_REGISTER d in
  let '(v_perf_count, d) := read_reg a PERF_COUNT_REGISTER d in
  let '(v_lint0, d) := read_reg a LINT0_REGISTER d in
  let '(v_lint1, d) := read_reg a LINT1_REGISTER d in
  let '(v_error, d) := read_reg a LVT_ERR_REGISTER d in
  (set_lvt {| cmci := v_cmci; timer := v_timer; thermal_mon := v_thermal_mon; perf_count := v_perf_count; lint0 := v_lint0; lint1 := v_lint1;
     lvt_error := v_error |} a, d).
Definition write_lvt a d : D :=
  let d := write_reg a CMCI_REGISTER (cmci (lvt a)) d in
  let d := write_reg a TIMER_REGISTER (timer (lvt a)) d in
  let d := write_reg a THERMAL_MON_REGISTER (thermal_mon (lvt a)) d in
  let d := write_reg a PERF_COUNT_REGISTER (perf_count (lvt a)) d in
  let d := write_reg a LINT0_REGISTER (lint0 (lvt a)) d in
  let d := write_reg a LINT1_REGISTER (lint1 (lvt a)) d in
  write_reg a LVT_ERR_REGISTER (lvt_error (lvt a)) d.
Definition send_eoi a d : D := write_reg a EOI_REGISTER 0 d.
Definition read_error_register a d : Z * D :=
  let d := write_reg a ERROR_REGISTER 0 d in read_reg a ERROR_REGISTER d.

(** * Enabling *)

Definition soft_disable_apic a d : outcome (LocalAPIC * D) :=
  v ← with_flag LocalAPICSpuriousVectorRegister "soft_enable" false (svr a);
  let a := set_svr v a in Done (a, write_reg a SVR (svr a) d).
Definition soft_enable_apic a d : outcome (LocalAPIC * D) :=
  v ← with_flag LocalAPICSpuriousVectorRegister "soft_enable" true (svr a);
  let a := set_svr v a in Done (a, write_reg a SVR (svr a) d).
Definition disable_apic a d : outcome (LocalAPIC * D) :=
  '(v, d) ← global_disable (msr_register a) d; Done (set_msr_register v a, d).
Definition enable_apic a d : outcome (LocalAPIC * D) :=
  '(v, d) ← global_enable (msr_register a) d; Done (set_msr_register v a, d).
Definition set_spurious_vector a d : outcome (LocalAPIC * D) :=
  v ← with_flag LocalAPICSpuriousVectorRegister "soft_enable" true 0;
  v ← with_field LocalAPICSpuriousVectorRegister "vector" SPURIOUS_VECTOR v;
  let a := set_svr v a in Done (a, write_reg a SVR (svr a) d).

(** * The local vector table *)

(** The modes of the two pins, from the interrupts that the table connects to them. *)
Definition lint_modes a (v_lint0 v_lint1 : Z) : outcome (Z * Z) :=
  match get_local_int_connected_to_pin (mp_table a) (apic_id a) LINTIN_0, get_local_int_connected_to_pin (mp_table a) (apic_id a) LINTIN_1 with
  | Some lintin0_int, Some lintin1_int =>
      if bool_decide (l_int_type lintin0_int = INT_External) && bool_decide (l_int_type lintin1_int = INT_NonMaskable) then
        v_lint0 ← with_field LVTLINTEntry "delivery_mode" (DeliveryMode_bits ExternalInterrupt) v_lint0;
        v_lint1 ← with_field LVTLINTEntry "delivery_mode" (DeliveryMode_bits NonMaskableInterrupt) v_lint1;
        Done (v_lint0, v_lint1)
      else if bool_decide (l_int_type lintin0_int = INT_Vectored) && bool_decide (l_int_type lintin1_int = INT_NonMaskable) then
        v_lint1 ← with_field LVTLINTEntry "delivery_mode" (DeliveryMode_bits NonMaskableInterrupt) v_lint1;
        Done (v_lint0, v_lint1)
      else if bool_decide (l_int_type lintin0_int = INT_NonMaskable) && bool_decide (l_int_type lintin1_int = INT_External) then
        v_lint0 ← with_field LVTLINTEntry "delivery_mode" (DeliveryMode_bits NonMaskableInterrupt) v_lint0;
        v_lint1 ← with_field LVTLINTEntry "delivery_mode" (DeliveryMode_bits ExternalInterrupt) v_lint1;
        Done (v_lint0, v_lint1)
      else Done (v_lint0, v_lint1)
  | _, _ => Done (v_lint0, v_lint1)
  end.
Definition load_lvt a d : outcome (LocalAPIC * D) :=
  v_cmci ← with_fields LVTCMCIEntry [("delivery_mode", DeliveryMode_bits Fixed); ("masked", 1); ("vector", 0xF8)] 0;
  v_lint0 ← with_fields LVTLINTEntry [("delivery_mode", DeliveryMode_bits ExternalInterrupt); ("pin_polarity", PinPolarity_bits ActiveHigh);
    ("trigger_mode", TriggerMode_bits Edge); ("masked", 1); ("vector", 0xFC)] 0;
  v_lint1 ← with_fields LVTLINTEntry [("delivery_mode", DeliveryMode_bits NonMaskableInterrupt); ("pin_polarity", PinPolarity_bits ActiveHigh);
    ("trigger_mode", TriggerMode_bits Edge); ("masked", 1); ("vector", 0xFD)] 0;
  '(v_lint0, v_lint1) ← lint_modes a v_lint0 v_lint1;
  v_error ← with_fields LVTErrorEntry [("masked", 1); ("vector", 0xFE)] 0;
  v_perf_count ← with_fields LVTPerformanceCounterEntry [("delivery_mode", DeliveryMode_bits Fixed); ("masked", 1); ("vector", 0xFB)] 0;
  v_thermal_mon ← with_fields LVTThermalMonitorEntry [("delivery_mode", DeliveryMode_bits Fixed); ("masked", 1); ("vector", 0xFA)] 0;
  v_timer ← with_fields LVTTimerEntry [("delivery_mode", DeliveryMode_bits Fixed); ("timer_mode", LVTTimerMode_bits Periodic); ("masked", 1);
    ("vector", 0xF9)] 0;
  let a := set_lvt {| cmci := v_cmci; timer := v_timer; thermal_mon := v_thermal_mon; perf_count := v_perf_count; lint0 := v_lint0;
    lint1 := v_lint1; lvt_error := v_error |} a in
  Done (a, write_lvt a d).

(** * Interrupts between processors *)

(** The high half first: the write of the low half sends the message. *)
Definition dispatch_ipi a (ipi : IPI) d : outcome D :=
  icr ← with_fields LocalAPICInterruptCmdRegister
    [("vector", ipi_vector ipi); ("delivery_mode", IPIDeliveryMode_bits (ipi_delivery_mode ipi));
     ("destination_mode", DestinationMode_bits (ipi_destination_mode ipi)); ("level", IPILevel_bits (ipi_level ipi));
     ("trigger_mode", TriggerMode_bits (ipi_trigger_mode ipi));
     ("destination_shorthand", IPIDestinationShorthand_bits (ipi_destination_shorthand ipi)); ("destination", ipi_destination ipi)] 0;
  let d := write_reg a ICR_HIGH (Z.land (Z.shiftr icr 32) 0xffffffff) d in
  Done (write_reg a ICR_LOW (Z.land icr 0xffffffff) d).

(** * Operating modes *)

Definition is_bsp a : bool := flag Ia32ApicBase "is_bsp" (msr_register a).
Definition switch_to_virtual_wire_mode a d : outcome (LocalAPIC * D) :=
  if is_bsp a then
    v ← with_fields LVTLINTEntry [("delivery_mode", DeliveryMode_bits ExternalInterrupt); ("pin_polarity", PinPolarity_bits ActiveHigh);
      ("trigger_mode", TriggerMode_bits Edge); ("masked", 0); ("vector", 0)] 0;
    let a := set_lvt (set_lint0 v (lvt a)) a in
    let d := write_lvt a d in
    Done (set_operating_mode VirtualWire a, d)
  else Done (a, d).
Definition switch_to_pic_mode a d : D :=
  if imcr_present (mp_table a) then let d := outb IMCR_ADDR 0x70 d in outb IMCR_DATA 0 d else d.
(** The operating mode is left. *)
Definition switch_from_pic_mode a d : D :=
  if imcr_present (mp_table a) then let d := outb IMCR_ADDR 0x70 d in outb IMCR_DATA 1 d else d.
Definition disconnect_apic a d : outcome (LocalAPIC * D) :=
  if imcr_present (mp_table a) then
    let d := switch_to_pic_mode a d in Done (set_operating_mode PICMode a, d)
  else
    '(a, d) ← switch_to_virtual_wire_mode a d; Done (set_operating_mode VirtualWire a, d).

(** * Setup *)

(** More identifiers than the processors can take. *)
Definition IOAPIC_FUEL : nat := 256.
Fixpoint init_io_apics (es : list MPIOApicEntry) (table : MPTable) (registry : gmap Z IOApic) d : outcome (gmap Z IOApic * D) :=
  match es with
  | [] => Done (registry, d)
  | e :: es => '(registry, d) ← IOApic_init IOAPIC_FUEL e table registry d; init_io_apics es table registry d
  end.
(** The memory holds the multiprocessor table; the registry is the one of the I/O APICs.
    [Err] leaves the interrupts as they are then: disabled. *)
Definition LocalAPIC_init `{BM : Bytemuck} (m : memory) (registry : gmap Z IOApic) d : outcome (result LocalAPIC unit * gmap Z IOApic * D) :=
  let was_disabled := interrupts_disabled d in
  let d := disable_interrupts d in
  t ← MPTable_load m;
  match t with
  | None => Done (Err (), registry, d)
  | Some table =>
      let mode := if imcr_present table then PICMode else VirtualWire in
      me ← ProcLocalApicID_get d;
      msr ← Ia32ApicBase_read d;
      match msr with
      | None => Done (Err (), registry, d)
      | Some msr =>
          let a := {| apic_id := me; msr_register := msr; version_register := 0; lvt := ApicLVT_default; svr := 0; mp_table := table;
            operating_mode := mode; interrupt_cmd := 0 |} in
          let d := switch_from_pic_mode a d in
          let '(a, d) := load_version_register a d in
          '(a, d) ← load_lvt a d;
          '(a, d) ← set_spurious_vector a d;
          '(registry, d) ← (if is_bsp a then init_io_apics (get_io_apic table) table registry d else Done (registry, d));
          let d := if negb was_disabled then enable_interrupts d else d in
          Done (Ok a, registry, d)
      end
  end.
(** [local_apic]: the one of the current processor, set up at the first call. *)
Definition local_apic `{BM : Bytemuck} (m : memory) (apics : gmap Z LocalAPIC) (registry : gmap Z IOApic) d :
    outcome (option LocalAPIC * gmap Z LocalAPIC * gmap Z IOApic * D) :=
  me ← ProcLocalApicID_get d;
  match apics !! me with
  | Some lapic => Done (Some lapic, apics, registry, d)
  | None =>
      '(r, registry, d) ← LocalAPIC_init m registry d;
      match r with
      | Err _ => Done (None, apics, registry, d)
      | Ok lapic =>
          let apics := <[me := lapic]> apics in
          me ← ProcLocalApicID_get d;
          lapic ← unwrap (apics !! me);
          Done (Some lapic, apics, registry, d)
      end
  end.
End lapic.
