(* ===== verification/LocalApicSpec.v ===== *)
(** What the driver of the local APIC does: the vector table it loads, the messages it
    sends to other processors, and its setup. *)

From stdpp Require Import strings.
From S2P Require Import Prelude Addr Bitfield Ports Cpu MpTable Apic IoApic LocalApic.

(** * A processor and its local APIC

    The registers are at offsets of a base.  The write of the low half of the command
    register sends a message, the write of the error register latches the errors since
    the last one, the version cannot be written, nor the delivery status (bit 12) and
    the remote IRR (bit 14) of an entry of the vector table. *)
Record machine := {
  m_base : Z; m_regs : Z → Z; m_errors : Z; m_eois : nat; m_sent : list Z; m_ports : list (Z * Z); m_if : bool; m_msr : Z; m_id : Z
}.
Definition LVT_RO : Z := 0x5000.
Definition LVT_REGISTERS : list Z :=
  [CMCI_REGISTER; TIMER_REGISTER; THERMAL_MON_REGISTER; PERF_COUNT_REGISTER; LINT0_REGISTER; LINT1_REGISTER; LVT_ERR_REGISTER].
Definition stored (r v old : Z) : Z :=
  if bool_decide (r = VERSION_REGISTER) then old
  else if bool_decide (r ∈ LVT_REGISTERS) then Z.lor (Z.ldiff v LVT_RO) (Z.land old LVT_RO) else v.
Definition set_mreg (r v : Z) (d : machine) : machine :=
  {| m_base := m_base d; m_regs := λ r', if bool_decide (r' = r) then v else m_regs d r'; m_errors := m_errors d; m_eois := m_eois d;
     m_sent := m_sent d; m_ports := m_ports d; m_if := m_if d; m_msr := m_msr d; m_id := m_id d |}.
Definition set_if (b : bool) (d : machine) : machine :=
  {| m_base := m_base d; m_regs := m_regs d; m_errors := m_errors d; m_eois := m_eois d; m_sent := m_sent d; m_ports := m_ports d;
     m_if := b; m_msr := m_msr d; m_id := m_id d |}.
Definition add_port (p v : Z) (d : machine) : machine :=
  {| m_base := m_base d; m_regs := m_regs d; m_errors := m_errors d; m_eois := m_eois d; m_sent := m_sent d; m_ports := m_ports d ++ [(p, v)];
     m_if := m_if d; m_msr := m_msr d; m_id := m_id d |}.
Definition add_sent (msg : Z) (d : machine) : machine :=
  {| m_base := m_base d; m_regs := m_regs d; m_errors := m_errors d; m_eois := m_eois d; m_sent := m_sent d ++ [msg]; m_ports := m_ports d;
     m_if := m_if d; m_msr := m_msr d; m_id := m_id d |}.
Definition mwrite (r v : Z) (d : machine) : machine :=
  if bool_decide (r = ICR_LOW) then set_mreg r v (add_sent (v + 2 ^ 32 * m_regs d ICR_HIGH) d)
  else if bool_decide (r = EOI_REGISTER) then
    {| m_base := m_base d; m_regs := m_regs d; m_errors := m_errors d; m_eois := S (m_eois d); m_sent := m_sent d; m_ports := m_ports d;
       m_if := m_if d; m_msr := m_msr d; m_id := m_id d |}
  else if bool_decide (r = ERROR_REGISTER) then
    {| m_base := m_base d; m_regs := λ r', if bool_decide (r' = r) then m_errors d else m_regs d r'; m_errors := 0; m_eois := m_eois d;
       m_sent := m_sent d; m_ports := m_ports d; m_if := m_if d; m_msr := m_msr d; m_id := m_id d |}
  else set_mreg r (stored r v (m_regs d r)) d.
#[global] Instance machine_mmio : MmioBus machine := {|
  mmio_read32 p d := (m_regs d (p - m_base d), d);
  mmio_write32 p v d := mwrite (p - m_base d) v d
|}.
#[global] Instance machine_ports : PortBus machine := {|
  out_port _ p v d := add_port p v d;
  in_port _ _ d := (0, d)
|}.
(** A processor with the APIC base register, whose identifier is in leaf 1. *)
#[global] Instance machine_cpu : Cpu machine := {|
  cpuid a _ d :=
    if bool_decide (a = 0) then (0x16, 0x756E6547, 0x6C65746E, 0x49656E69)
    else if bool_decide (a = 1) then (0x000506E3, Z.shiftl (m_id d) 24, 0x7FFAFBBF, 0xBFEBFBFF)
    else (0, 0, 0, 0);
  ecx_left _ := 0;
  id_flag_flips _ := true;
  flags_reg d := if m_if d then 0x202 else 0x2;
  cli d := set_if false d;
  sti d := set_if true d;
  rdmsr r d := if bool_decide (r = IA32_APIC_BASE) then Done (Z.land (Z.shiftr (m_msr d) 32) 0xffffffff, Z.land (m_msr d) 0xffffffff) else Faulted;
  wrmsr _ _ _ d := Done d;
  read_cr _ _ := 0;
  write_cr _ _ d := d
|}.

(** The fields of a chain of [with_] calls, on numbers. *)
Fixpoint with_ref (l : layout) (fs : list (string * Z)) (x : Z) : option Z :=
  match fs with
  | [] => Some x
  | (name, v) :: fs =>
      match place l name with
      | Some (off, w) => if bool_decide (in_width w v) then with_ref l fs (put_ref off w v x) else None
      | None => None
      end
  end.
Section spec.
Context `{ML : ModularBitfieldLaws}.
Implicit Types (a : LocalAPIC) (d : machine).

Lemma with_fields_ref l fs x y : widths_ok l = true → with_ref l fs x = Some y → with_fields l fs x = Done y.
Proof.
  intros Hl. revert x. induction fs as [|[name v] fs IH]; intros x; cbn [with_ref with_fields]; [by intros [= ->]|].
  destruct (place l name) as [[off w]|] eqn:Hp; [|done]. case_bool_decide as Hv; [|done]. intros Hr.
  rewrite (with_field_at l name off w) by done. cbn [mbind outcome_bind]. by apply IH.
Qed.

(** * Register accesses *)

(** The driver's structure is the one of the machine. *)
Definition drives_lapic a d : Prop := apic_register_base (msr_register a) = m_base d ∧ m_base d + 0x400 ≤ 2 ^ 32.
Lemma drives_lapic_same a a' d d' : msr_register a' = msr_register a → m_base d' = m_base d → drives_lapic a d → drives_lapic a' d'.
Proof. unfold drives_lapic. by intros -> ->. Qed.
Lemma read_reg_at a d r : drives_lapic a d → 0 ≤ r < 0x400 → read_reg a r d = (m_regs d r, d).
Proof.
  intros [Hb Hm] Hr. unfold read_reg, register_addr. rewrite Hb, Z.min_l by lia. cbn. do 2 f_equal. lia.
Qed.
Lemma mwrite_base r v d : m_base (mwrite r v d) = m_base d.
Proof. unfold mwrite. by repeat case_bool_decide. Qed.
Lemma write_reg_at a d r v : drives_lapic a d → 0 ≤ r < 0x400 → write_reg a r v d = mwrite r v d.
Proof.
  intros Ha Hr. unfold write_reg. rewrite read_reg_at by done. destruct Ha as [Hb Hm].
  assert (E : mmio_write32 (register_addr (apic_register_base (msr_register a)) r) v d = mwrite r v d).
  { cbn. unfold register_addr. rewrite Hb, Z.min_l by lia. f_equal. lia. }
  rewrite E, read_reg_at; [done| |done]. apply (drives_lapic_same a a d); [done|apply mwrite_base|done].
Qed.

(** * The local vector table *)

(** The registers that [write_lvt] leaves. *)
Definition lvt_values (l : ApicLVT) : list (Z * Z) :=
  [(CMCI_REGISTER, cmci l); (TIMER_REGISTER, timer l); (THERMAL_MON_REGISTER, thermal_mon l); (PERF_COUNT_REGISTER, perf_count l);
   (LINT0_REGISTER, lint0 l); (LINT1_REGISTER, lint1 l); (LVT_ERR_REGISTER, lvt_error l)].
Lemma write_lvt_regs a d : drives_lapic a d → write_lvt a d = fold_left (λ d '(r, v), mwrite r v d) (lvt_values (lvt a)) d.
Proof.
  intros Ha. unfold write_lvt. rewrite (write_reg_at a d) by done.
  assert (Hs : ∀ r v d0, drives_lapic a d0 → drives_lapic a (mwrite r v d0)).
  { intros r v d0. apply drives_lapic_same; [done|apply mwrite_base]. }
  by rewrite !write_reg_at by (repeat apply Hs; done).
Qed.
(** Nothing but the registers changes. *)
Definition same_but_regs d d' : Prop :=
  m_base d' = m_base d ∧ m_errors d' = m_errors d ∧ m_eois d' = m_eois d ∧ m_sent d' = m_sent d ∧ m_ports d' = m_ports d ∧ m_if d' = m_if d
  ∧ m_msr d' = m_msr d ∧ m_id d' = m_id d.
Lemma mwrite_lvt r v d : r ∈ LVT_REGISTERS → mwrite r v d = set_mreg r (Z.lor (Z.ldiff v LVT_RO) (Z.land (m_regs d r) LVT_RO)) d.
Proof.
  intros Hr. unfold mwrite, stored. rewrite (bool_decide_true (r ∈ LVT_REGISTERS)) by done.
  assert (Hne : Forall (λ r, r ≠ ICR_LOW ∧ r ≠ EOI_REGISTER ∧ r ≠ ERROR_REGISTER ∧ r ≠ VERSION_REGISTER) LVT_REGISTERS)
    by (apply (bool_decide_unpack _); vm_compute; exact I).
  rewrite Forall_forall in Hne. destruct (Hne r Hr) as (? & ? & ? & ?). by rewrite !bool_decide_false by done.
Qed.
Lemma write_regs (vs : list (Z * Z)) d : NoDup vs.*1 → (∀ r, r ∈ vs.*1 → r ∈ LVT_REGISTERS) →
  let d' := fold_left (λ d '(r, v), mwrite r v d) vs d in
  same_but_regs d d'
  ∧ (∀ r v, (r, v) ∈ vs → m_regs d' r = Z.lor (Z.ldiff v LVT_RO) (Z.land (m_regs d r) LVT_RO))
  ∧ (∀ r, r ∉ vs.*1 → m_regs d' r = m_regs d r).
Proof.
  revert d. induction vs as [|[r v] vs IH]; intros d Hnd Hin; cbn [fold_left].
  - split_and!; [done|by intros r v ?%not_elem_of_nil|done].
  - cbn [fmap list_fmap fst] in Hnd, Hin. apply NoDup_cons in Hnd as [Hr Hnd]. rewrite mwrite_lvt by (apply Hin; left).
    destruct (IH (set_mreg r (Z.lor (Z.ldiff v LVT_RO) (Z.land (m_regs d r) LVT_RO)) d)) as (H1 & H2 & H3); [done|intros q Hq; apply Hin; by right|].
    split_and!.
    + unfold same_but_regs in *. naive_solver.
    + intros q w [[= -> ->]|Hq]%elem_of_cons; [rewrite H3 by done; cbn [set_mreg m_regs]; by rewrite bool_decide_true|].
      rewrite (H2 q w Hq). cbn [set_mreg m_regs]. rewrite bool_decide_false; [done|]. intros ->. apply Hr.
      apply list_elem_of_fmap. by exists (r, w).
    + intros q Hq. cbn [fmap list_fmap fst] in Hq. apply not_elem_of_cons in Hq as [Hq1 Hq2]. rewrite H3 by done. cbn [set_mreg m_regs].
      by rewrite bool_decide_false.
Qed.
Lemma write_lvt_loads a d : drives_lapic a d → let d' := write_lvt a d in
  same_but_regs d d'
  ∧ (∀ r v, (r, v) ∈ lvt_values (lvt a) → m_regs d' r = Z.lor (Z.ldiff v LVT_RO) (Z.land (m_regs d r) LVT_RO))
  ∧ (∀ r, r ∉ LVT_REGISTERS → m_regs d' r = m_regs d r).
Proof.
  intros Ha d'. unfold d'. rewrite write_lvt_regs by done. apply write_regs; [|done].
  change ((lvt_values (lvt a)).*1) with LVT_REGISTERS. apply (bool_decide_unpack _). vm_compute. exact I.
Qed.

(** The modes that the table gives to the pins. *)
Definition swapped (t : MPTable) (i : Z) : bool :=
  match get_local_int_connected_to_pin t i LINTIN_0, get_local_int_connected_to_pin t i LINTIN_1 with
  | Some x, Some y => bool_decide (l_int_type x = INT_NonMaskable) && bool_decide (l_int_type y = INT_External)
  | _, _ => false
  end.
Definition lvt_of (swap : bool) : ApicLVT :=
  {| cmci := 0x100F8; timer := 0x300F9; thermal_mon := 0x100FA; perf_count := 0x100FB; lint0 := if swap then 0x104FC else 0x107FC;
     lint1 := if swap then 0x107FD else 0x104FD; lvt_error := 0x100FE |}.
Lemma lint_modes_value a : lint_modes a 0x107FC 0x104FD = Done (lint0 (lvt_of (swapped (mp_table a) (apic_id a))), lint1 (lvt_of (swapped (mp_table a) (apic_id a)))).
Proof.
  unfold lint_modes, swapped. destruct (get_local_int_connected_to_pin _ _ LINTIN_0) as [x|]; [|done].
  destruct (get_local_int_connected_to_pin _ _ LINTIN_1) as [y|]; [|done]. set (tx := l_int_type x). set (ty := l_int_type y).
  assert (Hw : ∀ m v, with_field LVTLINTEntry "delivery_mode" (DeliveryMode_bits m) v = Done (put_ref 8 3 (DeliveryMode_bits m) v)).
  { intros m v. apply with_field_at; [done|done|by destruct m]. }
  rewrite !Hw. repeat (case_bool_decide; cbn [andb]); try done; unfold INT_External, INT_NonMaskable, INT_Vectored in *; congruence.
Qed.
Lemma load_lvt_value a d : load_lvt a d = Done (set_lvt (lvt_of (swapped (mp_table a) (apic_id a))) a, write_lvt (set_lvt (lvt_of (swapped (mp_table a) (apic_id a))) a) d).
Proof.
  unfold load_lvt.
  rewrite (with_fields_ref LVTCMCIEntry [_; _; ("vector", 0xF8)] 0 0x100F8), (with_fields_ref LVTLINTEntry [_; _; _; _; ("vector", 0xFC)] 0 0x107FC),
    (with_fields_ref LVTLINTEntry [_; _; _; _; ("vector", 0xFD)] 0 0x104FD), (with_fields_ref LVTErrorEntry _ _ 0x100FE),
    (with_fields_ref LVTPerformanceCounterEntry [_; _; ("vector", 0xFB)] 0 0x100FB),
    (with_fields_ref LVTThermalMonitorEntry [_; _; ("vector", 0xFA)] 0 0x100FA),
    (with_fields_ref LVTTimerEntry _ _ 0x300F9) by (vm_compute; reflexivity).
  cbn [mbind outcome_bind]. rewrite lint_modes_value. done.
Qed.
(** The vector table after the setup.  Every source has its own vector, from 0xF8 to
    0xFE, in the highest priority class, and is masked; the timer is periodic; pin 0
    delivers the interrupts of the 8259 and pin 1 the non-maskable ones, or the other way
    round where the firmware says so.  No other register changes. *)
Theorem lvt_after_load a d : drives_lapic a d → ∃ a' d', load_lvt a d = Done (a', d')
  ∧ (∀ r v, (r, v) ∈ lvt_values (lvt_of (swapped (mp_table a) (apic_id a))) → Z.ldiff (m_regs d' r) LVT_RO = v ∧ Z.testbit (m_regs d' r) 16 = true)
  ∧ (∀ r, r ∉ LVT_REGISTERS → m_regs d' r = m_regs d r) ∧ same_but_regs d d'
  ∧ NoDup (map (λ rv, get_ref 0 8 rv.2) (lvt_values (lvt a'))) ∧ Forall (λ rv, priority_class (get_ref 0 8 rv.2) = 15) (lvt_values (lvt a')).
Proof.
  intros Ha. rewrite load_lvt_value. set (sw := swapped _ _). eexists _, _. split; [reflexivity|].
  destruct (write_lvt_loads (set_lvt (lvt_of sw) a) d) as (H1 & H2 & H3); [by apply (drives_lapic_same a _ d)|].
  cbn [lvt set_lvt] in H2. split_and!; [|exact H3|exact H1|destruct sw; apply (bool_decide_unpack _); vm_compute; exact I..].
  intros r v Hin. rewrite (H2 r v Hin).
  assert (Hv : Forall (λ rv : Z * Z, Z.ldiff rv.2 LVT_RO = rv.2 ∧ Z.testbit rv.2 16 = true) (lvt_values (lvt_of sw)))
    by (destruct sw; apply (bool_decide_unpack _); vm_compute; exact I).
  rewrite Forall_forall in Hv. destruct (Hv _ Hin) as [E Hm]. cbn [snd] in E, Hm. rewrite E. split.
  - apply Z.bits_inj'. intros j Hj. rewrite Z.ldiff_spec, Z.lor_spec, Z.land_spec. rewrite <- E at 2. rewrite Z.ldiff_spec.
    destruct (Z.testbit v j), (Z.testbit LVT_RO j), (Z.testbit (m_regs d r) j); done.
  - by rewrite Z.lor_spec, Hm.
Qed.

(** * Interrupts between processors *)

(** What a processor receives of a message with a physical destination that another
    one, or itself, has sent: the delivery mode and the vector. *)
Definition received (sender msg p : Z) : option (Z * Z) :=
  let shorthand := get_ref 18 2 msg in
  let dest := get_ref 56 8 msg in
  let target :=
    if bool_decide (shorthand = 0) then bool_decide (get_ref 11 1 msg = 0) && (bool_decide (dest = ALL_LAPIC) || bool_decide (p = dest))
    else if bool_decide (shorthand = 1) then bool_decide (p = sender)
    else if bool_decide (shorthand = 2) then true else bool_decide (p ≠ sender) in
  if target then Some (get_ref 8 3 msg, get_ref 0 8 msg) else None.
Definition targets (ipi : IPI) (sender p : Z) : bool :=
  match ipi_destination_shorthand ipi with
  | NoShorthand => bool_decide (ipi_destination ipi = ALL_LAPIC) || bool_decide (p = ipi_destination ipi)
  | SelfInt => bool_decide (p = sender)
  | AllProcs => true
  | AllButSelf => bool_decide (p ≠ sender)
  end.
Definition icr_of (ipi : IPI) : Z :=
  put_ref 56 8 (ipi_destination ipi) (put_ref 18 2 (IPIDestinationShorthand_bits (ipi_destination_shorthand ipi))
    (put_ref 15 1 (TriggerMode_bits (ipi_trigger_mode ipi)) (put_ref 14 1 (IPILevel_bits (ipi_level ipi))
      (put_ref 11 1 (DestinationMode_bits (ipi_destination_mode ipi)) (put_ref 8 3 (IPIDeliveryMode_bits (ipi_delivery_mode ipi))
        (put_ref 0 8 (ipi_vector ipi) 0)))))).
Lemma ipi_widths ipi : in_width 3 (IPIDeliveryMode_bits (ipi_delivery_mode ipi)) ∧ in_width 1 (DestinationMode_bits (ipi_destination_mode ipi))
  ∧ in_width 1 (IPILevel_bits (ipi_level ipi)) ∧ in_width 1 (TriggerMode_bits (ipi_trigger_mode ipi))
  ∧ in_width 2 (IPIDestinationShorthand_bits (ipi_destination_shorthand ipi)).
Proof. by destruct ipi as [? [] [] [] [] [] ?]. Qed.
Lemma in_width_put n off w v x : 0 ≤ n → 0 ≤ off → 0 ≤ w → off + w ≤ n → in_width w v → in_width n x → in_width n (put_ref off w v x).
Proof.
  intros Hn Ho Hw Hs Hv Hx. apply in_width_testbit; [done|]. intros j Hj. rewrite testbit_put, bool_decide_false by (done || lia).
  by apply (testbit_above n).
Qed.
Lemma icr_width ipi : byte (ipi_vector ipi) → byte (ipi_destination ipi) → in_width 64 (icr_of ipi).
Proof. intros Hv Hd. destruct (ipi_widths ipi) as (? & ? & ? & ? & ?). unfold icr_of. repeat (apply in_width_put; [lia..|done|]). done. Qed.
Lemma word_halves x : in_width 64 x → Z.land x 0xffffffff + 2 ^ 32 * Z.land (Z.shiftr x 32) 0xffffffff = x.
Proof.
  intros [H0 H1]. change 0xffffffff with (Z.ones 32). rewrite !Z.land_ones, Z.shiftr_div_pow2 by lia.
  rewrite (Z.mod_small (x / 2 ^ 32)); [pose proof (Z.div_mod x (2 ^ 32) ltac:(lia)); lia|].
  split; [apply Z.div_pos; lia|]. apply Z.div_lt_upper_bound; [lia|]. change (2 ^ 32 * 2 ^ 32) with (2 ^ 64). done.
Qed.
Lemma dispatch_ipi_value a ipi d : byte (ipi_vector ipi) → byte (ipi_destination ipi) →
  dispatch_ipi a ipi d = Done (write_reg a ICR_LOW (Z.land (icr_of ipi) 0xffffffff) (write_reg a ICR_HIGH (Z.land (Z.shiftr (icr_of ipi) 32) 0xffffffff) d)).
Proof.
  intros Hv Hd. destruct (ipi_widths ipi) as (? & ? & ? & ? & ?). unfold dispatch_ipi.
  rewrite (with_fields_ref LocalAPICInterruptCmdRegister _ 0 (icr_of ipi)); [done|done|]. cbn [with_ref].
  change (place LocalAPICInterruptCmdRegister "vector") with (Some (0, 8)). change (place LocalAPICInterruptCmdRegister "delivery_mode") with (Some (8, 3)).
  change (place LocalAPICInterruptCmdRegister "destination_mode") with (Some (11, 1)). change (place LocalAPICInterruptCmdRegister "level") with (Some (14, 1)).
  change (place LocalAPICInterruptCmdRegister "trigger_mode") with (Some (15, 1)).
  change (place LocalAPICInterruptCmdRegister "destination_shorthand") with (Some (18, 2)).
  change (place LocalAPICInterruptCmdRegister "destination") with (Some (56, 8)). cbn beta iota. by rewrite !bool_decide_true by done.
Qed.
Lemma received_icr ipi sender p : byte (ipi_vector ipi) → byte (ipi_destination ipi) → ipi_destination_mode ipi = Physical →
  received sender (icr_of ipi) p = if targets ipi sender p then Some (IPIDeliveryMode_bits (ipi_delivery_mode ipi), ipi_vector ipi) else None.
Proof.
  intros Hv Hd Hphy. destruct (ipi_widths ipi) as (? & ? & ? & ? & ?). unfold received, icr_of, targets.
  rewrite (get_put_same 56 8) by (done || lia).
  rewrite !(get_put_other 56 8), !(get_put_same 18 2), !(get_put_other 18 2), !(get_put_other 15 1), !(get_put_other 14 1),
    (get_put_same 11 1), !(get_put_other 11 1), !(get_put_same 8 3), !(get_put_other 8 3), (get_put_same 0 8) by (done || lia).
  rewrite Hphy. by destruct (ipi_destination_shorthand ipi).
Qed.
(** A request, sent: the message and what the others receive of it. *)
Definition delivers (ipi : IPI) (what : Z → Z → option (Z * Z)) : Prop := ∀ a d, drives_lapic a d →
  ∃ d' msg, dispatch_ipi a ipi d = Done d' ∧ m_sent d' = m_sent d ++ [msg] ∧ (∀ sender p, received sender msg p = what sender p)
    ∧ (∀ r, r ≠ ICR_LOW → r ≠ ICR_HIGH → m_regs d' r = m_regs d r).
Lemma dispatch_delivers ipi : byte (ipi_vector ipi) → byte (ipi_destination ipi) → ipi_destination_mode ipi = Physical →
  delivers ipi (λ sender p, if targets ipi sender p then Some (IPIDeliveryMode_bits (ipi_delivery_mode ipi), ipi_vector ipi) else None).
Proof.
  intros Hv Hd Hphy a d Ha. rewrite dispatch_ipi_value by done. eexists _, (icr_of ipi). split; [reflexivity|].
  rewrite (write_reg_at a d) by done.
  rewrite write_reg_at by (done || (apply (drives_lapic_same a a d); [done|apply mwrite_base|done])).
  split_and!; [|intros sender p; by apply received_icr|].
  - change (m_sent d ++ [Z.land (icr_of ipi) 0xffffffff + 2 ^ 32 * Z.land (Z.shiftr (icr_of ipi) 32) 0xffffffff] = m_sent d ++ [icr_of ipi]).
    by rewrite word_halves by (by apply icr_width).
  - intros r H1 H2. cbn [mwrite]. unfold mwrite. change (bool_decide (ICR_LOW = ICR_LOW)) with true. cbn beta iota. cbn [set_mreg m_regs add_sent].
    rewrite (bool_decide_false (r = ICR_LOW)) by done. change (bool_decide (ICR_HIGH = ICR_LOW)) with false. cbn beta iota.
    change (bool_decide (ICR_HIGH = EOI_REGISTER)) with false. change (bool_decide (ICR_HIGH = ERROR_REGISTER)) with false. cbn beta iota.
    cbn [set_mreg m_regs]. by rewrite (bool_decide_false (r = ICR_HIGH)).
Qed.
(** C21: sending an interrupt.  One message is sent, complete: the high half of the command
    register is there when the write of the low half sends it.  It reaches the processors
    that the destination or its shorthand names, with the mode and vector of the request. *)
Theorem dispatch_ipi_delivers ipi a d : drives_lapic a d → byte (ipi_vector ipi) → byte (ipi_destination ipi) → ipi_destination_mode ipi = Physical →
  ∃ d' msg, dispatch_ipi a ipi d = Done d' ∧ m_sent d' = m_sent d ++ [msg]
    ∧ (∀ sender p, received sender msg p = if targets ipi sender p then Some (IPIDeliveryMode_bits (ipi_delivery_mode ipi), ipi_vector ipi) else None)
    ∧ (∀ r, r ≠ ICR_LOW → r ≠ ICR_HIGH → m_regs d' r = m_regs d r).
Proof. intros Ha Hv Hd Hphy. by apply dispatch_delivers. Qed.
(** The requests that the driver can make.  Each one reaches whom it names, but the
    broadcast of a non-maskable interrupt is sent as a fixed interrupt of vector 0. *)
Theorem ipi_requests v dest : byte v → byte dest → dest ≠ ALL_LAPIC →
  delivers (broadcast_std_int v) (λ _ _, Some (0, v))
  ∧ delivers (broadcast_others_std_int v) (λ sender p, if bool_decide (p ≠ sender) then Some (0, v) else None)
  ∧ delivers (std_int v NoShorthand dest) (λ _ p, if bool_decide (p = dest) then Some (0, v) else None)
  ∧ delivers (nmi dest) (λ _ p, if bool_decide (p = dest) then Some (4, 0) else None)
  ∧ delivers (init_proc dest) (λ _ p, if bool_decide (p = dest) then Some (5, 0) else None)
  ∧ delivers init_others (λ sender p, if bool_decide (p ≠ sender) then Some (5, 0) else None)
  ∧ delivers broadcast_nmi (λ _ _, Some (0, 0)).
Proof.
  intros Hv Hd Hne.
  assert (Hstep : ∀ ipi what, byte (ipi_vector ipi) → byte (ipi_destination ipi) → ipi_destination_mode ipi = Physical →
    (∀ sender p, (if targets ipi sender p then Some (IPIDeliveryMode_bits (ipi_delivery_mode ipi), ipi_vector ipi) else None) = what sender p) → delivers ipi what).
  { intros ipi what H1 H2 H3 H4 a d Ha. destruct (dispatch_delivers ipi H1 H2 H3 a d Ha) as (d' & msg & ? & ? & Hr & ?).
    exists d', msg. split_and!; [done..| |done]. intros sender p. by rewrite Hr, H4. }
  split_and!; (apply Hstep; [done..|]); intros sender p; unfold targets; cbn; rewrite ?(bool_decide_false (dest = ALL_LAPIC)) by done; done.
Qed.

(** * Setup *)

Context `{BM : Bytemuck}.
Lemma machine_apic_id d : byte (m_id d) → ProcLocalApicID_get d = Done (m_id d).
Proof.
  intros Hi. change (ProcLocalApicID_get d) with (Done (nth 3 (le_bytes 4 (Z.shiftl (m_id d) 24)) 0)). f_equal.
  assert (Hall : Forall (λ i, nth 3 (le_bytes 4 (Z.shiftl i 24)) 0 = i) (seqZ 0 256)) by (apply (bool_decide_unpack _); vm_compute; exact I).
  rewrite Forall_forall in Hall. apply Hall, elem_of_seqZ, Hi.
Qed.
Lemma machine_msr d : in_width 64 (m_msr d) → Ia32ApicBase_read d = Done (Some (m_msr d)).
Proof.
  intros Hm. change (Ia32ApicBase_read d)
    with (Done (Some (Z.lor (u64 (Z.shiftl (Z.land (Z.shiftr (m_msr d) 32) 0xffffffff) 32)) (Z.land (m_msr d) 0xffffffff)))).
  assert (Hw : ∀ x, in_width 32 (Z.land x 0xffffffff)) by (intros x; apply in_width_land_r; [lia|done]).
  do 2 f_equal. unfold u64. rewrite wrap_id.
  - rewrite lor_shiftl_add by (apply Hw || lia). rewrite <- (word_halves (m_msr d)) at 3 by done. lia.
  - destruct (Hw (Z.shiftr (m_msr d) 32)). rewrite Z.shiftl_mul_pow2 by lia. unfold in_width. change (2 ^ 64) with (2 ^ 32 * 2 ^ 32). lia.
Qed.
Lemma spurious_value a d : set_spurious_vector a d = Done (set_svr 0x1FF a, write_reg a SVR 0x1FF d).
Proof.
  unfold set_spurious_vector. rewrite (with_flag_at LocalAPICSpuriousVectorRegister "soft_enable" 8) by done. cbn [mbind outcome_bind].
  by rewrite (with_field_at LocalAPICSpuriousVectorRegister "vector" 0 8) by done.
Qed.
Lemma switch_from_pic_value a d : ∃ d', switch_from_pic_mode a d = d' ∧ m_regs d' = m_regs d ∧ m_base d' = m_base d ∧ m_if d' = m_if d ∧ m_id d' = m_id d
  ∧ m_ports d' = m_ports d ++ (if imcr_present (mp_table a) then [(IMCR_ADDR, 0x70); (IMCR_DATA, 1)] else []).
Proof.
  eexists. split; [reflexivity|]. unfold switch_from_pic_mode. destruct (imcr_present _); [|by rewrite app_nil_r]. split_and!; [done..|].
  cbn. by rewrite <- app_assoc.
Qed.
Lemma restore_interrupts d d2 : m_if d2 = false → let d3 := if negb (interrupts_disabled d) then enable_interrupts d2 else d2 in
  m_if d3 = m_if d ∧ m_id d3 = m_id d2 ∧ m_ports d3 = m_ports d2 ∧ m_regs d3 = m_regs d2.
Proof. intros H2. unfold interrupts_disabled. cbn [flags_reg machine_cpu]. by destruct (m_if d). Qed.
(** A processor other than the first one, and a table. *)
Record processor_ok (m : memory) (d : machine) (t : MPTable) : Prop := {
  proc_table : MPTable_load m = Done (Some t);
  proc_id : byte (m_id d);
  proc_msr : in_width 64 (m_msr d);
  proc_base : apic_register_base (m_msr d) = m_base d;
  proc_space : m_base d + 0x400 ≤ 2 ^ 32;
  proc_secondary : Z.testbit (m_msr d) 8 = false
}.
Lemma init_value m d t registry : processor_ok m d t → ∃ a d', LocalAPIC_init m registry d = Done (Ok a, registry, d')
  ∧ apic_id a = m_id d ∧ operating_mode a = (if imcr_present t then PICMode else VirtualWire) ∧ m_if d' = m_if d ∧ m_id d' = m_id d
  ∧ m_ports d' = m_ports d ++ (if imcr_present t then [(IMCR_ADDR, 0x70); (IMCR_DATA, 1)] else []) ∧ m_regs d' SVR = 0x1FF
  ∧ ∀ r v, (r, v) ∈ lvt_values (lvt_of (swapped t (m_id d))) → m_regs d' r = Z.lor (Z.ldiff v LVT_RO) (Z.land (m_regs d r) LVT_RO).
Proof.
  intros [Ht Hid Hmsr Hbase Hspace Hbsp]. unfold LocalAPIC_init. rewrite Ht. cbn [mbind outcome_bind].
  set (d0 := disable_interrupts d). rewrite machine_apic_id, machine_msr by done. cbn [mbind outcome_bind].
  change (m_id d0) with (m_id d). change (m_msr d0) with (m_msr d). set (a0 := {| apic_id := m_id d |}).
  destruct (switch_from_pic_value a0 d0) as (d1 & -> & Hr1 & Hb1 & Hi1 & Hm1 & Hp1).
  assert (Ha0 : drives_lapic a0 d1) by (split; cbn [msr_register a0]; rewrite Hb1; done).
  unfold load_version_register. rewrite (read_reg_at a0 d1) by done. set (a1 := set_version_register _ a0).
  rewrite load_lvt_value. cbn [mbind outcome_bind]. change (swapped (mp_table a1) (apic_id a1)) with (swapped t (m_id d)).
  set (a2 := set_lvt _ a1). assert (Ha2 : drives_lapic a2 d1) by (by apply (drives_lapic_same a0 _ d1)).
  destruct (write_lvt_loads a2 d1 Ha2) as ((Hb2 & _ & _ & _ & Hp2 & Hi2 & _ & Hm2) & Hl2 & _). set (d2 := write_lvt a2 d1) in *.
  rewrite spurious_value. cbn [mbind outcome_bind]. rewrite write_reg_at by (done || by apply (drives_lapic_same a2 _ d1)).
  assert (Hnb : is_bsp (set_svr 0x1FF a2) = false) by (unfold is_bsp; by rewrite (flag_at Ia32ApicBase "is_bsp" 8) by done).
  rewrite Hnb. cbn [mbind outcome_bind]. eexists _, _. split; [reflexivity|].
  assert (Hsvr : mwrite SVR 0x1FF d2 = set_mreg SVR 0x1FF d2) by done. rewrite Hsvr. clearbody d2.
  destruct (restore_interrupts d (set_mreg SVR 0x1FF d2)) as (Hif & Hfid & Hfports & Hfregs); [cbn [set_mreg m_if]; by rewrite Hi2, Hi1|].
  rewrite Hif, Hfid, Hfports, Hfregs. cbn [set_mreg m_id m_ports]. rewrite Hm2, Hp2, Hm1, Hp1.
  split_and!; [done..|]. intros r v Hin. cbn [set_mreg m_regs]. rewrite bool_decide_false; [by rewrite (Hl2 r v Hin), Hr1|].
  intros ->. assert (Hno : SVR ∉ (lvt_values (lvt_of (swapped t (m_id d)))).*1) by (apply (bool_decide_unpack _); vm_compute; exact I).
  apply Hno. apply list_elem_of_fmap. by exists (SVR, v).
Qed.
(** C26: the local APIC of a secondary processor at its first use, whatever the other
    processors have registered.  It is added to the registry under the processor's
    identifier and the others are kept, its vector table is loaded, spurious interrupts
    have the vector 0xFF and the unit is enabled, the 8259 is disconnected where the
    machine has the register for it, the operating mode recorded is still the one the
    table announces (PIC or virtual wire), and the interrupt flag is as before.  The next
    use finds it and touches nothing. *)
Theorem local_apic_setup m d t (apics : gmap Z LocalAPIC) registry : processor_ok m d t → apics !! m_id d = None → ∃ a d',
  local_apic m apics registry d = Done (Some a, <[m_id d := a]> apics, registry, d')
  ∧ apic_id a = m_id d ∧ operating_mode a = (if imcr_present t then PICMode else VirtualWire) ∧ m_if d' = m_if d
  ∧ m_ports d' = m_ports d ++ (if imcr_present t then [(IMCR_ADDR, 0x70); (IMCR_DATA, 1)] else []) ∧ m_regs d' SVR = 0x1FF
  ∧ (∀ r v, (r, v) ∈ lvt_values (lvt_of (swapped t (m_id d))) → m_regs d' r = Z.lor (Z.ldiff v LVT_RO) (Z.land (m_regs d r) LVT_RO))
  ∧ local_apic m (<[m_id d := a]> apics) registry d' = Done (Some a, <[m_id d := a]> apics, registry, d').
Proof.
  intros Hok Hap. destruct (init_value m d t registry Hok) as (a & d' & Hi & H1 & H2 & H3 & H4 & H5 & H6 & H7). exists a, d'.
  pose proof (proc_id _ _ _ Hok) as Hid. assert (Hid' : byte (m_id d')) by (by rewrite H4). unfold local_apic.
  rewrite (machine_apic_id d) by done. cbn [mbind outcome_bind]. rewrite Hap, Hi. cbn [mbind outcome_bind].
  rewrite machine_apic_id, H4 by done. cbn [mbind outcome_bind]. rewrite lookup_insert_eq. done.
Qed.
(** C27: without a multiprocessor table there is no local APIC, and the interrupts of the
    processor, enabled or not before, stay disabled. *)
Theorem no_table_disables_interrupts m (d : machine) (apics : gmap Z LocalAPIC) registry : MPTable_load m = Done None → byte (m_id d) → apics !! m_id d = None →
  ∃ d', local_apic m apics registry d = Done (None, apics, registry, d') ∧ m_if d' = false ∧ m_regs d' = m_regs d ∧ m_ports d' = m_ports d.
Proof.
  intros Hm Hid Hap. unfold local_apic, LocalAPIC_init. rewrite (machine_apic_id d) by done. cbn [mbind outcome_bind]. rewrite Hap, Hm.
  by eexists.
Qed.
End spec.

(** * The second processor of the sample machine *)

Definition sample_machine : machine :=
  {| m_base := 0xFEE00000; m_regs := λ _, 0; m_errors := 0; m_eois := 0; m_sent := []; m_ports := []; m_if := true; m_msr := 0xFEE00800; m_id := 1 |}.
Definition sample_lapic : LocalAPIC :=
  {| apic_id := 1; msr_register := 0xFEE00800; version_register := 0; lvt := ApicLVT_default; svr := 0; mp_table := sample_table;
     operating_mode := VirtualWire; interrupt_cmd := 0 |}.
Lemma sample_processor_ok : @processor_ok shifts mod_aligned sample_memory sample_machine sample_table.
Proof. split; vm_compute; intuition discriminate. Qed.
Lemma lvt_after_load_witness : ∃ a' d', @load_lvt _ machine_mmio shifts sample_lapic sample_machine = Done (a', d')
  ∧ Z.ldiff (m_regs d' LINT0_REGISTER) LVT_RO = 0x107FC ∧ Z.ldiff (m_regs d' TIMER_REGISTER) LVT_RO = 0x300F9.
Proof.
  destruct (@lvt_after_load shifts shifts_laws sample_lapic sample_machine) as (a' & d' & H1 & H2 & _).
  - split; vm_compute; [reflexivity|discriminate].
  - exists a', d'. split; [exact H1|]. split; apply H2; apply (bool_decide_unpack _); vm_compute; exact I.
Defined.
Lemma dispatch_ipi_delivers_witness : ∃ d' msg, @dispatch_ipi _ machine_mmio shifts sample_lapic (nmi 0) sample_machine = Done d'
  ∧ m_sent d' = [msg] ∧ received 1 msg 0 = Some (4, 0) ∧ received 1 msg 1 = None.
Proof.
  destruct (@dispatch_ipi_delivers shifts shifts_laws (nmi 0) sample_lapic sample_machine) as (d' & msg & H1 & H2 & H3 & _).
  - split; vm_compute; [reflexivity|discriminate].
  - vm_compute. intuition discriminate.
  - vm_compute. intuition discriminate.
  - reflexivity.
  - exists d', msg. split; [exact H1|]. split; [exact H2|]. split; [exact (H3 1 0)|exact (H3 1 1)].
Defined.
Lemma ipi_requests_witness : ∃ d' msg, @dispatch_ipi _ machine_mmio shifts sample_lapic broadcast_nmi sample_machine = Done d'
  ∧ m_sent d' = [msg] ∧ received 1 msg 0 = Some (0, 0).
Proof.
  destruct (@ipi_requests shifts shifts_laws 0x30 0) as (_ & _ & _ & _ & _ & _ & H).
  - vm_compute. intuition discriminate.
  - vm_compute. intuition discriminate.
  - discriminate.
  - destruct (H sample_lapic sample_machine) as (d' & msg & H1 & H2 & H3 & _); [split; vm_compute; [reflexivity|discriminate]|].
    exists d', msg. split; [exact H1|]. split; [exact H2|exact (H3 1 0)].
Defined.
(** The first processor, 0, is already registered. *)
Lemma local_apic_setup_witness : ∃ a d',
  @local_apic _ machine_mmio machine_ports machine_cpu shifts mod_aligned sample_memory {[0 := sample_lapic]} ∅ sample_machine
    = Done (Some a, <[1 := a]> {[0 := sample_lapic]}, ∅, d') ∧ m_if d' = true ∧ m_ports d' = [] ∧ m_regs d' SVR = 0x1FF.
Proof.
  destruct (@local_apic_setup shifts shifts_laws mod_aligned sample_memory sample_machine sample_table {[0 := sample_lapic]} ∅ sample_processor_ok)
    as (a & d' & H1 & _ & _ & H2 & H3 & H4 & _); [reflexivity|].
  exists a, d'. split; [exact H1|]. split; [exact H2|]. split; [exact H3|exact H4].
Defined.
Lemma no_table_disables_interrupts_witness : ∃ d',
  @local_apic _ machine_mmio machine_ports machine_cpu shifts mod_aligned (λ _, 0) ∅ ∅ sample_machine = Done (None, ∅, ∅, d') ∧ m_if d' = false.
Proof.
  destruct (@no_table_disables_interrupts shifts mod_aligned (λ _, 0) sample_machine ∅ ∅) as (d' & H1 & H2 & _).
  - vm_compute. reflexivity.
  - vm_compute. intuition discriminate.
  - reflexivity.
  - exists d'. split; [exact H1|exact H2].
Defined.
