(* ===== verification/Acpi.v ===== *)
(** The tables of the ACPI firmware (src/io/acpi/mod.rs, sdt.rs, and the table of
    hpet.rs): the root pointer and its search, description tables, their checksum, and
    the lookup of a table by its signature.

    The cell of the root pointer is set once: [None] before. *)

From stdpp Require Import strings.
From S2P Require Import Prelude Addr Bitfield MpTable.

(** * Structures *)

Record ACPIAddress := { address_space_id : Z; register_bit_width : Z; register_bit_offset : Z; access_size : Z; address : Z }.
Definition ACPIAddress_of (bs : list Z) : ACPIAddress := {|
  address_space_id := int_part bs 0 1; register_bit_width := int_part bs 1 1; register_bit_offset := int_part bs 2 1; access_size := int_part bs 3 1;
  address := int_part bs 4 8
|}.
Record ACPISDTHeader := {
  sdt_signature : list Z; sdt_length : Z; sdt_revision : Z; sdt_checksum : Z; sdt_oem_id : list Z; oem_table_id : list Z; oem_revision : Z;
  creator_id : Z; creator_revision : Z
}.
Definition SDT_HEADER_SIZE : nat := 36.
Definition ACPISDTHeader_of (bs : list Z) : ACPISDTHeader := {|
  sdt_signature := part bs 0 4; sdt_length := int_part bs 4 4; sdt_revision := int_part bs 8 1; sdt_checksum := int_part bs 9 1;
  sdt_oem_id := part bs 10 6; oem_table_id := part bs 16 8; oem_revision := int_part bs 24 4; creator_id := int_part bs 28 4;
  creator_revision := int_part bs 32 4
|}.
Definition sdt_header_at (m : memory) (a : Z) : ACPISDTHeader := ACPISDTHeader_of (bytes_at m a SDT_HEADER_SIZE).

Record RSDPDescriptorV1 := { v1_signature : list Z; v1_checksum : Z; v1_oem_id : list Z; v1_revision : Z; v1_rsdt_addr : Z }.
Definition RSDP_V1_SIZE : nat := 20.
Definition RSDPDescriptorV1_of (bs : list Z) : RSDPDescriptorV1 := {|
  v1_signature := part bs 0 8; v1_checksum := int_part bs 8 1; v1_oem_id := part bs 9 6; v1_revision := int_part bs 15 1; v1_rsdt_addr := int_part bs 16 4
|}.
Record RSDPDescriptorV2 := {
  v2_signature : list Z; v2_checksum : Z; v2_oem_id : list Z; v2_revision : Z; v2_rsdt_addr : Z; v2_length : Z; v2_xsdt_addr : Z; v2_ext_checksum : Z;
  v2_reserved : list Z
}.
Definition RSDP_V2_SIZE : nat := 36.
Definition RSDPDescriptorV2_of (bs : list Z) : RSDPDescriptorV2 := {|
  v2_signature := part bs 0 8; v2_checksum := int_part bs 8 1; v2_oem_id := part bs 9 6; v2_revision := int_part bs 15 1;
  v2_rsdt_addr := int_part bs 16 4; v2_length := int_part bs 20 4; v2_xsdt_addr := int_part bs 24 8; v2_ext_checksum := int_part bs 32 1;
  v2_reserved := part bs 33 3
|}.
Inductive RSDPDescriptor := V1 (d : RSDPDescriptorV1) | V2 (d : RSDPDescriptorV2).

(** The structure is not packed: the tick count is aligned on two bytes. *)
Record HPETDescriptionTable := {
  hpet_header : ACPISDTHeader; event_time_block_id : Z; hpet_base_addr : ACPIAddress; hpet_number : Z; min_clock_tick_periodic : Z;
  page_prot_oem_attr : Z
}.
Definition HPET_TABLE_SIZE : nat := 64.
Definition HPETDescriptionTable_of (bs : list Z) : HPETDescriptionTable := {|
  hpet_header := ACPISDTHeader_of (part bs 0 SDT_HEADER_SIZE); event_time_block_id := int_part bs 36 4; hpet_base_addr := ACPIAddress_of (part bs 40 12);
  hpet_number := int_part bs 52 1; min_clock_tick_periodic := int_part bs 54 2; page_prot_oem_attr := int_part bs 56 1
|}.

(** * The root pointer *)

Definition RSDP_SIGNATURE : list Z := [0x52; 0x53; 0x44; 0x20; 0x50; 0x54; 0x52; 0x20].
Definition validate_checksum (bs : list Z) : bool := bool_decide (byte_sum bs = 0).
(** [while address < 0xfffff]: the address where the loop stops. *)
Fixpoint rsdp_search (fuel : nat) (m : memory) (addr : Z) : outcome Z :=
  if bool_decide (addr < 0xfffff) then
    if bool_decide (bytes_at m addr 8 = RSDP_SIGNATURE) then Done addr
    else match fuel with O => NoFuel | S fuel => rsdp_search fuel m (addr + 8) end
  else Done addr.
(** The number of addresses of the range. *)
Definition RSDP_FUEL : nat := Z.to_nat 0x4000.
(** [RSDP.init_once]. *)
Definition init_once {A} (cell : option A) (v : A) : option A := match cell with Some old => Some old | None => Some v end.
(** A wrong checksum is only logged: the second component. *)
Definition load_rsdp (m : memory) (cell : option RSDPDescriptor) : outcome (option RSDPDescriptor * bool) :=
  addr ← rsdp_search RSDP_FUEL m 0xe0000;
  if bool_decide (0xfffff ≤ addr) then Panicked
  else
    let rsdp := RSDPDescriptorV1_of (bytes_at m addr RSDP_V1_SIZE) in
    if bool_decide (v1_revision rsdp = 0) then
      Done (init_once cell (V1 rsdp), validate_checksum (bytes_at m addr RSDP_V1_SIZE))
    else if bool_decide (v1_revision rsdp = 2) then
      let rsdp := RSDPDescriptorV2_of (bytes_at m addr RSDP_V2_SIZE) in
      Done (init_once cell (V2 rsdp), validate_checksum (bytes_at m addr RSDP_V2_SIZE))
    else Done (cell, false).
Definition acpi_init := load_rsdp.

(** * Description tables *)

(** The sum stops after as many bytes as the value of the checksum byte. *)
Definition table_checksum (m : memory) (a : Z) : bool :=
  bool_decide (byte_sum (bytes_at m a (Z.to_nat (sdt_checksum (sdt_header_at m a)))) = 0).
Definition read_u32 (m : memory) (a : Z) : Z := of_le (bytes_at m a 4).
(** [(0..entry_count).map(..).any(..)]: the address moves before it is read. *)
Fixpoint find_table (n : nat) (m : memory) (sig : list Z) (base_address entry_size : Z) : option Z :=
  match n with
  | O => None
  | S n =>
      let base_address := u32 (base_address + entry_size) in
      let a := read_u32 m base_address in
      if bool_decide (sdt_signature (sdt_header_at m a) = sig) then Some a else find_table n m sig base_address entry_size
  end.
(** [sdt_getter!]: the address of the table. *)
Definition sdt_getter (sig : list Z) (m : memory) (cell : option RSDPDescriptor) : outcome (option Z) :=
  rsdp ← unwrap cell;
  let '(rsdt_addr, entry_count, entry_size) :=
    match rsdp with
    | V1 rsdp => (v1_rsdt_addr rsdp, Z.shiftr (u32 (sdt_length (sdt_header_at m (v1_rsdt_addr rsdp)) - 36)) 2, 4)
    | V2 rsdp => (u32 (v2_xsdt_addr rsdp), Z.shiftr (u32 (sdt_length (sdt_header_at m (v2_rsdt_addr rsdp)) - 36)) 3, 8)
    end in
  let base_address := u32 (rsdt_addr + 36) in
  match find_table (Z.to_nat entry_count) m sig base_address entry_size with
  | None => Done None
  | Some a => if negb (table_checksum m a) then Done None else Done (Some a)
  end.
Definition HPET_SIGNATURE : list Z := [0x48; 0x50; 0x45; 0x54].
Definition HPETDescriptionTable_load (m : memory) (cell : option RSDPDescriptor) : outcome (option HPETDescriptionTable) :=
  a ← sdt_getter HPET_SIGNATURE m cell;
  Done (option_map (λ a, HPETDescriptionTable_of (bytes_at m a HPET_TABLE_SIZE)) a).

(** * Properties *)

Lemma rsdp_search_find fuel m first : 0 ≤ first → (steps first 0xfffff 8 ≤ fuel)%nat →
  ∃ a, rsdp_search fuel m first = Done a ∧
  match find (λ a, bool_decide (bytes_at m a 8 = RSDP_SIGNATURE)) (candidates first 0xfffff 8) with Some b => a = b ∧ a < 0xfffff | None => 0xfffff ≤ a end.
Proof.
  revert first. induction fuel as [|fuel IH]; intros first H0 Hs; cbn [rsdp_search].
  - destruct (decide (first < 0xfffff)) as [Hl|Hl]; [rewrite steps_S in Hs by done; lia|].
    rewrite bool_decide_false by done. exists first. unfold candidates. rewrite steps_none by lia. split; [done|]. cbn. lia.
  - destruct (decide (first < 0xfffff)) as [Hl|Hl].
    + rewrite bool_decide_true, candidates_S by done. cbn [find]. case_bool_decide; [by exists first|].
      rewrite steps_S in Hs by done. apply IH; lia.
    + rewrite bool_decide_false by done. exists first. unfold candidates. rewrite steps_none by lia. split; [done|]. cbn. lia.
Qed.
(** The search of the root pointer.  It always ends: at the first address of the
    firmware area, in steps of 8 bytes, that has the signature, whose revision says which
    descriptor is kept, and with a panic when there is none.  A wrong checksum does not
    matter, and a revision other than 0 or 2 leaves the cell as it is. *)
Theorem load_rsdp_finds_first m cell :
  load_rsdp m cell = match find (λ a, bool_decide (bytes_at m a 8 = RSDP_SIGNATURE)) (candidates 0xe0000 0xfffff 8) with
  | None => Panicked
  | Some a =>
      let revision := v1_revision (RSDPDescriptorV1_of (bytes_at m a RSDP_V1_SIZE)) in
      if bool_decide (revision = 0) then
        Done (init_once cell (V1 (RSDPDescriptorV1_of (bytes_at m a RSDP_V1_SIZE))), bool_decide (byte_sum (bytes_at m a 20) = 0))
      else if bool_decide (revision = 2) then
        Done (init_once cell (V2 (RSDPDescriptorV2_of (bytes_at m a RSDP_V2_SIZE))), bool_decide (byte_sum (bytes_at m a 36) = 0))
      else Done (cell, false)
  end.
Proof.
  unfold load_rsdp. destruct (rsdp_search_find RSDP_FUEL m 0xe0000) as (a & -> & Hf).
  - done.
  - unfold steps, RSDP_FUEL. apply Z2Nat.inj_le; by vm_compute.
  - cbn [mbind outcome_bind]. destruct (find _ _) as [b|].
    + destruct Hf as [<- Hlt]. by rewrite bool_decide_false by lia.
    + by rewrite bool_decide_true.
Qed.

(** The entries of a table of 32-bit addresses. *)
Definition entry_addr (m : memory) (base : Z) (i : nat) : Z := read_u32 m (base + 4 * Z.of_nat i).
Lemma find_table_entries n m sig base : 0 ≤ base → base + 4 * Z.of_nat n < 2 ^ 32 →
  find_table n m sig base 4 = head (filter (λ a, sdt_signature (sdt_header_at m a) = sig) (map (entry_addr m base) (seq 1 n))).
Proof.
  revert base. induction n as [|n IH]; intros base H0 H1; cbn [find_table seq map]; [done|].
  unfold u32. rewrite wrap_id by (unfold in_width; lia). change (entry_addr m base 1) with (read_u32 m (base + 4)).
  rewrite filter_cons. case_bool_decide; [by rewrite decide_True|]. rewrite decide_False by done. rewrite IH by lia. do 2 f_equal.
  rewrite <- (fmap_S_seq 1 n). rewrite <- list_fmap_compose. apply map_ext. intros i. unfold entry_addr, compose. f_equal. lia.
Qed.
(** The lookup of a table skips the first entry.  With a root table of [n] entries it looks
    at the entries of index 1 to [n], of which the last one is past the end: a table that
    is listed first is not found, whatever its place in memory. *)
Theorem sdt_getter_skips_first_entry sig m rsdp n : let r := v1_rsdt_addr rsdp in
  0 ≤ r → r + 36 + 4 * Z.of_nat n < 2 ^ 32 → sdt_length (sdt_header_at m r) = 36 + 4 * Z.of_nat n →
  sdt_getter sig m (Some (V1 rsdp)) =
    Done (match head (filter (λ a, sdt_signature (sdt_header_at m a) = sig) (map (entry_addr m (r + 36)) (seq 1 n))) with
    | Some a => if table_checksum m a then Some a else None
    | None => None
    end).
Proof.
  intros r H0 H1 Hlen. unfold sdt_getter. cbn [mbind outcome_bind unwrap]. fold r. rewrite Hlen. unfold u32.
  rewrite !wrap_id by (unfold in_width; lia). replace (36 + 4 * Z.of_nat n - 36) with (Z.of_nat n * 2 ^ 2) by lia.
  rewrite Z.shiftr_div_pow2, Z.div_mul, Nat2Z.id by lia. rewrite find_table_entries by lia.
  destruct (head _) as [a|]; [|done]. by destruct (table_checksum m a).
Qed.
(** The checksum of a table covers as many of its bytes as the value of its checksum
    byte: with 0 in that byte any table is accepted, and the bytes after are not looked
    at. *)
Theorem table_checksum_covers m m' a c : m (a + 9) = c → m' (a + 9) = c → 0 ≤ c → bytes_at m a (Z.to_nat c) = bytes_at m' a (Z.to_nat c) →
  table_checksum m a = table_checksum m' a ∧ (c = 0 → table_checksum m a = true).
Proof.
  intros Hm Hm' H0 Hb.
  assert (Hc : ∀ m, sdt_checksum (sdt_header_at m a) = m (a + 9)).
  { intros m0. change (of_le [m0 (a + 9)] = m0 (a + 9)). apply of_le_one. }
  unfold table_checksum. rewrite !Hc, Hm, Hm', Hb. split; [done|]. by intros ->.
Qed.

(** * A machine with the HPET table listed first or second *)

Definition sample_rsdp : list Z := RSDP_SIGNATURE ++ [1; 0x46; 0x5A; 0x20; 0x20; 0x20; 0x20; 0; 0; 0x10; 0x0E; 0].
(** A root table of two entries, with the given addresses. *)
Definition sample_rsdt (first second : Z) : list Z :=
  [0x52; 0x53; 0x44; 0x54] ++ le_bytes 4 44 ++ replicate 28 0 ++ le_bytes 4 first ++ le_bytes 4 second ++ replicate 16 0.
Definition sample_hpet : list Z := HPET_SIGNATURE ++ le_bytes 4 56 ++ [1; 0] ++ replicate 46 7.
Definition sample_pointer : RSDPDescriptorV1 := {| v1_signature := RSDP_SIGNATURE; v1_checksum := 0; v1_oem_id := []; v1_revision := 0; v1_rsdt_addr := 0xE1000 |}.
Definition tables_memory (first second : Z) : memory :=
  with_bytes 0xE1000 (sample_rsdt first second) (with_bytes 0xE2000 sample_hpet (λ _, 0)).
Lemma sdt_getter_skips_first_entry_witness :
  sdt_getter HPET_SIGNATURE (tables_memory 0xE2000 0xE3000) (Some (V1 sample_pointer)) = Done None
  ∧ sdt_getter HPET_SIGNATURE (tables_memory 0xE3000 0xE2000) (Some (V1 sample_pointer)) = Done (Some 0xE2000).
Proof.
  split.
  - rewrite (sdt_getter_skips_first_entry HPET_SIGNATURE (tables_memory 0xE2000 0xE3000) sample_pointer 2); [vm_compute; reflexivity|vm_compute; discriminate|vm_compute; reflexivity|vm_compute; reflexivity].
  - rewrite (sdt_getter_skips_first_entry HPET_SIGNATURE (tables_memory 0xE3000 0xE2000) sample_pointer 2); [vm_compute; reflexivity|vm_compute; discriminate|vm_compute; reflexivity|vm_compute; reflexivity].
Defined.
Lemma table_checksum_covers_witness : table_checksum (tables_memory 0 0) 0xE2000 = true ∧ byte_sum (bytes_at (tables_memory 0 0) 0xE2000 56) ≠ 0.
Proof.
  split; [|vm_compute; discriminate].
  apply (table_checksum_covers (tables_memory 0 0) (tables_memory 0 0) 0xE2000 0); [vm_compute; reflexivity|vm_compute; reflexivity|discriminate|reflexivity|reflexivity].
Defined.
(** The pointer is found at the second multiple of 16; its bytes need not add up to 0. *)
Lemma load_rsdp_finds_first_witness : ∃ d, load_rsdp (with_bytes 0xE0010 sample_rsdp (λ _, 0)) None = Done (Some (V1 d), false) ∧ v1_rsdt_addr d = 0xE1000.
Proof. rewrite load_rsdp_finds_first. eexists. vm_compute. split; reflexivity. Defined.
