(* ===== verification/Clocks.v ===== *)
(** The clocks (src/io/acpi/hpet.rs and src/x86/tsc.rs): the registers and timers of the
    HPET, its clock, and the time-stamp counter with its calibration.

    [f64] is the binary64 format of the Standard Library's specification of floating
    point: 53 bits of precision, exponents up to 1024, rounding to the nearest. *)

From Stdlib Require Import Floats.SpecFloat.
From stdpp Require Import strings.
From S2P Require Import Prelude Addr Bitfield Cpu.

Abbreviation f64 := spec_float.
(** [n as f64]. *)
Definition f64_of (n : Z) : f64 := binary_normalize 53 1024 n 0 false.
Definition f64_mul : f64 → f64 → f64 := SFmul 53 1024.
Definition f64_div : f64 → f64 → f64 := SFdiv 53 1024.
Definition f64_add : f64 → f64 → f64 := SFadd 53 1024.
Definition f64_sub : f64 → f64 → f64 := SFsub 53 1024.
(** [a > b]. *)
Definition f64_gt (a b : f64) : bool := SFltb b a.

(** * Timers of the HPET *)

Record HPETTimerData := {
  data : Z; reserved : Z; tn_int_route_cap : Z; tn_comparator_register : Z; tn_fsb_int_val : Z; tn_fsb_int_addr : Z
}.
Definition set_data (t : HPETTimerData) (v : Z) : HPETTimerData :=
  {| data := v; reserved := reserved t; tn_int_route_cap := tn_int_route_cap t; tn_comparator_register := tn_comparator_register t;
     tn_fsb_int_val := tn_fsb_int_val t; tn_fsb_int_addr := tn_fsb_int_addr t |}.
Definition __tn_int_type_cnf (t : HPETTimerData) : Z := Z.land (Z.shiftr (data t) 1) 0x1.
Definition __tn_int_enb_cnf (t : HPETTimerData) : Z := Z.land (Z.shiftr (data t) 2) 0x1.
Definition __set_tn_int_enb_cnf (t : HPETTimerData) (val : Z) : HPETTimerData := set_data t (Z.land (Z.lor (data t) 0x2) (shl_w 8 val 1)).
Definition __tn_type_cnf (t : HPETTimerData) : Z := Z.land (Z.shiftr (data t) 3) 0x1.
Definition __set_tn_type_cnf (t : HPETTimerData) (val : Z) : HPETTimerData := set_data t (Z.land (Z.lor (data t) 0x8) (shl_w 8 val 3)).
Definition __tn_per_int_cap (t : HPETTimerData) : Z := Z.land (Z.shiftr (data t) 4) 0x1.
Definition __tn_size_cap (t : HPETTimerData) : Z := Z.land (Z.shiftr (data t) 5) 0x1.
Definition __tn_val_set_cnf (t : HPETTimerData) : Z := Z.land (Z.shiftr (data t) 6) 0x1.
Definition __set_tn_val_set_cnf (t : HPETTimerData) (val : Z) : HPETTimerData := set_data t (Z.land (Z.lor (data t) 0x40) (shl_w 8 val 6)).
Definition __tn_32mode_cnf (t : HPETTimerData) : Z := Z.land (Z.shiftr (data t) 8) 0x1.
Definition __set_tn_32mode_cnf (t : HPETTimerData) (val : Z) : HPETTimerData := set_data t (Z.land (Z.lor (data t) 0x100) (shl_w 16 val 8)).
Definition __tn_int_route_cnf (t : HPETTimerData) : Z := Z.land (Z.shiftr (data t) 9) 0x1f.
Definition __set_int_route_cnf (t : HPETTimerData) (val : Z) : HPETTimerData := set_data t (Z.land (Z.lor (data t) 0x3e00) (shl_w 16 val 9)).
Definition __tn_fsb_en_cnf (t : HPETTimerData) : Z := Z.land (Z.shiftr (data t) 14) 0x1.
Definition __set_tn_fsb_en_cnf (t : HPETTimerData) (val : Z) : HPETTimerData := set_data t (Z.land (Z.lor (data t) 0x4000) (shl_w 16 val 14)).
Definition __tn_fsb_int_del_cap (t : HPETTimerData) : Z := Z.land (Z.shiftr (data t) 15) 0x1.

(** * Registers of the HPET *)

(** 64-bit accesses at an address. *)
Class Mmio64 (D : Type) := { mmio_read64 : Z → D → Z * D; mmio_write64 : Z → Z → D → D }.
(** [rdtsc]: [edx] and [eax]. *)
Class Tsc (D : Type) := { rdtsc : D → Z * Z * D }.

Section hpet.
Context {D : Type} `{MM : Mmio64 D}.
Implicit Types (d : D).

(** The offsets of [HPETMemRegisters]. *)
Definition HPET_DATA : Z := 0x0.
Definition HPET_GENERAL_CONF : Z := 0x10.
Definition HPET_INT_STATUS : Z := 0x20.
Definition HPET_MAIN_COUNTER : Z := 0xF0.
Definition __read_main_counter (base : Z) d : Z * D := mmio_read64 (base + HPET_MAIN_COUNTER) d.
Definition __write_tn_int_sts (base n : Z) d : D :=
  let '(v, d) := mmio_read64 (base + HPET_INT_STATUS) d in mmio_write64 (base + HPET_INT_STATUS) (Z.lor v (shl_w 64 1 n)) d.
Definition __tn_int_sts (base n : Z) d : Z * D :=
  let '(v, d) := mmio_read64 (base + HPET_INT_STATUS) d in (Z.land (Z.shiftr v (n mod 64)) 0x1, d).
Definition __set_leg_rt_cnf (base val : Z) d : D :=
  let '(v, d) := mmio_read64 (base + HPET_GENERAL_CONF) d in mmio_write64 (base + HPET_GENERAL_CONF) (Z.land (Z.lor v 0x2) (shl_w 8 val 1)) d.
Definition __leg_rt_cnf (base : Z) d : Z * D :=
  let '(v, d) := mmio_read64 (base + HPET_GENERAL_CONF) d in (Z.land v 0x2, d).
Definition __set_enable_cnf (base val : Z) d : D :=
  let '(v, d) := mmio_read64 (base + HPET_GENERAL_CONF) d in mmio_write64 (base + HPET_GENERAL_CONF) (Z.land (Z.lor v 0x1) val) d.
Definition __enable_cnf (base : Z) d : Z * D :=
  let '(v, d) := mmio_read64 (base + HPET_GENERAL_CONF) d in (Z.land v 0x1, d).
Definition __num_tim_cap (base : Z) d : Z * D := let '(v, d) := mmio_read64 (base + HPET_DATA) d in (Z.land (Z.shiftr v 8) 0x1f, d).
Definition __count_size_cap (base : Z) d : Z * D := let '(v, d) := mmio_read64 (base + HPET_DATA) d in (Z.land (Z.shiftr v 13) 0x1, d).
Definition __leg_rt_cap (base : Z) d : Z * D := let '(v, d) := mmio_read64 (base + HPET_DATA) d in (Z.land (Z.shiftr v 15) 0x1, d).
Definition __counter_clk_period (base : Z) d : Z * D := let '(v, d) := mmio_read64 (base + HPET_DATA) d in (Z.land (Z.shiftr v 32) 0xffffffff, d).

(** * The HPET clock *)

(** The description of the [acpi] crate is used for its base address alone. *)
Record HPETClock := { registers : Z; clk_freq : f64 }.
Definition from_acpi_table (base_address : Z) d : HPETClock * D :=
  let '(period, d) := __counter_clk_period base_address d in
  ({| registers := base_address; clk_freq := f64_div (f64_of 1000000000) (f64_of period) |}, d).
Definition clk_width (c : HPETClock) d : Z * D :=
  let '(v, d) := __count_size_cap (registers c) d in (if bool_decide (v = 1) then 64 else 32, d).
Definition enable_clk (c : HPETClock) d : D := __set_enable_cnf (registers c) 0x1 d.
Definition disable_clk (c : HPETClock) d : D := __set_enable_cnf (registers c) 0x0 d.
Definition timer_count (c : HPETClock) d : Z * D := let '(v, d) := __num_tim_cap (registers c) d in (u8 (v + 1), d).
Definition clk_time (c : HPETClock) d : f64 * D :=
  let '(v, d) := __read_main_counter (registers c) d in (f64_div (f64_of v) (clk_freq c), d).
(** The cell of the clock is set once; the description is [None] where there is no HPET. *)
Definition hpet_clk_init (hpet_info : option Z) (cell : option HPETClock) d : option HPETClock * D :=
  match hpet_info with
  | None => (cell, d)
  | Some base_address =>
      let '(clock, d) := from_acpi_table base_address d in
      let d := enable_clk clock d in
      let '(_, d) := clk_time clock d in
      let '(_, d) := clk_width clock d in
      let '(_, d) := timer_count clock d in
      (match cell with Some old => Some old | None => Some clock end, d)
  end.

(** * The time-stamp counter *)

Context `{TS : Tsc D} `{CP : Cpu D}.
Record TSCClock := { tsc_freq : f64; invariant : bool; hpet_calibration : bool }.
Inductive ClockError := NotPresent | CalibrationError | ClockException.
Definition TSC_EXT_CALIBRATION_DELAY : Z := 1000.
Definition tsc_read d : Z * D := let '(high, low, d) := rdtsc d in (u64 (u64 (Z.shiftl high 32) + low), d).
Definition tsc_time (c : TSCClock) d : f64 * D :=
  let '(t, d) := tsc_read d in (f64_div (f64_mul (f64_of 1000000) (f64_of t)) (tsc_freq c), d).
Definition tsc_ticks_to_micro (c : TSCClock) (ticks : f64) : f64 := f64_div (f64_mul (f64_of 1000000) ticks) (tsc_freq c).
(** [while entry_us + delay > hpet.clk_time()]. *)
Fixpoint calibration_wait (fuel : nat) (hpet : HPETClock) (entry_us : f64) d : outcome D :=
  let '(now, d) := clk_time hpet d in
  if f64_gt (f64_add entry_us (f64_of TSC_EXT_CALIBRATION_DELAY)) now then
    match fuel with O => NoFuel | S fuel => calibration_wait fuel hpet entry_us d end
  else Done d.
Definition __calibrate_tsc_with_hpet (fuel : nat) (c : TSCClock) (cell : option HPETClock) d : outcome (result f64 ClockError * TSCClock * D) :=
  match cell with
  | None => Done (Err CalibrationError, c, d)
  | Some hpet =>
      let '(entry_tsc, d) := tsc_read d in
      let '(entry_us, d) := clk_time hpet d in
      d ← calibration_wait fuel hpet entry_us d;
      let '(exit_tsc, d) := tsc_read d in
      let '(exit_us, d) := clk_time hpet d in
      let freq := f64_div (f64_mul (f64_of (u64 (exit_tsc - entry_tsc))) (f64_of 1000000)) (f64_sub exit_us entry_us) in
      Done (Ok freq, {| tsc_freq := freq; invariant := invariant c; hpet_calibration := true |}, d)
  end.
(** The crystal frequency that is known for some models of family 6. *)
Definition known_crystal (m : IntelCpuModel) : option Z :=
  match m with
  | SkylakeS | SkylakeY | KabylakeS | KabylakeY => Some 24000000
  | SkylakeServer => Some 25000000
  | GoldmontA => Some 19200000
  | _ => None
  end.
Definition bus_speed (m : IntelCpuModel) : option Z :=
  match m with
  | Nehalem => Some 100000000
  | SandyBridge | IvyBridge | HaswellU | HaswellS | HaswellG | BroadwellH | BroadwellS => Some 133330000
  | _ => None
  end.
(** From [MSR_PLATFORM_INFO]. *)
Definition calibrate_platform_info (c : TSCClock) d : outcome (result f64 ClockError * TSCClock) :=
  match cpu_model_id d with
  | None => Done (Err CalibrationError, c)
  | Some model =>
      r ← msr_read 0xce d;
      match r with
      | None => Done (Err CalibrationError, c)
      | Some platform_info =>
          if bool_decide (platform_info ≠ 0) then
            let scalable_bus_freq := Z.land (Z.shiftr platform_info 8) 0xff in
            match bus_speed model with
            | Some speed => Done (Ok (f64_mul (f64_of speed) (f64_of scalable_bus_freq)), c)
            | None => Done (Err CalibrationError, c)
            end
          else Done (Err CalibrationError, c)
      end
  end.
(** The frequency is stored in the clock only when the processor gives that of the crystal. *)
Definition __calibrate_tsc_cpuid (c : TSCClock) d : outcome (result f64 ClockError * TSCClock) :=
  match cpu_id 0x15 d with
  | None => Done (Err CalibrationError, c)
  | Some (a, b, x, _) =>
      if bool_decide (a ≠ 0) && bool_decide (b ≠ 0) then
        let ratio := f64_div (f64_of b) (f64_of a) in
        if bool_decide (x ≠ 0) then
          let freq := f64_mul ratio (f64_of x) in
          Done (Ok freq, {| tsc_freq := freq; invariant := invariant c; hpet_calibration := hpet_calibration c |})
        else
          match cpu_family_id d with
          | Some family =>
              if bool_decide (family = 0x06) then
                model ← unwrap (cpu_model_id d);
                match known_crystal model with
                | Some crystal => Done (Ok (f64_mul ratio (f64_of crystal)), c)
                | None => calibrate_platform_info c d
                end
              else calibrate_platform_info c d
          | None => calibrate_platform_info c d
          end
      else calibrate_platform_info c d
  end.
Definition calibrate (fuel : nat) (c : TSCClock) (hpet : option HPETClock) d : outcome (result f64 ClockError * TSCClock * D) :=
  '(r, c) ← __calibrate_tsc_cpuid c d;
  match r with
  | Ok f => Done (Ok f, c, d)
  | Err _ => __calibrate_tsc_with_hpet fuel c hpet d
  end.
Definition tsc_recalibrate (fuel : nat) (c : TSCClock) (hpet : option HPETClock) d : outcome (result f64 ClockError * TSCClock * D) :=
  if invariant c then Done (Ok (tsc_freq c), c, d) else calibrate fuel c hpet d.
Definition __tsc_invariant_support d : bool :=
  match cpu_id 0x80000008 d with Some (_, _, _, dx) => bool_decide (dx ≠ 0) | None => false end.
(** The cell of the clock is set once. *)
Definition TSCClock_init (fuel : nat) (hpet : option HPETClock) (cell : option TSCClock) d : outcome (result unit ClockError * option TSCClock * D) :=
  match cpu_feature_support CPU_FEAT_TSC d with
  | None | Some false => Done (Err NotPresent, cell, d)
  | Some true =>
      let clk := {| tsc_freq := S754_zero false; invariant := __tsc_invariant_support d; hpet_calibration := false |} in
      '(r, clk, d) ← calibrate fuel clk hpet d;
      match r with
      | Err e => Done (Err e, cell, d)
      | Ok _ =>
          let '(_, d) := tsc_time clk d in
          Done (Ok (), match cell with Some old => Some old | None => Some clk end, d)
      end
  end.
End hpet.

(** * Setting a field of a timer *)

Lemma land_lor_within x mask v : Z.land mask v = v → Z.land (Z.lor x mask) v = v.
Proof.
  intros E. apply Z.bits_inj'. intros j Hj. apply (f_equal (λ z, Z.testbit z j)) in E. rewrite Z.land_spec in E. rewrite Z.land_spec, Z.lor_spec.
  destruct (Z.testbit x j), (Z.testbit mask j), (Z.testbit v j); done.
Qed.
(** What the setters of a timer do.  Each one leaves the value in its place and clears
    every other setting of the timer; the one of the interrupt enable bit writes the bit
    of the interrupt type, so that the enable bit is never set. *)
Theorem timer_setters t val route : 0 ≤ val < 2 → 0 ≤ route < 32 →
  data (__set_tn_type_cnf t val) = 2 ^ 3 * val ∧ __tn_type_cnf (__set_tn_type_cnf t val) = val
  ∧ data (__set_tn_val_set_cnf t val) = 2 ^ 6 * val ∧ __tn_val_set_cnf (__set_tn_val_set_cnf t val) = val
  ∧ data (__set_tn_32mode_cnf t val) = 2 ^ 8 * val ∧ __tn_32mode_cnf (__set_tn_32mode_cnf t val) = val
  ∧ data (__set_int_route_cnf t route) = 2 ^ 9 * route ∧ __tn_int_route_cnf (__set_int_route_cnf t route) = route
  ∧ data (__set_tn_fsb_en_cnf t val) = 2 ^ 14 * val ∧ __tn_fsb_en_cnf (__set_tn_fsb_en_cnf t val) = val
  ∧ data (__set_tn_int_enb_cnf t val) = 2 * val ∧ __tn_int_enb_cnf (__set_tn_int_enb_cnf t val) = 0
  ∧ __tn_int_type_cnf (__set_tn_int_enb_cnf t val) = val.
Proof.
  intros Hv Hr.
  assert (Hroute : Forall (λ r, Z.land 0x3e00 (shl_w 16 r 9) = shl_w 16 r 9 ∧ shl_w 16 r 9 = 2 ^ 9 * r ∧ Z.land (Z.shiftr (shl_w 16 r 9) 9) 0x1f = r) (seqZ 0 32))
    by (apply (bool_decide_unpack _); vm_compute; exact I).
  rewrite Forall_forall in Hroute. destruct (Hroute route ltac:(apply elem_of_seqZ; lia)) as (R1 & R2 & R3).
  unfold __set_int_route_cnf, __tn_int_route_cnf. cbn [data set_data]. rewrite (land_lor_within _ 0x3e00) by done. rewrite R3, R2.
  assert (val = 0 ∨ val = 1) as [-> | ->] by lia;
    unfold __set_tn_type_cnf, __tn_type_cnf, __set_tn_val_set_cnf, __tn_val_set_cnf, __set_tn_32mode_cnf, __tn_32mode_cnf, __set_tn_fsb_en_cnf,
      __tn_fsb_en_cnf, __set_tn_int_enb_cnf, __tn_int_enb_cnf, __tn_int_type_cnf; cbn [data set_data]; rewrite !land_lor_within by done; done.
Qed.
Lemma timer_setters_witness : let t := {| data := 0x13C; reserved := 0; tn_int_route_cap := 0; tn_comparator_register := 0; tn_fsb_int_val := 0; tn_fsb_int_addr := 0 |} in
  data (__set_int_route_cnf t 20) = 0x2800 ∧ __tn_int_enb_cnf (__set_tn_int_enb_cnf t 1) = 0.
Proof.
  intros t. destruct (timer_setters t 1 20) as (_ & _ & _ & _ & _ & _ & H1 & _ & _ & _ & _ & H2 & _); [split; [discriminate|reflexivity]..|].
  split; [exact H1|exact H2].
Defined.

(** * Calibration *)

Section calibration.
Context {D : Type} `{MM : Mmio64 D} `{TS : Tsc D} `{CP : Cpu D}.
Implicit Types (d : D).

(** The state after some readings of the clock. *)
Fixpoint readings (k : nat) (hpet : HPETClock) d : D := match k with O => d | S k => readings k hpet (clk_time hpet d).2 end.
(** Reading [k] of the clock is at least a millisecond after [entry_us]. *)
Definition ahead (hpet : HPETClock) (entry_us : f64) d (k : nat) : bool :=
  negb (f64_gt (f64_add entry_us (f64_of TSC_EXT_CALIBRATION_DELAY)) (clk_time hpet (readings k hpet d)).1).
Lemma wait_ends k hpet entry_us d fuel : (k ≤ fuel)%nat → ahead hpet entry_us d k = true →
  ∃ j, (j ≤ k)%nat ∧ calibration_wait fuel hpet entry_us d = Done (readings (S j) hpet d)
    ∧ ahead hpet entry_us d j = true ∧ ∀ i, (i < j)%nat → ahead hpet entry_us d i = false.
Proof.
  revert d fuel. induction k as [|k IH]; intros d fuel Hk Hgt.
  - exists O. split_and!; [done| |done|lia]. unfold ahead in Hgt. apply negb_true_iff in Hgt. cbn [readings] in *.
    destruct fuel; cbn [calibration_wait]; destruct (clk_time hpet d) as [now d']; cbn [fst snd] in *; by rewrite Hgt.
  - destruct fuel as [|fuel]; [lia|]. cbn [calibration_wait]. destruct (clk_time hpet d) as [now d'] eqn:E.
    assert (HS : ∀ i, ahead hpet entry_us d (S i) = ahead hpet entry_us d' i) by (intros i; unfold ahead; cbn [readings]; by rewrite E).
    assert (H0 : ahead hpet entry_us d 0 = negb (f64_gt (f64_add entry_us (f64_of TSC_EXT_CALIBRATION_DELAY)) now))
      by (unfold ahead; cbn [readings]; by rewrite E).
    destruct (f64_gt _ now) eqn:G.
    + rewrite HS in Hgt. destruct (IH d' fuel) as (j & Hj & H1 & H2 & H3); [lia|done|]. exists (S j).
      split_and!; [lia|cbn [readings]; by rewrite E|by rewrite HS|]. intros [|i] Hi; [done|]. rewrite HS. apply H3. lia.
    + exists O. split_and!; [lia|cbn [readings]; by rewrite E|done|lia].
Qed.
(** C33: calibration on the HPET.  With a clock that is a millisecond ahead of the time of
    entry at some reading [k], it ends right after the first reading [j] at which it is, the
    clock having been read exactly [j + 1] times in the wait; the frequency is the
    difference of the two counters around the wait divided by the microseconds between the
    reading before and one after it, and is kept. *)
Theorem hpet_calibration_ends k hpet c d fuel : (k ≤ fuel)%nat →
  let d0 := (tsc_read d).2 in let entry_us := (clk_time hpet d0).1 in let d1 := (clk_time hpet d0).2 in
  ahead hpet entry_us d1 k = true →
  ∃ j freq d', (j ≤ k)%nat ∧ ahead hpet entry_us d1 j = true ∧ (∀ i, (i < j)%nat → ahead hpet entry_us d1 i = false)
    ∧ __calibrate_tsc_with_hpet fuel c (Some hpet) d = Done (Ok freq, {| tsc_freq := freq; invariant := invariant c; hpet_calibration := true |}, d')
    ∧ let d2 := readings (S j) hpet d1 in let d3 := (tsc_read d2).2 in
      freq = f64_div (f64_mul (f64_of (u64 ((tsc_read d2).1 - (tsc_read d).1))) (f64_of 1000000)) (f64_sub (clk_time hpet d3).1 entry_us)
      ∧ d' = (clk_time hpet d3).2.
Proof.
  intros Hk d0 entry_us d1 Hgt. destruct (wait_ends k hpet entry_us d1 fuel Hk Hgt) as (j & Hj & Hw & Ha & Hfirst).
  unfold __calibrate_tsc_with_hpet. destruct (tsc_read d) as [entry_tsc d0'] eqn:E0. cbn [snd] in d0. subst d0.
  destruct (clk_time hpet d0') as [us d1'] eqn:E1. cbn [fst snd] in entry_us, d1. subst entry_us d1. rewrite Hw. cbn [mbind outcome_bind].
  destruct (tsc_read (readings (S j) hpet d1')) as [exit_tsc d3] eqn:E3. destruct (clk_time hpet d3) as [exit_us d4] eqn:E4.
  eexists j, _, d4. split_and!; [done|done|done|reflexivity|..]; cbv zeta; rewrite E3; cbn [fst snd]; by rewrite E4.
Qed.
(** What the processor says of its frequency, and what is kept of it.  When the crystal
    frequency is given, the product is kept; on the models whose crystal is known, and
    those with a known bus speed, it is returned and the clock keeps what it had. *)
Lemma cpuid_calibration_keeps c d f c' : __calibrate_tsc_cpuid c d = Done (Ok f, c') →
  (∃ a b x dx, cpu_id 0x15 d = Some (a, b, x, dx) ∧ x ≠ 0 ∧ tsc_freq c' = f ∧ invariant c' = invariant c) ∨ c' = c.
Proof.
  assert (Hp : ∀ r c0, calibrate_platform_info c d = Done (r, c0) → c0 = c).
  { unfold calibrate_platform_info. intros r c0. destruct (cpu_model_id d); [|congruence]. destruct (msr_read 0xce d) as [[v|]| | |]; cbn [mbind outcome_bind]; try congruence.
    case_bool_decide; [|congruence]. destruct (bus_speed _); congruence. }
  unfold __calibrate_tsc_cpuid. destruct (cpu_id 0x15 d) as [[[[a b] x] dx]|]; [|done]. destruct (_ && _); [|intros Hc; right; by eapply Hp].
  case_bool_decide as Hx; [intros [= <- <-]; left; by exists a, b, x, dx|].
  destruct (cpu_family_id d) as [family|]; [|intros Hc; right; by eapply Hp]. case_bool_decide; [|intros Hc; right; by eapply Hp].
  destruct (cpu_model_id d) as [model|] eqn:Em; [|done]. cbn [mbind outcome_bind unwrap]. destruct (known_crystal model); [intros [= _ <-]; by right|].
  intros Hc; right; by eapply Hp.
Qed.
Definition finite (x : f64) : Prop := match x with S754_zero _ | S754_finite _ _ _ => True | _ => False end.
(** The clock of a processor whose crystal is known but not given by the processor (as
    Skylake and Kaby Lake) is initialised without error and has the frequency 0: no
    number of ticks has a finite duration. *)
Theorem known_crystal_clock_has_no_time fuel hpet d a b dx model crystal : cpu_feature_support CPU_FEAT_TSC d = Some true →
  cpu_id 0x15 d = Some (a, b, 0, dx) → a ≠ 0 → b ≠ 0 → cpu_family_id d = Some 6 → cpu_model_id d = Some model → known_crystal model = Some crystal →
  ∃ clk d', TSCClock_init fuel hpet None d = Done (Ok (), Some clk, d') ∧ tsc_freq clk = S754_zero false
    ∧ ∀ ticks, ¬ finite (tsc_ticks_to_micro clk ticks).
Proof.
  intros Hf H15 Ha Hb Hfam Hmod Hk. unfold TSCClock_init. rewrite Hf. unfold calibrate, __calibrate_tsc_cpuid. rewrite H15.
  rewrite !bool_decide_true by done. cbn [andb]. change (bool_decide (0 ≠ 0)) with false. cbn beta iota. rewrite Hfam, bool_decide_true by done.
  rewrite Hmod. cbn [mbind outcome_bind unwrap]. rewrite Hk. cbn [mbind outcome_bind].
  destruct (tsc_time _ d) as [t d']. eexists _, d'. split_and!; [reflexivity|done|]. intros ticks.
  unfold tsc_ticks_to_micro. cbn [tsc_freq]. destruct (f64_mul (f64_of 1000000) ticks); intros [].
Qed.
End calibration.

(** * A Skylake processor and an HPET of 10 MHz whose counter advances at each reading *)

Record clock_machine := { counter : Z; cycles : Z; conf : Z }.
#[global] Instance clock_mmio : Mmio64 clock_machine := {|
  mmio_read64 a d :=
    if bool_decide (a = 0xFED000F0) then (counter d, {| counter := counter d + 4000; cycles := cycles d + 960000; conf := conf d |})
    else if bool_decide (a = 0xFED00000) then (0x5F5E10000008201, d)
    else if bool_decide (a = 0xFED00010) then (conf d, d) else (0, d);
  mmio_write64 a v d := if bool_decide (a = 0xFED00010) then {| counter := counter d; cycles := cycles d; conf := v |} else d
|}.
#[global] Instance clock_tsc : Tsc clock_machine := {| rdtsc d := (Z.shiftr (cycles d) 32, Z.land (cycles d) 0xffffffff, d) |}.
#[global] Instance clock_cpu : Cpu clock_machine := {|
  cpuid a _ _ :=
    if bool_decide (a = 0) then (0x16, 0x756E6547, 0x6C65746E, 0x49656E69)
    else if bool_decide (a = 1) then (0x000506E3, 0, 0x7FFAFBBF, 0xBFEBFBFF)
    else if bool_decide (a = 0x15) then (2, 200, 0, 0)
    else (0, 0, 0, 0);
  ecx_left _ := 0;
  id_flag_flips _ := true;
  flags_reg _ := 2;
  cli d := d;
  sti d := d;
  rdmsr _ _ := Faulted;
  wrmsr _ _ _ _ := Faulted;
  read_cr _ _ := 0;
  write_cr _ _ d := d
|}.
Definition sample_clocks : clock_machine := {| counter := 1000; cycles := 240000; conf := 2 |}.
Definition sample_hpet_clock : HPETClock := (from_acpi_table 0xFED00000 sample_clocks).1.
Lemma hpet_calibration_ends_witness : ∃ freq d', __calibrate_tsc_with_hpet 3 {| tsc_freq := S754_zero false; invariant := false; hpet_calibration := false |}
    (Some sample_hpet_clock) sample_clocks = Done (Ok freq, {| tsc_freq := freq; invariant := false; hpet_calibration := true |}, d').
Proof.
  destruct (hpet_calibration_ends 3 sample_hpet_clock {| tsc_freq := S754_zero false; invariant := false; hpet_calibration := false |} sample_clocks 3)
    as (j & freq & d' & _ & _ & _ & H1 & _).
  - repeat constructor.
  - vm_compute. reflexivity.
  - exists freq, d'. exact H1.
Defined.
Lemma known_crystal_clock_has_no_time_witness : ∃ clk d', TSCClock_init 0 None None sample_clocks = Done (Ok (), Some clk, d')
  ∧ tsc_freq clk = S754_zero false ∧ ¬ finite (tsc_ticks_to_micro clk (f64_of 1000)).
Proof.
  destruct (known_crystal_clock_has_no_time 0 None sample_clocks 2 200 0 SkylakeS 24000000) as (clk & d' & H1 & H2 & H3).
  - vm_compute. reflexivity.
  - vm_compute. reflexivity.
  - discriminate.
  - discriminate.
  - vm_compute. reflexivity.
  - vm_compute. reflexivity.
  - reflexivity.
  - exists clk, d'. split; [exact H1|]. split; [exact H2|apply H3].
Defined.
(** Enabling the clock clears the other bits of the configuration. *)
Lemma enable_clk_example : conf (enable_clk sample_hpet_clock sample_clocks) = 1.
Proof. reflexivity. Qed.
