(* ===== verification/Video.v ===== *)
(** Text on a linear framebuffer (src/video/vesa/framebuffer.rs), the choice of the VESA
    mode (src/video/vesa/mod.rs, video_mode.rs).

    The fonts are the crates [noto_sans_mono_bitmap] and [unifont], the class [Font]; the
    video BIOS is the class [VideoBios]. *)

From stdpp Require Import strings.
From S2P Require Import Prelude Addr Bitfield MpTable.

(** * Fonts *)

(** A half-width glyph has 16 rows of 8 pixels, a full-width one 32 bytes. *)
Inductive Glyph := Halfwidth (rows : list Z) | Fullwidth (rows : list Z).
Class Font := {
  CHAR_WIDTH : Z;
  (** The rows of the raster of a character, one intensity per pixel. *)
  get_raster : Z → option (list (list Z));
  get_glyph : Z → option Glyph
}.
(** The rasters of the size that is used have [CHAR_HEIGHT] rows of [CHAR_WIDTH] pixels,
    and the replacement character has one. *)
Class FontLaws `{Font} := {
  char_width_pos : 0 < CHAR_WIDTH;
  raster_rows ch rows : get_raster ch = Some rows → length rows = 16%nat ∧ Forall (λ row, Z.of_nat (length row) = CHAR_WIDTH ∧ Forall byte row) rows;
  replacement_raster : is_Some (get_raster 0xFFFD)
}.
Definition CHAR_HEIGHT : Z := 16.
Definition CHAR_SPACING : Z := 0.
Definition LINE_SPACING : Z := 4.
Definition BORDER : Z := 6.
Record RgbaColor := { red : Z; green : Z; blue : Z; alpha : Z }.
Definition DEFAULT_BG_COLOR : RgbaColor := {| red := 26; green := 28; blue := 34; alpha := 0 |}.
Inductive PixelLayout := RGB | BGR.

(** * The buffer *)

Record FrameBufferMetadata := { layout : PixelLayout; bytes_per_px : Z; width : Z; height : Z; stride : Z; bg_color : option RgbaColor }.
Record TextFrameBuffer := { buffer : list Z; cursor_x : Z; cursor_y : Z; metadata : FrameBufferMetadata }.
Definition set_buffer (b : list Z) (fb : TextFrameBuffer) : TextFrameBuffer :=
  {| buffer := b; cursor_x := cursor_x fb; cursor_y := cursor_y fb; metadata := metadata fb |}.
Definition set_cursor (x y : Z) (fb : TextFrameBuffer) : TextFrameBuffer :=
  {| buffer := buffer fb; cursor_x := x; cursor_y := y; metadata := metadata fb |}.
Definition px_bytes (l : PixelLayout) (c : RgbaColor) : list Z :=
  match l with RGB => [red c; green c; blue c; alpha c] | BGR => [blue c; green c; red c; alpha c] end.
(** One component of a color over the one of the background, in a [u16]. *)
Definition blend (c bg : Z) : Z := u8 (u16 (u16 (c * (255 - bg)) / 255 + bg)).
Definition effective_color (fb : TextFrameBuffer) (c : RgbaColor) : RgbaColor :=
  match bg_color (metadata fb) with
  | Some bg => {| red := blend (red c) (red bg); green := blend (green c) (green bg); blue := blend (blue c) (blue bg); alpha := alpha c |}
  | None => c
  end.
(** [buffer[a..a + n].copy_from_slice(&px[..n])]. *)
Definition write_px_with_color (x y : Z) (c : RgbaColor) (fb : TextFrameBuffer) : outcome TextFrameBuffer :=
  let px := px_bytes (layout (metadata fb)) (effective_color fb c) in
  let n := bytes_per_px (metadata fb) in
  let bytes_offset := u64 (u64 (x + u64 (y * stride (metadata fb))) * n) in
  let last := u64 (bytes_offset + n) in
  if bool_decide (bytes_offset ≤ last) && bool_decide (last ≤ Z.of_nat (length (buffer fb))) && bool_decide (n ≤ 4) then
    Done (set_buffer (list_inserts (Z.to_nat bytes_offset) (take (Z.to_nat n) px) (buffer fb)) fb)
  else Panicked.
Definition write_px_with_intensity (x y intensity : Z) (fb : TextFrameBuffer) : outcome TextFrameBuffer :=
  write_px_with_color x y {| red := intensity; green := intensity; blue := intensity; alpha := 0 |} fb.
Definition carriage_return (fb : TextFrameBuffer) : TextFrameBuffer := set_cursor BORDER (cursor_y fb) fb.
Definition newline (fb : TextFrameBuffer) : TextFrameBuffer :=
  carriage_return (set_cursor (cursor_x fb) (u64 (cursor_y fb + (CHAR_HEIGHT + LINE_SPACING))) fb).
(** [rchunks_exact_mut(n)]: from the end, the bytes left over at the start are kept. *)
Definition fill_chunks (n : nat) (px b : list Z) : list Z :=
  take (length b mod n) b ++ concat (replicate (length b / n) px).
Definition clear (fb : TextFrameBuffer) : TextFrameBuffer :=
  let fb := set_cursor BORDER BORDER fb in
  match bg_color (metadata fb) with
  | Some c =>
      let px := px_bytes (layout (metadata fb)) c in
      let bpp := bytes_per_px (metadata fb) in
      if bool_decide (bpp = 3) then set_buffer (fill_chunks 3 (take 3 px) (buffer fb)) fb
      else if bool_decide (bpp = 4) then set_buffer (fill_chunks 4 px (buffer fb)) fb
      else set_buffer (replicate (length (buffer fb)) 0) fb
  | None => set_buffer (replicate (length (buffer fb)) 0) fb
  end.
Definition set_background (c : option RgbaColor) (fb : TextFrameBuffer) : TextFrameBuffer :=
  {| buffer := buffer fb; cursor_x := cursor_x fb; cursor_y := cursor_y fb;
     metadata := {| layout := layout (metadata fb); bytes_per_px := bytes_per_px (metadata fb); width := width (metadata fb);
       height := height (metadata fb); stride := stride (metadata fb); bg_color := c |} |}.

(** * Characters *)

(** The pixels of a row, then of the rows, from a position. *)
Fixpoint write_row (color : Z → RgbaColor) (row : list Z) (x y : Z) (fb : TextFrameBuffer) : outcome TextFrameBuffer :=
  match row with
  | [] => Done fb
  | v :: row => fb ← write_px_with_color (u64 x) (u64 y) (color v) fb; write_row color row (x + 1) y fb
  end.
Fixpoint write_rows (color : Z → RgbaColor) (rows : list (list Z)) (x y : Z) (fb : TextFrameBuffer) : outcome TextFrameBuffer :=
  match rows with
  | [] => Done fb
  | row :: rows => fb ← write_row color row x y fb; write_rows color rows x (y + 1) fb
  end.
Definition grey (intensity : Z) : RgbaColor := {| red := intensity; green := intensity; blue := intensity; alpha := 0 |}.
(** A color dimmed by an intensity. *)
Definition rendered_color (c : RgbaColor) (intensity : Z) : RgbaColor :=
  {| red := u8 (u16 (red c * intensity) / 255); green := u8 (u16 (green c * intensity) / 255); blue := u8 (u16 (blue c * intensity) / 255);
     alpha := alpha c |}.
Definition advance_cursor (n : Z) (fb : TextFrameBuffer) : TextFrameBuffer := set_cursor (u64 (cursor_x fb + n)) (cursor_y fb) fb.
(** The bits of a row of a glyph, the most significant first, as intensities. *)
Definition glyph_row (reversed : bool) (row : Z) : list Z :=
  map (λ bit, if bool_decide (Z.land row (Z.shiftl 1 (7 - bit)) = 0) then (if reversed then 255 else 0) else (if reversed then 0 else 255)) (seqZ 0 8).

Section text.
Context `{FN : Font}.

Definition write_rasterized_char (rows : list (list Z)) (fb : TextFrameBuffer) : outcome TextFrameBuffer :=
  fb ← write_rows grey rows (cursor_x fb) (cursor_y fb) fb;
  Done (advance_cursor (CHAR_WIDTH + CHAR_SPACING) fb).
Definition write_rasterized_char_with_color (rows : list (list Z)) (c : RgbaColor) (fb : TextFrameBuffer) : outcome TextFrameBuffer :=
  fb ← write_rows (rendered_color c) rows (cursor_x fb) (cursor_y fb) fb;
  Done (advance_cursor (CHAR_WIDTH + CHAR_SPACING) fb).
Definition write_bitmap (reversed : bool) (rows : list Z) (fb : TextFrameBuffer) : outcome TextFrameBuffer :=
  fb ← write_rows grey (map (glyph_row reversed) rows) (cursor_x fb) (cursor_y fb) fb;
  Done (advance_cursor (8 + CHAR_SPACING) fb).
Definition write_bitmap_char := write_bitmap false.
Definition write_bitmap_char_reversed := write_bitmap true.
(** A character that the font does not have is shown as the replacement character. *)
Fixpoint render_char (fuel : nat) (ch : Z) : outcome (list (list Z)) :=
  match get_raster ch with
  | Some r => Done r
  | None => match fuel with O => NoFuel | S fuel => render_char fuel 0xFFFD end
  end.
(** A new line where the character does not fit, and a new page where the line does not. *)
Definition make_room (fb : TextFrameBuffer) : TextFrameBuffer :=
  let fb := if bool_decide (width (metadata fb) ≤ u64 (cursor_x fb + CHAR_WIDTH)) then newline fb else fb in
  if bool_decide (height (metadata fb) ≤ u64 (cursor_y fb + CHAR_HEIGHT + BORDER)) then clear fb else fb.
Definition putchar (ch : Z) (color : option RgbaColor) (fb : TextFrameBuffer) : outcome TextFrameBuffer :=
  if bool_decide (ch = 0x0A) then Done (newline fb)
  else if bool_decide (ch = 0x0D) then Done (carriage_return fb)
  else
    let fb := make_room fb in
    rendered ← render_char 1 ch;
    match color with
    | Some c => write_rasterized_char_with_color rendered c fb
    | None => write_rasterized_char rendered fb
    end.
Definition putchar_bitmap (ch : Z) (reversed : bool) (fb : TextFrameBuffer) : outcome TextFrameBuffer :=
  if bool_decide (ch = 0x0A) then Done (newline fb)
  else if bool_decide (ch = 0x0D) then Done (carriage_return fb)
  else
    let fb := make_room fb in
    g ← unwrap (get_glyph ch);
    match g with
    | Halfwidth rendered => if reversed then write_bitmap_char_reversed rendered fb else write_bitmap_char rendered fb
    | Fullwidth _ => Done fb
    end.
(** The characters of a string, one after the other. *)
Fixpoint write_chars (put : Z → TextFrameBuffer → outcome TextFrameBuffer) (text : list Z) (fb : TextFrameBuffer) : outcome TextFrameBuffer :=
  match text with [] => Done fb | ch :: text => fb ← put ch fb; write_chars put text fb end.
Definition write_str (text : list Z) : TextFrameBuffer → outcome TextFrameBuffer := write_chars (λ ch, putchar ch None) text.
Definition write_str_with_color (text : list Z) (c : RgbaColor) : TextFrameBuffer → outcome TextFrameBuffer := write_chars (λ ch, putchar ch (Some c)) text.
Definition write_str_bitmap (text : list Z) : TextFrameBuffer → outcome TextFrameBuffer := write_chars (λ ch, putchar_bitmap ch false) text.
Definition write_str_bitmap_reversed (text : list Z) : TextFrameBuffer → outcome TextFrameBuffer := write_chars (λ ch, putchar_bitmap ch true) text.
(** [text.len()] is the number of bytes of the string. *)
Definition write_str_bitmap_centered (text : list Z) (len : Z) (reversed : bool) (fb : TextFrameBuffer) : outcome TextFrameBuffer :=
  let remaining_width := u64 (width (metadata fb) - u64 (len * 8)) in
  let spaces := replicate (Z.to_nat (Z.shiftr remaining_width 4)) 0x20 in
  fb ← write_chars (λ ch, putchar_bitmap ch false) spaces fb;
  fb ← write_chars (λ ch, putchar_bitmap ch reversed) text fb;
  write_chars (λ ch, putchar_bitmap ch false) spaces fb.
End text.

(** * Modes *)

Inductive MemoryModel := TextMode | CGA | Hercules | Planar | PackedPixel | NonChain4 | DirectColor | YUV.
Record ModeInfoBlock := {
  mode_attributes : Z; window_a_attrs : Z; window_b_attrs : Z; win_granularity : Z; win_size : Z; win_a_segment : Z; win_b_segment : Z;
  win_func_ptr : Z; bytes_per_scanline : Z; mode_width : Z; mode_height : Z; char_width : Z; char_height : Z; planes_count : Z;
  bits_per_pixel : Z; banks_count : Z; memory_model : MemoryModel; bank_size : Z; image_pages_count : Z; red_mask_s : Z; red_field_pos : Z;
  green_mask_s : Z; green_field_pos : Z; blue_mask_s : Z; blue_field_pos : Z; rsvd_mask_size : Z; rsvd_field_pos : Z; direct_color_mode : Z;
  framebuffer : Z
}.
(** The match on the positions of the three fields. *)
Definition layout_of (r g b : Z) : PixelLayout :=
  if bool_decide (r = 0) && bool_decide (g = 8) && bool_decide (b = 16) then RGB
  else if bool_decide (r = 16) && bool_decide (g = 8) && bool_decide (b = 0) then BGR else RGB.
Definition pixel_layout (i : ModeInfoBlock) : PixelLayout := layout_of (red_field_pos i) (green_field_pos i) (blue_field_pos i).
Definition div_by (a b : Z) : outcome Z := if bool_decide (b = 0) then Panicked else Done (a / b).
Definition from_vesamode_info (m : memory) (i : ModeInfoBlock) : outcome TextFrameBuffer :=
  s ← div_by (bytes_per_scanline i) (Z.shiftr (bits_per_pixel i) 3);
  let bpp := Z.shiftr (bits_per_pixel i) 3 in
  Done (clear {| buffer := bytes_at m (framebuffer i) (Z.to_nat (bpp * mode_height i * mode_width i)); cursor_x := BORDER; cursor_y := BORDER;
    metadata := {| layout := pixel_layout i; bytes_per_px := bpp; width := mode_width i; height := mode_height i; stride := s;
      bg_color := Some DEFAULT_BG_COLOR |} |}).

(** The framebuffer that the boot loader describes (src/boot/multiboot/mb_information.rs). *)
Record FramebufferMultibootInformation := {
  fb_addr : Z; fb_pitch : Z; fb_width : Z; fb_height : Z; fb_bpp : Z; framebuffer_type : Z; fb_red_field_pos : Z; fb_red_mask_size : Z;
  fb_green_field_pos : Z; fb_green_mask_size : Z; fb_blue_field_pos : Z; fb_blue_mask_size : Z
}.
Definition from_multiboot_info (m : memory) (i : FramebufferMultibootInformation) (mapping_addr : Z) : TextFrameBuffer :=
  let bpp := Z.shiftr (fb_bpp i) 3 in
  clear {| buffer := bytes_at m mapping_addr (Z.to_nat (bpp * fb_height i * fb_width i)); cursor_x := BORDER; cursor_y := BORDER;
    metadata := {| layout := layout_of (fb_red_field_pos i) (fb_green_field_pos i) (fb_blue_field_pos i); bytes_per_px := bpp; width := fb_width i;
      height := fb_height i; stride := fb_pitch i; bg_color := Some DEFAULT_BG_COLOR |} |}.

(** * Choice of the mode *)

Definition VBE_MODEATTR_GRAPHIC : Z := 0x10.
Definition VBE_MODEATTR_LINEAR : Z := 0x80.
(** The calls of the video BIOS: the description of a mode, and setting one. *)
Class VideoBios (D : Type) := {
  query_modeinfo : Z → D → option ModeInfoBlock;
  set_vesa_mode : Z → D → option D
}.
(** [VesaVideoModes]: 16-bit numbers up to 0xffff. *)
Fixpoint vesa_video_modes (fuel : nat) (m : memory) (video_mode_ptr counter : Z) : outcome (list Z) :=
  let curr_mode := of_le (bytes_at m (u32 (video_mode_ptr + u32 (2 * counter))) 2) in
  if bool_decide (curr_mode = 0xffff) then Done []
  else match fuel with
  | O => NoFuel
  | S fuel => modes ← vesa_video_modes fuel m video_mode_ptr (counter + 1); Done (curr_mode :: modes)
  end.
Definition usable_mode (i : ModeInfoBlock) : bool :=
  let attrs := Z.lor VBE_MODEATTR_LINEAR VBE_MODEATTR_GRAPHIC in
  bool_decide (Z.land (mode_attributes i) attrs = attrs) && match memory_model i with PackedPixel | DirectColor => true | _ => false end.
Definition square (x : Z) : Z := u32 (x * x).
Definition px_diff (x y : Z) (i : ModeInfoBlock) : Z := u32 (square (u32 (mode_width i - x)) + square (u32 (mode_height i - y))).
Record best := { best_mode : Z; best_diff : Z; best_bpp : Z }.
Definition no_best : best := {| best_mode := 1; best_diff := 0xffffffff; best_bpp := 0 |}.
Section modes.
Context {D : Type} `{VB : VideoBios D}.
Definition try_mode (x y : Z) (d : D) (b : best) (mode : Z) : best :=
  match query_modeinfo mode d with
  | None => b
  | Some i =>
      if usable_mode i then
        let new := {| best_mode := mode; best_diff := px_diff x y i; best_bpp := bits_per_pixel i |} in
        match px_diff x y i ?= best_diff b with
        | Lt => new
        | Eq => if bool_decide (best_bpp b < bits_per_pixel i) then new else b
        | Gt => b
        end
      else b
  end.
Definition vesa_mode_setup (fuel : nat) (m : memory) (video_mode_ptr x y : Z) (d : D) : outcome (ModeInfoBlock * D) :=
  modes ← vesa_video_modes fuel m video_mode_ptr 0;
  let b := fold_left (try_mode x y d) modes no_best in
  let mode := Z.lor (best_mode b) 0x4000 in
  d ← unwrap (set_vesa_mode mode d);
  best_info ← unwrap (query_modeinfo mode d);
  Done (best_info, d).
End modes.

(** * Colors *)

(** Blending stays within a byte: between the background and white, from the background
    at 0 to white at 255, and brighter for a greater intensity. *)
Lemma blend_value c bg : byte c → byte bg → blend c bg = c * (255 - bg) / 255 + bg ∧ bg ≤ blend c bg ≤ 255.
Proof.
  unfold byte, in_width. change (2 ^ 8) with 256. intros Hc Hb. unfold blend, u16, u8.
  assert (H1 : 0 ≤ c * (255 - bg) ≤ 255 * (255 - bg)) by nia.
  assert (H2 : 0 ≤ c * (255 - bg) / 255 ≤ 255 - bg).
  { split; [apply Z.div_pos; lia|]. apply Z.div_le_upper_bound; lia. }
  rewrite (wrap_id 16 (c * (255 - bg))) by (unfold in_width; change (2 ^ 16) with 65536; lia).
  rewrite (wrap_id 16) by (unfold in_width; change (2 ^ 16) with 65536; lia). rewrite wrap_id by (unfold in_width; change (2 ^ 8) with 256; lia). lia.
Qed.

(** * The screen *)

(** The lines may be padded; the buffer reaches to the last pixel of the last line. *)
Record screen_ok `{Font} (fb : TextFrameBuffer) : Prop := {
  ok_bpp : 1 ≤ bytes_per_px (metadata fb) ≤ 4;
  ok_len : ((height (metadata fb) - 1) * stride (metadata fb) + width (metadata fb)) * bytes_per_px (metadata fb) ≤ Z.of_nat (length (buffer fb));
  ok_stride : width (metadata fb) ≤ stride (metadata fb) < 2 ^ 16;
  ok_dims : width (metadata fb) < 2 ^ 16 ∧ height (metadata fb) < 2 ^ 16;
  ok_room : BORDER + CHAR_WIDTH < width (metadata fb) ∧ BORDER + CHAR_HEIGHT + BORDER < height (metadata fb)
}.
(** The length that the constructors give to the buffer.  It reaches to the last pixel only
    when there is no padding. *)
Definition constructed (fb : TextFrameBuffer) : Prop :=
  Z.of_nat (length (buffer fb)) = bytes_per_px (metadata fb) * height (metadata fb) * width (metadata fb).
(** The bytes of a pixel. *)
Definition px_at (md : FrameBufferMetadata) (x y : Z) : nat := Z.to_nat ((x + y * stride md) * bytes_per_px md).
Definition pixel (fb : TextFrameBuffer) (x y : Z) : list Z :=
  take (Z.to_nat (bytes_per_px (metadata fb))) (drop (px_at (metadata fb) x y) (buffer fb)).
(** What a color looks like on the screen. *)
Definition shown (fb : TextFrameBuffer) (c : RgbaColor) : list Z :=
  take (Z.to_nat (bytes_per_px (metadata fb))) (px_bytes (layout (metadata fb)) (effective_color fb c)).
Definition on_screen (fb : TextFrameBuffer) (x y : Z) : Prop := 0 ≤ x < width (metadata fb) ∧ 0 ≤ y < height (metadata fb).
(** Only the buffer changes. *)
Definition same_frame (fb fb' : TextFrameBuffer) : Prop :=
  metadata fb' = metadata fb ∧ cursor_x fb' = cursor_x fb ∧ cursor_y fb' = cursor_y fb ∧ length (buffer fb') = length (buffer fb).
Lemma same_frame_trans a b c : same_frame a b → same_frame b c → same_frame a c.
Proof. unfold same_frame. intuition congruence. Qed.

Section screen.
Context `{FL : FontLaws}.
Implicit Types (fb : TextFrameBuffer).

Lemma screen_same fb fb' : metadata fb' = metadata fb → length (buffer fb') = length (buffer fb) → screen_ok fb → screen_ok fb'.
Proof. intros Hm Hl [? ? ? ? ?]. split; rewrite ?Hm, ?Hl; done. Qed.
Lemma length_px l c : length (px_bytes l c) = 4%nat.
Proof. by destruct l. Qed.
Lemma length_shown fb c : screen_ok fb → length (shown fb c) = Z.to_nat (bytes_per_px (metadata fb)).
Proof. intros [? _ _ _ _]. unfold shown. rewrite length_take, length_px. lia. Qed.
(** A pixel of the screen is within the buffer, and two pixels do not overlap. *)
Lemma px_bounds fb x y : screen_ok fb → on_screen fb x y →
  0 ≤ (x + y * stride (metadata fb)) * bytes_per_px (metadata fb)
  ∧ (x + y * stride (metadata fb)) * bytes_per_px (metadata fb) + bytes_per_px (metadata fb) ≤ Z.of_nat (length (buffer fb)).
Proof.
  intros [Hb Hl Hs Hd Hr] [Hx Hy]. set (w := width (metadata fb)) in *. set (h := height (metadata fb)) in *. set (s := stride (metadata fb)) in *.
  set (n := bytes_per_px (metadata fb)) in *. assert (0 ≤ y * s) by nia. assert (y * s ≤ (h - 1) * s) by (apply Z.mul_le_mono_nonneg_r; lia).
  assert (Hle : x + y * s + 1 ≤ (h - 1) * s + w) by lia. apply (Z.mul_le_mono_nonneg_r _ _ n) in Hle; [|lia]. split; [nia|lia].
Qed.
Lemma px_disjoint fb x y x' y' : screen_ok fb → on_screen fb x y → on_screen fb x' y' → (x, y) ≠ (x', y') →
  let n := bytes_per_px (metadata fb) in let o := (x + y * stride (metadata fb)) * n in let o' := (x' + y' * stride (metadata fb)) * n in
  o + n ≤ o' ∨ o' + n ≤ o.
Proof.
  intros [Hb _ Hs Hd Hr] [Hx Hy] [Hx' Hy'] Hne n o o'. unfold o, o'. set (s := stride (metadata fb)) in *. set (w := width (metadata fb)) in *.
  assert (Hlt : x + y * s < x' + y' * s ∨ x' + y' * s < x + y * s).
  { destruct (Ztrichotomy y y') as [Hlt|[->|Hgt]]; [left; nia| |right; nia].
    assert (x ≠ x') by congruence. lia. }
  destruct Hlt; [left|right]; nia.
Qed.
Lemma screen_wrap fb x y : screen_ok fb → on_screen fb x y →
  u64 (u64 (x + u64 (y * stride (metadata fb))) * bytes_per_px (metadata fb)) = (x + y * stride (metadata fb)) * bytes_per_px (metadata fb)
  ∧ u64 ((x + y * stride (metadata fb)) * bytes_per_px (metadata fb) + bytes_per_px (metadata fb))
    = (x + y * stride (metadata fb)) * bytes_per_px (metadata fb) + bytes_per_px (metadata fb)
  ∧ u64 x = x ∧ u64 y = y.
Proof.
  intros [Hb _ Hs [Hw Hh] _] [Hx Hy]. set (w := stride (metadata fb)) in *. change (2 ^ 16) with 65536 in Hs. set (h := height (metadata fb)) in *.
  set (n := bytes_per_px (metadata fb)) in *. change (2 ^ 16) with 65536 in *. assert (H1 : 0 ≤ y * w ≤ 65536 * 65536) by nia.
  set (p := x + y * w). assert (H2 : 0 ≤ p ≤ 65536 * 65537) by (unfold p; lia). assert (H3 : 0 ≤ p * n ≤ 65536 * 65537 * 4) by nia.
  unfold u64. rewrite !(wrap_id 64 (y * w)), !(wrap_id 64 x), !(wrap_id 64 y) by (unfold in_width; change (2 ^ 64) with (65536 * 65536 * 65536 * 65536); lia).
  fold p. rewrite !(wrap_id 64 p), !(wrap_id 64 (p * n)), (wrap_id 64 (p * n + n)) by (unfold in_width; change (2 ^ 64) with (65536 * 65536 * 65536 * 65536); lia).
  done.
Qed.
Lemma write_px fb x y c : screen_ok fb → on_screen fb x y → ∃ fb', write_px_with_color (u64 x) (u64 y) c fb = Done fb' ∧ same_frame fb fb'
  ∧ ∀ x' y', on_screen fb x' y' → pixel fb' x' y' = if bool_decide ((x', y') = (x, y)) then shown fb c else pixel fb x' y'.
Proof.
  intros Hok Hin. destruct (screen_wrap fb x y Hok Hin) as (W1 & W2 & W3 & W4). unfold write_px_with_color. rewrite W3, W4, W1, W2.
  destruct (px_bounds fb x y Hok Hin) as [B1 B2]. pose proof (ok_bpp _ Hok) as Hn. rewrite !bool_decide_true by lia. cbn [andb].
  eexists. split; [reflexivity|]. change (take _ (px_bytes _ _)) with (shown fb c). set (o := (x + y * stride (metadata fb)) * bytes_per_px (metadata fb)) in *.
  set (n := bytes_per_px (metadata fb)) in *. pose proof (length_shown fb c Hok) as Hs. fold n in Hs.
  split; [split_and!; [done..|]; cbn [set_buffer buffer]; apply length_inserts|].
  intros x' y' Hin'. destruct (px_bounds fb x' y' Hok Hin') as [B1' B2']. unfold pixel, px_at. cbn [set_buffer buffer metadata]. fold n in B1', B2'. fold n.
  case_bool_decide as E.
  - injection E as -> ->. fold o. apply list_eq. intros i. destruct (decide (i < Z.to_nat n)%nat) as [Hi|Hi].
    + rewrite lookup_take_lt, lookup_drop by done. rewrite list_lookup_inserts by lia. f_equal. lia.
    + rewrite !lookup_ge_None_2; [done|lia|]. rewrite length_take. lia.
  - assert (Hne : (x, y) ≠ (x', y')) by congruence. pose proof (px_disjoint fb x y x' y' Hok Hin Hin' Hne) as Hdis. fold n in Hdis. fold o in Hdis. cbn zeta in Hdis.
    set (o' := (x' + y' * stride (metadata fb)) * n) in *. apply list_eq. intros i. destruct (decide (i < Z.to_nat n)%nat) as [Hi|Hi].
    + rewrite !lookup_take_lt, !lookup_drop by done. destruct Hdis; [rewrite list_lookup_inserts_ge by lia|rewrite list_lookup_inserts_lt by lia]; done.
    + rewrite !lookup_ge_None_2; [done|rewrite length_take; lia..].
Qed.
Lemma shown_same fb fb' c : metadata fb' = metadata fb → shown fb' c = shown fb c.
Proof. unfold shown, effective_color. by intros ->. Qed.
Lemma on_screen_same fb fb' x y : metadata fb' = metadata fb → on_screen fb x y → on_screen fb' x y.
Proof. unfold on_screen. by intros ->. Qed.
Lemma write_row_draws color row x y fb : screen_ok fb → 0 ≤ x → x + Z.of_nat (length row) ≤ width (metadata fb) → 0 ≤ y < height (metadata fb) →
  ∃ fb', write_row color row x y fb = Done fb' ∧ same_frame fb fb'
  ∧ ∀ x' y', on_screen fb x' y' → pixel fb' x' y' =
      if bool_decide (y' = y ∧ x ≤ x' < x + Z.of_nat (length row)) then shown fb (color (nth (Z.to_nat (x' - x)) row 0)) else pixel fb x' y'.
Proof.
  revert x fb. induction row as [|v row IH]; intros x fb Hok Hx Hw Hy; cbn [write_row length] in *.
  - exists fb. split_and!; [done|done|]. intros x' y' _. by rewrite bool_decide_false by lia.
  - destruct (write_px fb x y (color v) Hok) as (fb1 & -> & Hf1 & Hp1); [split; lia|]. cbn [mbind outcome_bind]. pose proof Hf1 as (Hm & _ & _ & Hl).
    destruct (IH (x + 1) fb1) as (fb2 & -> & Hf2 & Hp2); [by apply (screen_same fb)|lia|rewrite Hm; lia|by rewrite Hm|].
    exists fb2. split_and!; [done|by eapply same_frame_trans|]. intros x' y' Hin. rewrite Hp2 by (by apply (on_screen_same fb)). rewrite Hp1 by done.
    rewrite (shown_same fb fb1) by done. destruct (decide (y' = y)) as [->|Hy'].
    + destruct (decide (x' = x)) as [->|Hx'].
      * rewrite bool_decide_false by lia. rewrite !bool_decide_true by (done || lia). by rewrite Z.sub_diag.
      * rewrite (bool_decide_false ((x', y) = (x, y))) by congruence. destruct (decide (x + 1 ≤ x' < x + 1 + Z.of_nat (length row))).
        -- rewrite !bool_decide_true by lia. replace (Z.to_nat (x' - x)) with (S (Z.to_nat (x' - (x + 1)))) by lia. done.
        -- by rewrite !bool_decide_false by lia.
    + by rewrite !bool_decide_false by (lia || congruence).
Qed.
(** The cell of a character. *)
Definition in_cell (x y w h x' y' : Z) : Prop := x ≤ x' < x + w ∧ y ≤ y' < y + h.
#[global] Instance in_cell_dec x y w h x' y' : Decision (in_cell x y w h x' y').
Proof. unfold in_cell. apply _. Defined.
Lemma write_rows_draws color rows w x y fb : screen_ok fb → Forall (λ row, Z.of_nat (length row) = w) rows → 0 ≤ x → x + w ≤ width (metadata fb) → 0 ≤ y →
  y + Z.of_nat (length rows) ≤ height (metadata fb) → ∃ fb', write_rows color rows x y fb = Done fb' ∧ same_frame fb fb'
  ∧ ∀ x' y', on_screen fb x' y' → pixel fb' x' y' =
      if bool_decide (in_cell x y w (Z.of_nat (length rows)) x' y') then shown fb (color (nth (Z.to_nat (x' - x)) (nth (Z.to_nat (y' - y)) rows []) 0)) else pixel fb x' y'.
Proof.
  unfold in_cell. revert y fb. induction rows as [|row rows IH]; intros y fb Hok Hrows Hx Hw Hy Hh; cbn [write_rows length] in *.
  - exists fb. split_and!; [done|done|]. intros x' y' _. by rewrite bool_decide_false by lia.
  - apply Forall_cons in Hrows as [Hrow Hrows].
    destruct (write_row_draws color row x y fb) as (fb1 & -> & Hf1 & Hp1); [done|done|lia|lia|]. cbn [mbind outcome_bind]. pose proof Hf1 as (Hm & _ & _ & Hl).
    destruct (IH (y + 1) fb1) as (fb2 & -> & Hf2 & Hp2); [by apply (screen_same fb)|done|done|by rewrite Hm|lia|rewrite Hm; lia|].
    exists fb2. split_and!; [done|by eapply same_frame_trans|]. intros x' y' Hin. rewrite Hp2 by (by apply (on_screen_same fb)). rewrite Hp1 by done.
    rewrite (shown_same fb fb1) by done. rewrite Hrow. destruct (decide (x ≤ x' < x + w)); [|by rewrite !bool_decide_false by lia].
    destruct (decide (y' = y)) as [->|Hy'].
    + rewrite bool_decide_false by lia. rewrite !bool_decide_true by lia. by rewrite Z.sub_diag.
    + rewrite (bool_decide_false (y' = y ∧ _)) by lia. destruct (decide (y + 1 ≤ y' < y + 1 + Z.of_nat (length rows))).
      * rewrite !bool_decide_true by lia. replace (Z.to_nat (y' - y)) with (S (Z.to_nat (y' - (y + 1)))) by lia. done.
      * by rewrite !bool_decide_false by lia.
Qed.
(** After making room the character is within the screen. *)
Lemma length_clear fb : length (buffer (clear fb)) = length (buffer fb).
Proof.
  assert (Hc : ∀ n px, (0 < n)%nat → length px = n → length (fill_chunks n px (buffer fb)) = length (buffer fb)).
  { intros n px Hn Hp. unfold fill_chunks. rewrite length_app, length_take, length_concat, fmap_replicate, Hp.
    pose proof (Nat.mod_upper_bound (length (buffer fb)) n ltac:(lia)). pose proof (Nat.div_mod (length (buffer fb)) n ltac:(lia)) as Hdm.
    assert (Hs : ∀ k, sum_list (replicate k n) = (k * n)%nat) by (induction k as [|k IH]; cbn; lia). rewrite Hs.
    pose proof (Nat.mod_le (length (buffer fb)) n ltac:(lia)). lia. }
  unfold clear. cbn [set_cursor metadata]. destruct (bg_color (metadata fb)) as [c|]; [|cbn; by rewrite length_replicate].
  repeat case_bool_decide; cbn [set_buffer buffer]; [apply Hc; [lia|]; rewrite length_take, length_px; done|apply Hc; [lia|apply length_px]|by rewrite length_replicate].
Qed.
Lemma clear_frame fb : metadata (clear fb) = metadata fb ∧ cursor_x (clear fb) = BORDER ∧ cursor_y (clear fb) = BORDER.
Proof. unfold clear. cbn [set_cursor metadata]. destruct (bg_color (metadata fb)); repeat case_bool_decide; done. Qed.
Definition cursor_ok fb : Prop := 0 ≤ cursor_x fb < 2 ^ 32 ∧ 0 ≤ cursor_y fb < 2 ^ 60.
Lemma newline_frame fb : cursor_ok fb → metadata (newline fb) = metadata fb ∧ buffer (newline fb) = buffer fb ∧ cursor_x (newline fb) = BORDER
  ∧ cursor_y (newline fb) = cursor_y fb + 20.
Proof.
  intros [_ Hy]. split_and!; [done..|]. change (u64 (cursor_y fb + 20) = cursor_y fb + 20). unfold u64. apply wrap_id. unfold in_width.
  change (2 ^ 64) with (2 ^ 60 * 16). lia.
Qed.
Lemma make_room_fits fb : screen_ok fb → cursor_ok fb → let fb' := make_room fb in
  screen_ok fb' ∧ metadata fb' = metadata fb ∧ 0 ≤ cursor_x fb' ∧ cursor_x fb' + CHAR_WIDTH < width (metadata fb)
  ∧ 0 ≤ cursor_y fb' ∧ cursor_y fb' + CHAR_HEIGHT + BORDER < height (metadata fb).
Proof.
  intros Hok Hc fb'. pose proof (ok_room _ Hok) as [Hr1 Hr2]. pose proof (ok_dims _ Hok) as [Hd1 Hd2]. pose proof char_width_pos as Hcw.
  change (2 ^ 16) with 65536 in *. unfold BORDER, CHAR_HEIGHT in *.
  assert (Hwrap : ∀ z, 0 ≤ z < 2 ^ 61 → u64 z = z) by (intros z Hz; unfold u64; apply wrap_id; unfold in_width; change (2 ^ 64) with (2 ^ 61 * 8); lia).
  set (fb1 := if bool_decide (width (metadata fb) ≤ u64 (cursor_x fb + CHAR_WIDTH)) then newline fb else fb).
  assert (H1 : metadata fb1 = metadata fb ∧ length (buffer fb1) = length (buffer fb) ∧ 0 ≤ cursor_x fb1 ∧ cursor_x fb1 + CHAR_WIDTH < width (metadata fb)
    ∧ 0 ≤ cursor_y fb1 < 2 ^ 60 + 20).
  { destruct Hc as [Hx Hy]. assert (Hx61 : 0 ≤ cursor_x fb + CHAR_WIDTH < 2 ^ 61) by (change (2 ^ 61) with (2 ^ 32 * 2 ^ 29); lia).
    unfold fb1. rewrite Hwrap by done. case_bool_decide as Hfit.
    - destruct (newline_frame fb) as (-> & -> & -> & ->); [done|]. unfold BORDER. split_and!; [done|done|lia..].
    - split_and!; [done|done|lia..]. }
  destruct H1 as (Hm1 & Hl1 & Hx0 & Hx1 & Hy1). unfold fb', make_room. fold fb1. unfold CHAR_HEIGHT, BORDER.
  rewrite Hwrap by (change (2 ^ 61) with (2 ^ 60 * 2); lia). rewrite Hm1. case_bool_decide as Hfit.
  - destruct (clear_frame fb1) as (Hm2 & -> & ->). unfold BORDER. split_and!; [apply (screen_same fb); [by rewrite Hm2|by rewrite length_clear|done]|by rewrite Hm2|lia..].
  - split_and!; [by apply (screen_same fb)|done|lia..].
Qed.
Lemma render_total ch : ∃ rows, render_char 1 ch = Done rows ∧ length rows = 16%nat ∧ Forall (λ row, Z.of_nat (length row) = CHAR_WIDTH) rows
  ∧ ∀ r, get_raster ch = Some r → rows = r.
Proof.
  assert (Hshape : ∀ c rows, get_raster c = Some rows → length rows = 16%nat ∧ Forall (λ row, Z.of_nat (length row) = CHAR_WIDTH) rows).
  { intros c rows Hr. destruct (raster_rows c rows Hr) as [Hl Hf]. split; [done|]. eapply Forall_impl; [exact Hf|]. by intros row [? _]. }
  cbn [render_char]. destruct (get_raster ch) as [rows|] eqn:E.
  - destruct (Hshape ch rows E). exists rows. split_and!; [done..|]. by intros r [= ->].
  - destruct replacement_raster as [rows E']. rewrite E'. destruct (Hshape 0xFFFD rows E'). exists rows. by split_and!.
Qed.
Definition shade (color : option RgbaColor) : Z → RgbaColor := match color with Some c => rendered_color c | None => grey end.
Definition printable (ch : Z) : Prop := ch ≠ 0x0A ∧ ch ≠ 0x0D.
Lemma putchar_draw ch color fb : screen_ok fb → cursor_ok fb → printable ch → let room := make_room fb in
  ∃ rows fb', putchar ch color fb = Done fb' ∧ (∀ r, get_raster ch = Some r → rows = r) ∧ screen_ok fb' ∧ metadata fb' = metadata fb
    ∧ cursor_x fb' = cursor_x room + CHAR_WIDTH ∧ cursor_y fb' = cursor_y room
    ∧ ∀ x y, on_screen fb x y → pixel fb' x y =
        if bool_decide (in_cell (cursor_x room) (cursor_y room) CHAR_WIDTH CHAR_HEIGHT x y)
        then shown fb (shade color (nth (Z.to_nat (x - cursor_x room)) (nth (Z.to_nat (y - cursor_y room)) rows []) 0)) else pixel room x y.
Proof.
  intros Hok Hc [Hn Hr] room. destruct (make_room_fits fb Hok Hc) as (Hok1 & Hm1 & Hx0 & Hx1 & Hy0 & Hy1). fold room in Hok1, Hm1, Hx0, Hx1, Hy0, Hy1.
  destruct (render_total ch) as (rows & Hrend & Hlen & Hrows & Hras). exists rows.
  destruct (write_rows_draws (shade color) rows CHAR_WIDTH (cursor_x room) (cursor_y room) room) as (fb1 & Hw & (Hm2 & Hcx & Hcy & Hl2) & Hp);
    [done|done|done|rewrite Hm1; lia|done|rewrite Hlen, Hm1; unfold CHAR_HEIGHT, BORDER in *; lia|].
  exists (advance_cursor (CHAR_WIDTH + CHAR_SPACING) fb1).
  assert (Hput : putchar ch color fb = Done (advance_cursor (CHAR_WIDTH + CHAR_SPACING) fb1)).
  { unfold putchar. rewrite !bool_decide_false by done. fold room. rewrite Hrend. cbn [mbind outcome_bind].
    destruct color; unfold write_rasterized_char, write_rasterized_char_with_color; cbn [shade] in Hw; by rewrite Hw. }
  pose proof (ok_dims _ Hok) as [Hd _]. change (2 ^ 16) with 65536 in Hd. pose proof char_width_pos as Hcw.
  split_and!; [done|done|apply (screen_same room); [done|done|done]|by rewrite <- Hm1| |done|].
  - cbn [advance_cursor set_cursor cursor_x]. rewrite Hcx. unfold CHAR_SPACING, u64. rewrite Z.add_0_r. apply wrap_id. unfold in_width. change (2 ^ 64) with (65536 * 2 ^ 48). lia.
  - intros x y Hin. change (pixel (advance_cursor (CHAR_WIDTH + CHAR_SPACING) fb1) x y) with (pixel fb1 x y). rewrite Hp by (by apply (on_screen_same fb)).
    rewrite Hlen. change (Z.of_nat 16) with CHAR_HEIGHT. by rewrite (shown_same fb room) by done.
Qed.
(** C29: a printed character, other than a new line or a carriage return, that the font has,
    on a screen that has room for a character and whose buffer reaches to its last pixel (the
    buffers that the constructors make do so when lines are not padded, and not when they are).
    Where it does not fit in the line or on the page, the cursor first goes to the next line
    or the page is cleared.  Then each pixel of its cell shows the intensity of its raster,
    over the background, no other pixel changes, and the cursor moves by the width of the
    cell. *)
Theorem putchar_draws ch rows color fb : screen_ok fb → cursor_ok fb → printable ch → get_raster ch = Some rows → let room := make_room fb in
  ∃ fb', putchar ch color fb = Done fb' ∧ metadata fb' = metadata fb
    ∧ cursor_x fb' = cursor_x room + CHAR_WIDTH ∧ cursor_y fb' = cursor_y room
    ∧ ∀ x y, on_screen fb x y → pixel fb' x y =
        if bool_decide (in_cell (cursor_x room) (cursor_y room) CHAR_WIDTH CHAR_HEIGHT x y)
        then shown fb (shade color (nth (Z.to_nat (x - cursor_x room)) (nth (Z.to_nat (y - cursor_y room)) rows []) 0)) else pixel room x y.
Proof.
  intros Hok Hc Hp Hr room. destruct (putchar_draw ch color fb Hok Hc Hp) as (rows' & fb' & H1 & H2 & _ & H3 & H4 & H5 & H6).
  exists fb'. rewrite (H2 rows Hr) in H6. done.
Qed.
Lemma putchar_safe ch color fb : screen_ok fb → cursor_ok fb → cursor_y fb + 20 < 2 ^ 60 →
  ∃ fb', putchar ch color fb = Done fb' ∧ screen_ok fb' ∧ metadata fb' = metadata fb ∧ cursor_ok fb' ∧ cursor_y fb' ≤ Z.max (cursor_y fb + 20) (2 ^ 16).
Proof.
  intros Hok Hc Hy. pose proof (ok_dims _ Hok) as [Hd1 Hd2]. destruct (newline_frame fb Hc) as (Nm & Nb & Nx & Ny). pose proof Hc as [Hcx Hcy].
  unfold putchar. destruct (decide (ch = 0x0A)) as [->|Hn]; [|destruct (decide (ch = 0x0D)) as [->|Hr]].
  - exists (newline fb). split_and!; [done|apply (screen_same fb); [done|by rewrite Nb|done]|done| |rewrite Ny; lia]. split; [by rewrite Nx|rewrite Ny; lia].
  - exists (carriage_return fb). split_and!; [done|by apply (screen_same fb)|done| |cbn; lia]. split; [done|exact Hcy].
  - destruct (putchar_draw ch color fb Hok Hc) as (rows & fb' & Hput & _ & Hok' & Hm & Hx & Hy' & _); [by split|].
    destruct (make_room_fits fb Hok Hc) as (_ & _ & Hx0 & Hx1 & Hy0 & Hy1). unfold putchar in Hput. exists fb'.
    pose proof char_width_pos as Hcw. unfold CHAR_HEIGHT, BORDER in Hy1. change (2 ^ 16) with 65536 in *. change (2 ^ 32) with 4294967296. change (2 ^ 60) with (65536 * 17592186044416).
    split_and!; [done|done|done| |rewrite Hy'; lia]. split; [rewrite Hx; change (2 ^ 32) with 4294967296; lia|rewrite Hy'; change (2 ^ 60) with (65536 * 17592186044416); lia].
Qed.
(** Printing any text ends without a panic: every pixel that is written is within the
    buffer.  This needs a screen with room for a character, and a buffer that reaches to
    its last pixel. *)
Theorem text_stays_on_screen text c fb : screen_ok fb → cursor_ok fb → cursor_y fb + 20 * Z.of_nat (length text) + 2 ^ 16 < 2 ^ 60 →
  (∃ fb', write_str text fb = Done fb' ∧ screen_ok fb' ∧ metadata fb' = metadata fb)
  ∧ (∃ fb', write_str_with_color text c fb = Done fb' ∧ screen_ok fb' ∧ metadata fb' = metadata fb).
Proof.
  assert (Hgen : ∀ color fb, screen_ok fb → cursor_ok fb → Z.max (cursor_y fb) (2 ^ 16) + 20 * Z.of_nat (length text) < 2 ^ 60 →
    ∃ fb', write_chars (λ ch, putchar ch color) text fb = Done fb' ∧ screen_ok fb' ∧ metadata fb' = metadata fb).
  { intros color. induction text as [|ch text IH]; intros fb0 Hok Hc Hy; cbn [write_chars length] in *; [by exists fb0|].
    destruct (putchar_safe ch color fb0 Hok Hc) as (fb1 & -> & Hok1 & Hm1 & Hc1 & Hy1); [lia|]. cbn [mbind outcome_bind].
    destruct (IH fb1 Hok1 Hc1) as (fb2 & H1 & H2 & H3); [lia|]. exists fb2. split_and!; [done|done|by rewrite H3]. }
  intros Hok Hc Hy. pose proof Hc as [_ Hcy]. split; apply Hgen; done || lia.
Qed.
(** Clearing the screen: every pixel of a screen of 3 or 4 bytes per pixel, without padding, shows the
    background, and the cursor is at the first cell. *)
Lemma pixel_of_chunks (n k i : nat) (px : list Z) : length px = n → (i < k)%nat → take n (drop (i * n) (concat (replicate k px))) = px.
Proof.
  intros Hp. revert k. induction i as [|i IH]; intros k Hk; (destruct k as [|k]; [lia|]); cbn [replicate concat Nat.mul].
  - by rewrite drop_0, take_app_length'.
  - rewrite <- drop_drop, drop_app_length' by done. apply IH. lia.
Qed.
Theorem clear_shows_background fb c : screen_ok fb → constructed fb → stride (metadata fb) = width (metadata fb) → bg_color (metadata fb) = Some c → 3 ≤ bytes_per_px (metadata fb) →
  cursor_x (clear fb) = BORDER ∧ cursor_y (clear fb) = BORDER
  ∧ ∀ x y, on_screen fb x y → pixel (clear fb) x y = take (Z.to_nat (bytes_per_px (metadata fb))) (px_bytes (layout (metadata fb)) c).
Proof.
  intros Hok Hl Hs Hbg Hb. destruct (clear_frame fb) as (Hm & Hx & Hy). split_and!; [done|done|]. intros x y Hin. pose proof (ok_bpp _ Hok) as Hn.
  unfold constructed in Hl. destruct (px_bounds fb x y Hok Hin) as [B1 B2]. unfold pixel. rewrite Hm. unfold px_at.
  set (n := bytes_per_px (metadata fb)) in *. set (k := Z.to_nat (height (metadata fb) * width (metadata fb))). set (i := Z.to_nat (x + y * stride (metadata fb))).
  assert (Hbuf : buffer (clear fb) = concat (replicate k (take (Z.to_nat n) (px_bytes (layout (metadata fb)) c)))).
  { assert (Hk : length (buffer fb) = (k * Z.to_nat n)%nat) by (unfold k; apply Nat2Z.inj; rewrite Hl, Nat2Z.inj_mul, !Z2Nat.id by (destruct Hin; nia); lia).
    assert (Hf : ∀ px, fill_chunks (Z.to_nat n) px (buffer fb) = concat (replicate k px)).
    { intros px. unfold fill_chunks. rewrite Hk, Nat.Div0.mod_mul, Nat.div_mul by lia. done. }
    unfold clear. cbn [set_cursor metadata]. rewrite Hbg. fold n. cbn [set_cursor buffer].
    assert (n = 3 ∨ n = 4) as [E|E] by lia; rewrite E in *; cbn [set_buffer buffer].
    - change (buffer (set_cursor BORDER BORDER fb)) with (buffer fb). apply (Hf _).
    - change (buffer (set_cursor BORDER BORDER fb)) with (buffer fb). rewrite (take_ge (px_bytes (layout (metadata fb)) c) (Z.to_nat 4)) by (rewrite length_px; lia).
      apply (Hf _). }
  rewrite Hbuf. destruct Hin as [Hix Hiy]. assert (0 ≤ x + y * stride (metadata fb)) by (rewrite Hs; nia).
  replace (Z.to_nat ((x + y * stride (metadata fb)) * n)) with (i * Z.to_nat n)%nat by (unfold i; rewrite Z2Nat.inj_mul by lia; done).
  apply pixel_of_chunks; [rewrite length_take, length_px; lia|]. unfold i, k. apply Z2Nat.inj_lt; [lia|nia|]. rewrite Hs. nia.
Qed.
(** With padded lines, the buffer that the constructors make is too short: drawing the last
    pixel of the last line panics. *)
Theorem padded_lines_panic fb c : constructed fb → 1 ≤ bytes_per_px (metadata fb) ≤ 4 →
  0 < width (metadata fb) < stride (metadata fb) → stride (metadata fb) < 2 ^ 16 → 2 ≤ height (metadata fb) < 2 ^ 16 →
  write_px_with_color (width (metadata fb) - 1) (height (metadata fb) - 1) c fb = Panicked.
Proof using Type.
  unfold constructed. intros Hl Hb Hw Hs Hh. unfold write_px_with_color. rewrite Hl. set (w := width (metadata fb)) in *. set (s := stride (metadata fb)) in *.
  set (h := height (metadata fb)) in *. set (n := bytes_per_px (metadata fb)) in *. change (2 ^ 16) with 65536 in *.
  assert (H1 : 0 ≤ (h - 1) * s ≤ 65536 * 65536) by nia. rewrite (u64_id ((h - 1) * s)) by (change (2 ^ 64) with (65536 * 65536 * 65536 * 65536); lia).
  set (p := w - 1 + (h - 1) * s). assert (H2 : 0 ≤ p ≤ 65536 * 65537) by (unfold p; lia). assert (H3 : 0 ≤ p * n ≤ 65536 * 65537 * 4) by nia.
  rewrite !(u64_id p), !(u64_id (p * n)), (u64_id (p * n + n)) by (change (2 ^ 64) with (65536 * 65536 * 65536 * 65536); lia).
  rewrite (bool_decide_false (p * n + n ≤ _)); [by rewrite andb_false_r|].
  assert (h * w < p + 1) by (unfold p; nia). nia.
Qed.
End screen.

(** * Modes *)

(** A distance that fits in 31 bits is not wrapped. *)
Lemma px_diff_exact x y i : 0 ≤ x < 2 ^ 15 → 0 ≤ y < 2 ^ 15 → 0 ≤ mode_width i < 2 ^ 15 → 0 ≤ mode_height i < 2 ^ 15 →
  px_diff x y i = (mode_width i - x) ^ 2 + (mode_height i - y) ^ 2.
Proof.
  change (2 ^ 15) with 32768. intros Hx Hy Hw Hh.
  assert (Hsq : ∀ z, -32768 < z < 32768 → square (u32 z) = z ^ 2).
  { intros z Hz. unfold square, u32, wrap. rewrite <- Z.mul_mod by lia. rewrite Z.mod_small, Z.pow_2_r; [done|]. change (2 ^ 32) with (65536 * 65536). nia. }
  assert (Hle : ∀ z, -32768 < z < 32768 → 0 ≤ z ^ 2 ≤ 32768 * 32768) by (intros z Hz; rewrite Z.pow_2_r; nia).
  unfold px_diff. rewrite !Hsq by lia. unfold u32. apply wrap_id. unfold in_width. change (2 ^ 32) with (65536 * 65536).
  pose proof (Hle (mode_width i - x) ltac:(lia)). pose proof (Hle (mode_height i - y) ltac:(lia)). lia.
Qed.
(** The first is at least as close, and deeper when they are as close. *)
Definition closer (a b : best) : Prop := best_diff a < best_diff b ∨ (best_diff a = best_diff b ∧ best_bpp b ≤ best_bpp a).
Lemma closer_refl a : closer a a.
Proof. right. split; [done|lia]. Qed.
Lemma closer_trans a b c : closer a b → closer b c → closer a c.
Proof. unfold closer. lia. Qed.
Section vesa.
Context {D : Type} `{VB : VideoBios D}.
(** A mode of the list that can be used, as a candidate. *)
Definition candidate (x y : Z) (d : D) (modes : list Z) (b : best) : Prop :=
  ∃ mode i, mode ∈ modes ∧ query_modeinfo mode d = Some i ∧ usable_mode i = true
    ∧ b = {| best_mode := mode; best_diff := px_diff x y i; best_bpp := bits_per_pixel i |}.
Lemma best_of_modes x y (d : D) modes : let b := fold_left (try_mode x y d) modes no_best in
  (b = no_best ∨ candidate x y d modes b) ∧ (∀ c, candidate x y d modes c → closer b c) ∧ closer b no_best.
Proof.
  assert (Hgen : ∀ ms seen b0, (b0 = no_best ∨ candidate x y d seen b0) ∧ (∀ c, candidate x y d seen c → closer b0 c) ∧ closer b0 no_best →
    let b := fold_left (try_mode x y d) ms b0 in
    (b = no_best ∨ candidate x y d (seen ++ ms) b) ∧ (∀ c, candidate x y d (seen ++ ms) c → closer b c) ∧ closer b no_best).
  { induction ms as [|mode ms IH]; intros seen b0 (H1 & H2 & H3); cbn [fold_left]; [by rewrite app_nil_r|].
    replace (seen ++ mode :: ms) with ((seen ++ [mode]) ++ ms) by (by rewrite <- app_assoc). apply IH.
    assert (Hmono : ∀ c, candidate x y d seen c → candidate x y d (seen ++ [mode]) c) by (intros c (m & i & Hm & ?); exists m, i; set_solver).
    assert (Hnew : ∀ c, candidate x y d (seen ++ [mode]) c → candidate x y d seen c ∨ candidate x y d [mode] c).
    { intros c (m & i & Hm & Hr). apply elem_of_app in Hm as [Hm|Hm]; [left|right]; by exists m, i. }
    unfold try_mode. destruct (query_modeinfo mode d) as [i|] eqn:Hq.
    2:{ split_and!; [destruct H1; auto| |done]. intros c [Hc|(m & j & Hm & Hj & _)]%Hnew; [by apply H2|]. apply list_elem_of_singleton in Hm as ->. congruence. }
    destruct (usable_mode i) eqn:Hu.
    2:{ split_and!; [destruct H1; auto| |done]. intros c [Hc|(m & j & Hm & Hj & Hu' & _)]%Hnew; [by apply H2|]. apply list_elem_of_singleton in Hm as ->. congruence. }
    set (new := {| best_mode := mode; best_diff := px_diff x y i; best_bpp := bits_per_pixel i |}).
    assert (Hcn : candidate x y d (seen ++ [mode]) new) by (exists mode, i; set_solver).
    assert (Hone : ∀ c, candidate x y d [mode] c → c = new).
    { intros c (m & j & Hm & Hj & _ & ->). apply list_elem_of_singleton in Hm as ->. assert (i = j) as <- by congruence. done. }
    assert (Hwin : closer new b0 → (new = no_best ∨ candidate x y d (seen ++ [mode]) new) ∧ (∀ c, candidate x y d (seen ++ [mode]) c → closer new c) ∧ closer new no_best).
    { intros Hcl. split_and!; [by right| |by eapply closer_trans]. intros c [Hc| ->%Hone]%Hnew; [eapply closer_trans; [exact Hcl|by apply H2]|apply closer_refl]. }
    assert (Hlose : closer b0 new → (b0 = no_best ∨ candidate x y d (seen ++ [mode]) b0) ∧ (∀ c, candidate x y d (seen ++ [mode]) c → closer b0 c) ∧ closer b0 no_best).
    { intros Hcl. split_and!; [destruct H1; auto| |done]. intros c [Hc| ->%Hone]%Hnew; [by apply H2|done]. }
    destruct (px_diff x y i ?= best_diff b0) eqn:Hcmp; [apply Z.compare_eq in Hcmp|apply Z.compare_lt_iff in Hcmp|apply Z.compare_gt_iff in Hcmp].
    - case_bool_decide; [apply Hwin|apply Hlose]; right; cbn; lia.
    - apply Hwin. left. done.
    - apply Hlose. left. done. }
  apply (Hgen modes [] no_best). split_and!; [by left| |apply closer_refl]. intros c (m & i & Hm & _). by apply not_elem_of_nil in Hm.
Qed.
(** The mode that is set is, among the linear graphic modes of the video BIOS with a
    packed or direct color memory, one at the least distance from the size that is asked
    for, and of the most bits per pixel among those; where there is none it is mode 1. *)
Theorem vesa_mode_closest fuel m ptr x y d info (d' : D) : vesa_mode_setup fuel m ptr x y d = Done (info, d') →
  ∃ modes b, vesa_video_modes fuel m ptr 0 = Done modes ∧ set_vesa_mode (Z.lor (best_mode b) 0x4000) d = Some d'
    ∧ query_modeinfo (Z.lor (best_mode b) 0x4000) d' = Some info ∧ (b = no_best ∨ candidate x y d modes b) ∧ (∀ c, candidate x y d modes c → closer b c).
Proof.
  unfold vesa_mode_setup. destruct (vesa_video_modes fuel m ptr 0) as [modes| | |] eqn:E; [|done..]. cbn [mbind outcome_bind].
  destruct (best_of_modes x y d modes) as (H1 & H2 & _). set (b := fold_left _ _ _) in *. destruct (set_vesa_mode _ d) as [d1|] eqn:Hs; [|done].
  cbn [mbind outcome_bind unwrap]. destruct (query_modeinfo _ d1) as [i|] eqn:Hq; [|done]. cbn [mbind outcome_bind unwrap]. intros [= <- <-].
  by exists modes, b.
Qed.
End vesa.

(** * A screen of 24 by 40 pixels, and a BIOS with two modes *)

#[global] Instance block_font : Font := {|
  CHAR_WIDTH := 7;
  get_raster ch := if bool_decide (ch < 128) || bool_decide (ch = 0xFFFD) then Some (replicate 16 (replicate 7 (if bool_decide (ch = 0x20) then 0 else 255))) else None;
  get_glyph _ := Some (Halfwidth (replicate 16 0x18))
|}.
#[global] Instance block_font_laws : FontLaws.
Proof.
  split; [done| |by eexists]. intros ch rows Hr. cbn in Hr. destruct (_ || _); [|done]. injection Hr as <-. split; [done|].
  destruct (bool_decide (ch = 0x20)); repeat constructor; done.
Qed.
Definition small_screen : TextFrameBuffer :=
  {| buffer := replicate 3840 0; cursor_x := 6; cursor_y := 6;
     metadata := {| layout := BGR; bytes_per_px := 4; width := 24; height := 40; stride := 24; bg_color := Some DEFAULT_BG_COLOR |} |}.
Lemma small_screen_ok : screen_ok small_screen.
Proof. split; cbn -[replicate]; [lia|rewrite length_replicate; lia|lia|lia|unfold BORDER, CHAR_HEIGHT; lia]. Qed.
Lemma small_cursor_ok : cursor_ok small_screen.
Proof. split; cbn; lia. Qed.
(** The first pixel of the character is white, the pixel before it is as it was. *)
Lemma putchar_draws_witness : ∃ fb', putchar 0x41 None small_screen = Done fb' ∧ cursor_x fb' = 13 ∧ pixel fb' 6 6 = [255; 255; 255; 0]
  ∧ pixel fb' 5 6 = [0; 0; 0; 0].
Proof.
  destruct (putchar_draws 0x41 (replicate 16 (replicate 7 255)) None small_screen) as (fb' & H1 & _ & H2 & _ & H3).
  - apply small_screen_ok.
  - apply small_cursor_ok.
  - split; discriminate.
  - reflexivity.
  - exists fb'. split; [exact H1|]. split; [exact H2|].
    assert (Hin : on_screen small_screen 6 6 ∧ on_screen small_screen 5 6) by (unfold on_screen; cbn; lia). destruct Hin as [Hin1 Hin2].
    split; [rewrite (H3 6 6 Hin1)|rewrite (H3 5 6 Hin2)]; vm_compute; reflexivity.
Defined.
Lemma text_stays_on_screen_witness : ∃ fb', write_str [0x48; 0x69; 0x21; 0x0A; 0x3F; 0x1F600] small_screen = Done fb' ∧ screen_ok fb'.
Proof.
  destruct (text_stays_on_screen [0x48; 0x69; 0x21; 0x0A; 0x3F; 0x1F600] DEFAULT_BG_COLOR small_screen) as [(fb' & H1 & H2 & _) _].
  - apply small_screen_ok.
  - apply small_cursor_ok.
  - vm_compute. reflexivity.
  - exists fb'. split; [exact H1|exact H2].
Defined.
Lemma clear_shows_background_witness : pixel (clear small_screen) 23 39 = [34; 28; 26; 0].
Proof.
  destruct (clear_shows_background small_screen DEFAULT_BG_COLOR) as (_ & _ & H).
  - apply small_screen_ok.
  - reflexivity.
  - reflexivity.
  - reflexivity.
  - vm_compute. discriminate.
  - assert (Hin : on_screen small_screen 23 39) by (unfold on_screen; cbn; lia). rewrite (H 23 39 Hin). reflexivity.
Defined.
Definition sample_mode (w h bpp : Z) : ModeInfoBlock := {|
  mode_attributes := 0x9B; window_a_attrs := 0; window_b_attrs := 0; win_granularity := 0; win_size := 0; win_a_segment := 0; win_b_segment := 0;
  win_func_ptr := 0; bytes_per_scanline := w * (bpp / 8); mode_width := w; mode_height := h; char_width := 8; char_height := 16; planes_count := 1;
  bits_per_pixel := bpp; banks_count := 1; memory_model := DirectColor; bank_size := 0; image_pages_count := 0; red_mask_s := 8; red_field_pos := 16;
  green_mask_s := 8; green_field_pos := 8; blue_mask_s := 8; blue_field_pos := 0; rsvd_mask_size := 8; rsvd_field_pos := 24; direct_color_mode := 0;
  framebuffer := 0xE0000000
|}.
#[global] Instance sample_bios : VideoBios Z := {|
  query_modeinfo mode _ := if bool_decide (mode = 0x118) || bool_decide (mode = 0x4118) then Some (sample_mode 1024 768 32)
    else if bool_decide (mode = 0x112) then Some (sample_mode 640 480 24) else None;
  set_vesa_mode mode _ := Some mode
|}.
Lemma vesa_mode_closest_witness : ∃ modes b, vesa_video_modes 4 (with_bytes 0x6000 [0x12; 1; 0x18; 1; 0xFF; 0xFF] (λ _, 0)) 0x6000 0 = Done modes
  ∧ set_vesa_mode (Z.lor (best_mode b) 0x4000) 0 = Some 0x4118 ∧ (∀ c, candidate 1280 720 0 modes c → closer b c).
Proof.
  destruct (vesa_mode_closest 4 (with_bytes 0x6000 [0x12; 1; 0x18; 1; 0xFF; 0xFF] (λ _, 0)) 0x6000 1280 720 0 (sample_mode 1024 768 32) 0x4118)
    as (modes & b & H1 & H2 & _ & _ & H3).
  - vm_compute. reflexivity.
  - exists modes, b. split; [exact H1|]. split; [exact H2|exact H3].
Defined.
Lemma padded_lines_panic_witness : write_px_with_color 23 39 DEFAULT_BG_COLOR
  {| buffer := replicate 3840 0; cursor_x := 6; cursor_y := 6;
     metadata := {| layout := BGR; bytes_per_px := 4; width := 24; height := 40; stride := 32; bg_color := None |} |} = Panicked.
Proof.
  apply (padded_lines_panic {| buffer := replicate 3840 0; cursor_x := 6; cursor_y := 6;
     metadata := {| layout := BGR; bytes_per_px := 4; width := 24; height := 40; stride := 32; bg_color := None |} |} DEFAULT_BG_COLOR);
    [reflexivity|cbn; lia..].
Defined.
