(* ===== verification/Multiboot.v ===== *)
(** The multiboot information structure (src/boot/multiboot/mb_information.rs), by which
    the boot loader hands the framebuffer and its name over to the kernel. *)

From stdpp Require Import strings.
From S2P Require Import Prelude Addr Bitfield MpTable Video.

(** * Flags *)

Definition NO_FLAGS : Z := 0.
Definition MEM_FIELD_VALID : Z := Z.shiftl 1 0.
Definition BOOT_DEVICE_VALID : Z := Z.shiftl 1 1.
Definition CMDLINE_VALID : Z := Z.shiftl 1 2.
Definition MODS_VALID : Z := Z.shiftl 1 3.
Definition SYMS_TABLE_VALID : Z := Z.shiftl 1 4.
Definition SHDR_TABLE_VALID : Z := Z.shiftl 1 5.
Definition MMAP_VALID : Z := Z.shiftl 1 6.
Definition DRIVES_VALID : Z := Z.shiftl 1 7.
Definition CONFIG_TABLE_VALID : Z := Z.shiftl 1 8.
Definition BOOTLOADER_NAME_VALID : Z := Z.shiftl 1 9.
Definition APM_TABLE_VALID : Z := Z.shiftl 1 10.
Definition VBE_TABLE_VALID : Z := Z.shiftl 1 11.
Definition FRAMEBUFFER_VALID : Z := Z.shiftl 1 12.
Definition flags_contain (self mode : Z) : bool := bool_decide (Z.land self mode ≠ NO_FLAGS).

(** * The structure *)

Record MultibootBootDevice := { drive : Z; top_level_part : Z; sub_part : Z; sub_sub_part : Z }.
Record MultibootSymbolTable := { tabsize : Z; strsize : Z; syms_addr : Z; syms_reserved : Z }.
Record VbeMultibootInformation := { control_info : Z; mode_info : Z; vbe_mode : Z; interface_seg : Z; interface_off : Z; interface_len : Z }.
Record MultibootInformation := {
  mb_flags : Z; mem_lower : Z; mem_upper : Z; boot_device : MultibootBootDevice; cmdline : Z; mods_count : Z; mods_addr : Z;
  syms : MultibootSymbolTable; mmap_length : Z; mmap_addr : Z; drives_length : Z; drives_addr : Z; config_table : Z; boot_loader_name : Z;
  apm_table : Z; vbe : VbeMultibootInformation; mb_framebuffer : FramebufferMultibootInformation
}.
Definition no_framebuffer : FramebufferMultibootInformation :=
  {| fb_addr := 0; fb_pitch := 0; fb_width := 0; fb_height := 0; fb_bpp := 0; framebuffer_type := 0; fb_red_field_pos := 0; fb_red_mask_size := 0;
     fb_green_field_pos := 0; fb_green_mask_size := 0; fb_blue_field_pos := 0; fb_blue_mask_size := 0 |}.
(** The length of the memory map is a variable of the loader, its address is fixed. *)
Definition E820_MAP_ADDR : Z := 0x4804.
Definition MultibootInformation_default (e820_map_length : Z) : MultibootInformation := {|
  mb_flags := Z.lor NO_FLAGS MMAP_VALID; mem_lower := 0; mem_upper := 0;
  boot_device := {| drive := 0; top_level_part := 0; sub_part := 0; sub_sub_part := 0 |}; cmdline := 0; mods_count := 0; mods_addr := 0;
  syms := {| tabsize := 0; strsize := 0; syms_addr := 0; syms_reserved := 0 |}; mmap_length := e820_map_length; mmap_addr := E820_MAP_ADDR;
  drives_length := 0; drives_addr := 0; config_table := 0; boot_loader_name := 0; apm_table := 0;
  vbe := {| control_info := 0; mode_info := 0; vbe_mode := 0; interface_seg := 0; interface_off := 0; interface_len := 0 |};
  mb_framebuffer := no_framebuffer
|}.
Definition get_mmap_addr (i : MultibootInformation) : Z := mmap_addr i.
Definition set_bootloader_name (i : MultibootInformation) (str_address : Z) : MultibootInformation := {|
  mb_flags := Z.lor (mb_flags i) BOOTLOADER_NAME_VALID; mem_lower := mem_lower i; mem_upper := mem_upper i; boot_device := boot_device i;
  cmdline := cmdline i; mods_count := mods_count i; mods_addr := mods_addr i; syms := syms i; mmap_length := mmap_length i; mmap_addr := mmap_addr i;
  drives_length := drives_length i; drives_addr := drives_addr i; config_table := config_table i; boot_loader_name := str_address;
  apm_table := apm_table i; vbe := vbe i; mb_framebuffer := mb_framebuffer i
|}.
(** The bytes up to the first zero. *)
Fixpoint c_string (fuel : nat) (m : memory) (a : Z) : outcome (list Z) :=
  let b := m a in
  if bool_decide (b = 0) then Done []
  else match fuel with O => NoFuel | S fuel => s ← c_string fuel m (a + 1); Done (b :: s) end.
Definition get_bootloader_name (fuel : nat) (m : memory) (i : MultibootInformation) : outcome (option (list Z)) :=
  if negb (flags_contain (mb_flags i) BOOTLOADER_NAME_VALID) then Done None
  else name ← c_string fuel m (boot_loader_name i); Done (Some name).
Definition get_framebuffer (i : MultibootInformation) : option FramebufferMultibootInformation :=
  if flags_contain (mb_flags i) FRAMEBUFFER_VALID then Some (mb_framebuffer i) else None.
(** A mode of less than 8 bits per pixel divides by zero. *)
Definition insert_framebuffer_info (i : MultibootInformation) (b : ModeInfoBlock) : outcome MultibootInformation :=
  p ← div_by (bytes_per_scanline b) (Z.shiftr (bits_per_pixel b) 3);
  Done {|
    mb_flags := Z.lor (mb_flags i) FRAMEBUFFER_VALID; mem_lower := mem_lower i; mem_upper := mem_upper i; boot_device := boot_device i;
    cmdline := cmdline i; mods_count := mods_count i; mods_addr := mods_addr i; syms := syms i; mmap_length := mmap_length i; mmap_addr := mmap_addr i;
    drives_length := drives_length i; drives_addr := drives_addr i; config_table := config_table i; boot_loader_name := boot_loader_name i;
    apm_table := apm_table i; vbe := vbe i;
    mb_framebuffer := {| fb_addr := framebuffer b; fb_pitch := p; fb_width := mode_width b; fb_height := mode_height b; fb_bpp := bits_per_pixel b;
      framebuffer_type := 1; fb_red_field_pos := red_field_pos b; fb_red_mask_size := red_mask_s b; fb_green_field_pos := green_field_pos b;
      fb_green_mask_size := green_mask_s b; fb_blue_field_pos := blue_field_pos b; fb_blue_mask_size := blue_mask_s b |}
  |}.

(** * Handing over *)

Lemma flag_set f b : 0 ≤ b → flags_contain (Z.lor f (Z.shiftl 1 b)) (Z.shiftl 1 b) = true.
Proof.
  intros Hb. unfold flags_contain. apply bool_decide_true. intros E. apply (f_equal (λ z, Z.testbit z b)) in E.
  rewrite Z.land_spec, Z.lor_spec, Z.shiftl_1_l, Z.pow2_bits_true, Z.bits_0, orb_true_r in E by done. done.
Qed.
Lemma flag_kept f b c : 0 ≤ b → 0 ≤ c → b ≠ c → flags_contain (Z.lor f (Z.shiftl 1 b)) (Z.shiftl 1 c) = flags_contain f (Z.shiftl 1 c).
Proof.
  intros Hb Hc Hne. unfold flags_contain. rewrite Z.land_lor_distr_l.
  assert (E : Z.land (Z.shiftl 1 b) (Z.shiftl 1 c) = 0).
  { apply Z.bits_inj'. intros j Hj. rewrite Z.land_spec, !Z.shiftl_1_l, Z.bits_0. destruct (decide (j = b)) as [->|]; [|by rewrite Z.pow2_bits_false by lia].
    by rewrite (Z.pow2_bits_false c b), andb_false_r by lia. }
  by rewrite E, Z.lor_0_r.
Qed.
Lemma c_string_reads m a name fuel : Forall (λ b, b ≠ 0) name → bytes_at m a (length name + 1) = name ++ [0] → (length name ≤ fuel)%nat →
  c_string fuel m a = Done name.
Proof.
  revert a fuel. induction name as [|b name IH]; intros a fuel Hnz Hm Hf; cbn [length Nat.add] in *; rewrite bytes_at_S in Hm.
  - injection Hm as Hb. destruct fuel; cbn [c_string]; by rewrite Hb.
  - injection Hm as Hb Hm. apply Forall_cons in Hnz as [Hb0 Hnz]. destruct fuel as [|fuel]; [cbn in Hf; lia|]. cbn [c_string]. rewrite Hb, bool_decide_false by done.
    rewrite (IH (a + 1) fuel); [done|done|done|lia].
Qed.
(** The name of the boot loader, a string in memory that ends with a zero byte, is read
    back by the kernel, and the framebuffer is still what it was. *)
Theorem bootloader_name_roundtrip i m a name fuel : Forall (λ b, b ≠ 0) name → bytes_at m a (length name + 1) = name ++ [0] → (length name ≤ fuel)%nat →
  get_bootloader_name fuel m (set_bootloader_name i a) = Done (Some name) ∧ get_framebuffer (set_bootloader_name i a) = get_framebuffer i.
Proof.
  intros Hnz Hm Hf. unfold get_bootloader_name, get_framebuffer. cbn [mb_flags set_bootloader_name boot_loader_name mb_framebuffer].
  unfold BOOTLOADER_NAME_VALID, FRAMEBUFFER_VALID. rewrite flag_set, flag_kept by done. cbn [negb]. by rewrite (c_string_reads m a name).
Qed.
(** The framebuffer that the kernel builds from the information of the boot loader is the
    one that the boot loader builds from the mode, over the same bytes; a mode without
    whole bytes per pixel panics in both. *)
Theorem framebuffer_handover i b m mapping : 0 ≤ bits_per_pixel b → (∀ n, bytes_at m mapping n = bytes_at m (framebuffer b) n) →
  (8 ≤ bits_per_pixel b → ∃ i' fbi, insert_framebuffer_info i b = Done i' ∧ get_framebuffer i' = Some fbi
     ∧ from_vesamode_info m b = Done (from_multiboot_info m fbi mapping) ∧ boot_loader_name i' = boot_loader_name i)
  ∧ (bits_per_pixel b < 8 → insert_framebuffer_info i b = Panicked ∧ from_vesamode_info m b = Panicked).
Proof.
  intros Hb Hm. unfold insert_framebuffer_info, from_vesamode_info, div_by. rewrite Z.shiftr_div_pow2 by lia. change (2 ^ 3) with 8. split; intros H8.
  - assert (H1 : 1 ≤ bits_per_pixel b / 8) by (apply Z.div_le_lower_bound; lia). rewrite bool_decide_false by lia. cbn [mbind outcome_bind].
    eexists _, _. split; [reflexivity|]. unfold get_framebuffer. cbn [mb_flags mb_framebuffer]. unfold FRAMEBUFFER_VALID. rewrite flag_set by done.
    split; [reflexivity|]. split; [|done]. unfold from_multiboot_info, pixel_layout. cbn [fb_bpp fb_height fb_width fb_red_field_pos fb_green_field_pos fb_blue_field_pos fb_pitch].
    rewrite Z.shiftr_div_pow2 by lia. change (2 ^ 3) with 8. by rewrite Hm.
  - rewrite Z.div_small by lia. done.
Qed.
Lemma bootloader_name_roundtrip_witness : let m := with_bytes 0x7000 [0x46; 0x5A; 0x42; 0] (λ _, 0) in
  get_bootloader_name 8 m (set_bootloader_name (MultibootInformation_default 72) 0x7000) = Done (Some [0x46; 0x5A; 0x42]).
Proof.
  intros m. apply (bootloader_name_roundtrip (MultibootInformation_default 72) m 0x7000 [0x46; 0x5A; 0x42] 8).
  - repeat constructor; discriminate.
  - vm_compute. reflexivity.
  - repeat constructor.
Defined.
Lemma framebuffer_handover_witness : ∃ i' fbi, insert_framebuffer_info (MultibootInformation_default 72) (sample_mode 24 40 32) = Done i'
  ∧ get_framebuffer i' = Some fbi ∧ from_vesamode_info (λ _, 0) (sample_mode 24 40 32) = Done (from_multiboot_info (λ _, 0) fbi 0).
Proof.
  destruct (framebuffer_handover (MultibootInformation_default 72) (sample_mode 24 40 32) (λ _, 0) 0) as [H _].
  - vm_compute. discriminate.
  - intros n. reflexivity.
  - destruct H as (i' & fbi & H1 & H2 & H3 & _); [vm_compute; discriminate|]. exists i', fbi. split; [exact H1|]. split; [exact H2|exact H3].
Defined.
