(* ===== verification/Smbios.v ===== *)
(** The SMBIOS tables (src/bios/smbios.rs): the search of the entry point, the walk over
    the structures, and their strings. *)

From stdpp Require Import strings.
From S2P Require Import Prelude Addr Bitfield MpTable.

(** * Structures *)

Definition SM_BIOSINFO : Z := 0.
Definition SM_SYSINFO : Z := 1.
Definition SM_BASEBOARDINFO : Z := 2.
Definition SM_CHASSIS : Z := 3.
Definition SM_PROCINFO : Z := 4.
Definition SM_CACHEINFO : Z := 7.
Record SMBIOSStructHeader := { struct_type : Z; struct_length : Z; struct_handle : Z }.
Definition SMBIOS_HEADER_SIZE : Z := 4.
Definition SMBIOSStructHeader_at (m : memory) (a : Z) : SMBIOSStructHeader :=
  {| struct_type := m a; struct_length := m (a + 1); struct_handle := of_le (bytes_at m (a + 2) 2) |}.
Record SMBIOSEntryTable := {
  anchor_string : list Z; entry_checksum : Z; entry_length : Z; major_version : Z; minor_version : Z; max_structure_size : Z; entry_point_revision : Z;
  formatted_area : list Z; anchor_string_int : list Z; checksum_int : Z; struct_table_len : Z; struct_table_addr : Z; struct_num : Z; bcd_revision : Z
}.
Definition SMBIOS_ENTRY_SIZE : nat := 31.
Definition SMBIOSEntryTable_of (bs : list Z) : SMBIOSEntryTable := {|
  anchor_string := part bs 0 4; entry_checksum := int_part bs 4 1; entry_length := int_part bs 5 1; major_version := int_part bs 6 1;
  minor_version := int_part bs 7 1; max_structure_size := int_part bs 8 2; entry_point_revision := int_part bs 10 1; formatted_area := part bs 11 5;
  anchor_string_int := part bs 16 5; checksum_int := int_part bs 21 1; struct_table_len := int_part bs 22 2; struct_table_addr := int_part bs 24 4;
  struct_num := int_part bs 28 2; bcd_revision := int_part bs 30 1
|}.

(** * The entry point *)

Definition SM_ANCHOR : list Z := [0x5F; 0x53; 0x4D; 0x5F].
(** [checksum.wrapping_add(c_byte)] is computed and dropped: the sum stays 0. *)
Definition entry_sum (bs : list Z) : Z := fold_left (λ checksum c_byte, let _ := u8 (checksum + c_byte) in checksum) bs 0.
Fixpoint locate_smbios_entry (fuel : nat) (m : memory) (mem : Z) : outcome (option Z) :=
  if bool_decide (mem < 0x100000) then
    if bool_decide (bytes_at m mem 4 = SM_ANCHOR) then
      let length := m (u32 (mem + 5)) in
      if bool_decide (entry_sum (bytes_at m mem (Z.to_nat length)) ≠ 0) then Done None else Done (Some mem)
    else match fuel with O => NoFuel | S fuel => locate_smbios_entry fuel m (u32 (mem + 16)) end
  else Done None.
Definition SMBIOS_FUEL : nat := Z.to_nat 0x1000.
Definition load_smbios_entry (m : memory) : outcome (option SMBIOSEntryTable) :=
  r ← locate_smbios_entry SMBIOS_FUEL m 0xF0000;
  Done (option_map (λ a, SMBIOSEntryTable_of (bytes_at m a SMBIOS_ENTRY_SIZE)) r).

(** * Walking over the structures *)

Definition read_u16 (m : memory) (a : Z) : Z := of_le (bytes_at m a 2).
(** The loop over the strings, from the word that was read before it. *)
Fixpoint skip_strings (fuel : nat) (m : memory) (curr_word curr_mem : Z) : outcome Z :=
  if bool_decide (curr_word ≠ 0) then
    match fuel with O => NoFuel | S fuel => skip_strings fuel m (read_u16 m curr_mem) (u32 (curr_mem + 1)) end
  else Done curr_mem.
(** The address after a structure whose formatted part starts at an address. *)
Definition next_struct (fuel : nat) (m : memory) (h : SMBIOSStructHeader) (curr_mem : Z) : outcome Z :=
  let curr_mem := u32 (curr_mem + u8 (struct_length h - SMBIOS_HEADER_SIZE)) in
  curr_mem ← skip_strings fuel m (read_u16 m curr_mem) curr_mem;
  Done (u32 (curr_mem + 1)).
(** A structure that was found: where its strings are, and its formatted part. *)
Record smbios_info := { data_base_addr : Z; data_len : Z; internal : list Z }.
(** [struct_getter!] for a type of structure whose formatted part has [size] bytes. *)
Fixpoint struct_getter (fuel : nat) (m : memory) (t : SMBIOSEntryTable) (code : Z) (size : nat) (curr_mem : Z) : outcome (option smbios_info) :=
  if bool_decide (u32 (curr_mem - struct_table_addr t) < struct_table_len t) then
    match fuel with
    | O => NoFuel
    | S fuel =>
        let h := SMBIOSStructHeader_at m curr_mem in
        let curr_mem := u32 (curr_mem + SMBIOS_HEADER_SIZE) in
        if bool_decide (struct_type h = code) then
          let data_addr := u32 (curr_mem + Z.of_nat size) in
          next ← next_struct (S fuel) m h curr_mem;
          Done (Some {| data_base_addr := data_addr; data_len := u32 (next - data_addr); internal := bytes_at m curr_mem size |})
        else
          next ← next_struct (S fuel) m h curr_mem;
          struct_getter fuel m t code size next
    end
  else Done None.
(** The sizes of [InternalSMBIOSSystemInfo], [InternalSMBIOSBiosInfo] and [InternalSMBIOSProcInfo]. *)
Definition SYSTEM_INFO_SIZE : nat := 23.
Definition BIOS_INFO_SIZE : nat := 22.
Definition PROC_INFO_SIZE : nat := 46.
Definition get_system_information (fuel : nat) (m : memory) (t : SMBIOSEntryTable) : outcome (option smbios_info) :=
  struct_getter fuel m t SM_SYSINFO SYSTEM_INFO_SIZE (struct_table_addr t).
Definition get_bios_information (fuel : nat) (m : memory) (t : SMBIOSEntryTable) : outcome (option smbios_info) :=
  struct_getter fuel m t SM_BIOSINFO BIOS_INFO_SIZE (struct_table_addr t).
Definition get_proc_information (fuel : nat) (m : memory) (t : SMBIOSEntryTable) : outcome (option smbios_info) :=
  struct_getter fuel m t SM_PROCINFO PROC_INFO_SIZE (struct_table_addr t).

(** * Strings *)

(** [for i in 0..data_len]: the string that ends at the [num]-th zero byte, its address and length. *)
Fixpoint get_str_loop (n : nat) (m : memory) (base i num str_count last_str_start last_len : Z) : option (Z * Z) :=
  match n with
  | O => None
  | S n =>
      if bool_decide (m (u32 (base + i)) = 0) then
        let str_count := u8 (str_count + 1) in
        let last_len := u32 (u32 (base + i) - u32 (last_str_start + last_len)) in
        if bool_decide (str_count = num) then Some (u32 (u32 (base + i) - last_len), last_len)
        else get_str_loop n m base (i + 1) num str_count (u32 (u32 (u32 (base + i) - last_len) + 1)) last_len
      else get_str_loop n m base (i + 1) num str_count last_str_start last_len
  end.
Definition get_str (m : memory) (s : smbios_info) (num : Z) : option (list Z) :=
  if bool_decide (num = 0) then None
  else option_map (λ '(a, len), bytes_at m a (Z.to_nat len))
    (get_str_loop (Z.to_nat (data_len s)) m (data_base_addr s) 0 num 0 (data_base_addr s) 0).
(** [str_field!]: the number of the string is a byte of the formatted part. *)
Definition str_field (off : nat) (m : memory) (s : smbios_info) : option (list Z) := get_str m s (nth off (internal s) 0).
Definition sys_get_manufacturer := str_field 0.
Definition sys_get_product_name := str_field 1.
Definition sys_get_version := str_field 2.
Definition sys_get_serial_number := str_field 3.
Definition bios_get_vendor := str_field 0.
Definition bios_get_version := str_field 1.
Definition bios_get_release_date := str_field 4.
Definition bios_get_rom_size := str_field 5.
Definition bios_get_major_release := str_field 16.
Definition bios_get_minor_release := str_field 17.
Definition proc_get_socket_name := str_field 0.
Definition proc_get_proc_manufacturer := str_field 3.
Definition proc_get_proc_version := str_field 12.
Definition proc_get_serial_number := str_field 28.
Definition proc_get_asset_tag := str_field 29.
Definition proc_get_part_number := str_field 30.

(** * Properties *)

Lemma entry_sum_zero bs : entry_sum bs = 0.
Proof. unfold entry_sum. induction bs as [|b bs IH]; [done|exact IH]. Qed.
(** The search of the entry point ends at the first anchor of the firmware area, on a
    16-byte boundary; its checksum is not computed, so that any bytes will do. *)
Theorem smbios_entry_unchecked m : load_smbios_entry m =
  Done (option_map (λ a, SMBIOSEntryTable_of (bytes_at m a SMBIOS_ENTRY_SIZE))
    (find (λ a, bool_decide (bytes_at m a 4 = SM_ANCHOR)) (candidates 0xF0000 0x100000 16))).
Proof.
  unfold load_smbios_entry.
  assert (Hgen : ∀ fuel first, 0 ≤ first ≤ 0x100000 → (steps first 0x100000 16 ≤ fuel)%nat →
    locate_smbios_entry fuel m first = Done (find (λ a, bool_decide (bytes_at m a 4 = SM_ANCHOR)) (candidates first 0x100000 16))).
  { induction fuel as [|fuel IH]; intros first Hf Hs; cbn [locate_smbios_entry]; (destruct (decide (first < 0x100000)) as [Hl|Hl];
      [rewrite bool_decide_true by done; rewrite steps_S in Hs by done|rewrite bool_decide_false by done; unfold candidates; by rewrite steps_none by lia]); [lia|].
    rewrite candidates_S by done. cbn [find]. case_bool_decide.
    - rewrite entry_sum_zero. done.
    - unfold u32. rewrite wrap_id by (unfold in_width; change (2 ^ 32) with (0x100000 * 4096); lia).
      destruct (decide (first + 16 ≤ 0x100000)) as [Hle|Hgt]; [apply IH; lia|].
      destruct fuel; cbn [locate_smbios_entry]; rewrite bool_decide_false by lia; unfold candidates; by rewrite steps_none by lia. }
  rewrite Hgen; [done|done|]. unfold steps, SMBIOS_FUEL. apply Z2Nat.inj_le; by vm_compute.
Qed.
Lemma smbios_entry_unchecked_witness : ∃ t, load_smbios_entry (with_bytes 0xF0040 (SM_ANCHOR ++ [1; 31] ++ replicate 25 9) (λ _, 0)) = Done (Some t)
  ∧ byte_sum (bytes_at (with_bytes 0xF0040 (SM_ANCHOR ++ [1; 31] ++ replicate 25 9) (λ _, 0)) 0xF0040 31) ≠ 0.
Proof. rewrite smbios_entry_unchecked. eexists. split; [vm_compute; reflexivity|vm_compute; discriminate]. Defined.

(** The strings of a structure, each ended by a zero byte. *)
Definition strings_image (strs : list (list Z)) : list Z := concat (map (λ s, s ++ [0]) strs).
Lemma get_str_scan m base s rest i num count last_str_start last_len n : Forall (λ b, b ≠ 0) s →
  bytes_at m (base + i) (length s + 1) = s ++ [0] → (length s + 1 ≤ n)%nat → 0 ≤ base → 0 ≤ i → base + i + Z.of_nat (length s) < 2 ^ 32 →
  rest = (n - (length s + 1))%nat →
  let e := base + i + Z.of_nat (length s) in
  get_str_loop n m base i num count last_str_start last_len =
    let l := u32 (e - u32 (last_str_start + last_len)) in
    if bool_decide (u8 (count + 1) = num) then Some (u32 (e - l), l)
    else get_str_loop rest m base (i + Z.of_nat (length s) + 1) num (u8 (count + 1)) (u32 (u32 (e - l) + 1)) l.
Proof.
  intros Hnz Hm Hn H0 Hi Hlt ->. revert i n Hm Hn Hi Hlt. induction s as [|b s IH]; intros i n Hm Hn Hi Hlt e; cbn [length Nat.add] in *;
    rewrite bytes_at_S in Hm; (destruct n as [|n]; [lia|]); cbn [get_str_loop].
  - injection Hm as Hb. unfold e. rewrite !Z.add_0_r in *. replace (u32 (base + i)) with (base + i) by (unfold u32; by rewrite wrap_id by (unfold in_width; lia)).
    rewrite Hb. cbn zeta. rewrite (bool_decide_true (0 = 0)) by done. by rewrite Nat.sub_succ, Nat.sub_0_r.
  - injection Hm as Hb Hm. apply Forall_cons in Hnz as [Hb0 Hnz].
    replace (u32 (base + i)) with (base + i) by (unfold u32; by rewrite wrap_id by (unfold in_width; lia)). rewrite Hb, bool_decide_false by done.
    rewrite (IH Hnz (i + 1) n); [|by rewrite Z.add_assoc|lia..]. unfold e. cbn zeta.
    replace (base + (i + 1) + Z.of_nat (length s)) with (base + i + Z.of_nat (S (length s))) by lia.
    replace (i + 1 + Z.of_nat (length s) + 1) with (i + Z.of_nat (S (length s)) + 1) by lia.
    replace (S n - S (length s + 1))%nat with (n - (length s + 1))%nat by lia. done.
Qed.
(** Looking up a string of a structure.  Where the strings of the structure are stored one
    after the other, number [k] gives the [k]-th one, counted from 1; 0 stands for none. *)
Theorem get_str_finds m a len ints strs k : Forall (Forall (λ b, b ≠ 0)) strs → Z.of_nat (length strs) < 256 →
  bytes_at m a (length (strings_image strs)) = strings_image strs → 0 ≤ a → a + len < 2 ^ 32 → Z.of_nat (length (strings_image strs)) ≤ len →
  (k < length strs)%nat → let s := {| data_base_addr := a; data_len := len; internal := ints |} in
  get_str m s (Z.of_nat k + 1) = Some (nth k strs []) ∧ get_str m s 0 = None.
Proof.
  intros Hnz H256 Hm Ha Hlen Hl Hk s. split; [|done]. unfold get_str. rewrite bool_decide_false by lia. cbn [data_len data_base_addr s].
  assert (Hgen : ∀ strs k i count last_str_start last_len n, Forall (Forall (λ b, b ≠ 0)) strs → bytes_at m (a + i) (length (strings_image strs)) = strings_image strs →
    0 ≤ i → a + i + Z.of_nat (length (strings_image strs)) < 2 ^ 32 → (length (strings_image strs) ≤ n)%nat → (k < length strs)%nat → 0 ≤ count → count + Z.of_nat k < 255 →
    u32 (last_str_start + last_len) = a + i →
    ∃ b, get_str_loop n m a i (count + Z.of_nat k + 1) count last_str_start last_len = Some (b, Z.of_nat (length (nth k strs [])))
      ∧ bytes_at m b (length (nth k strs [])) = nth k strs []).
  { clear - Ha. induction strs as [|x strs IH]; intros k i count lss ll n Hnz Hm Hi Hlt Hn Hk Hc Hck Hst; [cbn in Hk; lia|].
    apply Forall_cons in Hnz as [Hx Hnz]. change (strings_image (x :: strs)) with ((x ++ [0]) ++ strings_image strs) in *. rewrite length_app in *.
    apply bytes_at_split in Hm as [Hm1 Hm2]. rewrite length_app in Hm1, Hm2, Hlt, Hn. cbn [length] in Hm1, Hm2, Hlt, Hn.
    rewrite (get_str_scan m a x (n - (length x + 1))%nat i _ count lss ll n Hx Hm1) by (done || lia). cbn zeta. rewrite Hst.
    assert (El : u32 (a + i + Z.of_nat (length x) - (a + i)) = Z.of_nat (length x)) by (unfold u32; rewrite wrap_id by (unfold in_width; lia); lia).
    rewrite El. unfold u8. rewrite (wrap_id 8) by (unfold in_width; change (2 ^ 8) with 256; lia).
    destruct k as [|k].
    - rewrite bool_decide_true by lia. cbn [nth]. eexists. split; [reflexivity|]. unfold u32. rewrite wrap_id by (unfold in_width; lia).
      replace (a + i + Z.of_nat (length x) - Z.of_nat (length x)) with (a + i) by lia. rewrite bytes_at_app in Hm1. by apply app_inj_1 in Hm1 as [? _]; [|apply length_bytes_at].
    - rewrite bool_decide_false by lia. cbn [nth]. replace (count + Z.of_nat (S k) + 1) with ((count + 1) + Z.of_nat k + 1) by lia.
      apply IH; [done| |lia|lia|lia|cbn [length] in Hk; lia|lia|lia|].
      + replace (a + (i + Z.of_nat (length x) + 1)) with (a + i + Z.of_nat (length x + 1)) by lia. done.
      + assert (Hw : ∀ z, 0 ≤ z < 2 ^ 32 → u32 z = z) by (intros z Hz; by apply wrap_id).
        rewrite (Hw (_ - _)) by lia. rewrite (Hw (_ + 1)) by lia. rewrite Hw by lia. lia. }
  destruct (Hgen strs k 0 0 a 0 (Z.to_nat len)) as (b & Hb1 & Hb2); [done|by rewrite Z.add_0_r|lia|lia|lia|done|lia|lia| |].
  - rewrite !Z.add_0_r. unfold u32. apply wrap_id. unfold in_width. lia.
  - rewrite Z.add_0_l in Hb1. rewrite Hb1. cbn [option_map]. by rewrite Nat2Z.id, Hb2.
Qed.
Lemma get_str_finds_witness : let m := with_bytes 0xE8000 [0x41; 0x42; 0; 0x43; 0; 0] (λ _, 7) in
  get_str m {| data_base_addr := 0xE8000; data_len := 6; internal := [] |} 2 = Some [0x43].
Proof.
  intros m. destruct (get_str_finds m 0xE8000 6 [] [[0x41; 0x42]; [0x43]] 1) as [H _].
  - repeat constructor; discriminate.
  - vm_compute. reflexivity.
  - vm_compute. reflexivity.
  - discriminate.
  - vm_compute. reflexivity.
  - vm_compute. discriminate.
  - vm_compute. repeat constructor.
  - exact H.
Defined.

(** A structure without strings ends with two zero bytes, of which the walk skips one:
    the next structure is looked for one byte too early. *)
Theorem no_strings_lose_the_walk fuel m h a : 0 ≤ a → a + 256 < 2 ^ 32 → 4 ≤ struct_length h < 256 → read_u16 m (a + struct_length h - 4) = 0 →
  next_struct fuel m h a = Done (a + struct_length h - 4 + 1).
Proof.
  intros Ha Hlt Hl Hz. unfold next_struct, SMBIOS_HEADER_SIZE, u8, u32. rewrite (wrap_id 8) by (unfold in_width; change (2 ^ 8) with 256; lia).
  rewrite (wrap_id 32 (a + _)) by (unfold in_width; lia). replace (a + (struct_length h - 4)) with (a + struct_length h - 4) by lia. rewrite Hz.
  assert (Hs : skip_strings fuel m 0 (a + struct_length h - 4) = Done (a + struct_length h - 4)) by (by destruct fuel). rewrite Hs. cbn [mbind outcome_bind].
  by rewrite wrap_id by (unfold in_width; lia).
Qed.
Lemma no_strings_lose_the_walk_witness :
  next_struct 4 (λ _, 0) {| struct_type := 2; struct_length := 8; struct_handle := 0 |} 0xE8004 = Done 0xE8009.
Proof.
  apply (no_strings_lose_the_walk 4 (λ _, 0) {| struct_type := 2; struct_length := 8; struct_handle := 0 |} 0xE8004).
  - discriminate.
  - vm_compute. reflexivity.
  - vm_compute. split; [discriminate|reflexivity].
  - reflexivity.
Defined.
