(* ===== verification/Vfs.v ===== *)
(** Files independently of the filesystem (src/fs/mod.rs): the interface [FsFile], and
    the methods that it provides on top of [read], [seek] and [size].

    The provided methods are proved on the files of the ext4 filesystem
    (src/fs/ext4/file.rs), the one implementation of the interface.  A file that is shorter
    than a block is read as it is; of a longer one only the last block is read, and reading
    from another offset gives wrong bytes or panics. *)

From stdpp Require Import strings.
From S2P Require Import Prelude Partitions Addr Frames Crc Ext4 Inodes Extents Bitfield Cpu.

Class FsFile (F : Type) := {
  fs_read : F → list Z → outcome (result Z IOError * list Z * F);
  fs_seek : F → Seek → Z * F;
  fs_size : F → outcome (result Z IOError)
}.
(** * The provided methods *)

Section provided.
Context {F : Type} `{FF : FsFile F}.

Definition reset_cursor (f : F) : F := let '(curr_pos, f) := fs_seek f Current in (fs_seek f (Backward curr_pos)).2.
(** The file is read right after the buffer, in [spare]; reading more than that is an
    access outside of it.  The result is the extended buffer. *)
Definition read_file_unchecked (f : F) (buf spare : list Z) : outcome (result (list Z) IOError * F) :=
  let f := reset_cursor f in
  size ← fs_size f;
  match size with
  | Err e => Done (Err e, f)
  | Ok size =>
      if bool_decide (Z.of_nat (length spare) < size) then Faulted
      else
        '(r, mem, f) ← fs_read f (take (Z.to_nat size) spare);
        match r with
        | Err e => Done (Err e, f)
        | Ok bytes_read => Done (Ok (buf ++ take (Z.to_nat bytes_read) (mem ++ drop (Z.to_nat size) spare)), f)
        end
  end.
(** [try_reserve] gives the uninitialised bytes after the vector, or fails. *)
Definition read_file (try_reserve : Z → option (list Z)) (f : F) (buf : list Z) : outcome (result Z IOError * list Z * F) :=
  size ← fs_size f;
  match size with
  | Err e => Done (Err e, buf, f)
  | Ok size =>
      match try_reserve size with
      | None => Done (Err IOException, buf, f)
      | Some spare =>
          '(r, f) ← read_file_unchecked f buf spare;
          match r with
          | Err e => Done (Err e, buf, f)
          | Ok extended_buf => Done (Ok (Z.of_nat (length extended_buf) - Z.of_nat (length buf)), extended_buf, f)
          end
      end
  end.
Definition read_file_as_string_unchecked := read_file.
Definition read_file_as_string (try_reserve : Z → option (list Z)) (f : F) (buf : list Z) : outcome (result Z IOError * list Z * F) :=
  '(r, cs, f) ← read_file try_reserve f [];
  match r with
  | Err e => Done (Err e, buf, f)
  | Ok bytes_read => if utf8 cs then Done (Ok bytes_read, buf ++ cs, f) else Done (Err IOException, buf, f)
  end.
Definition seek_read (f : F) (buf : list Z) (offset : Z) : outcome (result Z IOError * list Z * F) :=
  let f := reset_cursor f in
  let '(_, f) := fs_seek f (Forward offset) in
  fs_read f buf.
Definition mmap (f : F) (mem : list Z) : outcome (result (list Z) IOError * F) := read_file_unchecked f [] mem.
End provided.

(** * The files of ext4 *)

Section ext4.
Context `{SbLayout} (get_sata_drive : AtaDeviceIdentifier → option SataDevice).

#[export] Instance Ext4File_FsFile : FsFile Ext4File := {
  fs_read := file_read get_sata_drive;
  fs_seek f p := let f := seek f p in (cursor f, f);
  fs_size f := Done (Ok (file_size f))
}.

(** A file shorter than a block, whose block can be read. *)
Record single_block (f : Ext4File) (data : list Z) : Prop := {
  one_sb : length (fs_superblock (file_fs f)) = sb_size ∧ Forall byte (fs_superblock (file_fs f))
    ∧ sb_get (fs_superblock (file_fs f)) sb_log_block_size < 54;
  one_size : 0 ≤ file_size f < Z.min (blk_size (fs_superblock (file_fs f))) (2 ^ 63);
  one_extent : ∃ t e, extent_tree f = Some t ∧ extents_ok (extents t) ∧ e ∈ extents t ∧ block e = 0 ∧ 1 ≤ len e
    ∧ read_blk_from_device get_sata_drive (file_fs f) (start_blk e) (Z.to_nat (blk_size (fs_superblock (file_fs f)))) = Done (Ok data)
}.

(** The first bytes of the block that holds the start of the file. *)
Definition ext4_contents (f : Ext4File) : list Z :=
  match (λ t, filter (λ e, extent_covers 0 e) (extents t)) <$> extent_tree f with
  | Some (e :: _) =>
      match read_blk_from_device get_sata_drive (file_fs f) (start_blk e) (Z.to_nat (blk_size (fs_superblock (file_fs f)))) with
      | Done (Ok data) => take (Z.to_nat (file_size f)) data
      | _ => []
      end
  | _ => []
  end.

Lemma single_block_contents f data : single_block f data →
  ext4_contents f = take (Z.to_nat (file_size f)) data ∧ Z.of_nat (length (ext4_contents f)) = file_size f.
Proof using Type.
  intros [_ Hsz (t & e & Ht & Hok & He & H0 & Hl & Hr)]. unfold ext4_contents. rewrite Ht. cbn.
  rewrite (useful_extents_unique (extents t) e 0 Hok He) by lia. rewrite Hr. split; [done|].
  rewrite length_take, (read_blk_length _ _ _ _ _ Hr). lia.
Qed.

Lemma single_block_cursor f data c : single_block f data → single_block (set_cursor f c) data.
Proof using Type. by intros []. Qed.

(** A file of any length in the blocks of one extent, whose last block can be read. *)
Record one_extent_file (f : Ext4File) (data : list Z) : Prop := {
  oe_sb : length (fs_superblock (file_fs f)) = sb_size ∧ Forall byte (fs_superblock (file_fs f))
    ∧ sb_get (fs_superblock (file_fs f)) sb_log_block_size < 54;
  oe_size : 0 ≤ file_size f < 2 ^ 63;
  oe_extent : let last := file_size f / blk_size (fs_superblock (file_fs f)) in
    ∃ t e, extent_tree f = Some t ∧ extents_ok (extents t) ∧ e ∈ extents t ∧ block e = 0 ∧ 1 ≤ len e ∧ last ≤ len e
    ∧ read_blk_from_device get_sata_drive (file_fs f) (start_blk e + last) (Z.to_nat (blk_size (fs_superblock (file_fs f)))) = Done (Ok data)
}.
(** What a read of the whole file leaves in a memory of its size: [data] is its last block. *)
Definition file_image (f : Ext4File) (data spare : list Z) : list Z :=
  let bs := blk_size (fs_superblock (file_fs f)) in
  take (Z.to_nat (file_size f / bs * bs)) spare ++ take (Z.to_nat (file_size f mod bs)) data.

Lemma single_one_extent f data : single_block f data →
  one_extent_file f data ∧ ∀ spare, file_image f data spare = ext4_contents f.
Proof using Type.
  intros Hf. pose proof (proj1 (single_block_contents f data Hf)) as Hc. destruct Hf as [Hsb Hsz Hex].
  assert (Hq : file_size f / blk_size (fs_superblock (file_fs f)) = 0) by (apply Z.div_small; lia). split.
  - split; [done|lia|]. cbv zeta. rewrite Hq. destruct Hex as (t & e & ? & ? & ? & ? & ? & Hr). exists t, e.
    rewrite Z.add_0_r. split_and!; [done..|lia|done].
  - intros spare. unfold file_image. rewrite Hq, Z.mul_0_l, Z.mod_small by lia. by rewrite Hc.
Qed.

Lemma one_extent_image f data spare : one_extent_file f data → file_size f ≤ Z.of_nat (length spare) →
  Z.of_nat (length (file_image f data spare)) = file_size f.
Proof using Type.
  intros [(Hl & Hby & Hlog) Hsz (t & e & _ & _ & _ & _ & _ & _ & Hr)] Hs. unfold file_image.
  pose proof (blk_size_pow2 _ Hl Hby Hlog) as Hbs. pose proof (sb_get_width _ sb_log_block_size Hl Hby) as [Hp _].
  set (bs := blk_size _) in *. assert (Hb0 : 0 < bs) by (rewrite Hbs; apply pow2_pos; lia).
  pose proof (Z.mod_pos_bound (file_size f) bs Hb0) as Hm. pose proof (Z.div_mod (file_size f) bs ltac:(lia)) as Hd.
  assert (Hq : 0 ≤ file_size f / bs * bs) by (apply Z.mul_nonneg_nonneg; [apply Z.div_pos|]; lia).
  rewrite Z.mul_comm in Hd. set (k := file_size f / bs * bs) in *. set (r := file_size f mod bs) in *.
  rewrite length_app, !length_take, (read_blk_length _ _ _ _ _ Hr). lia.
Qed.

Lemma one_extent_read f data buf : one_extent_file f data → cursor f = 0 → file_size f = Z.of_nat (length buf) →
  file_read get_sata_drive f buf = Done (Ok (file_size f), file_image f data buf, set_cursor f (file_size f)).
Proof using Type.
  intros [(Hl & Hby & Hlog) Hsz (t & e & Ht & Hok & He & H0 & Hlen & Hlast & Hr)] Hc Hb.
  pose proof (file_read_from_start get_sata_drive f t e data buf) as Hread. cbn zeta in Hread.
  rewrite Hread by (done || lia). rewrite (drop_ge buf), app_nil_r by lia. done.
Qed.

Lemma reset_cursor_ext4 f : 0 ≤ cursor f → reset_cursor f = set_cursor f 0.
Proof using Type. intros Hc. unfold reset_cursor. cbn. by rewrite Z.sub_diag. Qed.

Lemma read_file_unchecked_ext4 f data buf spare : one_extent_file f data → 0 ≤ cursor f →
  file_size f ≤ Z.of_nat (length spare) →
  read_file_unchecked f buf spare = Done (Ok (buf ++ file_image f data spare), set_cursor f (file_size f)).
Proof using Type.
  intros Hf Hc Hs. pose proof (oe_size f data Hf) as Hsz. unfold read_file_unchecked. rewrite reset_cursor_ext4 by done.
  cbn [fs_size Ext4File_FsFile mbind outcome_bind]. change (file_size (set_cursor f 0)) with (file_size f).
  rewrite bool_decide_false by lia. cbn [fs_read Ext4File_FsFile].
  assert (Hl : length (take (Z.to_nat (file_size f)) spare) = Z.to_nat (file_size f)) by (rewrite length_take; lia).
  rewrite (one_extent_read (set_cursor f 0) data); [|by destruct Hf|done|change (file_size (set_cursor f 0)) with (file_size f); rewrite Hl; lia].
  change (file_size (set_cursor f 0)) with (file_size f). cbn [mbind outcome_bind].
  change (file_image (set_cursor f 0) data) with (file_image f data).
  assert (Hi : file_image f data (take (Z.to_nat (file_size f)) spare) = file_image f data spare).
  { unfold file_image. rewrite take_take. do 2 f_equal. apply Nat.min_l.
    destruct Hf as [(Hl' & Hby & Hlog) _ _]. pose proof (blk_size_pow2 _ Hl' Hby Hlog) as Hbs.
    pose proof (sb_get_width _ sb_log_block_size Hl' Hby) as [Hp _]. set (bs := blk_size _) in *.
    assert (Hb0 : 0 < bs) by (rewrite Hbs; apply pow2_pos; lia).
    pose proof (Z.mod_pos_bound (file_size f) bs Hb0). pose proof (Z.div_mod (file_size f) bs ltac:(lia)) as Hd.
    rewrite Z.mul_comm in Hd. apply Z2Nat.inj_le; [|lia|lia]. apply Z.mul_nonneg_nonneg; [apply Z.div_pos|]; lia. }
  pose proof (one_extent_image f data spare Hf Hs) as Hlen.
  rewrite Hi, take_app_le, take_ge by lia. done.
Qed.

(** C25: [read_file] on an ext4 file that lies in one extent and whose last block can be read,
    wherever its cursor is.  It reports the size of the file, leaves the cursor at its end, and
    extends the buffer by as many bytes.  For a file shorter than a block these are the bytes of
    the file.  Of a longer one only the last, partial block is read: the bytes before it are what
    the reserved memory held.  Where the memory cannot be reserved it is an error and nothing
    changes. *)
Theorem ext4_read_file try_reserve f data buf : one_extent_file f data → 0 ≤ cursor f →
  match try_reserve (file_size f) with
  | None => read_file try_reserve f buf = Done (Err IOException, buf, f)
  | Some spare => file_size f ≤ Z.of_nat (length spare) →
      read_file try_reserve f buf = Done (Ok (file_size f), buf ++ file_image f data spare, set_cursor f (file_size f))
  end
  ∧ (single_block f data → ∀ spare, file_image f data spare = take (Z.to_nat (file_size f)) data).
Proof using Type.
  intros Hf Hc. split.
  - unfold read_file. cbn [fs_size Ext4File_FsFile mbind outcome_bind].
    destruct (try_reserve (file_size f)) as [spare|]; [|done]. intros Hs.
    rewrite (read_file_unchecked_ext4 f data) by done. cbn [mbind outcome_bind].
    rewrite length_app, Nat2Z.inj_add, Z.add_simpl_l, (one_extent_image f data spare Hf Hs). done.
  - intros Hsb spare. rewrite (proj2 (single_one_extent f data Hsb)). by apply single_block_contents.
Qed.

(** [read_file_as_string] appends such a file to the string when it is shorter than a block and
    valid UTF-8; when it is not UTF-8 it is an error and the string is what it was. *)
Theorem read_file_as_string_checks try_reserve spare f data buf : single_block f data → 0 ≤ cursor f →
  try_reserve (file_size f) = Some spare → file_size f ≤ Z.of_nat (length spare) →
  ∃ f', read_file_as_string try_reserve f buf
    = Done (if utf8 (ext4_contents f) then (Ok (file_size f), buf ++ ext4_contents f, f') else (Err IOException, buf, f'))
  ∧ cursor f' = file_size f.
Proof using Type.
  intros Hf Hc Hr Hs. destruct (single_one_extent f data Hf) as [Ho Hi]. unfold read_file_as_string, read_file.
  cbn [fs_size Ext4File_FsFile mbind outcome_bind]. rewrite Hr, (read_file_unchecked_ext4 f data) by done.
  exists (set_cursor f (file_size f)). cbn [mbind outcome_bind app length]. rewrite Z.sub_0_r, (one_extent_image f data spare Ho Hs), Hi.
  by destruct (utf8 _).
Qed.

(** Reading such a file from an offset that is not 0: the bytes [offset..n] of the block are
    taken for the [n] bytes at [offset].  A read of fewer bytes than its offset panics; another
    one reports [n] bytes and gives [n - offset] of them. *)
Theorem ext4_seek_read_short f data buf offset : single_block f data → 0 ≤ cursor f ≤ file_size f →
  0 < offset ≤ file_size f →
  let n := Z.min (Z.of_nat (length buf)) (file_size f - offset) in
  seek_read f buf offset
  = if bool_decide (n < offset) then Panicked
    else Done (Ok n, take (Z.to_nat (n - offset)) (drop (Z.to_nat offset) (ext4_contents f)) ++ drop (Z.to_nat (n - offset)) buf,
               set_cursor f (offset + n)).
Proof using Type.
  intros Hf Hc Hoff n. pose proof (single_block_contents f data Hf) as [Hcont _].
  destruct Hf as [(Hl & Hby & Hlog) Hsz (t & e & Ht & Hok & He & H0 & Hlen & Hr)].
  pose proof (blk_size_pow2 _ Hl Hby Hlog) as Hbs. pose proof (read_blk_length _ _ _ _ _ Hr) as Hd.
  pose proof Hok as [Hall _]. rewrite Forall_forall in Hall. specialize (Hall e He).
  pose proof (extent_end_ok e Hall) as (Hend & _ & _ & Hst). unfold in_width in Hst. destruct Hall as (_ & Hle & _).
  unfold seek_read, reset_cursor. cbn. rewrite Z.sub_diag, Z.max_id, Z.add_0_l, u64_id by lia.
  change (file_size (set_cursor f 0)) with (file_size f). rewrite Z.min_l by lia.
  change (set_cursor (set_cursor f 0) offset) with (set_cursor f offset).
  unfold file_read, ext4_read_bytes. cbn [cursor set_cursor file_fs extent_tree].
  change (file_size (set_cursor f offset)) with (file_size f).
  rewrite (u64_id (file_size f - offset)) by lia. fold n.
  unfold rust_div, rust_rem. rewrite !bool_decide_false by lia. cbn [mbind outcome_bind].
  rewrite (u64_id (offset + n)) by lia. rewrite !Z.div_small, !Z.mod_small by lia. rewrite Ht.
  rewrite (useful_extents_unique (extents t) e 0 Hok He) by lia.
  change (seqZ 0 _) with ([] : list Z). cbn [read_full_blocks mbind outcome_bind].
  unfold advance. rewrite (bool_decide_false (extent_end e < 0)) by lia. cbn [mbind outcome_bind].
  unfold allocate_blk. rewrite length_replicate, Z.add_0_r, (u64_id (start_blk e)) by lia. rewrite Hr.
  cbn [mbind outcome_bind]. unfold slice. rewrite (bool_decide_true (0 = 0)) by done.
  destruct (decide (n < offset)) as [Hn|Hn].
  { rewrite (bool_decide_true (n < offset)) by done. rewrite bool_decide_false by lia. done. }
  rewrite (bool_decide_false (n < offset)) by done. rewrite bool_decide_true by lia.
  cbn [mbind outcome_bind]. unfold write_at. change (u64 (0 * _)) with 0. rewrite length_take, length_drop, Hd.
  rewrite bool_decide_true by lia. cbn [mbind outcome_bind]. unfold seek. cbn [cursor set_cursor].
  change (file_size (set_cursor f offset)) with (file_size f). rewrite (u64_id (offset + n)), Z.min_l by lia.
  rewrite Hcont, skipn_firstn_comm, take_take. change (Z.to_nat 0) with 0%nat. rewrite !Nat.min_l by lia.
  by rewrite <-Z2Nat.inj_sub by lia.
Qed.
End ext4.

(** * A file of five bytes, "Hello" *)

Lemma demo_single_block : let _ := c_layout in single_block demo_disk demo_file demo_data.
Proof.
  intros L. split.
  - split_and!; [by vm_compute|apply (bool_decide_eq_true_1 (Forall byte demo_sb)); by vm_compute|by vm_compute].
  - vm_compute. split; congruence.
  - exists demo_tree, (demo_ext 0 1 20). split_and!; [done|exact demo_extents_ok|left|done|by vm_compute|by vm_compute].
Qed.

Lemma ext4_read_file_witness : let _ := c_layout in let _ := Ext4File_FsFile demo_disk in
  read_file (λ n, Some (replicate (Z.to_nat n) 0)) (set_cursor demo_file 3) [33]
  = Done (Ok 5, [33; 72; 101; 108; 108; 111], set_cursor demo_file 5).
Proof.
  intros L I. pose proof (single_block_cursor demo_disk _ _ 3 demo_single_block) as Hs.
  destruct (@ext4_read_file c_layout demo_disk (λ n, Some (replicate (Z.to_nat n) 0)) (set_cursor demo_file 3) demo_data [33]
    (proj1 (single_one_extent demo_disk _ _ Hs))) as [Hr _]; [by vm_compute|].
  refine (eq_trans (Hr _) _); by vm_compute.
Defined.

Lemma read_file_as_string_checks_witness : let _ := c_layout in let _ := Ext4File_FsFile demo_disk in
  ∃ f', read_file_as_string (λ n, Some (replicate (Z.to_nat n) 0)) demo_file [33] = Done (Ok 5, [33; 72; 101; 108; 108; 111], f').
Proof.
  intros L I.
  destruct (@read_file_as_string_checks c_layout demo_disk (λ n, Some (replicate (Z.to_nat n) 0)) (replicate 5 0) demo_file demo_data [33]
    demo_single_block) as (f' & Hr & _); [by vm_compute..|].
  exists f'. refine (eq_trans Hr _). by vm_compute.
Defined.

(** From offset 1, four bytes are reported and three are read; from offset 3 the read panics. *)
Lemma ext4_seek_read_short_witness : let _ := c_layout in let _ := Ext4File_FsFile demo_disk in
  seek_read demo_file [0; 0; 0; 0] 1 = Done (Ok 4, [101; 108; 108; 0], set_cursor demo_file 5)
  ∧ seek_read demo_file [0; 0; 0; 0] 3 = Panicked.
Proof.
  intros L I. split.
  - refine (eq_trans (@ext4_seek_read_short c_layout demo_disk demo_file demo_data [0; 0; 0; 0] 1 demo_single_block _ _) _);
      [by vm_compute|by vm_compute|by vm_compute].
  - refine (eq_trans (@ext4_seek_read_short c_layout demo_disk demo_file demo_data [0; 0; 0; 0] 3 demo_single_block _ _) _);
      [by vm_compute|by vm_compute|by vm_compute].
Defined.
