(* ===== verification/Ext4Types.v ===== *)
(** The types of the fields of the ext4 structures (src/fs/ext4/sb.rs, inode.rs and
    block_grp.rs): the feature sets and flags that [ext4_flag_field!] defines, the ranges of
    [ext4_uint_field_range!], the strings of the superblock, and the numbers that are stored
    in two halves.  Each type is a number of its width; what is proved is what the operations
    on it compute. *)

From S2P Require Import Prelude Crc Partitions Ext4 Extents Vob Bitmap Inodes Dirs.

(** * Flags *)

(** The operators of [ext4_flag_field!]. *)
Definition flag_bitand (self rhs : Z) : Z := Z.land self rhs.
Definition flag_bitor (self rhs : Z) : Z := Z.lor self rhs.
Definition flag_bitxor (self rhs : Z) : Z := Z.lxor self rhs.
(** [is_subset_of] and [includes], which the feature sets, the superblock flags and the mount
    options repeat, are those of Ext4.v. *)
Definition extend_from_set (self features : Z) : Z := Z.lor self features.
Definition is_flag_set (self features : Z) : bool := is_subset_of features self.
Definition is_option_set (self features : Z) : bool := is_subset_of features self.

(** [CompatibleFeatureSet]. *)
Definition COMPAT_EMPTY_SET : Z := 0.
Definition EXT4_FEATURE_COMPAT_DIR_PREALLOC : Z := 0x0001.
Definition EXT4_FEATURE_COMPAT_IMAGIC_INODES : Z := 0x0002.
Definition EXT4_FEATURE_COMPAT_HAS_JOURNAL : Z := 0x0004.
Definition EXT4_FEATURE_COMPAT_EXT_ATTR : Z := 0x0008.
Definition EXT4_FEATURE_COMPAT_RESIZE_INODE : Z := 0x0010.
Definition EXT4_FEATURE_COMPAT_DIR_INDEX : Z := 0x0020.
Definition EXT4_FEATURE_COMPAT_SPARSE_SUPER2 : Z := 0x0200.
Definition EXT4_FEATURE_COMPAT_FAST_COMMIT : Z := 0x0400.
Definition EXT4_FEATURE_COMPAT_STABLE_INODES : Z := 0x0800.
Definition EXT4_FEATURE_COMPAT_ORPHAN_FILE : Z := 0x1000.
Definition compat_features : list Z :=
  [EXT4_FEATURE_COMPAT_DIR_PREALLOC; EXT4_FEATURE_COMPAT_IMAGIC_INODES; EXT4_FEATURE_COMPAT_HAS_JOURNAL;
   EXT4_FEATURE_COMPAT_EXT_ATTR; EXT4_FEATURE_COMPAT_RESIZE_INODE; EXT4_FEATURE_COMPAT_DIR_INDEX;
   EXT4_FEATURE_COMPAT_SPARSE_SUPER2; EXT4_FEATURE_COMPAT_FAST_COMMIT; EXT4_FEATURE_COMPAT_STABLE_INODES;
   EXT4_FEATURE_COMPAT_ORPHAN_FILE].

(** [ReadOnlyCompatibleFeatureSet]. *)
Definition RO_COMPAT_EMPTY_SET : Z := 0.
Definition EXT4_FEATURE_R0_COMPAT_SPARSE_SUPER : Z := 0x0001.
Definition EXT4_FEATURE_R0_COMPAT_LARGE_FILE : Z := 0x0002.
Definition EXT4_FEATURE_R0_COMPAT_BTREE_DIR : Z := 0x0004.
Definition EXT4_FEATURE_R0_COMPAT_HUGE_FILE : Z := 0x0008.
Definition EXT4_FEATURE_R0_COMPAT_GDT_CSUM : Z := 0x0010.
Definition EXT4_FEATURE_DIR_NLINK : Z := 0x0020.
Definition EXT4_FEATURE_R0_COMPAT_EXTRA_ISIZE : Z := 0x0040.
Definition EXT4_FEATURE_R0_COMPAT_QUOTA : Z := 0x0100.
Definition EXT4_FEATURE_R0_COMPAT_BIGALLOC : Z := 0x0200.
Definition EXT4_FEATURE_R0_COMPAT_METADATA_CSUM : Z := 0x0400.
Definition EXT4_FEATURE_R0_COMPAT_READONLY : Z := 0x1000.
Definition EXT4_FEATURE_R0_COMPAT_PROJECT : Z := 0x2000.
Definition EXT4_FEATURE_R0_COMPAT_VERITY : Z := 0x8000.
Definition EXT4_FEATURE_R0_COMPAT_ORPHAN_PRESENT : Z := 0x10000.
Definition ro_compat_features : list Z :=
  [EXT4_FEATURE_R0_COMPAT_SPARSE_SUPER; EXT4_FEATURE_R0_COMPAT_LARGE_FILE; EXT4_FEATURE_R0_COMPAT_BTREE_DIR;
   EXT4_FEATURE_R0_COMPAT_HUGE_FILE; EXT4_FEATURE_R0_COMPAT_GDT_CSUM; EXT4_FEATURE_DIR_NLINK;
   EXT4_FEATURE_R0_COMPAT_EXTRA_ISIZE; EXT4_FEATURE_R0_COMPAT_QUOTA; EXT4_FEATURE_R0_COMPAT_BIGALLOC;
   EXT4_FEATURE_R0_COMPAT_METADATA_CSUM; EXT4_FEATURE_R0_COMPAT_READONLY; EXT4_FEATURE_R0_COMPAT_PROJECT;
   EXT4_FEATURE_R0_COMPAT_VERITY; EXT4_FEATURE_R0_COMPAT_ORPHAN_PRESENT].

(** [IncompatibleFeatureSet]; [EXTENTS] and [64BIT] are in Ext4.v. *)
Definition INCOMPAT_EMPTY_SET : Z := 0.
Definition EXT4_FEATURE_INCOMPAT_COMPRESSION : Z := 0x0001.
Definition EXT4_FEATURE_INCOMPAT_FILETYPE : Z := 0x0002.
Definition EXT4_FEATURE_INCOMPAT_RECOVER : Z := 0x0004.
Definition EXT4_FEATURE_INCOMPAT_JOURNAL_DEV : Z := 0x0008.
Definition EXT4_FEATURE_INCOMPAT_META_BG : Z := 0x0010.
Definition EXT4_FEATURE_INCOMPAT_MMP : Z := 0x0100.
Definition EXT4_FEATURE_INCOMPAT_FLEX_BG : Z := 0x0200.
Definition EXT4_FEATURE_INCOMPAT_EA_INODE : Z := 0x0400.
Definition EXT4_FEATURE_INCOMPAT_DIRDATA : Z := 0x1000.
Definition EXT4_FEATURE_INCOMPAT_CSUM_SEED : Z := 0x2000.
Definition EXT4_FEATURE_INCOMPAT_LARGEDIR : Z := 0x4000.
Definition EXT4_FEATURE_INCOMPAT_INLINE_DATA : Z := 0x8000.
Definition EXT4_FEATURE_INCOMPAT_ENCRYPT : Z := 0x10000.
Definition EXT4_FEATURE_INCOMPAT_CASEFOLD : Z := 0x20000.
Definition incompat_features : list Z :=
  [EXT4_FEATURE_INCOMPAT_COMPRESSION; EXT4_FEATURE_INCOMPAT_FILETYPE; EXT4_FEATURE_INCOMPAT_RECOVER;
   EXT4_FEATURE_INCOMPAT_JOURNAL_DEV; EXT4_FEATURE_INCOMPAT_META_BG; EXT4_FEATURE_INCOMPAT_EXTENTS;
   EXT4_FEATURE_INCOMPAT_64BIT; EXT4_FEATURE_INCOMPAT_MMP; EXT4_FEATURE_INCOMPAT_FLEX_BG;
   EXT4_FEATURE_INCOMPAT_EA_INODE; EXT4_FEATURE_INCOMPAT_DIRDATA; EXT4_FEATURE_INCOMPAT_CSUM_SEED;
   EXT4_FEATURE_INCOMPAT_LARGEDIR; EXT4_FEATURE_INCOMPAT_INLINE_DATA; EXT4_FEATURE_INCOMPAT_ENCRYPT;
   EXT4_FEATURE_INCOMPAT_CASEFOLD].

(** [Ext4SuperblockFlags], [Ext4SuperblockMountOptions] and [Ext4SuperblockState]. *)
Definition SB_FLAGS_EMPTY_SET : Z := 0.
Definition SIGNED_DIR_HASH : Z := 0x1.
Definition UNSIGNED_DIR_HASH : Z := 0x2.
Definition DEV_TEST : Z := 0x4.
Definition MOUNT_EMPTY_OPTS : Z := 0.
Definition EXT4_DEFM_DEBUG : Z := 0x1.
Definition EXT4_DEFM_BSDGROUPS : Z := 0x2.
Definition EXT4_DEFM_XATTR_USER : Z := 0x4.
Definition EXT4_DEFM_ACL : Z := 0x8.
Definition EXT_DEFM_UID16 : Z := 0x10.
Definition EXT4_DEFM_JMODE_DATA : Z := 0x20.
Definition EXT4_DEFM_JMODE_ORDERED : Z := 0x40.
Definition EXT4_DEFM_JMODE_WBACK : Z := 0x60.
Definition EXT4_DEFM_NOBARRIER : Z := 0x100.
Definition EXT4_DEFM_BLOCK_VALIDITY : Z := 0x200.
Definition EXT4_DEFM_DISCARD : Z := 0x400.
Definition EXT4_DEFM_NODEALLOC : Z := 0x800.
Definition STATE_CLEANLY_UNMOUNTED : Z := 0x1.
Definition STATE_ERRORS_DETECTED : Z := 0x2.
Definition STATE_ORPHANS_IN_RECOVERY : Z := 0x4.
Definition mount_options : list Z :=
  [EXT4_DEFM_DEBUG; EXT4_DEFM_BSDGROUPS; EXT4_DEFM_XATTR_USER; EXT4_DEFM_ACL; EXT_DEFM_UID16;
   EXT4_DEFM_JMODE_DATA; EXT4_DEFM_JMODE_ORDERED; EXT4_DEFM_NOBARRIER; EXT4_DEFM_BLOCK_VALIDITY;
   EXT4_DEFM_DISCARD; EXT4_DEFM_NODEALLOC].

(** [InodeFlags], [EXT4_EXTENTS_FL] being in Extents.v, and [GroupDescriptorFlags]. *)
Definition EXT4_SECRM_FL : Z := 0x1.
Definition EXT4_UNRM_FL : Z := 0x2.
Definition EXT4_COMPR_FL : Z := 0x4.
Definition EXT4_SYNC_FL : Z := 0x8.
Definition EXT4_IMMUTABLE_FL : Z := 0x10.
Definition EXT4_APPEND_FL : Z := 0x20.
Definition EXT4_NODUMP_FL : Z := 0x40.
Definition EXT4_NOATIME_FL : Z := 0x80.
Definition EXT4_DIRTY_FL : Z := 0x100.
Definition EXT4_COMPRBLK_FL : Z := 0x200.
Definition EXT4_NOCOMPR_FL : Z := 0x400.
Definition EXT4_ENCRYPT_FL : Z := 0x800.
Definition EXT4_INDEX_FL : Z := 0x1000.
Definition EXT4_IMAGIC_FL : Z := 0x2000.
Definition EXT4_JOURNAL_DATA_FL : Z := 0x4000.
Definition EXT4_NOTAIL_FL : Z := 0x8000.
Definition EXT4_DIRSYNC_FL : Z := 0x10000.
Definition EXT4_TOPDIR_FL : Z := 0x20000.
Definition EXT4_HUGE_FILE_FL : Z := 0x40000.
Definition EXT4_VERITY_FL : Z := 0x100000.
Definition EXT4_EA_INODE_FL : Z := 0x200000.
Definition EXT4_EOFBLOCKS_FL : Z := 0x400000.
Definition EXT4_SNAPFILE_FL : Z := 0x800000.
Definition EXT4_SNAPFILE_DELETED_FL : Z := 0x1000000.
Definition EXT4_SNAPFILE_SHRUNK_FL : Z := 0x2000000.
Definition EXT4_INLINE_DATA_FL : Z := 0x4000000.
Definition EXT4_PROJINHERIT_FL : Z := 0x8000000.
Definition EXT4_RESERVED_FL : Z := 0x80000000.
Definition inode_flags : list Z :=
  [EXT4_SECRM_FL; EXT4_UNRM_FL; EXT4_COMPR_FL; EXT4_SYNC_FL; EXT4_IMMUTABLE_FL; EXT4_APPEND_FL;
   EXT4_NODUMP_FL; EXT4_NOATIME_FL; EXT4_DIRTY_FL; EXT4_COMPRBLK_FL; EXT4_NOCOMPR_FL; EXT4_ENCRYPT_FL;
   EXT4_INDEX_FL; EXT4_IMAGIC_FL; EXT4_JOURNAL_DATA_FL; EXT4_NOTAIL_FL; EXT4_DIRSYNC_FL; EXT4_TOPDIR_FL;
   EXT4_HUGE_FILE_FL; EXT4_EXTENTS_FL; EXT4_VERITY_FL; EXT4_EA_INODE_FL; EXT4_EOFBLOCKS_FL;
   EXT4_SNAPFILE_FL; EXT4_SNAPFILE_DELETED_FL; EXT4_SNAPFILE_SHRUNK_FL; EXT4_INLINE_DATA_FL;
   EXT4_PROJINHERIT_FL; EXT4_RESERVED_FL].
Definition EXT4_BG_INODE_UNINIT : Z := 0x0001.
Definition EXT4_BG_BLOCK_UNINIT : Z := 0x0002.
Definition EXT4_BG_INODE_ZEROED : Z := 0x0004.

(** * Numbers that name something *)

(** Hash algorithms, error policies, creator systems, revisions, encryption modes. *)
Definition HASH_LEGACY : Z := 0.
Definition HASH_HALF_MD4 : Z := 0x1.
Definition HASH_TEA : Z := 0x2.
Definition HASH_LEGACY_UNSIGNED : Z := 0x3.
Definition HASH_HALD_MD4_UNSIGNED : Z := 0x4.
Definition HASH_TEA_UNSIGNED : Z := 0x5.
Definition ERRORS_CONTINUE : Z := 1.
Definition ERRORS_REMOUNT_RO : Z := 2.
Definition ERRORS_PANIC : Z := 3.
Definition OS_LINUX : Z := 0.
Definition OS_HURD : Z := 1.
Definition OS_MASIX : Z := 2.
Definition OS_FREEBSD : Z := 3.
Definition OS_LITES : Z := 4.
Definition REV_ORIGINAL : Z := 0.
Definition REV_V2_FORMAT : Z := 1.
Definition ENCRYPTION_MODE_INVALID : Z := 0.
Definition ENCRYPTION_MODE_AES_256_XTS : Z := 1.
Definition ENCRYPTION_MODE_AES_256_GCM : Z := 2.
Definition ENCRYPTION_MODE_AES_256_CBC : Z := 3.
(** Reserved inodes; [ROOT_DIR] is in Dirs.v. *)
Definition INO_UNUSED_DIR_ENTRY : Z := 0.
Definition INO_USER_QUOTA : Z := 0x3.
Definition INO_GROUP_QUOTA : Z := 0x4.
Definition INO_BOOTLOADER : Z := 0x5.
Definition INO_UNDELETE : Z := 0x6.
Definition INO_RESIZE : Z := 0x7.
Definition INO_JOURNAL : Z := 0x8.
Definition INO_EXCLUDE : Z := 0x9.
Definition INO_REPLICA : Z := 0xA.
(** The bits of [InodeFileMode] that are neither a permission nor a type. *)
Definition S_ISVTX : Z := 0x0200.
Definition S_ISGID : Z := 0x0400.
Definition S_ISUID : Z := 0x0800.

(** * Ranges *)

(** [next] of [ext4_uint_field_range!]: the first bound moves up to the second. *)
Definition range_next (r : Z * Z) : option Z * (Z * Z) :=
  if bool_decide (r.1 < r.2) then (Some (bg_sub (bg_add r.1 1) 1), (bg_add r.1 1, r.2)) else (None, r).
(** What a loop over the range sees, with at most [fuel] elements. *)
Fixpoint range_collect (fuel : nat) (r : Z * Z) : outcome (list Z) :=
  match fuel with
  | O => NoFuel
  | S fuel => match range_next r with
              | (None, _) => Done []
              | (Some g, r) => gs ← range_collect fuel r; Done (g :: gs)
              end
  end.

(** * Strings of the superblock *)

(** [chars] of [ext4_sb_string_field!]: the bytes other than 0, as characters. *)
Definition sb_string_chars (bytes : list Z) : list Z := filter (λ b, b ≠ 0) bytes.

(** * Numbers in two halves *)

(** [From<InodeSize>] for its halves, [From<InodeBlkCount>] and [From<InodeChksum>]. *)
Definition size_lo (v : Z) : Z := Z.land v 0xffffffff.
Definition size_hi (v : Z) : Z := Z.land (Z.shiftr v 32) 0xffffffff.
Definition blk_count_lo (v : Z) : Z := Z.land v 0xffffffff.
Definition blk_count_hi (v : Z) : Z := Z.land (Z.shiftr v 32) 0xffff.
Definition chksum_lo (v : Z) : Z := Z.land v 0xffff.
Definition chksum_hi (v : Z) : Z := Z.land (Z.shiftr v 16) 0xffff.
(** [InodeXattrLo + InodeXattrHi]. *)
Definition inode_xattr (i : Ext4Inode) : Z := halves32 (i_file_acl_lo i) (i_file_acl_high i).

Section superblock.
Context `{SbLayout}.

Definition mmp_enabled (sb : Superblock) : bool :=
  includes (sb_get sb sb_feature_incompat) EXT4_FEATURE_INCOMPAT_MMP.
Definition sb_put (sb : Superblock) (f : sb_field) (v : Z) : Superblock :=
  take (sb_offset f) sb ++ le_bytes (sb_width f) v ++ drop (sb_offset f + sb_width f) sb.
(** [Ext4Superblock::update_chksum]. *)
Definition sb_update_chksum (sb : Superblock) : outcome Superblock :=
  c ← compute_chksum sb;
  Done (sb_put sb sb_checksum c).
End superblock.

(** * What the operations compute *)

Lemma is_subset_of_bits a b : is_subset_of a b = true ↔ ∀ i, Z.testbit a i = true → Z.testbit b i = true.
Proof.
  unfold is_subset_of. rewrite bool_decide_eq_true. split.
  - intros Hx i Ha. apply (f_equal (λ z, Z.testbit z i)) in Hx.
    rewrite Z.lxor_spec, Z.lor_spec, Z.bits_0, Ha in Hx. by destruct (Z.testbit b i).
  - intros Hs. apply Z.bits_inj'. intros i Hi. rewrite Z.lxor_spec, Z.lor_spec, Z.bits_0.
    specialize (Hs i). destruct (Z.testbit a i), (Z.testbit b i); naive_solver.
Qed.

(** Feature sets are sets of bits: [is_subset_of] is inclusion, [extend_from_set] is the least
    set that includes both, and [includes] with one of the named features tests its bit.  The
    features of one set have one bit each, and no two the same. *)
Theorem feature_sets a b c :
  (is_subset_of a b = true ↔ ∀ i, Z.testbit a i = true → Z.testbit b i = true)
  ∧ includes (extend_from_set a b) a = true ∧ includes (extend_from_set a b) b = true
  ∧ (includes c a = true → includes c b = true → includes c (extend_from_set a b) = true)
  ∧ Forall (λ l, NoDup l ∧ Forall (λ f, f = 2 ^ Z.log2 f ∧ includes a f = Z.testbit a (Z.log2 f)) l)
      [compat_features; ro_compat_features; incompat_features; mount_options; inode_flags].
Proof.
  split; [apply is_subset_of_bits|]. unfold includes, extend_from_set. split_and!.
  - apply is_subset_of_bits. intros i Ha. by rewrite Z.lor_spec, Ha.
  - apply is_subset_of_bits. intros i Hb. by rewrite Z.lor_spec, Hb, orb_true_r.
  - rewrite !is_subset_of_bits. intros Ha Hb i. rewrite Z.lor_spec, orb_true_iff. naive_solver.
  - assert (Hone : ∀ f, f = 2 ^ Z.log2 f → is_subset_of f a = Z.testbit a (Z.log2 f)).
    { intros f Hf. apply eq_true_iff_eq. rewrite is_subset_of_bits. split.
      - intros Hs. apply Hs. rewrite Hf at 1. apply Z.pow2_bits_true, Z.log2_nonneg.
      - intros Ha i. rewrite Hf, Z.pow2_bits_eqb by apply Z.log2_nonneg. intros Hi.
        apply Z.eqb_eq in Hi. congruence. }
    assert (Hall : Forall (λ l, NoDup l ∧ Forall (λ f, f = 2 ^ Z.log2 f) l)
      [compat_features; ro_compat_features; incompat_features; mount_options; inode_flags])
      by (apply (bool_decide_unpack _); vm_compute; exact I).
    apply (Forall_impl _ _ _ Hall). intros l [Hn Hl]. split; [done|].
    apply (Forall_impl _ _ _ Hl). intros f Hf. split; [done|]. by apply Hone.
Qed.

(** The journal modes are values of a two-bit field that the mount options treat as flags:
    [WBACK] is set where [DATA] and [ORDERED] are, so that a filesystem in writeback mode is
    also taken for one in the other two modes. *)
Theorem journal_modes opts :
  is_option_set opts EXT4_DEFM_JMODE_WBACK
  = is_option_set opts EXT4_DEFM_JMODE_DATA && is_option_set opts EXT4_DEFM_JMODE_ORDERED.
Proof.
  unfold is_option_set. apply eq_true_iff_eq. rewrite andb_true_iff, !is_subset_of_bits.
  change EXT4_DEFM_JMODE_WBACK with (Z.lor EXT4_DEFM_JMODE_DATA EXT4_DEFM_JMODE_ORDERED).
  setoid_rewrite Z.lor_spec. setoid_rewrite orb_true_iff. naive_solver.
Qed.

(** A loop over a range of block groups ends and sees the groups from the first bound
    (included) to the second (excluded), in order, without the saturating arithmetic of the
    numbers showing. *)
Theorem range_collect_seq a b fuel : 0 ≤ a → b < 2 ^ 32 → (Z.to_nat (b - a) < fuel)%nat →
  range_collect fuel (a, b) = Done (seqZ a (b - a)).
Proof.
  revert a. induction fuel as [|fuel IH]; intros a Ha Hb Hf; [lia|].
  cbn [range_collect]. unfold range_next. cbn [fst snd]. destruct (decide (a < b)) as [Hab|Hab].
  - rewrite bool_decide_true by done. unfold bg_add, bg_sub. rewrite Z.min_l, Z.max_l by lia.
    rewrite IH by lia. cbn [mbind outcome_bind]. rewrite (seqZ_cons a) by lia.
    do 2 f_equal; [lia|f_equal; lia].
  - rewrite bool_decide_false by done. by rewrite seqZ_nil by lia.
Qed.

(** A name that is shorter than its field is padded with zero bytes, and read back; but bytes
    after the zero byte that ends a string belong to it too, since only the zero bytes are
    dropped. *)
Theorem sb_string_roundtrip name pad rest : Forall (λ b, b ≠ 0) name →
  sb_string_chars (name ++ replicate pad 0) = name
  ∧ sb_string_chars (name ++ [0] ++ rest) = name ++ sb_string_chars rest.
Proof.
  intros Hn. unfold sb_string_chars. rewrite !filter_app.
  assert (Hk : filter (λ b, b ≠ 0) name = name) by (by induction Hn as [|b l Hb _ IH]; [|rewrite filter_cons_True, IH]).
  assert (Hz : filter (λ b : Z, b ≠ 0) (replicate pad 0) = [])
    by (induction pad as [|pad IH]; [done|cbn; rewrite decide_False by auto; done]).
  by rewrite Hk, Hz, app_nil_r.
Qed.

(** A number stored in two halves is the number that was split: sizes of 64 bits, block counts
    of 48 bits, and checksums of 32 bits. *)
Theorem halves_roundtrip size blocks chksum :
  in_width 64 size → in_width 48 blocks → in_width 32 chksum →
  halves32 (size_lo size) (size_hi size) = size
  ∧ halves32 (blk_count_lo blocks) (blk_count_hi blocks) = blocks
  ∧ halves16 (chksum_lo chksum) (chksum_hi chksum) = chksum.
Proof.
  intros Hs Hb Hc. split_and!;
    [apply (split_halves 32 32)|apply (split_halves 16 32)|apply (split_halves 16 16)]; done.
Qed.

Section checksum.
Context `{SbLayout}.

(** When the checksum is the last field of the structure, updating it makes it valid and
    changes nothing else. *)
Theorem sb_update_then_validate sb : length sb = sb_size → sb_size = (sb_offset sb_checksum + 4)%nat →
  ∃ sb', sb_update_chksum sb = Done sb' ∧ length sb' = sb_size ∧ take (sb_size - 4) sb' = take (sb_size - 4) sb
  ∧ validate_chksum sb' = Done true.
Proof.
  intros Hl Ho. unfold sb_update_chksum, validate_chksum, compute_chksum. rewrite bool_decide_true by lia.
  cbn [mbind outcome_bind]. eexists. split; [done|]. unfold sb_put. cbn [sb_width].
  replace (sb_size - 4)%nat with (sb_offset sb_checksum) by lia.
  set (c := crc32c_calc _). rewrite (drop_ge sb) by lia. rewrite app_nil_r.
  assert (Ht : length (take (sb_offset sb_checksum) sb) = sb_offset sb_checksum) by (rewrite length_take; lia).
  split_and!.
  - rewrite length_app, length_le_bytes, Ht. lia.
  - by rewrite take_app_le, take_ge by lia.
  - rewrite take_app_le, take_ge by lia. fold c. unfold sb_get. cbn [sb_width].
    rewrite drop_app_ge by lia. rewrite Ht, Nat.sub_diag, drop_0, take_ge by (rewrite length_le_bytes; lia).
    rewrite of_le_le_bytes by apply crc32c_range. by rewrite bool_decide_true.
Qed.
End checksum.

Lemma range_collect_seq_witness : range_collect 4 (5, 8) = Done [5; 6; 7].
Proof. refine (range_collect_seq 5 8 4 _ _ _); [lia|lia|vm_compute; lia]. Defined.
Lemma sb_string_roundtrip_witness : sb_string_chars [114; 111; 111; 116; 0; 0] = [114; 111; 111; 116]
  ∧ sb_string_chars [114; 0; 49; 0] = [114; 49].
Proof.
  split.
  - apply (sb_string_roundtrip [114; 111; 111; 116] 2 []). by repeat constructor.
  - apply (sb_string_roundtrip [114] 0 [49; 0]). by repeat constructor.
Defined.
Lemma halves_roundtrip_witness : halves32 (size_lo 0x123456789) (size_hi 0x123456789) = 0x123456789.
Proof. by apply (halves_roundtrip 0x123456789 0 0). Defined.
Lemma sb_update_then_validate_witness : let _ := c_layout in
  ∃ sb, sb_update_chksum (replicate sb_size 7) = Done sb ∧ validate_chksum sb = Done true.
Proof.
  intros L. destruct (@sb_update_then_validate c_layout (replicate sb_size 7)) as (sb & Hu & _ & _ & Hv);
    [apply length_replicate|by vm_compute|by exists sb].
Defined.
