(* ===== verification/KernelSec.v ===== *)
(** The protections of kernel memory (src/mem/kernel_sec.rs): the non-executable bit, and the
    prevention of accesses to and of execution from user pages (SMAP, SMEP). *)

From stdpp Require Import strings.
From S2P Require Import Prelude Addr Bitfield Cpu.

(** The [AC] flag, and the instructions [stac] and [clac] on it. *)
Class AccessControl (D : Type) := { ac_flag : D → bool; stac : D → D; clac : D → D }.

(** The processor, and the static [NX_PROT_AVAILABLE]. *)
Record KernelSec (D : Type) := { sec_cpu : D; NX_PROT_AVAILABLE : bool }.
Arguments Build_KernelSec {_}.
Arguments sec_cpu {_}.
Arguments NX_PROT_AVAILABLE {_}.

Section security.
Context {D : Type} `{CP : Cpu D} `{AC : AccessControl D} `{MB : ModularBitfield}.

Definition nx_prot_enabled (s : KernelSec D) : bool := NX_PROT_AVAILABLE s.
Definition nx_bit_available (d : D) : bool :=
  match cpu_id 0x80000001 d with
  | Some (_, _, _, edx) => bool_decide (Z.land edx (Z.shiftl 1 20) ≠ 0)
  | None => false
  end.
Definition smap_support (d : D) : bool :=
  match cpu_id_subleaf 0x7 0 d with
  | Some (_, ebx, _, _) => bool_decide (Z.land ebx (Z.shiftl 1 20) ≠ 0)
  | None => false
  end.
Definition smep_support (d : D) : bool :=
  match cpu_id_subleaf 0x7 0 d with
  | Some (_, ebx, _, _) => bool_decide (Z.land ebx (Z.shiftl 1 7) ≠ 0)
  | None => false
  end.

(** The three parts of [enable_kernel_mem_sec]. *)
Definition enable_nx (s : KernelSec D) : outcome (KernelSec D) :=
  let d := sec_cpu s in
  if nx_bit_available d then
    r ← Ia32ExtendedFeature_read d;
    d ← match r with
        | Some msr => msr ← with_flag Ia32ExtendedFeature "nxe" true msr; Ia32ExtendedFeature_write msr d
        | None => Done d
        end;
    Done (Build_KernelSec d true)
  else Done s.
Definition enable_smap (d : D) : outcome D :=
  if smap_support d then cr4 ← with_flag Cr4 "smap" true (Cr4_read d); Done (clac (Cr4_write cr4 d)) else Done d.
Definition enable_smep (d : D) : outcome D :=
  if smep_support d then cr4 ← with_flag Cr4 "smep" true (Cr4_read d); Done (Cr4_write cr4 d) else Done d.
Definition enable_kernel_mem_sec (s : KernelSec D) : outcome (KernelSec D) :=
  s ← enable_nx s;
  d ← enable_smap (sec_cpu s);
  d ← enable_smep d;
  Done (Build_KernelSec d (NX_PROT_AVAILABLE s)).
End security.

(** Nothing but the register in question differs: the identification of the processor, the
    extended features, the fourth control register and the [AC] flag. *)
Section frames.
Context {D : Type} `{CP : Cpu D} `{AC : AccessControl D}.
Implicit Types d : D.
Definition same_id d d' : Prop :=
  (∀ a c, cpuid a c d' = cpuid a c d) ∧ ecx_left d' = ecx_left d ∧ id_flag_flips d' = id_flag_flips d.
Definition same_efer d d' : Prop := rdmsr IA32_EFER d' = rdmsr IA32_EFER d.
Definition same_cr4 d d' : Prop := read_cr 4 d' = read_cr 4 d.
Definition same_ac d d' : Prop := ac_flag d' = ac_flag d.
End frames.

(** What the code relies on, as the processor documents it.  Writing back the extended features
    with the NX bit added, on a processor that has it, does not fault and sets the bit; adding
    the SMAP or SMEP bit to the fourth control register, on a processor that has it, sets the
    bit; [clac], which exists together with SMAP, clears the flag.  None of them changes
    anything else of these.  Nothing is said of other registers, bits or processors. *)
Class CpuLaws (D : Type) `{CP : Cpu D} `{AC : AccessControl D} := {
  efer_width d hi lo : rdmsr IA32_EFER d = Done (hi, lo) → in_width 32 hi ∧ in_width 32 lo;
  set_nxe d hi lo : nx_bit_available d = true → rdmsr IA32_EFER d = Done (hi, lo) →
    ∃ d', wrmsr IA32_EFER hi (Z.lor lo 0x800) d = Done d' ∧ rdmsr IA32_EFER d' = Done (hi, Z.lor lo 0x800)
    ∧ same_id d d' ∧ same_cr4 d d' ∧ same_ac d d';
  set_cr4 d b : b = 21 ∧ smap_support d = true ∨ b = 20 ∧ smep_support d = true →
    let d' := write_cr 4 (Z.lor (read_cr 4 d) (2 ^ b)) d in
    read_cr 4 d' = Z.lor (read_cr 4 d) (2 ^ b) ∧ same_id d d' ∧ same_efer d d' ∧ same_ac d d';
  clac_clears d : smap_support d = true →
    ac_flag (clac d) = false ∧ same_id d (clac d) ∧ same_efer d (clac d) ∧ same_cr4 d (clac d)
}.

Section proofs.
Context {D : Type} `{CP : Cpu D} `{AC : AccessControl D} `{CL : !CpuLaws D} `{ML : ModularBitfieldLaws}.
Implicit Types d : D.

Lemma same_id_support d d' : same_id d d' →
  smap_support d' = smap_support d ∧ smep_support d' = smep_support d
  ∧ cpu_feature_support CPU_FEAT_MSR d' = cpu_feature_support CPU_FEAT_MSR d.
Proof using Type.
  intros (Hc & He & Hf). unfold smap_support, smep_support, cpu_feature_support, cpu_id, cpu_id_subleaf,
    cpu_id_leaf_support, cpu_id_support, cpu_id_max_leaf, cpu_id_max_extended_leaf. rewrite He, Hf, !Hc. done.
Qed.
Lemma same_id_trans d1 d2 d3 : same_id d1 d2 → same_id d2 d3 → same_id d1 d3.
Proof using Type. intros (H1 & H2 & H3) (H4 & H5 & H6). split_and!; [intros; by rewrite H4, H1|congruence..]. Qed.

(** Setting a flag that is one bit of a register. *)
Lemma with_true_bits l name off x : widths_ok l = true → place l name = Some (off, 1) → 0 ≤ off →
  with_flag l name true x = Done (Z.lor x (2 ^ off)).
Proof using ML.
  intros Hw Hp Ho. rewrite (with_flag_at l name off) by done. f_equal. apply Z.bits_inj'. intros i Hi.
  rewrite testbit_put, Z.lor_spec, Z.pow2_bits_eqb by (done || lia).
  destruct (decide (i = off)) as [->|Hn].
  - rewrite bool_decide_true, Z.sub_diag, Z.eqb_refl by lia. by rewrite orb_true_r.
  - rewrite bool_decide_false by lia. assert (Hf : (off =? i) = false) by (apply Z.eqb_neq; congruence). by rewrite Hf, orb_false_r.
Qed.

Lemma enable_smap_spec d : ∃ d', enable_smap d = Done d' ∧ same_id d d' ∧ same_efer d d'
  ∧ Cr4_read d' = (if smap_support d then Z.lor (Cr4_read d) (2 ^ 21) else Cr4_read d)
  ∧ ac_flag d' = (if smap_support d then false else ac_flag d).
Proof using All.
  unfold enable_smap. destruct (smap_support d) eqn:Hs; [|by exists d].
  rewrite (with_true_bits Cr4 "smap" 21) by (by vm_compute || lia). cbn [mbind outcome_bind].
  destruct (set_cr4 d 21 ltac:(by left)) as (Hr & Hi & Hm & _). set (d1 := write_cr 4 _ d) in *.
  assert (Hs1 : smap_support d1 = true) by (rewrite <- Hs; by apply same_id_support).
  destruct (clac_clears d1 Hs1) as (Ka & Ki & Km & Kr). exists (clac d1). split; [done|].
  split_and!; [by apply (same_id_trans d d1)|unfold same_efer in *; congruence|unfold Cr4_read, same_cr4 in *; congruence|done].
Qed.
Lemma enable_smep_spec d : ∃ d', enable_smep d = Done d' ∧ same_id d d' ∧ same_efer d d' ∧ same_ac d d'
  ∧ Cr4_read d' = (if smep_support d then Z.lor (Cr4_read d) (2 ^ 20) else Cr4_read d).
Proof using All.
  unfold enable_smep. destruct (smep_support d) eqn:Hs; [|by exists d].
  rewrite (with_true_bits Cr4 "smep" 20) by (by vm_compute || lia). cbn [mbind outcome_bind].
  destruct (set_cr4 d 20 ltac:(by right)) as (Hr & Hi & Hm & Ha). eexists. by split_and!.
Qed.

(** The value that the two registers of an [rdmsr] make, with a bit of the low one added. *)
Lemma join_testbit hi lo i : in_width 32 hi → in_width 32 lo → 0 ≤ i →
  Z.testbit (Z.lor (u64 (Z.shiftl hi 32)) lo) i = if bool_decide (i < 32) then Z.testbit lo i else Z.testbit hi (i - 32).
Proof using Type.
  intros Hh Hl Hi. rewrite u64_id by (unfold in_width in Hh; rewrite Z.shiftl_mul_pow2 by lia; change (2 ^ 64) with (2 ^ 32 * 2 ^ 32); lia).
  rewrite Z.lor_spec, Z.shiftl_spec by lia. case_bool_decide.
  - by rewrite (Z.testbit_neg_r hi) by lia.
  - rewrite (testbit_above 32 lo i) by (done || lia). by rewrite orb_false_r.
Qed.
Lemma mask32_bits x i : 0 ≤ i → Z.testbit (Z.land x 0xffffffff) i = Z.testbit x i && bool_decide (i < 32).
Proof using Type.
  intros Hi. change 0xffffffff with (Z.ones 32). rewrite Z.land_spec. f_equal. case_bool_decide;
    [by apply Z.ones_spec_low|by apply Z.ones_spec_high; lia].
Qed.
Lemma split_set hi lo : in_width 32 hi → in_width 32 lo →
  let y := Z.lor (Z.lor (u64 (Z.shiftl hi 32)) lo) (2 ^ 11) in
  Z.land (Z.shiftr y 32) 0xffffffff = hi ∧ Z.land y 0xffffffff = Z.lor lo 0x800 ∧ Z.lor (u64 (Z.shiftl hi 32)) (Z.lor lo 0x800) = y.
Proof using Type.
  intros Hh Hl y. assert (Hl' : in_width 32 (Z.lor lo 0x800)) by (apply in_width_lor; [lia|done|by vm_compute]).
  assert (Hy : ∀ i, 0 ≤ i → Z.testbit y i = if bool_decide (i < 32) then Z.testbit (Z.lor lo 0x800) i else Z.testbit hi (i - 32)).
  { intros i Hi. unfold y. rewrite Z.lor_spec, join_testbit by done. change 0x800 with (2 ^ 11). rewrite Z.pow2_bits_eqb by lia. case_bool_decide.
    - by rewrite Z.lor_spec, Z.pow2_bits_eqb by lia.
    - assert (Hf : (11 =? i) = false) by (apply Z.eqb_neq; lia). by rewrite Hf, orb_false_r. }
  split_and!; apply Z.bits_inj'; intros i Hi.
  - rewrite mask32_bits, Z.shiftr_spec, Hy, bool_decide_false by lia. replace (i + 32 - 32) with i by lia.
    case_bool_decide; [by rewrite andb_true_r|]. rewrite (testbit_above 32 hi i) by (done || lia). done.
  - rewrite mask32_bits, Hy by done. case_bool_decide; [by rewrite andb_true_r|]. rewrite andb_false_r.
    by rewrite (testbit_above 32 _ i Hl') by lia.
  - by rewrite join_testbit, Hy by done.
Qed.

(** Enabling NX where the processor has it: the bit of the extended features is set when they
    can be read; it is reported as available in both cases. *)
Lemma enable_nx_spec s : cpu_feature_support CPU_FEAT_MSR (sec_cpu s) = Some true →
  (∃ hi lo, rdmsr IA32_EFER (sec_cpu s) = Done (hi, lo)) →
  ∃ s' msr, enable_nx s = Done s' ∧ NX_PROT_AVAILABLE s' = nx_bit_available (sec_cpu s) || NX_PROT_AVAILABLE s
  ∧ same_id (sec_cpu s) (sec_cpu s') ∧ same_cr4 (sec_cpu s) (sec_cpu s') ∧ same_ac (sec_cpu s) (sec_cpu s')
  ∧ Ia32ExtendedFeature_read (sec_cpu s) = Done (Some msr)
  ∧ Ia32ExtendedFeature_read (sec_cpu s') = Done (Some (if nx_bit_available (sec_cpu s) then Z.lor msr (2 ^ 11) else msr)).
Proof using All.
  intros Hs (hi & lo & Hr). destruct (efer_width _ _ _ Hr) as [Hhi Hlo].
  assert (Hmsr : Ia32ExtendedFeature_read (sec_cpu s) = Done (Some (Z.lor (u64 (Z.shiftl hi 32)) lo)))
    by (unfold Ia32ExtendedFeature_read, msr_read; by rewrite Hs, Hr).
  unfold enable_nx. destruct (nx_bit_available _) eqn:Hn; [|by eexists s, _].
  rewrite Hmsr. cbn [mbind outcome_bind]. rewrite (with_true_bits Ia32ExtendedFeature "nxe" 11) by (by vm_compute || lia).
  cbn [mbind outcome_bind]. unfold Ia32ExtendedFeature_write, msr_write.
  destruct (split_set hi lo Hhi Hlo) as (-> & -> & Hj).
  destruct (set_nxe (sec_cpu s) hi lo Hn Hr) as (d' & -> & Hr' & Hid & Hcr & Hac).
  eexists (Build_KernelSec d' true), _. cbn [mbind outcome_bind]. split_and!; try done.
  unfold Ia32ExtendedFeature_read, msr_read. cbn [sec_cpu].
  destruct (same_id_support (sec_cpu s) d' Hid) as (_ & _ & ->). rewrite Hs, Hr'. cbn [mbind outcome_bind]. by rewrite Hj.
Qed.

(** C34: on a processor that has model-specific registers and whose extended features can be read,
    after [enable_kernel_mem_sec] each protection that it has is on: the NX bit of the extended
    features, which is then reported as available, and the SMAP and SMEP bits of the fourth
    control register; with SMAP the [AC] flag, which would suspend it, is cleared.  The registers
    have no other bit changed, and the flag is kept without SMAP. *)
Theorem kernel_sec_enabled s : cpu_feature_support CPU_FEAT_MSR (sec_cpu s) = Some true →
  (∃ hi lo, rdmsr IA32_EFER (sec_cpu s) = Done (hi, lo)) →
  let d := sec_cpu s in
  ∃ s' msr, enable_kernel_mem_sec s = Done s' ∧ nx_prot_enabled s' = nx_bit_available d || nx_prot_enabled s
  ∧ Ia32ExtendedFeature_read d = Done (Some msr)
  ∧ Ia32ExtendedFeature_read (sec_cpu s') = Done (Some (if nx_bit_available d then Z.lor msr (2 ^ 11) else msr))
  ∧ Cr4_read (sec_cpu s') = Z.lor (Z.lor (Cr4_read d) (if smap_support d then 2 ^ 21 else 0)) (if smep_support d then 2 ^ 20 else 0)
  ∧ ac_flag (sec_cpu s') = (if smap_support d then false else ac_flag d).
Proof using All.
  intros Hs Hr d. destruct (enable_nx_spec s Hs Hr) as (s1 & msr & E1 & Hn & I1 & C1 & A1 & M0 & M1).
  destruct (enable_smap_spec (sec_cpu s1)) as (d2 & E2 & I2 & M2 & C2 & A2).
  destruct (enable_smep_spec d2) as (d3 & E3 & I3 & M3 & A3 & C3).
  destruct (same_id_support _ _ I1) as (Hsm & Hsp & Hf1). destruct (same_id_support _ _ I2) as (_ & Hsp2 & Hf2).
  destruct (same_id_support _ _ I3) as (_ & _ & Hf3).
  exists (Build_KernelSec d3 (NX_PROT_AVAILABLE s1)), msr. unfold enable_kernel_mem_sec. rewrite E1. cbn [mbind outcome_bind].
  rewrite E2. cbn [mbind outcome_bind]. rewrite E3. unfold same_efer, same_cr4, same_ac in *. split_and!; try done; cbn [sec_cpu].
  - revert M1. unfold Ia32ExtendedFeature_read, msr_read. by rewrite Hf3, Hf2, M3, M2.
  - rewrite C3, Hsp2, Hsp, C2, Hsm. unfold Cr4_read in *. rewrite C1. fold d. destruct (smap_support d), (smep_support d); by rewrite ?Z.lor_0_r.
  - rewrite A3, A2, Hsm, A1. done.
Qed.
End proofs.

(** * A processor with the three protections

    Writing a model-specific register other than the extended features, or a reserved bit of
    it, faults. *)

Record sec_machine := { sm_efer : Z * Z; sm_cr4 : Z; sm_ac : bool }.
Definition EFER_BITS : Z := 0xD01.
#[export] Instance sec_machine_cpu : Cpu sec_machine := {|
  cpuid a _ _ :=
    if bool_decide (a = 0) then (0x16, 0, 0, 0)
    else if bool_decide (a = 1) then (0, 0, 0, 0x20)
    else if bool_decide (a = 7) then (0, 0x100080, 0, 0)
    else if bool_decide (a = 0x80000000) then (0x80000008, 0, 0, 0)
    else if bool_decide (a = 0x80000001) then (0, 0, 0, 0x100000)
    else (0, 0, 0, 0);
  ecx_left _ := 0;
  id_flag_flips _ := true;
  flags_reg _ := 0x2;
  cli d := d;
  sti d := d;
  rdmsr r d := if bool_decide (r = IA32_EFER) then Done (0, Z.land (sm_efer d).2 EFER_BITS) else Faulted;
  wrmsr r hi lo d :=
    if bool_decide (r = IA32_EFER) && bool_decide (hi = 0) && bool_decide (Z.ldiff lo EFER_BITS = 0)
    then Done {| sm_efer := (hi, lo); sm_cr4 := sm_cr4 d; sm_ac := sm_ac d |} else Faulted;
  read_cr c d := if bool_decide (c = 4) then sm_cr4 d else 0;
  write_cr c v d := if bool_decide (c = 4) then {| sm_efer := sm_efer d; sm_cr4 := v; sm_ac := sm_ac d |} else d
|}.
#[export] Instance sec_machine_ac : AccessControl sec_machine := {|
  ac_flag := sm_ac;
  stac d := {| sm_efer := sm_efer d; sm_cr4 := sm_cr4 d; sm_ac := true |};
  clac d := {| sm_efer := sm_efer d; sm_cr4 := sm_cr4 d; sm_ac := false |}
|}.
Lemma sec_machine_laws : CpuLaws sec_machine.
Proof.
  split.
  - intros d hi lo. cbn. intros [= <- <-]. split; [by vm_compute|]. apply in_width_land_r; [lia|by vm_compute].
  - intros d hi lo _. cbn. intros [= <- <-]. set (lo := Z.land _ EFER_BITS).
    assert (Hb : ∀ z, Z.ldiff (Z.lor (Z.land z EFER_BITS) 0x800) EFER_BITS = 0).
    { intros z. change 0x800 with (Z.land 0x800 EFER_BITS). rewrite <- Z.land_lor_distr_l. apply Z.bits_inj'. intros i Hi.
      rewrite Z.ldiff_spec, Z.land_spec, Z.bits_0. by destruct (Z.testbit EFER_BITS i); rewrite ?andb_false_r. }
    unfold lo. rewrite (bool_decide_true (Z.ldiff _ _ = 0)) by apply Hb. cbn. eexists. split; [done|]. cbn. split_and!; try done.
    do 2 f_equal. change 0x800 with (Z.land 0x800 EFER_BITS). rewrite <- Z.land_lor_distr_l, <- Z.land_assoc. done.
  - intros d b _. by split_and!.
  - intros d _. by split_and!.
Qed.
Definition sec_boot : KernelSec sec_machine := Build_KernelSec {| sm_efer := (0, 0x500); sm_cr4 := 0x20; sm_ac := true |} false.

Lemma kernel_sec_enabled_witness : ∃ s', @enable_kernel_mem_sec _ _ _ shifts sec_boot = Done s' ∧ nx_prot_enabled s' = true
  ∧ Cr4_read (sec_cpu s') = 0x300020 ∧ ac_flag (sec_cpu s') = false.
Proof.
  destruct (@kernel_sec_enabled _ _ _ sec_machine_laws shifts shifts_laws sec_boot) as (s' & msr & He & Hn & _ & _ & Hc & Ha);
    [by vm_compute|by exists 0, 0x500|].
  exists s'. split_and!; [done|rewrite Hn; by vm_compute|rewrite Hc; by vm_compute|rewrite Ha; by vm_compute].
Defined.
