(* ===== verification/BootServices.v ===== *)
(** BIOS services of the real-mode loader: disk reads (src/io/disk/bios.rs) and the map of
    memory (src/mem/e820.rs).  The services themselves, [int 0x13] and [int 0x15], are
    parameters. *)

From S2P Require Import Prelude Addr Ext4 MpTable Multiboot.

(** * Disks *)

(** The registers of a call; those that are not listed are left as they are. *)
Inductive reg13 := AH | AL | BX | CH | CL | DH | DL | ES | DS | SI.
Record int13_out := { carry : bool; out_ah : Z; out_cl : Z; out_dh : Z }.
Class BiosDisk (D : Type) := { int13 : list (reg13 * Z) → D → int13_out * D }.

Record AddressPacket := { ap_size : Z; ap_zero : Z; ap_sectors_count : Z; ap_buffer : Z; ap_s_lba : Z }.
Definition AddressPacket_new (sectors_count segment offset s_lba : Z) : AddressPacket := {|
  ap_size := 0x10; ap_zero := 0; ap_sectors_count := sectors_count;
  ap_buffer := Z.lor (shl_w 32 segment 16) offset; ap_s_lba := s_lba |}.
(** The structure as the BIOS reads it. *)
Definition AddressPacket_bytes (p : AddressPacket) : list Z :=
  encode_fields [1; 1; 2; 4; 8]%nat [ap_size p; ap_zero p; ap_sectors_count p; ap_buffer p; ap_s_lba p].

(** [lba_to_chs]: cylinder, head, sector. *)
Definition lba_to_chs (lba sectors_per_track heads_count : Z) : outcome (Z * Z * Z) :=
  temp ← rust_div lba sectors_per_track;
  r ← rust_rem lba sectors_per_track;
  head ← rust_rem temp heads_count;
  cylinder ← rust_div temp heads_count;
  Done (cylinder, head, u32 (r + 1)).

Section disk.
Context {D : Type} `{BD : BiosDisk D}.

(** [sbb ax, ax] turns the carry into 0 or 0xFFFF. *)
Definition edd_ext_check (drive_number : Z) (d : D) : bool * D :=
  let '(o, d) := int13 [(AH, 0x41); (BX, 0x55aa); (DL, drive_number)] d in
  let cflag := if carry o then 0xffff else 0 in
  (bool_decide (cflag = 0), d).
Definition drive_reset (driver_number : Z) (d : D) : D := (int13 [(AH, 0); (DL, driver_number)] d).2.
Definition read_sectors_from_drive (sectors_count cylinder sector head segment offset drive_number : Z) (d : D) : D :=
  (int13 [(AH, 0x2); (ES, segment); (AL, sectors_count); (CH, cylinder);
          (CL, Z.lor sector (Z.land (Z.shiftr cylinder 2) 0xc0)); (DH, head); (DL, drive_number); (BX, offset)] d).2.
(** The number of heads and of sectors per track. *)
Definition disk_geometry (driver_number : Z) (d : D) : Z * Z * D :=
  let '(o, d) := int13 [(AH, 0x8); (DL, driver_number)] d in
  (u8 (out_dh o + 1), Z.land (out_cl o) 0x3f, d).
(** [disk_read] of the packet at [dap_addr]: an error is an endless loop. *)
Definition disk_read (dap_addr drive_number : Z) (d : D) : outcome D :=
  let '(o, d) := int13 [(DL, drive_number); (AH, 0x42); (SI, u16 dap_addr); (DS, 0)] d in
  if bool_decide (out_ah o ≠ 0) then NoFuel else Done d.
End disk.

(** * The memory map *)

(** [int15 ebx buffer] of function 0xE820: the carry flag, [ebx], and the memory after the
    entry was written. *)
Section e820.
Context (int15 : Z → Z → memory → bool * Z * memory).

(** [xor edx, edx] clears the carry flag before [jnc] tests it: [cf] is always 0. *)
Definition mem_entry_e820 (ebx buffer : Z) (m : memory) : option Z * memory :=
  let '(_, ebx, m) := int15 ebx (u16 buffer) m in
  let cf := 0 in
  (if bool_decide (cf = 1) || bool_decide (ebx = 0) then None else Some ebx, m).
Fixpoint memory_map_loop (fuel : nat) (ebx entry_count : Z) (m : memory) : outcome (Z * memory) :=
  match fuel with
  | O => NoFuel
  | S fuel =>
      match mem_entry_e820 ebx (u32 (E820_MAP_ADDR + u32 (entry_count * 24))) m with
      | (None, m) => Done (entry_count, m)
      | (Some result, m) => memory_map_loop fuel result (u32 (entry_count + 1)) m
      end
  end.
(** [ptr::write] of bytes at an address. *)
Definition write_mem (m : memory) (a : Z) (bs : list Z) : memory :=
  λ x, if bool_decide (a ≤ x < a + Z.of_nat (length bs)) then default 0 (bs !! Z.to_nat (x - a)) else m x.
Definition memory_map (fuel : nat) (m : memory) : outcome memory :=
  '(entry_count, m) ← memory_map_loop fuel 0 0 m;
  Done (write_mem m (E820_MAP_ADDR - 0x2) (le_bytes 4 entry_count)).
End e820.
(** The number of entries that [E820MemoryMap] reads, before its first entry. *)
Definition stored_map_len (m : memory) : Z := of_le (bytes_at m (E820_MAP_ADDR - 4) 4).

(** * Disk addresses *)

(** The conversion is the inverse of the numbering of sectors: the head and the sector are in
    the geometry, and no other address in it has the same number.  A geometry without sectors
    or without heads panics; [disk_geometry] reports no heads for a disk of 256. *)
Theorem lba_to_chs_inverse lba spt heads : in_width 32 lba → in_width 8 spt → in_width 8 heads →
  if bool_decide (spt = 0) || bool_decide (heads = 0) then lba_to_chs lba spt heads = Panicked
  else ∃ c h s, lba_to_chs lba spt heads = Done (c, h, s) ∧ 0 ≤ h < heads ∧ 1 ≤ s ≤ spt
    ∧ (c * heads + h) * spt + (s - 1) = lba
    ∧ ∀ c' h' s', 0 ≤ h' < heads → 1 ≤ s' ≤ spt → (c' * heads + h') * spt + (s' - 1) = lba → (c', h', s') = (c, h, s).
Proof.
  intros [Hl0 Hl] [Hs0 Hs] [Hh0 Hh]. unfold lba_to_chs, rust_div, rust_rem.
  destruct (decide (spt = 0)) as [->|Hs']; [done|]. rewrite !(bool_decide_false (spt = 0)) by done. cbn [orb mbind outcome_bind].
  destruct (decide (heads = 0)) as [->|Hh']; [done|]. rewrite !(bool_decide_false (heads = 0)) by done. cbn [mbind outcome_bind].
  pose proof (Z.mod_pos_bound lba spt ltac:(lia)) as Hr. pose proof (Z.mod_pos_bound (lba / spt) heads ltac:(lia)) as Hr'.
  pose proof (Z.div_mod lba spt Hs') as E. pose proof (Z.div_mod (lba / spt) heads Hh') as E'.
  unfold u32; rewrite wrap_id by (unfold in_width; lia). do 3 eexists. split; [done|]. split_and!; [lia..|nia|].
  intros c' h' s' Hh1 Hs1 Heq.
  assert (Hd : lba / spt = c' * heads + h') by (symmetry; apply (Z.div_unique_pos _ _ _ (s' - 1)); lia).
  assert (Hm : lba mod spt = s' - 1) by (symmetry; apply (Z.mod_unique_pos _ _ (c' * heads + h')); lia).
  assert (Hd' : lba / spt / heads = c') by (symmetry; apply (Z.div_unique_pos _ _ _ h'); lia).
  assert (Hm' : (lba / spt) mod heads = h') by (symmetry; apply (Z.mod_unique_pos _ _ c'); lia).
  rewrite Hd', Hm', Hm. f_equal. lia.
Qed.

(** The two bits of the cylinder above the eight of [CH] are taken from a cylinder of eight
    bits: [CL] is always the sector, and only the first 256 cylinders can be read. *)
Theorem read_sectors_low_cylinders {D} `{BiosDisk D} sectors_count cylinder sector head segment offset drive_number d :
  in_width 8 cylinder →
  read_sectors_from_drive sectors_count cylinder sector head segment offset drive_number d
  = (int13 [(AH, 0x2); (ES, segment); (AL, sectors_count); (CH, cylinder); (CL, sector); (DH, head);
            (DL, drive_number); (BX, offset)] d).2.
Proof.
  intros Hc. unfold read_sectors_from_drive. replace (Z.land (Z.shiftr cylinder 2) 0xc0) with 0; [by rewrite Z.lor_0_r|].
  symmetry. apply Z.bits_inj'. intros i Hi. rewrite Z.land_spec, Z.shiftr_spec, Z.bits_0 by done.
  destruct (decide (i < 6)) as [Hi6|Hi6].
  - apply andb_false_iff. right. assert (i ∈ seqZ 0 6) as Hin by (apply elem_of_seqZ; lia).
    revert i Hin Hi Hi6. cut (Forall (λ i, Z.testbit 0xc0 i = false) (seqZ 0 6)); [by rewrite Forall_forall; eauto|].
    apply (bool_decide_unpack _). by vm_compute.
  - by rewrite (testbit_above 8 cylinder) by (done || lia).
Qed.

(** An extended read returns when the BIOS reports success, and only then; the packet at its
    address names the sectors, and the buffer by segment and offset. *)
Theorem disk_read_returns {D} `{BiosDisk D} count segment offset lba dap_addr drive d :
  in_width 16 count → in_width 16 segment → in_width 16 offset → in_width 64 lba →
  decode_fields [1; 1; 2; 2; 2; 8]%nat (AddressPacket_bytes (AddressPacket_new count segment offset lba))
    = [0x10; 0; count; offset; segment; lba]
  ∧ (∀ d', disk_read dap_addr drive d = Done d' ↔
      let '(o, d1) := int13 [(DL, drive); (AH, 0x42); (SI, u16 dap_addr); (DS, 0)] d in out_ah o = 0 ∧ d' = d1).
Proof.
  intros Hc Hs Ho Hl. split.
  - assert (Hb : le_bytes 4 (Z.lor (shl_w 32 segment 16) offset) = le_bytes 2 offset ++ le_bytes 2 segment).
    { unfold in_width in Hs, Ho. unfold shl_w. change (16 mod 32) with 16.
      rewrite wrap_id by (unfold in_width; rewrite Z.shiftl_mul_pow2 by lia; lia).
      rewrite lor_shiftl_add by lia. rewrite <- (le_bytes_of_le (le_bytes 2 offset ++ le_bytes 2 segment)).
      - rewrite length_app, !length_le_bytes. f_equal. cbn [le_bytes app of_le].
        rewrite !(Z.mod_small (_ / 256)) by (split; [apply Z.div_pos|apply Z.div_lt_upper_bound]; lia).
        pose proof (Z.div_mod offset 256). pose proof (Z.div_mod segment 256). change (2 ^ 16) with 65536. lia.
      - apply Forall_app. split; apply le_bytes_byte. }
    unfold AddressPacket_bytes, AddressPacket_new. cbn [ap_size ap_zero ap_sectors_count ap_buffer ap_s_lba encode_fields].
    rewrite Hb, <- app_assoc.
    pose proof (decode_encode_fields [1; 1; 2; 2; 2; 8]%nat [0x10; 0; count; offset; segment; lba] []) as He.
    rewrite app_nil_r in He. apply He. by repeat (apply Forall2_cons; split; [done|]).
  - intros d'. unfold disk_read. destruct (int13 _ _) as [o d1]. case_bool_decide; split; [done|by intros []|by intros [= <-]|by intros [_ ->]].
Qed.

(** * The map of memory *)

Lemma bytes_at_ext m m' a n : (∀ x, a ≤ x < a + Z.of_nat n → m' x = m x) → bytes_at m' a n = bytes_at m a n.
Proof.
  intros He. unfold bytes_at. apply map_ext_in. intros i Hi%in_seq. apply He. lia.
Qed.
Lemma bytes_at_write m a bs : bytes_at (write_mem m a bs) a (length bs) = bs.
Proof.
  apply list_eq. intros i. unfold bytes_at. rewrite list_lookup_fmap.
  destruct (decide (i < length bs)%nat) as [Hi|Hi].
  - rewrite lookup_seq_lt by done. cbn. unfold write_mem. rewrite bool_decide_true by lia.
    replace (Z.to_nat _) with i by lia. by destruct (lookup_lt_is_Some_2 bs i Hi) as [b ->].
  - rewrite lookup_seq_ge, lookup_ge_None_2 by lia. done.
Qed.
Lemma write_mem_other m a bs x : ¬ a ≤ x < a + Z.of_nat (length bs) → write_mem m a bs x = m x.
Proof. intros Hx. unfold write_mem. by rewrite bool_decide_false. Qed.

Lemma write_mem_at m a bs i b x : bs !! i = Some b → x = a + Z.of_nat i → write_mem m a bs x = b.
Proof.
  intros Hb ->. pose proof (lookup_lt_Some _ _ _ Hb). unfold write_mem. rewrite bool_decide_true by lia.
  replace (Z.to_nat _) with i by lia. by rewrite Hb.
Qed.

Section map.
Context (int15 : Z → Z → memory → bool * Z * memory) (es : list (list Z)).
(** The firmware has the entries [es]: the call with continuation [k] writes the entry of
    that index and gives the next continuation, 0 with the last entry. *)
Context (bios : ∀ k e buffer m, es !! k = Some e →
  int15 (Z.of_nat k) buffer m = (false, if bool_decide (S k = length es) then 0 else Z.of_nat (S k), write_mem m buffer e)).
Context (entry_size : Forall (λ e, length e = 24%nat) es) (room : E820_MAP_ADDR + 24 * Z.of_nat (length es) ≤ 2 ^ 16).

Lemma concat_entries k : (k ≤ length es)%nat → length (concat (drop k es)) = (24 * (length es - k))%nat.
Proof using entry_size.
  intros Hk. assert (Hd : Forall (λ e, length e = 24%nat) (drop k es)) by by apply Forall_drop.
  rewrite <- length_drop. clear Hk. induction Hd as [|e l He _ IH]; [done|]. cbn. rewrite length_app, He, IH. lia.
Qed.
Lemma map_loop fuel k m : (k < length es)%nat → (length es - k ≤ fuel)%nat →
  ∃ m', memory_map_loop int15 fuel (Z.of_nat k) (Z.of_nat k) m = Done (Z.of_nat (length es) - 1, m')
  ∧ (∀ x, x < E820_MAP_ADDR + 24 * Z.of_nat k → m' x = m x)
  ∧ bytes_at m' (E820_MAP_ADDR + 24 * Z.of_nat k) (24 * (length es - k)) = concat (drop k es).
Proof using All.
  revert k m. induction fuel as [|fuel IH]; intros k m Hk Hf; [lia|].
  destruct (lookup_lt_is_Some_2 es k Hk) as [e He]. pose proof (proj1 (Forall_lookup _ _) entry_size k e He) as Hl. cbn in Hl.
  assert (Hb : u16 (u32 (E820_MAP_ADDR + u32 (Z.of_nat k * 24))) = E820_MAP_ADDR + 24 * Z.of_nat k).
  { unfold E820_MAP_ADDR in *. unfold u16, u32. rewrite (wrap_id 32 (Z.of_nat k * 24)) by (unfold in_width; lia).
    rewrite Z.mul_comm, (wrap_id 32) by (unfold in_width; lia). apply wrap_id. unfold in_width. lia. }
  cbn [memory_map_loop]. unfold mem_entry_e820. rewrite Hb, (bios k e _ _ He). cbn [orb].
  rewrite (bool_decide_false (0 = 1)) by done. cbn [orb].
  set (a := E820_MAP_ADDR + 24 * Z.of_nat k) in *. rewrite (drop_S es e k He). cbn [concat].
  destruct (decide (S k = length es)) as [Hlast|Hlast].
  - rewrite (bool_decide_true (S k = _)) by done. rewrite bool_decide_true by done.
    exists (write_mem m a e). split_and!.
    + do 2 f_equal. lia.
    + intros x Hx. apply write_mem_other. lia.
    + rewrite drop_ge by lia. cbn [concat]. rewrite app_nil_r. replace (24 * (length es - k))%nat with (length e) by lia.
      apply bytes_at_write.
  - rewrite (bool_decide_false (S k = _)) by done. rewrite bool_decide_false by lia.
    unfold u32 at 1; rewrite wrap_id by (unfold in_width, E820_MAP_ADDR in *; lia). replace (Z.of_nat k + 1) with (Z.of_nat (S k)) by lia.
    destruct (IH (S k) (write_mem m a e)) as (m' & -> & Hx & Hbs); [lia..|]. exists m'. split_and!; [done| |].
    + intros x Hlt. rewrite Hx by lia. apply write_mem_other. lia.
    + replace (24 * (length es - k))%nat with (length e + 24 * (length es - S k))%nat by lia. rewrite bytes_at_app.
      f_equal.
      * rewrite <- (bytes_at_write m a e) at 2. apply bytes_at_ext. intros x Hin. apply Hx. lia.
      * rewrite <- Hbs. f_equal. lia.
Qed.

(** Collecting the map ends; all the entries are stored in order, the last one is not counted,
    and the number is written two bytes too far: it replaces the first two bytes of the first
    entry, and the reader sees 65536 times the number. *)
Theorem memory_map_misplaced fuel m : es ≠ [] → (length es ≤ fuel)%nat →
  ∃ m', memory_map int15 fuel m = Done m'
  ∧ bytes_at m' (E820_MAP_ADDR + 2) (24 * length es - 2) = drop 2 (concat es)
  ∧ bytes_at m' E820_MAP_ADDR 2 = [0; 0]
  ∧ stored_map_len m' = m (E820_MAP_ADDR - 4) + 256 * m (E820_MAP_ADDR - 3) + 65536 * (Z.of_nat (length es) - 1).
Proof using All.
  intros Hne Hf. assert (Hl : (0 < length es)%nat) by (by destruct es; [|cbn; lia]).
  destruct (map_loop fuel 0 m Hl) as (m1 & Hloop & Hx & Hbs); [lia|]. unfold memory_map.
  change 0 with (Z.of_nat 0) at 1 2. rewrite Hloop. cbn [mbind outcome_bind].
  change (Z.of_nat 0) with 0 in *. rewrite Z.mul_0_r, Z.add_0_r, Nat.sub_0_r, drop_0 in *.
  set (n := Z.of_nat (length es) - 1) in *. eexists. split; [done|].
  assert (Hn : 0 ≤ n < 2 ^ 16) by (unfold n, E820_MAP_ADDR in *; lia). split_and!.
  - rewrite (bytes_at_ext m1); [|intros x Hin; apply write_mem_other; rewrite length_le_bytes; lia].
    rewrite <- Hbs. replace (24 * length es)%nat with (2 + (24 * length es - 2))%nat at 2 by lia.
    rewrite bytes_at_app, drop_app_length'; [done|by rewrite length_bytes_at].
  - cbn [bytes_at map seq]. rewrite (write_mem_at _ _ (le_bytes 4 n) 2 (n / 256 / 256 mod 256)), (write_mem_at _ _ (le_bytes 4 n) 3 (n / 256 / 256 / 256 mod 256)) by (done || lia).
    rewrite !Z.div_div by lia. by rewrite !(Z.div_small n) by lia.
  - unfold stored_map_len. cbn [bytes_at map seq]. rewrite !(write_mem_other m1) by (rewrite length_le_bytes; lia).
    rewrite (write_mem_at _ _ (le_bytes 4 n) 0 (n mod 256)), (write_mem_at _ _ (le_bytes 4 n) 1 (n / 256 mod 256)) by (done || lia).
    rewrite !Hx by lia. cbn [of_le]. rewrite !Z.add_0_r. replace (E820_MAP_ADDR - 4 + Z.of_nat 1) with (E820_MAP_ADDR - 3) by lia.
    rewrite (Z.mod_small (n / 256)) by (pose proof (Z.div_pos n 256); pose proof (Z.div_lt_upper_bound n 256 256); lia).
    pose proof (Z.div_mod n 256). lia.
Qed.
End map.

Lemma lba_to_chs_inverse_witness : lba_to_chs 5000 63 16 = Done (4, 15, 24) ∧ lba_to_chs 5000 63 0 = Panicked.
Proof.
  split.
  - destruct (lba_to_chs_inverse 5000 63 16) as (c & h & s & Hd & _ & _ & _ & Hu); [done..|].
    rewrite Hd. f_equal. symmetry. by apply Hu.
  - by apply (lba_to_chs_inverse 5000 63 0).
Defined.

(** A disk controller that records its calls and reports success. *)
#[export] Instance recorded_calls : BiosDisk (list (list (reg13 * Z))) :=
  {| int13 rs d := ({| carry := false; out_ah := 0; out_cl := 0x3f; out_dh := 0xff |}, d ++ [rs]) |}.
Lemma read_sectors_low_cylinders_witness :
  read_sectors_from_drive 1 255 7 3 0x1000 0 0x80 []
  = [[(AH, 0x2); (ES, 0x1000); (AL, 1); (CH, 255); (CL, 7); (DH, 3); (DL, 0x80); (BX, 0)]].
Proof. refine (eq_trans (read_sectors_low_cylinders 1 255 7 3 0x1000 0 0x80 _ _) _); by vm_compute. Defined.
Lemma disk_read_returns_witness :
  decode_fields [1; 1; 2; 2; 2; 8]%nat (AddressPacket_bytes (AddressPacket_new 4 0x1000 0x20 2048)) = [0x10; 0; 4; 0x20; 0x1000; 2048]
  ∧ disk_read 0x7000 0x80 [] = Done [[(DL, 0x80); (AH, 0x42); (SI, 0x7000); (DS, 0)]].
Proof.
  destruct (disk_read_returns 4 0x1000 0x20 2048 0x7000 0x80 []) as [Hp Hr]; [done..|]. split; [exact Hp|]. by apply Hr.
Defined.

(** Firmware with two entries. *)
Definition two_entries : list (list Z) := [replicate 24 1; replicate 24 2].
Definition two_entry_bios (ebx buffer : Z) (m : memory) : bool * Z * memory :=
  match two_entries !! Z.to_nat ebx with
  | Some e => (false, if bool_decide (S (Z.to_nat ebx) = length two_entries) then 0 else Z.of_nat (S (Z.to_nat ebx)), write_mem m buffer e)
  | None => (true, 0, m)
  end.
Lemma memory_map_misplaced_witness : ∃ m', memory_map two_entry_bios 2 (λ _, 0) = Done m'
  ∧ bytes_at m' E820_MAP_ADDR 4 = [0; 0; 1; 1] ∧ stored_map_len m' = 65536.
Proof.
  destruct (memory_map_misplaced two_entry_bios two_entries) with (fuel := 2%nat) (m := λ _ : Z, 0) as (m' & Hm & Hb & H0 & Hl).
  - intros k e buffer m He. unfold two_entry_bios. by rewrite Nat2Z.id, He.
  - by repeat constructor.
  - by vm_compute.
  - done.
  - by vm_compute.
  - exists m'. split_and!; [done| |exact Hl]. change 4%nat with (2 + 2)%nat. rewrite bytes_at_app, H0.
    change (24 * length two_entries - 2)%nat with (2 + 44)%nat in Hb. rewrite bytes_at_app in Hb.
    apply (f_equal (take 2)) in Hb. rewrite take_app_length' in Hb by (by rewrite length_bytes_at).
    change (E820_MAP_ADDR + Z.of_nat 2) with (E820_MAP_ADDR + 2). rewrite Hb. by vm_compute.
Defined.
