(* ===== verification/VobOps.v ===== *)
(** The rest of the interface of the bit vector (src/deps/vob/src/lib.rs): collecting bits,
    indexing, the [vob!] macro, the operators, and iteration from both ends. *)

From S2P Require Import Prelude Vob.

Section operations.
Context (bytes_per_block : nat).

(** [reserve] changes the capacity only; [Extend] pushes the bits one by one. *)
Fixpoint extend (v : Vob) (iterable : list bool) : outcome Vob :=
  match iterable with
  | [] => Done v
  | e :: iterable => v ← push bytes_per_block v e; extend v iterable
  end.
Definition from_iter (iter : list bool) : outcome Vob := extend vob_new iter.
(** [vob![b1, .., bn]] and [vob![b; n]]. *)
Definition vob_macro (xs : list bool) : outcome Vob := foldl (λ vob x, vob ← vob; push bytes_per_block vob x) (Done vob_new) xs.
Definition vob_repeat (val : bool) (n : nat) : outcome Vob := from_elem bytes_per_block val n.
(** [Index]: out of bounds is a panic. *)
Definition index (v : Vob) (i : nat) : outcome bool :=
  r ← get bytes_per_block v i;
  match r with Some true => Done true | Some false => Done false | None => Panicked end.

(** The operators: those on references copy the vector first, those that assign replace it. *)
Definition bitor (v other : Vob) : outcome Vob := '(_, rv) ← or v other; Done rv.
Definition bitor_assign (v other : Vob) : outcome Vob := '(_, v) ← or v other; Done v.
Definition bitand (v other : Vob) : outcome Vob := '(_, rv) ← and v other; Done rv.
Definition bitand_assign (v other : Vob) : outcome Vob := '(_, v) ← and v other; Done v.
Definition bitxor (v other : Vob) : outcome Vob := '(_, rv) ← xor v other; Done rv.
Definition bitxor_assign (v other : Vob) : outcome Vob := '(_, v) ← xor v other; Done v.

(** [Iter]: the vector and a range of indices. *)
Record Iter := { it_vob : Vob; it_start : nat; it_end : nat }.
Definition iter (v : Vob) : Iter := {| it_vob := v; it_start := 0; it_end := len v |}.
Definition next (it : Iter) : outcome (option bool * Iter) :=
  if bool_decide (it_start it < it_end it)%nat then
    r ← get bytes_per_block (it_vob it) (it_start it);
    b ← unwrap r;
    Done (Some b, {| it_vob := it_vob it; it_start := S (it_start it); it_end := it_end it |})
  else Done (None, it).
Definition next_back (it : Iter) : outcome (option bool * Iter) :=
  if bool_decide (it_start it < it_end it)%nat then
    r ← get bytes_per_block (it_vob it) (it_end it - 1);
    b ← unwrap r;
    Done (Some b, {| it_vob := it_vob it; it_start := it_start it; it_end := it_end it - 1 |})
  else Done (None, it).

(** A sequence of calls, [true] from the front and [false] from the back: the bits obtained
    from either end, in the order of the calls. *)
Fixpoint take_ends (calls : list bool) (it : Iter) : outcome (list bool * list bool * Iter) :=
  match calls with
  | [] => Done ([], [], it)
  | from_front :: calls =>
      '(b, it) ← (if from_front : bool then next it else next_back it);
      '(front, back, it) ← take_ends calls it;
      Done (if from_front then option_list b ++ front else front, if from_front then back else option_list b ++ back, it)
  end.
End operations.

Section spec.
Context (bytes_per_block : nat) (Hpos : (0 < bytes_per_block)%nat).
Local Abbreviation represents := (represents bytes_per_block).

Lemma extend_eq v xs : extend bytes_per_block v xs = extend_from_slice bytes_per_block v xs.
Proof using Type.
  revert v. induction xs as [|x xs IH]; intros v; [done|]. cbn. destruct (push _ v x); cbn; [apply IH|done..].
Qed.
Lemma vob_macro_eq xs : vob_macro bytes_per_block xs = from_iter bytes_per_block xs.
Proof using Type.
  unfold vob_macro, from_iter. generalize vob_new. induction xs as [|x xs IH]; intros v; [done|]. cbn [foldl extend mbind outcome_bind].
  destruct (push _ v x) as [v'| | |]; [apply IH|..]; clear IH; cbn [mbind outcome_bind]; induction xs; auto.
Qed.

(** A collected vector has the bits of the sequence, so has the one of the macro, and indexing
    it gives them back; an index past the end panics. *)
Theorem collected_bits xs i : usize_fits bytes_per_block (length xs) = true →
  ∃ v, from_iter bytes_per_block xs = Done v ∧ vob_macro bytes_per_block xs = Done v ∧ represents v xs
  ∧ index bytes_per_block v i = match xs !! i with Some b => Done b | None => Panicked end.
Proof using Hpos.
  intros Hf. destruct (extend_from_slice_ok _ Hpos xs vob_new []) as (v & Hv & Hr); [by apply vob_new_ok|done|].
  exists v. rewrite vob_macro_eq. unfold from_iter. rewrite extend_eq, Hv. split_and!; [done..|].
  unfold index. rewrite (get_ok _ Hpos v i xs Hr). cbn [mbind outcome_bind]. by destruct (xs !! i) as [[]|].
Qed.

Lemma zip_operator (f : Z → Z → Z) (g : bool → bool → bool) v o l lo :
  (∀ x y i, Z.testbit (f x y) i = g (Z.testbit x i) (Z.testbit y i)) → g false false = false →
  (∀ x y, in_width (Z.of_nat (bits_per_block bytes_per_block)) x → in_width (Z.of_nat (bits_per_block bytes_per_block)) y →
    in_width (Z.of_nat (bits_per_block bytes_per_block)) (f x y)) →
  represents v l → represents o lo →
  if bool_decide (length l = length lo)
  then ∃ v', ('(_, rv) ← zip_words f v o; Done rv) = Done v' ∧ represents v' (zip_with g l lo)
  else ('(_, rv) ← zip_words f v o; Done rv) = Panicked.
Proof using Hpos.
  intros Hf Hg Hw Hv Ho. case_bool_decide as El.
  - destruct (zip_words_ok _ Hpos f g v o l lo) as (v' & -> & Hr); [done..|]. by exists v'.
  - rewrite zip_words_out; [done|]. rewrite <-(represents_length _ _ _ Hv), <-(represents_length _ _ _ Ho). done.
Qed.

(** The operators are pointwise on vectors of one length and panic on others, on a copy as in
    place. *)
Theorem operators_pointwise v o l lo : represents v l → represents o lo →
  (bitor v o = bitor_assign v o ∧ bitand v o = bitand_assign v o ∧ bitxor v o = bitxor_assign v o)
  ∧ if bool_decide (length l = length lo) then
      (∃ v', bitor v o = Done v' ∧ represents v' (zip_with orb l lo))
      ∧ (∃ v', bitand v o = Done v' ∧ represents v' (zip_with andb l lo))
      ∧ (∃ v', bitxor v o = Done v' ∧ represents v' (zip_with xorb l lo))
    else bitor v o = Panicked ∧ bitand v o = Panicked ∧ bitxor v o = Panicked.
Proof using Hpos.
  intros Hv Ho. split; [done|].
  pose proof (zip_operator Z.lor orb v o l lo Z.lor_spec eq_refl ltac:(intros; by apply in_width_lor; [lia|..]) Hv Ho) as H1.
  pose proof (zip_operator Z.land andb v o l lo Z.land_spec eq_refl ltac:(intros; by apply in_width_land_l; [lia|..]) Hv Ho) as H2.
  pose proof (zip_operator Z.lxor xorb v o l lo Z.lxor_spec eq_refl ltac:(intros; by apply in_width_lxor; [lia|..]) Hv Ho) as H3.
  by case_bool_decide.
Qed.

(** What is left of an iteration. *)
Definition left (it : Iter) (l : list bool) : list bool := drop (it_start it) (take (it_end it) l).
Lemma left_empty it l : (it_end it ≤ it_start it)%nat → left it l = [].
Proof using Type. intros Hs. unfold left. apply drop_ge. rewrite length_take. clear Hpos. lia. Qed.
Lemma next_left it l : represents (it_vob it) l → (it_end it ≤ length l)%nat →
  ∃ b it', next bytes_per_block it = Done (b, it') ∧ it_vob it' = it_vob it ∧ (it_end it' ≤ length l)%nat
  ∧ left it l = option_list b ++ left it' l ∧ (b = None → left it' l = []).
Proof using Hpos.
  intros Hr He. unfold next. case_bool_decide as Hs.
  - destruct (lookup_lt_is_Some_2 l (it_start it)) as [b Hb]; [lia|]. rewrite (get_ok _ Hpos _ _ l Hr), Hb.
    do 2 eexists. split; [done|]. split_and!; [done|done| |done]. unfold left. cbn. apply drop_S. by rewrite lookup_take_lt by lia.
  - exists None, it. split_and!; [done..|]. intros _. apply left_empty. lia.
Qed.
Lemma next_back_left it l : represents (it_vob it) l → (it_end it ≤ length l)%nat →
  ∃ b it', next_back bytes_per_block it = Done (b, it') ∧ it_vob it' = it_vob it ∧ (it_end it' ≤ length l)%nat
  ∧ left it l = left it' l ++ option_list b ∧ (b = None → left it' l = []).
Proof using Hpos.
  intros Hr He. unfold next_back. case_bool_decide as Hs.
  - destruct (lookup_lt_is_Some_2 l (it_end it - 1)) as [b Hb]; [lia|]. rewrite (get_ok _ Hpos _ _ l Hr), Hb.
    do 2 eexists. split; [done|]. split_and!; [done|cbn; lia| |done]. unfold left. cbn.
    replace (it_end it) with (S (it_end it - 1)) at 1 by lia. rewrite (take_S_r _ _ _ Hb), drop_app_le; [done|].
    rewrite length_take. lia.
  - exists None, it. split_and!; [done..|by rewrite app_nil_r|]. intros _. apply left_empty. lia.
Qed.

Lemma take_ends_left calls it l : represents (it_vob it) l → (it_end it ≤ length l)%nat →
  ∃ front back it', take_ends bytes_per_block calls it = Done (front, back, it')
  ∧ left it l = front ++ left it' l ++ rev back ∧ (length (left it l) ≤ length calls → left it' l = [])%nat.
Proof using Hpos.
  revert it. induction calls as [|[] calls IH]; intros it Hr He; cbn [take_ends].
  - exists [], [], it. rewrite app_nil_r. split_and!; [done..|]. cbn. destruct (left it l); [done|cbn; lia].
  - destruct (next_left it l Hr He) as (b & it1 & -> & Hv & He1 & Hl & Hb). cbn [mbind outcome_bind].
    destruct (IH it1) as (front & back & it' & -> & Hl' & Hn); [by rewrite Hv|done|]. cbn [mbind outcome_bind].
    do 3 eexists. split; [done|]. split; [by rewrite Hl, Hl', <-app_assoc|]. intros Hc. apply Hn.
    destruct b; [rewrite Hl in Hc; cbn in Hc; lia|rewrite Hb by done; cbn; lia].
  - destruct (next_back_left it l Hr He) as (b & it1 & -> & Hv & He1 & Hl & Hb). cbn [mbind outcome_bind].
    destruct (IH it1) as (front & back & it' & -> & Hl' & Hn); [by rewrite Hv|done|]. cbn [mbind outcome_bind].
    do 3 eexists. split; [done|]. split.
    + rewrite Hl, Hl', rev_app_distr, <-!app_assoc. by destruct b.
    + intros Hc. apply Hn. destruct b; [rewrite Hl, length_app in Hc; cbn in Hc; lia|rewrite Hb by done; cbn; lia].
Qed.

(** Iterating from both ends: whatever the order of the calls, the bits from the front, what is
    left and the bits from the back, last one first, are the bits of the vector. *)
Theorem iter_both_ends v l calls : represents v l →
  ∃ front back it, take_ends bytes_per_block calls (iter v) = Done (front, back, it)
  ∧ l = front ++ left it l ++ rev back ∧ (length l ≤ length calls → left it l = [])%nat.
Proof using Hpos.
  intros Hr. pose proof (represents_length _ _ _ Hr) as Hl.
  assert (Hall : left (iter v) l = l) by (unfold left; cbn; by rewrite drop_0, take_ge by lia).
  destruct (take_ends_left calls (iter v) l) as (front & back & it & He & Hs & Hn); [done|cbn; lia|].
  rewrite Hall in Hs, Hn. by exists front, back, it.
Qed.
End spec.

(** * Vectors of bytes *)

Definition five : list bool := [true; false; true; true; false].
Definition five_vob : Vob := {| len := 5; vec := [13] |}.
Lemma five_represents : represents 1 five_vob five.
Proof. split; [|by vm_compute]. split; [by vm_compute|by repeat constructor|]. intros i Hi.
  destruct (decide (i < 8)%nat) as [H8|H8].
  - assert (i = 5 ∨ i = 6 ∨ i = 7)%nat as [->|[->| ->]] by (cbn in Hi; lia); by vm_compute.
  - apply (vbit_out 1). change (1 ≤ i / 8)%nat. apply Nat.div_le_lower_bound; lia.
Qed.

Lemma collected_bits_witness : ∃ v, from_iter 1 five = Done v ∧ index 1 v 2 = Done true.
Proof. destruct (collected_bits 1 ltac:(lia) five 2) as (v & Hv & _ & _ & Hi); [by vm_compute|]. exists v. by split; [|rewrite Hi]. Defined.
Lemma operators_pointwise_witness : ∃ v, bitxor five_vob five_vob = Done v ∧ represents 1 v (replicate 5 false).
Proof. exact (proj2 (proj2 (proj2 (operators_pointwise 1 ltac:(lia) five_vob five_vob five five five_represents five_represents)))). Defined.
Lemma iter_both_ends_witness : ∃ front back it, take_ends 1 [true; false; true] (iter five_vob) = Done (front, back, it)
  ∧ five = front ++ left it five ++ rev back.
Proof.
  destruct (iter_both_ends 1 ltac:(lia) five_vob five [true; false; true] five_represents) as (f & b & it & He & Hs & _).
  by exists f, b, it.
Defined.
