(* ===== verification/Panic.v ===== *)
(** The panic screens (src/fzboot/exceptions/panic.rs): the header, the registers, the stack
    trace and the prompt, written to the text buffer behind its lock.  Waiting for a key and the
    reboot are not part of the model. *)

From stdpp Require Import strings.
From S2P Require Import Prelude Addr Paging Sched MpTable Video.

(** * Text *)

(** The characters of a literal, and a line break. *)
Definition chars (s : string) : list Z := map (λ a, Z.of_N (Ascii.N_of_ascii a)) (String.list_ascii_of_string s).
Definition LF : Z := 0x0A.
Definition hex_digit (d : Z) : Z := if bool_decide (d < 10) then 0x30 + d else 0x57 + d.
(** The [n] low hexadecimal digits. *)
Fixpoint hex_digits (n : nat) (z : Z) : list Z :=
  match n with O => [] | S n => hex_digits n (z / 16) ++ [hex_digit (z mod 16)] end.
(** [{:#018x}] and [{:x}]. *)
Definition fmt_018x (z : Z) : list Z := chars "0x" ++ hex_digits 16 z.
Definition fmt_x (z : Z) : list Z := hex_digits (Z.to_nat (Z.log2 z / 4 + 1)) z.

(** * The text buffer and its lock *)

Record PanicState := { ps_fb : TextFrameBuffer; ps_locked : bool }.
(** A spin lock that is held is never obtained. *)
Definition lock (s : PanicState) : outcome PanicState :=
  if ps_locked s then NoFuel else Done {| ps_fb := ps_fb s; ps_locked := true |}.
(** [force_unlock], or the drop of the guard. *)
Definition unlock (s : PanicState) : PanicState := {| ps_fb := ps_fb s; ps_locked := false |}.
Definition on_fb (f : TextFrameBuffer → outcome TextFrameBuffer) (s : PanicState) : outcome PanicState :=
  fb ← f (ps_fb s); Done {| ps_fb := fb; ps_locked := ps_locked s |}.

Record ExceptionStackFrame := {
  ex_error_code : Z; ex_rip : Z; ex_cs : Z; ex_rflags : Z; ex_stack_ptr : Z; ex_stack_segment : Z;
  ex_registers : GeneralPurposeRegisters
}.

Section panic.
Context `{FN : Font}.

Definition PANIC_COLOR : RgbaColor := {| red := 255; green := 50; blue := 50; alpha := 0 |}.
Definition centered (text : list Z) (reversed : bool) : TextFrameBuffer → outcome TextFrameBuffer :=
  write_str_bitmap_centered text (Z.of_nat (length text)) reversed.
Definition write_panic_header (s : PanicState) : outcome PanicState :=
  s ← lock s;
  s ← on_fb (λ fb, Done (clear (set_background (Some PANIC_COLOR) fb))) s;
  s ← on_fb (centered (chars "KERNEL PANIC") true) s;
  s ← on_fb (write_str [LF]) s;
  s ← on_fb (write_str_bitmap (chars "The system encountered a fatal exception and cannot continue properly. " ++ [LF; LF])) s;
  Done (unlock s).

(** The trace follows the frame pointers of the higher half, at most seven of them; [rd] reads
    a word of the stack. *)
Definition trace_line (pos addr : Z) : list Z :=
  chars "[" ++ [0x30 + pos] ++ chars "] " ++ fmt_018x addr ++ chars " " ++ [LF].
Fixpoint trace_loop (n : nat) (rd : Z → outcome Z) (stack_frame_pos frame_base_ptr : Z) (s : PanicState) : outcome PanicState :=
  if negb (bool_decide (frame_base_ptr = 0)) && bool_decide (Z.land frame_base_ptr (Z.shiftl 1 63) ≠ 0) then
    match n with
    | O => Done s
    | S n =>
        return_addr ← rd (u64 (frame_base_ptr + 8));
        s ← (if bool_decide (return_addr ≠ 0) then on_fb (write_str_bitmap (trace_line stack_frame_pos return_addr)) s else Done s);
        frame_base_ptr ← rd frame_base_ptr;
        trace_loop n rd (stack_frame_pos + 1) frame_base_ptr s
    end
  else Done s.
Definition print_stack_trace (rd : Z → outcome Z) (frame_base_ptr : Z) (s : PanicState) : outcome PanicState :=
  s ← lock (unlock s);
  s ← on_fb (write_str_bitmap ([LF; LF] ++ chars "Stack trace: " ++ [LF])) s;
  s ← trace_loop 7 rd 0 frame_base_ptr s;
  Done (unlock s).

(** The first part of [any_key_or_reboot], which keeps the lock. *)
Definition any_key_prompt (s : PanicState) : outcome PanicState :=
  s ← lock s;
  s ← on_fb (write_str [LF; LF; LF]) s;
  on_fb (centered (chars "Press any key to reboot") false) s.


(** A register with its name, and the spaces between two. *)
Definition reg_text (name : string) (v : Z) : list Z := chars name ++ chars ": " ++ fmt_018x v.
Definition GAP : list Z := chars "        ".
Definition row (a b c : list Z) : list Z := a ++ GAP ++ b ++ GAP ++ c ++ [LF].
Definition register_dump (f : ExceptionStackFrame) : list Z :=
  let r := ex_registers f in
  row (reg_text "RSP" (u64_from_VirtAddr (ex_stack_ptr f))) (reg_text "RBP" (rbp r)) (reg_text "RFLAGS" (ex_rflags f))
  ++ row (reg_text "RAX" (rax r)) (reg_text "RBX" (rbx r)) (reg_text "RCX" (rcx r))
  ++ row (reg_text "RDX" (rdx r)) (reg_text "RSI" (rsi r)) (reg_text "RDI" (rdi r))
  ++ row (reg_text "R08" (r8 r)) (reg_text "R09" (r9 r)) (reg_text "R10" (r10 r))
  ++ row (reg_text "R11" (r11 r)) (reg_text "R12" (r12 r)) (reg_text "R13" (r13 r))
  ++ row (reg_text "R14" (r14 r)) (reg_text "R15" (r15 r)) (reg_text "RIP" (u64_from_VirtAddr (ex_rip f))).
Definition exception_line (error_msg : list Z) (f : ExceptionStackFrame) : list Z :=
  chars "EXCEPTION_" ++ error_msg ++ chars " (#" ++ fmt_x (ex_error_code f) ++ chars ") STOP at " ++ fmt_018x (ex_rip f) ++ chars " " ++ [LF].
Definition panic_entry_exception (rd : Z → outcome Z) (error_msg : list Z) (f : ExceptionStackFrame) (s : PanicState) : outcome PanicState :=
  s ← write_panic_header (unlock s);
  s ← lock s;
  s ← on_fb (write_str_bitmap (exception_line error_msg f)) s;
  s ← on_fb (write_str [LF; LF; LF]) s;
  s ← on_fb (write_str_bitmap (register_dump f)) s;
  s ← print_stack_trace rd (rbp (ex_registers f)) s;
  any_key_prompt (unlock s).

(** ** What is to be shown

    The text of a panic, without locks and loops.  The trace lists the return addresses other
    than 0 of the chain of frames from [p] on, as far as it is in the higher half and at most
    [n] frames. *)
Definition higher (p : Z) : bool := negb (bool_decide (p = 0)) && bool_decide (Z.land p (Z.shiftl 1 63) ≠ 0).
Fixpoint trace_text (n : nat) (rd : Z → outcome Z) (pos p : Z) : list Z :=
  match n with
  | O => []
  | S n =>
      if higher p then
        match rd (u64 (p + 8)), rd p with
        | Done r, Done v => (if bool_decide (r ≠ 0) then trace_line pos r else []) ++ trace_text n rd (pos + 1) v
        | _, _ => []
        end
      else []
  end.
(** The frames that the trace follows can be read. *)
Fixpoint followed (n : nat) (rd : Z → outcome Z) (p : Z) : Prop :=
  match n with
  | O => True
  | S n => higher p = true → (∃ r, rd (u64 (p + 8)) = Done r) ∧ ∃ v, rd p = Done v ∧ followed n rd v
  end.
Definition panic_screen (body : TextFrameBuffer → outcome TextFrameBuffer) (rd : Z → outcome Z) (base_ptr : Z)
    (fb : TextFrameBuffer) : outcome TextFrameBuffer :=
  fb ← centered (chars "KERNEL PANIC") true (clear (set_background (Some PANIC_COLOR) fb));
  fb ← write_str [LF] fb;
  fb ← write_str_bitmap (chars "The system encountered a fatal exception and cannot continue properly. " ++ [LF; LF]) fb;
  fb ← body fb;
  fb ← write_str_bitmap ([LF; LF] ++ chars "Stack trace: " ++ [LF] ++ trace_text 7 rd 0 base_ptr) fb;
  fb ← write_str [LF; LF; LF] fb;
  centered (chars "Press any key to reboot") false fb.
Definition exception_body (error_msg : list Z) (f : ExceptionStackFrame) (fb : TextFrameBuffer) : outcome TextFrameBuffer :=
  fb ← write_str_bitmap (exception_line error_msg f) fb;
  fb ← write_str [LF; LF; LF] fb;
  write_str_bitmap (register_dump f) fb.

Lemma write_chars_app put a b fb : write_chars put (a ++ b) fb = (fb ← write_chars put a fb; write_chars put b fb).
Proof using Type.
  revert fb. induction a as [|ch a IH]; intros fb; [done|]. cbn [app write_chars]. destruct (put ch fb); cbn [mbind outcome_bind]; [apply IH|done..].
Qed.
Lemma trace_loop_text n rd pos p s : followed n rd p →
  trace_loop n rd pos p s = on_fb (write_str_bitmap (trace_text n rd pos p)) s.
Proof using Type.
  revert pos p s. induction n as [|n IH]; intros pos p s Hf; cbn [trace_loop trace_text]; fold (higher p).
  - unfold on_fb. cbn. by destruct (higher p), s.
  - destruct (higher p) eqn:Hh; [|by destruct s]. destruct (Hf Hh) as ((r & Hr) & v & Hv & Hf'). rewrite Hr, Hv. cbn [mbind outcome_bind].
    unfold on_fb, write_str_bitmap in *. rewrite write_chars_app. case_bool_decide; cbn [write_chars mbind outcome_bind].
    + destruct (write_chars _ (trace_line pos r) (ps_fb s)); cbn [mbind outcome_bind]; [|done..]. by rewrite IH.
    + by rewrite IH.
Qed.
(** Both entries write the screen and keep the lock, whoever had it. *)
Lemma panic_entry_screen body rd base_ptr s : followed 7 rd base_ptr →
  (s ← write_panic_header (unlock s); s ← lock s; s ← on_fb body s; s ← print_stack_trace rd base_ptr s; any_key_prompt (unlock s))
  = (fb ← panic_screen body rd base_ptr (ps_fb s); Done {| ps_fb := fb; ps_locked := true |}).
Proof using Type.
  intros Hf. unfold write_panic_header, panic_screen, on_fb, lock, unlock. cbn [ps_fb ps_locked mbind outcome_bind].
  destruct (centered (chars "KERNEL PANIC") true _) as [f1| | |]; cbn [mbind outcome_bind ps_fb ps_locked]; [|done..].
  destruct (write_str [LF] f1) as [f2| | |]; cbn [mbind outcome_bind ps_fb ps_locked]; [|done..].
  destruct (write_str_bitmap _ f2) as [f3| | |]; cbn [mbind outcome_bind ps_fb ps_locked]; [|done..].
  destruct (body f3) as [f4| | |]; cbn [mbind outcome_bind ps_fb ps_locked]; [|done..].
  unfold print_stack_trace, any_key_prompt, on_fb, lock, unlock. cbn [ps_fb ps_locked mbind outcome_bind].
  assert (E : ∀ t, [LF; LF] ++ chars "Stack trace: " ++ [LF] ++ t = ([LF; LF] ++ chars "Stack trace: " ++ [LF]) ++ t) by (intros t; by rewrite <- !app_assoc).
  rewrite E. unfold write_str_bitmap. rewrite (write_chars_app _ (_ ++ _ ++ _) (trace_text _ _ _ _)).
  destruct (write_chars (λ ch, putchar_bitmap ch false) ([LF; LF] ++ chars "Stack trace: " ++ [LF]) f4) as [f5| | |]; cbn [mbind outcome_bind ps_fb ps_locked]; [|done..].
  rewrite trace_loop_text by done. unfold on_fb, write_str_bitmap. cbn [ps_fb ps_locked].
  destruct (write_chars _ _ f5) as [f6| | |]; cbn [mbind outcome_bind ps_fb ps_locked]; [|done..].
  destruct (write_str [LF; LF; LF] f6) as [f7| | |]; cbn [mbind outcome_bind ps_fb ps_locked]; [|done..]. done.
Qed.
End panic.

(** * The screens are shown *)

(** The fonts have a half-width glyph for each printable ASCII character, and their characters
    are not narrower than 7 pixels. *)
Class AsciiGlyphs `{Font} := {
  ascii_glyph ch : 0x20 ≤ ch < 0x7F → ∃ rows, get_glyph ch = Some (Halfwidth rows) ∧ length rows = 16%nat;
  ascii_width : 7 ≤ CHAR_WIDTH
}.

Section shown.
Context `{FL : FontLaws} `{AG : !AsciiGlyphs}.
Implicit Types (fb : TextFrameBuffer) (s : PanicState).

(** Text that the bitmap font can show. *)
Definition ascii (ch : Z) : Prop := ch = LF ∨ 0x20 ≤ ch < 0x7F.
#[local] Instance ascii_dec ch : Decision (ascii ch).
Proof using Type. unfold ascii. apply _. Defined.

Lemma hex_digits_ascii n z : Forall ascii (hex_digits n z).
Proof using Type.
  revert z. induction n as [|n IH]; intros z; cbn [hex_digits]; [done|]. apply Forall_app. split; [apply IH|].
  constructor; [|done]. right. unfold hex_digit. pose proof (Z.mod_pos_bound z 16 ltac:(lia)). case_bool_decide; lia.
Qed.
Lemma fmt_018x_ascii z : Forall ascii (fmt_018x z).
Proof using Type. apply Forall_app. split; [by apply (bool_decide_unpack _); vm_compute|apply hex_digits_ascii]. Qed.
Lemma length_hex_digits n z : length (hex_digits n z) = n.
Proof using Type. revert z. induction n as [|n IH]; intros z; [done|]. cbn. rewrite length_app, IH. cbn. lia. Qed.

(** A screen with the panic background, whose cursor went down by at most [k] lines. *)
Record screen_at (md : FrameBufferMetadata) (k : Z) fb : Prop := {
  at_screen : screen_ok fb; at_cursor : cursor_ok fb; at_md : metadata fb = md; at_line : cursor_y fb ≤ 2 ^ 16 + 20 * k
}.
Definition safe_put (md : FrameBufferMetadata) (put : TextFrameBuffer → outcome TextFrameBuffer) : Prop :=
  ∀ k fb, 0 ≤ k < 2 ^ 40 → screen_at md k fb → ∃ fb', put fb = Done fb' ∧ screen_at md (k + 1) fb'.

Lemma putchar_put md ch c : safe_put md (putchar ch c).
Proof using FL.
  intros k fb Hk [Hs Hc Hm Hl]. destruct (putchar_safe ch c fb Hs Hc) as (fb' & Hp & Hs' & Hm' & Hc' & Hy); [lia|].
  exists fb'. split; [done|]. split; [done|done|by rewrite Hm'|lia].
Qed.
Lemma control_put md fb k : 0 ≤ k < 2 ^ 40 → screen_at md k fb →
  screen_at md (k + 1) (newline fb) ∧ screen_at md (k + 1) (carriage_return fb).
Proof using FL.
  intros Hk Hat. destruct (putchar_put md 0x0A None k fb Hk Hat) as (f1 & E1 & H1). destruct (putchar_put md 0x0D None k fb Hk Hat) as (f2 & E2 & H2).
  change (Done (newline fb) = Done f1) in E1. change (Done (carriage_return fb) = Done f2) in E2.
  injection E1 as <-. injection E2 as <-. done.
Qed.
Lemma putchar_bitmap_put md ch rev : ascii ch → safe_put md (putchar_bitmap ch rev).
Proof using All.
  intros Ha k fb Hk Hat. destruct (control_put md fb k Hk Hat) as [Hn Hr]. unfold putchar_bitmap.
  destruct (decide (ch = 0x0A)) as [->|Hlf]; [by exists (newline fb)|]. destruct Ha as [->|Ha]; [done|].
  rewrite !bool_decide_false by lia. destruct Hat as [Hs Hc Hm Hl]. destruct (make_room_fits fb Hs Hc) as (Rs & Rm & Rx0 & Rx & Ry0 & Ry).
  destruct (ascii_glyph ch Ha) as (rows & -> & Hrows). cbn [unwrap mbind outcome_bind].
  assert (Hw : ∃ fb', write_bitmap rev rows (make_room fb) = Done fb' ∧ screen_at md (k + 1) fb').
  { unfold write_bitmap. pose proof ascii_width as H7. pose proof (ok_dims _ Hs) as [Hd1 Hd2]. unfold CHAR_HEIGHT, BORDER in *.
    destruct (write_rows_draws grey (map (glyph_row rev) rows) 8 (cursor_x (make_room fb)) (cursor_y (make_room fb)) (make_room fb))
      as (f1 & -> & (Fm & Fx & Fy & Fl) & _); [done| |done|rewrite Rm; lia|done|rewrite length_map, Hrows, Rm; lia|].
    { apply Forall_map, Forall_true. intros r. done. }
    cbn [mbind outcome_bind]. eexists. split; [done|]. change (2 ^ 16) with 65536 in *. change (2 ^ 32) with 4294967296.
    assert (Hx : cursor_x (advance_cursor (8 + CHAR_SPACING) f1) = cursor_x (make_room fb) + 8).
    { cbn [advance_cursor set_cursor cursor_x]. rewrite Fx. unfold CHAR_SPACING. apply wrap_id. unfold in_width. change (2 ^ 64) with (65536 * 2 ^ 48). lia. }
    assert (Hy : cursor_y (advance_cursor (8 + CHAR_SPACING) f1) = cursor_y (make_room fb)) by done.
    split; [by apply (screen_same (make_room fb))| |cbn; congruence|rewrite Hy; lia].
    split; [rewrite Hx; change (2 ^ 32) with 4294967296; lia|rewrite Hy; change (2 ^ 60) with (65536 * 2 ^ 44); lia]. }
  destruct rev; exact Hw.
Qed.
Lemma write_chars_put md put text k fb : Forall (λ ch, safe_put md (put ch)) text → 0 ≤ k → k + Z.of_nat (length text) < 2 ^ 40 →
  screen_at md k fb → ∃ fb', write_chars put text fb = Done fb' ∧ screen_at md (k + Z.of_nat (length text)) fb'.
Proof using Type.
  revert k fb. induction text as [|ch text IH]; intros k fb Hp Hk Hl Hat; cbn [write_chars length] in *.
  - exists fb. by rewrite Z.add_0_r.
  - apply Forall_cons in Hp as [Hch Hp]. destruct (Hch k fb) as (f1 & -> & H1); [lia|done|]. cbn [mbind outcome_bind].
    destruct (IH (k + 1) f1 Hp) as (f2 & -> & H2); [lia|lia|done|]. exists f2. split; [done|].
    by replace (k + Z.of_nat (S (length text))) with (k + 1 + Z.of_nat (length text)) by lia.
Qed.
Lemma screen_at_mono md k k' fb : k ≤ k' → screen_at md k fb → screen_at md k' fb.
Proof using Type. intros Hk [? ? ? ?]. split; [done..|lia]. Qed.

(** The state of a screen after at most [k] lines, and of the lock. *)
Definition state_at (md : FrameBufferMetadata) (k : Z) (locked : bool) s : Prop := screen_at md k (ps_fb s) ∧ ps_locked s = locked.
Lemma on_chars md put text k k' l s : Forall (λ ch, safe_put md (put ch)) text → 0 ≤ k → k + Z.of_nat (length text) ≤ k' → k' < 2 ^ 40 →
  state_at md k l s → ∃ s', on_fb (write_chars put text) s = Done s' ∧ state_at md k' l s'.
Proof using Type.
  intros Hp Hk Hl Hk' [Hat Hlock]. destruct (write_chars_put md put text k (ps_fb s) Hp Hk) as (fb & E & H'); [lia|done|].
  unfold on_fb. rewrite E. eexists. split; [done|]. split; [|done]. by apply (screen_at_mono md (k + Z.of_nat (length text))).
Qed.
Lemma on_bitmap md text k k' l s : Forall ascii text → 0 ≤ k → k + Z.of_nat (length text) ≤ k' → k' < 2 ^ 40 →
  state_at md k l s → ∃ s', on_fb (write_str_bitmap text) s = Done s' ∧ state_at md k' l s'.
Proof using All.
  intros Ha. apply on_chars. eapply Forall_impl; [exact Ha|]. intros ch. apply putchar_bitmap_put.
Qed.
Lemma on_str md text k k' l s : 0 ≤ k → k + Z.of_nat (length text) ≤ k' → k' < 2 ^ 40 →
  state_at md k l s → ∃ s', on_fb (write_str text) s = Done s' ∧ state_at md k' l s'.
Proof using FL. apply on_chars, Forall_true. intros ch. apply putchar_put. Qed.
Lemma on_centered md text reversed k l s : Forall ascii text → 8 * Z.of_nat (length text) ≤ width md → 0 ≤ k < 2 ^ 39 →
  state_at md k l s → ∃ s', on_fb (centered text reversed) s = Done s' ∧ state_at md (k + 2 ^ 15) l s'.
Proof using All.
  intros Ha Hw Hk [Hat Hlock]. pose proof (ok_dims _ (at_screen _ _ _ Hat)) as [Hd _]. rewrite (at_md _ _ _ Hat) in Hd.
  unfold on_fb, centered, write_str_bitmap_centered. rewrite (at_md _ _ _ Hat). change (2 ^ 16) with 65536 in *.
  rewrite (u64_id (_ * 8)) by (change (2 ^ 64) with (65536 * 2 ^ 48); lia). rewrite u64_id by (change (2 ^ 64) with (65536 * 2 ^ 48); lia).
  set (n := Z.to_nat (Z.shiftr _ 4)). assert (Hn : Z.of_nat n ≤ 4096).
  { unfold n. rewrite Z.shiftr_div_pow2 by lia. change (2 ^ 4) with 16. rewrite Z2Nat.id by (apply Z.div_pos; lia). apply Z.lt_succ_r, Z.div_lt_upper_bound; lia. }
  assert (Hsp : Forall (λ ch, safe_put md (putchar_bitmap ch false)) (replicate n 0x20))
    by (apply Forall_replicate, putchar_bitmap_put; right; lia).
  assert (Htx : Forall (λ ch, safe_put md (putchar_bitmap ch reversed)) text)
    by (eapply Forall_impl; [exact Ha|]; intros ch; apply putchar_bitmap_put).
  change (2 ^ 39) with 549755813888 in Hk.
  destruct (write_chars_put md _ _ k (ps_fb s) Hsp) as (f1 & -> & H1); [lia|rewrite length_replicate; lia|done|]. cbn [mbind outcome_bind].
  rewrite length_replicate in H1.
  destruct (write_chars_put md _ _ (k + Z.of_nat n) f1 Htx ltac:(lia) ltac:(lia) H1) as (f2 & -> & H2). cbn [mbind outcome_bind].
  destruct (write_chars_put md _ _ (k + Z.of_nat n + Z.of_nat (length text)) f2 Hsp ltac:(lia) ltac:(rewrite length_replicate; lia) H2) as (f3 & -> & H3). cbn [mbind outcome_bind].
  rewrite length_replicate in H3. eexists. split; [done|]. split; [|done]. eapply screen_at_mono; [|exact H3]. change (2 ^ 15) with 32768. lia.
Qed.

Lemma literal_ascii (t : list Z) : bool_decide (Forall ascii t) = true → Forall ascii t.
Proof using Type. apply bool_decide_eq_true_1. Qed.

Section screens.
Context (s0 : PanicState) (Hs0 : screen_ok (ps_fb s0)) (Hwide : 184 ≤ width (metadata (ps_fb s0))).
(** The screen with the background of a panic. *)
Let md : FrameBufferMetadata := metadata (set_background (Some PANIC_COLOR) (ps_fb s0)).

Lemma header_shown : ∃ s, write_panic_header (unlock s0) = Done s ∧ state_at md (2 ^ 16) false s.
Proof using All.
  unfold write_panic_header, lock. cbn [unlock ps_locked ps_fb mbind outcome_bind].
  set (s1 := {| ps_fb := ps_fb s0; ps_locked := true |}).
  set (s2 := {| ps_fb := clear (set_background (Some PANIC_COLOR) (ps_fb s0)); ps_locked := true |}).
  change (on_fb (λ fb, Done (clear (set_background (Some PANIC_COLOR) fb))) s1) with (Done s2). cbn [mbind outcome_bind].
  assert (H2 : state_at md 0 true s2).
  { split; [|done]. destruct (clear_frame (set_background (Some PANIC_COLOR) (ps_fb s0))) as (Hm & Hx & Hy). cbn [ps_fb s2].
    split; [|split; [rewrite Hx|rewrite Hy]; unfold BORDER; lia|done|rewrite Hy; unfold BORDER; lia].
    apply (screen_same (set_background (Some PANIC_COLOR) (ps_fb s0))); [done|apply length_clear|]. by destruct Hs0. }
  destruct (on_centered md (chars "KERNEL PANIC") true 0 true s2) as (s3 & -> & H3); [by apply literal_ascii; vm_compute|cbn; lia|lia|done|].
  cbn [mbind outcome_bind]. rewrite Z.add_0_l in H3.
  destruct (on_str md [LF] (2 ^ 15) (2 ^ 15 + 1) true s3) as (s4 & -> & H4); [lia|cbn; lia|lia|done|]. cbn [mbind outcome_bind].
  match goal with |- context [on_fb (write_str_bitmap ?t) s4] =>
    destruct (on_bitmap md t (2 ^ 15 + 1) (2 ^ 16) true s4) as (s5 & -> & H5) end;
    [by apply literal_ascii; vm_compute|lia|by vm_compute|lia|done|].
  cbn [mbind outcome_bind]. exists (unlock s5). split; [done|]. by destruct H5.
Qed.

Context (rd : Z → outcome Z).

Lemma trace_line_ascii pos addr : 0 ≤ pos < 10 → Forall ascii (trace_line pos addr) ∧ Z.of_nat (length (trace_line pos addr)) = 24.
Proof using Type.
  intros Hp. unfold trace_line. split.
  - apply Forall_app_2; [by apply literal_ascii; vm_compute|]. apply Forall_app_2; [constructor; [right; lia|done]|].
    apply Forall_app_2; [by apply literal_ascii; vm_compute|]. apply Forall_app_2; [apply fmt_018x_ascii|].
    by apply literal_ascii; vm_compute.
  - unfold fmt_018x. rewrite !length_app, length_hex_digits. by vm_compute.
Qed.
Lemma trace_shown n pos p k s : 0 ≤ pos → pos + Z.of_nat n = 7 → 0 ≤ k → k + 24 * Z.of_nat n < 2 ^ 38 → followed n rd p → state_at md k true s →
  ∃ s', trace_loop n rd pos p s = Done s' ∧ state_at md (k + 24 * Z.of_nat n) true s'.
Proof using All.
  revert pos p k s. induction n as [|n IH]; intros pos p k s Hp Hn Hk Hk2 Hf Hs; cbn [trace_loop]; fold (higher p).
  - exists s. rewrite Z.add_0_r. by destruct (higher p).
  - change (2 ^ 38) with 274877906944 in *. destruct (higher p) eqn:Hh.
    2: { exists s. split; [done|]. destruct Hs as [Hat Hl]. split; [|done]. by apply (screen_at_mono md k); [lia|]. }
    destruct (Hf Hh) as ((r & Hr) & v & Hv & Hf'). rewrite Hr. cbn [mbind outcome_bind].
    destruct (trace_line_ascii pos r ltac:(lia)) as [Ha Hlen].
    assert (H1 : ∃ s1, (if bool_decide (r ≠ 0) then on_fb (write_str_bitmap (trace_line pos r)) s else Done s) = Done s1 ∧ state_at md (k + 24) true s1).
    { case_bool_decide; [apply (on_bitmap md _ k); [done|lia|lia|lia|done]|]. exists s. split; [done|]. destruct Hs as [Hat Hl]. split; [|done]. by apply (screen_at_mono md k); [lia|]. }
    destruct H1 as (s1 & -> & H1). cbn [mbind outcome_bind]. rewrite Hv. cbn [mbind outcome_bind].
    destruct (IH (pos + 1) v (k + 24) s1) as (s' & -> & H'); [lia..|done|done|]. exists s'. split; [done|].
    by replace (k + 24 * Z.of_nat (S n)) with (k + 24 + 24 * Z.of_nat n) by lia.
Qed.
Lemma stack_trace_shown p k l s : 0 ≤ k < 2 ^ 36 → followed 7 rd p → state_at md k l s →
  ∃ s', print_stack_trace rd p s = Done s' ∧ state_at md (k + 2 ^ 10) false s'.
Proof using All.
  intros Hk Hf [Hat Hl]. unfold print_stack_trace, lock. cbn [unlock ps_locked ps_fb mbind outcome_bind].
  set (s1 := {| ps_fb := ps_fb s; ps_locked := true |}). assert (H1 : state_at md k true s1) by done.
  match goal with |- context [on_fb (write_str_bitmap ?t) s1] =>
    destruct (on_bitmap md t k (k + 16) true s1) as (s2 & -> & H2) end; [by apply literal_ascii; vm_compute|lia|cbn; lia|lia|done|].
  cbn [mbind outcome_bind]. destruct (trace_shown 7 0 p (k + 16) s2) as (s3 & -> & [H3 Hl3]); [lia|done|lia|lia|done|done|].
  cbn [mbind outcome_bind]. exists (unlock s3). split; [done|]. split; [|done]. by apply (screen_at_mono md (k + 16 + 24 * Z.of_nat 7)); [lia|].
Qed.
Lemma prompt_shown k s : 0 ≤ k < 2 ^ 37 → state_at md k false s →
  ∃ s', any_key_prompt s = Done s' ∧ state_at md (k + 2 ^ 16) true s'.
Proof using All.
  intros Hk [Hat Hl]. unfold any_key_prompt, lock. rewrite Hl. cbn [mbind outcome_bind].
  set (s1 := {| ps_fb := ps_fb s; ps_locked := true |}). assert (H1 : state_at md k true s1) by done.
  destruct (on_str md [LF; LF; LF] k (k + 3) true s1) as (s2 & -> & H2); [lia|cbn; lia|lia|done|]. cbn [mbind outcome_bind].
  destruct (on_centered md (chars "Press any key to reboot") false (k + 3) true s2) as (s3 & -> & [H3 Hl3]);
    [by apply literal_ascii; vm_compute|cbn; lia|lia|done|].
  exists s3. split; [done|]. split; [|done]. by apply (screen_at_mono md (k + 3 + 2 ^ 15)); [lia|].
Qed.

(** The state that an entry leaves is the screen, when it returns. *)
Lemma shown_screen (screen : outcome TextFrameBuffer) (o : outcome PanicState) :
  o = (fb ← screen; Done {| ps_fb := fb; ps_locked := true |}) →
  (∃ s, o = Done s ∧ screen_ok (ps_fb s) ∧ bg_color (metadata (ps_fb s)) = Some PANIC_COLOR ∧ ps_locked s = true) →
  ∃ fb, screen = Done fb ∧ o = Done {| ps_fb := fb; ps_locked := true |} ∧ screen_ok fb ∧ bg_color (metadata fb) = Some PANIC_COLOR.
Proof using Type.
  intros Ho (s & Hs & Hok & Hbg & _). rewrite Hs in Ho. symmetry in Ho. apply outcome_bind_Done in Ho as (fb & Hfb & [= <-]). by exists fb.
Qed.
Lemma exception_entry_screen error_msg f : followed 7 rd (rbp (ex_registers f)) →
  panic_entry_exception rd error_msg f s0
  = (fb ← panic_screen (exception_body error_msg f) rd (rbp (ex_registers f)) (ps_fb s0); Done {| ps_fb := fb; ps_locked := true |}).
Proof using Type.
  intros Hf. rewrite <- panic_entry_screen by done. unfold panic_entry_exception. destruct (write_panic_header _) as [s1| | |]; cbn [mbind outcome_bind]; [|done..].
  unfold lock. destruct (ps_locked s1); cbn [mbind outcome_bind]; [done|]. unfold on_fb, exception_body. cbn [ps_fb ps_locked].
  destruct (write_str_bitmap (exception_line error_msg f) _) as [f1| | |]; cbn [mbind outcome_bind ps_fb ps_locked]; [|done..].
  destruct (write_str [LF; LF; LF] f1) as [f2| | |]; cbn [mbind outcome_bind ps_fb ps_locked]; [|done..].
  by destruct (write_str_bitmap (register_dump f) f2).
Qed.


Lemma reg_text_ascii name v : bool_decide (Forall ascii (chars name)) = true → Forall ascii (reg_text name v).
Proof using Type.
  intros Hn. apply Forall_app_2; [by apply literal_ascii|]. apply Forall_app_2; [by apply literal_ascii; vm_compute|apply fmt_018x_ascii].
Qed.
Lemma row_ascii a b c : Forall ascii a → Forall ascii b → Forall ascii c → Forall ascii (row a b c).
Proof using Type.
  intros Ha Hb Hc. unfold row. assert (Hg : Forall ascii GAP) by (by apply literal_ascii; vm_compute).
  do 5 (apply Forall_app_2; [done|]). by apply literal_ascii; vm_compute.
Qed.
Lemma register_dump_ascii f : Forall ascii (register_dump f) ∧ Z.of_nat (length (register_dump f)) ≤ 2 ^ 10.
Proof using Type.
  unfold register_dump. split.
  - do 5 (apply Forall_app_2; [apply row_ascii; by apply reg_text_ascii; vm_compute|]). apply row_ascii; by apply reg_text_ascii; vm_compute.
  - unfold row, reg_text, fmt_018x. rewrite !length_app, !length_hex_digits. by vm_compute.
Qed.

(** An exception shows its screen in the same way, with the values of the registers. *)
Theorem exception_panic_shown error_msg f : Forall ascii error_msg → Z.of_nat (length error_msg) < 2 ^ 32 → in_width 64 (ex_error_code f) →
  followed 7 rd (rbp (ex_registers f)) →
  ∃ fb, panic_screen (exception_body error_msg f) rd (rbp (ex_registers f)) (ps_fb s0) = Done fb
  ∧ panic_entry_exception rd error_msg f s0 = Done {| ps_fb := fb; ps_locked := true |}
  ∧ screen_ok fb ∧ bg_color (metadata fb) = Some PANIC_COLOR.
Proof using All.
  intros Ha Hl Hcode Hf. apply shown_screen; [by apply exception_entry_screen|].
  change (2 ^ 32) with 4294967296 in Hl. unfold panic_entry_exception. destruct header_shown as (s1 & -> & [H1 L1]). cbn [mbind outcome_bind].
  unfold lock. rewrite L1. cbn [mbind outcome_bind]. set (s2 := {| ps_fb := ps_fb s1; ps_locked := true |}).
  assert (Hdig : Z.of_nat (length (fmt_x (ex_error_code f))) ≤ 64).
  { unfold fmt_x. rewrite length_hex_digits. destruct Hcode as [H0 Hc]. pose proof (Z.log2_nonneg (ex_error_code f)).
    assert (Z.log2 (ex_error_code f) < 64) by (destruct (decide (ex_error_code f = 0)) as [->|]; [done|apply Z.log2_lt_pow2; lia]).
    rewrite Z2Nat.id by (pose proof (Z.div_pos (Z.log2 (ex_error_code f)) 4); lia). pose proof (Z.div_le_upper_bound (Z.log2 (ex_error_code f)) 4 63). lia. }
  destruct (on_bitmap md (exception_line error_msg f) (2 ^ 16) (2 ^ 33) true s2) as (s3 & -> & H3);
    [|lia|unfold exception_line, fmt_018x; rewrite !length_app, (length_hex_digits 16); cbn -[fmt_x]; lia|lia|done|].
  { unfold exception_line. do 7 (apply Forall_app_2; [first [done|apply fmt_018x_ascii|apply hex_digits_ascii|by apply literal_ascii; vm_compute]|]).
    by apply literal_ascii; vm_compute. }
  cbn [mbind outcome_bind]. destruct (on_str md [LF; LF; LF] (2 ^ 33) (2 ^ 33 + 3) true s3) as (s4 & -> & H4); [lia|cbn; lia|lia|done|].
  cbn [mbind outcome_bind]. destruct (register_dump_ascii f) as [Da Dl].
  destruct (on_bitmap md (register_dump f) (2 ^ 33 + 3) (2 ^ 33 + 2 ^ 11) true s4) as (s5 & -> & H5); [done|lia|lia|lia|done|].
  cbn [mbind outcome_bind]. destruct (stack_trace_shown (rbp (ex_registers f)) (2 ^ 33 + 2 ^ 11) true s5) as (s6 & -> & [H6 L6]); [lia|done|done|].
  cbn [mbind outcome_bind]. destruct (prompt_shown (2 ^ 33 + 2 ^ 11 + 2 ^ 10) (unlock s6)) as (s7 & -> & [H7 L7]); [lia|done|].
  exists s7. split_and!; [done|by destruct H7|by rewrite (at_md _ _ _ H7)|done].
Qed.
End screens.
End shown.

(** * A screen and a stack of two frames *)

#[export] Instance block_font_ascii : AsciiGlyphs.
Proof. split; [by intros ch _; eexists|done]. Qed.
Definition wide_screen : TextFrameBuffer :=
  {| buffer := replicate (Z.to_nat 48000) 0; cursor_x := 6; cursor_y := 6;
     metadata := {| layout := BGR; bytes_per_px := 4; width := 200; height := 60; stride := 200; bg_color := Some DEFAULT_BG_COLOR |} |}.
Lemma wide_screen_ok : screen_ok wide_screen.
Proof. split; cbn -[replicate]; [lia|rewrite length_replicate; lia|done|lia|unfold BORDER, CHAR_HEIGHT; lia]. Qed.
(** The text buffer was locked by the code that panicked. *)
Definition locked_screen : PanicState := {| ps_fb := wide_screen; ps_locked := true |}.
Definition two_frames (a : Z) : outcome Z :=
  Done (if bool_decide (a = 0xFFFF800000001000) then 0xFFFF800000002000 else if bool_decide (a = 0xFFFF800000001008) then 0x1234 else 0).
Lemma two_frames_followed p : followed 7 two_frames p.
Proof. generalize 7%nat as n. intros n. revert p. induction n as [|n IH]; intros p; [done|]. intros _. split; [by eexists|]. by eexists. Qed.

Lemma exception_panic_shown_witness : ∃ fb, panic_entry_exception two_frames (chars "PAGE_FAULT")
    {| ex_error_code := 2; ex_rip := 0x1000; ex_cs := 8; ex_rflags := 2; ex_stack_ptr := 0x2000; ex_stack_segment := 16; ex_registers := gpr_default |} locked_screen
    = Done {| ps_fb := fb; ps_locked := true |}
  ∧ screen_ok fb.
Proof.
  destruct (exception_panic_shown locked_screen wide_screen_ok ltac:(cbn; lia) two_frames (chars "PAGE_FAULT")
    {| ex_error_code := 2; ex_rip := 0x1000; ex_cs := 8; ex_rflags := 2; ex_stack_ptr := 0x2000; ex_stack_segment := 16; ex_registers := gpr_default |})
    as (fb & _ & He & Hs & _); [by apply literal_ascii; vm_compute|by vm_compute|done|apply two_frames_followed|]. exists fb. split; [exact He|exact Hs].
Defined.
